(* ===== verification/_CoqProject ===== *)
-Q . S2P
Prelude.v
Json.v
JsonRoundTrip.v
Uri.v
RegExp.v
RegistryTypes.v
Program.v
RegistryNormalize.v
TurnIndex.v
ChatWire.v
ChatTurnStores.v
ChatSync.v
ChatReadRepair.v
ChatDurablePersist.v
ChatTurnView.v
ChatPromptQueue.v
ChatSessionKey.v
ChatComposer.v
TerminalEncoding.v
TerminalSync.v
PreviewWorkbench.v
HubPreferences.v
WorkspaceUi.v
RegistryClient.v
RegistryRepository.v
SessionReplica.v
WorkspaceService.v
PortRelayTargets.v
Collation.v
ChatIndexState.v
CacheEviction.v
ChatCacheTurns.v
ChatCache.v
ChatCacheSync.v
WorkspaceSettings.v
WorkspaceCaches.v
WorkspaceStorage.v
WorkspaceStore.v
WorkspaceController.v
FileSearchTree.v
VoiceInput.v
TtsPlayback.v
TtsText.v
GitViews.v
ChatQuickSwitch.v
ChatSessionHelpers.v
ChatDisplayIndex.v
AppMessages.v
ChatSend.v
ChatSendSettles.v
ChatSendQueue.v
Double.v
ChatPromptParts.v
ChatComposerStatus.v
PreviewNavigation.v
Grouping.v
TokenStats.v
ChatUpload.v
VoiceFlow.v
RegistryAuth.v
AppConnection.v
SettingsViews.v
Diagnostics.v
PromptNotifications.v
SettingsHistory.v
ShellGeometry.v
