(* ===== verification/Prelude.v ===== *)
(** * A verification of the WheelMaker web client

    WheelMaker's web client ([app/web/src]) shows and drives coding-agent sessions that
    run on remote hubs.  A registry server relays requests and events over a WebSocket;
    the client keeps replicas of what the hubs own (session transcripts, terminals, the
    index of projects and sessions), repairs them when events are lost, persists part of
    them in IndexedDB, sends prompts, and keeps the state of its own shell.  This library
    models the parts of the client that hold state or transform data and proves what makes
    them correct.  The React components, which render and wire events, are not modelled,
    but for the functions of [app/WorkspaceApp.tsx] that keep state.

    ** How the parts interact

    The connection and what is asked over it:
    - [registry/RegistryClient.ts] ([RegistryClient]): requests with timeouts and aborts,
      responses matched by id, events handed to subscribers.  [registry/RegistryRepository.ts]
      ([RegistryRepository], its normalisations in [RegistryNormalize]) is one function per
      request; [registry/RegistryWorkspaceService.ts] ([WorkspaceService]) connects, selects
      a project and guards every request by it.
    - [AppConnection] is how [app/WorkspaceApp.tsx] and [platform/pwa/connection.ts] keep
      the connection: connecting, reconnecting, the supervisor, login and logout;
      [RegistryAuth] is the session of the browser with the registry,
      [registry/RegistryWebAuthClient.ts] and [RegistryAuthController.ts].
    - [workspace/WorkspaceStore.ts] and [workspace/WorkspaceController.ts] ([WorkspaceStore],
      [WorkspaceController]) answer from the persisted state what they can and ask the
      service for the rest.

    Transcripts:
    - A [session.message] event passes the wire gate [chat/chatWire.ts] ([ChatWire]) and
      is merged into the raw turns of its session, [chat/turns/chatTurnStores.ts]
      ([ChatTurnStores], on the indexes of [TurnIndex]); [chat/turns/chatSync.ts]
      ([ChatSync]) keeps the list of decoded messages.  A gap asks for a read, which
      [chat/turns/chatReadRepair.ts] ([ChatReadRepair]) runs one at a time per session;
      [chat/turns/chatDurablePersist.ts] ([ChatDurablePersist]) batches what is to be
      written.  [SessionReplica] composes the gate, the store, the repository and the
      repair with a hub, as [app/WorkspaceApp.tsx] does.
    - [ChatTurnView] has the views computed from turns (prompt status, plan, copy ranges),
      [ChatDisplayIndex] the rows of the transcript.

    Prompts:
    - [ChatComposer] is the prompt being written, [ChatPromptParts] the parts of its text,
      [ChatUpload] the chunks of its attachments, [ChatComposerStatus] the usage and state
      shown beside it (on the doubles of [Double]), [ChatPromptQueue] the prompts waiting
      for a session, [ChatSessionHelpers] drafts, archiving, searching and actions of
      sessions.
    - [ChatSend] is how [app/WorkspaceApp.tsx] sends: [sendChatMessage] and what it awaits,
      the prompt waiting for its confirmation, draining, compactions, as events on one
      state; [AppMessages] has the functions it uses.  [ChatSendSettles] and
      [ChatSendQueue] have its two theorems.
    - [VoiceInput] has the queue of audio and the session of a dictation, [VoiceFlow] the
      dictation as [app/WorkspaceApp.tsx] runs it; [TtsText] and [TtsPlayback] are reading
      aloud.

    The rest of the workspace:
    - [terminal/terminalSync.ts] ([TerminalSync]) replicates terminals in the same way as
      transcripts, on bytes decoded by [terminal/terminalEncoding.ts] ([TerminalEncoding]).
    - [chat/session/chatIndexState.ts] ([ChatIndexState]) merges and orders projects and
      sessions, [ChatQuickSwitch] lists the recent ones, [ChatSessionKey] has their keys.
    - [workspace/WorkspacePersistence.ts]: [CacheEviction] is the budget, [ChatCacheTurns]
      the accepted turns and the reconciliation of a session with its cursor, [ChatCache]
      the operations, rows and restore of the chat cache, and [ChatCacheSync] its life
      across restarts; [WorkspaceSettings] and [WorkspaceStorage] are the settings and
      their write queue, [WorkspaceCaches] the caches of commits, diffs and files.
    - [PreviewWorkbench] is the preview pane, [PreviewNavigation] its links and jumps,
      [GitViews] patches and the working tree,
      [FileSearchTree] the tree of search results, [PortRelayTargets] the relayed ports,
      [HubPreferences] the colours and visibility of hubs, [WorkspaceUi] the reducer of the
      shell.
    - [TokenStats] is the page of token statistics with its scans of hubs, [Grouping] the
      grouping it shares, [SettingsViews] the other settings pages, [SettingsHistory] how the
      pages follow the browser's history on a narrow screen; [PromptNotifications] tells of
      prompts that have ended; [ShellGeometry] places what floats over the chat;
      [Diagnostics] is the debug log, its stores and its redaction.

    [Prelude] has what the parts share: the source's numbers, strings, lists and maps, and
    their lemmas.  [Json], [Uri], [RegExp] and [Collation] are the language functions the
    client uses, each behind a class where its callers need only a few laws: [JSON] with
    [JSONRoundTrip] (proved of the language's JSON in [JsonRoundTrip]), [Collation] for
    [localeCompare], [Dates] for the engine's [Date.parse].  [RegistryTypes] has the shared
    records of [registry/registryTypes.ts].

    ** Conventions

    A JavaScript number is a [num]; turn indexes, sequence numbers, counters and times,
    which the code keeps integral, are [Z].  An [unknown] is a [value].  A string is a
    [string] of code units below 256.  A [Map] or object whose order can be observed is an
    association list in insertion order ([dget], [dset], [ddelete]); others are [gmap]s.
    [Array.sort] is the stable [js_sort].  Time and generated ids are arguments, and so is
    what packages compute (gitdiff-parser in [GitViews]).

    A function that only throws returns an [option].  A function that awaits requests is a
    [prog] of [Program]: a tree of calls with the continuation of each answer, [Throw] a
    throw; a handler answers its calls.  Where calls interleave, a function is cut at its
    awaits into transitions on a state that says where each call waits, and the theorems
    quantify over runs of events.

    A loop of the source is a structural recursion where it can be.  Where fuel is used
    it is a bound on the progress the loop makes, named with the definition: the number of
    finished turns for a prefix of them, the length of a text for a parser; and the
    theorems state what the loop returns, so that too little fuel would make them false.

    ** What the theorems show

    - Replicas.  A hub may publish a finished turn again in a new version (a tool call, a
      plan), so a transcript has versions of its turns: the turn store holds a gap-free
      prefix of the session's turns, each in the last finished version that arrived, under
      every interleaving of events, reads, cache loads and resets
      ([replica_consistent_prefix]); an answered read brings the turns after the cursor
      ([read_repair_converges]), and so does the composition with a hub
      ([session_replicated]).  A view of a terminal is a snapshot and the outputs after it,
      without gap or repetition ([terminal_view_consistent]).
    - Requests and queues: none is lost, answered twice or left hanging
      ([requests_accounted], [response_correlated], [requests_never_hang],
      [repair_requests_served], [repair_runs_exclusive], [persist_exactly_once],
      [queue_accounting], [refresh_coalesces], [voice_chunks_in_order],
      [token_scans_settle], [attachment_upload_exact]).
    - The connection: what it keeps when it fails ([connect_contract]), that a lost one is
      tried again ([reconnection_goes_on]), and that what is shown of the login follows the
      registry ([auth_views_current]).
    - Sending and dictating: the send button is not stuck, but where a pending prompt is
      moved under a send of its own ([send_always_settles]), a
      queued prompt is not lost ([queued_prompt_kept]), a dictation always has something
      that ends it ([voice_never_stuck]), an ended prompt is notified once
      ([prompt_notified_once]).
    - Leaving: on a narrow screen back closes the settings ([settings_back_closes]).
    - Reading aloud: one voice at a time, and it ends ([tts_player_sound],
      [tts_playback_ends]).
    - Secrets: what the debug stores keep does not depend on them ([secrets_never_logged]).
    - Normalisation: what the repository makes of an answer ([project_snapshot_spec],
      [session_summary_stable]); cached directories are those of the hub
      ([directory_cache_transparent]).
    - Persistence: the invariant of the chat cache ([chat_cache_consistent]) and what comes
      back from the database: the chat contents and the cache entries of the last thirty
      days, and the settings ([chat_cache_restart], [caches_survive_restart],
      [settings_survive_restart]).
    - Functions: the edits, links and jumps of the views
      ([insert_tokens_spec], [inline_parts_cover], [workbench_consistent],
      [stale_load_ignored], [preview_link_spec], [jump_ends], [base64_roundtrip]); each file has further theorems on its
      merges, orders, keys and trees.
    - Some lemmas show where the code does otherwise than it means to:
      [deleted_session_returns], [other_project_cached], [legacy_settings_ignored],
      [stopped_audio_plays_on], [drained_during_dictation], [stuck_after_final],
      [stale_check_logs_out], [stuck_reconnecting], [selection_ignored],
      [back_absorbed], [missed_version_stays], [moved_prompt_stuck], [pressure_overtakes],
      [mention_with_slash_kept], [root_file_line_refused] and others.

    ** Not modelled

    React components and DOM geometry; rendering of Markdown and highlighted code; capture
    of audio, showing notifications and the bridges to Android, the desktop shell and the service
    worker.  Of [WorkspacePersistence.ts], the dump of the database, its storage statistics
    and the connection to IndexedDB; of [registry], the sets of listeners; of the settings
    pages, the server settings, whose voices have names outside the characters modelled, as
    have the recognised forms of option replies.  Of the display index, the estimated
    heights of rows; of sending, the progress of uploads and the texts of errors.
    The registry server (Go) and the Android application (Kotlin) are other programs. *)

From Stdlib Require Export ZArith QArith Ascii Sorted Permutation Lia.
From stdpp Require Export base list gmap strings pretty.

Declare Scope js_scope.
Delimit Scope js_scope with js.
Open Scope Z_scope.

Create HintDb js.
Create Rewrite HintDb js.

(** * Numbers *)

(** An IEEE double as the source observes it: [NaN], the two infinities, or a
    finite value, held as the rational it denotes. *)
Inductive num :=
  | NaN
  | PosInf
  | NegInf
  | Fin (q : Q).

#[export] Instance Q_leibniz_dec : EqDecision Q.
Proof. solve_decision. Defined.
#[export] Instance num_eq_dec : EqDecision num.
Proof. solve_decision. Defined.

(** [Number.isFinite]. *)
Definition isFinite (n : num) : bool :=
  match n with Fin _ => true | _ => false end.

(** [Math.trunc], [Math.floor] and [Math.round] of a finite number. *)
Definition trunc (q : Q) : Z := Z.quot (Qnum q) (Zpos (Qden q)).
Definition floor (q : Q) : Z := Qnum q / Zpos (Qden q).
Definition round (q : Q) : Z := (2 * Qnum q + Zpos (Qden q)) / (2 * Zpos (Qden q)).

(** [Date.parse]: the formats beyond the ISO one are the engine's. *)
Class Dates := { Date_parse : string -> num }.

(** An integer as a number. *)
Definition of_Z (z : Z) : num := Fin (inject_Z z).

Lemma trunc_inject (z : Z) : trunc (inject_Z z) = z.
Proof. unfold trunc; simpl. apply Z.quot_1_r. Qed.

Lemma floor_inject (z : Z) : floor (inject_Z z) = z.
Proof. unfold floor; simpl. apply Z.div_1_r. Qed.

Lemma round_inject (z : Z) : round (inject_Z z) = z.
Proof. unfold round; simpl. symmetry; apply (Z.div_unique _ _ z 1); lia. Qed.

#[export] Hint Rewrite trunc_inject floor_inject round_inject : js.

(** * Dynamic values: the [unknown] of the source *)

(** Objects carry their own enumerable properties in enumeration order. *)
Inductive value :=
  | VUndefined
  | VNull
  | VBool (b : bool)
  | VNum (n : num)
  | VStr (s : string)
  | VArr (items : list value)
  | VObj (props : list (string * value)).

(** Reading a property of an object; a missing one reads as [undefined]. *)
Fixpoint prop (props : list (string * value)) (k : string) : value :=
  match props with
  | [] => VUndefined
  | (k', v) :: rest => if String.eqb k' k then v else prop rest k
  end.

(** The properties of a value, for reading one that may be missing. *)
Definition properties (v : value) : list (string * value) := match v with VObj p => p | _ => [] end.

(** [k in input]. *)
Definition has_prop (props : list (string * value)) (k : string) : bool :=
  bool_decide (k ∈ map fst props).

(** * Strings *)

(** A string is its sequence of code units, those below 256.  The white space of
    [String.prototype.trim] and of the regular expression class [\s]. *)
Definition is_space (c : ascii) : bool :=
  let n := nat_of_ascii c in
  (Nat.leb 9 n && Nat.leb n 13) || Nat.eqb n 32 || Nat.eqb n 160.

Definition chars : string -> list ascii := String.list_ascii_of_string.
Definition unchars : list ascii -> string := String.string_of_list_ascii.

Lemma unchars_chars s : unchars (chars s) = s.
Proof. apply String.string_of_list_ascii_of_string. Qed.
Lemma chars_unchars l : chars (unchars l) = l.
Proof. apply String.list_ascii_of_string_of_list_ascii. Qed.
#[export] Hint Rewrite unchars_chars chars_unchars : js.

Fixpoint drop_space (l : list ascii) : list ascii :=
  match l with
  | [] => []
  | c :: l' => if is_space c then drop_space l' else l
  end.

(** [String.prototype.trim]. *)
Definition trim (s : string) : string :=
  unchars (reverse (drop_space (reverse (drop_space (chars s))))).

(** [toLowerCase] on code units below 256. *)
Definition lower_ascii (c : ascii) : ascii :=
  let n := nat_of_ascii c in
  if (Nat.leb 65 n && Nat.leb n 90)
     || (Nat.leb 192 n && Nat.leb n 222 && negb (Nat.eqb n 215))
  then ascii_of_nat (n + 32) else c.
Definition toLowerCase (s : string) : string := unchars (map lower_ascii (chars s)).

(** [startsWith] and [s.slice(n)] for a non-negative [n]. *)
Definition startsWith (s p : string) : bool := String.prefix p s.
Definition slice_from (n : nat) (s : string) : string := unchars (drop n (chars s)).
Definition slice (a b : nat) (s : string) : string := unchars (take (b - a) (drop a (chars s))).

(** The truth of a string: [!!s]. *)
Definition nonempty (s : string) : bool := negb (bool_decide (s = "")).
(** [s || t]. *)
Definition str_or (s t : string) : string := if nonempty s then s else t.

(** [l.join(sep)]. *)
Definition join (sep : string) (l : list string) : string :=
  match l with
  | [] => ""
  | s :: l' => s +:+ foldr (fun t acc => sep +:+ t +:+ acc) "" l'
  end.

Lemma join_cons sep s t l : join sep (s :: t :: l) = s +:+ sep +:+ join sep (t :: l).
Proof. done. Qed.

(** [s.split(c)] for a single character. *)
Fixpoint split_char (c : ascii) (l : list ascii) : list (list ascii) :=
  match l with
  | [] => [[]]
  | d :: l' =>
      if Ascii.eqb d c then [] :: split_char c l' else
      match split_char c l' with
      | w :: ws => (d :: w) :: ws
      | [] => [[d]]
      end
  end.
Definition split (c : ascii) (s : string) : list string := map unchars (split_char c (chars s)).

Lemma split_char_none c l : c ∉ l -> split_char c l = [l].
Proof.
  induction l as [|d l IH]; simpl; [done|]. rewrite not_elem_of_cons. intros [Hne Hl].
  destruct (Ascii.eqb_spec d c) as [->|_]; [done|]. by rewrite IH.
Qed.

Lemma split_char_app c l1 l2 : c ∉ l1 -> split_char c (l1 ++ c :: l2) = l1 :: split_char c l2.
Proof.
  induction l1 as [|d l1 IH]; simpl; [by rewrite Ascii.eqb_refl|]. rewrite not_elem_of_cons. intros [Hne Hl].
  destruct (Ascii.eqb_spec d c) as [->|_]; [done|]. by rewrite IH.
Qed.

(** [s.indexOf(p, from)] on code units: the first place at or after [from] where [p]
    starts. *)
Fixpoint is_prefix (p l : list ascii) : bool :=
  match p, l with
  | [], _ => true
  | a :: p', b :: l' => Ascii.eqb a b && is_prefix p' l'
  | _ :: _, [] => false
  end.
Fixpoint index_of (p l : list ascii) (i : nat) : option nat :=
  if is_prefix p l then Some i else
  match l with
  | [] => None
  | _ :: l' => index_of p l' (S i)
  end.
Definition indexOf (s p : string) (from : nat) : option nat := index_of (chars p) (drop from (chars s)) from.

(** [s.includes(p)]. *)
Definition includes (s p : string) : bool := match indexOf s p 0 with Some _ => true | None => false end.
(** [s.endsWith(p)]. *)
Definition endsWith (s p : string) : bool := is_prefix (rev (chars p)) (rev (chars s)).

(** The truth of a value: [!!v]. *)
Definition truthy (v : value) : bool :=
  match v with
  | VUndefined | VNull => false
  | VBool b => b
  | VNum n => match n with NaN => false | Fin q => negb (Qeq_bool q 0) | _ => true end
  | VStr s => nonempty s
  | VArr _ | VObj _ => true
  end.

(** [s.replace(/\s+/g, ' ')]. *)
Fixpoint collapse_space (l : list ascii) (in_space : bool) : list ascii :=
  match l with
  | [] => []
  | c :: l' => if is_space c then (if in_space then collapse_space l' true else " "%char :: collapse_space l' true)
               else c :: collapse_space l' false
  end.

(** [l.filter(Boolean)] of strings. *)
Definition filter_truthy (l : list string) : list string := List.filter nonempty l.

Lemma nonempty_true s : nonempty s = true <-> s <> ""%string.
Proof. unfold nonempty. rewrite negb_true_iff, bool_decide_eq_false. done. Qed.
Lemma nonempty_false s : nonempty s = false <-> s = ""%string.
Proof. unfold nonempty. rewrite negb_false_iff, bool_decide_eq_true. done. Qed.

Lemma drop_space_fix l : drop_space (drop_space l) = drop_space l.
Proof. induction l as [|c l IH]; simpl; [done|]. destruct (is_space c) eqn:E; simpl; [|rewrite E]; done. Qed.

Lemma drop_space_suffix l : exists k, l = k ++ drop_space l.
Proof.
  induction l as [|c l [k IH]]; simpl; [by exists []|].
  destruct (is_space c); [exists (c :: k); by rewrite IH at 1 | by exists []].
Qed.

(** Trimming is idempotent. *)
Lemma trim_trim s : trim (trim s) = trim s.
Proof.
  unfold trim. rewrite chars_unchars. set (l := drop_space (chars s)).
  assert (Hl : drop_space l = l) by apply drop_space_fix.
  assert (H : drop_space (reverse (drop_space (reverse l))) = reverse (drop_space (reverse l))).
  { destruct (drop_space_suffix (reverse l)) as [k Hk].
    assert (Hl' : l = reverse (drop_space (reverse l)) ++ reverse k).
    { rewrite <- reverse_app, <- Hk. by rewrite reverse_involutive. }
    destruct (reverse (drop_space (reverse l))) as [|c r]; [done|].
    rewrite Hl' in Hl. simpl in *. destruct (is_space c); [|done].
    exfalso. apply (f_equal length) in Hl.
    assert (Hlen : forall m, (length (drop_space m) <= length m)%nat).
    { intros m. destruct (drop_space_suffix m) as [k' Hk']. rewrite Hk' at 2. rewrite length_app. lia. }
    specialize (Hlen (r ++ reverse k)). simpl in Hl. lia. }
  rewrite H, reverse_involutive, drop_space_fix. done.
Qed.
#[export] Hint Rewrite trim_trim : js.

(** * [Number(v)] *)

Definition digit_value (radix : Z) (c : ascii) : option Z :=
  let n := Z.of_nat (nat_of_ascii c) in
  let d := if (48 <=? n) && (n <=? 57) then n - 48
           else if (97 <=? n) && (n <=? 122) then n - 87
           else if (65 <=? n) && (n <=? 90) then n - 55 else radix in
  if d <? radix then Some d else None.

(** The longest run of digits: its value on top of [acc], its length, the rest. *)
Fixpoint digits (radix : Z) (l : list ascii) (acc : Z) (n : nat) : Z * nat * list ascii :=
  match l with
  | c :: l' => match digit_value radix c with
               | Some d => digits radix l' (acc * radix + d) (S n)
               | None => (acc, n, l)
               end
  | [] => (acc, n, [])
  end.

Definition scale10 (m : Z) (e : Z) : Q :=
  if 0 <=? e then inject_Z (m * 10 ^ e) else Qmake m (Z.to_pos (10 ^ (- e))).

(** A [StrUnsignedDecimalLiteral]; the value is exact, before rounding to a double. *)
Definition unsigned_decimal (l : list ascii) : option Q :=
  let '(ip, n1, r1) := digits 10 l 0 0 in
  let '(m, n2, r2) := match r1 with
                      | c :: r => if bool_decide (c = "."%char) then digits 10 r ip 0 else (ip, 0%nat, r1)
                      | [] => (ip, 0%nat, [])
                      end in
  if Nat.eqb (n1 + n2) 0 then None else
  match r2 with
  | [] => Some (scale10 m (- Z.of_nat n2))
  | c :: r =>
      if bool_decide (c = "e"%char) || bool_decide (c = "E"%char) then
        let '(sg, r') := match r with
                         | d :: r'' => if bool_decide (d = "-"%char) then (-1, r'')
                                       else if bool_decide (d = "+"%char) then (1, r'') else (1, r)
                         | [] => (1, [])
                         end in
        let '(e, n3, r3) := digits 10 r' 0 0 in
        match n3, r3 with S _, [] => Some (scale10 m (sg * e - Z.of_nat n2)) | _, _ => None end
      else None
  end.

Definition decimal_or_infinity (neg : bool) (l : list ascii) : num :=
  if bool_decide (l = chars "Infinity") then (if neg then NegInf else PosInf) else
  match unsigned_decimal l with
  | Some q => Fin (if neg then Qopp q else q)
  | None => NaN
  end.

(** [StringToNumber]. *)
Definition string_to_number (s : string) : num :=
  match chars (trim s) with
  | [] => of_Z 0
  | c0 :: l =>
      let radix := match l with
        | c1 :: _ => if bool_decide (c0 = "0"%char) then
            if bool_decide (c1 = "x"%char) || bool_decide (c1 = "X"%char) then Some 16
            else if bool_decide (c1 = "o"%char) || bool_decide (c1 = "O"%char) then Some 8
            else if bool_decide (c1 = "b"%char) || bool_decide (c1 = "B"%char) then Some 2 else None
          else None
        | [] => None
        end in
      match radix with
      | Some r => match digits r (drop 1 l) 0 0 with (z, S _, []) => of_Z z | _ => NaN end
      | None =>
          if bool_decide (c0 = "-"%char) then decimal_or_infinity true l
          else if bool_decide (c0 = "+"%char) then decimal_or_infinity false l
          else decimal_or_infinity false (c0 :: l)
      end
  end.

(** An array converts through its [join]: empty is [0], a single element converts
    through its own string, two or more contain a comma. *)
Fixpoint toNumber (v : value) : num :=
  match v with
  | VUndefined => NaN
  | VNull => of_Z 0
  | VBool b => of_Z (if b then 1 else 0)
  | VNum n => n
  | VStr s => string_to_number s
  | VArr [] => of_Z 0
  | VArr [x] => match x with
                | VNull | VUndefined => of_Z 0
                | VBool _ => NaN
                | _ => toNumber x
                end
  | VArr _ => NaN
  | VObj _ => NaN
  end.

(** [Number.isInteger]. *)
Definition isInteger (n : num) : option Z :=
  match n with
  | Fin q => if Qnum q mod Zpos (Qden q) =? 0 then Some (Qnum q / Zpos (Qden q)) else None
  | _ => None
  end.

Lemma isInteger_of_Z z : isInteger (of_Z z) = Some z.
Proof. unfold isInteger; simpl. by rewrite Z.mod_1_r, Z.div_1_r. Qed.
#[export] Hint Rewrite isInteger_of_Z : js.

Example number_port : string_to_number " 28810 " = of_Z 28810. Proof. reflexivity. Qed.
Example number_hex : string_to_number "0x1F" = of_Z 31. Proof. reflexivity. Qed.
Example number_exp : isInteger (string_to_number "1.5e2") = Some 150. Proof. reflexivity. Qed.
Example number_nan : string_to_number "12px" = NaN. Proof. reflexivity. Qed.

(** * Integers in template strings *)

Lemma app_sep_inj {A} (x : A) l1 l2 k1 k2 :
  x ∉ k1 -> x ∉ k2 -> l1 ++ x :: k1 = l2 ++ x :: k2 -> l1 = l2 /\ k1 = k2.
Proof.
  intros H1 H2. revert l2; induction l1 as [|y l1 IH]; intros [|z l2]; simpl.
  - by intros [= ->].
  - intros [= -> ->]. exfalso. apply H1, elem_of_app. right. left.
  - intros [= -> <-]. exfalso. apply H2, elem_of_app. right. left.
  - intros [= -> E]. by destruct (IH l2 E) as [-> ->].
Qed.

Lemma chars_app s1 s2 : chars (s1 +:+ s2) = chars s1 ++ chars s2.
Proof.
  induction s1 as [|c s1 IH]; [done|].
  change (c :: chars (s1 +:+ s2) = c :: (chars s1 ++ chars s2)). by rewrite IH.
Qed.

Lemma chars_length s : length (chars s) = String.length s.
Proof. induction s; simpl; congruence. Qed.
Lemma chars_inj s1 s2 : chars s1 = chars s2 -> s1 = s2.
Proof. intros H. rewrite <- (unchars_chars s1), <- (unchars_chars s2). by rewrite H. Qed.

Lemma join_one sep s : join sep [s] = s.
Proof. apply chars_inj. simpl. rewrite chars_app. apply app_nil_r. Qed.

Lemma join_snoc sep l x : l <> [] -> join sep (l ++ [x]) = join sep l +:+ sep +:+ x.
Proof.
  destruct l as [|y l]; [done|]. intros _. revert y. induction l as [|z l IH]; intros y.
  - cbn [app]. by rewrite join_cons, !join_one.
  - cbn [app]. rewrite !join_cons. specialize (IH z). cbn [app] in IH. rewrite IH. apply chars_inj. by rewrite !chars_app, <- !app_assoc.
Qed.

Lemma pretty_N_go_colon x s : ":"%char ∉ chars s -> ":"%char ∉ chars (pretty_N_go x s).
Proof.
  revert s; induction (N.lt_wf_0 x) as [x _ IH]; intros s Hs.
  destruct (decide (0 < x)%N) as [Hx|Hx].
  - rewrite pretty_N_go_step by done. apply IH; [apply N.div_lt; lia|].
    simpl. rewrite not_elem_of_cons. split; [|done].
    unfold pretty_N_char. by repeat case_match.
  - assert (x = 0%N) as -> by lia. by rewrite pretty_N_go_0.
Qed.

(** A decimal integer holds no colon. *)
Lemma pretty_Z_colon (z : Z) : ":"%char ∉ chars (pretty z).
Proof.
  assert (forall n : N, ":"%char ∉ chars (pretty n)) as HN.
  { intros n. unfold pretty, pretty_N. case_decide; [by apply (bool_decide_unpack _)|].
    apply pretty_N_go_colon. by apply (bool_decide_unpack _). }
  unfold pretty, pretty_Z. destruct z; [by apply (bool_decide_unpack _)|apply HN|].
  change (":"%char ∉ chars ("-" +:+ pretty (Npos p))). rewrite chars_app, not_elem_of_app.
  split; [by apply (bool_decide_unpack _)|apply HN].
Qed.

(** [`${s}:${n}`] determines both parts. *)
Lemma colon_key_inj s1 s2 (z1 z2 : Z) :
  s1 +:+ ":" +:+ pretty z1 = s2 +:+ ":" +:+ pretty z2 -> s1 = s2 /\ z1 = z2.
Proof.
  intros H. apply (f_equal chars) in H. rewrite !chars_app in H.
  apply app_sep_inj in H as [H1 H2]; [|apply pretty_Z_colon..].
  split; [by apply chars_inj|]. by apply (inj pretty), chars_inj.
Qed.

(** * Lists *)

(** [Array.prototype.findIndex], [-1] replaced by [None]. *)
Fixpoint findIndex {A} (p : A -> bool) (l : list A) : option nat :=
  match l with
  | [] => None
  | x :: l' => if p x then Some 0%nat else S <$> findIndex p l'
  end.

(** [Array.prototype.find]. *)
Fixpoint find {A} (p : A -> bool) (l : list A) : option A :=
  match l with
  | [] => None
  | x :: l' => if p x then Some x else find p l'
  end.

(** Boolean [filter], [some] and [every] of arrays. *)
Notation bfilter p := (List.filter p).
Notation some := existsb.
Notation every := forallb.

(** [for (i = n - 1; i >= 0; i -= 1) if (p(l[i])) ...]: the last index below [n]. *)
Fixpoint find_down {A} (p : A -> bool) (l : list A) (n : nat) : option nat :=
  match n with
  | O => None
  | S i => match l !! i with
           | Some x => if p x then Some i else find_down p l i
           | None => find_down p l i
           end
  end.

Lemma find_down_Some {A} (p : A -> bool) l n i :
  find_down p l n = Some i ->
  (i < n)%nat /\ (exists x, l !! i = Some x /\ p x = true) /\
  forall j y, (i < j < n)%nat -> l !! j = Some y -> p y = false.
Proof.
  induction n as [|n IH]; simpl; [done|]. destruct (l !! n) as [x|] eqn:E; [destruct (p x) eqn:Ep|].
  - intros [= <-]. split_and!; [lia|by exists x|]. intros j y ?. lia.
  - intros (H1 & H2 & H3)%IH. split_and!; [lia|done|]. intros j y Hj Hy.
    destruct (decide (j = n)) as [->|]; [congruence|]. apply (H3 j); [lia|done].
  - intros (H1 & H2 & H3)%IH. split_and!; [lia|done|]. intros j y Hj Hy.
    destruct (decide (j = n)) as [->|]; [congruence|]. apply (H3 j); [lia|done].
Qed.

Lemma find_down_None {A} (p : A -> bool) l n :
  find_down p l n = None <-> forall j y, (j < n)%nat -> l !! j = Some y -> p y = false.
Proof.
  induction n as [|n IH]; simpl; [split; [lia|done]|].
  destruct (l !! n) as [x|] eqn:E; [destruct (p x) eqn:Ep|].
  - split; [done|]. intros H. specialize (H n x). rewrite Ep in H. assert (true = false) by (apply H; [lia|done]). done.
  - rewrite IH. split; intros H j y Hj Hy; [|apply (H j); [lia|done]].
    destruct (decide (j = n)) as [->|]; [congruence|]. apply (H j); [lia|done].
  - rewrite IH. split; intros H j y Hj Hy; [|apply (H j); [lia|done]].
    destruct (decide (j = n)) as [->|]; [congruence|]. apply (H j); [lia|done].
Qed.

Lemma findIndex_None {A} (p : A -> bool) l :
  findIndex p l = None <-> Forall (fun x => p x = false) l.
Proof.
  induction l as [|x l IH]; simpl; [done|]. rewrite Forall_cons.
  destruct (p x) eqn:E; simpl; [naive_solver|]. rewrite fmap_None, IH. naive_solver.
Qed.

Lemma findIndex_Some {A} (p : A -> bool) l i :
  findIndex p l = Some i ->
  exists l1 x l2, l = l1 ++ x :: l2 /\ length l1 = i /\ p x = true /\ Forall (fun y => p y = false) l1.
Proof.
  revert i; induction l as [|x l IH]; intros i; simpl; [done|].
  destruct (p x) eqn:E.
  - intros [= <-]. exists [], x, l. done.
  - intros (j & Hj & ->)%fmap_Some. destruct (IH j) as (l1 & y & l2 & -> & <- & Hp & Hl1); [done|].
    exists (x :: l1), y, l2. split_and!; [done..|]. by constructor.
Qed.

Lemma find_Some {A} (p : A -> bool) l x : find p l = Some x -> x ∈ l /\ p x = true.
Proof.
  induction l as [|y l IH]; simpl; [done|]. destruct (p y) eqn:E.
  - intros [= ->]. split; [left|done].
  - intros H. destruct (IH H). split; [by right|done].
Qed.

Lemma find_None {A} (p : A -> bool) l : find p l = None <-> Forall (fun x => p x = false) l.
Proof.
  induction l as [|x l IH]; simpl; [done|]. rewrite Forall_cons.
  destruct (p x) eqn:E; [naive_solver|]. rewrite IH. naive_solver.
Qed.

Lemma elem_of_bfilter {A} (p : A -> bool) l x : x ∈ bfilter p l <-> x ∈ l /\ p x = true.
Proof. rewrite !list_elem_of_In. apply filter_In. Qed.

Lemma some_true {A} (p : A -> bool) l : some p l = true <-> exists x, x ∈ l /\ p x = true.
Proof. rewrite existsb_exists. setoid_rewrite list_elem_of_In. done. Qed.

Lemma some_false {A} (p : A -> bool) l : some p l = false <-> Forall (fun x => p x = false) l.
Proof.
  induction l as [|x l IH]; simpl; [done|]. rewrite orb_false_iff, Forall_cons, IH. done.
Qed.

Lemma bfilter_all {A} (p : A -> bool) l : Forall (fun x => p x = true) l -> bfilter p l = l.
Proof. induction 1 as [|x l Hx _ IH]; simpl; [done|]. by rewrite Hx, IH. Qed.

Lemma bfilter_none {A} (p : A -> bool) l : Forall (fun x => p x = false) l -> bfilter p l = [].
Proof. induction 1 as [|x l Hx _ IH]; simpl; [done|]. by rewrite Hx, IH. Qed.

Lemma bfilter_app {A} (p : A -> bool) l1 l2 : bfilter p (l1 ++ l2) = bfilter p l1 ++ bfilter p l2.
Proof. induction l1 as [|x l1 IH]; simpl; [done|]. rewrite IH. by destruct (p x). Qed.

#[export] Instance bfilter_perm {A} (p : A -> bool) : Proper (Permutation ==> Permutation) (List.filter p).
Proof.
  intros l l'. induction 1; cbn [List.filter]; [done|..].
  - destruct (p x); by rewrite IHPermutation.
  - destruct (p x), (p y); try done. constructor.
  - by etrans.
Qed.

Lemma bfilter_and {A} (p q : A -> bool) l : bfilter (fun x => p x && q x) l = bfilter q (bfilter p l).
Proof. induction l as [|x l IH]; [done|]. cbn [List.filter]. destruct (p x), (q x) eqn:E; cbn [andb List.filter]; rewrite ?E, IH; done. Qed.

Lemma NoDup_bfilter {A} (p : A -> bool) l : NoDup l -> NoDup (bfilter p l).
Proof.
  induction 1 as [|x l Hx _ IH]; simpl; [constructor|]. destruct (p x); [|done].
  constructor; [|done]. rewrite elem_of_bfilter. naive_solver.
Qed.

Lemma elem_of_map {A B} (f : A -> B) l y : y ∈ map f l <-> exists x, y = f x /\ x ∈ l.
Proof. apply list_elem_of_fmap. Qed.

Lemma NoDup_map_inj {A B} (f : A -> B) l x y : NoDup (map f l) -> x ∈ l -> y ∈ l -> f x = f y -> x = y.
Proof.
  induction l as [|z l IH]; [set_solver|]. cbn [map]. intros [Hz Hnd]%NoDup_cons Hx Hy Hk.
  apply elem_of_cons in Hx as [->|Hx], Hy as [->|Hy]; [done|..|by apply IH];
    exfalso; apply Hz, elem_of_map; eauto.
Qed.

Lemma NoDup_map_bfilter {A B} (f : A -> B) (p : A -> bool) l :
  NoDup (map f l) -> NoDup (map f (bfilter p l)).
Proof.
  induction l as [|x l IH]; simpl; [done|]. rewrite !NoDup_cons. intros [Hx Hl].
  destruct (p x); simpl; [|by apply IH]. constructor; [|by apply IH].
  rewrite elem_of_map. intros (y & E & Hy%elem_of_bfilter). apply Hx, elem_of_map. naive_solver.
Qed.

(** * [Array.prototype.sort]: the stable sort of ECMAScript 2019 *)

Section sort.
Context {A : Type} (cmp : A -> A -> Z).

(** [x] comes before every element of [l] in the original order, so it goes in
    front of the elements that compare equal to it. *)
Fixpoint sort_insert (x : A) (l : list A) : list A :=
  match l with
  | [] => [x]
  | y :: l' => if cmp x y <=? 0 then x :: l else y :: sort_insert x l'
  end.
Definition js_sort (l : list A) : list A := foldr sort_insert [] l.

Lemma sort_insert_perm x l : sort_insert x l ≡ₚ x :: l.
Proof.
  induction l as [|y l IH]; simpl; [done|]. destruct (cmp x y <=? 0); [done|].
  rewrite IH. constructor.
Qed.

Lemma js_sort_perm l : js_sort l ≡ₚ l.
Proof. induction l as [|x l IH]; simpl; [done|]. by rewrite sort_insert_perm, IH. Qed.

Lemma elem_of_js_sort x l : x ∈ js_sort l <-> x ∈ l.
Proof. by rewrite js_sort_perm. Qed.

Lemma length_js_sort l : length (js_sort l) = length l.
Proof. by rewrite js_sort_perm. Qed.

Definition cmp_le (x y : A) : Prop := cmp x y <= 0.

Hypothesis cmp_total : forall x y, 0 < cmp x y -> cmp_le y x.
Hypothesis cmp_trans : forall x y z, cmp_le x y -> cmp_le y z -> cmp_le x z.

Lemma sort_insert_sorted x l :
  StronglySorted cmp_le l -> StronglySorted cmp_le (sort_insert x l).
Proof.
  induction 1 as [|y l Hl IH Hy]; simpl; [by repeat constructor|].
  destruct (cmp x y <=? 0) eqn:E.
  - assert (cmp_le x y) by (red; lia).
    repeat (constructor; try done). rewrite Forall_forall in *. eauto.
  - constructor; [done|]. rewrite sort_insert_perm. constructor; [apply cmp_total; lia | done].
Qed.

Lemma js_sort_sorted l : StronglySorted cmp_le (js_sort l).
Proof. induction l; simpl; [constructor|]. by apply sort_insert_sorted. Qed.

(** A list already in order is left alone. *)
Lemma js_sort_id l : StronglySorted cmp_le l -> js_sort l = l.
Proof.
  induction 1 as [|x l Hl IH Hx]; simpl; [done|]. rewrite IH.
  destruct l as [|y l]; simpl; [done|]. inversion Hx as [|?? Hxy _]; subst.
  unfold cmp_le in Hxy. by replace (cmp x y <=? 0) with true by lia.
Qed.
End sort.

(** Sorting by an integer key: the [(a, b) => a.k - b.k] comparators. *)
Section sort_key.
Context {A : Type} (key : A -> Z).
Definition by_key (a b : A) : Z := key a - key b.

Lemma by_key_sorted l : StronglySorted (fun a b => key a <= key b) (js_sort by_key l).
Proof.
  assert (H : StronglySorted (cmp_le by_key) (js_sort by_key l)).
  { apply js_sort_sorted; unfold by_key, cmp_le; intros; lia. }
  induction H as [|x l' Hl IH Hx]; constructor; [done|].
  eapply Forall_impl; [exact Hx|]. unfold by_key, cmp_le; intros; lia.
Qed.

Lemma by_key_id l : StronglySorted (fun a b => key a <= key b) l -> js_sort by_key l = l.
Proof.
  intros H. apply js_sort_id.
  induction H as [|x l' Hl IH Hx]; constructor; [done|].
  eapply Forall_impl; [exact Hx|]. unfold by_key, cmp_le; intros; lia.
Qed.

(** Two lists with distinct keys, sorted, that are permutations are equal. *)
Lemma sorted_perm_eq l1 l2 :
  StronglySorted (fun a b => key a < key b) l1 ->
  StronglySorted (fun a b => key a < key b) l2 -> l1 ≡ₚ l2 -> l1 = l2.
Proof.
  intros H1; revert l2; induction H1 as [|x l1 Hl1 IH Hx]; intros l2 H2 Hp.
  - by apply Permutation_nil in Hp as ->.
  - destruct H2 as [|y l2 Hl2 Hy]; [by apply Permutation_sym, Permutation_nil_cons in Hp|].
    rewrite Forall_forall in Hx, Hy.
    assert (x = y) as <-.
    { assert (x ∈ y :: l2) as Hxi by (rewrite <- Hp; left).
      assert (y ∈ x :: l1) as Hyi by (rewrite Hp; left).
      apply elem_of_cons in Hxi as [->|Hxi]; [done|].
      apply elem_of_cons in Hyi as [->|Hyi]; [done|].
      specialize (Hx _ Hyi). specialize (Hy _ Hxi). simpl in *. lia. }
    f_equal. apply IH; [done|]. by eapply Permutation_cons_inv.
Qed.

Lemma sorted_strict l :
  StronglySorted (fun a b => key a <= key b) l -> NoDup (map key l) ->
  StronglySorted (fun a b => key a < key b) l.
Proof.
  induction 1 as [|x l Hl IH Hx]; simpl; [constructor|]. rewrite NoDup_cons. intros [Hni Hnd].
  constructor; [by apply IH|]. rewrite Forall_forall in *. intros y Hy.
  specialize (Hx _ Hy). simpl in *. assert (key x <> key y); [|lia].
  intros E. apply Hni, elem_of_map. naive_solver.
Qed.
End sort_key.

(** ** Sorted lists by position and at their end *)

Lemma StronglySorted_lookup_lt {A} (R : A -> A -> Prop) l i j a b :
  StronglySorted R l -> l !! i = Some a -> l !! j = Some b -> (i < j)%nat -> R a b.
Proof.
  intros Hs. revert i j. induction Hs as [|x l Hl IH Hx]; intros i j Ha Hb Hij; [done|].
  rewrite Forall_forall in Hx. destruct j as [|j]; [lia|]. destruct i as [|i]; simpl in *.
  - simplify_eq. apply Hx. by apply list_elem_of_lookup_2 in Hb.
  - apply (IH i j); [done..|lia].
Qed.

Lemma StronglySorted_snoc {A} (R : A -> A -> Prop) l x : StronglySorted R l -> (forall y, y ∈ l -> R y x) -> StronglySorted R (l ++ [x]).
Proof.
  intros H Hx. induction H as [|y l H IH Hy]; simpl; [by repeat constructor|]. constructor.
  - apply IH. intros z Hz. apply Hx. by constructor.
  - apply Forall_app. split; [done|]. constructor; [|done]. apply Hx. by constructor.
Qed.

(** * Insertion-ordered dictionaries: [Map] and objects whose order is observed *)

Section dict.
Context {K V : Type} `{!EqDecision K}.

Definition dkeys (d : list (K * V)) : list K := map fst d.

Fixpoint dget (d : list (K * V)) (k : K) : option V :=
  match d with
  | [] => None
  | (k', v) :: d' => if decide (k' = k) then Some v else dget d' k
  end.

(** A present key keeps its place; a new one goes last. *)
Fixpoint dset (d : list (K * V)) (k : K) (v : V) : list (K * V) :=
  match d with
  | [] => [(k, v)]
  | (k', v') :: d' => if decide (k' = k) then (k, v) :: d' else (k', v') :: dset d' k v
  end.

Definition ddelete (d : list (K * V)) (k : K) : list (K * V) :=
  bfilter (fun e => negb (bool_decide (e.1 = k))) d.

Lemma dget_dset_eq d k v : dget (dset d k v) k = Some v.
Proof.
  induction d as [|[k' v'] d IH]; simpl; [by rewrite decide_True|].
  destruct (decide (k' = k)) as [->|]; simpl; [by rewrite decide_True | by rewrite decide_False].
Qed.

Lemma dget_dset_ne d k k' v : k <> k' -> dget (dset d k v) k' = dget d k'.
Proof.
  intros Hne. induction d as [|[k0 v0] d IH]; simpl; [by rewrite decide_False|].
  destruct (decide (k0 = k)) as [->|]; simpl; [by rewrite !decide_False|].
  destruct (decide (k0 = k')); [done|apply IH].
Qed.

Lemma dget_dset d k k' v : dget (dset d k v) k' = if decide (k = k') then Some v else dget d k'.
Proof. case_decide; subst; [apply dget_dset_eq | by apply dget_dset_ne]. Qed.

Lemma dget_ddelete d k k' : dget (ddelete d k) k' = if decide (k = k') then None else dget d k'.
Proof.
  induction d as [|[k0 v0] d IH]; simpl; [by case_decide|].
  destruct (bool_decide (k0 = k)) eqn:E; simpl.
  - apply bool_decide_eq_true in E as ->. rewrite IH. by case_decide.
  - apply bool_decide_eq_false in E. rewrite IH.
    destruct (decide (k = k')) as [<-|]; [by rewrite decide_False | done].
Qed.

Lemma dget_None d k : dget d k = None <-> k ∉ dkeys d.
Proof.
  induction d as [|[k' v'] d IH]; simpl; [set_solver|]. rewrite not_elem_of_cons.
  case_decide; naive_solver.
Qed.

Lemma dget_Some_in d k v : dget d k = Some v -> (k, v) ∈ d.
Proof.
  induction d as [|[k' v'] d IH]; simpl; [done|].
  case_decide; [intros [= ->]; subst; left | right; auto].
Qed.

Lemma dget_in d k v : NoDup (dkeys d) -> (k, v) ∈ d -> dget d k = Some v.
Proof.
  induction d as [|[k' v'] d IH]; simpl; [set_solver|]. rewrite NoDup_cons, elem_of_cons.
  intros [Hk Hnd] [[= -> ->]|Hin]; [by rewrite decide_True|].
  rewrite decide_False; [by apply IH|]. intros ->. apply Hk.
  apply elem_of_map. by exists (k, v).
Qed.

Lemma dset_keys d k v : dkeys (dset d k v) = if decide (k ∈ dkeys d) then dkeys d else dkeys d ++ [k].
Proof.
  induction d as [|[k' v'] d IH]; simpl; [done|].
  destruct (decide (k' = k)) as [->|Hne]; simpl; [by rewrite decide_True by left|].
  rewrite IH. destruct (decide (k ∈ dkeys d)) as [H|H].
  - by rewrite decide_True by (by right).
  - rewrite decide_False; [done|]. rewrite not_elem_of_cons. naive_solver.
Qed.

Lemma dset_fresh d k v : k ∉ dkeys d -> dset d k v = d ++ [(k, v)].
Proof.
  induction d as [|[k' v'] d IH]; simpl; [done|]. rewrite not_elem_of_cons. intros [Hne Hk].
  rewrite decide_False by done. by rewrite IH.
Qed.

Lemma dset_NoDup d k v : NoDup (dkeys d) -> NoDup (dkeys (dset d k v)).
Proof.
  rewrite dset_keys. case_decide; [done|]. intros ?. apply NoDup_app. split_and!; [done| |apply NoDup_singleton].
  intros x Hx ->%list_elem_of_singleton. done.
Qed.

(** [Object.fromEntries(l)] and [new Map(l)]. *)
Definition dict_of (l : list (K * V)) : list (K * V) := foldl (fun d e => dset d e.1 e.2) [] l.

Lemma dict_of_app d l : NoDup (dkeys d ++ map fst l) -> foldl (fun d e => dset d e.1 e.2) d l = d ++ l.
Proof.
  revert d; induction l as [|[k v] l IH]; intros d Hnd; simpl; [by rewrite app_nil_r|].
  rewrite dset_fresh.
  - rewrite IH, <- app_assoc; [done|]. unfold dkeys in *. rewrite map_app, <- app_assoc. done.
  - intros Hin. apply NoDup_app in Hnd as (_ & Hnd & _). apply (Hnd _ Hin). by left.
Qed.

Lemma dict_of_id l : NoDup (map fst l) -> dict_of l = l.
Proof. apply (dict_of_app []). Qed.

Lemma ddelete_NoDup d k : NoDup (dkeys d) -> NoDup (dkeys (ddelete d k)).
Proof. apply NoDup_map_bfilter. Qed.
End dict.

Lemma dset_Forall {K V} `{!EqDecision K} (P : K * V -> Prop) d k v : Forall P d -> P (k, v) -> Forall P (dset d k v).
Proof.
  intros Hd Hkv. induction Hd as [|[k' v'] d Hx Hd IH]; cbn [dset]; [by constructor|].
  destruct (decide (k' = k)); by constructor.
Qed.

Lemma dget_key {K V} `{!EqDecision K} (d : list (K * V)) k v : dget d k = Some v -> k ∈ dkeys d.
Proof. intros H%dget_Some_in. apply elem_of_map. by exists (k, v). Qed.

Lemma dkeys_ddelete_perm {K V} `{!EqDecision K} (d : list (K * V)) k :
  NoDup (dkeys d) -> k ∈ dkeys d -> dkeys d ≡ₚ k :: dkeys (ddelete d k).
Proof.
  induction d as [|[k' v'] d IH]; simpl; [by intros _ ?%elem_of_nil|].
  rewrite NoDup_cons, elem_of_cons. intros [Hk Hnd] Hin. destruct (decide (k' = k)) as [->|Hne]; simpl.
  - rewrite bool_decide_true by done. simpl. f_equiv.
    unfold ddelete; rewrite bfilter_all; [done|]. apply Forall_forall. intros [k2 v2] H2. simpl. rewrite negb_true_iff, bool_decide_eq_false. intros ->.
    apply Hk, elem_of_map. by exists (k, v2).
  - destruct Hin as [|Hin]; [congruence|]. rewrite bool_decide_false by done. simpl.
    rewrite (IH Hnd Hin). constructor.
Qed.

(** Keeping and changing the values of a dictionary, key by key. *)
Definition keyed_omap {K V W} (f : K -> V -> option W) : list (K * V) -> list (K * W) :=
  omap (fun e => pair e.1 <$> f e.1 e.2).

Lemma keyed_omap_keys {K V W} (f : K -> V -> option W) d : map fst (keyed_omap f d) `sublist_of` map fst d.
Proof.
  induction d as [|[k v] d IH]; [done|]. unfold keyed_omap in *. cbn. destruct (f k v); cbn; by constructor.
Qed.

Lemma keyed_omap_NoDup {K V W} (f : K -> V -> option W) d : NoDup (map fst d) -> NoDup (map fst (keyed_omap f d)).
Proof. intros H. eapply sublist_NoDup; [exact H|apply keyed_omap_keys]. Qed.

Lemma dict_of_keyed_omap {K V W} `{EqDecision K} (f : K -> V -> option W) d :
  NoDup (dkeys d) -> dict_of (keyed_omap f d) = keyed_omap f d.
Proof. intros H. by apply dict_of_id, keyed_omap_NoDup. Qed.

Lemma dkeys_keyed_omap_NoDup {K V W} (f : K -> V -> option W) d : NoDup (dkeys d) -> NoDup (dkeys (keyed_omap f d)).
Proof. apply keyed_omap_NoDup. Qed.

Lemma dget_keyed_omap {K V W} `{EqDecision K} (f : K -> V -> option W) d k :
  NoDup (dkeys d) -> dget (keyed_omap f d) k = dget d k ≫= f k.
Proof.
  intros Hnd. induction d as [|[k' v] d IH]; [done|]. apply NoDup_cons in Hnd as [Hk Hnd].
  specialize (IH Hnd). unfold keyed_omap in *. cbn. destruct (f k' v) as [w|] eqn:E; cbn.
  - destruct (decide (k' = k)) as [->|]; cbn; [by rewrite E|done].
  - rewrite IH. destruct (decide (k' = k)) as [->|]; cbn; [|done]. rewrite E.
    by rewrite (proj2 (dget_None d k) Hk).
Qed.

(** [Array.from(new Set(l))]: the first occurrence of each element, in order. *)
Fixpoint unique {A} `{EqDecision A} (l : list A) : list A :=
  match l with
  | [] => []
  | x :: l' => x :: bfilter (fun y => negb (bool_decide (y = x))) (unique l')
  end.

Lemma elem_of_unique {A} `{EqDecision A} (l : list A) x : x ∈ unique l <-> x ∈ l.
Proof.
  induction l as [|y l IH]; simpl; [done|]. rewrite !elem_of_cons, elem_of_bfilter, IH, negb_true_iff, bool_decide_eq_false.
  destruct (decide (x = y)); naive_solver.
Qed.

Lemma NoDup_unique {A} `{EqDecision A} (l : list A) : NoDup (unique l).
Proof.
  induction l as [|y l IH]; simpl; constructor; [|by apply NoDup_bfilter].
  rewrite elem_of_bfilter, negb_true_iff, bool_decide_eq_false. naive_solver.
Qed.

Lemma unique_id {A} `{EqDecision A} (l : list A) : NoDup l -> unique l = l.
Proof.
  induction 1 as [|x l Hx _ IH]; simpl; [done|]. rewrite IH. f_equal. apply bfilter_all.
  apply Forall_forall. intros y Hy. rewrite negb_true_iff, bool_decide_eq_false. by intros ->.
Qed.

#[export] Hint Resolve NoDup_bfilter NoDup_map_bfilter dset_NoDup ddelete_NoDup NoDup_unique : js.
#[export] Hint Rewrite @dget_dset @dget_ddelete @elem_of_unique @elem_of_bfilter
  @elem_of_js_sort : js.

(** * Reachable states *)

(** The reflexive transitive closure of a step relation, and its induction
    principle for invariants. *)
Inductive star {S : Type} (step : S -> S -> Prop) : S -> S -> Prop :=
  | star_refl s : star step s s
  | star_step s1 s2 s3 : star step s1 s2 -> step s2 s3 -> star step s1 s3.

Lemma star_invariant {S} (step : S -> S -> Prop) (P : S -> Prop) s0 s :
  star step s0 s -> P s0 -> (forall s1 s2, P s1 -> step s1 s2 -> P s2) -> P s.
Proof. induction 1 as [|s1 s2 s3 _ IH Hs]; intros Hinit Hstep; [done|]. eapply Hstep; [by apply IH|done]. Qed.

(** * Tactics *)

(** Turns the boolean tests of the source into propositions. *)
Ltac breflect :=
  repeat match goal with
  | H : context [negb _ = true] |- _ => rewrite negb_true_iff in H
  | H : context [negb _ = false] |- _ => rewrite negb_false_iff in H
  | H : context [bool_decide _ = true] |- _ => rewrite bool_decide_eq_true in H
  | H : context [bool_decide _ = false] |- _ => rewrite bool_decide_eq_false in H
  | H : context [nonempty _ = true] |- _ => rewrite nonempty_true in H
  | H : context [nonempty _ = false] |- _ => rewrite nonempty_false in H
  | H : andb _ _ = true |- _ => apply andb_true_iff in H as [? ?]
  | H : orb _ _ = false |- _ => apply orb_false_iff in H as [? ?]
  | |- context [negb _ = true] => rewrite negb_true_iff
  | |- context [negb _ = false] => rewrite negb_false_iff
  | |- context [bool_decide _ = true] => rewrite bool_decide_eq_true
  | |- context [bool_decide _ = false] => rewrite bool_decide_eq_false
  | |- context [nonempty _ = true] => rewrite nonempty_true
  | |- context [nonempty _ = false] => rewrite nonempty_false
  | |- andb _ _ = true => apply andb_true_iff; split
  | |- orb _ _ = false => apply orb_false_iff; split
  end.

(** Case analysis on every [match] and [if] of the goal. *)
Ltac cases := repeat (case_match; simplify_eq/=).

(** Case analysis on the decisions of the goal only. *)
Ltac goal_decide := match goal with |- context [@decide ?P ?d] => destruct (@decide P d); simplify_eq end.

(** * Sums *)

Lemma sum_insert {A} (f : A -> nat) n l x y : l !! n = Some x ->
  (sum_list_with f (<[n := y]> l) + f x = sum_list_with f l + f y)%nat.
Proof. revert n. induction l as [|z l IH]; intros [|n] H; simpl in *; [done|done|injection H as ->; lia|]. specialize (IH _ H). lia. Qed.
Lemma sum_alter {A} (f : A -> nat) (g : A -> A) n l x : l !! n = Some x ->
  (sum_list_with f (alter g n l) + f x = sum_list_with f l + f (g x))%nat.
Proof. intros H. rewrite <- (sum_insert f n l x (g x) H). do 2 f_equal. apply list_eq. intros i. destruct (decide (n = i)) as [->|].
  - rewrite list_lookup_alter_eq, H, list_lookup_insert_eq by (by eapply lookup_lt_Some). done.
  - by rewrite list_lookup_alter_ne, list_lookup_insert_ne. Qed.
