(* ===== verification/Json.v ===== *)
(** [JSON.parse] and [JSON.stringify], which the client calls on turn contents, on
    cached records and to compare parameters.  The components use them through the
    [JSON] interface and their theorems hold for every implementation of it; the
    instance below is the one of the language, for texts whose [\u] escapes stay below
    256 and numbers that are integers or short decimals. *)

From S2P Require Import Prelude.
Open Scope Z_scope.

(** A property is what the dictionary has, or [undefined]. *)
Lemma prop_dget (d : list (string * value)) k : prop d k = default VUndefined (dget d k).
Proof.
  induction d as [|[k' v] d IH]; [done|]. cbn [prop dget]. rewrite IH. destruct (String.eqb_spec k' k) as [->|Hne].
  - by rewrite decide_True.
  - by rewrite decide_False.
Qed.
Lemma prop_dset (d : list (string * value)) k k' v : prop (dset d k v) k' = if decide (k = k') then v else prop d k'.
Proof. rewrite !prop_dget, dget_dset. by destruct (decide (k = k')). Qed.

(** [JSON.parse] ([None] is a throw) and [JSON.stringify]. *)
Class JSON := {
  JSON_parse : string -> option value;
  JSON_stringify : value -> string;
}.

(** * Parsing *)

Definition code (c : ascii) : Z := Z.of_nat (nat_of_ascii c).
Definition ascii_of_code (z : Z) : ascii := ascii_of_nat (Z.to_nat z).
Definition quote_char : ascii := ascii_of_code 34.
Definition backslash : ascii := ascii_of_code 92.

Definition json_space (c : ascii) : bool :=
  (code c =? 32) || (code c =? 9) || (code c =? 10) || (code c =? 13).

Fixpoint skip_ws (l : list ascii) : list ascii :=
  match l with
  | c :: l' => if json_space c then skip_ws l' else l
  | [] => []
  end.

(** [strip p l] is the rest of [l] after the prefix [p]. *)
Fixpoint strip (p l : list ascii) : option (list ascii) :=
  match p, l with
  | [], _ => Some l
  | a :: p', b :: l' => if decide (a = b) then strip p' l' else None
  | _, [] => None
  end.

Definition escape_char (c : ascii) : option ascii :=
  match code c with
  | 34 => Some quote_char
  | 92 => Some backslash
  | 47 => Some (ascii_of_code 47)
  | 98 => Some (ascii_of_code 8)
  | 102 => Some (ascii_of_code 12)
  | 110 => Some (ascii_of_code 10)
  | 114 => Some (ascii_of_code 13)
  | 116 => Some (ascii_of_code 9)
  | _ => None
  end.

(** The body of a string literal, after its opening quote. *)
Fixpoint parse_string (fuel : nat) (l : list ascii) : option (list ascii * list ascii) :=
  match fuel, l with
  | S f, c :: l' =>
      if decide (c = quote_char) then Some ([], l')
      else if code c <? 32 then None
      else if decide (c = backslash) then
        match l' with
        | e :: l'' =>
            if code e =? 117 then
              match digits 16 (take 4 l'') 0 0 with
              | (z, 4%nat, []) =>
                  if z <? 256 then
                    '(s, r) ← parse_string f (drop 4 l''); Some (ascii_of_code z :: s, r)
                  else None
              | _ => None
              end
            else d ← escape_char e; '(s, r) ← parse_string f l''; Some (d :: s, r)
        | [] => None
        end
      else '(s, r) ← parse_string f l'; Some (c :: s, r)
  | _, _ => None
  end.

(** A number: an optional minus, an integer part without leading zeros, an optional
    fraction and an optional exponent. *)
Definition parse_number (l : list ascii) : option (num * list ascii) :=
  let '(neg, l0) := match l with c :: l' => if code c =? 45 then (true, l') else (false, l) | [] => (false, []) end in
  let '(ip, n1, r1) := digits 10 l0 0 0 in
  let leading_zero := match l0 with c :: _ => (code c =? 48) && Nat.ltb 1 n1 | [] => false end in
  if Nat.eqb n1 0 || leading_zero then None else
  '(m, n2, r2) ← match r1 with
    | c :: r => if code c =? 46 then match digits 10 r ip 0 with (_, O, _) => None | x => Some x end
                else Some (ip, O, r1)
    | [] => Some (ip, O, [])
    end;
  '(e, r3) ← match r2 with
    | c :: r =>
        if (code c =? 101) || (code c =? 69) then
          let '(sg, r') := match r with
            | d :: r'' => if code d =? 45 then (-1, r'') else if code d =? 43 then (1, r'') else (1, r)
            | [] => (1, []) end in
          match digits 10 r' 0 0 with (_, O, _) => None | (e, _, r'') => Some (sg * e, r'') end
        else Some (0, r2)
    | [] => Some (0, [])
    end;
  let q := scale10 m (e - Z.of_nat n2) in
  Some (Fin (if neg then Qopp q else q), r3).

Definition literal (l : list ascii) : option (value * list ascii) :=
  match strip (chars "null") l with
  | Some r => Some (VNull, r)
  | None => match strip (chars "true") l with
  | Some r => Some (VBool true, r)
  | None => match strip (chars "false") l with
  | Some r => Some (VBool false, r)
  | None => '(n, r) ← parse_number l; Some (VNum n, r)
  end end end.

(** A value; the tail of an array after an element; the tail of an object.  A
    repeated key keeps its place and takes the last value. *)
Fixpoint parse_value (fuel : nat) (l : list ascii) : option (value * list ascii) :=
  match fuel with
  | O => None
  | S f =>
      match skip_ws l with
      | [] => None
      | c :: l' =>
          match code c with
          | 34 => '(s, r) ← parse_string f l'; Some (VStr (unchars s), r)
          | 91 => match skip_ws l' with
                  | d :: r => if code d =? 93 then Some (VArr [], r) else
                      '(items, r') ← parse_items f l'; Some (VArr items, r')
                  | [] => None
                  end
          | 123 => match skip_ws l' with
                   | d :: r => if code d =? 125 then Some (VObj [], r) else
                       '(props, r') ← parse_props f l' []; Some (VObj props, r')
                   | [] => None
                   end
          | _ => literal (c :: l')
          end
      end
  end
with parse_items (fuel : nat) (l : list ascii) : option (list value * list ascii) :=
  match fuel with
  | O => None
  | S f =>
      '(v, r) ← parse_value f l;
      match skip_ws r with
      | c :: r' => if code c =? 93 then Some ([v], r')
                   else if code c =? 44 then '(vs, r'') ← parse_items f r'; Some (v :: vs, r'')
                   else None
      | [] => None
      end
  end
with parse_props (fuel : nat) (l : list ascii) (acc : list (string * value))
    : option (list (string * value) * list ascii) :=
  match fuel with
  | O => None
  | S f =>
      match skip_ws l with
      | c :: l' =>
          if negb (code c =? 34) then None else
          '(k, r) ← parse_string f l';
          match skip_ws r with
          | d :: r0 =>
              if negb (code d =? 58) then None else
              '(v, r1) ← parse_value f r0;
              let acc' := dset acc (unchars k) v in
              match skip_ws r1 with
              | e :: r2 => if code e =? 125 then Some (acc', r2)
                           else if code e =? 44 then parse_props f r2 acc' else None
              | [] => None
              end
          | [] => None
          end
      | [] => None
      end
  end.

(** Each level of the descent consumes a character or two, so twice the length is
    enough fuel. *)
Definition json_parse (s : string) : option value :=
  match parse_value (S (2 * String.length s)) (chars s) with
  | Some (v, r) => if bool_decide (skip_ws r = []) then Some v else None
  | None => None
  end.

(** * Printing *)

Definition hex_char (z : Z) : ascii := ascii_of_code (if z <? 10 then 48 + z else 87 + z).

Definition escape (c : ascii) : list ascii :=
  match code c with
  | 34 => [backslash; quote_char]
  | 92 => [backslash; backslash]
  | 8 => [backslash; "b"%char]
  | 12 => [backslash; "f"%char]
  | 10 => [backslash; "n"%char]
  | 13 => [backslash; "r"%char]
  | 9 => [backslash; "t"%char]
  | z => if z <? 32 then [backslash; "u"%char; "0"%char; "0"%char; hex_char (z / 16); hex_char (z mod 16)]
         else [c]
  end.

Definition quote (s : string) : string :=
  unchars (quote_char :: concat (map escape (chars s)) ++ [quote_char]).

(** The decimals of a number that is not an integer: the first [k <= 17] that makes
    [q * 10^k] one. *)
Definition decimals (q : Q) : nat :=
  default 17%nat (findIndex (fun k => (Qnum q * 10 ^ Z.of_nat k) mod Zpos (Qden q) =? 0) (seq 0 18)).

Definition number_string (n : num) : string :=
  match n with
  | Fin q =>
      match isInteger n with
      | Some z => pretty z
      | None =>
          let k := decimals q in
          let m := Z.abs (Qnum q) * 10 ^ Z.of_nat k / Zpos (Qden q) in
          let p := 10 ^ Z.of_nat k in
          let digits := pretty (m mod p) in
          (if Qnum q <? 0 then "-" else "") +:+ pretty (m / p) +:+ "." +:+
          unchars (replicate (k - String.length digits) "0"%char) +:+ digits
      end
  | _ => "null"
  end.

Fixpoint json_stringify (v : value) : string :=
  match v with
  | VUndefined | VNull => "null"
  | VBool true => "true"
  | VBool false => "false"
  | VNum n => number_string n
  | VStr s => quote s
  | VArr items => "[" +:+ join "," (map json_stringify items) +:+ "]"
  | VObj props =>
      "{" +:+ join "," (omap (fun e => match e.2 with
                                       | VUndefined => None
                                       | _ => Some (quote e.1 +:+ ":" +:+ json_stringify e.2) end) props) +:+ "}"
  end.

(** The language's JSON. *)
Definition js_JSON : JSON := {| JSON_parse := json_parse; JSON_stringify := json_stringify |}.

Example parse_prompt :
  json_parse (unchars (map ascii_of_code [123;34;109;34;58;91;49;46;53;44;110;117;108;108;44;34;92;117;48;48;52;49;34;93;125]))
  = Some (VObj [("m"%string, VArr [VNum (Fin (15 # 10)); VNull; VStr "A"])]).
Proof. reflexivity. Qed.
Example stringify_object :
  json_parse (json_stringify (VObj [("a"%string, VNum (of_Z (-12))); ("b"%string, VArr [VStr "x"; VBool true; VNum (Fin (1 # 4))])]))
  = Some (VObj [("a"%string, VNum (of_Z (-12))); ("b"%string, VArr [VStr "x"; VBool true; VNum (Fin (25 # 100))])]).
Proof. vm_compute. reflexivity. Qed.
