(* ===== verification/JsonRoundTrip.v ===== *)
(** [JSON.parse] of [JSON.stringify]: the law the components that store JSON rely on, as
    an interface, and the proof that the language's JSON satisfies it. *)

From S2P Require Import Prelude Json.
Open Scope Z_scope.

(** A decimal the language prints without an exponent: at most seventeen digits, and not
    below a millionth.  A double is identified with the shortest decimal that denotes it,
    which is what is printed. *)
Definition short_decimal (q : Q) : bool :=
  bool_decide (isInteger (Fin q) = None) && (Z.abs (Qnum q) <? 10 ^ 17) &&
  (Zpos (Qden q) <=? Z.abs (Qnum q) * 10 ^ 6) && (Zpos (Qden q) =? 10 ^ Z.of_nat (decimals q)).

(** JSON data: no [undefined], integers and short decimals, objects without repeated
    keys. *)
Fixpoint json_data (v : value) : bool :=
  match v with
  | VUndefined => false
  | VNull | VBool _ | VStr _ => true
  | VNum (Fin q) => bool_decide (q = inject_Z (Qnum q)) || short_decimal q
  | VNum _ => false
  | VArr items => forallb json_data items
  | VObj props => bool_decide (NoDup (map fst props)) && forallb (fun e => json_data e.2) props
  end.

Class JSONRoundTrip `{J : JSON} : Prop :=
  json_roundtrip v : json_data v = true -> JSON_parse (JSON_stringify v) = Some v.

(** * Strings *)

Lemma escape_step f c rest :
  parse_string (S f) (escape c ++ rest) = ('(s, r) ← parse_string f rest; Some (c :: s, r)).
Proof. destruct c as [[] [] [] [] [] [] [] []]; reflexivity. Qed.

Lemma parse_string_escape f l rest : (length l < f)%nat ->
  parse_string f (concat (map escape l) ++ quote_char :: rest) = Some (l, rest).
Proof.
  revert f; induction l as [|c l IH]; intros [|f] Hf; try (simpl in *; lia); [reflexivity|].
  cbn [map concat]. rewrite <- app_assoc, escape_step, IH; [done|simpl in Hf; lia].
Qed.

Lemma length_escape l : (length l <= length (concat (map escape l)))%nat.
Proof.
  induction l as [|c l IH]; [done|]. cbn [map concat length]. rewrite length_app.
  assert (1 <= length (escape c))%nat; [|lia]. destruct c as [[] [] [] [] [] [] [] []]; simpl; lia.
Qed.

Lemma chars_quote s : chars (quote s) = quote_char :: concat (map escape (chars s)) ++ [quote_char].
Proof. apply chars_unchars. Qed.

(** * Integers *)

Definition digit_char (c : ascii) : bool := match digit_value 10 c with Some _ => true | None => false end.

(** What may follow a number. *)
Definition number_end (l : list ascii) : Prop :=
  match l with [] => True | c :: _ => digit_char c = false /\ code c <> 46 /\ code c <> 101 /\ code c <> 69 end.

(** What ends a run of digits. *)
Definition digits_end (l : list ascii) : Prop := match l with [] => True | c :: _ => digit_char c = false end.

Lemma number_digits_end l : number_end l -> digits_end l.
Proof. destruct l as [|c l]; [done|]. by intros [H _]. Qed.
#[local] Hint Resolve number_digits_end : core.

Lemma digits_stop l acc n : digits_end l -> digits 10 l acc n = (acc, n, l).
Proof. destruct l as [|c l]; [done|]. intros H. unfold digits_end, digit_char in H. simpl. by destruct (digit_value 10 c). Qed.

Lemma digit_of_N (x : N) : digit_value 10 (pretty_N_char (x mod 10)) = Some (Z.of_N (x mod 10)).
Proof.
  pose proof (N.mod_lt x 10 ltac:(lia)) as H. generalize dependent (x mod 10)%N. intros d Hd.
  destruct d as [|p]; [done|]. do 4 (destruct p as [p|p|]; try done; try (exfalso; lia)).
Qed.

Lemma digits_go (n : N) s : exists k, length (chars (pretty_N_go n s)) = (k + length (chars s))%nat /\
  ((0 < n)%N -> 10 ^ Z.of_nat k <= 10 * Z.of_N n) /\
  forall acc i rest,
  digits 10 (chars (pretty_N_go n s) ++ rest) acc i =
  digits 10 (chars s ++ rest) (acc * 10 ^ Z.of_nat k + Z.of_N n) (i + k)%nat.
Proof.
  revert s; induction (N.lt_wf_0 n) as [n _ IH]; intros s. destruct (decide (0 < n)%N) as [Hn|Hn].
  - rewrite pretty_N_go_step by done. pose proof (N.Div0.div_mod n 10) as Hn10.
    destruct (IH (n / 10)%N ltac:(apply N.div_lt; lia) (String (pretty_N_char (n mod 10)) s)) as (k & Hl & Hlo & Hk).
    exists (S k). split; [rewrite Hl; change (chars (String ?c s)) with (c :: chars s); cbn [length]; lia|].
    rewrite Nat2Z.inj_succ, Z.pow_succ_r by lia. split.
    + intros _. pose proof (N.mod_lt n 10 ltac:(lia)) as Hm. destruct (decide (0 < n / 10)%N) as [Hq|Hq].
      * specialize (Hlo Hq). clear Hl Hk IH. revert Hn10 Hlo Hm. generalize (n / 10)%N (n mod 10)%N. intros; lia.
      * assert (n / 10 = 0)%N as E by (revert Hq; generalize (n / 10)%N; intros; lia).
        rewrite E, pretty_N_go_0 in Hl. assert (k = 0%nat) as -> by lia. simpl. lia.
    + intros acc i rest. rewrite Hk. change (chars (String ?c s)) with (c :: chars s). cbn [app digits].
      rewrite digit_of_N. f_equal; [|lia]. nia.
  - assert (n = 0%N) as -> by lia. exists 0%nat. split; [done|]. split; [lia|]. intros. rewrite pretty_N_go_0. f_equal; lia.
Qed.

Lemma go_head (n : N) s : (0 < n)%N ->
  exists d l, chars (pretty_N_go n s) = pretty_N_char d :: l /\ (0 < d < 10)%N.
Proof.
  revert s; induction (N.lt_wf_0 n) as [n _ IH]; intros s Hn. rewrite pretty_N_go_step by done.
  destruct (decide (0 < n / 10)%N) as [Hq|Hq].
  - apply IH; [by apply N.div_lt|done].
  - assert (n / 10 = 0)%N as E by (revert Hq; generalize (n / 10)%N; intros; lia). rewrite E, pretty_N_go_0. exists (n mod 10)%N, (chars s). split; [done|].
    pose proof (N.Div0.div_mod n 10) as Hd. rewrite E in Hd. pose proof (N.mod_lt n 10 ltac:(lia)). lia.
Qed.

(** The decimal of a natural: a digit that starts it, and its value. *)
Lemma pretty_N_digits (n : N) : exists d l,
  chars (pretty n) = pretty_N_char d :: l /\ (d < 10)%N /\ (d = 0%N -> l = []) /\
  forall rest, digits_end rest -> digits 10 ((pretty_N_char d :: l) ++ rest) 0 0 = (Z.of_N n, S (length l), rest).
Proof.
  unfold pretty, pretty_N. case_decide as Hn.
  - subst n. exists 0%N, []. split_and!; [done..|]. intros rest Hr. apply (digits_stop rest 0 1 Hr).
  - destruct (go_head n "" ltac:(lia)) as (d & l & Hl & Hd). exists d, l. split_and!; [done|lia|lia|].
    intros rest Hr. rewrite <- Hl. destruct (digits_go n "") as (k & Hk & _ & Hgo). rewrite Hgo.
    rewrite (digits_stop rest _ _ Hr). rewrite Hl in Hk. cbn [length chars String.list_ascii_of_string] in Hk.
    repeat f_equal; lia.
Qed.

Lemma digit_char_code (d : N) : (d < 10)%N -> code (pretty_N_char d) = 48 + Z.of_N d.
Proof.
  intros Hd. destruct d as [|p]; [done|]. do 4 (destruct p as [p|p|]; try done; try (exfalso; lia)).
Qed.

(** The integer part read, no fraction and no exponent follow. *)
Lemma parse_tail (neg : bool) (m : Z) rest : number_end rest ->
  ('(m, n2, r2) ← match rest with
    | c :: r => if code c =? 46 then match digits 10 r m 0 with (_, O, _) => None | x => Some x end
                else Some (m, O, rest)
    | [] => Some (m, O, [])
    end;
  '(e, r3) ← match r2 with
    | c :: r =>
        if (code c =? 101) || (code c =? 69) then
          let '(sg, r') := match r with
            | d :: r'' => if code d =? 45 then (-1, r'') else if code d =? 43 then (1, r'') else (1, r)
            | [] => (1, []) end in
          match digits 10 r' 0 0 with (_, O, _) => None | (e, _, r'') => Some (sg * e, r'') end
        else Some (0, r2)
    | [] => Some (0, [])
    end;
  let q := scale10 m (e - Z.of_nat n2) in
  Some (Fin (if neg then Qopp q else q), r3)) = Some (of_Z (if neg then - m else m), rest).
Proof.
  intros Hr. assert (scale10 m 0 = inject_Z m) as Hs by (unfold scale10; simpl; by rewrite Z.mul_1_r).
  destruct rest as [|c r]; cbn [mbind option_bind].
  - change (0 - Z.of_nat 0) with 0. rewrite Hs. by destruct neg.
  - destruct Hr as (_ & H1 & H2 & H3). apply Z.eqb_neq in H1, H2, H3. rewrite H1. cbn [mbind option_bind].
    rewrite H2, H3. cbn [orb mbind option_bind]. change (0 - Z.of_nat 0) with 0. rewrite Hs. by destruct neg.
Qed.

Lemma parse_nat (neg : bool) (n : N) rest : number_end rest ->
  parse_number ((if neg then ["-"%char] else []) ++ chars (pretty n) ++ rest) =
  Some (of_Z (if neg then - Z.of_N n else Z.of_N n), rest).
Proof.
  intros Hr. destruct (pretty_N_digits n) as (d & l & Hl & Hd & H0 & Hdig). rewrite Hl. unfold parse_number.
  pose proof (digit_char_code d Hd) as Hc.
  assert ((match (if neg then ["-"%char] else []) ++ (pretty_N_char d :: l) ++ rest with
           | c :: l' => if code c =? 45 then (true, l') else (false, (if neg then ["-"%char] else []) ++ (pretty_N_char d :: l) ++ rest)
           | [] => (false, []) end) = (neg, (pretty_N_char d :: l) ++ rest)) as ->.
  { destruct neg; [done|]. cbn [app]. by assert (code (pretty_N_char d) =? 45 = false) as -> by lia. }
  rewrite (Hdig rest (number_digits_end _ Hr)). cbn [app Nat.eqb orb].
  assert ((code (pretty_N_char d) =? 48) && Nat.ltb 1 (S (length l)) = false) as ->.
  { rewrite Hc. destruct (decide (d = 0%N)) as [->|Hne]; [by rewrite H0|].
    by assert (48 + Z.of_N d =? 48 = false) as -> by lia. }
  by apply (parse_tail neg).
Qed.

Lemma parse_integer (z : Z) rest : number_end rest -> parse_number (chars (pretty z) ++ rest) = Some (of_Z z, rest).
Proof.
  intros Hr. destruct z as [|p|p].
  - exact (parse_nat false 0 rest Hr).
  - exact (parse_nat false (Npos p) rest Hr).
  - change (pretty (Zneg p)) with ("-" +:+ pretty (Npos p)). rewrite chars_app, <- app_assoc.
    exact (parse_nat true (Npos p) rest Hr).
Qed.

(** * Decimals *)

Lemma digits_zeros j l acc i : digits 10 (replicate j "0"%char ++ l) acc i = digits 10 l (acc * 10 ^ Z.of_nat j) (i + j)%nat.
Proof.
  revert acc i; induction j as [|j IH]; intros acc i; cbn [replicate app digits].
  - f_equal; lia.
  - change (digit_value 10 "0"%char) with (Some 0). cbn iota. rewrite IH, Nat2Z.inj_succ, Z.pow_succ_r by lia. f_equal; lia.
Qed.

Lemma digits_pretty (n : N) rest acc i : digits_end rest ->
  let k := length (chars (pretty n)) in
  ((0 < n)%N -> 10 ^ Z.of_nat k <= 10 * Z.of_N n) /\ (1 <= k)%nat /\ (n = 0%N -> k = 1%nat) /\
  digits 10 (chars (pretty n) ++ rest) acc i = (acc * 10 ^ Z.of_nat k + Z.of_N n, (i + k)%nat, rest).
Proof.
  intros Hr. cbn zeta. destruct (pretty_N_digits n) as (d & l & Hl & _). split_and!.
  2: by rewrite Hl; simpl; lia.
  all: unfold pretty, pretty_N in *; case_decide as Hn; [subst n|]; try done.
  - destruct (digits_go n "") as (k & Hk & Hlo & _). rewrite Hk, Nat.add_0_r. done.
  - cbn [chars String.list_ascii_of_string app digits length]. change (digit_value 10 "0"%char) with (Some 0). cbn iota.
    rewrite digits_stop by done. repeat f_equal; lia.
  - destruct (digits_go n "") as (k & Hk & _ & Hgo). rewrite Hgo, Hk, Nat.add_0_r. by apply digits_stop.
Qed.

Lemma parse_decimal (neg : bool) (a b : N) (k : nat) rest : number_end rest -> (1 <= k)%nat -> Z.of_N b < 10 ^ Z.of_nat k ->
  parse_number ((if neg then ["-"%char] else []) ++ chars (pretty a) ++ "."%char ::
                replicate (k - length (chars (pretty b))) "0"%char ++ chars (pretty b) ++ rest) =
  Some (Fin (let q := scale10 (Z.of_N a * 10 ^ Z.of_nat k + Z.of_N b) (0 - Z.of_nat k) in if neg then Qopp q else q), rest).
Proof.
  intros Hr Hk Hb. destruct (pretty_N_digits a) as (d & l & Hl & Hd & H0 & Hdig). rewrite Hl. unfold parse_number.
  set (frac := replicate _ _ ++ _). pose proof (digit_char_code d Hd) as Hc.
  assert ((match (if neg then ["-"%char] else []) ++ (pretty_N_char d :: l) ++ "."%char :: frac with
           | c :: l' => if code c =? 45 then (true, l') else (false, (if neg then ["-"%char] else []) ++ (pretty_N_char d :: l) ++ "."%char :: frac)
           | [] => (false, []) end) = (neg, (pretty_N_char d :: l) ++ "."%char :: frac)) as ->.
  { destruct neg; [done|]. cbn [app]. by assert (code (pretty_N_char d) =? 45 = false) as -> by lia. }
  rewrite (Hdig ("."%char :: frac) eq_refl). cbn [app Nat.eqb orb].
  assert ((code (pretty_N_char d) =? 48) && Nat.ltb 1 (S (length l)) = false) as ->.
  { rewrite Hc. destruct (decide (d = 0%N)) as [->|Hne]; [by rewrite H0|].
    by assert (48 + Z.of_N d =? 48 = false) as -> by lia. }
  change (code "." =? 46) with true. cbn iota.
  destruct (digits_pretty b rest (Z.of_N a * 10 ^ Z.of_nat (k - length (chars (pretty b)))) (0 + (k - length (chars (pretty b)))))
    as (Hlo & H1 & Hz & Hd2); [by apply number_digits_end|].
  set (n := length (chars (pretty b))) in *.
  assert (n <= k)%nat as Hnk.
  { destruct (decide (b = 0%N)) as [Hb0|]; [rewrite (Hz Hb0); lia|]. specialize (Hlo ltac:(lia)).
    assert (10 ^ Z.of_nat n < 10 ^ (Z.of_nat k + 1)) as Hlt by (rewrite Z.pow_add_r by lia; lia).
    apply Z.pow_lt_mono_r_iff in Hlt; lia. }
  unfold frac. rewrite digits_zeros, Hd2. replace (0 + (k - n) + n)%nat with k by lia.
  rewrite <- Z.mul_assoc, <- Z.pow_add_r by lia. replace (Z.of_nat (k - n) + Z.of_nat n) with (Z.of_nat k) by lia.
  destruct k as [|k]; [lia|]. cbn [mbind option_bind]. destruct rest as [|c r]; cbn [mbind option_bind]; [done|].
  destruct Hr as (_ & _ & H2 & H3). apply Z.eqb_neq in H2, H3. by rewrite H2, H3.
Qed.

Lemma number_head (z : Z) : exists c l, chars (pretty z) = c :: l /\
  (c = "-"%char \/ exists d, (d < 10)%N /\ c = pretty_N_char d).
Proof.
  destruct z as [|p|p].
  - exists "0"%char, []. split; [done|]. right. by exists 0%N.
  - destruct (pretty_N_digits (Npos p)) as (d & l & Hl & Hd & _). exists (pretty_N_char d), l. eauto.
  - exists "-"%char, (chars (pretty (Npos p))). split; [|by left].
    change (pretty (Zneg p)) with ("-" +:+ pretty (Npos p)). by rewrite chars_app.
Qed.

Lemma parse_value_number f c l n r :
  (c = "-"%char \/ exists d, (d < 10)%N /\ c = pretty_N_char d) ->
  parse_number (c :: l) = Some (n, r) -> parse_value (S f) (c :: l) = Some (VNum n, r).
Proof.
  intros Hc Hn. assert (parse_value (S f) (c :: l) = literal (c :: l)) as ->.
  { destruct Hc as [->|(d & Hd & ->)]; [done|].
    destruct d as [|p]; [done|]. do 4 (destruct p as [p|p|]; try done; try (exfalso; lia)). }
  assert (literal (c :: l) = '(n, r) ← parse_number (c :: l); Some (VNum n, r)) as ->; [|by rewrite Hn].
  destruct Hc as [->|(d & Hd & ->)]; [done|].
  destruct d as [|p]; [done|]. do 4 (destruct p as [p|p|]; try done; try (exfalso; lia)).
Qed.

(** * Values *)

Definition text (v : value) : list ascii := chars (json_stringify v).

(** A character that begins a value. *)
Definition value_head (l : list ascii) : Prop :=
  match l with c :: _ => json_space c = false /\ code c <> 93 | [] => False end.

(** Texts between commas. *)
Fixpoint commas (l : list (list ascii)) : list ascii :=
  match l with [] => [] | [t] => t | t :: l' => t ++ ","%char :: commas l' end.

Lemma chars_join l : chars (join "," l) = commas (map chars l).
Proof.
  destruct l as [|s l]; [done|]. revert s. induction l as [|t l IH]; intros s; cbn [join foldr map commas].
  - rewrite chars_app. apply app_nil_r.
  - rewrite chars_app. f_equal. rewrite chars_app. cbn [chars String.list_ascii_of_string app]. f_equal. apply (IH t).
Qed.

Lemma commas_app t l rest : l <> [] -> commas (t :: l) ++ rest = t ++ ","%char :: commas l ++ rest.
Proof. destruct l; [done|]. intros _. cbn [commas]. by rewrite <- app_assoc. Qed.

Lemma skip_head l rest : value_head l -> skip_ws (l ++ rest) = l ++ rest.
Proof. destruct l as [|c l]; [done|]. intros [H _]. simpl. by rewrite H. Qed.

Definition entry_text (e : string * value) : list ascii :=
  quote_char :: concat (map escape (chars e.1)) ++ quote_char :: ":"%char :: text e.2.

Lemma text_object props : forallb (fun e => json_data e.2) props = true ->
  text (VObj props) = "{"%char :: commas (map entry_text props) ++ ["}"%char].
Proof.
  intros Hd. unfold text. cbn [json_stringify].
  assert (omap (fun e => match e.2 with VUndefined => None
      | _ => Some (quote e.1 +:+ ":" +:+ json_stringify e.2) end) props =
    map (fun e => quote e.1 +:+ ":" +:+ json_stringify e.2) props) as ->.
  { induction props as [|[k v] props IH]; [done|]. cbn [forallb map] in *. apply andb_true_iff in Hd as [Hv Hd].
    cbn [omap list_omap]. destruct v; try done; cbn [snd fst]; f_equal; by apply IH. }
  rewrite !chars_app, chars_join, map_map. cbn [chars String.list_ascii_of_string app]. do 3 f_equal.
  apply map_ext. intros [k v]. unfold entry_text. rewrite !chars_app, chars_quote.
  cbn [chars String.list_ascii_of_string app fst snd]. by rewrite <- app_assoc.
Qed.

Lemma text_array items : text (VArr items) = "["%char :: commas (map text items) ++ ["]"%char].
Proof. unfold text. cbn [json_stringify]. by rewrite !chars_app, chars_join, map_map. Qed.

Lemma text_integer q : q = inject_Z (Qnum q) -> text (VNum (Fin q)) = chars (pretty (Qnum q)).
Proof.
  intros H. unfold text. cbn [json_stringify]. rewrite H. unfold number_string.
  assert (isInteger (Fin (inject_Z (Qnum q))) = Some (Qnum q)) as ->; [apply isInteger_of_Z|done].
Qed.

Lemma pretty_of_N (n : N) : pretty (Z.of_N n) = pretty n.
Proof. by destruct n. Qed.

(** The text of a short decimal, and the number it is read as. *)
Lemma text_decimal q : short_decimal q = true -> exists (neg : bool) (a b : N) k,
  (1 <= k)%nat /\ Z.of_N b < 10 ^ Z.of_nat k /\
  text (VNum (Fin q)) = (if neg then ["-"%char] else []) ++ chars (pretty a) ++ "."%char ::
                        replicate (k - length (chars (pretty b))) "0"%char ++ chars (pretty b) /\
  q = (let p := scale10 (Z.of_N a * 10 ^ Z.of_nat k + Z.of_N b) (0 - Z.of_nat k) in if neg then Qopp p else p).
Proof.
  unfold short_decimal. rewrite !andb_true_iff. intros [[[Hi%bool_decide_eq_true _] _] Hd%Z.eqb_eq].
  set (k := decimals q) in *. set (p := 10 ^ Z.of_nat k) in *. assert (0 < p) as Hp by (apply Z.pow_pos_nonneg; lia).
  assert (1 <= k)%nat as Hk.
  { destruct k as [|k']; [|lia]. exfalso. change p with 1 in Hd. destruct q as [n d]. cbn [Qnum Qden] in *.
    injection Hd as ->. unfold isInteger in Hi. cbn [Qnum Qden] in Hi. rewrite Z.mod_1_r in Hi. done. }
  set (m := Z.abs (Qnum q)).
  exists (Qnum q <? 0), (Z.to_N (m / p)), (Z.to_N (m mod p)), k.
  pose proof (Z.mod_pos_bound m p Hp) as Hmod. pose proof (Z.div_pos m p ltac:(lia) Hp) as Hdiv.
  split; [done|]. split; [lia|]. split.
  - unfold text. cbn [json_stringify]. unfold number_string. rewrite Hi. fold k p m. rewrite Hd, Z.div_mul by lia.
    rewrite <- !pretty_of_N, !Z2N.id by lia. rewrite !chars_app, chars_unchars, chars_length.
    destruct (Qnum q <? 0); cbn [chars String.list_ascii_of_string app]; done.
  - rewrite !Z2N.id by lia. fold p. replace (m / p * p + m mod p) with m by (rewrite Z.mul_comm; apply Z.div_mod; lia).
    unfold scale10. replace (0 <=? 0 - Z.of_nat k) with false by lia. replace (- (0 - Z.of_nat k)) with (Z.of_nat k) by lia.
    fold p. cbn zeta. destruct q as [n d]. cbn [Qnum Qden] in *. rewrite <- Hd. cbn [Z.to_pos]. unfold m.
    destruct (Z.ltb_spec n 0); unfold Qopp; cbn [Qnum Qden]; f_equal; lia.
Qed.

Lemma text_number q : json_data (VNum (Fin q)) = true ->
  (exists c l, text (VNum (Fin q)) = c :: l /\ (c = "-"%char \/ exists d, (d < 10)%N /\ c = pretty_N_char d)) /\
  forall rest, number_end rest -> parse_number (text (VNum (Fin q)) ++ rest) = Some (Fin q, rest).
Proof.
  cbn [json_data]. rewrite orb_true_iff. intros [H%bool_decide_eq_true|H].
  - rewrite text_integer by done. split; [apply number_head|]. intros rest Hr. rewrite parse_integer by done.
    unfold of_Z. by rewrite <- H.
  - destruct (text_decimal q H) as (neg & a & b & k & Hk & Hb & -> & Hq). split.
    + destruct neg; [by exists "-"%char; eauto|]. destruct (pretty_N_digits a) as (d & l & -> & Hd & _). cbn [app]. eauto 10.
    + intros rest Hr. rewrite <- !app_assoc. cbn [app]. rewrite <- !app_assoc, parse_decimal by done. do 2 f_equal. f_equal. by symmetry.
Qed.

Lemma text_head v : json_data v = true -> value_head (text v).
Proof.
  destruct v as [| |[]|[| | |q]|s|items|props]; intros H; try done.
  destruct (text_number q H) as [(c & l & -> & [->|(d & Hd & ->)]) _]; [done|].
  split; [|rewrite digit_char_code by done; lia]. unfold json_space. rewrite digit_char_code by done.
  repeat (apply orb_false_iff; split); apply Z.eqb_neq; lia.
Qed.

(** [v] is read back from its text, whatever follows it. *)
Definition reads_back (v : value) : Prop := forall f rest,
  number_end rest -> (length (text v) <= f)%nat -> parse_value f (text v ++ rest) = Some (v, rest).

Lemma text_nonempty v : json_data v = true -> (1 <= length (text v))%nat.
Proof. intros H%text_head. destruct (text v); [done|simpl; lia]. Qed.

Lemma commas_cons_length t l : (length t + length (commas l) <= length (commas (t :: l)))%nat.
Proof. destruct l; cbn [commas]; rewrite ?length_app; simpl; lia. Qed.

Lemma parse_items_text items : Forall (fun v => json_data v = true) items -> Forall reads_back items -> items <> [] ->
  forall f rest, (length (commas (map text items)) < f)%nat ->
  parse_items f (commas (map text items) ++ "]"%char :: rest) = Some (items, rest).
Proof.
  intros Hd Hr Hne. induction items as [|v items IH]; [done|]. clear Hne. intros [|f] rest Hf; [lia|].
  apply Forall_cons in Hd as [Hv Hd], Hr as [Hrv Hr]. pose proof (text_nonempty v Hv) as H1.
  cbn [map] in *. pose proof (commas_cons_length (text v) (map text items)) as Hlen. destruct items as [|w items].
  - cbn [map commas parse_items] in *. rewrite Hrv; [done|done|lia].
  - rewrite commas_app by done. cbn [parse_items]. rewrite Hrv; [|done|lia].
    cbn [mbind option_bind skip_ws]. assert (json_space "," = false) as -> by done. cbn [code].
    change (code ","%char =? 93) with false. change (code ","%char =? 44) with true. cbn iota.
    rewrite IH; [done..|]. lia.
Qed.

Lemma length_entry e : (length (text e.2) + length (concat (map escape (chars e.1))) + 3 <= length (entry_text e))%nat.
Proof. unfold entry_text. cbn [length]. rewrite length_app. cbn [length]. lia. Qed.

Lemma parse_props_step f k v tail acc : (length (entry_text (k, v)) <= f)%nat -> json_data v = true -> reads_back v ->
  number_end tail ->
  parse_props (S f) (entry_text (k, v) ++ tail) acc =
  match skip_ws tail with
  | e :: r2 => if code e =? 125 then Some (dset acc k v, r2)
               else if code e =? 44 then parse_props f r2 (dset acc k v) else None
  | [] => None
  end.
Proof.
  intros Hf Hv Hrv Ht. pose proof (length_entry (k, v)) as Hlen. cbn [fst snd] in Hlen.
  pose proof (length_escape (chars k)) as Hesc. unfold entry_text. cbn [fst snd app]. rewrite <- app_assoc.
  cbn [parse_props skip_ws]. change (json_space quote_char) with false. cbn iota.
  change (code quote_char =? 34) with true. cbn [negb app].
  rewrite parse_string_escape by lia. cbn [mbind option_bind skip_ws]. change (json_space ":") with false. cbn iota.
  change (code ":" =? 58) with true. cbn [negb]. rewrite Hrv; [|done|lia]. cbn [mbind option_bind].
  by rewrite unchars_chars.
Qed.

Lemma parse_props_text props : Forall (fun e => json_data e.2 = true) props -> Forall (fun e => reads_back e.2) props ->
  props <> [] -> forall f rest acc, (length (commas (map entry_text props)) < f)%nat ->
  parse_props f (commas (map entry_text props) ++ "}"%char :: rest) acc =
  Some (foldl (fun d e => dset d e.1 e.2) acc props, rest).
Proof.
  intros Hd Hr Hne. induction props as [|[k v] props IH]; [done|]. clear Hne. intros [|f] rest acc Hf; [lia|].
  apply Forall_cons in Hd as [Hv Hd], Hr as [Hrv Hr]. cbn [snd] in Hv, Hrv.
  cbn [map] in *. pose proof (commas_cons_length (entry_text (k, v)) (map entry_text props)) as Hlen.
  pose proof (length_entry (k, v)) as H1. destruct props as [|e props].
  - cbn [map commas] in *. rewrite parse_props_step; [done|lia|done..].
  - rewrite commas_app by done. rewrite parse_props_step; [|lia|done..]. cbn [skip_ws foldl].
    change (json_space ",") with false. cbn iota. change (code "," =? 125) with false.
    change (code "," =? 44) with true. cbn iota. apply IH; [done..|]. lia.
Qed.

Lemma reads_string s : reads_back (VStr s).
Proof.
  intros f rest _. unfold text. cbn [json_stringify]. rewrite chars_quote. cbn [length]. rewrite length_app.
  pose proof (length_escape (chars s)). cbn [length]. intros Hf. destruct f as [|f]; [lia|]. cbn [app]. rewrite <- app_assoc.
  cbn [parse_value skip_ws]. change (json_space quote_char) with false. cbn iota.
  change (code quote_char) with 34. cbn iota. cbn [app]. rewrite parse_string_escape by lia.
  cbn [mbind option_bind]. by rewrite unchars_chars.
Qed.

Lemma reads_number q : json_data (VNum (Fin q)) = true -> reads_back (VNum (Fin q)).
Proof.
  intros Hq f rest Hr. destruct (text_number q Hq) as [(c & l & Hl & Hc) Hp]. specialize (Hp rest Hr).
  rewrite Hl in *. cbn [length app] in *. intros Hf. destruct f; [lia|]. by rewrite (parse_value_number f c (l ++ rest) _ _ Hc Hp).
Qed.

Lemma reads_array items : Forall (fun v => json_data v = true) items -> Forall reads_back items -> reads_back (VArr items).
Proof.
  intros Hd Hr f rest _. rewrite text_array. cbn [length]. rewrite length_app. cbn [length]. intros Hf. destruct f as [|f]; [lia|].
  cbn [app]. rewrite <- app_assoc. cbn [parse_value skip_ws]. change (json_space "[") with false. cbn iota.
  change (code "[") with 91. cbn iota. destruct items as [|v items]; [done|].
  assert (value_head (commas (map text (v :: items)))) as Hh.
  { apply Forall_cons in Hd as [Hv%text_head _]. cbn [map]. destruct (text v) as [|c l]; [done|].
    destruct (map text items); done. }
  rewrite skip_head by done. destruct (commas (map text (v :: items))) as [|c l] eqn:E; [done|].
  destruct Hh as [_ Hc]. cbn [app]. apply Z.eqb_neq in Hc. rewrite Hc.
  rewrite app_comm_cons, <- E.
  rewrite parse_items_text; [done..|]. rewrite E. cbn [length] in *. lia.
Qed.

Lemma reads_object props : NoDup (map fst props) -> Forall (fun e => json_data e.2 = true) props ->
  Forall (fun e => reads_back e.2) props -> reads_back (VObj props).
Proof.
  intros Hn Hd Hr f rest _. rewrite text_object; [|by apply forallb_forall; intros e He; rewrite Forall_forall in Hd; apply Hd, list_elem_of_In].
  cbn [length]. rewrite length_app. cbn [length]. intros Hf. destruct f as [|f]; [lia|].
  cbn [app]. rewrite <- app_assoc. cbn [parse_value skip_ws]. change (json_space "{") with false. cbn iota.
  change (code "{") with 123. cbn iota. destruct props as [|e props]; [done|].
  destruct (commas (map entry_text (e :: props))) as [|c l] eqn:E.
  { exfalso. revert E. cbn [map]. unfold entry_text at 1. by destruct (map entry_text props). }
  assert (c = quote_char) as -> by (revert E; cbn [map]; unfold entry_text at 1; destruct (map entry_text props); cbn; congruence).
  cbn [app skip_ws]. change (json_space quote_char) with false. cbn iota. change (code quote_char =? 125) with false. cbn iota.
  rewrite app_comm_cons, <- E. cbn [app].
  rewrite parse_props_text; [|done..|rewrite E; cbn [length] in *; lia]. cbn [mbind option_bind].
  do 3 f_equal. by apply (dict_of_app []).
Qed.

Lemma reads_value : forall v, json_data v = true -> reads_back v.
Proof.
  fix IH 1. intros v Hv.
  assert (forall items, forallb json_data items = true -> Forall (fun v => json_data v = true) items) as Hall.
  { intros items H. apply Forall_forall. intros x Hx%list_elem_of_In. by apply (proj1 (forallb_forall _ _) H). }
  destruct v as [| |[]|[| | |q]|s|items|props]; try done.
  - intros [|f] rest _ Hf; [simpl in Hf; lia|done].
  - intros [|f] rest _ Hf; [simpl in Hf; lia|done].
  - intros [|f] rest _ Hf; [simpl in Hf; lia|done].
  - by apply reads_number.
  - apply reads_string.
  - apply reads_array; [by apply Hall|]. cbn [json_data] in Hv. clear Hall.
    induction items as [|v items IHl]; [done|]. cbn [forallb] in Hv. apply andb_true_iff in Hv as [H1 H2].
    constructor; [by apply IH|by apply IHl].
  - cbn [json_data] in Hv. apply andb_true_iff in Hv as [Hn Hd]. apply bool_decide_eq_true in Hn.
    apply reads_object; [done|..]; clear Hn Hall; induction props as [|e props IHl]; try done;
      cbn [forallb] in Hd; apply andb_true_iff in Hd as [H1 H2]; constructor; [done|by apply IHl| |by apply IHl].
    by apply IH.
Qed.

#[export] Instance js_json_roundtrip : JSONRoundTrip (J:=js_JSON).
Proof.
  intros v Hv. cbn [JSON_parse JSON_stringify js_JSON]. unfold json_parse.
  pose proof (reads_value v Hv (S (2 * String.length (json_stringify v))) [] I) as H.
  rewrite app_nil_r in H. unfold text in H. rewrite H; [done|].
  rewrite chars_length. lia.
Qed.
