(* ===== verification/Uri.v ===== *)
(** [encodeURIComponent] and [decodeURIComponent] on code units below 256: a code unit
    from 128 on is two bytes of UTF-8. *)

From S2P Require Import Prelude.
Open Scope Z_scope.

Definition uri_unreserved (c : ascii) : bool :=
  let n := Z.of_nat (nat_of_ascii c) in
  ((65 <=? n) && (n <=? 90)) || ((97 <=? n) && (n <=? 122)) || ((48 <=? n) && (n <=? 57)) ||
  existsb (Z.eqb n) [45; 95; 46; 33; 126; 42; 39; 40; 41].

Definition hex_digit (z : Z) : ascii := ascii_of_nat (Z.to_nat (if z <? 10 then 48 + z else 55 + z)).
Definition percent_byte (b : Z) : list ascii := ["%"%char; hex_digit (b / 16); hex_digit (b mod 16)].

Definition encode_char (c : ascii) : list ascii :=
  let n := Z.of_nat (nat_of_ascii c) in
  if uri_unreserved c then [c]
  else if n <? 128 then percent_byte n
  else percent_byte (192 + n / 64) ++ percent_byte (128 + n mod 64).

Definition encodeURIComponent (s : string) : string := unchars (flat_map encode_char (chars s)).

Definition hex_byte (h1 h2 : ascii) : option Z :=
  d1 ← digit_value 16 h1; d2 ← digit_value 16 h2; Some (16 * d1 + d2).

(** [None] is the [URIError] (or a character from 256 on, which this model of strings
    does not hold). *)
Fixpoint decode_chars (l : list ascii) : option (list ascii) :=
  match l with
  | [] => Some []
  | c :: r =>
      if Ascii.eqb c "%" then
        match r with
        | h1 :: h2 :: r2 =>
            match hex_byte h1 h2 with
            | None => None
            | Some b =>
                if b <? 128 then cons (ascii_of_nat (Z.to_nat b)) <$> decode_chars r2
                else if (194 <=? b) && (b <=? 195) then
                  match r2 with
                  | p :: h3 :: h4 :: r3 =>
                      if Ascii.eqb p "%" then
                        match hex_byte h3 h4 with
                        | Some b2 =>
                            if (128 <=? b2) && (b2 <=? 191)
                            then cons (ascii_of_nat (Z.to_nat (64 * (b - 192) + (b2 - 128)))) <$> decode_chars r3
                            else None
                        | None => None
                        end
                      else None
                  | _ => None
                  end
                else None
            end
        | _ => None
        end
      else cons c <$> decode_chars r
  end.

Definition decodeURIComponent (s : string) : option string := unchars <$> decode_chars (chars s).

Lemma decode_encode_char c l : decode_chars (encode_char c ++ l) = cons c <$> decode_chars l.
Proof. destruct c as [[] [] [] [] [] [] [] []]; reflexivity. Qed.

Lemma decode_encode s : decodeURIComponent (encodeURIComponent s) = Some s.
Proof.
  unfold decodeURIComponent, encodeURIComponent. rewrite chars_unchars.
  assert (decode_chars (flat_map encode_char (chars s)) = Some (chars s)) as ->.
  { induction (chars s) as [|c l IH]; simpl; [done|]. rewrite decode_encode_char, IH. done. }
  simpl. by rewrite unchars_chars.
Qed.

(** What an encoded string is made of. *)
Lemma encoded_chars s c :
  c ∈ chars (encodeURIComponent s) -> uri_unreserved c = true \/ c = "%"%char.
Proof.
  unfold encodeURIComponent. rewrite chars_unchars, list_elem_of_In, in_flat_map. intros (d & _ & H).
  destruct d as [[] [] [] [] [] [] [] []]; vm_compute in H;
    repeat (destruct H as [<-|H]; [(left; reflexivity) || (right; reflexivity)|]); destruct H.
Qed.
