(* ===== verification/RegExp.v ===== *)
(** Regular expressions of the language, as far as the source uses them: a backtracking
    matcher in continuation style, after the standard's, and the string methods built on it.

    The matcher is proved against a relation of what an expression matches, so that a
    test can be reasoned about without the order in which alternatives are tried.  Case
    insensitivity is written into the classes; captures inside a repetition are not used. *)

From S2P Require Import Prelude.
Open Scope Z_scope.

Inductive regex :=
  | Eps
  | Chr (p : ascii -> bool)
  | Cat (r1 r2 : regex)
  | Alt (r1 r2 : regex)
  | Star (greedy : bool) (r : regex)
  | Group (n : nat) (r : regex)
  | Bol (multiline : bool)
  | Eol (multiline : bool).

Definition captures := list (nat * (nat * nat)).

(** The characters that end a line. *)
Definition line_end (c : ascii) : bool := bool_decide (c = Ascii.ascii_of_nat 10) || bool_decide (c = Ascii.ascii_of_nat 13).

Section exec.
Context (s : list ascii).

Definition at_bol (multiline : bool) (i : nat) : bool :=
  match i with O => true | S j => multiline && match s !! j with Some c => line_end c | None => false end end.
Definition at_eol (multiline : bool) (i : nat) : bool :=
  match s !! i with None => true | Some c => multiline && line_end c end.

Definition or_else {R} (x y : option R) : option R := match x with Some _ => x | None => y end.

(** The repetition: an iteration that matches nothing fails; [fuel] is the number of
    iterations that consume a character, at most the length of the text. *)
Fixpoint repeat_exec {R} (step : nat -> captures -> (nat -> captures -> option R) -> option R) (greedy : bool) (fuel : nat)
    (i : nat) (c : captures) (k : nat -> captures -> option R) : option R :=
  match fuel with
  | O => k i c
  | S fuel =>
    let again := step i c (fun j c' => if (j =? i)%nat then None else repeat_exec step greedy fuel j c' k) in
    if greedy then or_else again (k i c) else or_else (k i c) again
  end.

Fixpoint exec_at {R} (r : regex) (i : nat) (c : captures) (k : nat -> captures -> option R) : option R :=
  match r with
  | Eps => k i c
  | Chr p => match s !! i with Some x => if p x then k (S i) c else None | None => None end
  | Cat r1 r2 => exec_at r1 i c (fun j c' => exec_at r2 j c' k)
  | Alt r1 r2 => or_else (exec_at r1 i c k) (exec_at r2 i c k)
  | Star greedy r => repeat_exec (exec_at r) greedy (length s - i) i c k
  | Group n r => exec_at r i c (fun j c' => k j (dset c' n (i, j)))
  | Bol m => if at_bol m i then k i c else None
  | Eol m => if at_eol m i then k i c else None
  end.

(** Where a match that starts at [i] ends, and what the groups hold. *)
Definition match_at (r : regex) (i : nat) : option (nat * captures) := exec_at r i [] (fun j c => Some (j, c)).

(** The first match at or after [i]: [fuel] positions are left to try after [i]. *)
Fixpoint search (r : regex) (fuel i : nat) : option (nat * nat * captures) :=
  match match_at r i with
  | Some (j, c) => Some (i, j, c)
  | None => match fuel with O => None | S fuel => search r fuel (S i) end
  end.
Definition search_from (r : regex) (i : nat) : option (nat * nat * captures) :=
  if (i <=? length s)%nat then search r (length s - i) i else None.

(** The matches of a global expression: after an empty one the search moves on. *)
Fixpoint match_all (r : regex) (fuel i : nat) : list (nat * nat * captures) :=
  match fuel with
  | O => []
  | S fuel =>
    match search_from r i with
    | None => []
    | Some (a, b, c) => (a, b, c) :: match_all r fuel (if (b =? a)%nat then S b else b)
    end
  end.

(** The text with the given matches replaced, from position [i]. *)
Fixpoint replace_matches (f : nat -> nat -> captures -> list ascii) (ms : list (nat * nat * captures)) (i : nat) : list ascii :=
  match ms with
  | [] => drop i s
  | (a, b, c) :: ms => take (a - i) (drop i s) ++ f a b c ++ replace_matches f ms b
  end.
End exec.

(** [r.test(s)], [s.match(r)] of a global expression, [s.replace(r, f)] of a global one and
    of one that is not. *)
Definition regex_test (r : regex) (s : string) : bool := match search_from (chars s) r 0 with Some _ => true | None => false end.
Definition matches_of (r : regex) (s : string) : list (nat * nat * captures) := match_all (chars s) r (S (String.length s)) 0.
Definition match_strings (r : regex) (s : string) : list string := map (fun m => slice m.1.1 m.1.2 s) (matches_of r s).
Definition replace_all (r : regex) (f : nat -> nat -> captures -> list ascii) (s : string) : string :=
  unchars (replace_matches (chars s) f (matches_of r s) 0).
Definition replace_first (r : regex) (f : nat -> nat -> captures -> list ascii) (s : string) : string :=
  unchars (replace_matches (chars s) f (option_list (search_from (chars s) r 0)) 0).

(** What group [n] matched; [""] when it did not take part. *)
Definition capture (s : string) (n : nat) (c : captures) : string :=
  match dget c n with Some (a, b) => slice a b s | None => ""%string end.
Definition by_string (t : string) : nat -> nat -> captures -> list ascii := fun _ _ _ => chars t.
Definition by_group (s : string) (n : nat) : nat -> nat -> captures -> list ascii := fun _ _ c => chars (capture s n c).

(** * Classes and derived forms *)

Definition one (x : ascii) : regex := Chr (fun c => bool_decide (c = x)).
Definition one_of (l : string) : regex := Chr (fun c => bool_decide (c ∈ chars l)).
Definition none_of (l : string) : regex := Chr (fun c => negb (bool_decide (c ∈ chars l))).
Definition any : regex := Chr (fun _ => true).
Definition dot : regex := Chr (fun c => negb (line_end c)).
Definition space : regex := Chr is_space.
Definition not_space : regex := Chr (fun c => negb (is_space c)).
Definition is_digit (c : ascii) : bool := (48 <=? nat_of_ascii c)%nat && (nat_of_ascii c <=? 57)%nat.
Definition is_letter (c : ascii) : bool :=
  (65 <=? nat_of_ascii c)%nat && (nat_of_ascii c <=? 90)%nat || (97 <=? nat_of_ascii c)%nat && (nat_of_ascii c <=? 122)%nat.
Definition digit : regex := Chr is_digit.
Definition letter : regex := Chr is_letter.
Definition many (r : regex) : regex := Star true r.
Definition many1 (r : regex) : regex := Cat r (Star true r).
Definition opt (r : regex) : regex := Alt r Eps.
Fixpoint lit (l : list ascii) : regex := match l with [] => Eps | c :: l => Cat (one c) (lit l) end.
Definition text (s : string) : regex := lit (chars s).
(** [text] whatever the case of its letters. *)
Fixpoint lit_i (l : list ascii) : regex :=
  match l with [] => Eps | c :: l => Cat (Chr (fun x => bool_decide (lower_ascii x = lower_ascii c))) (lit_i l) end.
Definition text_i (s : string) : regex := lit_i (chars s).
Fixpoint times (n : nat) (r : regex) : regex := match n with O => Eps | S n => Cat r (times n r) end.
Fixpoint up_to (n : nat) (r : regex) : regex := match n with O => Eps | S n => Alt (Cat r (up_to n r)) Eps end.
Fixpoint seq_of (l : list regex) : regex := match l with [] => Eps | [r] => r | r :: l => Cat r (seq_of l) end.

Example test_words : match_strings (many1 not_space) "  one two" = ["one"; "two"]%string.
Proof. reflexivity. Qed.
Example test_empty_matches : replace_all (many (one "a")) (by_string "-") "baac" = "-b--c-"%string.
Proof. reflexivity. Qed.
Example test_groups : (let s := "x12y" in replace_all (Group 1 (many1 digit)) (fun a b c => chars ("<" +:+ capture s 1 c +:+ ">")) s) = "x<12>y"%string.
Proof. reflexivity. Qed.
Example test_lazy : match_strings (seq_of [one "<"; Star false any; one ">"]) "<a><b>" = ["<a>"; "<b>"]%string.
Proof. reflexivity. Qed.
Example test_lines : match_strings (seq_of [Bol true; many1 dot; Eol true]) (unchars (chars "ab" ++ [Ascii.ascii_of_nat 10] ++ chars "c")) = ["ab"; "c"]%string.
Proof. reflexivity. Qed.

(** * What an expression matches *)

Section spec.
Context (s : list ascii).

Inductive matches : regex -> nat -> nat -> Prop :=
  | m_eps i : matches Eps i i
  | m_chr p i x : s !! i = Some x -> p x = true -> matches (Chr p) i (S i)
  | m_cat r1 r2 i j k : matches r1 i j -> matches r2 j k -> matches (Cat r1 r2) i k
  | m_alt_l r1 r2 i j : matches r1 i j -> matches (Alt r1 r2) i j
  | m_alt_r r1 r2 i j : matches r2 i j -> matches (Alt r1 r2) i j
  | m_star_nil g r i : matches (Star g r) i i
  | m_star_cons g r i j k : matches r i j -> j <> i -> matches (Star g r) j k -> matches (Star g r) i k
  | m_group n r i j : matches r i j -> matches (Group n r) i j
  | m_bol m i : at_bol s m i = true -> matches (Bol m) i i
  | m_eol m i : at_eol s m i = true -> matches (Eol m) i i.
Hint Constructors matches : core.

Lemma or_else_Some {R} (x y : option R) z : or_else x y = Some z -> x = Some z \/ y = Some z.
Proof. destruct x; naive_solver. Qed.

(** A match found is one: the continuation was reached at an end of the expression. *)
Lemma exec_sound {R} r : forall i c (k : nat -> captures -> option R) z, exec_at s r i c k = Some z ->
  exists j c', matches r i j /\ k j c' = Some z.
Proof.
  induction r as [|p|r1 IH1 r2 IH2|r1 IH1 r2 IH2|g r IH|n r IH|m|m]; simpl; intros i c k z H.
  - eauto.
  - destruct (s !! i) eqn:E; [|done]. destruct (p a) eqn:Ep; [|done]. eauto.
  - apply IH1 in H as (j & c' & H1 & H). apply IH2 in H as (j' & c'' & H2 & H). eauto.
  - apply or_else_Some in H as [H|H]; [apply IH1 in H|apply IH2 in H]; destruct H as (j & c' & ? & ?); eauto.
  - set (fuel := (length s - i)%nat) in H. clearbody fuel. revert i c H. induction fuel as [|fuel IHf]; intros i c H; simpl in H; [eauto|].
    assert (Hor : exec_at s r i c (fun j c' => if (j =? i)%nat then None else repeat_exec (exec_at s r) g fuel j c' k) = Some z \/ k i c = Some z).
    { destruct g; apply or_else_Some in H as [H|H]; auto. }
    destruct Hor as [H'|H']; [|eauto]. apply IH in H' as (j & c' & Hr & H'). destruct (Nat.eqb_spec j i); [done|].
    apply IHf in H' as (j' & c'' & ? & ?). eauto.
  - apply IH in H as (j & c' & ? & ?). eauto.
  - destruct (at_bol s m i) eqn:E; [|done]. eauto.
  - destruct (at_eol s m i) eqn:E; [|done]. eauto.
Qed.

Lemma matches_bounds r i j : matches r i j -> (i <= length s)%nat -> (i <= j <= length s)%nat.
Proof.
  intros H. induction H; intros Hi; auto; try lia.
  match goal with H : _ !! _ = Some _ |- _ => apply lookup_lt_Some in H; lia end.
Qed.

(** If the expression matches up to [j] and the continuation succeeds there whatever the
    captures, the matcher succeeds. *)
Lemma exec_complete {R} r : forall i j c (k : nat -> captures -> option R), matches r i j -> (i <= length s)%nat ->
  (forall c', k j c' <> None) -> exec_at s r i c k <> None.
Proof.
  induction r as [|p|r1 IH1 r2 IH2|r1 IH1 r2 IH2|g r IH|n r IH|m|m]; simpl; intros i j c k H Hi Hk.
  - inversion H; subst. apply Hk.
  - inversion H as [|? ? x Hx Hp| | | | | | | |]; subst. rewrite Hx, Hp. apply Hk.
  - inversion H as [| |? ? ? m ? H1 H2| | | | | | |]; subst. apply (IH1 _ m); [done|done|]. intros c'.
    apply (IH2 _ j); [done| |done]. eapply matches_bounds in H1; [|done]. lia.
  - inversion H as [| | |? ? ? ? H1|? ? ? ? H1| | | | |]; subst.
    + destruct (exec_at s r1 i c k) eqn:E; [done|]. by destruct (IH1 i j c k H1 Hi Hk).
    + destruct (exec_at s r1 i c k); [done|]. simpl. by apply (IH2 _ j).
  - remember (length s - i)%nat as fuel eqn:Hf. assert (Hfuel : (length s - i <= fuel)%nat) by lia. clear Hf.
    revert i c H Hi Hfuel. induction fuel as [|fuel IHf]; intros i c H Hi Hfuel; simpl.
    + inversion H as [| | | | |? ? ?|? ? ? m ? H1 Hne H2| | |]; subst; [apply Hk|].
      eapply matches_bounds in H1; [|done]. lia.
    + set (again := exec_at s r i c _). assert (Hor : again <> None \/ k i c <> None).
      { inversion H as [| | | | |? ? ?|? ? ? m ? H1 Hne H2| | |]; subst; [right; apply Hk|left].
        pose proof (matches_bounds _ _ _ H1 Hi). apply (IH _ m); [done|done|]. intros c'.
        rewrite (proj2 (Nat.eqb_neq m i) Hne). apply IHf; [done|lia|lia]. }
      destruct g; [destruct again|destruct (k i c)]; simpl; naive_solver.
  - inversion H; subst. apply (IH _ j); [done|done|]. intros c'. apply Hk.
  - inversion H as [| | | | | | | |? ? E|]; subst. rewrite E. apply Hk.
  - inversion H as [| | | | | | | | |? ? E]; subst. rewrite E. apply Hk.
Qed.

Lemma match_at_Some r i j c : match_at s r i = Some (j, c) -> matches r i j.
Proof. intros (j' & c' & H & [= -> ->])%exec_sound. done. Qed.

Lemma match_at_None r i : match_at s r i = None -> (i <= length s)%nat -> forall j, ~ matches r i j.
Proof. intros H Hi j Hm. eapply (exec_complete r i j [] (fun j c => Some (j, c))); [done..|]. exact H. Qed.

Lemma search_Some r fuel i a b c : search s r fuel i = Some (a, b, c) -> (i <= a)%nat /\ matches r a b.
Proof.
  revert i. induction fuel as [|fuel IH]; intros i; simpl; destruct (match_at s r i) as [[j c']|] eqn:E.
  - intros [= -> -> ->]. split; [lia|]. by eapply match_at_Some.
  - done.
  - intros [= -> -> ->]. split; [lia|]. by eapply match_at_Some.
  - intros [H ?]%IH. split; [lia|done].
Qed.

Lemma search_None r fuel i : search s r fuel i = None -> (i + fuel = length s)%nat -> forall a b, (i <= a <= length s)%nat -> ~ matches r a b.
Proof.
  revert i. induction fuel as [|fuel IH]; intros i; simpl; destruct (match_at s r i) as [[j c']|] eqn:E; try done.
  - intros _ Hi a b Ha. assert (a = i) as -> by lia. apply (match_at_None _ _ E); lia.
  - intros H Hi a b Ha. destruct (decide (a = i)) as [->|]; [apply (match_at_None _ _ E); lia|]. apply (IH (S i)); [done|lia|lia].
Qed.

Lemma search_bound r fuel i a b c : search s r fuel i = Some (a, b, c) -> (a <= i + fuel)%nat.
Proof.
  revert i. induction fuel as [|fuel IH]; intros i; simpl; destruct (match_at s r i) as [[? ?]|]; try done.
  - intros [= <- _ _]. lia.
  - intros [= <- _ _]. lia.
  - intros H%IH. lia.
Qed.

Lemma search_from_Some r i a b c : search_from s r i = Some (a, b, c) -> (i <= a <= b)%nat /\ (b <= length s)%nat /\ matches r a b.
Proof.
  unfold search_from. destruct (Nat.leb_spec i (length s)) as [Hi|]; [|done]. intros H.
  pose proof (search_bound _ _ _ _ _ _ H) as Ha. destruct (search_Some _ _ _ _ _ _ H) as [Hia Hm].
  pose proof (matches_bounds _ _ _ Hm ltac:(lia)). split_and!; [lia|lia|lia|done].
Qed.

Lemma search_from_None r i : search_from s r i = None -> forall a b, (i <= a <= length s)%nat -> ~ matches r a b.
Proof.
  unfold search_from. destruct (Nat.leb_spec i (length s)) as [Hi|]; [|intros _ a b Ha; lia].
  intros H. apply (search_None _ _ _ H). lia.
Qed.

(** The groups lie within the match. *)
Definition caps_in (lo hi : nat) (c : captures) : Prop := forall n a b, dget c n = Some (a, b) -> (lo <= a <= b)%nat /\ (b <= hi)%nat.

Lemma exec_caps {R} lo r : forall i c (k : nat -> captures -> option R) z, exec_at s r i c k = Some z -> (lo <= i)%nat -> caps_in lo i c ->
  exists j c', (i <= j)%nat /\ caps_in lo j c' /\ k j c' = Some z.
Proof.
  assert (Hmono : forall i j c, (i <= j)%nat -> caps_in lo i c -> caps_in lo j c) by (intros i j c Hij Hc n a b Hn; destruct (Hc n a b Hn); lia).
  induction r as [|p|r1 IH1 r2 IH2|r1 IH1 r2 IH2|g r IH|n r IH|m|m]; cbn [exec_at]; intros i c k z H Hlo Hc.
  - eauto.
  - destruct (s !! i); [|done]. destruct (p a); [|done]. exists (S i), c. split_and!; [lia|apply (Hmono i); [lia|done]|done].
  - apply IH1 in H as (j & c' & Hj & Hc' & H); [|done..]. apply IH2 in H as (j' & c'' & Hj' & Hc'' & H); [|lia|done].
    exists j', c''. split_and!; [lia|done..].
  - apply or_else_Some in H as [H|H]; [apply IH1 in H|apply IH2 in H]; done.
  - set (fuel := (length s - i)%nat) in H. clearbody fuel. revert i c H Hlo Hc. induction fuel as [|fuel IHf]; intros i c H Hlo Hc; simpl in H; [eauto|].
    assert (Hor : exec_at s r i c (fun j c' => if (j =? i)%nat then None else repeat_exec (exec_at s r) g fuel j c' k) = Some z \/ k i c = Some z).
    { destruct g; apply or_else_Some in H as [H|H]; auto. }
    destruct Hor as [H'|H']; [|eauto]. apply IH in H' as (j & c' & Hj & Hc' & H'); [|done..]. destruct (Nat.eqb_spec j i); [done|].
    apply IHf in H' as (j' & c'' & ? & ? & ?); [|lia|done]. exists j', c''. split_and!; [lia|done..].
  - apply IH in H as (j & c' & Hj & Hc' & H); [|done..]. exists j, (dset c' n (i, j)). split_and!; [done| |done].
    intros m a b. rewrite dget_dset. case_decide; [intros [= <- <-]; lia|apply Hc'].
  - destruct (at_bol s m i); [|done]. eauto.
  - destruct (at_eol s m i); [|done]. eauto.
Qed.

Lemma search_from_caps r i a b c : search_from s r i = Some (a, b, c) -> caps_in a b c.
Proof.
  unfold search_from. destruct (i <=? length s)%nat; [|done]. generalize (length s - i)%nat. intros fuel. revert i.
  assert (Hm : forall i j c', match_at s r i = Some (j, c') -> caps_in i j c').
  { intros i j c' (j' & c'' & _ & Hc & [= <- <-])%(exec_caps i); [done|lia|]. done. }
  induction fuel as [|fuel IH]; intros i; simpl; destruct (match_at s r i) as [[j c']|] eqn:E; try done.
  - intros [= <- <- <-]. by apply Hm.
  - intros [= <- <- <-]. by apply Hm.
  - apply IH.
Qed.
Lemma match_all_caps r fuel i : Forall (fun m => caps_in m.1.1 m.1.2 m.2) (match_all s r fuel i).
Proof.
  revert i. induction fuel as [|fuel IH]; intros i; simpl; [done|]. destruct (search_from s r i) as [[[a b] c]|] eqn:E; [|done].
  constructor; [by eapply search_from_caps|apply IH].
Qed.

(** An expression without groups leaves the captures alone. *)
Fixpoint groupless (r : regex) : bool :=
  match r with
  | Group _ _ => false
  | Cat r1 r2 | Alt r1 r2 => groupless r1 && groupless r2
  | Star _ r => groupless r
  | _ => true
  end.

Lemma exec_groupless {R} r : groupless r = true -> forall i c (k : nat -> captures -> option R) z, exec_at s r i c k = Some z ->
  exists j, matches r i j /\ k j c = Some z.
Proof.
  induction r as [|p|r1 IH1 r2 IH2|r1 IH1 r2 IH2|g r IH|n r IH|m|m]; cbn [groupless exec_at]; intros Hg i c k z H.
  - eauto.
  - destruct (s !! i) eqn:E; [|done]. destruct (p a) eqn:Ep; [|done]. eauto.
  - apply andb_true_iff in Hg as [G1 G2]. apply IH1 in H as (j & H1 & H); [|done]. apply IH2 in H as (j' & H2 & H); [|done]. eauto.
  - apply andb_true_iff in Hg as [G1 G2]. apply or_else_Some in H as [H|H]; [apply IH1 in H|apply IH2 in H]; try done; destruct H as (j & ? & ?); eauto.
  - set (fuel := (length s - i)%nat) in H. clearbody fuel. revert i H. induction fuel as [|fuel IHf]; intros i H; simpl in H; [eauto|].
    assert (Hor : exec_at s r i c (fun j c' => if (j =? i)%nat then None else repeat_exec (exec_at s r) g fuel j c' k) = Some z \/ k i c = Some z).
    { destruct g; apply or_else_Some in H as [H|H]; auto. }
    destruct Hor as [H'|H']; [|eauto]. apply IH in H' as (j & Hr & H'); [|done]. destruct (Nat.eqb_spec j i); [done|].
    apply IHf in H' as (j' & ? & ?). eauto.
  - done.
  - destruct (at_bol s m i) eqn:E; [|done]. eauto.
  - destruct (at_eol s m i) eqn:E; [|done]. eauto.
Qed.

(** Where the first part of an expression ended, told by its group. *)
Definition split_at (n : nat) (r1 r2 : regex) (m : nat * nat * captures) : Prop :=
  exists mid, dget m.2 n = Some (m.1.1, mid) /\ matches r1 m.1.1 mid /\ matches r2 mid m.1.2.
Lemma match_at_group n r1 r2 i j c : match_at s (Cat (Group n r1) r2) i = Some (j, c) -> groupless r2 = true -> split_at n r1 r2 (i, j, c).
Proof.
  unfold match_at. cbn [exec_at]. intros (mid & c' & H1 & H)%exec_sound Hg. apply exec_groupless in H as (j' & H2 & [= <- <-]); [|done].
  exists mid. cbn. rewrite dget_dset_eq. done.
Qed.
Lemma match_all_group n r1 r2 fuel i : groupless r2 = true -> Forall (split_at n r1 r2) (match_all s (Cat (Group n r1) r2) fuel i).
Proof.
  intros Hg. set (r := Cat _ _). assert (Hs : forall f i a b c, search s r f i = Some (a, b, c) -> split_at n r1 r2 (a, b, c)).
  { intros f. induction f as [|f IH]; intros i' a b c; simpl; destruct (match_at s r i') as [[j c']|] eqn:E; try done;
      try (intros [= <- <- <-]; by eapply match_at_group). apply IH. }
  revert i. induction fuel as [|fuel IH]; intros i; simpl; [done|]. destruct (search_from s r i) as [[[a b] c]|] eqn:E; [|done].
  constructor; [|apply IH]. unfold search_from in E. destruct (_ <=? _)%nat; [|done]. by eapply Hs.
Qed.

(** The matches of a global expression follow each other. *)
Fixpoint ordered (i : nat) (ms : list (nat * nat * captures)) : Prop :=
  match ms with
  | [] => (i <= length s)%nat
  | (a, b, _) :: ms => (i <= a <= b)%nat /\ (b <= length s)%nat /\ ordered b ms
  end.

Lemma ordered_weaken i j ms : (i <= j)%nat -> (i <= length s)%nat -> ordered j ms -> ordered i ms.
Proof. destruct ms as [|[[a b] c] ms]; simpl; [lia|]. intros ? ? (? & ? & ?). split_and!; [lia|lia|lia|done]. Qed.

Lemma match_all_ordered r fuel i : (i <= length s)%nat -> ordered i (match_all s r fuel i).
Proof.
  revert i. induction fuel as [|fuel IH]; intros i Hi; simpl; [done|].
  destruct (search_from s r i) as [[[a b] c]|] eqn:E; [|done]. apply search_from_Some in E as (H1 & H2 & _). simpl.
  split_and!; [lia|lia|lia|]. destruct (Nat.eqb_spec b a) as [->|]; [|by apply IH].
  destruct (decide (S a <= length s)%nat) as [Hs|Hs].
  - apply (ordered_weaken _ (S a)); [lia|lia|by apply IH].
  - destruct fuel; simpl; [lia|]. unfold search_from. destruct (Nat.leb_spec (S a) (length s)); [lia|]. simpl. lia.
Qed.

(** Replacing every match by itself gives the text back. *)
Lemma replace_matches_same i ms : ordered i ms -> replace_matches s (fun a b _ => take (b - a) (drop a s)) ms i = drop i s.
Proof.
  revert i. induction ms as [|[[a b] c] ms IH]; intros i; simpl; [done|]. intros (H1 & H2 & H3). rewrite IH by done.
  rewrite <- (take_drop (a - i) (drop i s)) at 2. f_equal. rewrite drop_drop. replace (i + (a - i))%nat with a by lia.
  rewrite <- (take_drop (b - a) (drop a s)) at 2. f_equal. rewrite drop_drop. f_equal. lia.
Qed.
End spec.

(** A test succeeds exactly when the expression matches somewhere. *)
Lemma regex_test_true r s : regex_test r s = true <-> exists a b, (a <= String.length s)%nat /\ matches (chars s) r a b.
Proof.
  unfold regex_test. rewrite <- chars_length. destruct (search_from (chars s) r 0) as [[[a b] c]|] eqn:E.
  - apply search_from_Some in E as (H1 & H2 & H3). split; [intros _; exists a, b; split; [lia|done]|done].
  - split; [done|]. intros (a & b & Ha & Hm). by destruct (search_from_None _ _ _ E a b ltac:(lia)).
Qed.

(** * Expressions that cannot match a text *)

(** Every match of [r] holds a character of [p]: decided on the expression. *)
Definition all_ascii : list ascii := map Ascii.ascii_of_nat (seq 0 256).

Lemma elem_of_all_ascii c : c ∈ all_ascii.
Proof.
  apply elem_of_map. exists (nat_of_ascii c). split; [by rewrite Ascii.ascii_nat_embedding|].
  apply elem_of_seq. pose proof (Ascii.nat_ascii_bounded c). lia.
Qed.

Fixpoint needs (p : ascii -> bool) (r : regex) : bool :=
  match r with
  | Chr q => forallb (fun c => implb (q c) (p c)) all_ascii
  | Cat r1 r2 => needs p r1 || needs p r2
  | Alt r1 r2 => needs p r1 && needs p r2
  | Group _ r => needs p r
  | Eps | Star _ _ | Bol _ | Eol _ => false
  end.

Lemma needs_sound s p r i j : matches s r i j -> (i <= length s)%nat -> needs p r = true -> exists k c, (i <= k < j)%nat /\ s !! k = Some c /\ p c = true.
Proof.
  intros H. induction H as [i|q i x Hx Hq|r1 r2 i j k H1 IH1 H2 IH2|r1 r2 i j H IH|r1 r2 i j H IH|g r i|g r i j k H1 IH1 Hne H2 IH2|n r i j H IH| |];
    intros Hi; cbn [needs]; intros Hn; try done.
  - exists i, x. split_and!; [lia|lia|done|]. rewrite forallb_forall in Hn.
    specialize (Hn x (proj1 (list_elem_of_In _ _) (elem_of_all_ascii x))). by rewrite Hq in Hn.
  - pose proof (matches_bounds _ _ _ _ H1 Hi). pose proof (matches_bounds _ _ _ _ H2 ltac:(lia)). apply orb_true_iff in Hn as [Hn|Hn].
    + destruct (IH1 Hi Hn) as (m & c & ? & ? & ?). exists m, c. split_and!; [lia|lia|done..].
    + destruct (IH2 ltac:(lia) Hn) as (m & c & ? & ? & ?). exists m, c. split_and!; [lia|lia|done..].
  - apply andb_true_iff in Hn as [Hn _]. auto.
  - apply andb_true_iff in Hn as [_ Hn]. auto.
  - auto.
Qed.

(** A text without the characters the expression needs is not changed by a replacement. *)
Lemma replace_all_none p r f s : needs p r = true -> Forall (fun c => p c = false) (chars s) -> replace_all r f s = s.
Proof.
  intros Hn Hs. unfold replace_all, matches_of. simpl.
  destruct (search_from (chars s) r 0) as [[[a b] c]|] eqn:E; cbn [replace_matches]; [|rewrite drop_0; apply unchars_chars].
  apply search_from_Some in E as (H1 & H2 & Hm). destruct (needs_sound _ _ _ _ _ Hm ltac:(lia) Hn) as (k & x & _ & Hx & Hp).
  rewrite Forall_forall in Hs. apply list_elem_of_lookup_2 in Hx. rewrite (Hs _ Hx) in Hp. done.
Qed.

(** Every character of a match is one of [p]: decided on the expression. *)
Fixpoint within (p : ascii -> bool) (r : regex) : bool :=
  match r with
  | Chr q => forallb (fun c => implb (q c) (p c)) all_ascii
  | Cat r1 r2 | Alt r1 r2 => within p r1 && within p r2
  | Group _ r | Star _ r => within p r
  | Eps | Bol _ | Eol _ => true
  end.

Lemma within_sound s p r i j : matches s r i j -> (i <= length s)%nat -> within p r = true -> forall k c, (i <= k < j)%nat -> s !! k = Some c -> p c = true.
Proof.
  intros H. induction H as [i|q i x Hx Hq|r1 r2 i j k H1 IH1 H2 IH2|r1 r2 i j H IH|r1 r2 i j H IH|g r i|g r i j k H1 IH1 Hne H2 IH2|n r i j H IH| |];
    intros Hi; cbn [within]; intros Hn pos ch Hm Hc; try lia.
  - assert (pos = i) as -> by lia. assert (x = ch) as -> by congruence. rewrite forallb_forall in Hn.
    specialize (Hn ch (proj1 (list_elem_of_In _ _) (elem_of_all_ascii ch))). by rewrite Hq in Hn.
  - apply andb_true_iff in Hn as [N1 N2]. pose proof (matches_bounds _ _ _ _ H1 Hi).
    destruct (decide (pos < j)%nat); [apply (IH1 Hi N1 pos)|apply (IH2 ltac:(lia) N2 pos)]; (lia || done).
  - apply andb_true_iff in Hn as [? _]. by eapply IH.
  - apply andb_true_iff in Hn as [_ ?]. by eapply IH.
  - pose proof (matches_bounds _ _ _ _ H1 Hi). destruct (decide (pos < j)%nat); [apply (IH1 Hi Hn pos)|apply (IH2 ltac:(lia) Hn pos)]; (lia || done).
  - by eapply IH.
Qed.
