(* ===== verification/RegistryTypes.v ===== *)
(** The wire types of [registry/registryTypes.ts] that several components share.
    Turn indexes, sequence numbers and counters are integers in the registry
    protocol: they are [Z] here, and [chat/chatWire.ts] (file ChatWire) is where
    an arbitrary number of the wire becomes such an integer. *)

From S2P Require Import Prelude.

(** [RegistrySessionTurn]. *)
Record RegistrySessionTurn := {
  turn_turnIndex : Z;
  turn_content : string;
  turn_finished : bool;
}.

(** [RegistrySessionMessage], alias [RegistryChatMessage]; [param] is the object's
    properties. *)
Record RegistryChatMessage := {
  msg_sessionId : string;
  msg_turnIndex : Z;
  msg_method : string;
  msg_param : list (string * value);
  msg_finished : bool;
}.

(** [RegistryTerminalStatus] and [RegistryTerminal]. *)
Inductive RegistryTerminalStatus := TRunning | TExited | TError.

Record RegistryTerminal := {
  term_terminalId : string;
  term_runId : string;
  term_hubId : string;
  term_projectId : string;
  term_projectName : string;
  term_initialCwd : string;
  term_shell : string;
  term_status : RegistryTerminalStatus;
  term_cols : Z;
  term_rows : Z;
  term_exitCode : option Z;
  term_createdAt : string;
  term_exitedAt : option string;
}.

(** [RegistryTerminalGetResponse]. *)
Record RegistryTerminalGetResponse := {
  get_terminal : RegistryTerminal;
  get_snapshotSeq : Z;
  get_snapshot : string;
}.

(** [RegistryTerminalOutputEvent]. *)
Record RegistryTerminalOutputEvent := {
  out_terminalId : string;
  out_runId : string;
  out_seq : Z;
  out_data : string;
}.

(** [RegistryTerminalChangedEvent]: the [change] kinds and the event. *)
Inductive RegistryTerminalChange :=
  | ChCreated | ChRunning | ChResized | ChExited | ChRestarted | ChClosed | ChError.

Record RegistryTerminalChangedEvent := {
  chg_change : RegistryTerminalChange;
  chg_terminalId : string;
  chg_terminal : option RegistryTerminal;
}.

#[export] Instance RegistrySessionTurn_eq_dec : EqDecision RegistrySessionTurn.
Proof. solve_decision. Defined.
#[export] Instance RegistryTerminalStatus_eq_dec : EqDecision RegistryTerminalStatus.
Proof. solve_decision. Defined.
#[export] Instance RegistryTerminalChange_eq_dec : EqDecision RegistryTerminalChange.
Proof. solve_decision. Defined.
#[export] Instance RegistryTerminal_eq_dec : EqDecision RegistryTerminal.
Proof. solve_decision. Defined.
#[export] Instance RegistryTerminalOutputEvent_eq_dec : EqDecision RegistryTerminalOutputEvent.
Proof. solve_decision. Defined.

(** * Projects and sessions *)

Record RegistryProjectGitState := {
  git_branch : string; git_headSha : string; git_dirty : bool; git_gitRev : string; git_worktreeRev : string
}.

Record RegistryProjectAgentProfile := { profile_name : string; profile_skills : option (list string) }.

Record RegistryProject := {
  proj_projectId : string; proj_name : string; proj_online : bool; proj_path : string;
  proj_hubId : option string; proj_agent : option string; proj_agents : option (list string);
  proj_agentProfiles : option (list RegistryProjectAgentProfile); proj_projectRev : option string;
  proj_git : option RegistryProjectGitState
}.

Record RegistrySessionConfigOptionValue := { cv_value : string; cv_name : option string; cv_description : option string }.

Record RegistrySessionConfigOption := {
  co_id : string; co_name : option string; co_description : option string; co_category : option string;
  co_type : option string; co_currentValue : option string; co_options : option (list RegistrySessionConfigOptionValue)
}.

Record RegistrySessionCommand := { cmd_name : string; cmd_description : option string }.

Record RegistrySessionUsage := { usage_used : num; usage_size : option num; usage_updatedAt : option string }.

Record RegistrySessionActionCapability := { cap_supported : bool; cap_reason : option string }.
Record RegistrySessionActionCapabilities := {
  caps_status : RegistrySessionActionCapability; caps_compact : RegistrySessionActionCapability
}.

(** [RegistrySessionSummary], alias [RegistryChatSession]. *)
Record RegistryChatSession := {
  sess_sessionId : string; sess_title : string; sess_preview : string; sess_updatedAt : string;
  sess_messageCount : Q; sess_unreadCount : option Q; sess_agentType : option string;
  sess_createRequestId : option string; sess_latestTurnIndex : option Z; sess_running : option bool;
  sess_lastDoneTurnIndex : option Z; sess_lastDoneSuccess : option bool; sess_lastReadTurnIndex : option Z;
  sess_configOptions : option (list RegistrySessionConfigOption); sess_commands : option (list RegistrySessionCommand);
  sess_usage : option RegistrySessionUsage; sess_sessionActions : option RegistrySessionActionCapabilities
}.

(** ** Archived sessions, the status of a session, and search *)

(** [RegistryArchivedSessionSummary], which extends the summary. *)
Record RegistryArchivedSessionSummary := {
  arch_session : RegistryChatSession; arch_projectName : option string; arch_createdAt : option string; arch_archivedAt : string;
  arch_restoredAt : option string; arch_turnCount : Z; arch_gapCount : Z; arch_nativeArchivedAt : option string;
  arch_nativeUnarchivedAt : option string; arch_nativeSyncWarning : option string
}.

Record RegistrySessionStatusContext := { ctx_used : Z; ctx_size : option Z; ctx_updatedAt : option string }.
Record RegistrySessionRateLimit := {
  rate_id : string; rate_name : string; rate_usedPercent : Z; rate_remainingPercent : Z;
  rate_windowDurationMins : option Z; rate_resetsAt : option string
}.
Record RegistrySessionCredits := { cred_hasCredits : bool; cred_unlimited : bool; cred_balance : option string }.
Record RegistrySessionIndividualLimit := {
  ind_limit : string; ind_used : string; ind_remainingPercent : Z; ind_resetsAt : option string
}.
(** [RegistrySessionResetCredits] is the count it has. *)
Record RegistrySessionStatusAccount := {
  acc_planType : option string; acc_credits : option RegistrySessionCredits;
  acc_individualLimit : option RegistrySessionIndividualLimit; acc_rateLimitReachedType : option string;
  acc_rateLimitResetCredits : option Z
}.
Record RegistrySessionStatusResult := {
  status_ok : bool; status_sessionId : string; status_context : option RegistrySessionStatusContext;
  status_limits : list RegistrySessionRateLimit; status_account : option RegistrySessionStatusAccount; status_updatedAt : string
}.

(** A result with a turn has the source ['prompt'], one without has ['title']. *)
Record RegistrySessionSearchResult := { hit_projectId : string; hit_sessionId : string; hit_turnIndex : option Z }.
Record RegistrySessionSearchError := { serr_projectId : string; serr_sessionId : option string; serr_message : string }.
Record RegistrySessionSearchResponse := {
  search_searchId : string; search_done : bool; search_results : list RegistrySessionSearchResult;
  search_errors : list RegistrySessionSearchError
}.

(** * Devices, packages and hubs *)

Record RegistryDeviceSession := {
  dev_deviceId : string; dev_deviceName : string; dev_basePath : string; dev_lastLoginIp : string; dev_lastLoginLocation : string;
  dev_createdAt : string; dev_lastSeenAt : string; dev_expiresAt : string; dev_current : bool
}.

Record RegistryNpmPackage := {
  npm_packageName : string; npm_displayName : string; npm_agentTypes : list string; npm_deprecated : bool; npm_installed : bool;
  npm_installedVersion : string; npm_latestVersion : string; npm_status : string; npm_error : string; npm_canInstall : bool;
  npm_canUpdate : bool; npm_canUninstall : bool
}.
Record RegistryNpmHubSnapshot := {
  snap_hubId : string; snap_nodeVersion : string; snap_npmVersion : string; snap_npmPrefix : string; snap_warning : string;
  snap_error : string; snap_packages : list RegistryNpmPackage
}.
Record RegistryNpmCommandResponse := {
  ncr_ok : bool; ncr_accepted : option bool; ncr_updatedAt : option string; ncr_hub : option RegistryNpmHubSnapshot; ncr_operation : value
}.

Record RegistryHubStateSection := {
  sect_status : string; sect_updatedAt : option string; sect_startedAt : option string; sect_error : option string;
  sect_data : value; sect_action : option value
}.
Record RegistryHubState := {
  hub_hubId : string; hub_status : string; hub_updatedAt : option string; hub_sections : list (string * RegistryHubStateSection)
}.
