(* ===== verification/Program.v ===== *)
(** Asynchronous functions as programs: a tree of the calls they await, each with what
    happens next for every answer, ending in a value or a thrown error.

    A program is run against a handler, which answers the calls in a state of its own.
    Every program is finite, so running it always ends. *)

From S2P Require Import Prelude.

Inductive prog (E : Type -> Type) (X A : Type) : Type :=
  | Ret (a : A)
  | Throw (x : X)
  | Call {R : Type} (e : E R) (k : R -> prog E X A).
Arguments Ret {E X A} a.
Arguments Throw {E X A} x.
Arguments Call {E X A R} e k.

Section prog.
Context {E : Type -> Type} {X : Type}.

Fixpoint bind {A B} (f : A -> prog E X B) (p : prog E X A) : prog E X B :=
  match p with
  | Ret a => f a
  | Throw x => Throw x
  | Call e k => Call e (fun r => bind f (k r))
  end.

(** [try { p } catch (x) { f(x) }]. *)
Fixpoint catch {A} (p : prog E X A) (f : X -> prog E X A) : prog E X A :=
  match p with
  | Ret a => Ret a
  | Throw x => f x
  | Call e k => Call e (fun r => catch (k r) f)
  end.

Definition call {R} (e : E R) : prog E X R := Call e Ret.
End prog.

Declare Scope prog_scope.
Delimit Scope prog_scope with prog.
Notation "'let*' x := p 'in' q" := (bind (fun x => q) p) (at level 10, x name, p at level 100, q at level 200,
  format "'let*'  x  :=  p  'in' '//' q") : prog_scope.
Notation "'do*' p 'in' q" := (bind (fun _ => q) p) (at level 10, p at level 100, q at level 200,
  format "'do*'  p  'in' '//' q") : prog_scope.
Open Scope prog_scope.

Definition pmap {E X A B} (f : A -> B) (p : prog E X A) : prog E X B := bind (fun a => Ret (f a)) p.

(** A call of a part as a call of the whole. *)
Fixpoint translate {E F : Type -> Type} {X A} (g : forall R, E R -> F R) (p : prog E X A) : prog F X A :=
  match p with
  | Ret a => Ret a
  | Throw x => Throw x
  | Call e k => Call (g _ e) (fun r => translate g (k r))
  end.

Fixpoint run {E : Type -> Type} {X A S} (h : forall R, E R -> S -> R * S) (p : prog E X A) (s : S) : (A + X) * S :=
  match p with
  | Ret a => (inl a, s)
  | Throw x => (inr x, s)
  | Call e k => let '(r, s') := h _ e s in run h (k r) s'
  end.

Section laws.
Context {E : Type -> Type} {X S : Type} (h : forall R, E R -> S -> R * S).

Lemma run_bind {A B} (p : prog E X A) (f : A -> prog E X B) s :
  run h (bind f p) s = match run h p s with (inl a, s') => run h (f a) s' | (inr x, s') => (inr x, s') end.
Proof.
  revert s; induction p as [a|x|R e k IH]; intros s; [done..|]. cbn. destruct (h R e s) as [r s']. apply IH.
Qed.

Lemma run_pmap {A B} (g : A -> B) (p : prog E X A) s :
  run h (pmap g p) s = match run h p s with (inl a, s') => (inl (g a), s') | (inr x, s') => (inr x, s') end.
Proof. exact (run_bind p (fun a => Ret (g a)) s). Qed.

Lemma run_catch {A} (p : prog E X A) f s :
  run h (catch p f) s = match run h p s with (inl a, s') => (inl a, s') | (inr x, s') => run h (f x) s' end.
Proof.
  revert s; induction p as [a|x|R e k IH]; intros s; [done..|]. cbn. destruct (h R e s) as [r s']. apply IH.
Qed.

Lemma run_call {R} (e : E R) s : run (X:=X) h (call e) s = (inl (h R e s).1, (h R e s).2).
Proof. cbn. by destruct (h R e s). Qed.
End laws.

Lemma run_translate {E F : Type -> Type} {X A S} (g : forall R, E R -> F R) (h : forall R, F R -> S -> R * S) (p : prog E X A) s :
  run h (translate g p) s = run (fun R e => h R (g R e)) p s.
Proof. revert s; induction p as [a|x|R e k IH]; intros s; [done..|]. cbn. destruct (h R (g R e) s) as [r s']. apply IH. Qed.

(** A property of the state that every call keeps is kept by the run. *)
Lemma run_invariant {E : Type -> Type} {X A S} (h : forall R, E R -> S -> R * S) (I : S -> Prop) (p : prog E X A) s :
  (forall R (e : E R) s, I s -> I (h R e s).2) -> I s -> I (run h p s).2.
Proof.
  intros Hh. revert s; induction p as [a|x|R e k IH]; intros s Hs; [done..|]. cbn. specialize (Hh R e s Hs).
  destruct (h R e s) as [r s']. by apply IH.
Qed.

(** Every call the program may make satisfies [P]. *)
Fixpoint calls_are {E : Type -> Type} {X A} (P : forall R, E R -> Prop) (p : prog E X A) : Prop :=
  match p with
  | Ret _ | Throw _ => True
  | Call e k => P _ e /\ forall r, calls_are P (k r)
  end.

Lemma calls_bind {E : Type -> Type} {X A B} (P : forall R, E R -> Prop) (p : prog E X A) (f : A -> prog E X B) :
  calls_are P p -> (forall a, calls_are P (f a)) -> calls_are P (bind f p).
Proof. intros Hp Hf. induction p as [a|x|R e k IH]; [apply Hf|done|]. destruct Hp as [He Hk]. split; [done|]. intros r. by apply IH. Qed.

(** What calls that satisfy [P] keep, a program that makes only such calls keeps. *)
Lemma run_calls {E : Type -> Type} {X A S} (h : forall R, E R -> S -> R * S) (P : forall R, E R -> Prop) (I : S -> S -> Prop)
    (p : prog E X A) s :
  (forall s, I s s) -> (forall s1 s2 s3, I s1 s2 -> I s2 s3 -> I s1 s3) -> (forall R (e : E R) s, P R e -> I s (h R e s).2) ->
  calls_are P p -> I s (run h p s).2.
Proof.
  intros Hr Ht He. revert s; induction p as [a|x|R e k IH]; intros s Hp; [apply Hr..|]. destruct Hp as [Hc Hk]. cbn.
  specialize (He R e s Hc). destruct (h R e s) as [r s']. cbn in *. eapply Ht; [exact He|]. by apply IH.
Qed.
#[export] Hint Rewrite @run_bind @run_pmap @run_catch @run_call @run_translate : js.
