(* ===== verification/RegistryNormalize.v ===== *)
(** The gate of [registry/RegistryRepository.ts]: what a response holds is an [unknown]
    until one of these functions has read it field by field.

    Each record comes with the object it is on the wire, in which a field that is missing
    is [undefined]; reading that object gives the record back, so what was accepted once
    is accepted as it is. *)

From S2P Require Import Prelude RegistryTypes.
Open Scope Z_scope.

(** * Fields *)

(** [raw && typeof raw === 'object']: an array is an object without the fields. *)
Definition object_fields (raw : value) : option (list (string * value)) :=
  match raw with VObj fields => Some fields | VArr _ => Some [] | _ => None end.
(** [... ? raw : {}]. *)
Definition fields_of (raw : value) : list (string * value) := default [] (object_fields raw).

Definition string_or (v : value) (fallback : string) : string := match v with VStr s => s | _ => fallback end.
Definition string_field (v : value) : option string := match v with VStr s => Some s | _ => None end.
(** [typeof v === 'string' && v.trim() ? v.trim() : undefined]. *)
Definition trimmed_field (v : value) : option string :=
  match v with VStr s => if nonempty (trim s) then Some (trim s) else None | _ => None end.
Definition true_field (v : value) : bool := match v with VBool b => b | _ => false end.
Definition bool_field (v : value) : option bool := match v with VBool b => Some b | _ => None end.
Definition number_field (v : value) : option Q := match v with VNum (Fin q) => Some q | _ => None end.
(** [Math.max(0, Math.trunc(v))]. *)
Definition count_field (v : value) : option Z := (fun q => Z.max 0 (trunc q)) <$> number_field v.
Definition percent_field (v : value) : Z := match number_field v with Some q => Z.min 100 (Z.max 0 (trunc q)) | None => 0 end.
Definition list_field {A} (f : value -> option A) (v : value) : option (list A) :=
  match v with VArr items => Some (omap f items) | _ => None end.

Definition normalizeAgentType (v : value) : option string := trimmed_field v.
Definition normalizeAgentTypes (v : value) : list string := default [] (list_field normalizeAgentType v).

(** * Sessions *)

Definition normalizeSessionConfigOptionValue (raw : value) : option RegistrySessionConfigOptionValue :=
  input ← object_fields raw;
  let v := trim (string_or (prop input "value") "") in
  if negb (nonempty v) then None else
  Some {| cv_value := v; cv_name := string_field (prop input "name"); cv_description := string_field (prop input "description") |}.

Definition normalizeSessionConfigOption (raw : value) : option RegistrySessionConfigOption :=
  input ← object_fields raw;
  let id := trim (string_or (prop input "id") "") in
  if negb (nonempty id) then None else
  Some {| co_id := id; co_name := string_field (prop input "name"); co_description := string_field (prop input "description");
          co_category := string_field (prop input "category"); co_type := string_field (prop input "type");
          co_currentValue := string_field (prop input "currentValue");
          co_options := list_field normalizeSessionConfigOptionValue (prop input "options") |}.

Definition normalizeSessionCommand (raw : value) : option RegistrySessionCommand :=
  input ← object_fields raw;
  let nameRaw := trim (string_or (prop input "name") "") in
  if negb (nonempty nameRaw) then None else
  Some {| cmd_name := if startsWith nameRaw "/" then nameRaw else "/" +:+ nameRaw;
          cmd_description := string_field (prop input "description") |}.

Definition normalizeSessionUsage (raw : value) : option RegistrySessionUsage :=
  input ← object_fields raw;
  used ← count_field (prop input "used");
  Some {| usage_used := of_Z used; usage_size := of_Z <$> count_field (prop input "size");
          usage_updatedAt := string_field (prop input "updatedAt") |}.

Definition normalizeSessionActionCapability (raw : value) : RegistrySessionActionCapability :=
  let input := fields_of raw in
  {| cap_supported := true_field (prop input "supported"); cap_reason := trimmed_field (prop input "reason") |}.

Definition normalizeSessionActions (raw : value) : option RegistrySessionActionCapabilities :=
  input ← object_fields raw;
  Some {| caps_status := normalizeSessionActionCapability (prop input "status");
          caps_compact := normalizeSessionActionCapability (prop input "compact") |}.

Definition normalizeSessionSummary (raw : value) : option RegistryChatSession :=
  input ← object_fields raw;
  let sessionId := trim (string_or (prop input "sessionId") "") in
  if negb (nonempty sessionId) then None else
  Some {|
    sess_sessionId := sessionId;
    sess_title := string_or (prop input "title") "";
    sess_preview := string_or (prop input "preview") "";
    sess_updatedAt := string_or (prop input "updatedAt") "";
    sess_messageCount := default 0%Q (number_field (prop input "messageCount"));
    sess_unreadCount := number_field (prop input "unreadCount");
    sess_agentType := normalizeAgentType (prop input "agentType");
    sess_createRequestId := trimmed_field (prop input "createRequestId");
    sess_latestTurnIndex := count_field (prop input "latestTurnIndex");
    sess_running := Some (true_field (prop input "running"));
    sess_lastDoneTurnIndex := count_field (prop input "lastDoneTurnIndex");
    sess_lastDoneSuccess := bool_field (prop input "lastDoneSuccess");
    sess_lastReadTurnIndex := count_field (prop input "lastReadTurnIndex");
    sess_configOptions := list_field normalizeSessionConfigOption (prop input "configOptions");
    sess_commands := list_field normalizeSessionCommand (prop input "commands");
    sess_usage := normalizeSessionUsage (prop input "usage");
    sess_sessionActions := normalizeSessionActions (prop input "sessionActions") |}.

Definition normalizeArchivedSessionSummary (raw : value) : option RegistryArchivedSessionSummary :=
  base ← normalizeSessionSummary raw;
  input ← object_fields raw;
  let archivedAt := string_or (prop input "archivedAt") "" in
  if negb (nonempty archivedAt) then None else
  Some {|
    arch_session := base;
    arch_projectName := string_field (prop input "projectName");
    arch_createdAt := string_field (prop input "createdAt");
    arch_archivedAt := archivedAt;
    arch_restoredAt := string_field (prop input "restoredAt");
    arch_turnCount := default 0 (count_field (prop input "turnCount"));
    arch_gapCount := default 0 (count_field (prop input "gapCount"));
    arch_nativeArchivedAt := string_field (prop input "nativeArchivedAt");
    arch_nativeUnarchivedAt := string_field (prop input "nativeUnarchivedAt");
    arch_nativeSyncWarning := string_field (prop input "nativeSyncWarning") |}.

(** ** The status of a session *)

Definition normalizeSessionStatusContext (raw : value) : option RegistrySessionStatusContext :=
  input ← object_fields raw;
  used ← count_field (prop input "used");
  Some {| ctx_used := used; ctx_size := count_field (prop input "size"); ctx_updatedAt := string_field (prop input "updatedAt") |}.

Definition normalizeSessionRateLimit (raw : value) : option RegistrySessionRateLimit :=
  input ← object_fields raw;
  let id := trim (string_or (prop input "id") "") in
  if negb (nonempty id) then None else
  Some {| rate_id := id; rate_name := default id (trimmed_field (prop input "name"));
          rate_usedPercent := percent_field (prop input "usedPercent");
          rate_remainingPercent := percent_field (prop input "remainingPercent");
          rate_windowDurationMins := count_field (prop input "windowDurationMins");
          rate_resetsAt := string_field (prop input "resetsAt") |}.

Definition normalizeSessionCredits (raw : value) : option RegistrySessionCredits :=
  input ← object_fields raw;
  Some {| cred_hasCredits := true_field (prop input "hasCredits"); cred_unlimited := true_field (prop input "unlimited");
          cred_balance := string_field (prop input "balance") |}.

Definition normalizeSessionIndividualLimit (raw : value) : option RegistrySessionIndividualLimit :=
  input ← object_fields raw;
  let limit := string_or (prop input "limit") "" in
  let used := string_or (prop input "used") "" in
  if negb (nonempty limit) && negb (nonempty used) then None else
  Some {| ind_limit := limit; ind_used := used; ind_remainingPercent := percent_field (prop input "remainingPercent");
          ind_resetsAt := string_field (prop input "resetsAt") |}.

Definition normalizeSessionResetCredits (raw : value) : option Z :=
  input ← object_fields raw; count_field (prop input "availableCount").

Definition normalizeSessionStatusAccount (raw : value) : option RegistrySessionStatusAccount :=
  input ← object_fields raw;
  Some {| acc_planType := string_field (prop input "planType"); acc_credits := normalizeSessionCredits (prop input "credits");
          acc_individualLimit := normalizeSessionIndividualLimit (prop input "individualLimit");
          acc_rateLimitReachedType := string_field (prop input "rateLimitReachedType");
          acc_rateLimitResetCredits := normalizeSessionResetCredits (prop input "rateLimitResetCredits") |}.

(** ** Search *)

Definition search_project (v : value) (fallbackProjectId : string) : string :=
  match v with VStr s => trim s | _ => fallbackProjectId end.

Definition normalizeSessionSearchResult (raw : value) (fallbackProjectId : string) : option RegistrySessionSearchResult :=
  input ← object_fields raw;
  let sessionId := trim (string_or (prop input "sessionId") "") in
  if negb (nonempty sessionId) then None else
  let projectId := search_project (prop input "projectId") fallbackProjectId in
  let source := string_or (prop input "source") "" in
  if negb (bool_decide (source ∈ ["title"; "prompt"]%string)) then None else
  if negb (nonempty projectId) then None else
  if String.eqb source "title" then Some {| hit_projectId := projectId; hit_sessionId := sessionId; hit_turnIndex := None |} else
  let turnIndex := default 0 (count_field (prop input "turnIndex")) in
  if turnIndex <=? 0 then None else
  Some {| hit_projectId := projectId; hit_sessionId := sessionId; hit_turnIndex := Some turnIndex |}.

Definition normalizeSessionSearchError (raw : value) (fallbackProjectId : string) : option RegistrySessionSearchError :=
  input ← object_fields raw;
  let projectId := search_project (prop input "projectId") fallbackProjectId in
  let message := trim (string_or (prop input "message") "") in
  if negb (nonempty projectId) || negb (nonempty message) then None else
  Some {| serr_projectId := projectId; serr_sessionId := trimmed_field (prop input "sessionId"); serr_message := message |}.

Definition normalizeSessionSearchResponse (raw : value) (fallbackProjectId fallbackSearchId : string) : RegistrySessionSearchResponse :=
  let input := fields_of raw in
  {| search_searchId := default fallbackSearchId (trimmed_field (prop input "searchId"));
     search_done := true_field (prop input "done");
     search_results := default [] (list_field (fun item => normalizeSessionSearchResult item fallbackProjectId) (prop input "results"));
     search_errors := default [] (list_field (fun item => normalizeSessionSearchError item fallbackProjectId) (prop input "errors")) |}.

Definition normalizeSessionSearchStatusResponse (raw : value) (fallbackSearchId : string) : string * bool :=
  let input := fields_of raw in
  (default fallbackSearchId (trimmed_field (prop input "searchId")), true_field (prop input "done")).

(** * Devices, packages and hubs *)

Definition normalizeDeviceSession (raw : value) : option RegistryDeviceSession :=
  input ← object_fields raw;
  deviceId ← string_field (prop input "deviceId");
  if negb (nonempty deviceId) then None else
  deviceName ← string_field (prop input "deviceName");
  basePath ← string_field (prop input "basePath");
  lastLoginIp ← string_field (prop input "lastLoginIp");
  lastLoginLocation ← string_field (prop input "lastLoginLocation");
  createdAt ← string_field (prop input "createdAt");
  lastSeenAt ← string_field (prop input "lastSeenAt");
  expiresAt ← string_field (prop input "expiresAt");
  Some {| dev_deviceId := deviceId; dev_deviceName := deviceName; dev_basePath := basePath; dev_lastLoginIp := lastLoginIp;
          dev_lastLoginLocation := lastLoginLocation; dev_createdAt := createdAt; dev_lastSeenAt := lastSeenAt;
          dev_expiresAt := expiresAt; dev_current := true_field (prop input "current") |}.

Definition normalizeNpmPackage (raw : value) : option RegistryNpmPackage :=
  input ← object_fields raw;
  let packageName := string_or (prop input "packageName") "" in
  if negb (nonempty packageName) then None else
  Some {| npm_packageName := packageName; npm_displayName := string_or (prop input "displayName") packageName;
          npm_agentTypes := normalizeAgentTypes (prop input "agentTypes");
          npm_deprecated := bool_decide (string_field (prop input "kind") = Some "deprecated"%string);
          npm_installed := true_field (prop input "installed"); npm_installedVersion := string_or (prop input "installedVersion") "";
          npm_latestVersion := string_or (prop input "latestVersion") ""; npm_status := string_or (prop input "status") "latest_unknown";
          npm_error := string_or (prop input "error") ""; npm_canInstall := true_field (prop input "canInstall");
          npm_canUpdate := true_field (prop input "canUpdate"); npm_canUninstall := true_field (prop input "canUninstall") |}.

(** [typeof v === 'string' && v ? v : fallback]. *)
Definition id_or (v : value) (fallback : string) : string := str_or (string_or v "") fallback.

Definition normalizeNpmHubSnapshot (raw : value) (hubId : string) : option RegistryNpmHubSnapshot :=
  input ← object_fields raw;
  Some {| snap_hubId := id_or (prop input "hubId") hubId; snap_nodeVersion := string_or (prop input "nodeVersion") "";
          snap_npmVersion := string_or (prop input "npmVersion") ""; snap_npmPrefix := string_or (prop input "npmPrefix") "";
          snap_warning := string_or (prop input "warning") ""; snap_error := string_or (prop input "error") "";
          snap_packages := default [] (list_field normalizeNpmPackage (prop input "packages")) |}.

(** [v ?? fallback]. *)
Definition nullish (v fallback : value) : value := match v with VUndefined | VNull => fallback | _ => v end.

Definition normalizeNpmCommandResponse (raw : value) (hubId : string) : RegistryNpmCommandResponse :=
  let input := fields_of raw in
  {| ncr_ok := true_field (prop input "ok"); ncr_accepted := if true_field (prop input "accepted") then Some true else None;
     ncr_updatedAt := string_field (prop input "updatedAt"); ncr_hub := normalizeNpmHubSnapshot (prop input "hub") hubId;
     ncr_operation := nullish (prop input "operation") VNull |}.

Definition empty_section : RegistryHubStateSection :=
  {| sect_status := "empty"; sect_updatedAt := None; sect_startedAt := None; sect_error := None; sect_data := VUndefined;
     sect_action := None |}.

Definition normalizeSection (v : value) : RegistryHubStateSection :=
  match v with
  | VObj sectionInput =>
      {| sect_status := string_or (prop sectionInput "status") "empty"; sect_updatedAt := string_field (prop sectionInput "updatedAt");
         sect_startedAt := string_field (prop sectionInput "startedAt"); sect_error := string_field (prop sectionInput "error");
         sect_data := prop sectionInput "data";
         sect_action := match prop sectionInput "action" with VObj a => Some (VObj a) | _ => None end |}
  | _ => empty_section
  end.

Definition normalizeHubState (raw : value) (fallbackHubId : string) : RegistryHubState :=
  let input := fields_of raw in
  {| hub_hubId := id_or (prop input "hubId") fallbackHubId; hub_status := string_or (prop input "status") "empty";
     hub_updatedAt := string_field (prop input "updatedAt");
     hub_sections := dict_of (map (fun e => (e.1, normalizeSection e.2)) (properties (prop input "sections"))) |}.

(** [state.sections[section]?.data]. *)
Definition hubStateSectionData (state : RegistryHubState) (name : string) : value :=
  match dget (hub_sections state) name with Some section => sect_data section | None => VUndefined end.

Definition hubIdFromProjectId (projectId : string) : string :=
  trim (match indexOf projectId ":" 0 with Some (S n) => slice 0 (S n) projectId | _ => projectId end).

(** * The records on the wire *)

Definition text_of (o : option string) : value := match o with Some s => VStr s | None => VUndefined end.
Definition bool_of (o : option bool) : value := match o with Some b => VBool b | None => VUndefined end.
Definition number_of (o : option Q) : value := match o with Some q => VNum (Fin q) | None => VUndefined end.
Definition count_of (o : option Z) : value := match o with Some z => VNum (of_Z z) | None => VUndefined end.
Definition list_of {A} (f : A -> value) (o : option (list A)) : value := match o with Some l => VArr (map f l) | None => VUndefined end.
Definition object_of {A} (f : A -> value) (o : option A) : value := match o with Some x => f x | None => VUndefined end.

Definition option_value_object (v : RegistrySessionConfigOptionValue) : value :=
  VObj [("value", VStr (cv_value v)); ("name", text_of (cv_name v)); ("description", text_of (cv_description v))]%string.
Definition option_object (o : RegistrySessionConfigOption) : value :=
  VObj [("id", VStr (co_id o)); ("name", text_of (co_name o)); ("description", text_of (co_description o));
        ("category", text_of (co_category o)); ("type", text_of (co_type o)); ("currentValue", text_of (co_currentValue o));
        ("options", list_of option_value_object (co_options o))]%string.
Definition command_object (c : RegistrySessionCommand) : value :=
  VObj [("name", VStr (cmd_name c)); ("description", text_of (cmd_description c))]%string.
Definition usage_object (u : RegistrySessionUsage) : value :=
  VObj [("used", VNum (usage_used u)); ("size", object_of VNum (usage_size u)); ("updatedAt", text_of (usage_updatedAt u))]%string.
Definition capability_object (c : RegistrySessionActionCapability) : value :=
  VObj [("supported", VBool (cap_supported c)); ("reason", text_of (cap_reason c))]%string.
Definition capabilities_object (c : RegistrySessionActionCapabilities) : value :=
  VObj [("status", capability_object (caps_status c)); ("compact", capability_object (caps_compact c))]%string.

Definition session_fields (s : RegistryChatSession) : list (string * value) := [
  ("sessionId", VStr (sess_sessionId s)); ("title", VStr (sess_title s)); ("preview", VStr (sess_preview s));
  ("updatedAt", VStr (sess_updatedAt s)); ("messageCount", VNum (Fin (sess_messageCount s)));
  ("unreadCount", number_of (sess_unreadCount s)); ("agentType", text_of (sess_agentType s));
  ("createRequestId", text_of (sess_createRequestId s)); ("latestTurnIndex", count_of (sess_latestTurnIndex s));
  ("running", bool_of (sess_running s)); ("lastDoneTurnIndex", count_of (sess_lastDoneTurnIndex s));
  ("lastDoneSuccess", bool_of (sess_lastDoneSuccess s)); ("lastReadTurnIndex", count_of (sess_lastReadTurnIndex s));
  ("configOptions", list_of option_object (sess_configOptions s)); ("commands", list_of command_object (sess_commands s));
  ("usage", object_of usage_object (sess_usage s)); ("sessionActions", object_of capabilities_object (sess_sessionActions s))]%string.
Definition session_object (s : RegistryChatSession) : value := VObj (session_fields s).

Definition archived_object (a : RegistryArchivedSessionSummary) : value :=
  VObj (session_fields (arch_session a) ++ [
    ("projectName", text_of (arch_projectName a)); ("createdAt", text_of (arch_createdAt a)); ("archivedAt", VStr (arch_archivedAt a));
    ("restoredAt", text_of (arch_restoredAt a)); ("turnCount", VNum (of_Z (arch_turnCount a))); ("gapCount", VNum (of_Z (arch_gapCount a)));
    ("nativeArchivedAt", text_of (arch_nativeArchivedAt a)); ("nativeUnarchivedAt", text_of (arch_nativeUnarchivedAt a));
    ("nativeSyncWarning", text_of (arch_nativeSyncWarning a))]%string).

(** * Reading a record back *)

Lemma text_back o : string_field (text_of o) = o.
Proof. by destruct o. Qed.
Lemma bool_back o : bool_field (bool_of o) = o.
Proof. by destruct o. Qed.
Lemma number_back o : number_field (number_of o) = o.
Proof. by destruct o. Qed.
Lemma trimmed_back v : trimmed_field (text_of (trimmed_field v)) = trimmed_field v.
Proof.
  destruct v; try done. cbn [trimmed_field]. destruct (nonempty (trim s)) eqn:E; [|done]. cbn [text_of trimmed_field].
  by rewrite trim_trim, E.
Qed.
Lemma count_back v : count_field (count_of (count_field v)) = count_field v.
Proof.
  unfold count_field. destruct (number_field v) as [q|]; [|done]. cbn [fmap option_fmap option_map count_of number_field of_Z].
  rewrite trunc_inject. f_equal. lia.
Qed.
Lemma count_Z z : 0 <= z -> count_field (VNum (of_Z z)) = Some z.
Proof. intros H. unfold count_field, of_Z. cbn. rewrite trunc_inject. f_equal. lia. Qed.
Lemma count_nonneg v z : count_field v = Some z -> 0 <= z.
Proof. unfold count_field. destruct (number_field v); [|done]. cbn. intros [= <-]. lia. Qed.
Lemma count_default v : 0 <= default 0 (count_field v).
Proof. destruct (count_field v) as [z|] eqn:E; cbn; [by eapply count_nonneg|done]. Qed.

(** A list of records that were accepted. *)
Lemma list_back {A} (f : value -> option A) (g : A -> value) v : (forall raw x, f raw = Some x -> f (g x) = Some x) ->
  list_field f (list_of g (list_field f v)) = list_field f v.
Proof.
  intros H. destruct v as [| | | | |items|]; try done. cbn [list_field list_of]. f_equal.
  induction items as [|raw items IH]; [done|]. cbn [omap list_omap]. destruct (f raw) as [x|] eqn:E; [|exact IH].
  cbn [map]. cbn [omap list_omap]. rewrite (H raw x E). by f_equal.
Qed.

Lemma object_back {A} (f : value -> option A) (g : A -> value) v : (forall raw x, f raw = Some x -> f (g x) = Some x) ->
  f VUndefined = None -> f (object_of g (f v)) = f v.
Proof. intros H H0. destruct (f v) as [x|] eqn:E; [|done]. by apply (H v). Qed.
#[export] Hint Rewrite text_back bool_back number_back trimmed_back count_back trim_trim : js.

(** Reading fields of the object of a record. *)
Ltac read_fields := cbn [object_fields fields_of default id mbind option_bind fmap option_fmap option_map prop String.eqb Ascii.eqb Bool.eqb andb
  string_or string_field true_field bool_field number_field negb].

Lemma option_value_back raw v : normalizeSessionConfigOptionValue raw = Some v -> normalizeSessionConfigOptionValue (option_value_object v) = Some v.
Proof.
  unfold normalizeSessionConfigOptionValue. destruct (object_fields raw) as [input|]; [|done]. read_fields.
  destruct (nonempty (trim _)) eqn:E; [|done]. intros [= <-]. unfold option_value_object. read_fields.
  cbn [cv_value cv_name cv_description]. autorewrite with js. by rewrite E.
Qed.

Lemma option_back raw o : normalizeSessionConfigOption raw = Some o -> normalizeSessionConfigOption (option_object o) = Some o.
Proof.
  unfold normalizeSessionConfigOption. destruct (object_fields raw) as [input|]; [|done]. read_fields.
  destruct (nonempty (trim _)) eqn:E; [|done]. intros [= <-]. unfold option_object. read_fields.
  cbn [co_id co_name co_description co_category co_type co_currentValue co_options]. autorewrite with js. rewrite E. cbn [negb].
  by rewrite list_back by apply option_value_back.
Qed.

Lemma trim_slash s : trim s = s -> trim ("/" +:+ s) = "/" +:+ s.
Proof.
  intros H. assert (drop_space (reverse (chars s)) = reverse (chars s)) as Hr.
  { rewrite <- H at 2. unfold trim. rewrite chars_unchars, reverse_involutive. rewrite <- H at 1. unfold trim.
    by rewrite chars_unchars, reverse_involutive, drop_space_fix. }
  assert (forall m, drop_space m = m -> drop_space (m ++ ["/"%char]) = m ++ ["/"%char]) as Hm.
  { intros [|c m] Hd; [done|]. cbn [app drop_space] in *. destruct (is_space c); [|done]. exfalso.
    destruct (drop_space_suffix m) as [k Hk]. apply (f_equal length) in Hk, Hd. rewrite length_app in Hk. cbn in Hd. lia. }
  unfold trim. change (chars ("/" +:+ s)) with ("/"%char :: chars s). change (drop_space ("/"%char :: chars s)) with ("/"%char :: chars s).
  rewrite reverse_cons, Hm by done. rewrite reverse_app, reverse_involutive. cbn.
  by rewrite unchars_chars.
Qed.

Lemma command_back raw c : normalizeSessionCommand raw = Some c -> normalizeSessionCommand (command_object c) = Some c.
Proof.
  unfold normalizeSessionCommand. destruct (object_fields raw) as [input|]; [|done]. read_fields.
  set (nameRaw := trim _). destruct (nonempty nameRaw) eqn:E; [|done]. intros [= <-]. unfold command_object. read_fields.
  cbn [cmd_name cmd_description]. autorewrite with js. destruct (startsWith nameRaw "/") eqn:Es.
  - unfold nameRaw. autorewrite with js. fold nameRaw. by rewrite E, Es.
  - rewrite trim_slash by (unfold nameRaw; by autorewrite with js). cbn. by destruct nameRaw.
Qed.

Lemma usage_back raw u : normalizeSessionUsage raw = Some u -> normalizeSessionUsage (usage_object u) = Some u.
Proof.
  unfold normalizeSessionUsage. destruct (object_fields raw) as [input|]; [|done]. read_fields.
  destruct (count_field (prop input "used")) as [used|] eqn:E; [|done]. cbn [mbind option_bind]. intros [= <-]. unfold usage_object. read_fields.
  cbn [usage_used usage_size usage_updatedAt]. 
  rewrite count_Z by (by eapply count_nonneg). cbn [mbind option_bind]. autorewrite with js.
  do 2 f_equal. destruct (count_field (prop input "size")) as [z|] eqn:Ez; [|done]. cbn [fmap option_fmap option_map object_of]. rewrite count_Z; [done|by eapply count_nonneg].
Qed.

Lemma capability_back raw : let c := normalizeSessionActionCapability raw in normalizeSessionActionCapability (capability_object c) = c.
Proof. cbn zeta. unfold normalizeSessionActionCapability at 1 3, capability_object. read_fields. cbn [cap_supported cap_reason]. f_equal. apply trimmed_back.
Qed.

Lemma capabilities_back raw c : normalizeSessionActions raw = Some c -> normalizeSessionActions (capabilities_object c) = Some c.
Proof.
  unfold normalizeSessionActions. destruct (object_fields raw) as [input|]; [|done]. cbn [mbind option_bind]. intros [= <-].
  unfold capabilities_object. read_fields. cbn [caps_status caps_compact]. by rewrite !capability_back.
Qed.

Lemma summary_back raw s : normalizeSessionSummary raw = Some s -> normalizeSessionSummary (session_object s) = Some s.
Proof.
  unfold normalizeSessionSummary. destruct (object_fields raw) as [input|]; [|done]. read_fields.
  destruct (nonempty (trim _)) eqn:E; [|done]. intros [= <-]. unfold session_object, session_fields. read_fields.
  cbn [sess_sessionId sess_title sess_preview sess_updatedAt sess_messageCount sess_unreadCount sess_agentType sess_createRequestId
    sess_latestTurnIndex sess_running sess_lastDoneTurnIndex sess_lastDoneSuccess sess_lastReadTurnIndex sess_configOptions
    sess_commands sess_usage sess_sessionActions bool_of]. unfold normalizeAgentType. autorewrite with js. rewrite E. cbn [negb].
  rewrite !list_back by first [apply option_back|apply command_back].
  by rewrite (object_back normalizeSessionUsage), (object_back normalizeSessionActions) by first [apply usage_back|apply capabilities_back|done].
Qed.

(** The fields that come after those of a summary are not read as fields of one. *)
Lemma archived_summary a : normalizeSessionSummary (archived_object a) = normalizeSessionSummary (session_object (arch_session a)).
Proof. reflexivity. Qed.

Lemma archived_back raw a : normalizeArchivedSessionSummary raw = Some a -> normalizeArchivedSessionSummary (archived_object a) = Some a.
Proof.
  unfold normalizeArchivedSessionSummary. destruct (normalizeSessionSummary raw) as [base|] eqn:Eb; [|done].
  destruct (object_fields raw) as [input|]; [|done]. cbn [mbind option_bind].
  destruct (nonempty (string_or (prop input "archivedAt") "")) eqn:E; [|done]. intros [= <-].
  rewrite archived_summary. cbn [arch_session]. rewrite (summary_back _ _ Eb). unfold archived_object, session_fields. cbn [mbind option_bind app].
  read_fields. cbn [arch_projectName arch_createdAt arch_archivedAt arch_restoredAt arch_turnCount arch_gapCount arch_nativeArchivedAt
    arch_nativeUnarchivedAt arch_nativeSyncWarning]. rewrite E, !count_Z by apply count_default. by autorewrite with js.
Qed.

(** ** What is accepted *)

Definition trimmed (s : string) : Prop := s <> ""%string /\ trim s = s.
Definition trimmed_opt (o : option string) : Prop := forall s, o = Some s -> trimmed s.
Definition count_opt (o : option Z) : Prop := forall z, o = Some z -> 0 <= z.

Record summary_ok (s : RegistryChatSession) : Prop := {
  ok_sessionId : trimmed (sess_sessionId s);
  ok_agentType : trimmed_opt (sess_agentType s);
  ok_createRequestId : trimmed_opt (sess_createRequestId s);
  ok_counts : count_opt (sess_latestTurnIndex s) /\ count_opt (sess_lastDoneTurnIndex s) /\ count_opt (sess_lastReadTurnIndex s);
  ok_running : is_Some (sess_running s);
  ok_configOptions : forall l, sess_configOptions s = Some l -> Forall (fun o => trimmed (co_id o)) l;
  ok_commands : forall l, sess_commands s = Some l -> Forall (fun c => startsWith (cmd_name c) "/" = true) l
}.

Lemma trimmed_trim s : nonempty (trim s) = true -> trimmed (trim s).
Proof. intros H%nonempty_true. split; [done|apply trim_trim]. Qed.
Lemma trimmed_field_ok v : trimmed_opt (trimmed_field v).
Proof. intros s. destruct v; try done. cbn [trimmed_field]. destruct (nonempty (trim s0)) eqn:E; [|done]. intros [= <-]. by apply trimmed_trim. Qed.
Lemma count_field_ok v : count_opt (count_field v).
Proof. intros z. apply count_nonneg. Qed.
Lemma list_field_ok {A} (f : value -> option A) (P : A -> Prop) v l : (forall raw x, f raw = Some x -> P x) -> list_field f v = Some l -> Forall P l.
Proof.
  intros H. destruct v; try done. cbn [list_field]. intros [= <-]. apply Forall_forall. intros x (raw & _ & Hx)%list_elem_of_omap. by eapply H.
Qed.

Lemma option_wf raw o : normalizeSessionConfigOption raw = Some o -> trimmed (co_id o).
Proof.
  unfold normalizeSessionConfigOption. destruct (object_fields raw); [|done]. cbn [mbind option_bind].
  destruct (nonempty (trim _)) eqn:Eo; [|done]. intros [= <-]. by apply trimmed_trim.
Qed.

Lemma command_wf raw c : normalizeSessionCommand raw = Some c -> startsWith (cmd_name c) "/" = true.
Proof.
  unfold normalizeSessionCommand. destruct (object_fields raw); [|done]. cbn [mbind option_bind].
  destruct (nonempty (trim _)); [|done]. intros [= <-]. cbn [cmd_name].
  destruct (startsWith (trim _) "/") eqn:Es; [done|]. by destruct (trim _).
Qed.

Lemma summary_wf raw s : normalizeSessionSummary raw = Some s -> summary_ok s.
Proof.
  unfold normalizeSessionSummary. destruct (object_fields raw) as [input|]; [|done]. cbn [mbind option_bind].
  destruct (nonempty (trim _)) eqn:E; [|done]. intros [= <-].
  split; cbn [sess_sessionId sess_agentType sess_createRequestId sess_latestTurnIndex sess_running sess_lastDoneTurnIndex
    sess_lastReadTurnIndex sess_configOptions sess_commands].
  - by apply trimmed_trim.
  - apply trimmed_field_ok.
  - apply trimmed_field_ok.
  - split; [|split]; apply count_field_ok.
  - by eexists.
  - intros l. apply list_field_ok, option_wf.
  - intros l. apply list_field_ok, command_wf.
Qed.

(** C19. The session summaries of the registry, live and archived.  What is accepted has a
    trimmed session id, a trimmed agent type and creation request id if it has them, none of
    its three turn indexes (latest, last finished, last read) negative, a decided running
    state, options with trimmed ids and commands that start with a slash; an archived one
    has no negative turn or gap count either.  Its message and unread counts are any finite
    numbers of the wire, and nothing is claimed of them here.  What is accepted, sent again
    as the record it is, is accepted again as the same record. *)
Theorem session_summary_stable raw :
  (forall s, normalizeSessionSummary raw = Some s -> summary_ok s /\ normalizeSessionSummary (session_object s) = Some s) /\
  (forall a, normalizeArchivedSessionSummary raw = Some a ->
     summary_ok (arch_session a) /\ 0 <= arch_turnCount a /\ 0 <= arch_gapCount a /\
     normalizeArchivedSessionSummary (archived_object a) = Some a).
Proof.
  split.
  - intros s H. split; [by eapply summary_wf|by eapply summary_back].
  - intros a H. pose proof (archived_back _ _ H) as Hb. unfold normalizeArchivedSessionSummary in H.
    destruct (normalizeSessionSummary raw) as [base|] eqn:Eb; [|done]. destruct (object_fields raw) as [input|]; [|done].
    cbn [mbind option_bind] in H. destruct (negb _); [done|]. injection H as <-. cbn [arch_session arch_turnCount arch_gapCount] in *.
    split; [by eapply summary_wf|]. split; [apply count_default|]. split; [apply count_default|]. exact Hb.
Qed.

Definition sample_raw_session : value := VObj [
  ("sessionId", VStr " s1 "); ("title", VStr "Title"); ("messageCount", VNum (Fin (5 # 2))); ("agentType", VStr " ");
  ("latestTurnIndex", VNum (of_Z (-3))); ("running", VBool true); ("archivedAt", VStr "2024");
  ("commands", VArr [VObj [("name", VStr "/plan")]; VObj [("name", VStr " ")]])]%string.
Definition sample_session_summary : RegistryChatSession := {|
  sess_sessionId := "s1"; sess_title := "Title"; sess_preview := ""; sess_updatedAt := ""; sess_messageCount := (5 # 2)%Q;
  sess_unreadCount := None; sess_agentType := None; sess_createRequestId := None; sess_latestTurnIndex := Some 0;
  sess_running := Some true; sess_lastDoneTurnIndex := None; sess_lastDoneSuccess := None; sess_lastReadTurnIndex := None;
  sess_configOptions := None; sess_commands := Some [{| cmd_name := "/plan"; cmd_description := None |}]; sess_usage := None;
  sess_sessionActions := None |}.

Lemma session_summary_stable_witness :
  normalizeSessionSummary sample_raw_session = Some sample_session_summary /\ summary_ok sample_session_summary /\
  normalizeSessionSummary (session_object sample_session_summary) = Some sample_session_summary.
Proof.
  split; [vm_compute; reflexivity|]. apply (session_summary_stable sample_raw_session). vm_compute. reflexivity.
Defined.
