(* ===== verification/TurnIndex.v ===== *)
(** What the turn-indexed lists of the chat components share: the [TurnIndexed]
    interface (a turn or a message has an integer index), the upsert both
    [chat/turns/chatSync.ts] and [chat/turns/chatTurnStores.ts] build on, and the
    [while (set.has(i + 1)) i += 1] loop that finds the end of the contiguous run
    of finished turns. *)

From S2P Require Import Prelude RegistryTypes.
From Stdlib Require Import Sorted.
Open Scope Z_scope.

Class TurnIndexed (T : Type) := turn_index : T -> Z.
#[export] Instance turn_TurnIndexed : TurnIndexed RegistrySessionTurn := turn_turnIndex.
#[export] Instance message_TurnIndexed : TurnIndexed RegistryChatMessage := msg_turnIndex.

(** * The contiguous run *)

(** [while (set.has(i + 1)) i += 1], with fuel; [None] when the fuel runs out. *)
Fixpoint advance (fuel : nat) (s : gset Z) (i : Z) : option Z :=
  match fuel with
  | O => None
  | S f => if decide (i + 1 ∈ s) then advance f s (i + 1) else Some i
  end.

(** The loop makes at most one step per element of the set. *)
Definition contiguousEnd (s : gset Z) (i : Z) : Z := default i (advance (S (size s)) s i).

Lemma advance_spec fuel s i j :
  advance fuel s i = Some j ->
  i <= j /\ (forall k, i < k <= j -> k ∈ s) /\ j + 1 ∉ s.
Proof.
  revert i; induction fuel as [|f IH]; intros i; simpl; [done|].
  case_decide as Hin; [|intros [= ->]; split_and!; [lia|lia|done]].
  intros (Hle & Hmem & Hout)%IH. split_and!; [lia| |done].
  intros k Hk. destruct (decide (k = i + 1)) as [->|]; [done|]. apply Hmem. lia.
Qed.

(** The fuel is enough: the loop consumes a fresh element each time. *)
Lemma advance_total fuel (s : gset Z) i :
  (size (filter (fun k : Z => (i < k)%Z) s) < fuel)%nat -> is_Some (advance fuel s i).
Proof.
  revert i; induction fuel as [|f IH]; intros i; simpl; [lia|]. intros Hsz.
  case_decide as Hin; [|by eexists]. apply IH.
  assert (filter (fun k : Z => i + 1 < k) s ⊂ filter (fun k : Z => i < k) s) as Hsub.
  { split.
    - intros k. rewrite !elem_of_filter. naive_solver lia.
    - intros Hrev. assert (i + 1 ∈ filter (fun k : Z => i + 1 < k) s) as H.
      { apply Hrev, elem_of_filter. split; [lia|done]. }
      apply elem_of_filter in H. lia. }
  apply subset_size in Hsub. lia.
Qed.

Lemma contiguousEnd_advance s i : advance (S (size s)) s i = Some (contiguousEnd s i).
Proof.
  unfold contiguousEnd. destruct (advance_total (S (size s)) s i) as [j Hj].
  - apply Nat.lt_succ_r. apply subseteq_size. intros k. rewrite elem_of_filter. naive_solver.
  - by rewrite Hj.
Qed.

Lemma contiguousEnd_spec s i :
  i <= contiguousEnd s i /\ (forall k, i < k <= contiguousEnd s i -> k ∈ s) /\ contiguousEnd s i + 1 ∉ s.
Proof. eapply advance_spec, contiguousEnd_advance. Qed.

(** The end of the run is determined by those three facts. *)
Lemma contiguousEnd_unique s i j :
  i <= j -> (forall k, i < k <= j -> k ∈ s) -> j + 1 ∉ s -> contiguousEnd s i = j.
Proof.
  intros Hle Hmem Hout. destruct (contiguousEnd_spec s i) as (Hle' & Hmem' & Hout').
  destruct (Z.lt_trichotomy (contiguousEnd s i) j) as [Hlt|[->|Hlt]]; [|done|].
  - exfalso. apply Hout', Hmem. lia.
  - exfalso. apply Hout, Hmem'. lia.
Qed.

Lemma contiguousEnd_mono s1 s2 i : s1 ⊆ s2 -> contiguousEnd s1 i <= contiguousEnd s2 i.
Proof.
  intros Hsub. destruct (contiguousEnd_spec s1 i) as (_ & H1 & _).
  destruct (contiguousEnd_spec s2 i) as (Hle & _ & H2).
  destruct (decide (contiguousEnd s1 i <= contiguousEnd s2 i)); [done|].
  exfalso. apply H2, Hsub, H1. lia.
Qed.

(** * Upsert by index *)

Section upsert.
Context {T : Type} `{!TurnIndexed T}.

Definition indexes (l : list T) : list Z := map turn_index l.
Definition sorted_by_index : list T -> list T := js_sort (by_key turn_index).
Definition index_sorted (l : list T) : Prop :=
  StronglySorted (fun a b => turn_index a < turn_index b) l.

(** The element at an index, when indexes are distinct. *)
Definition at_index (l : list T) (i : Z) : option T := find (fun x => turn_index x =? i) l.

Lemma index_sorted_NoDup l : index_sorted l -> NoDup (indexes l).
Proof.
  induction 1 as [|x l Hl IH Hx]; simpl; constructor; [|done].
  intros (y & E & Hy)%elem_of_map. rewrite Forall_forall in Hx. specialize (Hx _ Hy). simpl in *. lia.
Qed.

Lemma sorted_by_index_sorted l : NoDup (indexes l) -> index_sorted (sorted_by_index l).
Proof.
  intros Hnd. apply sorted_strict; [apply by_key_sorted|].
  assert (map turn_index (sorted_by_index l) ≡ₚ indexes l) as -> by apply Permutation_map, js_sort_perm.
  done.
Qed.

Lemma sorted_by_index_id l : index_sorted l -> sorted_by_index l = l.
Proof.
  intros H. apply by_key_id. induction H as [|x l Hl IH Hx]; constructor; [done|].
  eapply Forall_impl; [exact Hx|]. simpl; intros; lia.
Qed.

Lemma index_sorted_bfilter p l : index_sorted l -> index_sorted (bfilter p l).
Proof.
  induction 1 as [|x l Hl IH Hx]; simpl; [constructor|]. destruct (p x); [|done].
  constructor; [done|]. rewrite Forall_forall in *. intros y Hy%elem_of_bfilter. naive_solver.
Qed.

Lemma at_index_Some l i x : NoDup (indexes l) -> at_index l i = Some x <-> x ∈ l /\ turn_index x = i.
Proof.
  intros Hnd. split.
  - intros [Hin Hi]%find_Some. split; [done|lia].
  - intros [Hin <-]. unfold at_index. induction l as [|y l IH]; [set_solver|]. simpl in *.
    apply NoDup_cons in Hnd as [Hy Hnd]. apply elem_of_cons in Hin as [->|Hin]; [by rewrite Z.eqb_refl|].
    replace (turn_index y =? turn_index x) with false; [by apply IH|]. symmetry. apply Z.eqb_neq.
    intros E. apply Hy, elem_of_map. by exists x.
Qed.

Lemma at_index_None l i : at_index l i = None <-> i ∉ indexes l.
Proof.
  unfold at_index. rewrite find_None, Forall_forall. unfold indexes. rewrite elem_of_map. split.
  - intros H (x & -> & Hx). specialize (H x Hx). lia.
  - intros H x Hx. apply Z.eqb_neq. intros <-. apply H. by exists x.
Qed.

Lemma index_sorted_snoc l t : index_sorted l -> (forall x, x ∈ l -> turn_index x < turn_index t) -> index_sorted (l ++ [t]).
Proof. intros H Hx. by apply StronglySorted_snoc. Qed.

Lemma drop_sorted n l : index_sorted l -> index_sorted (drop n l).
Proof. revert n; induction l as [|x l IH]; intros [|n] H; [done..|]. apply StronglySorted_inv in H as [H _]. by apply IH. Qed.

(** Sorted lists with the same elements at every index are equal. *)
Lemma index_sorted_ext l1 l2 :
  index_sorted l1 -> index_sorted l2 -> (forall x, x ∈ l1 <-> x ∈ l2) -> l1 = l2.
Proof.
  intros H1 H2 Hin. eapply sorted_perm_eq; [exact H1|exact H2|].
  apply NoDup_Permutation; [..|done].
  - apply index_sorted_NoDup in H1. by eapply NoDup_fmap_1.
  - apply index_sorted_NoDup in H2. by eapply NoDup_fmap_1.
Qed.
End upsert.
