(* ===== verification/ChatWire.v ===== *)
(** [chat/chatWire.ts]: the gate through which session turns enter the client.
    Arbitrary decoded JSON ([value]) becomes typed turns and messages, or is
    refused.  [JSON.parse] is an operation of the [JSON] interface. *)

From S2P Require Import Prelude Json RegistryTypes TurnIndex.
Open Scope Z_scope.

(** [asRecord]. *)
Definition asRecord (v : value) : option (list (string * value)) :=
  match v with VObj props => Some props | _ => None end.

(** [normalizeTurnIndex]. *)
Definition normalizeTurnIndex (v : value) : Z :=
  match v with VNum (Fin q) => trunc q | _ => 0 end.

(** [v === true] and [typeof v === 'string' ? v : '']. *)
Definition is_true (v : value) : bool := match v with VBool b => b | _ => false end.
Definition string_or_empty (v : value) : string := match v with VStr s => s | _ => "" end.

(** [normalizeSessionWireTurn]. *)
Definition normalizeSessionWireTurn (raw : value) : option RegistrySessionTurn :=
  match asRecord raw with
  | None => None
  | Some input =>
      let turnIndex := normalizeTurnIndex (prop input "turnIndex") in
      if turnIndex <=? 0 then None else
      let content := string_or_empty (prop input "content") in
      if negb (nonempty content) then None else
      Some {| turn_turnIndex := turnIndex; turn_content := content;
              turn_finished := is_true (prop input "finished") |}
  end.

(** [RegistrySessionMessageEventPayload]. *)
Record SessionMessagePayload := { pay_sessionId : string; pay_turn : RegistrySessionTurn }.

(** [normalizeSessionMessagePayload]: the flat legacy payload is refused. *)
Definition normalizeSessionMessagePayload (raw : value) : option SessionMessagePayload :=
  match asRecord raw with
  | None => None
  | Some input =>
      let sessionId := trim (string_or_empty (prop input "sessionId")) in
      if negb (nonempty sessionId) then None else
      if has_prop input "turnIndex" || has_prop input "content" || has_prop input "finished" then None else
      match normalizeSessionWireTurn (prop input "turn") with
      | None => None
      | Some turn => Some {| pay_sessionId := sessionId; pay_turn := turn |}
      end
  end.

(** The regular expression that recognises command echoes of the agent:
    [^<(command-name|...)[\s>]]. *)
Definition command_tags : list string :=
  ["command-name"; "command-message"; "command-args"; "local-command-caveat"; "local-command-stdout"]%string.
Definition is_command_echo (text : string) : bool :=
  some (fun tag =>
    startsWith text (String.append "<" tag) &&
    match drop (S (String.length tag)) (chars text) with
    | c :: _ => is_space c || bool_decide (c = ">"%char)
    | [] => false
    end) command_tags.

Section decode.
Context `{JSON}.

(** [decodeSessionTurnToMessage].  [JSON.parse] throwing, and reading a property
    of a parsed [null], both end in the [catch]. *)
Definition decodeSessionTurnToMessage (sessionId : string) (turn : RegistrySessionTurn)
    : option RegistryChatMessage :=
  let normalizedSessionId := trim sessionId in
  if negb (nonempty normalizedSessionId) || (turn_turnIndex turn <=? 0) then None else
  let fallback := {|
    msg_sessionId := normalizedSessionId; msg_turnIndex := turn_turnIndex turn;
    msg_method := "system"; msg_param := [("text"%string, VStr (turn_content turn))];
    msg_finished := turn_finished turn |} in
  match JSON_parse (turn_content turn) with
  | None | Some VNull | Some VUndefined => Some fallback
  | Some doc =>
      let fields := match doc with VObj props => props | _ => [] end in
      let method := trim (string_or_empty (prop fields "method")) in
      let param := default [] (asRecord (prop fields "param")) in
      if negb (nonempty method) then None else
      if bool_decide (method = "user_message_chunk"%string)
         && is_command_echo (string_or_empty (prop param "text")) then None else
      Some {| msg_sessionId := normalizedSessionId; msg_turnIndex := turn_turnIndex turn;
              msg_method := method; msg_param := param; msg_finished := turn_finished turn |}
  end.

(** [RegistrySessionReadResponse], with the summary type a parameter. *)
Record SessionReadResponse {S : Type} := {
  read_sessionId : string;
  read_session : option S;
  read_turns : list RegistrySessionTurn;
  read_messages : list RegistryChatMessage;
  read_latestTurnIndex : Z;
}.
Arguments SessionReadResponse : clear implicits.

Definition array_items (v : value) : list value := match v with VArr l => l | _ => [] end.

(** [normalizeSessionReadPayload]. *)
Definition normalizeSessionReadPayload {S} (raw : value) (expectedSessionId : string)
    (normalizeSummary : value -> option S) : option (SessionReadResponse S) :=
  match asRecord raw with
  | None => None
  | Some input =>
      let sessionId := trim (string_or_empty (prop input "sessionId")) in
      if negb (nonempty sessionId) || negb (bool_decide (sessionId = trim expectedSessionId)) then None else
      let latestTurnIndex := normalizeTurnIndex (prop input "latestTurnIndex") in
      let turns := sorted_by_index (omap normalizeSessionWireTurn (array_items (prop input "turns"))) in
      Some {| read_sessionId := sessionId;
              read_session := normalizeSummary (prop input "session");
              read_turns := turns;
              read_messages := omap (decodeSessionTurnToMessage sessionId) turns;
              read_latestTurnIndex := Z.max 0 latestTurnIndex |}
  end.
End decode.
Arguments SessionReadResponse : clear implicits.

(** * What the gate guarantees *)

(** The turns the rest of the client may see. *)
Definition valid_turn (t : RegistrySessionTurn) : Prop := 0 < turn_turnIndex t /\ turn_content t <> ""%string.

(** The wire object of a turn. *)
Definition encode_turn (t : RegistrySessionTurn) : value :=
  VObj [("turnIndex"%string, VNum (of_Z (turn_turnIndex t))); ("content"%string, VStr (turn_content t));
        ("finished"%string, VBool (turn_finished t))].

Lemma normalizeSessionWireTurn_valid raw t : normalizeSessionWireTurn raw = Some t -> valid_turn t.
Proof.
  unfold normalizeSessionWireTurn, valid_turn. cases; intros; simplify_eq/=; breflect. split; [lia|done].
Qed.

Lemma normalizeSessionWireTurn_encode t : valid_turn t -> normalizeSessionWireTurn (encode_turn t) = Some t.
Proof.
  intros [Hi Hc]. unfold normalizeSessionWireTurn; simpl. rewrite trunc_inject.
  replace (turn_turnIndex t <=? 0) with false by lia.
  apply nonempty_true in Hc. rewrite Hc. simpl. by destruct t.
Qed.
#[export] Hint Resolve normalizeSessionWireTurn_valid : js.

Lemma valid_turn_iff t : valid_turn t <-> normalizeSessionWireTurn (encode_turn t) = Some t.
Proof. split; [apply normalizeSessionWireTurn_encode | apply normalizeSessionWireTurn_valid]. Qed.

Lemma decode_index `{JSON} sid t m :
  decodeSessionTurnToMessage sid t = Some m ->
  msg_turnIndex m = turn_turnIndex t /\ msg_finished m = turn_finished t /\ msg_sessionId m = trim sid.
Proof. unfold decodeSessionTurnToMessage. cases; intros; simplify_eq/=; done. Qed.

Lemma omap_wire_valid l : Forall valid_turn (omap normalizeSessionWireTurn l).
Proof.
  apply Forall_forall. intros t (raw & _ & H)%list_elem_of_omap. by apply normalizeSessionWireTurn_valid in H.
Qed.

Lemma omap_wire_encode l : Forall valid_turn l -> omap normalizeSessionWireTurn (map encode_turn l) = l.
Proof.
  induction 1 as [|t l Ht _ IH]; [done|]. cbn [map omap list_omap].
  rewrite normalizeSessionWireTurn_encode by done. by rewrite IH.
Qed.

(** The wire object of a [session.read] response. *)
Definition encode_read (sid : string) (turns : list RegistrySessionTurn) (latest : Z) : value :=
  VObj [("sessionId"%string, VStr sid); ("latestTurnIndex"%string, VNum (of_Z latest));
        ("turns"%string, VArr (map encode_turn turns))].

(** Whatever JSON value a hub answers [session.read] with, an accepted
    response is well formed: it is for the requested session, its turns have
    positive indexes and non-empty contents and come in index order, its latest
    index is not negative, and every decoded message belongs to one of its turns. *)
Theorem read_payload_wellformed `{JSON} {S} raw sid (normalizeSummary : value -> option S) r :
  normalizeSessionReadPayload raw sid normalizeSummary = Some r ->
  read_sessionId r = trim sid /\ trim sid <> ""%string /\
  Forall valid_turn (read_turns r) /\
  StronglySorted (fun a b => turn_index a <= turn_index b) (read_turns r) /\
  0 <= read_latestTurnIndex r /\
  Forall (fun m => msg_sessionId m = trim sid /\
    exists t, t ∈ read_turns r /\ msg_turnIndex m = turn_turnIndex t /\ msg_finished m = turn_finished t)
    (read_messages r).
Proof.
  unfold normalizeSessionReadPayload. destruct (asRecord raw) as [input|]; [|done].
  case_match eqn:E; [done|]. breflect. intros [= <-]; cbn [read_sessionId read_turns read_latestTurnIndex read_messages].
  match goal with H : trim _ = trim sid |- _ => rename H into Hsid end.
  split_and!; [done|congruence| |apply by_key_sorted|lia|].
  - unfold sorted_by_index. rewrite js_sort_perm. apply omap_wire_valid.
  - apply Forall_forall. intros m (t & Ht & (-> & -> & ->)%decode_index)%list_elem_of_omap.
    autorewrite with js. eauto.
Qed.

(** A response with an out-of-order turn, a turn without content and a stranger. *)
Definition sample_read : value :=
  VObj [("sessionId"%string, VStr " s1 "); ("latestTurnIndex"%string, VNum (of_Z 2));
        ("turns"%string, VArr [
          VObj [("turnIndex"%string, VNum (Fin (5 # 2))); ("content"%string, VStr "two")];
          VObj [("turnIndex"%string, VNum (of_Z 3)); ("content"%string, VStr "")];
          VNull;
          VObj [("turnIndex"%string, VNum (of_Z 1)); ("content"%string, VStr "hello");
                ("finished"%string, VBool true)]])].

Lemma read_payload_wellformed_witness :
  exists r, normalizeSessionReadPayload (H := js_JSON) sample_read "s1" (fun _ => @None unit) = Some r /\
    length (read_turns r) = 2%nat /\ length (read_messages r) = 2%nat /\
    StronglySorted (fun a b => turn_index a <= turn_index b) (read_turns r).
Proof.
  eexists. split; [reflexivity|]. split; [reflexivity|]. split; [reflexivity|].
  eapply (read_payload_wellformed (H := js_JSON) sample_read "s1" (fun _ => @None unit)). reflexivity.
Defined.

(** The turns a server sends arrive unchanged: encoding an index-sorted list of
    valid turns as a [session.read] response and normalising it gives the list back. *)
Theorem read_payload_roundtrip `{JSON} {S} sid turns latest (normalizeSummary : value -> option S) :
  trim sid <> ""%string -> Forall valid_turn turns -> index_sorted turns -> 0 <= latest ->
  exists r, normalizeSessionReadPayload (encode_read sid turns latest) sid normalizeSummary = Some r /\
    read_turns r = turns /\ read_latestTurnIndex r = latest.
Proof.
  intros Hsid Hv Hs Hl. unfold normalizeSessionReadPayload, encode_read; simpl.
  apply nonempty_true in Hsid. rewrite Hsid, bool_decide_true by done; simpl.
  eexists; split; [done|]; simpl. rewrite omap_wire_encode, sorted_by_index_id, trunc_inject by done.
  split; [done|lia].
Qed.

Lemma read_payload_roundtrip_witness :
  let t1 := {| turn_turnIndex := 1; turn_content := "a"; turn_finished := true |} in
  let t2 := {| turn_turnIndex := 2; turn_content := "b"; turn_finished := false |} in
  exists r, normalizeSessionReadPayload (H := js_JSON) (encode_read "s" [t1; t2] 2) "s" (fun _ => @None unit) = Some r /\
    read_turns r = [t1; t2] /\ read_latestTurnIndex r = 2.
Proof.
  apply (read_payload_roundtrip (H := js_JSON) "s" _ 2 (fun _ => @None unit));
    [by vm_compute|repeat constructor; done|repeat constructor|done].
Defined.
