(* ===== verification/ChatTurnStores.v ===== *)
(** [chat/turns/chatTurnStores.ts]: the raw-turn cache of one session.  The store
    keeps the contiguous prefix of finished turns ([finished], ending at [cursor])
    and the unfinished turns ([live]).  The mutating functions of the source return
    the object they mutate, so they are state transformers here; the one that can
    throw, [applySessionReadResult], returns [None] then. *)

From S2P Require Import Prelude RegistryTypes TurnIndex ChatWire.
Open Scope Z_scope.

Record ChatTurnStoreState := {
  finished : list RegistrySessionTurn;
  live : list RegistrySessionTurn;
  cursor : Z;
}.

(** [cloneTurn]: [Math.trunc] is the identity on the integer indexes. *)
Definition cloneTurn (turn : RegistrySessionTurn) : RegistrySessionTurn :=
  {| turn_turnIndex := turn_turnIndex turn; turn_content := turn_content turn;
     turn_finished := turn_finished turn |}.

Definition normalizeTurn (turn : RegistrySessionTurn) : option RegistrySessionTurn :=
  if (turn_turnIndex turn <=? 0) || negb (nonempty (turn_content turn)) then None
  else Some {| turn_turnIndex := turn_turnIndex turn; turn_content := turn_content turn;
               turn_finished := turn_finished turn |}.

Definition sortTurns (turns : list RegistrySessionTurn) : list RegistrySessionTurn :=
  sorted_by_index turns.

Definition upsertTurn (turns : list RegistrySessionTurn) (incoming : RegistrySessionTurn)
    : list RegistrySessionTurn :=
  match findIndex (fun item => turn_turnIndex item =? turn_turnIndex incoming) turns with
  | None => sortTurns (turns ++ [cloneTurn incoming])
  | Some index => sortTurns (<[index := cloneTurn incoming]> turns)
  end.

Definition createEmptyChatTurnStore : ChatTurnStoreState :=
  {| finished := []; live := []; cursor := 0 |}.

Definition resetChatTurnStore (state : ChatTurnStoreState) : ChatTurnStoreState :=
  {| finished := []; live := []; cursor := 0 |}.

(** [latestTurnIndex] may be a number that is not finite. *)
Definition isStaleSessionReadResult (afterTurnIndex : Z) (latestTurnIndex : num) : bool :=
  let after := Z.max 0 afterTurnIndex in
  let latest := match latestTurnIndex with Fin q => Z.max 0 (trunc q) | _ => 0 end in
  (0 <? after) && (latest <? after).

(** The indexes of the finished turns: the [Set] the cursor loop walks. *)
Definition finishedSet (turns : list RegistrySessionTurn) : gset Z :=
  list_to_set (omap (fun raw => match normalizeTurn raw with
                                | Some turn => if turn_finished turn then Some (turn_turnIndex turn) else None
                                | None => None end) turns).

Definition getFinishedCursor (turns : list RegistrySessionTurn) : Z :=
  contiguousEnd (finishedSet turns) 0.

(** [byIndex.set] over the finished turns: the last turn with an index wins. *)
Definition indexFinished (byIndex : gmap Z RegistrySessionTurn) (raw : RegistrySessionTurn)
    : gmap Z RegistrySessionTurn :=
  match normalizeTurn raw with
  | Some turn => if turn_finished turn then <[turn_turnIndex turn := turn]> byIndex else byIndex
  | None => byIndex
  end.
Definition finishedByIndex (turns : list RegistrySessionTurn) : gmap Z RegistrySessionTurn :=
  foldl indexFinished ∅ turns.

(** The [for] loop of [getDurableTurnPrefix] from [turnIndex], [n] iterations left. *)
Fixpoint durableFrom (byIndex : gmap Z RegistrySessionTurn) (turnIndex : Z) (n : nat)
    : list RegistrySessionTurn :=
  match n with
  | O => []
  | S n' => match byIndex !! turnIndex with
            | None => []
            | Some turn => cloneTurn turn :: durableFrom byIndex (turnIndex + 1) n'
            end
  end.

Definition getDurableTurnPrefix (turns : list RegistrySessionTurn) (cur : Z) : list RegistrySessionTurn :=
  let maxTurnIndex := Z.max 0 cur in
  durableFrom (finishedByIndex turns) 1 (Z.to_nat maxTurnIndex).

Definition hydrateFinishedStore (turns : list RegistrySessionTurn) : ChatTurnStoreState :=
  let normalized := sortTurns (bfilter turn_finished (omap normalizeTurn turns)) in
  let cur := getFinishedCursor normalized in
  {| finished := getDurableTurnPrefix normalized cur; live := []; cursor := cur |}.

(** The [for] loop that refuses an unfinished turn before the last. *)
Fixpoint unfinishedOnlyLast (normalized : list RegistrySessionTurn) : bool :=
  match normalized with
  | [] => true
  | [turn] => true
  | turn :: rest => turn_finished turn && unfinishedOnlyLast rest
  end.

(** The turns a read replaces: those outside [after < index <= latest] stay. *)
Definition outsideRead (after latest : Z) (turn : RegistrySessionTurn) : bool :=
  (turn_turnIndex turn <=? after) || (latest <? turn_turnIndex turn).

(** One iteration of the loop that stores the turns of a read. *)
Definition storeReadTurn (state : ChatTurnStoreState) (turn : RegistrySessionTurn) : ChatTurnStoreState :=
  if turn_finished turn
  then {| finished := upsertTurn (finished state) turn; live := live state; cursor := cursor state |}
  else {| finished := finished state; live := upsertTurn (live state) turn; cursor := cursor state |}.

(** [state.cursor = ...; state.finished = getDurableTurnPrefix(...)]. *)
Definition settleCursor (state : ChatTurnStoreState) : ChatTurnStoreState :=
  let cur := getFinishedCursor (finished state) in
  {| finished := getDurableTurnPrefix (finished state) cur; live := live state; cursor := cur |}.

(** [Math.max(after, Math.trunc(latestTurnIndex ?? after))] for a number that is
    not [NaN]; reads come with the integer of the wire. *)
Definition applySessionReadResult (state : ChatTurnStoreState) (afterTurnIndex : Z)
    (turns : list RegistrySessionTurn) (latestTurnIndex : Z) : option ChatTurnStoreState :=
  let after := Z.max 0 afterTurnIndex in
  if isStaleSessionReadResult after (of_Z latestTurnIndex) then Some (resetChatTurnStore state) else
  let latest := Z.max after latestTurnIndex in
  let normalized := sortTurns (omap normalizeTurn turns) in
  if negb (unfinishedOnlyLast normalized) then None else
  let kept := {| finished := bfilter (outsideRead after latest) (finished state);
                 live := bfilter (outsideRead after latest) (live state);
                 cursor := cursor state |} in
  Some (settleCursor (foldl storeReadTurn kept normalized)).

Definition mergeCachedTurnPrefix (state : ChatTurnStoreState) (turns : list RegistrySessionTurn)
    : option ChatTurnStoreState :=
  let cachedState := hydrateFinishedStore turns in
  if cursor cachedState <=? 0 then Some state
  else applySessionReadResult state 0 (finished cachedState) (cursor cachedState).

Definition buildMergedRawTurns (state : ChatTurnStoreState) : list RegistrySessionTurn :=
  let byIndex := foldl (fun m turn => dset m (turn_turnIndex turn) (cloneTurn turn))
                       (@nil (Z * RegistrySessionTurn)) (live state ++ finished state) in
  sortTurns (map snd byIndex).

Definition shouldReadRepairForIncomingTurn (state : ChatTurnStoreState) (incoming : RegistrySessionTurn)
    : option Z :=
  match normalizeTurn incoming with
  | None => None
  | Some turn =>
      let cursorTurnIndex := Z.max 0 (cursor state) in
      if cursorTurnIndex + 1 <? turn_turnIndex turn then Some cursorTurnIndex else None
  end.

Definition mergeRealtimeTurn (state : ChatTurnStoreState) (incoming : RegistrySessionTurn)
    : ChatTurnStoreState :=
  match normalizeTurn incoming with
  | None => state
  | Some turn =>
      if turn_finished turn then
        settleCursor
          {| finished := upsertTurn (finished state) turn;
             live := bfilter (fun item => negb (turn_turnIndex item =? turn_turnIndex turn)) (live state);
             cursor := cursor state |}
      else if negb (some (fun item => turn_turnIndex item =? turn_turnIndex turn) (finished state)) then
        {| finished := finished state; live := upsertTurn (live state) turn; cursor := cursor state |}
      else state
  end.

(** * Lemmas on the list operations *)

Implicit Types (l ts : list RegistrySessionTurn) (t x : RegistrySessionTurn) (st : ChatTurnStoreState).

Lemma cloneTurn_id t : cloneTurn t = t.
Proof. by destruct t. Qed.

Lemma normalizeTurn_valid t : valid_turn t -> normalizeTurn t = Some t.
Proof.
  intros [Hi Hc]. unfold normalizeTurn. apply nonempty_true in Hc. rewrite Hc.
  replace (turn_turnIndex t <=? 0) with false by lia. by destruct t.
Qed.

Lemma normalizeTurn_Some t t' : normalizeTurn t = Some t' <-> t' = t /\ valid_turn t.
Proof.
  split; [|intros [-> Hv]; by apply normalizeTurn_valid].
  unfold normalizeTurn. case_match eqn:E; [done|]. breflect. intros [= <-].
  split; [by destruct t|]. split; [lia|done].
Qed.

Lemma elem_of_omap_normalize l t : t ∈ omap normalizeTurn l <-> t ∈ l /\ valid_turn t.
Proof.
  rewrite list_elem_of_omap. setoid_rewrite normalizeTurn_Some. split.
  - by intros (x & Hx & -> & Hv).
  - intros [Hx Hv]. by exists t.
Qed.

Lemma omap_normalize_valid l : Forall valid_turn l -> omap normalizeTurn l = l.
Proof.
  induction 1 as [|t l Ht _ IH]; [done|]. cbn. rewrite normalizeTurn_valid by done. by rewrite IH.
Qed.

Lemma upsert_raw l t :
  NoDup (indexes l) ->
  exists l', upsertTurn l t = sorted_by_index l' /\ NoDup (indexes l') /\
    forall x, x ∈ l' <-> x = t \/ (x ∈ l /\ turn_index x <> turn_index t).
Proof.
  intros Hnd. unfold upsertTurn, sortTurns. rewrite cloneTurn_id.
  destruct (findIndex _ l) as [i|] eqn:E; eexists; (split; [done|]).
  - apply findIndex_Some in E as (l1 & y & l2 & -> & <- & Hy & _). apply Z.eqb_eq in Hy.
    rewrite insert_app_r_alt, Nat.sub_diag by lia. cbn [insert list_insert].
    unfold indexes in *. rewrite map_app in *. cbn [map] in *.
    replace (turn_index t) with (turn_index y) by done. split; [done|].
    intros x. rewrite !elem_of_app, !elem_of_cons.
    apply NoDup_app in Hnd as (Hn1 & Hdis & Hn2). apply NoDup_cons in Hn2 as [Hy2 Hn2].
    assert (forall x, x ∈ l1 -> turn_index x <> turn_index y).
    { intros z Hz Heq. apply (Hdis (turn_index z)); [apply elem_of_map; eauto | rewrite Heq; left]. }
    assert (forall x, x ∈ l2 -> turn_index x <> turn_index y).
    { intros z Hz Heq. apply Hy2. rewrite <- Heq. apply elem_of_map; eauto. }
    naive_solver.
  - apply findIndex_None in E. rewrite Forall_forall in E.
    assert (forall x, x ∈ l -> turn_index x <> turn_index t) as Hne.
    { intros x Hx. specialize (E x Hx). by apply Z.eqb_neq in E. }
    unfold indexes. rewrite map_app. split.
    + apply NoDup_app. split_and!; [done| |apply NoDup_singleton].
      intros i (x & -> & Hx)%elem_of_map Hi%list_elem_of_singleton. by apply (Hne x).
    + intros x. rewrite elem_of_app, list_elem_of_singleton. naive_solver.
Qed.

Lemma upsertTurn_sorted l t : NoDup (indexes l) -> index_sorted (upsertTurn l t).
Proof. intros (l' & -> & Hnd & _)%(upsert_raw l t). by apply sorted_by_index_sorted. Qed.

Lemma elem_of_upsertTurn l t x :
  NoDup (indexes l) -> x ∈ upsertTurn l t <-> x = t \/ (x ∈ l /\ turn_index x <> turn_index t).
Proof. intros (l' & -> & _ & <-)%(upsert_raw l t). apply elem_of_js_sort. Qed.

#[export] Hint Resolve upsertTurn_sorted index_sorted_NoDup index_sorted_bfilter : js.

(** Storing a list of turns. *)
Lemma foldl_upsert_sorted l ts : index_sorted l -> index_sorted (foldl upsertTurn l ts).
Proof. revert l; induction ts as [|t ts IH]; intros l Hl; simpl; [done|]. auto with js. Qed.

Lemma foldl_upsert_sub l ts x : index_sorted l -> x ∈ foldl upsertTurn l ts -> x ∈ l \/ x ∈ ts.
Proof.
  revert l; induction ts as [|t ts IH]; intros l Hl; simpl; [auto|].
  intros [Hx|Hx]%IH; [| |auto with js].
  - apply elem_of_upsertTurn in Hx; [|auto with js]. rewrite elem_of_cons. naive_solver.
  - rewrite elem_of_cons. auto.
Qed.

Lemma elem_of_foldl_upsert l ts x :
  index_sorted l -> NoDup (indexes ts) ->
  x ∈ foldl upsertTurn l ts <-> x ∈ ts \/ (x ∈ l /\ turn_index x ∉ indexes ts).
Proof.
  revert l; induction ts as [|t ts IH]; intros l Hl; simpl; [set_solver|].
  rewrite NoDup_cons. intros [Ht Hnd]. rewrite IH, elem_of_upsertTurn by auto with js.
  rewrite elem_of_cons, not_elem_of_cons. split; [naive_solver|].
  intros [[->|Hx]|Hx]; [|naive_solver..]. right. split; [by left|done].
Qed.

Lemma storeReadTurns_finished st ts :
  finished (foldl storeReadTurn st ts) = foldl upsertTurn (finished st) (bfilter turn_finished ts).
Proof.
  revert st; induction ts as [|t ts IH]; intros st; simpl; [done|]. rewrite IH.
  unfold storeReadTurn. by destruct (turn_finished t).
Qed.

Lemma storeReadTurns_live st ts :
  live (foldl storeReadTurn st ts) = foldl upsertTurn (live st) (bfilter (fun t => negb (turn_finished t)) ts).
Proof.
  revert st; induction ts as [|t ts IH]; intros st; simpl; [done|]. rewrite IH.
  unfold storeReadTurn. by destruct (turn_finished t).
Qed.

(** * The durable prefix *)

Lemma elem_of_finishedSet l i :
  i ∈ finishedSet l <-> exists t, t ∈ l /\ valid_turn t /\ turn_finished t = true /\ turn_turnIndex t = i.
Proof.
  unfold finishedSet. rewrite elem_of_list_to_set, list_elem_of_omap. split.
  - intros (t & Ht & H). destruct (normalizeTurn t) as [t'|] eqn:E; [|done].
    apply normalizeTurn_Some in E as [-> Hv]. case_match; naive_solver.
  - intros (t & Ht & Hv & Hf & <-). exists t. split; [done|].
    rewrite normalizeTurn_valid, Hf by done. done.
Qed.

Lemma finishedByIndex_sound_aux l m i t :
  foldl indexFinished m l !! i = Some t ->
  m !! i = Some t \/ (t ∈ l /\ valid_turn t /\ turn_finished t = true /\ turn_turnIndex t = i).
Proof.
  revert m; induction l as [|r l IH]; intros m; simpl; [auto|]. intros [H|H]%IH.
  - unfold indexFinished in H. destruct (normalizeTurn r) as [r'|] eqn:E; [|auto]. apply normalizeTurn_Some in E as [-> Hv].
    destruct (turn_finished r) eqn:Hf; [|auto].
    destruct (decide (turn_turnIndex r = i)) as [<-|Hne]; simplify_map_eq; [|auto].
    right. rewrite elem_of_cons. auto.
  - right. rewrite elem_of_cons. naive_solver.
Qed.

Lemma finishedByIndex_sound l i t :
  finishedByIndex l !! i = Some t -> t ∈ l /\ valid_turn t /\ turn_finished t = true /\ turn_turnIndex t = i.
Proof. by intros [?|?]%finishedByIndex_sound_aux. Qed.

Lemma finishedByIndex_total_aux l m i :
  is_Some (m !! i) \/ i ∈ finishedSet l ->
  is_Some (foldl indexFinished m l !! i).
Proof.
  revert m; induction l as [|r l IH]; intros m; simpl.
  - intros [?|H]; [done|]. by apply elem_of_empty in H.
  - intros H. apply IH. rewrite !elem_of_finishedSet in *.
    destruct H as [H|(t & Ht & Hv & Hf & <-)].
    + left. unfold indexFinished. destruct (normalizeTurn r); [|done]. case_match; [|done].
      apply lookup_insert_is_Some'. auto.
    + apply elem_of_cons in Ht as [->|Ht]; [|right; eauto]. left. unfold indexFinished.
      rewrite normalizeTurn_valid, Hf, lookup_insert_eq by done. by eexists.
Qed.

Lemma finishedByIndex_total l i : i ∈ finishedSet l -> is_Some (finishedByIndex l !! i).
Proof. intros H. apply finishedByIndex_total_aux. by right. Qed.

Lemma durableFrom_spec (m : gmap Z RegistrySessionTurn) n a :
  (forall i t, m !! i = Some t -> turn_turnIndex t = i) ->
  (forall i, a <= i < a + Z.of_nat n -> is_Some (m !! i)) ->
  indexes (durableFrom m a n) = seqZ a (Z.of_nat n) /\
  (forall t, t ∈ durableFrom m a n <-> m !! turn_turnIndex t = Some t /\ a <= turn_turnIndex t < a + Z.of_nat n).
Proof.
  intros Hidx. revert a; induction n as [|n IH]; intros a Hdom; simpl.
  - split; [done|]. intros t. split; [by intros ?%not_elem_of_nil|lia].
  - destruct (Hdom a) as [t Ht]; [lia|]. rewrite Ht, cloneTurn_id.
    destruct (IH (a + 1)) as [IH1 IH2]; [intros; apply Hdom; lia|]. split.
    + rewrite seqZ_cons by lia. simpl. change (turn_index t) with (turn_turnIndex t).
      rewrite (Hidx _ _ Ht), IH1. repeat f_equal; lia.
    + intros t'. rewrite elem_of_cons, IH2. split.
      * intros [->|[H1 H2]]; [|split; [done|lia]]. pose proof (Hidx _ _ Ht) as ->. split; [done|lia].
      * intros [H1 H2]. destruct (decide (turn_turnIndex t' = a)) as [E|]; [|right; split; [done|lia]].
        left. rewrite E in H1. congruence.
Qed.

Lemma getFinishedCursor_spec l :
  0 <= getFinishedCursor l /\
  (forall i, 1 <= i <= getFinishedCursor l -> i ∈ finishedSet l) /\
  getFinishedCursor l + 1 ∉ finishedSet l.
Proof.
  unfold getFinishedCursor. destruct (contiguousEnd_spec (finishedSet l) 0) as (H1 & H2 & H3).
  split_and!; [done| |done]. intros i Hi. apply H2. lia.
Qed.

Lemma durablePrefix_spec l :
  let c := getFinishedCursor l in
  indexes (getDurableTurnPrefix l c) = seqZ 1 c /\
  forall t, t ∈ getDurableTurnPrefix l c <->
    finishedByIndex l !! turn_turnIndex t = Some t /\ 1 <= turn_turnIndex t <= c.
Proof.
  intros c. destruct (getFinishedCursor_spec l) as (Hc0 & Hc1 & _). fold c in Hc0, Hc1.
  unfold getDurableTurnPrefix. rewrite Z.max_r by done.
  destruct (durableFrom_spec (finishedByIndex l) (Z.to_nat c) 1) as [H1 H2].
  - intros i t H. by apply finishedByIndex_sound in H as (_ & _ & _ & ?).
  - intros i Hi. apply finishedByIndex_total, Hc1. lia.
  - rewrite H1. split; [by rewrite Z2Nat.id|]. intros t. rewrite H2, Z2Nat.id by done.
    split; intros []; (split; [done|lia]).
Qed.

(** * The invariant of the store *)

Lemma valid_turn_pos t : valid_turn t -> 1 <= turn_index t.
Proof. unfold valid_turn, turn_index, turn_TurnIndexed. lia. Qed.

Record store_wf (st : ChatTurnStoreState) : Prop := {
  wf_cursor : 0 <= cursor st;
  wf_indexes : indexes (finished st) = seqZ 1 (cursor st);
  wf_finished : Forall (fun t => valid_turn t /\ turn_finished t = true) (finished st);
  wf_live_sorted : index_sorted (live st);
  wf_live : Forall (fun t => valid_turn t /\ turn_finished t = false) (live st);
  wf_live_beyond : Forall (fun t => cursor st < turn_index t) (live st);
}.

Lemma index_sorted_seqZ l a n : indexes l = seqZ a n -> index_sorted l.
Proof.
  revert a n; induction l as [|t l IH]; intros a n; [constructor|].
  destruct (decide (0 < n)) as [Hn|Hn]; [|by rewrite seqZ_nil by lia].
  rewrite seqZ_cons by done. simpl. intros [= Ht Hl]. constructor; [by eapply IH|].
  apply Forall_forall. intros x Hx.
  assert (turn_index x ∈ indexes l) as Hin by (apply elem_of_map; eauto).
  rewrite Hl in Hin. apply elem_of_seqZ in Hin. lia.
Qed.

Lemma wf_finished_sorted st : store_wf st -> index_sorted (finished st).
Proof. intros H. eapply index_sorted_seqZ, wf_indexes, H. Qed.

Lemma wf_finished_range st t : store_wf st -> t ∈ finished st -> 1 <= turn_index t <= cursor st.
Proof.
  intros H Ht. assert (turn_index t ∈ indexes (finished st)) as Hi by (apply elem_of_map; eauto).
  rewrite (wf_indexes _ H), elem_of_seqZ in Hi. lia.
Qed.
#[export] Hint Resolve wf_finished_sorted wf_live_sorted foldl_upsert_sorted : js.

Definition stored_finished t : Prop := valid_turn t /\ turn_finished t = true.
Definition stored_live t : Prop := valid_turn t /\ turn_finished t = false.

(** Settling the cursor establishes the invariant when no live turn has the index
    of a finished one. *)
Lemma settle_wf st :
  Forall stored_finished (finished st) -> index_sorted (live st) -> Forall stored_live (live st) ->
  (forall x t, x ∈ live st -> t ∈ finished st -> turn_index x <> turn_index t) ->
  store_wf (settleCursor st).
Proof.
  intros Hf Hs Hl Hdis. destruct (durablePrefix_spec (finished st)) as [Hi Hm].
  destruct (getFinishedCursor_spec (finished st)) as (Hc0 & Hc1 & _).
  unfold settleCursor. constructor; cbn [finished live cursor]; [done..| |done|done|].
  - apply Forall_forall. intros t (H & _)%Hm.
    by apply finishedByIndex_sound in H as (_ & ? & ? & _).
  - rewrite Forall_forall in Hl |- *. intros x Hx. destruct (Hl x Hx) as [Hv _].
    apply Z.nle_gt. intros Hle.
    assert (turn_index x ∈ finishedSet (finished st)) as (t & Ht & _ & _ & E)%elem_of_finishedSet.
    { apply Hc1. split; [by apply valid_turn_pos|done]. }
    by apply (Hdis x t).
Qed.

(** Settling keeps exactly the finished turns up to the new cursor. *)
Lemma settle_finished st t :
  Forall stored_finished (finished st) -> NoDup (indexes (finished st)) ->
  t ∈ finished (settleCursor st) <-> t ∈ finished st /\ turn_index t <= cursor (settleCursor st).
Proof.
  intros Hf Hnd. destruct (durablePrefix_spec (finished st)) as [_ Hm].
  unfold settleCursor; cbn [finished cursor]. rewrite Hm. split.
  - intros [(Ht & _)%finishedByIndex_sound Hr]. split; [done|apply Hr].
  - rewrite Forall_forall in Hf. intros [Ht Hr]. destruct (Hf t Ht) as [[Hpos Hc] Hfin].
    destruct (finishedByIndex_total (finished st) (turn_turnIndex t)) as [t' Ht'].
    { apply elem_of_finishedSet. exists t. split_and!; done. }
    split; [|unfold turn_index, turn_TurnIndexed in Hr; lia]. rewrite Ht'. f_equal.
    apply finishedByIndex_sound in Ht' as (Hin' & _ & _ & E).
    assert (at_index (finished st) (turn_index t) = Some t') as H1 by by apply at_index_Some.
    assert (at_index (finished st) (turn_index t) = Some t) as H2 by by apply at_index_Some.
    congruence.
Qed.

Lemma createEmpty_wf : store_wf createEmptyChatTurnStore.
Proof. constructor; simpl; done || constructor. Qed.

Lemma mergeRealtimeTurn_wf st t : store_wf st -> store_wf (mergeRealtimeTurn st t).
Proof.
  intros H. unfold mergeRealtimeTurn. destruct (normalizeTurn t) as [t'|] eqn:E; [|done].
  apply normalizeTurn_Some in E as [-> Hv]. destruct (turn_finished t) eqn:Hf.
  - apply settle_wf; cbn [finished live].
    + apply Forall_forall. intros x. rewrite elem_of_upsertTurn by auto with js.
      pose proof (wf_finished _ H) as Hfin. rewrite Forall_forall in Hfin.
      intros [->|[Hx _]]; [done|by apply Hfin].
    + auto with js.
    + apply Forall_forall. intros x [Hx _]%elem_of_bfilter.
      pose proof (wf_live _ H) as Hl. rewrite Forall_forall in Hl. by apply Hl.
    + intros x y [Hx Hne]%elem_of_bfilter. rewrite elem_of_upsertTurn by auto with js. breflect.
      apply Z.eqb_neq in Hne. intros [->|[Hy _]]; [done|].
      pose proof (wf_finished_range _ _ H Hy). pose proof (wf_live_beyond _ H) as Hb.
      rewrite Forall_forall in Hb. specialize (Hb x Hx). simpl in Hb. lia.
  - destruct (some _ (finished st)) eqn:Hsome; simpl; [done|].
    apply some_false in Hsome. rewrite Forall_forall in Hsome.
    assert (cursor st < turn_index t) as Hgt.
    { apply Z.nle_gt. intros Hle. pose proof (valid_turn_pos t Hv).
      assert (turn_index t ∈ indexes (finished st)) as (x & Ex & Hx)%elem_of_map.
      { rewrite (wf_indexes _ H). apply elem_of_seqZ. lia. }
      specialize (Hsome x Hx). apply Z.eqb_neq in Hsome. by apply Hsome. }
    destruct H as [H1 H2 H3 H4 H5 H6]. constructor; cbn [finished live cursor]; [done..|auto with js| |].
    all: rewrite Forall_forall in *; intros x; rewrite elem_of_upsertTurn by auto with js.
    + intros [->|[Hx _]]; [done|by apply H5].
    + intros [->|[Hx _]]; [done|by apply H6].
Qed.

(** The server's rule for [session.read]: distinct turns, all inside the range
    [after < index <= latest] that was asked for. *)
Definition response_in_range (after latest : Z) (turns : list RegistrySessionTurn) : Prop :=
  NoDup (indexes turns) /\
  Forall (fun t => Z.max 0 after < turn_index t <= Z.max (Z.max 0 after) latest) turns.

Lemma response_normalized after latest turns :
  response_in_range after latest turns ->
  response_in_range after latest (sortTurns (omap normalizeTurn turns)) /\
  Forall valid_turn (sortTurns (omap normalizeTurn turns)).
Proof.
  intros [Hnd Hr]. unfold sortTurns, sorted_by_index, response_in_range.
  assert (omap normalizeTurn turns `sublist_of` turns) as Hsub.
  { induction turns as [|t l IH]; cbn; [done|]. apply NoDup_cons in Hnd as [_ Hnd].
    apply Forall_cons in Hr as [_ Hr]. destruct (normalizeTurn t) as [t'|] eqn:E.
    - apply normalizeTurn_Some in E as [-> _]. constructor. auto.
    - constructor. auto. }
  split; [split|].
  - assert (indexes (js_sort (by_key turn_index) (omap normalizeTurn turns)) ≡ₚ indexes (omap normalizeTurn turns)) as ->
      by apply Permutation_map, js_sort_perm.
    eapply sublist_NoDup; [exact Hnd|]. by apply (fmap_sublist turn_index).
  - rewrite js_sort_perm. rewrite Forall_forall in Hr |- *. intros t [Ht _]%elem_of_omap_normalize. auto.
  - rewrite js_sort_perm. apply Forall_forall. by intros t [_ Ht]%elem_of_omap_normalize.
Qed.

Lemma bfilter_stored ts p :
  Forall valid_turn ts ->
  Forall (fun t => valid_turn t /\ p t = true) (bfilter p ts).
Proof. rewrite !Forall_forall. intros H t [Ht Hp]%elem_of_bfilter. auto. Qed.

(** The state whose cursor is settled, before settling. *)
Definition read_stored (st : ChatTurnStoreState) (after latest : Z) (ts : list RegistrySessionTurn) :=
  foldl storeReadTurn
    {| finished := bfilter (outsideRead after latest) (finished st);
       live := bfilter (outsideRead after latest) (live st); cursor := cursor st |} ts.

Lemma elem_of_read_stored st after latest ts t :
  store_wf st -> NoDup (indexes ts) ->
  t ∈ finished (read_stored st after latest ts) <->
  (t ∈ ts /\ turn_finished t = true) \/
  (t ∈ finished st /\ outsideRead after latest t = true /\
   turn_index t ∉ indexes (bfilter turn_finished ts)).
Proof.
  intros Hwf Hnd. unfold read_stored. rewrite storeReadTurns_finished. cbn [finished].
  rewrite elem_of_foldl_upsert by (auto with js; by apply NoDup_map_bfilter).
  rewrite !elem_of_bfilter. naive_solver.
Qed.

Lemma read_stored_settles st after latest ts :
  store_wf st -> NoDup (indexes ts) -> Forall valid_turn ts ->
  Forall (fun t => after < turn_index t <= latest) ts ->
  Forall stored_finished (finished (read_stored st after latest ts)) /\
  store_wf (settleCursor (read_stored st after latest ts)).
Proof.
  intros Hwf Hnd Hv Hr. rewrite Forall_forall in Hv, Hr.
  pose proof (wf_finished _ Hwf) as Hfin. rewrite Forall_forall in Hfin.
  pose proof (wf_live _ Hwf) as Hlv. rewrite Forall_forall in Hlv.
  pose proof (wf_live_beyond _ Hwf) as Hb. rewrite Forall_forall in Hb.
  assert (Forall stored_finished (finished (read_stored st after latest ts))) as Hsf.
  { apply Forall_forall. intros t [[Ht Hf]|(Ht & _)]%elem_of_read_stored; [|by apply Hfin|done..].
    split; auto. }
  split; [done|].
  assert (forall x, x ∈ live (read_stored st after latest ts) <->
    (x ∈ ts /\ turn_finished x = false) \/ (x ∈ live st /\ outsideRead after latest x = true /\
      turn_index x ∉ indexes (bfilter (fun t => negb (turn_finished t)) ts))) as Hlive.
  { intros x. unfold read_stored. rewrite storeReadTurns_live. cbn [live].
    rewrite elem_of_foldl_upsert by (auto with js; by apply NoDup_map_bfilter).
    rewrite !elem_of_bfilter, negb_true_iff. naive_solver. }
  apply settle_wf; [done| | |].
  - unfold read_stored. rewrite storeReadTurns_live. cbn [live]. auto with js.
  - apply Forall_forall. intros x [[Hx Hf]|(Hx & _)]%Hlive; [split; auto|by apply Hlv].
  - assert (forall x, x ∈ ts -> outsideRead after latest x = false) as Hout.
    { intros x Hx. specialize (Hr x Hx). unfold outsideRead. apply orb_false_iff.
      unfold turn_index, turn_TurnIndexed in Hr. lia. }
    intros x t Hx Ht E. apply Hlive in Hx. apply elem_of_read_stored in Ht; [|done..].
    assert (forall a b, turn_index a = turn_index b -> outsideRead after latest a = outsideRead after latest b) as Hcong.
    { intros a b Eab. unfold outsideRead. by unfold turn_index, turn_TurnIndexed in Eab; rewrite Eab. }
    specialize (Hcong x t E).
    destruct Hx as [[Hx Hxf]|(Hx & Hxo & _)], Ht as [[Ht Htf]|(Ht & Hto & _)].
    + assert (x = t); [|congruence].
      assert (at_index ts (turn_index t) = Some x) as H1 by by apply at_index_Some.
      assert (at_index ts (turn_index t) = Some t) as H2 by by apply at_index_Some. congruence.
    + rewrite (Hout x Hx) in Hcong. congruence.
    + rewrite (Hout t Ht) in Hcong. congruence.
    + pose proof (wf_finished_range _ _ Hwf Ht). specialize (Hb x Hx). simpl in Hb. lia.
Qed.

Lemma resetChatTurnStore_wf st : store_wf (resetChatTurnStore st).
Proof. apply createEmpty_wf. Qed.

Lemma applySessionReadResult_wf st after turns latest st' :
  store_wf st -> response_in_range after latest turns ->
  applySessionReadResult st after turns latest = Some st' -> store_wf st'.
Proof.
  intros Hwf Hr. unfold applySessionReadResult.
  destruct (isStaleSessionReadResult _ _); [intros [= <-]; apply resetChatTurnStore_wf|].
  case_match; [done|]. intros [= <-].
  destruct (response_normalized _ _ _ Hr) as [[Hnd Hr'] Hv]. by apply read_stored_settles.
Qed.

(** Hydration from any cached turns. *)
Lemma finished_all_sorted ts : Forall (fun t => turn_finished t = true) ts -> unfinishedOnlyLast ts = true.
Proof.
  induction 1 as [|t ts Ht Hts IH]; [done|]. simpl. rewrite Ht, IH. by destruct ts.
Qed.

Lemma hydrate_wf turns : store_wf (hydrateFinishedStore turns).
Proof.
  unfold hydrateFinishedStore. set (n := sortTurns _).
  destruct (durablePrefix_spec n) as [Hi Hm]. destruct (getFinishedCursor_spec n) as (Hc & _).
  constructor; cbn [finished live cursor]; [done..| |constructor|done|done].
  apply Forall_forall. intros t (H & _)%Hm. apply finishedByIndex_sound in H. naive_solver.
Qed.

Lemma hydrate_response turns :
  response_in_range 0 (cursor (hydrateFinishedStore turns)) (finished (hydrateFinishedStore turns)).
Proof.
  pose proof (hydrate_wf turns) as H. split; [auto with js|].
  apply Forall_forall. intros t Ht. pose proof (wf_finished_range _ _ H Ht). lia.
Qed.

Lemma wf_finished_normalized st : store_wf st -> sortTurns (omap normalizeTurn (finished st)) = finished st.
Proof.
  intros H. rewrite omap_normalize_valid; [by apply sorted_by_index_id; auto with js|].
  eapply Forall_impl; [exact (wf_finished _ H)|]. by intros t [? _].
Qed.

Lemma stale_zero latest : isStaleSessionReadResult 0 latest = false.
Proof. done. Qed.

(** Merging a cached prefix never throws. *)
Lemma mergeCachedTurnPrefix_total st turns : is_Some (mergeCachedTurnPrefix st turns).
Proof.
  unfold mergeCachedTurnPrefix. case_match; [by eexists|].
  unfold applySessionReadResult. rewrite stale_zero, wf_finished_normalized by apply hydrate_wf.
  rewrite finished_all_sorted; [by eexists|].
  eapply Forall_impl; [exact (wf_finished _ (hydrate_wf turns))|]. by intros t [_ ?].
Qed.

Lemma mergeCachedTurnPrefix_wf st turns st' :
  store_wf st -> mergeCachedTurnPrefix st turns = Some st' -> store_wf st'.
Proof.
  intros Hwf. unfold mergeCachedTurnPrefix. case_match; [by intros [= <-]|].
  apply applySessionReadResult_wf; [done|]. apply hydrate_response.
Qed.

(** What the calls of the source can do to a store. *)
Inductive store_step : ChatTurnStoreState -> ChatTurnStoreState -> Prop :=
  | step_realtime st t : store_step st (mergeRealtimeTurn st t)
  | step_read st after turns latest st' :
      response_in_range after latest turns ->
      applySessionReadResult st after turns latest = Some st' -> store_step st st'
  | step_cached st turns st' : mergeCachedTurnPrefix st turns = Some st' -> store_step st st'
  | step_hydrate st turns : store_step st (hydrateFinishedStore turns)
  | step_reset st : store_step st (resetChatTurnStore st).

Lemma store_step_wf st st' : store_wf st -> store_step st st' -> store_wf st'.
Proof.
  intros Hwf Hs. destruct Hs; [by apply mergeRealtimeTurn_wf | by eapply applySessionReadResult_wf
    | by eapply mergeCachedTurnPrefix_wf | apply hydrate_wf | apply resetChatTurnStore_wf].
Qed.
#[export] Hint Resolve createEmpty_wf store_step_wf : js.

(** The invariant of the turn cache: after any sequence of realtime turns, read
    results in the range asked for, cache merges, hydrations and resets, the
    finished turns are exactly those with indexes 1, 2, ..., cursor, all finished
    and non-empty, and the live turns are unfinished, in strict index order and all
    beyond the cursor. *)
Theorem store_reachable_wf st :
  star store_step createEmptyChatTurnStore st -> store_wf st.
Proof. intros H. eapply star_invariant; eauto with js. Qed.

Definition sample_turn (i : Z) (done : bool) : RegistrySessionTurn :=
  {| turn_turnIndex := i; turn_content := "x"; turn_finished := done |}.

Lemma store_reachable_wf_witness :
  let st := mergeRealtimeTurn (mergeRealtimeTurn createEmptyChatTurnStore (sample_turn 1 true)) (sample_turn 3 false) in
  cursor st = 1 /\ store_wf st.
Proof.
  split; [reflexivity|]. apply store_reachable_wf.
  eapply star_step; [eapply star_step; [apply star_refl|apply step_realtime]|apply step_realtime].
Defined.

Lemma read_accepted st after turns latest :
  Z.max 0 after <= latest ->
  unfinishedOnlyLast (sortTurns (omap normalizeTurn turns)) = true ->
  applySessionReadResult st after turns latest =
    Some (settleCursor (read_stored st (Z.max 0 after) latest (sortTurns (omap normalizeTurn turns)))).
Proof.
  intros Hle Hu. unfold applySessionReadResult.
  assert (isStaleSessionReadResult (Z.max 0 after) (of_Z latest) = false) as ->.
  { unfold isStaleSessionReadResult, of_Z; cbv zeta iota beta. rewrite trunc_inject.
    apply andb_false_iff. right. lia. }
  cbv zeta. rewrite Hu. cbn [negb]. rewrite (Z.max_r _ latest) by done. done.
Qed.

(** For a well-formed store the merged view [buildMergedRawTurns] is the finished
    prefix followed by the live turns: no turn appears twice and none is lost. *)
Theorem merged_view_is_append st :
  store_wf st -> buildMergedRawTurns st = finished st ++ live st.
Proof.
  intros H. unfold buildMergedRawTurns, sortTurns.
  assert (NoDup (indexes (live st ++ finished st))) as Hnd.
  { unfold indexes. rewrite map_app. apply NoDup_app. split_and!; [apply index_sorted_NoDup; auto with js| |apply index_sorted_NoDup; auto with js].
    intros i (x & -> & Hx)%elem_of_map (y & E & Hy)%elem_of_map.
    pose proof (wf_finished_range _ _ H Hy). pose proof (wf_live_beyond _ H) as Hb.
    rewrite Forall_forall in Hb. specialize (Hb x Hx). simpl in Hb. lia. }
  assert (forall l (m : list (Z * RegistrySessionTurn)), NoDup (dkeys m ++ indexes l) ->
    foldl (fun m turn => dset m (turn_turnIndex turn) (cloneTurn turn)) m l =
    m ++ map (fun t => (turn_turnIndex t, t)) l) as Hfold.
  { induction l as [|t l IH]; intros m Hm; simpl; [by rewrite app_nil_r|].
    assert (dset m (turn_turnIndex t) (cloneTurn t) = m ++ [(turn_turnIndex t, t)]) as Hd.
    { rewrite cloneTurn_id. apply dset_fresh. intros Hin. apply NoDup_app in Hm as (_ & Hm & _).
      by apply (Hm _ Hin); left. }
    rewrite Hd, IH, <- app_assoc; [done|]. unfold dkeys in *. rewrite map_app, <- app_assoc. done. }
  rewrite Hfold by done. simpl. rewrite map_map, map_id.
  apply index_sorted_ext; [by apply sorted_by_index_sorted| |].
  - assert (forall l1 l2, index_sorted l1 -> index_sorted l2 ->
      (forall x y, x ∈ l1 -> y ∈ l2 -> turn_index x < turn_index y) -> index_sorted (l1 ++ l2)) as Happ.
    { intros l1 l2 H1 H2. induction H1 as [|x l Hl IH Hx]; intros Hlt; [done|].
      cbn [app]. constructor; [apply IH; intros; apply Hlt; [by right|done]|].
      rewrite Forall_app. split; [done|]. apply Forall_forall. intros y Hy. apply Hlt; [by left|done]. }
    apply Happ; [auto with js..|]. intros x y Hx Hy.
    pose proof (wf_finished_range _ _ H Hx). pose proof (wf_live_beyond _ H) as Hb.
    rewrite Forall_forall in Hb. specialize (Hb y Hy). simpl in Hb. lia.
  - intros x. unfold sorted_by_index. rewrite elem_of_js_sort, !elem_of_app. tauto.
Qed.

Lemma merged_view_is_append_witness :
  let st := {| finished := [sample_turn 1 true]; live := [sample_turn 4 false]; cursor := 1 |} in
  buildMergedRawTurns st = [sample_turn 1 true; sample_turn 4 false].
Proof. apply merged_view_is_append. by repeat constructor. Defined.

(** * The store as a replica of the session *)

(** The hub publishes a turn again, under its index, when its content changes: a tool call
    and a plan are finished from the first and are published anew with each status.  So a
    turn has versions, and nothing is assumed of them.  [replica arrivals st]: a store that
    has been given these turns, in this order. *)
Inductive replica : list RegistrySessionTurn -> ChatTurnStoreState -> Prop :=
  | replica_empty : replica [] createEmptyChatTurnStore
  | replica_realtime arrivals st t : replica arrivals st -> replica (arrivals ++ [t]) (mergeRealtimeTurn st t)
  | replica_read arrivals st after turns latest st' :
      replica arrivals st -> response_in_range after latest turns ->
      applySessionReadResult st after turns latest = Some st' -> replica (arrivals ++ turns) st'
  | replica_cached arrivals st turns st' :
      replica arrivals st -> mergeCachedTurnPrefix st turns = Some st' ->
      replica (arrivals ++ finished (hydrateFinishedStore turns)) st'
  | replica_reset arrivals st : replica arrivals st -> replica arrivals (resetChatTurnStore st).

(** The last finished version of a turn among those that arrived. *)
Definition is_version (i : Z) (t : RegistrySessionTurn) : bool :=
  turn_finished t && negb (bool_decide (normalizeTurn t = None)) && (turn_turnIndex t =? i).
Definition newest (arrivals : list RegistrySessionTurn) (i : Z) : option RegistrySessionTurn := last (bfilter (is_version i) arrivals).

Lemma is_version_true i t : is_version i t = true <-> stored_finished t /\ turn_index t = i.
Proof.
  unfold is_version, stored_finished. rewrite !andb_true_iff, Z.eqb_eq, negb_true_iff, bool_decide_eq_false. split.
  - intros [[Hf Hn] <-]. destruct (normalizeTurn t) eqn:E; [|done]. by apply normalizeTurn_Some in E as [_ Hv].
  - intros [[Hv Hf] <-]. by rewrite normalizeTurn_valid.
Qed.

Lemma newest_app a b i : newest (a ++ b) i = match newest b i with Some t => Some t | None => newest a i end.
Proof. unfold newest. by rewrite bfilter_app, last_app. Qed.

Lemma newest_None l i : (forall t, t ∈ l -> is_version i t = false) -> newest l i = None.
Proof.
  intros H. unfold newest. destruct (bfilter _ l) as [|x k] eqn:E; [done|].
  assert (x ∈ bfilter (is_version i) l) as [Hx Hv]%elem_of_bfilter by (rewrite E; left). by rewrite H in Hv.
Qed.

Lemma newest_only l t : NoDup (indexes l) -> t ∈ l -> stored_finished t -> newest l (turn_index t) = Some t.
Proof.
  intros Hnd Ht Hs. unfold newest. destruct (last _) as [x|] eqn:E.
  - apply last_Some_elem_of in E as [Hx [_ Hi]%is_version_true]%elem_of_bfilter. f_equal.
    assert (at_index l (turn_index t) = Some x) as H1 by by apply at_index_Some.
    assert (at_index l (turn_index t) = Some t) as H2 by by apply at_index_Some. congruence.
  - apply last_None in E. assert (t ∈ bfilter (is_version (turn_index t)) l) as H
      by (apply elem_of_bfilter; split; [done|by apply is_version_true]). by rewrite E in H; apply not_elem_of_nil in H.
Qed.

Definition holds_newest (arrivals : list RegistrySessionTurn) (st : ChatTurnStoreState) : Prop :=
  store_wf st /\ Forall (fun t => newest arrivals (turn_index t) = Some t) (finished st).

Lemma realtime_newest arrivals st t : holds_newest arrivals st -> holds_newest (arrivals ++ [t]) (mergeRealtimeTurn st t).
Proof.
  intros [Hwf Hn]. split; [by apply mergeRealtimeTurn_wf|]. rewrite Forall_forall in Hn.
  destruct (decide (stored_finished t)) as [Hs|Hs].
  - destruct (id Hs) as [Hv Hf]. unfold mergeRealtimeTurn. rewrite normalizeTurn_valid, Hf by done.
    pose proof (wf_finished _ Hwf) as Hfin. rewrite Forall_forall in Hfin.
    apply Forall_forall. intros x Hx. apply settle_finished in Hx as [Hx _]; cbn [finished] in *.
    + rewrite newest_app. apply elem_of_upsertTurn in Hx as [->|[Hx Hne]]; [|rewrite newest_None; [by apply Hn|]|auto with js].
      * rewrite newest_only; [done|apply NoDup_singleton|by left|done].
      * intros y ->%list_elem_of_singleton. apply not_true_iff_false. rewrite is_version_true. by intros [_ ?].
    + apply Forall_forall. intros y. rewrite elem_of_upsertTurn by auto with js. intros [->|[Hy _]]; [done|by apply Hfin].
    + auto with js.
  - assert (finished (mergeRealtimeTurn st t) = finished st) as ->.
    { unfold mergeRealtimeTurn. destruct (normalizeTurn t) as [t'|] eqn:E; [|done]. apply normalizeTurn_Some in E as [-> Hv].
      destruct (turn_finished t) eqn:Hf; [by destruct Hs|]. by case_match. }
    apply Forall_forall. intros x Hx. rewrite newest_app, newest_None; [by apply Hn|].
    intros y ->%list_elem_of_singleton. apply not_true_iff_false. rewrite is_version_true. by intros [? _].
Qed.

Lemma read_newest arrivals st after turns latest st' :
  holds_newest arrivals st -> response_in_range after latest turns ->
  applySessionReadResult st after turns latest = Some st' -> holds_newest (arrivals ++ turns) st'.
Proof.
  intros [Hwf Hn] Hr Happ. split; [by eapply applySessionReadResult_wf|]. revert Happ. unfold applySessionReadResult.
  destruct (isStaleSessionReadResult _ _); [by intros [= <-]; constructor|]. case_match; [done|]. intros [= <-].
  destruct (response_normalized _ _ _ Hr) as [[Hnd Hr'] Hv]. rewrite Forall_forall in Hn.
  change (foldl storeReadTurn _ _) with (read_stored st (Z.max 0 after) (Z.max (Z.max 0 after) latest) (sortTurns (omap normalizeTurn turns))).
  destruct (read_stored_settles st (Z.max 0 after) (Z.max (Z.max 0 after) latest) (sortTurns (omap normalizeTurn turns))) as [Hsf _]; [done..|].
  assert (forall x, x ∈ sortTurns (omap normalizeTurn turns) <-> x ∈ turns /\ valid_turn x) as Hin.
  { intros x. unfold sortTurns, sorted_by_index. by rewrite elem_of_js_sort, elem_of_omap_normalize. }
  apply Forall_forall. intros x Hx. apply settle_finished in Hx as [Hx _]; [|done|].
  2:{ unfold read_stored. rewrite storeReadTurns_finished. cbn [finished]. auto with js. }
  rewrite newest_app. apply elem_of_read_stored in Hx as [[Hx Hf]|(Hx & _ & Hno)]; [| |done..].
  - apply Hin in Hx as [Hx Hvx]. rewrite newest_only; [done|apply Hr|done|done].
  - rewrite newest_None; [by apply Hn|]. intros y Hy. apply not_true_iff_false. rewrite is_version_true. intros [[Hvy Hfy] E].
    apply Hno. rewrite <- E. apply elem_of_map. exists y. split; [done|]. apply elem_of_bfilter. split; [by apply Hin|done].
Qed.

Lemma replica_newest arrivals st : replica arrivals st -> holds_newest arrivals st.
Proof.
  induction 1 as [|arrivals st t _ IH|arrivals st after turns latest st' _ IH Hr Ha|arrivals st turns st' _ IH Hc|arrivals st _ IH].
  - split; [apply createEmpty_wf|constructor].
  - by apply realtime_newest.
  - by eapply read_newest.
  - unfold mergeCachedTurnPrefix in Hc. destruct (cursor (hydrateFinishedStore turns) <=? 0) eqn:E.
    + injection Hc as <-. pose proof (wf_indexes _ (hydrate_wf turns)) as Hi. rewrite seqZ_nil in Hi by lia.
      destruct (finished (hydrateFinishedStore turns)); [by rewrite app_nil_r|done].
    + eapply read_newest; [exact IH|apply hydrate_response|exact Hc].
  - split; [apply resetChatTurnStore_wf|constructor].
Qed.

(** A list of turns indexed from 1 whose turns are the newest is the list of the newest. *)
Lemma newest_list arrivals l a n :
  indexes l = seqZ a n -> Forall (fun t => newest arrivals (turn_index t) = Some t) l -> l = omap (newest arrivals) (seqZ a n).
Proof.
  intros <- H. induction H as [|t l Ht _ IH]; [done|]. cbn. rewrite Ht. by f_equal.
Qed.

(** * A transcript that is read *)

Section log.
(** The finished turns of the hub's transcript at one time: 1, 2, ..., in some version. *)
Variable log : list RegistrySessionTurn.
Definition log_ok : Prop :=
  indexes log = seqZ 1 (Z.of_nat (length log)) /\ Forall stored_finished log.
Hypothesis Hlog : log_ok.

Lemma log_index i t : log !! i = Some t -> turn_index t = 1 + Z.of_nat i.
Proof.
  intros H. destruct Hlog as [Hi _].
  assert (indexes log !! i = Some (turn_index t)) as Hti by (unfold indexes; by rewrite (list_lookup_fmap turn_index), H).
  rewrite Hi in Hti. apply lookup_seqZ in Hti. lia.
Qed.

Lemma log_sorted : index_sorted log.
Proof. eapply index_sorted_seqZ, (proj1 Hlog). Qed.

Lemma log_index_le t : t ∈ log -> turn_index t <= Z.of_nat (length log).
Proof.
  intros [i Ht]%list_elem_of_lookup. pose proof (lookup_lt_Some _ _ _ Ht). apply log_index in Ht. lia.
Qed.

Lemma elem_of_drop_log after t :
  0 <= after -> t ∈ drop (Z.to_nat after) log <-> t ∈ log /\ after < turn_index t.
Proof.
  intros Ha. rewrite !list_elem_of_lookup. split.
  - intros [i Ht]. rewrite lookup_drop in Ht. split; [eauto|]. apply log_index in Ht. lia.
  - intros [[i Ht] Hlt]. exists (i - Z.to_nat after)%nat. rewrite lookup_drop.
    rewrite <- Ht. f_equal. apply log_index in Ht. lia.
Qed.

Lemma drop_log_sorted n : index_sorted (drop n log).
Proof. apply drop_sorted, log_sorted. Qed.

(** The answer to [session.read] after [after]: the rest of the transcript. *)
Lemma drop_log_response after :
  0 <= after -> response_in_range after (Z.of_nat (length log)) (drop (Z.to_nat after) log).
Proof.
  intros Ha. split; [apply index_sorted_NoDup, drop_log_sorted|].
  apply Forall_forall. intros t [Ht Hlt]%elem_of_drop_log; [|done]. apply log_index_le in Ht. lia.
Qed.

Lemma drop_log_stored n : Forall stored_finished (drop n log).
Proof. apply Forall_drop, Hlog. Qed.

Lemma drop_log_normalized n : sortTurns (omap normalizeTurn (drop n log)) = drop n log.
Proof.
  rewrite omap_normalize_valid; [apply sorted_by_index_id, drop_log_sorted|].
  eapply Forall_impl; [apply drop_log_stored|]. by intros ? [? _].
Qed.

Lemma full_log_cursor st : (forall t, t ∈ finished st <-> t ∈ log) ->
  cursor (settleCursor st) = Z.of_nat (length log).
Proof.
  intros Hst. unfold settleCursor, getFinishedCursor; cbn [cursor].
  assert (forall k, k ∈ finishedSet (finished st) <-> 1 <= k <= Z.of_nat (length log)) as Hset.
  { intros k. rewrite elem_of_finishedSet. setoid_rewrite Hst. split.
    - intros (t & Ht & Hv & Hf & <-). split; [by apply valid_turn_pos|by apply log_index_le].
    - intros Hk. destruct Hlog as [Hi Hall]. rewrite Forall_forall in Hall.
      assert (k ∈ indexes log) as (t & -> & Ht)%elem_of_map by (rewrite Hi, elem_of_seqZ; lia).
      exists t. destruct (Hall t Ht). by split_and!. }
  apply contiguousEnd_unique; [lia| |rewrite Hset; lia]. intros k Hk. apply Hset. lia.
Qed.

(** A store whose finished turns are those of a transcript settles on it. *)
Lemma settle_log st : NoDup (indexes (finished st)) -> (forall t, t ∈ finished st <-> t ∈ log) ->
  finished (settleCursor st) = log /\ cursor (settleCursor st) = Z.of_nat (length log).
Proof.
  intros Hnd Hst. pose proof (full_log_cursor st Hst) as Hc. split; [|done].
  destruct (durablePrefix_spec (finished st)) as [Hi _]. apply index_sorted_ext; [by eapply index_sorted_seqZ|apply log_sorted|].
  intros t. rewrite settle_finished, Hc, Hst; [|apply Forall_forall; intros x Hx%Hst; pose proof (proj2 Hlog) as Ha; rewrite Forall_forall in Ha; auto|done].
  split; [by intros []|]. intros Ht. split; [done|by apply log_index_le].
Qed.
End log.

(** What a store has up to its cursor, and a transcript after it, make a transcript. *)
Lemma joined_log st log : store_wf st -> log_ok log -> cursor st <= Z.of_nat (length log) ->
  log_ok (finished st ++ drop (Z.to_nat (cursor st)) log) /\
  length (finished st ++ drop (Z.to_nat (cursor st)) log) = length log.
Proof.
  intros Hwf Hlog Hc. pose proof (wf_cursor _ Hwf) as H0. pose proof (wf_indexes _ Hwf) as Hi.
  assert (length (finished st) = Z.to_nat (cursor st)) as Hl by (rewrite <- (length_seqZ 1 (cursor st)), <- Hi; unfold indexes; by rewrite length_map).
  assert (length (finished st ++ drop (Z.to_nat (cursor st)) log) = length log) as E by (rewrite length_app, length_drop; lia).
  split; [|done]. split.
  - rewrite E. assert (indexes (take (Z.to_nat (cursor st)) log) ++ indexes (drop (Z.to_nat (cursor st)) log)
      = seqZ 1 (cursor st) ++ seqZ (1 + cursor st) (Z.of_nat (length log) - cursor st)) as Hs.
    { unfold indexes. rewrite <- map_app, take_drop, <- seqZ_app by lia. rewrite Zplus_minus. apply Hlog. }
    apply app_inj_1 in Hs as [_ Hs]; [|unfold indexes; rewrite length_map, length_take, length_seqZ; lia].
    unfold indexes in *. rewrite map_app, Hi, Hs, <- seqZ_app by lia. by rewrite Zplus_minus.
  - apply Forall_app. split; [apply Hwf|]. by apply drop_log_stored.
Qed.

(** Storing the answer to a read after the cursor. *)
Lemma elem_of_read_after st (log : list RegistrySessionTurn) ts t : store_wf st -> index_sorted ts ->
  (forall x, x ∈ ts -> cursor st < turn_index x) ->
  t ∈ finished (read_stored st (cursor st) (Z.of_nat (length log)) ts) <-> t ∈ finished st ++ bfilter turn_finished ts.
Proof.
  intros Hwf Hts Hb. rewrite elem_of_read_stored, elem_of_app, elem_of_bfilter by auto with js. split; [tauto|].
  intros [Ht|Ht]; [right|by left]. pose proof (wf_finished_range _ _ Hwf Ht). split_and!; [done| |].
  - unfold outsideRead, turn_index, turn_TurnIndexed in *. apply orb_true_iff. left. lia.
  - intros (x & E & [Hx _]%elem_of_bfilter)%elem_of_map. specialize (Hb x Hx). lia.
Qed.

Lemma bfilter_stored_all l : Forall stored_finished l -> bfilter turn_finished l = l.
Proof. induction 1 as [|t l [_ Hf] _ IH]; [done|]. cbn. rewrite Hf. cbn. by rewrite IH. Qed.

Lemma read_after_cursor st log : store_wf st -> log_ok log -> cursor st <= Z.of_nat (length log) ->
  exists st', applySessionReadResult st (cursor st) (drop (Z.to_nat (cursor st)) log) (Z.of_nat (length log)) = Some st' /\
    finished st' = finished st ++ drop (Z.to_nat (cursor st)) log /\ cursor st' = Z.of_nat (length log).
Proof.
  intros Hwf Hlog Hc. pose proof (wf_cursor _ Hwf) as H0. destruct (joined_log st log Hwf Hlog Hc) as [Hj Hl].
  assert (bfilter turn_finished (drop (Z.to_nat (cursor st)) log) = drop (Z.to_nat (cursor st)) log) as Hd.
  { apply bfilter_stored_all. by apply drop_log_stored. }
  eexists. split.
  { rewrite read_accepted, drop_log_normalized; [reflexivity|done|lia|]. rewrite drop_log_normalized by done.
    apply finished_all_sorted. eapply Forall_impl; [by apply drop_log_stored|]. by intros ? [_ ?]. }
  rewrite Z.max_r by done.
  destruct (settle_log _ Hj (read_stored st (cursor st) (Z.of_nat (length log)) (drop (Z.to_nat (cursor st)) log))) as [-> ->].
  - unfold read_stored. rewrite storeReadTurns_finished. cbn [finished]. apply index_sorted_NoDup. auto with js.
  - intros t. rewrite elem_of_read_after; [by rewrite Hd|done|by apply drop_log_sorted|]. by intros x [_ ?]%elem_of_drop_log.
  - by rewrite Hl.
Qed.

(** C1. Consistent prefix.  Whatever turns arrive by realtime events, reads and caches, in
    whatever order, with repetitions, with partial (unfinished) turns and with new versions
    of finished ones in between, and whatever resets happen: the store's finished turns are
    those with the indexes 1, ..., [cursor], and each is the last finished version of its
    turn that arrived. *)
Theorem replica_consistent_prefix arrivals st :
  replica arrivals st ->
  indexes (finished st) = seqZ 1 (cursor st) /\ finished st = omap (newest arrivals) (seqZ 1 (cursor st)).
Proof.
  intros [Hwf Hn]%replica_newest. pose proof (wf_indexes _ Hwf) as Hi. split; [done|]. by apply newest_list.
Qed.

Definition sample_log : list RegistrySessionTurn := [sample_turn 1 true; sample_turn 2 true; sample_turn 3 true].
(** A tool call that is published again when it has ended. *)
Definition tool_turn (status : string) : RegistrySessionTurn := {| turn_turnIndex := 1; turn_content := status; turn_finished := true |}.
Definition sample_arrivals : list RegistrySessionTurn := [tool_turn "running"; sample_turn 3 true; tool_turn "completed"].

Lemma replica_consistent_prefix_witness :
  let st := foldl mergeRealtimeTurn createEmptyChatTurnStore sample_arrivals in
  indexes (finished st) = seqZ 1 (cursor st) /\ finished st = omap (newest sample_arrivals) (seqZ 1 (cursor st)) /\
  finished st = [tool_turn "completed"].
Proof.
  assert (replica sample_arrivals (foldl mergeRealtimeTurn createEmptyChatTurnStore sample_arrivals)) as R.
  { apply (replica_realtime [tool_turn "running"; sample_turn 3 true]), (replica_realtime [tool_turn "running"]), (replica_realtime []), replica_empty. }
  destruct (replica_consistent_prefix _ _ R) as [H1 H2]. split; [exact H1|]. split; [exact H2|reflexivity].
Defined.

(** C2. Read repair converges.  When an incoming turn makes [shouldReadRepairForIncomingTurn]
    ask for a read, and the hub answers exactly that request (everything after the position it
    names) from a transcript at least as long as what the client has: applying the answer
    succeeds and leaves no gap.  The client then has every turn of the transcript, those after
    the position as the transcript has them and those before as they were.  When the transcript
    is shorter, the answer empties the store, and the read from 0 that follows gives the
    transcript. *)
Theorem read_repair_converges arrivals st t after log :
  replica arrivals st -> log_ok log -> shouldReadRepairForIncomingTurn st t = Some after ->
  let answer := applySessionReadResult st after (drop (Z.to_nat after) log) (Z.of_nat (length log)) in
  if after <=? Z.of_nat (length log) then
    exists st', answer = Some st' /\ finished st' = finished st ++ drop (Z.to_nat after) log /\
      cursor st' = Z.of_nat (length log) /\ indexes (finished st') = indexes log
  else answer = Some createEmptyChatTurnStore /\
    exists st', applySessionReadResult createEmptyChatTurnStore 0 log (Z.of_nat (length log)) = Some st' /\ finished st' = log.
Proof.
  intros [Hwf _]%replica_newest Hlog Hask. cbv zeta. pose proof (wf_cursor _ Hwf) as H0.
  assert (after = cursor st) as ->.
  { revert Hask. unfold shouldReadRepairForIncomingTurn. repeat case_match; intros; simplify_eq; lia. }
  destruct (Z.leb_spec (cursor st) (Z.of_nat (length log))) as [Hle|Hlt].
  - destruct (read_after_cursor st log Hwf Hlog Hle) as (st' & H1 & H2 & H3). exists st'. split_and!; [done..|].
    rewrite H2. destruct (joined_log st log Hwf Hlog Hle) as [[-> _] ->]. by destruct Hlog as [-> _].
  - split.
    + unfold applySessionReadResult. assert (isStaleSessionReadResult (Z.max 0 (cursor st)) (of_Z (Z.of_nat (length log))) = true) as ->; [|done].
      unfold isStaleSessionReadResult, of_Z; cbv zeta iota beta. rewrite trunc_inject. apply andb_true_iff. split; lia.
    + destruct (read_after_cursor createEmptyChatTurnStore log createEmpty_wf Hlog) as (st' & H1 & H2 & _); [cbn; lia|]. by exists st'.
Qed.

Lemma read_repair_converges_witness :
  let st := mergeRealtimeTurn createEmptyChatTurnStore (sample_turn 1 true) in
  exists st', applySessionReadResult st 1 (drop 1 sample_log) 3 = Some st' /\
    finished st' = sample_log /\ cursor st' = 3 /\ indexes (finished st') = indexes sample_log.
Proof.
  assert (log_ok sample_log) as L by (split; [reflexivity|]; repeat constructor; done).
  exact (read_repair_converges _ _ (sample_turn 3 true) 1 sample_log
    (replica_realtime [] _ (sample_turn 1 true) replica_empty) L eq_refl).
Defined.

(** A new version of a turn that the client missed is not asked for again: reads start after
    the cursor. *)
Lemma missed_version_stays :
  let st := foldl mergeRealtimeTurn createEmptyChatTurnStore [tool_turn "running"; sample_turn 3 true] in
  let now := [tool_turn "completed"; sample_turn 2 true; sample_turn 3 true] in
  shouldReadRepairForIncomingTurn st (sample_turn 3 true) = Some 1 /\
  finished <$> applySessionReadResult st 1 (drop 1 now) 3 = Some [tool_turn "running"; sample_turn 2 true; sample_turn 3 true].
Proof. done. Qed.
