(* ===== verification/ChatSync.v ===== *)
(** [chat/turns/chatSync.ts]: merging decoded messages into a session's message
    list, the read cursor it implies, and the sanitising of cached messages. *)

From S2P Require Import Prelude Json RegistryTypes TurnIndex ChatWire.
Open Scope Z_scope.

(** [chatMessageKey]: [`${sessionId}:${turnIndex}`]. *)
Definition chatMessageKey (message : RegistryChatMessage) : string :=
  msg_sessionId message +:+ ":" +:+ pretty (msg_turnIndex message).

Definition isFinishedChatMessage (message : RegistryChatMessage) : bool := msg_finished message.

Definition sameKey (key : string) (item : RegistryChatMessage) : bool :=
  bool_decide (chatMessageKey item = key).

Definition upsertChatMessage (messages : list RegistryChatMessage) (next : RegistryChatMessage)
    : list RegistryChatMessage :=
  match findIndex (sameKey (chatMessageKey next)) messages with
  | None => sorted_by_index (messages ++ [next])
  | Some index => <[index := next]> messages
  end.

(** [sameChatMessage]; a [param] is never nullish here. *)
Definition sameChatMessage `{JSON} (a : option RegistryChatMessage) (b : RegistryChatMessage) : bool :=
  match a with
  | None => false
  | Some a =>
      bool_decide (msg_sessionId a = msg_sessionId b) &&
      bool_decide (msg_turnIndex a = msg_turnIndex b) &&
      bool_decide (msg_method a = msg_method b) &&
      Bool.eqb (isFinishedChatMessage a) (isFinishedChatMessage b) &&
      bool_decide (JSON_stringify (VObj (msg_param a)) = JSON_stringify (VObj (msg_param b)))
  end.

(** [input.turnIndex ?? 0]. *)
Definition nullish_or (v : value) (d : value) : value :=
  match v with VUndefined | VNull => d | _ => v end.

(** [normalizeCachedChatMessage].  An array passes [typeof raw === 'object'], but has
    no [sessionId]. *)
Definition normalizeCachedChatMessage (raw : value) (expectedSessionId : string)
    : option RegistryChatMessage :=
  match raw with
  | VObj input =>
      let sessionId := match prop input "sessionId" with VStr s => trim s | _ => "" end in
      if negb (nonempty sessionId) ||
         (nonempty expectedSessionId && negb (bool_decide (sessionId = expectedSessionId))) then None else
      let turnIndex := match toNumber (nullish_or (prop input "turnIndex") (VNum (of_Z 0))) with
                       | Fin q => trunc q | _ => 0 end in
      if turnIndex <=? 0 then None else
      let method := match prop input "method" with VStr s => trim s | _ => "" end in
      if negb (nonempty method) then None else
      let param := match prop input "param" with VObj props => props | _ => [] end in
      Some {| msg_sessionId := sessionId; msg_turnIndex := turnIndex; msg_method := method;
              msg_param := param; msg_finished := is_true (prop input "finished") |}
  | _ => None
  end.

(** The loop that fills [byTurnKey]: a repeated key keeps its place, the last
    message wins. *)
Definition collectMessage (expectedSessionId : string) (byTurnKey : list (string * RegistryChatMessage))
    (raw : value) : list (string * RegistryChatMessage) :=
  match normalizeCachedChatMessage raw expectedSessionId with
  | None => byTurnKey
  | Some message => dset byTurnKey (chatMessageKey message) message
  end.

Definition sanitizeCachedSessionMessages (messages : value) (expectedSessionId : string)
    : list RegistryChatMessage :=
  match messages with
  | VArr items => sorted_by_index (map snd (foldl (collectMessage expectedSessionId) [] items))
  | _ => []
  end.

Definition replaceSessionMessages (messages nextMessages : list RegistryChatMessage)
    (checkpointTurnIndex : option Z) : list RegistryChatMessage :=
  let base := bfilter (fun item =>
    match checkpointTurnIndex with
    | None => false
    | Some checkpoint => if checkpoint <=? 0 then false else msg_turnIndex item <=? checkpoint
    end) messages in
  foldl upsertChatMessage base nextMessages.

Definition needsPromptTurnRefresh (messages : list RegistryChatMessage) (promptDone : RegistryChatMessage) : bool :=
  false.

Definition shouldMaterializeRealtimeSessionMessages (isSelectedSession : bool) : bool := isSelectedSession.

(** The [Set] of finished turn indexes. *)
Definition finishedTurns (messages : list RegistryChatMessage) : gset Z :=
  list_to_set (bfilter (fun i => 0 <? i) (map msg_turnIndex (bfilter isFinishedChatMessage messages))).

Definition getLatestSessionReadCursor (messages : list RegistryChatMessage) : Z :=
  contiguousEnd (finishedTurns messages) 0.

Definition reconcileCachedSessionReadCursor (storedCursor : option Z)
    (cachedMessages : option (list RegistryChatMessage)) : Z :=
  match cachedMessages with
  | None | Some [] => 0
  | Some messages => getLatestSessionReadCursor messages
  end.

(** The local turn indexes beyond the cursor. *)
Definition localTurnIndexes (currentTurnIndex : Z) (messages : list RegistryChatMessage) : gset Z :=
  list_to_set (bfilter (fun i => currentTurnIndex <? i) (map msg_turnIndex messages)).

Definition shouldRequestSessionReadForIncomingTurn (currentTurnIndex : Z)
    (messages : list RegistryChatMessage) (incoming : RegistryChatMessage) : option Z :=
  let incomingTurnIndex := msg_turnIndex incoming in
  if incomingTurnIndex <=? 0 then None else
  let contiguousTurnIndex := contiguousEnd (localTurnIndexes currentTurnIndex messages) currentTurnIndex in
  if contiguousTurnIndex + 1 <? incomingTurnIndex then Some contiguousTurnIndex else None.

Record IncomingSessionMessageMergeResult := {
  merge_messages : list RegistryChatMessage;
  merge_cursor : Z;
  merge_gapReadCursor : option Z;
}.

Definition mergeIncomingSessionMessage (cursor : Z) (messages : list RegistryChatMessage)
    (incoming : RegistryChatMessage) : IncomingSessionMessageMergeResult :=
  let gapReadCursor := shouldRequestSessionReadForIncomingTurn cursor messages incoming in
  let messages' := upsertChatMessage messages incoming in
  {| merge_messages := messages'; merge_cursor := getLatestSessionReadCursor messages';
     merge_gapReadCursor := gapReadCursor |}.

(** [new Map(existingMessages.map(...)).get(key)]: the last message with the key. *)
Definition existingByKey (existingMessages : list RegistryChatMessage) (key : string) : option RegistryChatMessage :=
  dget (foldl (fun m message => dset m (chatMessageKey message) message) [] existingMessages) key.

Definition reconcileSessionReadMessages `{JSON} (readMessages freshStoreMessages existingMessages : list RegistryChatMessage)
    : list RegistryChatMessage :=
  foldl (fun nextMessages message =>
    if negb (sameChatMessage (existingByKey existingMessages (chatMessageKey message)) message)
    then upsertChatMessage nextMessages message else nextMessages)
    readMessages freshStoreMessages.

(** * Lemmas *)

Implicit Types (l ms : list RegistryChatMessage) (m x : RegistryChatMessage).

(** A key determines the session and the turn. *)
Lemma chatMessageKey_inj m1 m2 :
  chatMessageKey m1 = chatMessageKey m2 <->
  msg_sessionId m1 = msg_sessionId m2 /\ msg_turnIndex m1 = msg_turnIndex m2.
Proof.
  unfold chatMessageKey. split; [apply colon_key_inj|]. by intros [-> ->].
Qed.

Definition keys (l : list RegistryChatMessage) : list string := map chatMessageKey l.

Lemma upsert_message_spec l m :
  NoDup (keys l) ->
  NoDup (keys (upsertChatMessage l m)) /\
  forall x, x ∈ upsertChatMessage l m <-> x = m \/ (x ∈ l /\ chatMessageKey x <> chatMessageKey m).
Proof.
  intros Hnd. unfold upsertChatMessage.
  destruct (findIndex _ l) as [i|] eqn:E.
  - apply findIndex_Some in E as (l1 & y & l2 & -> & <- & Hy & _). apply bool_decide_eq_true in Hy.
    rewrite insert_app_r_alt, Nat.sub_diag by lia. cbn [insert list_insert].
    unfold keys in *. rewrite !map_app in *. cbn [map] in *. rewrite <- Hy. split; [done|].
    intros x. rewrite !elem_of_app, !elem_of_cons.
    apply NoDup_app in Hnd as (Hn1 & Hdis & Hn2). apply NoDup_cons in Hn2 as [Hy2 Hn2].
    assert (forall x, x ∈ l1 -> chatMessageKey x <> chatMessageKey y).
    { intros z Hz Heq. apply (Hdis (chatMessageKey z)); [apply elem_of_map; eauto | rewrite Heq; left]. }
    assert (forall x, x ∈ l2 -> chatMessageKey x <> chatMessageKey y).
    { intros z Hz Heq. apply Hy2. rewrite <- Heq. apply elem_of_map; eauto. }
    naive_solver.
  - apply findIndex_None in E. rewrite Forall_forall in E.
    assert (forall x, x ∈ l -> chatMessageKey x <> chatMessageKey m) as Hne.
    { intros x Hx. specialize (E x Hx). by apply bool_decide_eq_false in E. }
    split.
    + assert (keys (sorted_by_index (l ++ [m])) ≡ₚ keys (l ++ [m])) as ->
        by apply Permutation_map, js_sort_perm.
      unfold keys. rewrite map_app. apply NoDup_app. split_and!; [done| |apply NoDup_singleton].
      intros k (x & -> & Hx)%elem_of_map Hi%list_elem_of_singleton. by apply (Hne x).
    + intros x. unfold sorted_by_index. rewrite elem_of_js_sort, elem_of_app, list_elem_of_singleton. naive_solver.
Qed.

Lemma elem_of_finishedTurns ms i :
  i ∈ finishedTurns ms <-> 0 < i /\ exists m, m ∈ ms /\ msg_finished m = true /\ msg_turnIndex m = i.
Proof.
  unfold finishedTurns. rewrite elem_of_list_to_set, elem_of_bfilter, elem_of_map.
  setoid_rewrite elem_of_bfilter. unfold isFinishedChatMessage. split.
  - intros [(m & -> & Hm & Hf) Hpos]. split; [lia|eauto].
  - intros [Hpos (m & Hm & Hf & <-)]. split; [eauto|lia].
Qed.

Lemma readCursor_spec ms :
  let c := getLatestSessionReadCursor ms in
  0 <= c /\ (forall i, 1 <= i <= c -> i ∈ finishedTurns ms) /\ c + 1 ∉ finishedTurns ms.
Proof.
  intros c. destruct (contiguousEnd_spec (finishedTurns ms) 0) as (H1 & H2 & H3).
  split_and!; [done| |done]. intros i Hi. apply H2. unfold c, getLatestSessionReadCursor in Hi. lia.
Qed.

Lemma elem_of_localTurnIndexes c ms i :
  i ∈ localTurnIndexes c ms <-> c < i /\ exists m, m ∈ ms /\ msg_turnIndex m = i.
Proof.
  unfold localTurnIndexes. rewrite elem_of_list_to_set, elem_of_bfilter, elem_of_map. split.
  - intros [(m & -> & Hm) Hpos]. split; [lia|eauto].
  - intros [Hpos (m & Hm & <-)]. split; [eauto|lia].
Qed.

(** A message merge asks for a read exactly when turns are missing between the
    cursor and the incoming message.  With no request, every turn in between is
    present locally; a request names the last turn before the first missing one.  The
    merged list holds the incoming message once and every other message as it was. *)
Theorem merge_gap_exact cursor ms incoming :
  NoDup (keys ms) -> 0 < msg_turnIndex incoming ->
  let r := mergeIncomingSessionMessage cursor ms incoming in
  NoDup (keys (merge_messages r)) /\
  (forall x, x ∈ merge_messages r <-> x = incoming \/ (x ∈ ms /\ chatMessageKey x <> chatMessageKey incoming)) /\
  match merge_gapReadCursor r with
  | None => forall k, cursor < k < msg_turnIndex incoming -> exists m, m ∈ ms /\ msg_turnIndex m = k
  | Some c => cursor <= c /\ c + 1 < msg_turnIndex incoming /\
              (forall k, cursor < k <= c -> exists m, m ∈ ms /\ msg_turnIndex m = k) /\
              ~ exists m, m ∈ ms /\ msg_turnIndex m = c + 1
  end.
Proof.
  intros Hnd Hpos r. destruct (upsert_message_spec ms incoming Hnd) as [H1 H2].
  split_and!; [done|done|]. unfold r, mergeIncomingSessionMessage, shouldRequestSessionReadForIncomingTurn.
  cbn [merge_gapReadCursor]. replace (msg_turnIndex incoming <=? 0) with false by lia.
  destruct (contiguousEnd_spec (localTurnIndexes cursor ms) cursor) as (Hle & Hmem & Hout).
  set (c := contiguousEnd _ _) in *. destruct (c + 1 <? msg_turnIndex incoming) eqn:E.
  - apply Z.ltb_lt in E. split_and!; [done|done| |].
    + intros k Hk. by apply Hmem, elem_of_localTurnIndexes in Hk as [_ ?].
    + intros Hm. apply Hout, elem_of_localTurnIndexes. split; [lia|done].
  - apply Z.ltb_ge in E. intros k Hk.
    assert (k ∈ localTurnIndexes cursor ms) as [_ ?]%elem_of_localTurnIndexes by (apply Hmem; lia). done.
Qed.

Definition sample_message (i : Z) (done : bool) : RegistryChatMessage :=
  {| msg_sessionId := "s"; msg_turnIndex := i; msg_method := "agent_message_chunk";
     msg_param := [("text"%string, VStr "x")]; msg_finished := done |}.

Lemma merge_gap_exact_witness :
  let r := mergeIncomingSessionMessage 1 [sample_message 1 true; sample_message 2 false] (sample_message 4 true) in
  merge_gapReadCursor r = Some 2 /\
  (forall x, x ∈ merge_messages r <-> x = sample_message 4 true \/
     (x ∈ [sample_message 1 true; sample_message 2 false] /\
      chatMessageKey x <> chatMessageKey (sample_message 4 true))).
Proof.
  split; [reflexivity|]. apply (merge_gap_exact 1 [sample_message 1 true; sample_message 2 false]);
    [by apply (bool_decide_unpack _)|done].
Defined.

(** * Sanitising *)

Definition valid_message (sid : string) (m : RegistryChatMessage) : Prop :=
  msg_sessionId m = sid /\ 0 < msg_turnIndex m /\ trim (msg_method m) = msg_method m /\ msg_method m <> ""%string.

(** The cached form of a message. *)
Definition encode_message (m : RegistryChatMessage) : value :=
  VObj [("sessionId"%string, VStr (msg_sessionId m)); ("turnIndex"%string, VNum (of_Z (msg_turnIndex m)));
        ("method"%string, VStr (msg_method m)); ("param"%string, VObj (msg_param m));
        ("finished"%string, VBool (msg_finished m))].

Lemma normalizeCached_valid raw sid m :
  sid <> ""%string -> normalizeCachedChatMessage raw sid = Some m -> valid_message sid m.
Proof.
  intros Hsid. apply nonempty_true in Hsid. unfold normalizeCachedChatMessage. destruct raw; try done.
  rewrite Hsid. cbv zeta.
  set (s := match prop props "sessionId" with VStr s => trim s | _ => ""%string end).
  set (mt := match prop props "method" with VStr s => trim s | _ => ""%string end).
  set (ti := match toNumber _ with Fin q => trunc q | _ => 0 end).
  case_match eqn:E1; [done|]. case_match eqn:E2; [done|]. case_match eqn:E3; [done|].
  rewrite andb_true_l in E1. intros [= <-]. breflect. unfold valid_message; simpl. split_and!; [done|lia| |done].
  unfold mt. case_match; autorewrite with js; done.
Qed.

Lemma normalizeCached_encode sid m :
  sid <> ""%string -> trim sid = sid -> valid_message sid m ->
  normalizeCachedChatMessage (encode_message m) sid = Some m.
Proof.
  intros Hsid Htrim (Hs & Hi & Hmt & Hm). unfold normalizeCachedChatMessage, encode_message; simpl.
  rewrite Hs, Htrim. apply nonempty_true in Hsid, Hm. rewrite Hsid, bool_decide_true by done; simpl.
  rewrite trunc_inject, Hmt, Hm. replace (msg_turnIndex m <=? 0) with false by lia. simpl.
  destruct m; simpl in *; congruence.
Qed.

(** The dictionary the loop fills, as an invariant. *)
Definition keyed (sid : string) (d : list (string * RegistryChatMessage)) : Prop :=
  NoDup (dkeys d) /\ Forall (fun e => e.1 = chatMessageKey e.2 /\ valid_message sid e.2) d.

Lemma collect_keyed sid d raw : sid <> ""%string -> keyed sid d -> keyed sid (collectMessage sid d raw).
Proof.
  intros Hsid [Hnd Hall]. unfold collectMessage. destruct (normalizeCachedChatMessage raw sid) as [m|] eqn:E; [|done].
  split; [by apply dset_NoDup|]. apply dset_Forall; [done|]. split; [done|]. by eapply normalizeCached_valid.
Qed.

Lemma collects_keyed sid d raws : sid <> ""%string -> keyed sid d -> keyed sid (foldl (collectMessage sid) d raws).
Proof. intros Hsid. revert d; induction raws; intros d Hd; simpl; auto using collect_keyed. Qed.

Lemma keyed_indexes sid d : keyed sid d -> NoDup (indexes (map snd d)).
Proof.
  intros [Hnd Hall]. unfold indexes, dkeys in *.
  induction Hall as [|[k m] d [Hk Hv] Hall IH]; simpl in *; [constructor|].
  apply NoDup_cons in Hnd as [Hni Hnd]. constructor; [|by apply IH].
  intros (m' & E & ([k' m''] & -> & Hin)%elem_of_map)%elem_of_map. apply Hni, elem_of_map.
  exists (k', m''). split; [|done]. rewrite Forall_forall in Hall. destruct (Hall _ Hin) as [Hk' Hv'].
  simpl in *. rewrite Hk, Hk'. apply chatMessageKey_inj. split; [|done].
  destruct Hv as [-> _], Hv' as [-> _]. done.
Qed.

(** Whatever the cache holds, sanitising it for a session yields well-formed
    messages of that session: positive indexes, non-blank methods, strictly ordered by
    turn, no turn twice. *)
Theorem sanitize_wellformed raw sid :
  sid <> ""%string ->
  index_sorted (sanitizeCachedSessionMessages raw sid) /\
  Forall (valid_message sid) (sanitizeCachedSessionMessages raw sid).
Proof.
  intros Hsid. unfold sanitizeCachedSessionMessages. destruct raw; try (split; constructor).
  assert (keyed sid (foldl (collectMessage sid) [] items)) as Hk.
  { apply collects_keyed; [done|]. split; constructor. }
  split; [apply sorted_by_index_sorted; by eapply keyed_indexes|].
  unfold sorted_by_index. rewrite js_sort_perm. destruct Hk as [_ Hall].
  rewrite Forall_forall in Hall. apply Forall_forall. intros m ([k m'] & -> & Hin)%elem_of_map.
  by apply (Hall _ Hin).
Qed.

Lemma sanitize_wellformed_witness :
  let raw := VArr [encode_message (sample_message 3 true); VNull; encode_message (sample_message 0 true);
                   encode_message (sample_message 1 false)] in
  sanitizeCachedSessionMessages raw "s" = [sample_message 1 false; sample_message 3 true] /\
  index_sorted (sanitizeCachedSessionMessages raw "s").
Proof. split; [reflexivity|]. by eapply sanitize_wellformed. Defined.

(** Sanitising loses nothing: the messages it produces, cached and sanitised
    again, come back unchanged, and so does any strictly ordered list of well-formed
    messages. *)
Theorem sanitize_roundtrip sid l :
  sid <> ""%string -> trim sid = sid -> index_sorted l -> Forall (valid_message sid) l ->
  sanitizeCachedSessionMessages (VArr (map encode_message l)) sid = l.
Proof.
  intros Hsid Htrim Hs Hv. unfold sanitizeCachedSessionMessages.
  assert (forall l d, Forall (valid_message sid) l -> NoDup (dkeys d ++ keys l) ->
    foldl (collectMessage sid) d (map encode_message l) = d ++ map (fun m => (chatMessageKey m, m)) l) as Hfold.
  { clear l Hs Hv. induction l as [|m l IH]; intros d Hv Hnd; simpl; [by rewrite app_nil_r|].
    apply Forall_cons in Hv as [Hm Hv]. unfold collectMessage at 2. rewrite normalizeCached_encode by done.
    rewrite dset_fresh; [|intros Hin; apply NoDup_app in Hnd as (_ & Hnd & _); by apply (Hnd _ Hin); left].
    rewrite IH, <- app_assoc; [done..|]. unfold dkeys in *. rewrite map_app, <- app_assoc. done. }
  rewrite Hfold; [|done|].
  - simpl. rewrite map_map, map_id. by apply sorted_by_index_id.
  - simpl. apply index_sorted_NoDup in Hs. clear -Hs. unfold keys, indexes in *.
    induction l as [|m l IH]; simpl in *; [constructor|]. apply NoDup_cons in Hs as [Hm Hs].
    constructor; [|by apply IH]. intros (m' & E & Hin)%elem_of_map. apply Hm, elem_of_map.
    exists m'. split; [|done]. by apply chatMessageKey_inj in E as [_ E].
Qed.

Lemma sanitize_roundtrip_witness :
  sanitizeCachedSessionMessages (VArr (map encode_message [sample_message 1 true; sample_message 5 false])) "s"
  = [sample_message 1 true; sample_message 5 false].
Proof.
  apply sanitize_roundtrip; [done|reflexivity|by repeat constructor|].
  repeat constructor; done.
Defined.

(** Reconciling a read with messages that arrived meanwhile: a message of the
    store that changed since the read was issued wins over the read's version, and
    every other message is the read's. *)
Theorem reconcile_keeps_fresh `{JSON} readMessages fresh existing x :
  NoDup (keys readMessages) -> NoDup (keys fresh) ->
  let changed m := negb (sameChatMessage (existingByKey existing (chatMessageKey m)) m) in
  x ∈ reconcileSessionReadMessages readMessages fresh existing <->
  (x ∈ fresh /\ changed x = true) \/
  (x ∈ readMessages /\ forall m, m ∈ fresh -> changed m = true -> chatMessageKey x <> chatMessageKey m).
Proof.
  intros Hnd Hfr changed. unfold reconcileSessionReadMessages.
  revert readMessages Hnd; induction fresh as [|m fresh IH]; intros rd Hnd; simpl; [set_solver|].
  apply NoDup_cons in Hfr as [Hm Hfr].
  assert (forall y, y ∈ fresh -> chatMessageKey y <> chatMessageKey m) as Hne.
  { intros y Hy E. apply Hm. rewrite <- E. apply elem_of_map; eauto. }
  setoid_rewrite elem_of_cons.
  destruct (negb (sameChatMessage (existingByKey existing (chatMessageKey m)) m)) eqn:Hch.
  - destruct (upsert_message_spec rd m Hnd) as [Hnd' Hmem]. rewrite IH by done.
    rewrite Hmem. split.
    + intros [[Hx Hc]|[[->|[Hx Hk]] Hall]]; [left; by split; [right|]|left; by split; [left|]|].
      right. split; [done|]. intros y [->|Hy] Hc; [done|by apply Hall].
    + intros [[[->|Hx] Hc]|[Hx Hall]]; [|by left|].
      * right. split; [by left|]. intros y Hy _. by apply not_eq_sym, Hne.
      * right. split; [right; split; [done|by apply Hall; [left|]]|]. intros y Hy Hc. apply Hall; [by right|done].
  - rewrite IH by done. split.
    + intros [[Hx Hc]|[Hx Hall]]; [left; by split; [right|]|]. right. split; [done|].
      intros y [->|Hy] Hc; [|by apply Hall]. unfold changed in Hc. congruence.
    + intros [[[->|Hx] Hc]|[Hx Hall]]; [unfold changed in Hc; congruence|by left|].
      right. split; [done|]. intros y Hy Hc. apply Hall; [by right|done].
Qed.

Lemma reconcile_keeps_fresh_witness :
  let old := sample_message 1 false in let new := sample_message 1 true in
  new ∈ reconcileSessionReadMessages (H := js_JSON) [old; sample_message 2 true] [new] [old].
Proof.
  apply reconcile_keeps_fresh; [by apply (bool_decide_unpack _)..|]. left.
  split; [by left|reflexivity].
Defined.
