(* ===== verification/ChatReadRepair.v ===== *)
(** [chat/turns/chatReadRepair.ts]: the queue that coalesces the repair reads of a
    session.  [request] and the sections of [drain] between two suspension points are
    functions on the queue; the step relation interleaves them the way the event loop
    may: requests arrive at any time, a scheduled drain starts in some later
    microtask, a running read settles in any order with the rest, resolved or
    rejected.  A run is its identity, of type [R]. *)

From S2P Require Import Prelude.
Open Scope Z_scope.

(** Where the drain of a state is: scheduled by [Promise.resolve().then], or suspended
    at [await run(state.cursor)]. *)
Inductive point := Scheduled | Awaiting.
#[export] Instance point_eq_dec : EqDecision point.
Proof. solve_decision. Defined.

Record RepairState {R : Type} := {
  inFlight : bool;
  pending : bool;
  cursor : Z;
  nextCursor : Z;
  run : option R;
  nextRun : option R;
  promise : option nat;
  at_point : point;
}.
Arguments RepairState : clear implicits.

(** The [states] map, and the number of promises made so far, which names them. *)
Record ChatReadRepairQueue {R : Type} := {
  states : gmap string (RepairState R);
  promises : nat;
}.
Arguments ChatReadRepairQueue : clear implicits.

(** What an observer sees: requests, calls of a run, and their settling. *)
Inductive event {R : Type} :=
  | Requested (key : string) (c : Z)
  | Started (key : string) (c : Z) (r : R)
  | Settled (key : string) (ok : bool).
Arguments event : clear implicits.

Section queue.
Context {R : Type}.
Implicit Types (q : ChatReadRepairQueue R) (s : RepairState R) (tr : list (event R)).

Definition createChatReadRepairQueue : ChatReadRepairQueue R := {| states := ∅; promises := 0 |}.

(** [request]: the new queue and the promise returned ([None]: [Promise.resolve()]). *)
Definition request (q : ChatReadRepairQueue R) (sessionKey : string) (c : Z) (r : R)
    : ChatReadRepairQueue R * option nat :=
  let key := trim sessionKey in
  if negb (nonempty key) then (q, None) else
  let safeCursor := Z.max 0 c in
  let start := {| inFlight := true; pending := false; cursor := safeCursor; nextCursor := safeCursor;
                  run := Some r; nextRun := None; promise := Some (promises q); at_point := Scheduled |} in
  let started := ({| states := <[key := start]> (states q); promises := S (promises q) |}, Some (promises q)) in
  match states q !! key with
  | Some existing =>
      if inFlight existing then
        ({| states := <[key := {| inFlight := true; pending := true; cursor := cursor existing;
                                  nextCursor := Z.max (nextCursor existing) safeCursor;
                                  run := run existing; nextRun := Some r;
                                  promise := promise existing; at_point := at_point existing |}]> (states q);
            promises := promises q |}, promise existing)
      else started
  | None => started
  end.

(** The [finally] block. *)
Definition drain_finally (q : ChatReadRepairQueue R) (key : string) (s : RepairState R) : ChatReadRepairQueue R :=
  if pending s then
    {| states := <[key := {| inFlight := true; pending := true; cursor := cursor s; nextCursor := nextCursor s;
                             run := run s; nextRun := nextRun s; promise := Some (promises q);
                             at_point := Scheduled |}]> (states q);
       promises := S (promises q) |}
  else {| states := delete key (states q); promises := promises q |}.

(** The top of the [do] loop, up to [await run(...)]; without a run the loop ends at
    once, since [pending] was just cleared. *)
Definition drain_loop (q : ChatReadRepairQueue R) (key : string) (s : RepairState R)
    : ChatReadRepairQueue R * list (event R) :=
  let s' := {| inFlight := inFlight s; pending := false; cursor := cursor s; nextCursor := nextCursor s;
               run := run s; nextRun := nextRun s; promise := promise s; at_point := Awaiting |} in
  match run s with
  | Some r => ({| states := <[key := s']> (states q); promises := promises q |}, [Started key (cursor s) r])
  | None => (drain_finally q key s', [])
  end.

(** After [await run(...)] resolved ([ok]) or threw. *)
Definition drain_resume (q : ChatReadRepairQueue R) (key : string) (s : RepairState R) (ok : bool)
    : ChatReadRepairQueue R * list (event R) :=
  if ok && pending s then
    drain_loop q key {| inFlight := inFlight s; pending := pending s; cursor := nextCursor s;
                        nextCursor := nextCursor s;
                        run := match nextRun s with Some r => Some r | None => run s end;
                        nextRun := None; promise := promise s; at_point := at_point s |}
  else (drain_finally q key s, []).

(** The drains make progress by themselves; requests come from outside. *)
Inductive internal : ChatReadRepairQueue R * list (event R) -> ChatReadRepairQueue R * list (event R) -> Prop :=
  | drain_starts q tr key s :
      states q !! key = Some s -> at_point s = Scheduled ->
      internal (q, tr) ((drain_loop q key s).1, tr ++ (drain_loop q key s).2)
  | run_settles q tr key s ok :
      states q !! key = Some s -> at_point s = Awaiting ->
      internal (q, tr) ((drain_resume q key s ok).1, tr ++ Settled key ok :: (drain_resume q key s ok).2).

(** A request is for any cursor: that of a turn store grows, but a cleared store starts
    over. *)
Inductive step : ChatReadRepairQueue R * list (event R) -> ChatReadRepairQueue R * list (event R) -> Prop :=
  | step_request q tr k c r :
      trim k <> ""%string ->
      step (q, tr) ((request q k c r).1, tr ++ [Requested (trim k) (Z.max 0 c)])
  | step_internal x y : internal x y -> step x y.

(** * Reading a trace *)

(** Whether a run of the session is under way after [tr]; [None] when two overlapped. *)
Definition running_event (key : string) (b : option bool) (e : event R) : option bool :=
  match b, e with
  | Some b, Started k _ _ => if decide (k = key) then (if b then None else Some true) else Some b
  | Some b, Settled k _ => if decide (k = key) then (if b then Some false else None) else Some b
  | _, _ => b
  end.
Definition running (key : string) (tr : list (event R)) : option bool := foldl (running_event key) (Some false) tr.

(** The account of a session over a trace: whether a run is under way, the largest cursor
    asked since the session was last at rest, and, while a request is not answered, the
    cursor from which the run that answers it starts at the latest.  A request is answered
    by a run that starts after it, no later than from the largest cursor asked since the
    session was last at rest (from the request's own cursor when the cursors asked did not
    go back in between). *)
Record account := { under_way : bool; highest : Z; due : option Z }.
Definition account_event (key : string) (a : account) (e : event R) : account :=
  match e with
  | Requested k c =>
      if decide (k = key) then
        let h := if under_way a || bool_decide (is_Some (due a)) then Z.max (highest a) c else c in
        {| under_way := under_way a; highest := h; due := Some h |}
      else a
  | Started k c _ =>
      if decide (k = key) then
        {| under_way := true; highest := highest a;
           due := match due a with Some latest => if c <=? latest then None else Some latest | None => None end |}
      else a
  | Settled k _ => if decide (k = key) then {| under_way := false; highest := highest a; due := due a |} else a
  end.
Definition account_of (key : string) (tr : list (event R)) : account :=
  foldl (account_event key) {| under_way := false; highest := 0; due := None |} tr.

(** The request no run has answered yet. *)
Definition owed (key : string) (tr : list (event R)) : option Z := due (account_of key tr).

(** * The invariant *)

Definition is_awaiting (s : RepairState R) : bool := bool_decide (at_point s = Awaiting).

Record state_ok (tr : list (event R)) (key : string) (s : RepairState R) : Prop := {
  ok_inFlight : inFlight s = true;
  ok_run : is_Some (run s);
  ok_running : running key tr = Some (is_awaiting s);
  ok_under_way : under_way (account_of key tr) = is_awaiting s;
  ok_owed : owed key tr = if pending s || negb (is_awaiting s) then Some (highest (account_of key tr)) else None;
  ok_bound : cursor s <= highest (account_of key tr) /\ nextCursor s <= highest (account_of key tr);
}.

Definition entry_ok (tr : list (event R)) (key : string) (o : option (RepairState R)) : Prop :=
  match o with
  | Some s => state_ok tr key s
  | None => running key tr = Some false /\ under_way (account_of key tr) = false /\ owed key tr = None
  end.

Definition queue_ok (x : ChatReadRepairQueue R * list (event R)) : Prop :=
  forall key, entry_ok x.2 key (states x.1 !! key).

Lemma running_app key tr e : running key (tr ++ [e]) = running_event key (running key tr) e.
Proof. unfold running. by rewrite foldl_app. Qed.
Lemma account_app key tr e : account_of key (tr ++ [e]) = account_event key (account_of key tr) e.
Proof. unfold account_of. by rewrite foldl_app. Qed.

Definition about (e : event R) : string :=
  match e with Requested k _ | Started k _ _ | Settled k _ => k end.

(** Events of other sessions do not matter. *)
Lemma about_other key e tr : about e <> key ->
  running key (tr ++ [e]) = running key tr /\ account_of key (tr ++ [e]) = account_of key tr.
Proof.
  intros Hne. rewrite running_app, account_app. split.
  - destruct (running key tr), e; simpl in *; try done; by rewrite decide_False.
  - destruct e; simpl in *; try done; by rewrite decide_False.
Qed.

Lemma entry_other tr e key o : about e <> key -> entry_ok tr key o -> entry_ok (tr ++ [e]) key o.
Proof.
  intros Hne. destruct (about_other key e tr Hne) as (H1 & H2). unfold entry_ok, owed.
  destruct o as [s|]; [|by rewrite H1, H2]. intros [? ? ? ? ? ?]. unfold owed in *. by constructor; unfold owed; rewrite ?H1, ?H2.
Qed.

(** An operation on one session leaves the others as they are. *)
Lemma queue_ok_update q q' tr es key :
  queue_ok (q, tr) -> Forall (fun e => about e = key) es ->
  (forall k, k <> key -> states q' !! k = states q !! k) ->
  entry_ok (tr ++ es) key (states q' !! key) -> queue_ok (q', tr ++ es).
Proof.
  intros Hok Hes Hsame Hkey k. cbn [fst snd]. destruct (decide (k = key)) as [->|Hne]; [done|].
  rewrite Hsame by done. specialize (Hok k). cbn [fst snd] in Hok. clear Hkey.
  revert tr Hok. induction Hes as [|e es He _ IH]; intros tr Hok; [by rewrite app_nil_r|].
  rewrite cons_middle, (assoc_L (++)). apply IH, entry_other; [congruence|done].
Qed.

(** A run of [s] starting: what it owes is paid. *)
Lemma start_entry_ok tr key s r :
  run s = Some r -> inFlight s = true -> running key tr = Some false ->
  owed key tr = Some (highest (account_of key tr)) ->
  cursor s <= highest (account_of key tr) -> nextCursor s <= highest (account_of key tr) ->
  state_ok (tr ++ [Started key (cursor s) r]) key
    {| inFlight := inFlight s; pending := false; cursor := cursor s; nextCursor := nextCursor s;
       run := Some r; nextRun := nextRun s; promise := promise s; at_point := Awaiting |}.
Proof.
  unfold owed. intros Hr Hf Hrun Ho Hc Hn.
  constructor; cbn [inFlight run at_point pending cursor nextCursor is_awaiting orb negb]; [done|done| |unfold owed..].
  - rewrite running_app, Hrun. simpl. by rewrite decide_True.
  - rewrite account_app. cbn. by rewrite decide_True.
  - rewrite account_app. cbn [account_event]. rewrite decide_True by done. cbn [due highest]. rewrite Ho.
    by replace (cursor s <=? highest (account_of key tr)) with true by lia.
  - rewrite account_app. cbn [account_event]. by rewrite decide_True by done.
Qed.

Lemma request_ok q tr k c r :
  queue_ok (q, tr) -> trim k <> ""%string ->
  queue_ok ((request q k c r).1, tr ++ [Requested (trim k) (Z.max 0 c)]).
Proof.
  intros Hok Hk. pose proof (Hok (trim k)) as Hentry. cbn [fst snd] in Hentry.
  unfold request. rewrite (proj2 (nonempty_true _) Hk). cbn [negb].
  destruct (states q !! trim k) as [s|].
  - destruct Hentry as [Hf Hr Hrun Hu Ho [Hb Hn]]. rewrite Hf.
    apply (queue_ok_update q) with (key := trim k); [done|by repeat constructor|intros k' ?; by apply lookup_insert_ne|].
    cbn [fst states]. rewrite lookup_insert_eq.
    assert (account_of (trim k) (tr ++ [Requested (trim k) (Z.max 0 c)]) =
      {| under_way := is_awaiting s; highest := Z.max (highest (account_of (trim k) tr)) (Z.max 0 c);
         due := Some (Z.max (highest (account_of (trim k) tr)) (Z.max 0 c)) |}) as Ea.
    { rewrite account_app. cbn [account_event]. rewrite decide_True by done. unfold owed in Ho. rewrite Hu, Ho.
      by destruct (is_awaiting s), (pending s). }
    constructor; cbn [inFlight run at_point pending cursor nextCursor orb]; [done|done| | |unfold owed|]; rewrite ?Ea; cbn; [|done|done|lia].
    by rewrite running_app, Hrun.
  - destruct Hentry as (Hrun & Hu & Ho). unfold owed in Ho.
    apply (queue_ok_update q) with (key := trim k); [done|by repeat constructor|intros k' ?; by apply lookup_insert_ne|].
    cbn [fst states]. rewrite lookup_insert_eq.
    assert (account_of (trim k) (tr ++ [Requested (trim k) (Z.max 0 c)]) =
      {| under_way := false; highest := Z.max 0 c; due := Some (Z.max 0 c) |}) as Ea.
    { rewrite account_app. cbn [account_event]. rewrite decide_True by done. by rewrite Hu, Ho. }
    constructor; cbn [inFlight run at_point pending cursor nextCursor]; [done|done| | |unfold owed|]; rewrite ?Ea; cbn; [|done|done|lia].
    by rewrite running_app, Hrun.
Qed.

Lemma drain_loop_states q key s r :
  run s = Some r ->
  drain_loop q key s =
    ({| states := <[key := {| inFlight := inFlight s; pending := false; cursor := cursor s;
                              nextCursor := nextCursor s; run := Some r; nextRun := nextRun s;
                              promise := promise s; at_point := Awaiting |}]> (states q);
        promises := promises q |}, [Started key (cursor s) r]).
Proof. intros H. unfold drain_loop. by rewrite H. Qed.

Lemma drain_starts_ok q tr key s :
  queue_ok (q, tr) -> states q !! key = Some s -> at_point s = Scheduled ->
  queue_ok ((drain_loop q key s).1, tr ++ (drain_loop q key s).2).
Proof.
  intros Hok Hs Hp. pose proof (Hok key) as Hentry. cbn [fst snd] in Hentry. rewrite Hs in Hentry.
  destruct Hentry as [Hf [r Hr] Hrun Hu Ho [Hb Hn]]. unfold is_awaiting in *. rewrite Hp in *.
  rewrite (drain_loop_states _ _ _ _ Hr).
  apply (queue_ok_update q) with (key := key); [done|by repeat constructor|intros k' ?; by apply lookup_insert_ne|].
  cbn [fst states]. rewrite lookup_insert_eq.
  apply start_entry_ok; [done..| |done|done]. rewrite Ho. cbn. by rewrite orb_true_r.
Qed.

Lemma settled_trace key tr ok :
  running key tr = Some true ->
  running key (tr ++ [Settled key ok]) = Some false /\
  account_of key (tr ++ [Settled key ok]) =
    {| under_way := false; highest := highest (account_of key tr); due := owed key tr |}.
Proof. intros Hrun. rewrite running_app, account_app, Hrun. simpl. by rewrite !decide_True by done. Qed.

Lemma run_settles_ok q tr key s ok :
  queue_ok (q, tr) -> states q !! key = Some s -> at_point s = Awaiting ->
  queue_ok ((drain_resume q key s ok).1, tr ++ Settled key ok :: (drain_resume q key s ok).2).
Proof.
  intros Hok Hs Hp. pose proof (Hok key) as Hentry. cbn [fst snd] in Hentry. rewrite Hs in Hentry.
  destruct Hentry as [Hf [r Hr] Hrun Hu Ho [Hb Hn]]. unfold is_awaiting in *. rewrite Hp in *.
  destruct (settled_trace key tr ok Hrun) as (H1 & H2). rewrite orb_false_r in Ho.
  unfold drain_resume. destruct (ok && pending s) eqn:E.
  - apply andb_true_iff in E as [_ Hpend]. rewrite Hpend in Ho.
    destruct (match nextRun s with Some r => Some r | None => run s end) as [r'|] eqn:Er;
      [|destruct (nextRun s); congruence].
    rewrite (drain_loop_states _ _ _ r') by done. cbn [fst snd cursor nextCursor inFlight nextRun promise].
    apply (queue_ok_update q) with (key := key); [done|by repeat constructor|intros k' ?; by apply lookup_insert_ne|].
    rewrite cons_middle, (assoc_L (++)). cbn [fst states]. rewrite lookup_insert_eq.
    apply (start_entry_ok _ key {| inFlight := inFlight s; pending := pending s; cursor := nextCursor s;
      nextCursor := nextCursor s; run := Some r'; nextRun := None; promise := promise s; at_point := at_point s |});
      [done|done|done| |by rewrite H2..]. unfold owed. by rewrite H2.
  - unfold drain_finally. cbn [fst snd].
    destruct (pending s) eqn:Hpend; apply (queue_ok_update q) with (key := key); try done;
      try (by repeat constructor); cbn [states].
    + intros k' ?. by apply lookup_insert_ne.
    + rewrite lookup_insert_eq. constructor; cbn; [done|by rewrite Hr|done|unfold owed; rewrite H2; cbn; done..].
    + intros k' ?. by apply lookup_delete_ne.
    + rewrite lookup_delete_eq. split; [done|]. unfold owed. by rewrite H2.
Qed.

Lemma step_ok x y : queue_ok x -> step x y -> queue_ok y.
Proof.
  intros Hok Hs. destruct Hs as [q tr k c r|x y Hi]; [by apply request_ok|].
  destruct Hi; [by apply drain_starts_ok|by apply run_settles_ok].
Qed.

Definition initial : ChatReadRepairQueue R * list (event R) := (createChatReadRepairQueue, []).

Lemma reachable_ok x : star step initial x -> queue_ok x.
Proof.
  intros H. eapply star_invariant; [exact H| |apply step_ok]. intros key. cbn [fst snd initial createChatReadRepairQueue states].
  rewrite lookup_empty. done.
Qed.

(** What is left to do for a session, in steps of its drain. *)
Definition state_work (s : RepairState R) : nat :=
  match at_point s, pending s with
  | Awaiting, false => 1
  | Scheduled, _ => 2
  | Awaiting, true => 3
  end.
Definition total_work (m : gmap string (RepairState R)) : nat :=
  map_fold (fun _ s n => (state_work s + n)%nat) 0%nat m.
Definition work (x : ChatReadRepairQueue R * list (event R)) : nat := total_work (states x.1).

Lemma total_work_delete m key s :
  m !! key = Some s -> total_work m = (state_work s + total_work (delete key m))%nat.
Proof. intros H. unfold total_work. by rewrite (map_fold_delete_L _ _ key s m) by (done || lia). Qed.

Lemma total_work_insert m key s :
  total_work (<[key := s]> m) = (state_work s + total_work (delete key m))%nat.
Proof.
  rewrite (total_work_delete (<[key := s]> m) key s) by apply lookup_insert_eq.
  by rewrite delete_insert_eq.
Qed.

(** Every internal step leaves less to do. *)
Lemma internal_work x y : queue_ok x -> internal x y -> (work y < work x)%nat.
Proof.
  intros Hok Hi. destruct Hi as [q tr key s Hs Hp|q tr key s ok Hs Hp];
    (pose proof (Hok key) as Hentry; cbn [fst snd] in Hentry; rewrite Hs in Hentry;
     destruct (ok_run _ _ _ Hentry) as [r Hr]); unfold work; cbn [fst]; rewrite (total_work_delete (states q) key s) by done.
  - rewrite (drain_loop_states _ _ _ _ Hr). cbn [fst states]. rewrite total_work_insert.
    unfold state_work; cbn [at_point pending]. rewrite Hp. lia.
  - unfold drain_resume. destruct (ok && pending s) eqn:E.
    + apply andb_true_iff in E as [_ Hpend].
      destruct (match nextRun s with Some r => Some r | None => run s end) as [r'|] eqn:Er;
        [|destruct (nextRun s); congruence].
      rewrite (drain_loop_states _ _ _ r') by done. cbn [fst states]. rewrite total_work_insert.
      unfold state_work; cbn [at_point pending]. rewrite Hp, Hpend. lia.
    + cbn [fst]. unfold drain_finally, state_work. rewrite Hp. destruct (pending s); cbn [states]; [|lia].
      rewrite total_work_insert. unfold state_work; cbn. lia.
Qed.

Lemma internal_possible q tr key s : states q !! key = Some s -> exists y, internal (q, tr) y.
Proof.
  intros Hs. destruct (at_point s) eqn:E.
  - eexists. by eapply drain_starts.
  - eexists. by eapply (run_settles q tr key s true).
Qed.

Lemma internal_idle x : queue_ok x -> nf internal x -> states x.1 = ∅ /\ forall key, owed key x.2 = None.
Proof.
  destruct x as [q tr]. intros Hok Hnf. assert (states q = ∅) as He.
  { apply map_eq. intros key. rewrite lookup_empty. apply eq_None_not_Some. intros [s Hs].
    by apply Hnf, (internal_possible q tr key s). }
  split; [done|]. intros key. specialize (Hok key). cbn [fst snd] in *. rewrite He, lookup_empty in Hok. apply Hok.
Qed.

Lemma internal_nsteps n x y : queue_ok x -> nsteps internal n x y -> (n <= work x)%nat /\ queue_ok y.
Proof.
  intros Hok H. induction H as [x|n x y z Hxy Hyz IH]; [split; [lia|done]|].
  pose proof (internal_work x y Hok Hxy). destruct IH; [by eapply step_ok, step_internal|]. split; [lia|done].
Qed.

End queue.

(** C22. One repair read at a time: however requests, drains and settlements interleave,
    in the observed trace no run of a session starts while another of that session is
    under way, and one is under way exactly when the queue's state is suspended at it. *)
Theorem repair_runs_exclusive {R} (x : ChatReadRepairQueue R * list (event R)) key :
  star step initial x ->
  running key x.2 = Some (match states x.1 !! key with
                          | Some s => bool_decide (at_point s = Awaiting)
                          | None => false end).
Proof.
  intros H%reachable_ok. specialize (H key). destruct (states x.1 !! key) as [s|]; [apply H|apply H].
Qed.


(** A request, its drain starting, a second request during the run. *)
Definition sample_q1 : ChatReadRepairQueue nat := (request createChatReadRepairQueue "a" 3 0%nat).1.
Definition sample_q2 : ChatReadRepairQueue nat :=
  match states sample_q1 !! "a"%string with Some s => (drain_loop sample_q1 "a" s).1 | None => sample_q1 end.
Definition sample_queue : ChatReadRepairQueue nat * list (event nat) :=
  ((request sample_q2 "a" 5 1%nat).1, [Requested "a" 3; Started "a" 3 0%nat; Requested "a" 5]).

Lemma sample_queue_reachable : star step initial sample_queue.
Proof.
  apply (star_step _ _ (sample_q2, [Requested "a" 3; Started "a" 3 0%nat])).
  1: apply (star_step _ _ (sample_q1, [Requested "a" 3])).
  1: apply (star_step _ _ initial); [apply star_refl|].
  - apply (step_request createChatReadRepairQueue [] "a" 3 0%nat). done.
  - apply step_internal. apply (drain_starts sample_q1 [Requested "a" 3] "a" _ eq_refl eq_refl).
  - apply (step_request sample_q2 [Requested "a" 3; Started "a" 3 0%nat] "a" 5 1%nat). done.
Qed.

Lemma repair_runs_exclusive_witness : running "a" sample_queue.2 = Some true.
Proof. rewrite (repair_runs_exclusive sample_queue "a" sample_queue_reachable). reflexivity. Defined.

Definition sample_settle (q : ChatReadRepairQueue nat) (ok : bool) : ChatReadRepairQueue nat :=
  match states q !! "a"%string with Some s => (drain_resume q "a" s ok).1 | None => q end.

