(* ===== verification/ChatDurablePersist.v ===== *)
(** [chat/turns/chatDurablePersist.ts]: the debounced persistence of dirty sessions.
    The timers of the runtime are part of the state: [armed] holds the timers that were
    set and neither cleared nor fired, with the key their callback closes over.  The
    synchronous part of [flush] runs up to the call of [flushSession], which is
    recorded. *)

From S2P Require Import Prelude.
Open Scope Z_scope.

Record ChatDurablePersistQueue := {
  dirtyKeys : list string;
  timers : gmap string positive;
  armed : gmap positive string;
  nextTimer : positive;
  flushed : list string;
}.

Definition createChatDurablePersistQueue : ChatDurablePersistQueue :=
  {| dirtyKeys := []; timers := ∅; armed := ∅; nextTimer := 1; flushed := [] |}.

Definition normalizeKey (sessionKey : string) : string := trim sessionKey.

(** [Set.prototype.add] and [delete]. *)
Definition set_add (l : list string) (k : string) : list string := if decide (k ∈ l) then l else l ++ [k].
Definition set_remove (l : list string) (k : string) : list string := bfilter (fun k' => negb (bool_decide (k' = k))) l.

(** [if (timer)]: a timer's identifier is positive, so truthy. *)
Definition clearTimer (q : ChatDurablePersistQueue) (key : string) : ChatDurablePersistQueue :=
  match timers q !! key with
  | Some timer => {| dirtyKeys := dirtyKeys q; timers := delete key (timers q); armed := delete timer (armed q);
                     nextTimer := nextTimer q; flushed := flushed q |}
  | None => q
  end.

Definition schedule (q : ChatDurablePersistQueue) (key : string) : ChatDurablePersistQueue :=
  let q := clearTimer q key in
  {| dirtyKeys := dirtyKeys q; timers := <[key := nextTimer q]> (timers q);
     armed := <[nextTimer q := key]> (armed q); nextTimer := Pos.succ (nextTimer q); flushed := flushed q |}.

Definition markDirty (q : ChatDurablePersistQueue) (sessionKey : string) : ChatDurablePersistQueue :=
  let key := normalizeKey sessionKey in
  if negb (nonempty key) then q else
  schedule {| dirtyKeys := set_add (dirtyKeys q) key; timers := timers q; armed := armed q;
              nextTimer := nextTimer q; flushed := flushed q |} key.

Definition flush (q : ChatDurablePersistQueue) (sessionKey : string) : ChatDurablePersistQueue :=
  let key := normalizeKey sessionKey in
  if negb (nonempty key) || negb (bool_decide (key ∈ dirtyKeys q)) then q else
  let q := clearTimer q key in
  {| dirtyKeys := set_remove (dirtyKeys q) key; timers := timers q; armed := armed q;
     nextTimer := nextTimer q; flushed := flushed q ++ [key] |}.

(** [flushAll] starts every flush before it awaits them. *)
Definition flushAll (q : ChatDurablePersistQueue) : ChatDurablePersistQueue := foldl flush q (dirtyKeys q).

Definition clear (q : ChatDurablePersistQueue) (sessionKey : string) : ChatDurablePersistQueue :=
  let key := normalizeKey sessionKey in
  if negb (nonempty key) then q else
  let q := clearTimer q key in
  {| dirtyKeys := set_remove (dirtyKeys q) key; timers := timers q; armed := armed q;
     nextTimer := nextTimer q; flushed := flushed q |}.

(** The callback of a timer, which is no longer armed when it fires. *)
Definition timerFires (q : ChatDurablePersistQueue) (timer : positive) (key : string) : ChatDurablePersistQueue :=
  flush {| dirtyKeys := dirtyKeys q; timers := delete key (timers q); armed := delete timer (armed q);
           nextTimer := nextTimer q; flushed := flushed q |} key.

(** What happens to a queue, with a log of the calls: the marks, the clears and the
    calls of [flushSession]. *)
Inductive entry := Marked (key : string) | Cleared (key : string) | Persisted (key : string).

Inductive persist_step : ChatDurablePersistQueue * list entry -> ChatDurablePersistQueue * list entry -> Prop :=
  | persist_mark q tr k : persist_step (q, tr) (markDirty q k, tr ++ [Marked (normalizeKey k)])
  | persist_flush q tr k : persist_step (q, tr) (flush q k, tr ++ map Persisted (drop (length (flushed q)) (flushed (flush q k))))
  | persist_all q tr : persist_step (q, tr) (flushAll q, tr ++ map Persisted (drop (length (flushed q)) (flushed (flushAll q))))
  | persist_clear q tr k : persist_step (q, tr) (clear q k, tr ++ [Cleared (normalizeKey k)])
  | persist_timer q tr timer key :
      armed q !! timer = Some key ->
      persist_step (q, tr) (timerFires q timer key,
                            tr ++ map Persisted (drop (length (flushed q)) (flushed (timerFires q timer key)))).

(** * The invariant *)

(** Every dirty session has exactly one armed timer, and there is no other timer. *)
Record persist_ok (q : ChatDurablePersistQueue) : Prop := {
  pk_nodup : NoDup (dirtyKeys q);
  pk_keys : forall k, k ∈ dirtyKeys q -> k <> ""%string /\ normalizeKey k = k;
  pk_timers : forall k, k ∈ dirtyKeys q <-> is_Some (timers q !! k);
  pk_armed : forall t k, armed q !! t = Some k <-> timers q !! k = Some t;
  pk_fresh : forall t, is_Some (armed q !! t) -> (t < nextTimer q)%positive;
}.

Lemma elem_of_set_add l k x : x ∈ set_add l k <-> x = k \/ x ∈ l.
Proof. unfold set_add. case_decide; [naive_solver|]. rewrite elem_of_app, list_elem_of_singleton. tauto. Qed.
Lemma elem_of_set_remove l k x : x ∈ set_remove l k <-> x ∈ l /\ x <> k.
Proof. unfold set_remove. by rewrite elem_of_bfilter, negb_true_iff, bool_decide_eq_false. Qed.
Lemma NoDup_set_add l k : NoDup l -> NoDup (set_add l k).
Proof.
  intros H. unfold set_add. case_decide; [done|]. apply NoDup_app. split_and!; [done| |apply NoDup_singleton].
  intros x Hx ->%list_elem_of_singleton. done.
Qed.
#[export] Hint Rewrite elem_of_set_add elem_of_set_remove : js.
#[export] Hint Resolve NoDup_set_add : js.

(** Removing a session together with its timer. *)
Definition forget (q : ChatDurablePersistQueue) (key : string) (log : list string) : ChatDurablePersistQueue :=
  {| dirtyKeys := set_remove (dirtyKeys q) key; timers := delete key (timers q);
     armed := match timers q !! key with Some t => delete t (armed q) | None => armed q end;
     nextTimer := nextTimer q; flushed := log |}.

Lemma forget_ok q key log : persist_ok q -> persist_ok (forget q key log).
Proof.
  intros [H1 H2 H3 H4 H5]. constructor; cbn [forget dirtyKeys timers armed nextTimer].
  - by apply NoDup_bfilter.
  - intros k [Hk _]%elem_of_set_remove. auto.
  - intros k. rewrite elem_of_set_remove, H3, lookup_delete_is_Some.
    split; intros []; split; congruence || done.
  - intros t k. rewrite lookup_delete_Some. destruct (timers q !! key) as [t0|] eqn:E.
    + rewrite lookup_delete_Some, H4. split; (intros [Hne Hk]; split; [|done]).
      * intros ->. congruence.
      * intros ->. apply Hne. apply H4 in E, Hk. congruence.
    + rewrite H4. split; [|by intros []]. intros Hk. split; [|done]. intros ->. congruence.
  - intros t. destruct (timers q !! key); [|auto]. intros [_ ?]%lookup_delete_is_Some. auto.
Qed.

Lemma clearTimer_eq q key :
  clearTimer q key = {| dirtyKeys := dirtyKeys q; timers := delete key (timers q);
    armed := match timers q !! key with Some t => delete t (armed q) | None => armed q end;
    nextTimer := nextTimer q; flushed := flushed q |}.
Proof.
  unfold clearTimer. destruct (timers q !! key) as [t|] eqn:E; [done|].
  rewrite delete_id by done. by destruct q.
Qed.

Lemma clear_eq q k : normalizeKey k <> ""%string -> clear q k = forget q (normalizeKey k) (flushed q).
Proof. intros H%nonempty_true. unfold clear. rewrite H, clearTimer_eq. done. Qed.

Lemma flush_dirty q k :
  persist_ok q -> normalizeKey k ∈ dirtyKeys q ->
  flush q k = forget q (normalizeKey k) (flushed q ++ [normalizeKey k]).
Proof.
  intros Hok Hk. unfold flush. rewrite bool_decide_true by done.
  destruct (pk_keys _ Hok _ Hk) as [Hne%nonempty_true _]. rewrite Hne, clearTimer_eq. done.
Qed.

Lemma flush_clean q k : normalizeKey k ∉ dirtyKeys q -> flush q k = q.
Proof. intros H. unfold flush. rewrite (bool_decide_false (_ ∈ _)) by done. by rewrite orb_true_r. Qed.

(** A timer that fires persists its session, as an explicit flush would. *)
Lemma timerFires_eq q t key : persist_ok q -> armed q !! t = Some key -> timerFires q t key = flush q key.
Proof.
  intros Hok Ht. pose proof (proj1 (pk_armed _ Hok t key) Ht) as Hk.
  assert (key ∈ dirtyKeys q) as Hd by (apply (pk_timers _ Hok); eauto).
  destruct (pk_keys _ Hok _ Hd) as [Hne%nonempty_true Hn].
  rewrite flush_dirty by (done || by rewrite Hn). unfold timerFires, flush. cbn [dirtyKeys].
  rewrite Hn, Hne, bool_decide_true by done. cbn [negb orb]. rewrite clearTimer_eq. cbn.
  rewrite delete_delete_eq, lookup_delete_eq. unfold forget. by rewrite Hk.
Qed.

Lemma markDirty_ok q k : persist_ok q -> persist_ok (markDirty q k).
Proof.
  intros Hok. unfold markDirty. destruct (nonempty (normalizeKey k)) eqn:Hne; [|done].
  apply nonempty_true in Hne. set (key := normalizeKey k) in *. cbn [negb]. unfold schedule.
  rewrite clearTimer_eq. cbn [dirtyKeys timers armed nextTimer flushed].
  destruct Hok as [H1 H2 H3 H4 H5].
  assert (armed q !! nextTimer q = None) as Hfresh.
  { apply eq_None_not_Some. intros ?%H5. lia. }
  constructor; cbn [dirtyKeys timers armed nextTimer].
  - by apply NoDup_set_add.
  - intros x [->|Hx]%elem_of_set_add; [|auto]. split; [done|]. apply trim_trim.
  - intros x. rewrite elem_of_set_add, H3, lookup_insert_is_Some, lookup_delete_is_Some.
    destruct (decide (key = x)) as [->|Hne']; [split; [by left|by left]|].
    split; [intros [->|?]; [done|by right]|intros [?|[_ [_ ?]]]; [congruence|by right]].
  - intros t x. rewrite !lookup_insert_Some, lookup_delete_Some.
    assert (match timers q !! key with Some t => delete t (armed q) | None => armed q end !! t = Some x <->
            key <> x /\ timers q !! x = Some t) as ->.
    { destruct (timers q !! key) as [t0|] eqn:E; [rewrite lookup_delete_Some|]; rewrite H4.
      - split; (intros [Hn Hx]; split; [|done]); [congruence|]. intros ->. apply H4 in E, Hx. congruence.
      - split; [|by intros []]. intros Hx. split; [congruence|done]. }
    assert (timers q !! x <> Some (nextTimer q)) by (rewrite <- H4; congruence).
    split; [intros [[-> ->]|[Hn [Hk Hx]]]; [by left|right; done]|].
    intros [[-> <-]|[Hn [_ Hx]]]; [by left|]. right. split; [congruence|done].
  - intros t. rewrite lookup_insert_is_Some. intros [<-|[_ Ht]]; [lia|].
    assert (is_Some (armed q !! t)) as ?%H5; [|lia].
    destruct (timers q !! key); [by apply lookup_delete_is_Some in Ht as [_ ?]|done].
Qed.

Lemma flush_ok q k : persist_ok q -> persist_ok (flush q k).
Proof.
  intros Hok. destruct (decide (normalizeKey k ∈ dirtyKeys q)).
  - rewrite flush_dirty by done. by apply forget_ok.
  - by rewrite flush_clean.
Qed.

Lemma clear_ok q k : persist_ok q -> persist_ok (clear q k).
Proof.
  intros Hok. destruct (decide (normalizeKey k = ""%string)) as [E|].
  - unfold clear. by rewrite (proj2 (nonempty_false _) E).
  - rewrite clear_eq by done. by apply forget_ok.
Qed.

(** Flushing the dirty keys one by one. *)
Lemma flush_list q ks :
  persist_ok q -> NoDup ks -> (forall k, k ∈ ks -> k ∈ dirtyKeys q) ->
  persist_ok (foldl flush q ks) /\ flushed (foldl flush q ks) = flushed q ++ ks /\
  forall k, k ∈ dirtyKeys (foldl flush q ks) <-> k ∈ dirtyKeys q /\ k ∉ ks.
Proof.
  revert q; induction ks as [|k ks IH]; intros q Hok Hnd Hin; simpl.
  { rewrite app_nil_r. split_and!; [done|done|]. intros k. split; [|by intros []]. intros ?. split; [done|apply not_elem_of_nil]. }
  apply NoDup_cons in Hnd as [Hk Hnd]. assert (k ∈ dirtyKeys q) as Hd by (apply Hin; by left).
  destruct (pk_keys _ Hok k Hd) as [_ Hn].
  rewrite flush_dirty by (done || by rewrite Hn). rewrite Hn.
  destruct (IH (forget q k (flushed q ++ [k]))) as (H1 & H2 & H3); [by apply forget_ok|done| |].
  - intros x Hx. cbn. apply elem_of_set_remove. split; [apply Hin; by right|]. intros ->. done.
  - split_and!; [done|rewrite H2; cbn; by rewrite <- (assoc_L (++))|]. intros x. rewrite H3. cbn.
    rewrite elem_of_set_remove, not_elem_of_cons. tauto.
Qed.

Lemma flushAll_spec q :
  persist_ok q -> persist_ok (flushAll q) /\ flushed (flushAll q) = flushed q ++ dirtyKeys q /\ dirtyKeys (flushAll q) = [].
Proof.
  intros Hok. destruct (flush_list q (dirtyKeys q)) as (H1 & H2 & H3); [done|apply Hok|done|].
  split_and!; [done..|]. apply elem_of_nil_inv. intros k [? ?]%H3. done.
Qed.

(** * The log *)

(** The session is dirty after the log: its last event is a mark.  [None] when it was
    persisted while clean. *)
Definition dirty_event (key : string) (b : option bool) (e : entry) : option bool :=
  match b, e with
  | Some b, Marked k => Some (if decide (k = key) then true else b)
  | Some b, Cleared k => Some (if decide (k = key) then false else b)
  | Some b, Persisted k => if decide (k = key) then (if b then Some false else None) else Some b
  | None, _ => None
  end.
Definition dirty_after (key : string) (tr : list entry) : option bool := foldl (dirty_event key) (Some false) tr.

Definition log_matches (x : ChatDurablePersistQueue * list entry) : Prop :=
  persist_ok x.1 /\
  forall key, key <> ""%string -> dirty_after key x.2 = Some (bool_decide (key ∈ dirtyKeys x.1)).

Lemma dirty_after_app key tr es : dirty_after key (tr ++ es) = foldl (dirty_event key) (dirty_after key tr) es.
Proof. apply foldl_app. Qed.

(** A session persisted once, when dirty. *)
Lemma dirty_after_persisted key tr ks (l : list string) :
  NoDup ks -> (forall k, k ∈ ks -> k ∈ l) -> dirty_after key tr = Some (bool_decide (key ∈ l)) ->
  dirty_after key (tr ++ map Persisted ks) = Some (bool_decide (key ∈ l /\ key ∉ ks)).
Proof.
  revert tr l; induction ks as [|k ks IH]; intros tr l Hnd Hin Htr; simpl.
  { rewrite app_nil_r, Htr. f_equal. apply bool_decide_ext. split; [|by intros []]. split; [done|apply not_elem_of_nil]. }
  apply NoDup_cons in Hnd as [Hk Hnd]. rewrite cons_middle, (assoc_L (++)).
  rewrite (IH _ (set_remove l k)); [|done| |].
  - f_equal. apply bool_decide_ext. rewrite elem_of_set_remove, not_elem_of_cons. tauto.
  - intros x Hx. apply elem_of_set_remove. split; [apply Hin; by right|]. intros ->. done.
  - rewrite dirty_after_app, Htr. cbn. destruct (decide (k = key)) as [->|E].
    + rewrite (bool_decide_true (key ∈ l)) by (apply Hin; by left). f_equal.
      symmetry. apply bool_decide_eq_false. rewrite elem_of_set_remove. tauto.
    + f_equal. apply bool_decide_ext. rewrite elem_of_set_remove. naive_solver.
Qed.

Lemma flushes_match q q' tr ks :
  log_matches (q, tr) -> persist_ok q' -> NoDup ks -> (forall k, k ∈ ks -> k ∈ dirtyKeys q) ->
  flushed q' = flushed q ++ ks -> (forall k, k ∈ dirtyKeys q' <-> k ∈ dirtyKeys q /\ k ∉ ks) ->
  log_matches (q', tr ++ map Persisted (drop (length (flushed q)) (flushed q'))).
Proof.
  intros [Hok Htr] Hok' Hnd Hin Hf Hd. split; [done|]. intros key Hkey. cbn [fst snd] in *.
  rewrite Hf, drop_app_length, (dirty_after_persisted _ _ _ (dirtyKeys q)) by auto.
  f_equal. apply bool_decide_ext. symmetry. apply Hd.
Qed.

Lemma flush_matches q tr k :
  log_matches (q, tr) -> log_matches (flush q k, tr ++ map Persisted (drop (length (flushed q)) (flushed (flush q k)))).
Proof.
  intros Hm. destruct (id Hm) as [Hok _]. cbn [fst] in Hok. destruct (decide (normalizeKey k ∈ dirtyKeys q)) as [Hd|Hd].
  - apply (flushes_match q _ tr [normalizeKey k]); [done|by apply flush_ok|apply NoDup_singleton|set_solver|..].
    + by rewrite flush_dirty.
    + intros x. rewrite flush_dirty by done. cbn. rewrite elem_of_set_remove, list_elem_of_singleton. done.
  - rewrite flush_clean by done. rewrite drop_all, app_nil_r. done.
Qed.

Lemma persist_step_matches x y : log_matches x -> persist_step x y -> log_matches y.
Proof.
  intros Hm Hs. destruct Hs as [q tr k|q tr k|q tr|q tr k|q tr t key Ht]; destruct (id Hm) as [Hok Htr]; cbn [fst snd] in *.
  - split; [by apply markDirty_ok|]. intros key Hkey. cbn [fst snd]. rewrite dirty_after_app, Htr by done. cbn.
    f_equal. unfold markDirty. destruct (nonempty (normalizeKey k)) eqn:E; cbn [negb].
    + unfold schedule. rewrite clearTimer_eq. cbn [dirtyKeys]. destruct (decide (normalizeKey k = key)) as [Ek|Ek].
      * symmetry. apply bool_decide_eq_true, elem_of_set_add. by left.
      * apply bool_decide_ext. rewrite elem_of_set_add. naive_solver.
    + apply nonempty_false in E. by rewrite decide_False by congruence.
  - by apply flush_matches.
  - destruct (flushAll_spec q Hok) as (H1 & H2 & H3).
    apply (flushes_match q _ tr (dirtyKeys q)); [done|done|apply Hok|done|done|].
    intros k. rewrite H3. split; [by intros ?%not_elem_of_nil|by intros []].
  - split; [by apply clear_ok|]. intros key Hkey. cbn [fst snd]. rewrite dirty_after_app, Htr by done. cbn. f_equal.
    destruct (decide (normalizeKey k = ""%string)) as [E|E].
    + unfold clear. rewrite (proj2 (nonempty_false _) E). cbn [negb]. by rewrite decide_False by congruence.
    + rewrite clear_eq by done. cbn. destruct (decide (normalizeKey k = key)) as [Ek|Ek].
      * symmetry. apply bool_decide_eq_false. rewrite elem_of_set_remove. naive_solver.
      * apply bool_decide_ext. rewrite elem_of_set_remove. naive_solver.
  - rewrite timerFires_eq by done. by apply flush_matches.
Qed.

Definition persist_initial : ChatDurablePersistQueue * list entry := (createChatDurablePersistQueue, []).

Lemma persist_initial_matches : log_matches persist_initial.
Proof.
  split.
  - constructor; cbn; [constructor|by intros k ?%not_elem_of_nil| | |].
    + intros k. rewrite lookup_empty. split; [by intros ?%not_elem_of_nil|by intros []].
    + intros t k. by rewrite !lookup_empty.
    + intros t. rewrite lookup_empty. by intros [].
  - intros key _. done.
Qed.

Lemma persist_reachable x : star persist_step persist_initial x -> log_matches x.
Proof. intros H. eapply star_invariant; [exact H|apply persist_initial_matches|apply persist_step_matches]. Qed.

(** C23. No change is lost and none is written twice: after any sequence of marks,
    flushes, clears and timers, a session is dirty exactly when its last event is a
    mark, it was only ever persisted while dirty, and a dirty session has exactly one
    armed timer, whose firing persists it. *)
Theorem persist_exactly_once x key :
  star persist_step persist_initial x -> key <> ""%string ->
  dirty_after key x.2 = Some (bool_decide (key ∈ dirtyKeys x.1)) /\
  (key ∈ dirtyKeys x.1 ->
   exists t, (forall t', armed x.1 !! t' = Some key <-> t' = t) /\
     flushed (timerFires x.1 t key) = flushed x.1 ++ [key] /\ key ∉ dirtyKeys (timerFires x.1 t key)).
Proof.
  intros [Hok Htr]%persist_reachable Hkey. split; [by apply Htr|]. intros Hd.
  destruct (proj1 (pk_timers _ Hok key) Hd) as [t Ht]. exists t.
  assert (armed x.1 !! t = Some key) as Ha by by apply (pk_armed _ Hok).
  split; [intros t'; rewrite (pk_armed _ Hok); naive_solver|].
  destruct (pk_keys _ Hok key Hd) as [_ Hn]. rewrite timerFires_eq, flush_dirty by (done || by rewrite Hn).
  cbn. rewrite Hn, elem_of_set_remove. naive_solver.
Qed.

Lemma persist_exactly_once_witness :
  let q := markDirty (markDirty createChatDurablePersistQueue " s ") "s" in
  dirty_after "s" [Marked "s"; Marked "s"] = Some true /\ exists t, armed q !! t = Some "s"%string.
Proof.
  intros q. destruct (persist_exactly_once (q, [Marked "s"; Marked "s"]) "s") as [H1 H2]; [|done|].
  - apply (star_step _ _ (markDirty createChatDurablePersistQueue " s ", [Marked "s"])).
    + apply (star_step _ _ persist_initial); [apply star_refl|].
      apply (persist_mark createChatDurablePersistQueue [] " s ").
    + apply (persist_mark _ [Marked "s"] "s").
  - split; [exact H1|]. destruct H2 as (t & Ht & _); [by apply (bool_decide_unpack _)|]. exists t. by apply Ht.
Defined.
