(* ===== verification/ChatTurnView.v ===== *)
(** What the transcript shows about a session's turns: [chat/turns/chatPromptStatus.ts]
    (is a prompt still being answered, and how it ended), [chat/chatTurnRange.ts],
    [chat/chatPlan.ts] (the agent's current plan) and [chat/chatCopyRange.ts] with
    [chat/export/chatPromptCopy.ts] (copying the answer to a prompt). *)

From S2P Require Import Prelude Json RegistryTypes TurnIndex ChatWire.
Open Scope Z_scope.

(** A message's [turnIndex] is an integer, so [Number], [??] and [Math.trunc] leave it. *)
Definition positiveTurnIndex (message : RegistryChatMessage) : Z := Z.max 0 (msg_turnIndex message).

Definition has_method (method : string) (message : RegistryChatMessage) : bool :=
  bool_decide (msg_method message = method).

(** * [chatPromptStatus.ts] *)

Inductive ChatPromptStatus := Confirming | Responding | Undelivered | Queued.

Inductive ChatPromptDoneKind := DoneCancelled | DoneInterrupted | DoneFailed.
Record ChatPromptDoneStatus := { done_kind : ChatPromptDoneKind; done_label : string; done_message : string }.

Definition isPromptStart (message : RegistryChatMessage) : bool :=
  has_method "prompt_request" message || has_method "user_message_chunk" message.

(** The loop over the ordered turns, after the turns up to the prompt. *)
Fixpoint promptStatusLoop (promptTurnIndex : Z) (ordered : list RegistryChatMessage) : option ChatPromptStatus :=
  match ordered with
  | [] => Some Responding
  | message :: rest =>
      if positiveTurnIndex message <=? promptTurnIndex then promptStatusLoop promptTurnIndex rest
      else if isPromptStart message then Some Responding
      else if has_method "prompt_done" message then None
      else promptStatusLoop promptTurnIndex rest
  end.

Definition orderedSessionTurns (turns : list RegistryChatMessage) (sessionId : string) : list RegistryChatMessage :=
  js_sort (by_key positiveTurnIndex) (bfilter (fun message => bool_decide (msg_sessionId message = sessionId)) turns).

Definition resolvePromptTurnStatus (turns : list RegistryChatMessage) (promptTurn : RegistryChatMessage)
    : option ChatPromptStatus :=
  if negb (isPromptStart promptTurn) then None else
  let promptTurnIndex := positiveTurnIndex promptTurn in
  if promptTurnIndex <=? 0 then Some Responding else
  promptStatusLoop promptTurnIndex (orderedSessionTurns turns (msg_sessionId promptTurn)).

Definition resolvePromptDoneStatus (param : list (string * value)) : option ChatPromptDoneStatus :=
  let stopReason := match prop param "stopReason" with VStr s => toLowerCase (trim s) | _ => "" end in
  let message := match prop param "message" with VStr s => trim s | _ => "" end in
  if bool_decide (stopReason = "cancelled"%string) || bool_decide (stopReason = "canceled"%string) then
    Some {| done_kind := DoneCancelled; done_label := "Cancelled"; done_message := message |}
  else if bool_decide (stopReason = "interrupted"%string) then
    Some {| done_kind := DoneInterrupted; done_label := "Interrupted"; done_message := message |}
  else if bool_decide (stopReason = "failed"%string) || bool_decide (stopReason = "error"%string) then
    Some {| done_kind := DoneFailed; done_label := "Failed"; done_message := message |}
  else None.

(** * [chatTurnRange.ts] *)

(** [for (turnIndex = start; turnIndex <= end; ...) if (!indexes.has(turnIndex)) return false]. *)
Fixpoint range_in (indexes : list Z) (turnIndex : Z) (n : nat) : bool :=
  match n with
  | O => true
  | S n' => bool_decide (turnIndex ∈ indexes) && range_in indexes (turnIndex + 1) n'
  end.

Definition hasContinuousTurnRange (turns : list RegistryChatMessage) (startTurnIndex endTurnIndex : Z) : bool :=
  let start := Z.max 0 startTurnIndex in
  let fin := Z.max 0 endTurnIndex in
  if (start <=? 0) || (fin <=? 0) || (fin <? start) then false else
  let indexes := unique (bfilter (fun i => (start <=? i) && (i <=? fin)) (map positiveTurnIndex turns)) in
  range_in indexes start (Z.to_nat (fin - start + 1)).

(** * [chatPlan.ts] *)

Inductive ChatPlanEntryState := PlanPending | PlanInProgress | PlanCompleted.
#[export] Instance ChatPlanEntryState_eq_dec : EqDecision ChatPlanEntryState.
Proof. solve_decision. Defined.

Record ChatPlanEntry := { plan_content : string; plan_status : ChatPlanEntryState }.

Record ChatPlanSnapshot := {
  snap_turnIndex : Z;
  snap_entries : list ChatPlanEntry;
  snap_activeEntry : option ChatPlanEntry;
  snap_activeIndex : option nat;
  snap_completedCount : nat;
  snap_totalCount : nat;
}.

Definition normalizePlanStatus (status : value) : ChatPlanEntryState :=
  let v := match status with VStr s => toLowerCase (trim s) | _ => ""%string end in
  if bool_decide (v ∈ ["completed"; "complete"; "done"; "success"; "succeeded"]%string) then PlanCompleted
  else if bool_decide (v ∈ ["in_progress"; "in-progress"; "inprogress"; "active"; "running"]%string) then PlanInProgress
  else PlanPending.

Definition isChatPlanMessage (message : RegistryChatMessage) : bool := has_method "agent_plan" message.

(** An item of [entries]: arrays are objects without a [content]. *)
Definition normalizePlanEntry (item : value) : option ChatPlanEntry :=
  match item with
  | VObj entry =>
      let content := match prop entry "content" with VStr s => trim s | _ => ""%string end in
      if negb (nonempty content) then None
      else Some {| plan_content := content; plan_status := normalizePlanStatus (prop entry "status") |}
  | _ => None
  end.

Definition normalizeChatPlanEntries (param : list (string * value)) : list ChatPlanEntry :=
  omap normalizePlanEntry (array_items (prop param "entries")).

Definition plan_completed (entry : ChatPlanEntry) : bool := bool_decide (plan_status entry = PlanCompleted).
Definition plan_in_progress (entry : ChatPlanEntry) : bool := bool_decide (plan_status entry = PlanInProgress).

Definition plan_activeIndex (entries : list ChatPlanEntry) : option nat :=
  match find_down plan_in_progress entries (length entries) with
  | Some i => Some i
  | None => match findIndex (fun entry => negb (plan_completed entry)) entries with
            | Some i => Some i
            | None => match length entries with O => None | S n => Some n end
            end
  end.

(** [summarizeChatPlanEntries], together with the fields its caller adds. *)
Definition summarizeChatPlanEntries (turnIndex : Z) (entries : list ChatPlanEntry) : ChatPlanSnapshot :=
  let completedCount := foldl (fun sum entry => (sum + if plan_completed entry then 1 else 0)%nat) 0%nat entries in
  let activeIndex := plan_activeIndex entries in
  {| snap_turnIndex := turnIndex; snap_entries := entries;
     snap_activeEntry := i ← activeIndex; entries !! i;
     snap_activeIndex := activeIndex; snap_completedCount := completedCount;
     snap_totalCount := length entries |}.

Definition planStep (acc : Z * option RegistryChatMessage) (message : RegistryChatMessage)
    : Z * option RegistryChatMessage :=
  let '(latestPromptTurnIndex, latestPlanMessage) := acc in
  let turnIndex := positiveTurnIndex message in
  if isPromptStart message then (Z.max latestPromptTurnIndex turnIndex, latestPlanMessage)
  else if isChatPlanMessage message &&
          match latestPlanMessage with None => true | Some p => positiveTurnIndex p <=? turnIndex end
  then (latestPromptTurnIndex, Some message)
  else acc.

Definition extractLatestChatPlan (messages : list RegistryChatMessage) : option ChatPlanSnapshot :=
  match foldl planStep (0, None) messages with
  | (_, None) => None
  | (latestPromptTurnIndex, Some latestPlanMessage) =>
      if positiveTurnIndex latestPlanMessage <? latestPromptTurnIndex then None else
      match normalizeChatPlanEntries (msg_param latestPlanMessage) with
      | [] => None
      | entries => Some (summarizeChatPlanEntries (positiveTurnIndex latestPlanMessage) entries)
      end
  end.

(** * [chatCopyRange.ts] *)

Inductive ChatCopyRangeError := MissingDone | MissingRequest | Gap | EmptyAgentResponse.
#[export] Instance ChatCopyRangeError_eq_dec : EqDecision ChatCopyRangeError.
Proof. solve_decision. Defined.

Record ChatCopyRange := { copy_markdown : string; copy_startTurnIndex : Z; copy_endTurnIndex : Z }.

Definition newline : string := String (Ascii.ascii_of_nat 10) "".

Definition textFromParam (param : list (string * value)) : string :=
  match prop param "text", prop param "output", prop param "contentBlocks" with
  | VStr s, _, _ => s
  | _, VStr s, _ => s
  | _, _, VArr items =>
      join newline (filter_truthy (map (fun item => match item with
        | VObj block => match prop block "text" with VStr s => s | _ => ""%string end
        | _ => ""%string end) items))
  | _, _, _ => ""
  end.

(** [buildPromptAgentMarkdown] on entries that are all of kind [message]. *)
Definition buildPromptAgentMarkdown (texts : list string) : string :=
  trim (join (newline +:+ newline) (filter_truthy (map trim texts))).

Definition isDoneAt (doneTurnIndex : Z) (message : RegistryChatMessage) : bool :=
  has_method "prompt_done" message && (msg_turnIndex message =? doneTurnIndex).

Definition buildPromptDoneCopyRange (turns : list RegistryChatMessage) (doneTurnIndex : Z)
    : ChatCopyRange + ChatCopyRangeError :=
  let ordered := js_sort (by_key msg_turnIndex) turns in
  match findIndex (isDoneAt doneTurnIndex) ordered with
  | None => inr MissingDone
  | Some doneIndex =>
      match find_down (has_method "prompt_request") ordered doneIndex with
      | None => inr MissingRequest
      | Some requestIndex =>
          match ordered !! requestIndex, ordered !! doneIndex with
          | Some request, Some done =>
              let startTurnIndex := msg_turnIndex request in
              let endTurnIndex := msg_turnIndex done in
              if negb (hasContinuousTurnRange ordered startTurnIndex endTurnIndex) then inr Gap else
              let answer := bfilter (has_method "agent_message_chunk")
                (take (doneIndex - S requestIndex) (drop (S requestIndex) ordered)) in
              let markdown := buildPromptAgentMarkdown (map (fun message => textFromParam (msg_param message)) answer) in
              if negb (nonempty markdown) then inr EmptyAgentResponse else
              inl {| copy_markdown := markdown; copy_startTurnIndex := startTurnIndex;
                     copy_endTurnIndex := endTurnIndex |}
          | _, _ => inr MissingDone
          end
      end
  end.

(** * Lemmas *)

Implicit Types (m p d : RegistryChatMessage) (l turns : list RegistryChatMessage).

Lemma isPromptStart_done m : has_method "prompt_done" m = true -> isPromptStart m = false.
Proof. unfold isPromptStart, has_method. rewrite bool_decide_eq_true. by intros ->. Qed.

(** A strictly ordered list of turns. *)
Definition strictly_ordered (key : RegistryChatMessage -> Z) (l : list RegistryChatMessage) : Prop :=
  StronglySorted (fun a b => key a < key b) l.

Lemma sorted_by_strict (key : RegistryChatMessage -> Z) l :
  NoDup (map key l) -> strictly_ordered key (js_sort (by_key key) l).
Proof.
  intros Hnd. apply sorted_strict; [apply by_key_sorted|].
  assert (map key (js_sort (by_key key) l) ≡ₚ map key l) as -> by apply Permutation_map, js_sort_perm. done.
Qed.

Lemma strictly_ordered_lookup key l i j a b :
  strictly_ordered key l -> l !! i = Some a -> l !! j = Some b -> (i < j)%nat -> key a < key b.
Proof. intros Hs Ha Hb. apply (StronglySorted_lookup_lt _ _ _ _ _ _ Hs Ha Hb). Qed.

Lemma promptStatusLoop_spec pi l :
  strictly_ordered positiveTurnIndex l ->
  promptStatusLoop pi l = None <->
  exists d, d ∈ l /\ has_method "prompt_done" d = true /\ pi < positiveTurnIndex d /\
    forall s, s ∈ l -> isPromptStart s = true -> ~ (pi < positiveTurnIndex s < positiveTurnIndex d).
Proof.
  induction 1 as [|m l Hl IH Hm]; simpl; [split; [done|by intros (d & ?%not_elem_of_nil & _)]|].
  rewrite Forall_forall in Hm. setoid_rewrite elem_of_cons. destruct (positiveTurnIndex m <=? pi) eqn:E1.
  { rewrite IH. split; intros (d & Hd & Hm' & Hlt & Hno).
    - exists d. split_and!; [by right|done..|]. intros s [->|Hs] Hst; [lia|by apply Hno].
    - destruct Hd as [->|Hd]; [lia|]. exists d. split_and!; [done..|]. intros s Hs. apply Hno. by right. }
  destruct (isPromptStart m) eqn:E2.
  { split; [done|]. intros (d & Hd & Hm' & Hlt & Hno). destruct Hd as [->|Hd].
    - rewrite isPromptStart_done in E2 by done. done.
    - exfalso. apply (Hno m); [by left|done|]. specialize (Hm d Hd). simpl in Hm. lia. }
  destruct (has_method "prompt_done" m) eqn:E3.
  { split; [|done]. intros _. exists m. split_and!; [by left|done|lia|].
    intros s [->|Hs] Hst; [lia|]. specialize (Hm s Hs). simpl in Hm. lia. }
  rewrite IH. split; intros (d & Hd & Hm' & Hlt & Hno).
  - exists d. split_and!; [by right|done..|]. intros s [->|Hs] Hst; [congruence|by apply Hno].
  - destruct Hd as [->|Hd]; [congruence|]. exists d. split_and!; [done..|]. intros s Hs. apply Hno. by right.
Qed.

Lemma range_in_true (s : list Z) a n : range_in s a n = true <-> forall i, a <= i < a + Z.of_nat n -> i ∈ s.
Proof.
  revert a; induction n as [|n IH]; intros a; simpl; [split; [lia|done]|].
  rewrite andb_true_iff, IH, bool_decide_eq_true. split.
  - intros [Ha Hr] i Hi. destruct (decide (i = a)) as [->|]; [done|apply Hr; lia].
  - intros H. split; [apply H; lia|]. intros i Hi. apply H. lia.
Qed.

Lemma hasContinuousTurnRange_spec turns s e :
  hasContinuousTurnRange turns s e = true <->
  0 < s <= e /\ forall i, s <= i <= e -> exists m, m ∈ turns /\ positiveTurnIndex m = i.
Proof.
  unfold hasContinuousTurnRange. destruct (_ || _ || _) eqn:E.
  - split; [done|]. intros [Hse _]. rewrite !orb_true_iff in E. lia.
  - apply orb_false_iff in E as [[E1 E2]%orb_false_iff E3]. rewrite range_in_true.
    assert (forall i, i ∈ unique (bfilter (fun i => (Z.max 0 s <=? i) && (i <=? Z.max 0 e)) (map positiveTurnIndex turns))
      <-> s <= i <= e /\ exists m, m ∈ turns /\ positiveTurnIndex m = i) as Hin.
    { intros i. rewrite elem_of_unique, elem_of_bfilter, elem_of_map, andb_true_iff. split.
      - intros [(m & -> & Hm) ?]. split; [lia|eauto].
      - intros [? (m & Hm & <-)]. split; [eauto|lia]. }
    setoid_rewrite Hin. split.
    + intros H. split; [lia|]. intros i Hi. apply H. lia.
    + intros [_ H] i Hi. split; [lia|]. apply H. lia.
Qed.

(** A prompt's status: with distinct turn indexes, a prompt stops being shown as
    "responding" exactly when a [prompt_done] of its session follows it with no other
    prompt start in between. *)
Theorem prompt_status_spec turns p :
  let session m := msg_sessionId m = msg_sessionId p in
  isPromptStart p = true -> 0 < msg_turnIndex p ->
  NoDup (map positiveTurnIndex (bfilter (fun m => bool_decide (session m)) turns)) ->
  resolvePromptTurnStatus turns p = None <->
  exists d, d ∈ turns /\ session d /\ has_method "prompt_done" d = true /\ msg_turnIndex p < positiveTurnIndex d /\
    forall s, s ∈ turns -> session s -> isPromptStart s = true ->
      ~ (msg_turnIndex p < positiveTurnIndex s < positiveTurnIndex d).
Proof.
  intros session Hp Hpos Hnd. unfold resolvePromptTurnStatus. rewrite Hp. cbn [negb].
  assert (positiveTurnIndex p = msg_turnIndex p) as -> by (unfold positiveTurnIndex; lia).
  replace (msg_turnIndex p <=? 0) with false by lia.
  rewrite promptStatusLoop_spec by by apply sorted_by_strict. unfold orderedSessionTurns.
  setoid_rewrite elem_of_js_sort. setoid_rewrite elem_of_bfilter. setoid_rewrite bool_decide_eq_true. naive_solver.
Qed.

Definition sample_prompt (i : Z) (method : string) : RegistryChatMessage :=
  {| msg_sessionId := "s"; msg_turnIndex := i; msg_method := method;
     msg_param := [("text"%string, VStr "answer")]; msg_finished := true |}.

Lemma prompt_status_spec_witness :
  resolvePromptTurnStatus [sample_prompt 3 "prompt_done"; sample_prompt 1 "prompt_request"]
    (sample_prompt 1 "prompt_request") = None.
Proof.
  apply prompt_status_spec; [reflexivity|reflexivity|by apply (bool_decide_unpack _)|].
  exists (sample_prompt 3 "prompt_done"). split_and!; [by left|done|done|done|].
  intros s [->|[->|?%not_elem_of_nil]%elem_of_cons]%elem_of_cons _ Hst; [by vm_compute in Hst|intros [H _]; by vm_compute in H|done].
Defined.

(** Before the done turn in the list is before it by index. *)
Lemma ordered_before l (di j : nat) d q :
  strictly_ordered msg_turnIndex l -> l !! di = Some d -> l !! j = Some q ->
  (j < di)%nat <-> msg_turnIndex q < msg_turnIndex d.
Proof.
  intros Hs Hd Hq. split; intros H; [by eapply strictly_ordered_lookup|].
  destruct (Nat.lt_trichotomy j di) as [?|[->|?]]; [done|simplify_eq; lia|].
  assert (msg_turnIndex d < msg_turnIndex q) by by eapply strictly_ordered_lookup. lia.
Qed.

(** The request the downward loop finds is the last one before the done turn. *)
Lemma find_request_spec l (di : nat) d :
  strictly_ordered msg_turnIndex l -> l !! di = Some d ->
  let request q := q ∈ l /\ has_method "prompt_request" q = true /\ msg_turnIndex q < msg_turnIndex d in
  match find_down (has_method "prompt_request") l di with
  | None => forall q, ~ request q
  | Some ri => exists q, l !! ri = Some q /\ request q /\
      forall q', request q' -> msg_turnIndex q' <= msg_turnIndex q
  end.
Proof.
  intros Hs Hd request. destruct (find_down _ l di) as [ri|] eqn:Er.
  - apply find_down_Some in Er as (Hlt & (q & Hq & Hqm) & Hlast). exists q.
    split_and!; [done|split_and!; [by eapply list_elem_of_lookup_2|done|by eapply (ordered_before l di ri)]|].
    intros q' ([j Hj]%list_elem_of_lookup & Hm' & Hlt').
    destruct (Nat.lt_trichotomy ri j) as [Hj'|[->|Hj']]; [|simplify_eq; lia|].
    + rewrite (Hlast j q') in Hm'; [done|split; [done|by eapply (ordered_before l di j)]|done].
    + assert (msg_turnIndex q' < msg_turnIndex q) by by eapply strictly_ordered_lookup. lia.
  - intros q ([j Hj]%list_elem_of_lookup & Hqm & Hlt).
    rewrite (proj1 (find_down_None _ _ _) Er j q) in Hqm; [done|by eapply (ordered_before l di j)|done].
Qed.

(** A range that is not continuous misses an index. *)
Lemma range_gap turns s e :
  0 < s <= e -> hasContinuousTurnRange turns s e = false ->
  exists i, s <= i <= e /\ forall m, m ∈ turns -> positiveTurnIndex m <> i.
Proof.
  intros Hse Hf. destruct (decide (Forall (fun i => Exists (fun m => positiveTurnIndex m = i) turns) (seqZ s (e - s + 1))))
    as [Hyes|Hno].
  - exfalso. rewrite Forall_forall in Hyes. assert (hasContinuousTurnRange turns s e = true); [|congruence].
    apply hasContinuousTurnRange_spec. split; [done|]. intros i Hi.
    assert (i ∈ seqZ s (e - s + 1)) as Hi' by (apply elem_of_seqZ; lia).
    by apply Hyes, Exists_exists in Hi'.
  - apply not_Forall_Exists, Exists_exists in Hno as (i & Hi%elem_of_seqZ & Hni); [|intros ?; apply _].
    exists i. split; [lia|]. intros m Hm E. apply Hni, Exists_exists. eauto.
Qed.

Lemma findIndex_done l doneTurn :
  match findIndex (isDoneAt doneTurn) l with
  | Some di => exists d, l !! di = Some d /\ has_method "prompt_done" d = true /\ msg_turnIndex d = doneTurn
  | None => forall m, m ∈ l -> has_method "prompt_done" m = true -> msg_turnIndex m <> doneTurn
  end.
Proof.
  destruct (findIndex _ l) as [di|] eqn:Ed.
  - apply findIndex_Some in Ed as (l1 & d & l2 & -> & <- & Hd & _). exists d. apply andb_true_iff in Hd as [? ?%Z.eqb_eq].
    split_and!; [|done..]. by rewrite lookup_app_r, Nat.sub_diag by lia.
  - apply findIndex_None in Ed. rewrite Forall_forall in Ed. intros m Hm Hd E. apply Ed in Hm.
    unfold isDoneAt in Hm. by rewrite Hd, E, Z.eqb_refl in Hm.
Qed.

(** Copying the answer to a prompt: with distinct positive indexes, the copied
    range runs from the last [prompt_request] before the given [prompt_done] to it,
    with every turn in between present; each refusal says what is missing. *)
Theorem copy_range_spec turns doneTurn :
  NoDup (map msg_turnIndex turns) -> Forall (fun m => 0 < msg_turnIndex m) turns ->
  let request q := q ∈ turns /\ has_method "prompt_request" q = true /\ msg_turnIndex q < doneTurn in
  match buildPromptDoneCopyRange turns doneTurn with
  | inl r => copy_endTurnIndex r = doneTurn /\ copy_markdown r <> ""%string /\
             (exists q, request q /\ msg_turnIndex q = copy_startTurnIndex r) /\
             (forall q, request q -> msg_turnIndex q <= copy_startTurnIndex r) /\
             (forall i, copy_startTurnIndex r <= i <= doneTurn -> exists m, m ∈ turns /\ msg_turnIndex m = i)
  | inr MissingDone => forall m, m ∈ turns -> has_method "prompt_done" m = true -> msg_turnIndex m <> doneTurn
  | inr MissingRequest => forall q, ~ request q
  | inr Gap => exists q i, request q /\ msg_turnIndex q <= i <= doneTurn /\ forall m, m ∈ turns -> msg_turnIndex m <> i
  | inr EmptyAgentResponse => True
  end.
Proof.
  intros Hnd Hpos request. unfold buildPromptDoneCopyRange.
  pose proof (sorted_by_strict msg_turnIndex turns Hnd) as Hs. set (ordered := js_sort _ turns) in *.
  assert (forall m, m ∈ ordered <-> m ∈ turns) as Hin by (intros; apply elem_of_js_sort).
  rewrite Forall_forall in Hpos.
  assert (forall m, m ∈ turns -> positiveTurnIndex m = msg_turnIndex m) as Hidx.
  { intros m Hm. specialize (Hpos m Hm). simpl in Hpos. unfold positiveTurnIndex. lia. }
  pose proof (findIndex_done ordered doneTurn) as Hdone.
  destruct (findIndex _ ordered) as [di|]; [|by intros m Hm%Hin; apply Hdone].
  destruct Hdone as (d & Hd & Hdm & <-). pose proof (find_request_spec ordered di d Hs Hd) as Hreq.
  cbn zeta in Hreq.
  destruct (find_down _ ordered di) as [ri|]; [|by intros q (?%Hin & ?); apply (Hreq q)].
  destruct Hreq as (q & Hq & Hreq & Hmax). assert (request q) as Hreq' by (by rewrite <- Hin in Hreq || by destruct Hreq as (?%Hin & ?)). rewrite Hq, Hd.
  assert (0 < msg_turnIndex q <= msg_turnIndex d) as Hqd.
  { destruct Hreq' as (Hqt & _ & ?). specialize (Hpos q Hqt). simpl in Hpos. lia. }
  destruct (hasContinuousTurnRange _ _ _) eqn:Erange; cbn [negb].
  - apply hasContinuousTurnRange_spec in Erange as [_ Hall].
    destruct (nonempty _) eqn:Ene; cbn [negb]; [|done]. apply nonempty_true in Ene.
    cbn [copy_endTurnIndex copy_markdown copy_startTurnIndex]. split_and!; [done|done|by exists q|by intros q' (?%Hin & ?); apply Hmax|].
    intros i Hi. destruct (Hall i) as (m & Hm%Hin & Hmi); [lia|]. exists m. by rewrite <- Hidx.
  - apply range_gap in Erange as (i & Hi & Hmiss); [|done]. exists q, i. split_and!; [done|lia|lia|].
    intros m Hm. rewrite <- Hidx by done. by apply Hmiss, Hin.
Qed.

Lemma copy_range_spec_witness :
  let turns := [sample_prompt 1 "prompt_request"; sample_prompt 2 "agent_message_chunk"; sample_prompt 3 "prompt_done"] in
  buildPromptDoneCopyRange turns 3 = inl {| copy_markdown := "answer"; copy_startTurnIndex := 1; copy_endTurnIndex := 3 |} /\
  forall i, 1 <= i <= 3 -> exists m, m ∈ turns /\ msg_turnIndex m = i.
Proof.
  intros turns. split; [reflexivity|].
  pose proof (copy_range_spec turns 3 ltac:(by apply (bool_decide_unpack _)) ltac:(by repeat constructor)) as H.
  apply H.
Defined.
