(* ===== verification/ChatPromptQueue.v ===== *)
(** [chat/session/chatPromptQueue.ts]: the prompts and compactions a user queues while
    a session is busy, keyed by runtime session.  The updates return new objects and
    never mutate, so copies ([cloneItem], spreads) are the values themselves; the one
    place that compares references, [moveQueuedChatPromptToFront], removes the very
    element [find] returned. *)

From S2P Require Import Prelude RegistryTypes.
Open Scope Z_scope.

(** A [RegistryChatContentBlock] is the object's properties. *)
Definition block : Type := list (string * value).

Record QueuedChatPrompt := {
  prompt_id : string;
  prompt_sessionId : string;
  prompt_blocks : list block;
  prompt_createdAt : string;
  prompt_text : string;
}.
Record QueuedChatCompact := {
  compact_id : string;
  compact_sessionId : string;
  compact_createdAt : string;
}.
Inductive QueuedChatItem :=
  | QPrompt (p : QueuedChatPrompt)
  | QCompact (c : QueuedChatCompact).

Notation QueuedChatItemsByKey := (gmap string (list QueuedChatItem)).

Definition item_id (item : QueuedChatItem) : string :=
  match item with QPrompt p => prompt_id p | QCompact c => compact_id c end.
Definition is_prompt (item : QueuedChatItem) : bool := match item with QPrompt _ => true | QCompact _ => false end.

(** [{...item, sessionId}]. *)
Definition with_session (sessionId : string) (item : QueuedChatItem) : QueuedChatItem :=
  match item with
  | QPrompt p => QPrompt {| prompt_id := prompt_id p; prompt_sessionId := sessionId; prompt_blocks := prompt_blocks p;
                            prompt_createdAt := prompt_createdAt p; prompt_text := prompt_text p |}
  | QCompact c => QCompact {| compact_id := compact_id c; compact_sessionId := sessionId;
                              compact_createdAt := compact_createdAt c |}
  end.

Definition cloneItem (item : QueuedChatItem) : QueuedChatItem :=
  match item with
  | QPrompt p => QPrompt {| prompt_id := prompt_id p; prompt_sessionId := prompt_sessionId p;
                            prompt_blocks := map (fun block => block) (prompt_blocks p);
                            prompt_createdAt := prompt_createdAt p; prompt_text := prompt_text p |}
  | QCompact c => QCompact c
  end.

(** [state[runtimeKey] ?? []]. *)
Definition queued (state : QueuedChatItemsByKey) (runtimeKey : string) : list QueuedChatItem :=
  default [] (state !! runtimeKey).

Definition enqueueChatItem (state : QueuedChatItemsByKey) (runtimeKey : string) (item : QueuedChatItem)
    : QueuedChatItemsByKey :=
  <[runtimeKey := queued state runtimeKey ++ [cloneItem item]]> state.

Definition enqueueChatItemToFront (state : QueuedChatItemsByKey) (runtimeKey : string) (item : QueuedChatItem)
    : QueuedChatItemsByKey :=
  <[runtimeKey := cloneItem item :: queued state runtimeKey]> state.

Definition enqueueChatPrompt (state : QueuedChatItemsByKey) (runtimeKey : string) (prompt : QueuedChatPrompt)
    : QueuedChatItemsByKey :=
  enqueueChatItem state runtimeKey (QPrompt prompt).

Definition hasQueuedChatCompact (state : QueuedChatItemsByKey) (runtimeKey : string) : bool :=
  some (fun item => negb (is_prompt item)) (queued state runtimeKey).

Definition enqueueChatCompact (state : QueuedChatItemsByKey) (runtimeKey : string) (compact : QueuedChatCompact)
    : QueuedChatItemsByKey :=
  if hasQueuedChatCompact state runtimeKey then state else enqueueChatItem state runtimeKey (QCompact compact).

Definition queuedChatPrompts (state : QueuedChatItemsByKey) (runtimeKey : string) : list QueuedChatPrompt :=
  omap (fun item => match cloneItem item with QPrompt p => Some p | QCompact _ => None end) (queued state runtimeKey).

(** [{...state, [key]: next}], or the key removed when nothing is left. *)
Definition store_rest (state : QueuedChatItemsByKey) (runtimeKey : string) (next : list QueuedChatItem)
    : QueuedChatItemsByKey :=
  match next with [] => delete runtimeKey state | _ => <[runtimeKey := next]> state end.

Definition cancelQueuedChatItem (state : QueuedChatItemsByKey) (runtimeKey itemId : string) : QueuedChatItemsByKey :=
  store_rest state runtimeKey (bfilter (fun item => negb (bool_decide (item_id item = itemId))) (queued state runtimeKey)).

Definition cancelQueuedChatPrompt (state : QueuedChatItemsByKey) (runtimeKey promptId : string) : QueuedChatItemsByKey :=
  cancelQueuedChatItem state runtimeKey promptId.

Definition moveQueuedChatPromptToFront (state : QueuedChatItemsByKey) (runtimeKey promptId : string)
    : QueuedChatItemsByKey :=
  let current := queued state runtimeKey in
  match findIndex (fun item => is_prompt item && bool_decide (item_id item = promptId)) current with
  | None => state
  | Some i => match current !! i with
              | None => state
              | Some target => <[runtimeKey := target :: delete i current]> state
              end
  end.

Definition shiftNextQueuedChatItem (state : QueuedChatItemsByKey) (runtimeKey : string)
    : QueuedChatItemsByKey * option QueuedChatItem :=
  match queued state runtimeKey with
  | [] => (state, None)
  | item :: rest => (store_rest state runtimeKey rest, Some (cloneItem item))
  end.

Definition shiftNextQueuedChatPrompt (state : QueuedChatItemsByKey) (runtimeKey : string)
    : QueuedChatItemsByKey * option QueuedChatPrompt :=
  match queued state runtimeKey with
  | QPrompt _ :: _ =>
      let '(state', item) := shiftNextQueuedChatItem state runtimeKey in
      (state', match item with Some (QPrompt p) => Some p | _ => None end)
  | _ => (state, None)
  end.

Definition moveQueuedChatPrompts (state : QueuedChatItemsByKey) (fromRuntimeKey toRuntimeKey sessionId : string)
    : QueuedChatItemsByKey :=
  if bool_decide (fromRuntimeKey = toRuntimeKey) then state else
  match queued state fromRuntimeKey with
  | [] => state
  | items =>
      <[toRuntimeKey := queued state toRuntimeKey ++ map (fun item => with_session sessionId (cloneItem item)) items]>
        (delete fromRuntimeKey state)
  end.

Definition buildQueuedPromptMessage (prompt : QueuedChatPrompt) (turnIndex : Z) : RegistryChatMessage :=
  {| msg_sessionId := prompt_sessionId prompt; msg_turnIndex := turnIndex; msg_method := "prompt_request";
     msg_param := [("contentBlocks"%string, VArr (map VObj (prompt_blocks prompt)));
                   ("createdAt"%string, VStr (prompt_createdAt prompt));
                   ("queuedPromptId"%string, VStr (prompt_id prompt));
                   ("queueStatus"%string, VStr "queued")];
     msg_finished := false |}.

(** * Lemmas *)

Implicit Types (q : QueuedChatItemsByKey) (l : list QueuedChatItem).

Lemma cloneItem_id item : cloneItem item = item.
Proof. destruct item as [p|c]; [|done]. cbn. rewrite map_id. by destruct p. Qed.

Lemma item_id_with_session sid item : item_id (with_session sid item) = item_id item.
Proof. by destruct item. Qed.

(** The identifiers of everything queued, over all sessions. *)
Definition ids (l : list QueuedChatItem) : list string := map item_id l.
Definition all_ids (q : QueuedChatItemsByKey) : list string := concat (map (fun e => ids e.2) (map_to_list q)).

Lemma all_ids_perm (kvs1 kvs2 : list (string * list QueuedChatItem)) :
  kvs1 ≡ₚ kvs2 -> concat (map (fun e => ids e.2) kvs1) ≡ₚ concat (map (fun e => ids e.2) kvs2).
Proof.
  induction 1 as [|x l1 l2 _ IH|x y l|l1 l2 l3 _ IH1 _ IH2]; simpl; [done|by rewrite IH|solve_Permutation|by rewrite IH1].
Qed.

Lemma all_ids_insert q k l : all_ids (<[k := l]> q) ≡ₚ ids l ++ all_ids (delete k q).
Proof.
  unfold all_ids. rewrite <- insert_delete_eq.
  rewrite (all_ids_perm _ _ (map_to_list_insert (delete k q) k l (lookup_delete_eq _ _))). done.
Qed.

Lemma all_ids_delete q k : all_ids q ≡ₚ ids (queued q k) ++ all_ids (delete k q).
Proof.
  unfold queued. destruct (q !! k) as [l|] eqn:E; simpl; [|by rewrite delete_id].
  rewrite <- (insert_id q k l E) at 1. apply all_ids_insert.
Qed.

Lemma all_ids_store_rest q k l : all_ids (store_rest q k l) ≡ₚ ids l ++ all_ids (delete k q).
Proof. destruct l; simpl; [done|apply all_ids_insert]. Qed.

Lemma queued_insert q k k' l : queued (<[k := l]> q) k' = if decide (k = k') then l else queued q k'.
Proof.
  unfold queued. case_decide as E; [subst; by rewrite lookup_insert_eq|by rewrite lookup_insert_ne].
Qed.

Lemma queued_store_rest q k k' l : queued (store_rest q k l) k' = if decide (k = k') then l else queued q k'.
Proof.
  destruct l; simpl; [|apply queued_insert]. unfold queued.
  case_decide as E; [subst; by rewrite lookup_delete_eq|by rewrite lookup_delete_ne].
Qed.

(** * Accounting for every queued item *)

(** The calls on a queue, with what they took in ([ins]) and gave out or cancelled
    ([outs]). *)
Inductive queue_step : QueuedChatItemsByKey * list string * list string ->
                       QueuedChatItemsByKey * list string * list string -> Prop :=
  | q_enqueue q ins outs k item : queue_step (q, ins, outs) (enqueueChatItem q k item, ins ++ [item_id item], outs)
  | q_front q ins outs k item : queue_step (q, ins, outs) (enqueueChatItemToFront q k item, ins ++ [item_id item], outs)
  | q_compact q ins outs k c :
      queue_step (q, ins, outs)
        (enqueueChatCompact q k c, if hasQueuedChatCompact q k then ins else ins ++ [compact_id c], outs)
  | q_to_front q ins outs k id : queue_step (q, ins, outs) (moveQueuedChatPromptToFront q k id, ins, outs)
  | q_move q ins outs from to sid : queue_step (q, ins, outs) (moveQueuedChatPrompts q from to sid, ins, outs)
  | q_shift q ins outs k q' item :
      shiftNextQueuedChatItem q k = (q', Some item) -> queue_step (q, ins, outs) (q', ins, outs ++ [item_id item])
  | q_shift_prompt q ins outs k q' p :
      shiftNextQueuedChatPrompt q k = (q', Some p) -> queue_step (q, ins, outs) (q', ins, outs ++ [prompt_id p])
  | q_cancel q ins outs k id :
      queue_step (q, ins, outs)
        (cancelQueuedChatItem q k id, ins,
         outs ++ ids (bfilter (fun item => bool_decide (item_id item = id)) (queued q k))).

(** Every queued item is accounted for, and no session keeps an empty queue. *)
Definition accounted (x : QueuedChatItemsByKey * list string * list string) : Prop :=
  let '(q, ins, outs) := x in
  ins ≡ₚ all_ids q ++ outs /\ map_Forall (fun _ l => l <> []) q.

Lemma store_rest_nonempty q k l :
  map_Forall (fun _ l => l <> []) q -> map_Forall (fun _ l => l <> []) (store_rest q k l).
Proof. intros H. destruct l; simpl; [by apply map_Forall_delete|by apply map_Forall_insert_2]. Qed.

Lemma shift_item_spec q k :
  match queued q k with
  | [] => shiftNextQueuedChatItem q k = (q, None)
  | item :: rest => shiftNextQueuedChatItem q k = (store_rest q k rest, Some item)
  end.
Proof. unfold shiftNextQueuedChatItem. destruct (queued q k); [done|]. by rewrite cloneItem_id. Qed.

Lemma shift_accounted q ins outs k q' item :
  accounted (q, ins, outs) -> shiftNextQueuedChatItem q k = (q', Some item) -> accounted (q', ins, outs ++ [item_id item]).
Proof.
  intros [Hp Hne] Hs. pose proof (shift_item_spec q k) as Hq. destruct (queued q k) as [|i rest] eqn:E; [congruence|].
  rewrite Hq in Hs. simplify_eq. split; [|by apply store_rest_nonempty].
  rewrite Hp, (all_ids_delete q k), E, all_ids_store_rest. unfold ids; simpl. solve_Permutation.
Qed.

Lemma shift_prompt_item q k q' p :
  shiftNextQueuedChatPrompt q k = (q', Some p) -> shiftNextQueuedChatItem q k = (q', Some (QPrompt p)).
Proof.
  unfold shiftNextQueuedChatPrompt. destruct (queued q k) as [|[p'|c] rest] eqn:E; [done| |done].
  destruct (shiftNextQueuedChatItem q k) as [q'' [[]|]]; naive_solver.
Qed.

Lemma bfilter_split {A} (p : A -> bool) (l : list A) : l ≡ₚ bfilter (fun x => negb (p x)) l ++ bfilter p l.
Proof.
  induction l as [|x l IH]; simpl; [done|]. destruct (p x); simpl; [|by rewrite <- IH].
  rewrite IH at 1. solve_Permutation.
Qed.

Lemma enqueue_accounted q ins outs k l item :
  accounted (q, ins, outs) -> l ≡ₚ item :: queued q k -> accounted (<[k := l]> q, ins ++ [item_id item], outs).
Proof.
  intros [Hp Hne] Hl. split.
  - rewrite Hp, (all_ids_delete q k), all_ids_insert. unfold ids. rewrite (Permutation_map item_id Hl). simpl. solve_Permutation.
  - apply map_Forall_insert_2; [|done]. intros ->. by apply Permutation_nil_cons in Hl.
Qed.

Lemma queue_step_accounted x y : accounted x -> queue_step x y -> accounted y.
Proof.
  intros Ha Hs. destruct Hs as [q ins outs k item|q ins outs k item|q ins outs k c|q ins outs k id
    |q ins outs from to sid|q ins outs k q' item Hs|q ins outs k q' p Hs|q ins outs k id].
  - unfold enqueueChatItem. rewrite cloneItem_id. apply enqueue_accounted; [done|solve_Permutation].
  - unfold enqueueChatItemToFront. rewrite cloneItem_id. by apply enqueue_accounted.
  - unfold enqueueChatCompact. destruct (hasQueuedChatCompact q k); [done|].
    unfold enqueueChatItem. apply (enqueue_accounted _ _ _ _ _ (QCompact c)); [done|solve_Permutation].
  - unfold moveQueuedChatPromptToFront. destruct (findIndex _ _) as [i|]; [|done].
    destruct (queued q k !! i) as [t|] eqn:Et; [|done]. destruct Ha as [Hp Hne].
    split; [|by apply map_Forall_insert_2]. rewrite Hp, (all_ids_delete q k), all_ids_insert. f_equiv. f_equiv.
    apply (Permutation_map item_id). by apply delete_Permutation.
  - unfold moveQueuedChatPrompts. case_bool_decide as Hft; [done|].
    destruct (queued q from) as [|i0 r0] eqn:Ei; [done|]. rewrite <- Ei. destruct Ha as [Hp Hne]. split.
    + rewrite Hp, (all_ids_delete q from), all_ids_insert, (all_ids_delete (delete from q) to). unfold ids at 3.
      rewrite map_app, map_map. unfold queued at 2. rewrite lookup_delete_ne by done. fold (queued q to).
      assert (map (fun x => item_id (with_session sid (cloneItem x))) (queued q from) = ids (queued q from)) as ->.
      { apply map_ext. intros x. by rewrite item_id_with_session, cloneItem_id. }
      unfold ids. solve_Permutation.
    + apply map_Forall_insert_2; [|by apply map_Forall_delete]. rewrite Ei. intros [_ ?]%app_eq_nil. done.
  - by eapply shift_accounted.
  - apply shift_prompt_item in Hs. by eapply (shift_accounted _ _ _ _ _ (QPrompt p)).
  - destruct Ha as [Hp Hne]. split; [|by apply store_rest_nonempty]. unfold cancelQueuedChatItem.
    rewrite Hp, all_ids_store_rest, (all_ids_delete q k). unfold ids.
    rewrite (Permutation_map item_id (bfilter_split (fun item => bool_decide (item_id item = id)) (queued q k))) at 1.
    rewrite map_app. solve_Permutation.
Qed.

(** Shifting until the queue is empty. *)
Fixpoint drain (n : nat) (q : QueuedChatItemsByKey) (k : string) : QueuedChatItemsByKey * list QueuedChatItem :=
  match n with
  | O => (q, [])
  | S n' => match shiftNextQueuedChatItem q k with
            | (q', None) => (q', [])
            | (q', Some item) => let '(q'', items) := drain n' q' k in (q'', item :: items)
            end
  end.

Lemma drain_queued n q k :
  (length (queued q k) <= n)%nat -> (drain n q k).2 = queued q k /\ queued (drain n q k).1 k = [].
Proof.
  revert q; induction n as [|n IH]; intros q Hn; simpl.
  - destruct (queued q k) eqn:E; [done|simpl in Hn; lia].
  - pose proof (shift_item_spec q k) as Hs. destruct (queued q k) as [|item rest] eqn:E; rewrite Hs; [done|].
    pose proof (queued_store_rest q k k rest) as Hq. rewrite decide_True in Hq by done.
    destruct (IH (store_rest q k rest)) as [H1 H2]; [rewrite Hq; simpl in Hn; lia|].
    destruct (drain n (store_rest q k rest) k) as [q' items]. simpl in *. by rewrite H1, Hq.
Qed.

Definition enqueueAll (k : string) : QueuedChatItemsByKey -> list QueuedChatItem -> QueuedChatItemsByKey :=
  foldl (fun q item => enqueueChatItem q k item).

Lemma foldl_enqueue q k items : queued (enqueueAll k q items) k = queued q k ++ items.
Proof.
  revert q; induction items as [|i items IH]; intros q; simpl; [by rewrite app_nil_r|].
  fold (enqueueAll k). rewrite IH. unfold enqueueChatItem. rewrite queued_insert, decide_True, cloneItem_id by done.
  by rewrite <- (assoc_L (++)).
Qed.

(** C24. No queued item is lost, duplicated or invented: whatever enqueues, reorderings,
    session moves, shifts and cancellations are made, the identifiers taken in are
    exactly those still queued plus those given out or cancelled, and no session keeps
    an empty queue; and a queue gives its items out in the order they were enqueued. *)
Theorem queue_accounting q ins outs k items :
  star queue_step (∅, [], []) (q, ins, outs) ->
  ins ≡ₚ all_ids q ++ outs /\ map_Forall (fun _ l => l <> []) q /\
  (drain (length (queued q k) + length items) (enqueueAll k q items) k).2
    = queued q k ++ items.
Proof.
  intros H. assert (accounted (q, ins, outs)) as [Hp Hne].
  { eapply star_invariant; [exact H| |apply queue_step_accounted]. split; [done|]. apply map_Forall_empty. }
  split_and!; [done..|].
  destruct (drain_queued (length (queued q k) + length items) (enqueueAll k q items) k) as [-> _];
    [by rewrite foldl_enqueue, length_app|apply foldl_enqueue].
Qed.

Definition sample_compact (id : string) : QueuedChatCompact :=
  {| compact_id := id; compact_sessionId := "s"; compact_createdAt := "t" |}.

Lemma queue_accounting_witness :
  let q := enqueueChatCompact (enqueueChatItem ∅ "a" (QCompact (sample_compact "1"))) "a" (sample_compact "2") in
  let q' := moveQueuedChatPrompts q "a" "b" "real" in
  ["1"%string] ≡ₚ all_ids q' ++ [] /\
  (drain 2 (enqueueChatItem q' "b" (QCompact (sample_compact "3"))) "b").2 =
    queued q' "b" ++ [QCompact (sample_compact "3")].
Proof.
  intros q q'. destruct (queue_accounting q' ["1"%string] [] "b" [QCompact (sample_compact "3")]) as (H1 & _ & H2).
  - apply (star_step _ _ (q, ["1"%string], [])); [|apply q_move].
    apply (star_step _ _ (enqueueChatItem ∅ "a" (QCompact (sample_compact "1")), ["1"%string], [])).
    + apply (star_step _ _ (∅, [], [])); [apply star_refl|apply (q_enqueue ∅ [] [] "a" (QCompact (sample_compact "1")))].
    + exact (q_compact (enqueueChatItem ∅ "a" (QCompact (sample_compact "1"))) ["1"%string] [] "a" (sample_compact "2")).
  - split; [exact H1|exact H2].
Defined.
