(* ===== verification/ChatSessionKey.v ===== *)
(** [chat/session/chatSessionKey.ts]: the string form of a (project, session) pair, by
    which the client indexes per-session state; and [chat/session/chatSessionState.ts],
    the badge of a session. *)

From S2P Require Import Prelude Uri.
Open Scope Z_scope.

Record ChatSessionKey := { key_projectId : string; key_sessionId : string }.
#[export] Instance ChatSessionKey_eq_dec : EqDecision ChatSessionKey.
Proof. solve_decision. Defined.

Definition EMPTY_CHAT_SESSION_KEY : string := "".
Definition CHAT_SESSION_KEY_SEPARATOR : ascii := ascii_of_nat 31.

Definition chatSessionKeyFromParts (projectId sessionId : string) : option ChatSessionKey :=
  let normalizedProjectId := trim projectId in
  let normalizedSessionId := trim sessionId in
  if negb (nonempty normalizedProjectId) || negb (nonempty normalizedSessionId) then None
  else Some {| key_projectId := normalizedProjectId; key_sessionId := normalizedSessionId |}.

Definition encodeChatSessionKey (key : option ChatSessionKey) : string :=
  match key ≫= (fun key => chatSessionKeyFromParts (key_projectId key) (key_sessionId key)) with
  | None => EMPTY_CHAT_SESSION_KEY
  | Some normalized =>
      join (String CHAT_SESSION_KEY_SEPARATOR "")
        [encodeURIComponent (key_projectId normalized); encodeURIComponent (key_sessionId normalized)]
  end.

Definition decodeChatSessionKey (encoded : string) : option ChatSessionKey :=
  if negb (nonempty encoded) then None else
  match split CHAT_SESSION_KEY_SEPARATOR encoded with
  | [part0; part1] =>
      projectId ← decodeURIComponent part0;
      sessionId ← decodeURIComponent part1;
      chatSessionKeyFromParts projectId sessionId
  | _ => None
  end.

Definition sameChatSessionKey (left right : option ChatSessionKey) : bool :=
  bool_decide (encodeChatSessionKey left = encodeChatSessionKey right).

(** * [chatSessionState.ts] *)

Inductive ChatSessionVisualState := Idle | Running | CompletedUnviewed | FailedUnviewed.
#[export] Instance ChatSessionVisualState_eq_dec : EqDecision ChatSessionVisualState.
Proof. solve_decision. Defined.

Definition nonNegativeInteger (v : value) : Z :=
  match v with VNum (Fin q) => Z.max 0 (trunc q) | _ => 0 end.

(** The fields of a session summary it reads, as they come from the wire. *)
Record SessionProgress := {
  sp_running : value;
  sp_lastDoneTurnIndex : value;
  sp_lastDoneSuccess : value;
  sp_lastReadTurnIndex : value;
}.

Definition getChatSessionVisualState (session : SessionProgress) : ChatSessionVisualState :=
  match sp_running session with
  | VBool true => Running
  | _ =>
      let lastDoneTurnIndex := nonNegativeInteger (sp_lastDoneTurnIndex session) in
      let lastReadTurnIndex := nonNegativeInteger (sp_lastReadTurnIndex session) in
      if (lastDoneTurnIndex <=? 0) || (lastDoneTurnIndex <=? lastReadTurnIndex) then Idle
      else match sp_lastDoneSuccess session with VBool false => FailedUnviewed | _ => CompletedUnviewed end
  end.

Definition resolveChatSessionVisualState (session : SessionProgress) : ChatSessionVisualState :=
  getChatSessionVisualState session.

(** * Lemmas *)

(** The keys [chatSessionKeyFromParts] makes. *)
Definition valid_key (k : ChatSessionKey) : Prop :=
  trim (key_projectId k) = key_projectId k /\ key_projectId k <> ""%string /\
  trim (key_sessionId k) = key_sessionId k /\ key_sessionId k <> ""%string.

Lemma fromParts_Some p s k :
  chatSessionKeyFromParts p s = Some k <->
  valid_key k /\ key_projectId k = trim p /\ key_sessionId k = trim s.
Proof.
  unfold chatSessionKeyFromParts, valid_key. destruct (nonempty (trim p)) eqn:Ep, (nonempty (trim s)) eqn:Es; cbn [negb orb];
    try (apply nonempty_true in Ep); try (apply nonempty_true in Es);
    try (apply nonempty_false in Ep); try (apply nonempty_false in Es).
  - split; [intros [= <-]; cbn [key_projectId key_sessionId]; rewrite !trim_trim; done|]. intros (_ & H1 & H2). destruct k; simpl in *. congruence.
  - split; [done|]. intros ((_ & _ & _ & H) & _ & H2). congruence.
  - split; [done|]. intros ((_ & H & _) & H1 & _). congruence.
  - split; [done|]. intros ((_ & H & _) & H1 & _). congruence.
Qed.

Lemma fromParts_valid k : valid_key k -> chatSessionKeyFromParts (key_projectId k) (key_sessionId k) = Some k.
Proof. intros Hk. apply fromParts_Some. destruct (id Hk) as (-> & _ & -> & _). done. Qed.

Lemma separator_not_encoded s : CHAT_SESSION_KEY_SEPARATOR ∉ chars (encodeURIComponent s).
Proof. intros [H|H]%encoded_chars; by vm_compute in H. Qed.

Lemma decode_encode_key k : valid_key k -> decodeChatSessionKey (encodeChatSessionKey (Some k)) = Some k.
Proof.
  intros Hk. unfold encodeChatSessionKey. cbn [mbind option_bind]. rewrite fromParts_valid by done.
  unfold join; cbn [foldr]. unfold decodeChatSessionKey.
  set (enc := _ +:+ _).
  assert (chars enc = chars (encodeURIComponent (key_projectId k)) ++
    CHAT_SESSION_KEY_SEPARATOR :: chars (encodeURIComponent (key_sessionId k))) as Henc.
  { unfold enc. rewrite !chars_app. cbn [chars String.list_ascii_of_string app]. by rewrite app_nil_r. }
  assert (nonempty enc = true) as ->.
  { apply nonempty_true. intros E. rewrite E in Henc. apply (f_equal length) in Henc.
    rewrite length_app in Henc. simpl in Henc. lia. }
  cbn [negb]. unfold split. rewrite Henc, split_char_app, split_char_none by apply separator_not_encoded.
  cbn [map]. rewrite !unchars_chars, !decode_encode. cbn [mbind option_bind]. by apply fromParts_valid.
Qed.

(** The string form of a session key is faithful: a key made from any two parts
    decodes back to itself, and two keys are the same exactly when they are equal. *)
Theorem session_key_roundtrip p1 s1 p2 s2 k1 k2 :
  chatSessionKeyFromParts p1 s1 = Some k1 -> chatSessionKeyFromParts p2 s2 = Some k2 ->
  decodeChatSessionKey (encodeChatSessionKey (Some k1)) = Some k1 /\
  (sameChatSessionKey (Some k1) (Some k2) = true <-> k1 = k2).
Proof.
  intros (H1 & _)%fromParts_Some (H2 & _)%fromParts_Some. split; [by apply decode_encode_key|].
  unfold sameChatSessionKey. rewrite bool_decide_eq_true. split; [|by intros ->]. intros E.
  apply (f_equal decodeChatSessionKey) in E. rewrite !decode_encode_key in E by done. congruence.
Qed.

Lemma session_key_roundtrip_witness :
  let k1 := {| key_projectId := "hub:proj"; key_sessionId := "s 1" |} in
  let k2 := {| key_projectId := "hub:proj"; key_sessionId := "s%201" |} in
  decodeChatSessionKey (encodeChatSessionKey (Some k1)) = Some k1 /\ sameChatSessionKey (Some k1) (Some k2) = false.
Proof.
  intros k1 k2. destruct (session_key_roundtrip " hub:proj" "s 1" "hub:proj" "s%201" k1 k2) as [H1 H2];
    [reflexivity|reflexivity|]. split; [exact H1|]. apply not_true_iff_false. rewrite H2. done.
Defined.
