(* ===== verification/ChatComposer.v ===== *)
(** [chat/composer]: the tokens of the message composer ([chatComposerTokens.ts]), the
    queries that trigger its menus ([chatComposerTriggerQueries.ts]) and the editing of
    tokens ([chatComposerTokenEditing.ts]).  Positions are integers; a text token is as
    many positions as it has code units, a capsule (a skill or a file) is one. *)

From S2P Require Import Prelude.
Open Scope Z_scope.

(** * Tokens *)

Inductive ChatComposerToken :=
  | TText (text : string)
  | TSkill (id command label : string)
  | TFile (id path name label : string).
#[export] Instance ChatComposerToken_eq_dec : EqDecision ChatComposerToken.
Proof. solve_decision. Defined.

Record ChatComposerSlashCommand := { sc_command : string; sc_label : string }.

(** The content blocks a message is sent as. *)
Inductive ContentBlock :=
  | BText (text : string)
  | BResourceLink (uri name : string).

Definition slash : ascii := "/"%char.
Definition dot : ascii := "."%char.

(** [toUpperCase] of one code unit whose capital is one too. *)
Definition upper_ascii (c : ascii) : ascii :=
  let n := nat_of_ascii c in
  if (Nat.leb 97 n && Nat.leb n 122) || (Nat.leb 224 n && Nat.leb n 254 && negb (Nat.eqb n 247))
  then ascii_of_nat (n - 32) else c.

(** [s.split(/[...]+/)] on a class of characters; runs leave empty parts behind, which
    every caller filters out. *)
Fixpoint split_on (p : ascii -> bool) (l : list ascii) : list (list ascii) :=
  match l with
  | [] => [[]]
  | c :: l' =>
      if p c then [] :: split_on p l' else
      match split_on p l' with w :: ws => (c :: w) :: ws | [] => [[c]] end
  end.

Definition normalizeSkillCommand (command : string) : string :=
  let v := trim command in
  if negb (nonempty v) then "" else if startsWith v "/" then v else "/" +:+ v.

Definition capitalize (part : string) : string :=
  match chars part with c :: l => unchars (upper_ascii c :: l) | [] => "" end.

Definition skillLabelFromCommand (command : string) : string :=
  let v := chars (normalizeSkillCommand command) in
  let v := match v with c :: l => if Ascii.eqb c slash then l else v | [] => [] end in
  join " " (map capitalize (filter_truthy (map unchars (split_on (fun c => Ascii.eqb c "-" || Ascii.eqb c "_") v)))).

Fixpoint drop_slashes (l : list ascii) : list ascii :=
  match l with c :: l' => if Ascii.eqb c slash then drop_slashes l' else l | [] => [] end.

(** [s.replace(/\/+/g, '/')]. *)
Fixpoint collapse_slashes (l : list ascii) : list ascii :=
  match l with
  | c :: l' =>
      if Ascii.eqb c slash && (match l' with d :: _ => Ascii.eqb d slash | [] => false end) then collapse_slashes l'
      else c :: collapse_slashes l'
  | [] => []
  end.

(** [s.replace(/^\.\/+/, '')]. *)
Definition strip_dot_slashes (l : list ascii) : list ascii :=
  match l with
  | c :: d :: l' => if Ascii.eqb c dot && Ascii.eqb d slash then drop_slashes l' else l
  | _ => l
  end.

Definition normalizeProjectPath (path : string) : string :=
  let slashed := map (fun c => if Ascii.eqb c (ascii_of_nat 92) then slash else c) (chars (trim path)) in
  unchars (collapse_slashes (strip_dot_slashes slashed)).

(** [path.split('/').filter(Boolean)]. *)
Definition path_parts (path : string) : list string := filter_truthy (split slash path).

Definition fileNameFromPath (path : string) : string :=
  let normalized := normalizeProjectPath path in
  str_or (default "" (last (path_parts normalized))) (str_or normalized "file").

(** The token [normalizeChatComposerTokens] makes of one token, when it keeps it. *)
Definition normalizeToken (token : ChatComposerToken) : option ChatComposerToken :=
  match token with
  | TText text => if nonempty text then Some (TText text) else None
  | TSkill id command label =>
      let command' := normalizeSkillCommand command in
      if nonempty command' then Some (TSkill id command' (str_or (trim label) (skillLabelFromCommand command'))) else None
  | TFile id path name label =>
      let path' := normalizeProjectPath path in
      if nonempty path' then Some (TFile id path' (str_or (trim name) (fileNameFromPath path')) (trim label)) else None
  end.

(** A text goes on with the text before it. *)
Definition pushToken (out : list ChatComposerToken) (token : ChatComposerToken) : list ChatComposerToken :=
  match token, last out with
  | TText text, Some (TText previous) => removelast out ++ [TText (previous +:+ text)]
  | _, _ => out ++ [token]
  end.

Definition normalizeChatComposerTokens (tokens : list ChatComposerToken) : list ChatComposerToken :=
  foldl (fun out token => match normalizeToken token with Some t => pushToken out t | None => out end) [] tokens.

Definition chatComposerHasSendableTokens (tokens : list ChatComposerToken) : bool :=
  some (fun token => match token with TText text => Nat.ltb 0 (String.length (trim text)) | _ => true end)
    (normalizeChatComposerTokens tokens).

Definition chatComposerSingleTokenUnitLength (token : ChatComposerToken) : Z :=
  match token with TText text => Z.of_nat (length (chars text)) | _ => 1 end.

Definition chatComposerTokenUnitLength (tokens : list ChatComposerToken) : Z :=
  foldl (fun total token => total + chatComposerSingleTokenUnitLength token) 0 tokens.

(** ** File labels *)

(** [parts.slice(-n)] for a positive [n]. *)
Definition last_parts (n : nat) (parts : list string) : list string := drop (length parts - n) parts.

Definition includeUsefulParentForGenericSuffix (pathParts : list string) (suffixLength : nat) : string :=
  let suffixParts := last_parts suffixLength pathParts in
  if bool_decide (default ""%string (head suffixParts) = "src"%string) && Nat.ltb suffixLength (length pathParts)
  then join "/" (last_parts (S suffixLength) pathParts)
  else join "/" suffixParts.

Definition uniqueSuffix (normalized : list string) (index length : nat) (pathParts : list string) : bool :=
  let suffix := join "/" (last_parts length pathParts) in
  forallb (fun '(otherIndex, other) =>
    Nat.eqb otherIndex index || negb (bool_decide (join "/" (last_parts length (path_parts other)) = suffix)))
    (imap pair normalized).

(** The [for] loop from [length], [n] iterations left. *)
Fixpoint shortestLabel (normalized : list string) (index : nat) (pathParts : list string) (path : string) (length n : nat)
    : string :=
  match n with
  | O => path
  | S n' => if uniqueSuffix normalized index length pathParts
            then includeUsefulParentForGenericSuffix pathParts length
            else shortestLabel normalized index pathParts path (S length) n'
  end.

Definition shortestUniqueFileLabels (paths : list string) : list string :=
  let normalized := map normalizeProjectPath paths in
  imap (fun index path => let pathParts := path_parts path in
    shortestLabel normalized index pathParts path 1 (length pathParts)) normalized.

Definition file_paths (tokens : list ChatComposerToken) : list string :=
  omap (fun token => match token with TFile _ path _ _ => Some path | _ => None end) tokens.

Definition applyFileLabels (tokens : list ChatComposerToken) : list ChatComposerToken :=
  let uniquePaths := unique (file_paths tokens) in
  let labelsByPath := dict_of (zip uniquePaths (shortestUniqueFileLabels uniquePaths)) in
  map (fun token => match token with
    | TFile id path name _ =>
        TFile id path name (str_or (default "" (dget labelsByPath path)) (str_or name (fileNameFromPath path)))
    | _ => token
    end) tokens.

Definition fileReferenceText (label : string) : string :=
  if existsb is_space (chars label) then "@<" +:+ label +:+ ">" else "@" +:+ label.

Definition serializedChatComposerTokenText (token : ChatComposerToken) : string :=
  match token with
  | TText text => text
  | TSkill _ command _ => command
  | TFile _ path name label => fileReferenceText (str_or label (str_or name (fileNameFromPath path)))
  end.

Definition serializeChatComposerTokens (tokens : list ChatComposerToken) : string * list ContentBlock :=
  let normalized := applyFileLabels (normalizeChatComposerTokens tokens) in
  let text := join "" (map serializedChatComposerTokenText normalized) in
  let blocks := if nonempty text then [BText text] else [] in
  (text, (foldl (fun acc token => match token with
    | TFile _ path name _ =>
        if bool_decide (path ∈ acc.1) then acc
        else (acc.1 ++ [path], acc.2 ++ [BResourceLink path (str_or name (fileNameFromPath path))])
    | _ => acc
    end) ([], blocks) normalized).2).

(** [Math.max(0, Math.min(Math.trunc(position), max))] of an integer. *)
Definition clampPosition (position mx : Z) : Z := Z.max 0 (Z.min position mx).

Fixpoint textPosition (tokens : list ChatComposerToken) (safePosition tokenCursor textCursor : Z) : Z :=
  match tokens with
  | [] => textCursor
  | token :: rest =>
      let tokenEnd := tokenCursor + chatComposerSingleTokenUnitLength token in
      let serializedLength := Z.of_nat (length (chars (serializedChatComposerTokenText token))) in
      if safePosition <=? tokenEnd then
        match token with
        | TText _ => textCursor + Z.max 0 (safePosition - tokenCursor)
        | _ => if safePosition <=? tokenCursor then textCursor else textCursor + serializedLength
        end
      else textPosition rest safePosition tokenEnd (textCursor + serializedLength)
  end.

Definition serializedChatComposerTextPosition (tokens : list ChatComposerToken) (position : Z) : Z :=
  let normalized := applyFileLabels (normalizeChatComposerTokens tokens) in
  textPosition normalized (clampPosition position (chatComposerTokenUnitLength normalized)) 0 0.

(** * Trigger queries *)

Definition hasChatComposerTriggerBoundary (text : list ascii) (index : nat) : bool :=
  match index with O => true | S i => match text !! i with Some c => is_space c | None => false end end.

(** [l.lastIndexOf(c)]. *)
Fixpoint last_index_of (c : ascii) (l : list ascii) (i : nat) : option nat :=
  match l with
  | [] => None
  | d :: l' => match last_index_of c l' (S i) with Some j => Some j | None => if Ascii.eqb d c then Some i else None end
  end.
Definition lastIndexOf (c : ascii) (l : list ascii) : option nat := last_index_of c l 0.

Record ChatComposerTriggerQuery := { q_start : Z; q_end : Z; q_query : string }.

Definition resolveChatTriggerQuery (text : string) (cursor : Z) (trigger : ascii) : option ChatComposerTriggerQuery :=
  let l := chars text in
  let safeCursor := Z.max 0 (Z.min (Z.of_nat (length l)) cursor) in
  let beforeCursor := take (Z.to_nat safeCursor) l in
  match lastIndexOf trigger beforeCursor with
  | None => None
  | Some triggerIndex =>
      if negb (hasChatComposerTriggerBoundary beforeCursor triggerIndex) then None else
      let query := drop (S triggerIndex) beforeCursor in
      if existsb is_space query then None
      else Some {| q_start := Z.of_nat triggerIndex; q_end := safeCursor; q_query := unchars query |}
  end.

Definition resolveChatSlashQuery (text : string) (cursor : Z) : option ChatComposerTriggerQuery :=
  resolveChatTriggerQuery text cursor slash.
Definition resolveChatFileMentionQuery (text : string) (cursor : Z) : option ChatComposerTriggerQuery :=
  resolveChatTriggerQuery text cursor "@".

(** ** Known slash commands in a text *)

Definition is_alnum (c : ascii) : bool :=
  let n := nat_of_ascii c in
  (Nat.leb 48 n && Nat.leb n 57) || (Nat.leb 65 n && Nat.leb n 90) || (Nat.leb 97 n && Nat.leb n 122).
Definition is_command_char (c : ascii) : bool := is_alnum c || Ascii.eqb c "_" || Ascii.eqb c "-".
Definition ends_command (l : list ascii) : bool :=
  match l with [] => true | c :: _ => is_space c || bool_decide (c ∈ chars ")]},;.!?") end.

Fixpoint span (p : ascii -> bool) (l : list ascii) : list ascii * list ascii :=
  match l with
  | c :: l' => if p c then let '(a, b) := span p l' in (c :: a, b) else ([], l)
  | [] => ([], [])
  end.

(** The match of [/\/[A-Za-z0-9][A-Za-z0-9_-]*(?=$|[\s)\]},;.!?])/] at the start of [l]. *)
Definition match_command (l : list ascii) : option (list ascii) :=
  match l with
  | c :: d :: l' =>
      if Ascii.eqb c slash && is_alnum d then
        let '(body, rest) := span is_command_char l' in
        if ends_command rest then Some (c :: d :: body) else None
      else None
  | _ => None
  end.

(** The [pattern.exec] loop from [index]: matches do not overlap. *)
Fixpoint command_matches (fuel : nat) (text : list ascii) (index : nat) : list (nat * list ascii) :=
  match fuel with
  | O => []
  | S f =>
      if Nat.leb (length text) index then [] else
      match match_command (drop index text) with
      | Some m => (index, m) :: command_matches f text (index + length m)
      | None => command_matches f text (S index)
      end
  end.

Definition tokenizeKnownChatSlashCommands (text : string) (commands : list ChatComposerSlashCommand) : list ChatComposerToken :=
  let byCommand := dict_of (bfilter (fun e => nonempty e.1)
    (map (fun item => (normalizeSkillCommand (sc_command item), trim (sc_label item))) commands)) in
  let l := chars text in
  if Nat.eqb (length byCommand) 0 || negb (includes text "/") then normalizeChatComposerTokens [TText text] else
  let '(parts, cursor) := foldl (fun acc mt =>
    let '(parts, cursor) := acc in
    let '(commandStart, rawCommand) := mt in
    if negb (hasChatComposerTriggerBoundary l commandStart) then acc else
    let command := normalizeSkillCommand (unchars rawCommand) in
    let label := default ""%string (dget byCommand command) in
    if negb (nonempty label) then acc else
    (parts ++ (if Nat.ltb cursor commandStart then [TText (slice cursor commandStart text)] else [])
           ++ [TSkill ("skill:" +:+ command +:+ ":" +:+ pretty (Z.of_nat commandStart)) command label],
     (commandStart + length rawCommand)%nat))
    ([], 0%nat) (command_matches (length l) l 0) in
  let parts := parts ++ (if Nat.ltb cursor (length l) then [TText (slice_from cursor text)] else []) in
  normalizeChatComposerTokens (match parts with [] => [TText text] | _ => parts end).

(** * Editing *)

Record ChatComposerEdit := { edit_tokens : list ChatComposerToken; edit_cursor : Z }.

Fixpoint locateTextPosition (tokens : list ChatComposerToken) (position cursor : Z) : option (string * Z * Z) :=
  match tokens with
  | [] => None
  | token :: rest =>
      let length := chatComposerSingleTokenUnitLength token in
      match token with
      | TText text =>
          if (cursor <=? position) && (position <=? cursor + length)
          then Some (text, cursor, Z.max 0 (Z.min (position - cursor) length))
          else locateTextPosition rest position (cursor + length)
      | _ => locateTextPosition rest position (cursor + length)
      end
  end.

(** [Math.max] of the two [lastIndexOf], [-1] being [None]. *)
Definition later (a b : option nat) : option nat :=
  match a, b with Some i, Some j => Some (Nat.max i j) | Some i, None => Some i | None, _ => b end.

Definition activeQueryRange (tokens : list ChatComposerToken) (position : Z) : option (Z * Z) :=
  match locateTextPosition tokens position 0 with
  | None => None
  | Some (text, tokenStart, offset) =>
      let before := take (Z.to_nat offset) (chars text) in
      match later (lastIndexOf "@" before) (lastIndexOf slash before) with
      | None => None
      | Some queryStart =>
          if existsb is_space (drop (S queryStart) before) then None else
          if negb (hasChatComposerTriggerBoundary before queryStart) then None
          else Some (tokenStart + Z.of_nat queryStart, position)
      end
  end.

(** The loop of [replaceTokenRange] from [cursor]. *)
Fixpoint replaceFrom (tokens : list ChatComposerToken) (start stop : Z) (inserted : list ChatComposerToken)
    (cursor : Z) (insertedAdded : bool) : list ChatComposerToken :=
  match tokens with
  | [] => if insertedAdded then [] else inserted
  | token :: rest =>
      let length := chatComposerSingleTokenUnitLength token in
      let tokenStart := cursor in
      let tokenEnd := cursor + length in
      let pending := if insertedAdded then [] else inserted in
      if (tokenEnd <? start) || (stop <? tokenStart) then
        if negb insertedAdded && (start <=? tokenStart)
        then inserted ++ token :: replaceFrom rest start stop inserted tokenEnd true
        else token :: replaceFrom rest start stop inserted tokenEnd insertedAdded
      else
        match token with
        | TText text =>
            let keepBefore := Z.max 0 (Z.min (start - tokenStart) length) in
            let keepAfter := Z.max 0 (Z.min (tokenEnd - stop) length) in
            (if 0 <? keepBefore then [TText (slice 0 (Z.to_nat keepBefore) text)] else []) ++ pending
            ++ (if 0 <? keepAfter then [TText (slice_from (Z.to_nat (length - keepAfter)) text)] else [])
            ++ replaceFrom rest start stop inserted tokenEnd true
        | _ =>
            if (tokenStart <? start) || (stop <? tokenEnd)
            then pending ++ token :: replaceFrom rest start stop inserted tokenEnd true
            else pending ++ replaceFrom rest start stop inserted tokenEnd true
        end
  end.

Definition replaceTokenRange (tokens : list ChatComposerToken) (start stop : Z) (inserted : list ChatComposerToken)
    : list ChatComposerToken := normalizeChatComposerTokens (replaceFrom tokens start stop inserted 0 false).

Definition insertChatComposerTokens (tokens : list ChatComposerToken) (position : Z) (inserted : list ChatComposerToken)
    : ChatComposerEdit :=
  let safePosition := clampPosition position (chatComposerTokenUnitLength tokens) in
  match activeQueryRange tokens safePosition with
  | Some (start, stop) => {| edit_tokens := replaceTokenRange tokens start stop inserted;
                             edit_cursor := start + chatComposerTokenUnitLength inserted |}
  | None => {| edit_tokens := replaceTokenRange tokens safePosition safePosition inserted;
               edit_cursor := safePosition + chatComposerTokenUnitLength inserted |}
  end.

Definition chatComposerTokenHasId (token : ChatComposerToken) (id : string) : bool :=
  match token with TText _ => false | TSkill i _ _ | TFile i _ _ _ => bool_decide (i = id) end.

Definition deleteChatComposerTokenById (tokens : list ChatComposerToken) (id : string) : list ChatComposerToken :=
  normalizeChatComposerTokens (bfilter (fun token => negb (chatComposerTokenHasId token id)) tokens).

(** The span of the first token with the identifier. *)
Fixpoint removedSpan (tokens : list ChatComposerToken) (id : string) (cursor : Z) : option (Z * Z) :=
  match tokens with
  | [] => None
  | token :: rest =>
      let next := cursor + chatComposerSingleTokenUnitLength token in
      if chatComposerTokenHasId token id then Some (cursor, next) else removedSpan rest id next
  end.

Definition deleteChatComposerTokenByIdAtPosition (tokens : list ChatComposerToken) (id : string) (position : Z)
    : ChatComposerEdit :=
  let normalized := normalizeChatComposerTokens tokens in
  let safePosition := clampPosition position (chatComposerTokenUnitLength normalized) in
  match removedSpan normalized id 0 with
  | None => {| edit_tokens := normalized; edit_cursor := safePosition |}
  | Some (removedStart, removedEnd) =>
      let nextTokens := deleteChatComposerTokenById normalized id in
      let removedLength := removedEnd - removedStart in
      let nextCursor := if safePosition <=? removedStart then safePosition
                        else if safePosition <=? removedEnd then removedStart else safePosition - removedLength in
      {| edit_tokens := nextTokens; edit_cursor := Z.max 0 (Z.min nextCursor (chatComposerTokenUnitLength nextTokens)) |}
  end.

Definition deleteChatComposerTokenByIdAtBoundary (tokens : list ChatComposerToken) (id : string) : ChatComposerEdit :=
  let normalized := normalizeChatComposerTokens tokens in
  match removedSpan normalized id 0 with
  | Some (cursor, _) => deleteChatComposerTokenByIdAtPosition normalized id cursor
  | None => {| edit_tokens := normalized; edit_cursor := chatComposerTokenUnitLength normalized |}
  end.

Definition is_capsule (token : ChatComposerToken) : bool := match token with TText _ => false | _ => true end.

Fixpoint capsuleBefore (tokens : list ChatComposerToken) (position cursor : Z) : option ChatComposerToken :=
  match tokens with
  | [] => None
  | token :: rest =>
      let next := cursor + chatComposerSingleTokenUnitLength token in
      if (next =? position) && is_capsule token then Some token else capsuleBefore rest position next
  end.
Definition chatComposerCapsuleBeforePosition (tokens : list ChatComposerToken) (position : Z) : option ChatComposerToken :=
  capsuleBefore tokens position 0.

Fixpoint capsuleAfter (tokens : list ChatComposerToken) (position cursor : Z) : option ChatComposerToken :=
  match tokens with
  | [] => None
  | token :: rest =>
      if (cursor =? position) && is_capsule token then Some token
      else capsuleAfter rest position (cursor + chatComposerSingleTokenUnitLength token)
  end.
Definition chatComposerCapsuleAfterPosition (tokens : list ChatComposerToken) (position : Z) : option ChatComposerToken :=
  capsuleAfter tokens position 0.

(** * The suite's own examples *)

Definition sample_file (i p n : string) : ChatComposerToken := TFile i p n "".

Example insert_slash_query :
  insertChatComposerTokens [TText "/gri"] 4 [TSkill "skill:1" "/grill-me" "Grill Me"; TText " "] =
  {| edit_tokens := [TSkill "skill:1" "/grill-me" "Grill Me"; TText " "]; edit_cursor := 2 |}.
Proof. vm_compute. reflexivity. Qed.

Example insert_plain_cursor :
  insertChatComposerTokens [TText "open now"] 5 [sample_file "file:1" "app/fix_drop.py" "fix_drop.py"; TText " "] =
  {| edit_tokens := [TText "open "; sample_file "file:1" "app/fix_drop.py" "fix_drop.py"; TText " now"]; edit_cursor := 7 |}.
Proof. vm_compute. reflexivity. Qed.

Example delete_at_boundary :
  deleteChatComposerTokenByIdAtBoundary [TText "a "; TFile "file:1" "app/a.ts" "a.ts" "a.ts"; TText " b"] "file:1" =
  {| edit_tokens := [TText "a  b"]; edit_cursor := 2 |}.
Proof. vm_compute. reflexivity. Qed.

Example tokenize_commands :
  tokenizeKnownChatSlashCommands "run /fix-it, then /nope" [{| sc_command := "fix-it"; sc_label := "Fix" |}] =
  [TText "run "; TSkill "skill:/fix-it:4" "/fix-it" "Fix"; TText ", then /nope"].
Proof. vm_compute. reflexivity. Qed.

Example skill_label : skillLabelFromCommand "grill-me_now" = "Grill Me Now"%string.
Proof. vm_compute. reflexivity. Qed.

(** * The tape of a message: its code units and capsules, in order *)

Inductive unit_of := UChar (c : ascii) | UCapsule (token : ChatComposerToken).

Definition units (token : ChatComposerToken) : list unit_of :=
  match token with TText text => map UChar (chars text) | _ => [UCapsule token] end.
Definition tape (tokens : list ChatComposerToken) : list unit_of := concat (map units tokens).

(** Tokens [normalizeChatComposerTokens] keeps as they are, up to joining texts. *)
Definition clean (tokens : list ChatComposerToken) : Prop := Forall (fun t => normalizeToken t = Some t) tokens.

Lemma tape_cons t ts : tape (t :: ts) = units t ++ tape ts.
Proof. done. Qed.
Lemma tape_app ts1 ts2 : tape (ts1 ++ ts2) = tape ts1 ++ tape ts2.
Proof. unfold tape. by rewrite map_app, concat_app. Qed.
Lemma length_units t : Z.of_nat (length (units t)) = chatComposerSingleTokenUnitLength t.
Proof. destruct t; simpl; [by rewrite length_map|done..]. Qed.

Lemma length_tape_from ts n :
  foldl (fun total token => total + chatComposerSingleTokenUnitLength token) n ts = n + Z.of_nat (length (tape ts)).
Proof.
  revert n; induction ts as [|t ts IH]; intros n; [simpl; lia|]. cbn [foldl]. rewrite IH, tape_cons, length_app, <- length_units. lia.
Qed.

Lemma length_tape ts : chatComposerTokenUnitLength ts = Z.of_nat (length (tape ts)).
Proof. apply (length_tape_from ts 0). Qed.

Lemma tape_push out t : tape (pushToken out t) = tape out ++ units t.
Proof.
  assert (tape (out ++ [t]) = tape out ++ units t) as H by (rewrite tape_app; unfold tape at 2; simpl; by rewrite app_nil_r).
  destruct t as [text| |]; [|done..]. unfold pushToken. destruct (last out) as [[p| |]|] eqn:E; try done.
  apply last_Some in E as [l ->]. rewrite List.removelast_last, !tape_app, <- app_assoc. f_equal.
  unfold tape. simpl. by rewrite chars_app, map_app, !app_nil_r.
Qed.

Lemma tape_normalize ts : tape (normalizeChatComposerTokens ts) = tape (omap normalizeToken ts).
Proof.
  unfold normalizeChatComposerTokens.
  assert (forall out, tape (foldl (fun out token => match normalizeToken token with Some t => pushToken out t | None => out end) out ts) =
    tape out ++ tape (omap normalizeToken ts)) as H; [|apply (H [])].
  induction ts as [|t ts IH]; intros out; [symmetry; apply app_nil_r|]. cbn [foldl]. rewrite IH.
  unfold omap at 2, list_omap; fold (omap normalizeToken ts : list ChatComposerToken).
  destruct (normalizeToken t) as [t'|]; [|done]. by rewrite tape_push, <- app_assoc.
Qed.

Lemma omap_clean ts : clean ts -> omap normalizeToken ts = ts.
Proof. induction 1 as [|t ts Ht _ IH]; cbn; [done|]. rewrite Ht. cbn. by f_equal. Qed.

Lemma tape_normalize_clean ts : clean ts -> tape (normalizeChatComposerTokens ts) = tape ts.
Proof. intros H. by rewrite tape_normalize, omap_clean. Qed.

Lemma clean_app ts1 ts2 : clean (ts1 ++ ts2) <-> clean ts1 /\ clean ts2.
Proof. apply Forall_app. Qed.

(** ** Replacing a range *)

Lemma unit_text (n : nat) s : map UChar (chars (slice 0 n s)) = take n (map UChar (chars s)).
Proof. unfold slice. rewrite chars_unchars, drop_0, Nat.sub_0_r, firstn_map. done. Qed.

Lemma unit_text_from (n : nat) s : map UChar (chars (slice_from n s)) = drop n (map UChar (chars s)).
Proof. unfold slice_from. rewrite chars_unchars, skipn_map. done. Qed.

Definition tape_normal (ts : list ChatComposerToken) : list unit_of := tape (omap normalizeToken ts).

Lemma tape_normal_app ts1 ts2 : tape_normal (ts1 ++ ts2) = tape_normal ts1 ++ tape_normal ts2.
Proof. unfold tape_normal. rewrite omap_app. apply tape_app. Qed.

Lemma tape_normal_cons t ts : normalizeToken t = Some t -> tape_normal (t :: ts) = units t ++ tape_normal ts.
Proof. intros H. unfold tape_normal. cbn. rewrite H. apply tape_cons. Qed.

Lemma tape_normal_text s : tape_normal [TText s] = map UChar (chars s).
Proof.
  unfold tape_normal. cbn. destruct (nonempty s) eqn:E; cbn; [by rewrite app_nil_r|]. breflect. by subst.
Qed.

Lemma keep_before (b : bool) (n : Z) s : b = (0 <? n) ->
  tape_normal (if b then [TText (slice 0 (Z.to_nat n) s)] else []) = take (Z.to_nat n) (map UChar (chars s)).
Proof.
  intros ->. destruct (Z.ltb_spec 0 n); [by rewrite tape_normal_text, unit_text|]. by replace (Z.to_nat n) with 0%nat by lia.
Qed.

Lemma keep_after (n : Z) s : 0 <= n <= Z.of_nat (length (chars s)) ->
  tape_normal (if 0 <? n then [TText (slice_from (Z.to_nat (Z.of_nat (length (chars s)) - n)) s)] else []) =
  drop (Z.to_nat (Z.of_nat (length (chars s)) - n)) (map UChar (chars s)).
Proof.
  intros Hn. destruct (Z.ltb_spec 0 n); [by rewrite tape_normal_text, unit_text_from|].
  rewrite drop_ge; [done|]. rewrite length_map. lia.
Qed.

(** After the insertion: what the range still covers goes, the rest stays. *)
Lemma replace_after ts start stop ins cursor :
  clean ts -> start <= cursor ->
  tape_normal (replaceFrom ts start stop ins cursor true) = drop (Z.to_nat (stop - cursor)) (tape ts).
Proof.
  intros Hc; revert cursor; induction Hc as [|t ts Ht Hts IH]; intros cursor Hs; [by destruct (Z.to_nat (stop - cursor))|].
  cbn [replaceFrom]. pose proof (length_units t) as Hl.
  assert (0 <= chatComposerSingleTokenUnitLength t) by (rewrite <- Hl; lia).
  rewrite tape_cons. set (n := chatComposerSingleTokenUnitLength t) in *. cbn [negb andb].
  assert (forall ts', tape_normal (t :: ts') = units t ++ tape_normal ts') as Hcons by (intros; by apply tape_normal_cons).
  destruct (Z.ltb_spec (cursor + n) start); [lia|]. cbn [orb].
  destruct (Z.ltb_spec stop cursor); cbn [orb].
  { rewrite Hcons, IH by lia. replace (Z.to_nat (stop - cursor)) with 0%nat by lia.
    by replace (Z.to_nat (stop - (cursor + n))) with 0%nat by lia. }
  rewrite drop_app, <- (Nat2Z.id (length (units t))), Hl, <- Z2Nat.inj_sub by lia.
  replace (stop - cursor - n) with (stop - (cursor + n)) by lia. destruct t as [text|id c l|id pth nm l].
  - rewrite !tape_normal_app, IH by lia. unfold n in *; cbn [chatComposerSingleTokenUnitLength] in *.
    set (len := Z.of_nat (length (chars text))) in *.
    rewrite keep_before by done. replace (Z.to_nat (Z.max 0 (Z.min (start - cursor) len))) with 0%nat by lia.
    unfold len. rewrite keep_after by lia. fold len. rewrite take_0. cbn [units app].
    change (tape_normal []) with (@nil unit_of). cbn [app]. f_equal.
    destruct (decide (stop - cursor <= len)).
    + f_equal. lia.
    + rewrite !drop_ge; [done|rewrite length_map; lia..].
  - destruct (Z.ltb_spec cursor start), (Z.ltb_spec stop (cursor + n)); cbn [orb app]; try lia; rewrite ?Hcons, IH by lia.
    + replace (Z.to_nat (stop - cursor)) with 0%nat by (unfold n in *; simpl in *; lia). done.
    + rewrite (drop_ge (units _)); [done|]. unfold n in *; simpl in *; lia.
  - destruct (Z.ltb_spec cursor start), (Z.ltb_spec stop (cursor + n)); cbn [orb app]; try lia; rewrite ?Hcons, IH by lia.
    + replace (Z.to_nat (stop - cursor)) with 0%nat by (unfold n in *; simpl in *; lia). done.
    + rewrite (drop_ge (units _)); [done|]. unfold n in *; simpl in *; lia.
Qed.

(** What stands just before a position is not a capsule. *)
Definition after_text (l : list unit_of) (i : Z) : Prop :=
  0 < i -> exists c, l !! Z.to_nat (i - 1) = Some (UChar c).

Lemma replace_before ts start stop ins cursor :
  clean ts -> cursor <= start <= stop -> start <= cursor + Z.of_nat (length (tape ts)) ->
  after_text (tape ts) (start - cursor) ->
  tape_normal (replaceFrom ts start stop ins cursor false) =
  take (Z.to_nat (start - cursor)) (tape ts) ++ tape_normal ins ++ drop (Z.to_nat (stop - cursor)) (tape ts).
Proof.
  intros Hc; revert cursor; induction Hc as [|t ts Ht Hts IH]; intros cursor Hs Hle Hb.
  { cbn [replaceFrom]. destruct (Z.to_nat (start - cursor)), (Z.to_nat (stop - cursor)); simpl; by rewrite app_nil_r. }
  cbn [replaceFrom]. pose proof (length_units t) as Hl. rewrite tape_cons, length_app in Hle. rewrite tape_cons in Hb |- *.
  set (n := chatComposerSingleTokenUnitLength t) in *.
  assert (0 <= n) by lia. cbn [negb andb].
  assert (forall ts', tape_normal (t :: ts') = units t ++ tape_normal ts') as Hcons by (intros; by apply tape_normal_cons).
  destruct (Z.ltb_spec stop cursor); [lia|].
  rewrite (drop_app (units t)), (take_app (units t)), <- (Nat2Z.id (length (units t))), Hl, <- !Z2Nat.inj_sub by lia.
  replace (stop - cursor - n) with (stop - (cursor + n)) by lia. replace (start - cursor - n) with (start - (cursor + n)) by lia.
  destruct (Z.ltb_spec (cursor + n) start) as [Hskip|Hskip]; cbn [orb].
  { destruct (Z.leb_spec start cursor); [lia|]. rewrite Hcons, IH; [|lia|lia|].
    - rewrite (take_ge (units t)), (drop_ge (units t)) by lia. by rewrite <- app_assoc.
    - intros Hp. destruct (Hb ltac:(lia)) as [c Hx]. exists c. rewrite lookup_app_r in Hx by lia. rewrite <- Hx. f_equal. lia. }
  replace (Z.to_nat (start - (cursor + n))) with 0%nat by lia. rewrite take_0, app_nil_r.
  destruct t as [text|id c l|id pth nm l]; cbn [app].
  - rewrite !tape_normal_app, replace_after by (done || lia). unfold n in *; cbn [chatComposerSingleTokenUnitLength] in *.
    set (len := Z.of_nat (length (chars text))) in *. rewrite keep_before by done.
    unfold len. rewrite keep_after by lia. fold len. cbn [units].
    replace (Z.max 0 (Z.min (start - cursor) len)) with (start - cursor) by lia. do 3 f_equal.
    destruct (decide (stop - cursor <= len)); [f_equal; lia|]. rewrite !drop_ge; [done|rewrite length_map; lia..].
  - assert (start = cursor) as ->.
    { apply Z.le_antisymm; [|lia]. apply Z.le_ngt. intros Hlt. destruct (Hb ltac:(lia)) as [c' Hx].
      replace (Z.to_nat (start - cursor - 1)) with 0%nat in Hx by (unfold n in *; simpl in *; lia). done. }
    rewrite Z.sub_diag, Z.ltb_irrefl. cbn [orb]. rewrite take_0.
    destruct (Z.ltb_spec stop (cursor + n)); rewrite tape_normal_app, ?Hcons, replace_after by (done || lia).
    + by replace (Z.to_nat (stop - cursor)) with 0%nat by (unfold n in *; simpl in *; lia).
    + rewrite (drop_ge (units _)); [done|]. unfold n in *; simpl in *; lia.
  - assert (start = cursor) as ->.
    { apply Z.le_antisymm; [|lia]. apply Z.le_ngt. intros Hlt. destruct (Hb ltac:(lia)) as [c' Hx].
      replace (Z.to_nat (start - cursor - 1)) with 0%nat in Hx by (unfold n in *; simpl in *; lia). done. }
    rewrite Z.sub_diag, Z.ltb_irrefl. cbn [orb]. rewrite take_0.
    destruct (Z.ltb_spec stop (cursor + n)); rewrite tape_normal_app, ?Hcons, replace_after by (done || lia).
    + by replace (Z.to_nat (stop - cursor)) with 0%nat by (unfold n in *; simpl in *; lia).
    + rewrite (drop_ge (units _)); [done|]. unfold n in *; simpl in *; lia.
Qed.

(** ** The range an insertion replaces *)

(** The positions [insertChatComposerTokens] replaces. *)
Definition insertion_range (tokens : list ChatComposerToken) (position : Z) : Z * Z :=
  let safePosition := clampPosition position (chatComposerTokenUnitLength tokens) in
  default (safePosition, safePosition) (activeQueryRange tokens safePosition).

Lemma last_index_of_bound c l i j : last_index_of c l i = Some j -> (i <= j < i + length l)%nat.
Proof.
  revert i j; induction l as [|d l IH]; intros i j; simpl; [done|].
  destruct (last_index_of c l (S i)) as [k|] eqn:E; [intros [= ->]; apply IH in E; lia|].
  destruct (Ascii.eqb d c); [intros [= ->]; lia|done].
Qed.

Lemma locate_bounds tokens position cursor text s o :
  locateTextPosition tokens position cursor = Some (text, s, o) ->
  cursor <= s /\ 0 <= o <= Z.of_nat (length (chars text)) /\ position = s + o /\
  s + o <= cursor + Z.of_nat (length (tape tokens)).
Proof.
  revert cursor; induction tokens as [|t ts IH]; intros cursor; [done|]. cbn [locateTextPosition]. rewrite tape_cons, length_app.
  pose proof (length_units t) as Hl. destruct t as [tx| |]; cbn [chatComposerSingleTokenUnitLength] in *.
  - destruct (Z.leb_spec cursor position), (Z.leb_spec position (cursor + Z.of_nat (length (chars tx)))); cbn [andb];
      try (intros H1%IH; lia). intros [= -> -> <-]. lia.
  - intros H1%IH. lia.
  - intros H1%IH. lia.
Qed.

Lemma insertion_range_bounds tokens position s e :
  insertion_range tokens position = (s, e) -> 0 <= s <= e /\ e <= Z.of_nat (length (tape tokens)).
Proof.
  unfold insertion_range, clampPosition. rewrite length_tape. set (p := Z.max 0 _).
  assert (0 <= p <= Z.of_nat (length (tape tokens))) by lia.
  unfold activeQueryRange. destruct (locateTextPosition tokens p 0) as [[[text ts] o]|] eqn:E; [|intros [= <- <-]; lia].
  apply locate_bounds in E. set (before := take _ _). destruct (later _ _) as [qs|] eqn:Eq; [|intros [= <- <-]; lia].
  assert (qs < length before)%nat.
  { unfold later, lastIndexOf in Eq. destruct (last_index_of "@" before 0) eqn:E1, (last_index_of slash before 0) eqn:E2;
      simplify_eq; repeat match goal with H : last_index_of _ _ _ = Some _ |- _ => apply last_index_of_bound in H end; lia. }
  assert (length before <= Z.to_nat o)%nat by (unfold before; rewrite length_take; lia).
  destruct (existsb _ _); [intros [= <- <-]; lia|]. destruct (negb _); intros [= <- <-]; lia.
Qed.

(** The query an insertion replaces: "@" or "/" and then no white space and no further
    trigger, at the start of its text or behind white space. *)
Definition trigger (c : ascii) : Prop := c = "@"%char \/ c = slash.
Definition query_after (before query : list ascii) : Prop :=
  (exists c rest, query = c :: rest /\ trigger c /\ Forall (fun d => is_space d = false /\ ~ trigger d) rest) /\
  (before = [] \/ exists text c, before = text ++ [c] /\ is_space c = true).

(** The text token a position is in or next to, the first one if there are two, and where
    it starts. *)
Definition text_at (tokens : list ChatComposerToken) (position : Z) (text : string) (start : Z) : Prop :=
  exists before after, tokens = before ++ TText text :: after /\ start = Z.of_nat (length (tape before)) /\
    start <= position <= start + Z.of_nat (length (chars text)) /\
    forall before' text' after', before = before' ++ TText text' :: after' ->
      Z.of_nat (length (tape before')) + Z.of_nat (length (chars text')) < position.

(** The text before a position in its token ends with a query that starts at [start]. *)
Definition query_at (tokens : list ChatComposerToken) (position start : Z) : Prop :=
  exists text textStart before query, text_at tokens position text textStart /\
    take (Z.to_nat (position - textStart)) (chars text) = before ++ query /\ query_after before query /\
    start = textStart + Z.of_nat (length before).

Lemma locate_text_at tokens position cursor :
  match locateTextPosition tokens position cursor with
  | Some (text, s, o) => text_at tokens (position - cursor) text (s - cursor) /\ o = position - s
  | None => forall text start, ~ text_at tokens (position - cursor) text start
  end.
Proof.
  revert cursor; induction tokens as [|t ts IH]; intros cursor.
  { intros text start (before & after & E & _). by destruct before. }
  assert (forall n text s, n = Z.of_nat (length (units t)) -> text_at ts (position - (cursor + n)) text (s - (cursor + n)) ->
    match t with TText tx => ~ (0 <= position - cursor <= n) | _ => True end -> text_at (t :: ts) (position - cursor) text (s - cursor)) as Hnext.
  { intros n text s Hn (before & after & -> & Es & Hp & Hfirst) Ht. exists (t :: before), after.
    rewrite tape_cons, length_app. split; [done|]. split; [lia|]. split; [lia|].
    intros [|b' before'] text' after' [= ? Eb]; subst.
    - cbn [units length tape map concat] in *. rewrite length_map in *. lia.
    - rewrite tape_cons, length_app. specialize (Hfirst before' text' after' eq_refl). lia. }
  assert (forall n text start, n = Z.of_nat (length (units t)) -> text_at (t :: ts) (position - cursor) text start ->
    match t with TText tx => ~ (0 <= position - cursor <= n) | _ => True end ->
    text_at ts (position - (cursor + n)) text (start - n)) as Hback.
  { intros n text start Hn (before & after & E & Es & Hp & Hfirst) Ht. destruct before as [|b before]; simplify_eq/=.
    - rewrite length_map in *. lia.
    - exists before, after. rewrite tape_cons, length_app in *. split; [done|]. split; [lia|]. split; [lia|].
      intros before' text' after' ->. specialize (Hfirst (b :: before') text' after' eq_refl).
      rewrite tape_cons, length_app in Hfirst. lia. }
  pose proof (length_units t) as Hl. cbn [locateTextPosition]. specialize (IH (cursor + chatComposerSingleTokenUnitLength t)).
  assert (match t with TText tx => ~ (0 <= position - cursor <= chatComposerSingleTokenUnitLength t) | _ => True end ->
    match locateTextPosition ts position (cursor + chatComposerSingleTokenUnitLength t) with
    | Some (text, s, o) => text_at (t :: ts) (position - cursor) text (s - cursor) /\ o = position - s
    | None => forall text start, ~ text_at (t :: ts) (position - cursor) text start
    end) as Hskip.
  { intros Ht. destruct (locateTextPosition ts _ _) as [[[text s] o]|].
    - destruct IH as [IH ->]. split; [|done]. by eapply Hnext.
    - intros text start H. by eapply IH, Hback. }
  destruct t as [tx| |]; cbn [chatComposerSingleTokenUnitLength] in *; [|by apply Hskip..].
  destruct (Z.leb_spec cursor position), (Z.leb_spec position (cursor + Z.of_nat (length (chars tx)))); cbn [andb];
    [|apply Hskip; lia..].
  split; [|lia]. exists [], ts. cbn. split; [done|]. split; [lia|]. split; [lia|]. by intros [].
Qed.

Lemma text_at_unique tokens position text s text' s' :
  text_at tokens position text s -> text_at tokens position text' s' -> text' = text /\ s' = s.
Proof.
  intros (b & a & -> & -> & Hp & Hf) (b' & a' & E & -> & Hp' & Hf').
  apply app_eq_inv in E as [([|x k] & -> & E)|([|x k] & -> & E)]; rewrite ?app_nil_r in *; simplify_eq/=; try done.
  - specialize (Hf b' text' k eq_refl). lia.
  - specialize (Hf' b text k eq_refl). lia.
Qed.

Lemma last_index_of_spec c l i :
  match last_index_of c l i with
  | Some j => l !! (j - i)%nat = Some c /\ (i <= j)%nat /\ forall k, l !! k = Some c -> (i + k <= j)%nat
  | None => forall k, l !! k <> Some c
  end.
Proof.
  revert i; induction l as [|d l IH]; intros i; simpl; [done|]. specialize (IH (S i)). destruct (last_index_of c l (S i)) as [j|].
  - destruct IH as (H1 & H2 & H3). split; [by replace (j - i)%nat with (S (j - S i)) by lia|]. split; [lia|].
    intros [|k] Hk; [lia|]. specialize (H3 k Hk). lia.
  - destruct (Ascii.eqb_spec d c) as [->|Hne].
    + rewrite Nat.sub_diag. split; [done|]. split; [done|]. intros [|k] Hk; [lia|]. by apply IH in Hk.
    + intros [|k]; [cbn; congruence|apply IH].
Qed.

(** The last trigger of a text. *)
Lemma later_spec l :
  match later (lastIndexOf "@" l) (lastIndexOf slash l) with
  | Some i => (exists c, l !! i = Some c /\ trigger c) /\ forall k c, l !! k = Some c -> trigger c -> (k <= i)%nat
  | None => forall k c, l !! k = Some c -> ~ trigger c
  end.
Proof.
  unfold lastIndexOf, trigger. pose proof (last_index_of_spec "@" l 0) as H1. pose proof (last_index_of_spec slash l 0) as H2.
  destruct (last_index_of "@" l 0) as [i|], (last_index_of slash l 0) as [j|]; cbn [later]; rewrite ?Nat.sub_0_r in *.
  - destruct H1 as (H1 & _ & H1'), H2 as (H2 & _ & H2'). split.
    + destruct (Nat.max_spec i j) as [[_ ->]|[_ ->]]; eauto.
    + intros k c Hk [->| ->]; [apply H1' in Hk|apply H2' in Hk]; lia.
  - destruct H1 as (H1 & _ & H1'). split; [eauto|]. intros k c Hk [->| ->]; [apply H1' in Hk; lia|by apply H2 in Hk].
  - destruct H2 as (H2 & _ & H2'). split; [eauto|]. intros k c Hk [->| ->]; [by apply H1 in Hk|apply H2' in Hk; lia].
  - intros k c Hk [->| ->]; [by apply H1 in Hk|by apply H2 in Hk].
Qed.

(** Where a text's query starts is where its last trigger is. *)
Lemma query_after_last l before query i : l = before ++ query -> query_after before query ->
  later (lastIndexOf "@" l) (lastIndexOf slash l) = Some i -> i = length before.
Proof.
  intros -> [(c & rest & -> & Hc & Hrest) _] E. pose proof (later_spec (before ++ c :: rest)) as Hs. rewrite E in Hs.
  destruct Hs as [(d & Hd & Hd') Hlast]. pose proof (Hlast (length before) c (list_lookup_middle _ _ _ _ eq_refl) Hc) as Hle.
  destruct (decide (i = length before)) as [|Hne]; [done|]. rewrite lookup_app_r in Hd by lia.
  destruct (i - length before)%nat as [|n] eqn:En; [lia|]. cbn in Hd.
  apply (Forall_lookup_1 _ _ _ _ Hrest) in Hd as [_ Hnot]. done.
Qed.

Lemma boundary_before l i : (i <= length l)%nat ->
  hasChatComposerTriggerBoundary l i = true <-> take i l = [] \/ exists text c, take i l = text ++ [c] /\ is_space c = true.
Proof.
  intros Hi. destruct i as [|i]; cbn [hasChatComposerTriggerBoundary]; [cbn; naive_solver|].
  destruct (lookup_lt_is_Some_2 l i ltac:(lia)) as [c Hc]. rewrite Hc, (take_S_r _ _ c) by done. split.
  - intros H. right. by exists (take i l), c.
  - intros [E|(text & d & E & H)]; [by destruct (take i l)|]. apply app_inj_tail in E as [_ ->]. done.
Qed.

Lemma no_space l : existsb is_space l = false <-> Forall (fun d => is_space d = false) l.
Proof.
  rewrite <- not_true_iff_false, List.existsb_exists, Forall_forall. split.
  - intros H d Hd. destruct (is_space d) eqn:E; [|done]. destruct H. exists d. by rewrite <- list_elem_of_In.
  - intros H (d & Hd%list_elem_of_In & E). by rewrite H in E.
Qed.

(** [activeQueryRange] finds the query before a position, if there is one. *)
Lemma activeQueryRange_spec tokens position :
  match activeQueryRange tokens position with
  | Some (start, stop) => stop = position /\ forall s, query_at tokens position s <-> s = start
  | None => forall start, ~ query_at tokens position start
  end.
Proof.
  unfold activeQueryRange. pose proof (locate_text_at tokens position 0) as Hl. rewrite Z.sub_0_r in Hl.
  destruct (locateTextPosition tokens position 0) as [[[text s] o]|].
  2:{ intros start (text & ts & _ & _ & H & _). by apply Hl in H. }
  rewrite Z.sub_0_r in Hl. destruct Hl as [Ht ->]. set (l := take _ _).
  assert (forall start, query_at tokens position start -> exists before query,
    l = before ++ query /\ query_after before query /\ start = s + Z.of_nat (length before)) as Hq.
  { intros start (text' & ts & before & query & Ht' & E & Hq & ->).
    assert (text' = text /\ ts = s) as [-> ->] by (by eapply text_at_unique). by exists before, query. }
  pose proof (later_spec l) as Hs. destruct (later _ _) as [i|] eqn:Ei.
  2:{ intros start (before & query & E & [(c & rest & -> & Hc & _) _] & _)%Hq.
      eapply (Hs (length before) c); [by rewrite E, list_lookup_middle|done]. }
  destruct Hs as [(c & Hc & Htr) Hlast]. pose proof (lookup_lt_Some _ _ _ Hc) as Hlt.
  assert (forall start, query_at tokens position start -> existsb is_space (drop (S i) l) = false /\ hasChatComposerTriggerBoundary l i = true) as Hfound.
  { intros start (before & query & E & Hquery & _)%Hq. pose proof (query_after_last _ _ _ _ E Hquery Ei) as ->.
    destruct Hquery as [(c' & rest & -> & _ & Hrest) Hb]. split.
    - apply no_space. rewrite E, drop_app, drop_ge by lia. replace (S (length before) - length before)%nat with 1%nat by lia. eapply Forall_impl; [exact Hrest|]. by intros d [].
    - apply boundary_before; [lia|]. by rewrite E, take_app_length. }
  destruct (existsb _ _) eqn:Esp; [by intros start [? _]%Hfound|].
  destruct (hasChatComposerTriggerBoundary l i) eqn:Eb; cbn [negb]; [|by intros start [_ ?]%Hfound].
  split; [done|]. intros start. split.
  { intros (before & query & E & Hquery & ->)%Hq. by rewrite (query_after_last _ _ _ _ E Hquery Ei). }
  intros ->. exists text, s, (take i l), (c :: drop (S i) l). split; [done|]. fold l.
  split; [symmetry; by apply take_drop_middle|]. rewrite length_take. split; [|lia]. split; [|apply boundary_before; [lia|done]].
  exists c, (drop (S i) l). split; [done|]. split; [done|]. apply Forall_forall. intros d Hd. split.
  - by apply (proj1 (Forall_forall _ _) (proj1 (no_space _) Esp)).
  - intros Hd'. apply list_elem_of_lookup in Hd as [k Hk]. rewrite lookup_drop in Hk. apply (Hlast _ _ Hk) in Hd'. lia.
Qed.

(** The range an insertion replaces is that of the query. *)
Lemma insertion_range_query tokens position start :
  let stop := Z.max 0 (Z.min position (Z.of_nat (length (tape tokens)))) in
  query_at tokens stop start \/ start = stop /\ (forall s, ~ query_at tokens stop s) -> insertion_range tokens position = (start, stop).
Proof.
  intros stop H. unfold insertion_range, clampPosition. rewrite length_tape. fold stop. pose proof (activeQueryRange_spec tokens stop) as Hq.
  destruct (activeQueryRange tokens stop) as [[a b]|]; cbn [default].
  - destruct Hq as [-> Hq]. destruct H as [H|[_ H]]; [|by destruct (H a); apply Hq]. by apply Hq in H as ->.
  - destruct H as [H|[-> _]]; [by apply Hq in H|done].
Qed.

Lemma insert_replaces tokens position inserted start stop : insertion_range tokens position = (start, stop) ->
  insertChatComposerTokens tokens position inserted =
    {| edit_tokens := replaceTokenRange tokens start stop inserted; edit_cursor := start + chatComposerTokenUnitLength inserted |}.
Proof.
  unfold insertion_range, insertChatComposerTokens. intros Hr. destruct (activeQueryRange _ _) as [[a b]|]; simpl in Hr; by simplify_eq.
Qed.

(** C29. Inserting tokens at a position of a message.  Both are token lists that
    normalization keeps, up to joining texts ([clean]; the editing functions only make
    such lists: [clean_normalize]); a position out of the message counts as its nearest
    end.  What is replaced is the query before the position if there is one: an "@" or "/"
    with no white space and no other trigger up to the position, at the start of its text
    or behind white space; otherwise nothing is.  And if what stands before the place is
    text or nothing (behind a capsule it is not so: [insert_after_capsule_swaps]), the
    message becomes what it was before the place, the inserted tokens, and what it was
    after the position, nothing lost, doubled or reordered; the new cursor is right behind
    the inserted tokens. *)
Theorem insert_tokens_spec tokens position inserted start :
  clean tokens -> clean inserted ->
  let stop := Z.max 0 (Z.min position (Z.of_nat (length (tape tokens)))) in
  query_at tokens stop start \/ start = stop /\ (forall s, ~ query_at tokens stop s) ->
  after_text (tape tokens) start ->
  let r := insertChatComposerTokens tokens position inserted in
  tape (edit_tokens r) = take (Z.to_nat start) (tape tokens) ++ tape inserted ++ drop (Z.to_nat stop) (tape tokens) /\
  edit_cursor r = start + Z.of_nat (length (tape inserted)).
Proof.
  intros Ht Hi stop Hstart Hb r. assert (insertion_range tokens position = (start, stop)) as Hr by by apply insertion_range_query.
  pose proof (insertion_range_bounds _ _ _ _ Hr) as [H1 H2]. unfold r. rewrite (insert_replaces _ _ _ _ _ Hr).
  cbn [edit_tokens edit_cursor]. rewrite length_tape. split; [|done]. unfold replaceTokenRange.
  rewrite tape_normalize. fold (tape_normal (replaceFrom tokens start stop inserted 0 false)).
  rewrite replace_before, !Z.sub_0_r by (rewrite ?Z.sub_0_r; done || lia). f_equal. f_equal.
  unfold tape_normal. by rewrite omap_clean.
Qed.

Lemma insert_tokens_spec_witness :
  tape (edit_tokens (insertChatComposerTokens [TText "see @fi"; TSkill "s" "/x" "X"] 7 [TFile "f" "a.ts" "a.ts" ""])) =
  tape [TText "see "; TFile "f" "a.ts" "a.ts" ""; TSkill "s" "/x" "X"].
Proof.
  apply (insert_tokens_spec [TText "see @fi"; TSkill "s" "/x" "X"] 7 [TFile "f" "a.ts" "a.ts" ""] 4); [by repeat constructor..| |].
  - left. exists "see @fi"%string, 0, (chars "see "), (chars "@fi"). split.
    { exists [], [TSkill "s" "/x" "X"]. cbn. split_and!; [done..|lia|lia|]. by intros []. }
    split_and!; [done| |done]. split; [|right; by exists (chars "see"), " "%char].
    exists "@"%char, (chars "fi"). split; [done|]. split; [by left|]. repeat constructor; by intros [].
  - intros _. by exists " "%char.
Defined.

(** A file mention with a slash in it is not such a query, since its last trigger is not
    behind white space: the picker offers files for it, and choosing one leaves the text
    typed and puts the file behind it. *)
Example mention_with_slash_kept :
  resolveChatFileMentionQuery "@src/fi" 7 = Some {| q_start := 0; q_end := 7; q_query := "src/fi" |} /\
  edit_tokens (insertChatComposerTokens [TText "@src/fi"] 7 [TFile "f" "src/fi.ts" "fi.ts" "fi.ts"]) =
    [TText "@src/fi"; TFile "f" "src/fi.ts" "fi.ts" "fi.ts"].
Proof. split; vm_compute; reflexivity. Qed.

(** Directly behind a capsule the insertion goes before it: the tokens end up in the
    wrong order, and the cursor behind the wrong one. *)
Lemma insert_after_capsule_swaps capsule inserted :
  clean [capsule; inserted] -> is_capsule capsule = true -> is_capsule inserted = true ->
  edit_tokens (insertChatComposerTokens [capsule] 1 [inserted]) = [inserted; capsule] /\
  edit_cursor (insertChatComposerTokens [capsule] 1 [inserted]) = 2.
Proof.
  intros [Hc [Hi _]%Forall_cons]%Forall_cons H1 H2.
  assert (insertChatComposerTokens [capsule] 1 [inserted] =
    {| edit_tokens := normalizeChatComposerTokens [inserted; capsule]; edit_cursor := 2 |}) as ->
    by (destruct capsule; try done; by destruct inserted).
  split; [|done]. cbn [edit_tokens]. unfold normalizeChatComposerTokens. cbn [foldl]. rewrite Hi, Hc.
  destruct capsule; try done; by destruct inserted.
Qed.

(** ** Deleting a capsule *)

Definition unit_has_id (id : string) (u : unit_of) : bool :=
  match u with UChar _ => false | UCapsule t => chatComposerTokenHasId t id end.
Definition others (id : string) (l : list unit_of) : list unit_of := bfilter (fun u => negb (unit_has_id id u)) l.

Lemma units_has_id id t :
  others id (units t) = if chatComposerTokenHasId t id then [] else units t.
Proof.
  unfold others. destruct t as [text| |]; [|simpl; by case_bool_decide..].
  simpl. apply bfilter_all, Forall_forall. by intros u (c & -> & _)%elem_of_map.
Qed.

Lemma others_tape id ts : others id (tape ts) = tape (bfilter (fun t => negb (chatComposerTokenHasId t id)) ts).
Proof.
  induction ts as [|t ts IH]; [done|]. rewrite tape_cons. unfold others in *. rewrite bfilter_app, IH.
  fold (others id (units t)). rewrite units_has_id. simpl. by destruct (chatComposerTokenHasId t id).
Qed.

Lemma clean_push out t : clean out -> normalizeToken t = Some t -> clean (pushToken out t).
Proof.
  intros Ho Ht. unfold pushToken. destruct t as [text| |]; [|apply Forall_app; by repeat constructor..].
  assert (clean (out ++ [TText text])) by (apply Forall_app; by repeat constructor).
  destruct (last out) as [[p| |]|] eqn:E; try done. apply last_Some in E as [l ->].
  rewrite List.removelast_last. apply Forall_app in Ho as [Hl [Hp _]%Forall_cons]. apply Forall_app. split; [done|].
  apply Forall_singleton. simpl in *. destruct (nonempty p) eqn:Ep; [|done]. apply nonempty_true in Ep.
  assert (nonempty (p +:+ text) = true) as ->; [|done]. apply nonempty_true. destruct p; [done|discriminate].
Qed.

Lemma clean_normalize ts : clean ts -> clean (normalizeChatComposerTokens ts).
Proof.
  unfold normalizeChatComposerTokens. assert (clean []) as H by constructor. revert H. generalize (@nil ChatComposerToken).
  induction ts as [|t ts IH]; intros out Ho Hts; [done|]. apply Forall_cons in Hts as [Ht Hts]. cbn [foldl]. rewrite Ht.
  apply IH; [by apply clean_push|done].
Qed.

Lemma others_none id l : Forall (fun u => unit_has_id id u = false) l -> others id l = l.
Proof. intros H. apply bfilter_all. eapply Forall_impl; [exact H|]. by intros u ->. Qed.

Lemma removedSpan_spec ts id cursor :
  match removedSpan ts id cursor with
  | None => others id (tape ts) = tape ts
  | Some (s, e) => cursor <= s /\ e = s + 1 /\ exists l1 u l2, tape ts = l1 ++ u :: l2 /\ unit_has_id id u = true /\
      s = cursor + Z.of_nat (length l1) /\ others id l1 = l1
  end.
Proof.
  revert cursor; induction ts as [|t ts IH]; intros cursor; [done|]. cbn [removedSpan]. rewrite tape_cons.
  destruct (chatComposerTokenHasId t id) eqn:E.
  - destruct t as [|i c l|i p n l]; [done|..]; (split_and!; [lia|done|]); eexists [], _, (tape ts); split_and!; done || (simpl; lia).
  - specialize (IH (cursor + chatComposerSingleTokenUnitLength t)). pose proof (length_units t).
    pose proof (units_has_id id t) as Hu. rewrite E in Hu. destruct (removedSpan _ _ _) as [[s e]|].
    + destruct IH as (H1 & -> & l1 & u & l2 & -> & H2 & -> & H3). split_and!; [lia|done|].
      exists (units t ++ l1), u, l2. rewrite <- app_assoc, length_app. split_and!; [done|done|lia|].
      unfold others in *. by rewrite bfilter_app, Hu, H3.
    + unfold others in *. by rewrite bfilter_app, Hu, IH.
Qed.

(** Deleting a capsule removes it and nothing else, and the cursor stays between the
    units it stood between (where the capsule was, when it stood next to it), for every
    position the caller passes. *)
Theorem delete_token_spec tokens id position :
  clean tokens -> (length (bfilter (unit_has_id id) (tape tokens)) <= 1)%nat ->
  let p := clampPosition position (Z.of_nat (length (tape tokens))) in
  let r := deleteChatComposerTokenByIdAtPosition tokens id position in
  tape (edit_tokens r) = others id (tape tokens) /\
  edit_cursor r = Z.of_nat (length (others id (take (Z.to_nat p) (tape tokens)))).
Proof.
  intros Hc Hone p r. pose proof (tape_normalize_clean _ Hc) as Hn.
  unfold r, deleteChatComposerTokenByIdAtPosition. rewrite length_tape, Hn. fold p.
  pose proof (removedSpan_spec (normalizeChatComposerTokens tokens) id 0) as Hs. rewrite Hn in Hs.
  assert (0 <= p <= Z.of_nat (length (tape tokens))) as Hp by (unfold p, clampPosition; lia).
  destruct (removedSpan _ _ _) as [[s e]|]; cbn [edit_tokens edit_cursor].
  - destruct Hs as (Hs0 & -> & l1 & u & l2 & E & Hu & -> & Hl1). rewrite E in Hone |- *.
    assert (others id l2 = l2) as Hl2.
    { apply others_none, Forall_forall. intros u2 H2. destruct (unit_has_id id u2) eqn:E2; [|done].
      rewrite bfilter_app, length_app in Hone. simpl in Hone. rewrite Hu in Hone. simpl in Hone.
      apply list_elem_of_split in H2 as (a & b & ->). rewrite bfilter_app, length_app in Hone. simpl in Hone.
      rewrite E2 in Hone. simpl in Hone. lia. }
    assert (others id (l1 ++ u :: l2) = l1 ++ l2) as Hall.
    { unfold others in *. rewrite bfilter_app. simpl. by rewrite Hl1, Hu, Hl2. }
    assert (tape (deleteChatComposerTokenById (normalizeChatComposerTokens tokens) id) = l1 ++ l2) as Ht.
    { unfold deleteChatComposerTokenById. rewrite tape_normalize_clean, <- others_tape, Hn, E; [done|].
      apply Forall_forall. intros t [Ht _]%elem_of_bfilter.
      by apply (proj1 (Forall_forall _ _) (clean_normalize _ Hc)). }
    rewrite Ht, Hall, length_tape, Ht. split; [done|]. rewrite E, !length_app in Hp. cbn [length] in Hp.
    rewrite length_app, take_app. unfold others in *. rewrite bfilter_app, length_app.
    assert (forall n, bfilter (fun u => negb (unit_has_id id u)) (take n l1) = take n l1) as Htk.
    { intros n. apply bfilter_all, Forall_take, Forall_forall. intros x Hx. rewrite <- Hl1 in Hx. apply elem_of_bfilter in Hx. tauto. }
    rewrite Htk, length_take.
    destruct (Z.leb_spec p (0 + Z.of_nat (length l1))); [|destruct (Z.leb_spec p (0 + Z.of_nat (length l1) + 1))].
    + replace (Z.to_nat p - length l1)%nat with 0%nat by lia. simpl. lia.
    + replace (Z.to_nat p - length l1)%nat with 1%nat by lia. simpl. rewrite Hu. simpl. lia.
    + destruct (Z.to_nat p - length l1)%nat as [|k] eqn:Ek; [lia|]. simpl. rewrite Hu. simpl.
      rewrite (bfilter_all _ (take k l2)); [rewrite length_take; lia|].
      apply Forall_take, Forall_forall. intros x Hx. rewrite <- Hl2 in Hx. apply elem_of_bfilter in Hx. tauto.
  - rewrite Hs. split; [by rewrite Hn|]. assert (others id (take (Z.to_nat p) (tape tokens)) = take (Z.to_nat p) (tape tokens)) as ->.
    { apply bfilter_all, Forall_take, Forall_forall. intros x Hx. rewrite <- Hs in Hx. apply elem_of_bfilter in Hx. tauto. }
    rewrite length_take. lia.
Qed.

Lemma delete_token_spec_witness :
  edit_cursor (deleteChatComposerTokenByIdAtPosition [TText "a "; TSkill "s" "/x" "X"; TText "bc"] "s" 4) = 3.
Proof.
  refine (proj2 (delete_token_spec [TText "a "; TSkill "s" "/x" "X"; TText "bc"] "s" 4 _ _)).
  - repeat constructor.
  - vm_compute. lia.
Defined.

(** ** File labels *)

Lemma split_char_words c l : Forall (fun w => c ∉ w) (split_char c l).
Proof.
  induction l as [|d l IH]; simpl; [repeat constructor; by intros ?%elem_of_nil|].
  destruct (Ascii.eqb_spec d c) as [->|Hne]; [constructor; [by intros ?%elem_of_nil|done]|].
  destruct (split_char c l) as [|w ws]; [constructor; [|constructor]; rewrite list_elem_of_singleton; congruence|].
  apply Forall_cons in IH as [Hw Hws]. constructor; [|done]. rewrite not_elem_of_cons. split; [congruence|done].
Qed.

Definition part_ok (s : string) : Prop := s <> ""%string /\ slash ∉ chars s.

Lemma path_parts_ok path : Forall part_ok (path_parts path).
Proof.
  apply Forall_forall. intros s [Hs Hne%nonempty_true]%elem_of_bfilter. split; [done|].
  unfold split in Hs. apply elem_of_map in Hs as (w & -> & Hw). rewrite chars_unchars.
  by apply (proj1 (Forall_forall _ _) (split_char_words slash (chars path))).
Qed.

Lemma path_parts_join l : l <> [] -> Forall part_ok l -> path_parts (join "/" l) = l.
Proof.
  intros Hne Hl. assert (split slash (join "/" l) = l) as Hs.
  { induction l as [|s [|t l] IH]; [done| |].
    - apply Forall_cons in Hl as [[_ Hs] _]. unfold split, join. cbn [foldr]. rewrite chars_app. change (chars "") with (@nil ascii).
      rewrite app_nil_r, split_char_none by done. cbn [map]. by rewrite unchars_chars.
    - apply Forall_cons in Hl as [[_ Hs] Hl]. rewrite join_cons. unfold split. rewrite !chars_app.
      change (chars "/") with [slash]. cbn [app]. rewrite split_char_app by done. cbn [map]. rewrite unchars_chars.
      f_equal. apply IH; [done|done]. }
  unfold path_parts. rewrite Hs. apply bfilter_all. eapply Forall_impl; [exact Hl|]. intros s [H _]. by apply nonempty_true.
Qed.

Lemma join_inj l1 l2 : l1 <> [] -> l2 <> [] -> Forall part_ok l1 -> Forall part_ok l2 -> join "/" l1 = join "/" l2 -> l1 = l2.
Proof. intros. rewrite <- (path_parts_join l1), <- (path_parts_join l2) by done. congruence. Qed.

Lemma last_parts_nonempty n l : (1 <= n)%nat -> l <> [] -> last_parts n l <> [].
Proof. intros Hn Hl E. apply (f_equal length) in E. unfold last_parts in E. rewrite length_drop in E. destruct l; [done|]. simpl in *. lia. Qed.

Lemma last_parts_ok n l : Forall part_ok l -> Forall part_ok (last_parts n l).
Proof. apply Forall_drop. Qed.

Lemma last_parts_twice n m l : (n <= m)%nat -> last_parts n (last_parts m l) = last_parts n l.
Proof. intros H. unfold last_parts. rewrite drop_drop, length_drop. f_equal. lia. Qed.

(** A label is a suffix of the path at least as long as one that no other path has, or
    the whole path. *)
Lemma shortestLabel_spec normalized index parts path len n :
  (len + n = S (length parts))%nat -> (1 <= len)%nat ->
  let label := shortestLabel normalized index parts path len n in
  label = path \/ exists u m, (1 <= u <= m)%nat /\ parts <> [] /\ uniqueSuffix normalized index u parts = true /\
    label = join "/" (last_parts m parts).
Proof.
  revert len; induction n as [|n IH]; intros len Hlen H1; [by left|]. cbn [shortestLabel].
  destruct (uniqueSuffix normalized index len parts) eqn:E; [|apply IH; lia].
  right. assert (parts <> []) by (destruct parts; simpl in *; [lia|done]). unfold includeUsefulParentForGenericSuffix.
  destruct (_ && _); [exists len, (S len)|exists len, len]; split_and!; done || lia.
Qed.

Lemma uniqueSuffix_other normalized i j u parts other :
  uniqueSuffix normalized i u parts = true -> normalized !! j = Some other -> i <> j ->
  join "/" (last_parts u (path_parts other)) <> join "/" (last_parts u parts).
Proof.
  unfold uniqueSuffix. rewrite forallb_forall. intros H Hj Hne.
  specialize (H (j, other)). rewrite <- list_elem_of_In in H.
  assert ((j, other) ∈ imap pair normalized) as Hin.
  { apply list_elem_of_lookup. exists j. rewrite list_lookup_imap, Hj. done. }
  specialize (H Hin). apply orb_true_iff in H as [H|H]; [apply Nat.eqb_eq in H; congruence|]. by breflect.
Qed.

Lemma shared_suffix u m l l' : (u <= m)%nat -> l' = last_parts m l -> last_parts u l' = last_parts u l.
Proof. intros H ->. by apply last_parts_twice. Qed.

Lemma labels_injective paths i j l :
  NoDup (map normalizeProjectPath paths) ->
  shortestUniqueFileLabels paths !! i = Some l -> shortestUniqueFileLabels paths !! j = Some l -> i = j.
Proof.
  intros Hnd. unfold shortestUniqueFileLabels. set (ns := map normalizeProjectPath paths) in *.
  rewrite !list_lookup_imap. destruct (ns !! i) as [p|] eqn:Ei; [|done]. destruct (ns !! j) as [q|] eqn:Ej; [|done].
  simpl. intros [= Hi] [= Hj]. destruct (decide (i = j)) as [|Hne]; [done|]. exfalso.
  assert (p <> q) as Hpq by (intros ->; apply Hne; by eapply NoDup_lookup).
  pose proof (shortestLabel_spec ns i (path_parts p) p 1 (length (path_parts p)) ltac:(lia) ltac:(lia)) as H1.
  pose proof (shortestLabel_spec ns j (path_parts q) q 1 (length (path_parts q)) ltac:(lia) ltac:(lia)) as H2.
  rewrite Hi in H1. rewrite Hj in H2. clear Hi Hj.
  assert (forall x k y, l = join "/" (last_parts k (path_parts y)) -> (1 <= k)%nat -> path_parts y <> [] -> l = x ->
    path_parts x = last_parts k (path_parts y)) as Hjoin.
  { intros x k y E Hk Hy <-. rewrite E. apply path_parts_join; [by apply last_parts_nonempty|apply last_parts_ok, path_parts_ok]. }
  assert (forall u, uniqueSuffix ns i u (path_parts p) = true -> last_parts u (path_parts q) = last_parts u (path_parts p) -> False) as Ci.
  { intros u Hu E. by apply (uniqueSuffix_other _ _ _ _ _ _ Hu Ej Hne); f_equal. }
  assert (forall u, uniqueSuffix ns j u (path_parts q) = true -> last_parts u (path_parts p) = last_parts u (path_parts q) -> False) as Cj.
  { intros u Hu E. by apply (uniqueSuffix_other _ _ _ _ _ _ Hu Ei (not_eq_sym Hne)); f_equal. }
  destruct H1 as [E1|(u1 & m1 & L1 & Hp & U1 & E1)], H2 as [E2|(u2 & m2 & L2 & Hq & U2 & E2)].
  - congruence.
  - apply (Cj u2 U2). apply (shared_suffix u2 m2); [lia|]. by apply Hjoin; [|lia| |].
  - apply (Ci u1 U1). apply (shared_suffix u1 m1); [lia|]. by apply Hjoin; [|lia| |].
  - assert (last_parts m1 (path_parts p) = last_parts m2 (path_parts q)) as E.
    { apply join_inj; [| | | |congruence]; first [apply last_parts_nonempty; [lia|assumption]|apply last_parts_ok, path_parts_ok]. }
    destruct (decide (u2 <= m1)%nat).
    + apply (Cj u2 U2). rewrite <- (last_parts_twice u2 m1), E, last_parts_twice by lia. done.
    + apply (Ci u1 U1). rewrite <- (last_parts_twice u1 m2), <- E, last_parts_twice by lia. done.
Qed.

Lemma length_labels paths : length (shortestUniqueFileLabels paths) = length paths.
Proof. unfold shortestUniqueFileLabels. by rewrite length_imap, length_map. Qed.

Lemma clean_paths tokens : clean tokens -> Forall (fun p => normalizeProjectPath p = p /\ p <> ""%string) (file_paths tokens).
Proof.
  intros H. apply Forall_forall. intros p (t & Ht & E)%list_elem_of_omap. apply (proj1 (Forall_forall _ _) H) in Ht.
  destruct t as [| |i pt n l]; [done..|]. simplify_eq. simpl in Ht. destruct (nonempty (normalizeProjectPath p)) eqn:En; [|done].
  injection Ht as Hp _ _. rewrite Hp in *. by apply nonempty_true in En.
Qed.

Lemma join_nonempty l : l <> [] -> Forall part_ok l -> join "/" l <> ""%string.
Proof.
  destruct l as [|s l]; [done|]. intros _ [[Hs _] _]%Forall_cons. unfold join. destruct s; [done|discriminate].
Qed.

Lemma label_nonempty paths i p l :
  map normalizeProjectPath paths !! i = Some p -> p <> ""%string -> shortestUniqueFileLabels paths !! i = Some l -> l <> ""%string.
Proof.
  intros Hp Hne. unfold shortestUniqueFileLabels. rewrite list_lookup_imap, Hp. simpl. intros [= <-].
  destruct (shortestLabel_spec (map normalizeProjectPath paths) i (path_parts p) p 1 (length (path_parts p)) ltac:(lia) ltac:(lia))
    as [->|(u & m & Hum & Hpp & _ & ->)]; [done|].
  apply join_nonempty; [(apply last_parts_nonempty; [lia|done])|apply last_parts_ok, path_parts_ok].
Qed.

Lemma map_fst_zip {A B} (l : list A) (k : list B) : length k = length l -> map fst (zip l k) = l.
Proof. revert k; induction l as [|x l IH]; intros [|y k] H; simpl in *; try done. rewrite IH; [done|lia]. Qed.

Lemma label_lookup paths k p l :
  NoDup paths -> paths !! k = Some p -> shortestUniqueFileLabels paths !! k = Some l ->
  dget (dict_of (zip paths (shortestUniqueFileLabels paths))) p = Some l.
Proof.
  intros Hnd Hp Hl. assert (map fst (zip paths (shortestUniqueFileLabels paths)) = paths) as E by (apply map_fst_zip, length_labels).
  rewrite dict_of_id by by rewrite E. apply dget_in; [by unfold dkeys; rewrite E|].
  apply list_elem_of_lookup. exists k. rewrite lookup_zip_with, Hp. simpl. by rewrite Hl.
Qed.

(** Reference texts determine their labels: one with white space is bracketed. *)
Lemma fileReferenceText_inj l1 l2 : fileReferenceText l1 = fileReferenceText l2 -> l1 = l2.
Proof.
  unfold fileReferenceText. destruct (existsb is_space (chars l1)) eqn:E1, (existsb is_space (chars l2)) eqn:E2;
    intros H; apply (f_equal chars) in H; rewrite !chars_app in H.
  - change (chars "@<") with ["@"; "<"]%char in H. simplify_eq/=. apply app_inj_2 in H as [H _]; [|done]. by apply chars_inj.
  - change (chars "@<") with ["@"; "<"]%char in H. change (chars "@") with ["@"]%char in H. simplify_eq/=.
    rewrite <- H in E2. cbn [existsb] in E2. rewrite existsb_app, E1 in E2. by rewrite orb_true_r in E2.
  - change (chars "@<") with ["@"; "<"]%char in H. change (chars "@") with ["@"]%char in H. simplify_eq/=.
    rewrite H in E1. cbn [existsb] in E1. rewrite existsb_app, E2 in E1. by rewrite orb_true_r in E1.
  - change (chars "@") with ["@"]%char in H. simplify_eq/=. by apply chars_inj.
Qed.

Lemma applied_label tokens i p n l :
  clean tokens -> TFile i p n l ∈ applyFileLabels tokens ->
  let paths := unique (file_paths tokens) in
  exists k, paths !! k = Some p /\ shortestUniqueFileLabels paths !! k = Some l /\ l <> ""%string.
Proof.
  intros Hc Hin paths. unfold applyFileLabels in Hin. apply elem_of_map in Hin as (t & E & Ht).
  destruct t as [| |i' p' n' l']; [done..|]. injection E as -> -> -> El.
  assert (p' ∈ paths) as Hp by (apply elem_of_unique, list_elem_of_omap; by eexists (TFile i' p' n' l')).
  destruct (proj1 (list_elem_of_lookup _ _) Hp) as [k Hk]. exists k. split; [done|].
  destruct (shortestUniqueFileLabels paths !! k) as [lab|] eqn:Elab.
  - fold paths in El. rewrite (label_lookup paths k p' lab (NoDup_unique _) Hk Elab) in El. simpl in El.
    assert (lab <> ""%string) as Hne.
    { destruct (proj1 (Forall_forall _ _) (clean_paths tokens Hc) p') as [Hn Hpne]; [by apply (proj1 (elem_of_unique _ _)) in Hp|].
      apply (label_nonempty paths k p'); [|done|done]. rewrite list_lookup_fmap, Hk. simpl. by rewrite Hn. }
    unfold str_or in El. rewrite (proj2 (nonempty_true lab) Hne) in El. by subst.
  - apply lookup_ge_None in Elab. apply lookup_lt_Some in Hk. rewrite length_labels in Elab. lia.
Qed.

(** The reference texts a message is sent with tell its files apart: two file tokens
    whose texts are the same are the same file, however short the labels are made. *)
Theorem file_references_distinct tokens i1 p1 n1 l1 i2 p2 n2 l2 :
  clean tokens -> TFile i1 p1 n1 l1 ∈ applyFileLabels tokens -> TFile i2 p2 n2 l2 ∈ applyFileLabels tokens ->
  serializedChatComposerTokenText (TFile i1 p1 n1 l1) = serializedChatComposerTokenText (TFile i2 p2 n2 l2) -> p1 = p2.
Proof.
  intros Hc H1 H2. apply applied_label in H1 as (k1 & K1 & L1 & N1); [|done].
  apply applied_label in H2 as (k2 & K2 & L2 & N2); [|done]. simpl. unfold str_or.
  rewrite !(proj2 (nonempty_true _)) by done. intros <-%fileReferenceText_inj.
  assert (k1 = k2) as ->; [|congruence]. eapply labels_injective; [|done|done].
  assert (map normalizeProjectPath (unique (file_paths tokens)) = unique (file_paths tokens)) as ->; [|apply NoDup_unique].
  rewrite <- (map_id (unique (file_paths tokens))) at 2. apply map_ext_in. intros p Hp%list_elem_of_In.
  apply (proj1 (elem_of_unique _ _)) in Hp. by apply (proj1 (Forall_forall _ _) (clean_paths tokens Hc)) in Hp as [? _].
Qed.

Definition sample_files : list ChatComposerToken := [TFile "1" "a/x.ts" "x.ts" ""; TText " and "; TFile "2" "b/x.ts" "x.ts" ""].

Example labels_of_sample : applyFileLabels sample_files =
  [TFile "1" "a/x.ts" "x.ts" "a/x.ts"; TText " and "; TFile "2" "b/x.ts" "x.ts" "b/x.ts"].
Proof. vm_compute. reflexivity. Qed.

Lemma file_references_distinct_witness : "a/x.ts"%string = "a/x.ts"%string.
Proof.
  apply (file_references_distinct sample_files "1" "a/x.ts" "x.ts" "a/x.ts" "1" "a/x.ts" "x.ts" "a/x.ts").
  - repeat constructor.
  - rewrite labels_of_sample. left.
  - rewrite labels_of_sample. left.
  - reflexivity.
Defined.
