(* ===== verification/TerminalEncoding.v ===== *)
(** [terminal/terminalEncoding.ts]: the base64 form of terminal bytes, on top of the
    browser's [btoa] and [atob], which are the forgiving base64 of the WHATWG Infra
    standard.  A byte is an [ascii], the character [String.fromCharCode] gives it. *)

From S2P Require Import Prelude.
Open Scope Z_scope.

Definition byte_value (c : ascii) : Z := Z.of_nat (nat_of_ascii c).
Definition byte_of (z : Z) : ascii := ascii_of_nat (Z.to_nat z).

(** * [btoa] and [atob] *)

Definition sextet_char (s : Z) : ascii :=
  byte_of (if s <? 26 then 65 + s else if s <? 52 then 71 + s else if s <? 62 then s - 4
           else if s =? 62 then 43 else 47).

Definition sextet_value (c : ascii) : option Z :=
  let n := byte_value c in
  if (65 <=? n) && (n <=? 90) then Some (n - 65)
  else if (97 <=? n) && (n <=? 122) then Some (n - 71)
  else if (48 <=? n) && (n <=? 57) then Some (n + 4)
  else if n =? 43 then Some 62
  else if n =? 47 then Some 63
  else None.

Fixpoint btoa (l : list ascii) : list ascii :=
  match l with
  | [] => []
  | [x] => let a := byte_value x in
           [sextet_char (a / 4); sextet_char (a mod 4 * 16); "="%char; "="%char]
  | [x; y] => let a := byte_value x in let b := byte_value y in
              [sextet_char (a / 4); sextet_char (a mod 4 * 16 + b / 16); sextet_char (b mod 16 * 4); "="%char]
  | x :: y :: z :: l' =>
      let a := byte_value x in let b := byte_value y in let c := byte_value z in
      sextet_char (a / 4) :: sextet_char (a mod 4 * 16 + b / 16)
        :: sextet_char (b mod 16 * 4 + c / 64) :: sextet_char (c mod 64) :: btoa l'
  end.

Definition base64_space (c : ascii) : bool :=
  let n := byte_value c in (n =? 9) || (n =? 10) || (n =? 12) || (n =? 13) || (n =? 32).

(** Bytes of the sextets, four at a time; two or three left over give one or two bytes. *)
Fixpoint sextets_bytes (l : list Z) : option (list ascii) :=
  match l with
  | [] => Some []
  | [_] => None
  | [s1; s2] => Some [byte_of (s1 * 4 + s2 / 16)]
  | [s1; s2; s3] => Some [byte_of (s1 * 4 + s2 / 16); byte_of (s2 mod 16 * 16 + s3 / 4)]
  | s1 :: s2 :: s3 :: s4 :: l' =>
      (fun r => byte_of (s1 * 4 + s2 / 16) :: byte_of (s2 mod 16 * 16 + s3 / 4)
                :: byte_of (s3 mod 4 * 64 + s4) :: r) <$> sextets_bytes l'
  end.

(** The trailing [=] signs, at most two, of data whose length is a multiple of four. *)
Definition strip_padding (l : list ascii) : list ascii :=
  if (Nat.modulo (length l) 4 =? 0)%nat then
    match reverse l with
    | c :: r =>
        if Ascii.eqb c "=" then
          match r with
          | d :: r' => if Ascii.eqb d "=" then reverse r' else reverse r
          | [] => []
          end
        else l
    | [] => l
    end
  else l.

(** [None] is the [InvalidCharacterError] thrown. *)
Definition atob (s : list ascii) : option (list ascii) :=
  sextets ← mapM sextet_value (strip_padding (bfilter (fun c => negb (base64_space c)) s));
  sextets_bytes sextets.

(** * The module *)

Definition BASE64_CHUNK_SIZE : Z := 32768.

(** The loop over chunks; each adds its characters to [binary]. *)
Fixpoint binary_chunks (size fuel : nat) (bytes binary : list ascii) : list ascii :=
  match fuel, bytes with
  | S f, _ :: _ => binary_chunks size f (drop size bytes) (binary ++ take size bytes)
  | _, _ => binary
  end.

Definition bytesToBase64 (bytes : list ascii) : string := unchars (btoa (binary_chunks (Z.to_nat BASE64_CHUNK_SIZE) (length bytes) bytes [])).

Definition base64ToBytes (v : string) : option (list ascii) := atob (chars v).

(** * Round trip *)

Lemma byte_value_range c : 0 <= byte_value c < 256.
Proof. unfold byte_value. pose proof (nat_ascii_bounded c). lia. Qed.

Lemma byte_of_value c : byte_of (byte_value c) = c.
Proof. unfold byte_of, byte_value. rewrite Nat2Z.id. apply ascii_nat_embedding. Qed.

(** All sextets, checked one by one. *)
Lemma sextet_checks s :
  0 <= s < 64 ->
  sextet_value (sextet_char s) = Some s /\ base64_space (sextet_char s) = false /\ sextet_char s <> "="%char.
Proof.
  intros Hs.
  assert (forallb (fun s => bool_decide (sextet_value (sextet_char s) = Some s) &&
    negb (base64_space (sextet_char s)) && negb (bool_decide (sextet_char s = "="%char))) (seqZ 0 64) = true) as H
    by (vm_compute; reflexivity).
  rewrite forallb_forall in H. specialize (H s).
  rewrite <- list_elem_of_In, elem_of_seqZ in H. specialize (H ltac:(lia)).
  apply andb_true_iff in H as [[H1 H2]%andb_true_iff H3]. breflect. done.
Qed.

Lemma sextet_value_char s : 0 <= s < 64 -> sextet_value (sextet_char s) = Some s.
Proof. apply sextet_checks. Qed.

(** Induction three bytes at a time. *)
Lemma three_ind (P : list ascii -> Prop) :
  P [] -> (forall x, P [x]) -> (forall x y, P [x; y]) -> (forall x y z l, P l -> P (x :: y :: z :: l)) -> forall l, P l.
Proof.
  intros H0 H1 H2 H3 l. assert (forall n l, (length l <= n)%nat -> P l) as Hn; [|by apply (Hn (length l))].
  induction n as [|n IH]; intros [|x [|y [|z l']]] Hl; simpl in Hl; auto; [lia|]. apply H3, IH. lia.
Qed.

(** The sextets of the bytes, and how many [=] follow them. *)
Fixpoint sextets (l : list ascii) : list Z :=
  match l with
  | [] => []
  | [x] => let a := byte_value x in [a / 4; a mod 4 * 16]
  | [x; y] => let a := byte_value x in let b := byte_value y in [a / 4; a mod 4 * 16 + b / 16; b mod 16 * 4]
  | x :: y :: z :: l' =>
      let a := byte_value x in let b := byte_value y in let c := byte_value z in
      a / 4 :: a mod 4 * 16 + b / 16 :: b mod 16 * 4 + c / 64 :: c mod 64 :: sextets l'
  end.
Fixpoint padding (l : list ascii) : nat :=
  match l with [] => 0 | [_] => 2 | [_; _] => 1 | _ :: _ :: _ :: l' => padding l' end.

Lemma btoa_sextets l : btoa l = map sextet_char (sextets l) ++ replicate (padding l) "="%char.
Proof. induction l as [|x|x y|x y z l IH] using three_ind; cbn; [done..|]. by rewrite IH. Qed.

Lemma length_btoa l : Nat.modulo (length (btoa l)) 4 = 0%nat.
Proof.
  induction l as [|x|x y|x y z l IH] using three_ind; [done..|].
  change (length (btoa (x :: y :: z :: l))) with (4 + length (btoa l))%nat.
  rewrite <- Nat.Div0.add_mod_idemp_r, IH. done.
Qed.

Lemma padding_le l : (padding l <= 2)%nat.
Proof. induction l as [|x|x y|x y z l IH] using three_ind; simpl; lia. Qed.

Lemma sextets_range l : Forall (fun s => 0 <= s < 64) (sextets l).
Proof.
  induction l as [|x|x y|x y z l IH] using three_ind; cbn [sextets]; cbv zeta; rewrite ?Forall_cons, ?Forall_nil;
    repeat match goal with c : ascii |- _ => pose proof (byte_value_range c); generalize dependent (byte_value c); clear c; intros end;
    repeat (split; [Z.div_mod_to_equations; lia|]); done.
Qed.

Lemma byte_join c z : z = byte_value c -> byte_of z = c.
Proof. intros ->. apply byte_of_value. Qed.

Lemma sextets_bytes_sextets l : sextets_bytes (sextets l) = Some l.
Proof.
  induction l as [|x|x y|x y z l IH] using three_ind; [done| | |]; cbn [sextets sextets_bytes]; cbv zeta;
    pose proof (byte_value_range x); try pose proof (byte_value_range y); try pose proof (byte_value_range z).
  - rewrite (byte_join x); [done|]. Z.div_mod_to_equations; lia.
  - rewrite (byte_join x), (byte_join y); [done|..]; Z.div_mod_to_equations; lia.
  - rewrite IH, (byte_join x), (byte_join y), (byte_join z); [done|..]; Z.div_mod_to_equations; lia.
Qed.

Lemma strip_padding_spec b k :
  "="%char ∉ b -> (k <= 2)%nat -> Nat.modulo (length (b ++ replicate k "="%char)) 4 = 0%nat ->
  strip_padding (b ++ replicate k "="%char) = b.
Proof.
  intros Hb Hk Hl. unfold strip_padding. rewrite Hl. cbn [Nat.eqb]. rewrite reverse_app.
  assert (match reverse b with c :: _ => Ascii.eqb c "=" = false | [] => True end) as Hr.
  { destruct (reverse b) as [|c r] eqn:E; [done|]. apply Ascii.eqb_neq. intros ->. apply Hb.
    rewrite <- elem_of_reverse, E. by left. }
  destruct k as [|[|[|k]]]; [| | |lia]; cbn [replicate]; [rewrite app_nil_r| |].
  - change (reverse (@nil ascii)) with (@nil ascii). cbn [app]. destruct (reverse b); [done|]. by rewrite Hr.
  - change (reverse ["="%char]) with ["="%char]. cbn [app]. rewrite Ascii.eqb_refl.
    destruct (reverse b) as [|c r] eqn:E; [by apply (f_equal reverse) in E; rewrite reverse_involutive in E|].
    by rewrite Hr, <- E, reverse_involutive.
  - change (reverse ["="%char; "="%char]) with ["="%char; "="%char]. cbn [app]. rewrite !Ascii.eqb_refl.
    apply reverse_involutive.
Qed.

Lemma mapM_sextets l : mapM sextet_value (map sextet_char (sextets l)) = Some (sextets l).
Proof.
  pose proof (sextets_range l) as H. induction H as [|s l' Hs _ IH]; simpl; [done|].
  by rewrite sextet_value_char, IH.
Qed.

Lemma btoa_no_space l : bfilter (fun c => negb (base64_space c)) (btoa l) = btoa l.
Proof.
  apply bfilter_all. rewrite btoa_sextets. apply Forall_app. split.
  - apply Forall_forall. intros c (s & -> & Hs)%elem_of_map. pose proof (sextets_range l) as Hr.
    rewrite Forall_forall in Hr. destruct (sextet_checks s (Hr s Hs)) as (_ & -> & _). done.
  - apply Forall_replicate. done.
Qed.

Lemma atob_btoa l : atob (btoa l) = Some l.
Proof.
  unfold atob. rewrite btoa_no_space. pose proof (length_btoa l) as Hl. rewrite btoa_sextets in *.
  rewrite strip_padding_spec; [|..|by apply padding_le|done].
  - rewrite mapM_sextets. apply sextets_bytes_sextets.
  - intros (s & E & Hs)%elem_of_map. pose proof (sextets_range l) as Hr. rewrite Forall_forall in Hr.
    destruct (sextet_checks s (Hr s Hs)) as (_ & _ & Hne). done.
Qed.

(** The chunk loop gathers all the bytes. *)
Lemma binary_chunks_all size fuel bytes binary :
  (0 < size)%nat -> (length bytes <= fuel)%nat -> binary_chunks size fuel bytes binary = binary ++ bytes.
Proof.
  intros Hs. revert bytes binary; induction fuel as [|f IH]; intros [|b bytes] binary Hl; cbn [binary_chunks];
    [by rewrite app_nil_r|simpl in Hl; lia|by rewrite app_nil_r|].
  rewrite IH by (rewrite length_drop; simpl in *; lia). by rewrite <- (assoc_L (++)), take_drop.
Qed.

Lemma chunk_size_pos : (0 < Z.to_nat BASE64_CHUNK_SIZE)%nat.
Proof. apply (Z2Nat.inj_lt 0 BASE64_CHUNK_SIZE); done. Qed.

(** C25. Terminal bytes survive the wire: decoding the base64 form of any bytes, of any
    length and over any number of chunks, gives them back. *)
Theorem base64_roundtrip bytes : base64ToBytes (bytesToBase64 bytes) = Some bytes.
Proof.
  unfold base64ToBytes, bytesToBase64. rewrite binary_chunks_all, chars_unchars by (apply chunk_size_pos || done). apply atob_btoa.
Qed.
