(* ===== verification/TerminalSync.v ===== *)
(** [terminal/terminalSync.ts]: the client's view of the terminals of every hub.  An
    attached terminal follows its output by sequence number; a gap, another run or
    unreadable data puts it back to loading until a snapshot arrives, and what comes
    meanwhile is buffered, within bounds. *)

From S2P Require Import Prelude RegistryTypes TerminalEncoding.
Open Scope Z_scope.

Definition MAX_BUFFERED_EVENTS : Z := 256.
Definition MAX_BUFFERED_BYTES : Z := 4 * 1024 * 1024.

Record TerminalAttachment := {
  runId : string;
  expectedSeq : Z;
  loading : bool;
  refreshRequested : bool;
  buffered : list RegistryTerminalOutputEvent;
  bufferedBytes : Z;
}.

Record TerminalSyncState := {
  terminals : gmap string RegistryTerminal;
  unavailableHubIds : gset string;
  attached : gmap string TerminalAttachment;
}.

Inductive TerminalEffect :=
  | EReset (terminalKey : string) (data : list ascii)
  | EWrite (terminalKey : string) (data : list ascii)
  | ERefresh (terminalKey : string).

Definition TerminalSyncResult : Type := TerminalSyncState * list TerminalEffect.

Definition terminalSyncKey (hubId terminalId : string) : string := hubId +:+ ":" +:+ terminalId.

Definition createTerminalSyncState : TerminalSyncState :=
  {| terminals := ∅; unavailableHubIds := ∅; attached := ∅ |}.

(** One list of [mergeTerminalLists]: the terminals of its hub that it does not name
    go, with their attachments; those it names are stored. *)
Definition stale_terminal (hubId : string) (retainedKeys : list string) (e : string * RegistryTerminal) : Prop :=
  term_hubId e.2 = hubId /\ e.1 ∉ retainedKeys.
#[export] Instance stale_terminal_dec hubId ks e : Decision (stale_terminal hubId ks e).
Proof. unfold stale_terminal. apply _. Defined.

Definition mergeTerminalList (state : TerminalSyncState) (l : string * list RegistryTerminal) : TerminalSyncState :=
  let '(hubId, items) := l in
  let retainedKeys := map (fun item => terminalSyncKey hubId (term_terminalId item)) items in
  let gone := filter (stale_terminal hubId retainedKeys) (terminals state) in
  {| terminals := foldl (fun m item => <[terminalSyncKey hubId (term_terminalId item) := item]> m)
                        (terminals state ∖ gone) items;
     unavailableHubIds := unavailableHubIds state ∖ {[hubId]};
     attached := filter (fun e => gone !! e.1 = None) (attached state) |}.

Definition mergeTerminalLists (state : TerminalSyncState) (lists : list (string * list RegistryTerminal))
    : TerminalSyncState :=
  foldl mergeTerminalList state lists.

Definition markTerminalsUnavailable (state : TerminalSyncState) (hubIds : list string) : TerminalSyncState :=
  {| terminals := terminals state; unavailableHubIds := unavailableHubIds state ∪ list_to_set hubIds;
     attached := attached state |}.

Definition applyTerminalChanged (state : TerminalSyncState) (hubId : string) (event : RegistryTerminalChangedEvent)
    : TerminalSyncState :=
  let key := terminalSyncKey hubId (chg_terminalId event) in
  let unavailable := unavailableHubIds state ∖ {[hubId]} in
  if bool_decide (chg_change event = ChClosed) then
    {| terminals := delete key (terminals state); unavailableHubIds := unavailable;
       attached := delete key (attached state) |}
  else match chg_terminal event with
       | Some terminal => {| terminals := <[key := terminal]> (terminals state); unavailableHubIds := unavailable;
                             attached := attached state |}
       | None => {| terminals := terminals state; unavailableHubIds := unavailable; attached := attached state |}
       end.

Definition withAttachment (state : TerminalSyncState) (key : string) (attachment : TerminalAttachment)
    : TerminalSyncState :=
  {| terminals := terminals state; unavailableHubIds := unavailableHubIds state;
     attached := <[key := attachment]> (attached state) |}.

Definition withTerminal (state : TerminalSyncState) (key : string) (terminal : RegistryTerminal) : TerminalSyncState :=
  {| terminals := <[key := terminal]> (terminals state); unavailableHubIds := unavailableHubIds state;
     attached := attached state |}.

(** An attachment waiting for a snapshot, holding [events] of [bytes] bytes. *)
Definition waiting (run : string) (seq : Z) (events : list RegistryTerminalOutputEvent) (bytes : Z)
    : TerminalAttachment :=
  {| runId := run; expectedSeq := seq; loading := true; refreshRequested := true;
     buffered := events; bufferedBytes := bytes |}.

Definition beginTerminalSnapshot (state : TerminalSyncState) (hubId terminalId : string) : TerminalSyncState :=
  let key := terminalSyncKey hubId terminalId in
  let current := attached state !! key in
  withAttachment state key
    (waiting (default ""%string (runId <$> current)) (default 1 (expectedSeq <$> current)) [] 0).

Definition requestRefresh (state : TerminalSyncState) (key : string) (attachment : TerminalAttachment)
    : TerminalSyncResult :=
  if refreshRequested attachment then (state, [])
  else (withAttachment state key (waiting (runId attachment) (expectedSeq attachment) [] 0), [ERefresh key]).

Definition bytes_length (data : list ascii) : Z := Z.of_nat (length data).

Definition with_buffer (a : TerminalAttachment) (events : list RegistryTerminalOutputEvent) (bytes : Z)
    : TerminalAttachment :=
  {| runId := runId a; expectedSeq := expectedSeq a; loading := loading a; refreshRequested := refreshRequested a;
     buffered := events; bufferedBytes := bytes |}.

Definition receiveTerminalOutput (state : TerminalSyncState) (hubId : string) (event : RegistryTerminalOutputEvent)
    : TerminalSyncResult :=
  let key := terminalSyncKey hubId (out_terminalId event) in
  match attached state !! key with
  | None => (state, [])
  | Some attachment =>
      match base64ToBytes (out_data event) with
      | None => requestRefresh state key attachment
      | Some data =>
          if loading attachment then
            let events := buffered attachment ++ [event] in
            let bytes := bufferedBytes attachment + bytes_length data in
            if (MAX_BUFFERED_EVENTS <? Z.of_nat (length events)) || (MAX_BUFFERED_BYTES <? bytes) then
              if refreshRequested attachment then
                (withAttachment state key (with_buffer attachment [] 0), [ERefresh key])
              else requestRefresh state key attachment
            else (withAttachment state key (with_buffer attachment events bytes), [])
          else if negb (bool_decide (out_runId event = runId attachment)) || (expectedSeq attachment <? out_seq event) then
            (withAttachment state key
               (waiting (runId attachment) (expectedSeq attachment) [event] (bytes_length data)),
             [ERefresh key])
          else if out_seq event <? expectedSeq attachment then (state, [])
          else
            (withAttachment state key
               {| runId := runId attachment; expectedSeq := expectedSeq attachment + 1; loading := loading attachment;
                  refreshRequested := refreshRequested attachment; buffered := buffered attachment;
                  bufferedBytes := bufferedBytes attachment |},
             [EWrite key data])
      end
  end.

Definition snapshotGap (state : TerminalSyncState) (key : string) (terminal : RegistryTerminal) (seq : Z)
    (effects : list TerminalEffect) : TerminalSyncResult :=
  (withTerminal (withAttachment state key (waiting (term_runId terminal) seq [] 0)) key terminal,
   effects ++ [ERefresh key]).

(** The loop over the buffered events: the sequence number reached and the effects, and
    whether a gap stopped it. *)
Fixpoint replayBuffered (key run : string) (events : list RegistryTerminalOutputEvent) (seq : Z)
    (effects : list TerminalEffect) : Z * list TerminalEffect * bool :=
  match events with
  | [] => (seq, effects, false)
  | event :: rest =>
      if negb (bool_decide (out_runId event = run)) then (seq, effects, true)
      else if out_seq event <? seq then replayBuffered key run rest seq effects
      else if seq <? out_seq event then (seq, effects, true)
      else match base64ToBytes (out_data event) with
           | None => (seq, effects, true)
           | Some data => replayBuffered key run rest (seq + 1) (effects ++ [EWrite key data])
           end
  end.

Definition applyTerminalSnapshot (state : TerminalSyncState) (hubId : string) (snapshot : RegistryTerminalGetResponse)
    : TerminalSyncResult :=
  let terminal := get_terminal snapshot in
  let key := terminalSyncKey hubId (term_terminalId terminal) in
  let current := default (waiting "" 1 [] 0) (attached state !! key) in
  match base64ToBytes (get_snapshot snapshot) with
  | None => requestRefresh state key current
  | Some snapshotData =>
      let '(seq, effects, gap) :=
        replayBuffered key (term_runId terminal) (buffered current) (get_snapshotSeq snapshot + 1)
                       [EReset key snapshotData] in
      if gap then snapshotGap state key terminal seq effects
      else
        (withTerminal (withAttachment state key
           {| runId := term_runId terminal; expectedSeq := seq; loading := false; refreshRequested := false;
              buffered := []; bufferedBytes := 0 |}) key terminal, effects)
  end.

Definition canSendTerminalInput (state : TerminalSyncState) (key : string) (connected : bool) : bool :=
  if negb connected then false else
  match terminals state !! key, attached state !! key with
  | Some terminal, Some attachment =>
      bool_decide (term_status terminal = TRunning) &&
      negb (bool_decide (term_hubId terminal ∈ unavailableHubIds state)) &&
      negb (loading attachment) && bool_decide (runId attachment = term_runId terminal)
  | _, _ => false
  end.

(** * What the user sees *)

(** The effects, applied to the contents of the terminal views. *)
Definition display : Type := gmap string (list ascii).
Definition apply_effect (d : gmap string (list ascii)) (e : TerminalEffect) : gmap string (list ascii) :=
  match e with
  | EReset key data => <[key := data]> d
  | EWrite key data => <[key := default [] (d !! key) ++ data]> d
  | ERefresh _ => d
  end.
Definition apply_effects (d : gmap string (list ascii)) (es : list TerminalEffect) : gmap string (list ascii) :=
  foldl apply_effect d es.

Section server.
(** The output of the hubs: the bytes of each numbered output of a run, by the key of
    its terminal. *)
Variable out : string -> string -> Z -> list ascii.

(** The snapshots of the hubs: the bytes that paint the screen of a run as it is after
    an output.  They are whatever the hub's terminal emulator serializes (it keeps a
    limited scrollback, so they are not all that was ever written). *)
Variable screen : string -> string -> Z -> list ascii -> Prop.

(** The outputs of a run after one and up to another. *)
Definition outputs (key run : string) (from upto : Z) : list ascii := concat (map (out key run) (seqZ (from + 1) (upto - from))).

(** A view that shows a run up to an output: a screen of it, and the outputs since. *)
Definition shown (key run : string) (seq : Z) (view : list ascii) : Prop :=
  exists q data, 0 <= q <= seq /\ screen key run q data /\ view = data ++ outputs key run q seq.

Definition genuine_output (key : string) (event : RegistryTerminalOutputEvent) : Prop :=
  forall data, base64ToBytes (out_data event) = Some data -> data = out key (out_runId event) (out_seq event).

Definition genuine_snapshot (key : string) (snapshot : RegistryTerminalGetResponse) : Prop :=
  0 <= get_snapshotSeq snapshot /\
  forall data, base64ToBytes (get_snapshot snapshot) = Some data ->
    screen key (term_runId (get_terminal snapshot)) (get_snapshotSeq snapshot) data.

(** The client's events, on its state and the views. *)
Inductive sync_step : TerminalSyncState * gmap string (list ascii) -> TerminalSyncState * gmap string (list ascii) -> Prop :=
  | sync_output s d hub ev :
      genuine_output (terminalSyncKey hub (out_terminalId ev)) ev ->
      sync_step (s, d) ((receiveTerminalOutput s hub ev).1, apply_effects d (receiveTerminalOutput s hub ev).2)
  | sync_snapshot s d hub snap :
      genuine_snapshot (terminalSyncKey hub (term_terminalId (get_terminal snap))) snap ->
      sync_step (s, d) ((applyTerminalSnapshot s hub snap).1, apply_effects d (applyTerminalSnapshot s hub snap).2)
  | sync_begin s d hub id : sync_step (s, d) (beginTerminalSnapshot s hub id, d)
  | sync_lists s d lists : sync_step (s, d) (mergeTerminalLists s lists, d)
  | sync_unavailable s d hubs : sync_step (s, d) (markTerminalsUnavailable s hubs, d)
  | sync_changed s d hub ev : sync_step (s, d) (applyTerminalChanged s hub ev, d).

(** * The invariant *)

Fixpoint buffer_bytes (events : list RegistryTerminalOutputEvent) : Z :=
  match events with
  | [] => 0
  | e :: rest => match base64ToBytes (out_data e) with Some data => bytes_length data | None => 0 end + buffer_bytes rest
  end.

Definition within_bounds (a : TerminalAttachment) : Prop :=
  Z.of_nat (length (buffered a)) <= MAX_BUFFERED_EVENTS /\
  (buffer_bytes (buffered a) <= MAX_BUFFERED_BYTES \/ length (buffered a) = 1%nat).

Record attachment_ok (d : gmap string (list ascii)) (key : string) (a : TerminalAttachment) : Prop := {
  ao_refresh : refreshRequested a = loading a;
  ao_genuine : Forall (genuine_output key) (buffered a);
  ao_bytes : bufferedBytes a = buffer_bytes (buffered a);
  ao_bounds : within_bounds a;
  ao_view : loading a = false ->
    1 <= expectedSeq a /\ buffered a = [] /\ shown key (runId a) (expectedSeq a - 1) (default [] (d !! key));
}.

Definition sync_ok (x : TerminalSyncState * gmap string (list ascii)) : Prop :=
  map_Forall (attachment_ok x.2) (attached x.1).

Lemma outputs_step key run q seq : q <= seq -> outputs key run q (seq + 1) = outputs key run q seq ++ out key run (seq + 1).
Proof.
  intros H. unfold outputs. replace (seq + 1 - q) with ((seq - q) + 1) by lia. rewrite (seqZ_app (q + 1) (seq - q) 1) by lia.
  rewrite map_app, concat_app. replace (q + 1 + (seq - q)) with (seq + 1) by lia.
  rewrite (seqZ_cons (seq + 1) 1) by done. change (Z.pred 1) with 0. rewrite (seqZ_nil _ 0) by done.
  simpl. by rewrite app_nil_r.
Qed.

Lemma shown_step key run seq view : shown key run (seq - 1) view -> shown key run (seq + 1 - 1) (view ++ out key run seq).
Proof.
  intros (q & data & Hq & Hs & ->). exists q, data. split; [lia|]. split; [done|].
  replace (seq + 1 - 1) with ((seq - 1) + 1) by lia. rewrite outputs_step by lia.
  replace (seq - 1 + 1) with seq by lia. by rewrite app_assoc.
Qed.

Lemma shown_screen key run seq data : 0 <= seq -> screen key run seq data -> shown key run (seq + 1 - 1) data.
Proof.
  intros H0 Hs. exists seq, data. replace (seq + 1 - 1) with seq by lia. split; [lia|]. split; [done|].
  unfold outputs. rewrite seqZ_nil by lia. by rewrite app_nil_r.
Qed.

Lemma buffer_bytes_app l1 l2 : buffer_bytes (l1 ++ l2) = buffer_bytes l1 + buffer_bytes l2.
Proof. induction l1 as [|e l1 IH]; simpl; [done|]. rewrite IH. lia. Qed.

Lemma waiting_ok d key run seq events :
  Forall (genuine_output key) events -> within_bounds (waiting run seq events (buffer_bytes events)) ->
  attachment_ok d key (waiting run seq events (buffer_bytes events)).
Proof. intros. constructor; [done..|]. done. Qed.

Lemma waiting_empty_ok d key run seq : attachment_ok d key (waiting run seq [] 0).
Proof. apply (waiting_ok d key run seq []); [constructor|]. split; [done|by left]. Qed.

Lemma apply_effects_app d es1 es2 : apply_effects d (es1 ++ es2) = apply_effects (apply_effects d es1) es2.
Proof. apply foldl_app. Qed.

(** An effect of one terminal leaves the views of the others. *)
Definition effect_key (e : TerminalEffect) : string :=
  match e with EReset k _ | EWrite k _ | ERefresh k => k end.
Lemma apply_effects_other d es key k :
  Forall (fun e => effect_key e = key) es -> k <> key -> apply_effects d es !! k = d !! k.
Proof.
  intros Hes Hne. revert d; induction Hes as [|e es He _ IH]; intros d; [done|]. simpl.
  unfold apply_effects in IH. rewrite IH. destruct e; simpl in *; subst; [by rewrite lookup_insert_ne..|done].
Qed.

Lemma attachment_ok_view d d' key a : d' !! key = d !! key -> attachment_ok d key a -> attachment_ok d' key a.
Proof. intros E [? ? ? ? ?]. constructor; [done..|]. by rewrite E. Qed.

(** Replacing one attachment, with effects on its own view only. *)
Lemma sync_update s d key a es :
  sync_ok (s, d) -> Forall (fun e => effect_key e = key) es -> attachment_ok (apply_effects d es) key a ->
  map_Forall (attachment_ok (apply_effects d es)) (<[key := a]> (attached s)).
Proof.
  intros Hok Hes Ha k a' [[<- <-]|[Hne Hk]]%lookup_insert_Some; [done|].
  apply (attachment_ok_view d); [by eapply apply_effects_other|]. by apply (Hok k a').
Qed.

Lemma requestRefresh_ok s d key a :
  sync_ok (s, d) -> sync_ok ((requestRefresh s key a).1, apply_effects d (requestRefresh s key a).2).
Proof.
  intros Hok. unfold requestRefresh. destruct (refreshRequested a); [done|].
  apply (sync_update s d key _ [ERefresh key]); [done|by repeat constructor|]. apply waiting_empty_ok.
Qed.

Lemma receive_ok s d hub ev :
  genuine_output (terminalSyncKey hub (out_terminalId ev)) ev -> sync_ok (s, d) ->
  sync_ok ((receiveTerminalOutput s hub ev).1, apply_effects d (receiveTerminalOutput s hub ev).2).
Proof.
  intros Hgen Hok. unfold receiveTerminalOutput. set (key := terminalSyncKey _ _) in *.
  destruct (attached s !! key) as [a|] eqn:Ea; [|done]. destruct (Hok key a Ea) as [Hr Hg Hb Hbd Hv].
  destruct (base64ToBytes (out_data ev)) as [data|] eqn:Edata; [|by apply requestRefresh_ok].
  assert (buffer_bytes [ev] = bytes_length data) as Hone by (cbn; rewrite Edata; lia).
  destruct (loading a) eqn:El.
  - destruct (_ || _) eqn:Eover.
    + rewrite Hr. apply (sync_update s d key _ [ERefresh key]); [done|by repeat constructor|].
      constructor; cbn; [congruence|constructor|done|split; [done|by left]|congruence].
    + apply orb_false_iff in Eover as [E1 E2]. apply (sync_update s d key _ []); [done|constructor|].
      constructor; cbn [with_buffer refreshRequested loading buffered bufferedBytes expectedSeq runId]; [congruence| | |split; cbn|congruence].
      * apply Forall_app. split; [done|]. by constructor.
      * rewrite buffer_bytes_app, Hb, Hone. done.
      * lia.
      * left. rewrite buffer_bytes_app, <- Hb, Hone. lia.
  - destruct (Hv eq_refl) as (Hseq & Hbuf & Hview).
    destruct (_ || _) eqn:Egap; [|destruct (out_seq ev <? expectedSeq a) eqn:Edup; [done|]].
    + rewrite <- Hone. apply (sync_update s d key _ [ERefresh key]); [done|by repeat constructor|].
      apply waiting_ok; [by constructor|]. split; [done|by right].
    + apply orb_false_iff in Egap as [Erun Elt]. breflect.
      apply (sync_update s d key _ [EWrite key data]); [done|by repeat constructor|].
      constructor; cbn [refreshRequested loading buffered bufferedBytes expectedSeq runId]; [done..|].
      intros _. split_and!; [lia|done|]. cbn [snd] in Hview. cbn. rewrite lookup_insert_eq. cbn.
      rewrite (Hgen data Edata), Erun. assert (out_seq ev = expectedSeq a) as -> by lia. by apply shown_step.
Qed.

(** Replaying the buffer writes the outputs that follow the snapshot. *)
Lemma replay_spec key run events seq effects d seq' effects' gap :
  Forall (genuine_output key) events -> 1 <= seq -> Forall (fun e => effect_key e = key) effects ->
  shown key run (seq - 1) (default [] (apply_effects d effects !! key)) ->
  replayBuffered key run events seq effects = (seq', effects', gap) ->
  1 <= seq' /\ Forall (fun e => effect_key e = key) effects' /\
  shown key run (seq' - 1) (default [] (apply_effects d effects' !! key)).
Proof.
  intros Hgen. revert seq effects; induction Hgen as [|e events He _ IH]; intros seq effects Hseq Hes Hview; simpl;
    [by intros [= <- <- <-]|].
  destruct (bool_decide (out_runId e = run)) eqn:Er; cbn [negb]; [|by intros [= <- <- <-]].
  destruct (out_seq e <? seq) eqn:E1; [by apply IH|]. destruct (seq <? out_seq e) eqn:E2; [by intros [= <- <- <-]|].
  destruct (base64ToBytes (out_data e)) as [data|] eqn:Ed; [|by intros [= <- <- <-]].
  apply IH; [lia|apply Forall_app; split; [done|by repeat constructor]|].
  rewrite apply_effects_app. cbn. rewrite lookup_insert_eq. cbn. rewrite (He data Ed). breflect. subst run.
  assert (out_seq e = seq) as -> by lia. by apply shown_step.
Qed.

Lemma snapshot_ok s d hub snap :
  genuine_snapshot (terminalSyncKey hub (term_terminalId (get_terminal snap))) snap -> sync_ok (s, d) ->
  sync_ok ((applyTerminalSnapshot s hub snap).1, apply_effects d (applyTerminalSnapshot s hub snap).2).
Proof.
  intros [Hseq Hgen] Hok. unfold applyTerminalSnapshot. set (key := terminalSyncKey _ _) in *.
  set (current := default (waiting "" 1 [] 0) (attached s !! key)).
  assert (attachment_ok d key current) as [Hr Hg Hb Hbd Hv].
  { unfold current. destruct (attached s !! key) as [a|] eqn:Ea; [by apply (Hok key a)|apply waiting_empty_ok]. }
  destruct (base64ToBytes (get_snapshot snap)) as [data|] eqn:Ed; [|by apply requestRefresh_ok].
  destruct (replayBuffered _ _ _ _ _) as [[seq es] gap] eqn:Erep.
  apply (replay_spec _ _ _ _ _ d) in Erep as (Hs & Hes & Hview); [|done|lia|by repeat constructor|].
  - destruct gap.
    + unfold snapshotGap. apply (sync_update s d key _ (es ++ [ERefresh key])); [done| |].
      * apply Forall_app. split; [done|by repeat constructor].
      * apply waiting_empty_ok.
    + apply (sync_update s d key _ es); [done|done|]. constructor; cbn; [done|constructor|done|split; [done|by left]|done].
  - cbn. rewrite lookup_insert_eq. cbn. apply shown_screen; [done|by apply Hgen].
Qed.

Lemma sync_shrink s d m : sync_ok (s, d) -> m ⊆ attached s -> map_Forall (attachment_ok d) m.
Proof. intros Hok Hsub k a Hk. apply (Hok k a). by eapply lookup_weaken. Qed.

Lemma merge_lists_attached s lists : attached (mergeTerminalLists s lists) ⊆ attached s.
Proof.
  unfold mergeTerminalLists. revert s; induction lists as [|[hub items] lists IH]; intros s; simpl; [done|].
  etransitivity; [apply IH|]. cbn. apply map_filter_subseteq.
Qed.

Lemma sync_step_ok x y : sync_ok x -> sync_step x y -> sync_ok y.
Proof.
  intros Hok Hs. destruct Hs as [s d hub ev Hg|s d hub snap Hg|s d hub id|s d lists|s d hubs|s d hub ev].
  - by apply receive_ok.
  - by apply snapshot_ok.
  - apply (sync_update s d _ _ []); [done|constructor|]. apply waiting_empty_ok.
  - eapply sync_shrink; [exact Hok|apply merge_lists_attached].
  - exact Hok.
  - unfold applyTerminalChanged. case_bool_decide; [|by destruct (chg_terminal ev)].
    eapply sync_shrink; [exact Hok|]. apply delete_subseteq.
Qed.

Definition sync_initial : TerminalSyncState * gmap string (list ascii) := (createTerminalSyncState, ∅).

Lemma sync_reachable x : star sync_step sync_initial x -> sync_ok x.
Proof. intros H. eapply star_invariant; [exact H|apply map_Forall_empty|apply sync_step_ok]. Qed.

End server.

(** C20. No terminal output is lost, repeated or reordered on screen.  [out] is what each
    numbered output of a run holds and [screen] which bytes the hub may send as a snapshot
    of a run after an output (a serialized screen with limited scrollback, of which nothing
    is assumed); every output and snapshot that arrives is one of these.  Then, in whatever
    order they arrive, with gaps, duplicates, late snapshots and restarts, the view of a
    terminal that is not loading is a snapshot of its run followed by exactly the outputs
    after that snapshot, each once, in order, up to the one before the expected sequence
    number; and input is only accepted for a view of the terminal's current run. *)
Theorem terminal_view_consistent out screen x key a :
  star (sync_step out screen) sync_initial x -> attached x.1 !! key = Some a ->
  (loading a = false -> exists q snapshot, 0 <= q <= expectedSeq a - 1 /\ screen key (runId a) q snapshot /\
     default [] (x.2 !! key) = snapshot ++ outputs out key (runId a) q (expectedSeq a - 1)) /\
  (canSendTerminalInput x.1 key true = true ->
   exists t, terminals x.1 !! key = Some t /\ term_status t = TRunning /\ loading a = false /\
     term_hubId t ∉ unavailableHubIds x.1 /\ term_runId t = runId a).
Proof.
  intros Hr%sync_reachable Ha. destruct (Hr key a Ha) as [_ _ _ _ Hv]. split; [intros Hl; by apply Hv|].
  unfold canSendTerminalInput. cbn [negb]. rewrite Ha. destruct (terminals x.1 !! key) as [t|]; [|done].
  intros H. breflect. by exists t.
Qed.

(** The buffer of a loading terminal is bounded: never more than 256 events, and
    never more than 4 MiB of decoded data unless it is a single event; the running byte
    count is exact. *)
Theorem terminal_buffer_bounded out screen x key a :
  star (sync_step out screen) sync_initial x -> attached x.1 !! key = Some a ->
  Z.of_nat (length (buffered a)) <= MAX_BUFFERED_EVENTS /\
  bufferedBytes a = buffer_bytes (buffered a) /\
  (bufferedBytes a <= MAX_BUFFERED_BYTES \/ length (buffered a) = 1%nat) /\
  (loading a = false -> buffered a = []).
Proof.
  intros Hr%sync_reachable Ha. destruct (Hr key a Ha) as [_ _ Hb [Hbd1 Hbd2] Hv].
  rewrite Hb. split_and!; [done..|]. intros Hl. by apply Hv.
Qed.

(** A hub whose run "r" writes the byte of the sequence number. *)
Definition sample_out (key run : string) (seq : Z) : list ascii := [byte_of seq].
(** Its screen has one row, and no scrollback: a snapshot goes back to the start of the
    line, clears it and paints the byte written last. *)
Definition sample_screen (key run : string) (seq : Z) (data : list ascii) : Prop :=
  data = [byte_of 13; byte_of 27; "["%char; "K"%char; byte_of seq].
Definition sample_terminal : RegistryTerminal :=
  {| term_terminalId := "t"; term_runId := "r"; term_hubId := "h"; term_projectId := "p"; term_projectName := "p";
     term_initialCwd := "/"; term_shell := "sh"; term_status := TRunning; term_cols := 80; term_rows := 24;
     term_exitCode := None; term_createdAt := ""; term_exitedAt := None |}.
Definition sample_output (seq : Z) : RegistryTerminalOutputEvent :=
  {| out_terminalId := "t"; out_runId := "r"; out_seq := seq; out_data := bytesToBase64 [byte_of seq] |}.
Definition sample_snapshot : RegistryTerminalGetResponse :=
  {| get_terminal := sample_terminal; get_snapshotSeq := 2;
     get_snapshot := bytesToBase64 [byte_of 13; byte_of 27; "["%char; "K"%char; byte_of 2] |}.

(** Attach, receive output 3 while loading, then the snapshot at 2. *)
Definition sample_sync : TerminalSyncState * gmap string (list ascii) :=
  let s1 := beginTerminalSnapshot createTerminalSyncState "h" "t" in
  let r2 := receiveTerminalOutput s1 "h" (sample_output 3) in
  let r3 := applyTerminalSnapshot r2.1 "h" sample_snapshot in
  (r3.1, apply_effects (apply_effects ∅ r2.2) r3.2).

Lemma sample_sync_reachable : star (sync_step sample_out sample_screen) sync_initial sample_sync.
Proof.
  set (s1 := beginTerminalSnapshot createTerminalSyncState "h" "t").
  apply (star_step _ _ ((receiveTerminalOutput s1 "h" (sample_output 3)).1,
                        apply_effects ∅ (receiveTerminalOutput s1 "h" (sample_output 3)).2)).
  - apply (star_step _ _ (s1, ∅)); [apply (star_step _ _ sync_initial); [apply star_refl|]|].
    + exact (sync_begin sample_out sample_screen createTerminalSyncState ∅ "h" "t").
    + apply (sync_output sample_out sample_screen s1 ∅ "h" (sample_output 3)). intros data [= <-]. reflexivity.
  - apply (sync_snapshot sample_out sample_screen (receiveTerminalOutput s1 "h" (sample_output 3)).1
             (apply_effects ∅ (receiveTerminalOutput s1 "h" (sample_output 3)).2) "h" sample_snapshot).
    split; [done|]. intros data [= <-]. reflexivity.
Qed.

Lemma terminal_view_consistent_witness :
  exists a, attached sample_sync.1 !! "h:t"%string = Some a /\ expectedSeq a = 4 /\
    exists q snapshot, 0 <= q <= 3 /\ sample_screen "h:t" "r" q snapshot /\
    default [] (sample_sync.2 !! "h:t"%string) = snapshot ++ outputs sample_out "h:t" "r" q 3.
Proof.
  eexists. split; [reflexivity|]. split; [reflexivity|].
  exact (proj1 (terminal_view_consistent sample_out sample_screen sample_sync "h:t" _ sample_sync_reachable eq_refl) eq_refl).
Defined.

Lemma terminal_buffer_bounded_witness :
  exists a, attached sample_sync.1 !! "h:t"%string = Some a /\ buffered a = [].
Proof.
  eexists. split; [reflexivity|].
  apply (terminal_buffer_bounded sample_out sample_screen sample_sync "h:t" _ sample_sync_reachable eq_refl). reflexivity.
Defined.
