(* ===== verification/PreviewWorkbench.v ===== *)
(** [preview/previewWorkbenchState.ts]: the preview tabs of every project, their
    opening, selection, loading and closing, and the snapshot that is persisted.  The
    [Record]s whose enumeration order is observed are insertion-ordered dictionaries
    (project identifiers are not integer-like, so insertion order is enumeration
    order). *)

From S2P Require Import Prelude Json.
Open Scope Z_scope.

(** [RegistrySessionPromptArtifactFile], and with [diff] and [expanded]. *)
Record ArtifactFile := { af_path : string; af_status : string; af_additions : Z; af_deletions : Z }.
Record PromptDiffPreviewFile := { pf_file : ArtifactFile; pf_diff : string; pf_expanded : bool }.

Inductive AttachmentKind := KImage | KFile.

(** What each kind of tab adds to the common fields. *)
Inductive TabDetail :=
  | FileTab (path : string) (targetLine : option Z) (content : string) (info : option value)
  | PromptDiffTab (sessionId artifactId promptText promptSummary : string) (files : list PromptDiffPreviewFile)
  | AttachmentTab (sessionId attachmentKey meta mimeType : string) (kind : AttachmentKind) (src : string)
      (content : option string) (isBinary : option bool)
  | PortRelayTab (hubId : string) (targetPort : num) (framePath url : string) (reloadKey : Z).

Record PreviewWorkbenchTab := {
  tab_id : string;
  tab_projectId : string;
  tab_title : string;
  tab_loading : bool;
  tab_error : string;
  tab_requestId : Z;
  tab_detail : TabDetail;
}.

Inductive OpenDetail :=
  | OpenFile (path : string) (targetLine : option num)
  | OpenPromptDiff (sessionId artifactId : string) (promptText promptSummary : option string)
      (files : list PromptDiffPreviewFile)
  | OpenAttachment (sessionId attachmentKey meta mimeType : string) (kind : AttachmentKind) (src : string)
  | OpenPortRelay (hubId : string) (targetPort : num) (framePath : string) (url : option string) (reloadKey : option Z).

Record PreviewWorkbenchOpenInput := { open_projectId : string; open_title : string; open_detail : OpenDetail }.

Record PreviewWorkbenchState := {
  activeProjectId : string;
  tabsByProjectId : list (string * list PreviewWorkbenchTab);
  activeTabIdByProjectId : list (string * string);
  renderedTabIdsByProjectId : list (string * list string);
  treeOpen : bool;
}.

Definition PREVIEW_WORKBENCH_SNAPSHOT_VERSION : Z := 1.

Inductive SnapshotDetail :=
  | SnapFile (path : string) (targetLine : option num)
  | SnapPromptDiff (sessionId artifactId promptText promptSummary : string) (files : list (ArtifactFile * bool))
  | SnapAttachment (sessionId attachmentKey meta mimeType : string) (kind : AttachmentKind)
  | SnapPortRelay (hubId : string) (targetPort : num) (framePath url : string) (reloadKey : Z).

Record PreviewWorkbenchSnapshotTab := { snap_projectId : string; snap_title : string; snap_detail : SnapshotDetail }.

Record PreviewWorkbenchSnapshot := {
  snap_version : Z;
  snap_activeProjectId : string;
  snap_tabsByProjectId : list (string * list PreviewWorkbenchSnapshotTab);
  snap_activeTabIdByProjectId : list (string * string);
  snap_renderedTabIdsByProjectId : list (string * list string);
  snap_treeOpen : bool;
}.

Inductive PreviewSearchMatch :=
  | FileMatch (line : Z) (text : string)
  | DiffMatch (path : string) (line : Z) (text : string).

(** * Labels *)

Definition normalizeLine (line : option num) : option Z :=
  match line with
  | Some (Fin q) => if 0 <? Qnum q then Some (trunc q) else None
  | _ => None
  end.

Definition normalizeFramePath (path : string) : string := str_or path "".

Definition hasText (v : string) : bool := nonempty v.

Definition compactLabel (v : string) (maxLength : nat) : string :=
  let normalized := trim (unchars (collapse_space (chars v) false)) in
  if negb (nonempty normalized) then ""
  else if Nat.ltb maxLength (String.length normalized) then slice 0 (maxLength - 3) normalized +:+ "..."
  else normalized.

Definition fileCountLabel (fileCount : nat) : string :=
  pretty (Z.of_nat fileCount) +:+ " " +:+ (if Nat.eqb fileCount 1 then "file" else "files").

Definition portRelayLabel (hubId : string) (targetPort : num) (framePath : string) : string :=
  hubId +:+ ":" +:+ number_string targetPort +:+ str_or framePath "".

(** [n || 0]. *)
Definition or_zero (n : num) : num := match n with NaN => of_Z 0 | _ => n end.

Definition fileTabId (path : string) : string := "file:" +:+ str_or path "".
Definition promptDiffTabId (sessionId artifactId : string) : string :=
  "prompt-diff:" +:+ str_or sessionId "" +:+ ":" +:+ str_or artifactId "".
Definition attachmentTabId (sessionId attachmentKey : string) : string :=
  "attachment:" +:+ str_or sessionId "" +:+ ":" +:+ str_or attachmentKey "".
Definition portRelayTabId (hubId : string) (targetPort : num) (framePath : string) : string :=
  "port-relay:" +:+ str_or hubId "" +:+ ":" +:+ number_string (or_zero targetPort) +:+ ":" +:+
  normalizeFramePath (str_or framePath "").

Definition previewTabId (input : OpenDetail) : string :=
  match input with
  | OpenFile path _ => fileTabId path
  | OpenPromptDiff sessionId artifactId _ _ _ => promptDiffTabId sessionId artifactId
  | OpenAttachment sessionId attachmentKey _ _ _ _ => attachmentTabId sessionId attachmentKey
  | OpenPortRelay hubId targetPort framePath _ _ => portRelayTabId hubId targetPort framePath
  end.

Definition hasId (tabId : string) (tab : PreviewWorkbenchTab) : bool := bool_decide (tab_id tab = tabId).

(** [direction] is [1] or [-1]; [%] on the non-negative sum. *)
Definition cyclePreviewTabId (tabs : list PreviewWorkbenchTab) (activeTabId : string) (direction : Z) : string :=
  match tabs with
  | [] => ""
  | _ =>
      let activeIndex := Z.max 0 (match findIndex (hasId activeTabId) tabs with Some i => Z.of_nat i | None => -1 end) in
      let nextIndex := (activeIndex + direction + Z.of_nat (length tabs)) mod Z.of_nat (length tabs) in
      match tabs !! Z.to_nat nextIndex with Some tab => tab_id tab | None => "" end
  end.

Definition previewWorkbenchTabTooltip (tab : PreviewWorkbenchTab) : string :=
  match tab_detail tab with
  | FileTab path _ _ _ => str_or path (tab_title tab)
  | PromptDiffTab _ _ promptText promptSummary files =>
      let paths := filter_truthy (map (fun f => af_path (pf_file f)) files) in
      join " - " (filter_truthy [str_or promptText (str_or promptSummary "Prompt diff");
                                 fileCountLabel (length files); join ", " paths])
  | AttachmentTab _ attachmentKey meta mimeType _ _ _ _ =>
      join " - " (filter_truthy [tab_title tab; mimeType; meta; attachmentKey])
  | PortRelayTab hubId targetPort framePath url _ => str_or url (portRelayLabel hubId targetPort framePath)
  end.

(** A space, a middle dot, a space; and the double quote. *)
Definition middot : string := String " " (String (Ascii.ascii_of_nat 183) (String " " "")).
Definition dquote : string := String (Ascii.ascii_of_nat 34) "".

Definition previewWorkbenchHeaderTitle (tab : option PreviewWorkbenchTab) : string :=
  match tab with
  | None => "Preview"
  | Some tab =>
      match tab_detail tab with
      | FileTab path _ _ _ => str_or path (tab_title tab)
      | PromptDiffTab _ _ promptText promptSummary files =>
          let summary := str_or promptSummary (compactLabel promptText 48) in
          if nonempty summary
          then "Prompt diff" +:+ middot +:+ dquote +:+ summary +:+ dquote +:+ middot +:+ fileCountLabel (length files)
          else "Prompt diff" +:+ middot +:+ fileCountLabel (length files)
      | AttachmentTab _ _ _ mimeType _ _ _ _ => join middot (filter_truthy ["Attachment"; tab_title tab; mimeType])
      | PortRelayTab hubId targetPort framePath _ _ => "Port Relay" +:+ middot +:+ portRelayLabel hubId targetPort framePath
      end
  end.

(** * Search *)

(** The lines of a text with their numbers, those that contain the query. *)
Definition matching_lines (text normalizedQuery : string) : list (Z * string) :=
  bfilter (fun m => includes (toLowerCase m.2) normalizedQuery)
    (imap (fun index line => (Z.of_nat index + 1, line)) (split (Ascii.ascii_of_nat 10) text)).

Definition buildPreviewSearchMatches (tab : option PreviewWorkbenchTab) (query : string) : list PreviewSearchMatch :=
  let normalizedQuery := toLowerCase (trim query) in
  match tab with
  | None => []
  | Some tab =>
      if negb (nonempty normalizedQuery) then [] else
      match tab_detail tab with
      | FileTab _ _ content _ => map (fun m => FileMatch m.1 m.2) (matching_lines content normalizedQuery)
      | PromptDiffTab _ _ _ _ files =>
          flat_map (fun file => map (fun m => DiffMatch (af_path (pf_file file)) m.1 m.2)
                                    (matching_lines (pf_diff file) normalizedQuery)) files
      | _ => []
      end
  end.

Definition previewSearchDocumentKey (tab : option PreviewWorkbenchTab) : string :=
  match tab with
  | None => ""
  | Some tab =>
      match tab_detail tab with
      | FileTab _ _ content _ => content
      | PromptDiffTab _ _ _ _ files =>
          join (String (Ascii.ascii_of_nat 1) "")
            (map (fun file => af_path (pf_file file) +:+ String (Ascii.ascii_of_nat 0) (pf_diff file)) files)
      | _ => ""
      end
  end.

(** * Tabs *)

Definition validPreviewInput (input : PreviewWorkbenchOpenInput) : bool :=
  if negb (nonempty (open_projectId input)) then false else
  match open_detail input with
  | OpenFile path _ => hasText path
  | OpenPromptDiff sessionId artifactId _ _ _ => hasText sessionId && hasText artifactId
  | OpenAttachment sessionId attachmentKey _ _ _ _ => hasText sessionId && hasText attachmentKey
  | OpenPortRelay hubId targetPort _ _ _ =>
      hasText hubId && match isInteger targetPort with Some port => 0 <? port | None => false end
  end.

Definition createPreviewWorkbenchState (projectId : string) : PreviewWorkbenchState :=
  {| activeProjectId := projectId;
     tabsByProjectId := if nonempty projectId then [(projectId, [])] else [];
     activeTabIdByProjectId := [];
     renderedTabIdsByProjectId := if nonempty projectId then [(projectId, [])] else [];
     treeOpen := false |}.

Definition createDetail (input : OpenDetail) : TabDetail :=
  match input with
  | OpenFile path targetLine => FileTab path (normalizeLine targetLine) "" None
  | OpenPromptDiff sessionId artifactId promptText promptSummary files =>
      PromptDiffTab sessionId artifactId (default ""%string promptText)
        (default (compactLabel (default ""%string promptText) 48) promptSummary) files
  | OpenAttachment sessionId attachmentKey meta mimeType kind src =>
      AttachmentTab sessionId attachmentKey meta mimeType kind src None None
  | OpenPortRelay hubId targetPort framePath url reloadKey =>
      PortRelayTab hubId targetPort (normalizeFramePath framePath) (default ""%string url) (default 0 reloadKey)
  end.

Definition createTab (input : PreviewWorkbenchOpenInput) : PreviewWorkbenchTab :=
  {| tab_id := previewTabId (open_detail input); tab_projectId := open_projectId input; tab_title := open_title input;
     tab_loading := false; tab_error := ""; tab_requestId := 0; tab_detail := createDetail (open_detail input) |}.

Definition mergeDetail (existing : TabDetail) (input : OpenDetail) : option TabDetail :=
  match existing, input with
  | FileTab path _ content info, OpenFile _ targetLine => Some (FileTab path (normalizeLine targetLine) content info)
  | PromptDiffTab sessionId artifactId promptText promptSummary _, OpenPromptDiff _ _ promptText' promptSummary' files =>
      Some (PromptDiffTab sessionId artifactId (default promptText promptText') (default promptSummary promptSummary') files)
  | AttachmentTab sessionId attachmentKey _ _ _ _ content isBinary, OpenAttachment _ _ meta mimeType kind src =>
      Some (AttachmentTab sessionId attachmentKey meta mimeType kind src content isBinary)
  | PortRelayTab hubId targetPort _ url reloadKey, OpenPortRelay _ _ framePath url' reloadKey' =>
      Some (PortRelayTab hubId targetPort (normalizeFramePath framePath) (default url url') (default reloadKey reloadKey'))
  | _, _ => None
  end.

Definition mergeTab (existing : PreviewWorkbenchTab) (input : PreviewWorkbenchOpenInput) : PreviewWorkbenchTab :=
  match mergeDetail (tab_detail existing) (open_detail input) with
  | Some detail =>
      {| tab_id := tab_id existing; tab_projectId := tab_projectId existing; tab_title := open_title input;
         tab_loading := tab_loading existing; tab_error := tab_error existing; tab_requestId := tab_requestId existing;
         tab_detail := detail |}
  | None => existing
  end.

(** * The state *)

Definition tabs_of (state : PreviewWorkbenchState) (projectId : string) : list PreviewWorkbenchTab :=
  default [] (dget (tabsByProjectId state) projectId).
Definition active_of (state : PreviewWorkbenchState) (projectId : string) : string :=
  default ""%string (dget (activeTabIdByProjectId state) projectId).
Definition rendered_of (state : PreviewWorkbenchState) (projectId : string) : list string :=
  default [] (dget (renderedTabIdsByProjectId state) projectId).

Definition withTabs (state : PreviewWorkbenchState) (projectId : string) (tabs : list PreviewWorkbenchTab)
    : PreviewWorkbenchState :=
  {| activeProjectId := activeProjectId state; tabsByProjectId := dset (tabsByProjectId state) projectId tabs;
     activeTabIdByProjectId := activeTabIdByProjectId state;
     renderedTabIdsByProjectId := renderedTabIdsByProjectId state; treeOpen := treeOpen state |}.
Definition withActive (state : PreviewWorkbenchState) (projectId tabId : string) : PreviewWorkbenchState :=
  {| activeProjectId := activeProjectId state; tabsByProjectId := tabsByProjectId state;
     activeTabIdByProjectId := dset (activeTabIdByProjectId state) projectId tabId;
     renderedTabIdsByProjectId := renderedTabIdsByProjectId state; treeOpen := treeOpen state |}.
Definition withRendered (state : PreviewWorkbenchState) (projectId : string) (ids : list string) : PreviewWorkbenchState :=
  {| activeProjectId := activeProjectId state; tabsByProjectId := tabsByProjectId state;
     activeTabIdByProjectId := activeTabIdByProjectId state;
     renderedTabIdsByProjectId := dset (renderedTabIdsByProjectId state) projectId ids; treeOpen := treeOpen state |}.

Definition addRenderedTabId (state : PreviewWorkbenchState) (projectId tabId : string) : PreviewWorkbenchState :=
  if negb (nonempty projectId) || negb (nonempty tabId) then state else
  let renderedIds := rendered_of state projectId in
  if bool_decide (tabId ∈ renderedIds) then state else withRendered state projectId (renderedIds ++ [tabId]).

Definition removeRenderedTabId (state : PreviewWorkbenchState) (projectId tabId : string) : PreviewWorkbenchState :=
  let renderedIds := rendered_of state projectId in
  if negb (bool_decide (tabId ∈ renderedIds)) then state
  else withRendered state projectId (bfilter (fun id => negb (bool_decide (id = tabId))) renderedIds).

Definition selectPreviewProject (state : PreviewWorkbenchState) (projectId : string) : PreviewWorkbenchState :=
  if negb (nonempty projectId) || bool_decide (projectId = activeProjectId state) then state else
  {| activeProjectId := projectId;
     tabsByProjectId := dset (tabsByProjectId state) projectId (tabs_of state projectId);
     activeTabIdByProjectId := activeTabIdByProjectId state;
     renderedTabIdsByProjectId := dset (renderedTabIdsByProjectId state) projectId (rendered_of state projectId);
     treeOpen := treeOpen state |}.

Definition ensurePreviewProjectVisible (state : PreviewWorkbenchState) (visibleProjectIds : list string)
    (preferredProjectId : string) : PreviewWorkbenchState :=
  if nonempty (activeProjectId state) && bool_decide (activeProjectId state ∈ visibleProjectIds) then state else
  let nextProjectId :=
    if nonempty preferredProjectId && bool_decide (preferredProjectId ∈ visibleProjectIds) then preferredProjectId
    else default ""%string (head visibleProjectIds) in
  if nonempty nextProjectId then selectPreviewProject state nextProjectId else state.

Definition openPreviewTab (state : PreviewWorkbenchState) (input : PreviewWorkbenchOpenInput) : PreviewWorkbenchState :=
  if negb (validPreviewInput input) then state else
  let projectId := open_projectId input in
  let id := previewTabId (open_detail input) in
  let projectState := selectPreviewProject state projectId in
  let tabs := tabs_of projectState projectId in
  let nextTabs := match find (hasId id) tabs with
                  | Some _ => map (fun tab => if hasId id tab then mergeTab tab input else tab) tabs
                  | None => tabs ++ [createTab input]
                  end in
  addRenderedTabId (withActive (withTabs projectState projectId nextTabs) projectId id) projectId id.

Definition selectPreviewTab (state : PreviewWorkbenchState) (projectId tabId : string) : PreviewWorkbenchState :=
  if negb (some (hasId tabId) (tabs_of state projectId)) then state
  else addRenderedTabId (withActive state projectId tabId) projectId tabId.

(** [{...tab, loading: true, error: '', requestId}]. *)
Definition startLoading (requestId : Z) (tab : PreviewWorkbenchTab) : PreviewWorkbenchTab :=
  {| tab_id := tab_id tab; tab_projectId := tab_projectId tab; tab_title := tab_title tab; tab_loading := true;
     tab_error := ""; tab_requestId := requestId; tab_detail := tab_detail tab |}.

Definition beginPreviewTabLoad (state : PreviewWorkbenchState) (projectId tabId : string) (requestId : Z)
    : PreviewWorkbenchState :=
  withTabs state projectId
    (map (fun tab => if hasId tabId tab then startLoading requestId tab else tab) (tabs_of state projectId)).

Definition updatePreviewTab (state : PreviewWorkbenchState) (projectId tabId : string)
    (updater : PreviewWorkbenchTab -> PreviewWorkbenchTab) : PreviewWorkbenchState :=
  withTabs state projectId (map (fun tab => if hasId tabId tab then updater tab else tab) (tabs_of state projectId)).

Definition updatePreviewTabAfterLoad (state : PreviewWorkbenchState) (projectId tabId : string) (requestId : Z)
    (updater : PreviewWorkbenchTab -> PreviewWorkbenchTab) : PreviewWorkbenchState :=
  updatePreviewTab state projectId tabId (fun tab => if tab_requestId tab =? requestId then updater tab else tab).

Definition failLoading (error : string) (tab : PreviewWorkbenchTab) : PreviewWorkbenchTab :=
  {| tab_id := tab_id tab; tab_projectId := tab_projectId tab; tab_title := tab_title tab; tab_loading := false;
     tab_error := error; tab_requestId := tab_requestId tab; tab_detail := tab_detail tab |}.

Definition failPreviewTabLoad (state : PreviewWorkbenchState) (projectId tabId : string) (requestId : Z) (error : string)
    : PreviewWorkbenchState :=
  updatePreviewTabAfterLoad state projectId tabId requestId (failLoading error).

Definition closePreviewTab (state : PreviewWorkbenchState) (projectId tabId : string) : PreviewWorkbenchState :=
  let tabs := tabs_of state projectId in
  match findIndex (hasId tabId) tabs with
  | None => state
  | Some closingIndex =>
      let nextTabs := bfilter (fun tab => negb (hasId tabId tab)) tabs in
      let currentActiveId := active_of state projectId in
      let nextActiveId :=
        if bool_decide (currentActiveId = tabId)
        then match nextTabs !! Nat.min closingIndex (length nextTabs - 1) with Some tab => tab_id tab | None => ""%string end
        else currentActiveId in
      let closedState := removeRenderedTabId (withActive (withTabs state projectId nextTabs) projectId nextActiveId)
                           projectId tabId in
      if nonempty nextActiveId then addRenderedTabId closedState projectId nextActiveId else closedState
  end.

Definition activePreviewTab (state : PreviewWorkbenchState) : option PreviewWorkbenchTab :=
  let projectId := activeProjectId state in
  find (hasId (active_of state projectId)) (tabs_of state projectId).

Definition previewRenderedTabs (state : PreviewWorkbenchState) : list PreviewWorkbenchTab :=
  let projectId := activeProjectId state in
  let activeTabId := active_of state projectId in
  let renderedIds := unique (rendered_of state projectId ++ (if nonempty activeTabId then [activeTabId] else [])) in
  bfilter (fun tab => bool_decide (tab_id tab ∈ renderedIds)) (tabs_of state projectId).

Definition isFilePreviewTab (tab : option PreviewWorkbenchTab) : bool :=
  match tab_detail <$> tab with Some (FileTab _ _ _ _) => true | _ => false end.
Definition isPromptDiffPreviewTab (tab : option PreviewWorkbenchTab) : bool :=
  match tab_detail <$> tab with Some (PromptDiffTab _ _ _ _ _) => true | _ => false end.
Definition isAttachmentPreviewTab (tab : option PreviewWorkbenchTab) : bool :=
  match tab_detail <$> tab with Some (AttachmentTab _ _ _ _ _ _ _ _) => true | _ => false end.
Definition isPortRelayPreviewTab (tab : option PreviewWorkbenchTab) : bool :=
  match tab_detail <$> tab with Some (PortRelayTab _ _ _ _ _) => true | _ => false end.

(** * Snapshots *)

Definition previewSnapshotTab (tab : PreviewWorkbenchTab) : PreviewWorkbenchSnapshotTab :=
  {| snap_projectId := tab_projectId tab; snap_title := tab_title tab;
     snap_detail := match tab_detail tab with
       | FileTab path targetLine _ _ => SnapFile path (of_Z <$> targetLine)
       | PromptDiffTab sessionId artifactId promptText promptSummary files =>
           SnapPromptDiff sessionId artifactId promptText promptSummary
             (map (fun file => (pf_file file, pf_expanded file)) files)
       | AttachmentTab sessionId attachmentKey meta mimeType kind _ _ _ =>
           SnapAttachment sessionId attachmentKey meta mimeType kind
       | PortRelayTab hubId targetPort framePath url reloadKey => SnapPortRelay hubId targetPort framePath url reloadKey
       end |}.

(** [l] when it is not empty. *)
Definition if_any {A} (l : list A) : option (list A) := match l with [] => None | _ => Some l end.

Definition previewWorkbenchSnapshotFromState (state : PreviewWorkbenchState) : PreviewWorkbenchSnapshot :=
  {| snap_version := PREVIEW_WORKBENCH_SNAPSHOT_VERSION;
     snap_activeProjectId := activeProjectId state;
     snap_tabsByProjectId :=
       dict_of (keyed_omap (fun _ tabs => if_any (map previewSnapshotTab tabs)) (tabsByProjectId state));
     snap_activeTabIdByProjectId := activeTabIdByProjectId state;
     snap_renderedTabIdsByProjectId :=
       dict_of (keyed_omap (fun _ ids => if_any (filter_truthy ids)) (renderedTabIdsByProjectId state));
     snap_treeOpen := treeOpen state |}.

Definition previewSnapshotInput (tab : PreviewWorkbenchSnapshotTab) : PreviewWorkbenchOpenInput :=
  {| open_projectId := snap_projectId tab; open_title := snap_title tab;
     open_detail := match snap_detail tab with
       | SnapFile path targetLine => OpenFile path targetLine
       | SnapPromptDiff sessionId artifactId promptText promptSummary files =>
           OpenPromptDiff sessionId artifactId (Some promptText) (Some promptSummary)
             (map (fun file => {| pf_file := file.1; pf_diff := ""; pf_expanded := file.2 |}) files)
       | SnapAttachment sessionId attachmentKey meta mimeType kind =>
           OpenAttachment sessionId attachmentKey meta mimeType kind ""
       | SnapPortRelay hubId targetPort framePath url reloadKey =>
           OpenPortRelay hubId targetPort framePath (Some url) (Some reloadKey)
       end |}.

Definition restorePreviewSnapshotTab (tab : PreviewWorkbenchSnapshotTab) : option PreviewWorkbenchTab :=
  let input := previewSnapshotInput tab in
  if validPreviewInput input then Some (createTab input) else None.

Definition previewWorkbenchStateFromSnapshot (snapshot : option PreviewWorkbenchSnapshot) : PreviewWorkbenchState :=
  match snapshot with
  | None => createPreviewWorkbenchState ""
  | Some snapshot =>
      if negb (snap_version snapshot =? PREVIEW_WORKBENCH_SNAPSHOT_VERSION) then createPreviewWorkbenchState "" else
      let tabs := dict_of (keyed_omap (fun projectId tabs =>
                    if nonempty projectId then if_any (omap restorePreviewSnapshotTab tabs) else None)
                    (snap_tabsByProjectId snapshot)) in
      let available projectId id := match dget tabs projectId with
                                    | Some l => bool_decide (id ∈ map tab_id l)
                                    | None => false end in
      let projectIds := dkeys tabs in
      {| activeProjectId :=
           if nonempty (snap_activeProjectId snapshot) && bool_decide (snap_activeProjectId snapshot ∈ projectIds)
           then snap_activeProjectId snapshot else default ""%string (head projectIds);
         tabsByProjectId := tabs;
         activeTabIdByProjectId :=
           dict_of (keyed_omap (fun projectId tabId => if available projectId tabId then Some tabId else None)
                               (snap_activeTabIdByProjectId snapshot));
         renderedTabIdsByProjectId :=
           dict_of (keyed_omap (fun projectId ids =>
                      if nonempty projectId then if_any (bfilter (available projectId) ids) else None)
                      (snap_renderedTabIdsByProjectId snapshot));
         treeOpen := snap_treeOpen snapshot |}
  end.

(** * Reading an updated state *)

Implicit Types (s : PreviewWorkbenchState) (tabs : list PreviewWorkbenchTab) (tab : PreviewWorkbenchTab).

Definition ids (tabs : list PreviewWorkbenchTab) : list string := map tab_id tabs.

Lemma default_dset {A} (d : list (string * A)) (x : A) k k' v :
  default x (dget (dset d k v) k') = if decide (k = k') then v else default x (dget d k').
Proof. rewrite dget_dset. by case_decide. Qed.

Lemma tabs_of_withTabs s p ts q : tabs_of (withTabs s p ts) q = if decide (p = q) then ts else tabs_of s q.
Proof. apply default_dset. Qed.
Lemma active_of_withActive s p id q : active_of (withActive s p id) q = if decide (p = q) then id else active_of s q.
Proof. apply default_dset. Qed.
Lemma rendered_of_withRendered s p l q : rendered_of (withRendered s p l) q = if decide (p = q) then l else rendered_of s q.
Proof. apply default_dset. Qed.

Lemma addRendered_same s p id :
  tabsByProjectId (addRenderedTabId s p id) = tabsByProjectId s /\
  activeTabIdByProjectId (addRenderedTabId s p id) = activeTabIdByProjectId s /\
  activeProjectId (addRenderedTabId s p id) = activeProjectId s.
Proof. unfold addRenderedTabId. repeat case_match; done. Qed.

Lemma removeRendered_same s p id :
  tabsByProjectId (removeRenderedTabId s p id) = tabsByProjectId s /\
  activeTabIdByProjectId (removeRenderedTabId s p id) = activeTabIdByProjectId s.
Proof. unfold removeRenderedTabId. repeat case_match; done. Qed.

Lemma tabs_of_addRendered s p id q : tabs_of (addRenderedTabId s p id) q = tabs_of s q.
Proof. unfold tabs_of. by rewrite (proj1 (addRendered_same s p id)). Qed.
Lemma active_of_addRendered s p id q : active_of (addRenderedTabId s p id) q = active_of s q.
Proof. unfold active_of. by rewrite (proj1 (proj2 (addRendered_same s p id))). Qed.
Lemma tabs_of_removeRendered s p id q : tabs_of (removeRenderedTabId s p id) q = tabs_of s q.
Proof. unfold tabs_of. by rewrite (proj1 (removeRendered_same s p id)). Qed.
Lemma active_of_removeRendered s p id q : active_of (removeRenderedTabId s p id) q = active_of s q.
Proof. unfold active_of. by rewrite (proj2 (removeRendered_same s p id)). Qed.

Lemma rendered_of_removeRendered s p id q :
  rendered_of (removeRenderedTabId s p id) q =
  if decide (p = q) then bfilter (fun x => negb (bool_decide (x = id))) (rendered_of s q) else rendered_of s q.
Proof.
  unfold removeRenderedTabId. case_bool_decide as Hin; cbn [negb].
  - rewrite rendered_of_withRendered. by case_decide; subst.
  - case_decide; [subst|done]. symmetry. apply bfilter_all, Forall_forall. intros x Hx.
    apply negb_true_iff, bool_decide_eq_false. by intros ->.
Qed.

Lemma elem_of_rendered_add s p id q x :
  x ∈ rendered_of (addRenderedTabId s p id) q -> x ∈ rendered_of s q \/ (p = q /\ x = id).
Proof.
  unfold addRenderedTabId. case_match; [auto|]. case_bool_decide; [auto|].
  rewrite rendered_of_withRendered. case_decide; [|auto]. rewrite elem_of_app, list_elem_of_singleton. subst. tauto.
Qed.

Lemma NoDup_rendered_add s p id q :
  NoDup (rendered_of s q) -> NoDup (rendered_of s p) -> NoDup (rendered_of (addRenderedTabId s p id) q).
Proof.
  intros H1 H2. unfold addRenderedTabId. case_match; [done|]. case_bool_decide as Hin; [done|].
  rewrite rendered_of_withRendered. case_decide; [|done].
  apply NoDup_app. split_and!; [done| |apply NoDup_singleton]. intros x Hx ->%list_elem_of_singleton. done.
Qed.

Lemma select_project_views s p q :
  tabs_of (selectPreviewProject s p) q = tabs_of s q /\
  active_of (selectPreviewProject s p) q = active_of s q /\
  rendered_of (selectPreviewProject s p) q = rendered_of s q.
Proof.
  unfold selectPreviewProject. case_match; [done|]. split_and!; [|done|].
  - unfold tabs_of at 1; cbn [tabsByProjectId]. rewrite default_dset. by goal_decide.
  - unfold rendered_of at 1; cbn [renderedTabIdsByProjectId]. rewrite default_dset. by goal_decide.
Qed.

(** * The invariant *)

Record workbench_wf (s : PreviewWorkbenchState) : Prop := {
  wb_ids : forall p, NoDup (ids (tabs_of s p));
  wb_rendered : forall p id, id ∈ rendered_of s p -> id ∈ ids (tabs_of s p);
  wb_rendered_nodup : forall p, NoDup (rendered_of s p);
  wb_active : forall p, active_of s p = ""%string \/ active_of s p ∈ ids (tabs_of s p);
}.

Lemma create_wf p : workbench_wf (createPreviewWorkbenchState p).
Proof.
  assert (forall q, tabs_of (createPreviewWorkbenchState p) q = []) as Ht.
  { intros q. unfold tabs_of, createPreviewWorkbenchState; cbn. destruct (nonempty p); cbn; [by case_decide|done]. }
  assert (forall q, rendered_of (createPreviewWorkbenchState p) q = []) as Hr.
  { intros q. unfold rendered_of, createPreviewWorkbenchState; cbn. destruct (nonempty p); cbn; [by case_decide|done]. }
  constructor; intros q; rewrite ?Ht, ?Hr; [constructor|set_solver|constructor|by left].
Qed.

(** States with the same contents. *)
Lemma wf_views s s' :
  (forall p, tabs_of s' p = tabs_of s p /\ active_of s' p = active_of s p /\ rendered_of s' p = rendered_of s p) ->
  workbench_wf s -> workbench_wf s'.
Proof.
  intros Hv [H1 H2 H3 H4].
  constructor; intros p; destruct (Hv p) as (Ht & Ha & Hr); rewrite ?Ht, ?Ha, ?Hr; auto.
Qed.

(** Tabs that keep the identifiers there were. *)
Lemma withTabs_wf s p ts :
  workbench_wf s -> NoDup (ids ts) -> (forall id, id ∈ ids (tabs_of s p) -> id ∈ ids ts) -> workbench_wf (withTabs s p ts).
Proof.
  intros [H1 H2 H3 H4] Hnd Hsub. constructor; [| |exact H3|]; intros q; rewrite tabs_of_withTabs.
  - by destruct (decide (p = q)).
  - intros id Hid. destruct (decide (p = q)) as [->|]; [apply Hsub|]; by apply H2.
  - destruct (H4 q) as [?|?]; [by left|right]. destruct (decide (p = q)) as [->|]; [by apply Hsub|done].
Qed.

Lemma withActive_wf s p id : workbench_wf s -> id ∈ ids (tabs_of s p) -> workbench_wf (withActive s p id).
Proof.
  intros [H1 H2 H3 H4] Hid. constructor; intros q; [by apply H1|by apply H2|by apply H3|].
  rewrite active_of_withActive. destruct (decide (p = q)) as [<-|]; [by right|by apply H4].
Qed.

Lemma addRendered_wf s p id : workbench_wf s -> id ∈ ids (tabs_of s p) -> workbench_wf (addRenderedTabId s p id).
Proof.
  intros [H1 H2 H3 H4] Hid. constructor; intros q.
  - rewrite tabs_of_addRendered. apply H1.
  - intros x. rewrite tabs_of_addRendered. intros [Hx|[<- ->]]%elem_of_rendered_add; [by apply H2|done].
  - by apply NoDup_rendered_add.
  - rewrite tabs_of_addRendered, active_of_addRendered. apply H4.
Qed.

Lemma ids_map_update ts tabId f :
  (forall tab, tab_id (f tab) = tab_id tab) -> ids (map (fun tab => if hasId tabId tab then f tab else tab) ts) = ids ts.
Proof. intros Hf. unfold ids. rewrite map_map. apply map_ext. intros tab. by destruct (hasId tabId tab). Qed.

Lemma update_wf s p tabId f :
  (forall tab, tab_id (f tab) = tab_id tab) -> workbench_wf s ->
  workbench_wf (withTabs s p (map (fun tab => if hasId tabId tab then f tab else tab) (tabs_of s p))).
Proof. intros Hf Hs. apply withTabs_wf; rewrite ?ids_map_update by done; [done|by apply Hs|done]. Qed.

Lemma mergeTab_id tab input : tab_id (mergeTab tab input) = tab_id tab.
Proof. unfold mergeTab. by destruct (mergeDetail _ _). Qed.

Lemma find_hasId_None ts id : find (hasId id) ts = None <-> id ∉ ids ts.
Proof.
  rewrite find_None, Forall_forall. unfold ids. rewrite elem_of_map. unfold hasId. split.
  - intros H (tab & -> & Ht). by specialize (H tab Ht); apply bool_decide_eq_false in H.
  - intros H tab Ht. apply bool_decide_eq_false. intros <-. eauto.
Qed.

(** The tabs of a project after opening one. *)
Lemma open_ids ts input :
  NoDup (ids ts) ->
  let id := previewTabId (open_detail input) in
  let nextTabs := match find (hasId id) ts with
                  | Some _ => map (fun tab => if hasId id tab then mergeTab tab input else tab) ts
                  | None => ts ++ [createTab input] end in
  NoDup (ids nextTabs) /\ id ∈ ids nextTabs /\ forall x, x ∈ ids ts -> x ∈ ids nextTabs.
Proof.
  intros Hnd id. destruct (find (hasId id) ts) as [t|] eqn:E; cbv zeta.
  - rewrite (ids_map_update ts id (fun tab => mergeTab tab input)) by (intros; apply mergeTab_id). split_and!; [done| |done].
    apply find_Some in E as [Ht E]. apply bool_decide_eq_true in E as <-. apply elem_of_map. eauto.
  - apply find_hasId_None in E. unfold ids in *. rewrite map_app. split_and!.
    + apply NoDup_app. split_and!; [done| |apply NoDup_singleton]. intros x Hx ->%list_elem_of_singleton. done.
    + apply elem_of_app. right. by left.
    + intros x Hx. apply elem_of_app. by left.
Qed.

Lemma open_wf s input : workbench_wf s -> workbench_wf (openPreviewTab s input).
Proof.
  intros Hs. unfold openPreviewTab. case_match; [done|]. cbv zeta.
  assert (workbench_wf (selectPreviewProject s (open_projectId input))) as Hs'.
  { eapply wf_views; [|exact Hs]. intros q. apply select_project_views. }
  set (s1 := selectPreviewProject s (open_projectId input)) in *. set (p := open_projectId input) in *.
  pose proof (open_ids (tabs_of s1 p) input (wb_ids _ Hs' p)) as Ho. cbv zeta in Ho.
  set (id := previewTabId (open_detail input)) in *.
  destruct Ho as (Ho1 & Ho2 & Ho3). set (nextTabs := match find (hasId id) (tabs_of s1 p) with Some _ => _ | None => _ end) in *.
  assert (id ∈ ids (tabs_of (withTabs s1 p nextTabs) p)) by (rewrite tabs_of_withTabs, decide_True by done; done).
  apply addRendered_wf; [apply withActive_wf; [by apply withTabs_wf|done]|done].
Qed.

Lemma select_tab_wf s p id : workbench_wf s -> workbench_wf (selectPreviewTab s p id).
Proof.
  intros Hs. unfold selectPreviewTab. destruct (some _ _) eqn:E; cbn [negb]; [|done].
  apply some_true in E as (tab & Ht & E). apply bool_decide_eq_true in E as <-.
  assert (tab_id tab ∈ ids (tabs_of s p)) by (apply elem_of_map; eauto).
  apply addRendered_wf; [by apply withActive_wf|done].
Qed.

(** Closing a tab: what is left. *)
Lemma close_views s p id (i : nat) :
  findIndex (hasId id) (tabs_of s p) = Some i ->
  let nextTabs := bfilter (fun tab => negb (hasId id tab)) (tabs_of s p) in
  let s' := closePreviewTab s p id in
  (forall q, tabs_of s' q = if decide (p = q) then nextTabs else tabs_of s q) /\
  (forall q, q <> p -> active_of s' q = active_of s q) /\
  active_of s' p = (if bool_decide (active_of s p = id)
    then match nextTabs !! Nat.min i (length nextTabs - 1) with Some tab => tab_id tab | None => ""%string end
    else active_of s p) /\
  (forall q x, x ∈ rendered_of s' q -> (x ∈ rendered_of s q /\ (q = p -> x <> id)) \/ (q = p /\ x = active_of s' p /\ x <> ""%string)) /\
  (forall q, NoDup (rendered_of s q) -> NoDup (rendered_of s' q)).
Proof.
  intros Hi nextTabs s'. unfold s', closePreviewTab. rewrite Hi. cbv zeta. fold nextTabs.
  set (nextActive := if bool_decide _ then _ else _).
  set (s1 := withActive (withTabs s p nextTabs) p nextActive). set (s2 := removeRenderedTabId s1 p id).
  assert (forall q x, x ∈ rendered_of s2 q -> x ∈ rendered_of s q /\ (q = p -> x <> id)) as Hr2.
  { intros q x. unfold s2. rewrite rendered_of_removeRendered. case_decide; [|by intros; split; [|intros ->]].
    rewrite elem_of_bfilter, negb_true_iff, bool_decide_eq_false. by intros []. }
  assert (forall q, NoDup (rendered_of s q) -> NoDup (rendered_of s2 q)) as Hn2.
  { intros q Hq. unfold s2. rewrite rendered_of_removeRendered. case_decide; [by apply NoDup_bfilter|done]. }
  assert (forall q, tabs_of s2 q = if decide (p = q) then nextTabs else tabs_of s q) as Ht2.
  { intros q. unfold s2. rewrite tabs_of_removeRendered. apply tabs_of_withTabs. }
  assert (forall q, active_of s2 q = if decide (p = q) then nextActive else active_of s q) as Ha2.
  { intros q. unfold s2. rewrite active_of_removeRendered. unfold s1. by rewrite active_of_withActive. }
  destruct (nonempty nextActive) eqn:Ene.
  - apply nonempty_true in Ene. split_and!.
    + intros q. rewrite tabs_of_addRendered. apply Ht2.
    + intros q Hq. rewrite active_of_addRendered, Ha2. by rewrite decide_False.
    + rewrite active_of_addRendered, Ha2. by rewrite decide_True.
    + intros q x [Hx|[<- ->]]%elem_of_rendered_add; [left; by apply Hr2|right].
      rewrite active_of_addRendered, Ha2, decide_True by done. done.
    + intros q Hq. unfold addRenderedTabId. case_match; [by apply Hn2|]. case_bool_decide; [by apply Hn2|].
      rewrite rendered_of_withRendered. case_decide; [subst q|by apply Hn2].
      apply NoDup_app. split_and!; [by apply Hn2| |apply NoDup_singleton]. intros x Hx ->%list_elem_of_singleton. done.
  - split_and!; [done|intros q Hq; rewrite Ha2; by rewrite decide_False|rewrite Ha2; by rewrite decide_True| |done].
    intros q x Hx. left. by apply Hr2.
Qed.

Lemma close_wf s p id : workbench_wf s -> workbench_wf (closePreviewTab s p id).
Proof.
  intros Hs. destruct (findIndex (hasId id) (tabs_of s p)) as [i|] eqn:Hi; [|unfold closePreviewTab; by rewrite Hi].
  destruct (close_views s p id i Hi) as (Ht & Ha & Hap & Hr & Hn). destruct Hs as [H1 H2 H3 H4].
  set (s' := closePreviewTab s p id) in *. set (nextTabs := bfilter _ _) in *.
  assert (forall x, x ∈ ids nextTabs <-> x ∈ ids (tabs_of s p) /\ x <> id) as Hids.
  { intros x. unfold ids, nextTabs. rewrite !elem_of_map. setoid_rewrite elem_of_bfilter. unfold hasId.
    setoid_rewrite negb_true_iff. setoid_rewrite bool_decide_eq_false. naive_solver. }
  assert (active_of s' p = ""%string \/ active_of s' p ∈ ids nextTabs) as Hact.
  { rewrite Hap. case_bool_decide as E.
    - destruct (nextTabs !! _) as [t|] eqn:Et; [right|by left]. apply elem_of_map. exists t.
      split; [done|by eapply list_elem_of_lookup_2].
    - destruct (H4 p) as [->|Hin]; [by left|right]. apply Hids. by split. }
  constructor; intros q.
  - rewrite Ht. destruct (decide (p = q)) as [<-|]; [by apply NoDup_map_bfilter|done].
  - intros x Hx. rewrite Ht. apply Hr in Hx as [[Hx Hne]|(-> & -> & Hne)].
    + destruct (decide (p = q)) as [<-|]; [|by apply H2]. apply Hids. split; [by apply H2|by apply Hne].
    + rewrite decide_True by done. by destruct Hact.
  - by apply Hn.
  - rewrite Ht. destruct (decide (p = q)) as [<-|]; [done|]. rewrite Ha by done. apply H4.
Qed.

(** What the application does to the workbench; the updaters it passes keep a tab's
    identifier. *)
Inductive workbench_step : PreviewWorkbenchState -> PreviewWorkbenchState -> Prop :=
  | wb_select_project s p : workbench_step s (selectPreviewProject s p)
  | wb_ensure_visible s ps p : workbench_step s (ensurePreviewProjectVisible s ps p)
  | wb_open s input : workbench_step s (openPreviewTab s input)
  | wb_select s p id : workbench_step s (selectPreviewTab s p id)
  | wb_begin s p id r : workbench_step s (beginPreviewTabLoad s p id r)
  | wb_update s p id f : (forall tab, tab_id (f tab) = tab_id tab) -> workbench_step s (updatePreviewTab s p id f)
  | wb_after_load s p id r f :
      (forall tab, tab_id (f tab) = tab_id tab) -> workbench_step s (updatePreviewTabAfterLoad s p id r f)
  | wb_fail s p id r e : workbench_step s (failPreviewTabLoad s p id r e)
  | wb_close s p id : workbench_step s (closePreviewTab s p id).

Lemma select_project_wf s p : workbench_wf s -> workbench_wf (selectPreviewProject s p).
Proof. apply wf_views. intros q. apply select_project_views. Qed.

Lemma after_load_wf s p id r f :
  (forall tab, tab_id (f tab) = tab_id tab) -> workbench_wf s -> workbench_wf (updatePreviewTabAfterLoad s p id r f).
Proof. intros Hf. apply update_wf. intros tab. by case_match. Qed.

Lemma workbench_step_wf s s' : workbench_wf s -> workbench_step s s' -> workbench_wf s'.
Proof.
  intros Hs Hst. destruct Hst as [s p|s ps p|s input|s p id|s p id r|s p id f Hf|s p id r f Hf|s p id r e|s p id].
  - by apply select_project_wf.
  - unfold ensurePreviewProjectVisible. case_match; [done|]. cbv zeta. case_match; [by apply select_project_wf|done].
  - by apply open_wf.
  - by apply select_tab_wf.
  - by apply update_wf.
  - by apply update_wf.
  - by apply after_load_wf.
  - by apply after_load_wf.
  - by apply close_wf.
Qed.

(** C26. The workbench stays consistent: after any sequence of opens, selections,
    loads, updates and closes, in every project the tabs have distinct identifiers,
    the rendered tabs exist and are listed once, and the active tab, when there is one,
    is a tab of the project, so that showing it succeeds. *)
Theorem workbench_consistent p0 s :
  star workbench_step (createPreviewWorkbenchState p0) s ->
  workbench_wf s /\
  (active_of s (activeProjectId s) <> ""%string ->
   exists tab, activePreviewTab s = Some tab /\ tab ∈ previewRenderedTabs s).
Proof.
  intros H. assert (workbench_wf s) as Hs.
  { eapply star_invariant; [exact H|apply create_wf|apply workbench_step_wf]. }
  split; [done|]. intros Hne. destruct (wb_active _ Hs (activeProjectId s)) as [?|Hin]; [done|].
  unfold activePreviewTab. destruct (find _ _) as [tab|] eqn:E; [|by apply find_hasId_None in E].
  exists tab. split; [done|]. apply find_Some in E as [Ht E]. apply bool_decide_eq_true in E.
  unfold previewRenderedTabs. apply elem_of_bfilter. split; [done|]. apply bool_decide_eq_true, elem_of_unique, elem_of_app.
  right. apply nonempty_true in Hne. rewrite Hne, E. by left.
Qed.

Lemma workbench_consistent_witness :
  let input := {| open_projectId := "p"; open_title := "a"; open_detail := OpenFile "a.ts" (Some (of_Z 3)) |} in
  let s := closePreviewTab (openPreviewTab (createPreviewWorkbenchState "") input) "p" "file:b.ts" in
  exists tab, activePreviewTab s = Some tab /\ tab ∈ previewRenderedTabs s.
Proof.
  intros input s. apply (workbench_consistent "" s); [|by vm_compute].
  apply (star_step _ _ (openPreviewTab (createPreviewWorkbenchState "") input)); [|apply wb_close].
  apply (star_step _ _ (createPreviewWorkbenchState "")); [apply star_refl|apply wb_open].
Defined.

(** * Loads *)

(** No tab of that identifier is waiting for request [r]. *)
Definition no_load (r : Z) (p id : string) (s : PreviewWorkbenchState) : Prop :=
  forall tab, tab ∈ tabs_of s p -> tab_id tab = id -> tab_requestId tab <> r.

(** An updater that leaves a tab's identifier and request alone. *)
Definition keeps_request (f : PreviewWorkbenchTab -> PreviewWorkbenchTab) : Prop :=
  forall tab, tab_id (f tab) = tab_id tab /\ tab_requestId (f tab) = tab_requestId tab.

(** What may happen after a newer load took over: anything but a load numbered [r]. *)
Inductive later_step (r : Z) : PreviewWorkbenchState -> PreviewWorkbenchState -> Prop :=
  | later_begin s p id r' : r' <> r -> later_step r s (beginPreviewTabLoad s p id r')
  | later_update s p id f : keeps_request f -> later_step r s (updatePreviewTab s p id f)
  | later_after_load s p id r' f : keeps_request f -> later_step r s (updatePreviewTabAfterLoad s p id r' f)
  | later_fail s p id r' e : later_step r s (failPreviewTabLoad s p id r' e)
  | later_open s input : later_step r s (openPreviewTab s input)
  | later_select s p id : later_step r s (selectPreviewTab s p id)
  | later_select_project s p : later_step r s (selectPreviewProject s p)
  | later_close s p id : later_step r s (closePreviewTab s p id).

Lemma update_no_load r s p0 id0 f p id :
  (forall tab, tab_id (f tab) = tab_id tab /\ (tab_requestId (f tab) = tab_requestId tab \/ tab_requestId (f tab) <> r)) ->
  no_load r p id s -> no_load r p id (updatePreviewTab s p0 id0 f).
Proof.
  intros Hf Hs tab. unfold updatePreviewTab. rewrite tabs_of_withTabs. destruct (decide (p0 = p)) as [->|]; [|apply Hs].
  intros (t & -> & Ht)%elem_of_map. destruct (hasId id0 t); [|by apply Hs].
  destruct (Hf t) as [-> [->|Hne]]; [by apply Hs|done].
Qed.

Lemma mergeTab_request tab input : tab_requestId (mergeTab tab input) = tab_requestId tab.
Proof. unfold mergeTab. by destruct (mergeDetail _ _). Qed.

Lemma open_no_load r s input p id : r <> 0 -> no_load r p id s -> no_load r p id (openPreviewTab s input).
Proof.
  intros Hr Hs tab. unfold openPreviewTab. case_match; [by apply Hs|]. cbv zeta. rewrite tabs_of_addRendered.
  match goal with |- context [tabs_of (withActive (withTabs ?s1 ?q ?l) ?q ?i) p] =>
    change (tabs_of (withActive (withTabs s1 q l) q i) p) with (tabs_of (withTabs s1 q l) p) end.
  rewrite tabs_of_withTabs. destruct (decide (open_projectId input = p)) as [<-|].
  - rewrite (proj1 (select_project_views s _ _)). destruct (find _ _).
    + intros (t & -> & Ht)%elem_of_map. destruct (hasId _ t); [|by apply Hs]. rewrite mergeTab_id, mergeTab_request. by apply Hs.
    + intros [Ht| ->%list_elem_of_singleton]%elem_of_app; [by apply Hs|]. cbn. congruence.
  - rewrite (proj1 (select_project_views s _ _)). apply Hs.
Qed.

Lemma later_no_load r p id s s' : r <> 0 -> no_load r p id s -> later_step r s s' -> no_load r p id s'.
Proof.
  intros Hr Hs Hst. destruct Hst as [s p0 id0 r' Hne|s p0 id0 f Hf|s p0 id0 r' f Hf|s p0 id0 r' e|s input|s p0 id0|s p0|s p0 id0].
  - apply (update_no_load r s p0 id0 (startLoading r')); [|done]. intros tab. split; [done|by right].
  - apply update_no_load; [|done]. intros tab. destruct (Hf tab) as [-> ->]. auto.
  - apply update_no_load; [|done]. intros tab. case_match; [|auto]. destruct (Hf tab) as [-> ->]. auto.
  - apply update_no_load; [|done]. intros tab. case_match; auto.
  - by apply open_no_load.
  - intros tab. unfold selectPreviewTab. case_match; [by apply Hs|]. rewrite tabs_of_addRendered. apply Hs.
  - intros tab. rewrite (proj1 (select_project_views s _ _)). apply Hs.
  - intros tab. destruct (findIndex (hasId id0) (tabs_of s p0)) as [i|] eqn:Hi;
      [|unfold closePreviewTab; rewrite Hi; apply Hs].
    destruct (close_views s p0 id0 i Hi) as (-> & _). destruct (decide (p0 = p)) as [->|]; [|apply Hs].
    intros [Ht _]%elem_of_bfilter. by apply Hs.
Qed.

(** C27. A superseded load cannot overwrite a newer one: once a tab has started a load,
    the answer to any other request, however late and whatever happened to the
    workbench since, leaves every tab as it is, while the answer to the current request
    is applied to the tab. *)
Theorem stale_load_ignored s p id r1 r2 s' f :
  r1 <> r2 -> r1 <> 0 -> star (later_step r1) (beginPreviewTabLoad s p id r2) s' ->
  (forall q, tabs_of (updatePreviewTabAfterLoad s' p id r1 f) q = tabs_of s' q) /\
  tabs_of (updatePreviewTabAfterLoad (beginPreviewTabLoad s p id r2) p id r2 f) p =
    map (fun tab => if hasId id tab then f (startLoading r2 tab) else tab) (tabs_of s p).
Proof.
  intros Hne Hr Hst. split.
  - assert (no_load r1 p id s') as Hs'.
    { eapply star_invariant; [exact Hst| |intros; by eapply later_no_load].
      intros tab. unfold beginPreviewTabLoad. rewrite tabs_of_withTabs, decide_True by done.
      intros (t & -> & Ht)%elem_of_map. destruct (hasId id t) eqn:E; [cbn; congruence|].
      apply bool_decide_eq_false in E. done. }
    intros q. unfold updatePreviewTabAfterLoad, updatePreviewTab. rewrite tabs_of_withTabs.
    destruct (decide (p = q)) as [<-|]; [|done]. rewrite <- (map_id (tabs_of s' p)) at 2. apply map_ext_in.
    intros tab Ht%list_elem_of_In. destruct (hasId id tab) eqn:E; [|done]. apply bool_decide_eq_true in E.
    case_match eqn:Er; [|done]. apply Z.eqb_eq in Er. by destruct (Hs' tab Ht E).
  - unfold updatePreviewTabAfterLoad, updatePreviewTab, beginPreviewTabLoad.
    rewrite !tabs_of_withTabs, !decide_True, map_map by done. apply map_ext. intros tab.
    destruct (hasId id tab) eqn:E; [|by rewrite E]. cbn [startLoading tab_requestId].
    assert (hasId id (startLoading r2 tab) = true) as -> by exact E. by rewrite Z.eqb_refl.
Qed.

Definition sample_input : PreviewWorkbenchOpenInput :=
  {| open_projectId := "p"; open_title := "a"; open_detail := OpenFile "a.ts" (Some (of_Z 3)) |}.

Lemma stale_load_ignored_witness :
  let s := openPreviewTab (createPreviewWorkbenchState "p") sample_input in
  let s' := selectPreviewProject (beginPreviewTabLoad s "p" "file:a.ts" 2) "q" in
  tabs_of (updatePreviewTabAfterLoad s' "p" "file:a.ts" 1 (failLoading "late")) "p" = tabs_of s' "p".
Proof.
  intros s s'. apply (stale_load_ignored s "p" "file:a.ts" 1 2 s' (failLoading "late")); [done|done|].
  apply (star_step _ _ (beginPreviewTabLoad s "p" "file:a.ts" 2)); [apply star_refl|apply later_select_project].
Defined.

(** * The snapshot round trip *)

(** The tab without what is not persisted. *)
Definition strip_detail (d : TabDetail) : TabDetail :=
  match d with
  | FileTab path targetLine _ _ => FileTab path targetLine "" None
  | PromptDiffTab sessionId artifactId promptText promptSummary files =>
      PromptDiffTab sessionId artifactId promptText promptSummary
        (map (fun f => {| pf_file := pf_file f; pf_diff := ""; pf_expanded := pf_expanded f |}) files)
  | AttachmentTab sessionId attachmentKey meta mimeType kind _ _ _ =>
      AttachmentTab sessionId attachmentKey meta mimeType kind "" None None
  | PortRelayTab hubId targetPort framePath url reloadKey => PortRelayTab hubId targetPort framePath url reloadKey
  end.
Definition strip_tab (tab : PreviewWorkbenchTab) : PreviewWorkbenchTab :=
  {| tab_id := tab_id tab; tab_projectId := tab_projectId tab; tab_title := tab_title tab; tab_loading := false;
     tab_error := ""; tab_requestId := 0; tab_detail := strip_detail (tab_detail tab) |}.

(** The tabs that opening makes: a valid input, its own identifier, a real line. *)
Definition restorable (tab : PreviewWorkbenchTab) : Prop :=
  tab_projectId tab <> ""%string /\
  match tab_detail tab with
  | FileTab path targetLine _ _ =>
      tab_id tab = fileTabId path /\ path <> ""%string /\ (forall z, targetLine = Some z -> 0 < z)
  | PromptDiffTab sessionId artifactId _ _ _ =>
      tab_id tab = promptDiffTabId sessionId artifactId /\ sessionId <> ""%string /\ artifactId <> ""%string
  | AttachmentTab sessionId attachmentKey _ _ _ _ _ _ =>
      tab_id tab = attachmentTabId sessionId attachmentKey /\ sessionId <> ""%string /\ attachmentKey <> ""%string
  | PortRelayTab hubId targetPort framePath _ _ =>
      tab_id tab = portRelayTabId hubId targetPort framePath /\ hubId <> ""%string /\
      exists port, isInteger targetPort = Some port /\ 0 < port
  end.

Lemma str_or_empty x : str_or x "" = x.
Proof. unfold str_or. destruct (nonempty x) eqn:E; [done|]. by apply nonempty_false in E as ->. Qed.

(** A line of at least 1, as the previews give it. *)
Lemma created_restorable input :
  validPreviewInput input = true ->
  (forall path q, open_detail input = OpenFile path (Some (Fin q)) -> Qnum q <= 0 \/ 1 <= trunc q) ->
  restorable (createTab input).
Proof.
  unfold validPreviewInput. destruct (nonempty (open_projectId input)) eqn:Ep; [|done]. apply nonempty_true in Ep.
  cbn [negb]. intros Hv Hline. split; [done|].
  unfold createTab; cbn [tab_detail tab_id]. destruct (open_detail input) as [path line| | |hub port frame url rk]; cbn in *;
    unfold hasText in Hv; breflect; split_and!; try done.
  - intros z. unfold normalizeLine. destruct line as [[| | |q]|]; try done. case_match; [|done]. intros [= <-].
    specialize (Hline path q eq_refl). lia.
  - unfold portRelayTabId, normalizeFramePath. by rewrite !str_or_empty.
  - destruct (isInteger port) as [z|]; [|done]. exists z. split; [done|lia].
Qed.

Lemma restore_snapshot_tab tab : restorable tab -> restorePreviewSnapshotTab (previewSnapshotTab tab) = Some (strip_tab tab).
Proof.
  intros [Hp Hd]. apply nonempty_true in Hp. unfold restorePreviewSnapshotTab, validPreviewInput, createTab, strip_tab.
  cbn [previewSnapshotInput previewSnapshotTab open_projectId snap_projectId open_detail snap_detail open_title snap_title].
  rewrite Hp. cbn [negb]. unfold hasText.
  destruct (tab_detail tab) as [path line content info|sid aid pt ps files|sid ak meta mt kind src c b|hub port frame url rk]; cbn in *.
  - destruct Hd as (Hid & Hne & Hl). apply nonempty_true in Hne. rewrite Hne, Hid. do 3 f_equal.
    destruct line as [z|]; [|done]. specialize (Hl z eq_refl). cbn. rewrite trunc_inject. by replace (0 <? z) with true by lia.
  - destruct Hd as (Hid & H1%nonempty_true & H2%nonempty_true). rewrite H1, H2, Hid. cbn. do 3 f_equal. rewrite map_map. done.
  - destruct Hd as (Hid & H1%nonempty_true & H2%nonempty_true). rewrite H1, H2, Hid. done.
  - destruct Hd as (Hid & H1%nonempty_true & z & Hz & Hpos). rewrite H1, Hz, Hid. cbn.
    replace (0 <? z) with true by lia. unfold normalizeFramePath. rewrite str_or_empty. done.
Qed.

Lemma restorable_id tab : restorable tab -> tab_id tab <> ""%string.
Proof. intros [_ H]. destruct (tab_detail tab); destruct H as (-> & _); done. Qed.

Lemma restore_snapshot_tabs tabs :
  Forall restorable tabs -> omap restorePreviewSnapshotTab (map previewSnapshotTab tabs) = map strip_tab tabs.
Proof. induction 1 as [|tab tabs Ht _ IH]; [done|]. cbn. rewrite restore_snapshot_tab by done. by rewrite IH. Qed.

Definition well_keyed (s : PreviewWorkbenchState) : Prop :=
  NoDup (dkeys (tabsByProjectId s)) /\ NoDup (dkeys (activeTabIdByProjectId s)) /\ NoDup (dkeys (renderedTabIdsByProjectId s)) /\
  ""%string ∉ dkeys (tabsByProjectId s).

Lemma if_any_default {A} (l : list A) : default [] (if_any l) = l.
Proof. by destruct l. Qed.

Lemma restored_project_eq snapshot :
  snap_version snapshot = PREVIEW_WORKBENCH_SNAPSHOT_VERSION ->
  let s' := previewWorkbenchStateFromSnapshot (Some snapshot) in
  activeProjectId s' =
    if nonempty (snap_activeProjectId snapshot) && bool_decide (snap_activeProjectId snapshot ∈ dkeys (tabsByProjectId s'))
    then snap_activeProjectId snapshot else default ""%string (head (dkeys (tabsByProjectId s'))).
Proof. intros Hv. unfold previewWorkbenchStateFromSnapshot. rewrite Hv, Z.eqb_refl. done. Qed.

Section roundtrip.
Context (s : PreviewWorkbenchState) (Hwf : workbench_wf s) (Hkeys : well_keyed s).
Hypothesis Hrest : forall p, Forall restorable (tabs_of s p).
Let snap := previewWorkbenchSnapshotFromState s.
Let s' := previewWorkbenchStateFromSnapshot (Some snap).

Lemma restored_dict p :
  dget (tabsByProjectId s') p = dget (tabsByProjectId s) p ≫= (fun tabs => if_any (map strip_tab tabs)).
Proof.
  destruct Hkeys as (Hk & _ & _ & Hempty). unfold s', snap, previewWorkbenchStateFromSnapshot.
  cbn [previewWorkbenchSnapshotFromState snap_version snap_tabsByProjectId tabsByProjectId Z.eqb negb].
  rewrite Z.eqb_refl. cbn [negb tabsByProjectId]. rewrite (dict_of_keyed_omap _ (tabsByProjectId s)) by done.
  rewrite dict_of_keyed_omap, !dget_keyed_omap by (try apply dkeys_keyed_omap_NoDup; done).
  destruct (dget (tabsByProjectId s) p) as [tabs|] eqn:E; [|done]. cbn.
  destruct (if_any (map previewSnapshotTab tabs)) as [l|] eqn:El; cbn.
  - assert (l = map previewSnapshotTab tabs) as -> by (destruct tabs; [done|by injection El as <-]).
    assert (nonempty p = true) as ->.
    { apply nonempty_true. intros ->. apply Hempty. destruct (decide ("" ∈ dkeys (tabsByProjectId s))%string) as [|H]; [done|].
      by apply dget_None in H; rewrite E in H. }
    rewrite restore_snapshot_tabs; [done|]. specialize (Hrest p). unfold tabs_of in Hrest. by rewrite E in Hrest.
  - by destruct tabs.
Qed.

Lemma restored_tabs p : tabs_of s' p = map strip_tab (tabs_of s p).
Proof.
  unfold tabs_of. rewrite restored_dict. destruct (dget (tabsByProjectId s) p) as [tabs|]; [|done]. apply if_any_default.
Qed.

Lemma restored_available p id :
  match dget (tabsByProjectId s') p with Some l => bool_decide (id ∈ map tab_id l) | None => false end
  = bool_decide (id ∈ ids (tabs_of s p)).
Proof.
  rewrite restored_dict. unfold tabs_of. destruct (dget (tabsByProjectId s) p) as [[|t tabs]|]; [done| |done].
  cbn [mbind option_bind default]. cbn [map if_any]. apply bool_decide_ext. unfold ids.
  change (strip_tab t :: map strip_tab tabs) with (map strip_tab (t :: tabs)). by rewrite map_map.
Qed.

Lemma restored_active p : active_of s' p = active_of s p.
Proof.
  destruct Hkeys as (_ & Hk & _ & _).
  assert (dget (activeTabIdByProjectId s') p = dget (activeTabIdByProjectId s) p ≫=
    (fun id => if match dget (tabsByProjectId s') p with Some l => bool_decide (id ∈ map tab_id l) | None => false end
               then Some id else None)) as H.
  { unfold s' at 1, snap, previewWorkbenchStateFromSnapshot.
    cbn [previewWorkbenchSnapshotFromState snap_version]. rewrite Z.eqb_refl.
    cbn [negb activeTabIdByProjectId snap_activeTabIdByProjectId].
    rewrite dict_of_keyed_omap by done. by rewrite dget_keyed_omap by done. }
  unfold active_of. rewrite H. pose proof (wb_active _ Hwf p) as Ha. unfold active_of in Ha.
  destruct (dget (activeTabIdByProjectId s) p) as [id|]; [|done]. cbn [mbind option_bind].
  change (default ""%string (Some id)) with id in *. rewrite restored_available.
  clear H. destruct Ha as [->|Ha]; [by destruct (bool_decide _)|]. by rewrite bool_decide_true.
Qed.

Lemma restored_rendered p : rendered_of s' p = rendered_of s p.
Proof.
  destruct Hkeys as (_ & _ & Hk & Hempty).
  assert (dget (renderedTabIdsByProjectId s') p = (dget (renderedTabIdsByProjectId s) p ≫= (fun l => if_any (filter_truthy l))) ≫=
    (fun l => if nonempty p then if_any (bfilter (fun id =>
        match dget (tabsByProjectId s') p with Some l => bool_decide (id ∈ map tab_id l) | None => false end) l)
      else None)) as H.
  { unfold s' at 1, snap, previewWorkbenchStateFromSnapshot.
    cbn [previewWorkbenchSnapshotFromState snap_version]. rewrite Z.eqb_refl.
    cbn [negb renderedTabIdsByProjectId previewWorkbenchSnapshotFromState snap_renderedTabIdsByProjectId].
    rewrite (dict_of_keyed_omap _ (renderedTabIdsByProjectId s)) by done.
    by rewrite dict_of_keyed_omap, !dget_keyed_omap by (try apply dkeys_keyed_omap_NoDup; done). }
  unfold rendered_of. rewrite H. pose proof (wb_rendered _ Hwf p) as Hr. unfold rendered_of in Hr.
  destruct (dget (renderedTabIdsByProjectId s) p) as [l|]; [|done]. cbn [mbind option_bind].
  change (default [] (Some l)) with l in *.
  assert (filter_truthy l = l) as ->.
  { apply bfilter_all, Forall_forall. intros id Hid. apply nonempty_true.
    apply Hr, elem_of_map in Hid as (tab & -> & Ht). apply restorable_id.
    pose proof (Hrest p) as Hp. rewrite Forall_forall in Hp. by apply Hp. }
  destruct l as [|id l]; [done|]. cbn [if_any mbind option_bind].
  assert (nonempty p = true) as ->.
  { apply nonempty_true. intros ->. specialize (Hr id ltac:(by left)). unfold tabs_of in Hr.
    apply dget_None in Hempty. rewrite Hempty in Hr. by apply elem_of_nil in Hr. }
  rewrite bfilter_all; [done|]. apply Forall_forall. intros x Hx. rewrite restored_available.
  apply bool_decide_eq_true. by apply Hr.
Qed.

Lemma restored_project : tabs_of s (activeProjectId s) <> [] -> activeProjectId s' = activeProjectId s.
Proof.
  intros Hne. assert (activeProjectId s ∈ dkeys (tabsByProjectId s')) as Hin.
  { destruct (decide (activeProjectId s ∈ dkeys (tabsByProjectId s'))) as [|H]; [done|].
    apply dget_None in H. exfalso. apply Hne. pose proof (restored_tabs (activeProjectId s)) as Ht. unfold tabs_of at 1 in Ht.
    rewrite H in Ht. by destruct (tabs_of s (activeProjectId s)). }
  assert (activeProjectId s <> ""%string) as Hp.
  { intros E. apply Hne. unfold tabs_of. rewrite E. destruct Hkeys as (_ & _ & _ & H). apply dget_None in H. by rewrite H. }
  unfold s'. rewrite restored_project_eq by done. change (snap_activeProjectId snap) with (activeProjectId s).
  apply nonempty_true in Hp. rewrite Hp, bool_decide_true by done. done.
Qed.
End roundtrip.

(** Restart: restoring the persisted snapshot of a consistent workbench gives back
    every project's tabs in order, without their loaded contents and load state, the
    active and the rendered tabs of every project, the tree panel, and the active
    project if it has tabs. *)
Theorem snapshot_roundtrip s :
  workbench_wf s -> well_keyed s -> (forall p, Forall restorable (tabs_of s p)) ->
  let s' := previewWorkbenchStateFromSnapshot (Some (previewWorkbenchSnapshotFromState s)) in
  (forall p, tabs_of s' p = map strip_tab (tabs_of s p)) /\
  (forall p, active_of s' p = active_of s p) /\ (forall p, rendered_of s' p = rendered_of s p) /\
  treeOpen s' = treeOpen s /\
  (tabs_of s (activeProjectId s) <> [] -> activeProjectId s' = activeProjectId s).
Proof.
  intros Hwf Hk Hr s'. split_and!.
  - intros p. by apply restored_tabs.
  - intros p. by apply restored_active.
  - intros p. by apply restored_rendered.
  - done.
  - by apply restored_project.
Qed.

Lemma snapshot_roundtrip_witness :
  let s := openPreviewTab (createPreviewWorkbenchState "p") sample_input in
  let s' := previewWorkbenchStateFromSnapshot (Some (previewWorkbenchSnapshotFromState s)) in
  ids (tabs_of s' "p") = ["file:a.ts"%string] /\ active_of s' "p" = active_of s "p".
Proof.
  intros s s'. split; [reflexivity|]. apply (snapshot_roundtrip s).
  - apply open_wf, create_wf.
  - split_and!; by apply (bool_decide_unpack _).
  - intros p. unfold tabs_of. change (tabsByProjectId s) with [("p"%string, [createTab sample_input])]. cbn [dget].
    destruct (decide ("p"%string = p)); [|constructor]. apply Forall_singleton, created_restorable; [reflexivity|].
    intros path q [= <- <-]. right. vm_compute. done.
Defined.
