(* ===== verification/HubPreferences.v ===== *)
(** [workspace/hubProjectPreferences.ts]: the colours of hubs and the visibility of
    their projects.  Colour arithmetic is on exact rationals, where the source has
    doubles; the hash is on 32-bit words as in the source. *)

From S2P Require Import Prelude.
From Stdlib Require Qabs.
Open Scope Z_scope.

Inductive HubVisibilityState := Checked | Mixed | Unchecked.
#[export] Instance HubVisibilityState_eq_dec : EqDecision HubVisibilityState.
Proof. solve_decision. Defined.

(** What the helpers read of a project. *)
Class HubProject (T : Type) := project_id : T -> string.

Record HubColorHsv := { hsv_h : num; hsv_s : num; hsv_v : num }.

Definition HUB_COLOR_PRESETS : list string :=
  ["#00a6a6"; "#2f9e44"; "#bc6c25"; "#4f86c6"; "#c879ff"; "#ff6b6b"; "#f9c74f"; "#7b6cb8"; "#038c7f"; "#d9480f"]%string.

Definition HUB_DEFAULT_COLORS : list string :=
  ["#00a6a6"; "#2f9e44"; "#bc6c25"; "#4f86c6"; "#c879ff"; "#d9480f"; "#038c7f"; "#7b6cb8"]%string.

Definition is_hex_digit (c : ascii) : bool := match digit_value 16 c with Some _ => true | None => false end.

(** [/^#[0-9a-f]{6}$/i]. *)
Definition HUB_COLOR_PATTERN (s : string) : bool :=
  match chars s with
  | c :: l => Ascii.eqb c "#" && Nat.eqb (length l) 6 && forallb is_hex_digit l
  | [] => false
  end.

Definition Qmin (a b : Q) : Q := if Qle_bool a b then a else b.
Definition Qmax (a b : Q) : Q := if Qle_bool a b then b else a.

Definition clampNumber (v : num) (mn mx : Q) : Q :=
  match v with Fin q => Qmax mn (Qmin mx q) | _ => mn end.

Definition roundHundredth (v : Q) : Q := round (v * 100) # 100.

Definition hex_lower (z : Z) : ascii := ascii_of_nat (Z.to_nat (if z <? 10 then 48 + z else 87 + z)).
(** [n.toString(16).padStart(2, '0')] of an integer from 0 to 255. *)
Definition hex2 (z : Z) : string := String (hex_lower (z / 16)) (String (hex_lower (z mod 16)) "").

Definition componentToHex (v : Q) : string := hex2 (round (clampNumber (Fin v) 0 255)).

Definition sanitizeStringList (v : value) : list string :=
  match v with
  | VArr items => unique (omap (fun item => match item with VStr s => if nonempty s then Some s else None | _ => None end) items)
  | _ => []
  end.

Definition sanitizeHubColor (v : value) : string :=
  match v with VStr s => if HUB_COLOR_PATTERN s then toLowerCase s else "" | _ => "" end.

(** [a % b] of doubles. *)
Definition fmod (a b : Q) : Q := a - inject_Z (trunc (a / b)) * b.

Definition hubHsvToColor (v : HubColorHsv) : string :=
  let hue := fmod (fmod (clampNumber (hsv_h v) 0 360) 360 + 360) 360 in
  let saturation := clampNumber (hsv_s v) 0 1 in
  let brightness := clampNumber (hsv_v v) 0 1 in
  let chroma := (brightness * saturation)%Q in
  let x := (chroma * (1 - Qabs.Qabs (fmod (hue / 60) 2 - 1)))%Q in
  let m := (brightness - chroma)%Q in
  let lt b := negb (Qle_bool b hue) in
  let '(red, green, blue) :=
    if lt 60%Q then (chroma, x, 0%Q)
    else if lt 120%Q then (x, chroma, 0%Q)
    else if lt 180%Q then (0%Q, chroma, x)
    else if lt 240%Q then (0%Q, x, chroma)
    else if lt 300%Q then (x, 0%Q, chroma)
    else (chroma, 0%Q, x) in
  "#" +:+ componentToHex ((red + m) * 255) +:+ componentToHex ((green + m) * 255) +:+ componentToHex ((blue + m) * 255).

(** [parseInt(s.slice(a, b), 16)] of hexadecimal digits. *)
Definition hex_slice (a b : nat) (s : string) : Q :=
  inject_Z (digits 16 (chars (slice a b s)) 0 0).1.1.

Definition hubColorToHsv (color : string) : HubColorHsv :=
  let sanitized := sanitizeHubColor (VStr color) in
  if negb (nonempty sanitized) then {| hsv_h := of_Z 0; hsv_s := of_Z 0; hsv_v := of_Z 0 |} else
  let red := (hex_slice 1 3 sanitized / 255)%Q in
  let green := (hex_slice 3 5 sanitized / 255)%Q in
  let blue := (hex_slice 5 7 sanitized / 255)%Q in
  let mx := Qmax (Qmax red green) blue in
  let mn := Qmin (Qmin red green) blue in
  let delta := (mx - mn)%Q in
  let hue :=
    if negb (Qle_bool delta 0) then
      if Qeq_bool mx red then (60 * fmod ((green - blue) / delta) 6)%Q
      else if Qeq_bool mx green then (60 * ((blue - red) / delta + 2))%Q
      else (60 * ((red - green) / delta + 4))%Q
    else 0%Q in
  let hue := if negb (Qle_bool 0 hue) then (hue + 360)%Q else hue in
  {| hsv_h := of_Z (round hue);
     hsv_s := Fin (if Qeq_bool mx 0 then 0 else roundHundredth (delta / mx));
     hsv_v := Fin (roundHundredth mx) |}.

(** [((hash * 31) + code) >>> 0]. *)
Definition hash_step (hash : Z) (c : ascii) : Z := (hash * 31 + Z.of_nat (nat_of_ascii c)) mod 2 ^ 32.

Definition resolveHubColorVariantIndex (hubId : string) : Z :=
  let normalized := toLowerCase (trim hubId) in
  foldl hash_step 0 (chars normalized) mod Z.of_nat (length HUB_DEFAULT_COLORS).

Definition resolveDefaultHubColor (hubId : string) : string :=
  default "#00a6a6"%string (HUB_DEFAULT_COLORS !! Z.to_nat (resolveHubColorVariantIndex hubId)).

Definition resolveHubColor (hubColors : list (string * value)) (hubId : string) : string :=
  str_or (sanitizeHubColor (prop hubColors hubId)) (resolveDefaultHubColor hubId).

Definition collectHubColor (next : list (string * string)) (e : string * value) : list (string * string) :=
  let '(hubId, color) := e in
  if negb (nonempty hubId) then next else
  let sanitized := sanitizeHubColor color in
  if nonempty sanitized then dset next hubId sanitized else next.

Definition sanitizeHubColorMap (v : value) : list (string * string) :=
  match v with VObj props => foldl collectHubColor [] props | _ => [] end.

(** The map as the object it is. *)
Definition color_object (m : list (string * string)) : value := VObj (map (fun e => (e.1, VStr e.2)) m).

Definition setHubColorPreference (current : list (string * string)) (hubId color : string) : list (string * string) :=
  if negb (nonempty hubId) then current else
  let next := sanitizeHubColorMap (color_object current) in
  let sanitized := sanitizeHubColor (VStr color) in
  if negb (nonempty sanitized) then ddelete next hubId else dset next hubId sanitized.

Section visibility.
Context {T : Type} `{!HubProject T}.
Implicit Types (projects hubProjects : list T) (hidden : list string).

Definition splitProjectsByVisibility (projects : list T) (hiddenProjectIds : list string) : list T * list T :=
  foldl (fun acc project =>
    if bool_decide (project_id project ∈ hiddenProjectIds) then (acc.1, acc.2 ++ [project])
    else (acc.1 ++ [project], acc.2)) ([], []) projects.

(** [sanitizeStringList] of an array of strings. *)
Definition sanitizeIds (ids : list string) : list string := sanitizeStringList (VArr (map VStr ids)).

Definition toggleProjectVisibility (currentHiddenProjectIds : list string) (projectId : string) (visible : bool)
    : list string :=
  if negb (nonempty projectId) then currentHiddenProjectIds else
  let current := sanitizeIds currentHiddenProjectIds in
  if visible then bfilter (fun item => negb (bool_decide (item = projectId))) current
  else if bool_decide (projectId ∈ current) then current else current ++ [projectId].

Definition toggleHubVisibility (currentHiddenProjectIds : list string) (hubProjects : list T) (visible : bool)
    : list string :=
  let projectIds := filter_truthy (map project_id hubProjects) in
  match projectIds with
  | [] => sanitizeIds currentHiddenProjectIds
  | _ =>
      let current := sanitizeIds currentHiddenProjectIds in
      if visible then bfilter (fun projectId => negb (bool_decide (projectId ∈ projectIds))) current
      else foldl (fun next projectId => if bool_decide (projectId ∈ next) then next else next ++ [projectId])
             current projectIds
  end.

Definition resolveHubVisibilityState (hubProjects : list T) (hiddenProjectIds : list string) : HubVisibilityState :=
  match hubProjects with
  | [] => Checked
  | _ =>
      let hiddenCount := foldl (fun count project =>
        (count + if bool_decide (project_id project ∈ hiddenProjectIds) then 1 else 0)%nat) 0%nat hubProjects in
      if Nat.eqb hiddenCount 0 then Checked
      else if Nat.eqb hiddenCount (length hubProjects) then Unchecked else Mixed
  end.

(** The [for] loop of [findNextVisibleProject] from [offset], [n] iterations left. *)
Fixpoint nextVisibleFrom (projects : list T) (hiddenProjectIds : list string) (startIndex offset n : nat) : option T :=
  match n with
  | O => None
  | S n' =>
      let index := Nat.modulo (startIndex + offset) (length projects) in
      match projects !! index with
      | Some project =>
          if negb (bool_decide (project_id project ∈ hiddenProjectIds)) then Some project
          else nextVisibleFrom projects hiddenProjectIds startIndex (S offset) n'
      | None => nextVisibleFrom projects hiddenProjectIds startIndex (S offset) n'
      end
  end.

Definition findNextVisibleProject (projects : list T) (hiddenProjectIds : list string) (currentProjectId : string)
    : option T :=
  let visibleProjects := bfilter (fun project => negb (bool_decide (project_id project ∈ hiddenProjectIds))) projects in
  match visibleProjects with
  | [] => None
  | _ =>
      let startIndex := match findIndex (fun project => bool_decide (project_id project = currentProjectId)) projects with
                        | Some currentIndex => S currentIndex | None => 0%nat end in
      nextVisibleFrom projects hiddenProjectIds startIndex 0 (length projects)
  end.
End visibility.

(** * Colours are always well formed *)

Lemma clampNumber_range v mn mx : (mn <= mx)%Q -> (mn <= clampNumber v mn mx <= mx)%Q.
Proof.
  intros H. destruct v as [| | |q]; cbn; [split; [apply Qle_refl|done]..|]. unfold Qmin, Qmax.
  destruct (Qle_bool mx q) eqn:E1.
  - destruct (Qle_bool mn mx) eqn:E2; [split; [done|apply Qle_refl]|split; [apply Qle_refl|done]].
  - destruct (Qle_bool mn q) eqn:E2; [|split; [apply Qle_refl|done]].
    apply Qle_bool_iff in E2. split; [done|]. apply Qnot_lt_le. intros Hlt.
    assert (Qle_bool mx q = true); [apply Qle_bool_iff; by apply Qlt_le_weak|congruence].
Qed.

Lemma round_range q n : 0 <= n -> (0 <= q <= inject_Z n)%Q -> 0 <= round q <= n.
Proof.
  intros Hn [H1 H2]. unfold Qle in H1, H2; simpl in H1, H2. unfold round. split.
  - apply Z.div_pos; lia.
  - apply Z.lt_succ_r. apply Z.div_lt_upper_bound; [lia|]. nia.
Qed.

Lemma hex2_digits z : 0 <= z <= 255 ->
  forallb is_hex_digit (chars (hex2 z)) = true /\ map lower_ascii (chars (hex2 z)) = chars (hex2 z) /\ length (chars (hex2 z)) = 2%nat.
Proof.
  intros Hz.
  assert (forallb (fun z => forallb is_hex_digit (chars (hex2 z)) &&
    bool_decide (map lower_ascii (chars (hex2 z)) = chars (hex2 z))) (seqZ 0 256) = true) as H by (vm_compute; reflexivity).
  rewrite forallb_forall in H. specialize (H z). rewrite <- list_elem_of_In, elem_of_seqZ in H.
  specialize (H ltac:(lia)). apply andb_true_iff in H as [H1 H2]. breflect. done.
Qed.

Lemma componentToHex_digits q :
  forallb is_hex_digit (chars (componentToHex q)) = true /\
  map lower_ascii (chars (componentToHex q)) = chars (componentToHex q) /\ length (chars (componentToHex q)) = 2%nat.
Proof.
  apply hex2_digits, (round_range _ 255); [done|]. by apply clampNumber_range.
Qed.

(** A colour the application can use: [sanitizeHubColor] accepts it as it is. *)
Definition valid_color (c : string) : Prop := c <> ""%string /\ sanitizeHubColor (VStr c) = c.

Lemma hex_color_valid a b c :
  valid_color ("#" +:+ componentToHex a +:+ componentToHex b +:+ componentToHex c).
Proof.
  split; [done|]. unfold sanitizeHubColor, HUB_COLOR_PATTERN, toLowerCase.
  rewrite !chars_app. change (chars "#") with ["#"%char]. cbn [app].
  destruct (componentToHex_digits a) as (Ha1 & Ha2 & Ha3), (componentToHex_digits b) as (Hb1 & Hb2 & Hb3),
    (componentToHex_digits c) as (Hc1 & Hc2 & Hc3).
  rewrite !length_app, !forallb_app, Ha1, Hb1, Hc1, Ha3, Hb3, Hc3. cbn [map].
  rewrite !map_app, Ha2, Hb2, Hc2. cbn [andb Nat.add Nat.eqb]. rewrite Ascii.eqb_refl. cbn [andb].
  apply chars_inj. rewrite chars_unchars, !chars_app. done.
Qed.

Lemma hubHsvToColor_valid v : valid_color (hubHsvToColor v).
Proof.
  unfold hubHsvToColor. cbv zeta. repeat case_match; apply hex_color_valid.
Qed.

Lemma default_color_valid hubId : valid_color (resolveDefaultHubColor hubId).
Proof.
  unfold resolveDefaultHubColor. destruct (HUB_DEFAULT_COLORS !! _) as [c|] eqn:E; [|by vm_compute].
  apply list_elem_of_lookup_2 in E. unfold HUB_DEFAULT_COLORS in E. rewrite !elem_of_cons in E.
  repeat (destruct E as [->|E]; [by vm_compute|]). by apply elem_of_nil in E.
Qed.

Lemma lower_lower c : lower_ascii (lower_ascii c) = lower_ascii c.
Proof. destruct c as [[] [] [] [] [] [] [] []]; reflexivity. Qed.

Lemma lower_hex c : is_hex_digit c = true -> is_hex_digit (lower_ascii c) = true.
Proof. destruct c as [[] [] [] [] [] [] [] []]; intros H; vm_compute in H |- *; done. Qed.

Lemma sanitize_valid v : sanitizeHubColor v <> ""%string -> valid_color (sanitizeHubColor v).
Proof.
  intros Hne. split; [done|]. destruct v; try done. unfold sanitizeHubColor in *.
  destruct (HUB_COLOR_PATTERN s) eqn:E; [|done]. clear Hne. unfold HUB_COLOR_PATTERN, toLowerCase in *.
  rewrite chars_unchars. destruct (chars s) as [|c l]; [done|]. apply andb_true_iff in E as [[E1 E2]%andb_true_iff E3].
  apply Ascii.eqb_eq in E1 as ->. cbn [map]. change (lower_ascii "#") with "#"%char. rewrite length_map, E2, Ascii.eqb_refl.
  assert (forallb is_hex_digit (map lower_ascii l) = true) as ->.
  { clear E2. induction l as [|c l IH]; [done|]. cbn in *. apply andb_true_iff in E3 as [H1 H2].
    rewrite lower_hex by done. auto. }
  cbn [andb]. change (lower_ascii "#") with "#"%char. rewrite map_map. do 2 f_equal. apply map_ext. apply lower_lower.
Qed.

(** Hub colours are always usable: whatever the stored preferences hold, the
    colour resolved for a hub, and the colour made from any hue, saturation and
    brightness (not-a-number and out-of-range ones included), is a "#rrggbb" that
    [sanitizeHubColor] keeps as it is. *)
Theorem hub_color_valid hubColors hubId v :
  valid_color (resolveHubColor hubColors hubId) /\ valid_color (hubHsvToColor v) /\
  (0 <= resolveHubColorVariantIndex hubId < Z.of_nat (length HUB_DEFAULT_COLORS)).
Proof.
  split_and!; [|apply hubHsvToColor_valid|by apply Z.mod_pos_bound..]. unfold resolveHubColor, str_or.
  destruct (nonempty _) eqn:E; [|apply default_color_valid]. apply nonempty_true in E. by apply sanitize_valid.
Qed.

(** * Visibility *)

Section visibility_facts.
Context {T : Type} `{!HubProject T}.
Implicit Types (projects hubProjects : list T) (hidden : list string).

Lemma elem_of_sanitizeIds hidden x : x ∈ sanitizeIds hidden <-> x ∈ hidden /\ x <> ""%string.
Proof.
  unfold sanitizeIds, sanitizeStringList. rewrite elem_of_unique, list_elem_of_omap. split.
  - intros (v & (s & -> & Hs)%elem_of_map & H). destruct (nonempty s) eqn:E; [|done]. apply nonempty_true in E. by simplify_eq.
  - intros [Hx Hne%nonempty_true]. exists (VStr x). split; [apply elem_of_map; eauto|]. by rewrite Hne.
Qed.

Lemma NoDup_sanitizeIds hidden : NoDup (sanitizeIds hidden).
Proof. apply NoDup_unique. Qed.

Lemma push_missing ids (l : list string) :
  NoDup l ->
  let r := foldl (fun next x => if bool_decide (x ∈ next) then next else next ++ [x]) l ids in
  NoDup r /\ forall x, x ∈ r <-> x ∈ l \/ x ∈ ids.
Proof.
  revert l; induction ids as [|i ids IH]; intros l Hl; simpl; [split; [done|set_solver]|].
  case_bool_decide as Hi.
  - destruct (IH l Hl) as [H1 H2]. split; [done|]. intros x. rewrite H2, elem_of_cons.
    split; [tauto|]. intros [?|[->|?]]; tauto.
  - destruct (IH (l ++ [i])) as [H1 H2].
    { apply NoDup_app. split_and!; [done| |apply NoDup_singleton]. intros x Hx ->%list_elem_of_singleton. done. }
    split; [done|]. intros x. rewrite H2, elem_of_app, list_elem_of_singleton, elem_of_cons. tauto.
Qed.

Lemma elem_of_projectIds hubProjects x :
  x ∈ filter_truthy (map project_id hubProjects) <-> x <> ""%string /\ exists p, p ∈ hubProjects /\ project_id p = x.
Proof.
  unfold filter_truthy. rewrite elem_of_bfilter, elem_of_map, nonempty_true. naive_solver.
Qed.

Lemma elem_of_toggleHub hidden hubProjects visible x :
  x ∈ toggleHubVisibility hidden hubProjects visible <->
  x <> ""%string /\
  (if visible then x ∈ hidden /\ ~ exists p, p ∈ hubProjects /\ project_id p = x
   else x ∈ hidden \/ exists p, p ∈ hubProjects /\ project_id p = x).
Proof.
  pose proof (elem_of_projectIds hubProjects x) as Hp. unfold toggleHubVisibility.
  destruct (filter_truthy (map project_id hubProjects)) as [|i l] eqn:E.
  - rewrite elem_of_sanitizeIds. rewrite elem_of_nil in Hp. destruct visible; naive_solver.
  - rewrite <- E in *. destruct visible.
    + rewrite elem_of_bfilter, elem_of_sanitizeIds, negb_true_iff, bool_decide_eq_false, Hp. naive_solver.
    + rewrite (proj2 (push_missing _ _ (NoDup_sanitizeIds hidden)) x), elem_of_sanitizeIds, Hp. naive_solver.
Qed.

Lemma NoDup_toggleHub hidden hubProjects visible : NoDup (toggleHubVisibility hidden hubProjects visible).
Proof.
  unfold toggleHubVisibility. destruct (filter_truthy _) eqn:E; [apply NoDup_sanitizeIds|]. rewrite <- E.
  destruct visible; [apply NoDup_bfilter, NoDup_sanitizeIds|]. apply push_missing, NoDup_sanitizeIds.
Qed.

Lemma hiddenCount_spec hidden hubProjects n :
  foldl (fun count project => (count + if bool_decide (project_id project ∈ hidden) then 1 else 0)%nat) n hubProjects =
  (n + length (bfilter (fun p => bool_decide (project_id p ∈ hidden)) hubProjects))%nat.
Proof.
  revert n; induction hubProjects as [|p l IH]; intros n; simpl; [lia|]. rewrite IH. destruct (bool_decide _); simpl; lia.
Qed.

Lemma visibility_all hidden hubProjects b :
  hubProjects <> [] -> Forall (fun p => bool_decide (project_id p ∈ hidden) = b) hubProjects ->
  resolveHubVisibilityState hubProjects hidden = if b then Unchecked else Checked.
Proof.
  intros Hne Hall. unfold resolveHubVisibilityState. rewrite hiddenCount_spec.
  destruct hubProjects as [|p l]; [done|]. destruct b.
  - rewrite bfilter_all by done. simpl. by rewrite Nat.eqb_refl.
  - by rewrite bfilter_none by done.
Qed.

Lemma nextVisibleFrom_spec projects hidden start offset n :
  match nextVisibleFrom projects hidden start offset n with
  | Some p => exists k, (offset <= k < offset + n)%nat /\ projects !! Nat.modulo (start + k) (length projects) = Some p /\
      project_id p ∉ hidden /\
      forall j q, (offset <= j < k)%nat -> projects !! Nat.modulo (start + j) (length projects) = Some q -> project_id q ∈ hidden
  | None => forall j q, (offset <= j < offset + n)%nat ->
      projects !! Nat.modulo (start + j) (length projects) = Some q -> project_id q ∈ hidden
  end.
Proof.
  revert offset; induction n as [|n IH]; intros offset; cbn [nextVisibleFrom]; [intros j q; lia|].
  destruct (projects !! Nat.modulo (start + offset) (length projects)) as [p|] eqn:E.
  - case_bool_decide as Hp; cbn [negb].
    + specialize (IH (S offset)). destruct (nextVisibleFrom _ _ _ _ _) as [r|].
      * destruct IH as (k & Hk & H1 & H2 & H3). exists k. split_and!; [lia|lia|done|done|].
        intros j q Hj Hq. destruct (decide (j = offset)) as [->|]; [congruence|apply (H3 j); [lia|done]].
      * intros j q Hj Hq. destruct (decide (j = offset)) as [->|]; [congruence|apply (IH j); [lia|done]].
    + exists offset. split_and!; [lia|lia|done|done|]. intros j q. lia.
  - specialize (IH (S offset)). destruct (nextVisibleFrom _ _ _ _ _) as [r|].
    + destruct IH as (k & Hk & H1 & H2 & H3). exists k. split_and!; [lia|lia|done|done|].
      intros j q Hj Hq. destruct (decide (j = offset)) as [->|]; [congruence|apply (H3 j); [lia|done]].
    + intros j q Hj Hq. destruct (decide (j = offset)) as [->|]; [congruence|apply (IH j); [lia|done]].
Qed.
End visibility_facts.

(** Toggling a hub: showing or hiding all projects of a hub leaves it "checked" or
    "unchecked" accordingly, changes nothing for the projects of other hubs, and the
    hidden list stays without repetitions. *)
Theorem hub_toggle_spec {T} `{!HubProject T} hidden (hubProjects : list T) visible :
  hubProjects <> [] -> Forall (fun p => project_id p <> ""%string) hubProjects ->
  let hidden' := toggleHubVisibility hidden hubProjects visible in
  resolveHubVisibilityState hubProjects hidden' = (if visible then Checked else Unchecked) /\
  (forall x, x <> ""%string -> (forall p, p ∈ hubProjects -> project_id p <> x) -> x ∈ hidden' <-> x ∈ hidden) /\
  NoDup hidden'.
Proof.
  intros Hne Hids hidden'. split_and!; [|intros x Hx Hp|apply NoDup_toggleHub].
  - rewrite (visibility_all hidden' hubProjects (negb visible)); [by destruct visible|done|].
    rewrite Forall_forall in Hids |- *. intros p Hp. specialize (Hids p Hp). unfold hidden'. destruct visible; cbn [negb].
    + apply bool_decide_eq_false. rewrite elem_of_toggleHub. naive_solver.
    + apply bool_decide_eq_true, elem_of_toggleHub. naive_solver.
  - unfold hidden'. rewrite elem_of_toggleHub. destruct visible; naive_solver.
Qed.

#[export] Instance string_project : HubProject string := fun s => s.

Lemma hub_toggle_spec_witness :
  resolveHubVisibilityState ["a"; "b"]%string (toggleHubVisibility ["x"; ""; "b"]%string ["a"; "b"]%string false) = Unchecked.
Proof. by apply (hub_toggle_spec ["x"; ""; "b"]%string ["a"; "b"]%string false); [|repeat constructor]. Defined.

(** The next visible project is the first one after the current project, going
    round, that is not hidden; there is none only when every project is hidden. *)
Theorem next_visible_spec {T} `{!HubProject T} (projects : list T) hidden current :
  let start := match findIndex (fun p => bool_decide (project_id p = current)) projects with
               | Some i => S i | None => 0%nat end in
  match findNextVisibleProject projects hidden current with
  | Some p => p ∈ projects /\ project_id p ∉ hidden /\
      exists k, (k < length projects)%nat /\ projects !! Nat.modulo (start + k) (length projects) = Some p /\
        forall j q, (j < k)%nat -> projects !! Nat.modulo (start + j) (length projects) = Some q -> project_id q ∈ hidden
  | None => forall p, p ∈ projects -> project_id p ∈ hidden
  end.
Proof.
  intros start. unfold findNextVisibleProject. fold start.
  destruct (bfilter _ projects) as [|v vs] eqn:E.
  - intros p Hp. destruct (decide (project_id p ∈ hidden)) as [|Hn]; [done|]. exfalso.
    assert (p ∈ @nil T) as Hin by (rewrite <- E; apply elem_of_bfilter; split; [done|by apply negb_true_iff, bool_decide_eq_false]).
    by apply elem_of_nil in Hin.
  - pose proof (nextVisibleFrom_spec projects hidden start 0 (length projects)) as H.
    destruct (nextVisibleFrom _ _ _ _ _) as [p|].
    + destruct H as (k & Hk & H1 & H2 & H3). split_and!; [by eapply list_elem_of_lookup_2|done|].
      exists k. split_and!; [lia|done|]. intros j q Hj. apply H3. lia.
    + intros p [i Hi]%list_elem_of_lookup. pose proof (lookup_lt_Some _ _ _ Hi) as Hlt.
      set (n := length projects) in *. set (j := Nat.modulo (i + (n - Nat.modulo start n)) n).
      assert (j < n)%nat by (apply Nat.mod_upper_bound; lia).
      apply (H j); [lia|]. rewrite <- Hi. f_equal. unfold j.
      rewrite Nat.Div0.add_mod_idemp_r. rewrite <- Nat.Div0.add_mod_idemp_l.
      pose proof (Nat.mod_upper_bound start n ltac:(lia)).
      replace (start mod n + (i + (n - start mod n)))%nat with (i + 1 * n)%nat by lia.
      rewrite Nat.Div0.mod_add. by apply Nat.mod_small.
Qed.
