(* ===== verification/WorkspaceUi.v ===== *)
(** [shell/state/workspaceUiState.ts] and [preferences/floatingControlPreferences.ts]:
    the state of the workspace shell and its reducer.  The reducer sanitises what an
    action carries, so a payload is any value, or a function of the current one. *)

From S2P Require Import Prelude HubPreferences.
Open Scope Z_scope.

Inductive PersistedTab := TabChat | TabFile | TabGit.
Inductive PersistedFloatingControlSide := SideLeft | SideRight.
Inductive LayoutMode := Desktop | Mobile.
#[export] Instance LayoutMode_eq_dec : EqDecision LayoutMode.
Proof. solve_decision. Defined.

(** [T | ((current: T) => T)], the result still to be sanitised. *)
Inductive WorkspaceUiStateValue (T R : Type) :=
  | Next (next : R)
  | Update (f : T -> R).
Arguments Next {T R}.
Arguments Update {T R}.

Definition DESKTOP_SIDEBAR_WIDTH_MIN : Z := 320.
Definition DESKTOP_SIDEBAR_WIDTH_DEFAULT : Z := 380.
Definition DESKTOP_SIDEBAR_WIDTH_MAX : Z := 560.

Record WorkspaceFloatingDragState := {
  drag_active : bool; drag_pressing : bool; pointerId : num; originX : num; originY : num;
  startSide : PersistedFloatingControlSide; currentX : num; startTop : num; currentTop : num;
  cooldownUntil : num
}.

Record SharedUi := {
  ui_tab : PersistedTab; settingsOpen : bool;
  collapsedProjectIds : list string; pinnedProjectIds : list string;
  hiddenProjectIds : list string; expandedHubIds : list string;
  hubColors : list (string * string)
}.
Record DesktopUi := { sidebarCollapsed : bool; sidebarWidth : Z }.
Record MobileUi := {
  drawerOpen : bool; floatingControlYRatio : Q;
  floatingControlSide : PersistedFloatingControlSide; chatConfigOverflowOpen : bool
}.
Record TransientUi := {
  chatKeyboardInset : Z; floatingKeyboardOffset : Z; floatingDragState : option WorkspaceFloatingDragState
}.
Record WorkspaceUiState := { shared : SharedUi; desktop : DesktopUi; mobile : MobileUi; transient : TransientUi }.

Record WorkspaceUiStateInput := {
  in_tab : value; in_settingsOpen : value; in_sidebarCollapsed : value; in_desktopSidebarWidth : value;
  in_collapsedProjectIds : value; in_desktopCollapsedProjectIds : value; in_pinnedProjectIds : value;
  in_hiddenProjectIds : value; in_expandedHubIds : value; in_hubColors : value; in_drawerOpen : value;
  in_floatingControlYRatio : value; in_floatingControlSide : value; in_chatConfigOverflowOpen : value;
  in_chatKeyboardInset : value; in_floatingKeyboardOffset : value;
  in_floatingDragState : option WorkspaceFloatingDragState
}.

Inductive WorkspaceUiAction :=
  | SetTab (next : WorkspaceUiStateValue PersistedTab value)
  | SetSettingsOpen (next : WorkspaceUiStateValue bool value)
  | SetCollapsedProjectIds (next : WorkspaceUiStateValue (list string) value)
  | SetPinnedProjectIds (next : WorkspaceUiStateValue (list string) value)
  | SetHiddenProjectIds (next : WorkspaceUiStateValue (list string) value)
  | SetExpandedHubIds (next : WorkspaceUiStateValue (list string) value)
  | SetHubColors (next : WorkspaceUiStateValue (list (string * string)) value)
  | SetSidebarCollapsed (next : WorkspaceUiStateValue bool value)
  | SetSidebarWidth (next : WorkspaceUiStateValue Z value)
  | SetDrawerOpen (next : WorkspaceUiStateValue bool value)
  | SetFloatingControlYRatio (next : WorkspaceUiStateValue Q value)
  | SetFloatingControlSide (next : WorkspaceUiStateValue PersistedFloatingControlSide value)
  | SetChatConfigOverflowOpen (next : WorkspaceUiStateValue bool value)
  | SetChatKeyboardInset (next : WorkspaceUiStateValue Z value)
  | SetFloatingKeyboardOffset (next : WorkspaceUiStateValue Z value)
  | SetFloatingDragState (next : WorkspaceUiStateValue (option WorkspaceFloatingDragState) (option WorkspaceFloatingDragState))
  | ModeChanged (from to : LayoutMode).

Definition resolveNext {T R} (current : T) (next : WorkspaceUiStateValue T R) : R :=
  match next with Next v => v | Update f => f current end.

(** * Preferences of the floating control *)

Definition FLOATING_CONTROL_DEFAULT_Y_RATIO : Q := 25 # 100.

Definition sanitizeFloatingControlYRatio (v : value) (fallback : Q) : Q :=
  let numeric := match v with VNum (Fin q) => q | _ => fallback end in
  Qmin 1 (Qmax 0 numeric).

Definition floatingControlYRatioFromLegacySlot (v : value) : option Q :=
  match v with
  | VStr s => if String.eqb s "upper" then Some 0%Q else if String.eqb s "upper-middle" then Some (25 # 100)%Q
              else if String.eqb s "center" then Some (5 # 10)%Q else if String.eqb s "lower-middle" then Some (75 # 100)%Q
              else if String.eqb s "lower" then Some 1%Q else None
  | _ => None
  end.

(** * Sanitising *)

Definition sanitizeTab (v : value) : PersistedTab :=
  match v with
  | VStr s => if String.eqb s "file" then TabFile else if String.eqb s "git" then TabGit else TabChat
  | _ => TabChat
  end.

Definition sanitizeFloatingControlSide (v : value) : PersistedFloatingControlSide :=
  match v with VStr s => if String.eqb s "left" then SideLeft else SideRight | _ => SideRight end.

Definition sanitizeInset (v : value) : Z :=
  match v with VNum (Fin q) => Z.max 0 (round q) | _ => 0 end.

Definition sanitizeDesktopSidebarWidth (v : value) (fallback : Z) : Z :=
  let numeric := match v with VNum (Fin q) => q | _ => inject_Z fallback end in
  Z.min DESKTOP_SIDEBAR_WIDTH_MAX (Z.max DESKTOP_SIDEBAR_WIDTH_MIN (round numeric)).

(** [typeof v === 'boolean' ? v : false]. *)
Definition boolean_or_false (v : value) : bool := match v with VBool b => b | _ => false end.

Definition resetTransientState : TransientUi :=
  {| chatKeyboardInset := 0; floatingKeyboardOffset := 0; floatingDragState := None |}.

Definition createWorkspaceUiState (input : WorkspaceUiStateInput) : WorkspaceUiState := {|
  shared := {|
    ui_tab := sanitizeTab (in_tab input);
    settingsOpen := boolean_or_false (in_settingsOpen input);
    collapsedProjectIds := sanitizeStringList
      (match in_collapsedProjectIds input with VArr l => VArr l | _ => in_desktopCollapsedProjectIds input end);
    pinnedProjectIds := sanitizeStringList (in_pinnedProjectIds input);
    hiddenProjectIds := sanitizeStringList (in_hiddenProjectIds input);
    expandedHubIds := sanitizeStringList (in_expandedHubIds input);
    hubColors := sanitizeHubColorMap (in_hubColors input) |};
  desktop := {|
    sidebarCollapsed := boolean_or_false (in_sidebarCollapsed input);
    sidebarWidth := sanitizeDesktopSidebarWidth (in_desktopSidebarWidth input) DESKTOP_SIDEBAR_WIDTH_DEFAULT |};
  mobile := {|
    drawerOpen := boolean_or_false (in_drawerOpen input);
    floatingControlYRatio := sanitizeFloatingControlYRatio (in_floatingControlYRatio input) FLOATING_CONTROL_DEFAULT_Y_RATIO;
    floatingControlSide := sanitizeFloatingControlSide (in_floatingControlSide input);
    chatConfigOverflowOpen := boolean_or_false (in_chatConfigOverflowOpen input) |};
  transient := {|
    chatKeyboardInset := sanitizeInset (in_chatKeyboardInset input);
    floatingKeyboardOffset := sanitizeInset (in_floatingKeyboardOffset input);
    floatingDragState := in_floatingDragState input |}
|}.

(** * The reducer *)

Definition with_shared (s : WorkspaceUiState) (x : SharedUi) : WorkspaceUiState :=
  {| shared := x; desktop := desktop s; mobile := mobile s; transient := transient s |}.
Definition with_desktop (s : WorkspaceUiState) (x : DesktopUi) : WorkspaceUiState :=
  {| shared := shared s; desktop := x; mobile := mobile s; transient := transient s |}.
Definition with_mobile (s : WorkspaceUiState) (x : MobileUi) : WorkspaceUiState :=
  {| shared := shared s; desktop := desktop s; mobile := x; transient := transient s |}.
Definition with_transient (s : WorkspaceUiState) (x : TransientUi) : WorkspaceUiState :=
  {| shared := shared s; desktop := desktop s; mobile := mobile s; transient := x |}.

Definition workspaceUiReducer (s : WorkspaceUiState) (action : WorkspaceUiAction) : WorkspaceUiState :=
  let sh := shared s in
  let m := mobile s in
  let t := transient s in
  match action with
  | SetTab next => with_shared s
      {| ui_tab := sanitizeTab (resolveNext (ui_tab sh) next); settingsOpen := settingsOpen sh;
         collapsedProjectIds := collapsedProjectIds sh; pinnedProjectIds := pinnedProjectIds sh;
         hiddenProjectIds := hiddenProjectIds sh; expandedHubIds := expandedHubIds sh; hubColors := hubColors sh |}
  | SetSettingsOpen next => with_shared s
      {| ui_tab := ui_tab sh; settingsOpen := truthy (resolveNext (settingsOpen sh) next);
         collapsedProjectIds := collapsedProjectIds sh; pinnedProjectIds := pinnedProjectIds sh;
         hiddenProjectIds := hiddenProjectIds sh; expandedHubIds := expandedHubIds sh; hubColors := hubColors sh |}
  | SetCollapsedProjectIds next => with_shared s
      {| ui_tab := ui_tab sh; settingsOpen := settingsOpen sh;
         collapsedProjectIds := sanitizeStringList (resolveNext (collapsedProjectIds sh) next);
         pinnedProjectIds := pinnedProjectIds sh; hiddenProjectIds := hiddenProjectIds sh;
         expandedHubIds := expandedHubIds sh; hubColors := hubColors sh |}
  | SetPinnedProjectIds next => with_shared s
      {| ui_tab := ui_tab sh; settingsOpen := settingsOpen sh; collapsedProjectIds := collapsedProjectIds sh;
         pinnedProjectIds := sanitizeStringList (resolveNext (pinnedProjectIds sh) next);
         hiddenProjectIds := hiddenProjectIds sh; expandedHubIds := expandedHubIds sh; hubColors := hubColors sh |}
  | SetHiddenProjectIds next => with_shared s
      {| ui_tab := ui_tab sh; settingsOpen := settingsOpen sh; collapsedProjectIds := collapsedProjectIds sh;
         pinnedProjectIds := pinnedProjectIds sh;
         hiddenProjectIds := sanitizeStringList (resolveNext (hiddenProjectIds sh) next);
         expandedHubIds := expandedHubIds sh; hubColors := hubColors sh |}
  | SetExpandedHubIds next => with_shared s
      {| ui_tab := ui_tab sh; settingsOpen := settingsOpen sh; collapsedProjectIds := collapsedProjectIds sh;
         pinnedProjectIds := pinnedProjectIds sh; hiddenProjectIds := hiddenProjectIds sh;
         expandedHubIds := sanitizeStringList (resolveNext (expandedHubIds sh) next); hubColors := hubColors sh |}
  | SetHubColors next => with_shared s
      {| ui_tab := ui_tab sh; settingsOpen := settingsOpen sh; collapsedProjectIds := collapsedProjectIds sh;
         pinnedProjectIds := pinnedProjectIds sh; hiddenProjectIds := hiddenProjectIds sh;
         expandedHubIds := expandedHubIds sh;
         hubColors := sanitizeHubColorMap (resolveNext (hubColors sh) next) |}
  | SetSidebarCollapsed next => with_desktop s
      {| sidebarCollapsed := truthy (resolveNext (sidebarCollapsed (desktop s)) next);
         sidebarWidth := sidebarWidth (desktop s) |}
  | SetSidebarWidth next => with_desktop s
      {| sidebarCollapsed := sidebarCollapsed (desktop s);
         sidebarWidth := sanitizeDesktopSidebarWidth (resolveNext (sidebarWidth (desktop s)) next)
           (sidebarWidth (desktop s)) |}
  | SetDrawerOpen next => with_mobile s
      {| drawerOpen := truthy (resolveNext (drawerOpen m) next); floatingControlYRatio := floatingControlYRatio m;
         floatingControlSide := floatingControlSide m; chatConfigOverflowOpen := chatConfigOverflowOpen m |}
  | SetFloatingControlYRatio next => with_mobile s
      {| drawerOpen := drawerOpen m;
         floatingControlYRatio := sanitizeFloatingControlYRatio (resolveNext (floatingControlYRatio m) next)
           FLOATING_CONTROL_DEFAULT_Y_RATIO;
         floatingControlSide := floatingControlSide m; chatConfigOverflowOpen := chatConfigOverflowOpen m |}
  | SetFloatingControlSide next => with_mobile s
      {| drawerOpen := drawerOpen m; floatingControlYRatio := floatingControlYRatio m;
         floatingControlSide := sanitizeFloatingControlSide (resolveNext (floatingControlSide m) next);
         chatConfigOverflowOpen := chatConfigOverflowOpen m |}
  | SetChatConfigOverflowOpen next => with_mobile s
      {| drawerOpen := drawerOpen m; floatingControlYRatio := floatingControlYRatio m;
         floatingControlSide := floatingControlSide m;
         chatConfigOverflowOpen := truthy (resolveNext (chatConfigOverflowOpen m) next) |}
  | SetChatKeyboardInset next => with_transient s
      {| chatKeyboardInset := sanitizeInset (resolveNext (chatKeyboardInset t) next);
         floatingKeyboardOffset := floatingKeyboardOffset t; floatingDragState := floatingDragState t |}
  | SetFloatingKeyboardOffset next => with_transient s
      {| chatKeyboardInset := chatKeyboardInset t;
         floatingKeyboardOffset := sanitizeInset (resolveNext (floatingKeyboardOffset t) next);
         floatingDragState := floatingDragState t |}
  | SetFloatingDragState next => with_transient s
      {| chatKeyboardInset := chatKeyboardInset t; floatingKeyboardOffset := floatingKeyboardOffset t;
         floatingDragState := resolveNext (floatingDragState t) next |}
  | ModeChanged from to =>
      if decide (from = to) then s else
      {| shared := sh; desktop := desktop s;
         mobile := {| drawerOpen := false; floatingControlYRatio := floatingControlYRatio m;
                      floatingControlSide := floatingControlSide m; chatConfigOverflowOpen := false |};
         transient := resetTransientState |}
  end.

(** * Well-formed states *)

Definition ids_wf (l : list string) : Prop := NoDup l /\ ""%string ∉ l.
Definition colors_wf (m : list (string * string)) : Prop :=
  NoDup (dkeys m) /\ ""%string ∉ dkeys m /\ Forall (fun e => valid_color e.2) m.

Record ui_wf (s : WorkspaceUiState) : Prop := {
  wf_collapsed : ids_wf (collapsedProjectIds (shared s));
  wf_pinned : ids_wf (pinnedProjectIds (shared s));
  wf_hidden : ids_wf (hiddenProjectIds (shared s));
  wf_expanded : ids_wf (expandedHubIds (shared s));
  wf_colors : colors_wf (hubColors (shared s));
  wf_width : DESKTOP_SIDEBAR_WIDTH_MIN <= sidebarWidth (desktop s) <= DESKTOP_SIDEBAR_WIDTH_MAX;
  wf_ratio : (0 <= floatingControlYRatio (mobile s) <= 1)%Q /\
    Qmin 1 (Qmax 0 (floatingControlYRatio (mobile s))) = floatingControlYRatio (mobile s);
  wf_inset : 0 <= chatKeyboardInset (transient s);
  wf_offset : 0 <= floatingKeyboardOffset (transient s)
}.

Lemma sanitizeStringList_wf v : ids_wf (sanitizeStringList v).
Proof.
  destruct v; try by (split; [constructor|apply not_elem_of_nil]). split; [apply NoDup_unique|].
  unfold sanitizeStringList. rewrite elem_of_unique, list_elem_of_omap. intros (x & _ & E).
  destruct x; try done. destruct (nonempty s) eqn:En; [|done]. simplify_eq.
Qed.

Lemma collectHubColor_wf m e : colors_wf m -> colors_wf (collectHubColor m e).
Proof.
  intros (Hnd & Hne & Hv). destruct e as [k c]. unfold collectHubColor.
  destruct (nonempty k) eqn:Ek; [|done]. destruct (nonempty (sanitizeHubColor c)) eqn:Ec; [|done]. breflect. cbn [negb].
  split_and!; [auto with js| |].
  - rewrite dset_keys. case_decide; [done|]. rewrite not_elem_of_app, list_elem_of_singleton. naive_solver.
  - rewrite Forall_forall in Hv |- *. intros [k' c'] Hin. apply dget_in in Hin; [|auto with js].
    rewrite dget_dset in Hin. case_decide; simplify_eq; [by apply sanitize_valid|]. by apply dget_Some_in, Hv in Hin.
Qed.

Lemma sanitizeHubColorMap_wf v : colors_wf (sanitizeHubColorMap v).
Proof.
  assert (colors_wf []) as H by (split_and!; [constructor|apply not_elem_of_nil|constructor]).
  destruct v; try done. unfold sanitizeHubColorMap. revert H. generalize (@nil (string * string)).
  induction props as [|e props IH]; intros m Hm; simpl; [done|]. by apply IH, collectHubColor_wf.
Qed.

Lemma sanitizeHubColorMap_id m : colors_wf m -> sanitizeHubColorMap (color_object m) = m.
Proof.
  intros (Hnd & Hne & Hv). unfold sanitizeHubColorMap, color_object.
  transitivity (dict_of m); [|by apply dict_of_id]. unfold dict_of. generalize (@nil (string * string)).
  induction m as [|[k c] m IH]; intros acc; simpl; [done|].
  apply NoDup_cons in Hnd as [_ Hnd]. apply Forall_cons in Hv as [[Hc1 Hc2] Hv]. apply not_elem_of_cons in Hne as [Hk Hne].
  simpl in Hc1, Hc2. rewrite IH by done. f_equal. unfold collectHubColor. simpl in Hk.
  rewrite Hc2. apply not_eq_sym, nonempty_true in Hk. apply nonempty_true in Hc1. by rewrite Hk, Hc1.
Qed.

Lemma sanitizeStringList_id l : ids_wf l -> sanitizeStringList (VArr (map VStr l)) = l.
Proof.
  intros [Hnd Hne]. unfold sanitizeStringList. rewrite <- (unique_id l Hnd) at 2. f_equal. clear Hnd.
  induction l as [|x l IH]; cbn; [done|]. apply not_elem_of_cons in Hne as [Hx Hne].
  apply not_eq_sym, nonempty_true in Hx. rewrite Hx. f_equal. by apply IH.
Qed.

Lemma ratio_wf v fb : let r := sanitizeFloatingControlYRatio v fb in (0 <= r <= 1)%Q /\ Qmin 1 (Qmax 0 r) = r.
Proof.
  unfold sanitizeFloatingControlYRatio, Qmin, Qmax. cbv zeta. set (q := match v with VNum (Fin q) => q | _ => fb end).
  clearbody q. destruct (Qle_bool 0 q) eqn:E0; [|by vm_compute].
  destruct (Qle_bool 1 q) eqn:E1; [by vm_compute|]. rewrite E0, E1. split; [|done].
  apply Qle_bool_iff in E0. split; [done|]. apply Qnot_lt_le. intros Hlt%Qlt_le_weak%Qle_bool_iff. congruence.
Qed.

Lemma inset_nonneg v : 0 <= sanitizeInset v.
Proof. unfold sanitizeInset. repeat case_match; lia. Qed.

Lemma width_range v fb :
  DESKTOP_SIDEBAR_WIDTH_MIN <= sanitizeDesktopSidebarWidth v fb <= DESKTOP_SIDEBAR_WIDTH_MAX.
Proof. unfold sanitizeDesktopSidebarWidth, DESKTOP_SIDEBAR_WIDTH_MIN, DESKTOP_SIDEBAR_WIDTH_MAX. lia. Qed.

#[local] Hint Resolve sanitizeStringList_wf sanitizeHubColorMap_wf inset_nonneg width_range ratio_wf : js.

Lemma create_ui_wf input : ui_wf (createWorkspaceUiState input).
Proof. constructor; try apply ratio_wf; simpl; auto with js. Qed.

Lemma reducer_wf s action : ui_wf s -> ui_wf (workspaceUiReducer s action).
Proof.
  intros []. destruct action; simpl; try goal_decide; constructor; simpl; try apply ratio_wf; auto with js lia.
Qed.

(** The preferences that reproduce a state. *)
Definition tab_value (t : PersistedTab) : value :=
  VStr (match t with TabChat => "chat" | TabFile => "file" | TabGit => "git" end).
Definition side_value (s : PersistedFloatingControlSide) : value :=
  VStr (match s with SideLeft => "left" | SideRight => "right" end).
Definition strings (l : list string) : value := VArr (map VStr l).

Definition input_of (s : WorkspaceUiState) : WorkspaceUiStateInput := {|
  in_tab := tab_value (ui_tab (shared s)); in_settingsOpen := VBool (settingsOpen (shared s));
  in_sidebarCollapsed := VBool (sidebarCollapsed (desktop s));
  in_desktopSidebarWidth := VNum (of_Z (sidebarWidth (desktop s)));
  in_collapsedProjectIds := strings (collapsedProjectIds (shared s)); in_desktopCollapsedProjectIds := VUndefined;
  in_pinnedProjectIds := strings (pinnedProjectIds (shared s));
  in_hiddenProjectIds := strings (hiddenProjectIds (shared s));
  in_expandedHubIds := strings (expandedHubIds (shared s)); in_hubColors := color_object (hubColors (shared s));
  in_drawerOpen := VBool (drawerOpen (mobile s));
  in_floatingControlYRatio := VNum (Fin (floatingControlYRatio (mobile s)));
  in_floatingControlSide := side_value (floatingControlSide (mobile s));
  in_chatConfigOverflowOpen := VBool (chatConfigOverflowOpen (mobile s));
  in_chatKeyboardInset := VNum (of_Z (chatKeyboardInset (transient s)));
  in_floatingKeyboardOffset := VNum (of_Z (floatingKeyboardOffset (transient s)));
  in_floatingDragState := floatingDragState (transient s)
|}.

Lemma sanitizeInset_id z : 0 <= z -> sanitizeInset (VNum (of_Z z)) = z.
Proof. intros H. unfold sanitizeInset, of_Z. rewrite round_inject. lia. Qed.

Lemma width_id z fb :
  DESKTOP_SIDEBAR_WIDTH_MIN <= z <= DESKTOP_SIDEBAR_WIDTH_MAX -> sanitizeDesktopSidebarWidth (VNum (of_Z z)) fb = z.
Proof. intros H. unfold sanitizeDesktopSidebarWidth, of_Z. rewrite round_inject. lia. Qed.

Lemma create_input_of s : ui_wf s -> createWorkspaceUiState (input_of s) = s.
Proof.
  intros []. destruct s as [[tab so co pi hi ex col] [sc w] [dr r sd cc] [ki fo dg]]. simpl in *.
  unfold createWorkspaceUiState, input_of; cbn -[sanitizeStringList sanitizeHubColorMap sanitizeInset of_Z
    sanitizeDesktopSidebarWidth sanitizeFloatingControlYRatio DESKTOP_SIDEBAR_WIDTH_DEFAULT].
  change (sanitizeFloatingControlYRatio (VNum (Fin r)) FLOATING_CONTROL_DEFAULT_Y_RATIO) with (Qmin 1 (Qmax 0 r)).
  unfold strings; rewrite !sanitizeStringList_id, sanitizeHubColorMap_id, !sanitizeInset_id, width_id, (proj2 wf_ratio0) by done.
  destruct tab, sd; reflexivity.
Qed.

(** The shell state is always well formed: from any persisted preferences and after
    any sequence of actions, whatever they carry, the sidebar is between its bounds, the
    floating control on screen, the keyboard insets not negative, the project and hub
    lists without repetitions or empty identifiers and every hub colour usable; so
    reloading the state from its own values gives it back exactly. *)
Theorem ui_state_wellformed input actions :
  let s := foldl workspaceUiReducer (createWorkspaceUiState input) actions in
  ui_wf s /\ createWorkspaceUiState (input_of s) = s.
Proof.
  intros s. assert (ui_wf s) as H; [|auto using create_input_of]. subst s.
  generalize (create_ui_wf input). generalize (createWorkspaceUiState input).
  induction actions as [|a l IH]; intros s Hs; simpl; [done|]. by apply IH, reducer_wf.
Qed.
