(* ===== verification/RegistryClient.v ===== *)
(** [registry/RegistryClient.ts]: requests and responses over one WebSocket.

    The client's fields and what it registers with the runtime (sockets, timers, abort
    listeners) form one [world]; promises settled, frames sent and listeners called are
    the [trace].  A caller's operation is a function on worlds, and so is each event the
    runtime delivers (a timer, a socket event, an abort); the runtime runs them one after
    the other.  Listeners are called at the end of an operation, so what they call back
    is a later operation.  The optional debug sink only observes and is left out. *)

From S2P Require Import Prelude Json.
Open Scope Z_scope.

(** * Data *)

(** An error given to [reject]. *)
Inductive reason :=
  | AbortError
  | PlainError (message : string)
  | RegistryRequestError (message : string) (code : option string) (details : value).

Inductive outcome := Resolved (envelope : value) | Rejected (why : reason).

(** [resolve] and [reject] of a pending request are those of the promise of its key. *)
Record PendingRequest := { req_timer : Z; abort_signal : option Z }.

Inductive ReadyState := CONNECTING | OPEN | CLOSING | CLOSED.
#[export] Instance ReadyState_eq_dec : EqDecision ReadyState.
Proof. solve_decision. Defined.

(** A WebSocket with the closure of the [connect] that opened it; [bound] once [bind]
    has replaced its handlers. *)
Record Connection := {
  conn_url : string; ready : ReadyState; settled : bool; sawErrorEvent : bool; connectTimer : Z; bound : bool
}.

Inductive callback :=
  | RequestTimeout (requestId timeoutMs : Z) (method : string)
  | ConnectTimeout (socket : Z).

Inductive effect :=
  | Settle (requestId : Z) (o : outcome)
  | ConnectSettled (socket : Z) (error : option string)
  | Sent (socket : Z) (raw : string)
  | EventCalled (listener : Z) (event : value)
  | CloseCalled (listener : Z).

Record world := {
  ws : option Z; next_seq : Z; pending : list (Z * PendingRequest);
  eventListeners : list Z; closeListeners : list Z; closing : bool;
  sockets : gmap Z Connection; next_socket : Z;
  timers : gmap Z callback; next_timer : Z;
  abort_listeners : list (Z * Z); aborted : gset Z;
  trace : list effect
}.

Definition new_client : world := {|
  ws := None; next_seq := 1; pending := []; eventListeners := []; closeListeners := []; closing := false;
  sockets := ∅; next_socket := 0; timers := ∅; next_timer := 0; abort_listeners := []; aborted := ∅; trace := [] |}.

(** The request table and what its entries registered. *)
Definition with_requests (w : world) (seq : Z) (p : list (Z * PendingRequest)) (ts : gmap Z callback) (nt : Z)
    (al : list (Z * Z)) : world := {|
  ws := ws w; next_seq := seq; pending := p; eventListeners := eventListeners w; closeListeners := closeListeners w;
  closing := closing w; sockets := sockets w; next_socket := next_socket w; timers := ts; next_timer := nt;
  abort_listeners := al; aborted := aborted w; trace := trace w |}.

Definition with_connection (w : world) (current : option Z) (ss : gmap Z Connection) (ns : Z) : world := {|
  ws := current; next_seq := next_seq w; pending := pending w; eventListeners := eventListeners w;
  closeListeners := closeListeners w; closing := closing w; sockets := ss; next_socket := ns; timers := timers w;
  next_timer := next_timer w; abort_listeners := abort_listeners w; aborted := aborted w; trace := trace w |}.

Definition with_listeners (w : world) (events closes : list Z) (c : bool) : world := {|
  ws := ws w; next_seq := next_seq w; pending := pending w; eventListeners := events; closeListeners := closes;
  closing := c; sockets := sockets w; next_socket := next_socket w; timers := timers w; next_timer := next_timer w;
  abort_listeners := abort_listeners w; aborted := aborted w; trace := trace w |}.

Definition with_aborted (w : world) (a : gset Z) : world := {|
  ws := ws w; next_seq := next_seq w; pending := pending w; eventListeners := eventListeners w;
  closeListeners := closeListeners w; closing := closing w; sockets := sockets w; next_socket := next_socket w;
  timers := timers w; next_timer := next_timer w; abort_listeners := abort_listeners w; aborted := a; trace := trace w |}.

Definition emit (es : list effect) (w : world) : world := {|
  ws := ws w; next_seq := next_seq w; pending := pending w; eventListeners := eventListeners w;
  closeListeners := closeListeners w; closing := closing w; sockets := sockets w; next_socket := next_socket w;
  timers := timers w; next_timer := next_timer w; abort_listeners := abort_listeners w; aborted := aborted w;
  trace := trace w ++ es |}.

(** * The runtime *)

Definition clearTimeout (t : Z) (w : world) : world :=
  with_requests w (next_seq w) (pending w) (delete t (timers w)) (next_timer w) (abort_listeners w).

Definition setTimeout (cb : callback) (w : world) : world :=
  with_requests w (next_seq w) (pending w) (<[next_timer w := cb]> (timers w)) (next_timer w + 1) (abort_listeners w).

Definition set_socket (s : Z) (c : Connection) (w : world) : world :=
  with_connection w (ws w) (<[s := c]> (sockets w)) (next_socket w).

Definition with_ready (c : Connection) (r : ReadyState) : Connection :=
  {| conn_url := conn_url c; ready := r; settled := settled c; sawErrorEvent := sawErrorEvent c;
     connectTimer := connectTimer c; bound := bound c |}.
Definition with_settled (c : Connection) : Connection :=
  {| conn_url := conn_url c; ready := ready c; settled := true; sawErrorEvent := sawErrorEvent c;
     connectTimer := connectTimer c; bound := bound c |}.
Definition with_error (c : Connection) : Connection :=
  {| conn_url := conn_url c; ready := ready c; settled := settled c; sawErrorEvent := true;
     connectTimer := connectTimer c; bound := bound c |}.

(** [socket.close()]. *)
Definition close_socket (s : Z) (w : world) : world :=
  match sockets w !! s with
  | Some c => match ready c with CONNECTING | OPEN => set_socket s (with_ready c CLOSING) w | _ => w end
  | None => w
  end.

Definition is_open (w : world) : option Z :=
  match ws w with
  | Some s => match sockets w !! s with
              | Some c => if decide (ready c = OPEN) then Some s else None
              | None => None
              end
  | None => None
  end.

(** * Requests *)

Record request_args := {
  arg_method : string; arg_payload : value; arg_projectId : option string; arg_hubId : option string;
  arg_timeoutMs : option Z; arg_signal : option Z
}.

(** [...(id ? {[key]: id} : {})]. *)
Definition optional_id (key : string) (id : option string) : list (string * value) :=
  match id with Some s => if nonempty s then [(key, VStr s)] else [] | None => [] end.

Definition request_envelope (requestId : Z) (args : request_args) : value :=
  VObj ([("requestId", VNum (of_Z requestId)); ("type", VStr "request"); ("method", VStr (arg_method args));
         ("payload", arg_payload args)]%string
        ++ optional_id "projectId" (arg_projectId args) ++ optional_id "hubId" (arg_hubId args)).

Definition event_envelope (args : request_args) : value :=
  VObj ([("type", VStr "event"); ("method", VStr (arg_method args)); ("payload", arg_payload args)]%string
        ++ optional_id "projectId" (arg_projectId args) ++ optional_id "hubId" (arg_hubId args)).

Definition not_connected : reason := PlainError "registry websocket is not connected".

Definition signal_aborted (signal : option Z) (w : world) : bool :=
  match signal with Some sig => bool_decide (sig ∈ aborted w) | None => false end.

Section client.
Context `{!JSON} (defaultTimeoutMs : Z).

(** The promise [request] returns is rejected at once ([inl]) or is the one of a new
    request identifier. *)
Definition request (args : request_args) (w : world) : (reason + Z) * world :=
  if signal_aborted (arg_signal args) w then (inl AbortError, w) else
  match is_open w with
  | None => (inl not_connected, w)
  | Some s =>
      let requestId := next_seq w in
      let raw := JSON_stringify (request_envelope requestId args) in
      let timeoutMs := default defaultTimeoutMs (arg_timeoutMs args) in
      let timer := next_timer w in
      let w1 := setTimeout (RequestTimeout requestId timeoutMs (arg_method args)) w in
      let listeners := match arg_signal args with
                       | Some sig => abort_listeners w1 ++ [(sig, requestId)] | None => abort_listeners w1 end in
      let w2 := with_requests w1 (requestId + 1)
        (dset (pending w1) requestId {| req_timer := timer; abort_signal := arg_signal args |})
        (timers w1) (next_timer w1) listeners in
      (inr requestId, emit [Sent s raw] w2)
  end.

Definition sendEvent (args : request_args) (w : world) : option reason * world :=
  match is_open w with
  | None => (Some not_connected, w)
  | Some s => (None, emit [Sent s (JSON_stringify (event_envelope args))] w)
  end.

Definition remove_listener (e : Z * Z) (w : world) : world :=
  with_requests w (next_seq w) (pending w) (timers w) (next_timer w)
    (bfilter (fun x => negb (bool_decide (x = e))) (abort_listeners w)).

(** [pending.removeAbortListener?.()]. *)
Definition removeAbortListener (requestId : Z) (p : PendingRequest) (w : world) : world :=
  match abort_signal p with
  | Some sig => remove_listener (sig, requestId) w
  | None => w
  end.

Definition forget (requestId : Z) (w : world) : world :=
  with_requests w (next_seq w) (ddelete (pending w) requestId) (timers w) (next_timer w) (abort_listeners w).

(** The entry leaves the table, its timer and listener are released, its promise settles. *)
Definition settle (requestId : Z) (p : PendingRequest) (o : outcome) (w : world) : world :=
  emit [Settle requestId o] (removeAbortListener requestId p (clearTimeout (req_timer p) (forget requestId w))).

Definition handleAbort (requestId : Z) (w : world) : world :=
  match dget (pending w) requestId with
  | Some p => settle requestId p (Rejected AbortError) w
  | None => w
  end.

(** The signal aborts: each of its listeners that is still there is removed and runs. *)
Definition abort (sig : Z) (w : world) : world :=
  if decide (sig ∈ aborted w) then w else
  let fired := bfilter (fun e => bool_decide (e.1 = sig)) (abort_listeners w) in
  foldl (fun w e => if bool_decide (e ∈ abort_listeners w) then handleAbort e.2 (remove_listener e w) else w)
    (with_aborted w ({[sig]} ∪ aborted w)) fired.

Definition timeout_message (timeoutMs : Z) (method : string) : string :=
  "registry request timed out (" +:+ pretty timeoutMs +:+ "ms): " +:+ method.

Definition connect_timeout_message (url : string) : string :=
  "registry websocket connect timeout: url=" +:+ url +:+ " (check network, TLS cert, and nginx websocket proxy)".

Definition requestTimedOut (requestId timeoutMs : Z) (method : string) (w : world) : world :=
  match dget (pending w) requestId with
  | Some p => emit [Settle requestId (Rejected (PlainError (timeout_message timeoutMs method)))]
                (removeAbortListener requestId p (forget requestId w))
  | None => w
  end.

Definition connectTimedOut (s : Z) (w : world) : world :=
  match sockets w !! s with
  | Some c => if settled c then w else
      close_socket s (emit [ConnectSettled s (Some (connect_timeout_message (conn_url c)))] (set_socket s (with_settled c) w))
  | None => w
  end.

(** A timer that has not been cleared fires. *)
Definition fireTimer (t : Z) (w : world) : world :=
  match timers w !! t with
  | Some cb =>
      let w1 := clearTimeout t w in
      match cb with
      | RequestTimeout requestId timeoutMs method => requestTimedOut requestId timeoutMs method w1
      | ConnectTimeout s => connectTimedOut s w1
      end
  | None => w
  end.

(** * Connection *)

Definition connect (url : string) (w : world) : world :=
  match is_open w with
  | Some _ => w
  | None =>
      let s := next_socket w in
      let c := {| conn_url := url; ready := CONNECTING; settled := false; sawErrorEvent := false;
                  connectTimer := next_timer w; bound := false |} in
      setTimeout (ConnectTimeout s) (with_connection w (ws w) (<[s := c]> (sockets w)) (s + 1))
  end.

(** [connectInit] is [request] with its method. *)
Definition connectInit (payload : value) (w : world) : (reason + Z) * world :=
  request {| arg_method := "connect.init"; arg_payload := payload; arg_projectId := None; arg_hubId := None;
             arg_timeoutMs := None; arg_signal := None |} w.

Definition fail (s : Z) (c : Connection) (message : string) (w : world) : world :=
  if settled c then w else
  close_socket s (emit [ConnectSettled s (Some message)] (clearTimeout (connectTimer c) (set_socket s (with_settled c) w))).

(** [ws.onopen], and [bind]. *)
Definition onopen (s : Z) (w : world) : world :=
  match sockets w !! s with
  | Some c =>
      if decide (ready c = CONNECTING) then
        if settled c then set_socket s (with_ready c OPEN) w else
        let c' := {| conn_url := conn_url c; ready := OPEN; settled := true; sawErrorEvent := sawErrorEvent c;
                     connectTimer := connectTimer c; bound := true |} in
        let w1 := clearTimeout (connectTimer c) w in
        emit [ConnectSettled s None] (with_connection w1 (Some s) (<[s := c']> (sockets w1)) (next_socket w1))
      else w
  | None => w
  end.

Definition emitEvent (event : value) (w : world) : world :=
  emit (map (fun l => EventCalled l event) (eventListeners w)) w.
Definition emitClosed (w : world) : world := emit (map CloseCalled (closeListeners w)) w.

(** [for (const [id, pending] of this.pending.entries()) ...; this.pending.clear()]. *)
Definition rejectEntry (w : world) (e : Z * PendingRequest) : world :=
  emit [Settle e.1 (Rejected (PlainError ("connection closed before response: " +:+ pretty e.1)))]
    (removeAbortListener e.1 e.2 (clearTimeout (req_timer e.2) w)).
Definition rejectPending (w : world) : world :=
  let w1 := foldl rejectEntry w (pending w) in
  with_requests w1 (next_seq w1) [] (timers w1) (next_timer w1) (abort_listeners w1).

Definition handleSocketClosed (s : Z) (w : world) : world :=
  if decide (ws w = Some s) then
    let w1 := rejectPending (with_connection w None (sockets w) (next_socket w)) in
    if closing w1 then w1 else emitClosed w1
  else w.

Definition close (w : world) : world :=
  let w1 := rejectPending (with_listeners w (eventListeners w) (closeListeners w) true) in
  let w2 := match ws w1 with Some s => close_socket s w1 | None => w1 end in
  let w3 := emitClosed (with_connection w2 None (sockets w2) (next_socket w2)) in
  with_listeners w3 (eventListeners w3) (closeListeners w3) false.

Definition connect_closed_message (code : Z) (why : string) (c : Connection) : string :=
  "registry websocket closed during connect: code=" +:+ pretty code +:+ " reason=" +:+ str_or why "n/a" +:+ " url="
  +:+ conn_url c +:+ (if sawErrorEvent c then " (after websocket error event)" else "").

(** The close event: the handler of [connect] until the socket is bound. *)
Definition onclose (s code : Z) (why : string) (w : world) : world :=
  match sockets w !! s with
  | Some c =>
      let c' := with_ready c CLOSED in
      let w1 := set_socket s c' w in
      if bound c then handleSocketClosed s w1 else fail s c' (connect_closed_message code why c) w1
  | None => w
  end.

(** The error event; [failed] when the socket is closed by it. *)
Definition onerror (s : Z) (failed : bool) (w : world) : world :=
  match sockets w !! s with
  | Some c =>
      let c1 := if failed then with_ready c CLOSED else c in
      let w1 := set_socket s c1 w in
      if bound c then
        match ready c1 with CLOSING | CLOSED => handleSocketClosed s w1 | _ => w1 end
      else set_socket s (with_error c1) w1
  | None => w
  end.

Definition as_string (v : value) : option string := match v with VStr s => Some s | _ => None end.

Definition parseErrorPayload (payload : value) : option string * option string * value :=
  match payload with
  | VObj input => (as_string (prop input "code"), as_string (prop input "message"), prop input "details")
  | _ => (None, None, VUndefined)
  end.

(** [this.pending.get(envelope.requestId)], for a truthy [requestId]. *)
Definition addressed (envelope : value) (w : world) : option (Z * PendingRequest) :=
  match prop (properties envelope) "requestId" with
  | VNum n => match isInteger n with
              | Some id => if decide (id = 0) then None else pair id <$> dget (pending w) id
              | None => None
              end
  | _ => None
  end.

Definition receive (envelope : value) (w : world) : world :=
  let type := prop (properties envelope) "type" in
  let has_type t := match type with VStr s => String.eqb s t | _ => false end in
  if has_type "event"%string then emitEvent envelope w else
  match addressed envelope w with
  | None => w
  | Some (id, p) =>
      if has_type "error"%string then
        let '(code, message, details) := parseErrorPayload (prop (properties envelope) "payload") in
        settle id p (Rejected (RegistryRequestError (default "registry error"%string message) code details)) w
      else settle id p (Resolved envelope) w
  end.

(** The message event of a bound socket; data that is not text is [None].  An envelope
    that is [null] makes the handler throw before it has done anything. *)
Definition onmessage (s : Z) (data : option string) (w : world) : world :=
  match sockets w !! s, data with
  | Some c, Some text =>
      if bound c && bool_decide (ready c = OPEN) then
        match JSON_parse text with
        | Some VNull | None => w
        | Some envelope => receive envelope w
        end
      else w
  | _, _ => w
  end.

Definition onEvent (l : Z) (w : world) : world :=
  if decide (l ∈ eventListeners w) then w else with_listeners w (eventListeners w ++ [l]) (closeListeners w) (closing w).
Definition offEvent (l : Z) (w : world) : world :=
  with_listeners w (bfilter (fun x => negb (bool_decide (x = l))) (eventListeners w)) (closeListeners w) (closing w).
Definition onClose (l : Z) (w : world) : world :=
  if decide (l ∈ closeListeners w) then w else with_listeners w (eventListeners w) (closeListeners w ++ [l]) (closing w).
Definition offClose (l : Z) (w : world) : world :=
  with_listeners w (eventListeners w) (bfilter (fun x => negb (bool_decide (x = l))) (closeListeners w)) (closing w).

(** One operation of a caller or one event of the runtime. *)
Inductive client_step : world -> world -> Prop :=
  | step_connect url w : client_step w (connect url w)
  | step_connectInit payload w : client_step w (connectInit payload w).2
  | step_request args w : client_step w (request args w).2
  | step_sendEvent args w : client_step w (sendEvent args w).2
  | step_close w : client_step w (close w)
  | step_onEvent l w : client_step w (onEvent l w)
  | step_offEvent l w : client_step w (offEvent l w)
  | step_onClose l w : client_step w (onClose l w)
  | step_offClose l w : client_step w (offClose l w)
  | step_timer t w : client_step w (fireTimer t w)
  | step_abort sig w : client_step w (abort sig w)
  | step_open s w : client_step w (onopen s w)
  | step_closed s code why w : client_step w (onclose s code why w)
  | step_error s failed w : client_step w (onerror s failed w)
  | step_message s data w : client_step w (onmessage s data w).
End client.

(** * The request table *)

Definition settled_ids (es : list effect) : list Z :=
  omap (fun e => match e with Settle id _ => Some id | _ => None end) es.

(** A response resolves only the request it names, and is neither an event nor an
    error. *)
Definition answers (id : Z) (envelope : value) : Prop :=
  (exists n, prop (properties envelope) "requestId" = VNum n /\ isInteger n = Some id) /\
  prop (properties envelope) "type" <> VStr "event" /\ prop (properties envelope) "type" <> VStr "error".

Definition right_answer (e : effect) : Prop :=
  match e with Settle id (Resolved envelope) => answers id envelope | _ => True end.

Record inv (w : world) : Prop := {
  i_keys : NoDup (dkeys (pending w));
  i_seq : 1 <= next_seq w;
  i_account : settled_ids (trace w) ++ dkeys (pending w) ≡ₚ seqZ 1 (next_seq w - 1);
  i_answers : Forall right_answer (trace w);
  i_owned : forall t id ms m, timers w !! t = Some (RequestTimeout id ms m) ->
    exists p, dget (pending w) id = Some p /\ req_timer p = t;
  i_live : forall id p, dget (pending w) id = Some p ->
    exists ms m, timers w !! req_timer p = Some (RequestTimeout id ms m);
  i_fresh : forall t cb, timers w !! t = Some cb -> t < next_timer w;
  i_abort : forall sig id, (sig, id) ∈ abort_listeners w <->
    exists p, dget (pending w) id = Some p /\ abort_signal p = Some sig;
  i_connect : forall s c, sockets w !! s = Some c ->
    connectTimer c < next_timer w /\ forall id ms m, timers w !! connectTimer c <> Some (RequestTimeout id ms m)
}.

Lemma settled_ids_app es1 es2 : settled_ids (es1 ++ es2) = settled_ids es1 ++ settled_ids es2.
Proof. apply omap_app. Qed.

Lemma pending_range w id : inv w -> id ∈ dkeys (pending w) -> 1 <= id < next_seq w.
Proof.
  intros H Hid. assert (id ∈ seqZ 1 (next_seq w - 1)) as Hin; [|apply elem_of_seqZ in Hin; lia].
  rewrite <- (i_account w H), elem_of_app. by right.
Qed.

Lemma inv_settle w id p o :
  inv w -> dget (pending w) id = Some p -> right_answer (Settle id o) -> inv (settle id p o w).
Proof.
  intros H Hp Ho. pose proof (dget_key _ _ _ Hp) as Hin.
  assert (pending (settle id p o w) = ddelete (pending w) id /\ next_seq (settle id p o w) = next_seq w /\
    timers (settle id p o w) = delete (req_timer p) (timers w) /\ next_timer (settle id p o w) = next_timer w /\
    sockets (settle id p o w) = sockets w /\ trace (settle id p o w) = trace w ++ [Settle id o] /\
    forall e, e ∈ abort_listeners (settle id p o w) <->
      e ∈ abort_listeners w /\ (abort_signal p = Some e.1 -> e.2 <> id)) as (E1 & E2 & E3 & E4 & E5 & E6 & E7).
  { unfold settle, removeAbortListener. destruct (abort_signal p) as [sig|]; simpl; split_and!; try done; [|naive_solver].
    intros [sig' id']. rewrite elem_of_bfilter. breflect. naive_solver. }
  constructor; rewrite ?E1, ?E2, ?E3, ?E4, ?E5, ?E6.
  - apply ddelete_NoDup, (i_keys w H).
  - apply (i_seq w H).
  - rewrite <- (i_account w H), settled_ids_app, (dkeys_ddelete_perm _ id (i_keys w H) Hin), <- app_assoc. done.
  - apply Forall_app. split; [apply (i_answers w H)|by repeat constructor].
  - intros t id' ms m. rewrite lookup_delete_Some. intros [Hne Ht]. destruct (i_owned w H _ _ _ _ Ht) as (p' & Hp' & Ht').
    exists p'. split; [|done]. rewrite dget_ddelete, decide_False; [done|]. intros <-. congruence.
  - intros id' p'. rewrite dget_ddelete. goal_decide; [done|]. intros Hp'.
    destruct (i_live w H _ _ Hp') as (ms & m & Ht). exists ms, m. rewrite lookup_delete_ne; [done|]. intros E.
    destruct (i_live w H _ _ Hp) as (ms2 & m2 & Ht2). rewrite E in Ht2. congruence.
  - intros t cb. rewrite lookup_delete_Some. intros [_ Ht]. by apply (i_fresh w H) in Ht.
  - intros sig id'. rewrite E7, (i_abort w H). simpl. rewrite dget_ddelete. destruct (decide (id = id')) as [->|].
    + split; [|naive_solver]. intros [(p' & Hp' & Hs) Hne]. exfalso. simplify_eq. by apply (Hne Hs).
    + naive_solver.
  - intros s c Hc. destruct (i_connect w H s c Hc) as [H1 H2]. split; [done|]. intros id' ms m [_ Ht]%lookup_delete_Some.
    by apply H2 in Ht.
Qed.

Lemma inv_emit es w : inv w -> settled_ids es = [] -> Forall right_answer es -> inv (emit es w).
Proof.
  intros [] Hs Hr. constructor; simpl; try done; [|by apply Forall_app].
  by rewrite settled_ids_app, Hs, app_nil_r.
Qed.

Lemma inv_listeners w es cs c : inv w -> inv (with_listeners w es cs c).
Proof. by intros []. Qed.

Lemma inv_aborted w a : inv w -> inv (with_aborted w a).
Proof. by intros []. Qed.

(** Changing a socket, or which one is current, as long as the connect timer stays. *)
Lemma inv_connection w cur s c c' n :
  inv w -> sockets w !! s = Some c -> connectTimer c' = connectTimer c ->
  inv (with_connection w cur (<[s := c']> (sockets w)) n).
Proof.
  intros [] Hc E. constructor; simpl; try done. intros s' c0. rewrite lookup_insert_Some.
  intros [[<- <-]|[_ H0]]; [rewrite E|]; eauto.
Qed.

Lemma inv_no_socket w : inv w -> inv (with_connection w None (sockets w) (next_socket w)).
Proof. by intros []. Qed.

Lemma inv_set_socket w s c c' : inv w -> sockets w !! s = Some c -> connectTimer c' = connectTimer c -> inv (set_socket s c' w).
Proof. apply inv_connection. Qed.

Lemma inv_close_socket w s : inv w -> inv (close_socket s w).
Proof.
  intros H. unfold close_socket. destruct (sockets w !! s) as [c|] eqn:E; [|done].
  destruct (ready c); try done; by eapply inv_set_socket.
Qed.

Lemma inv_clear_other w t :
  inv w -> (forall id ms m, timers w !! t <> Some (RequestTimeout id ms m)) -> inv (clearTimeout t w).
Proof.
  intros [] Ht. constructor; simpl; try done.
  - intros t' id ms m [_ H]%lookup_delete_Some. eauto.
  - intros id p Hp. destruct (i_live0 _ _ Hp) as (ms & m & H). exists ms, m. rewrite lookup_delete_ne; [done|].
    intros ->. by apply Ht in H.
  - intros t' cb [_ H]%lookup_delete_Some. eauto.
  - intros s c Hc. destruct (i_connect0 s c Hc) as [H1 H2]. split; [done|].
    intros id ms m [_ H]%lookup_delete_Some. by apply H2 in H.
Qed.

Lemma inv_fail w s c c0 msg :
  inv w -> sockets w !! s = Some c0 -> connectTimer c = connectTimer c0 -> inv (fail s c msg w).
Proof.
  intros H Hc E. unfold fail. destruct (settled c); [done|]. apply inv_close_socket, inv_emit; [|done|by repeat constructor].
  destruct (i_connect w H _ _ Hc) as [_ Ht]. apply inv_clear_other; [by eapply inv_set_socket|]. simpl. by rewrite E.
Qed.

(** Rejecting every entry and emptying the table is settling them one by one. *)
Lemma rejectEntry_pending w e p :
  rejectEntry (with_requests w (next_seq w) p (timers w) (next_timer w) (abort_listeners w)) e =
  let w' := rejectEntry w e in with_requests w' (next_seq w') p (timers w') (next_timer w') (abort_listeners w').
Proof. unfold rejectEntry, removeAbortListener. by destruct (abort_signal e.2). Qed.

Definition closed_reason (id : Z) : outcome :=
  Rejected (PlainError ("connection closed before response: " +:+ pretty id)).

Lemma rejectEntry_settle w e :
  settle e.1 e.2 (closed_reason e.1) w =
  let w' := rejectEntry w e in
  with_requests w' (next_seq w') (ddelete (pending w) e.1) (timers w') (next_timer w') (abort_listeners w').
Proof. unfold settle, rejectEntry, removeAbortListener. by destruct (abort_signal e.2). Qed.

Lemma reject_all_settle l w :
  foldl (fun w e => settle e.1 e.2 (closed_reason e.1) w) w l =
  let w' := foldl rejectEntry w l in
  with_requests w' (next_seq w') (foldl (fun p e => ddelete p e.1) (pending w) l) (timers w') (next_timer w') (abort_listeners w').
Proof.
  revert w; induction l as [|e l IH]; intros w; cbn [foldl]; [by destruct w|].
  rewrite IH, rejectEntry_settle. cbv zeta. cbn [pending with_requests].
  generalize (rejectEntry w e) (ddelete (pending w) e.1). clear IH. intros w1 p0.
  set (q := foldl _ p0 l). clearbody q. revert w1 p0; induction l as [|e' l IH]; intros w1 p0; cbn [foldl]; [done|].
  rewrite rejectEntry_pending. apply IH.
Qed.

Lemma ddelete_all {V} (l p : list (Z * V)) : (forall e, e ∈ p -> e.1 ∈ map fst l) -> foldl (fun p e => ddelete p e.1) p l = [].
Proof.
  revert p; induction l as [|e l IH]; intros p Hp; simpl.
  - destruct p as [|x p]; [done|]. by destruct (not_elem_of_nil x.1 (Hp x ltac:(left))).
  - apply IH. intros x [Hx Hne]%elem_of_bfilter. breflect. specialize (Hp x Hx). simpl in Hp.
    rewrite elem_of_cons in Hp. naive_solver.
Qed.

Lemma rejectPending_settle w :
  rejectPending w = foldl (fun w e => settle e.1 e.2 (closed_reason e.1) w) w (pending w).
Proof.
  rewrite reject_all_settle, ddelete_all; [done|]. intros e He. apply elem_of_map. eauto.
Qed.

Lemma settle_all l w :
  inv w -> NoDup (dkeys l) -> (forall e, e ∈ l -> dget (pending w) e.1 = Some e.2) ->
  inv (foldl (fun w e => settle e.1 e.2 (closed_reason e.1) w) w l).
Proof.
  revert w; induction l as [|[id p] l IH]; intros w H Hnd Hl; simpl; [done|].
  apply NoDup_cons in Hnd as [Hid Hnd]. apply IH; [|done|].
  - apply inv_settle; [done|apply (Hl (id, p)); left|done].
  - intros e He. assert (pending (settle id p (closed_reason id) w) = ddelete (pending w) id) as ->.
    { unfold settle, removeAbortListener. by destruct (abort_signal p). }
    rewrite dget_ddelete, decide_False; [apply Hl; by right|]. intros ->. apply Hid, elem_of_map. by exists e.
Qed.

Lemma inv_rejectPending w : inv w -> inv (rejectPending w).
Proof.
  intros H. rewrite rejectPending_settle. apply settle_all; [done|apply H|].
  intros [id p] He. apply dget_in; [apply H|done].
Qed.

Lemma Forall_calls (es : list effect) : (forall e, e ∈ es -> match e with Settle _ _ => False | _ => True end) ->
  settled_ids es = [] /\ Forall right_answer es.
Proof.
  induction es as [|e es IH]; intros H; [done|]. destruct IH as [H1 H2]; [intros e' He'; apply H; by right|].
  specialize (H e ltac:(left)). destruct e; [done|..]; (split; [exact H1|by constructor]).
Qed.

Lemma inv_emitClosed w : inv w -> inv (emitClosed w).
Proof. intros H. apply inv_emit; [done|apply Forall_calls..]; by intros e (l & -> & _)%elem_of_map. Qed.

Lemma inv_emitEvent w v : inv w -> inv (emitEvent v w).
Proof. intros H. apply inv_emit; [done|apply Forall_calls..]; by intros e (l & -> & _)%elem_of_map. Qed.

Lemma inv_handleSocketClosed w s : inv w -> inv (handleSocketClosed s w).
Proof.
  intros H. unfold handleSocketClosed. goal_decide; [|done].
  assert (inv (rejectPending (with_connection w None (sockets w) (next_socket w)))) by auto using inv_rejectPending, inv_no_socket.
  destruct (closing _); auto using inv_emitClosed.
Qed.

Lemma inv_close w : inv w -> inv (close w).
Proof.
  intros H. unfold close. apply inv_listeners, inv_emitClosed, inv_no_socket.
  assert (inv (rejectPending (with_listeners w (eventListeners w) (closeListeners w) true))) by auto using inv_rejectPending, inv_listeners.
  destruct (ws _); auto using inv_close_socket.
Qed.

(** A listener that has been removed no longer matters once its request settles. *)
Lemma settle_removed w id p o e :
  abort_signal p = Some e.1 -> e.2 = id -> settle id p o (remove_listener e w) = settle id p o w.
Proof.
  intros Hs He. unfold settle, removeAbortListener. rewrite Hs. destruct e as [sig id']; simpl in *; subst id'.
  unfold remove_listener, emit, clearTimeout, forget, with_requests; simpl. f_equal.
  apply bfilter_all, Forall_forall. intros x Hx%elem_of_bfilter. tauto.
Qed.

Lemma inv_abort_signal w sig : inv w -> inv (abort sig w).
Proof.
  intros H. unfold abort. goal_decide; [done|].
  assert (inv (with_aborted w ({[sig]} ∪ aborted w))) as H' by by apply inv_aborted.
  revert H'. generalize (with_aborted w ({[sig]} ∪ aborted w)). generalize (bfilter (fun e => bool_decide (e.1 = sig)) (abort_listeners w)).
  intros l. induction l as [|e l IH]; intros w' H'; simpl; [done|]. apply IH.
  destruct (bool_decide (e ∈ abort_listeners w')) eqn:E; [|done]. breflect.
  destruct e as [sig' id]. apply (i_abort w' H') in E as (p & Hp & Hs). unfold handleAbort. simpl. rewrite Hp.
  rewrite settle_removed by done. by apply inv_settle.
Qed.

Lemma inv_fireTimer w t : inv w -> inv (fireTimer t w).
Proof.
  intros H. unfold fireTimer. destruct (timers w !! t) as [[id ms m|s]|] eqn:Et; [| |done].
  - destruct (i_owned w H _ _ _ _ Et) as (p & Hp & <-). unfold requestTimedOut. simpl. rewrite Hp.
    assert (emit [Settle id (Rejected (PlainError (timeout_message ms m)))]
      (removeAbortListener id p (forget id (clearTimeout (req_timer p) w))) =
      settle id p (Rejected (PlainError (timeout_message ms m))) w) as -> by (unfold settle, removeAbortListener; by destruct (abort_signal p)).
    by apply inv_settle.
  - assert (inv (clearTimeout t w)) as H1 by (apply inv_clear_other; [done|]; intros; congruence).
    unfold connectTimedOut. destruct (sockets _ !! s) as [c|] eqn:Ec; [|done]. destruct (settled c); [done|].
    apply inv_close_socket, inv_emit; [by eapply inv_set_socket|done|by repeat constructor].
Qed.

Lemma inv_onopen w s : inv w -> inv (onopen s w).
Proof.
  intros H. unfold onopen. destruct (sockets w !! s) as [c|] eqn:Ec; [|done]. goal_decide; [|done].
  destruct (settled c); [by eapply inv_set_socket|].
  apply inv_emit; [|done|by repeat constructor]. eapply inv_connection; [|by simpl|done].
  apply inv_clear_other; [done|]. by destruct (i_connect w H _ _ Ec).
Qed.

Lemma inv_onclose w s code why : inv w -> inv (onclose s code why w).
Proof.
  intros H. unfold onclose. destruct (sockets w !! s) as [c|] eqn:Ec; [|done].
  assert (inv (set_socket s (with_ready c CLOSED) w)) as H1 by by eapply inv_set_socket.
  destruct (bound c); [by apply inv_handleSocketClosed|]. eapply inv_fail; [done| |done]. simpl. apply lookup_insert_eq.
Qed.

Lemma inv_onerror w s failed : inv w -> inv (onerror s failed w).
Proof.
  intros H. unfold onerror. destruct (sockets w !! s) as [c|] eqn:Ec; [|done].
  set (c1 := if failed then with_ready c CLOSED else c).
  assert (connectTimer c1 = connectTimer c) as E by by destruct failed.
  assert (inv (set_socket s c1 w)) as H1 by by eapply inv_set_socket.
  destruct (bound c); [destruct (ready c1); auto using inv_handleSocketClosed|].
  eapply inv_set_socket; [done|simpl; apply lookup_insert_eq|done].
Qed.

Lemma seqZ_snoc n : 1 <= n -> seqZ 1 (n + 1 - 1) = seqZ 1 (n - 1) ++ [n].
Proof.
  intros Hn. replace (n + 1 - 1) with (n - 1 + 1) by lia. rewrite seqZ_app by lia. f_equal.
  replace (1 + (n - 1)) with n by lia. done.
Qed.

(** A request adds its identifier to the table, nothing else. *)
Lemma inv_request `{J : JSON} dt w args : inv w -> inv (request dt args w).2.
Proof.
  intros H. unfold request. destruct (signal_aborted _ _); [done|]. destruct (is_open w) as [s|]; [|done].
  apply inv_emit; [|done|by repeat constructor].
  assert (next_seq w ∉ dkeys (pending w)) as Hk by (intros Hin%pending_range; [lia|done]).
  assert (timers w !! next_timer w = None) as Ht.
  { destruct (timers w !! next_timer w) eqn:E; [|done]. apply (i_fresh w H) in E. lia. }
  constructor; cbn [next_seq pending trace timers next_timer abort_listeners sockets with_requests setTimeout].
  - apply dset_NoDup, H.
  - pose proof (i_seq w H). lia.
  - rewrite dset_fresh by done. unfold dkeys. rewrite map_app, app_assoc, (i_account w H).
    rewrite (seqZ_snoc (next_seq w)) by apply H. done.
  - apply H.
  - intros t id ms m. rewrite lookup_insert_Some. intros [[<- E]|[Hne E]].
    + simplify_eq. eexists. by rewrite dget_dset_eq.
    + destruct (i_owned w H _ _ _ _ E) as (p & Hp & Hpt). exists p. split; [|done]. rewrite dget_dset_ne; [done|].
      intros <-. by apply dget_key in Hp.
  - intros id p. rewrite dget_dset. goal_decide; [intros [= <-]; simpl; rewrite lookup_insert_eq; eauto|].
    intros Hp. destruct (i_live w H _ _ Hp) as (ms & m & E). exists ms, m. rewrite lookup_insert_ne; [done|]. congruence.
  - intros t cb. rewrite lookup_insert_Some. intros [[<- _]|[_ E]]; [lia|]. apply (i_fresh w H) in E. lia.
  - intros sig id. assert ((sig, id) ∈ (match arg_signal args with
        | Some sig => abort_listeners w ++ [(sig, next_seq w)] | None => abort_listeners w end) <->
      (sig, id) ∈ abort_listeners w \/ (arg_signal args = Some sig /\ id = next_seq w)) as ->.
    { destruct (arg_signal args); [rewrite elem_of_app, list_elem_of_singleton; naive_solver|naive_solver]. }
    rewrite (i_abort w H), dget_dset. destruct (decide (next_seq w = id)) as [<-|].
    + split; [|naive_solver]. intros [(p & Hp%dget_key & _)|[E _]]; [done|]. eexists. split; [done|]. done.
    + naive_solver.
  - intros s' c Hc. destruct (i_connect w H _ _ Hc) as [H1 H2]. split; [lia|].
    intros id ms m. rewrite lookup_insert_ne by lia. apply H2.
Qed.

Lemma inv_connect w url : inv w -> inv (connect url w).
Proof.
  intros H. unfold connect. destruct (is_open w); [done|].
  assert (timers w !! next_timer w = None) as Ht.
  { destruct (timers w !! next_timer w) eqn:E; [|done]. apply (i_fresh w H) in E. lia. }
  destruct H. constructor; simpl; try done.
  - intros t id ms m [[_ E]|[_ E]]%lookup_insert_Some; [done|eauto].
  - intros id p Hp. destruct (i_live0 _ _ Hp) as (ms & m & E). exists ms, m. rewrite lookup_insert_ne; [done|]. congruence.
  - intros t cb [[<- _]|[_ E]]%lookup_insert_Some; [lia|]. apply i_fresh0 in E. lia.
  - intros s c [[<- <-]|[_ E]]%lookup_insert_Some; simpl; [split; [lia|]; by rewrite lookup_insert_eq|].
    destruct (i_connect0 _ _ E). split; [lia|]. intros. rewrite lookup_insert_ne by lia. eauto.
Qed.

Lemma addressed_spec v w id p : addressed v w = Some (id, p) ->
  dget (pending w) id = Some p /\ exists n, prop (properties v) "requestId" = VNum n /\ isInteger n = Some id.
Proof.
  unfold addressed. destruct (prop _ _) as [| | |n| | |]; try done. destruct (isInteger n) as [z|] eqn:En; [|done].
  goal_decide; [done|]. destruct (dget (pending w) z) eqn:Ep; [|done]. intros [= <- <-]. eauto.
Qed.

Lemma inv_receive w v : inv w -> inv (receive v w).
Proof.
  intros H. unfold receive. destruct (match prop _ "type" with VStr s => String.eqb s "event" | _ => false end) eqn:Eev; [by apply inv_emitEvent|].
  destruct (addressed v w) as [[id p]|] eqn:Ea; [|done]. apply addressed_spec in Ea as [Hp Hid].
  destruct (match prop _ "type" with VStr s => String.eqb s "error" | _ => false end) eqn:Eer.
  - destruct (parseErrorPayload _) as [[code message] details]. by apply inv_settle.
  - apply inv_settle; [done|done|]. split; [done|]. split; intros E; rewrite E in *; done.
Qed.

Lemma inv_onmessage `{J : JSON} w s data : inv w -> inv (onmessage s data w).
Proof.
  intros H. unfold onmessage. destruct (sockets w !! s) as [c|]; [|done]. destruct data as [text|]; [|done].
  destruct (bound c && _); [|done]. destruct (JSON_parse text) as [[]|]; auto using inv_receive.
Qed.

Lemma inv_client_step `{J : JSON} dt w w' : inv w -> client_step dt w w' -> inv w'.
Proof.
  intros H Hs; destruct Hs; eauto using inv_connect, inv_request, inv_close, inv_fireTimer, inv_abort_signal, inv_onopen, inv_onclose,
    inv_onerror, inv_onmessage.
  - unfold sendEvent. destruct (is_open w); [|done]. by apply inv_emit; [|done|repeat constructor].
  - unfold onEvent. goal_decide; [done|by apply inv_listeners].
  - by apply inv_listeners.
  - unfold onClose. goal_decide; [done|by apply inv_listeners].
  - by apply inv_listeners.
Qed.

Lemma inv_new : inv new_client.
Proof.
  constructor; simpl; try done; try (intros *; rewrite lookup_empty; done).
  - constructor.
  - intros sig id. rewrite elem_of_nil. naive_solver.
Qed.

Lemma inv_reachable `{J : JSON} dt w : star (client_step dt) new_client w -> inv w.
Proof. intros H. eapply star_invariant; [done|apply inv_new|]. intros *. apply inv_client_step. Qed.

(** * Correctness *)

(** C4. Every request settles at most once and none is lost: in every reachable state the
    identifiers handed out are, each exactly once, those of the promises settled so far
    and those of the pending table; a live request timer or an abort listener belongs to
    a pending request, so nothing of a settled one is left behind. *)
Theorem requests_accounted `{J : JSON} dt w :
  star (client_step dt) new_client w ->
  settled_ids (trace w) ++ dkeys (pending w) ≡ₚ seqZ 1 (next_seq w - 1) /\
  NoDup (settled_ids (trace w) ++ dkeys (pending w)) /\
  (forall t id ms m, timers w !! t = Some (RequestTimeout id ms m) -> id ∈ dkeys (pending w)) /\
  (forall sig id, (sig, id) ∈ abort_listeners w -> id ∈ dkeys (pending w)).
Proof.
  intros H%inv_reachable. split_and!; [apply H|rewrite (i_account w H); apply NoDup_seqZ| |].
  - intros t id ms m Ht. destruct (i_owned w H _ _ _ _ Ht) as (p & Hp & _). by eapply dget_key.
  - intros sig id Hs. apply (i_abort w H) in Hs as (p & Hp & _). by eapply dget_key.
Qed.

(** C5. A request resolves only with a response of its own: the envelope carries the
    identifier of the request it resolves and is neither an event nor an error,
    whatever the peer sends and however operations interleave. *)
Theorem response_correlated `{J : JSON} dt w id envelope :
  star (client_step dt) new_client w -> Settle id (Resolved envelope) ∈ trace w -> answers id envelope.
Proof.
  intros H%inv_reachable Hin. by apply (proj1 (Forall_forall _ _) (i_answers w H)) in Hin.
Qed.

Lemma settle_effects id p o w : trace (settle id p o w) = trace w ++ [Settle id o] /\ pending (settle id p o w) = ddelete (pending w) id.
Proof. unfold settle, removeAbortListener. by destruct (abort_signal p). Qed.

Lemma rejectPending_effects w : inv w ->
  pending (rejectPending w) = [] /\
  trace (rejectPending w) = trace w ++ map (fun id => Settle id (closed_reason id)) (dkeys (pending w)).
Proof.
  intros H. split; [done|]. rewrite rejectPending_settle. generalize (pending w) as l. clear H.
  intros l; revert w; induction l as [|[id p] l IH]; intros w; cbn [foldl]; [by rewrite app_nil_r|].
  rewrite IH. rewrite (proj1 (settle_effects _ _ _ _)), <- app_assoc. done.
Qed.

Lemma close_socket_effects s w : trace (close_socket s w) = trace w /\ pending (close_socket s w) = pending w.
Proof. unfold close_socket. by repeat case_match. Qed.

Definition rejections (w : world) : list effect := map (fun id => Settle id (closed_reason id)) (dkeys (pending w)).

Lemma close_effects w : inv w -> pending (close w) = [] /\ exists es, trace (close w) = trace w ++ rejections w ++ es.
Proof.
  intros H. unfold close.
  destruct (rejectPending_effects (with_listeners w (eventListeners w) (closeListeners w) true) (inv_listeners _ _ _ _ H)) as [H1 H2].
  set (w1 := rejectPending _) in *. clearbody w1. cbn [pending trace with_listeners emitClosed emit with_connection].
  assert (pending (match ws w1 with Some s => close_socket s w1 | None => w1 end) = pending w1 /\
    trace (match ws w1 with Some s => close_socket s w1 | None => w1 end) = trace w1) as [-> ->]
    by (destruct (ws w1); [by destruct (close_socket_effects z w1)|done]).
  split; [done|]. rewrite H2. eexists. by rewrite <- app_assoc.
Qed.

Lemma onclose_effects w s c code why :
  inv w -> ws w = Some s -> sockets w !! s = Some c -> bound c = true ->
  pending (onclose s code why w) = [] /\ exists es, trace (onclose s code why w) = trace w ++ rejections w ++ es.
Proof.
  intros H Hws Hc Hb. unfold onclose, handleSocketClosed. rewrite Hc, Hb. rewrite decide_True by done.
  set (w0 := with_connection (set_socket s (with_ready c CLOSED) w) _ _ _).
  assert (inv w0) as H0 by exact (inv_connection w None s c (with_ready c CLOSED) (next_socket w) H Hc eq_refl).
  destruct (rejectPending_effects w0 H0) as [H1 H2]. set (w1 := rejectPending w0) in *. clearbody w1.
  destruct (closing w1); simpl; rewrite H2.
  - split; [done|]. exists []. by rewrite app_nil_r.
  - split; [done|]. eexists. by rewrite <- app_assoc.
Qed.

(** C6. No request hangs: each pending request has a live timer, and when it fires the
    request is rejected with the timeout error; when the client closes, or the current
    socket does, every pending request is rejected and the table is empty. *)
Theorem requests_never_hang `{J : JSON} dt w :
  star (client_step dt) new_client w ->
  (forall id, id ∈ dkeys (pending w) -> exists t ms m, timers w !! t = Some (RequestTimeout id ms m) /\
     trace (fireTimer t w) = trace w ++ [Settle id (Rejected (PlainError (timeout_message ms m)))] /\
     id ∉ dkeys (pending (fireTimer t w))) /\
  (pending (close w) = [] /\ exists es, trace (close w) = trace w ++ rejections w ++ es) /\
  (forall s c code why, ws w = Some s -> sockets w !! s = Some c -> bound c = true ->
     pending (onclose s code why w) = [] /\ exists es, trace (onclose s code why w) = trace w ++ rejections w ++ es).
Proof.
  intros H%inv_reachable. split; [|split; [by apply close_effects|by eauto using onclose_effects]].
  - intros id Hid. destruct (dget (pending w) id) as [p|] eqn:Hp; [|by apply dget_None in Hp].
    destruct (i_live w H _ _ Hp) as (ms & m & Ht). exists (req_timer p), ms, m. split; [done|].
    unfold fireTimer. rewrite Ht. unfold requestTimedOut. simpl. rewrite Hp.
    assert (id ∉ dkeys (ddelete (pending w) id)) by (apply dget_None; rewrite dget_ddelete; by goal_decide).
    unfold removeAbortListener. by destruct (abort_signal p).
Qed.

(** A client that connected, sent two requests and received the answer of the first. *)
Definition sample_request : request_args :=
  {| arg_method := "session.list"; arg_payload := VObj []; arg_projectId := Some "p"%string; arg_hubId := None;
     arg_timeoutMs := None; arg_signal := Some 7 |}.
Definition sample_answer : value := VObj [("requestId", VNum (of_Z 1)); ("type", VStr "response")]%string.
#[local] Instance sample_json : JSON := {| JSON_parse := fun _ => Some sample_answer; JSON_stringify := fun _ => ""%string |}.

Definition sample_w1 : world := connect "wss://hub" new_client.
Definition sample_w2 : world := onopen 0 sample_w1.
Definition sample_w3 : world := (request 8000 sample_request sample_w2).2.
Definition sample_w4 : world := (request 8000 sample_request sample_w3).2.
Definition sample_w5 : world := onmessage 0 (Some "") sample_w4.

Example sample_trace :
  trace sample_w5 = [ConnectSettled 0 None; Sent 0 ""; Sent 0 ""; Settle 1 (Resolved sample_answer)] /\ dkeys (pending sample_w5) = [2].
Proof. vm_compute. done. Qed.

Lemma sample_reachable : star (client_step 8000) new_client sample_w5.
Proof.
  apply (star_step _ _ sample_w4); [|apply (step_message 8000 0 (Some ""%string))].
  apply (star_step _ _ sample_w3); [|apply (step_request 8000 sample_request)].
  apply (star_step _ _ sample_w2); [|apply (step_request 8000 sample_request)].
  apply (star_step _ _ sample_w1); [|apply (step_open 8000 0)].
  apply (star_step _ _ new_client); [apply star_refl|apply (step_connect 8000 "wss://hub"%string)].
Defined.

Lemma requests_accounted_witness :
  settled_ids (trace sample_w5) ++ dkeys (pending sample_w5) ≡ₚ seqZ 1 (next_seq sample_w5 - 1).
Proof. apply (requests_accounted 8000 sample_w5 sample_reachable). Defined.

Lemma response_correlated_witness : answers 1 sample_answer.
Proof.
  apply (response_correlated 8000 sample_w5 1 sample_answer sample_reachable).
  rewrite (proj1 sample_trace). do 3 right. left.
Defined.

Lemma requests_never_hang_witness : pending (close sample_w5) = [].
Proof. apply (requests_never_hang 8000 sample_w5 sample_reachable). Defined.
