(* ===== verification/RegistryRepository.v ===== *)
(** [registry/RegistryRepository.ts]: the requests of the registry, one method each.

    A method is a program over the calls of [registry/RegistryClient.ts]; the answer of a
    request is the outcome the client settles its promise with.  What a method returns as
    it came, trusting the type it is cast to, is a [value]; what it reads field by field
    is a record of [RegistryTypes].  Reading a property of [null] or [undefined], and
    calling a method a value does not have, throw a [TypeError]. *)

From S2P Require Import Prelude Json Program RegistryTypes TurnIndex ChatWire RegistryClient RegistryNormalize.
Open Scope Z_scope.

(** * Calls *)

Inductive clientE : Type -> Type :=
  | Request (args : request_args) : clientE outcome
  | Connect (url : string) : clientE (option reason)
  | SendEvent (args : request_args) : clientE (option reason)
  | Close : clientE unit.

Inductive failure := Failed (why : reason) | TypeError.

Notation client A := (prog clientE failure A).

Definition succeed_or_throw (r : option reason) : client unit := match r with Some why => Throw (Failed why) | None => Ret tt end.
Definition typed {A} (o : option A) : client A := match o with Some a => Ret a | None => Throw TypeError end.

(** [(await this.client.request(args)).payload]. *)
Definition ask (args : request_args) : client value :=
  let* o := call (Request args) in
  match o with Resolved envelope => Ret (prop (properties envelope) "payload") | Rejected why => Throw (Failed why) end.

Definition request_of (method : string) (projectId hubId : option string) (payload : list (string * value)) (timeoutMs : option Z)
    (signal : option Z) : request_args :=
  {| arg_method := method; arg_payload := VObj payload; arg_projectId := projectId; arg_hubId := hubId; arg_timeoutMs := timeoutMs;
     arg_signal := signal |}.
Definition ask_registry (method : string) (payload : list (string * value)) (timeoutMs : option Z) : client value :=
  ask (request_of method None None payload timeoutMs None).
Definition ask_project (method projectId : string) (payload : list (string * value)) (timeoutMs : Z) : client value :=
  ask (request_of method (Some projectId) None payload (Some timeoutMs) None).
Definition ask_hub (method hubId : string) (payload : list (string * value)) (timeoutMs : option Z) : client value :=
  ask (request_of method None (Some hubId) payload timeoutMs None).

(** [(resp.payload ?? {}) as {...}]. *)
Definition body_of (payload : value) : list (string * value) := properties (nullish payload (VObj [])).
(** [body.key ?? fallback]. *)
Definition or_else (body : list (string * value)) (key : string) (fallback : value) : value := nullish (prop body key) fallback.
(** [(v ?? []).map(...)] and [.filter(...)]: what is no array has neither. *)
Definition items_of (v : value) : option (list value) :=
  match v with VUndefined | VNull => Some [] | VArr items => Some items | _ => None end.
(** [v.key]. *)
Definition read_prop (v : value) (key : string) : option value :=
  match v with VUndefined | VNull => None | _ => Some (prop (properties v) key) end.

(** [items.filter(item => !!item.key)]. *)
Definition with_key (key : string) (items : list value) : option (list value) :=
  keys ← mapM (fun item => read_prop item key) items;
  Some (map fst (bfilter (fun e => truthy e.2) (zip items keys))).

Definition text (s : string) : value := VStr s.
Definition count (z : Z) : value := VNum (of_Z z).
Definition hub_text (l : list string) : value := VArr (map VStr l).

(** * Sessions *)

Section sessions.
Context `{J : JSON}.

Definition listSessionsByMethod (projectId method : string) : client (list RegistryChatSession) :=
  let* payload := ask_project method projectId [] 15000 in
  let* sessions := typed (items_of (prop (body_of payload) "sessions")) in
  Ret (omap normalizeSessionSummary sessions).
Definition listSessions (projectId : string) : client (list RegistryChatSession) := listSessionsByMethod projectId "session.list".

(** [normalized.session.latestTurnIndex = normalized.latestTurnIndex]. *)
Definition with_latest (latest : Z) (s : RegistryChatSession) : RegistryChatSession := {|
  sess_sessionId := sess_sessionId s; sess_title := sess_title s; sess_preview := sess_preview s;
  sess_updatedAt := sess_updatedAt s; sess_messageCount := sess_messageCount s; sess_unreadCount := sess_unreadCount s;
  sess_agentType := sess_agentType s; sess_createRequestId := sess_createRequestId s; sess_latestTurnIndex := Some latest;
  sess_running := sess_running s; sess_lastDoneTurnIndex := sess_lastDoneTurnIndex s;
  sess_lastDoneSuccess := sess_lastDoneSuccess s; sess_lastReadTurnIndex := sess_lastReadTurnIndex s;
  sess_configOptions := sess_configOptions s; sess_commands := sess_commands s; sess_usage := sess_usage s;
  sess_sessionActions := sess_sessionActions s |}.

(** What [readSessionByMethod] makes of a payload. *)
Definition read_response (payload : value) (sessionId : string) : SessionReadResponse RegistryChatSession :=
  let input := nullish payload (VObj []) in
  match normalizeSessionReadPayload input sessionId normalizeSessionSummary with
  | None => {| read_sessionId := ""; read_session := None; read_turns := []; read_messages := [];
               read_latestTurnIndex := default 0 (count_field (prop (properties input) "latestTurnIndex")) |}
  | Some normalized =>
      {| read_sessionId := read_sessionId normalized;
         read_session := with_latest (read_latestTurnIndex normalized) <$> read_session normalized;
         read_turns := read_turns normalized;
         read_messages := omap (decodeSessionTurnToMessage (read_sessionId normalized)) (read_turns normalized);
         read_latestTurnIndex := read_latestTurnIndex normalized |}
  end.

Definition read_payload (sessionId : string) (afterTurnIndex : Z) : list (string * value) :=
  if 0 <? afterTurnIndex then [("sessionId", text sessionId); ("afterTurnIndex", count afterTurnIndex)]%string
  else [("sessionId", text sessionId)]%string.

Definition readSessionByMethod (projectId sessionId : string) (afterTurnIndex : Z) (method : string) : client (SessionReadResponse RegistryChatSession) :=
  let* payload := ask_project method projectId (read_payload sessionId afterTurnIndex) 15000 in
  Ret (read_response payload sessionId).
Definition readSession (projectId sessionId : string) (afterTurnIndex : Z) : client (SessionReadResponse RegistryChatSession) :=
  readSessionByMethod projectId sessionId afterTurnIndex "session.read".

Definition empty_session (sessionId title : string) (agentType : option string) (running : option bool) : RegistryChatSession := {|
  sess_sessionId := sessionId; sess_title := title; sess_preview := ""; sess_updatedAt := ""; sess_messageCount := 0;
  sess_unreadCount := None; sess_agentType := agentType; sess_createRequestId := None; sess_latestTurnIndex := None;
  sess_running := running; sess_lastDoneTurnIndex := None; sess_lastDoneSuccess := None; sess_lastReadTurnIndex := None;
  sess_configOptions := None; sess_commands := None; sess_usage := None; sess_sessionActions := None |}.

(** [{ok, sessionId}]. *)
Record session_ack := { ack_ok : value; ack_sessionId : value }.
Definition ack_of (payload : value) (sessionId : value) : session_ack :=
  let body := body_of payload in {| ack_ok := or_else body "ok" (VBool false); ack_sessionId := or_else body "sessionId" sessionId |}.

Definition readSessionArtifact (projectId sessionId artifactId : string) : client value :=
  let* payload := ask_project "session.artifact.read" projectId [("sessionId", text sessionId); ("artifactId", text artifactId)]%string 30000 in
  let body := body_of payload in
  Ret (VObj [("artifactId", or_else body "artifactId" (text artifactId)); ("type", or_else body "type" (text "diff"));
             ("format", or_else body "format" (text "unified-diff")); ("content", or_else body "content" (text ""))]%string).

Definition startSessionSearch (projectId searchId query : string) : client (string * bool) :=
  let* payload := ask_project "session.search" projectId
    [("action", text "start"); ("searchId", text searchId); ("query", text query)]%string 15000 in
  Ret (normalizeSessionSearchStatusResponse payload searchId).
Definition querySessionSearch (projectId searchId : string) : client RegistrySessionSearchResponse :=
  let* payload := ask_project "session.search" projectId [("action", text "query"); ("searchId", text searchId)]%string 15000 in
  Ret (normalizeSessionSearchResponse payload projectId searchId).
Definition cancelSessionSearch (projectId searchId : string) : client (string * bool) :=
  let* payload := ask_project "session.search" projectId [("action", text "cancel"); ("searchId", text searchId)]%string 15000 in
  Ret (normalizeSessionSearchStatusResponse payload searchId).

Definition markSessionRead (projectId sessionId : string) (lastReadTurnIndex : num) : client (value * option RegistryChatSession) :=
  let cursor := match lastReadTurnIndex with Fin q => Z.max 0 (trunc q) | _ => 0 end in
  let* payload := ask_project "session.markRead" projectId [("sessionId", text sessionId); ("lastReadTurnIndex", count cursor)]%string 15000 in
  let body := body_of payload in
  Ret (or_else body "ok" (VBool false), normalizeSessionSummary (prop body "session")).

(** [normalizeAgentType(agentType) ?? agentType.trim()]. *)
Definition agent_of (agentType : string) : string := default (trim agentType) (normalizeAgentType (text agentType)).
Definition optional_text (key v : string) : list (string * value) := if nonempty v then [(key, text v)] else [].
Definition SESSION_CREATE_TIMEOUT_MS : Z := 120000.

(** The session of the response is not read field by field. *)
Definition createSession (projectId agentType : string) (title createRequestId : option string) : client (value * value) :=
  let agentType := agent_of agentType in
  let normalizedTitle := trim (default "" title) in
  let* payload := ask_project "session.create" projectId
    ([("agentType", text agentType)]%string ++ optional_text "title" normalizedTitle ++
     optional_text "createRequestId" (trim (default "" createRequestId))) SESSION_CREATE_TIMEOUT_MS in
  let body := body_of payload in
  Ret (or_else body "ok" (VBool false),
       or_else body "session" (VObj [("sessionId", text ""); ("title", text normalizedTitle); ("preview", text "");
         ("updatedAt", text ""); ("messageCount", count 0); ("agentType", text agentType)]%string)).

Definition sendSessionMessage (projectId : string) (payload : list (string * value)) : client session_ack :=
  let* answer := ask_project "session.send" projectId payload 30000 in
  Ret (ack_of answer (prop payload "sessionId")).

Definition statusSession (projectId sessionId : string) : client RegistrySessionStatusResult :=
  let* payload := ask_project "session.status" projectId [("sessionId", text sessionId)]%string 30000 in
  let body := fields_of payload in
  Ret {| status_ok := true_field (prop body "ok"); status_sessionId := sessionId;
         status_context := normalizeSessionStatusContext (prop body "context");
         status_limits := default [] (list_field normalizeSessionRateLimit (prop body "limits"));
         status_account := normalizeSessionStatusAccount (prop body "account"); status_updatedAt := string_or (prop body "updatedAt") "" |}.

(** [{ok, accepted, sessionId, operationId}]. *)
Definition compactSession (projectId sessionId : string) : client (bool * bool * string * string) :=
  let* payload := ask_project "session.compact" projectId [("sessionId", text sessionId)]%string 30000 in
  let body := fields_of payload in
  Ret (true_field (prop body "ok"), true_field (prop body "accepted"), sessionId, string_or (prop body "operationId") "").

(** ** Attachments *)

(** The payload of an attachment request is the caller's object. *)
Definition startSessionAttachment (projectId : string) (payload : list (string * value)) : client value :=
  let* answer := ask_project "session.attachment.start" projectId payload 30000 in
  let body := body_of answer in
  Ret (VObj [("ok", or_else body "ok" (VBool false)); ("sessionId", or_else body "sessionId" (prop payload "sessionId"));
             ("uploadId", or_else body "uploadId" (text "")); ("chunkSize", or_else body "chunkSize" (count (1024 * 1024)));
             ("expiresIn", prop body "expiresIn")]%string).
Definition uploadSessionAttachmentChunk (projectId : string) (payload : list (string * value)) : client value :=
  let* answer := ask_project "session.attachment.chunk" projectId payload 30000 in
  let body := body_of answer in
  Ret (VObj [("ok", or_else body "ok" (VBool false)); ("sessionId", or_else body "sessionId" (prop payload "sessionId"));
             ("uploadId", or_else body "uploadId" (prop payload "uploadId")); ("received", or_else body "received" (prop payload "offset"))]%string).
Definition finishSessionAttachment (projectId : string) (payload : list (string * value)) : client value :=
  let* answer := ask_project "session.attachment.finish" projectId payload 30000 in
  let body := body_of answer in
  Ret (VObj [("ok", or_else body "ok" (VBool false)); ("sessionId", or_else body "sessionId" (prop payload "sessionId"));
             ("attachment", or_else body "attachment"
                (VObj [("id", text ""); ("name", text ""); ("size", count 0); ("uri", text "")]));
             ("block", or_else body "block"
                (VObj [("type", text "resource_link"); ("uri", text ""); ("name", text ""); ("size", count 0)]))]%string).
Definition cancelSessionAttachment (projectId : string) (payload : list (string * value)) : client value :=
  let* answer := ask_project "session.attachment.cancel" projectId payload 15000 in
  let body := body_of answer in
  Ret (VObj [("ok", or_else body "ok" (VBool false)); ("sessionId", or_else body "sessionId" (prop payload "sessionId"));
             ("uploadId", or_else body "uploadId" (prop payload "uploadId"))]%string).
Definition deleteSessionAttachment (projectId : string) (payload : list (string * value)) : client value :=
  let* answer := ask_project "session.attachment.delete" projectId payload 15000 in
  let body := body_of answer in
  Ret (VObj [("ok", or_else body "ok" (VBool false)); ("sessionId", or_else body "sessionId" (prop payload "sessionId"));
             ("attachmentId", or_else body "attachmentId" (prop payload "attachmentId"))]%string).

Definition attachment_content (answer : value) (payload : list (string * value)) : value :=
  let body := body_of answer in
  VObj [("ok", or_else body "ok" (VBool false)); ("sessionId", or_else body "sessionId" (prop payload "sessionId"));
        ("attachmentId", or_else body "attachmentId" (nullish (prop payload "attachmentId") (text "")));
        ("mimeType", prop body "mimeType"); ("encoding", or_else body "encoding" (text "base64"));
        ("content", or_else body "content" (text "")); ("isBinary", prop body "isBinary"); ("width", prop body "width");
        ("height", prop body "height"); ("size", prop body "size"); ("hash", prop body "hash")]%string.
Definition readSessionAttachmentThumbnail (projectId : string) (payload : list (string * value)) : client value :=
  let* answer := ask_project "session.attachment.thumbnail" projectId payload 15000 in
  Ret (attachment_content answer payload).
Definition readSessionAttachment (projectId : string) (payload : list (string * value)) : client value :=
  let* answer := ask_project "session.attachment.read" projectId payload 30000 in
  Ret (attachment_content answer payload).

(** ** Cancelling, archiving and restoring *)

Definition session_only (sessionId : string) : list (string * value) := [("sessionId", text sessionId)]%string.

Definition cancelSession (projectId sessionId : string) : client session_ack :=
  let* payload := ask_project "session.cancel" projectId (session_only sessionId) 15000 in
  Ret (ack_of payload (text sessionId)).
Definition archiveSession (projectId sessionId : string) : client (session_ack * option string) :=
  let* payload := ask_project "session.archive" projectId (session_only sessionId) 30000 in
  Ret (ack_of payload (text sessionId), string_field (prop (body_of payload) "warning")).
Definition listArchivedSessions (projectId : string) : client (list RegistryArchivedSessionSummary) :=
  let* payload := ask_project "session.archive.list" projectId [] 15000 in
  let* sessions := typed (items_of (prop (body_of payload) "sessions")) in
  Ret (omap normalizeArchivedSessionSummary sessions).

Definition empty_archived (sessionId : string) : RegistryArchivedSessionSummary := {|
  arch_session := empty_session sessionId "" None (Some false); arch_projectName := None; arch_createdAt := None; arch_archivedAt := "";
  arch_restoredAt := None; arch_turnCount := 0; arch_gapCount := 0; arch_nativeArchivedAt := None; arch_nativeUnarchivedAt := None;
  arch_nativeSyncWarning := None |}.

(** What [readArchivedSession] makes of a payload. *)
Definition archive_response (payload : value) (sessionId : string) : SessionReadResponse RegistryArchivedSessionSummary :=
  let input := nullish payload (VObj []) in
  let normalized := normalizeSessionReadPayload input sessionId normalizeArchivedSessionSummary in
  let session := default (empty_archived sessionId) (normalizeArchivedSessionSummary (prop (properties input) "session")) in
  let id := match normalized with Some n => read_sessionId n | None => sessionId end in
  let turns := match normalized with Some n => read_turns n | None => [] end in
  {| read_sessionId := id; read_session := Some session; read_turns := turns;
     read_messages := omap (decodeSessionTurnToMessage id) turns;
     read_latestTurnIndex := match normalized with Some n => read_latestTurnIndex n | None => 0 end |}.
Definition readArchivedSession (projectId sessionId : string) : client (SessionReadResponse RegistryArchivedSessionSummary) :=
  let* payload := ask_project "session.archive.read" projectId (session_only sessionId) 15000 in
  Ret (archive_response payload sessionId).

(** [{ok, sessionId, session, warning}]. *)
Definition restoreArchivedSession (projectId sessionId : string) : client (session_ack * RegistryChatSession * option string) :=
  let* payload := ask_project "session.archive.restore" projectId (session_only sessionId) 30000 in
  let body := body_of payload in
  Ret (ack_of payload (text sessionId),
       default (empty_session sessionId "" None None) (normalizeSessionSummary (prop body "session")),
       string_field (prop body "warning")).
Definition deleteSession (projectId sessionId : string) : client session_ack :=
  let* payload := ask_project "session.delete" projectId (session_only sessionId) 30000 in
  Ret (ack_of payload (text sessionId)).

(** The acknowledgement without an id has that of the session. *)
Definition renameSession (projectId sessionId title : string) : client (session_ack * RegistryChatSession) :=
  let* payload := ask_project "session.rename" projectId [("sessionId", text sessionId); ("title", text title)]%string 15000 in
  let session := default (empty_session sessionId title None None) (normalizeSessionSummary (prop (body_of payload) "session")) in
  Ret (ack_of payload (text (sess_sessionId session)), session).

Definition setSessionConfig (projectId : string) (payload : list (string * value)) : client (session_ack * list RegistrySessionConfigOption) :=
  let* answer := ask_project "session.config" projectId payload 15000 in
  Ret (ack_of answer (prop payload "sessionId"),
       default [] (list_field normalizeSessionConfigOption (prop (body_of answer) "configOptions"))).

Definition listResumableSessions (projectId agentType : string) : client value :=
  let* payload := ask_project "session.resume.list" projectId [("agentType", text (agent_of agentType))]%string 15000 in
  Ret (or_else (body_of payload) "sessions" (VArr [])).
Definition importResumedSession (projectId agentType sessionId : string) : client (value * value) :=
  let agentType := agent_of agentType in
  let* payload := ask_project "session.resume.import" projectId [("agentType", text agentType); ("sessionId", text sessionId)]%string 15000 in
  let body := body_of payload in
  Ret (or_else body "ok" (VBool false),
       or_else body "session" (VObj [("sessionId", text sessionId); ("title", text ""); ("preview", text ""); ("updatedAt", text "");
         ("messageCount", count 0); ("agentType", text agentType)]%string)).
Definition reloadSession (projectId sessionId : string) : client session_ack :=
  let* payload := ask_project "session.reload" projectId (session_only sessionId) 30000 in
  Ret (ack_of payload (text sessionId)).
End sessions.

(** * The registry *)

(** [initialize]: the socket is opened, then the client introduces itself. *)
Definition initialize (url clientName : string) : client unit :=
  let* opened := call (Connect url) in
  do* succeed_or_throw opened in
  let* _answer := ask_registry "connect.init" [("clientName", text clientName); ("clientVersion", text "0.1.0");
    ("protocolVersion", text "2.6"); ("role", text "client")]%string None in
  Ret tt.

Definition closeClient : client unit := call Close.

(** ** Projects and hubs *)

Definition agentsOf (v : value) : value :=
  match v with VArr items => hub_text (omap normalizeAgentType items) | _ => VUndefined end.

(** [item?.name]. *)
Definition profileOf (item : value) : option value :=
  let name := default "" (normalizeAgentType (prop (properties item) "name")) in
  if negb (nonempty name) then None else
  let skills := match prop (properties item) "skills" with
                | VArr items => bfilter nonempty (map trim (omap string_field items)) | _ => [] end in
  Some (VObj [("name", text name); ("skills", hub_text skills)]%string).
Definition profilesOf (v : value) : value := match v with VArr items => VArr (omap profileOf items) | _ => VUndefined end.

(** [project.hubId || project.projectId.split(':', 1)[0] || '']: only a text can be split. *)
Definition hubIdOf (project : list (string * value)) : option value :=
  if truthy (prop project "hubId") then Some (prop project "hubId") else
  match prop project "projectId" with
  | VStr s => Some (text (match split ":" s with part :: _ => part | [] => "" end))
  | _ => None
  end.

(** The project is spread and four of its fields are set. *)
Definition normalizeProject (project : list (string * value)) : option (list (string * value)) :=
  hubId ← hubIdOf project;
  let agent := match normalizeAgentType (prop project "agent") with Some a => text a | None => VUndefined end in
  Some (dset (dset (dset (dset project "agent" agent) "agents" (agentsOf (prop project "agents")))
    "agentProfiles" (profilesOf (prop project "agentProfiles"))) "hubId" hubId)%string.

(** The loop over the hubs, with the ids seen. *)
Definition addHub (acc : list string * list string) (hub : value) : list string * list string :=
  let hubId := trim (string_or (prop (properties hub) "hubId") "") in
  if negb (nonempty hubId) || bool_decide (hubId ∈ acc.1) then acc else (hubId :: acc.1, acc.2 ++ [hubId]).
Definition hubsOf (hubs : list value) : list string := (foldl addHub ([], []) hubs).2.

(** [RegistryProjectListResponse]; a hub is its id. *)
Record ProjectSnapshot := { snap_projects : list (list (string * value)); snap_hubs : list string }.
Definition project_id_of (project : list (string * value)) : value := prop project "projectId".

Definition project_snapshot (payload : value) : option ProjectSnapshot :=
  let body := body_of payload in
  items ← items_of (prop body "projects");
  kept ← with_key "projectId" items;
  projects ← mapM normalizeProject (map properties kept);
  hubs ← items_of (prop body "hubs");
  Some {| snap_projects := projects; snap_hubs := hubsOf hubs |}.

Definition listProjectSnapshot : client ProjectSnapshot :=
  let* payload := ask_registry "registry.project.list" [] None in typed (project_snapshot payload).
Definition listProjects : client (list (list (string * value))) :=
  let* snapshot := listProjectSnapshot in Ret (snap_projects snapshot).

(** ** Devices, settings and credentials *)

Definition listDeviceSessions : client (list RegistryDeviceSession) :=
  let* payload := ask_registry "security.session.list" [] None in
  Ret (default [] (list_field normalizeDeviceSession (prop (body_of payload) "sessions"))).
Definition revokeDeviceSession (deviceId : string) : client unit :=
  let* _answer := ask_registry "security.session.revoke" [("deviceId", text deviceId)]%string None in Ret tt.
Definition revokeAllDeviceSessions : client unit :=
  let* _answer := ask_registry "security.session.revokeAll" [] None in Ret tt.

(** [{accessToken, version, model}]. *)
Definition getAndroidSpeechCredential : client (string * string * string) :=
  let* payload := ask_registry "server.androidSpeechCredential.get" [] None in
  let input := fields_of payload in
  match prop input "accessToken", prop input "version", prop input "model" with
  | VStr accessToken, VStr version, VStr model =>
      if nonempty accessToken && String.eqb model "doubao-streaming-asr-2.0" then Ret (accessToken, version, model)
      else Throw (Failed (PlainError "invalid Android speech credential response"))
  | _, _, _ => Throw (Failed (PlainError "invalid Android speech credential response"))
  end.

Definition uploadDebugLog (payload : list (string * value)) : client (bool * value) :=
  let* answer := ask_registry "debug.uploadLog" payload (Some 15000) in
  let body := body_of answer in Ret (true_field (prop body "ok"), or_else body "fileName" (text "")).

Definition synthesizeTTS (payload : list (string * value)) : client (string * string) :=
  let* answer := ask_registry "tts.synthesize" payload (Some 50000) in
  let body := body_of answer in
  match prop body "audioBase64" with
  | VStr audio => if nonempty audio then Ret (audio, string_or (prop body "format") "wav")
                  else Throw (Failed (PlainError "TTS response contains no audio data"))
  | _ => Throw (Failed (PlainError "TTS response contains no audio data"))
  end.

Definition relay_disabled : value := VObj [("ok", VBool true); ("enabled", VBool false); ("status", text "Disabled")]%string.
Definition getPortRelayStatus : client value :=
  let* payload := ask_registry "registry.relay.status" [] None in Ret (nullish payload relay_disabled).
Definition enablePortRelay (request : list (string * value)) : client value :=
  let* payload := ask_registry "registry.relay.enable" request (Some 15000) in Ret (nullish payload (VObj [])).
Definition disablePortRelay : client value :=
  let* payload := ask_registry "registry.relay.disable" [] None in Ret (nullish payload relay_disabled).
Definition regeneratePortRelayAccessCode (accessCode : string) : client value :=
  let* payload := ask_registry "registry.relay.regenerateAccessCode" [("accessCode", text accessCode)]%string None in
  Ret (nullish payload (VObj [])).

(** ** The state of a hub *)

Definition hub_state (payload : value) (hubId : string) : RegistryHubState := normalizeHubState (prop (body_of payload) "state") hubId.
Definition getHubState (hubId : string) (sections : list string) : client RegistryHubState :=
  let* payload := ask_hub "hub.state.get" hubId (match sections with [] => [] | _ => [("sections", hub_text sections)] end)%string (Some 15000) in
  Ret (hub_state payload hubId).
Definition refreshHubState (hubId : string) (sections : list string) (force : bool) : client RegistryHubState :=
  let* payload := ask_hub "hub.state.refresh" hubId
    ([("sections", hub_text sections)]%string ++ (if force then [("force", VBool true)]%string else [])) (Some 60000) in
  Ret (hub_state payload hubId).
Definition runHubStateAction (hubId section action : string) (params : list (string * value)) : client RegistryHubState :=
  let* payload := ask_hub "hub.state.action" hubId
    [("section", text section); ("action", text action); ("params", VObj params)]%string (Some 60000) in
  Ret (hub_state payload hubId).

Definition normalizeTokenProvider (item : value) : option value :=
  fields ← object_fields item;
  let id := trim (string_or (prop fields "id") "") in
  if negb (nonempty id) then None else
  Some (VObj [("id", text id); ("name", text (string_or (prop fields "name") id));
              ("authMode", text (string_or (prop fields "authMode") "api_key"))]%string).
Definition listTokenProviders (projectId : string) : client (list value) :=
  let* state := runHubStateAction (hubIdFromProjectId projectId) "tokenStats" "providers" [] in
  Ret (default [] (list_field normalizeTokenProvider (prop (body_of (hubStateSectionData state "tokenStats")) "providers"))).

Definition fetchDeepSeekTokenStats (projectId : string) (payload : list (string * value)) : client value :=
  let* state := runHubStateAction (hubIdFromProjectId projectId) "tokenStats" "deepseekStats" payload in
  let rangeType := or_else payload "rangeType" (text "day") in
  let month := or_else payload "month" (text "") in
  Ret (nullish (hubStateSectionData state "tokenStats")
    (VObj [("ok", VBool false); ("provider", text "deepseek"); ("rangeType", rangeType); ("month", month); ("updatedAt", text "");
           ("balance", VObj [("isAvailable", VBool false); ("items", VArr [])]);
           ("usage", VObj [("rangeType", rangeType); ("month", month); ("rows", VArr [])]);
           ("usageUnavailable", VBool true); ("usageMessage", text "missing hub state response")]%string)).
Definition scanTokenStats (hubId : string) : client value :=
  let* state := refreshHubState hubId ["tokenStats"%string] false in
  Ret (nullish (hubStateSectionData state "tokenStats")
    (VObj [("ok", VBool false); ("updatedAt", text ""); ("providers", VArr [])]%string)).

Definition npm_response (hubId : string) (state : RegistryHubState) : RegistryNpmCommandResponse :=
  normalizeNpmCommandResponse (hubStateSectionData state "agentPackages") hubId.
Definition scanNpmPackages (hubId : string) : client RegistryNpmCommandResponse :=
  let* state := refreshHubState hubId ["agentPackages"%string] false in Ret (npm_response hubId state).
Definition installNpmPackage (hubId packageName version : string) : client RegistryNpmCommandResponse :=
  let* state := runHubStateAction hubId "agentPackages" "install" [("packageName", text packageName); ("version", text version)]%string in
  Ret (npm_response hubId state).
Definition installNpmPackages (hubId : string) (packageNames : list string) (version : string) : client RegistryNpmCommandResponse :=
  let* state := runHubStateAction hubId "agentPackages" "installMany"
    [("packageNames", hub_text packageNames); ("version", text version)]%string in
  Ret (npm_response hubId state).
Definition uninstallNpmPackage (hubId packageName : string) : client RegistryNpmCommandResponse :=
  let* state := runHubStateAction hubId "agentPackages" "uninstall" [("packageName", text packageName)]%string in
  Ret (npm_response hubId state).

Definition missing_update (hubId : string) : value :=
  VObj [("ok", VBool false); ("status", text "checking_failed"); ("hubId", text hubId); ("pendingSignal", VBool false);
        ("canUpdatePublish", VBool false); ("error", text "missing hub state response")]%string.
Definition queryWheelMakerUpdate (hubId : string) (force : bool) : client value :=
  let* state := refreshHubState hubId ["wheelmakerUpdate"%string] force in
  Ret (nullish (hubStateSectionData state "wheelmakerUpdate") (missing_update hubId)).
Definition requestWheelMakerUpdatePublish (hubId : string) : client value :=
  let* state := runHubStateAction hubId "wheelmakerUpdate" "updatePublish" [] in
  Ret (nullish (hubStateSectionData state "wheelmakerUpdate") (missing_update hubId)).

Definition skills_response (state : RegistryHubState) (missing : list (string * value)) : value :=
  nullish (hubStateSectionData state "skills")
    (VObj ([("ok", VBool false)]%string ++ missing ++ [("errorSummary", text "missing hub state response")]%string)).
Definition scanSkills (hubId : string) : client value :=
  let* state := refreshHubState hubId ["skills"%string] false in Ret (skills_response state [("hubId", text hubId)]%string).
Definition listSkillsSource (hubId source : string) : client value :=
  let* state := runHubStateAction hubId "skills" "listSource" [("source", text source)]%string in
  Ret (skills_response state [("hubId", text hubId); ("source", text source)]%string).
(** [const {hubId, ...params} = payload]. *)
Definition skills_action (action hubId : string) (params : list (string * value)) : client value :=
  let* state := runHubStateAction hubId "skills" action params in Ret (skills_response state [("hubId", text hubId)]%string).
Definition installSkills : string -> list (string * value) -> client value := skills_action "install".
Definition uninstallSkills : string -> list (string * value) -> client value := skills_action "uninstall".
Definition getSkillDetail : string -> list (string * value) -> client value := skills_action "detail".
Definition updateSkills : string -> list (string * value) -> client value := skills_action "update".

(** ** Files *)

(** [String(v)] of what a template holds. *)
Section text.
Context `{J : JSON}.
Fixpoint toText (v : value) : string :=
  match v with
  | VUndefined => "undefined"
  | VNull => "null"
  | VBool b => if b then "true" else "false"
  | VNum NaN => "NaN"
  | VNum PosInf => "Infinity"
  | VNum NegInf => "-Infinity"
  | VNum n => JSON_stringify (VNum n)
  | VStr s => s
  | VArr items => join "," (map (fun item => match item with VUndefined | VNull => ""%string | _ => toText item end) items)
  | VObj _ => "[object Object]"
  end.

Definition strip_slashes (s : string) : string :=
  unchars (reverse ((fix strip l := match l with c :: l' => if bool_decide (c = "/"%char) then strip l' else l | [] => [] end) (reverse (chars s)))).
(** [(parent || '.').replace(...)]: only a text can be replaced in. *)
Definition joinPath (parent : value) (name : value) : option value :=
  match (if truthy parent then parent else text ".") with
  | VStr p => let cleanParent := unchars (map (fun c => if bool_decide (c = "\"%char) then "/"%char else c) (chars p)) in
              if String.eqb cleanParent "." || negb (nonempty cleanParent) then Some name
              else Some (text (strip_slashes cleanParent +:+ "/" +:+ toText name))
  | _ => None
  end.

(** [entry.path && entry.path.trim().length > 0 ? entry.path : joinPath(...)]. *)
Definition entryPath (basePath : value) (entry : list (string * value)) : option value :=
  match prop entry "path" with
  | VStr s => if nonempty (trim s) then Some (text s) else joinPath basePath (prop entry "name")
  | v => if truthy v then None else joinPath basePath (prop entry "name")
  end.
Definition normalizeEntry (basePath : value) (entry : list (string * value)) : option (list (string * value)) :=
  path ← entryPath basePath entry; Some (dset entry "path"%string path).

Record RegistryFsListResponse := {
  list_path : value; list_hash : value; list_notModified : value; list_entries : list (list (string * value))
}.

(** [entries.filter(entry => !!entry?.name)]. *)
Definition files_response (payload : value) (path : string) : option RegistryFsListResponse :=
  let body := body_of payload in
  let basePath := or_else body "path" (text path) in
  items ← items_of (prop body "entries");
  let named := bfilter (fun entry => truthy (prop (properties entry) "name")) items in
  entries ← mapM (fun entry => normalizeEntry basePath (properties entry)) named;
  Some {| list_path := basePath; list_hash := prop body "hash"; list_notModified := or_else body "notModified" (VBool false);
          list_entries := entries |}.
Definition listFiles (projectId path : string) (knownHash : option string) : client RegistryFsListResponse :=
  let* payload := ask_project "project.fs.list" projectId
    ([("path", text path)]%string ++ optional_text "knownHash" (default "" knownHash)) 20000 in
  typed (files_response payload path).
End text.

Definition getFileInfo (projectId path : string) (signal : option Z) : client value :=
  let* payload := ask (request_of "project.fs.info" (Some projectId) None [("path", text path)]%string None signal) in
  let body := body_of payload in
  let tabSize := match number_field (prop body "tabSize") with
                 | Some q => count (Z.max 1 (Z.min 12 (trunc q))) | None => VUndefined end in
  Ret (VObj [("path", or_else body "path" (text path)); ("kind", or_else body "kind" (text "file"));
             ("size", or_else body "size" (count 0)); ("isBinary", or_else body "isBinary" (VBool false));
             ("mimeType", or_else body "mimeType" (text "")); ("totalLines", or_else body "totalLines" (count 0));
             ("tabSize", tabSize); ("entryCount", or_else body "entryCount" (count 0)); ("hash", or_else body "hash" (text ""))]%string).

Definition readFile (projectId path : string) (knownHash : option string) (signal : option Z) : client value :=
  let* payload := ask (request_of "project.fs.read" (Some projectId) None
    ([("path", text path)]%string ++ optional_text "knownHash" (default "" knownHash)) None signal) in
  let body := body_of payload in
  Ret (VObj [("path", or_else body "path" (text path)); ("hash", prop body "hash");
             ("notModified", or_else body "notModified" (VBool false)); ("isBinary", or_else body "isBinary" (VBool false));
             ("mimeType", or_else body "mimeType" (text "")); ("encoding", or_else body "encoding" (text "utf-8"));
             ("content", or_else body "content" (text "")); ("size", or_else body "size" (count 0));
             ("total", or_else body "total" (count 0)); ("returned", or_else body "returned" (count 0))]%string).

Definition getFileIndexStatus (hubId : string) : client value :=
  let* state := refreshHubState hubId ["fileIndex"%string] false in
  let payload := properties (nullish (hubStateSectionData state "fileIndex") (VObj [("hubId", text hubId); ("projects", VArr [])]%string)) in
  Ret (VObj [("hubId", or_else payload "hubId" (text hubId));
             ("projects", match prop payload "projects" with VArr l => VArr l | _ => VArr [] end)]%string).
Definition rebuildFileIndex (projectId : string) : client value :=
  let* state := runHubStateAction (hubIdFromProjectId projectId) "fileIndex" "rebuild" [("projectId", text projectId)]%string in
  Ret (nullish (hubStateSectionData state "fileIndex")
    (VObj [("ok", VBool false); ("accepted", VBool false); ("running", VBool false); ("projectId", text projectId);
           ("status", text "error")]%string)).
Definition searchFileIndex (projectId : string) (payload : list (string * value)) : client value :=
  let* answer := ask_project "project.fs.index.search" projectId payload 20000 in
  let body := body_of answer in
  Ret (VObj [("query", or_else body "query" (prop payload "query"));
             ("querySessionId", or_else body "querySessionId" (prop payload "querySessionId"));
             ("queryId", or_else body "queryId" (prop payload "queryId")); ("status", or_else body "status" (text "missing"));
             ("indexed", VBool (true_field (prop body "indexed")));
             ("fileCount", match prop body "fileCount" with VNum n => VNum n | _ => count 0 end);
             ("results", match prop body "results" with VArr l => VArr l | _ => VArr [] end); ("error", prop body "error")]%string).

(** ** Git *)

Definition gitRev (projectId : string) : client value :=
  let* payload := ask_project "project.git.rev" projectId [] 8000 in
  let body := body_of payload in
  Ret (VObj [("gitRev", or_else body "gitRev" (text "")); ("worktreeRev", or_else body "worktreeRev" (text ""))]%string).
Definition gitLog (projectId ref cursor : string) (limit : Z) (refs : list string) : client (list value) :=
  let normalizedRefs := bfilter nonempty (map trim refs) in
  let* payload := ask_project "project.git.log" projectId
    ([("ref", text ref)]%string ++ (match normalizedRefs with [] => [] | _ => [("refs", hub_text normalizedRefs)]%string end) ++
     [("cursor", text cursor); ("limit", count limit)]%string) 30000 in
  typed (commits ← items_of (prop (body_of payload) "commits"); with_key "sha" commits).
Definition gitBranches (projectId : string) : client value :=
  let* payload := ask_project "project.git.refs" projectId [] 20000 in
  let body := body_of payload in
  Ret (VObj [("current", or_else body "current" (text "")); ("branches", or_else body "branches" (VArr []));
             ("remoteBranches", or_else body "remoteBranches" (VArr []))]%string).
Definition gitCommitFiles (projectId sha : string) : client (list value) :=
  let* payload := ask_project "project.git.commit.files" projectId [("sha", text sha)]%string 20000 in
  typed (files ← items_of (prop (body_of payload) "files"); with_key "path" files).
Definition gitCommitFileDiff (projectId sha path : string) (contextLines : Z) : client value :=
  let* payload := ask_project "project.git.commit.fileDiff" projectId
    [("sha", text sha); ("path", text path); ("contextLines", count contextLines)]%string 30000 in
  let body := body_of payload in
  Ret (VObj [("sha", or_else body "sha" (text sha)); ("path", or_else body "path" (text path));
             ("isBinary", or_else body "isBinary" (VBool false)); ("diff", or_else body "diff" (text ""));
             ("truncated", or_else body "truncated" (VBool false))]%string).
Definition gitStatus (projectId : string) : client value :=
  let* payload := ask_project "project.git.status" projectId [] 20000 in
  let body := body_of payload in
  Ret (VObj [("dirty", or_else body "dirty" (VBool false)); ("worktreeRev", or_else body "worktreeRev" (text ""));
             ("staged", or_else body "staged" (VArr [])); ("unstaged", or_else body "unstaged" (VArr []));
             ("untracked", or_else body "untracked" (VArr []))]%string).
Definition gitWorkingTreeFileDiff (projectId path scope : string) (contextLines : Z) : client value :=
  let* payload := ask_project "project.git.workingTree.fileDiff" projectId
    [("path", text path); ("scope", text scope); ("contextLines", count contextLines)]%string 30000 in
  let body := body_of payload in
  Ret (VObj [("path", or_else body "path" (text path)); ("scope", or_else body "scope" (text scope));
             ("isBinary", or_else body "isBinary" (VBool false)); ("diff", or_else body "diff" (text ""));
             ("truncated", or_else body "truncated" (VBool false))]%string).

(** ** Terminals and speech *)

Definition listTerminals (hubId : string) : client (list value) :=
  let* payload := ask_hub "terminal.list" hubId [] None in
  Ret (match prop (body_of payload) "terminals" with VArr l => l | _ => [] end).
Definition createTerminal (projectId : string) (cols rows : Z) : client value :=
  let* payload := ask (request_of "terminal.create" (Some projectId) None [("cols", count cols); ("rows", count rows)]%string None None) in
  Ret (nullish payload (VObj [])).
Definition getTerminal (hubId terminalId : string) : client value :=
  let* payload := ask_hub "terminal.get" hubId [("terminalId", text terminalId)]%string None in Ret (nullish payload (VObj [])).
Definition resizeTerminal (hubId : string) (payload : list (string * value)) : client value :=
  let* answer := ask_hub "terminal.resize" hubId payload None in Ret (nullish answer (VObj [])).
Definition closeTerminal (hubId terminalId : string) : client unit :=
  let* _answer := ask_hub "terminal.close" hubId [("terminalId", text terminalId)]%string None in Ret tt.
Definition restartTerminal (hubId terminalId : string) : client value :=
  let* payload := ask_hub "terminal.restart" hubId [("terminalId", text terminalId)]%string None in Ret (nullish payload (VObj [])).
Definition sendTerminalInput (hubId : string) (payload : list (string * value)) : client unit :=
  let* sent := call (SendEvent (request_of "terminal.input" None (Some hubId) payload None None)) in succeed_or_throw sent.

Definition startSpeech (payload : list (string * value)) : client value :=
  let* answer := ask_registry "speech.start" payload (Some 15000) in Ret (nullish answer (VObj [])).
Definition sendSpeechChunk (payload : list (string * value)) : client unit :=
  let* _answer := ask_registry "speech.chunk" payload (Some 8000) in Ret tt.
Definition finishSpeech (payload : list (string * value)) : client unit :=
  let* _answer := ask_registry "speech.finish" payload (Some 15000) in Ret tt.
Definition cancelSpeech (payload : list (string * value)) : client unit :=
  let* _answer := ask_registry "speech.cancel" payload (Some 8000) in Ret tt.

(** * What a snapshot holds *)

(** The loop with a set of seen hubs is the list of the distinct trimmed ids. *)
Definition hub_name (hub : value) : string := trim (string_or (prop (properties hub) "hubId") "").

Lemma addHub_loop hubs seen out : (forall x, x ∈ seen <-> x ∈ out) ->
  (foldl addHub (seen, out) hubs).2 =
    out ++ bfilter (fun x => negb (bool_decide (x ∈ out))) (unique (bfilter nonempty (map hub_name hubs))).
Proof.
  revert seen out; induction hubs as [|hub hubs IH]; intros seen out Hs; cbn [foldl map List.filter unique]; [by rewrite app_nil_r|].
  unfold addHub at 2. cbv zeta. fold (hub_name hub). cbn [fst snd].
  destruct (nonempty (hub_name hub)) eqn:E; cbn [negb orb]; [|by apply IH]. cbn [unique List.filter].
  set (rest := unique (bfilter nonempty (map hub_name hubs))).
  assert (bool_decide (hub_name hub ∈ seen) = bool_decide (hub_name hub ∈ out)) as -> by (apply bool_decide_ext, Hs).
  destruct (bool_decide (hub_name hub ∈ out)) eqn:Ho; cbn [negb].
  - rewrite IH by done. f_equal. fold rest. rewrite <- bfilter_and. apply filter_ext_in. intros x _.
    destruct (bool_decide (x = hub_name hub)) eqn:Ex; cbn; [|done]. apply bool_decide_eq_true in Ex as ->. by rewrite Ho.
  - rewrite IH by (intros x; rewrite elem_of_app, elem_of_cons, list_elem_of_singleton, Hs; tauto).
    rewrite <- app_assoc. f_equal. cbn [app]. f_equal. fold rest. rewrite <- bfilter_and. apply filter_ext_in. intros x _.
    rewrite <- negb_orb. f_equal. rewrite <- bool_decide_or. apply bool_decide_ext. rewrite elem_of_app, list_elem_of_singleton. tauto.
Qed.

Lemma hubsOf_unique hubs : hubsOf hubs = unique (bfilter nonempty (map hub_name hubs)).
Proof. unfold hubsOf. rewrite addHub_loop by done. cbn [app]. by apply bfilter_all, Forall_forall. Qed.

Lemma with_key_filter key items kept : with_key key items = Some kept ->
  kept = bfilter (fun item => truthy (prop (properties item) key)) items.
Proof.
  unfold with_key. destruct (mapM _ items) as [keys|] eqn:E; [|done]. cbn. intros [= <-]. apply mapM_Some_1 in E.
  induction E as [|item k items keys Hk _ IH]; [done|]. cbn. assert (k = prop (properties item) key) as ->.
  { unfold read_prop in Hk. by destruct item; simplify_eq/=. }
  destruct (truthy _); cbn; by rewrite IH.
Qed.

(** The fields a project of a snapshot does not take from the wire. *)
Definition own_fields : list string := ["agent"; "agents"; "agentProfiles"; "hubId"]%string.

Lemma normalizeProject_keeps project p k : normalizeProject project = Some p -> k ∉ own_fields -> prop p k = prop project k.
Proof.
  unfold normalizeProject. destruct (hubIdOf project) as [hubId|]; [|done]. cbn [mbind option_bind]. intros [= <-] Hk.
  unfold own_fields in Hk. rewrite !not_elem_of_cons in Hk. destruct Hk as (H1 & H2 & H3 & H4 & _).
  by rewrite !prop_dset, !decide_False by done.
Qed.

(** The hub of a project: the one it names if it names one, else the first part of its id. *)
Lemma normalizeProject_hub project p : normalizeProject project = Some p ->
  if truthy (prop project "hubId") then prop p "hubId" = prop project "hubId"
  else exists projectId, prop project "projectId" = VStr projectId /\ prop p "hubId" = VStr (List.hd ""%string (split ":" projectId)).
Proof.
  unfold normalizeProject. destruct (hubIdOf project) as [hubId|] eqn:E; [|done]. cbn [mbind option_bind]. intros [= <-].
  rewrite prop_dset, decide_True by done. unfold hubIdOf in E. destruct (truthy (prop project "hubId")) eqn:Et; [by simplify_eq|].
  destruct (prop project "projectId") as [| | | |projectId| |] eqn:Ep; simplify_eq. exists projectId. split; [done|]. by destruct (split ":" projectId).
Qed.
(** Its agent and agents. *)
Lemma normalizeProject_agents project p : normalizeProject project = Some p ->
  prop p "agent" = match normalizeAgentType (prop project "agent") with Some a => VStr a | None => VUndefined end /\
  prop p "agents" = agentsOf (prop project "agents") /\ prop p "agentProfiles" = profilesOf (prop project "agentProfiles").
Proof.
  unfold normalizeProject. destruct (hubIdOf project) as [hubId|]; [|done]. cbn [mbind option_bind]. intros [= <-].
  split_and!; rewrite !prop_dset; by repeat (rewrite decide_True by done || rewrite decide_False by done).
Qed.

(** C18. The projects and hubs of a snapshot.  The hubs are the reference list: the trimmed
    ids, without the empty ones, each once, in the order they are first mentioned.  The
    projects are those with an id, in order; each keeps every field of the wire but the
    four the client sets; its hub is the one it names, if it names one, and otherwise the
    part of its id before the colon; its agent and agents are the normalised ones. *)
Theorem project_snapshot_spec payload s : project_snapshot payload = Some s ->
  let body := body_of payload in
  snap_hubs s = unique (bfilter nonempty (map hub_name (default [] (items_of (prop body "hubs"))))) /\
  Forall2 (fun raw p => let project := properties raw in
      (forall k, k ∉ own_fields -> prop p k = prop project k) /\
      (if truthy (prop project "hubId") then prop p "hubId" = prop project "hubId"
       else exists projectId, prop project "projectId" = VStr projectId /\ prop p "hubId" = VStr (List.hd ""%string (split ":" projectId))) /\
      prop p "agent" = (match normalizeAgentType (prop project "agent") with Some a => VStr a | None => VUndefined end) /\
      prop p "agents" = agentsOf (prop project "agents") /\ prop p "agentProfiles" = profilesOf (prop project "agentProfiles"))
    (bfilter (fun raw => truthy (prop (properties raw) "projectId")) (default [] (items_of (prop body "projects"))))
    (snap_projects s).
Proof.
  unfold project_snapshot. cbv zeta. destruct (items_of (prop (body_of payload) "projects")) as [items|]; [|done]. cbn [mbind option_bind].
  destruct (with_key "projectId" items) as [kept|] eqn:Ek; [|done]. cbn [mbind option_bind].
  destruct (mapM normalizeProject (map properties kept)) as [projects|] eqn:Ep; [|done]. cbn [mbind option_bind].
  destruct (items_of (prop (body_of payload) "hubs")) as [hubs|]; [|done]. cbn [mbind option_bind]. intros [= <-].
  cbn [snap_hubs snap_projects default]. unfold id. split; [apply hubsOf_unique|]. rewrite <- (with_key_filter _ _ _ Ek).
  apply mapM_Some_1 in Ep. apply Forall2_fmap_l in Ep. eapply Forall2_impl; [exact Ep|]. cbn. intros raw p Hp.
  split; [intros k Hk; by eapply normalizeProject_keeps|]. split; [by apply normalizeProject_hub|by apply normalizeProject_agents].
Qed.

Definition sample_projects : value := VObj [
  ("projects", VArr [VObj [("projectId", VStr "hub:a"); ("name", VStr "A"); ("agent", VStr " codex ")];
                     VObj [("projectId", VStr ""); ("name", VStr "B")]]);
  ("hubs", VArr [VObj [("hubId", VStr " hub ")]; VNull; VObj [("hubId", VStr "hub")]; VObj [("hubId", VStr "two")]])]%string.
Definition sample_snapshot : ProjectSnapshot := {|
  snap_projects := [[("projectId", VStr "hub:a"); ("name", VStr "A"); ("agent", VStr "codex"); ("agents", VUndefined);
                     ("agentProfiles", VUndefined); ("hubId", VStr "hub")]%string];
  snap_hubs := ["hub"; "two"]%string |}.

Lemma project_snapshot_spec_witness :
  snap_hubs sample_snapshot = unique (bfilter nonempty (map hub_name [VObj [("hubId"%string, VStr " hub ")]; VNull;
    VObj [("hubId"%string, VStr "hub")]; VObj [("hubId"%string, VStr "two")]])).
Proof. apply (project_snapshot_spec sample_projects sample_snapshot). vm_compute. reflexivity. Defined.
