(* ===== verification/SessionReplica.v ===== *)
(** A session from end to end: the hub's transcript, the wire, the repository's read, the
    gate for events, and the store of turns.

    The hub is the environment: it appends turns, publishes finished turns again in new
    versions, and answers [session.read] with the turns after an index as they are then.
    Everything it says is text that is parsed again.  Events and answers may be lost,
    repeated, overtake each other and be applied when the transcript has moved on. *)

From S2P Require Import Prelude Json JsonRoundTrip Program RegistryTypes TurnIndex ChatWire ChatTurnStores.
From S2P Require Import RegistryClient RegistryNormalize RegistryRepository.
Open Scope Z_scope.

(** * The hub *)

Record hub := { hub_session : string; hub_log : list RegistrySessionTurn; hub_running : list RegistrySessionTurn }.
Definition transcript (h : hub) : list RegistrySessionTurn := hub_log h ++ hub_running h.
Definition hub_latest (h : hub) : Z := Z.of_nat (length (transcript h)).

(** The log is that of finished turns 1, 2, ...; at most one turn after it is running. *)
Record hub_ok (h : hub) : Prop := {
  hub_named : trimmed (hub_session h);
  hub_finished : log_ok (hub_log h);
  hub_last : hub_running h = [] \/
    exists t, hub_running h = [t] /\ valid_turn t /\ turn_finished t = false /\ turn_index t = 1 + Z.of_nat (length (hub_log h))
}.

Section session.
Context `{J : JSON} {RT : JSONRoundTrip (J:=J)}.

(** What is sent is parsed on the other side. *)
Definition wire (v : value) : value := default VUndefined (JSON_parse (JSON_stringify v)).

Definition read_answer (h : hub) (args : request_args) : outcome :=
  let payload := properties (arg_payload args) in
  if String.eqb (arg_method args) "session.read" && String.eqb (string_or (prop payload "sessionId") "") (hub_session h) then
    let after := default 0 (count_field (prop payload "afterTurnIndex")) in
    Resolved (wire (VObj [("type", VStr "response");
      ("payload", encode_read (hub_session h) (drop (Z.to_nat after) (transcript h)) (hub_latest h))]%string))
  else Rejected (RegistryRequestError "not found" (Some "NOT_FOUND"%string) VUndefined).

Definition hub_handler (h : hub) (R : Type) (e : clientE R) (s : unit) : R * unit :=
  match e with
  | Request args => (read_answer h args, s)
  | Connect _ => (None, s)
  | SendEvent _ => (None, s)
  | Close => (tt, s)
  end.

Definition read_from (h : hub) (projectId : string) (after : Z) : option (SessionReadResponse RegistryChatSession) :=
  match (run (hub_handler h) (readSession projectId (hub_session h) after) tt).1 with inl r => Some r | inr _ => None end.

(** * The client *)

(** What the client has of the session: the store of turns, the decoded messages, the cursor
    it asks reads after, and what the workspace store keeps of it, [None] as long as it does
    not know the session. *)
Record local := {
  lc_store : ChatTurnStoreState; lc_messages : list RegistryChatMessage; lc_finishedCursor : Z;
  lc_rememberedTurns : list RegistrySessionTurn; lc_rememberedCursor : option Z
}.
Definition no_session : local :=
  {| lc_store := createEmptyChatTurnStore; lc_messages := []; lc_finishedCursor := 0; lc_rememberedTurns := []; lc_rememberedCursor := None |}.

Definition messagesFromTurnStore (sessionId : string) (st : ChatTurnStoreState) : list RegistryChatMessage :=
  omap (decodeSessionTurnToMessage sessionId) (buildMergedRawTurns st).
Definition clearProjectSessionCache (l : local) : local :=
  {| lc_store := createEmptyChatTurnStore; lc_messages := []; lc_finishedCursor := 0; lc_rememberedTurns := [];
     lc_rememberedCursor := (fun _ => 0) <$> lc_rememberedCursor l |}.

(** The turn of an event that is about the session and decodes, and its merge; the messages
    are decoded again when the session is the selected one. *)
Definition delivered (sessionId : string) (raw : value) : option RegistrySessionTurn :=
  p ← normalizeSessionMessagePayload raw;
  _ ← decodeSessionTurnToMessage (pay_sessionId p) (pay_turn p);
  if bool_decide (pay_sessionId p = sessionId) then Some (pay_turn p) else None.
Definition deliver (sessionId : string) (selected : bool) (raw : value) (l : local) : local :=
  match delivered sessionId raw with
  | None => l
  | Some incomingTurn =>
      let st := mergeRealtimeTurn (lc_store l) incomingTurn in
      {| lc_store := st; lc_messages := if selected then messagesFromTurnStore sessionId st else lc_messages l;
         lc_finishedCursor := cursor st; lc_rememberedTurns := lc_rememberedTurns l; lc_rememberedCursor := lc_rememberedCursor l |}
  end.

(** A refresh asks the registry, and clears what the client has when that is stale. *)
Inductive refreshE : Type -> Type :=
  | Ask {R : Type} (e : clientE R) : refreshE R
  | ClearProjectSessionCache : refreshE unit.
Definition ask_registry {A} (p : client A) : prog refreshE failure A := translate (fun R e => Ask e) p.

(** The answer, and the index it is for: an answer that shows the index is beyond the
    transcript is followed by a read of everything. *)
Definition readProjectSessionWithStaleCacheRepair (projectId sessionId : string) (afterTurnIndex : Z)
    : prog refreshE failure (SessionReadResponse RegistryChatSession * Z) :=
  let checkpoint := Z.max 0 afterTurnIndex in
  let* result := ask_registry (readSession projectId sessionId checkpoint) in
  if negb (isStaleSessionReadResult checkpoint (of_Z (read_latestTurnIndex result))) then Ret (result, checkpoint) else
  do* call ClearProjectSessionCache in
  let* repairedResult := ask_registry (readSession projectId sessionId 0) in
  Ret (repairedResult, 0).

(** [result.sessionId || result.session?.sessionId || sessionId]. *)
Definition resultSessionId (sessionId : string) (result : SessionReadResponse RegistryChatSession) : string :=
  str_or (read_sessionId result) (str_or (from_option sess_sessionId ""%string (read_session result)) sessionId).
(** Storing an answer; one that throws, or that is about another session, leaves this one. *)
Definition apply_read (sessionId : string) (after : Z) (result : SessionReadResponse RegistryChatSession) (l : local) : bool * local :=
  if negb (bool_decide (resultSessionId sessionId result = sessionId)) then (true, l) else
  match applySessionReadResult (lc_store l) after (read_turns result) (read_latestTurnIndex result) with
  | None => (false, l)
  | Some st => (true, {| lc_store := st; lc_messages := messagesFromTurnStore sessionId st; lc_finishedCursor := cursor st;
                         lc_rememberedTurns := lc_rememberedTurns l; lc_rememberedCursor := lc_rememberedCursor l |})
  end.

Definition refresh_handler (h : hub) (R : Type) (e : refreshE R) (l : local) : R * local :=
  match e with
  | Ask e => ((hub_handler h _ e tt).1, l)
  | ClearProjectSessionCache => (tt, clearProjectSessionCache l)
  end.
(** A refresh that the hub answers at once; [apply] is [shouldApplyPreservedChatLoad] when the
    answer is there. *)
Definition refreshSessionTurns (h : hub) (projectId : string) (apply : bool) (l : local) : bool * local :=
  match run (refresh_handler h) (readProjectSessionWithStaleCacheRepair projectId (hub_session h) (cursor (lc_store l))) l with
  | (inl (result, appliedAfterTurnIndex), l) => if negb apply then (false, l) else apply_read (hub_session h) appliedAfterTurnIndex result l
  | (inr _, l) => (false, l)
  end.

(** * Hub and client *)

(** The hub and every finished turn it has published, the client and every turn it was given,
    and the answers on their way, each with the index it was asked after. *)
Record net := {
  net_hub : hub; net_published : list RegistrySessionTurn; net_local : local; net_arrived : list RegistrySessionTurn;
  net_answers : list (Z * SessionReadResponse RegistryChatSession)
}.

Definition from_published (published turns : list RegistrySessionTurn) : Prop := Forall (fun t => turn_finished t = true -> t ∈ published) turns.
(** An event about the session says of a finished turn what was once published, and of a
    running one no more than that there is one. *)
Definition honest (n : net) (raw : value) : Prop :=
  forall t, delivered (hub_session (net_hub n)) raw = Some t ->
    (turn_finished t = true -> t ∈ net_published n) /\ turn_index t <= hub_latest (net_hub n).

Definition with_local (l : local) (arrived : list RegistrySessionTurn) (n : net) : net :=
  {| net_hub := net_hub n; net_published := net_published n; net_local := l; net_arrived := net_arrived n ++ arrived; net_answers := net_answers n |}.
Definition with_answers (answers : list (Z * SessionReadResponse RegistryChatSession)) (n : net) : net :=
  {| net_hub := net_hub n; net_published := net_published n; net_local := net_local n; net_arrived := net_arrived n; net_answers := answers |}.

(** The hub never loses a turn, but says new things of finished ones. *)
Inductive net_step (projectId : string) : net -> net -> Prop :=
  | hub_works n h' : hub_ok h' -> hub_session h' = hub_session (net_hub n) -> (length (hub_log (net_hub n)) <= length (hub_log h'))%nat ->
      hub_latest (net_hub n) <= hub_latest h' ->
      net_step projectId n {| net_hub := h'; net_published := net_published n ++ hub_log h'; net_local := net_local n;
                              net_arrived := net_arrived n; net_answers := net_answers n |}
  | event_arrives n selected raw : honest n raw ->
      net_step projectId n (with_local (deliver (hub_session (net_hub n)) selected raw (net_local n))
                                       (option_list (delivered (hub_session (net_hub n)) raw)) n)
  | hub_answers n after r : 0 <= after -> read_from (net_hub n) projectId after = Some r ->
      net_step projectId n (with_answers (net_answers n ++ [(after, r)]) n)
  | answer_arrives n after r : (after, r) ∈ net_answers n -> isStaleSessionReadResult after (of_Z (read_latestTurnIndex r)) = false ->
      let applied := apply_read (hub_session (net_hub n)) after r (net_local n) in
      net_step projectId n (with_local applied.2 (if bool_decide (resultSessionId (hub_session (net_hub n)) r = hub_session (net_hub n)) && applied.1 then read_turns r else []) n)
  | stale_answer_arrives n after r : (after, r) ∈ net_answers n -> isStaleSessionReadResult after (of_Z (read_latestTurnIndex r)) = true ->
      net_step projectId n (with_local (clearProjectSessionCache (net_local n)) [] n)
  | answer_lost n l : l ⊆ net_answers n -> net_step projectId n (with_answers l n)
  | cache_loaded n messages turns st' : from_published (net_published n) turns -> mergeCachedTurnPrefix (lc_store (net_local n)) turns = Some st' ->
      net_step projectId n (with_local
        {| lc_store := st'; lc_messages := messages; lc_finishedCursor := cursor st';
           lc_rememberedTurns := lc_rememberedTurns (net_local n); lc_rememberedCursor := lc_rememberedCursor (net_local n) |}
        (finished (hydrateFinishedStore turns)) n)
  | cache_cleared n : net_step projectId n (with_local (clearProjectSessionCache (net_local n)) [] n).

(** * A read gives what the hub has *)

Lemma transcript_sorted h : hub_ok h -> index_sorted (transcript h).
Proof using.
  intros [_ Hl Hr]. unfold transcript. pose proof (log_sorted _ Hl) as Hs.
  destruct Hr as [->|(t & -> & _ & _ & Hi)]; [by rewrite app_nil_r|].
  apply index_sorted_snoc; [exact Hs|]. intros x Hx. apply (log_index_le _ Hl) in Hx. lia.
Qed.

Lemma transcript_valid h : hub_ok h -> Forall valid_turn (transcript h).
Proof using.
  intros [_ [_ Hl] Hr]. apply Forall_app. split; [eapply Forall_impl; [exact Hl|]; by intros t []|].
  destruct Hr as [->|(t & -> & Hv & _)]; [done|by apply Forall_singleton].
Qed.

Lemma transcript_indexes h : hub_ok h -> indexes (transcript h) = seqZ 1 (hub_latest h).
Proof using.
  intros [_ [Hi _] Hr]. unfold hub_latest, transcript, indexes in *. rewrite map_app, length_app.
  destruct Hr as [->|(t & -> & _ & _ & Ht)]; cbn [map length].
  - by rewrite app_nil_r, Nat.add_0_r.
  - rewrite Hi, Ht, Nat2Z.inj_add, seqZ_app by lia. done.
Qed.

Lemma transcript_range h t : hub_ok h -> t ∈ transcript h -> 1 <= turn_index t <= hub_latest h.
Proof using.
  intros Hok Ht. assert (turn_index t ∈ indexes (transcript h)) as Hi by (apply elem_of_map; eauto).
  rewrite transcript_indexes, elem_of_seqZ in Hi by done. lia.
Qed.

Lemma elem_of_drop_transcript h after t : hub_ok h -> 0 <= after ->
  t ∈ drop (Z.to_nat after) (transcript h) <-> t ∈ transcript h /\ after < turn_index t.
Proof using.
  intros Hok Ha. assert (Hi : forall i, transcript h !! i = Some t -> turn_index t = 1 + Z.of_nat i).
  { intros i Hi. assert (H : indexes (transcript h) !! i = Some (turn_index t)) by (unfold indexes; by rewrite (list_lookup_fmap turn_index), Hi).
    rewrite transcript_indexes in H by done. apply lookup_seqZ in H. lia. }
  rewrite !list_elem_of_lookup. split.
  - intros [i Ht]. rewrite lookup_drop in Ht. apply Hi in Ht as E. split; [eauto|lia].
  - intros [[i Ht] Hlt]. apply Hi in Ht as E. exists (i - Z.to_nat after)%nat. rewrite lookup_drop, <- Ht. f_equal. lia.
Qed.

Lemma json_wire_turns ts : forallb json_data (map encode_turn ts) = true.
Proof using.
  apply forallb_forall. intros v (t & <- & _)%in_map_iff. unfold encode_turn. cbn [json_data forallb snd of_Z inject_Z Qnum].
  by rewrite !bool_decide_true by (done || apply (bool_decide_unpack _); vm_compute; exact I).
Qed.

Lemma json_read sid ts latest : json_data (encode_read sid ts latest) = true.
Proof using.
  unfold encode_read. cbn [json_data forallb snd of_Z inject_Z Qnum]. rewrite json_wire_turns.
  by rewrite !bool_decide_true by (done || apply (bool_decide_unpack _); vm_compute; exact I).
Qed.

Lemma wire_answer v : json_data v = true -> wire (VObj [("type", VStr "response"); ("payload", v)]%string)
  = VObj [("type", VStr "response"); ("payload", v)]%string.
Proof using RT.
  intros Hv. unfold wire. rewrite json_roundtrip; [done|]. cbn [json_data forallb snd]. rewrite Hv.
  by rewrite bool_decide_true by (apply (bool_decide_unpack _); vm_compute; exact I).
Qed.

(** What the repository gets for a read of the session is the transcript after the index
    that was asked for. *)
Lemma read_from_hub h projectId after : hub_ok h -> 0 <= after ->
  exists r, read_from h projectId after = Some r /\ read_turns r = drop (Z.to_nat after) (transcript h) /\
    read_latestTurnIndex r = hub_latest h /\ read_sessionId r = hub_session h.
Proof using RT.
  intros Hok Ha. unfold read_from, readSession, readSessionByMethod, ask_project, ask.
  cbn [call bind run hub_handler]. unfold read_answer, request_of. cbn [arg_payload arg_method properties].
  assert (E1 : prop (read_payload (hub_session h) after) "sessionId" = VStr (hub_session h)) by (unfold read_payload; by destruct (0 <? after)).
  assert (E2 : default 0 (count_field (prop (read_payload (hub_session h) after) "afterTurnIndex")) = after).
  { unfold read_payload. destruct (0 <? after) eqn:E; [|apply Z.ltb_ge in E; cbn; lia].
    unfold count_field. cbn. rewrite trunc_inject. lia. }
  rewrite E1, E2. cbn [string_or]. rewrite !String.eqb_refl. cbn [andb].
  rewrite wire_answer by apply json_read. cbn [bind run fst properties].
  destruct (hub_named _ Hok) as [Hne Htrim].
  destruct (read_payload_roundtrip (hub_session h) (drop (Z.to_nat after) (transcript h)) (hub_latest h) normalizeSessionSummary)
    as (r & Hr & Ht & Hl); [by rewrite Htrim|by apply Forall_drop, transcript_valid|by apply drop_sorted, transcript_sorted|
                            unfold hub_latest; lia|].
  eexists. split; [done|]. unfold read_response. change (prop _ "payload") with (encode_read (hub_session h) (drop (Z.to_nat after) (transcript h)) (hub_latest h)).
  change (nullish (encode_read ?a ?b ?c) _) with (encode_read a b c). rewrite Hr. split_and!; [done..|].
  cbn [read_sessionId]. apply read_payload_wellformed in Hr as [-> _]. by rewrite Htrim.
Qed.

(** * The invariant of hub, store and answers *)

(** Turns no index of which is beyond the latest. *)
Definition within (latest : Z) (turns : list RegistrySessionTurn) : Prop := Forall (fun t => turn_index t <= latest) turns.

Record answer_ok (h : hub) (published : list RegistrySessionTurn) (after : Z) (r : SessionReadResponse RegistryChatSession) : Prop := {
  answer_published : from_published published (read_turns r);
  answer_range : response_in_range after (read_latestTurnIndex r) (read_turns r);
  answer_within : within (hub_latest h) (read_turns r)
}.

Record net_inv (n : net) : Prop := {
  inv_hub : hub_ok (net_hub n);
  inv_log : forall t, t ∈ hub_log (net_hub n) -> t ∈ net_published n;
  inv_published : forall t, t ∈ net_published n -> turn_index t <= Z.of_nat (length (hub_log (net_hub n)));
  inv_replica : replica (net_arrived n) (lc_store (net_local n));
  inv_arrived : from_published (net_published n) (net_arrived n);
  inv_live : within (hub_latest (net_hub n)) (live (lc_store (net_local n)));
  inv_answers : forall after r, (after, r) ∈ net_answers n -> answer_ok (net_hub n) (net_published n) after r
}.

Lemma within_mono a b turns : a <= b -> within a turns -> within b turns.
Proof using. intros Hle H. eapply Forall_impl; [exact H|]. cbn; intros t; lia. Qed.

Lemma from_published_mono p p' turns : (forall t, t ∈ p -> t ∈ p') -> from_published p turns -> from_published p' turns.
Proof using. intros Hp H. eapply Forall_impl; [exact H|]. intros t Ht Hf. by apply Hp, Ht. Qed.

Lemma upsert_within latest l t : index_sorted l -> within latest l -> turn_index t <= latest -> within latest (upsertTurn l t).
Proof using.
  intros Hs Hl Ht. unfold within in *. rewrite Forall_forall in *. intros x. rewrite elem_of_upsertTurn by auto with js.
  intros [->|[Hx _]]; auto.
Qed.

Lemma bfilter_within latest p l : within latest l -> within latest (bfilter p l).
Proof using. unfold within. rewrite !Forall_forall. intros H t [Ht _]%elem_of_bfilter. auto. Qed.

Lemma realtime_within latest st t : store_wf st -> within latest (live st) -> turn_index t <= latest ->
  within latest (live (mergeRealtimeTurn st t)).
Proof using.
  intros Hwf Hl Ht. unfold mergeRealtimeTurn. destruct (normalizeTurn t) as [t'|] eqn:E; [|done]. apply normalizeTurn_Some in E as [-> _].
  destruct (turn_finished t); [by apply bfilter_within|]. destruct (negb _); [|done]. cbn [live]. apply upsert_within; auto with js.
Qed.

Lemma read_within latest st after turns l st' : store_wf st -> within latest (live st) ->
  (forall t, t ∈ turns -> turn_finished t = false -> turn_index t <= latest) ->
  applySessionReadResult st after turns l = Some st' -> within latest (live st').
Proof using.
  intros Hwf Hl Ht. unfold applySessionReadResult. destruct (isStaleSessionReadResult _ _); [by intros [= <-]; constructor|].
  destruct (negb _); [done|]. intros [= <-]. unfold settleCursor. cbn [live]. rewrite storeReadTurns_live. cbn [live].
  unfold within in *. rewrite Forall_forall in Hl |- *. intros x [Hx|Hx]%foldl_upsert_sub; [| |auto with js].
  - apply elem_of_bfilter in Hx as [Hx _]. auto.
  - apply elem_of_bfilter in Hx as [Hx Hf%negb_true_iff]. unfold sortTurns, sorted_by_index in Hx.
    rewrite elem_of_js_sort, elem_of_omap_normalize in Hx. destruct Hx. auto.
Qed.

Lemma published_app p a b : from_published p a -> from_published p b -> from_published p (a ++ b).
Proof using. intros. by apply Forall_app. Qed.

Lemma hydrated_published p turns : from_published p turns -> from_published p (finished (hydrateFinishedStore turns)).
Proof using.
  unfold from_published. rewrite !Forall_forall. intros H t Ht Hf.
  unfold hydrateFinishedStore in Ht; cbn [finished] in Ht.
  apply durablePrefix_spec in Ht as [Ht _]. apply finishedByIndex_sound in Ht as (Ht & _).
  unfold sortTurns, sorted_by_index in Ht. rewrite elem_of_js_sort, elem_of_bfilter, elem_of_omap_normalize in Ht. naive_solver.
Qed.

Lemma answer_given h p projectId after r : hub_ok h -> (forall t, t ∈ hub_log h -> t ∈ p) -> 0 <= after ->
  read_from h projectId after = Some r -> answer_ok h p after r.
Proof using RT.
  intros Hok Hp Ha E. destruct (read_from_hub h projectId after Hok Ha) as (r' & E' & Ht & Hl & Hn). simplify_eq.
  assert (Hin : forall t, t ∈ read_turns r -> t ∈ transcript h /\ after < turn_index t)
    by (intros t; rewrite Ht; by apply elem_of_drop_transcript).
  constructor.
  - apply Forall_forall. intros t [Htr _]%Hin Hf. unfold transcript in Htr. apply elem_of_app in Htr as [Htr|Htr]; [by apply Hp|].
    destruct (hub_last _ Hok) as [He|(t' & Hr & _ & Hf' & _)]; [by rewrite He in Htr; apply not_elem_of_nil in Htr|].
    rewrite Hr in Htr. apply list_elem_of_singleton in Htr as ->. congruence.
  - split; [rewrite Ht; by apply index_sorted_NoDup, drop_sorted, transcript_sorted|].
    apply Forall_forall. intros t [Htr Hlt]%Hin. pose proof (transcript_range _ _ Hok Htr). rewrite Hl. lia.
  - apply Forall_forall. intros t [Htr _]%Hin. by apply transcript_range.
Qed.

(** What an answer does to the client, whatever it is. *)
Lemma apply_read_cases sid after r l :
  let applied := apply_read sid after r l in
  let used := bool_decide (resultSessionId sid r = sid) && applied.1 in
  (used = false /\ applied.2 = l) \/
  (used = true /\ applySessionReadResult (lc_store l) after (read_turns r) (read_latestTurnIndex r) = Some (lc_store applied.2)).
Proof using.
  cbv zeta. unfold apply_read. destruct (bool_decide _); [|by left]. cbn [negb andb].
  destruct (applySessionReadResult _ _ _ _) as [st|]; [by right|by left].
Qed.

Lemma delivered_inv n selected raw : net_inv n -> honest n raw ->
  net_inv (with_local (deliver (hub_session (net_hub n)) selected raw (net_local n)) (option_list (delivered (hub_session (net_hub n)) raw)) n).
Proof using.
  intros [H1 H2 H3 H4 H5 H6 H7] Hh. unfold deliver. destruct (delivered _ raw) as [t|] eqn:E; cbn [option_list].
  2:{ constructor; cbn [with_local net_hub net_published net_local net_arrived net_answers]; rewrite ?app_nil_r; done. }
  destruct (Hh t E) as [Hp Hi]. constructor; cbn [with_local net_hub net_published net_local net_arrived net_answers lc_store]; try done.
  - by apply replica_realtime.
  - apply published_app; [done|by apply Forall_singleton].
  - apply realtime_within; [|done..]. by apply replica_newest in H4 as [Hwf _].
Qed.

Lemma applied_inv n after r : net_inv n -> answer_ok (net_hub n) (net_published n) after r ->
  let applied := apply_read (hub_session (net_hub n)) after r (net_local n) in
  net_inv (with_local applied.2 (if bool_decide (resultSessionId (hub_session (net_hub n)) r = hub_session (net_hub n)) && applied.1 then read_turns r else []) n).
Proof using.
  intros [H1 H2 H3 H4 H5 H6 H7] [Hp Hr Hw]. cbv zeta.
  destruct (apply_read_cases (hub_session (net_hub n)) after r (net_local n)) as [[-> ->]|[-> E]];
    constructor; cbn [with_local net_hub net_published net_local net_arrived net_answers]; rewrite ?app_nil_r; try done.
  - by eapply replica_read.
  - by apply published_app.
  - apply replica_newest in H4 as [Hwf _]. eapply read_within; [exact Hwf|exact H6| |exact E].
    intros t Ht _. unfold within in Hw. rewrite Forall_forall in Hw. auto.
Qed.

Lemma cleared_inv n : net_inv n -> net_inv (with_local (clearProjectSessionCache (net_local n)) [] n).
Proof using.
  intros [H1 H2 H3 H4 H5 H6 H7].
  constructor; cbn [with_local net_hub net_published net_local net_arrived net_answers clearProjectSessionCache lc_store]; rewrite ?app_nil_r; try done.
  - by apply (replica_reset _ (lc_store (net_local n))).
  - constructor.
Qed.

Lemma hub_works_inv n h' : net_inv n -> hub_ok h' -> (length (hub_log (net_hub n)) <= length (hub_log h'))%nat -> hub_latest (net_hub n) <= hub_latest h' ->
  net_inv {| net_hub := h'; net_published := net_published n ++ hub_log h'; net_local := net_local n; net_arrived := net_arrived n; net_answers := net_answers n |}.
Proof using.
  intros [H1 H2 H3 H4 H5 H6 H7] Hok Hle Hlat. assert (forall t, t ∈ net_published n -> t ∈ net_published n ++ hub_log h') as Hm
    by (intros t Ht; apply elem_of_app; by left).
  constructor; cbn [net_hub net_published net_local net_arrived net_answers]; try done.
  - intros t Ht. apply elem_of_app. by right.
  - intros t [Ht|Ht]%elem_of_app; [specialize (H3 t Ht); lia|]. by apply (log_index_le _ (hub_finished _ Hok)).
  - by eapply from_published_mono.
  - by eapply within_mono.
  - intros a r Hin. destruct (H7 a r Hin) as [K1 K2 K3]. constructor; [by eapply from_published_mono|done|by eapply within_mono].
Qed.

Lemma net_step_inv projectId n n' : net_inv n -> net_step projectId n n' -> net_inv n'.
Proof using RT.
  intros Hn Hs. destruct (id Hn) as [H1 H2 H3 H4 H5 H6 H7].
  destruct Hs as [n h' Hok' _ Hp Hle|n selected raw Hh|n after r Ha E|n after r Hin _|n after r _ _|n l Hsub|n messages turns st' Hl E|n].
  - by apply hub_works_inv.
  - by apply delivered_inv.
  - constructor; cbn [with_answers net_hub net_published net_local net_arrived net_answers]; try done.
    intros a r' [Hin|[= -> ->]%list_elem_of_singleton]%elem_of_app; [by apply H7|by eapply answer_given].
  - apply applied_inv; auto.
  - by apply cleared_inv.
  - constructor; cbn [with_answers net_hub net_published net_local net_arrived net_answers]; try done. intros a r Hin. by apply H7, Hsub.
  - constructor; cbn [with_local net_hub net_published net_local net_arrived net_answers lc_store]; try done.
    + by eapply replica_cached.
    + apply published_app; [done|by apply hydrated_published].
    + unfold mergeCachedTurnPrefix in E. destruct (_ <=? 0); [by simplify_eq|].
      eapply read_within; [by apply replica_newest in H4 as [Hwf _]|exact H6| |exact E].
      intros t Ht Hf. pose proof (wf_finished _ (hydrate_wf turns)) as H. rewrite Forall_forall in H. destruct (H t Ht). congruence.
  - by apply cleared_inv.
Qed.

(** * A read that is answered now *)

Lemma drop_transcript h c : hub_ok h -> 0 <= c <= Z.of_nat (length (hub_log h)) ->
  drop (Z.to_nat c) (transcript h) = drop (Z.to_nat c) (hub_log h) ++ hub_running h.
Proof using. intros _ Hc. unfold transcript. apply drop_app_le. lia. Qed.

Lemma running_unfinished h c : hub_ok h ->
  bfilter turn_finished (drop c (hub_log h) ++ hub_running h) = drop c (hub_log h) /\
  bfilter (fun t => negb (turn_finished t)) (drop c (hub_log h) ++ hub_running h) = hub_running h.
Proof using.
  intros [_ Hl Hr]. pose proof (drop_log_stored _ Hl c) as Hs.
  assert (E : forall l : list RegistrySessionTurn, Forall stored_finished l -> bfilter turn_finished l = l /\ bfilter (fun t => negb (turn_finished t)) l = []).
  { induction 1 as [|t l [_ Hf] _ [IH1 IH2]]; [done|]. cbn. rewrite Hf. cbn. by rewrite IH1, IH2. }
  destruct (E _ Hs) as [E1 E2]. rewrite !bfilter_app, E1, E2.
  destruct Hr as [->|(t & -> & _ & Hf & _)]; cbn; [by rewrite app_nil_r|]. rewrite Hf. cbn. by rewrite app_nil_r.
Qed.

Lemma transcript_normalized h n : hub_ok h -> sortTurns (omap normalizeTurn (drop n (transcript h))) = drop n (transcript h).
Proof using.
  intros Hok. rewrite omap_normalize_valid by by apply Forall_drop, transcript_valid.
  by apply sorted_by_index_id, drop_sorted, transcript_sorted.
Qed.

Lemma unfinished_last l t : Forall (fun t => turn_finished t = true) l -> unfinishedOnlyLast (l ++ [t]) = true.
Proof using.
  induction 1 as [|x l Hx _ IH]; [done|]. cbn [app unfinishedOnlyLast]. rewrite Hx, IH. by destruct (l ++ [t]).
Qed.

Lemma transcript_unfinished_last h c : hub_ok h -> unfinishedOnlyLast (drop c (hub_log h) ++ hub_running h) = true.
Proof using.
  intros [_ Hl Hr]. assert (H : Forall (fun t => turn_finished t = true) (drop c (hub_log h)))
    by (eapply Forall_impl; [by apply drop_log_stored|]; by intros t []).
  destruct Hr as [->|(t & -> & _)]; [rewrite app_nil_r; by apply finished_all_sorted|by apply unfinished_last].
Qed.

(** The answer to a read after the cursor, stored as it comes. *)
Lemma current_stored h st : hub_ok h -> store_wf st -> cursor st <= Z.of_nat (length (hub_log h)) -> within (hub_latest h) (live st) ->
  let read := read_stored st (cursor st) (hub_latest h) (drop (Z.to_nat (cursor st)) (transcript h)) in
  (forall t, t ∈ finished read <-> t ∈ finished st ++ drop (Z.to_nat (cursor st)) (hub_log h)) /\ live read = hub_running h.
Proof using.
  intros Hok Hwf Hc Hlive. pose proof (wf_cursor _ Hwf) as H0. cbv zeta. split.
  - intros t. assert (E : hub_latest h = Z.of_nat (length (transcript h))) by done. rewrite E.
    rewrite elem_of_read_after; [|done|by apply drop_sorted, transcript_sorted|by intros x [_ ?]%elem_of_drop_transcript].
    rewrite drop_transcript by done. by rewrite (proj1 (running_unfinished h _ Hok)).
  - unfold read_stored. rewrite storeReadTurns_live. cbn [live]. rewrite drop_transcript by done. rewrite (proj2 (running_unfinished h _ Hok)).
    assert (bfilter (outsideRead (cursor st) (hub_latest h)) (live st) = []) as ->.
    { destruct (bfilter _ _) as [|x l] eqn:E; [done|]. assert (Hx : x ∈ bfilter (outsideRead (cursor st) (hub_latest h)) (live st)) by (rewrite E; left).
      apply elem_of_bfilter in Hx as [Hx Ho]. pose proof (wf_live_beyond _ Hwf) as Hb. unfold within in Hlive.
      rewrite Forall_forall in Hb, Hlive. specialize (Hb x Hx). specialize (Hlive x Hx). cbn in Hb.
      unfold outsideRead, turn_index, turn_TurnIndexed in *. apply orb_true_iff in Ho. lia. }
    destruct (hub_last _ Hok) as [->|(t & -> & _)]; [done|]. cbn. unfold upsertTurn. cbn. by rewrite cloneTurn_id.
Qed.

Lemma read_program h projectId l r : read_from h projectId (cursor (lc_store l)) = Some r -> 0 <= cursor (lc_store l) <= read_latestTurnIndex r ->
  run (refresh_handler h) (readProjectSessionWithStaleCacheRepair projectId (hub_session h) (cursor (lc_store l))) l = (inl (r, cursor (lc_store l)), l).
Proof using.
  intros E Hc. unfold readProjectSessionWithStaleCacheRepair. cbv zeta. rewrite Z.max_r by lia. rewrite run_bind. unfold ask_registry. rewrite run_translate.
  assert (run (fun R e => refresh_handler h R (Ask e)) (readSession projectId (hub_session h) (cursor (lc_store l))) l = (inl r, l)) as ->.
  { revert E. unfold read_from, readSession, readSessionByMethod, ask_project, ask. cbn [call bind run refresh_handler hub_handler fst].
    destruct (read_answer h _); cbn [fst]; [|done]. cbn. by intros [= ->]. }
  unfold isStaleSessionReadResult, of_Z. cbv zeta iota beta. rewrite trunc_inject.
  replace (Z.max 0 (read_latestTurnIndex r) <? Z.max 0 (cursor (lc_store l))) with false by lia. by rewrite andb_false_r.
Qed.

Lemma stored_cursor_le n : net_inv n -> cursor (lc_store (net_local n)) <= Z.of_nat (length (hub_log (net_hub n))).
Proof using.
  intros [H1 H2 H3 H4 H5 H6 H7]. destruct (replica_newest _ _ H4) as [Hwf Hn]. pose proof (wf_cursor _ Hwf).
  destruct (decide (cursor (lc_store (net_local n)) = 0)) as [->|Hne]; [lia|].
  assert (cursor (lc_store (net_local n)) ∈ indexes (finished (lc_store (net_local n)))) as (t & E & Ht)%elem_of_map
    by (rewrite (wf_indexes _ Hwf), elem_of_seqZ; lia).
  rewrite E. apply H3. rewrite Forall_forall in Hn. specialize (Hn t Ht). unfold newest in Hn.
  apply last_Some_elem_of, elem_of_bfilter in Hn as [Hin [[_ Hf] _]%is_version_true].
  unfold from_published in H5. rewrite Forall_forall in H5. auto.
Qed.

Lemma refresh_current n projectId : net_inv n -> let l := net_local n in let h := net_hub n in
  exists l', refreshSessionTurns h projectId true l = (true, l') /\ store_wf (lc_store l') /\
    finished (lc_store l') = finished (lc_store l) ++ drop (Z.to_nat (cursor (lc_store l))) (hub_log h) /\ live (lc_store l') = hub_running h /\
    lc_messages l' = messagesFromTurnStore (hub_session h) (lc_store l').
Proof using RT.
  intros Hn. cbv zeta. pose proof (stored_cursor_le n Hn) as Hc. destruct Hn as [Hok H2 H3 H4 H5 Hlive H7].
  destruct (replica_newest _ _ H4) as [Hwf _]. set (l := net_local n) in *. set (h := net_hub n) in *. pose proof (wf_cursor _ Hwf) as H0.
  destruct (read_from_hub h projectId (cursor (lc_store l)) Hok H0) as (r & E & Ht & Hl & Hsid).
  assert (Hle : cursor (lc_store l) <= hub_latest h) by (unfold hub_latest, transcript; rewrite length_app; lia).
  unfold refreshSessionTurns. rewrite (read_program h projectId l r) by (done || lia). cbn [negb].
  assert (Happ : applySessionReadResult (lc_store l) (cursor (lc_store l)) (read_turns r) (read_latestTurnIndex r) =
    Some (settleCursor (read_stored (lc_store l) (cursor (lc_store l)) (hub_latest h) (drop (Z.to_nat (cursor (lc_store l))) (transcript h))))).
  { rewrite Ht, Hl, read_accepted; rewrite ?Z.max_r by done; [|done|].
    - by rewrite transcript_normalized.
    - rewrite transcript_normalized, drop_transcript by done. by apply transcript_unfinished_last. }
  unfold apply_read, resultSessionId. rewrite Hsid. destruct (hub_named _ Hok) as [Hne _].
  assert (nonempty (hub_session h) = true) as Hno by by apply nonempty_true. unfold str_or. rewrite Hno, bool_decide_true by done. cbn [negb]. rewrite Happ.
  eexists. split; [done|]. cbn [lc_store lc_messages].
  destruct (current_stored h (lc_store l) Hok Hwf Hc Hlive) as [Hfin Hlv]. destruct (joined_log _ _ Hwf (hub_finished _ Hok) Hc) as [Hj _].
  split_and!; [|apply (settle_log _ Hj); [|exact Hfin]|exact Hlv|done].
  - eapply applySessionReadResult_wf; [exact Hwf| |exact Happ]. by apply (answer_given h (net_published n) projectId).
  - unfold read_stored. rewrite storeReadTurns_finished. cbn [finished]. apply index_sorted_NoDup. auto with js.
Qed.

(** C3. A session from end to end.  However the hub's transcript grows, however it publishes
    finished turns again in new versions, and however events, answers to [session.read] (sent
    as text, parsed and normalised by the repository) and cached turns are lost, repeated,
    reordered and overtaken: the store holds turns 1, ..., [cursor], no further than the
    transcript goes, each in the last version that arrived, which is one that the hub
    published.  A refresh that the hub answers now succeeds, and the client's view is then what
    it had up to its cursor followed by the transcript as it now is, the running turn included;
    so the whole transcript, if no new version of a turn up to the cursor was missed. *)
Theorem session_replicated projectId h n : hub_ok h ->
  star (net_step projectId)
    {| net_hub := h; net_published := hub_log h; net_local := no_session; net_arrived := []; net_answers := [] |} n ->
  let st := lc_store (net_local n) in
  indexes (finished st) = seqZ 1 (cursor st) /\ cursor st <= Z.of_nat (length (hub_log (net_hub n))) /\
  finished st = omap (newest (net_arrived n)) (seqZ 1 (cursor st)) /\ Forall (fun t => t ∈ net_published n) (finished st) /\
  exists l', refreshSessionTurns (net_hub n) projectId true (net_local n) = (true, l') /\
    buildMergedRawTurns (lc_store l') = finished st ++ drop (Z.to_nat (cursor st)) (transcript (net_hub n)) /\
    lc_messages l' = omap (decodeSessionTurnToMessage (hub_session (net_hub n))) (buildMergedRawTurns (lc_store l')) /\
    (finished st = take (Z.to_nat (cursor st)) (hub_log (net_hub n)) -> buildMergedRawTurns (lc_store l') = transcript (net_hub n)).
Proof using RT.
  intros Hok Hn. assert (Hinv : net_inv n).
  { eapply star_invariant; [exact Hn| |intros; by eapply net_step_inv]. constructor; cbn; try done.
    - intros t. apply (log_index_le _ (hub_finished _ Hok)).
    - constructor.
    - constructor.
    - constructor.
    - by intros a r ?%not_elem_of_nil. }
  cbv zeta. destruct (id Hinv) as [Hok' _ _ Hrep Harr _ _]. destruct (replica_newest _ _ Hrep) as [Hwf Hnew].
  pose proof (wf_indexes _ Hwf) as Hi. pose proof (wf_cursor _ Hwf) as H0. pose proof (stored_cursor_le n Hinv) as Hc.
  split_and!; [done|done|by apply newest_list| |].
  - eapply Forall_impl; [exact Hnew|]. intros t Ht. unfold newest in Ht.
    apply last_Some_elem_of, elem_of_bfilter in Ht as [Hin [[_ Hf] _]%is_version_true]. unfold from_published in Harr. rewrite Forall_forall in Harr. auto.
  - destruct (refresh_current n projectId Hinv) as (l' & E & Hwf' & Hf & Hl & Hm). exists l'. rewrite (merged_view_is_append _ Hwf'), Hf, Hl.
    assert (V : (finished (lc_store (net_local n)) ++ drop (Z.to_nat (cursor (lc_store (net_local n)))) (hub_log (net_hub n))) ++ hub_running (net_hub n)
      = finished (lc_store (net_local n)) ++ drop (Z.to_nat (cursor (lc_store (net_local n)))) (transcript (net_hub n)))
      by (rewrite <- app_assoc, drop_transcript by done; done).
    split_and!; [done|exact V| |].
    + rewrite Hm. unfold messagesFromTurnStore. by rewrite (merged_view_is_append _ Hwf'), Hf, Hl.
    + intros C. rewrite V. assert (T : take (Z.to_nat (cursor (lc_store (net_local n)))) (hub_log (net_hub n)) = take (Z.to_nat (cursor (lc_store (net_local n)))) (transcript (net_hub n)))
        by (unfold transcript; rewrite take_app_le by lia; done).
      rewrite C at 1. by rewrite T, take_drop.
Qed.
End session.

Definition sample_hub : hub := {| hub_session := "s1"; hub_log := [tool_turn "running"; sample_turn 2 true]; hub_running := [sample_turn 3 false] |}.
(** The tool has ended: its turn is published again. *)
Definition grown_hub : hub := {| hub_session := "s1"; hub_log := [tool_turn "completed"; sample_turn 2 true; sample_turn 3 true]; hub_running := [sample_turn 4 false] |}.
Definition sample_event (t : RegistrySessionTurn) : value := VObj [("sessionId", VStr "s1"); ("turn", encode_turn t)]%string.
Definition sample_answer : SessionReadResponse RegistryChatSession := {|
  read_sessionId := "s1"; read_session := None; read_turns := transcript sample_hub;
  read_messages := omap (decodeSessionTurnToMessage (H:=js_JSON) "s1") (transcript sample_hub); read_latestTurnIndex := 3 |}.
(** The running turn arrives, then the answer to an early read, when the hub is already a turn
    further, and then the new version of the tool's turn. *)
#[local] Existing Instance js_JSON.
Definition net0 : net := {| net_hub := sample_hub; net_published := hub_log sample_hub; net_local := no_session; net_arrived := []; net_answers := [] |}.
Definition event_net (raw : value) (n : net) : net := with_local (deliver "s1" true raw (net_local n)) (option_list (delivered "s1" raw)) n.
Definition net1 : net := event_net (sample_event (sample_turn 3 false)) net0.
Definition net2 : net := with_answers [(0, sample_answer)] net1.
Definition net3 : net := {| net_hub := grown_hub; net_published := net_published net2 ++ hub_log grown_hub; net_local := net_local net2;
  net_arrived := net_arrived net2; net_answers := net_answers net2 |}.
Definition net4 : net := with_local (apply_read "s1" 0 sample_answer (net_local net3)).2 (transcript sample_hub) net3.
Definition net5 : net := event_net (sample_event (tool_turn "completed")) net4.

Lemma sample_hub_ok : hub_ok sample_hub.
Proof. split; [by split|split; [reflexivity|repeat constructor; done]|right; by exists (sample_turn 3 false)]. Qed.
Lemma grown_hub_ok : hub_ok grown_hub.
Proof. split; [by split|split; [reflexivity|repeat constructor; done]|right; by exists (sample_turn 4 false)]. Qed.
Lemma sample_run : star (net_step "p") net0 net5.
Proof.
  eapply star_step; [eapply star_step; [eapply star_step; [eapply star_step; [eapply star_step; [apply star_refl|]|]|]|]|].
  - apply (event_arrives "p" net0 true (sample_event (sample_turn 3 false))). intros t Ht. vm_compute in Ht. injection Ht as <-. split; [done|by vm_compute].
  - apply (hub_answers "p" net1 0 sample_answer); [done|]. vm_compute. reflexivity.
  - apply (hub_works "p" net2 grown_hub); [apply grown_hub_ok|done|cbn; lia|done].
  - apply (answer_arrives "p" net3 0 sample_answer); [left|reflexivity].
  - apply (event_arrives "p" net4 true (sample_event (tool_turn "completed"))). intros t Ht. vm_compute in Ht. injection Ht as <-. split; [|by vm_compute].
    intros _. apply (bool_decide_unpack _). by vm_compute.
Qed.

Lemma session_replicated_witness :
  finished (lc_store (net_local net5)) = [tool_turn "completed"; sample_turn 2 true] /\
  exists l', refreshSessionTurns grown_hub "p" true (net_local net5) = (true, l') /\ buildMergedRawTurns (lc_store l') = transcript grown_hub.
Proof.
  destruct (session_replicated "p" sample_hub net5 sample_hub_ok sample_run) as (_ & _ & _ & _ & l' & H1 & _ & _ & H2).
  split; [vm_compute; reflexivity|]. exists l'. split; [exact H1|]. apply H2. vm_compute. reflexivity.
Defined.
