(* ===== verification/WorkspaceService.v ===== *)
(** [registry/RegistryWorkspaceService.ts]: the connection of the workspace.

    The service keeps the repository of the connection, the session of projects and files
    it showed last, and what it listens to.  A method is a program over the calls of
    repositories, the timer and the service's own fields, which other methods may change
    while it waits.  The project ids of a snapshot are texts.  [connect] is modelled with
    its retries and its choice of a project; the other methods delegate to the repository
    under the service's two guards. *)

From S2P Require Import Prelude Json Program RegistryTypes TurnIndex ChatWire RegistryClient.
From S2P Require Import RegistryNormalize RegistryRepository.
Open Scope Z_scope.

(** * Data *)

Notation entry := (list (string * value)).

(** A session that is spread from nothing has no projects and no hubs. *)
Record WorkspaceSession := {
  ses_projects : option (list entry); ses_hubs : option (list string); ses_selectedProjectId : string; ses_fileEntries : list entry
}.

(** A repository is known by a number; so are the subscriptions to its events and closing. *)
Record service := {
  svc_repository : option Z; svc_session : option WorkspaceSession;
  unsubscribeRepositoryEvent : option Z; unsubscribeRepositoryClose : option Z
}.
Definition new_service : service :=
  {| svc_repository := None; svc_session := None; unsubscribeRepositoryEvent := None; unsubscribeRepositoryClose := None |}.

Inductive serviceE : Type -> Type :=
  | CreateRepository : serviceE Z
  | OfRepository (repository : Z) {R : Type} (e : clientE R) : serviceE R
  | ListenEvents (repository : Z) : serviceE unit
  | ListenClose (repository : Z) : serviceE unit
  | UnlistenEvents (repository : Z) : serviceE unit
  | UnlistenClose (repository : Z) : serviceE unit
  | Sleep (ms : Z) : serviceE unit
  | GetService : serviceE service
  | PutService (s : service) : serviceE unit.

Notation task A := (prog serviceE failure A).

Definition on {A} (repository : Z) (p : client A) : task A := translate (fun R e => OfRepository repository e) p.

Definition with_repository (r : option Z) (s : service) : service := {|
  svc_repository := r; svc_session := svc_session s; unsubscribeRepositoryEvent := unsubscribeRepositoryEvent s;
  unsubscribeRepositoryClose := unsubscribeRepositoryClose s |}.
Definition with_session (ses : option WorkspaceSession) (s : service) : service := {|
  svc_repository := svc_repository s; svc_session := ses; unsubscribeRepositoryEvent := unsubscribeRepositoryEvent s;
  unsubscribeRepositoryClose := unsubscribeRepositoryClose s |}.
Definition with_event (r : option Z) (s : service) : service := {|
  svc_repository := svc_repository s; svc_session := svc_session s; unsubscribeRepositoryEvent := r;
  unsubscribeRepositoryClose := unsubscribeRepositoryClose s |}.
Definition with_close (r : option Z) (s : service) : service := {|
  svc_repository := svc_repository s; svc_session := svc_session s; unsubscribeRepositoryEvent := unsubscribeRepositoryEvent s;
  unsubscribeRepositoryClose := r |}.
(** An assignment to a field. *)
Definition assign (f : service -> service) : task unit := let* s := call GetService in call (PutService (f s)).

(** * Connecting *)

Definition unbindRepository : task unit :=
  let* s := call GetService in
  do* (match unsubscribeRepositoryEvent s with Some r => call (UnlistenEvents r) | None => Ret tt end) in
  do* assign (with_event None) in
  do* (match unsubscribeRepositoryClose s with Some r => call (UnlistenClose r) | None => Ret tt end) in
  assign (with_close None).

Definition bindRepository (repository : Z) : task unit :=
  do* unbindRepository in
  do* call (ListenEvents repository) in
  do* assign (with_event (Some repository)) in
  do* call (ListenClose repository) in
  assign (with_close (Some repository)).

Definition retryDelaysMs : list Z := [0; 400; 900].
Definition empty_snapshot (s : ProjectSnapshot) : bool :=
  match snap_projects s, snap_hubs s with [], [] => true | _, _ => false end.

(** The loop over the delays. *)
Fixpoint snapshot_loop (repository : Z) (delays : list Z) (lastSnapshot : ProjectSnapshot) : task ProjectSnapshot :=
  match delays with
  | [] => Ret lastSnapshot
  | delay :: rest =>
      do* (if 0 <? delay then call (Sleep delay) else Ret tt) in
      let* snapshot := on repository listProjectSnapshot in
      if negb (empty_snapshot snapshot) then Ret snapshot else snapshot_loop repository rest snapshot
  end.
Definition listProjectSnapshotWithRetry (repository : Z) : task ProjectSnapshot :=
  snapshot_loop repository retryDelaysMs {| snap_projects := []; snap_hubs := [] |}.

Definition project_id (project : entry) : string := string_or (prop project "projectId") "".

(** [error instanceof RegistryRequestError] with a code that says the project is away, and its message. *)
Definition offline (why : failure) : option string :=
  match why with
  | Failed (RegistryRequestError message (Some code) _) =>
      if String.eqb code "NOT_FOUND" || String.eqb code "UNAVAILABLE" then Some message else None
  | _ => None
  end.

Definition no_project (lastError : option string) : failure :=
  Failed (PlainError (match lastError with
    | Some message => "No reachable projects. Last error: " +:+ message
    | None => "No reachable projects. All listed projects appear offline." end)).

Section service.
Context `{J : JSON}.

(** The loop over the projects, with the last error. *)
Fixpoint select_loop (repository : Z) (projects : list entry) (lastError : option string) : task (string * list entry) :=
  match projects with
  | [] => Throw (no_project lastError)
  | project :: rest =>
      if negb (nonempty (project_id project)) then select_loop repository rest lastError else
      let* chosen := catch
        (let* fileList := on repository (listFiles (project_id project) "." None) in
         Ret (inl (project_id project, list_entries fileList)))
        (fun error => match offline error with Some message => Ret (inr message) | None => Throw error end) in
      match chosen with
      | inl selected => Ret selected
      | inr message => select_loop repository rest (Some message)
      end
  end.
Definition selectFirstReachableProject (repository : Z) (projects : list entry) : task (string * list entry) :=
  select_loop repository projects None.

(** The [try] block of [connect]. *)
Definition establish (repository : Z) (wsUrl clientName : string) : task WorkspaceSession :=
  do* on repository (initialize wsUrl clientName) in
  let* s := call GetService in
  let previousRepository := svc_repository s in
  do* bindRepository repository in
  let* snapshot := listProjectSnapshotWithRetry repository in
  let* selected := (match snap_projects snapshot with
                    | [] => Ret (""%string, [])
                    | _ => selectFirstReachableProject repository (snap_projects snapshot) end) in
  do* (match previousRepository with Some previous => on previous closeClient | None => Ret tt end) in
  do* assign (with_repository (Some repository)) in
  let session := {| ses_projects := Some (snap_projects snapshot); ses_hubs := Some (snap_hubs snapshot);
                    ses_selectedProjectId := selected.1; ses_fileEntries := selected.2 |} in
  do* assign (with_session (Some session)) in
  Ret session.

Definition connect (wsUrl clientName : string) : task WorkspaceSession :=
  let* repository := call CreateRepository in
  catch (establish repository wsUrl clientName)
    (fun error =>
     do* unbindRepository in
     do* on repository closeClient in
     Throw error).

Definition close : task unit :=
  let* s := call GetService in
  do* (match svc_repository s with Some repository => on repository closeClient | None => Ret tt end) in
  do* assign (with_repository None) in
  assign (with_session None).
End service.

(** * The methods that delegate *)

(** [this.repository], or what is done without one. *)
Definition repository_or {A} (fallback : task A) (f : Z -> task A) : task A :=
  let* s := call GetService in match svc_repository s with Some r => f r | None => fallback end.
(** The selected project and the repository, or what is done without a session or a repository. *)
Definition selected_or {A} (fallback : task A) (f : Z -> string -> task A) : task A :=
  let* s := call GetService in
  match svc_session s, svc_repository s with Some ses, Some r => f r (ses_selectedProjectId ses) | _, _ => fallback end.

Definition not_ready {A} : task A := Throw (Failed (PlainError "session is not ready")).
Definition of_repository {A} (p : client A) : task A := repository_or not_ready (fun r => on r p).
Definition of_selected {A} (p : string -> client A) : task A := selected_or not_ready (fun r projectId => on r (p projectId)).
Definition repository_default {A} (a : A) (p : client A) : task A := repository_or (Ret a) (fun r => on r p).
Definition selected_default {A} (a : A) (p : string -> client A) : task A := selected_or (Ret a) (fun r projectId => on r (p projectId)).

Definition getSession : task (option WorkspaceSession) := let* s := call GetService in Ret (svc_session s).

(** [{...this.session, ...}], of the session there is after a wait. *)
Definition spread_session (session : option WorkspaceSession) : WorkspaceSession :=
  default {| ses_projects := None; ses_hubs := None; ses_selectedProjectId := ""; ses_fileEntries := [] |} session.
Definition with_selected (projectId : string) (s : WorkspaceSession) : WorkspaceSession := {|
  ses_projects := ses_projects s; ses_hubs := ses_hubs s; ses_selectedProjectId := projectId; ses_fileEntries := ses_fileEntries s |}.
Definition with_files (projectId : string) (entries : list entry) (s : WorkspaceSession) : WorkspaceSession := {|
  ses_projects := ses_projects s; ses_hubs := ses_hubs s; ses_selectedProjectId := projectId; ses_fileEntries := entries |}.
Definition with_snapshot (snapshot : ProjectSnapshot) (s : WorkspaceSession) : WorkspaceSession := {|
  ses_projects := Some (snap_projects snapshot); ses_hubs := Some (snap_hubs snapshot); ses_selectedProjectId := ses_selectedProjectId s;
  ses_fileEntries := ses_fileEntries s |}.
(** [this.session = f({...this.session})]; the session is given back. *)
Definition patch_session (f : WorkspaceSession -> WorkspaceSession) : task WorkspaceSession :=
  let* s := call GetService in
  let session := f (spread_session (svc_session s)) in
  do* call (PutService (with_session (Some session) s)) in
  Ret session.

(** ** Projects and files *)

Section files.
Context `{J : JSON}.

Definition selectProject (projectId : string) : task WorkspaceSession :=
  selected_or not_ready (fun r _ =>
    let* fileList := on r (listFiles projectId "." None) in
    patch_session (with_files projectId (list_entries fileList))).

Definition selectProjectLightweight (projectId : string) : task WorkspaceSession :=
  let* s := call GetService in
  match svc_session s, svc_repository s with
  | Some session, Some _ =>
      match ses_projects session with
      | None => Throw TypeError
      | Some projects =>
          if some (fun project => String.eqb (project_id project) projectId) projects then patch_session (with_selected projectId)
          else Throw (Failed (PlainError "Project is no longer available"))
      end
  | _, _ => not_ready
  end.

Record DirectoryListing := { dl_entries : list entry; dl_hash : value; dl_notModified : value }.
Definition no_listing : DirectoryListing := {| dl_entries := []; dl_hash := text ""; dl_notModified := VBool false |}.
Definition path_or_root (path : string) : string := if nonempty path then path else ".".
Definition listing (r : Z) (projectId path : string) (knownHash : option string) : task DirectoryListing :=
  let* result := on r (listFiles projectId (path_or_root path) knownHash) in
  Ret {| dl_entries := list_entries result; dl_hash := list_hash result; dl_notModified := list_notModified result |}.

Definition listDirectory (path : string) (knownHash : option string) : task DirectoryListing :=
  selected_or (Ret no_listing) (fun r projectId =>
    if nonempty projectId then listing r projectId path knownHash else Ret no_listing).
Definition listProjectDirectory (projectId path : string) (knownHash : option string) : task DirectoryListing :=
  repository_or (Ret no_listing) (fun r => if nonempty projectId then listing r projectId path knownHash else Ret no_listing).
End files.

Definition getProjectFileInfo (projectId path : string) (signal : option Z) : task value := of_repository (RegistryRepository.getFileInfo projectId path signal).
Definition getFileInfo (path : string) (signal : option Z) : task value :=
  selected_or not_ready (fun _ projectId => getProjectFileInfo projectId path signal).
Definition readProjectFile (path projectId : string) (knownHash : option string) (signal : option Z) : task value :=
  let* result := of_repository (RegistryRepository.readFile projectId path knownHash signal) in
  let fields := properties result in
  Ret (VObj [("content", match prop fields "content" with VStr s => VStr s | _ => VStr "" end); ("hash", prop fields "hash");
             ("notModified", prop fields "notModified"); ("total", prop fields "total"); ("isBinary", prop fields "isBinary")]%string).
Definition readFile (path : string) (knownHash : option string) (signal : option Z) : task value :=
  selected_or not_ready (fun _ projectId => readProjectFile path projectId knownHash signal).

(** ** The snapshot *)

Definition listProjectSnapshot : task ProjectSnapshot :=
  let* s := call GetService in
  match svc_repository s with
  | None => let session := spread_session (svc_session s) in
            Ret {| snap_projects := default [] (ses_projects session); snap_hubs := default [] (ses_hubs session) |}
  | Some r =>
      let* snapshot := on r RegistryRepository.listProjectSnapshot in
      do* assign (fun s => with_session (with_snapshot snapshot <$> svc_session s) s) in
      Ret snapshot
  end.
Definition listProjects : task (list entry) := let* snapshot := listProjectSnapshot in Ret (snap_projects snapshot).

(** ** The index of files and Git *)

Definition getFileIndexStatus (hubId : string) : task value := of_repository (RegistryRepository.getFileIndexStatus hubId).
Definition rebuildFileIndex (projectId : string) : task value := of_repository (RegistryRepository.rebuildFileIndex projectId).
Definition searchFileIndex (projectId : string) (payload : list (string * value)) : task value :=
  of_repository (RegistryRepository.searchFileIndex projectId payload).
Definition listGitCommits (ref : string) (refs : list string) : task (list value) :=
  selected_default [] (fun projectId => RegistryRepository.gitLog projectId ref "" 50 refs).
Definition getGitRev : task value := selected_default 
  (VObj [("gitRev", text ""); ("worktreeRev", text "")]%string) (fun projectId => RegistryRepository.gitRev projectId).
Definition listGitBranches : task value := selected_default 
  (VObj [("current", text ""); ("branches", VArr []); ("remoteBranches", VArr [])]%string) (fun projectId => RegistryRepository.gitBranches projectId).
Definition listGitCommitFiles (sha : string) : task (list value) :=
  selected_default [] (fun projectId => RegistryRepository.gitCommitFiles projectId sha).
Definition readGitFileDiff (sha path : string) : task value := selected_default 
  (VObj [("sha", text sha); ("path", text path); ("isBinary", VBool false); ("diff", text ""); ("truncated", VBool false)]%string)
  (fun projectId => RegistryRepository.gitCommitFileDiff projectId sha path 3).
Definition getGitStatus : task value := selected_default 
  (VObj [("dirty", VBool false); ("worktreeRev", text ""); ("staged", VArr []); ("unstaged", VArr []); ("untracked", VArr [])]%string)
  (fun projectId => RegistryRepository.gitStatus projectId).
Definition readWorkingTreeFileDiff (path scope : string) : task value := selected_default 
  (VObj [("path", text path); ("scope", text scope); ("isBinary", VBool false); ("diff", text ""); ("truncated", VBool false)]%string)
  (fun projectId => RegistryRepository.gitWorkingTreeFileDiff projectId path scope 3).

(** ** Sessions *)

Section sessions.
Context `{J : JSON}.

Definition listSessions : task (list RegistryChatSession) :=
  selected_default [] (fun projectId => RegistryRepository.listSessions projectId).
Definition listProjectSessions (projectId : string) : task (list RegistryChatSession) :=
  repository_default [] (RegistryRepository.listSessions projectId).
Definition empty_read : SessionReadResponse RegistryChatSession :=
  {| read_sessionId := ""; read_session := None; read_turns := []; read_messages := []; read_latestTurnIndex := 0 |}.
Definition readSession (sessionId : string) (afterTurnIndex : Z) : task (SessionReadResponse RegistryChatSession) := selected_default empty_read
  (fun projectId => RegistryRepository.readSession projectId sessionId afterTurnIndex).
Definition readProjectSession (projectId sessionId : string) (afterTurnIndex : Z) : task (SessionReadResponse RegistryChatSession) := repository_default empty_read
  (RegistryRepository.readSession projectId sessionId afterTurnIndex).
Definition readSessionArtifact (projectId sessionId artifactId : string) : task value :=
  of_repository (RegistryRepository.readSessionArtifact projectId sessionId artifactId).
Definition startProjectSessionSearch (projectId searchId query : string) : task (string * bool) :=
  of_repository (RegistryRepository.startSessionSearch projectId searchId query).
Definition queryProjectSessionSearch (projectId searchId : string) : task RegistrySessionSearchResponse :=
  of_repository (RegistryRepository.querySessionSearch projectId searchId).
Definition cancelProjectSessionSearch (projectId searchId : string) : task (string * bool) :=
  of_repository (RegistryRepository.cancelSessionSearch projectId searchId).
Definition markSessionRead (sessionId : string) (lastReadTurnIndex : num) : task (value * option RegistryChatSession) :=
  of_selected (fun projectId => RegistryRepository.markSessionRead projectId sessionId lastReadTurnIndex).
Definition markProjectSessionRead (projectId sessionId : string) (lastReadTurnIndex : num) : task (value * option RegistryChatSession) :=
  of_repository (RegistryRepository.markSessionRead projectId sessionId lastReadTurnIndex).
Definition createSession (agentType : string) (title createRequestId : option string) : task (value * value) :=
  of_selected (fun projectId => RegistryRepository.createSession projectId agentType title createRequestId).
Definition createProjectSession (projectId agentType : string) (title createRequestId : option string) : task (value * value) :=
  of_repository (RegistryRepository.createSession projectId agentType title createRequestId).
Definition sendSessionMessage (payload : list (string * value)) : task session_ack :=
  of_selected (fun projectId => RegistryRepository.sendSessionMessage projectId payload).
Definition sendProjectSessionMessage (projectId : string) (payload : list (string * value)) : task session_ack :=
  of_repository (RegistryRepository.sendSessionMessage projectId payload).
Definition statusProjectSession (projectId sessionId : string) : task RegistrySessionStatusResult :=
  of_repository (RegistryRepository.statusSession projectId sessionId).
Definition compactProjectSession (projectId sessionId : string) : task (bool * bool * string * string) :=
  of_repository (RegistryRepository.compactSession projectId sessionId).
Definition startProjectSessionAttachment (projectId : string) (payload : list (string * value)) : task value :=
  of_repository (RegistryRepository.startSessionAttachment projectId payload).
Definition uploadProjectSessionAttachmentChunk (projectId : string) (payload : list (string * value)) : task value :=
  of_repository (RegistryRepository.uploadSessionAttachmentChunk projectId payload).
Definition finishProjectSessionAttachment (projectId : string) (payload : list (string * value)) : task value :=
  of_repository (RegistryRepository.finishSessionAttachment projectId payload).
Definition cancelProjectSessionAttachment (projectId : string) (payload : list (string * value)) : task value :=
  of_repository (RegistryRepository.cancelSessionAttachment projectId payload).
Definition deleteProjectSessionAttachment (projectId : string) (payload : list (string * value)) : task value :=
  of_repository (RegistryRepository.deleteSessionAttachment projectId payload).
Definition readProjectSessionAttachmentThumbnail (projectId : string) (payload : list (string * value)) : task value :=
  of_repository (RegistryRepository.readSessionAttachmentThumbnail projectId payload).
Definition readProjectSessionAttachment (projectId : string) (payload : list (string * value)) : task value :=
  of_repository (RegistryRepository.readSessionAttachment projectId payload).
Definition cancelProjectSession (projectId sessionId : string) : task session_ack :=
  of_repository (RegistryRepository.cancelSession projectId sessionId).
Definition archiveSession (sessionId : string) : task (session_ack * option string) :=
  of_selected (fun projectId => RegistryRepository.archiveSession projectId sessionId).
Definition archiveProjectSession (projectId sessionId : string) : task (session_ack * option string) :=
  of_repository (RegistryRepository.archiveSession projectId sessionId).
Definition listProjectArchivedSessions (projectId : string) : task (list RegistryArchivedSessionSummary) :=
  of_repository (RegistryRepository.listArchivedSessions projectId).
Definition readProjectArchivedSession (projectId sessionId : string) : task (SessionReadResponse RegistryArchivedSessionSummary) :=
  of_repository (RegistryRepository.readArchivedSession projectId sessionId).
Definition restoreProjectArchivedSession (projectId sessionId : string) : task (session_ack * RegistryChatSession * option string) :=
  of_repository (RegistryRepository.restoreArchivedSession projectId sessionId).
Definition deleteProjectSession (projectId sessionId : string) : task session_ack :=
  of_repository (RegistryRepository.deleteSession projectId sessionId).
Definition renameSession (sessionId title : string) : task (session_ack * RegistryChatSession) :=
  of_selected (fun projectId => RegistryRepository.renameSession projectId sessionId title).
Definition renameProjectSession (projectId sessionId title : string) : task (session_ack * RegistryChatSession) :=
  of_repository (RegistryRepository.renameSession projectId sessionId title).
Definition listResumableSessions (agentType : string) : task value :=
  selected_default (VArr []) (fun projectId => RegistryRepository.listResumableSessions projectId agentType).
Definition listProjectResumableSessions (projectId agentType : string) : task value :=
  repository_default (VArr []) (RegistryRepository.listResumableSessions projectId agentType).
Definition importResumedSession (agentType sessionId : string) : task (value * value) :=
  of_selected (fun projectId => RegistryRepository.importResumedSession projectId agentType sessionId).
Definition importProjectResumedSession (projectId agentType sessionId : string) : task (value * value) :=
  of_repository (RegistryRepository.importResumedSession projectId agentType sessionId).
Definition reloadSession (sessionId : string) : task session_ack :=
  of_selected (fun projectId => RegistryRepository.reloadSession projectId sessionId).
Definition reloadProjectSession (projectId sessionId : string) : task session_ack :=
  of_repository (RegistryRepository.reloadSession projectId sessionId).
Definition setSessionConfig (payload : list (string * value)) : task (session_ack * list RegistrySessionConfigOption) :=
  of_selected (fun projectId => RegistryRepository.setSessionConfig projectId payload).
Definition setProjectSessionConfig (projectId : string) (payload : list (string * value)) : task (session_ack * list RegistrySessionConfigOption) :=
  of_repository (RegistryRepository.setSessionConfig projectId payload).
End sessions.

(** ** The registry and its hubs *)

Definition uploadDebugLog (payload : list (string * value)) : task (bool * value) :=
  of_repository (RegistryRepository.uploadDebugLog payload).
Definition scanTokenStats (hubId : string) : task value := of_repository (RegistryRepository.scanTokenStats hubId).
Definition scanNpmPackages (hubId : string) : task RegistryNpmCommandResponse := of_repository (RegistryRepository.scanNpmPackages hubId).
Definition getPortRelayStatus : task value := of_repository (RegistryRepository.getPortRelayStatus).
Definition enablePortRelay (payload : list (string * value)) : task value := of_repository (RegistryRepository.enablePortRelay payload).
Definition disablePortRelay : task value := of_repository (RegistryRepository.disablePortRelay).
Definition regeneratePortRelayAccessCode (accessCode : string) : task value :=
  of_repository (RegistryRepository.regeneratePortRelayAccessCode accessCode).
Definition installNpmPackage (hubId packageName version : string) : task RegistryNpmCommandResponse :=
  of_repository (RegistryRepository.installNpmPackage hubId packageName version).
Definition installNpmPackages (hubId : string) (packageNames : list string) (version : string) : task RegistryNpmCommandResponse :=
  of_repository (RegistryRepository.installNpmPackages hubId packageNames version).
Definition uninstallNpmPackage (hubId packageName : string) : task RegistryNpmCommandResponse :=
  of_repository (RegistryRepository.uninstallNpmPackage hubId packageName).
Definition queryWheelMakerUpdate (hubId : string) (force : bool) : task value :=
  of_repository (RegistryRepository.queryWheelMakerUpdate hubId force).
Definition requestWheelMakerUpdatePublish (hubId : string) : task value :=
  of_repository (RegistryRepository.requestWheelMakerUpdatePublish hubId).
Definition scanSkills (hubId : string) : task value := of_repository (RegistryRepository.scanSkills hubId).
Definition listSkillsSource (hubId source : string) : task value := of_repository (RegistryRepository.listSkillsSource hubId source).
Definition installSkills (hubId : string) (params : list (string * value)) : task value :=
  of_repository (RegistryRepository.installSkills hubId params).
Definition uninstallSkills (hubId : string) (params : list (string * value)) : task value :=
  of_repository (RegistryRepository.uninstallSkills hubId params).
Definition getSkillDetail (hubId : string) (params : list (string * value)) : task value :=
  of_repository (RegistryRepository.getSkillDetail hubId params).
Definition updateSkills (hubId : string) (params : list (string * value)) : task value :=
  of_repository (RegistryRepository.updateSkills hubId params).
Definition startSpeech (payload : list (string * value)) : task value := of_repository (RegistryRepository.startSpeech payload).
Definition listDeviceSessions : task (list RegistryDeviceSession) := of_repository (RegistryRepository.listDeviceSessions).
Definition revokeDeviceSession (deviceId : string) : task unit := of_repository (RegistryRepository.revokeDeviceSession deviceId).
Definition revokeAllDeviceSessions : task unit := of_repository (RegistryRepository.revokeAllDeviceSessions).
Definition getAndroidSpeechCredential : task (string * string * string) := of_repository (RegistryRepository.getAndroidSpeechCredential).
Definition synthesizeTTS (payload : list (string * value)) : task (string * string) :=
  of_repository (RegistryRepository.synthesizeTTS payload).
Definition listTerminals (hubId : string) : task (list value) := of_repository (RegistryRepository.listTerminals hubId).
Definition createTerminal (projectId : string) (cols rows : Z) : task value :=
  of_repository (RegistryRepository.createTerminal projectId cols rows).
Definition getTerminal (hubId terminalId : string) : task value := of_repository (RegistryRepository.getTerminal hubId terminalId).
Definition resizeTerminal (hubId : string) (payload : list (string * value)) : task value :=
  of_repository (RegistryRepository.resizeTerminal hubId payload).
Definition closeTerminal (hubId terminalId : string) : task unit := of_repository (RegistryRepository.closeTerminal hubId terminalId).
Definition restartTerminal (hubId terminalId : string) : task value := of_repository (RegistryRepository.restartTerminal hubId terminalId).
Definition sendTerminalInput (hubId : string) (payload : list (string * value)) : task unit :=
  of_repository (RegistryRepository.sendTerminalInput hubId payload).
Definition sendSpeechChunk (payload : list (string * value)) : task unit := of_repository (RegistryRepository.sendSpeechChunk payload).
Definition finishSpeech (payload : list (string * value)) : task unit := of_repository (RegistryRepository.finishSpeech payload).
Definition cancelSpeech (payload : list (string * value)) : task unit := of_repository (RegistryRepository.cancelSpeech payload).

(** * What a connection leaves behind *)

(** Repositories that answer anything, from a state of their own, and what the service
    has asked of the runtime: the repositories created, listened to and closed. *)
Section contract.
Context `{J : JSON} {W : Type} (reply : forall R, Z -> clientE R -> W -> R * W).

Record runtime := {
  rt_world : W; rt_service : service; rt_created : Z; rt_events : gset Z; rt_closes : gset Z; rt_closed : gset Z; rt_slept : list Z
}.

Definition closes {R} (e : clientE R) : bool := match e with Close => true | _ => false end.

Definition runtime_handler (R : Type) (e : serviceE R) (rt : runtime) : R * runtime :=
  let with_ (w : W) s created events closes closed slept :=
    {| rt_world := w; rt_service := s; rt_created := created; rt_events := events; rt_closes := closes; rt_closed := closed; rt_slept := slept |} in
  let '{| rt_world := w; rt_service := s; rt_created := n; rt_events := ev; rt_closes := cl; rt_closed := cd; rt_slept := sl |} := rt in
  match e in serviceE R return R * runtime with
  | CreateRepository => (n, with_ w s (n + 1) ev cl cd sl)
  | @OfRepository r R e => let '(x, w') := reply R r e w in (x, with_ w' s n ev cl (if closes e then {[r]} ∪ cd else cd) sl)
  | ListenEvents r => (tt, with_ w s n ({[r]} ∪ ev) cl cd sl)
  | ListenClose r => (tt, with_ w s n ev ({[r]} ∪ cl) cd sl)
  | UnlistenEvents r => (tt, with_ w s n (ev ∖ {[r]}) cl cd sl)
  | UnlistenClose r => (tt, with_ w s n ev (cl ∖ {[r]}) cd sl)
  | Sleep ms => (tt, with_ w s n ev cl cd (sl ++ [ms]))
  | GetService => (s, rt)
  | PutService s' => (tt, with_ w s' n ev cl cd sl)
  end.

(** The service listens to what it holds a subscription for, and to nothing else. *)
Definition heard (subscription : option Z) : gset Z := match subscription with Some r => {[r]} | None => ∅ end.
Definition bound_ok (rt : runtime) : Prop :=
  rt_events rt = heard (unsubscribeRepositoryEvent (rt_service rt)) /\ rt_closes rt = heard (unsubscribeRepositoryClose (rt_service rt)).

(** Waiting for answers and for the timer changes neither the service nor its repositories. *)
Definition quiet (rt rt' : runtime) : Prop :=
  rt_service rt' = rt_service rt /\ rt_created rt' = rt_created rt /\ rt_events rt' = rt_events rt /\ rt_closes rt' = rt_closes rt /\
  rt_closed rt' = rt_closed rt.

Lemma quiet_refl rt : quiet rt rt.
Proof using. by split_and!. Qed.
Lemma quiet_trans rt1 rt2 rt3 : quiet rt1 rt2 -> quiet rt2 rt3 -> quiet rt1 rt3.
Proof using. unfold quiet. intros (-> & -> & -> & -> & ->) (-> & -> & -> & -> & ->). by split_and!. Qed.

Definition asks (R : Type) (e : clientE R) : Prop := closes e = false.

Lemma on_quiet {A} repository (p : client A) rt : calls_are asks p -> quiet rt (run runtime_handler (on repository p) rt).2.
Proof using.
  intros Hp. unfold on. rewrite run_translate. eapply run_calls; [apply quiet_refl|apply quiet_trans| |exact Hp].
  intros R e s He. destruct s. cbn. destruct (reply R repository e _). rewrite He. by split_and!.
Qed.

Lemma ask_asks args : calls_are asks (ask args).
Proof using. split; [done|]. by intros [|]. Qed.

Lemma typed_asks {A} (o : option A) : calls_are asks (typed o : client A).
Proof using. by destruct o. Qed.

Lemma initialize_asks url clientName : calls_are asks (initialize url clientName).
Proof using.
  apply calls_bind; [by split|]. intros [why|]; [done|]. apply calls_bind; [done|]. intros _. apply calls_bind; [apply ask_asks|done].
Qed.
Lemma snapshot_asks : calls_are asks RegistryRepository.listProjectSnapshot.
Proof using. apply calls_bind; [apply ask_asks|]. intros a. apply typed_asks. Qed.
Lemma files_asks projectId path knownHash : calls_are asks (listFiles projectId path knownHash).
Proof using. apply calls_bind; [apply ask_asks|]. intros a. apply typed_asks. Qed.

Lemma loop_quiet repository delays last rt : quiet rt (run runtime_handler (snapshot_loop repository delays last) rt).2.
Proof using.
  revert last rt; induction delays as [|delay rest IH]; intros last rt; [apply quiet_refl|]. cbn [snapshot_loop]. rewrite run_bind.
  assert (Hs : exists rt1, run runtime_handler (if 0 <? delay then call (Sleep delay) else Ret tt : task unit) rt = (inl tt, rt1) /\ quiet rt rt1).
  { destruct (0 <? delay); [|exists rt; split; [done|apply quiet_refl]]. destruct rt. eexists. split; [done|]. by split_and!. }
  destruct Hs as (rt1 & -> & H1). rewrite run_bind. pose proof (on_quiet repository _ rt1 snapshot_asks) as H2.
  destruct (run runtime_handler (on repository RegistryRepository.listProjectSnapshot) rt1) as [[snapshot|why] rt2]; cbn [snd] in H2.
  - eapply quiet_trans; [exact H1|]. eapply quiet_trans; [exact H2|]. destruct (negb (empty_snapshot snapshot)); [apply quiet_refl|apply IH].
  - cbn [snd]. by eapply quiet_trans.
Qed.

(** What the choice of a project gives is one of the projects, and they are all it asks about. *)
Lemma select_spec repository projects last rt :
  let '(chosen, rt') := run runtime_handler (select_loop repository projects last) rt in
  quiet rt rt' /\ (forall selected, chosen = inl selected -> selected.1 <> ""%string /\ selected.1 ∈ map project_id projects).
Proof using.
  revert last rt; induction projects as [|project rest IH]; intros last rt; cbn [select_loop run]; [split; [apply quiet_refl|done]|].
  destruct (nonempty (project_id project)) eqn:En; cbn [negb].
  - rewrite run_bind, run_catch, run_bind. pose proof (on_quiet repository _ rt (files_asks (project_id project) "." None)) as H1.
    destruct (run runtime_handler (on repository (listFiles (project_id project) "." None)) rt) as [[files|why] rt1]; cbn [snd run] in *.
    + split; [exact H1|]. intros selected [= <-]. cbn. split; [by apply nonempty_true|]. rewrite elem_of_cons. by left.
    + destruct (offline why) as [message|]; cbn [run].
      * specialize (IH (Some message) rt1). destruct (run _ _ rt1) as [chosen rt']. destruct IH as [H2 Hsel].
        split; [by eapply quiet_trans|]. intros selected E. destruct (Hsel selected E). split; [done|]. cbn. rewrite elem_of_cons. by right.
      * by split.
  - specialize (IH last rt). destruct (run _ _ rt) as [chosen rt']. destruct IH as [H2 Hsel]. split; [done|].
    intros selected E. destruct (Hsel selected E). split; [done|]. cbn. rewrite elem_of_cons. by right.
Qed.

(** Binding and unbinding. *)
Definition rebound (subscription : option Z) (rt rt' : runtime) : Prop :=
  svc_repository (rt_service rt') = svc_repository (rt_service rt) /\ svc_session (rt_service rt') = svc_session (rt_service rt) /\
  unsubscribeRepositoryEvent (rt_service rt') = subscription /\ unsubscribeRepositoryClose (rt_service rt') = subscription /\
  rt_created rt' = rt_created rt /\ rt_closed rt' = rt_closed rt /\ bound_ok rt'.

Lemma unbind_spec rt : bound_ok rt -> exists rt', run runtime_handler unbindRepository rt = (inl tt, rt') /\ rebound None rt rt'.
Proof using.
  intros [He Hc]. destruct rt as [w [repo ses ue uc] n ev cl cd sl]. cbn in He, Hc. subst ev cl.
  destruct ue, uc; (eexists; split; [cbn; reflexivity|]); (split_and!; [done..|]); split; cbn; set_solver.
Qed.

Lemma bind_spec r rt : bound_ok rt -> exists rt', run runtime_handler (bindRepository r) rt = (inl tt, rt') /\ rebound (Some r) rt rt'.
Proof using.
  intros Hb. destruct (unbind_spec rt Hb) as (rt1 & Hrun & H1). unfold bindRepository. rewrite run_bind, Hrun.
  destruct rt1 as [w [repo ses ue uc] n ev cl cd sl]. destruct H1 as (H1 & H2 & H3 & H4 & H5 & H6 & [H7 H8]). cbn in *. subst.
  eexists. split; [reflexivity|]. split_and!; [done..|]. split; cbn; set_solver.
Qed.

(** The session chosen: no projects and none selected, or one of them. *)
Definition well_chosen (session : WorkspaceSession) : Prop :=
  exists projects, ses_projects session = Some projects /\
    (projects = [] /\ ses_selectedProjectId session = ""%string \/
     ses_selectedProjectId session <> ""%string /\ ses_selectedProjectId session ∈ map project_id projects).

Definition connected (repository : Z) (rt : runtime) (session : WorkspaceSession) (rt' : runtime) : Prop :=
  svc_repository (rt_service rt') = Some repository /\ svc_session (rt_service rt') = Some session /\
  rt_events rt' = {[repository]} /\ rt_closes rt' = {[repository]} /\
  rt_closed rt' = heard (svc_repository (rt_service rt)) ∪ rt_closed rt /\ well_chosen session.

(** The repository and the session are as they were. *)
Definition retained (rt rt' : runtime) : Prop :=
  svc_repository (rt_service rt') = svc_repository (rt_service rt) /\ svc_session (rt_service rt') = svc_session (rt_service rt) /\
  rt_created rt' = rt_created rt /\ rt_closed rt' = rt_closed rt /\ bound_ok rt'.

Lemma quiet_retained rt rt' : bound_ok rt -> quiet rt rt' -> retained rt rt'.
Proof using. intros [H1 H2] (Hs & Hn & He & Hc & Hd). unfold retained, bound_ok. rewrite Hs, Hn, He, Hc, Hd. by split_and!. Qed.
Lemma retained_quiet rt rt1 rt2 : retained rt rt1 -> quiet rt1 rt2 -> retained rt rt2.
Proof using.
  intros (H1 & H2 & H3 & H4 & H5) Hq. pose proof (quiet_retained _ _ H5 Hq) as (E1 & E2 & E3 & E4 & E5).
  unfold retained. rewrite E1, E2, E3, E4. by split_and!.
Qed.

(** The end of the [try] block: the previous repository is closed and the new one installed. *)
Lemma install_spec repository previous session rt : exists rt',
  run runtime_handler
    (do* (match previous with Some r => on r closeClient | None => Ret tt end) in
     do* assign (with_repository (Some repository)) in
     do* assign (with_session (Some session)) in
     Ret session) rt = (inl session, rt') /\
  svc_repository (rt_service rt') = Some repository /\ svc_session (rt_service rt') = Some session /\
  unsubscribeRepositoryEvent (rt_service rt') = unsubscribeRepositoryEvent (rt_service rt) /\
  unsubscribeRepositoryClose (rt_service rt') = unsubscribeRepositoryClose (rt_service rt) /\
  rt_created rt' = rt_created rt /\ rt_events rt' = rt_events rt /\ rt_closes rt' = rt_closes rt /\ rt_closed rt' = heard previous ∪ rt_closed rt.
Proof using.
  destruct rt as [w s n ev cl cd sl]. destruct previous as [r|]; cbn.
  - destruct (reply unit r Close w) as [[] w']. eexists. split; [reflexivity|]. by split_and!.
  - eexists. split; [reflexivity|]. split_and!; [done..|]. cbn. set_solver.
Qed.

Lemma rebound_retained subscription rt rt' : rebound subscription rt rt' -> retained rt rt'.
Proof using. intros (? & ? & _ & _ & ? & ? & ?). by split_and!. Qed.
Lemma retained_trans rt1 rt2 rt3 : retained rt1 rt2 -> retained rt2 rt3 -> retained rt1 rt3.
Proof using. intros (H1 & H2 & H3 & H4 & _) (E1 & E2 & E3 & E4 & E5). unfold retained. rewrite E1, E2, E3, E4. by split_and!. Qed.
Lemma retained_bound rt rt' : retained rt rt' -> bound_ok rt' /\ rt_created rt' = rt_created rt.
Proof using. by intros (_ & _ & ? & _ & ?). Qed.

Lemma choice_spec repository projects rt :
  let '(chosen, rt') := run runtime_handler
    (match projects with [] => Ret (""%string, []) | _ => selectFirstReachableProject repository projects end) rt in
  quiet rt rt' /\ forall selected, chosen = inl selected ->
    projects = [] /\ selected.1 = ""%string \/ selected.1 <> ""%string /\ selected.1 ∈ map project_id projects.
Proof using.
  destruct projects as [|project rest].
  - split; [apply quiet_refl|]. intros selected [= <-]. by left.
  - pose proof (select_spec repository (project :: rest) None rt) as H. unfold selectFirstReachableProject.
    destruct (run _ _ rt) as [chosen rt']. destruct H as [Hq Hsel]. split; [done|]. intros selected E. right. by apply Hsel.
Qed.

Lemma establish_spec repository wsUrl clientName rt : bound_ok rt ->
  let '(result, rt') := run runtime_handler (establish repository wsUrl clientName) rt in
  bound_ok rt' /\ rt_created rt' = rt_created rt /\
  match result with inl session => connected repository rt session rt' | inr _ => retained rt rt' end.
Proof using.
  intros Hb. unfold establish. rewrite run_bind.
  pose proof (on_quiet repository _ rt (initialize_asks wsUrl clientName)) as Hq0.
  destruct (run runtime_handler (on repository (initialize wsUrl clientName)) rt) as [[[]|why] rt0]; cbn [snd] in Hq0;
    pose proof (quiet_retained _ _ Hb Hq0) as H0; [|by destruct H0 as (? & ? & ? & ? & ?)].
  rewrite run_bind. cbn [call run]. assert (Hget : runtime_handler service GetService rt0 = (rt_service rt0, rt0)) by by destruct rt0.
  rewrite Hget. cbn [run]. rewrite run_bind. destruct (bind_spec repository rt0 (proj2 (proj2 (proj2 (proj2 H0))))) as (rt1 & -> & H1).
  rewrite run_bind. unfold listProjectSnapshotWithRetry.
  pose proof (loop_quiet repository retryDelaysMs {| snap_projects := []; snap_hubs := [] |} rt1) as Hq2.
  destruct (run runtime_handler (snapshot_loop _ _ _) rt1) as [[snapshot|why] rt2]; cbn [snd] in Hq2.
  - pose proof (retained_trans _ _ _ (retained_quiet _ _ _ H0 (quiet_refl _)) (rebound_retained _ _ _ H1)) as H01.
    pose proof (retained_quiet _ _ _ H01 Hq2) as H2. rewrite run_bind.
    pose proof (choice_spec repository (snap_projects snapshot) rt2) as H3.
    destruct (run runtime_handler (match snap_projects snapshot with [] => _ | _ => _ end) rt2) as [[selected|why] rt3];
      destruct H3 as [Hq3 Hsel]; pose proof (retained_quiet _ _ _ H2 Hq3) as H3; destruct (retained_bound _ _ H3); [|by split_and!].
    edestruct (install_spec repository (svc_repository (rt_service rt0))) as (rt4 & -> & E1 & E2 & E3 & E4 & E5 & E6 & E7 & E8).
    destruct Hq2 as (S2 & N2 & V2 & C2 & D2), Hq3 as (S3 & N3 & V3 & C3 & D3).
    destruct H1 as (R1 & R2 & R3 & R4 & R5 & R6 & [R7 R8]). destruct H0 as (Q1 & Q2 & Q3 & Q4 & _).
    unfold bound_ok, connected. rewrite E1, E2, E3, E4, E5, E6, E7, E8, S3, N3, V3, C3, D3, S2, N2, V2, C2, D2, R7, R8, R3, R4, R5, R6, Q1, Q3, Q4.
    split_and!; [done..|]. eexists. split; [done|]. by apply Hsel.
  - pose proof (retained_quiet _ _ _ (retained_trans _ _ _ H0 (rebound_retained _ _ _ H1)) Hq2) as H2.
    destruct (retained_bound _ _ H2). by split_and!.
Qed.

(** C9. Connecting, whatever the registry answers and however it fails.  On success the
    service has the new repository and hears it alone, the one before is closed, and the
    session's project is one of the snapshot, or none when there are none.  On failure the
    new repository is closed and the repository and session of before stay, but the
    service hears nothing any more. *)
Theorem connect_contract wsUrl clientName rt : bound_ok rt ->
  let '(result, rt') := run runtime_handler (connect wsUrl clientName) rt in
  let repository := rt_created rt in
  bound_ok rt' /\ rt_created rt' = repository + 1 /\
  match result with
  | inl session => connected repository rt session rt'
  | inr _ =>
      svc_repository (rt_service rt') = svc_repository (rt_service rt) /\ svc_session (rt_service rt') = svc_session (rt_service rt) /\
      rt_events rt' = ∅ /\ rt_closes rt' = ∅ /\ rt_closed rt' = {[repository]} ∪ rt_closed rt
  end.
Proof using.
  intros Hb. unfold connect. rewrite run_bind. cbn [call run].
  set (rt0 := (runtime_handler Z CreateRepository rt).2).
  assert (E : runtime_handler Z CreateRepository rt = (rt_created rt, rt0)) by by destruct rt.
  assert (H0 : bound_ok rt0 /\ rt_service rt0 = rt_service rt /\ rt_created rt0 = rt_created rt + 1 /\ rt_closed rt0 = rt_closed rt)
    by by destruct rt. destruct H0 as (Hb0 & S0 & N0 & D0).
  rewrite E. cbn [run]. rewrite run_catch. pose proof (establish_spec (rt_created rt) wsUrl clientName rt0 Hb0) as H1.
  destruct (run runtime_handler (establish _ _ _) rt0) as [[session|why] rt1]; destruct H1 as (Hb1 & N1 & H1).
  - unfold connected in *. rewrite S0, D0 in H1. split; [exact Hb1|]. split; [by rewrite N1|exact H1].
  - rewrite run_bind. destruct (unbind_spec rt1 Hb1) as (rt2 & -> & U1 & U2 & U3 & U4 & U5 & U6 & [U7 U8]).
    destruct H1 as (Q1 & Q2 & _ & Q4 & _).
    destruct rt2 as [w s n ev cl cd sl]. cbn in *. destruct (reply unit (rt_created rt) Close w) as [[] w']. cbn. unfold bound_ok. cbn.
    rewrite U5, U6, U7, U8, U3, U4, U1, U2, Q1, Q2, Q4, N1, N0, S0, D0. by split_and!.
Qed.
End contract.

(** A registry with two projects, the first of which is away. *)
Definition sample_reply (R : Type) (repository : Z) (e : clientE R) (w : unit) : R * unit :=
  match e with
  | Request args =>
      (if String.eqb (arg_method args) "registry.project.list" then
         Resolved (VObj [("payload", VObj [("projects", VArr [VObj [("projectId", VStr "hub:a")]; VObj [("projectId", VStr "hub:b")]])])]%string)
       else if String.eqb (arg_method args) "project.fs.list" && bool_decide (arg_projectId args = Some "hub:a"%string) then
         Rejected (RegistryRequestError "away" (Some "UNAVAILABLE"%string) VUndefined)
       else Resolved (VObj []), w)
  | Connect _ | SendEvent _ => (None, w)
  | Close => (tt, w)
  end.
Definition sample_runtime : runtime := {|
  rt_world := tt; rt_service := {| svc_repository := Some 3; svc_session := None; unsubscribeRepositoryEvent := Some 3;
    unsubscribeRepositoryClose := Some 3 |};
  rt_created := 7; rt_events := {[3]}; rt_closes := {[3]}; rt_closed := ∅; rt_slept := [] |}.

Lemma connect_contract_witness :
  exists session rt', run (runtime_handler sample_reply) (connect (J:=js_JSON) "wss://registry" "web") sample_runtime = (inl session, rt') /\
    ses_selectedProjectId session = "hub:b"%string /\ connected 7 sample_runtime session rt'.
Proof.
  pose proof (connect_contract (J:=js_JSON) sample_reply "wss://registry" "web" sample_runtime ltac:(by split)) as H.
  assert (E : exists session, (run (runtime_handler sample_reply) (connect (J:=js_JSON) "wss://registry" "web") sample_runtime).1 = inl session /\
    ses_selectedProjectId session = "hub:b"%string) by (eexists; split; vm_compute; reflexivity).
  destruct E as (session & E & Es).
  destruct (run (runtime_handler sample_reply) (connect (J:=js_JSON) "wss://registry" "web") sample_runtime) as [result rt'].
  cbn [fst] in E. subst result. destruct H as (_ & _ & H). by exists session, rt'.
Defined.
