(* ===== verification/PortRelayTargets.v ===== *)
(** [portRelay/portRelayTargets.ts]: the ports of hubs that the client can relay, as a
    list without repetitions that comes from storage and from the registry. *)

From S2P Require Import Prelude.
Open Scope Z_scope.

Record PortRelayTarget := { rt_hubId : string; rt_targetPort : Z }.

#[export] Instance PortRelayTarget_eq_dec : EqDecision PortRelayTarget.
Proof. solve_decision. Defined.

(** [Number.isInteger(v)] of a value that may be no number. *)
Definition integer_of (v : value) : option Z := match v with VNum n => isInteger n | _ => None end.

(** A port: an integer from 1 to 65535, or the text of one. *)
Definition port_of (v : value) : option Z :=
  let numericPort := match v with VStr s => VNum (string_to_number s) | _ => v end in
  match integer_of numericPort with
  | Some port => if (port <? 1) || (65535 <? port) then None else Some port
  | None => None
  end.

Definition normalizePortRelayTarget (input : value) : option PortRelayTarget :=
  match prop (properties input) "hubId" with
  | VStr hubId =>
      if negb (nonempty hubId) then None else
      match port_of (prop (properties input) "targetPort") with
      | Some port => Some {| rt_hubId := hubId; rt_targetPort := port |}
      | None => None
      end
  | _ => None
  end.

Definition portRelayTargetKey (target : PortRelayTarget) : string := rt_hubId target +:+ ":" +:+ pretty (rt_targetPort target).

Definition samePortRelayTarget (left right : option PortRelayTarget) : bool :=
  match left, right with
  | Some l, Some r => bool_decide (rt_hubId l = rt_hubId r) && (rt_targetPort l =? rt_targetPort r)
  | _, _ => false
  end.

(** The loop: the keys seen and the targets kept. *)
Definition addTarget (acc : list string * list PortRelayTarget) (item : value) : list string * list PortRelayTarget :=
  match normalizePortRelayTarget item with
  | None => acc
  | Some target =>
      let key := portRelayTargetKey target in
      if bool_decide (key ∈ acc.1) then acc else (acc.1 ++ [key], acc.2 ++ [target])
  end.

Definition normalizePortRelayTargets (input : value) : list PortRelayTarget :=
  match input with VArr items => (foldl addTarget ([], []) items).2 | _ => [] end.

Definition samePortRelayTargets (left right : value) : bool :=
  let normalizedLeft := normalizePortRelayTargets left in
  let normalizedRight := normalizePortRelayTargets right in
  Nat.eqb (length normalizedLeft) (length normalizedRight) &&
  forallb (fun e => samePortRelayTarget (Some e.1) (Some e.2)) (combine normalizedLeft normalizedRight).

Definition upsertPortRelayTarget (targets target : value) : list PortRelayTarget :=
  let existing := normalizePortRelayTargets targets in
  match normalizePortRelayTarget target with
  | None => existing
  | Some normalizedTarget =>
      let key := portRelayTargetKey normalizedTarget in
      if some (fun item => bool_decide (portRelayTargetKey item = key)) existing then existing
      else existing ++ [normalizedTarget]
  end.

Definition removePortRelayTarget (targets target : value) : list PortRelayTarget :=
  let existing := normalizePortRelayTargets targets in
  match normalizePortRelayTarget target with
  | None => existing
  | Some normalizedTarget =>
      let key := portRelayTargetKey normalizedTarget in
      bfilter (fun item => negb (bool_decide (portRelayTargetKey item = key))) existing
  end.

Definition orderPortRelayTargetsForMenu (targets activeTarget : value) : list PortRelayTarget :=
  let existing := normalizePortRelayTargets targets in
  match normalizePortRelayTarget activeTarget with
  | None => existing
  | Some active => active :: bfilter (fun target => negb (samePortRelayTarget (Some target) (Some active))) existing
  end.

(** A target as the object it is. *)
Definition target_object (t : PortRelayTarget) : value :=
  VObj [("hubId", VStr (rt_hubId t)); ("targetPort", VNum (of_Z (rt_targetPort t)))]%string.
Definition target_objects (l : list PortRelayTarget) : value := VArr (map target_object l).

(** [RegistryPortRelaySnapshot], as far as it is read here. *)
Record PortRelaySnapshot := { relay_enabled : bool; relay_hubId : value; relay_targetPort : value }.

Definition reconcilePortRelayTargetSelection (targets selectedTarget : value) (snapshot : PortRelaySnapshot)
    : list PortRelayTarget * option PortRelayTarget :=
  let normalized := normalizePortRelayTargets targets in
  let selected := normalizePortRelayTarget selectedTarget in
  let snapshotTarget := if relay_enabled snapshot
    then normalizePortRelayTarget (VObj [("hubId", relay_hubId snapshot); ("targetPort", relay_targetPort snapshot)]%string)
    else None in
  match snapshotTarget with
  | None => (normalized, selected)
  | Some target => (upsertPortRelayTarget (target_objects normalized) (target_object target), Some target)
  end.

Definition normalizePortRelayListenPort (input : value) (fallback : Z) : Z := default fallback (port_of input).

Example ports :
  normalizePortRelayTargets (VArr [VObj [("hubId", VStr "h"); ("targetPort", VStr "3000")]; VNull;
    VObj [("hubId", VStr "h"); ("targetPort", VNum (of_Z 3000))]; VObj [("hubId", VStr "h"); ("targetPort", VNum (of_Z 70000))]]%string)
  = [{| rt_hubId := "h"; rt_targetPort := 3000 |}].
Proof. reflexivity. Qed.

(** * Targets are distinct *)

Definition valid_target (t : PortRelayTarget) : Prop := rt_hubId t <> ""%string /\ 1 <= rt_targetPort t <= 65535.

Lemma port_of_valid v p : port_of v = Some p -> 1 <= p <= 65535.
Proof. unfold port_of. repeat case_match; intros; simplify_eq; breflect; lia. Qed.

Lemma port_of_Z p : 1 <= p <= 65535 -> port_of (VNum (of_Z p)) = Some p.
Proof. intros H. unfold port_of, integer_of. rewrite isInteger_of_Z. replace ((p <? 1) || (65535 <? p)) with false by lia. done. Qed.

Lemma normalize_valid v t : normalizePortRelayTarget v = Some t -> valid_target t.
Proof.
  unfold normalizePortRelayTarget. repeat case_match; intros; simplify_eq. breflect. split; [done|]. by eapply port_of_valid.
Qed.

Lemma normalize_object t : valid_target t -> normalizePortRelayTarget (target_object t) = Some t.
Proof.
  intros [Hh Hp]. unfold normalizePortRelayTarget, target_object. cbn [properties prop String.eqb Ascii.eqb Bool.eqb].
  apply nonempty_true in Hh. rewrite Hh. cbn [negb]. rewrite port_of_Z by done. by destruct t.
Qed.

(** A port has no colon, so the key determines the target. *)
Lemma pretty_no_colon (z : Z) : 0 <= z -> ":"%char ∉ chars (pretty z).
Proof.
  intros Hz. assert (forall n s, ":"%char ∉ chars s -> ":"%char ∉ chars (pretty_N_go n s)) as Hgo.
  { intros n. induction (N.lt_wf_0 n) as [n _ IH]; intros s Hs. destruct (decide (0 < n)%N) as [Hn|Hn].
    - rewrite pretty_N_go_step by done. apply IH; [apply N.div_lt; [done|lia]|].
      change (chars (String ?c s)) with (c :: chars s). apply not_elem_of_cons. split; [|done].
      assert (n mod 10 < 10)%N as Hd by (apply N.mod_lt; lia). revert Hd. generalize (n mod 10)%N. intros d Hd.
      destruct d as [|p]; [done|]. do 4 (destruct p as [p|p|]; try done; try (exfalso; lia)).
    - assert (n = 0%N) as -> by lia. by rewrite pretty_N_go_0. }
  destruct z as [|p|p]; [vm_compute; intros H; repeat (apply elem_of_cons in H as [H|H]; [done|]); by apply elem_of_nil in H| |lia].
  change (pretty (Zpos p)) with (pretty (Npos p)). unfold pretty, pretty_N. case_decide; [done|]. apply Hgo, not_elem_of_nil.
Qed.

Lemma after_last_colon h1 h2 p1 p2 : ":"%char ∉ p1 -> ":"%char ∉ p2 -> h1 ++ ":"%char :: p1 = h2 ++ ":"%char :: p2 -> h1 = h2 /\ p1 = p2.
Proof.
  intros H1 H2 He. apply (f_equal reverse) in He. rewrite !reverse_app, !reverse_cons in He.
  assert (forall a b c d : list ascii, ":"%char ∉ a -> ":"%char ∉ c -> a ++ ":"%char :: b = c ++ ":"%char :: d -> a = c /\ b = d) as Hs.
  { induction a as [|x a IH]; intros b [|y c] d Ha Hc Heq; simplify_eq/=; [done|..].
    - by destruct Hc; left. - by destruct Ha; left.
    - apply not_elem_of_cons in Ha as [_ Ha], Hc as [_ Hc]. by destruct (IH b c d) as [-> ->]. }
  rewrite <- !app_assoc in He. cbn [app] in He.
  destruct (Hs (reverse p1) (reverse h1) (reverse p2) (reverse h2)) as [Hp Hh]; [by rewrite elem_of_reverse..|done|].
  split; by apply (inj reverse).
Qed.

Lemma portRelayTargetKey_inj t1 t2 : valid_target t1 -> valid_target t2 -> portRelayTargetKey t1 = portRelayTargetKey t2 -> t1 = t2.
Proof.
  intros [_ H1] [_ H2] He. apply (f_equal chars) in He. unfold portRelayTargetKey in He. rewrite !chars_app in He.
  cbn [chars String.list_ascii_of_string app] in He.
  apply after_last_colon in He as [Hh Hp]; [|apply pretty_no_colon; lia..].
  apply chars_inj in Hh, Hp. apply (inj pretty) in Hp. destruct t1, t2. simpl in *. by subst.
Qed.

(** A list of targets the client holds: valid ones, each once. *)
Record targets_ok (l : list PortRelayTarget) : Prop := { targets_valid : Forall valid_target l; targets_distinct : NoDup l }.

Lemma keys_NoDup l : targets_ok l -> NoDup (map portRelayTargetKey l).
Proof.
  intros [Hv Hn]. induction Hn as [|t l Ht Hn IH]; [constructor|]. apply Forall_cons in Hv as [Ht' Hv]. cbn [map].
  constructor; [|by apply IH]. rewrite elem_of_map. intros (u & He & Hu). rewrite Forall_forall in Hv.
  apply portRelayTargetKey_inj in He; [by subst|done|by apply Hv].
Qed.

Lemma addTarget_fold items acc : acc.1 = map portRelayTargetKey acc.2 -> targets_ok acc.2 ->
  let acc' := foldl addTarget acc items in acc'.1 = map portRelayTargetKey acc'.2 /\ targets_ok acc'.2 /\
  forall t, t ∈ acc'.2 <-> t ∈ acc.2 \/ t ∈ omap normalizePortRelayTarget items.
Proof.
  revert acc; induction items as [|v items IH]; intros acc Hk Hok; [cbn; split_and!; [done..|]; intros t; rewrite elem_of_nil; naive_solver|].
  cbn [foldl]. assert (addTarget acc v = match normalizePortRelayTarget v with None => acc | Some t =>
    if bool_decide (portRelayTargetKey t ∈ acc.1) then acc else (acc.1 ++ [portRelayTargetKey t], acc.2 ++ [t]) end) as -> by done.
  cbn [omap list_omap]. destruct (normalizePortRelayTarget v) as [t|] eqn:Et; [|by apply IH].
  pose proof (normalize_valid _ _ Et) as Hv. case_bool_decide as Hin.
  - destruct (IH acc Hk Hok) as (H1 & H2 & H3). split; [done|]. split; [done|]. intros u. rewrite H3, elem_of_cons.
    split; [naive_solver|]. intros [?|[->|?]]; [naive_solver| |naive_solver]. left. rewrite Hk in Hin.
    apply elem_of_map in Hin as (u & He & Hu). destruct Hok as [Hf _]. rewrite Forall_forall in Hf.
    apply portRelayTargetKey_inj in He; [by subst|done|by apply Hf].
  - destruct (IH (acc.1 ++ [portRelayTargetKey t], acc.2 ++ [t])) as (H1 & H2 & H3); cbn [fst snd].
    + by rewrite map_app, Hk.
    + destruct Hok as [Hf Hn]. split; [apply Forall_app; split; [done|by apply Forall_singleton]|]. apply NoDup_app. split_and!; [done| |apply NoDup_singleton].
      intros u Hu ->%list_elem_of_singleton. apply Hin. rewrite Hk. apply elem_of_map. eauto.
    + split; [done|]. split; [done|]. intros u. rewrite H3. cbn [snd]. rewrite elem_of_app, list_elem_of_singleton, elem_of_cons. naive_solver.
Qed.

Lemma normalizeTargets_spec items : targets_ok (normalizePortRelayTargets (VArr items)) /\
  forall t, t ∈ normalizePortRelayTargets (VArr items) <-> t ∈ omap normalizePortRelayTarget items.
Proof.
  destruct (addTarget_fold items ([], [])) as (_ & H2 & H3); [done|split; constructor|]. split; [exact H2|].
  intros t. unfold normalizePortRelayTargets. rewrite H3. cbn [snd]. rewrite elem_of_nil. naive_solver.
Qed.

Lemma normalizeTargets_ok v : targets_ok (normalizePortRelayTargets v).
Proof. destruct v; try (split; constructor). apply normalizeTargets_spec. Qed.
#[export] Hint Resolve normalizeTargets_ok : js.

Lemma addTarget_new l seen out : Forall valid_target l -> NoDup (map portRelayTargetKey l) ->
  (forall t, t ∈ l -> portRelayTargetKey t ∉ seen) -> (foldl addTarget (seen, out) (map target_object l)).2 = out ++ l.
Proof.
  revert seen out; induction l as [|t l IH]; intros seen out Hv Hn Hs; cbn [map foldl]; [by rewrite app_nil_r|].
  apply Forall_cons in Hv as [Ht Hv]. apply NoDup_cons in Hn as [Hk Hn].
  assert (addTarget (seen, out) (target_object t) = (seen ++ [portRelayTargetKey t], out ++ [t])) as ->.
  { unfold addTarget. rewrite normalize_object by done. cbn [fst snd]. by rewrite bool_decide_false by (apply Hs; left). }
  rewrite IH, <- app_assoc; [done..|]. intros u Hu. rewrite elem_of_app, list_elem_of_singleton. intros [H|H].
  - by apply (Hs u); [right|].
  - apply Hk. rewrite <- H. apply elem_of_map. eauto.
Qed.

(** Normalising a list the client holds changes nothing. *)
Lemma normalizeTargets_id l : targets_ok l -> normalizePortRelayTargets (target_objects l) = l.
Proof.
  intros Hl. apply (addTarget_new l [] []); [apply Hl|by apply keys_NoDup|]. intros t _. apply not_elem_of_nil.
Qed.

Lemma samePortRelayTarget_true t u : samePortRelayTarget (Some t) (Some u) = true <-> t = u.
Proof.
  unfold samePortRelayTarget. rewrite andb_true_iff, bool_decide_eq_true, Z.eqb_eq. destruct t, u; simpl. split; [intros [-> ->]|intros [= -> ->]]; done.
Qed.

Lemma same_key t u : valid_target t -> valid_target u ->
  bool_decide (portRelayTargetKey t = portRelayTargetKey u) = bool_decide (t = u).
Proof. intros Ht Hu. apply bool_decide_ext. split; [by apply portRelayTargetKey_inj|by intros ->]. Qed.

Section edits.
Context (l : list PortRelayTarget) (t : PortRelayTarget) (Hl : targets_ok l) (Ht : valid_target t).

Lemma upsert_spec : upsertPortRelayTarget (target_objects l) (target_object t) = if decide (t ∈ l) then l else l ++ [t].
Proof using Hl Ht.
  unfold upsertPortRelayTarget. rewrite normalizeTargets_id, normalize_object by done. destruct Hl as [Hv _]. rewrite Forall_forall in Hv.
  destruct (decide (t ∈ l)) as [Hin|Hin].
  - assert (some (fun item => bool_decide (portRelayTargetKey item = portRelayTargetKey t)) l = true) as ->; [|done].
    apply some_true. exists t. by rewrite bool_decide_true.
  - assert (some (fun item => bool_decide (portRelayTargetKey item = portRelayTargetKey t)) l = false) as ->; [|done].
    apply some_false, Forall_forall. intros u Hu. rewrite same_key by auto. apply bool_decide_false. by intros ->.
Qed.

Lemma remove_spec : removePortRelayTarget (target_objects l) (target_object t) = bfilter (fun u => negb (bool_decide (u = t))) l.
Proof using Hl Ht.
  unfold removePortRelayTarget. rewrite normalizeTargets_id, normalize_object by done. destruct Hl as [Hv _]. rewrite Forall_forall in Hv.
  apply List.filter_ext_in. intros u Hu%list_elem_of_In. by rewrite same_key by auto.
Qed.

Lemma order_spec : orderPortRelayTargetsForMenu (target_objects l) (target_object t) = t :: bfilter (fun u => negb (bool_decide (u = t))) l.
Proof using Hl Ht.
  unfold orderPortRelayTargetsForMenu. rewrite normalizeTargets_id, normalize_object by done. f_equal.
  apply List.filter_ext. intros u. f_equal. apply eq_iff_eq_true. by rewrite samePortRelayTarget_true, bool_decide_eq_true.
Qed.
End edits.
