(* ===== verification/Collation.v ===== *)
(** Comparators: [String.prototype.localeCompare] as an interface, and the algebra of
    comparators that makes a sort's result describable.  A comparator is antisymmetric
    up to its sign and transitive; combining two lexicographically, reading a key or
    reversing gives a comparator again. *)

From S2P Require Import Prelude.
Open Scope Z_scope.

Class Comparator {A : Type} (cmp : A -> A -> Z) : Prop := {
  cmp_antisym x y : Z.sgn (cmp y x) = - Z.sgn (cmp x y);
  cmp_trans x y z : cmp x y <= 0 -> cmp y z <= 0 -> cmp x z <= 0
}.

Section comparators.
Context {A B : Type}.
Implicit Types (cmp : A -> A -> Z).

Lemma cmp_refl cmp `{!Comparator cmp} x : cmp x x = 0.
Proof. pose proof (cmp_antisym x x). destruct (cmp x x); simpl in *; lia. Qed.

Lemma cmp_total cmp `{!Comparator cmp} x y : 0 < cmp x y -> cmp y x <= 0.
Proof. intros H. pose proof (cmp_antisym x y) as E. rewrite (Z.sgn_pos (cmp x y)) in E by done. lia. Qed.

Lemma cmp_zero cmp `{!Comparator cmp} x y : cmp x y = 0 -> cmp y x = 0.
Proof. intros H. pose proof (cmp_antisym x y) as E. rewrite H in E. simpl in E. lia. Qed.

(** Equal elements compare alike with every other. *)
Lemma cmp_zero_l cmp `{!Comparator cmp} x y z : cmp x y = 0 -> cmp y z <= 0 -> cmp x z <= 0.
Proof. intros H ?. eapply cmp_trans; [|done]. by rewrite H. Qed.

#[export] Instance by_comparator (f : B -> A) cmp : Comparator cmp -> Comparator (fun x y => cmp (f x) (f y)).
Proof. intros H. constructor; intros; [apply cmp_antisym|eapply cmp_trans; eauto]. Qed.

Definition lex (c1 c2 : A -> A -> Z) (x y : A) : Z := if c1 x y =? 0 then c2 x y else c1 x y.

#[export] Instance lex_comparator c1 c2 : Comparator c1 -> Comparator c2 -> Comparator (lex c1 c2).
Proof.
  intros H1 H2. constructor; unfold lex.
  - intros x y. pose proof (cmp_antisym (cmp := c1) x y). pose proof (cmp_antisym (cmp := c2) x y).
    destruct (Z.eqb_spec (c1 x y) 0), (Z.eqb_spec (c1 y x) 0); lia.
  - intros x y z. destruct (Z.eqb_spec (c1 x y) 0) as [E1|E1], (Z.eqb_spec (c1 y z) 0) as [E2|E2]; intros Hxy Hyz.
    + assert (c1 x z = 0) as ->; [|simpl; by eapply (cmp_trans (cmp := c2))].
      apply Z.le_antisymm; [eapply (cmp_trans (cmp := c1)); [by rewrite E1|by rewrite E2]|].
      apply cmp_zero in E1, E2; try done. apply Z.le_ngt. intros Hlt.
      assert (c1 z x <= 0) by (eapply (cmp_trans (cmp := c1)); [by rewrite E2|by rewrite E1]).
      pose proof (cmp_antisym (cmp := c1) x z). lia.
    + assert (c1 x z < 0); [|destruct (Z.eqb_spec (c1 x z) 0); lia].
      assert (c1 x z <= 0) by (eapply (cmp_trans (cmp := c1)); [by rewrite E1|lia]).
      assert (c1 x z <> 0); [|lia]. intros E3. apply E2.
      apply Z.le_antisymm; [lia|]. apply Z.le_ngt. intros Hlt.
      assert (c1 z y <= 0); [|pose proof (cmp_antisym (cmp := c1) y z); lia].
      apply cmp_zero in E3; [|done]. eapply (cmp_trans (cmp := c1)); [by rewrite E3|by rewrite E1].
    + assert (c1 x z < 0); [|destruct (Z.eqb_spec (c1 x z) 0); lia].
      assert (c1 x z <= 0) by (eapply (cmp_trans (cmp := c1)); [|by rewrite E2]; lia).
      assert (c1 x z <> 0); [|lia]. intros E3. apply E1.
      apply Z.le_antisymm; [lia|]. apply Z.le_ngt. intros Hlt.
      assert (c1 y x <= 0); [|pose proof (cmp_antisym (cmp := c1) x y); lia].
      apply cmp_zero in E3; [|done]. eapply (cmp_trans (cmp := c1)); [by rewrite E2|by rewrite E3].
    + assert (c1 x z <= 0) by (eapply (cmp_trans (cmp := c1) x y z); lia).
      destruct (Z.eqb_spec (c1 x z) 0) as [E3|]; [|done]. exfalso. apply E1.
      apply cmp_zero in E3; [|done]. apply Z.le_antisymm; [lia|]. apply Z.le_ngt. intros Hlt.
      assert (c1 y x <= 0) by (eapply (cmp_trans (cmp := c1) y z x); lia).
      pose proof (cmp_antisym (cmp := c1) x y). lia.
Qed.

#[export] Instance flip_comparator cmp : Comparator cmp -> Comparator (fun x y => cmp y x).
Proof. intros H. constructor; intros; [apply cmp_antisym|eapply cmp_trans; eauto]. Qed.

Lemma comparator_ext cmp cmp' : (forall x y, cmp x y = cmp' x y) -> Comparator cmp -> Comparator cmp'.
Proof. intros E H. constructor; intros *; rewrite <- !E; [apply cmp_antisym|apply cmp_trans]. Qed.

(** Sorting by a comparator gives a list in order. *)
Lemma sort_sorted cmp `{!Comparator cmp} l : StronglySorted (fun x y => cmp x y <= 0) (js_sort cmp l).
Proof. apply js_sort_sorted; [apply cmp_total|apply cmp_trans]; done. Qed.
End comparators.

#[export] Instance sub_comparator : Comparator Z.sub.
Proof. constructor; lia. Qed.

(** [localeCompare], and with [{sensitivity: 'base'}]; [numeric] as well where asked. *)
Class Collation := {
  localeCompare : string -> string -> Z;
  localeCompareBase : string -> string -> Z;
  #[global] localeCompare_ok :: Comparator localeCompare;
  #[global] localeCompareBase_ok :: Comparator localeCompareBase
}.

(** The order of code units, for witnesses. *)
Fixpoint compare_codes (l1 l2 : list Z) : Z :=
  match l1, l2 with
  | [], [] => 0
  | [], _ :: _ => -1
  | _ :: _, [] => 1
  | a :: l1', b :: l2' => if a - b =? 0 then compare_codes l1' l2' else a - b
  end.

#[export] Instance compare_codes_ok : Comparator compare_codes.
Proof.
  constructor.
  - intros x; induction x as [|a x IH]; intros [|b y]; simpl; try done. specialize (IH y).
    destruct (Z.eqb_spec (b - a) 0), (Z.eqb_spec (a - b) 0); lia.
  - intros x; induction x as [|a x IH]; intros [|b y] [|c z]; simpl; try lia. specialize (IH y z).
    destruct (Z.eqb_spec (b - c) 0), (Z.eqb_spec (a - b) 0), (Z.eqb_spec (a - c) 0); lia.
Qed.

Definition codes (s : string) : list Z := map (fun c => Z.of_nat (nat_of_ascii c)) (chars s).

Definition code_collation : Collation := {|
  localeCompare := fun x y => compare_codes (codes x) (codes y);
  localeCompareBase := fun x y => compare_codes (codes (toLowerCase x)) (codes (toLowerCase y));
  localeCompare_ok := by_comparator codes _ _;
  localeCompareBase_ok := by_comparator (fun s => codes (toLowerCase s)) _ _ |}.
