(* ===== verification/ChatIndexState.v ===== *)
(** [chat/session/chatIndexState.ts]: the index of projects and sessions, how events
    and lists are merged into it, the order projects are shown in, and the bookkeeping
    of refreshes. *)

From S2P Require Import Prelude RegistryTypes Collation ChatSessionKey.
Open Scope Z_scope.

Record ChatIndexRefreshState := {
  fullRefreshInFlight : bool; fullRefreshDirty : bool;
  projectRefreshInFlight : gmap string bool; projectRefreshDirty : gmap string bool;
  projectErrors : gmap string string
}.

Record ChatIndexState := {
  idx_projects : list RegistryProject;
  sessionsByProjectId : gmap string (list RegistryChatSession);
  idx_selected : option ChatSessionKey;
  idx_refresh : ChatIndexRefreshState
}.

(** A patch carries the session of the payload as it came. *)
Inductive ChatSessionEventClassification :=
  | ClassPatch (projectId : string) (session : value)
  | ClassRefreshProject (projectId : string)
  | ClassRefreshAll
  | ClassIgnore.

Definition createChatIndexState : ChatIndexState := {|
  idx_projects := []; sessionsByProjectId := ∅; idx_selected := None;
  idx_refresh := {| fullRefreshInFlight := false; fullRefreshDirty := false; projectRefreshInFlight := ∅;
                    projectRefreshDirty := ∅; projectErrors := ∅ |} |}.

Definition shouldUpdateCurrentProjectSessions (activeProjectId currentProjectId : string) : bool :=
  nonempty activeProjectId && bool_decide (activeProjectId = currentProjectId).

Section order.
Context `{!Collation}.

(** Newest first; a missing time goes last. *)
Definition compareUpdatedAtDesc (left right : string) : Z :=
  if bool_decide (left = right) then 0 else
  if negb (nonempty left) then 1 else
  if negb (nonempty right) then -1 else localeCompare right left.

Definition bySessionUpdatedAt (left right : RegistryChatSession) : Z :=
  compareUpdatedAtDesc (sess_updatedAt left) (sess_updatedAt right).

Definition sortChatSessions (items : list RegistryChatSession) : list RegistryChatSession := js_sort bySessionUpdatedAt items.

Definition latestSessionUpdatedAt (sessions : option (list RegistryChatSession)) : string :=
  match sortChatSessions (default [] sessions) with s :: _ => sess_updatedAt s | [] => "" end.

Definition pinned_order (pinnedProjectIds : list string) : list (string * Z) :=
  dict_of (imap (fun index projectId => (projectId, Z.of_nat index)) pinnedProjectIds).

Definition compareIndexProjects (sessions : gmap string (list RegistryChatSession)) (pinnedProjectIds : list string)
    (left right : RegistryProject) : Z :=
  let pinnedOrder := pinned_order pinnedProjectIds in
  match dget pinnedOrder (proj_projectId left), dget pinnedOrder (proj_projectId right) with
  | Some _, None => -1
  | None, Some _ => 1
  | Some l, Some r => l - r
  | None, None =>
      let leftUpdatedAt := latestSessionUpdatedAt (sessions !! proj_projectId left) in
      let rightUpdatedAt := latestSessionUpdatedAt (sessions !! proj_projectId right) in
      let leftHasActivity := nonempty leftUpdatedAt in
      let rightHasActivity := nonempty rightUpdatedAt in
      if negb (Bool.eqb leftHasActivity rightHasActivity) then (if leftHasActivity then -1 else 1)
      else
        let updatedDiff := if leftHasActivity && rightHasActivity then compareUpdatedAtDesc leftUpdatedAt rightUpdatedAt else 0 in
        if negb (updatedDiff =? 0) then updatedDiff
        else localeCompareBase (proj_name left) (proj_name right)
  end.

Definition sortChatIndexProjects (projects : list RegistryProject) (sessions : gmap string (list RegistryChatSession))
    (pinnedProjectIds : list string) : list RegistryProject :=
  js_sort (compareIndexProjects sessions pinnedProjectIds) projects.

(** * Merging sessions *)

(** [Partial<RegistryChatSession> & {sessionId}]. *)
Record SessionPatch := {
  p_sessionId : string; p_title : option string; p_preview : option string; p_updatedAt : option string;
  p_messageCount : option Q; p_unreadCount : option Q; p_agentType : option string; p_latestTurnIndex : option Z;
  p_running : option bool; p_lastDoneTurnIndex : option Z; p_lastDoneSuccess : option bool;
  p_lastReadTurnIndex : option Z; p_configOptions : option (list RegistrySessionConfigOption);
  p_commands : option (list RegistrySessionCommand); p_usage : option RegistrySessionUsage
}.

(** [a ?? b]. *)
Definition coalesce {A} (a b : option A) : option A := match a with Some x => Some x | None => b end.

Definition mergedSession (session : SessionPatch) (existing : option RegistryChatSession) : RegistryChatSession := {|
  sess_sessionId := p_sessionId session;
  sess_title := default "" (coalesce (p_title session) (sess_title <$> existing));
  sess_preview := default "" (coalesce (p_preview session) (sess_preview <$> existing));
  sess_updatedAt := default "" (coalesce (p_updatedAt session) (sess_updatedAt <$> existing));
  sess_messageCount := default 0%Q (coalesce (p_messageCount session) (sess_messageCount <$> existing));
  sess_unreadCount := coalesce (p_unreadCount session) (existing ≫= sess_unreadCount);
  sess_agentType := coalesce (p_agentType session) (existing ≫= sess_agentType);
  sess_createRequestId := None;
  sess_latestTurnIndex := coalesce (p_latestTurnIndex session) (existing ≫= sess_latestTurnIndex);
  sess_running := coalesce (p_running session) (existing ≫= sess_running);
  sess_lastDoneTurnIndex := coalesce (p_lastDoneTurnIndex session) (existing ≫= sess_lastDoneTurnIndex);
  sess_lastDoneSuccess := coalesce (p_lastDoneSuccess session) (existing ≫= sess_lastDoneSuccess);
  sess_lastReadTurnIndex := coalesce (p_lastReadTurnIndex session) (existing ≫= sess_lastReadTurnIndex);
  sess_configOptions := coalesce (p_configOptions session) (existing ≫= sess_configOptions);
  sess_commands := coalesce (p_commands session) (existing ≫= sess_commands);
  sess_usage := coalesce (p_usage session) (existing ≫= sess_usage);
  sess_sessionActions := None |}.

Definition mergeChatIndexSession (state : ChatIndexState) (projectId : string) (session : SessionPatch) : ChatIndexState :=
  if negb (nonempty projectId) || negb (nonempty (p_sessionId session)) then state else
  let current := default [] (sessionsByProjectId state !! projectId) in
  let existing := find (fun item => bool_decide (sess_sessionId item = p_sessionId session)) current in
  {| idx_projects := idx_projects state;
     sessionsByProjectId := <[projectId := sortChatSessions (mergedSession session existing ::
       bfilter (fun item => negb (bool_decide (sess_sessionId item = p_sessionId session))) current)]> (sessionsByProjectId state);
     idx_selected := idx_selected state; idx_refresh := idx_refresh state |}.

(** [{...item, configOptions: ..., commands: ..., usage: ...}]. *)
Definition keepDetails (item previous : RegistryChatSession) : RegistryChatSession := {|
  sess_sessionId := sess_sessionId item; sess_title := sess_title item; sess_preview := sess_preview item;
  sess_updatedAt := sess_updatedAt item; sess_messageCount := sess_messageCount item;
  sess_unreadCount := sess_unreadCount item; sess_agentType := sess_agentType item;
  sess_createRequestId := sess_createRequestId item; sess_latestTurnIndex := sess_latestTurnIndex item;
  sess_running := sess_running item; sess_lastDoneTurnIndex := sess_lastDoneTurnIndex item;
  sess_lastDoneSuccess := sess_lastDoneSuccess item; sess_lastReadTurnIndex := sess_lastReadTurnIndex item;
  sess_configOptions := coalesce (sess_configOptions item) (sess_configOptions previous);
  sess_commands := coalesce (sess_commands item) (sess_commands previous);
  sess_usage := coalesce (sess_usage item) (sess_usage previous);
  sess_sessionActions := sess_sessionActions item |}.

Definition by_session_id (l : list RegistryChatSession) : list (string * RegistryChatSession) :=
  dict_of (map (fun session => (sess_sessionId session, session)) l).

Definition mergeIncoming (byId nextById : list (string * RegistryChatSession)) (item : RegistryChatSession)
    : list (string * RegistryChatSession) :=
  let previous := coalesce (dget nextById (sess_sessionId item)) (dget byId (sess_sessionId item)) in
  let is_missing {A} (x : option A) := match x with None => true | Some _ => false end in
  let merged := match previous with
    | Some p => if is_missing (sess_configOptions item) || is_missing (sess_commands item) || is_missing (sess_usage item)
                then keepDetails item p else item
    | None => item
    end in
  dset nextById (sess_sessionId item) merged.

Definition mergeChatSessionList (existing incoming : list RegistryChatSession) : list RegistryChatSession :=
  sortChatSessions (map snd (foldl (mergeIncoming (by_session_id existing)) [] incoming)).
End order.

(** * Events *)

Definition projectKnown (state : ChatIndexState) (projectId : string) : bool :=
  some (fun project => bool_decide (proj_projectId project = projectId)) (idx_projects state).

Definition sessionKnown (state : ChatIndexState) (projectId sessionId : string) : bool :=
  some (fun session => bool_decide (sess_sessionId session = sessionId)) (default [] (sessionsByProjectId state !! projectId)).

Definition payloadSession (payload : value) : option value :=
  let session := prop (properties payload) "session" in
  if truthy (prop (properties session) "sessionId") then Some session else None.

Definition payloadSessionId (payload : value) : string :=
  match prop (properties payload) "sessionId" with VStr s => s | _ => "" end.

Definition classifyChatSessionEvent (state : ChatIndexState) (method projectId : option string) (payload : value)
    : ChatSessionEventClassification :=
  let projectId := default ""%string projectId in
  if negb (nonempty projectId) then ClassIgnore else
  if negb (projectKnown state projectId) then ClassRefreshAll else
  if bool_decide (method = Some "session.updated"%string) then
    match payloadSession payload with Some session => ClassPatch projectId session | None => ClassIgnore end
  else if bool_decide (method = Some "session.message"%string) then
    let sessionId := payloadSessionId payload in
    if negb (nonempty sessionId) then ClassIgnore
    else if sessionKnown state projectId sessionId then ClassIgnore else ClassRefreshProject projectId
  else ClassIgnore.

(** * Refreshes *)

Definition with_refresh (state : ChatIndexState) (r : ChatIndexRefreshState) : ChatIndexState := {|
  idx_projects := idx_projects state; sessionsByProjectId := sessionsByProjectId state;
  idx_selected := idx_selected state; idx_refresh := r |}.

Definition with_full (r : ChatIndexRefreshState) (inFlight dirty : bool) (errors : gmap string string) : ChatIndexRefreshState := {|
  fullRefreshInFlight := inFlight; fullRefreshDirty := dirty; projectRefreshInFlight := projectRefreshInFlight r;
  projectRefreshDirty := projectRefreshDirty r; projectErrors := errors |}.

Definition with_project (r : ChatIndexRefreshState) (inFlight dirty : gmap string bool) (errors : gmap string string)
    : ChatIndexRefreshState := {|
  fullRefreshInFlight := fullRefreshInFlight r; fullRefreshDirty := fullRefreshDirty r;
  projectRefreshInFlight := inFlight; projectRefreshDirty := dirty; projectErrors := errors |}.

Definition requestChatIndexFullRefresh (state : ChatIndexState) : ChatIndexState :=
  let r := idx_refresh state in
  if fullRefreshInFlight r then with_refresh state (with_full r (fullRefreshInFlight r) true (projectErrors r))
  else with_refresh state (with_full r true false (projectErrors r)).

Definition finishChatIndexFullRefresh (state : ChatIndexState) (error : string) : ChatIndexState :=
  let r := idx_refresh state in
  with_refresh state (with_full r (fullRefreshDirty r) false
    (if nonempty error then <["__all__"%string := error]> (projectErrors r) else projectErrors r)).

(** [!!flags[projectId]]. *)
Definition flag (flags : gmap string bool) (projectId : string) : bool := default false (flags !! projectId).

Definition requestChatIndexProjectRefresh (state : ChatIndexState) (projectId : string) : ChatIndexState :=
  if negb (nonempty projectId) then state else
  let r := idx_refresh state in
  if flag (projectRefreshInFlight r) projectId then
    with_refresh state (with_project r (projectRefreshInFlight r) (<[projectId := true]> (projectRefreshDirty r)) (projectErrors r))
  else
    with_refresh state (with_project r (<[projectId := true]> (projectRefreshInFlight r))
      (<[projectId := false]> (projectRefreshDirty r)) (projectErrors r)).

Definition finishChatIndexProjectRefresh (state : ChatIndexState) (projectId error : string) : ChatIndexState :=
  if negb (nonempty projectId) then state else
  let r := idx_refresh state in
  let keepInFlight := flag (projectRefreshDirty r) projectId in
  with_refresh state (with_project r (<[projectId := keepInFlight]> (projectRefreshInFlight r))
    (<[projectId := false]> (projectRefreshDirty r))
    (if nonempty error then <[projectId := error]> (projectErrors r) else delete projectId (projectErrors r))).

(** * The order of sessions and projects *)

Section order_facts.
Context `{C : Collation}.

#[export] Instance compareUpdatedAtDesc_ok : Comparator compareUpdatedAtDesc.
Proof.
  apply (comparator_ext
    (lex (fun x y => (if nonempty x then 0 else 1) - (if nonempty y then 0 else 1)) (fun x y => localeCompare y x))).
  - intros x y. unfold lex, compareUpdatedAtDesc. case_bool_decide as E; [subst; rewrite Z.sub_diag; apply cmp_refl, _|].
    destruct (nonempty x) eqn:Ex, (nonempty y) eqn:Ey; simpl; try done. breflect. congruence.
  - apply lex_comparator; [|apply flip_comparator, _].
    apply (by_comparator (fun x : string => if nonempty x then 0 else 1) Z.sub), _.
Qed.

#[export] Instance bySessionUpdatedAt_ok : Comparator bySessionUpdatedAt := by_comparator sess_updatedAt _ _.

Definition pin (pinned : list string) (p : RegistryProject) : option Z := dget (pinned_order pinned) (proj_projectId p).
Definition activity (sessions : gmap string (list RegistryChatSession)) (p : RegistryProject) : string :=
  latestSessionUpdatedAt (sessions !! proj_projectId p).

(** Pinned indexes in order, then what is not pinned. *)
Definition compare_pin (x y : option Z) : Z :=
  match x, y with Some i, Some j => i - j | Some _, None => -1 | None, Some _ => 1 | None, None => 0 end.

Lemma compare_pin_ok : Comparator compare_pin.
Proof. constructor; [intros [x|] [y|]|intros [x|] [y|] [z|]]; simpl; lia. Qed.

#[export] Instance compareIndexProjects_ok sessions pinned : Comparator (compareIndexProjects sessions pinned).
Proof.
  set (at_rest := fun p => match pin pinned p with Some _ => ""%string | None => activity sessions p end).
  set (name_of := fun p => match pin pinned p with Some _ => ""%string | None => proj_name p end).
  apply (comparator_ext (lex (fun x y => compare_pin (pin pinned x) (pin pinned y))
    (lex (fun x y => compareUpdatedAtDesc (at_rest x) (at_rest y)) (fun x y => localeCompareBase (name_of x) (name_of y))))).
  - intros x y. unfold lex, compareIndexProjects, at_rest, name_of, activity. fold (pin pinned x) (pin pinned y).
    destruct (pin pinned x) as [i|], (pin pinned y) as [j|]; simpl; try done.
    + rewrite cmp_refl by apply _. destruct (Z.eqb_spec (i - j) 0); lia.
    + set (tx := latestSessionUpdatedAt _). set (ty := latestSessionUpdatedAt _). unfold compareUpdatedAtDesc.
      destruct (nonempty tx) eqn:Ex, (nonempty ty) eqn:Ey; simpl; case_bool_decide; simplify_eq; simpl; try done.
      1: by destruct (localeCompare ty tx =? 0).
      all: breflect; congruence.
  - apply lex_comparator; [apply (by_comparator (pin pinned)), compare_pin_ok|].
    apply lex_comparator; [apply (by_comparator at_rest), _|apply (by_comparator name_of), _].
Qed.

(** [a] may stand before [b] in the list of projects. *)
Definition project_before (sessions : gmap string (list RegistryChatSession)) (pinned : list string) (a b : RegistryProject) : Prop :=
  match pin pinned a, pin pinned b with
  | Some i, Some j => i <= j
  | Some _, None => True
  | None, Some _ => False
  | None, None =>
      let ta := activity sessions a in
      let tb := activity sessions b in
      (ta <> "" /\ tb = "")%string \/
      (ta <> "" /\ tb <> "" /\ ta <> tb /\ localeCompare tb ta < 0)%string \/
      ((ta = tb \/ (ta <> "" /\ tb <> "" /\ localeCompare tb ta = 0))%string /\ localeCompareBase (proj_name a) (proj_name b) <= 0)
  end.

Lemma compareIndexProjects_before sessions pinned a b :
  compareIndexProjects sessions pinned a b <= 0 -> project_before sessions pinned a b.
Proof.
  unfold compareIndexProjects, project_before. fold (pin pinned a) (pin pinned b).
  fold (activity sessions a) (activity sessions b).
  destruct (pin pinned a), (pin pinned b); try lia. cbv zeta. unfold compareUpdatedAtDesc.
  set (ta := activity _ a). set (tb := activity _ b). clearbody ta tb.
  destruct (nonempty ta) eqn:Ea, (nonempty tb) eqn:Eb; breflect; simpl; try lia; try (intros; tauto).
  - case_bool_decide as E; simpl; [intros; right; right; tauto|].
    destruct (Z.eqb_spec (localeCompare tb ta) 0) as [E0|E0]; simpl; intros; right.
    + right. tauto.
    + left. split_and!; try done. lia.
  - intros. right. right. split; [left; congruence|done].
Qed.

(** The order of projects: the projects shown are those of the index, pinned ones
    first in the order they were pinned, then by their latest session, newest first,
    projects without activity last, and by name among equals. *)
Theorem project_order_spec projects sessions pinned :
  let l := sortChatIndexProjects projects sessions pinned in
  l ≡ₚ projects /\ StronglySorted (project_before sessions pinned) l.
Proof.
  intros l. split; [apply js_sort_perm|]. unfold l, sortChatIndexProjects.
  induction (sort_sorted (compareIndexProjects sessions pinned) projects) as [|x l' _ IH Hx]; constructor; [done|].
  eapply Forall_impl; [exact Hx|]. intros y. apply compareIndexProjects_before.
Qed.

(** * Lists of sessions *)

Definition session_ids (l : list RegistryChatSession) : list string := map sess_sessionId l.

Definition newest_first (l : list RegistryChatSession) : Prop :=
  StronglySorted (fun x y => compareUpdatedAtDesc (sess_updatedAt x) (sess_updatedAt y) <= 0) l.

Definition list_ok (l : list RegistryChatSession) : Prop := NoDup (session_ids l) /\ newest_first l.
Definition index_ok (state : ChatIndexState) : Prop := map_Forall (fun _ l => list_ok l) (sessionsByProjectId state).

Lemma sort_ok l : NoDup (session_ids l) -> list_ok (sortChatSessions l).
Proof.
  intros H. split; [|apply (sort_sorted bySessionUpdatedAt)]. unfold session_ids, sortChatSessions.
  by rewrite (Permutation_map _ (js_sort_perm _ l)).
Qed.

(** What a list carries of a session without its details. *)
Definition without_details (s : RegistryChatSession) : RegistryChatSession := {|
  sess_sessionId := sess_sessionId s; sess_title := sess_title s; sess_preview := sess_preview s;
  sess_updatedAt := sess_updatedAt s; sess_messageCount := sess_messageCount s; sess_unreadCount := sess_unreadCount s;
  sess_agentType := sess_agentType s; sess_createRequestId := sess_createRequestId s;
  sess_latestTurnIndex := sess_latestTurnIndex s; sess_running := sess_running s;
  sess_lastDoneTurnIndex := sess_lastDoneTurnIndex s; sess_lastDoneSuccess := sess_lastDoneSuccess s;
  sess_lastReadTurnIndex := sess_lastReadTurnIndex s; sess_configOptions := None; sess_commands := None;
  sess_usage := None; sess_sessionActions := sess_sessionActions s |}.

Definition details_kept (s e : RegistryChatSession) : Prop :=
  (sess_configOptions s = None -> sess_configOptions e = None) /\
  (sess_commands s = None -> sess_commands e = None) /\ (sess_usage s = None -> sess_usage e = None).

Record merge_inv (byId : list (string * RegistryChatSession)) (seen : list RegistryChatSession)
    (next : list (string * RegistryChatSession)) : Prop := {
  mi_keys : NoDup (dkeys next);
  mi_ids : Forall (fun e => sess_sessionId e.2 = e.1) next;
  mi_domain : forall k, k ∈ dkeys next <-> k ∈ session_ids seen;
  mi_source : Forall (fun e => exists item, item ∈ seen /\ without_details e.2 = without_details item) next;
  mi_details : forall k s e, dget next k = Some s -> dget byId k = Some e -> details_kept s e
}.

Lemma mergeIncoming_item byId next item :
  exists s, mergeIncoming byId next item = dset next (sess_sessionId item) s /\
    without_details s = without_details item /\
    match coalesce (dget next (sess_sessionId item)) (dget byId (sess_sessionId item)) with
    | Some p => details_kept s p | None => True end.
Proof.
  unfold mergeIncoming. eexists. split; [done|]. destruct (coalesce _ _) as [p|]; [|done].
  destruct (sess_configOptions item) eqn:E1, (sess_commands item) eqn:E2, (sess_usage item) eqn:E3; simpl;
    (split; [done|]); unfold details_kept; simpl; rewrite ?E1, ?E2, ?E3; simpl; naive_solver.
Qed.

Lemma Forall_dset {V} (P : string * V -> Prop) d k v : NoDup (dkeys d) -> Forall P d -> P (k, v) -> Forall P (dset d k v).
Proof.
  intros Hnd Hd Hv. rewrite Forall_forall in Hd |- *. intros [k' v'] Hin. apply dget_in in Hin; [|auto with js].
  rewrite dget_dset in Hin. case_decide; simplify_eq; [done|]. by apply Hd, dget_Some_in.
Qed.

Lemma details_kept_trans s1 s2 s3 : details_kept s1 s2 -> details_kept s2 s3 -> details_kept s1 s3.
Proof. unfold details_kept. tauto. Qed.

Lemma merge_inv_step byId seen next item :
  merge_inv byId seen next -> merge_inv byId (seen ++ [item]) (mergeIncoming byId next item).
Proof.
  intros []. destruct (mergeIncoming_item byId next item) as (s & -> & Hs & Hp).
  assert (sess_sessionId s = sess_sessionId item) as Hid by by apply (f_equal sess_sessionId) in Hs.
  constructor.
  - auto with js.
  - by apply Forall_dset.
  - intros k. rewrite dset_keys. unfold session_ids in *. rewrite map_app, elem_of_app. simpl. rewrite list_elem_of_singleton.
    case_decide as Hin.
    + rewrite mi_domain0 in Hin |- *. naive_solver.
    + rewrite elem_of_app, list_elem_of_singleton, mi_domain0. done.
  - apply Forall_dset; [done| |exists item; split; [apply elem_of_app; right; by left|done]].
    eapply Forall_impl; [exact mi_source0|]. intros e (it & H1 & H2). exists it. rewrite elem_of_app. tauto.
  - intros k s' e. rewrite dget_dset. goal_decide; [|apply mi_details0]. intros [= <-] He. rewrite He in Hp.
    destruct (dget next (sess_sessionId item)) as [p|] eqn:Ep; simpl in Hp; [|done].
    eapply details_kept_trans; [exact Hp|eauto].
Qed.

Lemma merge_inv_all byId l seen next :
  merge_inv byId seen next -> merge_inv byId (seen ++ l) (foldl (mergeIncoming byId) next l).
Proof.
  revert seen next; induction l as [|item l IH]; intros seen next H; simpl; [by rewrite app_nil_r|].
  replace (seen ++ item :: l) with ((seen ++ [item]) ++ l) by by rewrite <- app_assoc.
  by apply IH, merge_inv_step.
Qed.

(** Merging a list from the registry: the sessions shown are exactly those listed,
    once each and newest first; each has the contents it was listed with, and a listing
    that leaves out a session's options, commands or usage never loses the ones already
    known. *)
Theorem session_list_merge existing incoming :
  let l := mergeChatSessionList existing incoming in
  list_ok l /\ (forall id, id ∈ session_ids l <-> id ∈ session_ids incoming) /\
  (forall s, s ∈ l -> exists item, item ∈ incoming /\ without_details s = without_details item) /\
  (forall s e, s ∈ l -> dget (by_session_id existing) (sess_sessionId s) = Some e -> details_kept s e).
Proof.
  intros l. assert (merge_inv (by_session_id existing) incoming (foldl (mergeIncoming (by_session_id existing)) [] incoming)) as [].
  { apply (merge_inv_all _ _ [] []). constructor; try done. constructor. }
  unfold l, mergeChatSessionList. set (next := foldl _ _ _) in *. clearbody next.
  assert (session_ids (map snd next) = dkeys next) as Hids.
  { unfold session_ids, dkeys. rewrite map_map. apply map_ext_in. intros e He%list_elem_of_In.
    by apply (proj1 (Forall_forall _ _) mi_ids0). }
  assert (forall s, s ∈ sortChatSessions (map snd next) -> (sess_sessionId s, s) ∈ next) as Hmem.
  { intros s. unfold sortChatSessions. rewrite elem_of_js_sort. intros ([k s'] & -> & Hin)%elem_of_map.
    by rewrite (proj1 (Forall_forall _ _) mi_ids0 _ Hin). }
  split_and!.
  - apply sort_ok. by rewrite Hids.
  - intros id. rewrite <- mi_domain0, <- Hids. unfold session_ids, sortChatSessions.
    by rewrite (Permutation_map _ (js_sort_perm _ (map snd next))).
  - intros s Hs%Hmem. apply (proj1 (Forall_forall _ _) mi_source0 _ Hs).
  - intros s e Hs%Hmem. apply mi_details0, dget_in; done.
Qed.

Lemma find_spec {A} (p : A -> bool) l x : find p l = Some x -> x ∈ l /\ p x = true.
Proof.
  induction l as [|y l IH]; simpl; [done|]. destruct (p y) eqn:E; [intros [= ->]; split; [left|done]|].
  intros H%IH. split; [right|]; tauto.
Qed.

(** Patching a session from an event: the index stays well formed, the lists of other
    projects are untouched, and the project's list holds the other sessions as they were
    and the patched one, whose fields are the event's where it has them and the known
    ones where it does not. *)
Theorem session_patch_spec state projectId session :
  index_ok state -> projectId <> ""%string -> p_sessionId session <> ""%string ->
  let state' := mergeChatIndexSession state projectId session in
  let old := default [] (sessionsByProjectId state !! projectId) in
  let known := find (fun item => bool_decide (sess_sessionId item = p_sessionId session)) old in
  index_ok state' /\
  (forall other, other <> projectId -> sessionsByProjectId state' !! other = sessionsByProjectId state !! other) /\
  exists l, sessionsByProjectId state' !! projectId = Some l /\
    (forall s, s ∈ l <-> s = mergedSession session known \/ (s ∈ old /\ sess_sessionId s <> p_sessionId session)) /\
    idx_projects state' = idx_projects state /\ idx_refresh state' = idx_refresh state.
Proof.
  intros Hok Hp%nonempty_true Hs%nonempty_true state' old known. unfold state', mergeChatIndexSession. rewrite Hp, Hs.
  cbn [negb orb sessionsByProjectId idx_projects idx_refresh]. fold old. fold known. split_and!.
  - apply map_Forall_insert_2; [|done]. apply sort_ok. cbn [session_ids map]. constructor.
    + unfold session_ids. rewrite elem_of_map. intros (x & E & [_ Hx]%elem_of_bfilter). breflect. by apply Hx.
    + apply NoDup_map_bfilter. unfold old. destruct (sessionsByProjectId state !! projectId) as [l|] eqn:El; [|constructor].
      apply (Hok _ _ El).
  - intros other Hne. by rewrite lookup_insert_ne.
  - eexists. split; [apply lookup_insert_eq|]. split; [|done]. intros s. unfold sortChatSessions.
    rewrite elem_of_js_sort, elem_of_cons, elem_of_bfilter. breflect. done.
Qed.
End order_facts.

(** * Refreshes are coalesced, never lost *)

Inductive refresh_event :=
  | RequestAll
  | FinishAll (error : string)
  | RequestProject (projectId : string)
  | FinishProject (projectId error : string).

Definition refresh_apply (state : ChatIndexState) (e : refresh_event) : ChatIndexState :=
  match e with
  | RequestAll => requestChatIndexFullRefresh state
  | FinishAll error => finishChatIndexFullRefresh state error
  | RequestProject projectId => requestChatIndexProjectRefresh state projectId
  | FinishProject projectId error => finishChatIndexProjectRefresh state projectId error
  end.

(** The specification: how many runs of a refresh are still owed, for the whole index
    ([None]) or a project.  A request owes one more, up to the one in flight and the one
    after it; a finished run pays one. *)
Definition run_spec (scope : option string) (owed : nat) (e : refresh_event) : nat :=
  match e, scope with
  | RequestAll, None => Nat.min 2 (S owed)
  | FinishAll _, None => Nat.pred owed
  | RequestProject q, Some p => if decide (q = p) then Nat.min 2 (S owed) else owed
  | FinishProject q _, Some p => if decide (q = p) then Nat.pred owed else owed
  | _, _ => owed
  end.

Definition in_flight (state : ChatIndexState) (scope : option string) : bool :=
  match scope with
  | None => fullRefreshInFlight (idx_refresh state)
  | Some p => flag (projectRefreshInFlight (idx_refresh state)) p
  end.
Definition dirty (state : ChatIndexState) (scope : option string) : bool :=
  match scope with
  | None => fullRefreshDirty (idx_refresh state)
  | Some p => flag (projectRefreshDirty (idx_refresh state)) p
  end.

Definition owes (state : ChatIndexState) (scope : option string) (n : nat) : Prop :=
  (n <= 2)%nat /\ in_flight state scope = Nat.leb 1 n /\ dirty state scope = Nat.leb 2 n.

Lemma flag_insert flags p q b : flag (<[p := b]> flags) q = if decide (p = q) then b else flag flags q.
Proof. unfold flag. destruct (decide (p = q)) as [->|]; [by rewrite lookup_insert_eq|by rewrite lookup_insert_ne]. Qed.

(** What an event does to the two flags of a scope. *)
Definition flags_spec (scope : option string) (f : bool * bool) (e : refresh_event) : bool * bool :=
  match e, scope with
  | RequestAll, None => (true, f.1)
  | FinishAll _, None => (f.2, false)
  | RequestProject q, Some p => if decide (q = p) then (true, f.1) else f
  | FinishProject q _, Some p => if decide (q = p) then (f.2, false) else f
  | _, _ => f
  end.

Lemma flags_step scope state e :
  scope <> Some ""%string ->
  (in_flight (refresh_apply state e) scope, dirty (refresh_apply state e) scope) =
  flags_spec scope (in_flight state scope, dirty state scope) e.
Proof.
  intros Hne. unfold in_flight, dirty. destruct e as [|err|q|q err]; simpl.
  - unfold requestChatIndexFullRefresh. destruct (fullRefreshInFlight _) eqn:E, scope; simpl; by rewrite ?E.
  - by destruct scope.
  - unfold requestChatIndexProjectRefresh. destruct (nonempty q) eqn:Eq; simpl.
    + destruct (flag _ q) eqn:E, scope as [p|]; simpl; rewrite ?flag_insert; try done;
        destruct (decide (q = p)) as [->|]; by rewrite ?E.
    + breflect. subst q. destruct scope as [p|]; [|done]. rewrite decide_False by congruence. done.
  - unfold finishChatIndexProjectRefresh. destruct (nonempty q) eqn:Eq; simpl.
    + destruct scope as [p|]; simpl; rewrite ?flag_insert; [|done]. by destruct (decide (q = p)) as [->|].
    + breflect. subst q. destruct scope as [p|]; [|done]. rewrite decide_False by congruence. done.
Qed.

Lemma refresh_step scope state n e :
  scope <> Some ""%string -> owes state scope n -> owes (refresh_apply state e) scope (run_spec scope n e).
Proof.
  intros Hne (Hn & Hf & Hd). pose proof (flags_step scope state e Hne) as E. unfold owes.
  rewrite Hf, Hd in E. destruct n as [|[|[|n]]]; [..|lia];
    destruct e as [|err|q|q err], scope as [p|]; simpl in *; try case_decide; apply pair_equal_spec in E as [E1 E2]; rewrite ?E1, ?E2; split_and!; (lia || done).
Qed.

(** A new index owes nothing. *)
Lemma fresh_owes scope : owes createChatIndexState scope 0.
Proof. destruct scope; split_and!; done || lia. Qed.

(** An event of the refreshes leaves the index itself alone. *)
Lemma refresh_frame state e :
  idx_projects (refresh_apply state e) = idx_projects state /\
  sessionsByProjectId (refresh_apply state e) = sessionsByProjectId state /\ idx_selected (refresh_apply state e) = idx_selected state.
Proof.
  destruct e; simpl; unfold requestChatIndexFullRefresh, requestChatIndexProjectRefresh, finishChatIndexProjectRefresh;
    by repeat case_match.
Qed.

(** C28. No refresh request is lost and no two refreshes of the same scope overlap.  From
    any index, whatever projects and sessions it has and whatever is selected, whose flags
    of a scope say that [n] runs are owed (none in a new index: [fresh_owes]), after any
    sequence of requests and completions the scope's two flags say exactly how many runs
    the specification still owes, so a request that comes while a refresh runs makes it run
    once more, however many such requests come; scopes do not interfere; and projects,
    sessions and selection are those of the index before. *)
Theorem refresh_coalesces scope events state n :
  scope <> Some ""%string -> owes state scope n ->
  let after := foldl refresh_apply state events in
  owes after scope (foldl (run_spec scope) n events) /\
  idx_projects after = idx_projects state /\ sessionsByProjectId after = sessionsByProjectId state /\
  idx_selected after = idx_selected state.
Proof.
  intros Hne. revert state n. induction events as [|e l IH]; intros state n H; [done|]. cbn [foldl].
  destruct (IH (refresh_apply state e) (run_spec scope n e)) as (H1 & H2 & H3 & H4); [by apply refresh_step|].
  destruct (refresh_frame state e) as (E1 & E2 & E3). split; [exact H1|]. split_and!; congruence.
Qed.

Definition sample_refresh : list refresh_event :=
  [RequestProject "p"; RequestAll; RequestProject "p"; RequestProject "p"; FinishProject "p" ""]%string.
Definition sample_index : ChatIndexState := {|
  idx_projects := []; sessionsByProjectId := <["p"%string := []]> ∅; idx_selected := Some {| key_projectId := "p"; key_sessionId := "s" |};
  idx_refresh := idx_refresh createChatIndexState |}.

Lemma refresh_coalesces_witness :
  owes (foldl refresh_apply sample_index sample_refresh) (Some "p"%string) 1 /\
  sessionsByProjectId (foldl refresh_apply sample_index sample_refresh) = <["p"%string := []]> ∅ /\
  idx_selected (foldl refresh_apply sample_index sample_refresh) = Some {| key_projectId := "p"; key_sessionId := "s" |}.
Proof.
  split_and!; apply (refresh_coalesces (Some "p"%string) sample_refresh sample_index 0); (done || split_and!; done || lia).
Defined.

Definition sample_patch : SessionPatch := {|
  p_sessionId := "s"; p_title := Some "t"%string; p_preview := None; p_updatedAt := None; p_messageCount := None;
  p_unreadCount := None; p_agentType := None; p_latestTurnIndex := None; p_running := None; p_lastDoneTurnIndex := None;
  p_lastDoneSuccess := None; p_lastReadTurnIndex := None; p_configOptions := None; p_commands := None; p_usage := None |}.

Lemma session_patch_spec_witness :
  @index_ok code_collation (@mergeChatIndexSession code_collation createChatIndexState "p" sample_patch).
Proof. apply (@session_patch_spec code_collation createChatIndexState "p" sample_patch); [apply map_Forall_empty|done|done]. Defined.
