(* ===== verification/CacheEviction.v ===== *)
(** The budget of the persisted caches of [workspace/WorkspacePersistence.ts]:
    [selectCacheEvictionKeys] picks what goes, expired entries first and then the
    oldest, until the number of entries and their size fit. *)

From S2P Require Import Prelude Collation.
Open Scope Z_scope.

(** * Budgets *)

Record CacheBudgetEntry := { be_key : string; be_updatedAt : Z; be_approximateBytes : Z }.
Record CacheBudgetLimits := { lim_now : Z; lim_maxAgeMs : Z; lim_maxEntries : Z; lim_maxBytes : Z }.

Definition CACHE_MAX_AGE_MS : Z := 30 * 24 * 60 * 60 * 1000.

(** The [for] loop over the survivors, oldest first. *)
Fixpoint evictOldest (oldestFirst : list CacheBudgetEntry) (limits : CacheBudgetLimits) (remainingCount bytes : Z)
    : list string :=
  match oldestFirst with
  | [] => []
  | item :: rest =>
      if (remainingCount <=? lim_maxEntries limits) && (bytes <=? lim_maxBytes limits) then []
      else be_key item :: evictOldest rest limits (remainingCount - 1) (bytes - be_approximateBytes item)
  end.

Definition total_bytes (l : list CacheBudgetEntry) : Z := foldl (fun sum item => sum + be_approximateBytes item) 0 l.

Section eviction.
Context `{!Collation}.

Definition older (left right : CacheBudgetEntry) : Z :=
  let delta := be_updatedAt left - be_updatedAt right in
  if negb (delta =? 0) then delta else localeCompare (be_key left) (be_key right).

Definition selectCacheEvictionKeys (entries : list CacheBudgetEntry) (limits : CacheBudgetLimits) : list string :=
  let expiredKeys := unique (map be_key
    (bfilter (fun item => lim_maxAgeMs limits <? lim_now limits - be_updatedAt item) entries)) in
  let survivors := bfilter (fun item => negb (bool_decide (be_key item ∈ expiredKeys))) entries in
  expiredKeys ++ evictOldest (js_sort older survivors) limits (Z.of_nat (length survivors)) (total_bytes survivors).
End eviction.


(** * Properties *)

Lemma total_acc l a : foldl (fun sum item => sum + be_approximateBytes item) a l = a + total_bytes l.
Proof.
  unfold total_bytes. revert a; induction l as [|x l IH]; intros a; cbn [foldl]; [lia|]. rewrite IH, (IH (0 + _)). lia.
Qed.

Lemma total_cons x l : total_bytes (x :: l) = be_approximateBytes x + total_bytes l.
Proof. unfold total_bytes at 1. cbn [foldl]. rewrite total_acc. lia. Qed.

#[export] Instance total_perm : Proper (Permutation ==> eq) total_bytes.
Proof. intros l l' H. induction H; rewrite ?total_cons; lia. Qed.

Definition nonneg_bytes (l : list CacheBudgetEntry) : Prop := Forall (fun e => 0 <= be_approximateBytes e) l.

Lemma total_nonneg l : nonneg_bytes l -> 0 <= total_bytes l.
Proof. induction 1 as [|x l Hx _ IH]; [done|]. rewrite total_cons. lia. Qed.

Lemma total_bfilter (p : CacheBudgetEntry -> bool) l : nonneg_bytes l -> total_bytes (bfilter p l) <= total_bytes l.
Proof.
  induction 1 as [|x l Hx _ IH]; [done|]. cbn [List.filter]. destruct (p x); rewrite ?total_cons; lia.
Qed.

(** Within the limits on the number of entries and on their size. *)
Definition fits (limits : CacheBudgetLimits) (l : list CacheBudgetEntry) : Prop :=
  Z.of_nat (length l) <= lim_maxEntries limits /\ total_bytes l <= lim_maxBytes limits.

Definition fresh (limits : CacheBudgetLimits) (e : CacheBudgetEntry) : bool :=
  negb (lim_maxAgeMs limits <? lim_now limits - be_updatedAt e).

#[export] Instance fits_perm limits : Proper (Permutation ==> iff) (fits limits).
Proof. intros l l' H. unfold fits. by rewrite H. Qed.

(** The loop drops the shortest prefix after which the rest fits. *)
Lemma evictOldest_split limits l : 0 <= lim_maxEntries limits -> 0 <= lim_maxBytes limits ->
  exists dropped kept, l = dropped ++ kept /\
  evictOldest l limits (Z.of_nat (length l)) (total_bytes l) = map be_key dropped /\ fits limits kept /\
  forall d1 x d2, dropped = d1 ++ x :: d2 -> ~ fits limits (x :: d2 ++ kept).
Proof.
  intros H1 H2. induction l as [|x l (dropped & kept & -> & He & Hk & Hd)].
  - exists [], []. split_and!; [done..|]. intros [|] ???; simplify_eq.
  - cbn [evictOldest]. case_match eqn:E.
    + exists [], (x :: dropped ++ kept). apply andb_true_iff in E as [E1%Z.leb_le E2%Z.leb_le].
      split; [done|]. split; [done|]. split; [done|]. intros [|] ???; simplify_eq.
    + exists (x :: dropped), kept. split; [done|]. split; [|split; [done|]].
      * cbn [map]. f_equal. rewrite <- He. f_equal; [cbn [length]; lia|rewrite total_cons; lia].
      * intros [|y d1] z d2 Heq; simplify_eq/=; [|by eapply Hd].
        intros [F1 F2]. apply andb_false_iff in E as [E%Z.leb_gt|E%Z.leb_gt]; [|lia].
        cbn [length] in *. lia.
Qed.

Section eviction_spec.
Context `{!Collation}.

#[export] Instance older_comparator : Comparator older.
Proof.
  apply (comparator_ext (lex (fun a b => be_updatedAt a - be_updatedAt b)
    (fun a b => localeCompare (be_key a) (be_key b)))).
  - intros x y. unfold lex, older. by destruct (be_updatedAt x - be_updatedAt y =? 0).
  - apply lex_comparator; [|apply by_comparator, _]. constructor; intros; [|lia].
    replace (be_updatedAt y - be_updatedAt x) with (- (be_updatedAt x - be_updatedAt y)) by lia. by rewrite Z.sgn_opp.
Qed.

Lemma older_updatedAt x y : older x y <= 0 -> be_updatedAt x <= be_updatedAt y.
Proof. unfold older. case_match eqn:E; [lia|]. apply negb_false_iff, Z.eqb_eq in E. lia. Qed.

(** What is picked: the expired entries, and a prefix of the others in order of age. *)
Lemma selected entries limits : NoDup (map be_key entries) -> 0 <= lim_maxEntries limits -> 0 <= lim_maxBytes limits ->
  exists expired dropped kept,
    expired ++ dropped ++ kept ≡ₚ entries /\ selectCacheEvictionKeys entries limits = map be_key (expired ++ dropped) /\
    expired = bfilter (fun e => negb (fresh limits e)) entries /\ dropped ++ kept ≡ₚ bfilter (fresh limits) entries /\
    StronglySorted (fun x y => older x y <= 0) (dropped ++ kept) /\ fits limits kept /\
    forall d1 x d2, dropped = d1 ++ x :: d2 -> ~ fits limits (x :: d2 ++ kept).
Proof.
  intros Hnd H1 H2. unfold selectCacheEvictionKeys.
  set (expired := bfilter (fun item => lim_maxAgeMs limits <? lim_now limits - be_updatedAt item) entries).
  assert (unique (map be_key expired) = map be_key expired) as -> by (apply unique_id; by apply NoDup_map_bfilter).
  assert (bfilter (fun item => negb (bool_decide (be_key item ∈ map be_key expired))) entries =
          bfilter (fresh limits) entries) as ->.
  { apply List.filter_ext_in. intros e He%list_elem_of_In. unfold fresh. f_equal.
    apply eq_iff_eq_true. rewrite bool_decide_eq_true, elem_of_map. split.
    - intros (f & Hk & [Hf Hx]%elem_of_bfilter). by rewrite (NoDup_map_inj be_key entries e f).
    - intros Hx. exists e. split; [done|]. by apply elem_of_bfilter. }
  set (survivors := bfilter (fresh limits) entries).
  destruct (evictOldest_split limits (js_sort older survivors) H1 H2) as (dropped & kept & Hs & He & Hk & Hd).
  assert (dropped ++ kept ≡ₚ survivors) as Hp by (rewrite <- Hs; apply js_sort_perm).
  exists expired, dropped, kept.
  split; [|split; [|split; [|split; [|split; [|done]]]]].
  - rewrite Hp. unfold expired, survivors, fresh. clear. induction entries as [|x l IH]; [done|]. cbn [List.filter].
    destruct (lim_maxAgeMs limits <? lim_now limits - be_updatedAt x); cbn [negb app]; [by rewrite IH|].
    by rewrite <- Permutation_middle, IH.
  - rewrite map_app, <- He, length_js_sort.
    by assert (total_bytes (js_sort older survivors) = total_bytes survivors) as -> by (by rewrite js_sort_perm).
  - unfold expired, fresh. apply List.filter_ext. intros e. by rewrite negb_involutive.
  - done.
  - rewrite <- Hs. apply sort_sorted, _.
Qed.
End eviction_spec.

Section eviction_properties.
Context `{C : Collation}.

Lemma fits_app limits l1 l2 : nonneg_bytes l1 -> fits limits (l1 ++ l2) -> fits limits l2.
Proof.
  induction 1 as [|x l Hx _ IH]; [done|]. intros [H1 H2]. apply IH. cbn [app] in *. rewrite total_cons in H2.
  cbn [length] in H1. split; lia.
Qed.

Lemma sorted_tail {A} (R : A -> A -> Prop) l1 l2 : StronglySorted R (l1 ++ l2) -> StronglySorted R l2.
Proof. induction l1 as [|x l1 IH]; [done|]. intros [H _]%StronglySorted_inv. by apply IH. Qed.

Lemma kept_entries entries expired dropped kept : NoDup (map be_key entries) -> expired ++ dropped ++ kept ≡ₚ entries ->
  bfilter (fun e => negb (bool_decide (be_key e ∈ map be_key (expired ++ dropped)))) entries ≡ₚ kept.
Proof.
  intros Hnd Hp. rewrite <- Hp. assert (NoDup (map be_key ((expired ++ dropped) ++ kept))) as Hnd' by (rewrite <- app_assoc; by rewrite Hp).
  rewrite map_app in Hnd'. apply NoDup_app in Hnd' as (_ & Hdis & _).
  rewrite app_assoc, bfilter_app, bfilter_none, bfilter_all; [done|..]; apply Forall_forall; intros e He.
  - apply negb_true_iff, bool_decide_eq_false. intros Hk. apply (Hdis _ Hk), elem_of_map. eauto.
  - apply negb_false_iff, bool_decide_eq_true. apply elem_of_map. eauto.
Qed.

Definition kept_by (limits : CacheBudgetLimits) (entries : list CacheBudgetEntry) : list CacheBudgetEntry :=
  bfilter (fun e => negb (bool_decide (be_key e ∈ selectCacheEvictionKeys entries limits))) entries.

Lemma kept_fits entries limits : NoDup (map be_key entries) -> 0 <= lim_maxEntries limits -> 0 <= lim_maxBytes limits ->
  fits limits (kept_by limits entries).
Proof.
  intros Hnd H1 H2. destruct (selected entries limits Hnd H1 H2) as (expired & dropped & kept & Hp & Hsel & _ & _ & _ & Hk & _).
  unfold kept_by. rewrite Hsel. by rewrite kept_entries.
Qed.

(** The cache budget: of entries with distinct keys, what is kept is within the limits
    and not expired; the keys evicted are keys of entries, each once; an entry evicted
    for room is no newer than any that is kept; and none goes without need: the unexpired
    entries that are not older than it exceed a limit. *)
Theorem eviction_spec entries limits :
  NoDup (map be_key entries) -> nonneg_bytes entries -> 0 <= lim_maxEntries limits -> 0 <= lim_maxBytes limits ->
  let evicted := selectCacheEvictionKeys entries limits in
  let kept := kept_by limits entries in
  NoDup evicted /\ (forall k, k ∈ evicted -> k ∈ map be_key entries) /\
  Z.of_nat (length kept) <= lim_maxEntries limits /\ total_bytes kept <= lim_maxBytes limits /\
  (forall e, e ∈ kept -> fresh limits e = true) /\
  (forall e, e ∈ entries -> be_key e ∈ evicted -> fresh limits e = true ->
     (forall f, f ∈ kept -> be_updatedAt e <= be_updatedAt f) /\
     ~ fits limits (bfilter (fun f => fresh limits f && (older e f <=? 0)) entries)).
Proof.
  intros Hnd Hb H1 H2. pose proof (kept_fits entries limits Hnd H1 H2) as [Hf1 Hf2].
  destruct (selected entries limits Hnd H1 H2) as (expired & dropped & kept & Hp & Hsel & Hex & Hfr & Hsort & _ & Hmin).
  pose proof (kept_entries entries expired dropped kept Hnd Hp) as Hkept. rewrite <- Hsel in Hkept.
  change (kept_by limits entries ≡ₚ kept) in Hkept. cbn zeta.
  assert (forall e, e ∈ dropped ++ kept -> fresh limits e = true) as Hfresh.
  { intros e He. rewrite Hfr in He. apply (proj1 (elem_of_bfilter _ _ _) He). }
  split; [|split; [|split; [done|split; [done|split]]]].
  - rewrite Hsel. assert (NoDup (map be_key ((expired ++ dropped) ++ kept))) as H by (rewrite <- app_assoc; by rewrite Hp).
    rewrite map_app in H. apply (proj1 (NoDup_app _ _) H).
  - intros k Hk. rewrite Hsel in Hk. rewrite <- Hp, app_assoc, map_app. by apply elem_of_app; left.
  - intros e He. rewrite Hkept in He. apply Hfresh, elem_of_app. by right.
  - intros e He Hk Hfe. rewrite Hsel in Hk. apply elem_of_map in Hk as (g & Hkg & Hg).
    assert (g = e) as ->.
    { apply (NoDup_map_inj be_key entries); [done| |done..]. rewrite <- Hp, app_assoc. apply elem_of_app. by left. }
    apply elem_of_app in Hg as [Hg|Hg].
    { rewrite Hex in Hg. apply elem_of_bfilter in Hg as [_ Hg]. by rewrite Hfe in Hg. }
    apply list_elem_of_split in Hg as (d1 & d2 & ->). rewrite <- app_assoc in Hsort, Hfr.
    cbn [app] in Hsort, Hfr. apply sorted_tail in Hsort.
    apply StronglySorted_inv in Hsort as [_ Hle]. split.
    + intros f Hf. rewrite Hkept in Hf. apply older_updatedAt. rewrite Forall_forall in Hle. apply Hle, elem_of_app. by right.
    + intros F. apply (Hmin d1 e d2 eq_refl). rewrite bfilter_and, <- Hfr, bfilter_app in F.
      apply fits_app in F.
      2: { apply Forall_forall. intros x [Hx _]%elem_of_bfilter. apply (proj1 (Forall_forall _ _) Hb).
           rewrite <- Hp, !elem_of_app. auto. }
      cbn [List.filter] in F.
      rewrite (bfilter_all _ (d2 ++ kept)) in F by (eapply Forall_impl; [exact Hle|]; intros f; by apply Z.leb_le).
      by rewrite cmp_refl in F by apply _.
Qed.
End eviction_properties.

Definition sample_entry (k : string) (at_ bytes : Z) : CacheBudgetEntry :=
  {| be_key := k; be_updatedAt := at_; be_approximateBytes := bytes |}.
Definition sample_entries : list CacheBudgetEntry :=
  [sample_entry "a" 90 10; sample_entry "b" 70 10; sample_entry "c" 5 10; sample_entry "d" 80 25].
Definition sample_limits : CacheBudgetLimits := {| lim_now := 100; lim_maxAgeMs := 50; lim_maxEntries := 2; lim_maxBytes := 30 |}.

Example sample_evicted : selectCacheEvictionKeys (H:=code_collation) sample_entries sample_limits = ["c"; "b"; "d"]%string.
Proof. reflexivity. Qed.

Lemma eviction_spec_witness :
  total_bytes (kept_by (C:=code_collation) sample_limits sample_entries) <= lim_maxBytes sample_limits.
Proof.
  apply (eviction_spec (C:=code_collation) sample_entries sample_limits); try done;
    [apply (bool_decide_unpack _)|apply (bool_decide_unpack _)]; vm_compute; exact I.
Defined.
