(* ===== verification/ChatCacheTurns.v ===== *)
(** The turns of a cached session and the cursor that counts them, in
    [workspace/WorkspacePersistence.ts]: what is accepted of persisted turns, and the
    reconciliation that leaves a session with a prefix of finished turns as long as its
    cursor. *)

From S2P Require Import Prelude Json RegistryTypes JsonRoundTrip.
Open Scope Z_scope.

(** * Turns and cursors *)

(** A cursor is its [turnIndex]. *)
Definition defaultChatCursor : Z := 0.

(** [input.turnIndex] when it is a number. *)
Definition cursor_number (input : value) : option num :=
  match prop (properties input) "turnIndex" with VNum n => Some n | _ => None end.

Definition sanitizeChatCursor (turnIndex : option num) : Z :=
  match turnIndex with Some (Fin q) => Z.max 0 (floor q) | _ => defaultChatCursor end.

Definition cursor_value (n : Z) : value := VObj [("turnIndex"%string, VNum (of_Z n))].
Definition turn_value (t : RegistrySessionTurn) : value :=
  VObj [("turnIndex", VNum (of_Z (turn_turnIndex t))); ("content", VStr (turn_content t));
        ("finished", VBool (turn_finished t))]%string.
Definition turns_value (ts : list RegistrySessionTurn) : value := VArr (map turn_value ts).

Definition sanitizeTurn (raw : value) : option RegistrySessionTurn :=
  match raw with
  | VObj item =>
      let turnIndex := match prop item "turnIndex" with VNum (Fin q) => trunc q | _ => 0 end in
      match prop item "content" with
      | VStr content =>
          if (turnIndex <=? 0) || negb (nonempty content) then None
          else Some {| turn_turnIndex := turnIndex; turn_content := content;
                       turn_finished := match prop item "finished" with VBool true => true | _ => false end |}
      | _ => None
      end
  | _ => None
  end.

Definition sanitizePersistedTurns (input : value) : list RegistrySessionTurn :=
  match input with
  | VArr items =>
      js_sort (by_key turn_turnIndex)
        (map snd (foldl (fun byIndex t => dset byIndex (turn_turnIndex t) t) (@nil (Z * RegistrySessionTurn)) (omap sanitizeTurn items)))
  | _ => []
  end.

(** [while (finished.has(turnIndex + 1)) turnIndex += 1]: each step is another finished
    turn, so their number is enough fuel. *)
Fixpoint finishedFrom (fuel : nat) (finished : list Z) (turnIndex : Z) : Z :=
  match fuel with
  | O => turnIndex
  | S f => if bool_decide (turnIndex + 1 ∈ finished) then finishedFrom f finished (turnIndex + 1) else turnIndex
  end.

Definition persistedFinishedPrefixTurnIndex (turns : list RegistrySessionTurn) : Z :=
  let finished := map turn_turnIndex (bfilter (fun t => turn_finished t && (0 <? turn_turnIndex t)) turns) in
  finishedFrom (length finished) finished 0.

(** The [for] loop from [turnIndex], [n] indexes left. *)
Fixpoint prefixFrom (n : nat) (byIndex : list (Z * RegistrySessionTurn)) (turnIndex : Z) : list RegistrySessionTurn :=
  match n with
  | O => []
  | S n' => match dget byIndex turnIndex with
            | Some turn => turn :: prefixFrom n' byIndex (turnIndex + 1)
            | None => []
            end
  end.

Definition persistedTurnPrefix (turns : list RegistrySessionTurn) (cursor : Z) : list RegistrySessionTurn :=
  let byIndex := foldl (fun m t => if turn_finished t then dset m (turn_turnIndex t) t else m)
    (@nil (Z * RegistrySessionTurn)) (sanitizePersistedTurns (turns_value turns)) in
  prefixFrom (Z.to_nat cursor) byIndex 1.

Definition sessionLatestTurnIndex (session : value) : option Z :=
  match prop (properties session) "latestTurnIndex" with VNum (Fin q) => Some (Z.max 0 (trunc q)) | _ => None end.

Definition samePersistedTurns (left right : list RegistrySessionTurn) : bool :=
  Nat.eqb (length left) (length right) &&
  forallb (fun '(a, b) => (turn_turnIndex a =? turn_turnIndex b) && bool_decide (turn_content a = turn_content b)
                          && Bool.eqb (turn_finished a) (turn_finished b)) (zip left right).

Record ReconciledCache := { rec_cursor : Z; rec_turns : list RegistrySessionTurn; rec_stale : bool }.

Definition reconcilePersistedChatSessionCache (session : value) (cursor : option num) (turns : list RegistrySessionTurn)
    : ReconciledCache :=
  let safeCursor := sanitizeChatCursor cursor in
  let sanitizedTurns := sanitizePersistedTurns (turns_value turns) in
  let stale := match sessionLatestTurnIndex session with Some latest => latest <? safeCursor | None => false end in
  if stale then {| rec_cursor := defaultChatCursor; rec_turns := []; rec_stale := true |} else
  let actualPrefix := persistedFinishedPrefixTurnIndex sanitizedTurns in
  let repairedCursor := Z.min safeCursor actualPrefix in
  {| rec_cursor := repairedCursor; rec_turns := persistedTurnPrefix sanitizedTurns repairedCursor; rec_stale := false |}.

(** * Properties *)

(** Turns as they are kept: in order of their indexes, which are positive and distinct,
    each with a content. *)
Definition turn_ok (t : RegistrySessionTurn) : bool := (0 <? turn_turnIndex t) && nonempty (turn_content t).
Definition turns_ok (ts : list RegistrySessionTurn) : Prop :=
  Forall (fun t => turn_ok t = true) ts /\ StronglySorted (fun a b => turn_turnIndex a < turn_turnIndex b) ts.

Lemma sanitizeTurn_value t : sanitizeTurn (turn_value t) = if turn_ok t then Some t else None.
Proof.
  destruct t as [i c f]. unfold sanitizeTurn, turn_value, turn_ok. cbn. unfold trunc. cbn [Qnum Qden inject_Z].
  rewrite Z.quot_1_r. destruct (0 <? i) eqn:E1, (i <=? 0) eqn:E2; try lia; destruct (nonempty c); try done. by destruct f.
Qed.

Lemma sanitizeTurn_ok raw t : sanitizeTurn raw = Some t -> turn_ok t = true.
Proof.
  unfold sanitizeTurn, turn_ok. destruct raw as [| | | | | |item]; try done. cbv zeta.
  destruct (prop item "content"); try done. destruct (_ || _) eqn:E; [done|]. intros [= <-].
  apply orb_false_iff in E as [E1 E2%negb_false_iff]. cbn [turn_turnIndex turn_content]. rewrite E2. lia.
Qed.

(** The map by index the source collects turns in. *)
Definition indexed (d : list (Z * RegistrySessionTurn)) : Prop :=
  NoDup (dkeys d) /\ Forall (fun e => e.1 = turn_turnIndex e.2 /\ turn_ok e.2 = true) d.

Lemma collect_indexed l d : Forall (fun t => turn_ok t = true) l -> indexed d ->
  indexed (foldl (fun byIndex t => dset byIndex (turn_turnIndex t) t) d l).
Proof.
  intros Hl. revert d. induction Hl as [|t l Ht _ IH]; intros d [Hn Hd]; [done|]. cbn [foldl]. apply IH.
  split; [by apply dset_NoDup|by apply dset_Forall].
Qed.

Lemma sorted_indexed d : indexed d -> turns_ok (js_sort (by_key turn_turnIndex) (map snd d)).
Proof.
  intros [Hn Hd]. assert (map turn_turnIndex (map snd d) = dkeys d) as Hk.
  { clear Hn. unfold dkeys. induction Hd as [|[k t] d [Hk _] _ IH]; [done|]. cbn [map fst snd] in *. by rewrite IH, Hk. }
  split.
  - rewrite js_sort_perm. clear Hn Hk. induction Hd as [|[k t] d [_ Ht] _ IH]; by constructor.
  - apply sorted_strict; [apply by_key_sorted|]. by rewrite js_sort_perm, Hk.
Qed.

Lemma sanitize_ok input : turns_ok (sanitizePersistedTurns input).
Proof.
  unfold sanitizePersistedTurns. destruct input; try (split; constructor).
  apply sorted_indexed, collect_indexed; [|split; constructor].
  apply Forall_forall. intros t (raw & _ & Ht)%list_elem_of_omap. by eapply sanitizeTurn_ok.
Qed.

Lemma sorted_NoDup ts : StronglySorted (fun a b => turn_turnIndex a < turn_turnIndex b) ts -> NoDup (map turn_turnIndex ts).
Proof.
  induction 1 as [|t ts _ IH Ht]; constructor; [|done]. intros (x & Hx & Hin)%elem_of_map.
  rewrite Forall_forall in Ht. specialize (Ht x Hin). lia.
Qed.

Lemma sanitize_id ts : turns_ok ts -> sanitizePersistedTurns (turns_value ts) = ts.
Proof.
  intros [Hok Hs]. unfold sanitizePersistedTurns, turns_value.
  assert (omap sanitizeTurn (map turn_value ts) = ts) as ->.
  { clear Hs. induction Hok as [|t ts Ht _ IH]; [done|]. cbn [map omap list_omap]. by rewrite sanitizeTurn_value, Ht, IH. }
  pose proof (sorted_NoDup ts Hs) as Hnd.
  assert (forall l (d : list (Z * RegistrySessionTurn)), foldl (fun byIndex t => dset byIndex (turn_turnIndex t) t) d l =
    foldl (fun d e => dset d e.1 e.2) d (map (fun t => (turn_turnIndex t, t)) l)) as Hfold.
  { induction l as [|t l IH]; intros d; [done|]. apply IH. }
  rewrite Hfold. change (js_sort (by_key turn_turnIndex) (map snd (dict_of (map (fun t => (turn_turnIndex t, t)) ts))) = ts).
  rewrite dict_of_id by (by rewrite map_map). rewrite map_map, map_id. apply by_key_id.
  clear Hnd Hok Hfold. induction Hs as [|t ts _ IH Ht]; constructor; [done|]. eapply Forall_impl; [exact Ht|]. cbn. lia.
Qed.

(** Finished turns [i], [i + 1], ... without a gap. *)
Fixpoint contiguous (i : Z) (ts : list RegistrySessionTurn) : bool :=
  match ts with
  | [] => true
  | t :: ts' => (turn_turnIndex t =? i) && turn_finished t && turn_ok t && contiguous (i + 1) ts'
  end.

Lemma contiguous_turns i ts : contiguous i ts = true ->
  turns_ok ts /\ Forall (fun t => turn_finished t = true /\ i <= turn_turnIndex t < i + Z.of_nat (length ts)) ts.
Proof.
  revert i; induction ts as [|t ts IH]; intros i; [split; [split|]; constructor|]. cbn [contiguous length].
  intros [[[Hi%Z.eqb_eq Hf]%andb_true_iff Hok]%andb_true_iff Hc]%andb_true_iff.
  destruct (IH _ Hc) as [[H1 H2] H3]. split; [split|]; constructor; [done..| | |].
  - eapply Forall_impl; [exact H3|]. cbn. lia.
  - split; [done|lia].
  - eapply Forall_impl; [exact H3|]. cbn. intros x [??]. split; [done|lia].
Qed.

Lemma contiguous_ok i ts : contiguous i ts = true -> turns_ok ts.
Proof. intros H. apply (contiguous_turns i ts H). Qed.

Definition finished_map (ts : list RegistrySessionTurn) : list (Z * RegistrySessionTurn) :=
  foldl (fun m t => if turn_finished t then dset m (turn_turnIndex t) t else m) [] ts.

Lemma dget_finished ts d i : NoDup (map turn_turnIndex ts) ->
  dget (foldl (fun m t => if turn_finished t then dset m (turn_turnIndex t) t else m) d ts) i =
  match find (fun t => turn_finished t && (turn_turnIndex t =? i)) ts with Some t => Some t | None => dget d i end.
Proof.
  revert d; induction ts as [|t ts IH]; intros d; [done|]. cbn [map foldl find]. intros [Ht Hn]%NoDup_cons. rewrite IH by done.
  destruct (turn_finished t) eqn:Hf; cbn [andb]; [|done]. destruct (turn_turnIndex t =? i) eqn:E.
  - apply Z.eqb_eq in E. subst i. rewrite (proj2 (find_None _ _)), dget_dset_eq; [done|].
    apply Forall_forall. intros x Hx. apply andb_false_iff. right. apply Z.eqb_neq. intros E. apply Ht.
    apply elem_of_map. eauto.
  - apply Z.eqb_neq in E. by rewrite dget_dset_ne.
Qed.

Lemma dget_finished_map ts i t : turns_ok ts -> dget (finished_map ts) i = Some t ->
  t ∈ ts /\ turn_finished t = true /\ turn_turnIndex t = i /\ turn_ok t = true.
Proof.
  intros [Hok Hs]. unfold finished_map. rewrite dget_finished by (by apply sorted_NoDup). cbn [dget].
  case_match eqn:E; [|done]. intros [= ->]. apply find_Some in E as [Hin [Hf Hi%Z.eqb_eq]%andb_true_iff].
  rewrite Forall_forall in Hok. auto.
Qed.

Lemma dget_finished_map_Some ts t : turns_ok ts -> t ∈ ts -> turn_finished t = true ->
  dget (finished_map ts) (turn_turnIndex t) = Some t.
Proof.
  intros [Hok Hs] Hin Hf. unfold finished_map. rewrite dget_finished by (by apply sorted_NoDup).
  case_match eqn:E.
  - apply find_Some in E as [Hin' [_ Hi%Z.eqb_eq]%andb_true_iff]. f_equal.
    apply (NoDup_map_inj turn_turnIndex ts); [by apply sorted_NoDup|done..].
  - apply (proj1 (find_None _ _)) in E. rewrite Forall_forall in E. specialize (E t Hin). cbn in E. rewrite Hf, Z.eqb_refl in E. done.
Qed.

Lemma prefixFrom_contiguous n ts i : turns_ok ts -> contiguous i (prefixFrom n (finished_map ts) i) = true.
Proof.
  intros Hok. revert i; induction n as [|n IH]; intros i; [done|]. cbn [prefixFrom].
  destruct (dget (finished_map ts) i) as [t|] eqn:E; [|done].
  apply (dget_finished_map ts i t Hok) in E as (_ & Hf & Hi & Ht). cbn [contiguous]. by rewrite Hf, Ht, Hi, Z.eqb_refl, IH.
Qed.

Lemma prefixFrom_length n ts i : turns_ok ts ->
  (forall j, i <= j < i + Z.of_nat n -> exists t, t ∈ ts /\ turn_finished t = true /\ turn_turnIndex t = j) ->
  length (prefixFrom n (finished_map ts) i) = n.
Proof.
  intros Hok. revert i; induction n as [|n IH]; intros i Hj; [done|]. cbn [prefixFrom].
  destruct (Hj i ltac:(lia)) as (t & Hin & Hf & <-). rewrite (dget_finished_map_Some ts t) by done.
  cbn [length]. rewrite IH; [done|]. intros j ?. apply Hj. lia.
Qed.

Lemma prefixFrom_id ts l i : turns_ok ts -> contiguous i l = true -> (forall t, t ∈ l -> t ∈ ts) ->
  prefixFrom (length l) (finished_map ts) i = l.
Proof.
  intros Hok. revert i; induction l as [|t l IH]; intros i Hc Hin; [done|]. cbn [contiguous length prefixFrom] in *.
  apply andb_true_iff in Hc as [[[Hi%Z.eqb_eq Hf]%andb_true_iff _]%andb_true_iff Hc]. subst i.
  rewrite (dget_finished_map_Some ts t) by (done || apply Hin; left). f_equal. apply IH; [done|]. intros x Hx. apply Hin. by right.
Qed.

Lemma finishedFrom_spec fuel finished i :
  i <= finishedFrom fuel finished i <= i + Z.of_nat fuel /\
  forall j, i < j <= finishedFrom fuel finished i -> j ∈ finished.
Proof.
  revert i; induction fuel as [|f IH]; intros i; cbn [finishedFrom]; [split; lia|].
  case_bool_decide as Hin; [|split; lia]. destruct (IH (i + 1)) as [H1 H2]. split; [lia|].
  intros j Hj. destruct (decide (j = i + 1)) as [->|]; [done|]. apply H2. lia.
Qed.

Lemma finishedFrom_all fuel finished i : (forall j, i < j <= i + Z.of_nat fuel -> j ∈ finished) ->
  finishedFrom fuel finished i = i + Z.of_nat fuel.
Proof.
  revert i; induction fuel as [|f IH]; intros i H; cbn [finishedFrom]; [lia|].
  rewrite bool_decide_true by (apply H; lia). rewrite IH; [lia|]. intros j ?. apply H. lia.
Qed.

Lemma finished_prefix ts : 0 <= persistedFinishedPrefixTurnIndex ts /\
  forall j, 0 < j <= persistedFinishedPrefixTurnIndex ts -> exists t, t ∈ ts /\ turn_finished t = true /\ turn_turnIndex t = j.
Proof.
  unfold persistedFinishedPrefixTurnIndex. set (fin := map _ _). destruct (finishedFrom_spec (length fin) fin 0) as [H1 H2].
  split; [lia|]. intros j Hj. specialize (H2 j Hj). unfold fin in H2. apply elem_of_map in H2 as (t & -> & Ht).
  apply elem_of_bfilter in Ht as [Hin [Hf _]%andb_true_iff]. eauto.
Qed.

Lemma finished_prefix_id ts : contiguous 1 ts = true -> persistedFinishedPrefixTurnIndex ts = Z.of_nat (length ts).
Proof.
  intros Hc. destruct (contiguous_turns 1 ts Hc) as [_ Ht]. unfold persistedFinishedPrefixTurnIndex.
  rewrite bfilter_all by (eapply Forall_impl; [exact Ht|]; cbn; intros t [-> ?]; cbn; lia).
  rewrite finishedFrom_all; rewrite length_map; [lia|]. clear Ht. intros j Hj. rewrite Z.add_0_l in Hj.
  assert (forall i l, contiguous i l = true -> i <= j < i + Z.of_nat (length l) -> j ∈ map turn_turnIndex l) as H.
  { clear. intros i l; revert i; induction l as [|t l IH]; intros i Hc Hj; cbn [length] in Hj; [lia|]. cbn [contiguous map] in *.
    apply andb_true_iff in Hc as [[[Hi%Z.eqb_eq _]%andb_true_iff _]%andb_true_iff Hc]. rewrite elem_of_cons.
    destruct (decide (j = turn_turnIndex t)); [by left|]. right. apply (IH (i + 1)); [done|lia]. }
  apply (H 1); [done|lia].
Qed.

(** [cursor] is within what the session says its latest turn is. *)
Definition within_latest (session : value) (cursor : Z) : Prop :=
  forall latest, sessionLatestTurnIndex session = Some latest -> cursor <= latest.

(** A session's cached turns: as many finished turns as its cursor, from the first on
    without a gap, and no more than the session has. *)
Definition prefix_cached (session : value) (cursor : Z) (ts : list RegistrySessionTurn) : Prop :=
  contiguous 1 ts = true /\ cursor = Z.of_nat (length ts) /\ within_latest session cursor.

Lemma latest_nonneg session latest : sessionLatestTurnIndex session = Some latest -> 0 <= latest.
Proof. unfold sessionLatestTurnIndex. intros H. cases. lia. Qed.

Lemma prefix_empty session : prefix_cached session 0 [].
Proof. split; [done|]. split; [done|]. intros latest. apply latest_nonneg. Qed.

Lemma persistedTurnPrefix_eq ts cursor : turns_ok ts -> persistedTurnPrefix ts cursor = prefixFrom (Z.to_nat cursor) (finished_map ts) 1.
Proof. intros H. unfold persistedTurnPrefix. by rewrite sanitize_id. Qed.

Lemma sanitizeChatCursor_nonneg c : 0 <= sanitizeChatCursor c.
Proof. unfold sanitizeChatCursor, defaultChatCursor. cases; lia. Qed.

Lemma sanitizeChatCursor_id n : 0 <= n -> sanitizeChatCursor (Some (of_Z n)) = n.
Proof. intros H. unfold sanitizeChatCursor, of_Z. rewrite floor_inject. lia. Qed.

Lemma persistedTurnPrefix_length ts cursor : turns_ok ts -> 0 <= cursor <= persistedFinishedPrefixTurnIndex ts ->
  Z.of_nat (length (persistedTurnPrefix ts cursor)) = cursor.
Proof.
  intros Hok Hc. rewrite persistedTurnPrefix_eq by done. rewrite prefixFrom_length; [lia|done|].
  intros j Hj. apply (finished_prefix ts). lia.
Qed.

Lemma reconcile_prefix session cursor ts :
  let r := reconcilePersistedChatSessionCache session cursor ts in prefix_cached session (rec_cursor r) (rec_turns r).
Proof.
  unfold reconcilePersistedChatSessionCache. set (safe := sanitizeChatCursor cursor).
  set (sts := sanitizePersistedTurns (turns_value ts)). assert (turns_ok sts) as Hok by apply sanitize_ok. cbn zeta.
  destruct (match sessionLatestTurnIndex session with Some latest => latest <? safe | None => false end) eqn:Hstale;
    cbn [rec_cursor rec_turns]; [apply prefix_empty|].
  pose proof (sanitizeChatCursor_nonneg cursor) as Hsafe. fold safe in Hsafe. pose proof (finished_prefix sts) as [H0 _]. split; [|split].
  - rewrite persistedTurnPrefix_eq by done. by apply prefixFrom_contiguous.
  - rewrite persistedTurnPrefix_length; [done..|]. lia.
  - intros latest Hl. rewrite Hl in Hstale. lia.
Qed.

(** What is already such a prefix is left alone. *)
Lemma reconcile_id session cursor ts : prefix_cached session cursor ts ->
  reconcilePersistedChatSessionCache session (Some (of_Z cursor)) ts = {| rec_cursor := cursor; rec_turns := ts; rec_stale := false |}.
Proof.
  intros (Hc & -> & Hl). pose proof (contiguous_ok 1 ts Hc) as Hok. unfold reconcilePersistedChatSessionCache.
  rewrite sanitizeChatCursor_id by lia. rewrite sanitize_id by done.
  assert (match sessionLatestTurnIndex session with Some latest => latest <? Z.of_nat (length ts) | None => false end = false) as ->.
  { destruct (sessionLatestTurnIndex session) as [latest|] eqn:E; [|done]. specialize (Hl latest E). lia. }
  rewrite finished_prefix_id, Z.min_id by done. f_equal. rewrite persistedTurnPrefix_eq, Nat2Z.id by done. by apply prefixFrom_id.
Qed.

Lemma samePersistedTurns_eq l1 l2 : samePersistedTurns l1 l2 = true -> l1 = l2.
Proof.
  unfold samePersistedTurns. rewrite andb_true_iff. intros [Hl%Nat.eqb_eq H]. revert l2 Hl H.
  induction l1 as [|a l1 IH]; intros [|b l2] Hl H; try done. cbn [zip zip_with forallb length] in *.
  apply andb_true_iff in H as [[[Hi%Z.eqb_eq Hc%bool_decide_eq_true]%andb_true_iff Hf%eqb_prop]%andb_true_iff H].
  f_equal; [destruct a, b; simpl in *; congruence|]. apply IH; [lia|done].
Qed.

Lemma samePersistedTurns_refl l : samePersistedTurns l l = true.
Proof.
  unfold samePersistedTurns. rewrite Nat.eqb_refl. cbn [andb]. induction l as [|a l IH]; [done|].
  cbn [zip zip_with forallb]. by rewrite Z.eqb_refl, bool_decide_true, eqb_reflx, IH.
Qed.
