(* ===== verification/ChatCache.v ===== *)
(** The chat cache of [workspace/WorkspacePersistence.ts]: the sessions and turns the
    client keeps across restarts, their repair, their budget, and the rows they are
    written as.

    The repository's maps are the [cache]; the database is a pair of tables.  Writes go
    to the database in three ways: those [initialize] awaits, before any other; the write
    queue, whose mutations run one after the other; and direct requests, which do not wait
    for the queue.  [issued] lists them as they are made.  A session is the JSON object the registry sent. *)

From S2P Require Import Prelude Json RegistryTypes Collation CacheEviction JsonRoundTrip ChatCacheTurns.
Open Scope Z_scope.

(** * Limits *)

Definition CHAT_CONTENT_CACHE_MAX_ENTRIES : Z := 250.
Definition CHAT_CONTENT_CACHE_MAX_BYTES : Z := 48 * 1024 * 1024.

(** * Keys *)

Definition chatSessionKey (projectId sessionId : string) : string := "cs:" +:+ projectId +:+ ":" +:+ sessionId.
Definition chatProjectPrefix (projectId : string) : string := "cs:" +:+ projectId +:+ ":".

(** [l.lastIndexOf(':')]. *)
Fixpoint last_colon (l : list ascii) (i : nat) : option nat :=
  match l with
  | [] => None
  | c :: l' => match last_colon l' (S i) with Some j => Some j | None => if Ascii.eqb c ":" then Some i else None end
  end.

Definition parseChatSessionKey (key : string) : option (string * string) :=
  if negb (startsWith key "cs:") then None else
  let payload := slice_from 3 key in
  match last_colon (chars payload) 0 with
  | Some (S i) => if Nat.leb (String.length payload - 1) (S i) then None
                  else Some (slice 0 (S i) payload, slice_from (S (S i)) payload)
  | _ => None
  end.

(** * The repository *)

Record PersistedChatSessionEntry := { ent_session : value; ent_cursor : Z }.

Record RawChatSessionIndexRow := {
  ir_k : string; ir_projectId : string; ir_sessionId : string; ir_sessionJson : string; ir_cursorJson : string; ir_updatedAt : Z
}.
Record RawChatSessionContentRow := {
  cr_k : string; cr_projectId : string; cr_sessionId : string; cr_turnsJson : option string; cr_updatedAt : Z
}.

(** A mutation of one store: cleared first, then deletions, then puts. *)
Inductive ChatMutation :=
  | MIndex (clear : bool) (deletes : list string) (puts : list RawChatSessionIndexRow)
  | MContent (clear : bool) (deletes : list string) (puts : list RawChatSessionContentRow).

Inductive Write :=
  | Awaited (mutations : list ChatMutation)
  | Queued (mutations : list ChatMutation)
  | Direct (mutations : list ChatMutation).

Record cache := {
  chatSessionIndex : list (string * PersistedChatSessionEntry);
  chatSessionContent : list (string * list RegistrySessionTurn);
  chatSessionContentUpdatedAt : list (string * Z);
  issued : list Write
}.

Definition empty_cache : cache :=
  {| chatSessionIndex := []; chatSessionContent := []; chatSessionContentUpdatedAt := []; issued := [] |}.

Definition issue (w : Write) (c : cache) : cache :=
  {| chatSessionIndex := chatSessionIndex c; chatSessionContent := chatSessionContent c;
     chatSessionContentUpdatedAt := chatSessionContentUpdatedAt c; issued := issued c ++ [w] |}.

Definition set_index (k : string) (e : PersistedChatSessionEntry) (c : cache) : cache :=
  {| chatSessionIndex := dset (chatSessionIndex c) k e; chatSessionContent := chatSessionContent c;
     chatSessionContentUpdatedAt := chatSessionContentUpdatedAt c; issued := issued c |}.

Definition set_content (k : string) (ts : list RegistrySessionTurn) (now : Z) (c : cache) : cache :=
  {| chatSessionIndex := chatSessionIndex c; chatSessionContent := dset (chatSessionContent c) k ts;
     chatSessionContentUpdatedAt := dset (chatSessionContentUpdatedAt c) k now; issued := issued c |}.

Definition drop_content (k : string) (c : cache) : cache :=
  {| chatSessionIndex := chatSessionIndex c; chatSessionContent := ddelete (chatSessionContent c) k;
     chatSessionContentUpdatedAt := ddelete (chatSessionContentUpdatedAt c) k; issued := issued c |}.

Definition drop_index (k : string) (c : cache) : cache :=
  {| chatSessionIndex := ddelete (chatSessionIndex c) k; chatSessionContent := chatSessionContent c;
     chatSessionContentUpdatedAt := chatSessionContentUpdatedAt c; issued := issued c |}.

Definition cached_turns (c : cache) (k : string) : list RegistrySessionTurn := default [] (dget (chatSessionContent c) k).

Definition session_id (session : value) : string :=
  match prop (properties session) "sessionId" with VStr s => s | _ => "" end.

Section repository.
Context `{!JSON} `{!Collation}.

Definition serialize (v : value) : string := JSON_stringify v.
Definition tryParse (s : string) (fallback : value) : value := default fallback (JSON_parse s).
Definition approximateTextBytes (s : string) : Z := Z.of_nat (String.length s) * 2.

Definition indexRow (k projectId sessionId : string) (e : PersistedChatSessionEntry) (now : Z) : RawChatSessionIndexRow :=
  {| ir_k := k; ir_projectId := projectId; ir_sessionId := sessionId; ir_sessionJson := serialize (ent_session e);
     ir_cursorJson := serialize (cursor_value (ent_cursor e)); ir_updatedAt := now |}.
Definition contentRow (k projectId sessionId : string) (ts : list RegistrySessionTurn) (now : Z) : RawChatSessionContentRow :=
  {| cr_k := k; cr_projectId := projectId; cr_sessionId := sessionId; cr_turnsJson := Some (serialize (turns_value ts));
     cr_updatedAt := now |}.

(** The row of an entry whose key is all that is known of it. *)
Definition parsedIndexRow (now : Z) (k : string) (e : PersistedChatSessionEntry) : RawChatSessionIndexRow :=
  let parsed := parseChatSessionKey k in
  indexRow k (default "" (fst <$> parsed))%string (str_or (default "" (snd <$> parsed)) (session_id (ent_session e))) e now.
Definition parsedContentRow (now : Z) (k : string) (ts : list RegistrySessionTurn) : RawChatSessionContentRow :=
  let parsed := parseChatSessionKey k in
  contentRow k (default "" (fst <$> parsed))%string (default "" (snd <$> parsed))%string ts now.

(** ** Eviction *)

Definition chatContentBudgetEntries (c : cache) : list CacheBudgetEntry :=
  map (fun e => {| be_key := e.1; be_updatedAt := default 0 (dget (chatSessionContentUpdatedAt c) e.1);
                   be_approximateBytes := approximateTextBytes (serialize (turns_value e.2)) |}) (chatSessionContent c).

Definition reset_entry (e : PersistedChatSessionEntry) : PersistedChatSessionEntry :=
  {| ent_session := ent_session e; ent_cursor := defaultChatCursor |}.

Definition evictChatKey (now : Z) (acc : cache * list RawChatSessionIndexRow) (key : string) : cache * list RawChatSessionIndexRow :=
  let c := drop_content key acc.1 in
  match dget (chatSessionIndex c) key with
  | Some entry => (set_index key (reset_entry entry) c, acc.2 ++ [parsedIndexRow now key (reset_entry entry)])
  | None => (c, acc.2)
  end.

Definition evictionKeys (now : Z) (c : cache) : list string :=
  selectCacheEvictionKeys (chatContentBudgetEntries c)
    {| lim_now := now; lim_maxAgeMs := CACHE_MAX_AGE_MS; lim_maxEntries := CHAT_CONTENT_CACHE_MAX_ENTRIES;
       lim_maxBytes := CHAT_CONTENT_CACHE_MAX_BYTES |}.

(** The evicted keys, the index rows to write, and the cache without them. *)
Definition evictChatContentEntries (now : Z) (c : cache) : list string * list RawChatSessionIndexRow * cache :=
  let keys := evictionKeys now c in
  let '(c', rows) := foldl (evictChatKey now) (c, []) keys in
  (keys, rows, c').

Definition index_mutation (rows : list RawChatSessionIndexRow) : list ChatMutation :=
  match rows with [] => [] | _ => [MIndex false [] rows] end.

Definition enqueueBoundedChatContentWrite (key projectId sessionId : string) (payload : list RegistrySessionTurn)
    (updatedAt : Z) (indexRows : list RawChatSessionIndexRow) (c : cache) : cache :=
  let '(keys, evictedRows, c') := evictChatContentEntries updatedAt (set_content key payload updatedAt c) in
  let puts := match dget (chatSessionContent c') key with
              | Some retained => [contentRow key projectId sessionId retained updatedAt] | None => [] end in
  issue (Queued (MContent false keys puts :: index_mutation (indexRows ++ evictedRows))) c'.

(** ** Operations *)

(** The body both [replaceProjectChatSessions] and [patchProjectChatSession] run. *)
Definition saveSession (now : Z) (projectId sessionId : string) (session : value) (cursor : option num) (c : cache) : cache :=
  let key := chatSessionKey projectId sessionId in
  let existing := cached_turns c key in
  let nextCache := reconcilePersistedChatSessionCache session cursor existing in
  let entry := {| ent_session := session; ent_cursor := rec_cursor nextCache |} in
  let c1 := set_index key entry c in
  let row := indexRow key projectId sessionId entry now in
  if negb (samePersistedTurns existing (rec_turns nextCache))
  then enqueueBoundedChatContentWrite key projectId sessionId (rec_turns nextCache) now [row] c1
  else issue (Direct [MIndex false [] [row]]) c1.

Definition patchProjectChatSession (now : Z) (projectId : string) (session : value) (cursor : option num) (c : cache) : cache :=
  let sessionId := trim (session_id session) in
  if negb (nonempty projectId) || negb (nonempty sessionId) then c
  else saveSession now projectId sessionId session cursor c.

Definition forgetKey (c : cache) (key : string) : cache :=
  issue (Direct [MContent false [key] []]) (issue (Direct [MIndex false [key] []]) (drop_content key (drop_index key c))).

Definition deleteProjectChatSession (projectId sessionId : string) (c : cache) : cache :=
  if negb (nonempty projectId) || negb (nonempty sessionId) then c else forgetKey c (chatSessionKey projectId sessionId).

Definition replaceProjectChatSessions (now : Z) (projectId : string) (sessions : list (value * option num)) (c : cache) : cache :=
  if negb (nonempty projectId) then c else
  let prefix := chatProjectPrefix projectId in
  let kept := bfilter (fun s => nonempty (session_id s.1)) sessions in
  let keepKeys := map (fun s => chatSessionKey projectId (session_id s.1)) kept in
  let c1 := foldl (fun c s => saveSession now projectId (session_id s.1) s.1 s.2 c) c kept in
  let deleteKeys := bfilter (fun key => startsWith key prefix && negb (bool_decide (key ∈ keepKeys))) (dkeys (chatSessionIndex c1)) in
  foldl forgetKey c1 deleteKeys.

Definition patchProjectChatSessionContent (now : Z) (projectId sessionId : string) (turns : list RegistrySessionTurn) (c : cache)
    : cache :=
  if negb (nonempty projectId) || negb (nonempty sessionId) then c else
  let key := chatSessionKey projectId sessionId in
  let sanitizedTurns := sanitizePersistedTurns (turns_value turns) in
  let proposedCursor := persistedFinishedPrefixTurnIndex sanitizedTurns in
  match dget (chatSessionIndex c) key with
  | Some existing =>
      let repaired := reconcilePersistedChatSessionCache (ent_session existing) (Some (of_Z proposedCursor)) sanitizedTurns in
      let next := {| ent_session := ent_session existing; ent_cursor := rec_cursor repaired |} in
      if negb (ent_cursor existing =? rec_cursor repaired)
      then enqueueBoundedChatContentWrite key projectId sessionId (rec_turns repaired) now
             [indexRow key projectId sessionId next now] (set_index key next c)
      else enqueueBoundedChatContentWrite key projectId sessionId (rec_turns repaired) now [] c
  | None => enqueueBoundedChatContentWrite key projectId sessionId (persistedTurnPrefix sanitizedTurns proposedCursor) now [] c
  end.

Definition clearChatCache (c : cache) : cache :=
  issue (Queued [MIndex true [] []; MContent true [] []])
    {| chatSessionIndex := []; chatSessionContent := []; chatSessionContentUpdatedAt := []; issued := issued c |}.

(** The part of [clearRebuildableCachesForStoragePressure] about the chats: the stores are
    cleared at once, not behind the jobs of the queue. *)
Definition clearChatsForStoragePressure (c : cache) : cache :=
  issue (Direct [MIndex true [] []; MContent true [] []])
    {| chatSessionIndex := []; chatSessionContent := []; chatSessionContentUpdatedAt := []; issued := issued c |}.

(** ** Restoring *)

(** The session of a row that does not parse. *)
Definition fallbackSession (sessionId : string) : value :=
  VObj [("sessionId", VStr sessionId); ("title", VStr sessionId); ("preview", VStr ""); ("updatedAt", VStr "");
        ("messageCount", VNum (of_Z 0))]%string.

Definition restoreIndexRow (c : cache) (row : RawChatSessionIndexRow) : cache :=
  set_index (ir_k row)
    {| ent_session := tryParse (ir_sessionJson row) (fallbackSession (ir_sessionId row));
       ent_cursor := sanitizeChatCursor (cursor_number (tryParse (ir_cursorJson row) (cursor_value defaultChatCursor))) |} c.

Definition restoreContentRow (c : cache) (row : RawChatSessionContentRow) : cache :=
  set_content (cr_k row) (sanitizePersistedTurns (tryParse (default "[]" (cr_turnsJson row))%string (VArr []))) (cr_updatedAt row) c.

Definition reconcileEntry (acc : cache * bool) (e : string * PersistedChatSessionEntry) : cache * bool :=
  let '(c, repaired) := acc in
  let '(key, entry) := e in
  let existing := cached_turns c key in
  let nextCache := reconcilePersistedChatSessionCache (ent_session entry) (Some (of_Z (ent_cursor entry))) existing in
  let changed := negb (rec_cursor nextCache =? ent_cursor entry) || negb (samePersistedTurns existing (rec_turns nextCache)) in
  ({| chatSessionIndex := dset (chatSessionIndex c) key {| ent_session := ent_session entry; ent_cursor := rec_cursor nextCache |};
      chatSessionContent := dset (chatSessionContent c) key (rec_turns nextCache);
      chatSessionContentUpdatedAt := chatSessionContentUpdatedAt c; issued := issued c |}, repaired || changed).

Definition restoreChatSessions (indexRows : list RawChatSessionIndexRow) (contentRows : list RawChatSessionContentRow)
    : cache * bool :=
  let c := foldl restoreContentRow (foldl restoreIndexRow empty_cache indexRows) contentRows in
  foldl reconcileEntry (c, false) (chatSessionIndex c).

Definition hasIncompatibleChatContentRows (rows : list RawChatSessionContentRow) : bool :=
  some (fun row => match cr_turnsJson row with None => true | Some _ => false end) rows.

Definition resetPersistentCacheAfterIncompatibleSchema : cache :=
  issue (Awaited [MIndex true [] []; MContent true [] []]) empty_cache.

Definition persistRepairedChatCache (now : Z) (c : cache) : cache :=
  issue (Awaited [MIndex true [] (map (fun e => parsedIndexRow now e.1 e.2) (chatSessionIndex c));
                 MContent true [] (map (fun e => parsedContentRow now e.1 e.2) (chatSessionContent c))]) c.

Definition pruneChatAfterRestore (now : Z) (c : cache) : cache :=
  let '(keys, rows, c') := evictChatContentEntries now c in
  let mutations := (match keys with [] => [] | _ => [MContent false keys []] end) ++ index_mutation rows in
  match mutations with [] => c' | _ => issue (Awaited mutations) c' end.

(** The chat part of [initialize]. *)
Definition initializeChat (now : Z) (indexRows : list RawChatSessionIndexRow) (contentRows : list RawChatSessionContentRow) : cache :=
  if hasIncompatibleChatContentRows contentRows then resetPersistentCacheAfterIncompatibleSchema else
  let '(c, repaired) := restoreChatSessions indexRows contentRows in
  pruneChatAfterRestore now (if repaired then persistRepairedChatCache now c else c).
End repository.

(** * The database *)

Record database := { db_index : gmap string RawChatSessionIndexRow; db_content : gmap string RawChatSessionContentRow }.

Definition put_all {R} (key : R -> string) (t : gmap string R) (rows : list R) : gmap string R :=
  foldl (fun t row => <[key row := row]> t) t rows.
Definition delete_all {R} (t : gmap string R) (keys : list string) : gmap string R := foldl (fun t k => delete k t) t keys.

Definition mutate (db : database) (m : ChatMutation) : database :=
  match m with
  | MIndex clear deletes puts =>
      {| db_index := put_all ir_k (delete_all (if clear then ∅ else db_index db) deletes) puts; db_content := db_content db |}
  | MContent clear deletes puts =>
      {| db_index := db_index db; db_content := put_all cr_k (delete_all (if clear then ∅ else db_content db) deletes) puts |}
  end.

Definition mutations_of (w : Write) : list ChatMutation := match w with Awaited ms | Queued ms | Direct ms => ms end.
Definition commit (db : database) (w : Write) : database := foldl mutate db (mutations_of w).

Definition empty_database : database := {| db_index := ∅; db_content := ∅ |}.

Definition awaited_of (ws : list Write) : list (list ChatMutation) := omap (fun w => match w with Awaited ms => Some ms | _ => None end) ws.
Definition queued_of (ws : list Write) : list (list ChatMutation) := omap (fun w => match w with Queued ms => Some ms | _ => None end) ws.
Definition direct_of (ws : list Write) : list (list ChatMutation) := omap (fun w => match w with Direct ms => Some ms | _ => None end) ws.

(** The orders in which issued writes may land: the awaited ones first, those of the
    queue in order and those made directly in order, either of which may overtake the
    other. *)
Definition lands (ws order : list Write) : Prop :=
  queued_of order = queued_of ws /\ direct_of order = direct_of ws /\
  exists rest, order = map Awaited (awaited_of ws) ++ rest /\ awaited_of rest = [].
