(* ===== verification/ChatCacheSync.v ===== *)
(** The chat cache and its database over the life of the client: the operations of
    [ChatCache], restarts, and what is kept across them when the writes land in the order
    they were issued. *)

From S2P Require Import Prelude Json RegistryTypes Collation CacheEviction JsonRoundTrip ChatCacheTurns ChatCache.
Open Scope Z_scope.

(** * Tables *)

Section tables.
Context {R : Type} (key : R -> string).
Implicit Types (t : gmap string R) (rows : list R).

Definition keyed (t : gmap string R) : Prop := forall k row, t !! k = Some row -> key row = k.

Lemma put_all_app t rows1 rows2 : put_all key t (rows1 ++ rows2) = put_all key (put_all key t rows1) rows2.
Proof. apply foldl_app. Qed.

Lemma put_all_keyed t rows : keyed t -> keyed (put_all key t rows).
Proof.
  revert t; induction rows as [|row rows IH]; intros t Ht; [done|]. apply IH. intros k r.
  rewrite lookup_insert_Some. intros [[<- <-]|[_ H]]; [done|by apply Ht].
Qed.

Lemma delete_all_lookup t keys k : delete_all t keys !! k = if bool_decide (k ∈ keys) then None else t !! k.
Proof.
  revert t; induction keys as [|k' keys IH]; intros t; [done|]. cbn [delete_all foldl]. change (delete_all (delete k' t) keys !! k = if bool_decide (k ∈ k' :: keys) then None else t !! k).
  rewrite IH. destruct (decide (k ∈ keys)) as [H|H].
  - rewrite !bool_decide_true; [done|by right|done].
  - rewrite (bool_decide_false _ H). destruct (decide (k = k')) as [->|Hne].
    + rewrite bool_decide_true by left. by rewrite lookup_delete_eq.
    + rewrite bool_decide_false by set_solver. by rewrite lookup_delete_ne.
Qed.

Lemma delete_all_keyed t keys : keyed t -> keyed (delete_all t keys).
Proof. intros Ht k row. rewrite delete_all_lookup. case_bool_decide; [done|]. apply Ht. Qed.

(** A table filled with the rows of a map. *)
Lemma put_all_map {V} (f : string * V -> R) (d : list (string * V)) k : NoDup (dkeys d) -> (forall e, key (f e) = e.1) ->
  put_all key ∅ (map f d) !! k = (fun v => f (k, v)) <$> dget d k.
Proof.
  intros Hnd Hf. rewrite <- (rev_involutive d) in *. induction (rev d) as [|[k' v] l IH]; [done|]. cbn [rev] in *.
  unfold dkeys in Hnd. rewrite map_app in Hnd. apply NoDup_app in Hnd as (Hnd & Hni & _). cbn [map] in Hni.
  rewrite map_app, put_all_app. cbn [map put_all foldl]. rewrite Hf. cbn [fst].
  assert (k' ∉ dkeys (rev l)) as Hk' by (intros Hk; apply (Hni k' Hk); by left).
  rewrite <- dset_fresh, dget_dset by done. goal_decide; [by rewrite lookup_insert_eq|].
  rewrite lookup_insert_ne by done. by apply IH.
Qed.

(** The rows of a table, in any order. *)
Lemma rows_NoDup {V} (f : R -> V) t rows : keyed t -> rows ≡ₚ (map_to_list t).*2 ->
  NoDup (dkeys (map (fun row => (key row, f row)) rows)).
Proof.
  intros Ht Hr. unfold dkeys. rewrite map_map. cbn [fst]. change (NoDup (key <$> rows)). rewrite Hr, <- list_fmap_compose.
    assert ((key ∘ snd) <$> map_to_list t = (map_to_list t).*1) as ->; [|apply NoDup_fst_map_to_list].
    apply list_fmap_ext. intros i [k' row] Hi. apply list_elem_of_lookup_2, elem_of_map_to_list in Hi. by apply Ht.
Qed.

Lemma rows_lookup {V} (f : R -> V) t rows k : keyed t -> rows ≡ₚ (map_to_list t).*2 ->
  dget (map (fun row => (key row, f row)) rows) k = f <$> t !! k.
Proof.
  intros Ht Hr. pose proof (rows_NoDup f t rows Ht Hr) as Hnd.
  destruct (t !! k) as [row|] eqn:E; cbn.
  - apply dget_in; [done|]. apply elem_of_map. exists row. split; [by rewrite (Ht k row E)|].
    rewrite Hr. apply list_elem_of_fmap. exists (k, row). split; [done|]. by apply elem_of_map_to_list.
  - apply dget_None. intros (e & -> & He)%elem_of_map. apply elem_of_map in He as (row & -> & Hin). cbn [fst] in E.
    rewrite Hr in Hin. apply list_elem_of_fmap in Hin as ([k' r] & -> & Hin%elem_of_map_to_list). cbn in E.
    by rewrite (Ht k' r Hin), Hin in E.
Qed.
End tables.

(** * The cache and the tables *)

Section sync.
Context `{J : JSON} `{C : Collation}.

(** What a restart makes of a row. *)
Definition restored_entry (row : RawChatSessionIndexRow) : PersistedChatSessionEntry :=
  {| ent_session := tryParse (ir_sessionJson row) (fallbackSession (ir_sessionId row));
     ent_cursor := sanitizeChatCursor (cursor_number (tryParse (ir_cursorJson row) (cursor_value defaultChatCursor))) |}.
Definition restored_turns (row : RawChatSessionContentRow) : list RegistrySessionTurn :=
  sanitizePersistedTurns (tryParse (default "[]" (cr_turnsJson row))%string (VArr [])).

Definition index_sync (t : gmap string RawChatSessionIndexRow) (d : list (string * PersistedChatSessionEntry)) : Prop :=
  forall k, restored_entry <$> t !! k = dget d k.
Definition content_sync (t : gmap string RawChatSessionContentRow) (c : cache) : Prop :=
  forall k, default [] (restored_turns <$> t !! k) = cached_turns c k.

Record synced (db : database) (c : cache) : Prop := {
  sy_index_keyed : keyed ir_k (db_index db);
  sy_content_keyed : keyed cr_k (db_content db);
  sy_strings : forall k row, db_content db !! k = Some row -> exists s, cr_turnsJson row = Some s;
  sy_index : index_sync (db_index db) (chatSessionIndex c);
  sy_content : content_sync (db_content db) c;
  sy_cached : forall k, is_Some (db_content db !! k) -> is_Some (dget (chatSessionContent c) k)
}.

(** The database once everything issued has landed in the order of issue. *)
Definition landed (db : database) (c : cache) : database := foldl commit db (issued c).

Lemma landed_issue db w c : landed db (issue w c) = commit (landed db c) w.
Proof. unfold landed, issue. cbn [issued]. by rewrite foldl_app. Qed.

(** The invariant of the maps. *)
Record cache_ok (c : cache) : Prop := {
  ok_index_keys : NoDup (dkeys (chatSessionIndex c));
  ok_content_keys : NoDup (dkeys (chatSessionContent c));
  ok_sessions : forall k e, dget (chatSessionIndex c) k = Some e -> json_data (ent_session e) = true;
  ok_prefix : forall k e, dget (chatSessionIndex c) k = Some e -> prefix_cached (ent_session e) (ent_cursor e) (cached_turns c k);
  ok_turns : forall k ts, dget (chatSessionContent c) k = Some ts -> turns_ok ts
}.

Definition chat_limits (now : Z) : CacheBudgetLimits :=
  {| lim_now := now; lim_maxAgeMs := CACHE_MAX_AGE_MS; lim_maxEntries := CHAT_CONTENT_CACHE_MAX_ENTRIES;
     lim_maxBytes := CHAT_CONTENT_CACHE_MAX_BYTES |}.

(** The cached contents are within the budget. *)
Definition within_budget (c : cache) : Prop := fits (chat_limits 0) (chatContentBudgetEntries c).

Lemma cached_turns_ok c k : cache_ok c -> turns_ok (cached_turns c k).
Proof.
  intros H. unfold cached_turns. destruct (dget (chatSessionContent c) k) as [ts|] eqn:E; [by eapply ok_turns|split; constructor].
Qed.

Lemma json_cursor n : json_data (cursor_value n) = true.
Proof.
  unfold cursor_value. cbn [json_data forallb snd of_Z inject_Z Qnum].
  by rewrite !bool_decide_true by (done || (apply (bool_decide_unpack _); vm_compute; exact I)).
Qed.

Lemma json_turns ts : json_data (turns_value ts) = true.
Proof.
  unfold turns_value. cbn [json_data]. apply forallb_forall. intros v (t & <- & _)%in_map_iff.
  unfold turn_value. cbn [json_data forallb snd of_Z inject_Z Qnum]. by rewrite !bool_decide_true 
    by (done || (apply (bool_decide_unpack _); vm_compute; exact I)).
Qed.

Context `{JR : !JSONRoundTrip (J:=J)}.

Lemma tryParse_serialize v fallback : json_data v = true -> tryParse (serialize v) fallback = v.
Proof. intros H. unfold tryParse, serialize. by rewrite json_roundtrip. Qed.

Lemma restored_contentRow k p s ts now : turns_ok ts -> restored_turns (contentRow k p s ts now) = ts.
Proof.
  intros H. change (sanitizePersistedTurns (tryParse (serialize (turns_value ts)) (VArr [])) = ts). rewrite tryParse_serialize by apply json_turns.
  by apply sanitize_id.
Qed.

Lemma restored_indexRow k p s e now : json_data (ent_session e) = true -> 0 <= ent_cursor e ->
  restored_entry (indexRow k p s e now) = e.
Proof.
  intros Hs Hc. unfold restored_entry, indexRow. cbn [ir_sessionJson ir_cursorJson]. rewrite !tryParse_serialize by (done || apply json_cursor).
  assert (sanitizeChatCursor (cursor_number (cursor_value (ent_cursor e))) = ent_cursor e) as ->
    by (by apply sanitizeChatCursor_id).
  by destruct e.
Qed.

Lemma prefix_cursor session cursor ts : prefix_cached session cursor ts -> 0 <= cursor.
Proof. intros (_ & -> & _). lia. Qed.

(** ** Eviction *)

Lemma cached_turns_drop c key k : cached_turns (drop_content key c) k = if decide (key = k) then [] else cached_turns c k.
Proof. unfold cached_turns, drop_content. cbn [chatSessionContent]. rewrite dget_ddelete. by goal_decide. Qed.

Lemma drop_content_ok key c : (forall e, dget (chatSessionIndex c) key = Some e -> ent_cursor e = 0) ->
  cache_ok c -> cache_ok (drop_content key c).
Proof.
  intros H0 [H1 H2 H3 H4 H5]. split; cbn [drop_content chatSessionIndex chatSessionContent]; [done|by apply ddelete_NoDup|done|..].
  - intros k e He. rewrite cached_turns_drop. goal_decide; [rewrite (H0 e He); apply prefix_empty|by apply H4].
  - intros k ts. rewrite dget_ddelete. goal_decide; [done|]. apply H5.
Qed.

Lemma set_index_ok key e c : json_data (ent_session e) = true ->
  prefix_cached (ent_session e) (ent_cursor e) (cached_turns c key) -> cache_ok c -> cache_ok (set_index key e c).
Proof.
  intros Hj Hp [H1 H2 H3 H4 H5]. split; cbn [set_index chatSessionIndex chatSessionContent]; [by apply dset_NoDup|done|..|done];
    intros k e'; rewrite dget_dset; goal_decide; intros He; simplify_eq; [done|by eapply H3|done|by apply H4].
Qed.

Lemma reset_ok key e c : dget (chatSessionIndex c) key = Some e -> cache_ok c ->
  cache_ok (set_index key (reset_entry e) (drop_content key c)).
Proof.
  intros He [H1 H2 H3 H4 H5]. split; cbn [set_index drop_content chatSessionIndex chatSessionContent];
    [by apply dset_NoDup|by apply ddelete_NoDup|..].
  - intros k e'. rewrite dget_dset. goal_decide; intros Hk; simplify_eq; [exact (H3 _ _ He)|exact (H3 _ _ Hk)].
  - intros k e'. rewrite dget_dset. change (cached_turns _ k) with (cached_turns (drop_content key c) k).
    rewrite cached_turns_drop. goal_decide; intros Hk; simplify_eq; [apply prefix_empty|by apply H4].
  - intros k ts. rewrite dget_ddelete. goal_decide; [done|]. apply H5.
Qed.

(** The eviction of one key, with the row that is written for it. *)
Lemma evict_step now key c rows t : cache_ok c -> index_sync (put_all ir_k t rows) (chatSessionIndex c) ->
  let acc := evictChatKey now (c, rows) key in
  cache_ok acc.1 /\ index_sync (put_all ir_k t acc.2) (chatSessionIndex acc.1) /\
  chatSessionContent acc.1 = ddelete (chatSessionContent c) key /\ issued acc.1 = issued c.
Proof.
  intros Hok Hs. unfold evictChatKey. cbn [fst snd]. change (chatSessionIndex (drop_content key c)) with (chatSessionIndex c).
  destruct (dget (chatSessionIndex c) key) as [e|] eqn:E; cbn zeta; cbn [fst snd].
  - pose proof (ok_sessions c Hok key e E) as Hj. split_and!; [|..|done|done].
    + by apply reset_ok.
    + intros k. rewrite put_all_app. cbn [put_all foldl set_index chatSessionIndex]. rewrite dget_dset.
      change (ir_k (parsedIndexRow now key (reset_entry e))) with key. goal_decide.
      * rewrite lookup_insert_eq. cbn. f_equal. by apply restored_indexRow.
      * rewrite lookup_insert_ne by done. apply Hs.
  - split_and!; [|done..]. apply drop_content_ok; [|done]. intros e He. by rewrite E in He.
Qed.

Lemma evict_fold now keys c rows t : cache_ok c -> index_sync (put_all ir_k t rows) (chatSessionIndex c) ->
  let acc := foldl (evictChatKey now) (c, rows) keys in
  cache_ok acc.1 /\ index_sync (put_all ir_k t acc.2) (chatSessionIndex acc.1) /\
  chatSessionContent acc.1 = foldl ddelete (chatSessionContent c) keys /\ issued acc.1 = issued c.
Proof.
  revert c rows; induction keys as [|key keys IH]; intros c rows Hok Hs; [done|]. cbn [foldl].
  destruct (evict_step now key c rows t Hok Hs) as (H1 & H2 & H3 & H4).
  destruct (evictChatKey now (c, rows) key) as [c' rows']. cbn [fst snd] in *. cbn zeta.
  destruct (IH c' rows' H1 H2) as (I1 & I2 & I3 & I4). rewrite <- H3, <- H4. done.
Qed.

Lemma evict_rows now keys c pre rows :
  foldl (evictChatKey now) (c, pre ++ rows) keys =
  ((foldl (evictChatKey now) (c, rows) keys).1, pre ++ (foldl (evictChatKey now) (c, rows) keys).2).
Proof.
  revert c rows; induction keys as [|key keys IH]; intros c rows; [done|]. cbn [foldl]. unfold evictChatKey at 2 4 6.
  cbn [fst snd]. change (evictChatKey now (c, pre ++ rows) key) with
    (match dget (chatSessionIndex (drop_content key c)) key with
     | Some entry => (set_index key (reset_entry entry) (drop_content key c), (pre ++ rows) ++ [parsedIndexRow now key (reset_entry entry)])
     | None => (drop_content key c, pre ++ rows) end).
  destruct (dget _ _); [rewrite <- app_assoc|]; apply IH.
Qed.

Lemma ddelete_keys {V} (d : list (string * V)) keys : foldl ddelete d keys = bfilter (fun e => negb (bool_decide (e.1 ∈ keys))) d.
Proof.
  revert d; induction keys as [|k keys IH]; intros d; cbn [foldl].
  - symmetry. apply bfilter_all, Forall_forall. intros e _. by rewrite bool_decide_false by set_solver.
  - rewrite IH. unfold ddelete. rewrite <- bfilter_and. apply List.filter_ext. intros [k' v]. cbn [fst].
    rewrite <- negb_orb. f_equal. apply eq_iff_eq_true. rewrite orb_true_iff, !bool_decide_eq_true, elem_of_cons. done.
Qed.

Lemma dget_without {V} (keys : list string) (d : list (string * V)) k :
  dget (bfilter (fun e => negb (bool_decide (e.1 ∈ keys))) d) k = if bool_decide (k ∈ keys) then None else dget d k.
Proof.
  induction d as [|[k' v] d IH]; cbn [List.filter dget fst]; [by case_bool_decide|].
  destruct (bool_decide (k' ∈ keys)) eqn:E; cbn [negb dget]; goal_decide; rewrite ?IH, ?E; done.
Qed.

(** ** Budgets *)

Lemma fits_bytes limits l1 l2 : map be_approximateBytes l1 = map be_approximateBytes l2 -> fits limits l1 -> fits limits l2.
Proof.
  intros H. assert (length l1 = length l2 /\ total_bytes l1 = total_bytes l2) as [E1 E2].
  { revert l2 H. induction l1 as [|x l1 IH]; intros [|y l2] H; try done. cbn [map] in H. injection H as Hx H.
    destruct (IH l2 H). cbn [length]. rewrite !total_cons. split; lia. }
  unfold fits. by rewrite E1, E2.
Qed.

Lemma bfilter_map {A B} (p : B -> bool) (f : A -> B) l : bfilter p (map f l) = map f (bfilter (fun x => p (f x)) l).
Proof. induction l as [|x l IH]; [done|]. cbn [map List.filter]. rewrite IH. by destruct (p (f x)). Qed.

Lemma budget_bytes c : map be_approximateBytes (chatContentBudgetEntries c) =
  map (fun e => approximateTextBytes (serialize (turns_value e.2))) (chatSessionContent c).
Proof. unfold chatContentBudgetEntries. by rewrite map_map. Qed.

(** The budget only looks at the contents, and dropping some keeps within it. *)
Lemma budget_mono c c' p : chatSessionContent c' = bfilter p (chatSessionContent c) -> within_budget c -> within_budget c'.
Proof.
  unfold within_budget. intros H. set (size := fun e : string * list RegistrySessionTurn => approximateTextBytes (serialize (turns_value e.2))).
  set (entry := fun e => {| be_key := ""; be_updatedAt := 0; be_approximateBytes := size e |}).
  assert (forall c, fits (chat_limits 0) (chatContentBudgetEntries c) <-> fits (chat_limits 0) (map entry (chatSessionContent c))) as Hb.
  { intros c0. split; apply fits_bytes; rewrite budget_bytes, map_map; done. }
  rewrite !Hb, H. clear. intros [H1 H2]. split.
  - rewrite length_map in *. pose proof (List.filter_length_le p (chatSessionContent c)). lia.
  - etrans; [|exact H2]. generalize (chatSessionContent c) as l. clear. induction l as [|x l IH]; [done|].
    cbn [List.filter map]. assert (0 <= size x) by (unfold size, approximateTextBytes; lia).
    destruct (p x); cbn [map]; rewrite ?total_cons; cbn [be_approximateBytes entry]; lia.
Qed.

Lemma evict_budget now c c' : NoDup (dkeys (chatSessionContent c)) ->
  chatSessionContent c' = foldl ddelete (chatSessionContent c) (evictionKeys now c) -> within_budget c'.
Proof.
  intros Hnd Hc. unfold within_budget. eapply (fits_bytes _ (kept_by (chat_limits now) (chatContentBudgetEntries c))).
  - rewrite budget_bytes, Hc, ddelete_keys. unfold kept_by, evictionKeys, chatContentBudgetEntries.
    by rewrite bfilter_map, map_map.
  - apply (kept_fits (chatContentBudgetEntries c) (chat_limits now)); [|done..].
    unfold chatContentBudgetEntries. by rewrite map_map.
Qed.

Lemma evict_all now c rows t : cache_ok c -> index_sync (put_all ir_k t rows) (chatSessionIndex c) ->
  exists keys evicted c', evictChatContentEntries now c = (keys, evicted, c') /\
  cache_ok c' /\ within_budget c' /\ index_sync (put_all ir_k t (rows ++ evicted)) (chatSessionIndex c') /\
  chatSessionContent c' = bfilter (fun e => negb (bool_decide (e.1 ∈ keys))) (chatSessionContent c) /\ issued c' = issued c.
Proof.
  intros Hok Hs. unfold evictChatContentEntries. destruct (foldl _ _ _) as [c' evicted] eqn:E.
  pose proof (evict_rows now (evictionKeys now c) c rows []) as Hrows. rewrite app_nil_r, E in Hrows. cbn [fst snd] in Hrows.
  destruct (evict_fold now (evictionKeys now c) c rows t Hok Hs) as (H1 & H2 & H3 & H4). rewrite Hrows in *. cbn [fst snd] in *.
  exists (evictionKeys now c), evicted, c'. split_and!; [done..| |done|by rewrite H3, ddelete_keys|done].
  eapply evict_budget; [apply Hok|exact H3].
Qed.
(** ** Writes *)

Definition healthy (db : database) (c : cache) : Prop := cache_ok c /\ within_budget c /\ synced (landed db c) c.

Lemma issue_ok w c : cache_ok c -> cache_ok (issue w c).
Proof. by intros [????]; split. Qed.

Lemma landed_eq db c c' : issued c' = issued c -> landed db c' = landed db c.
Proof. unfold landed. by intros ->. Qed.

Lemma commit_index db rows : foldl mutate db (index_mutation rows) =
  {| db_index := put_all ir_k (db_index db) rows; db_content := db_content db |}.
Proof. destruct rows; [by destruct db|done]. Qed.

(** A content is written with the index rows that changed: they and the rows of what is
    evicted bring the tables up to date. *)
Lemma bounded_write db key p s payload now irows c :
  cache_ok (set_content key payload now c) -> keyed ir_k (db_index (landed db c)) -> keyed cr_k (db_content (landed db c)) ->
  (forall k row, db_content (landed db c) !! k = Some row -> exists txt, cr_turnsJson row = Some txt) ->
  index_sync (put_all ir_k (db_index (landed db c)) irows) (chatSessionIndex c) ->
  (forall k, k <> key -> default [] (restored_turns <$> db_content (landed db c) !! k) = cached_turns c k) ->
  (forall k, is_Some (db_content (landed db c) !! k) -> is_Some (dget (chatSessionContent c) k)) ->
  healthy db (enqueueBoundedChatContentWrite key p s payload now irows c).
Proof.
  intros Hok Hki Hkc Hstr Hi Hc Hcached. unfold enqueueBoundedChatContentWrite.
  destruct (evict_all now (set_content key payload now c) irows (db_index (landed db c)) Hok Hi)
    as (keys & evicted & c' & -> & Hok' & Hb & Hi' & Hcon & Hiss).
  assert (turns_ok payload) as Hpay by (apply (ok_turns _ Hok key); cbn [set_content chatSessionContent]; apply dget_dset_eq).
  assert (forall k, dget (chatSessionContent c') k =
    if bool_decide (k ∈ keys) then None else if decide (key = k) then Some payload else dget (chatSessionContent c) k) as Hget.
  { intros k. rewrite Hcon. rewrite dget_without. cbn [set_content chatSessionContent]. rewrite dget_dset. by case_bool_decide. }
  set (puts := match dget (chatSessionContent c') key with Some retained => [contentRow key p s retained now] | None => [] end).
  assert (puts = if bool_decide (key ∈ keys) then [] else [contentRow key p s payload now]) as Hputs.
  { unfold puts. rewrite Hget. case_bool_decide; [done|]. by goal_decide. }
  split; [by apply issue_ok|]. split; [exact Hb|]. rewrite landed_issue. rewrite (landed_eq db c c') by (by rewrite Hiss).
  unfold commit. cbn [mutations_of foldl]. rewrite commit_index. cbn [mutate db_index db_content]. split; cbn [db_index db_content].
  - by apply put_all_keyed.
  - by apply put_all_keyed, delete_all_keyed.
  - intros k row. rewrite Hputs. case_bool_decide; cbn [put_all foldl].
    + rewrite delete_all_lookup. case_bool_decide; [done|]. apply Hstr.
    + rewrite lookup_insert_Some, delete_all_lookup. intros [[_ <-]|[_ Hr]]; [by eexists|].
      case_bool_decide; [done|]. by eapply Hstr.
  - exact Hi'.
  - intros k. change (cached_turns (issue _ c') k) with (default [] (dget (chatSessionContent c') k)). rewrite Hget, Hputs.
    destruct (decide (key = k)) as [->|Hne].
    + case_bool_decide; cbn [put_all foldl]; [by rewrite delete_all_lookup, bool_decide_true|].
      change (cr_k (contentRow k p s payload now)) with k. rewrite lookup_insert_eq. cbn. by apply restored_contentRow.
    + assert (put_all cr_k (delete_all (db_content (landed db c)) keys)
          (if bool_decide (key ∈ keys) then [] else [contentRow key p s payload now]) !! k =
        if bool_decide (k ∈ keys) then None else db_content (landed db c) !! k) as ->.
      { destruct (bool_decide (key ∈ keys)); cbn [put_all foldl]; [by rewrite delete_all_lookup|].
        change (cr_k (contentRow key p s payload now)) with key. by rewrite lookup_insert_ne, delete_all_lookup. }
      destruct (bool_decide (k ∈ keys)); [done|]. by apply Hc.
  - intros k. cbn [issue chatSessionContent]. rewrite Hget, Hputs.
    destruct (bool_decide (key ∈ keys)) eqn:Ek; cbn [put_all foldl].
    + rewrite delete_all_lookup. destruct (bool_decide (k ∈ keys)) eqn:Ekk; [done|]. intros Hr%Hcached. by goal_decide.
    + change (cr_k (contentRow key p s payload now)) with key. intros Hr. destruct (decide (key = k)) as [<-|Hne]; [by rewrite Ek|].
      rewrite lookup_insert_ne, delete_all_lookup in Hr by done. destruct (bool_decide (k ∈ keys)); [done|]. by apply Hcached.
Qed.
Lemma set_content_ok key ts now c : turns_ok ts ->
  (forall e, dget (chatSessionIndex c) key = Some e -> prefix_cached (ent_session e) (ent_cursor e) ts) ->
  NoDup (dkeys (chatSessionIndex c)) -> NoDup (dkeys (chatSessionContent c)) ->
  (forall k e, dget (chatSessionIndex c) k = Some e -> json_data (ent_session e) = true) ->
  (forall k e, k <> key -> dget (chatSessionIndex c) k = Some e -> prefix_cached (ent_session e) (ent_cursor e) (cached_turns c k)) ->
  (forall k ts, dget (chatSessionContent c) k = Some ts -> turns_ok ts) -> cache_ok (set_content key ts now c).
Proof.
  intros Hts Hkey H1 H2 H3 H4 H5. split; cbn [set_content chatSessionIndex chatSessionContent]; [done|by apply dset_NoDup|done|..].
  - intros k e He. unfold cached_turns. cbn [set_content chatSessionContent]. rewrite dget_dset. goal_decide; [by apply Hkey|].
    apply H4; [congruence|done].
  - intros k ts'. rewrite dget_dset. goal_decide; [intros [= <-]; done|apply H5].
Qed.

Lemma set_both_ok key e ts now c : json_data (ent_session e) = true -> prefix_cached (ent_session e) (ent_cursor e) ts ->
  cache_ok c -> cache_ok (set_content key ts now (set_index key e c)).
Proof.
  intros Hj Hp [H1 H2 H3 H4 H5]. apply set_content_ok; cbn [set_index chatSessionIndex chatSessionContent]; [|..|by apply dset_NoDup|done| | |done].
  - by apply (contiguous_ok 1), Hp.
  - intros e'. rewrite dget_dset_eq. by intros [= <-].
  - intros k e'. rewrite dget_dset. goal_decide; [by intros [= <-]|apply H3].
  - intros k e' Hne. rewrite dget_dset. goal_decide. by apply H4.
Qed.

(** An index entry set together with its row. *)
Lemma index_put t d key p s e now : index_sync t d -> json_data (ent_session e) = true -> 0 <= ent_cursor e ->
  index_sync (put_all ir_k t [indexRow key p s e now]) (dset d key e).
Proof.
  intros Hs Hj Hc k. cbn [put_all foldl]. change (ir_k (indexRow key p s e now)) with key. rewrite dget_dset. goal_decide.
  - rewrite lookup_insert_eq. cbn. f_equal. by apply restored_indexRow.
  - rewrite lookup_insert_ne by done. apply Hs.
Qed.

Lemma saveSession_healthy db now p s session cursor c : json_data session = true -> healthy db c ->
  healthy db (saveSession now p s session cursor c).
Proof.
  intros Hj (Hok & Hb & Hsy). unfold saveSession. cbn zeta. set (key := chatSessionKey p s).
  pose proof (reconcile_prefix session cursor (cached_turns c key)) as Hr. cbn zeta in Hr.
  set (r := reconcilePersistedChatSessionCache session cursor (cached_turns c key)) in *.
  set (e := {| ent_session := session; ent_cursor := rec_cursor r |}). pose proof (prefix_cursor _ _ _ Hr) as Hc.
  assert (index_sync (put_all ir_k (db_index (landed db c)) [indexRow key p s e now]) (dset (chatSessionIndex c) key e)) as Hi
    by (apply index_put; [apply Hsy|done..]).
  destruct (negb _) eqn:E.
  - apply bounded_write; rewrite ?(landed_eq db c (set_index key e c) eq_refl); [by apply set_both_ok|apply Hsy..| | |].
    + exact Hi.
    + intros k _. apply (sy_content _ _ Hsy).
    + apply (sy_cached _ _ Hsy).
  - apply negb_false_iff, samePersistedTurns_eq in E. rewrite <- E in Hr.
    split; [apply issue_ok; by apply set_index_ok|]. split; [exact Hb|]. rewrite landed_issue, (landed_eq db c (set_index key e c) eq_refl).
    unfold commit. cbn [mutations_of foldl mutate]. split; cbn [db_index db_content].
    + apply put_all_keyed, delete_all_keyed, Hsy.
    + apply Hsy.
    + apply Hsy.
    + exact Hi.
    + exact (sy_content _ _ Hsy).
    + exact (sy_cached _ _ Hsy).
Qed.

Lemma forgetKey_healthy db key c : healthy db c -> healthy db (forgetKey c key).
Proof.
  intros ([H1 H2 H3 H4 H5] & Hb & Hsy). unfold forgetKey.
  assert (cache_ok (drop_content key (drop_index key c))) as Hok.
  { split; cbn [drop_content drop_index chatSessionIndex chatSessionContent]; [by apply ddelete_NoDup..| | |].
    - intros k e. rewrite dget_ddelete. goal_decide; [done|apply H3].
    - intros k e. rewrite dget_ddelete, cached_turns_drop. goal_decide; [done|apply H4].
    - intros k ts. rewrite dget_ddelete. goal_decide; [done|apply H5]. }
  split; [by repeat apply issue_ok|]. split; [eapply budget_mono; [|exact Hb]; reflexivity|].
  rewrite !landed_issue. change (landed db (drop_content key (drop_index key c))) with (landed db c).
  unfold commit. cbn [mutations_of foldl mutate]. split; cbn [db_index db_content put_all foldl].
  - apply delete_all_keyed, Hsy.
  - apply delete_all_keyed, Hsy.
  - intros k row. rewrite delete_all_lookup. case_bool_decide; [done|]. apply Hsy.
  - intros k. rewrite delete_all_lookup. cbn [issue drop_content drop_index chatSessionIndex]. rewrite dget_ddelete.
    goal_decide; [by rewrite bool_decide_true by (by left)|]. rewrite bool_decide_false by set_solver. apply Hsy.
  - intros k. change (cached_turns _ k) with (cached_turns (drop_content key (drop_index key c)) k).
    rewrite delete_all_lookup, cached_turns_drop. goal_decide; [by rewrite bool_decide_true by (by left)|].
    rewrite bool_decide_false by set_solver. apply (sy_content _ _ Hsy).
  - intros k. cbn [issue drop_content drop_index chatSessionContent]. rewrite delete_all_lookup, dget_ddelete. goal_decide; subst.
    + rewrite bool_decide_true by (by left). by intros [].
    + rewrite bool_decide_false by set_solver. apply (sy_cached _ _ Hsy).
Qed.
Lemma foldl_healthy {A} db (f : cache -> A -> cache) l c :
  (forall x c, x ∈ l -> healthy db c -> healthy db (f c x)) -> healthy db c -> healthy db (foldl f c l).
Proof.
  revert c; induction l as [|x l IH]; intros c Hf Hc; [done|]. cbn [foldl]. apply IH.
  - intros y c' Hy. apply Hf. by right.
  - apply Hf; [by left|done].
Qed.

Lemma patchProjectChatSessionContent_healthy db now p s turns c : healthy db c ->
  healthy db (patchProjectChatSessionContent now p s turns c).
Proof.
  intros Hc. unfold patchProjectChatSessionContent. destruct (_ || _); [done|]. destruct Hc as (Hok & Hb & Hsy). cbn zeta.
  set (key := chatSessionKey p s). set (sts := sanitizePersistedTurns (turns_value turns)).
  set (proposed := persistedFinishedPrefixTurnIndex sts).
  destruct (dget (chatSessionIndex c) key) as [e|] eqn:E.
  - pose proof (reconcile_prefix (ent_session e) (Some (of_Z proposed)) sts) as Hr. cbn zeta in Hr.
    set (r := reconcilePersistedChatSessionCache (ent_session e) (Some (of_Z proposed)) sts) in *.
    pose proof (ok_sessions c Hok key e E) as Hj. set (next := {| ent_session := ent_session e; ent_cursor := rec_cursor r |}).
    destruct (negb _) eqn:Hcur.
    + apply bounded_write; rewrite ?(landed_eq db c (set_index key next c) eq_refl); [by apply set_both_ok|apply Hsy..| | |].
      * apply index_put; [apply Hsy|done|]. by eapply prefix_cursor.
      * intros k _. apply (sy_content _ _ Hsy).
      * apply (sy_cached _ _ Hsy).
    + apply negb_false_iff, Z.eqb_eq in Hcur. apply bounded_write; [|apply Hsy..| |].
      * apply set_content_ok; try apply Hok; [by apply (contiguous_ok 1), Hr| |intros k e' _; apply Hok].
        intros e' He'. assert (e' = e) as -> by congruence. by rewrite Hcur.
      * intros k _. apply (sy_content _ _ Hsy).
      * apply (sy_cached _ _ Hsy).
  - apply bounded_write; [|apply Hsy..| |].
    + apply set_content_ok; try apply Hok; [|by intros e He; rewrite He in E|intros k e' _; apply Hok].
      assert (turns_ok sts) as Hs by apply sanitize_ok. rewrite persistedTurnPrefix_eq by done.
      by eapply contiguous_ok, prefixFrom_contiguous.
    + intros k _. apply (sy_content _ _ Hsy).
    + apply (sy_cached _ _ Hsy).
Qed.

Lemma replaceProjectChatSessions_healthy db now p sessions c :
  Forall (fun s => json_data s.1 = true) sessions -> healthy db c -> healthy db (replaceProjectChatSessions now p sessions c).
Proof.
  intros Hj Hc. unfold replaceProjectChatSessions. destruct (negb _); [done|]. cbn zeta.
  apply foldl_healthy; [intros; by apply forgetKey_healthy|]. apply foldl_healthy; [|done].
  intros x c' [Hx _]%elem_of_bfilter. apply saveSession_healthy. rewrite Forall_forall in Hj. by apply Hj.
Qed.

(** Everything dropped, with the tables cleared. *)
Lemma cleared_healthy db c w : chatSessionIndex c = [] -> chatSessionContent c = [] -> mutations_of w = [MIndex true [] []; MContent true [] []] ->
  healthy db (issue w c).
Proof.
  intros Hi Hc Hw. split; [|split].
  - apply issue_ok. split; rewrite ?Hi, ?Hc; [constructor|constructor|done..].
  - unfold within_budget, chatContentBudgetEntries. cbn [issue chatSessionContent]. rewrite Hc. done.
  - rewrite landed_issue. unfold commit. rewrite Hw. split; cbn; [done|done|done|..]; intros k; [by cbn; rewrite Hi| |by intros []].
    unfold cached_turns. cbn. by rewrite Hc.
Qed.

(** When the storage is full the chats are dropped at once; if no write is overtaken the
    database is in step afterwards. *)
Lemma storage_pressure_healthy db c : healthy db (clearChatsForStoragePressure c).
Proof. by apply cleared_healthy. Qed.

Inductive chat_op :=
  | PatchSession (now : Z) (projectId : string) (session : value) (cursor : option num)
  | ReplaceSessions (now : Z) (projectId : string) (sessions : list (value * option num))
  | PatchContent (now : Z) (projectId sessionId : string) (turns : list RegistrySessionTurn)
  | DeleteSession (projectId sessionId : string)
  | ClearCache.

Definition perform (op : chat_op) (c : cache) : cache :=
  match op with
  | PatchSession now p session cursor => patchProjectChatSession now p session cursor c
  | ReplaceSessions now p sessions => replaceProjectChatSessions now p sessions c
  | PatchContent now p s turns => patchProjectChatSessionContent now p s turns c
  | DeleteSession p s => deleteProjectChatSession p s c
  | ClearCache => clearChatCache c
  end.

(** The sessions an operation stores are JSON objects. *)
Definition op_ok (op : chat_op) : Prop :=
  match op with
  | PatchSession _ _ session _ => json_data session = true
  | ReplaceSessions _ _ sessions => Forall (fun s => json_data s.1 = true) sessions
  | _ => True
  end.

Lemma perform_healthy db op c : op_ok op -> healthy db c -> healthy db (perform op c).
Proof.
  intros Hop Hc. destruct op; cbn [perform op_ok] in *.
  - unfold patchProjectChatSession. destruct (_ || _); [done|]. by apply saveSession_healthy.
  - by apply replaceProjectChatSessions_healthy.
  - by apply patchProjectChatSessionContent_healthy.
  - unfold deleteProjectChatSession. destruct (_ || _); [done|]. by apply forgetKey_healthy.
  - by apply cleared_healthy.
Qed.
(** ** Restoring *)

Lemma restore_base idx con db : keyed ir_k (db_index db) -> keyed cr_k (db_content db) ->
  idx ≡ₚ (map_to_list (db_index db)).*2 -> con ≡ₚ (map_to_list (db_content db)).*2 ->
  let c0 := foldl restoreContentRow (foldl restoreIndexRow empty_cache idx) con in
  NoDup (dkeys (chatSessionIndex c0)) /\ NoDup (dkeys (chatSessionContent c0)) /\ issued c0 = [] /\
  (forall k, dget (chatSessionIndex c0) k = restored_entry <$> db_index db !! k) /\
  (forall k, dget (chatSessionContent c0) k = restored_turns <$> db_content db !! k).
Proof.
  intros Hki Hkc Hi Hc. cbn zeta.
  assert (forall rows c, chatSessionIndex (foldl restoreIndexRow c rows) =
      foldl (fun d e => dset d e.1 e.2) (chatSessionIndex c) (map (fun row => (ir_k row, restored_entry row)) rows) /\
    chatSessionContent (foldl restoreIndexRow c rows) = chatSessionContent c /\ issued (foldl restoreIndexRow c rows) = issued c) as Hidx.
  { induction rows as [|row rows IH]; intros c; [done|]. apply IH. }
  assert (forall rows c, chatSessionContent (foldl restoreContentRow c rows) =
      foldl (fun d e => dset d e.1 e.2) (chatSessionContent c) (map (fun row => (cr_k row, restored_turns row)) rows) /\
    chatSessionIndex (foldl restoreContentRow c rows) = chatSessionIndex c /\ issued (foldl restoreContentRow c rows) = issued c) as Hcon.
  { induction rows as [|row rows IH]; intros c; [done|]. apply IH. }
  destruct (Hidx idx empty_cache) as (I1 & I2 & I3). destruct (Hcon con (foldl restoreIndexRow empty_cache idx)) as (C1 & C2 & C3).
  pose proof (rows_NoDup ir_k restored_entry _ _ Hki Hi) as N1. pose proof (rows_NoDup cr_k restored_turns _ _ Hkc Hc) as N2.
  rewrite C1, C2, C3, I1, I2, I3. cbn [empty_cache chatSessionIndex chatSessionContent issued].
  change (foldl (fun d e => dset d e.1 e.2) [] ?l) with (dict_of l). rewrite !dict_of_id by done.
  split_and!; [done..| |]; intros k; by apply rows_lookup.
Qed.

Definition reconciled (e : PersistedChatSessionEntry) (ts : list RegistrySessionTurn) : ReconciledCache :=
  reconcilePersistedChatSessionCache (ent_session e) (Some (of_Z (ent_cursor e))) ts.
Definition unchanged (e : PersistedChatSessionEntry) (ts : list RegistrySessionTurn) : bool :=
  (rec_cursor (reconciled e ts) =? ent_cursor e) && samePersistedTurns ts (rec_turns (reconciled e ts)).

Lemma reconcile_fold l c b : NoDup (dkeys l) ->
  let res := foldl reconcileEntry (c, b) l in
  (forall k, dget (chatSessionIndex res.1) k =
     match dget l k with
     | Some e => Some {| ent_session := ent_session e; ent_cursor := rec_cursor (reconciled e (cached_turns c k)) |}
     | None => dget (chatSessionIndex c) k end) /\
  (forall k, dget (chatSessionContent res.1) k =
     match dget l k with
     | Some e => Some (rec_turns (reconciled e (cached_turns c k)))
     | None => dget (chatSessionContent c) k end) /\
  issued res.1 = issued c /\
  (NoDup (dkeys (chatSessionIndex c)) -> NoDup (dkeys (chatSessionIndex res.1))) /\
  (NoDup (dkeys (chatSessionContent c)) -> NoDup (dkeys (chatSessionContent res.1))) /\
  res.2 = b || some (fun e => negb (unchanged e.2 (cached_turns c e.1))) l.
Proof.
  revert c b; induction l as [|[key e] l IH]; intros c b Hnd; [cbn; by rewrite orb_false_r|].
  apply NoDup_cons in Hnd as [Hkey Hnd]. cbn [foldl fst] in *.
  destruct (reconcileEntry (c, b) (key, e)) as [c' b'] eqn:E. unfold reconcileEntry in E. injection E as Ec Eb.
  change (reconcilePersistedChatSessionCache _ _ _) with (reconciled e (cached_turns c key)) in Ec, Eb.
  assert (forall k, k <> key -> cached_turns c' k = cached_turns c k) as Hct.
  { intros k Hne. subst c'. unfold cached_turns. cbn [chatSessionContent]. by rewrite dget_dset_ne by done. }
  destruct (IH c' b' Hnd) as (H1 & H2 & H3 & H4 & H5 & H6). cbn zeta. split_and!.
  - intros k. rewrite H1. cbn [dget]. goal_decide.
    + rewrite (proj2 (dget_None l k)) by done. cbn [chatSessionIndex]. apply dget_dset_eq.
    + rewrite Hct by done. destruct (dget l k); [done|]. cbn [chatSessionIndex]. by apply dget_dset_ne.
  - intros k. rewrite H2. cbn [dget]. goal_decide.
    + rewrite (proj2 (dget_None l k)) by done. cbn [chatSessionContent]. apply dget_dset_eq.
    + rewrite Hct by done. destruct (dget l k); [done|]. cbn [chatSessionContent]. by apply dget_dset_ne.
  - rewrite H3. by subst c'.
  - intros Hn. apply H4. subst c'. by apply dset_NoDup.
  - intros Hn. apply H5. subst c'. by apply dset_NoDup.
  - rewrite H6. subst b'. cbn [existsb fst snd]. rewrite <- orb_assoc. f_equal. f_equal.
    + unfold unchanged. by rewrite negb_andb.
    + clear -Hct Hkey. induction l as [|[k x] l IHl]; [done|]. cbn [existsb fst snd map] in *. apply not_elem_of_cons in Hkey as [Hk Hl].
      rewrite Hct by done. f_equal. by apply IHl.
Qed.
(** A database the program can start from: rows under their own keys, sessions that are
    JSON objects. *)
Record database_ok (db : database) : Prop := {
  do_index : keyed ir_k (db_index db);
  do_content : keyed cr_k (db_content db);
  do_sessions : forall k row, db_index db !! k = Some row -> json_data (ent_session (restored_entry row)) = true
}.

(** [idx] and [con] are the rows of the tables, in some order. *)
Definition rows_of (db : database) (idx : list RawChatSessionIndexRow) (con : list RawChatSessionContentRow) : Prop :=
  idx ≡ₚ (map_to_list (db_index db)).*2 /\ con ≡ₚ (map_to_list (db_content db)).*2.

Lemma rows_strings db idx con : rows_of db idx con -> hasIncompatibleChatContentRows con = false <->
  forall k row, db_content db !! k = Some row -> exists txt, cr_turnsJson row = Some txt.
Proof.
  intros [_ Hc]. unfold hasIncompatibleChatContentRows. rewrite some_false, Forall_forall. split.
  - intros H k row Hk. destruct (cr_turnsJson row) as [txt|] eqn:E; [by exists txt|]. exfalso.
    assert (row ∈ con) as Hin. { rewrite Hc. apply list_elem_of_fmap. exists (k, row). split; [done|]. by apply elem_of_map_to_list. }
    specialize (H row Hin). cbn in H. by rewrite E in H.
  - intros H row Hin. rewrite Hc in Hin. apply list_elem_of_fmap in Hin as ([k r] & -> & Hin%elem_of_map_to_list).
    destruct (H k r Hin) as [txt Ht]. cbn. by rewrite Ht.
Qed.

Lemma cached_of_dget c k ts : dget (chatSessionContent c) k = Some ts -> cached_turns c k = ts.
Proof. unfold cached_turns. by intros ->. Qed.

Lemma restored_ok db idx con : database_ok db -> rows_of db idx con ->
  let res := restoreChatSessions idx con in
  cache_ok res.1 /\ issued res.1 = [] /\
  (res.2 = false -> hasIncompatibleChatContentRows con = false -> synced db res.1).
Proof.
  intros [Dk Dc Dj] Hrows. pose proof Hrows as [Hi Hc].
  destruct (restore_base idx con db Dk Dc Hi Hc) as (N1 & N2 & Hiss & Hidx & Hcon). unfold restoreChatSessions.
  set (c0 := foldl restoreContentRow (foldl restoreIndexRow empty_cache idx) con) in *. cbn zeta.
  destruct (reconcile_fold (chatSessionIndex c0) c0 false N1) as (R1 & R2 & R3 & R4 & R5 & R6).
  set (res := foldl reconcileEntry (c0, false) (chatSessionIndex c0)) in *. split; [|split; [by rewrite R3|]].
  - split; [by apply R4|by apply R5|..].
    + intros k e. rewrite R1. destruct (dget (chatSessionIndex c0) k) as [e0|] eqn:E; [|done]. intros [= <-]. cbn [ent_session].
      rewrite Hidx in E. destruct (db_index db !! k) as [row|] eqn:Er; [|done]. injection E as <-. by eapply Dj.
    + intros k e. pose proof (R2 k) as Hk. rewrite R1. destruct (dget (chatSessionIndex c0) k) as [e0|] eqn:E; [|done].
      intros [= <-]. rewrite (cached_of_dget _ _ _ Hk). apply reconcile_prefix.
    + intros k ts. rewrite R2. destruct (dget (chatSessionIndex c0) k) as [e0|] eqn:E.
      * intros [= <-]. eapply contiguous_ok, reconcile_prefix.
      * rewrite Hcon. destruct (db_content db !! k); [|done]. intros [= <-]. apply sanitize_ok.
  - intros Hr Hinc. rewrite R6 in Hr. apply some_false in Hr. rewrite Forall_forall in Hr.
    assert (forall k e, dget (chatSessionIndex c0) k = Some e ->
      rec_cursor (reconciled e (cached_turns c0 k)) = ent_cursor e /\ rec_turns (reconciled e (cached_turns c0 k)) = cached_turns c0 k) as Hun.
    { intros k e He%dget_Some_in. specialize (Hr (k, e) He). cbn [fst snd] in Hr. apply negb_false_iff in Hr.
      apply andb_true_iff in Hr as [Hr1%Z.eqb_eq Hr2%samePersistedTurns_eq]. done. }
    split; [done|done|by apply (rows_strings db idx con)|..]; intros k.
    + rewrite R1. rewrite <- Hidx. destruct (dget (chatSessionIndex c0) k) as [e|] eqn:E; [|done]. destruct (Hun k e E) as [-> _]. by destruct e.
    + unfold cached_turns at 1. rewrite R2, <- Hcon. destruct (dget (chatSessionIndex c0) k) as [e|] eqn:E; [|done].
      destruct (Hun k e E) as [_ ->]. done.
    + intros Hk. rewrite R2. destruct (dget (chatSessionIndex c0) k); [by eexists|]. rewrite Hcon. by apply fmap_is_Some.
Qed.

Lemma persistRepaired_synced db now c : cache_ok c -> synced (landed db (persistRepairedChatCache now c)) (persistRepairedChatCache now c).
Proof.
  intros Hok. unfold persistRepairedChatCache. rewrite landed_issue. unfold commit. cbn [mutations_of foldl mutate db_index db_content delete_all].
  split; cbn [db_index db_content].
  - by apply put_all_keyed.
  - by apply put_all_keyed.
  - intros k row. rewrite (put_all_map cr_k (fun e => parsedContentRow now e.1 e.2)) by (apply Hok || done).
    destruct (dget (chatSessionContent c) k); [|done]. intros [= <-]. by eexists.
  - intros k. rewrite (put_all_map ir_k (fun e => parsedIndexRow now e.1 e.2)) by (apply Hok || done). cbn [issue chatSessionIndex].
    destruct (dget (chatSessionIndex c) k) as [e|] eqn:E; [|done]. cbn. f_equal. apply restored_indexRow; [by eapply ok_sessions|].
    by eapply prefix_cursor, ok_prefix.
  - intros k. rewrite (put_all_map cr_k (fun e => parsedContentRow now e.1 e.2)) by (apply Hok || done).
    change (cached_turns (issue _ c) k) with (default [] (dget (chatSessionContent c) k)).
    destruct (dget (chatSessionContent c) k) as [ts|] eqn:E; [|done]. cbn. apply restored_contentRow. by eapply ok_turns.
  - intros k. rewrite (put_all_map cr_k (fun e => parsedContentRow now e.1 e.2)) by (apply Hok || done). by rewrite fmap_is_Some.
Qed.

Lemma prune_healthy db now c : cache_ok c -> synced (landed db c) c -> healthy db (pruneChatAfterRestore now c).
Proof.
  intros Hok Hsy. unfold pruneChatAfterRestore.
  destruct (evict_all now c [] (db_index (landed db c)) Hok (sy_index _ _ Hsy)) as (keys & evicted & c' & -> & Hok' & Hb & Hi & Hcon & Hiss).
  set (ms := (match keys with [] => [] | _ => [MContent false keys []] end) ++ index_mutation evicted).
  assert (foldl mutate (landed db c) ms = {| db_index := put_all ir_k (db_index (landed db c)) evicted;
    db_content := delete_all (db_content (landed db c)) keys |}) as Hms.
  { unfold ms. rewrite foldl_app, commit_index. by destruct keys, (landed db c). }
  assert (synced (foldl mutate (landed db c) ms) c') as Hsy'.
  { rewrite Hms. split; cbn [db_index db_content].
    - by apply put_all_keyed, Hsy.
    - apply delete_all_keyed, Hsy.
    - intros k row. rewrite delete_all_lookup. case_bool_decide; [done|]. apply Hsy.
    - exact Hi.
    - intros k. rewrite delete_all_lookup. unfold cached_turns. rewrite Hcon, dget_without. case_bool_decide; [done|]. apply Hsy.
    - intros k. rewrite delete_all_lookup, Hcon, dget_without. case_bool_decide; [by intros []|]. apply Hsy. }
  assert (landed db c' = landed db c) as Hl by (by apply landed_eq).
  destruct ms as [|m ms'] eqn:E.
  - split; [done|]. split; [done|]. by rewrite Hl.
  - split; [by apply issue_ok|]. split; [exact Hb|]. rewrite landed_issue, Hl. unfold commit. cbn [mutations_of].
    by destruct Hsy'.
Qed.

Lemma initialize_healthy db now idx con : database_ok db -> rows_of db idx con -> healthy db (initializeChat now idx con).
Proof.
  intros Hdb Hrows. unfold initializeChat. destruct (hasIncompatibleChatContentRows con) eqn:Hinc; [by apply cleared_healthy|].
  pose proof (restored_ok db idx con Hdb Hrows) as (H1 & H2 & H3). destruct (restoreChatSessions idx con) as [c repaired].
  cbn [fst snd] in *. destruct repaired.
  - apply prune_healthy; [by apply issue_ok|by apply persistRepaired_synced].
  - apply prune_healthy; [done|]. unfold landed. rewrite H2. by apply H3.
Qed.
(** ** The life of the cache *)

(** From the database [db0]: the cache and the database it was last started from.
    Operations issue writes; a restart finds the rows they left. *)
Inductive reach (db0 : database) : database -> cache -> Prop :=
  | reach_start now idx con : rows_of db0 idx con -> reach db0 db0 (initializeChat now idx con)
  | reach_op db c op : reach db0 db c -> op_ok op -> reach db0 db (perform op c)
  | reach_restart db c now idx con : reach db0 db c -> rows_of (landed db c) idx con ->
      reach db0 (landed db c) (initializeChat now idx con).

Lemma healthy_database db c : healthy db c -> database_ok (landed db c).
Proof.
  intros (Hok & _ & Hsy). split; [apply Hsy..|]. intros k row Hk. pose proof (sy_index _ _ Hsy k) as Hi. rewrite Hk in Hi.
  by apply (ok_sessions c Hok k).
Qed.

Lemma reach_healthy db0 db c : database_ok db0 -> reach db0 db c -> healthy db c.
Proof.
  intros H0. induction 1 as [now idx con Hr|db c op _ IH Hop|db c now idx con _ IH Hr].
  - by apply initialize_healthy.
  - by apply perform_healthy.
  - apply initialize_healthy; [by apply healthy_database|done].
Qed.

(** C30. At every moment a session that is indexed has as its cached turns exactly the
    finished turns from the first up to its cursor, without a gap, and no further than
    the session's latest turn; and the cached contents are within their budget. *)
Theorem chat_cache_consistent db0 db c : database_ok db0 -> reach db0 db c ->
  (forall k e, dget (chatSessionIndex c) k = Some e ->
     contiguous 1 (cached_turns c k) = true /\ ent_cursor e = Z.of_nat (length (cached_turns c k)) /\
     within_latest (ent_session e) (ent_cursor e)) /\
  Z.of_nat (length (chatSessionContent c)) <= CHAT_CONTENT_CACHE_MAX_ENTRIES /\
  total_bytes (chatContentBudgetEntries c) <= CHAT_CONTENT_CACHE_MAX_BYTES.
Proof.
  intros H0 Hr. destruct (reach_healthy db0 db c H0 Hr) as (Hok & [Hb1 Hb2] & _). split; [apply Hok|].
  unfold chatContentBudgetEntries in Hb1. by rewrite length_map in Hb1.
Qed.

(** ** What a restart keeps *)

Lemma restored_times idx con db : keyed cr_k (db_content db) -> con ≡ₚ (map_to_list (db_content db)).*2 ->
  forall k, dget (chatSessionContentUpdatedAt (restoreChatSessions idx con).1) k = cr_updatedAt <$> db_content db !! k.
Proof.
  intros Hkc Hc k. unfold restoreChatSessions. set (c0 := foldl restoreIndexRow empty_cache idx).
  assert (forall l c b, chatSessionContentUpdatedAt (foldl reconcileEntry (c, b) l).1 = chatSessionContentUpdatedAt c) as ->.
  { induction l as [|[key e] l IH]; intros c b; [done|]. cbn [foldl]. destruct (reconcileEntry (c, b) (key, e)) as [c' b'] eqn:E.
    rewrite IH. unfold reconcileEntry in E. by injection E as <- _. }
  assert (chatSessionContentUpdatedAt c0 = []) as H0.
  { unfold c0. assert (forall rows c, chatSessionContentUpdatedAt (foldl restoreIndexRow c rows) = chatSessionContentUpdatedAt c) as ->; [|done].
    induction rows as [|row rows IH]; intros c; [done|]. cbn [foldl]. by rewrite IH. }
  assert (forall rows c, chatSessionContentUpdatedAt (foldl restoreContentRow c rows) =
    foldl (fun d e => dset d e.1 e.2) (chatSessionContentUpdatedAt c) (map (fun row => (cr_k row, cr_updatedAt row)) rows)) as ->.
  { induction rows as [|row rows IH]; intros c; [done|]. cbn [foldl map]. by rewrite IH. }
  rewrite H0. change (foldl (fun d e => dset d e.1 e.2) [] ?l) with (dict_of l).
  rewrite dict_of_id by (by eapply rows_NoDup). by apply rows_lookup.
Qed.

(** Reading back what a cache has written changes nothing: no row is unreadable, nothing
    is repaired, and every session has its entry and its turns again. *)
Lemma restored_same db c idx con : healthy db c -> rows_of (landed db c) idx con ->
  let r := restoreChatSessions idx con in
  hasIncompatibleChatContentRows con = false /\ r.2 = false /\
  (forall k, dget (chatSessionIndex r.1) k = dget (chatSessionIndex c) k /\ cached_turns r.1 k = cached_turns c k) /\
  (forall k, is_Some (dget (chatSessionIndex c) k) -> is_Some (dget (chatSessionContent r.1) k)) /\
  cache_ok r.1.
Proof.
  intros Hh Hrows. pose proof (healthy_database db c Hh) as Hdo. pose proof Hdo as [Dk Dc _].
  destruct Hh as (Hok & _ & Hsy). pose proof Hrows as [Hi Hc]. cbn zeta. split; [apply (rows_strings _ _ _ Hrows), Hsy|].
  pose proof (restored_ok _ idx con Hdo Hrows) as (Hrok & _ & _).
  destruct (restore_base idx con (landed db c) Dk Dc Hi Hc) as (N1 & N2 & _ & Hidx & Hcon). unfold restoreChatSessions in *.
  set (c0 := foldl restoreContentRow (foldl restoreIndexRow empty_cache idx) con) in *. cbn zeta.
  destruct (reconcile_fold (chatSessionIndex c0) c0 false N1) as (R1 & R2 & _ & _ & _ & R6).
  assert (forall k, cached_turns c0 k = cached_turns c k) as Hct.
  { intros k. rewrite <- (sy_content _ _ Hsy k), <- Hcon. done. }
  assert (forall k e, dget (chatSessionIndex c0) k = Some e ->
    reconciled e (cached_turns c0 k) = {| rec_cursor := ent_cursor e; rec_turns := cached_turns c k; rec_stale := false |}) as Hrec.
  { intros k e He. rewrite Hct. apply reconcile_id. apply (ok_prefix c Hok). by rewrite <- (sy_index _ _ Hsy k), <- Hidx. }
  split; [|split; [|split; [|exact Hrok]]].
  - rewrite R6. apply some_false, Forall_forall. intros [k e] Hin. cbn [fst snd]. apply negb_false_iff. unfold unchanged.
    rewrite (Hrec k e) by (by apply dget_in). cbn [rec_cursor rec_turns]. by rewrite Z.eqb_refl, Hct, samePersistedTurns_refl.
  - intros k. rewrite R1, <- (sy_index _ _ Hsy k), <- Hidx. unfold cached_turns at 2. rewrite R2.
    destruct (dget (chatSessionIndex c0) k) as [e|] eqn:E.
    + rewrite (Hrec k e E). cbn [rec_cursor rec_turns]. split; [by destruct e|done].
    + split; [done|]. rewrite <- Hct. done.
  - intros k [e He]. rewrite <- (sy_index _ _ Hsy k), <- Hidx in He. rewrite R2, He. by eexists.
Qed.

(** What is a part of what fits, fits. *)
Lemma total_sum l : total_bytes l = foldr Z.add 0 (map be_approximateBytes l).
Proof. induction l as [|x l IH]; [done|]. rewrite total_cons, IH. done. Qed.

Lemma fits_part limits l1 l2 : NoDup (map be_key l1) -> nonneg_bytes l2 ->
  (forall x, x ∈ l1 -> exists y, y ∈ l2 /\ be_key y = be_key x /\ be_approximateBytes y = be_approximateBytes x) ->
  fits limits l2 -> fits limits l1.
Proof.
  set (pair := fun e => (be_key e, be_approximateBytes e)). intros Hnd Hnn Hsub [F1 F2].
  assert (map pair l1 ⊆+ map pair l2) as [rest Hp]%submseteq_Permutation.
  { apply NoDup_submseteq.
    - apply (NoDup_fmap_1 fst). change (fst <$> map pair l1) with (map fst (map pair l1)). rewrite map_map. exact Hnd.
    - intros x (e & -> & He)%elem_of_map. destruct (Hsub e He) as (y & Hy & E1 & E2). apply elem_of_map. exists y.
      unfold pair. by rewrite E1, E2. }
  assert (map be_approximateBytes l2 ≡ₚ map be_approximateBytes l1 ++ map snd rest) as Hb.
  { pose proof (Permutation_map snd Hp) as H. rewrite map_app, !map_map in H. exact H. }
  assert (forall l, total_bytes l = foldr Z.add 0 (map be_approximateBytes l)) as Ht by apply total_sum. split.
  - apply Permutation_length in Hb. rewrite length_app, !length_map in Hb. lia.
  - rewrite Ht in F2 |- *. assert (foldr Z.add 0 (map be_approximateBytes l2) = foldr Z.add 0 (map be_approximateBytes l1 ++ map snd rest)) as E
      by (clear -Hb; induction Hb; cbn [foldr]; lia).
    rewrite E, foldr_app in F2. assert (0 <= foldr Z.add 0 (map snd rest)) as Hr.
    { assert (Forall (fun n => 0 <= n) (map snd rest)) as Hf.
      { apply (Forall_app (fun n => 0 <= n) (map be_approximateBytes l1)). rewrite <- Hb. by apply Forall_map. }
      clear -Hf. induction Hf as [|x l Hx _ IH]; cbn [foldr]; lia. }
    revert F2. generalize (foldr Z.add 0 (map snd rest)) as n, Hr. clear. intros n Hn. induction (map be_approximateBytes l1) as [|x l IH]; cbn [foldr]; [lia|].
    intros H. assert (foldr Z.add 0 l <= foldr Z.add n l) as ?; [|lia]. clear -Hn. induction l; cbn [foldr]; lia.
Qed.

(** Entries of which the fresh ones fit lose only those that are not fresh. *)
Lemma selected_expired entries limits : NoDup (map be_key entries) -> 0 <= lim_maxEntries limits -> 0 <= lim_maxBytes limits ->
  fits limits (bfilter (CacheEviction.fresh limits) entries) ->
  selectCacheEvictionKeys entries limits = map be_key (bfilter (fun e => negb (CacheEviction.fresh limits e)) entries).
Proof.
  intros Hnd H1 H2 Hf. destruct (selected entries limits Hnd H1 H2) as (expired & dropped & kept & _ & -> & -> & Hp & _ & _ & Hd).
  destruct dropped as [|x dropped]; [by rewrite app_nil_r|]. exfalso. apply (Hd [] x dropped eq_refl).
  change (x :: dropped ++ kept) with ((x :: dropped) ++ kept). by rewrite Hp.
Qed.

Lemma evict_index now keys c rows k :
  dget (chatSessionIndex (foldl (evictChatKey now) (c, rows) keys).1) k =
  if bool_decide (k ∈ keys) then reset_entry <$> dget (chatSessionIndex c) k else dget (chatSessionIndex c) k.
Proof.
  revert c rows; induction keys as [|key keys IH]; intros c rows; [done|]. cbn [foldl].
  destruct (evictChatKey now (c, rows) key) as [c' rows'] eqn:E. rewrite IH.
  assert (forall k, dget (chatSessionIndex c') k = if decide (key = k) then reset_entry <$> dget (chatSessionIndex c) k else dget (chatSessionIndex c) k) as ->.
  { intros k'. unfold evictChatKey in E. cbn [fst snd] in E. change (chatSessionIndex (drop_content key c)) with (chatSessionIndex c) in E.
    destruct (dget (chatSessionIndex c) key) as [e|] eqn:He; injection E as <- _; cbn [set_index drop_content chatSessionIndex];
      rewrite ?dget_dset; goal_decide; subst; by rewrite ?He. }
  destruct (decide (key = k)) as [->|Hne].
  - rewrite (bool_decide_true (k ∈ k :: keys)) by (by left). case_bool_decide; [|done]. by destruct (dget (chatSessionIndex c) k).
  - assert (bool_decide (k ∈ key :: keys) = bool_decide (k ∈ keys)) as -> by (apply bool_decide_ext; rewrite elem_of_cons; naive_solver). done.
Qed.

Lemma evict_content now keys c rows :
  chatSessionContent (foldl (evictChatKey now) (c, rows) keys).1 = foldl ddelete (chatSessionContent c) keys.
Proof.
  revert c rows; induction keys as [|key keys IH]; intros c rows; [done|]. cbn [foldl].
  destruct (evictChatKey now (c, rows) key) as [c' rows'] eqn:E. rewrite IH. f_equal.
  unfold evictChatKey in E. cbn [fst snd] in E. by destruct (dget _ _); injection E as <- _.
Qed.

(** The content of a session was cached within the last 30 days, as its row says. *)
Definition recent (db : database) (now : Z) (k : string) : bool :=
  match db_content db !! k with Some row => now - cr_updatedAt row <=? CACHE_MAX_AGE_MS | None => false end.

(** The contents that are evicted after a restart. *)
Lemma restart_evicts db c idx con now k : healthy db c -> rows_of (landed db c) idx con -> CACHE_MAX_AGE_MS < now ->
  let r := (restoreChatSessions idx con).1 in
  k ∈ evictionKeys now r <-> is_Some (dget (chatSessionContent r) k) /\ recent (landed db c) now k = false.
Proof.
  intros Hh Hrows Hnow. cbn zeta. pose proof (restored_same db c idx con Hh Hrows) as (_ & _ & Hsame & _ & Hrok).
  pose proof (healthy_database db c Hh) as [_ Dc _]. destruct Hh as (Hok & Hb & Hsy).
  pose proof (restored_times idx con (landed db c) Dc (proj2 Hrows)) as Ht. set (r := (restoreChatSessions idx con).1) in *.
  assert (NoDup (map be_key (chatContentBudgetEntries r))) as Hnd by (unfold chatContentBudgetEntries; rewrite map_map; apply Hrok).
  assert (forall e, e ∈ chatContentBudgetEntries r <-> exists ts, dget (chatSessionContent r) (be_key e) = Some ts /\
    be_updatedAt e = default 0 (cr_updatedAt <$> db_content (landed db c) !! be_key e) /\
    be_approximateBytes e = approximateTextBytes (serialize (turns_value ts))) as Hent.
  { intros [key at_ bytes]. unfold chatContentBudgetEntries. rewrite elem_of_map. cbn [be_key be_updatedAt be_approximateBytes]. split.
    - intros ([k' ts] & [= -> -> ->] & Hin). exists ts. cbn [fst snd]. rewrite Ht. split; [|done]. apply dget_in; [apply Hrok|done].
    - intros (ts & Hk & -> & ->). exists (key, ts). cbn [fst snd]. rewrite Ht. split; [done|]. by apply dget_Some_in. }
  assert (forall e, e ∈ chatContentBudgetEntries r -> CacheEviction.fresh (chat_limits now) e = recent (landed db c) now (be_key e)) as Hfresh.
  { intros e (ts & _ & Hat & _)%Hent. unfold CacheEviction.fresh, recent. cbn [chat_limits lim_maxAgeMs lim_now]. rewrite Hat.
    destruct (db_content (landed db c) !! be_key e); cbn [fmap option_fmap option_map default]; [|lia]. unfold id. lia. }
  unfold evictionKeys. fold (chat_limits now). rewrite selected_expired; [|done..|].
  - rewrite elem_of_map. split.
    + intros (e & -> & [He Hf]%elem_of_bfilter). rewrite Hfresh, negb_true_iff in Hf by done. split; [|done].
      apply Hent in He as (ts & -> & _). by eexists.
    + intros [[ts Hk] Hf].
      set (e := {| be_key := k; be_updatedAt := default 0 (cr_updatedAt <$> db_content (landed db c) !! k);
                   be_approximateBytes := approximateTextBytes (serialize (turns_value ts)) |}).
      assert (e ∈ chatContentBudgetEntries r) as He by (apply Hent; by exists ts).
      exists e. split; [done|]. apply elem_of_bfilter. rewrite Hfresh, negb_true_iff by done. done.
  - apply (fits_part _ _ (chatContentBudgetEntries c)); [by apply NoDup_map_bfilter| | |exact Hb].
    + apply Forall_forall. intros e (x & -> & _)%elem_of_map. cbn. unfold approximateTextBytes. lia.
    + intros e [He Hf]%elem_of_bfilter. rewrite Hfresh in Hf by done. apply Hent in He as (ts & Hk & _ & Hbytes).
      unfold recent in Hf. destruct (db_content (landed db c) !! be_key e) as [row|] eqn:Er; [|done].
      destruct (sy_cached _ _ Hsy (be_key e)) as [ts' Hts']; [by rewrite Er|].
      destruct (Hsame (be_key e)) as [_ Hturns]. rewrite (cached_of_dget _ _ _ Hk), (cached_of_dget _ _ _ Hts') in Hturns. subst ts'.
      eexists. split; [unfold chatContentBudgetEntries; apply elem_of_map; exists (be_key e, ts); split; [done|by apply dget_Some_in]|].
      by rewrite Hbytes.
Qed.

(** The row of a content carries the time at which it was cached. *)
Lemma content_row_time db now p s turns c row : nonempty p = true -> nonempty s = true ->
  db_content (landed db (patchProjectChatSessionContent now p s turns c)) !! chatSessionKey p s = Some row -> cr_updatedAt row = now.
Proof.
  intros Hp Hs. assert (forall key payload irows c, key = chatSessionKey p s ->
    db_content (landed db (enqueueBoundedChatContentWrite key p s payload now irows c)) !! key = Some row -> cr_updatedAt row = now) as H.
  { intros key payload irows c1 Hkey. unfold enqueueBoundedChatContentWrite, evictChatContentEntries.
    set (keys := evictionKeys _ _). destruct (foldl _ _ _) as [c' rows] eqn:E.
    assert (chatSessionContent c' = foldl ddelete (chatSessionContent (set_content key payload now c1)) keys) as Hcon.
    { rewrite <- (evict_content now keys _ []). by rewrite E. }
    rewrite landed_issue. unfold commit. cbn [mutations_of foldl]. rewrite commit_index. cbn [mutate db_content].
    rewrite Hcon, ddelete_keys, dget_without. cbn [set_content chatSessionContent]. rewrite dget_dset_eq.
    case_bool_decide; cbn [put_all foldl].
    - rewrite delete_all_lookup, bool_decide_true by done. done.
    - change (cr_k (contentRow key p s payload now)) with key. rewrite lookup_insert_eq. by intros [= <-]. }
  unfold patchProjectChatSessionContent. rewrite Hp, Hs. cbn [negb orb].
  destruct (dget _ _) as [e|]; [destruct (negb _)|]; by apply H.
Qed.

(** C31. What a restart keeps of the chat cache.  When the writes have landed in the order
    they were made, every row is readable and nothing has to be repaired; and the start at
    [now] (later than 30 days after the epoch) leaves exactly the contents of the last 30
    days, by the time in their rows: a session whose content is one of them has the entry
    and the turns it had, and any other session has its entry with the cursor back at the
    start, and no turns.  Caching a content at a time leaves that time in its row.  (The
    operations are those of [chat_op]; the clearing of all caches when the storage is full
    is not one of them.) *)
Theorem chat_cache_restart db0 db c idx con now : database_ok db0 -> reach db0 db c -> rows_of (landed db c) idx con ->
  CACHE_MAX_AGE_MS < now ->
  let next := initializeChat now idx con in
  hasIncompatibleChatContentRows con = false /\ (restoreChatSessions idx con).2 = false /\
  (forall k, if recent (landed db c) now k
     then dget (chatSessionIndex next) k = dget (chatSessionIndex c) k /\ cached_turns next k = cached_turns c k
     else dget (chatSessionIndex next) k = reset_entry <$> dget (chatSessionIndex c) k /\ cached_turns next k = []) /\
  (forall t p s turns row, nonempty p = true -> nonempty s = true ->
     db_content (landed db (perform (PatchContent t p s turns) c)) !! chatSessionKey p s = Some row -> cr_updatedAt row = t).
Proof.
  intros H0 Hr Hrows Hnow next. pose proof (reach_healthy db0 db c H0 Hr) as Hh.
  pose proof (restored_same db c idx con Hh Hrows) as (Hinc & Hrep & Hsame & Hin & Hrok). split; [done|]. split; [done|].
  split; [|intros t p s turns row; apply content_row_time].
  intros k. pose proof (restart_evicts db c idx con now k Hh Hrows Hnow) as Hev.
  set (r := (restoreChatSessions idx con).1) in *. cbn zeta in Hev.
  assert (chatSessionIndex next = chatSessionIndex (foldl (evictChatKey now) (r, []) (evictionKeys now r)).1 /\
    chatSessionContent next = chatSessionContent (foldl (evictChatKey now) (r, []) (evictionKeys now r)).1) as [Hi Hc].
  { unfold next, initializeChat. rewrite Hinc. unfold r. destruct (restoreChatSessions idx con) as [r' repaired]. cbn [fst snd] in *. subst repaired.
    unfold pruneChatAfterRestore, evictChatContentEntries. destruct (foldl (evictChatKey now) (r', []) _) as [c' rows].
    by destruct (evictionKeys now r'), rows. }
  assert (cached_turns next k = if bool_decide (k ∈ evictionKeys now r) then [] else cached_turns r k) as ->.
  { unfold cached_turns. rewrite Hc, evict_content, ddelete_keys, dget_without. by case_bool_decide. }
  destruct (Hsame k) as [Hs1 Hs2]. rewrite Hi, evict_index. destruct (recent (landed db c) now k) eqn:Erec.
  - rewrite bool_decide_false by (intros [_ ?]%Hev; congruence). done.
  - rewrite <- Hs1. case_bool_decide as Hk; [done|].
    assert (dget (chatSessionContent r) k = None) as E by (apply eq_None_not_Some; intros Hs; by apply Hk, Hev).
    split; [|unfold cached_turns; by rewrite E]. destruct (dget (chatSessionIndex r) k) eqn:Ei; [|done].
    destruct (Hin k) as [? Hsome]; [by rewrite <- Hs1|congruence].
Qed.
End sync.

(** * Examples *)

Definition sample_turn (i : Z) (finished : bool) : RegistrySessionTurn :=
  {| turn_turnIndex := i; turn_content := "{}"; turn_finished := finished |}.
Definition sample_session : value :=
  VObj [("sessionId", VStr "s1"); ("title", VStr "T"); ("latestTurnIndex", VNum (of_Z 3))]%string.
Definition sample_key : string := chatSessionKey "hub:p" "s1".

(** A session is cached, then the turns 1, 2 and 4, of which the last waits for 3. *)
Definition sample_cache : cache :=
  perform (J:=js_JSON) (C:=code_collation) (PatchContent 20 "hub:p" "s1" [sample_turn 1 true; sample_turn 2 true; sample_turn 4 true])
    (perform (J:=js_JSON) (C:=code_collation) (PatchSession 10 "hub:p" sample_session (Some (of_Z 0)))
      (initializeChat (H:=js_JSON) (H0:=code_collation) 0 [] [])).

Lemma sample_reach : reach (J:=js_JSON) (C:=code_collation) empty_database empty_database sample_cache.
Proof.
  apply (reach_op _ _ _ (PatchContent _ _ _ _)); [|done].
  apply (reach_op _ _ _ (PatchSession _ _ _ _)); [|vm_compute; done]. by apply reach_start.
Qed.

Lemma empty_database_ok : database_ok (J:=js_JSON) empty_database.
Proof. by split. Qed.

Lemma chat_cache_consistent_witness : Z.of_nat (length (chatSessionContent sample_cache)) <= CHAT_CONTENT_CACHE_MAX_ENTRIES.
Proof.
  apply (chat_cache_consistent (J:=js_JSON) (C:=code_collation) empty_database empty_database sample_cache);
    [exact empty_database_ok|exact sample_reach].
Defined.

(** Two restarts of it: within 30 days the turns are there again, and later they are not. *)
Definition sample_restart (now : Z) : cache :=
  let db := landed empty_database sample_cache in
  initializeChat (H:=js_JSON) (H0:=code_collation) now (map_to_list (db_index db)).*2 (map_to_list (db_content db)).*2.

Lemma chat_cache_restart_witness :
  let day := 24 * 60 * 60 * 1000 in
  recent (landed empty_database sample_cache) (30 * day + 1) sample_key = true /\
  cached_turns (sample_restart (30 * day + 1)) sample_key = [sample_turn 1 true; sample_turn 2 true] /\
  recent (landed empty_database sample_cache) (31 * day) sample_key = false /\
  cached_turns (sample_restart (31 * day)) sample_key = [].
Proof.
  cbn zeta. pose proof (fun now H => chat_cache_restart (J:=js_JSON) (C:=code_collation) empty_database empty_database sample_cache
    (map_to_list (db_index (landed empty_database sample_cache))).*2 (map_to_list (db_content (landed empty_database sample_cache))).*2
    now empty_database_ok sample_reach (conj (reflexivity _) (reflexivity _)) H) as Hrestart.
  assert (recent (landed empty_database sample_cache) (30 * (24 * 60 * 60 * 1000) + 1) sample_key = true) as E1 by (vm_compute; reflexivity).
  assert (recent (landed empty_database sample_cache) (31 * (24 * 60 * 60 * 1000)) sample_key = false) as E2 by (vm_compute; reflexivity).
  split; [exact E1|]. split; [|split; [exact E2|]].
  - destruct (Hrestart (30 * (24 * 60 * 60 * 1000) + 1)) as (_ & _ & H & _); [done|]. specialize (H sample_key). rewrite E1 in H.
    destruct H as [_ H]. etrans; [exact H|]. vm_compute. reflexivity.
  - destruct (Hrestart (31 * (24 * 60 * 60 * 1000))) as (_ & _ & H & _); [done|]. specialize (H sample_key). rewrite E2 in H. apply H.
Defined.

(** The writes of a deletion do not wait for the queue.  The content cached just before
    may land after them, and the session that was deleted is back at the next start. *)
Lemma deleted_session_returns :
  let c := perform (J:=js_JSON) (C:=code_collation) (DeleteSession "hub:p" "s1") sample_cache in
  dget (chatSessionIndex c) sample_key = None /\
  exists order, lands (issued c) order /\
    is_Some (db_index (foldl commit empty_database order) !! sample_key).
Proof.
  cbn zeta. split; [vm_compute; reflexivity|].
  set (c := perform _ sample_cache).
  exists (map Direct (direct_of (issued c)) ++ map Queued (queued_of (issued c))). split.
  - split; [vm_compute; reflexivity|]. split; [vm_compute; reflexivity|].
    eexists. split; [vm_compute; reflexivity|vm_compute; reflexivity].
  - vm_compute. by eexists.
Qed.

(** The prefix of a project's keys is also one of the keys of a project whose id extends
    it by a colon: replacing the sessions of the first deletes those of the second. *)
Lemma replace_deletes_other_project :
  let c := perform (J:=js_JSON) (C:=code_collation) (PatchSession 30 "hub:p:q" sample_session (Some (of_Z 0))) sample_cache in
  let c' := perform (J:=js_JSON) (C:=code_collation) (ReplaceSessions 40 "hub:p" []) c in
  is_Some (dget (chatSessionIndex c) (chatSessionKey "hub:p:q" "s1")) /\
  dget (chatSessionIndex c') (chatSessionKey "hub:p:q" "s1") = None.
Proof. split; vm_compute; [by eexists|reflexivity]. Qed.
