(* ===== verification/WorkspaceSettings.v ===== *)
(** The settings and project states of [workspace/WorkspacePersistence.ts]: their shape,
    how arbitrary stored data is made to fit it, and the rows they are kept in.

    A literal union of the source is the string it is; [settings_ok] says which strings. *)

From S2P Require Import Prelude Json JsonRoundTrip HubPreferences WorkspaceUi PreviewWorkbench PortRelayTargets.
Open Scope Z_scope.

(** * Options of the settings *)

Definition CODE_THEME_IDS : list string :=
  ["auto-plus"; "dark-plus"; "light-plus"; "material-theme-darker"; "material-theme-lighter"; "tokyo-night"; "monokai"]%string.
Definition CODE_FONT_IDS : list string := ["consolas"; "jetbrains-mono"; "cascadia"; "menlo"]%string.
Definition CHAT_FONT_IDS : list string := ["microsoft-yahei"; "system"; "ibm-plex"; "serif"]%string.
Definition CHAT_VIEW_WIDTH_IDS : list string := ["full"; "fixed-800"]%string.
Definition SESSION_LIST_DENSITY_IDS : list string := ["relaxed"; "compact"]%string.
Definition MOBILE_ENTER_KEY_IDS : list string := ["send"; "newline"]%string.
Definition LOG_LEVELS : list string := ["debug"; "info"; "warning"; "error"]%string.

Definition isCodeThemeId (s : string) : bool := bool_decide (s ∈ CODE_THEME_IDS).
Definition isCodeFontId (s : string) : bool := bool_decide (s ∈ CODE_FONT_IDS).
Definition isChatFontId (s : string) : bool := bool_decide (s ∈ CHAT_FONT_IDS).

(** [typeof v === 'string' && is(v) ? v : fallback]. *)
Definition option_of (ok : string -> bool) (v : value) (fallback : string) : string :=
  match v with VStr s => if ok s then s else fallback | _ => fallback end.

Definition isChatViewWidth (s : string) : bool := bool_decide (s ∈ CHAT_VIEW_WIDTH_IDS).
Definition normalizeChatViewWidth (v : value) (fallback : string) : string :=
  match v with
  | VStr s => if String.eqb s "fixed-560" then "fixed-800" else option_of isChatViewWidth v fallback
  | _ => fallback
  end.
Definition isSessionListDensity (s : string) : bool := bool_decide (s ∈ SESSION_LIST_DENSITY_IDS).
Definition normalizeSessionListDensity (v : value) (fallback : string) : string := option_of isSessionListDensity v fallback.
Definition isMobileEnterKeyBehavior (s : string) : bool := bool_decide (s ∈ MOBILE_ENTER_KEY_IDS).
Definition normalizeMobileEnterKeyBehavior (v : value) (fallback : string) : string := option_of isMobileEnterKeyBehavior v fallback.

Definition normalizePersistedLogLevel (v : value) (fallback : string) : string :=
  match v with
  | VStr s => if bool_decide (s ∈ LOG_LEVELS) then s else if String.eqb s "warn" then "warning" else fallback
  | _ => fallback
  end.

(** * The settings *)

Record PersistedGlobalState := {
  g_themeMode : string; g_codeTheme : string; g_codeFont : string; g_codeFontSize : Q; g_codeLineHeight : Q; g_codeTabSize : Q;
  g_chatFont : string; g_chatViewWidth : string; g_sessionListDensity : string; g_mobileEnterKeyBehavior : string;
  g_wrapLines : bool; g_showLineNumbers : bool; g_hideToolCalls : bool; g_messageViewerEnabled : bool; g_logLevel : string;
  g_disableFileCache : bool; g_promptCompletionNotificationsEnabled : bool; g_tab : string; g_selectedProjectId : string;
  g_selectedChatProjectId : string; g_selectedChatSessionId : string; g_floatingControlYRatio : Q; g_floatingControlSide : string;
  g_desktopSidebarWidth : Z; g_collapsedProjectIds : list string; g_desktopCollapsedProjectIds : list string;
  g_pinnedProjectIds : list string; g_hubColors : list (string * string); g_hiddenProjectIds : list string;
  g_expandedHubIds : list string; g_portRelayTargets : list PortRelayTarget; g_selectedPortRelayTarget : option PortRelayTarget;
  g_portRelayListenPort : Z; g_previewWorkbenchSnapshot : option value
}.

Definition DEFAULT_CODE_FONT_SIZE : Q := 13.
Definition DEFAULT_CODE_LINE_HEIGHT : Q := 15 # 10.
Definition DEFAULT_CODE_TAB_SIZE : Q := 2.

Definition defaultGlobalState : PersistedGlobalState := {|
  g_themeMode := "dark"; g_codeTheme := "auto-plus"; g_codeFont := "consolas"; g_codeFontSize := DEFAULT_CODE_FONT_SIZE;
  g_codeLineHeight := DEFAULT_CODE_LINE_HEIGHT; g_codeTabSize := DEFAULT_CODE_TAB_SIZE; g_chatFont := "microsoft-yahei";
  g_chatViewWidth := "fixed-800"; g_sessionListDensity := "relaxed"; g_mobileEnterKeyBehavior := "send"; g_wrapLines := false;
  g_showLineNumbers := true; g_hideToolCalls := true; g_messageViewerEnabled := false; g_logLevel := "warning";
  g_disableFileCache := false; g_promptCompletionNotificationsEnabled := true; g_tab := "chat"; g_selectedProjectId := "";
  g_selectedChatProjectId := ""; g_selectedChatSessionId := ""; g_floatingControlYRatio := FLOATING_CONTROL_DEFAULT_Y_RATIO;
  g_floatingControlSide := "right"; g_desktopSidebarWidth := 380; g_collapsedProjectIds := []; g_desktopCollapsedProjectIds := [];
  g_pinnedProjectIds := []; g_hubColors := []; g_hiddenProjectIds := []; g_expandedHubIds := []; g_portRelayTargets := [];
  g_selectedPortRelayTarget := None; g_portRelayListenPort := 28810; g_previewWorkbenchSnapshot := None |}.

(** The fallbacks of the lists are empty. *)
Definition sanitizeStringList (v : value) : list string := HubPreferences.sanitizeStringList v.

Definition sanitizePreviewWorkbenchSnapshot (input : value) : option value :=
  match prop (properties input) "version" with
  | VNum (Fin q) => if Qeq_bool q (inject_Z PREVIEW_WORKBENCH_SNAPSHOT_VERSION) then Some input else None
  | _ => None
  end.

(** [typeof v === ... ? v : fallback]. *)
Definition bool_or (v : value) (fallback : bool) : bool := match v with VBool b => b | _ => fallback end.
Definition number_or (v : value) (fallback : Q) : Q := match v with VNum (Fin q) => q | _ => fallback end.
Definition text_or (v : value) (fallback : string) : string := match v with VStr s => s | _ => fallback end.
Definition is_array (v : value) : bool := match v with VArr _ => true | _ => false end.
Definition is_text (v : value) (s : string) : bool := match v with VStr t => String.eqb t s | _ => false end.

Definition sanitizeSidebarWidth (v : value) (fallback : Z) : Z :=
  Z.min 560 (Z.max 320 (round (number_or v (inject_Z fallback)))).

Definition sanitizeFloatingControlSide (v : value) (fallback : string) : string :=
  if is_text v "left" || is_text v "right" then text_or v fallback else fallback.

(** [sanitizeGlobalState], of the properties [look] reads. *)
Definition sanitize_settings (look : string -> value) : PersistedGlobalState :=
  let base := defaultGlobalState in
  let collapsedProjectIds :=
    if is_array (look "collapsedProjectIds") then sanitizeStringList (look "collapsedProjectIds")
    else if is_array (look "desktopCollapsedProjectIds") then sanitizeStringList (look "desktopCollapsedProjectIds")
    else g_collapsedProjectIds base in
  let legacy := floatingControlYRatioFromLegacySlot (look "floatingControlSlot") in {|
  g_themeMode := if is_text (look "themeMode") "light" then "light" else "dark";
  g_codeTheme := option_of isCodeThemeId (look "codeTheme") (g_codeTheme base);
  g_codeFont := option_of isCodeFontId (look "codeFont") (g_codeFont base);
  g_codeFontSize := number_or (look "codeFontSize") (g_codeFontSize base);
  g_codeLineHeight := number_or (look "codeLineHeight") (g_codeLineHeight base);
  g_codeTabSize := number_or (look "codeTabSize") (g_codeTabSize base);
  g_chatFont := option_of isChatFontId (look "chatFont") (g_chatFont base);
  g_chatViewWidth := normalizeChatViewWidth (look "chatViewWidth") (g_chatViewWidth base);
  g_sessionListDensity := normalizeSessionListDensity (look "sessionListDensity") (g_sessionListDensity base);
  g_mobileEnterKeyBehavior := normalizeMobileEnterKeyBehavior (look "mobileEnterKeyBehavior") (g_mobileEnterKeyBehavior base);
  g_wrapLines := bool_or (look "wrapLines") (g_wrapLines base);
  g_showLineNumbers := bool_or (look "showLineNumbers") (g_showLineNumbers base);
  g_hideToolCalls := bool_or (look "hideToolCalls") (g_hideToolCalls base);
  g_messageViewerEnabled := bool_or (look "messageViewerEnabled") (g_messageViewerEnabled base);
  g_logLevel := normalizePersistedLogLevel (look "logLevel") (g_logLevel base);
  g_disableFileCache := bool_or (look "disableFileCache") (g_disableFileCache base);
  g_promptCompletionNotificationsEnabled :=
    bool_or (look "promptCompletionNotificationsEnabled") (g_promptCompletionNotificationsEnabled base);
  g_tab := if is_text (look "tab") "file" || is_text (look "tab") "git" then text_or (look "tab") "chat" else "chat";
  g_selectedProjectId := text_or (look "selectedProjectId") (g_selectedProjectId base);
  g_selectedChatProjectId := text_or (look "selectedChatProjectId") (g_selectedChatProjectId base);
  g_selectedChatSessionId := text_or (look "selectedChatSessionId") (g_selectedChatSessionId base);
  g_floatingControlYRatio :=
    sanitizeFloatingControlYRatio (look "floatingControlYRatio") (default (g_floatingControlYRatio base) legacy);
  g_floatingControlSide := sanitizeFloatingControlSide (look "floatingControlSide") (g_floatingControlSide base);
  g_desktopSidebarWidth := sanitizeSidebarWidth (look "desktopSidebarWidth") (g_desktopSidebarWidth base);
  g_collapsedProjectIds := collapsedProjectIds;
  g_desktopCollapsedProjectIds := collapsedProjectIds;
  g_pinnedProjectIds := sanitizeStringList (look "pinnedProjectIds");
  g_hubColors := sanitizeHubColorMap (look "hubColors");
  g_hiddenProjectIds := sanitizeStringList (look "hiddenProjectIds");
  g_expandedHubIds := sanitizeStringList (look "expandedHubIds");
  g_portRelayTargets := normalizePortRelayTargets (look "portRelayTargets");
  g_selectedPortRelayTarget := normalizePortRelayTarget (look "selectedPortRelayTarget");
  g_portRelayListenPort := normalizePortRelayListenPort (look "portRelayListenPort") (g_portRelayListenPort base);
  g_previewWorkbenchSnapshot := sanitizePreviewWorkbenchSnapshot (look "previewWorkbenchSnapshot") |}.

Definition sanitizeGlobalState (input : option (list (string * value))) : PersistedGlobalState :=
  match input with None => defaultGlobalState | Some props => sanitize_settings (prop props) end.

(** The settings as the object they are. *)
Definition strings (l : list string) : value := VArr (map VStr l).
Definition qnum (q : Q) : value := VNum (Fin q).
Definition settings_object (g : PersistedGlobalState) : list (string * value) := [
  ("themeMode", VStr (g_themeMode g)); ("codeTheme", VStr (g_codeTheme g)); ("codeFont", VStr (g_codeFont g));
  ("codeFontSize", qnum (g_codeFontSize g)); ("codeLineHeight", qnum (g_codeLineHeight g)); ("codeTabSize", qnum (g_codeTabSize g));
  ("chatFont", VStr (g_chatFont g)); ("chatViewWidth", VStr (g_chatViewWidth g)); ("sessionListDensity", VStr (g_sessionListDensity g));
  ("mobileEnterKeyBehavior", VStr (g_mobileEnterKeyBehavior g)); ("wrapLines", VBool (g_wrapLines g));
  ("showLineNumbers", VBool (g_showLineNumbers g)); ("hideToolCalls", VBool (g_hideToolCalls g));
  ("messageViewerEnabled", VBool (g_messageViewerEnabled g)); ("logLevel", VStr (g_logLevel g));
  ("disableFileCache", VBool (g_disableFileCache g));
  ("promptCompletionNotificationsEnabled", VBool (g_promptCompletionNotificationsEnabled g)); ("tab", VStr (g_tab g));
  ("selectedProjectId", VStr (g_selectedProjectId g)); ("selectedChatProjectId", VStr (g_selectedChatProjectId g));
  ("selectedChatSessionId", VStr (g_selectedChatSessionId g)); ("floatingControlYRatio", qnum (g_floatingControlYRatio g));
  ("floatingControlSide", VStr (g_floatingControlSide g)); ("desktopSidebarWidth", VNum (of_Z (g_desktopSidebarWidth g)));
  ("collapsedProjectIds", strings (g_collapsedProjectIds g)); ("desktopCollapsedProjectIds", strings (g_desktopCollapsedProjectIds g));
  ("pinnedProjectIds", strings (g_pinnedProjectIds g)); ("hubColors", color_object (g_hubColors g));
  ("hiddenProjectIds", strings (g_hiddenProjectIds g)); ("expandedHubIds", strings (g_expandedHubIds g));
  ("portRelayTargets", target_objects (g_portRelayTargets g));
  ("selectedPortRelayTarget", match g_selectedPortRelayTarget g with Some t => target_object t | None => VNull end);
  ("portRelayListenPort", VNum (of_Z (g_portRelayListenPort g)));
  ("previewWorkbenchSnapshot", default VNull (g_previewWorkbenchSnapshot g))]%string.

(** The keys of [GLOBAL_KEYS]: those of the settings and the one of the slot that
    preceded [floatingControlYRatio]. *)
Definition settings_keys : list string := Eval cbv in map fst (settings_object defaultGlobalState).
Definition GLOBAL_KEYS : list string := "floatingControlSlot"%string :: settings_keys.

(** [{...a, ...b}]. *)
Definition spread (a b : list (string * value)) : list (string * value) := foldl (fun d e => dset d e.1 e.2) a b.

(** * Project states *)

(** The directories are kept as they come: only the array is checked. *)
Record PersistedProjectState := {
  p_expandedDirs : list value; p_selectedFile : string; p_pinnedFiles : list string; p_gitCurrentBranch : string;
  p_selectedCommit : string; p_selectedDiff : string; p_selectedChatSessionId : string
}.

Definition defaultProjectState : PersistedProjectState := {|
  p_expandedDirs := [VStr "."]; p_selectedFile := ""; p_pinnedFiles := []; p_gitCurrentBranch := ""; p_selectedCommit := "";
  p_selectedDiff := ""; p_selectedChatSessionId := "" |}.

Definition sanitize_project (look : string -> value) : PersistedProjectState :=
  let base := defaultProjectState in {|
  p_expandedDirs := match look "expandedDirs"%string with VArr (x :: l) => x :: l | _ => p_expandedDirs base end;
  p_selectedFile := text_or (look "selectedFile") (p_selectedFile base);
  p_pinnedFiles := match look "pinnedFiles"%string with
                   | VArr l => omap (fun v => match v with VStr s => Some s | _ => None end) l | _ => p_pinnedFiles base end;
  p_gitCurrentBranch := text_or (look "gitCurrentBranch") (p_gitCurrentBranch base);
  p_selectedCommit := text_or (look "selectedCommit") (p_selectedCommit base);
  p_selectedDiff := text_or (look "selectedDiff") (p_selectedDiff base);
  p_selectedChatSessionId := text_or (look "selectedChatSessionId") (p_selectedChatSessionId base) |}.

(** [if (!input) return base], and a property read of what is no object is [undefined]. *)
Definition sanitizeProjectState (input : value) : PersistedProjectState :=
  if truthy input then sanitize_project (prop (properties input)) else defaultProjectState.

Definition project_object (p : PersistedProjectState) : list (string * value) := [
  ("expandedDirs", VArr (p_expandedDirs p)); ("selectedFile", VStr (p_selectedFile p)); ("pinnedFiles", strings (p_pinnedFiles p));
  ("gitCurrentBranch", VStr (p_gitCurrentBranch p)); ("selectedCommit", VStr (p_selectedCommit p));
  ("selectedDiff", VStr (p_selectedDiff p)); ("selectedChatSessionId", VStr (p_selectedChatSessionId p))]%string.

(** * What is accepted is well formed, and accepting it again changes nothing *)

Record settings_ok (g : PersistedGlobalState) : Prop := {
  ok_theme : g_themeMode g ∈ ["dark"; "light"]%string;
  ok_codeTheme : g_codeTheme g ∈ CODE_THEME_IDS;
  ok_codeFont : g_codeFont g ∈ CODE_FONT_IDS;
  ok_chatFont : g_chatFont g ∈ CHAT_FONT_IDS;
  ok_width : g_chatViewWidth g ∈ CHAT_VIEW_WIDTH_IDS;
  ok_density : g_sessionListDensity g ∈ SESSION_LIST_DENSITY_IDS;
  ok_enter : g_mobileEnterKeyBehavior g ∈ MOBILE_ENTER_KEY_IDS;
  ok_level : g_logLevel g ∈ LOG_LEVELS;
  ok_tab : g_tab g ∈ ["chat"; "file"; "git"]%string;
  ok_side : g_floatingControlSide g ∈ ["left"; "right"]%string;
  ok_ratio : (0 <= g_floatingControlYRatio g <= 1)%Q;
  ok_sidebar : 320 <= g_desktopSidebarWidth g <= 560;
  ok_lists : Forall ids_wf [g_collapsedProjectIds g; g_pinnedProjectIds g; g_hiddenProjectIds g; g_expandedHubIds g];
  ok_collapsed : g_desktopCollapsedProjectIds g = g_collapsedProjectIds g;
  ok_colors : colors_wf (g_hubColors g);
  ok_targets : targets_ok (g_portRelayTargets g);
  ok_selected : forall t, g_selectedPortRelayTarget g = Some t -> valid_target t;
  ok_port : 1 <= g_portRelayListenPort g <= 65535
}.

Section options.
Context (ids : list string) (fb : string) (Hfb : fb ∈ ids).

Lemma option_ok v : option_of (fun s => bool_decide (s ∈ ids)) v fb ∈ ids.
Proof using Hfb. unfold option_of. destruct v; try done. by case_bool_decide. Qed.

Lemma option_fixed v : v ∈ ids -> option_of (fun s => bool_decide (s ∈ ids)) (VStr v) fb = v.
Proof using. intros H. unfold option_of. by rewrite bool_decide_true. Qed.
End options.

Lemma level_ok v : normalizePersistedLogLevel v "warning" ∈ LOG_LEVELS.
Proof. unfold normalizePersistedLogLevel. destruct v; try set_solver. case_bool_decide; [done|]. case_match; set_solver. Qed.

Lemma width_ok v : normalizeChatViewWidth v "fixed-800" ∈ CHAT_VIEW_WIDTH_IDS.
Proof. unfold normalizeChatViewWidth. destruct v; try set_solver. case_match; [set_solver|]. apply option_ok. set_solver. Qed.

Lemma is_text_true v s : is_text v s = true <-> v = VStr s.
Proof. destruct v; try done. cbn [is_text]. rewrite String.eqb_eq. naive_solver. Qed.

Lemma side_ok v : sanitizeFloatingControlSide v "right" ∈ ["left"; "right"]%string.
Proof.
  unfold sanitizeFloatingControlSide. destruct (is_text v "left" || is_text v "right") eqn:E; [|set_solver].
  apply orb_true_iff in E as [->%is_text_true| ->%is_text_true]; set_solver.
Qed.

Definition tab_of (v : value) : string := if is_text v "file" || is_text v "git" then text_or v "chat" else "chat".

Lemma tab_ok v : tab_of v ∈ ["chat"; "file"; "git"]%string.
Proof.
  unfold tab_of. destruct (is_text v "file" || is_text v "git") eqn:E; [|set_solver].
  apply orb_true_iff in E as [->%is_text_true| ->%is_text_true]; set_solver.
Qed.

Lemma sanitize_settings_ok look : settings_ok (sanitize_settings look).
Proof.
  split; cbn [sanitize_settings g_themeMode g_codeTheme g_codeFont g_chatFont g_chatViewWidth g_sessionListDensity
    g_mobileEnterKeyBehavior g_logLevel g_tab g_floatingControlSide g_floatingControlYRatio g_desktopSidebarWidth g_collapsedProjectIds
    g_pinnedProjectIds g_hiddenProjectIds g_expandedHubIds g_desktopCollapsedProjectIds g_hubColors g_portRelayTargets
    g_selectedPortRelayTarget g_portRelayListenPort].
  - case_match; set_solver.
  - apply option_ok. set_solver.
  - apply option_ok. set_solver.
  - apply option_ok. set_solver.
  - apply width_ok.
  - apply option_ok. set_solver.
  - apply option_ok. set_solver.
  - apply level_ok.
  - apply tab_ok.
  - apply side_ok.
  - apply ratio_wf.
  - unfold sanitizeSidebarWidth. lia.
  - assert (ids_wf []) by (split; [constructor|apply not_elem_of_nil]).
    repeat (apply Forall_cons; split); try apply sanitizeStringList_wf; [|by apply Forall_nil].
    case_match; [apply sanitizeStringList_wf|]. case_match; [apply sanitizeStringList_wf|done].
  - done.
  - apply sanitizeHubColorMap_wf.
  - apply normalizeTargets_ok.
  - apply normalize_valid.
  - unfold normalizePortRelayListenPort. destruct (port_of _) as [p|] eqn:E; [by eapply port_of_valid|]. cbn. lia.
Qed.

(** Each setting kept as it is accepted. *)
Definition setting (look : string -> value) (k : string) : value := prop (settings_object (sanitize_settings look)) k.

Ltac setting_key := lazy beta iota zeta delta [setting settings_object prop String.eqb Ascii.eqb Bool.eqb andb sanitize_settings defaultGlobalState
  g_themeMode g_codeTheme g_codeFont g_codeFontSize g_codeLineHeight g_codeTabSize g_chatFont g_chatViewWidth
  g_sessionListDensity g_mobileEnterKeyBehavior g_wrapLines g_showLineNumbers g_hideToolCalls g_messageViewerEnabled g_logLevel
  g_disableFileCache g_promptCompletionNotificationsEnabled g_tab g_selectedProjectId g_selectedChatProjectId
  g_selectedChatSessionId g_floatingControlYRatio g_floatingControlSide g_desktopSidebarWidth g_collapsedProjectIds
  g_desktopCollapsedProjectIds g_pinnedProjectIds g_hubColors g_hiddenProjectIds g_expandedHubIds g_portRelayTargets
  g_selectedPortRelayTarget g_portRelayListenPort g_previewWorkbenchSnapshot].

(** The keys whose setting depends on no other key. *)
Definition local_keys : list string := Eval cbv in
  List.filter (fun k => negb (bool_decide (k ∈ ["floatingControlYRatio"; "collapsedProjectIds"; "desktopCollapsedProjectIds"]%string))) settings_keys.

Lemma setting_local k look1 look2 : k ∈ local_keys -> look1 k = look2 k -> setting look1 k = setting look2 k.
Proof.
  intros Hk%list_elem_of_In He. unfold local_keys, List.In in Hk.
  repeat (destruct Hk as [<-|Hk]; [setting_key; rewrite He; reflexivity|]). destruct Hk.
Qed.

Lemma setting_ratio look1 look2 : look1 "floatingControlYRatio"%string = look2 "floatingControlYRatio"%string ->
  look1 "floatingControlSlot"%string = look2 "floatingControlSlot"%string ->
  setting look1 "floatingControlYRatio" = setting look2 "floatingControlYRatio".
Proof. intros H1 H2. setting_key. by rewrite H1, H2. Qed.

Lemma setting_collapsed look1 look2 : look1 "collapsedProjectIds"%string = look2 "collapsedProjectIds"%string ->
  is_array (look2 "collapsedProjectIds") = true \/
  look1 "desktopCollapsedProjectIds"%string = look2 "desktopCollapsedProjectIds"%string ->
  setting look1 "collapsedProjectIds" = setting look2 "collapsedProjectIds".
Proof. intros H1 [H2|H2]; setting_key; rewrite H1; [by rewrite H2|by rewrite H2]. Qed.

Lemma setting_desktop look : setting look "desktopCollapsedProjectIds" = setting look "collapsedProjectIds".
Proof. setting_key. reflexivity. Qed.

(** ** A setting that was accepted is accepted as it is *)

Ltac literal_cases H := apply list_elem_of_In in H; cbn [List.In CHAT_VIEW_WIDTH_IDS LOG_LEVELS] in H;
  repeat (destruct H as [<-|H]; [reflexivity|]); destruct H.

Lemma width_fixed w : w ∈ CHAT_VIEW_WIDTH_IDS -> normalizeChatViewWidth (VStr w) "fixed-800" = w.
Proof. intros H. literal_cases H. Qed.
Lemma level_fixed l : l ∈ LOG_LEVELS -> normalizePersistedLogLevel (VStr l) "warning" = l.
Proof. intros H. literal_cases H. Qed.
Lemma tab_fixed t : t ∈ ["chat"; "file"; "git"]%string -> tab_of (VStr t) = t.
Proof. intros H. literal_cases H. Qed.
Lemma side_fixed s : s ∈ ["left"; "right"]%string -> sanitizeFloatingControlSide (VStr s) "right" = s.
Proof. intros H. literal_cases H. Qed.

Lemma sidebar_fixed w fb : 320 <= w <= 560 -> sanitizeSidebarWidth (VNum (of_Z w)) fb = w.
Proof. intros H. unfold sanitizeSidebarWidth, of_Z. cbn [number_or]. rewrite round_inject. lia. Qed.
Lemma ratio_fixed v fb fb' : let r := sanitizeFloatingControlYRatio v fb in sanitizeFloatingControlYRatio (qnum r) fb' = r.
Proof. apply ratio_wf. Qed.
Lemma listen_port_fixed p fb : 1 <= p <= 65535 -> normalizePortRelayListenPort (VNum (of_Z p)) fb = p.
Proof. intros H. unfold normalizePortRelayListenPort. by rewrite port_of_Z. Qed.

Lemma preview_fixed v : let s := default VNull (sanitizePreviewWorkbenchSnapshot v) in default VNull (sanitizePreviewWorkbenchSnapshot s) = s.
Proof.
  cbn zeta. destruct (sanitizePreviewWorkbenchSnapshot v) as [s|] eqn:E; [|done]. change (default VNull (Some s)) with s.
  assert (s = v) as ->; [|by rewrite E]. unfold sanitizePreviewWorkbenchSnapshot in E. repeat case_match; by simplify_eq.
Qed.

Lemma selected_fixed v : let s := match normalizePortRelayTarget v with Some t => target_object t | None => VNull end in
  match normalizePortRelayTarget s with Some t => target_object t | None => VNull end = s.
Proof. cbn zeta. destruct (normalizePortRelayTarget v) as [t|] eqn:E; [|done]. apply normalize_valid in E. by rewrite normalize_object. Qed.

Lemma strings_fixed v : sanitizeStringList (strings (sanitizeStringList v)) = sanitizeStringList v.
Proof. apply sanitizeStringList_id, sanitizeStringList_wf. Qed.

Lemma setting_fixed k look look' : k ∈ settings_keys -> k <> "desktopCollapsedProjectIds"%string ->
  look k = setting look' k -> setting look k = setting look' k.
Proof.
  pose proof (sanitize_settings_ok look') as Hok.
  intros Hk%list_elem_of_In Hne. unfold settings_keys, List.In in Hk. revert Hne.
  repeat (destruct Hk as [<-|Hk]; [intros Hne He; revert He; setting_key; intros ->; try reflexivity|]); [..|destruct Hk].
  - by destruct (is_text (look' _) "light").
  - f_equal. apply option_fixed, option_ok. set_solver.
  - f_equal. apply option_fixed, option_ok. set_solver.
  - f_equal. apply option_fixed, option_ok. set_solver.
  - f_equal. apply width_fixed, width_ok.
  - f_equal. apply option_fixed, option_ok. set_solver.
  - f_equal. apply option_fixed, option_ok. set_solver.
  - f_equal. apply level_fixed, level_ok.
  - f_equal. apply tab_fixed, tab_ok.
  - f_equal. apply ratio_fixed.
  - f_equal. apply side_fixed, side_ok.
  - do 2 f_equal. apply sidebar_fixed. unfold sanitizeSidebarWidth. lia.
  - cbn [is_array strings]. f_equal. apply (sanitizeStringList_id _). exact (Forall_inv (ok_lists _ Hok)).
  - done.
  - f_equal. apply strings_fixed.
  - f_equal. apply sanitizeHubColorMap_id, sanitizeHubColorMap_wf.
  - f_equal. apply strings_fixed.
  - f_equal. apply strings_fixed.
  - f_equal. apply normalizeTargets_id, normalizeTargets_ok.
  - apply selected_fixed.
  - do 2 f_equal. apply listen_port_fixed, (ok_port _ Hok).
  - apply preview_fixed.
Qed.

(** The list under its old key is read when the new key holds no list. *)
Lemma setting_collapsed_old look look' : is_array (look "collapsedProjectIds"%string) = false ->
  look "desktopCollapsedProjectIds"%string = setting look' "collapsedProjectIds" ->
  setting look "collapsedProjectIds" = setting look' "collapsedProjectIds".
Proof.
  intros Ha Hd. pose proof (Forall_inv (ok_lists _ (sanitize_settings_ok look'))) as Hok.
  assert (setting look' "collapsedProjectIds" = strings (g_collapsedProjectIds (sanitize_settings look'))) as E by (setting_key; reflexivity).
  rewrite E in *. setting_key. rewrite Ha, Hd. cbn [is_array strings]. f_equal. by apply sanitizeStringList_id.
Qed.

Lemma map_injective {A B} (f : A -> B) l1 l2 : (forall x y, f x = f y -> x = y) -> map f l1 = map f l2 -> l1 = l2.
Proof.
  intros Hf. revert l2; induction l1 as [|x l1 IH]; intros [|y l2] H; simplify_eq/=; [done|]. f_equal; [by apply Hf|by apply IH].
Qed.

(** The settings are determined by the object they are. *)
Lemma settings_ext look1 look2 : (forall k, k ∈ settings_keys -> setting look1 k = setting look2 k) ->
  sanitize_settings look1 = sanitize_settings look2.
Proof.
  intros H. assert (forall g, settings_object g = map (fun k => (k, prop (settings_object g) k)) settings_keys) as Ho.
  { intros g. lazy beta iota zeta delta [settings_object map settings_keys prop String.eqb Ascii.eqb Bool.eqb andb].
    reflexivity. }
  assert (settings_object (sanitize_settings look1) = settings_object (sanitize_settings look2)) as He.
  { rewrite Ho, (Ho (sanitize_settings look2)). apply map_ext_in. intros k Hk%list_elem_of_In. pose proof (H k Hk) as E. unfold setting in E. rewrite E. reflexivity. }
  clear H Ho.
  assert (forall look, g_previewWorkbenchSnapshot (sanitize_settings look) <> Some VNull) as Hp.
  { intros look. cbn [sanitize_settings g_previewWorkbenchSnapshot]. unfold sanitizePreviewWorkbenchSnapshot. repeat case_match; try done.
    intros [= E]. by rewrite E in *. }
  pose proof (Hp look1) as Hp1. pose proof (Hp look2) as Hp2.
  revert He Hp1 Hp2. generalize (sanitize_settings look1) (sanitize_settings look2). intros [] [] He. cbn [g_previewWorkbenchSnapshot].
  unfold settings_object, qnum, strings, of_Z, color_object, target_objects in He. cbn in He.
  intros Hp1 Hp2. injection He. intros Hv Hport Ht Hts L1 L2 Hc L3 L4 L5. intros.
  apply (map_injective VStr) in L1, L2, L3, L4, L5; try (by intros ?? [=]).
  apply map_injective in Hts; [|intros [] [] E; injection E; intros; by subst].
  apply map_injective in Hc; [|intros [] [] E; injection E; intros; by subst].
  repeat match goal with H : ?x = ?y |- _ => subst x end. f_equal.
  - destruct g_selectedPortRelayTarget0 as [t|], g_selectedPortRelayTarget1 as [u|]; try done.
    injection Ht. intros. destruct t, u. simpl in *. by subst.
  - destruct g_previewWorkbenchSnapshot0 as [v|], g_previewWorkbenchSnapshot1 as [w|]; simpl in Hv; congruence.
Qed.

Lemma settings_key_cases k : k ∈ settings_keys -> k ∈ local_keys \/ k = "floatingControlYRatio"%string \/
  k = "collapsedProjectIds"%string \/ k = "desktopCollapsedProjectIds"%string.
Proof.
  intros Hk. assert (forallb (fun k => bool_decide (k ∈ local_keys ++ ["floatingControlYRatio"; "collapsedProjectIds";
    "desktopCollapsedProjectIds"]%string)) settings_keys = true) as H by (vm_compute; reflexivity).
  apply list_elem_of_In, (proj1 (forallb_forall _ _) H), bool_decide_eq_true in Hk. apply elem_of_app in Hk as [Hk|Hk]; [by left|].
  rewrite !elem_of_cons, elem_of_nil in Hk. naive_solver.
Qed.

(** Only what is read matters. *)
Lemma settings_ext_look look1 look2 : (forall k, look1 k = look2 k) -> sanitize_settings look1 = sanitize_settings look2.
Proof.
  intros H. apply settings_ext. intros k [Hk|[->|[->| ->]]]%settings_key_cases.
  - by apply setting_local.
  - by apply setting_ratio.
  - by apply setting_collapsed; auto.
  - rewrite !setting_desktop. by apply setting_collapsed; auto.
Qed.

(** A project state that was accepted is accepted as it is. *)
Lemma omap_strings l : omap (fun v => match v with VStr s => Some s | _ => None end) (map VStr l) = l.
Proof. induction l as [|x l IH]; [done|]. cbn. by f_equal. Qed.

Lemma sanitize_project_fixed v : sanitizeProjectState (VObj (project_object (sanitizeProjectState v))) = sanitizeProjectState v.
Proof.
  assert (forall p, p_expandedDirs p <> [] -> sanitizeProjectState (VObj (project_object p)) = p) as H.
  { intros [dirs file pinned branch commit diff chat] Hd. cbn in Hd. unfold sanitizeProjectState, project_object, sanitize_project.
    cbn -[omap]. rewrite omap_strings. by destruct dirs. }
  apply H. unfold sanitizeProjectState. destruct (truthy v); [|done]. cbn [p_expandedDirs sanitize_project].
  by destruct (prop (properties v) "expandedDirs"%string) as [| | | | |[]|].
Qed.
