(* ===== verification/WorkspaceCaches.v ===== *)
(** The caches of [workspace/WorkspacePersistence.ts] that can be rebuilt from the
    registry: the commits of projects, diffs, and files; their budgets, their rows, and
    what a restart makes of them.

    What they write goes through the write queue, whose jobs run one after the other:
    [writes] lists those that wait; what [initialize] itself awaits is the first of them.
    Only the clearing when the storage is full writes to the database at once, from inside
    the job of a settings write. *)

From S2P Require Import Prelude Json JsonRoundTrip Collation RegistryTypes CacheEviction ChatCacheTurns ChatCache ChatCacheSync.
Open Scope Z_scope.

Definition DIFF_CACHE_LIMIT : nat := 120.
Definition FILE_CACHE_MAX_ENTRIES : Z := 1500.
Definition FILE_CACHE_MAX_BYTES : Z := 32 * 1024 * 1024.
Definition DIFF_CACHE_MAX_ENTRIES : Z := 600.
Definition DIFF_CACHE_MAX_BYTES : Z := 16 * 1024 * 1024.
Definition PROJECT_COMMITS_CACHE_MAX_ENTRIES : Z := 40.
Definition PROJECT_COMMITS_CACHE_MAX_BYTES : Z := 24 * 1024 * 1024.

Record DiffCacheEntry := { df_diff : string; df_isBinary : bool; df_truncated : bool; df_updatedAt : Z }.
Record FileCacheEntry := { fl_hash : string; fl_value : string; fl_updatedAt : Z }.
(** Commits and files are the registry's objects, kept as they came. *)
Record PersistedProjectCommitsState := { pc_commits : list value; pc_commitFilesBySha : value }.

Record RawProjectCommitsRow := { pr_projectId : string; pr_commitsJson : string; pr_commitFilesByShaJson : string; pr_updatedAt : Z }.
Record RawFileCacheRow := { fr_k : string; fr_hash : string; fr_v : string; fr_updatedAt : Z }.
Record RawDiffCacheRow := { dr_k : string; dr_v : string; dr_updatedAt : Z }.

(** A mutation of one of the stores: cleared first, then deletions, then puts. *)
Inductive CacheMutation :=
  | MCommits (clear : bool) (deletes : list string) (puts : list RawProjectCommitsRow)
  | MDiffs (clear : bool) (deletes : list string) (puts : list RawDiffCacheRow)
  | MFiles (clear : bool) (deletes : list string) (puts : list RawFileCacheRow).

Record caches := {
  projectCommits : list (string * PersistedProjectCommitsState);
  projectCommitUpdatedAt : list (string * Z);
  diffCache : list (string * DiffCacheEntry);
  fileCache : list (string * FileCacheEntry);
  writes : list (list CacheMutation)        (* the jobs of these caches in [writeQueue] *)
}.

Definition no_caches : caches := {| projectCommits := []; projectCommitUpdatedAt := []; diffCache := []; fileCache := []; writes := [] |}.

Definition with_commits (d : list (string * PersistedProjectCommitsState)) (times : list (string * Z)) (c : caches) : caches :=
  {| projectCommits := d; projectCommitUpdatedAt := times; diffCache := diffCache c; fileCache := fileCache c; writes := writes c |}.
Definition with_diffs (d : list (string * DiffCacheEntry)) (c : caches) : caches :=
  {| projectCommits := projectCommits c; projectCommitUpdatedAt := projectCommitUpdatedAt c; diffCache := d; fileCache := fileCache c;
     writes := writes c |}.
Definition with_files (d : list (string * FileCacheEntry)) (c : caches) : caches :=
  {| projectCommits := projectCommits c; projectCommitUpdatedAt := projectCommitUpdatedAt c; diffCache := diffCache c; fileCache := d;
     writes := writes c |}.
Definition with_writes (ws : list (list CacheMutation)) (c : caches) : caches :=
  {| projectCommits := projectCommits c; projectCommitUpdatedAt := projectCommitUpdatedAt c; diffCache := diffCache c;
     fileCache := fileCache c; writes := ws |}.
Definition enqueueCacheMutation (ms : list CacheMutation) (c : caches) : caches :=
  with_writes (match ms with [] => writes c | _ => writes c ++ [ms] end) c.

(** [for (const key of keys) map.delete(key)]. *)
Definition delete_keys {V} (d : list (string * V)) (keys : list string) : list (string * V) := foldl ddelete d keys.

Definition fileCacheKey (projectId kind path : string) : string := "fc:" +:+ projectId +:+ ":" +:+ kind +:+ ":" +:+ path.
Definition diffCacheKey (projectId key : string) : string := "dc:" +:+ projectId +:+ ":" +:+ key.

Definition defaultProjectCommitsState : PersistedProjectCommitsState := {| pc_commits := []; pc_commitFilesBySha := VObj [] |}.

Definition sanitizeProjectCommitsState (commits commitFilesBySha : value) : PersistedProjectCommitsState :=
  {| pc_commits := match commits with VArr l => l | _ => pc_commits defaultProjectCommitsState end;
     pc_commitFilesBySha := match commitFilesBySha with VObj _ | VArr _ => commitFilesBySha
                            | _ => pc_commitFilesBySha defaultProjectCommitsState end |}.

Section caches.
Context `{J : JSON} `{C : Collation}.

(** ** Budgets *)

Definition commits_value (s : PersistedProjectCommitsState) : value :=
  VObj [("commits", VArr (pc_commits s)); ("commitFilesBySha", pc_commitFilesBySha s)]%string.
Definition diff_value (e : DiffCacheEntry) : value :=
  VObj [("diff", VStr (df_diff e)); ("isBinary", VBool (df_isBinary e)); ("truncated", VBool (df_truncated e));
        ("updatedAt", VNum (of_Z (df_updatedAt e)))]%string.

Definition commit_budget (times : list (string * Z)) (e : string * PersistedProjectCommitsState) : CacheBudgetEntry :=
  {| be_key := e.1; be_updatedAt := default 0 (dget times e.1);
     be_approximateBytes := approximateTextBytes (serialize (commits_value e.2)) |}.
Definition diff_budget (e : string * DiffCacheEntry) : CacheBudgetEntry :=
  {| be_key := e.1; be_updatedAt := df_updatedAt e.2; be_approximateBytes := approximateTextBytes (serialize (diff_value e.2)) |}.
Definition file_budget (e : string * FileCacheEntry) : CacheBudgetEntry :=
  {| be_key := e.1; be_updatedAt := fl_updatedAt e.2;
     be_approximateBytes := approximateTextBytes e.1 + approximateTextBytes (fl_hash e.2) + approximateTextBytes (fl_value e.2) |}.

Definition projectCommitBudgetEntries (c : caches) : list CacheBudgetEntry :=
  map (commit_budget (projectCommitUpdatedAt c)) (projectCommits c).
Definition diffBudgetEntries (c : caches) : list CacheBudgetEntry := map diff_budget (diffCache c).
Definition fileBudgetEntries (c : caches) : list CacheBudgetEntry := map file_budget (fileCache c).

Definition cache_limits (maxEntries maxBytes now : Z) : CacheBudgetLimits :=
  {| lim_now := now; lim_maxAgeMs := CACHE_MAX_AGE_MS; lim_maxEntries := maxEntries; lim_maxBytes := maxBytes |}.
Definition cacheEvictionKeys (entries : list CacheBudgetEntry) (maxEntries maxBytes now : Z) : list string :=
  selectCacheEvictionKeys entries (cache_limits maxEntries maxBytes now).

(** The keys that go, and the caches without them. *)
Definition evictProjectCommitEntries (now : Z) (c : caches) : list string * caches :=
  let keys := cacheEvictionKeys (projectCommitBudgetEntries c) PROJECT_COMMITS_CACHE_MAX_ENTRIES PROJECT_COMMITS_CACHE_MAX_BYTES now in
  (keys, with_commits (delete_keys (projectCommits c) keys) (delete_keys (projectCommitUpdatedAt c) keys) c).
Definition evictDiffEntries (now : Z) (c : caches) : list string * caches :=
  let keys := cacheEvictionKeys (diffBudgetEntries c) DIFF_CACHE_MAX_ENTRIES DIFF_CACHE_MAX_BYTES now in
  (keys, with_diffs (delete_keys (diffCache c) keys) c).
Definition evictFileEntries (now : Z) (c : caches) : list string * caches :=
  let keys := cacheEvictionKeys (fileBudgetEntries c) FILE_CACHE_MAX_ENTRIES FILE_CACHE_MAX_BYTES now in
  (keys, with_files (delete_keys (fileCache c) keys) c).

(** ** Operations *)

Definition commits_row (projectId : string) (s : PersistedProjectCommitsState) (now : Z) : RawProjectCommitsRow :=
  {| pr_projectId := projectId; pr_commitsJson := serialize (VArr (pc_commits s));
     pr_commitFilesByShaJson := serialize (pc_commitFilesBySha s); pr_updatedAt := now |}.
Definition diff_row (k : string) (e : DiffCacheEntry) : RawDiffCacheRow :=
  {| dr_k := k; dr_v := serialize (VObj [("diff", VStr (df_diff e)); ("isBinary", VBool (df_isBinary e));
                                        ("truncated", VBool (df_truncated e))]%string); dr_updatedAt := df_updatedAt e |}.
Definition file_row (k : string) (e : FileCacheEntry) : RawFileCacheRow :=
  {| fr_k := k; fr_hash := fl_hash e; fr_v := fl_value e; fr_updatedAt := fl_updatedAt e |}.

Definition getProjectCommitsState (projectId : string) (c : caches) : PersistedProjectCommitsState :=
  default defaultProjectCommitsState (dget (projectCommits c) projectId).
Definition getProjectDiff (projectId key : string) (c : caches) : option DiffCacheEntry :=
  if negb (nonempty projectId) || negb (nonempty key) then None else dget (diffCache c) (diffCacheKey projectId key).
Definition getCachedFile (projectId kind path : string) (c : caches) : option FileCacheEntry :=
  if negb (nonempty projectId) || negb (nonempty path) then None else dget (fileCache c) (fileCacheKey projectId kind path).

(** The state a patch gives; a missing field of the patch keeps the current one. *)
Definition patchedCommits (projectId : string) (commits commitFilesBySha : option value) (c : caches) : PersistedProjectCommitsState :=
  let current := getProjectCommitsState projectId c in
  sanitizeProjectCommitsState (default (VArr (pc_commits current)) commits) (default (pc_commitFilesBySha current) commitFilesBySha).

Definition patchProjectCommitsState (now : Z) (projectId : string) (commits commitFilesBySha : option value) (c : caches) : caches :=
  if negb (nonempty projectId) then c else
  let next := patchedCommits projectId commits commitFilesBySha c in
  let '(evictedKeys, c) := evictProjectCommitEntries now
    (with_commits (dset (projectCommits c) projectId next) (dset (projectCommitUpdatedAt c) projectId now) c) in
  enqueueCacheMutation [MCommits false evictedKeys
    (match dget (projectCommits c) projectId with Some retained => [commits_row projectId retained now] | None => [] end)] c.

(** The keys of the project that are not among its newest. *)
Definition newest_first (a b : string * DiffCacheEntry) : Z := df_updatedAt b.2 - df_updatedAt a.2.
Definition surplus_diffs (prefix : string) (d : list (string * DiffCacheEntry)) : list string :=
  let keysByNewest := map fst (take DIFF_CACHE_LIMIT (js_sort newest_first (bfilter (fun e => startsWith e.1 prefix) d))) in
  bfilter (fun k => startsWith k prefix && negb (bool_decide (k ∈ keysByNewest))) (dkeys d).

Definition putProjectDiff (now : Z) (projectId key diff : string) (isBinary truncated : bool) (c : caches) : caches :=
  if negb (nonempty projectId) || negb (nonempty key) then c else
  let k := diffCacheKey projectId key in
  let d := dset (diffCache c) k {| df_diff := diff; df_isBinary := isBinary; df_truncated := truncated; df_updatedAt := now |} in
  let surplus := surplus_diffs ("dc:" +:+ projectId +:+ ":") d in
  let '(evicted, c) := evictDiffEntries now (with_diffs (delete_keys d surplus) c) in
  let evictedKeys := unique (surplus ++ evicted) in
  enqueueCacheMutation [MDiffs false evictedKeys
    (match dget (diffCache c) k with Some payload => [diff_row k payload] | None => [] end)] c.

Definition putCachedFile (now : Z) (projectId kind path hash text : string) (c : caches) : caches :=
  if negb (nonempty projectId) || negb (nonempty path) then c else
  let k := fileCacheKey projectId kind path in
  let '(evictedKeys, c) := evictFileEntries now
    (with_files (dset (fileCache c) k {| fl_hash := hash; fl_value := text; fl_updatedAt := now |}) c) in
  enqueueCacheMutation [MFiles false evictedKeys
    (match dget (fileCache c) k with Some payload => [file_row k payload] | None => [] end)] c.

Definition clearFileCache (c : caches) : caches := enqueueCacheMutation [MFiles true [] []] (with_files [] c).

(** The part of [clearCache] on these caches. *)
Definition clear_mutations : list CacheMutation := [MCommits true [] []; MDiffs true [] []; MFiles true [] []].
Definition clear_maps (c : caches) : caches := with_commits [] [] (with_diffs [] (with_files [] c)).
Definition clearCache (c : caches) : caches := enqueueCacheMutation clear_mutations (clear_maps c).

(** ** Restoring *)

Definition restored_commits (row : RawProjectCommitsRow) : PersistedProjectCommitsState :=
  sanitizeProjectCommitsState (tryParse (pr_commitsJson row) (VArr [])) (tryParse (pr_commitFilesByShaJson row) (VObj [])).
Definition restored_diff (row : RawDiffCacheRow) : DiffCacheEntry :=
  let payload := properties (tryParse (dr_v row) (VObj [])) in
  {| df_diff := match prop payload "diff" with VStr s => s | _ => "" end; df_isBinary := truthy (prop payload "isBinary");
     df_truncated := truthy (prop payload "truncated"); df_updatedAt := dr_updatedAt row |}.
Definition restored_file (row : RawFileCacheRow) : FileCacheEntry :=
  {| fl_hash := fr_hash row; fl_value := fr_v row; fl_updatedAt := fr_updatedAt row |}.

Definition restoreProjectCommits (rows : list RawProjectCommitsRow) (c : caches) : caches :=
  with_commits (foldl (fun d row => dset d (pr_projectId row) (restored_commits row)) [] rows)
               (foldl (fun d row => dset d (pr_projectId row) (pr_updatedAt row)) [] rows) c.
Definition restoreDiffCache (rows : list RawDiffCacheRow) (c : caches) : caches :=
  with_diffs (foldl (fun d row => dset d (dr_k row) (restored_diff row)) [] rows) c.
Definition restoreFileCache (rows : list RawFileCacheRow) (c : caches) : caches :=
  with_files (foldl (fun d row => dset d (fr_k row) (restored_file row)) [] rows) c.

(** [if (keys.length > 0) mutations.push(...)]. *)
Definition delete_mutation (m : list string -> CacheMutation) (keys : list string) : list CacheMutation :=
  match keys with [] => [] | _ => [m keys] end.

Definition pruneCachesAfterRestore (now : Z) (c : caches) : caches :=
  let '(commitKeys, c) := evictProjectCommitEntries now c in
  let '(diffKeys, c) := evictDiffEntries now c in
  let '(fileKeys, c) := evictFileEntries now c in
  enqueueCacheMutation (delete_mutation (fun keys => MCommits false keys []) commitKeys ++
    delete_mutation (fun keys => MDiffs false keys []) diffKeys ++ delete_mutation (fun keys => MFiles false keys []) fileKeys) c.

(** [initialize].  When the chat contents are of an older schema the diffs and files are
    dropped with them, here and in the database, and nothing is pruned. *)
Definition initializeCaches (incompatible : bool) (now : Z) (commitRows : list RawProjectCommitsRow)
    (diffRows : list RawDiffCacheRow) (fileRows : list RawFileCacheRow) : caches :=
  let c := restoreProjectCommits commitRows no_caches in
  if incompatible then enqueueCacheMutation [MDiffs true [] []; MFiles true [] []] (with_diffs [] (with_files [] c))
  else pruneCachesAfterRestore now (restoreFileCache fileRows (restoreDiffCache diffRows c)).
End caches.

(** * Deleting keys *)

Section keys.
Context {V : Type}.
Implicit Types (d : list (string * V)) (keys : list string).

Lemma dget_delete_keys d keys k : dget (delete_keys d keys) k = if bool_decide (k ∈ keys) then None else dget d k.
Proof.
  revert d; induction keys as [|k' keys IH]; intros d; [done|]. cbn [delete_keys foldl]. change (foldl ddelete ?d keys) with (delete_keys d keys).
  rewrite IH, dget_ddelete. destruct (decide (k ∈ keys)) as [H|H].
  - rewrite !bool_decide_true; [done|by right|done].
  - rewrite (bool_decide_false _ H). destruct (decide (k' = k)) as [->|Hne]; [by rewrite bool_decide_true by left|].
    rewrite bool_decide_false by set_solver. done.
Qed.

Lemma delete_keys_filter d keys : delete_keys d keys = bfilter (fun e => negb (bool_decide (e.1 ∈ keys))) d.
Proof.
  revert d; induction keys as [|k keys IH]; intros d; cbn [delete_keys foldl].
  - symmetry. apply bfilter_all, Forall_forall. intros e _. by rewrite bool_decide_false by apply not_elem_of_nil.
  - change (foldl ddelete ?d keys) with (delete_keys d keys). rewrite IH. unfold ddelete. rewrite <- bfilter_and.
    apply List.filter_ext. intros e. rewrite <- negb_orb. f_equal. apply eq_iff_eq_true.
    rewrite orb_true_iff, !bool_decide_eq_true, elem_of_cons. naive_solver.
Qed.

Lemma delete_keys_NoDup d keys : NoDup (dkeys d) -> NoDup (dkeys (delete_keys d keys)).
Proof. rewrite delete_keys_filter. apply NoDup_map_bfilter. Qed.

Lemma elem_of_delete_keys d keys e : e ∈ delete_keys d keys <-> e ∈ d /\ e.1 ∉ keys.
Proof. rewrite delete_keys_filter, elem_of_bfilter, negb_true_iff, bool_decide_eq_false. done. Qed.

(** Maps with the same entries are the same list in some order. *)
Lemma dget_perm d d' : NoDup (dkeys d) -> NoDup (dkeys d') -> (forall k, dget d k = dget d' k) -> d ≡ₚ d'.
Proof.
  intros H H' He. apply NoDup_Permutation; [by eapply NoDup_fmap_1..|]. intros [k v]. split; intros Hin.
  - apply dget_Some_in. rewrite <- He. by apply dget_in.
  - apply dget_Some_in. rewrite He. by apply dget_in.
Qed.
End keys.
#[export] Hint Resolve delete_keys_NoDup : js.

(** * A bounded cache *)

Section bounded.
Context `{C : Collation} {E : Type} (budget : string * E -> CacheBudgetEntry) (maxEntries maxBytes : Z).
Context (Hkey : forall e, be_key (budget e) = e.1) (Hbytes : forall e, 0 <= be_approximateBytes (budget e)).
Context (Hentries : 0 <= maxEntries) (Hmax : 0 <= maxBytes).
Implicit Types (d : list (string * E)).

Definition within (d : list (string * E)) : Prop := fits (cache_limits maxEntries maxBytes 0) (map budget d).

Lemma budget_keys d : map be_key (map budget d) = dkeys d.
Proof using Hkey. rewrite map_map. apply map_ext. apply Hkey. Qed.

Lemma budget_delete d keys : map budget (delete_keys d keys) = bfilter (fun b => negb (bool_decide (be_key b ∈ keys))) (map budget d).
Proof using Hkey.
  rewrite delete_keys_filter. induction d as [|e d IH]; [done|]. cbn [List.filter map]. rewrite Hkey.
  destruct (negb (bool_decide (e.1 ∈ keys))); cbn [map]; by rewrite IH.
Qed.

Lemma evicted_within d now : NoDup (dkeys d) ->
  within (delete_keys d (cacheEvictionKeys (map budget d) maxEntries maxBytes now)).
Proof using Hkey Hentries Hmax.
  intros Hnd. unfold within. rewrite budget_delete.
  apply (kept_fits (map budget d) (cache_limits maxEntries maxBytes now)); [by rewrite budget_keys|done..].
Qed.

Lemma within_subset d (p : CacheBudgetEntry -> bool) limits : lim_maxEntries limits = maxEntries -> lim_maxBytes limits = maxBytes ->
  within d -> fits limits (bfilter p (map budget d)).
Proof using Hbytes.
  intros He Hb [H1 H2]. unfold fits. rewrite He, Hb. cbn in H1, H2. split.
  - pose proof (List.filter_length_le p (map budget d)). lia.
  - pose proof (total_bfilter p (map budget d)) as H. etrans; [apply H|done]. apply Forall_map, Forall_forall. intros e _. apply Hbytes.
Qed.

Definition expired (now : Z) (b : CacheBudgetEntry) : Prop := CACHE_MAX_AGE_MS < now - be_updatedAt b.

(** A cache within its budget loses only what is too old. *)
Lemma within_evicts_expired d now e : NoDup (dkeys d) -> within d -> e ∈ d ->
  e.1 ∈ cacheEvictionKeys (map budget d) maxEntries maxBytes now <-> expired now (budget e).
Proof using Hkey Hbytes Hentries Hmax.
  intros Hnd Hw He. unfold cacheEvictionKeys. set (limits := cache_limits maxEntries maxBytes now).
  destruct (eviction_spec (map budget d) limits) as (_ & _ & _ & _ & Hfr & Hev); [by rewrite budget_keys| |done..|].
  { apply Forall_map, Forall_forall. intros x _. apply Hbytes. }
  assert (budget e ∈ map budget d) as Hin by (apply elem_of_map; eauto).
  unfold expired. split.
  - intros Hk. destruct (fresh limits (budget e)) eqn:Ef; [|unfold fresh in Ef; apply negb_false_iff, Z.ltb_lt in Ef; done].
    exfalso. destruct (Hev (budget e) Hin) as [_ Hn]; [by rewrite Hkey|done|]. by apply Hn, within_subset.
  - intros Hx. apply dec_stable. intros Hk.
    assert (budget e ∈ kept_by limits (map budget d)) as Hkept.
    { unfold kept_by. rewrite elem_of_bfilter, negb_true_iff, bool_decide_eq_false, Hkey. done. }
    apply Hfr in Hkept. unfold fresh in Hkept. apply negb_true_iff, Z.ltb_ge in Hkept. cbn in Hkept. lia.
Qed.
End bounded.

(** * The tables *)

Record cache_tables := {
  t_commits : gmap string RawProjectCommitsRow; t_diffs : gmap string RawDiffCacheRow; t_files : gmap string RawFileCacheRow
}.

Definition mutate_table {R} (key : R -> string) (clear : bool) (deletes : list string) (puts : list R) (t : gmap string R) : gmap string R :=
  put_all key (delete_all (if clear then ∅ else t) deletes) puts.

Definition mutate_caches (t : cache_tables) (m : CacheMutation) : cache_tables :=
  match m with
  | MCommits clear deletes puts =>
      {| t_commits := mutate_table pr_projectId clear deletes puts (t_commits t); t_diffs := t_diffs t; t_files := t_files t |}
  | MDiffs clear deletes puts =>
      {| t_commits := t_commits t; t_diffs := mutate_table dr_k clear deletes puts (t_diffs t); t_files := t_files t |}
  | MFiles clear deletes puts =>
      {| t_commits := t_commits t; t_diffs := t_diffs t; t_files := mutate_table fr_k clear deletes puts (t_files t) |}
  end.

(** A job of the queue is one transaction. *)
Definition run_job (t : cache_tables) (job : list CacheMutation) : cache_tables := foldl mutate_caches t job.

(** The tables once the queue has drained. *)
Definition caches_landed (t : cache_tables) (c : caches) : cache_tables := foldl run_job t (writes c).

Lemma caches_landed_enqueue t ms c : caches_landed t (enqueueCacheMutation ms c) = foldl mutate_caches (caches_landed t c) ms.
Proof. unfold caches_landed, enqueueCacheMutation. cbn [with_writes writes]. destruct ms; [done|]. by rewrite foldl_app. Qed.

(** The caches of the repository when the storage is full: the maps are emptied, and the
    tables at once, if that goes through; the jobs that wait in the queue run later. *)
Definition clearRebuildableCachesForStoragePressure (stored : bool) (tc : cache_tables * caches) : cache_tables * caches :=
  (if stored then run_job tc.1 clear_mutations else tc.1, clear_maps tc.2).

Section table_sync.
Context {R E : Type} (key : R -> string) (restored : R -> E).
Implicit Types (t : gmap string R) (d : list (string * E)).

(** A table has the row of every entry of a map, and, if [exact], no other rows. *)
Definition table_sync (exact : bool) (t : gmap string R) (d : list (string * E)) : Prop :=
  forall k, match dget d k with Some e => restored <$> t !! k = Some e | None => exact = true -> t !! k = None end.

Lemma table_sync_exact t d : table_sync true t d -> forall k, restored <$> t !! k = dget d k.
Proof. intros H k. specialize (H k). destruct (dget d k); [done|]. by rewrite H. Qed.

Lemma table_sync_weaken b t d : (forall k, restored <$> t !! k = dget d k) -> table_sync b t d.
Proof. intros H k. specialize (H k). destruct (dget d k); [done|]. intros _. by destruct (t !! k). Qed.

Lemma table_sync_empty t : table_sync false t [].
Proof. by intros k. Qed.

Lemma mutate_table_keyed clear deletes puts t : keyed key t -> keyed key (mutate_table key clear deletes puts t).
Proof. intros H. apply put_all_keyed, delete_all_keyed. destruct clear; [intros k r Hr; by rewrite lookup_empty in Hr|done]. Qed.

(** One entry is put, and the keys [deletes] go. *)
Lemma put_table_sync b t d d' k e (row : E -> R) deletes : table_sync b t d -> key (row e) = k -> restored (row e) = e ->
  (forall k', dget d' k' = if bool_decide (k' ∈ deletes) then None else dget (dset d k e) k') ->
  table_sync b (mutate_table key false deletes (match dget d' k with Some p => [row p] | None => [] end) t) d'.
Proof.
  intros Hs Hk He Hd k'. unfold mutate_table. rewrite (Hd k'), dget_dset. pose proof (Hd k) as Hdk. rewrite dget_dset in Hdk.
  rewrite decide_True in Hdk by done. destruct (decide (k = k')) as [<-|Hne].
  - rewrite Hdk. destruct (bool_decide (k ∈ deletes)) eqn:Ed; cbn [put_all foldl].
    + by rewrite delete_all_lookup, Ed.
    + rewrite Hk, lookup_insert_eq. cbn. by rewrite He.
  - assert (put_all key (delete_all t deletes) (match dget d' k with Some p => [row p] | None => [] end) !! k' =
      delete_all t deletes !! k') as ->.
    { rewrite Hdk. destruct (bool_decide (k ∈ deletes)); [done|]. cbn [put_all foldl]. rewrite Hk. by apply lookup_insert_ne. }
    rewrite delete_all_lookup. destruct (bool_decide (k' ∈ deletes)); [done|]. apply Hs.
Qed.

Lemma delete_table_sync b t d d' deletes : table_sync b t d ->
  (forall k, dget d' k = if bool_decide (k ∈ deletes) then None else dget d k) ->
  table_sync b (mutate_table key false deletes [] t) d'.
Proof.
  intros Hs Hd k. unfold mutate_table. cbn [put_all foldl]. rewrite Hd, delete_all_lookup.
  destruct (bool_decide (k ∈ deletes)); [done|apply Hs].
Qed.

Lemma clear_table_sync b t : table_sync b (mutate_table key true [] [] t) [].
Proof. intros k. unfold mutate_table. cbn [put_all delete_all foldl dget]. intros _. apply lookup_empty. Qed.

(** The rows of a table, read back into a map. *)
Lemma restore_rows rows : NoDup (dkeys (map (fun row => (key row, restored row)) rows)) ->
  foldl (fun d row => dset d (key row) (restored row)) [] rows = map (fun row => (key row, restored row)) rows.
Proof.
  intros Hnd. transitivity (dict_of (map (fun row => (key row, restored row)) rows)); [|by apply dict_of_id].
  unfold dict_of. generalize (@nil (string * E)). clear Hnd. induction rows as [|row rows IH]; intros d; [done|]. cbn [foldl map fst snd]. apply IH.
Qed.

Lemma restore_sync t rows : keyed key t -> rows ≡ₚ (map_to_list t).*2 ->
  let d := foldl (fun d row => dset d (key row) (restored row)) [] rows in NoDup (dkeys d) /\ table_sync true t d.
Proof.
  intros Ht Hr. cbn zeta. pose proof (rows_NoDup key restored t rows Ht Hr) as Hnd. rewrite restore_rows by done.
  split; [done|]. apply table_sync_weaken. intros k. by rewrite rows_lookup with (t := t).
Qed.

(** What a restart reads back is what the map held. *)
Lemma restore_perm t rows d : keyed key t -> rows ≡ₚ (map_to_list t).*2 -> NoDup (dkeys d) -> table_sync true t d ->
  foldl (fun d row => dset d (key row) (restored row)) [] rows ≡ₚ d.
Proof.
  intros Ht Hr Hd Hs. destruct (restore_sync t rows Ht Hr) as [Hnd Hs']. apply dget_perm; [done..|]. intros k.
  by rewrite <- (table_sync_exact _ _ Hs), <- (table_sync_exact _ _ Hs').
Qed.

(** It has the entries of the map, whatever else it has. *)
Lemma restore_held b t rows d k e : keyed key t -> rows ≡ₚ (map_to_list t).*2 -> table_sync b t d -> dget d k = Some e ->
  dget (foldl (fun d row => dset d (key row) (restored row)) [] rows) k = Some e.
Proof.
  intros Ht Hr Hs He. destruct (restore_sync t rows Ht Hr) as [_ Hs']. rewrite <- (table_sync_exact _ _ Hs'). specialize (Hs k).
  by rewrite He in Hs.
Qed.
End table_sync.

(** * The caches over the life of the client *)

Section life.
Context `{J : JSON} `{C : Collation} {RT : JSONRoundTrip (J:=J)}.

Definition commit_times_sync (b : bool) (t : cache_tables) (c : caches) : Prop :=
  table_sync pr_updatedAt b (t_commits t) (projectCommitUpdatedAt c).

(** What the tables will hold is what the maps hold, and more unless [b]. *)
Record caches_synced (b : bool) (t : cache_tables) (c : caches) : Prop := {
  cs_commits_keyed : keyed pr_projectId (t_commits t);
  cs_diffs_keyed : keyed dr_k (t_diffs t);
  cs_files_keyed : keyed fr_k (t_files t);
  cs_commits : table_sync restored_commits b (t_commits t) (projectCommits c);
  cs_times : commit_times_sync b t c;
  cs_diffs : table_sync restored_diff b (t_diffs t) (diffCache c);
  cs_files : table_sync restored_file b (t_files t) (fileCache c)
}.

Definition commits_within (c : caches) : Prop :=
  within (commit_budget (projectCommitUpdatedAt c)) PROJECT_COMMITS_CACHE_MAX_ENTRIES PROJECT_COMMITS_CACHE_MAX_BYTES (projectCommits c).
Definition diffs_within (c : caches) : Prop := within diff_budget DIFF_CACHE_MAX_ENTRIES DIFF_CACHE_MAX_BYTES (diffCache c).
Definition files_within (c : caches) : Prop := within file_budget FILE_CACHE_MAX_ENTRIES FILE_CACHE_MAX_BYTES (fileCache c).

Record caches_ok (pruned : bool) (c : caches) : Prop := {
  co_commits : NoDup (dkeys (projectCommits c));
  co_times : NoDup (dkeys (projectCommitUpdatedAt c));
  co_diffs : NoDup (dkeys (diffCache c));
  co_files : NoDup (dkeys (fileCache c));
  co_commits_within : pruned = true -> commits_within c;
  co_diffs_within : diffs_within c;
  co_files_within : files_within c
}.

Lemma text_bytes s : 0 <= approximateTextBytes s.
Proof. unfold approximateTextBytes. lia. Qed.
Lemma commit_bytes times e : 0 <= be_approximateBytes (commit_budget times e).
Proof. apply text_bytes. Qed.
Lemma diff_bytes e : 0 <= be_approximateBytes (diff_budget e).
Proof. apply text_bytes. Qed.
Lemma file_bytes e : 0 <= be_approximateBytes (file_budget e).
Proof.
  unfold file_budget. cbn [be_approximateBytes]. pose proof (text_bytes e.1). pose proof (text_bytes (fl_hash e.2)).
  pose proof (text_bytes (fl_value e.2)). lia.
Qed.

(** The budget of the commits that are kept does not depend on the times of the others. *)
Lemma commit_budget_delete d times keys :
  map (commit_budget (delete_keys times keys)) (delete_keys d keys) = map (commit_budget times) (delete_keys d keys).
Proof using J.
  apply map_ext_in. intros e He%list_elem_of_In. apply elem_of_delete_keys in He as [_ He].
  unfold commit_budget. by rewrite dget_delete_keys, bool_decide_false.
Qed.

Lemma evict_commits_within c now : NoDup (dkeys (projectCommits c)) -> commits_within (evictProjectCommitEntries now c).2.
Proof using.
  intros H. unfold commits_within, within. cbn [evictProjectCommitEntries snd with_commits projectCommits projectCommitUpdatedAt].
  rewrite commit_budget_delete.
  apply (evicted_within (commit_budget (projectCommitUpdatedAt c)) _ _ (fun _ => eq_refl)); [done..|exact H].
Qed.
Lemma evict_diffs_within c now : NoDup (dkeys (diffCache c)) -> diffs_within (evictDiffEntries now c).2.
Proof using. intros H. by apply (evicted_within diff_budget _ _ (fun _ => eq_refl)). Qed.
Lemma evict_files_within c now : NoDup (dkeys (fileCache c)) -> files_within (evictFileEntries now c).2.
Proof using. intros H. by apply (evicted_within file_budget _ _ (fun _ => eq_refl)). Qed.

Lemma restored_diff_row k e : restored_diff (diff_row k e) = e.
Proof using RT.
  unfold restored_diff, diff_row, tryParse, serialize. cbn [dr_v dr_updatedAt]. rewrite json_roundtrip by done. by destruct e.
Qed.

Lemma restored_file_row k e : restored_file (file_row k e) = e.
Proof using. by destruct e. Qed.

Definition commits_data (s : PersistedProjectCommitsState) : bool :=
  json_data (VArr (pc_commits s)) && json_data (pc_commitFilesBySha s) &&
  match pc_commitFilesBySha s with VObj _ | VArr _ => true | _ => false end.

Lemma restored_commits_row k s now : commits_data s = true -> restored_commits (commits_row k s now) = s.
Proof using RT.
  unfold commits_data. rewrite !andb_true_iff. intros [[H1 H2] H3].
  unfold restored_commits, commits_row, tryParse, serialize. cbn [pr_commitsJson pr_commitFilesByShaJson].
  rewrite !json_roundtrip by done. unfold sanitizeProjectCommitsState. cbn [default]. unfold id. destruct s as [l f]. by destruct f.
Qed.
Inductive caches_op :=
  | OpCommits (now : Z) (projectId : string) (commits commitFilesBySha : option value)
  | OpDiff (now : Z) (projectId key diff : string) (isBinary truncated : bool)
  | OpFile (now : Z) (projectId kind path hash text : string)
  | OpClearFiles
  | OpClear.

Definition caches_step (op : caches_op) (c : caches) : caches :=
  match op with
  | OpCommits now projectId commits commitFilesBySha => patchProjectCommitsState now projectId commits commitFilesBySha c
  | OpDiff now projectId key diff isBinary truncated => putProjectDiff now projectId key diff isBinary truncated c
  | OpFile now projectId kind path hash text => putCachedFile now projectId kind path hash text c
  | OpClearFiles => clearFileCache c
  | OpClear => clearCache c
  end.

(** Commits are JSON data. *)
Definition op_data (c : caches) (op : caches_op) : Prop :=
  match op with
  | OpCommits _ projectId commits commitFilesBySha => commits_data (patchedCommits projectId commits commitFilesBySha c) = true
  | _ => True
  end.

Lemma patchCommits_ok b pr t c now projectId commits files : caches_ok pr c -> caches_synced b (caches_landed t c) c ->
  commits_data (patchedCommits projectId commits files c) = true ->
  let c' := patchProjectCommitsState now projectId commits files c in caches_ok pr c' /\ caches_synced b (caches_landed t c') c'.
Proof using RT.
  intros [N1 N2 N3 N4 W1 W2 W3] [K1 K2 K3 S1 S2 S3 S4] Hdata. unfold patchProjectCommitsState. cbn zeta.
  destruct (nonempty projectId); [|split; by constructor]. cbn [negb].
  set (next := patchedCommits projectId commits files c) in *.
  set (c1 := with_commits (dset (projectCommits c) projectId next) (dset (projectCommitUpdatedAt c) projectId now) c).
  pose proof (evict_commits_within c1 now) as Hw. unfold evictProjectCommitEntries in *.
  set (keys := cacheEvictionKeys _ _ _ now) in *. cbn [fst snd] in *.
  assert (NoDup (dkeys (projectCommits c1))) as N1' by by apply dset_NoDup. specialize (Hw N1').
  split.
  - split; try done; cbn [enqueueCacheMutation with_writes with_commits projectCommits projectCommitUpdatedAt diffCache fileCache].
    + by apply delete_keys_NoDup.
    + by apply delete_keys_NoDup, dset_NoDup.
  - rewrite caches_landed_enqueue. change (caches_landed t (with_commits ?a ?b c1)) with (caches_landed t c).
    cbn [foldl mutate_caches enqueueCacheMutation with_writes with_commits projectCommits projectCommitUpdatedAt diffCache fileCache].
    split; try done; cbn [t_commits t_diffs t_files].
    + by apply mutate_table_keyed.
    + eapply put_table_sync with (row := fun p => commits_row projectId p now); [done|done|by apply restored_commits_row|].
      intros k'. apply dget_delete_keys.
    + unfold commit_times_sync. cbn [t_commits projectCommitUpdatedAt with_commits enqueueCacheMutation].
      assert (match dget (delete_keys (projectCommits c1) keys) projectId with Some p => [commits_row projectId p now] | None => [] end =
        match dget (delete_keys (projectCommitUpdatedAt c1) keys) projectId with Some n => [commits_row projectId next n] | None => [] end) as ->.
      { rewrite !dget_delete_keys. destruct (bool_decide _); [done|]. cbn [c1 with_commits projectCommits projectCommitUpdatedAt].
        by rewrite !dget_dset, !decide_True. }
      eapply put_table_sync with (row := fun n => commits_row projectId next n); [done..|]. intros k'. apply dget_delete_keys.
Qed.
Lemma putDiff_ok b pr t c now projectId key diff isBinary truncated : caches_ok pr c -> caches_synced b (caches_landed t c) c ->
  let c' := putProjectDiff now projectId key diff isBinary truncated c in caches_ok pr c' /\ caches_synced b (caches_landed t c') c'.
Proof using RT.
  intros [N1 N2 N3 N4 W1 W2 W3] [K1 K2 K3 S1 S2 S3 S4]. unfold putProjectDiff. cbn zeta.
  destruct (negb (nonempty projectId) || negb (nonempty key)); [split; by constructor|].
  set (k := diffCacheKey projectId key). set (e := {| df_diff := diff; df_updatedAt := now |}).
  set (d := dset (diffCache c) k e). set (surplus := surplus_diffs _ d).
  set (c1 := with_diffs (delete_keys d surplus) c).
  pose proof (evict_diffs_within c1 now) as Hw. unfold evictDiffEntries in *.
  set (keys := cacheEvictionKeys _ _ _ now) in *. cbn [fst snd] in *.
  assert (NoDup (dkeys (diffCache c1))) as N3' by by apply delete_keys_NoDup, dset_NoDup. specialize (Hw N3').
  split.
  - split; try done. by apply delete_keys_NoDup.
  - rewrite caches_landed_enqueue. change (caches_landed t (with_diffs ?a c1)) with (caches_landed t c).
    cbn [foldl mutate_caches enqueueCacheMutation with_writes with_diffs projectCommits projectCommitUpdatedAt diffCache fileCache].
    split; try done; cbn [t_commits t_diffs t_files].
    + by apply mutate_table_keyed.
    + eapply put_table_sync with (row := diff_row k) (e := e); [done|done|apply restored_diff_row|].
      intros k'. cbn [c1 enqueueCacheMutation with_writes with_diffs diffCache]. rewrite !dget_delete_keys. destruct (decide (k' ∈ surplus)) as [H1|H1].
      * rewrite (bool_decide_true (k' ∈ unique _)) by (apply elem_of_unique, elem_of_app; by left).
        rewrite (bool_decide_true _ H1). by destruct (bool_decide (k' ∈ keys)).
      * rewrite (bool_decide_false _ H1). assert (bool_decide (k' ∈ unique (surplus ++ keys)) = bool_decide (k' ∈ keys)) as ->; [|done].
        apply bool_decide_ext. rewrite elem_of_unique, elem_of_app. naive_solver.
Qed.

Lemma putFile_ok b pr t c now projectId kind path hash text : caches_ok pr c -> caches_synced b (caches_landed t c) c ->
  let c' := putCachedFile now projectId kind path hash text c in caches_ok pr c' /\ caches_synced b (caches_landed t c') c'.
Proof using RT.
  intros [N1 N2 N3 N4 W1 W2 W3] [K1 K2 K3 S1 S2 S3 S4]. unfold putCachedFile. cbn zeta.
  destruct (negb (nonempty projectId) || negb (nonempty path)); [split; by constructor|].
  set (k := fileCacheKey projectId kind path). set (e := {| fl_hash := hash; fl_value := text; fl_updatedAt := now |}).
  set (c1 := with_files (dset (fileCache c) k e) c).
  pose proof (evict_files_within c1 now) as Hw. unfold evictFileEntries in *.
  set (keys := cacheEvictionKeys _ _ _ now) in *. cbn [fst snd] in *.
  assert (NoDup (dkeys (fileCache c1))) as N4' by by apply dset_NoDup. specialize (Hw N4').
  split.
  - split; try done. by apply delete_keys_NoDup.
  - rewrite caches_landed_enqueue. change (caches_landed t (with_files ?a c1)) with (caches_landed t c).
    cbn [foldl mutate_caches enqueueCacheMutation with_writes with_files projectCommits projectCommitUpdatedAt diffCache fileCache].
    split; try done; cbn [t_commits t_diffs t_files].
    + by apply mutate_table_keyed.
    + eapply put_table_sync with (row := file_row k) (e := e); [done|done|apply restored_file_row|]. intros k'. apply dget_delete_keys.
Qed.

Lemma within_nil {E} (budget : string * E -> CacheBudgetEntry) a b : 0 <= a -> 0 <= b -> within budget a b [].
Proof using. done. Qed.

Lemma cleared_caches_ok b pr t c : caches_ok pr c -> caches_synced b (caches_landed t c) c ->
  (caches_ok pr (clearFileCache c) /\ caches_synced b (caches_landed t (clearFileCache c)) (clearFileCache c)) /\
  (caches_ok pr (clearCache c) /\ caches_synced b (caches_landed t (clearCache c)) (clearCache c)).
Proof using.
  intros [N1 N2 N3 N4 W1 W2 W3] [K1 K2 K3 S1 S2 S3 S4]. unfold clearFileCache, clearCache. rewrite !caches_landed_enqueue.
  split; split.
  - split; try done. constructor.
  - split; try done; first [by apply mutate_table_keyed|apply clear_table_sync].
  - split; try done; apply NoDup_nil_2.
  - split; first [apply clear_table_sync|by apply mutate_table_keyed].
Qed.

Lemma caches_step_ok b pr t c op : caches_ok pr c -> caches_synced b (caches_landed t c) c -> op_data c op ->
  caches_ok pr (caches_step op c) /\ caches_synced b (caches_landed t (caches_step op c)) (caches_step op c).
Proof using RT.
  intros Hok Hs Hop. destruct op; cbn [caches_step].
  - by apply patchCommits_ok.
  - by apply putDiff_ok.
  - by apply putFile_ok.
  - by apply cleared_caches_ok.
  - by apply cleared_caches_ok.
Qed.
(** ** Restarts *)

Lemma delete_mutations t keys :
  foldl mutate_caches t (delete_mutation (fun keys => MCommits false keys []) keys) = mutate_caches t (MCommits false keys []) /\
  foldl mutate_caches t (delete_mutation (fun keys => MDiffs false keys []) keys) = mutate_caches t (MDiffs false keys []) /\
  foldl mutate_caches t (delete_mutation (fun keys => MFiles false keys []) keys) = mutate_caches t (MFiles false keys []).
Proof using. destruct keys; [|done]. by destruct t. Qed.

(** The caches as the rows of the tables give them, before they are pruned. *)
Definition restored_caches (cr : list RawProjectCommitsRow) (dr : list RawDiffCacheRow) (fr : list RawFileCacheRow) : caches :=
  restoreFileCache fr (restoreDiffCache dr (restoreProjectCommits cr no_caches)).

Record table_rows (t : cache_tables) (cr : list RawProjectCommitsRow) (dr : list RawDiffCacheRow) (fr : list RawFileCacheRow) : Prop := {
  tr_commits : cr ≡ₚ (map_to_list (t_commits t)).*2;
  tr_diffs : dr ≡ₚ (map_to_list (t_diffs t)).*2;
  tr_files : fr ≡ₚ (map_to_list (t_files t)).*2
}.

Record tables_keyed (t : cache_tables) : Prop := {
  tk_commits : keyed pr_projectId (t_commits t); tk_diffs : keyed dr_k (t_diffs t); tk_files : keyed fr_k (t_files t)
}.

Lemma restored_synced t cr dr fr : tables_keyed t -> table_rows t cr dr fr ->
  let c := restored_caches cr dr fr in writes c = [] /\ caches_synced true t c /\ NoDup (dkeys (projectCommits c)) /\
  NoDup (dkeys (projectCommitUpdatedAt c)) /\ NoDup (dkeys (diffCache c)) /\ NoDup (dkeys (fileCache c)).
Proof using.
  intros [K1 K2 K3] [R1 R2 R3]. cbn zeta.
  destruct (restore_sync pr_projectId restored_commits _ _ K1 R1) as [N1 S1].
  destruct (restore_sync pr_projectId pr_updatedAt _ _ K1 R1) as [N2 S2].
  destruct (restore_sync dr_k restored_diff _ _ K2 R2) as [N3 S3].
  destruct (restore_sync fr_k restored_file _ _ K3 R3) as [N4 S4].
  split_and!; done.
Qed.

Lemma prune_ok b t c now : caches_synced b (caches_landed t c) c -> NoDup (dkeys (projectCommits c)) ->
  NoDup (dkeys (projectCommitUpdatedAt c)) -> NoDup (dkeys (diffCache c)) -> NoDup (dkeys (fileCache c)) ->
  let c' := pruneCachesAfterRestore now c in caches_ok true c' /\ caches_synced b (caches_landed t c') c'.
Proof using.
  intros [K1 K2 K3 S1 S2 S3 S4] N1 N2 N3 N4. unfold pruneCachesAfterRestore. cbn zeta.
  pose proof (evict_commits_within c now N1) as W1. unfold evictProjectCommitEntries in *.
  set (keys1 := cacheEvictionKeys (projectCommitBudgetEntries c) _ _ now) in *. cbn [fst snd] in W1.
  set (c1 := with_commits _ _ c) in *. pose proof (evict_diffs_within c1 now N3) as W2. unfold evictDiffEntries in *.
  set (keys2 := cacheEvictionKeys (diffBudgetEntries c1) _ _ now) in *. cbn [fst snd] in W2.
  set (c2 := with_diffs _ c1) in *. pose proof (evict_files_within c2 now N4) as W3. unfold evictFileEntries in *.
  set (keys3 := cacheEvictionKeys (fileBudgetEntries c2) _ _ now) in *. cbn [fst snd] in W3.
  split.
  - split; try done; by apply delete_keys_NoDup.
  - rewrite caches_landed_enqueue. change (caches_landed t (with_files ?a c2)) with (caches_landed t c). rewrite !foldl_app.
    rewrite (proj1 (delete_mutations _ keys1)), (proj1 (proj2 (delete_mutations _ keys2))), (proj2 (proj2 (delete_mutations _ keys3))).
    cbn [mutate_caches t_commits t_diffs t_files]. split; cbn [t_commits t_diffs t_files].
    1-3: by apply mutate_table_keyed.
    1-4: eapply delete_table_sync; [done|]; intros k; apply dget_delete_keys.
Qed.

(** What [initialize] makes of rows. *)
Lemma initialize_ok t incompatible now cr dr fr : tables_keyed t -> table_rows t cr dr fr ->
  let c := initializeCaches incompatible now cr dr fr in
  caches_ok (negb incompatible) c /\ caches_synced true (caches_landed t c) c.
Proof using.
  intros Ht Hr. destruct (restored_synced t cr dr fr Ht Hr) as (Hw & Hs & N1 & N2 & N3 & N4). cbn zeta. unfold initializeCaches.
  destruct incompatible; cbn [negb].
  - rewrite caches_landed_enqueue. unfold caches_landed. cbn [writes with_files with_diffs with_commits restoreProjectCommits no_caches foldl].
    destruct Hs as [K1 K2 K3 S1 S2 S3 S4]. split.
    + split; [exact N1|exact N2|constructor|constructor|done|done|done].
    + split; [exact K1|by apply mutate_table_keyed|by apply mutate_table_keyed|exact S1|exact S2|apply clear_table_sync..].
  - apply prune_ok; [|done..]. unfold caches_landed. change (writes (restoreFileCache _ _)) with (writes (restored_caches cr dr fr)). by rewrite Hw.
Qed.

(** ** The queue, and full storage *)

Lemma run_job_keyed t job : tables_keyed t -> tables_keyed (run_job t job).
Proof using.
  revert t; induction job as [|m job IH]; intros t [K1 K2 K3]; [done|]. apply IH.
  destruct m; split; cbn [mutate_caches t_commits t_diffs t_files]; try done; by apply mutate_table_keyed.
Qed.

Lemma landed_keyed t c : tables_keyed t -> tables_keyed (caches_landed t c).
Proof using.
  unfold caches_landed. revert t; induction (writes c) as [|job l IH]; intros t H; [done|]. cbn [foldl]. by apply IH, run_job_keyed.
Qed.

(** Clearing under pressure leaves the tables in step with the maps if it goes through and
    no job waits; otherwise rows may come back, or stay, that the maps do not have. *)
Definition quiet (stored : bool) (c : caches) : bool := stored && match writes c with [] => true | _ => false end.

Lemma pressure_ok b pr t c stored : tables_keyed t -> caches_ok pr c ->
  let tc := clearRebuildableCachesForStoragePressure stored (t, c) in
  tables_keyed tc.1 /\ caches_ok pr tc.2 /\ caches_synced (b && quiet stored c) (caches_landed tc.1 tc.2) tc.2.
Proof using.
  intros Hk [N1 N2 N3 N4 W1 W2 W3]. cbn zeta. unfold clearRebuildableCachesForStoragePressure. cbn [fst snd].
  assert (tables_keyed (if stored then run_job t clear_mutations else t)) as Hk' by (destruct stored; [by apply run_job_keyed|done]).
  split; [done|]. split; [split; try done; apply NoDup_nil_2|].
  pose proof (landed_keyed _ (clear_maps c) Hk') as [K1 K2 K3].
  destruct (b && quiet stored c) eqn:Eq; [|split; [done..|apply table_sync_empty|apply table_sync_empty|apply table_sync_empty|apply table_sync_empty]].
  apply andb_true_iff in Eq as [_ Eq]. unfold quiet in Eq. apply andb_true_iff in Eq as [-> Eq]. unfold caches_landed in *.
  change (writes (clear_maps c)) with (writes c) in *. destruct (writes c); [|done]. cbn [foldl] in *.
  split; [done..|apply clear_table_sync|apply clear_table_sync|apply clear_table_sync|apply clear_table_sync].
Qed.

(** ** The life of the caches *)

(** From the tables [t0]: the caches, and the tables as they are.  A job of the queue runs
    when its turn comes; a restart finds the tables as they are then.  [exact] says whether
    every clearing under pressure since the last start was a quiet one, and [pruned]
    whether that start pruned the commits. *)
Inductive caches_reach (t0 : cache_tables) : bool -> bool -> cache_tables -> caches -> Prop :=
  | caches_start incompatible now cr dr fr : table_rows t0 cr dr fr ->
      caches_reach t0 true (negb incompatible) t0 (initializeCaches incompatible now cr dr fr)
  | caches_op_step exact pruned t c op : caches_reach t0 exact pruned t c -> op_data c op ->
      caches_reach t0 exact pruned t (caches_step op c)
  | caches_job exact pruned t c job rest : caches_reach t0 exact pruned t c -> writes c = job :: rest ->
      caches_reach t0 exact pruned (run_job t job) (with_writes rest c)
  | caches_pressure exact pruned t c stored : caches_reach t0 exact pruned t c ->
      let tc := clearRebuildableCachesForStoragePressure stored (t, c) in
      caches_reach t0 (exact && quiet stored c) pruned tc.1 tc.2
  | caches_restarted exact pruned t c incompatible now cr dr fr : caches_reach t0 exact pruned t c -> table_rows t cr dr fr ->
      caches_reach t0 true (negb incompatible) t (initializeCaches incompatible now cr dr fr).

Lemma caches_reach_ok t0 exact pruned t c : tables_keyed t0 -> caches_reach t0 exact pruned t c ->
  tables_keyed t /\ caches_ok pruned c /\ caches_synced exact (caches_landed t c) c.
Proof using RT.
  intros H0 H. induction H as [incompatible now cr dr fr Hr|exact pruned t c op _ (IH0 & IH1 & IH2) Hop
    |exact pruned t c job rest _ (IH0 & IH1 & IH2) Hw|exact pruned t c stored _ (IH0 & IH1 & IH2)
    |exact pruned t c incompatible now cr dr fr _ (IH0 & IH1 & IH2) Hr].
  - split; [done|]. by apply initialize_ok.
  - split; [done|]. by apply caches_step_ok.
  - split; [by apply run_job_keyed|]. split; [by destruct IH1|].
    assert (caches_landed (run_job t job) (with_writes rest c) = caches_landed t c) as ->
      by (unfold caches_landed; cbn [writes with_writes]; by rewrite Hw).
    by destruct IH2.
  - by apply pressure_ok.
  - split; [done|]. by apply initialize_ok.
Qed.

(** What an entry is worth at a restart: it is gone when it is too old. *)
Definition unexpired {E} (updatedAt : E -> Z) (now : Z) (o : option E) : option E :=
  e ← o; if CACHE_MAX_AGE_MS <? now - updatedAt e then None else Some e.

Lemma restart_entries {E} (budget : string * E -> CacheBudgetEntry) a b now (d d' : list (string * E)) k :
  (forall e, be_key (budget e) = e.1) -> (forall e, 0 <= be_approximateBytes (budget e)) -> 0 <= a -> 0 <= b ->
  NoDup (dkeys d) -> within budget a b d -> d' ≡ₚ d ->
  dget (delete_keys d' (cacheEvictionKeys (map budget d') a b now)) k =
  (e ← dget d k; if CACHE_MAX_AGE_MS <? now - be_updatedAt (budget (k, e)) then None else Some e).
Proof using.
  intros Hk Hb Ha Hb' Hnd Hw Hp.
  assert (NoDup (dkeys d')) as Hnd' by (unfold dkeys; by rewrite Hp).
  assert (within budget a b d') as Hw'.
  { unfold within. by rewrite Hp. }
  assert (dget d' k = dget d k) as Hd.
  { destruct (dget d k) as [e|] eqn:Ed.
    - apply dget_in; [done|]. rewrite Hp. by apply dget_Some_in.
    - apply dget_None. apply dget_None in Ed. unfold dkeys in *. by rewrite Hp. }
  rewrite dget_delete_keys, Hd. destruct (dget d k) as [e|] eqn:Ed; [|by case_bool_decide]. cbn [mbind option_bind].
  apply dget_Some_in in Hd. pose proof (within_evicts_expired budget a b Hk Hb Ha Hb' d' now (k, e) Hnd' Hw' Hd) as Hiff.
  unfold expired in Hiff. cbn [fst] in Hiff. destruct (Z.ltb_spec CACHE_MAX_AGE_MS (now - be_updatedAt (budget (k, e)))) as [H|H].
  - rewrite bool_decide_true; [done|]. by apply Hiff.
  - rewrite bool_decide_false; [done|]. intros Hin%Hiff. lia.
Qed.
End life.

Definition empty_tables : cache_tables := {| t_commits := ∅; t_diffs := ∅; t_files := ∅ |}.
Definition sample_ops : list caches_op :=
  [OpFile 0 "h:p" "file" "a.ts" "1" "text"; OpDiff 5000000000 "h:p" "sha::a.ts" "+x" false false;
   OpCommits 5000000000 "h:p" (Some (VArr [VObj [("sha", VStr "1")]])) None]%string.
Definition sample_start : caches := initializeCaches (J:=js_JSON) (C:=code_collation) false 0 [] [] [].
Definition sample_caches : caches := foldl (fun c op => caches_step (J:=js_JSON) (C:=code_collation) op c) sample_start sample_ops.
Definition sample_tables : cache_tables := caches_landed empty_tables sample_caches.

Lemma empty_tables_keyed : tables_keyed empty_tables.
Proof. split; intros k r Hr; cbn [t_commits t_diffs t_files empty_tables] in Hr; by rewrite lookup_empty in Hr. Qed.

Lemma sample_caches_reach : caches_reach (J:=js_JSON) (C:=code_collation) empty_tables true true empty_tables sample_caches.
Proof.
  unfold sample_caches, sample_ops. cbn [foldl].
  repeat (apply (caches_op_step (J:=js_JSON) (C:=code_collation)); [|first [exact I|vm_compute; reflexivity]]).
  apply (caches_start (J:=js_JSON) (C:=code_collation) empty_tables false). split; vm_compute; apply Permutation_refl.
Qed.


(** A file whose write waits when the storage is found full: the caches are emptied and the
    tables at once, and then the write lands, so the next start has the file again. *)
Lemma pressure_overtakes :
  let c := caches_step (J:=js_JSON) (C:=code_collation) (OpFile 0 "h:p" "file" "a.ts" "1" "text") sample_start in
  let tc := clearRebuildableCachesForStoragePressure true (empty_tables, c) in
  fileCache tc.2 = [] /\ t_files tc.1 = ∅ /\ is_Some (t_files (caches_landed tc.1 tc.2) !! fileCacheKey "h:p" "file" "a.ts").
Proof. cbn zeta. split; [vm_compute; reflexivity|]. split; [vm_compute; reflexivity|]. eexists. vm_compute. reflexivity. Qed.
