(* ===== verification/WorkspaceStorage.v ===== *)
(** How [workspace/WorkspacePersistence.ts] keeps the settings and the project states:
    the rows a patch writes, the queue that writes them and its recovery when the quota is
    exceeded, and what a restart makes of the rows. *)

From S2P Require Import Prelude Json JsonRoundTrip HubPreferences WorkspaceUi PreviewWorkbench PortRelayTargets WorkspaceSettings.
From S2P Require Import Collation RegistryTypes CacheEviction ChatCacheTurns ChatCache ChatCacheSync WorkspaceCaches.
Open Scope Z_scope.

Record RawKVRow := { kv_k : string; kv_v : string; kv_updatedAt : Z }.
Record RawProjectStateRow := { ps_projectId : string; ps_stateJson : string; ps_updatedAt : Z }.

Definition OBSOLETE_GLOBAL_ROWS : list string := ["address"; "token"; "deepseekApiKey"; "speechSettings"; "ttsSettings"]%string.
Definition obsoleteBrowserCredentialRows (rows : list RawKVRow) : list string :=
  unique (bfilter (fun k => bool_decide (k ∈ OBSOLETE_GLOBAL_ROWS)) (map kv_k rows)).

(** What a write to the database comes to. *)
Inductive write_result := Stored | QuotaExceeded | OtherError.

Record storage := {
  st_global : PersistedGlobalState;
  st_projects : list (string * PersistedProjectState);
  st_queue : list (list RawKVRow);           (* the settings waiting in [writeQueue] *)
  st_reports : list string;                  (* the operations reported as failed *)
  st_cleared : nat;                          (* how often the rebuildable caches were cleared *)
  st_rows : gmap string RawKVRow;            (* [TABLE_GLOBAL_KV] *)
  st_project_rows : gmap string RawProjectStateRow
}.

Section storage.
Context `{J : JSON}.

(** [cloneState]. *)
Definition cloneState (v : value) : value := default VUndefined (JSON_parse (JSON_stringify v)).

Definition globalRowsForPatch (patch : list (string * value)) (state : value) (updatedAt : Z) : list RawKVRow :=
  omap (fun key => if bool_decide (key ∈ GLOBAL_KEYS)
                   then Some {| kv_k := key; kv_v := serialize (prop (properties state) key); kv_updatedAt := updatedAt |} else None)
       (map fst patch).

Definition globalRows (g : PersistedGlobalState) (updatedAt : Z) : list RawKVRow :=
  map (fun e => {| kv_k := e.1; kv_v := serialize e.2; kv_updatedAt := updatedAt |}) (settings_object g).

(** ** Reading the rows *)

Definition collectGlobal (patch : list (string * value)) (row : RawKVRow) : list (string * value) :=
  if bool_decide (kv_k row ∈ GLOBAL_KEYS) then dset patch (kv_k row) (tryParse (kv_v row) (VStr (kv_v row))) else patch.

Definition restoredProject (row : RawProjectStateRow) : PersistedProjectState :=
  sanitizeProjectState (tryParse (ps_stateJson row) (VObj (project_object defaultProjectState))).

Definition fromDbRows (globalRows : list RawKVRow) (projectRows : list RawProjectStateRow)
    : PersistedGlobalState * list (string * PersistedProjectState) :=
  (sanitizeGlobalState (Some (spread (settings_object defaultGlobalState) (foldl collectGlobal [] globalRows))),
   foldl (fun d row => dset d (ps_projectId row) (restoredProject row)) [] projectRows).

(** The settings and projects of [initialize]: credentials of earlier versions are deleted,
    and an empty database is seeded with the defaults. [other] says whether another store
    has rows. *)
Definition initializeStorage (now : Z) (other : bool) (rows : gmap string RawKVRow) (projectRows : gmap string RawProjectStateRow)
    (globalRows0 : list RawKVRow) (projectRows0 : list RawProjectStateRow) : storage :=
  let obsoleteRows := obsoleteBrowserCredentialRows globalRows0 in
  let table := delete_all rows obsoleteRows in
  let scrubbed := bfilter (fun row => negb (bool_decide (kv_k row ∈ obsoleteRows))) globalRows0 in
  match scrubbed, projectRows0, other with
  | [], [], false =>
      {| st_global := defaultGlobalState; st_projects := []; st_queue := []; st_reports := []; st_cleared := 0;
         st_rows := put_all kv_k table (globalRows defaultGlobalState now); st_project_rows := projectRows |}
  | _, _, _ =>
      let restored := fromDbRows scrubbed projectRows0 in
      {| st_global := restored.1; st_projects := restored.2; st_queue := []; st_reports := []; st_cleared := 0;
         st_rows := table; st_project_rows := projectRows |}
  end.

(** ** Patches *)

Definition patchGlobalState (now : Z) (patch : list (string * value)) (s : storage) : storage :=
  let global := sanitizeGlobalState (Some (spread (settings_object (st_global s)) patch)) in
  let next := cloneState (VObj (settings_object global)) in
  let rows := globalRowsForPatch patch next now in
  {| st_global := global; st_projects := st_projects s;
     st_queue := match rows with [] => st_queue s | _ => st_queue s ++ [rows] end;
     st_reports := st_reports s; st_cleared := st_cleared s; st_rows := st_rows s; st_project_rows := st_project_rows s |}.

Definition patchedProject (projectId : string) (patch : list (string * value)) (s : storage) : PersistedProjectState :=
  let current := default defaultProjectState (dget (st_projects s) projectId) in
  sanitizeProjectState (VObj (spread (project_object current) patch)).

(** The row of a project is written directly; a failure is dropped. *)
Definition patchProjectState (now : Z) (projectId : string) (patch : list (string * value)) (result : write_result) (s : storage) : storage :=
  if negb (nonempty projectId) then s else
  let next := patchedProject projectId patch s in
  let nextState := cloneState (VObj (project_object next)) in
  {| st_global := st_global s; st_projects := dset (st_projects s) projectId next; st_queue := st_queue s;
     st_reports := st_reports s; st_cleared := st_cleared s; st_rows := st_rows s;
     st_project_rows := match result with
       | Stored => <[projectId := {| ps_projectId := projectId; ps_stateJson := serialize nextState; ps_updatedAt := now |}]> (st_project_rows s)
       | _ => st_project_rows s end |}.

Definition getGlobalState (s : storage) : value := cloneState (VObj (settings_object (st_global s))).
Definition getProjectState (projectId : string) (s : storage) : value :=
  cloneState (VObj (project_object (default defaultProjectState (dget (st_projects s) projectId)))).

(** ** The queue *)

Definition report (operation : string) (s : storage) : storage :=
  {| st_global := st_global s; st_projects := st_projects s; st_queue := st_queue s; st_reports := st_reports s ++ [operation];
     st_cleared := st_cleared s; st_rows := st_rows s; st_project_rows := st_project_rows s |}.
Definition put_rows (rows : list RawKVRow) (s : storage) : storage :=
  {| st_global := st_global s; st_projects := st_projects s; st_queue := st_queue s; st_reports := st_reports s;
     st_cleared := st_cleared s; st_rows := put_all kv_k (st_rows s) rows; st_project_rows := st_project_rows s |}.
(** The caches in memory are cleared before the mutation that clears their stores. *)
Definition clear_caches (s : storage) : storage :=
  {| st_global := st_global s; st_projects := st_projects s; st_queue := st_queue s; st_reports := st_reports s;
     st_cleared := S (st_cleared s); st_rows := st_rows s; st_project_rows := st_project_rows s |}.

(** The results of the write, of the clearing, and of the second write. *)
Definition persistGlobalRowsWithQuotaRecovery (first clearing second : write_result) (rows : list RawKVRow) (s : storage) : storage :=
  match first with
  | Stored => put_rows rows s
  | OtherError => report "save global settings" s
  | QuotaExceeded =>
      let s := clear_caches s in
      match clearing with
      | Stored => match second with
                  | Stored => put_rows rows s
                  | _ => report "save global settings after cache cleanup" s
                  end
      | _ => report "save global settings after cache cleanup" s
      end
  end.

(** The next job of the queue. *)
Definition runQueue (first clearing second : write_result) (s : storage) : storage :=
  match st_queue s with
  | [] => s
  | rows :: rest =>
      persistGlobalRowsWithQuotaRecovery first clearing second rows
        {| st_global := st_global s; st_projects := st_projects s; st_queue := rest; st_reports := st_reports s;
           st_cleared := st_cleared s; st_rows := st_rows s; st_project_rows := st_project_rows s |}
  end.
End storage.

(** The settings of earlier versions are lost: the defaults spread under the rows already
    hold the keys that replaced [floatingControlSlot] and [desktopCollapsedProjectIds], so
    what [sanitizeGlobalState] does for the old keys is never reached from the rows. *)
Definition slot_row : RawKVRow := {| kv_k := "floatingControlSlot"; kv_v := "lower"; kv_updatedAt := 0 |}.
Definition collapsed_row : RawKVRow :=
  {| kv_k := "desktopCollapsedProjectIds"; kv_v := unchars (map ascii_of_code [91; 34; 112; 34; 93]); kv_updatedAt := 0 |}.

Lemma legacy_settings_ignored :
  let g := (fromDbRows (J:=js_JSON) [slot_row; collapsed_row] []).1 in
  let direct := sanitizeGlobalState (Some [("floatingControlSlot", VStr "lower"); ("desktopCollapsedProjectIds", VArr [VStr "p"])]%string) in
  (g_floatingControlYRatio g = 25 # 100 /\ g_collapsedProjectIds g = []) /\
  (g_floatingControlYRatio direct = 1%Q /\ g_collapsedProjectIds direct = ["p"]%string).
Proof. vm_compute. repeat split. Qed.

(** * What the rows hold *)

Lemma dget_spread (a b : list (string * value)) k : NoDup (map fst b) ->
  dget (spread a b) k = match dget b k with Some v => Some v | None => dget a k end.
Proof.
  revert a; induction b as [|[k' v] b IH]; intros a Hb; [done|]. apply NoDup_cons in Hb as [Hk Hb]. cbn [spread foldl].
  change (foldl _ ?d b) with (spread d b). rewrite IH by done. cbn [dget fst snd]. destruct (decide (k' = k)) as [->|Hne].
  - assert (dget b k = None) as -> by by apply dget_None. by rewrite dget_dset, decide_True.
  - destruct (dget b k); [done|]. by rewrite dget_dset, decide_False.
Qed.

Lemma prop_spread a b k : NoDup (map fst b) -> prop (spread a b) k = match dget b k with Some v => v | None => prop a k end.
Proof. intros H. rewrite !prop_dget, dget_spread by done. by destruct (dget b k). Qed.

Section rows.
Context `{J : JSON} {RT : JSONRoundTrip (J:=J)}.

Definition row_value (row : RawKVRow) : value := tryParse (kv_v row) (VStr (kv_v row)).

(** What the settings are read from: the rows of the known keys, over the defaults. *)
Definition look_rows (t : gmap string RawKVRow) (k : string) : value :=
  match t !! k with
  | Some row => if bool_decide (k ∈ GLOBAL_KEYS) then row_value row else prop (settings_object defaultGlobalState) k
  | None => prop (settings_object defaultGlobalState) k
  end.

Lemma collectGlobal_filter rows p : foldl collectGlobal p rows =
  foldl (fun d e => dset d e.1 e.2) p (map (fun row => (kv_k row, row_value row)) (bfilter (fun row => bool_decide (kv_k row ∈ GLOBAL_KEYS)) rows)).
Proof using.
  revert p; induction rows as [|row rows IH]; intros p; [done|]. cbn [foldl List.filter]. rewrite IH. unfold collectGlobal.
  destruct (bool_decide (kv_k row ∈ GLOBAL_KEYS)); done.
Qed.

Lemma dget_bfilter_rows (p : string -> bool) rows k :
  dget (map (fun row => (kv_k row, row_value row)) (bfilter (fun row => p (kv_k row)) rows)) k =
  if p k then dget (map (fun row => (kv_k row, row_value row)) rows) k else None.
Proof using.
  induction rows as [|row rows IH]; cbn [List.filter map dget]; [by destruct (p k)|]. destruct (p (kv_k row)) eqn:Ep; cbn [map dget].
  - rewrite IH. destruct (decide (kv_k row = k)) as [<-|]; [by rewrite Ep|done].
  - rewrite IH. destruct (decide (kv_k row = k)) as [<-|]; [by rewrite Ep|done].
Qed.

(** The settings read from the rows of a table, in any order. *)
Lemma fromDbRows_global t rows projectRows : keyed kv_k t -> rows ≡ₚ (map_to_list t).*2 ->
  (fromDbRows rows projectRows).1 = sanitize_settings (look_rows t).
Proof using.
  intros Ht Hr. cbn [fromDbRows fst sanitizeGlobalState]. rewrite collectGlobal_filter.
  set (kept := map _ (bfilter _ rows)).
  assert (NoDup (map fst kept)) as Hnd.
  { unfold kept. pose proof (rows_NoDup kv_k row_value t rows Ht Hr) as H. unfold dkeys in H. rewrite !map_map in *. cbn [fst] in *.
    by apply NoDup_map_bfilter. }
  change (foldl _ [] kept) with (dict_of kept). rewrite dict_of_id by done.
  apply settings_ext_look. intros k. rewrite prop_spread by done. unfold kept.
  pose proof (dget_bfilter_rows (fun k => bool_decide (k ∈ GLOBAL_KEYS)) rows k) as H. cbv beta in H. rewrite H. clear H.
  rewrite (rows_lookup kv_k row_value t rows k Ht Hr). unfold look_rows.
  destruct (t !! k), (bool_decide (k ∈ GLOBAL_KEYS)); done.
Qed.

Lemma look_rows_known t k : k ∈ settings_keys -> look_rows t k = default (prop (settings_object defaultGlobalState) k) (row_value <$> t !! k).
Proof using.
  intros Hk. unfold look_rows. assert (k ∈ GLOBAL_KEYS) as HG by (by right). destruct (t !! k); [|done]. by rewrite bool_decide_true.
Qed.

(** ** A patch and its rows *)

Definition patch_ok (patch : list (string * value)) : Prop := NoDup (map fst patch) /\ forall k, k ∈ map fst patch -> k ∈ settings_keys.

Lemma patch_row_keys patch v now : map kv_k (globalRowsForPatch patch v now) = bfilter (fun k => bool_decide (k ∈ GLOBAL_KEYS)) (map fst patch).
Proof using.
  unfold globalRowsForPatch. induction (map fst patch) as [|k l IH]; [done|]. cbn [omap list_omap List.filter].
  destruct (bool_decide (k ∈ GLOBAL_KEYS)); cbn [map kv_k]; by rewrite <- IH.
Qed.

(** Rows that say the same of each key they have. *)
Lemma put_all_uniform (f : string -> RawKVRow) rows t k : (forall row, row ∈ rows -> row = f (kv_k row)) ->
  put_all kv_k t rows !! k = if bool_decide (k ∈ map kv_k rows) then Some (f k) else t !! k.
Proof using.
  revert t; induction rows as [|row rows IH]; intros t Hf; [done|]. change (put_all kv_k t (row :: rows)) with (put_all kv_k (<[kv_k row := row]> t) rows).
  rewrite IH by (intros r Hr; apply Hf; by right). cbn [map]. destruct (bool_decide (k ∈ map kv_k rows)) eqn:E.
  - apply bool_decide_eq_true in E. rewrite bool_decide_true; [done|by right].
  - apply bool_decide_eq_false in E. rewrite lookup_insert. destruct (decide (kv_k row = k)) as [<-|Hne].
    + rewrite bool_decide_true by left. f_equal. apply Hf. by left.
    + rewrite bool_decide_false; [done|]. intros [H|H]%elem_of_cons; [by apply Hne|done].
Qed.

Lemma object_data props k : json_data (VObj props) = true -> k ∈ map fst props -> json_data (prop props k) = true.
Proof using.
  cbn [json_data]. rewrite andb_true_iff. intros [_ H] Hk. induction props as [|[k' v] props IH]; [by apply not_elem_of_nil in Hk|].
  cbn [forallb snd] in H. apply andb_true_iff in H as [Hv H]. cbn [prop]. destruct (String.eqb_spec k' k) as [->|Hne]; [done|].
  apply IH; [done|]. cbn [map fst] in Hk. by apply elem_of_cons in Hk as [->|].
Qed.

Lemma settings_object_keys g : map fst (settings_object g) = settings_keys.
Proof using. reflexivity. Qed.

Definition patch_rows (patch : list (string * value)) (g : PersistedGlobalState) (now : Z) : list RawKVRow :=
  globalRowsForPatch patch (cloneState (VObj (settings_object g))) now.

Lemma patch_rows_lookup t patch g now k : json_data (VObj (settings_object g)) = true ->
  put_all kv_k t (patch_rows patch g now) !! k =
  if bool_decide (k ∈ map fst patch) && bool_decide (k ∈ GLOBAL_KEYS)
  then Some {| kv_k := k; kv_v := serialize (prop (settings_object g) k); kv_updatedAt := now |} else t !! k.
Proof using RT.
  intros Hj. unfold patch_rows. assert (cloneState (VObj (settings_object g)) = VObj (settings_object g)) as -> by
    (unfold cloneState; by rewrite json_roundtrip).
  rewrite (put_all_uniform (fun k => {| kv_k := k; kv_v := serialize (prop (settings_object g) k); kv_updatedAt := now |})).
  2: { intros row (k' & _ & Hr)%list_elem_of_omap. destruct (bool_decide (k' ∈ GLOBAL_KEYS)); by simplify_eq. }
  rewrite patch_row_keys. rewrite <- bool_decide_and.
  erewrite bool_decide_ext; [reflexivity|]. by rewrite elem_of_bfilter, bool_decide_eq_true.
Qed.

(** The rows of a patch hold the settings after the patch, and the other rows are left. *)
Lemma look_rows_patch t patch g now k : json_data (VObj (settings_object g)) = true -> k ∈ settings_keys -> k ∈ map fst patch ->
  look_rows (put_all kv_k t (patch_rows patch g now)) k = prop (settings_object g) k.
Proof using RT.
  intros Hj Hk Hp. rewrite look_rows_known, patch_rows_lookup by done. assert (k ∈ GLOBAL_KEYS) as HG by (by right).
  rewrite !bool_decide_true by done. cbn [andb fmap option_fmap option_map default]. unfold id, row_value. cbn [kv_v].
  apply tryParse_serialize, object_data; [done|]. exact Hk.
Qed.

Lemma look_rows_rest t patch g now k : json_data (VObj (settings_object g)) = true -> k ∉ map fst patch ->
  look_rows (put_all kv_k t (patch_rows patch g now)) k = look_rows t k.
Proof using RT. intros Hj Hp. unfold look_rows. rewrite patch_rows_lookup, (bool_decide_false _ Hp) by done. done. Qed.

Definition patched_settings (patch : list (string * value)) (g : PersistedGlobalState) : PersistedGlobalState :=
  sanitizeGlobalState (Some (spread (settings_object g) patch)).

Lemma known_slot : "floatingControlSlot"%string ∉ settings_keys.
Proof using. by apply (bool_decide_unpack _); vm_compute. Qed.

(** When the rows say what the settings are, the rows after a patch say what they are
    after it. *)
Lemma patch_settings t patch now : let g := sanitize_settings (look_rows t) in let g' := patched_settings patch g in
  patch_ok patch -> json_data (VObj (settings_object g')) = true ->
  sanitize_settings (look_rows (put_all kv_k t (patch_rows patch g' now))) = g'.
Proof using RT.
  cbn zeta. intros [Hnd Hp] Hj. unfold patched_settings at 2. cbn [sanitizeGlobalState].
  set (g := sanitize_settings (look_rows t)) in *. set (look' := prop (spread (settings_object g) patch)).
  set (look2 := look_rows _).
  assert (forall k, k ∈ settings_keys -> k ∈ map fst patch -> look2 k = setting look' k) as Hin by (intros; by apply look_rows_patch).
  assert (forall k, k ∉ map fst patch -> look2 k = look_rows t k) as Hout by (intros; by apply look_rows_rest).
  assert (forall k, k ∉ map fst patch -> look' k = setting (look_rows t) k) as Hkept.
  { intros k Hk. unfold look'. rewrite prop_spread by done. by apply dget_None in Hk as ->. }
  assert (forall k, k ∈ settings_keys -> k <> "desktopCollapsedProjectIds"%string -> k ∈ map fst patch -> setting look2 k = setting look' k) as Hset.
  { intros k Hk Hne Hi. apply setting_fixed; [done..|]. by apply Hin. }
  assert (forall k, k ∈ settings_keys -> k <> "desktopCollapsedProjectIds"%string -> k ∉ map fst patch ->
    setting look' k = setting (look_rows t) k) as Hsame.
  { intros k Hk Hne Hi. apply setting_fixed; [done..|]. by apply Hkept. }
  assert (setting look2 "collapsedProjectIds" = setting look' "collapsedProjectIds") as Hc.
  { assert ("collapsedProjectIds"%string ∈ settings_keys) as Hk by (by apply (bool_decide_unpack _); vm_compute).
    assert ("desktopCollapsedProjectIds"%string ∈ settings_keys) as Hk' by (by apply (bool_decide_unpack _); vm_compute).
    destruct (decide ("collapsedProjectIds"%string ∈ map fst patch)) as [Hi|Hi]; [by apply Hset|]. rewrite Hsame by done.
    destruct (is_array (look_rows t "collapsedProjectIds")) eqn:Ea; [by apply setting_collapsed; auto|].
    destruct (decide ("desktopCollapsedProjectIds"%string ∈ map fst patch)) as [Hd|Hd]; [|by apply setting_collapsed; auto].
    rewrite <- Hsame by done. apply setting_collapsed_old; [by rewrite Hout|]. by rewrite Hin, setting_desktop. }
  apply settings_ext. intros k Hk. destruct (decide (k = "desktopCollapsedProjectIds"%string)) as [->|Hne].
  { by rewrite !setting_desktop. }
  destruct (decide (k ∈ map fst patch)) as [Hi|Hi]; [by apply Hset|]. rewrite Hsame by done.
  pose proof Hk as Hks. apply settings_key_cases in Hk as [Hk|[->|[->| ->]]].
  - apply setting_local; [done|]. by apply Hout.
  - apply setting_ratio; [by apply Hout|]. apply Hout. intros Hs%Hp. by apply known_slot in Hs.
  - rewrite <- Hsame by done. exact Hc.
  - by destruct Hne.
Qed.

(** ** The life of the settings *)

(** What happens to a client: its patches, with the results of the writes they make. *)
Inductive storage_op :=
  | OpGlobal (now : Z) (patch : list (string * value))
  | OpProject (now : Z) (projectId : string) (patch : list (string * value)) (result : write_result)
  | OpWrite (first clearing second : write_result).

Definition storage_step (s : storage) (op : storage_op) : storage :=
  match op with
  | OpGlobal now patch => patchGlobalState now patch s
  | OpProject now projectId patch result => patchProjectState now projectId patch result s
  | OpWrite first clearing second => runQueue first clearing second s
  end.

(** A patch names settings, once each, and its values make settings JSON can keep. *)
Definition storage_op_ok (s : storage) (op : storage_op) : Prop :=
  match op with
  | OpGlobal _ patch => patch_ok patch /\ json_data (VObj (settings_object (patched_settings patch (st_global s)))) = true
  | OpProject _ projectId patch _ => json_data (VObj (project_object (patchedProject projectId patch s))) = true
  | OpWrite _ _ _ => True
  end.

Fixpoint storage_run_ok (s : storage) (ops : list storage_op) : Prop :=
  match ops with [] => True | op :: ops => storage_op_ok s op /\ storage_run_ok (storage_step s op) ops end.

(** The projects whose last write failed: nothing reports it. *)
Definition unsaved_step (ids : list string) (op : storage_op) : list string :=
  match op with
  | OpProject _ projectId _ result =>
      if negb (nonempty projectId) then ids
      else match result with Stored => bfilter (fun id => negb (String.eqb id projectId)) ids | _ => projectId :: ids end
  | _ => ids
  end.
Definition unsaved (ops : list storage_op) : list string := foldl unsaved_step [] ops.

(** The table when everything queued is written. *)
Definition landed_rows (s : storage) : gmap string RawKVRow := foldl (put_all kv_k) (st_rows s) (st_queue s).

Record storage_synced (ids : list string) (s : storage) : Prop := {
  ss_keyed : keyed kv_k (st_rows s);
  ss_project_keyed : keyed ps_projectId (st_project_rows s);
  ss_global : st_reports s = [] -> sanitize_settings (look_rows (landed_rows s)) = st_global s;
  ss_projects : forall id, id ∉ ids -> dget (st_projects s) id = restoredProject <$> st_project_rows s !! id;
  ss_dict : NoDup (dkeys (st_projects s))
}.

(** ** Each step keeps what is shown and what is stored together *)

Lemma landed_app q t rows : foldl (put_all kv_k) t (q ++ [rows]) = put_all kv_k (foldl (put_all kv_k) t q) rows.
Proof using. by rewrite foldl_app. Qed.

Lemma patched_ok g patch : patch_ok patch -> patched_settings patch g = sanitize_settings (prop (spread (settings_object g) patch)).
Proof using. done. Qed.

Lemma global_synced ids now patch s : storage_op_ok s (OpGlobal now patch) -> storage_synced ids s ->
  storage_synced ids (patchGlobalState now patch s).
Proof using RT.
  intros [Hp Hj] [K1 K2 G P D]. split; try done. cbn [patchGlobalState st_reports st_global]. intros Hr. specialize (G Hr).
  change (sanitizeGlobalState _) with (patched_settings patch (st_global s)).
  transitivity (sanitize_settings (look_rows (put_all kv_k (landed_rows s) (patch_rows patch (patched_settings patch (st_global s)) now)))).
  - f_equal. f_equal. unfold landed_rows, patchGlobalState, patch_rows. cbn [st_rows st_queue].
    change (sanitizeGlobalState _) with (patched_settings patch (st_global s)).
    destruct (globalRowsForPatch _ _ _) as [|r rows]; [done|]. apply landed_app.
  - rewrite <- G in *. by apply patch_settings.
Qed.

Lemma project_row_restored now projectId patch s : json_data (VObj (project_object (patchedProject projectId patch s))) = true ->
  restoredProject {| ps_projectId := projectId; ps_updatedAt := now;
    ps_stateJson := serialize (cloneState (VObj (project_object (patchedProject projectId patch s)))) |} = patchedProject projectId patch s.
Proof using RT.
  intros Hj. unfold restoredProject, cloneState. cbn [ps_stateJson]. rewrite json_roundtrip by done. cbn [default]. unfold id.
  rewrite tryParse_serialize by done. apply sanitize_project_fixed.
Qed.

Lemma project_synced ids now projectId patch result s : storage_op_ok s (OpProject now projectId patch result) -> storage_synced ids s ->
  storage_synced (unsaved_step ids (OpProject now projectId patch result)) (patchProjectState now projectId patch result s).
Proof using RT.
  intros Hj [K1 K2 G P D]. cbn [storage_op_ok] in Hj. unfold patchProjectState. cbn [unsaved_step].
  destruct (nonempty projectId) eqn:En; cbn [negb]; [|done].
  split; cbn [st_rows st_project_rows st_reports st_global st_projects landed_rows st_queue]; try done.
  - destruct result; try done. intros k row. rewrite lookup_insert_Some. intros [[<- <-]|[_ H]]; [done|by apply K2].
  - intros id Hid. rewrite dget_dset. destruct result.
    + rewrite elem_of_bfilter in Hid. destruct (decide (projectId = id)) as [<-|Hne].
      * rewrite lookup_insert_eq. cbn [fmap option_fmap option_map]. by rewrite project_row_restored.
      * rewrite lookup_insert_ne by done. apply P. intros Hi. apply Hid. split; [done|]. by apply negb_true_iff, String.eqb_neq.
    + apply not_elem_of_cons in Hid as [Hne Hid]. rewrite decide_False by done. by apply P.
    + apply not_elem_of_cons in Hid as [Hne Hid]. rewrite decide_False by done. by apply P.
  - by apply dset_NoDup.
Qed.

Lemma put_rows_synced ids rows rest s : st_queue s = rows :: rest -> storage_synced ids s ->
  storage_synced ids (put_rows rows {| st_global := st_global s; st_projects := st_projects s; st_queue := rest; st_reports := st_reports s;
    st_cleared := st_cleared s; st_rows := st_rows s; st_project_rows := st_project_rows s |}).
Proof using.
  intros Hq [K1 K2 G P D]. split; cbn [put_rows st_rows st_project_rows st_reports st_global st_projects]; try done.
  - by apply put_all_keyed.
  - unfold landed_rows in *. rewrite Hq in G. exact G.
Qed.

Lemma write_synced ids first clearing second s : storage_synced ids s -> storage_synced ids (runQueue first clearing second s).
Proof using.
  intros H. unfold runQueue. destruct (st_queue s) as [|rows rest] eqn:Hq; [done|].
  pose proof (put_rows_synced ids rows rest s Hq H) as Hput. destruct H as [K1 K2 G P D].
  assert (forall r : list string, r <> [] -> forall c, storage_synced ids {| st_global := st_global s; st_projects := st_projects s;
    st_queue := rest; st_reports := r; st_cleared := c; st_rows := st_rows s; st_project_rows := st_project_rows s |}) as Hrep.
  { intros r Hr c. by split. }
  assert (forall op, st_reports s ++ [op] <> []) as Hne by (intros op; by destruct (st_reports s)).
  unfold persistGlobalRowsWithQuotaRecovery, report, clear_caches. cbn [st_global st_projects st_queue st_reports st_cleared st_rows st_project_rows].
  destruct first; [done| |by apply Hrep].
  destruct clearing; [destruct second|by apply Hrep..]; [|by apply Hrep..].
  destruct Hput as [K1' K2' G' P' D']. by split.
Qed.

Lemma step_synced ids s op : storage_op_ok s op -> storage_synced ids s -> storage_synced (unsaved_step ids op) (storage_step s op).
Proof using RT.
  intros Hop H. destruct op; [by apply global_synced|by apply project_synced|by apply write_synced].
Qed.

Lemma run_synced ops ids s : storage_run_ok s ops -> storage_synced ids s ->
  storage_synced (foldl unsaved_step ids ops) (foldl storage_step s ops).
Proof using RT.
  revert ids s; induction ops as [|op ops IH]; intros ids s Hops H; [done|]. destruct Hops as [Hop Hops]. by apply IH, step_synced.
Qed.

(** ** A start *)

(** The rows of the two tables, in the order the database lists them. *)
Record storage_rows (rows : gmap string RawKVRow) (projectRows : gmap string RawProjectStateRow)
    (listed : list RawKVRow) (projectsListed : list RawProjectStateRow) : Prop := {
  sr_keyed : keyed kv_k rows;
  sr_project_keyed : keyed ps_projectId projectRows;
  sr_rows : listed ≡ₚ (map_to_list rows).*2;
  sr_projects : projectsListed ≡ₚ (map_to_list projectRows).*2
}.

Lemma rows_elem {R} (key : R -> string) t rows row : keyed key t -> rows ≡ₚ (map_to_list t).*2 -> row ∈ rows <-> t !! key row = Some row.
Proof using.
  intros Ht Hr. rewrite Hr, list_elem_of_fmap. split.
  - intros ([k r] & -> & H%elem_of_map_to_list). cbn [snd]. by rewrite (Ht k r H).
  - intros H. exists (key row, row). split; [done|]. by apply elem_of_map_to_list.
Qed.

Lemma values_NoDup {R} (key : R -> string) t rows : keyed key t -> rows ≡ₚ (map_to_list t).*2 -> NoDup rows.
Proof using.
  intros Ht Hr. pose proof (rows_NoDup key (fun _ => tt) t rows Ht Hr) as H. unfold dkeys in H. rewrite map_map in H. cbn [fst] in H.
  by eapply NoDup_fmap_1.
Qed.

Lemma scrubbed_rows rows listed : keyed kv_k rows -> listed ≡ₚ (map_to_list rows).*2 ->
  let obsoleteRows := obsoleteBrowserCredentialRows listed in
  bfilter (fun row => negb (bool_decide (kv_k row ∈ obsoleteRows))) listed ≡ₚ (map_to_list (delete_all rows obsoleteRows)).*2.
Proof using.
  cbn zeta. intros Ht Hr. set (keys := obsoleteBrowserCredentialRows listed).
  pose proof (delete_all_keyed kv_k rows keys Ht) as Ht'.
  apply NoDup_Permutation.
  - by apply NoDup_bfilter, (values_NoDup kv_k rows).
  - by apply (values_NoDup kv_k _ _ Ht').
  - intros row. rewrite (rows_elem kv_k _ _ row Ht' (reflexivity _)), delete_all_lookup, elem_of_bfilter, negb_true_iff, bool_decide_eq_false,
      (rows_elem kv_k rows listed row Ht Hr).
    destruct (bool_decide (kv_k row ∈ keys)) eqn:E; [apply bool_decide_eq_true in E|apply bool_decide_eq_false in E]; naive_solver.
Qed.

Lemma empty_values {R} (t : gmap string R) : [] ≡ₚ (map_to_list t).*2 -> t = ∅.
Proof using.
  intros H. symmetry in H. apply Permutation_nil_r in H. by apply fmap_nil_inv, map_to_list_empty_iff in H.
Qed.

(** The credentials that are deleted are no settings. *)
Lemma obsolete_look rows listed k : look_rows (delete_all rows (obsoleteBrowserCredentialRows listed)) k = look_rows rows k.
Proof using.
  unfold look_rows. rewrite delete_all_lookup. case_bool_decide as H; [|done].
  unfold obsoleteBrowserCredentialRows in H. apply elem_of_unique, elem_of_bfilter in H as [_ Hk%bool_decide_eq_true].
  assert (forallb (fun k => negb (bool_decide (k ∈ GLOBAL_KEYS))) OBSOLETE_GLOBAL_ROWS = true) as Hg by (by vm_compute).
  rewrite forallb_forall in Hg. apply list_elem_of_In, Hg, negb_true_iff, bool_decide_eq_false in Hk.
  destruct (rows !! k); [|done]. by rewrite bool_decide_false.
Qed.

Lemma default_rows_look now k :
  look_rows (put_all kv_k ∅ (globalRows defaultGlobalState now)) k = prop (settings_object defaultGlobalState) k.
Proof using RT.
  assert (NoDup settings_keys) as Hnd by (by apply (bool_decide_unpack _); vm_compute).
  unfold look_rows. rewrite (put_all_uniform (fun k => {| kv_k := k; kv_v := serialize (prop (settings_object defaultGlobalState) k); kv_updatedAt := now |})).
  2: { unfold globalRows. intros row (e & -> & He)%elem_of_map. cbn [kv_k]. rewrite prop_dget.
       rewrite (dget_in (settings_object defaultGlobalState) e.1 e.2); [done|exact Hnd|by destruct e]. }
  unfold globalRows. rewrite map_map. cbn [kv_k]. change (map (fun x => x.1) (settings_object defaultGlobalState)) with settings_keys.
  destruct (bool_decide (k ∈ settings_keys)) eqn:E; [|by rewrite lookup_empty]. apply bool_decide_eq_true in E.
  rewrite bool_decide_true by (by right). unfold row_value. cbn [kv_v]. apply tryParse_serialize, object_data; [by vm_compute|exact E].
Qed.

(** What is shown at the start is what the table holds. *)
Lemma start_global now other rows projectRows listed projectsListed : keyed kv_k rows -> listed ≡ₚ (map_to_list rows).*2 ->
  st_global (initializeStorage now other rows projectRows listed projectsListed) = sanitize_settings (look_rows rows).
Proof using RT.
  intros K R. pose proof (scrubbed_rows rows listed K R) as Hs. unfold initializeStorage. cbn zeta in *.
  pose proof (delete_all_keyed kv_k rows (obsoleteBrowserCredentialRows listed) K) as K'.
  rewrite <- (settings_ext_look _ _ (obsolete_look rows listed)).
  set (scrubbed := bfilter _ listed) in *. set (table := delete_all rows _) in *.
  assert ((fromDbRows scrubbed projectsListed).1 = sanitize_settings (look_rows table)) as E by (by apply fromDbRows_global).
  destruct scrubbed as [|row l]; [|exact E]. destruct projectsListed as [|r l]; [|exact E]. destruct other; [exact E|].
  apply empty_values in Hs as ->. cbn [st_global]. by vm_compute.
Qed.

(** An empty database is given the settings it is read as. *)
Lemma start_synced now other rows projectRows listed projectsListed : storage_rows rows projectRows listed projectsListed ->
  storage_synced [] (initializeStorage now other rows projectRows listed projectsListed).
Proof using RT.
  intros [K1 K2 R1 R2]. pose proof (start_global now other rows projectRows listed projectsListed K1 R1) as Hg. unfold initializeStorage in *.
  pose proof (scrubbed_rows rows listed K1 R1) as Hs. cbn zeta in *.
  pose proof (delete_all_keyed kv_k rows (obsoleteBrowserCredentialRows listed) K1) as K1'.
  rewrite <- (settings_ext_look _ _ (obsolete_look rows listed)) in Hg.
  set (scrubbed := bfilter _ listed) in *. set (table := delete_all rows _) in *.
  destruct (restore_sync ps_projectId restoredProject projectRows projectsListed K2 R2) as [N S0]; pose proof (table_sync_exact _ _ _ S0) as S.
  assert (forall g t, keyed kv_k t -> sanitize_settings (look_rows t) = g -> storage_synced []
    {| st_global := g; st_projects := (fromDbRows scrubbed projectsListed).2;
       st_queue := []; st_reports := []; st_cleared := 0; st_rows := t; st_project_rows := projectRows |}) as Hread.
  { intros g t Kt Hgt. by split. }
  destruct scrubbed as [|row l]; [|by apply Hread]. destruct projectsListed as [|r l]; [|by apply Hread].
  destruct other; [by apply Hread|]. apply (Hread _ (put_all kv_k table (globalRows defaultGlobalState now))); [by apply put_all_keyed|].
  apply empty_values in Hs as ->. transitivity (sanitize_settings (prop (settings_object defaultGlobalState))); [|by vm_compute].
  apply settings_ext_look, default_rows_look.
Qed.

Lemma start_project_rows now other rows projectRows listed projectsListed :
  st_project_rows (initializeStorage now other rows projectRows listed projectsListed) = projectRows.
Proof using. unfold initializeStorage. cbn zeta. by repeat case_match. Qed.

(** The settings shown are always well formed. *)
Lemma start_ok now other rows projectRows listed projectsListed :
  settings_ok (st_global (initializeStorage now other rows projectRows listed projectsListed)).
Proof using.
  assert (settings_ok defaultGlobalState) as H0.
  { assert (sanitize_settings (fun _ => VUndefined) = defaultGlobalState) as <- by (by vm_compute). apply sanitize_settings_ok. }
  unfold initializeStorage, fromDbRows. cbn zeta. repeat case_match; cbn [st_global fst sanitizeGlobalState]; first [exact H0|apply sanitize_settings_ok].
Qed.

Lemma settings_step_ok s op : settings_ok (st_global s) -> settings_ok (st_global (storage_step s op)).
Proof using.
  intros H. destruct op; cbn [storage_step].
  - apply sanitize_settings_ok.
  - unfold patchProjectState. by destruct (negb _).
  - unfold runQueue, persistGlobalRowsWithQuotaRecovery. by repeat case_match.
Qed.

Lemma settings_run_ok ops s : settings_ok (st_global s) -> settings_ok (st_global (foldl storage_step s ops)).
Proof using. revert s; induction ops as [|op ops IH]; intros s H; [done|]. by apply IH, settings_step_ok. Qed.

(** C33. The settings and the project states over the life of the client, from any
    contents of the database: whatever is patched, and whether the writes go through at
    once, after the rebuildable caches gave up their room, or not, once the queue is empty
    and nothing was reported a restart shows the settings that were shown, and it shows
    the state of every project but those whose last write was lost. *)
Theorem settings_survive_restart now other rows projectRows listed projectsListed ops now' other' listed' projectsListed' :
  storage_rows rows projectRows listed projectsListed ->
  let s0 := initializeStorage now other rows projectRows listed projectsListed in
  storage_run_ok s0 ops -> let s := foldl storage_step s0 ops in
  storage_rows (st_rows s) (st_project_rows s) listed' projectsListed' ->
  let s' := initializeStorage now' other' (st_rows s) (st_project_rows s) listed' projectsListed' in
  (st_queue s = [] -> st_reports s = [] -> st_global s' = st_global s) /\
  (forall id, id ∉ unsaved ops -> dget (st_projects s') id = dget (st_projects s) id) /\
  settings_ok (st_global s).
Proof using RT.
  cbn zeta. intros Hr Hops Hr'. pose proof (run_synced ops [] _ Hops (start_synced now other _ _ _ _ Hr)) as H.
  pose proof (start_synced now' other' _ _ _ _ Hr') as H'.
  set (s := foldl storage_step _ _) in *. set (s' := initializeStorage now' _ _ _ _ _) in *. split; [|split].
  - intros Hq Hrep. unfold s'. destruct Hr' as [K1 _ R1 _]. rewrite start_global by done. rewrite <- (ss_global _ _ H Hrep).
    unfold landed_rows. by rewrite Hq.
  - intros id Hid. rewrite (ss_projects _ _ H id Hid), (ss_projects _ _ H' id) by apply not_elem_of_nil.
    unfold s'. by rewrite start_project_rows.
  - apply settings_run_ok, start_ok.
Qed.
End rows.


(** A run from a database with a credential and a setting: a patch whose rows are written
    after the caches gave up their room, and two projects, the second of which is lost. *)
Definition sample_rows : gmap string RawKVRow := list_to_map (map (fun row => (kv_k row, row)) [
  {| kv_k := "token"; kv_v := "secret"; kv_updatedAt := 1 |}; {| kv_k := "tab"; kv_v := "git"; kv_updatedAt := 1 |}])%string.
Definition sample_ops : list storage_op := [
  OpGlobal 5 [("themeMode", VStr "light"); ("codeFontSize", VNum (of_Z 15))];
  OpProject 6 "h:p" [("selectedFile", VStr "a.ts")] Stored;
  OpProject 7 "h:q" [("selectedFile", VStr "b.ts")] OtherError;
  OpWrite QuotaExceeded Stored Stored]%string.
Definition sample_start : storage :=
  initializeStorage (J:=js_JSON) 4 false sample_rows ∅ (map_to_list sample_rows).*2 (map_to_list (∅ : gmap string RawProjectStateRow)).*2.
Definition sample_end : storage := foldl (storage_step (J:=js_JSON)) sample_start sample_ops.
Definition sample_restart : storage :=
  initializeStorage (J:=js_JSON) 9 false (st_rows sample_end) (st_project_rows sample_end)
    (map_to_list (st_rows sample_end)).*2 (map_to_list (st_project_rows sample_end)).*2.

Lemma settings_survive_restart_witness :
  st_global sample_restart = st_global sample_end /\
  dget (st_projects sample_restart) "h:p" = dget (st_projects sample_end) "h:p" /\
  (g_themeMode (st_global sample_end) = "light"%string /\ g_tab (st_global sample_end) = "git"%string /\
   st_cleared sample_end = 1%nat /\ st_rows sample_end !! "token"%string = None /\
   p_selectedFile <$> dget (st_projects sample_restart) "h:p" = Some "a.ts"%string /\
   dget (st_projects sample_restart) "h:q" = None).
Proof.
  assert (forall t : gmap string RawKVRow, forallb (fun e => String.eqb (kv_k e.2) e.1) (map_to_list t) = true -> keyed kv_k t) as HK.
  { intros t H k row Hk. rewrite forallb_forall in H. apply elem_of_map_to_list, list_elem_of_In, H, String.eqb_eq in Hk. exact Hk. }
  assert (forall t : gmap string RawProjectStateRow, forallb (fun e => String.eqb (ps_projectId e.2) e.1) (map_to_list t) = true ->
    keyed ps_projectId t) as HK'.
  { intros t H k row Hk. rewrite forallb_forall in H. apply elem_of_map_to_list, list_elem_of_In, H, String.eqb_eq in Hk. exact Hk. }
  destruct (settings_survive_restart (J:=js_JSON) 4 false sample_rows ∅ (map_to_list sample_rows).*2 (map_to_list (∅ : gmap string RawProjectStateRow)).*2
    sample_ops 9 false (map_to_list (st_rows sample_end)).*2 (map_to_list (st_project_rows sample_end)).*2) as (Hg & Hp & _).
  - split; [apply HK|apply HK'| |]; try apply Permutation_refl; vm_compute; reflexivity.
  - cbn [storage_run_ok sample_ops storage_op_ok]. repeat apply conj; try exact I; try (vm_compute; reflexivity).
    + apply (bool_decide_unpack _). vm_compute. exact I.
    + apply Forall_forall. apply (bool_decide_unpack _). vm_compute. exact I.
  - split; [apply HK|apply HK'| |]; try apply Permutation_refl; vm_compute; reflexivity.
  - split; [apply Hg; vm_compute; reflexivity|]. split; [|vm_compute; repeat split].
    apply Hp. apply (bool_decide_unpack _). vm_compute. exact I.
Defined.
