(* ===== verification/WorkspaceStore.v ===== *)
(** [workspace/WorkspaceStore.ts]: what the workspace remembers of a project between
    visits, over the persisted settings and caches.

    The project state keeps texts; the objects of a directory are JSON objects with a
    name. *)

From S2P Require Import Prelude Json JsonRoundTrip Collation RegistryNormalize ChatSessionKey CacheEviction.
From S2P Require Import RegistryTypes ChatWire ChatSync ChatCacheTurns ChatCache WorkspaceSettings WorkspaceCaches WorkspaceStorage.
Open Scope Z_scope.

Notation entry := (list (string * value)).

Record store := { sto_settings : storage; sto_caches : caches; sto_chats : cache }.
Definition on_settings (f : storage -> storage) (s : store) : store := {|
  sto_settings := f (sto_settings s); sto_caches := sto_caches s; sto_chats := sto_chats s |}.
Definition on_caches (f : caches -> caches) (s : store) : store := {|
  sto_settings := sto_settings s; sto_caches := f (sto_caches s); sto_chats := sto_chats s |}.
Definition on_chats (f : cache -> cache) (s : store) : store := {|
  sto_settings := sto_settings s; sto_caches := sto_caches s; sto_chats := f (sto_chats s) |}.

(** * Directories in order *)

Definition is_kind (kind : string) (e : entry) : bool := match prop e "kind" with VStr s => String.eqb s kind | _ => false end.
Definition entry_name (e : entry) : string := string_or (prop e "name") "".

Section store.
Context `{J : JSON} `{C : Collation}.

Definition compare_entries (a b : entry) : Z :=
  if is_kind "dir" a && negb (is_kind "dir" b) then -1 else
  if negb (is_kind "dir" a) && is_kind "dir" b then 1 else
  localeCompare (entry_name a) (entry_name b).
Definition sortEntries (entries : list entry) : list entry := js_sort compare_entries entries.

(** * Settings *)

Definition uniqueStrings (items : list string) : list string := unique (bfilter nonempty items).
(** A text of the state, or the empty text. *)
Definition state_text (state : value) (key : string) : string := string_or (prop (properties state) key) "".
Definition state_texts (state : value) (key : string) : list string := default [] (list_field string_field (prop (properties state) key)).

Definition rememberGlobalState (now : Z) (patch : list (string * value)) (s : store) : store :=
  let current := getGlobalState (sto_settings s) in
  let nextPatch := match dget patch "selectedProjectId" with
                   | Some v => if match v with VUndefined => false | _ => negb (truthy v) end
                               then dset patch "selectedProjectId"%string (prop (properties current) "selectedProjectId") else patch
                   | None => patch end in
  on_settings (patchGlobalState now nextPatch) s.

Definition selectProjectOnConnect (projectIds : list string) (fallbackProjectId : string) (s : store) : string :=
  let preferred := state_text (getGlobalState (sto_settings s)) "selectedProjectId" in
  if nonempty preferred && some (fun id => String.eqb id preferred) projectIds then preferred else fallbackProjectId.

Definition getSelectedChatSessionId (projectId : string) (s : store) : string :=
  if negb (nonempty projectId) then ""%string else state_text (getProjectState projectId (sto_settings s)) "selectedChatSessionId".
Definition rememberSelectedChatSession (now : Z) (projectId sessionId : string) (result : write_result) (s : store) : store :=
  if negb (nonempty projectId) then s
  else on_settings (patchProjectState now projectId [("selectedChatSessionId", VStr (trim sessionId))]%string result) s.
Definition getSelectedChatSessionKey (s : store) : option ChatSessionKey :=
  let global := getGlobalState (sto_settings s) in
  chatSessionKeyFromParts (state_text global "selectedChatProjectId") (state_text global "selectedChatSessionId").
Definition rememberSelectedChatSessionKey (now : Z) (key : option ChatSessionKey) (s : store) : store :=
  let normalized := key ≫= (fun key => chatSessionKeyFromParts (key_projectId key) (key_sessionId key)) in
  on_settings (patchGlobalState now [
    ("selectedChatProjectId", VStr (from_option key_projectId ""%string normalized));
    ("selectedChatSessionId", VStr (from_option key_sessionId ""%string normalized))]%string) s.
Definition migrateSelectedChatSessionKey (now : Z) (projectId : string) (s : store) : option ChatSessionKey * store :=
  match getSelectedChatSessionKey s with
  | Some existing => (Some existing, s)
  | None =>
      match chatSessionKeyFromParts projectId (getSelectedChatSessionId projectId s) with
      | Some fallback => (Some fallback, rememberSelectedChatSessionKey now (Some fallback) s)
      | None => (None, s)
      end
  end.
Definition setDisableFileCache (now : Z) (disableFileCache : bool) (s : store) : store :=
  on_settings (patchGlobalState now [("disableFileCache", VBool disableFileCache)]%string) s.

(** * Files, directories and diffs *)

Record CachedDirectory := { cd_hash : string; cd_entries : list entry }.
Definition getCachedDirectory (projectId path : string) (s : store) : option CachedDirectory :=
  cached ← WorkspaceCaches.getCachedFile projectId "dir" path (sto_caches s);
  parsed ← JSON_parse (fl_value cached);
  Some {| cd_hash := fl_hash cached; cd_entries := match parsed with VArr items => map properties items | _ => [] end |}.
Definition entries_value (entries : list entry) : value := VArr (map VObj entries).
Definition cacheDirectory (now : Z) (projectId path hash : string) (entries : list entry) (s : store) : store :=
  if negb (nonempty projectId) || negb (nonempty path) then s
  else on_caches (putCachedFile now projectId "dir" path hash (JSON_stringify (entries_value entries))) s.

(** The hash and the content. *)
Definition getCachedFile (projectId path : string) (s : store) : option (string * string) :=
  cached ← WorkspaceCaches.getCachedFile projectId "file" path (sto_caches s); Some (fl_hash cached, fl_value cached).
Definition cacheFile (now : Z) (projectId path hash content : string) (s : store) : store :=
  if negb (nonempty projectId) || negb (nonempty path) then s
  else on_caches (putCachedFile now projectId "file" path hash content) s.
Definition clearFileCache (s : store) : store := on_caches WorkspaceCaches.clearFileCache s.

(** The two halves of [WorkspacePersistence.clearCache]. *)
Definition clearLocalCache (s : store) : store := on_chats clearChatCache (on_caches WorkspaceCaches.clearCache s).

Definition diffCacheKey (sha path : string) : string := sha +:+ "::" +:+ path.
Definition getCachedDiff (projectId sha path : string) (s : store) : option string :=
  if negb (nonempty projectId) || negb (nonempty sha) || negb (nonempty path) then None
  else df_diff <$> getProjectDiff projectId (diffCacheKey sha path) (sto_caches s).
Definition cacheDiff (now : Z) (projectId sha path diff : string) (isBinary truncated : bool) (s : store) : store :=
  if negb (nonempty projectId) || negb (nonempty sha) || negb (nonempty path) then s
  else on_caches (putProjectDiff now projectId (diffCacheKey sha path) diff isBinary truncated) s.

(** * A project as it was left *)

Record HydratedProjectState := {
  hy_projectId : string; hy_dirEntries : list (string * list entry); hy_expandedDirs : list string; hy_selectedFile : string;
  hy_pinnedFiles : list string; hy_gitCurrentBranch : string; hy_commits : list value; hy_selectedCommit : string;
  hy_commitFilesBySha : value; hy_selectedDiff : string; hy_selectedChatSessionId : string; hy_cachedDiffText : string
}.

(** One expanded directory of the loop. *)
Definition hydrate_directory (projectId : string) (s : store) (acc : list (string * list entry) * list string) (dirPath : string)
    : list (string * list entry) * list string :=
  if negb (nonempty dirPath) || String.eqb dirPath "." then acc else
  match getCachedDirectory projectId dirPath s with
  | None => acc
  | Some cachedDir => (dset acc.1 dirPath (sortEntries (cd_entries cachedDir)), acc.2 ++ [dirPath])
  end.

Definition hydrateProject (projectId : string) (rootEntries : list entry) (disableFileCache : bool) (s : store) : HydratedProjectState :=
  let state := getProjectState projectId (sto_settings s) in
  let commits := getProjectCommitsState projectId (sto_caches s) in
  let rootSorted := sortEntries rootEntries in
  let '(dirEntries, expandedDirs) :=
    if disableFileCache then ([(".", rootSorted)], ["."])%string
    else foldl (hydrate_directory projectId s) ([(".", rootSorted)], ["."])%string (uniqueStrings (state_texts state "expandedDirs")) in
  let selectedCommit := state_text state "selectedCommit" in
  let selectedDiff := state_text state "selectedDiff" in
  let cachedDiff := if nonempty selectedCommit && nonempty selectedDiff
                    then getProjectDiff projectId (diffCacheKey selectedCommit selectedDiff) (sto_caches s) else None in
  {| hy_projectId := projectId; hy_dirEntries := dirEntries; hy_expandedDirs := expandedDirs;
     hy_selectedFile := str_or (state_text state "selectedFile")
       (match find (is_kind "file") rootSorted with Some item => string_or (prop item "path") "" | None => "" end);
     hy_pinnedFiles := uniqueStrings (bfilter nonempty (state_texts state "pinnedFiles"));
     hy_gitCurrentBranch := state_text state "gitCurrentBranch"; hy_commits := pc_commits commits;
     hy_selectedCommit := selectedCommit; hy_commitFilesBySha := pc_commitFilesBySha commits; hy_selectedDiff := selectedDiff;
     hy_selectedChatSessionId := state_text state "selectedChatSessionId";
     hy_cachedDiffText := match cachedDiff with Some e => df_diff e | None => "" end |}.

Definition hydrateCachedProject (projectId : string) (disableFileCache : bool) (s : store) : HydratedProjectState :=
  let cachedRoot := if disableFileCache then None else getCachedDirectory projectId "." s in
  hydrateProject projectId (match cachedRoot with Some c => cd_entries c | None => [] end) disableFileCache s.

(** [ProjectSnapshot]; the row of the project state and that of the commits are written. *)
Record ProjectView := {
  pv_expandedDirs : list string; pv_selectedFile : string; pv_pinnedFiles : list string; pv_gitCurrentBranch : string;
  pv_commits : list value; pv_selectedCommit : string; pv_commitFilesBySha : value; pv_selectedDiff : string
}.
Definition texts (l : list string) : value := VArr (map VStr l).
Definition rememberProjectSnapshot (now : Z) (projectId : string) (v : ProjectView) (result : write_result) (s : store) : store :=
  if negb (nonempty projectId) then s else
  on_caches (patchProjectCommitsState now projectId (Some (VArr (pv_commits v))) (Some (pv_commitFilesBySha v)))
    (on_settings (patchProjectState now projectId [
       ("expandedDirs", texts (pv_expandedDirs v)); ("selectedFile", VStr (pv_selectedFile v)); ("pinnedFiles", texts (pv_pinnedFiles v));
       ("gitCurrentBranch", VStr (pv_gitCurrentBranch v)); ("selectedCommit", VStr (pv_selectedCommit v));
       ("selectedDiff", VStr (pv_selectedDiff v))]%string result) s).

(** * Chat sessions *)

(** [WorkspacePersistence.compareUpdatedAtDesc]. *)
Definition safe_time `{Dates} (text : string) : Q := match Date_parse text with Fin q => q | _ => 0%Q end.
Definition compareTimesDesc `{Dates} (a b : string) : Z :=
  if Qeq_bool (safe_time a) (safe_time b) then 0 else if Qle_bool (safe_time a) (safe_time b) then 1 else -1.

Definition session_text (session : value) (key : string) : string := string_or (prop (properties session) key) "".
Definition compare_sessions `{Dates} (a b : PersistedChatSessionEntry) : Z :=
  let updatedAtDelta := compareTimesDesc (session_text (ent_session a) "updatedAt") (session_text (ent_session b) "updatedAt") in
  if negb (updatedAtDelta =? 0) then updatedAtDelta
  else localeCompare (session_text (ent_session a) "title") (session_text (ent_session b) "title").

(** The entries of the repository are read by their clones. *)
Definition cloneEntry (e : PersistedChatSessionEntry) : PersistedChatSessionEntry :=
  {| ent_session := cloneState (ent_session e); ent_cursor := ent_cursor e |}.
Definition getProjectChatSessions `{Dates} (projectId : string) (c : cache) : list PersistedChatSessionEntry :=
  if negb (nonempty projectId) then [] else
  js_sort compare_sessions
    (map (fun e => cloneEntry e.2) (bfilter (fun e => startsWith e.1 (chatProjectPrefix projectId)) (chatSessionIndex c))).
Definition getProjectChatSessionContent (projectId sessionId : string) (c : cache) : option (list RegistrySessionTurn) :=
  if negb (nonempty projectId) || negb (nonempty sessionId) then None else dget (chatSessionContent c) (chatSessionKey projectId sessionId).

(** [Math.max(0, Math.floor(turnIndex))]. *)
Definition sanitizeCursor (turnIndex : num) : Z := match turnIndex with Fin q => Z.max 0 (floor q) | _ => 0 end.

Definition hydrateChatSessions `{Dates} (projectId : string) (s : store) : list (value * Z) :=
  if negb (nonempty projectId) then [] else
  map (fun e => (ent_session e, sanitizeCursor (of_Z (ent_cursor e)))) (getProjectChatSessions projectId (sto_chats s)).

(** The options, commands and usage the next summary does not mention are kept. *)
Definition mergeCachedChatSessionSummary (existing : option value) (next : value) : value :=
  match existing with
  | None => next
  | Some existing =>
      VObj (foldl (fun d key => dset d key (nullish (prop (properties next) key)
                     (let old := prop (properties existing) key in if truthy old then old else VUndefined)))
              (properties next) ["configOptions"; "commands"; "usage"]%string)
  end.

Definition existing_session `{Dates} (projectId sessionId : string) (s : store) : option value :=
  find (fun session => String.eqb (session_text session "sessionId") sessionId) (map fst (hydrateChatSessions projectId s)).
(** [new Map(entries).get(id)]: the last entry of an id. *)
Definition mapped_session `{Dates} (projectId sessionId : string) (s : store) : option value :=
  find (fun session => String.eqb (session_text session "sessionId") sessionId) (rev (map fst (hydrateChatSessions projectId s))).

Definition replaceChatSessions `{Dates} (now : Z) (projectId : string) (sessions : list value) (cursorBySessionId : list (string * num)) (s : store) : store :=
  if negb (nonempty projectId) then s else
  let payload := map (fun session =>
    let sessionId := session_text session "sessionId" in
    (mergeCachedChatSessionSummary (mapped_session projectId sessionId s) session,
     Some (of_Z (sanitizeCursor (default NaN (dget cursorBySessionId sessionId)))))) sessions in
  on_chats (replaceProjectChatSessions now projectId payload) s.

Definition rememberChatSession `{Dates} (now : Z) (projectId : string) (session : value) (cursor : num) (s : store) : store :=
  let sessionId := session_text session "sessionId" in
  if negb (nonempty projectId) || negb (nonempty sessionId) then s else
  on_chats (patchProjectChatSession now projectId
    (mergeCachedChatSessionSummary (existing_session projectId sessionId s) session) (Some (of_Z (sanitizeCursor cursor)))) s.

Definition chatMessageToRawTurn (m : RegistryChatMessage) : RegistrySessionTurn := {|
  turn_turnIndex := msg_turnIndex m;
  turn_content := JSON_stringify (VObj [("method", VStr (msg_method m)); ("param", VObj (msg_param m))]%string);
  turn_finished := msg_finished m |}.
Definition rememberChatSessionContent (now : Z) (projectId sessionId : string) (messages : value) (s : store) : store :=
  if negb (nonempty projectId) || negb (nonempty sessionId) then s else
  on_chats (patchProjectChatSessionContent now projectId sessionId
    (map chatMessageToRawTurn (sanitizeCachedSessionMessages messages sessionId))) s.
Definition rememberChatSessionTurns (now : Z) (projectId sessionId : string) (turns : list RegistrySessionTurn) (s : store) : store :=
  if negb (nonempty projectId) || negb (nonempty sessionId) then s
  else on_chats (patchProjectChatSessionContent now projectId sessionId turns) s.
Definition deleteChatSession (projectId sessionId : string) (s : store) : store :=
  if negb (nonempty projectId) || negb (nonempty sessionId) then s else on_chats (deleteProjectChatSession projectId sessionId) s.

(** The turns and the messages they decode to. *)
Definition getCachedChatSessionContent (projectId sessionId : string) (s : store) : option (list RegistrySessionTurn * list RegistryChatMessage) :=
  if negb (nonempty projectId) || negb (nonempty sessionId) then None else
  (fun turns : list RegistrySessionTurn => (turns, omap (decodeSessionTurnToMessage sessionId) turns)) <$>
    getProjectChatSessionContent projectId sessionId (sto_chats s).
End store.

(** * What the cache of directories holds *)

#[export] Instance Z_comparator : Comparator (fun x y : Z => x - y).
Proof. constructor; intros; lia. Qed.

Section directories.
Context `{J : JSON} `{C : Collation} {RT : JSONRoundTrip (J:=J)}.

(** Directories come first: their rank is smaller. *)
Definition rank (e : entry) : Z := if is_kind "dir" e then 0 else 1.

Lemma compare_entries_lex a b :
  compare_entries a b = lex (fun a b => rank a - rank b) (fun a b => localeCompare (entry_name a) (entry_name b)) a b.
Proof. unfold compare_entries, lex, rank. by destruct (is_kind "dir" a), (is_kind "dir" b). Qed.

Lemma compare_entries_ok : Comparator compare_entries.
Proof.
  pose proof (lex_comparator _ _ (by_comparator rank (fun x y : Z => x - y) Z_comparator)
    (by_comparator entry_name localeCompare localeCompare_ok)) as H.
  constructor.
  - intros x y. rewrite !compare_entries_lex. apply (cmp_antisym (Comparator:=H)).
  - intros x y z. rewrite !compare_entries_lex. apply (cmp_trans (Comparator:=H)).
Qed.

(** Sorting a sorted directory changes nothing. *)
Lemma sortEntries_idem l : sortEntries (sortEntries l) = sortEntries l.
Proof.
  pose proof compare_entries_ok as H. apply js_sort_id, js_sort_sorted; unfold cmp_le.
  - intros x y. apply (cmp_total compare_entries).
  - intros x y z. apply (cmp_trans (Comparator:=H)).
Qed.

Lemma entries_back l : map properties (map VObj l) = l.
Proof. rewrite map_map. by apply map_id. Qed.

Lemma append_inj (p a b : string) : p +:+ a = p +:+ b -> a = b.
Proof. induction p as [|c p IH]; [done|]. cbn. intros [= H]. auto. Qed.

(** What a put leaves at a key: the new entry or what was there, unless it is evicted. *)
Lemma lookup_put now projectId kind path hash v k c e : dget (fileCache (putCachedFile now projectId kind path hash v c)) k = Some e ->
  k = fileCacheKey projectId kind path /\ fl_hash e = hash /\ fl_value e = v \/ dget (fileCache c) k = Some e.
Proof.
  unfold putCachedFile. destruct (negb _ || negb _); [by right|]. unfold evictFileEntries, with_files, enqueueCacheMutation, with_writes. cbn [fileCache]. rewrite dget_delete_keys.
  destruct (bool_decide _); [done|]. rewrite dget_dset. destruct (decide _) as [<-|]; [|by right]. intros [= <-]. by left.
Qed.

(** Another directory is untouched, or evicted. *)
Lemma cached_directory_other now projectId path hash entries path' d s : path' <> path ->
  getCachedDirectory projectId path' (cacheDirectory now projectId path hash entries s) = Some d -> getCachedDirectory projectId path' s = Some d.
Proof using.
  intros Hne. unfold cacheDirectory. destruct (negb _ || negb _); [done|]. unfold getCachedDirectory, WorkspaceCaches.getCachedFile.
  cbn [on_caches sto_caches]. destruct (negb (nonempty projectId) || negb (nonempty path')); [done|]. cbn [mbind option_bind].
  destruct (dget (fileCache (putCachedFile _ _ _ _ _ _ _)) _) as [e|] eqn:Ee; [|done].
  apply lookup_put in Ee as [(Hk & _)|Ee]; [|by rewrite Ee]. exfalso. apply Hne. unfold fileCacheKey in Hk. by repeat apply append_inj in Hk.
Qed.

(** A directory without a path is not cached. *)
Lemma cached_directory_path projectId path d s : getCachedDirectory projectId path s = Some d -> nonempty path = true.
Proof using. unfold getCachedDirectory, WorkspaceCaches.getCachedFile. destruct (nonempty path); [done|]. by rewrite orb_true_r. Qed.

(** A cached directory is the one put last, or one there was before. *)
Lemma cached_directory_put now projectId path hash entries path' d s : json_data (entries_value entries) = true ->
  getCachedDirectory projectId path' (cacheDirectory now projectId path hash entries s) = Some d ->
  path' = path /\ d = {| cd_hash := hash; cd_entries := entries |} \/ getCachedDirectory projectId path' s = Some d.
Proof.
  intros Hj. unfold cacheDirectory. destruct (negb _ || negb _) eqn:E; [by right|]. unfold getCachedDirectory, WorkspaceCaches.getCachedFile.
  cbn [on_caches sto_caches]. destruct (negb (nonempty projectId) || negb (nonempty path')) eqn:E'; [done|]. cbn [mbind option_bind].
  destruct (dget (fileCache (putCachedFile _ _ _ _ _ _ _)) _) as [e|] eqn:Ee; [|done].
  apply lookup_put in Ee as [(Hk & Hh & Hv)|Ee].
  - cbn [mbind option_bind]. rewrite Hv, json_roundtrip by done. cbn. rewrite entries_back, Hh. intros [= <-]. left. split; [|done].
    unfold fileCacheKey in Hk. by repeat apply append_inj in Hk.
  - rewrite Ee. by right.
Qed.

(** A message of the view, as the store keeps it: what the wire gate would let through. *)
Record message_data (sessionId : string) (m : RegistryChatMessage) : Prop := {
  md_session : msg_sessionId m = trim sessionId /\ trim sessionId <> ""%string;
  md_index : 0 < msg_turnIndex m;
  md_method : msg_method m <> ""%string /\ trim (msg_method m) = msg_method m;
  md_echo : bool_decide (msg_method m = "user_message_chunk"%string) && is_command_echo (string_or_empty (prop (msg_param m) "text")) = false;
  md_param : json_data (VObj (msg_param m)) = true
}.

(** Stored as a raw turn and decoded again, it is the message it was. *)
Lemma message_roundtrip sessionId m : message_data sessionId m -> decodeSessionTurnToMessage sessionId (chatMessageToRawTurn m) = Some m.
Proof using RT.
  intros [[Hs Hne] Hi [Hm Ht] He Hp]. unfold decodeSessionTurnToMessage, chatMessageToRawTurn. cbn [turn_turnIndex turn_content turn_finished].
  apply nonempty_true in Hne, Hm. rewrite Hne. replace (msg_turnIndex m <=? 0) with false by lia. cbn [negb orb].
  rewrite json_roundtrip.
  - cbn [prop String.eqb Ascii.eqb eqb string_or_empty]. rewrite Ht, Hm. cbn [negb asRecord default]. unfold id.
    destruct m as [sid i me pa fi]. cbn in *. rewrite He. by rewrite Hs.
  - cbn [json_data forallb snd] in *. rewrite Hp. by rewrite bool_decide_true by (apply (bool_decide_unpack _); vm_compute; exact I).
Qed.
End directories.
