(* ===== verification/WorkspaceController.v ===== *)
(** [workspace/WorkspaceController.ts]: the service and the store together.

    A method is a program over the calls of the service, the reading of the store and its
    updates, which see the clock.  A directory the hub says is not modified is shown from
    the cache; the last section shows that this changes nothing. *)

From S2P Require Import Prelude Json JsonRoundTrip Collation Program RegistryTypes TurnIndex ChatWire RegistryClient.
From S2P Require Import RegistryNormalize RegistryRepository WorkspaceCaches WorkspaceStorage WorkspaceStore WorkspaceService.
Open Scope Z_scope.

Inductive controllerE : Type -> Type :=
  | OfService {R : Type} (e : serviceE R) : controllerE R
  | ReadStore : controllerE store
  | UpdateStore (f : Z -> store -> store) : controllerE unit.

Notation work A := (prog controllerE failure A).
Definition served {A} (p : task A) : work A := translate (fun R e => OfService e) p.

Record ProjectLoadResult := {
  load_projects : option (list entry); load_hubs : option (list string); load_rootEntries : list entry; load_hydrated : HydratedProjectState
}.
Record ValidatedDirectoryState := { val_dirEntries : list (string * list entry); val_expandedDirs : list string }.

Section controller.
Context `{J : JSON} `{C : Collation}.

(** * Projects *)

Definition loaded (session : WorkspaceSession) (disableFileCache : bool) : work ProjectLoadResult :=
  let* s := call ReadStore in
  Ret {| load_projects := ses_projects session; load_hubs := ses_hubs session; load_rootEntries := ses_fileEntries session;
         load_hydrated := hydrateProject (ses_selectedProjectId session) (ses_fileEntries session) disableFileCache s |}.

Definition connectWorkspace (wsUrl clientName : string) (disableFileCache : bool) : work ProjectLoadResult :=
  let* baseSession := served (connect wsUrl clientName) in
  let* s := call ReadStore in
  let targetProjectId := selectProjectOnConnect (map project_id (default [] (ses_projects baseSession)))
                           (ses_selectedProjectId baseSession) s in
  let* session := (if String.eqb targetProjectId (ses_selectedProjectId baseSession) then Ret baseSession
                   else served (selectProject targetProjectId)) in
  loaded session disableFileCache.

Definition switchProject (projectId : string) (disableFileCache : bool) : work ProjectLoadResult :=
  let* session := served (selectProject projectId) in loaded session disableFileCache.

Definition switchProjectLightweight (projectId : string) (disableFileCache : bool) : work ProjectLoadResult :=
  let* session := served (selectProjectLightweight projectId) in
  let* s := call ReadStore in
  Ret {| load_projects := ses_projects session; load_hubs := ses_hubs session; load_rootEntries := [];
         load_hydrated := hydrateCachedProject (ses_selectedProjectId session) disableFileCache s |}.

(** * Expanded directories *)

Definition remember_directory (disableFileCache : bool) (projectId dirPath hash : string) (entries : list entry) : work unit :=
  if disableFileCache then Ret tt else call (UpdateStore (fun now => cacheDirectory now projectId dirPath hash entries)).

(** [cached?.hash || undefined]. *)
Definition known_hash (cached : option CachedDirectory) : option string :=
  match cached with Some c => if nonempty (cd_hash c) then Some (cd_hash c) else None | None => None end.

(** The [try] block of the loop: the entries of one directory. *)
Definition validate_directory (disableFileCache : bool) (projectId dirPath : string) : work (list entry) :=
  let* s := call ReadStore in
  let cached := if disableFileCache then None else getCachedDirectory projectId dirPath s in
  let* result := served (listDirectory dirPath (known_hash cached)) in
  match truthy (dl_notModified result), cached with
  | true, Some c => Ret (sortEntries (cd_entries c))
  | _, _ =>
      let entries := sortEntries (dl_entries result) in
      let hash := str_or (string_or (dl_hash result) "") (match cached with Some c => cd_hash c | None => "" end) in
      do* remember_directory disableFileCache projectId dirPath hash entries in
      Ret entries
  end.

Fixpoint validate_loop (disableFileCache : bool) (projectId : string) (snapshot : list string) (acc : ValidatedDirectoryState)
    : work ValidatedDirectoryState :=
  match snapshot with
  | [] => Ret acc
  | dirPath :: rest =>
      if String.eqb dirPath "." then validate_loop disableFileCache projectId rest acc else
      let* shown := catch (pmap Some (validate_directory disableFileCache projectId dirPath)) (fun _ => Ret None) in
      validate_loop disableFileCache projectId rest
        match shown with
        | Some entries => {| val_dirEntries := dset (val_dirEntries acc) dirPath entries; val_expandedDirs := val_expandedDirs acc ++ [dirPath] |}
        | None => acc
        end
  end.

Definition validateExpandedDirectories (projectId : string) (rootEntries : list entry) (expandedSnapshot : list string) (disableFileCache : bool)
    : work ValidatedDirectoryState :=
  let root := sortEntries rootEntries in
  do* remember_directory disableFileCache projectId "." "" root in
  validate_loop disableFileCache projectId expandedSnapshot {| val_dirEntries := [(".", root)]; val_expandedDirs := ["."] |}%string.

Definition refreshProject (projectId : string) (expandedSnapshot : list string) (disableFileCache : bool) : work ValidatedDirectoryState :=
  let* session := served (selectProject projectId) in
  validateExpandedDirectories projectId (ses_fileEntries session) expandedSnapshot disableFileCache.
End controller.

(** * The cache of directories shows what the hub has *)

Section transparent.
Context `{J : JSON} `{C : Collation} {RT : JSONRoundTrip (J:=J)}.
Variable projectId : string.
(** The directories of the project on the hub: the hash and the entries of each. *)
Variable directory : string -> option (string * list entry).

(** An entry with a name and a path, as data. *)
Definition entry_ok (e : entry) : Prop :=
  json_data (VObj e) = true /\ truthy (prop e "name") = true /\ exists path, prop e "path" = VStr path /\ nonempty (trim path) = true.
Hypothesis directory_ok : forall path hash entries, directory path = Some (hash, entries) -> hash <> ""%string /\ Forall entry_ok entries.

(** The hub's answer: nothing but the hash to a client that knows it. *)
Definition list_answer (args : request_args) : outcome :=
  let payload := properties (arg_payload args) in
  let path := string_or (prop payload "path") "" in
  match directory path with
  | None => Rejected (RegistryRequestError "not found" (Some "NOT_FOUND"%string) VUndefined)
  | Some (hash, entries) =>
      Resolved (VObj [("payload", VObj (if String.eqb (string_or (prop payload "knownHash") "") hash
        then [("path", VStr path); ("hash", VStr hash); ("notModified", VBool true)]
        else [("path", VStr path); ("hash", VStr hash); ("entries", entries_value entries)]))]%string)
  end.

Definition client_answer {R} (e : clientE R) : R :=
  match e with Request args => list_answer args | Connect _ | SendEvent _ => None | Close => tt end.

(** The service has a repository and the project selected. *)
Variable svc : service.
Hypothesis svc_ok : exists session r, svc_session svc = Some session /\ svc_repository svc = Some r /\
  ses_selectedProjectId session = projectId /\ projectId <> ""%string.

Definition service_answer {R} (e : serviceE R) : R :=
  match e with
  | CreateRepository => 0
  | OfRepository _ e => client_answer e
  | GetService => svc
  | ListenEvents _ | ListenClose _ | UnlistenEvents _ | UnlistenClose _ | Sleep _ | PutService _ => tt
  end.

(** The store, and the clock of its updates. *)
Definition controller_handler (R : Type) (e : controllerE R) (st : store * list Z) : R * (store * list Z) :=
  match e with
  | OfService e => (service_answer e, st)
  | ReadStore => (st.1, st)
  | UpdateStore f => (tt, (f (List.hd 0 st.2) st.1, List.tl st.2))
  end.

(** What is cached under the hash the hub has now is what the hub has now. *)
Definition cache_true (s : store) : Prop := forall path d entries,
  path <> "."%string -> getCachedDirectory projectId path s = Some d -> directory path = Some (cd_hash d, entries) ->
  sortEntries (cd_entries d) = sortEntries entries.

(** The reference: the directories of the hub that exist, sorted. *)
Definition shown_directories (acc : ValidatedDirectoryState) (path : string) : ValidatedDirectoryState :=
  if String.eqb path "." then acc else
  match directory (path_or_root path) with
  | Some (_, entries) => {| val_dirEntries := dset (val_dirEntries acc) path (sortEntries entries); val_expandedDirs := val_expandedDirs acc ++ [path] |}
  | None => acc
  end.
Definition reference_directories (rootEntries : list entry) (snapshot : list string) : ValidatedDirectoryState :=
  foldl shown_directories {| val_dirEntries := [(".", sortEntries rootEntries)]; val_expandedDirs := ["."] |}%string snapshot.

(** ** What the hub answers arrives *)

Lemma dset_same (e : entry) k v : dget e k = Some v -> dset e k v = e.
Proof using.
  induction e as [|[k' v'] e IH]; [done|]. cbn. destruct (decide (k' = k)) as [->|]; [by intros [= ->]|]. intros H. by rewrite IH.
Qed.

Lemma normalizeEntry_ok base e : entry_ok e -> normalizeEntry base e = Some e.
Proof using.
  intros (_ & _ & path & Hp & Ht). unfold normalizeEntry, entryPath. rewrite Hp, Ht. cbn [mbind option_bind]. f_equal.
  apply dset_same. rewrite prop_dget in Hp. by destruct (dget e "path"); cbn in Hp; subst.
Qed.

Lemma normalizeEntries_ok base es : Forall entry_ok es ->
  mapM (fun entry => normalizeEntry base (properties entry)) (bfilter (fun entry => truthy (prop (properties entry) "name")) (map VObj es)) = Some es.
Proof using.
  induction 1 as [|e es He _ IH]; [done|]. cbn [map List.filter]. cbn [properties]. rewrite (proj1 (proj2 He)).
  cbn [mapM]. cbn [properties]. rewrite (normalizeEntry_ok base e He). cbn [mbind option_bind]. by rewrite IH.
Qed.

(** The listing of a directory that exists, to a client with or without its hash. *)
Definition listed (known : option string) (hash : string) (entries : list entry) : DirectoryListing :=
  if String.eqb (default "" known) hash
  then {| dl_entries := []; dl_hash := VStr hash; dl_notModified := VBool true |}
  else {| dl_entries := entries; dl_hash := VStr hash; dl_notModified := VBool false |}.

Lemma listDirectory_runs path known st :
  match directory (path_or_root path) with
  | Some (hash, entries) => run controller_handler (served (listDirectory path known)) st = (inl (listed known hash entries), st)
  | None => exists why, run controller_handler (served (listDirectory path known)) st = (inr why, st)
  end.
Proof using directory_ok svc_ok.
  destruct svc_ok as (session & r & Hses & Hr & Hsel & Hne). apply nonempty_true in Hne.
  unfold served, listDirectory, selected_or. rewrite run_translate, run_bind. cbn [call run controller_handler service_answer].
  rewrite Hses, Hr, Hsel, Hne. unfold listing. rewrite run_bind. unfold on. rewrite run_translate.
  unfold listFiles, ask_project, ask. rewrite !run_bind. cbn [call run controller_handler service_answer client_answer].
  unfold list_answer, request_of. cbn [arg_payload properties].
  set (payload := [("path", text (path_or_root path))]%string ++ optional_text "knownHash" (default "" known)).
  assert (E1 : prop payload "path" = VStr (path_or_root path)) by done.
  assert (E2 : string_or (prop payload "knownHash") "" = default "" known).
  { unfold payload, optional_text. destruct (nonempty (default "" known)) eqn:E; [done|]. cbn. by destruct (default "" known). }
  rewrite E1, E2. cbn [string_or]. destruct (directory (path_or_root path)) as [[hash entries]|] eqn:Ed; [|by eexists].
  destruct (directory_ok _ _ _ Ed) as [_ Hok]. unfold listed. destruct (String.eqb (default "" known) hash); cbn [run]; [done|].
  unfold files_response. cbn [prop body_of nullish properties or_else String.eqb Ascii.eqb eqb items_of entries_value mbind option_bind].
  by rewrite normalizeEntries_ok.
Qed.

(** ** The store while directories are shown *)

Lemma json_entries es : Forall entry_ok es -> json_data (entries_value (sortEntries es)) = true.
Proof using.
  intros H. unfold entries_value. cbn [json_data]. apply forallb_forall. intros v (e & <- & He)%in_map_iff.
  rewrite Forall_forall in H. apply (H e). unfold sortEntries in He. by apply list_elem_of_In, elem_of_js_sort in He.
Qed.

Lemma cache_true_put now path hash hash' es s : directory (path_or_root path) = Some (hash, es) -> hash' = hash -> cache_true s ->
  cache_true (cacheDirectory now projectId path hash' (sortEntries es) s).
Proof using RT directory_ok.
  intros Hd -> Hs path' d entries Hne Hc Hd'. destruct (directory_ok _ _ _ Hd) as [_ Hok].
  pose proof (cached_directory_path _ _ _ _ Hc) as Hp. apply cached_directory_put in Hc as [[-> ->]|Hc]; [| |by apply json_entries].
  - cbn in Hd' |- *. unfold path_or_root in Hd. rewrite Hp in Hd. simplify_eq. apply sortEntries_idem.
  - by eapply Hs.
Qed.

Lemma cache_true_root now hash es s : cache_true s -> cache_true (cacheDirectory now projectId "." hash es s).
Proof using.
  intros Hs path d entries Hne Hc. apply Hs; [done|]. by eapply cached_directory_other.
Qed.

(** Without the cache the store is left alone; with it, it stays true. *)
Definition store_kept (disableFileCache : bool) (s s' : store) : Prop :=
  if disableFileCache then s' = s else cache_true s -> cache_true s'.
Definition store_usable (disableFileCache : bool) (s : store) : Prop := if disableFileCache then True else cache_true s.

Lemma remember_directory_runs disable path hash es st : exists st',
  run controller_handler (remember_directory disable projectId path hash es) st = (inl tt, st') /\
  (st'.1 = if disable then st.1 else cacheDirectory (List.hd 0 st.2) projectId path hash es st.1).
Proof using. unfold remember_directory. destruct disable; eexists; by split. Qed.

Lemma validate_directory_runs disable path st : store_usable disable st.1 -> path <> "."%string ->
  match directory (path_or_root path) with
  | Some (hash, entries) => exists st', run controller_handler (validate_directory disable projectId path) st = (inl (sortEntries entries), st') /\
      store_kept disable st.1 st'.1
  | None => exists why, run controller_handler (validate_directory disable projectId path) st = (inr why, st)
  end.
Proof using RT directory_ok svc_ok.
  intros Hs Hne. unfold validate_directory. rewrite !run_bind. cbn [call run controller_handler].
  set (cached := if disable then None else getCachedDirectory projectId path st.1). cbv zeta.
  set (known := known_hash cached).
  pose proof (listDirectory_runs path known st) as Hl. destruct (directory (path_or_root path)) as [[hash entries]|] eqn:Ed.
  2:{ destruct Hl as (why & Hl). exists why. by rewrite run_bind, Hl. }
  rewrite run_bind, Hl. destruct (directory_ok _ _ _ Ed) as [Hh _]. unfold listed. destruct (String.eqb_spec (default "" known) hash) as [E|E].
  - destruct cached as [c|] eqn:Ec; [|by subst known]. cbn [dl_notModified truthy dl_hash dl_entries run].
    assert (cd_hash c = hash /\ getCachedDirectory projectId path st.1 = Some c /\ cache_true st.1) as (Hc & Hg & Ht).
    { unfold cached in Ec. destruct disable; [done|]. split_and!; [|done|done].
      unfold known in E. unfold known_hash in E. by destruct (nonempty (cd_hash c)) eqn:En; cbn in E; subst. }
    exists st. split.
    + pose proof (cached_directory_path _ _ _ _ Hg) as Hp. unfold path_or_root in Ed. rewrite Hp in Ed.
      by rewrite (Ht path c entries Hne Hg) by by rewrite Hc.
    + unfold store_kept. by destruct disable.
  - cbn [dl_notModified truthy dl_hash dl_entries string_or]. unfold str_or. assert (nonempty hash = true) as -> by by apply nonempty_true.
    destruct (remember_directory_runs disable path hash (sortEntries entries) st) as (st' & Hrun & Hst).
    exists st'. rewrite run_bind, Hrun. split; [done|]. unfold store_kept. rewrite Hst. destruct disable; [done|].
    intros Ht. by eapply cache_true_put.
Qed.

Lemma validate_loop_runs disable snapshot acc st : store_usable disable st.1 -> exists st',
  run controller_handler (validate_loop disable projectId snapshot acc) st = (inl (foldl shown_directories acc snapshot), st') /\
  store_kept disable st.1 st'.1.
Proof using RT directory_ok svc_ok.
  revert acc st; induction snapshot as [|path snapshot IH]; intros acc st Hs.
  { exists st. split; [done|]. unfold store_kept. by destruct disable. }
  cbn [validate_loop foldl]. unfold shown_directories at 2. destruct (String.eqb_spec path ".") as [->|Hne]; [by apply IH|].
  rewrite run_bind, run_catch, run_pmap. pose proof (validate_directory_runs disable path st Hs Hne) as Hv.
  destruct (directory (path_or_root path)) as [[hash entries]|].
  - destruct Hv as (st1 & -> & H1). assert (store_usable disable st1.1) as Hs1 by (unfold store_usable, store_kept in *; by destruct disable; auto).
    destruct (IH {| val_dirEntries := dset (val_dirEntries acc) path (sortEntries entries); val_expandedDirs := val_expandedDirs acc ++ [path] |} st1 Hs1)
      as (st2 & H2 & H3). exists st2. split; [exact H2|]. unfold store_kept in *. destruct disable; [congruence|auto].
  - destruct Hv as (why & ->). cbn [run]. by apply IH.
Qed.

(** C17. The cache of directories is transparent while the service is connected with the
    project selected whose directories are asked for ([svc_ok]; [other_project_cached] shows
    that the cache is filled wrongly when another is selected).  The hub tells a client with
    the current hash of a directory that it is not modified, its hashes are not empty and its
    entries have a name and a path ([directory_ok]), and the cache holds under the current hash
    what the hub has ([cache_true]).  Then what is shown with the cache is what is shown without
    it, which is the directories of the hub that exist, sorted; and the cache stays true. *)
Theorem directory_cache_transparent rootEntries snapshot s times : cache_true s ->
  let shown disable := run controller_handler (validateExpandedDirectories projectId rootEntries snapshot disable) (s, times) in
  (shown false).1 = inl (reference_directories rootEntries snapshot) /\ (shown true).1 = (shown false).1 /\
  cache_true (shown false).2.1 /\ (shown true).2.1 = s.
Proof using RT directory_ok svc_ok.
  intros Hs. cbv zeta. unfold validateExpandedDirectories, reference_directories. rewrite !run_bind.
  destruct (remember_directory_runs false "." "" (sortEntries rootEntries) (s, times)) as (st1 & -> & H1).
  destruct (remember_directory_runs true "." "" (sortEntries rootEntries) (s, times)) as (st2 & -> & H2). cbn [fst snd] in H1, H2.
  assert (Ht : cache_true st1.1) by (rewrite H1; by apply cache_true_root).
  destruct (validate_loop_runs false snapshot {| val_dirEntries := [(".", sortEntries rootEntries)]; val_expandedDirs := ["."] |}%string st1 Ht) as (st3 & -> & H3).
  destruct (validate_loop_runs true snapshot {| val_dirEntries := [(".", sortEntries rootEntries)]; val_expandedDirs := ["."] |}%string st2 I) as (st4 & -> & H4).
  cbn [fst snd]. split_and!; [done..|by apply H3|]. unfold store_kept in H4. by rewrite H4.
Qed.
End transparent.

(** A hub with a directory, and a workspace that cached it. *)
Definition sample_entries : list entry :=
  [[("name", VStr "b.ts"); ("path", VStr "src/b.ts"); ("kind", VStr "file")]; [("name", VStr "lib"); ("path", VStr "src/lib"); ("kind", VStr "dir")]]%string.
Definition sample_directory (path : string) : option (string * list entry) :=
  if String.eqb path "src" then Some ("h1"%string, sample_entries) else None.
Definition sample_service (selected : string) : service := {|
  svc_repository := Some 1; unsubscribeRepositoryEvent := Some 1; unsubscribeRepositoryClose := Some 1;
  svc_session := Some {| ses_projects := Some []; ses_hubs := Some []; ses_selectedProjectId := selected; ses_fileEntries := [] |} |}.
Definition empty_store : store := {|
  sto_settings := {| st_global := WorkspaceSettings.defaultGlobalState; st_projects := []; st_queue := []; st_reports := []; st_cleared := 0;
                     st_rows := ∅; st_project_rows := ∅ |};
  sto_caches := no_caches; sto_chats := ChatCache.empty_cache |}.
Definition visited_store : store :=
  cacheDirectory (J:=js_JSON) (C:=code_collation) 5 "hub:a" "src" "h1" (sortEntries (C:=code_collation) sample_entries) empty_store.

Lemma sample_directory_ok path hash entries : sample_directory path = Some (hash, entries) -> hash <> ""%string /\ Forall entry_ok entries.
Proof.
  unfold sample_directory. destruct (String.eqb path "src"); [|done]. intros [= <- <-]. split; [done|].
  repeat constructor; eexists; by split.
Qed.

Lemma empty_store_true : cache_true (J:=js_JSON) (C:=code_collation) "hub:a" sample_directory empty_store.
Proof.
  intros path d entries _. unfold getCachedDirectory, WorkspaceCaches.getCachedFile. by destruct (negb _ || negb _).
Qed.

Lemma directory_cache_transparent_witness :
  let shown disable := run (controller_handler sample_directory (sample_service "hub:a"))
    (validateExpandedDirectories (J:=js_JSON) (C:=code_collation) "hub:a" [] ["src"; "gone"]%string disable) (visited_store, []) in
  (shown false).1 = inl {| val_dirEntries := [("."%string, []); ("src"%string, rev sample_entries)]; val_expandedDirs := ["."; "src"]%string |} /\
  (shown true).1 = (shown false).1.
Proof.
  pose proof (directory_cache_transparent (J:=js_JSON) (C:=code_collation) "hub:a" sample_directory sample_directory_ok
    (sample_service "hub:a") ltac:(by do 2 eexists) [] ["src"; "gone"]%string visited_store []) as H.
  destruct H as (H1 & H2 & _).
  - apply (cache_true_put (J:=js_JSON) (C:=code_collation) "hub:a" sample_directory sample_directory_ok 5 "src" "h1" "h1"); [done..|].
    apply empty_store_true.
  - cbv zeta. split; [|exact H2]. etrans; [exact H1|]. vm_compute. reflexivity.
Defined.

(** The service lists the directories of the project that is selected when it is asked.
    When the selection changes while a directory is awaited, the rest of the loop caches
    the directories of one project under the name of the other. *)
Lemma other_project_cached :
  let st := (run (controller_handler sample_directory (sample_service "hub:b"))
    (validateExpandedDirectories (J:=js_JSON) (C:=code_collation) "hub:a" [] ["src"%string] false) (empty_store, [])).2 in
  getCachedDirectory (J:=js_JSON) "hub:a" "src" st.1 = Some {| cd_hash := "h1"; cd_entries := rev sample_entries |}.
Proof. vm_compute. reflexivity. Qed.
