(* ===== verification/FileSearchTree.v ===== *)
(** The tree of file search results, [file/fileSearchResultTree.ts]: built from the flat
    list of results, in the order of the directory listings the client has loaded.

    The mutable directory nodes of the source are only reachable from their parent, so
    the insertion of a result is a function of the children; [childDirs] is the
    directories among them.  The set [seen] of the source order is threaded. *)

From S2P Require Import Prelude Collation.
Open Scope Z_scope.

Record RegistryFileIndexSearchResult := { res_path : string; res_name : string; res_score : option num }.
Inductive EntryKind := KDir | KFile.
Record RegistryFsEntry := { fe_name : string; fe_path : string; fe_kind : EntryKind }.

Inductive Node :=
  | Dir (name path : string) (children : list Node)
  | File (name path : string) (result : RegistryFileIndexSearchResult).

Record NormalizedFileSearchResult := { nr_path : string; nr_name : string; nr_result : RegistryFileIndexSearchResult }.

Definition slash : ascii := "/"%char.

(** [path.replace(/\\/g, '/').replace(/^\.?\//, '')]. *)
Definition normalizeResultPath (path : string) : string :=
  match map (fun c => if Ascii.eqb c "092" then slash else c) (chars path) with
  | c :: l => if Ascii.eqb c slash then unchars l
              else match l with
                   | d :: l' => if Ascii.eqb c "." && Ascii.eqb d slash then unchars l' else unchars (c :: l)
                   | [] => unchars (c :: l)
                   end
  | [] => ""
  end.

Definition normalizeDirectoryPath (path : string) : string :=
  let normalized := normalizeResultPath path in
  if bool_decide (normalized = ".")%string then "" else normalized.

(** [path.split('/').filter(Boolean)]. *)
Definition path_parts (path : string) : list string := filter_truthy (split slash path).

Definition normalizeStep (acc : list string * list NormalizedFileSearchResult) (result : RegistryFileIndexSearchResult)
    : list string * list NormalizedFileSearchResult :=
  let '(seenFiles, normalizedResults) := acc in
  let normalizedPath := normalizeResultPath (res_path result) in
  if negb (nonempty normalizedPath) || bool_decide (normalizedPath ∈ seenFiles) then acc else
  let parts := path_parts normalizedPath in
  match last parts with
  | None => (seenFiles ++ [normalizedPath], normalizedResults)
  | Some lastPart =>
      let fileName := str_or (res_name result) (str_or lastPart normalizedPath) in
      (seenFiles ++ [normalizedPath],
       normalizedResults ++ [{| nr_path := normalizedPath; nr_name := fileName;
         nr_result := {| res_path := normalizedPath; res_name := fileName; res_score := res_score result |} |}])
  end.

Definition normalizeResults (results : list RegistryFileIndexSearchResult) : list NormalizedFileSearchResult :=
  (foldl normalizeStep ([], []) results).2.

Definition createFileNode (result : NormalizedFileSearchResult) : Node := File (nr_name result) (nr_path result) (nr_result result).

Definition joinPath (basePath directoryPath part : string) : string :=
  if nonempty directoryPath then directoryPath +:+ "/" +:+ part
  else if nonempty basePath then basePath +:+ "/" +:+ part else part.

(** [directory.childDirs.get(part)], updated by [f], or a new directory at the end. *)
Fixpoint updateDirectory (part childPath : string) (f : string -> list Node -> list Node) (children : list Node) : list Node :=
  match children with
  | Dir name path sub :: l =>
      if bool_decide (name = part) then Dir name path (f path sub) :: l
      else Dir name path sub :: updateDirectory part childPath f l
  | node :: l => node :: updateDirectory part childPath f l
  | [] => [Dir part childPath (f childPath [])]
  end.

(** The loop over the directories of a path, from the directory [directoryPath] with its
    [children]: the last part is the file's. *)
Fixpoint insertResult (basePath directoryPath : string) (parts : list string) (file : Node) (children : list Node)
    : list Node :=
  match parts with
  | part :: ((_ :: _) as rest) =>
      updateDirectory part (joinPath basePath directoryPath part)
        (fun path sub => insertResult basePath path rest file sub) children
  | _ => children ++ [file]
  end.

Definition relativeParts (basePath path : string) : list string :=
  path_parts (if nonempty basePath && startsWith path (basePath +:+ "/")
              then slice_from (String.length basePath + 1) path else path).

Definition insertNormalized (basePath : string) (nodes : list Node) (result : NormalizedFileSearchResult) : list Node :=
  match relativeParts basePath (nr_path result) with
  | [] => nodes
  | parts => insertResult basePath "" parts (createFileNode result) nodes
  end.

Definition buildTreeFromNormalizedResults (results : list NormalizedFileSearchResult) (basePath : string) : list Node :=
  foldl (insertNormalized basePath) [] results.

(** The results of the files of a tree, but for those under [collapsed] directories. *)
Fixpoint flattenNode (collapsed : string -> bool) (node : Node) : list RegistryFileIndexSearchResult :=
  match node with
  | File _ _ result => [result]
  | Dir _ path children => if collapsed path then [] else flat_map (flattenNode collapsed) children
  end.
Definition flattenFileSearchResultTree (nodes : list Node) (collapsed : string -> bool) : list RegistryFileIndexSearchResult :=
  flat_map (flattenNode collapsed) nodes.

(** The paths [markSeen] adds. *)
Fixpoint node_files (node : Node) : list string :=
  match node with File _ path _ => [path] | Dir _ _ children => flat_map node_files children end.
Definition markSeen (seen : list string) (nodes : list Node) : list string := seen ++ flat_map node_files nodes.

Definition resultIsInDirectory (resultPath directoryPath : string) : bool :=
  if negb (nonempty directoryPath) then true else startsWith resultPath (directoryPath +:+ "/").

(** The listings loaded, by directory. *)
Definition DirEntries := gmap string (list RegistryFsEntry).

Section tree.
Context `{C : Collation}.

Definition compareNormalizedPath (a b : NormalizedFileSearchResult) : Z := localeCompare (nr_path a) (nr_path b).

Definition unseen (seen : list string) (result : NormalizedFileSearchResult) : bool := negb (bool_decide (nr_path result ∈ seen)).

Section build.
Context (results : list NormalizedFileSearchResult) (dirEntries : DirEntries).

(** What [buildDirectory] returns, with the set [seen] after it. *)
Definition Built : Type := list Node * list string.

Definition buildUnlisted (directoryPath : string) (seen : list string) : Built :=
  let fallbackResults := js_sort compareNormalizedPath
    (bfilter (fun r => unseen seen r && resultIsInDirectory (nr_path r) directoryPath) results) in
  let nodes := buildTreeFromNormalizedResults fallbackResults directoryPath in
  (nodes, markSeen seen nodes).

(** One entry of a listing; [build] is the recursive call. *)
Definition buildEntry (build : string -> list string -> option Built) (acc : Built) (entry : RegistryFsEntry) : option Built :=
  let '(nodes, seen) := acc in
  match fe_kind entry with
  | KFile =>
      match find (fun r => bool_decide (nr_path r = normalizeResultPath (fe_path entry))) results with
      | Some result => if unseen seen result then Some (nodes ++ [createFileNode result], seen ++ [nr_path result]) else Some acc
      | None => Some acc
      end
  | KDir =>
      let childPath := normalizeDirectoryPath (fe_path entry) in
      '(children, seen') ← build childPath seen;
      Some (match children with [] => nodes | _ => nodes ++ [Dir (fe_name entry) childPath children] end, seen')
  end.

(** [None] when the recursion is deeper than [fuel]. *)
Fixpoint buildDirectory (fuel : nat) (directoryPath : string) (seen : list string) : option Built :=
  match fuel with
  | O => None
  | S f =>
      match dirEntries !! str_or directoryPath "." with
      | None => Some (buildUnlisted directoryPath seen)
      | Some entries => foldl (fun acc entry => st ← acc; buildEntry (buildDirectory f) st entry) (Some ([], seen)) entries
      end
  end.

(** A directory below a listing is deeper than it, so the recursion is no deeper than the
    longest path listed. *)
Definition directoryFuel : nat := S (S (foldr Nat.max 0%nat (map (fun e => String.length e.1) (map_to_list dirEntries)))).

Definition buildTreeFromSourceOrder : option (list Node) :=
  '(orderedNodes, seen) ← buildDirectory directoryFuel "" [];
  let remainingResults := js_sort compareNormalizedPath (bfilter (unseen seen) results) in
  Some (orderedNodes ++ buildTreeFromNormalizedResults remainingResults "").
End build.

Definition buildFileSearchResultTree (results : list RegistryFileIndexSearchResult) (dirEntries : option DirEntries)
    : option (list Node) :=
  let normalizedResults := normalizeResults results in
  match dirEntries with
  | Some d => buildTreeFromSourceOrder normalizedResults d
  | None => Some (buildTreeFromNormalizedResults normalizedResults "")
  end.
End tree.

(** * Examples *)

Definition sample_result (p : string) : RegistryFileIndexSearchResult := {| res_path := p; res_name := ""; res_score := None |}.
Definition sample_listing : DirEntries :=
  {[ "."%string := [ {| fe_name := "src"; fe_path := "src"; fe_kind := KDir |}; {| fe_name := "a.md"; fe_path := "./a.md"; fe_kind := KFile |} ];
     "src"%string := [ {| fe_name := "lib"; fe_path := "src/lib"; fe_kind := KDir |}; {| fe_name := "m.ts"; fe_path := "src/m.ts"; fe_kind := KFile |} ] ]}.
Definition sample_results : list RegistryFileIndexSearchResult :=
  map sample_result ["a.md"; "src\m.ts"; "src/lib/y.ts"; "src/lib/x/z.ts"; "./a.md"; "doc/q.md"]%string.

Example tree_without_listing :
  flattenFileSearchResultTree (default [] (buildFileSearchResultTree (C:=code_collation) sample_results None)) (fun p => bool_decide (p = "src/lib/x"))%string =
  map (fun p => {| res_path := p; res_name := default "" (last (path_parts p)); res_score := None |})
    ["a.md"; "src/m.ts"; "src/lib/y.ts"; "doc/q.md"]%string.
Proof. vm_compute. reflexivity. Qed.
Example tree_with_listing :
  map res_path (flattenFileSearchResultTree (default [] (buildFileSearchResultTree (C:=code_collation) sample_results (Some sample_listing))) (fun _ => false)) =
    ["src/lib/x/z.ts"; "src/lib/y.ts"; "src/m.ts"; "a.md"; "doc/q.md"]%string.
Proof. vm_compute. reflexivity. Qed.

(** * Properties *)

Definition files (nodes : list Node) : list RegistryFileIndexSearchResult := flattenFileSearchResultTree nodes (fun _ => false).

Lemma files_app n1 n2 : files (n1 ++ n2) = files n1 ++ files n2.
Proof. apply flat_map_app. Qed.

Lemma files_dir name path children : files [Dir name path children] = files children.
Proof. unfold files, flattenFileSearchResultTree. cbn. by rewrite app_nil_r. Qed.

Lemma files_cons node nodes : files (node :: nodes) = files [node] ++ files nodes.
Proof. apply (files_app [node]). Qed.

(** A directory has something in it, and a file node the path of its result. *)
Fixpoint node_ok (node : Node) : bool :=
  match node with
  | File _ path result => bool_decide (res_path result = path)
  | Dir _ _ children => match children with [] => false | _ => forallb node_ok children end
  end.
Definition tree_ok (nodes : list Node) : Prop := forallb node_ok nodes = true.

Lemma tree_ok_app n1 n2 : tree_ok (n1 ++ n2) <-> tree_ok n1 /\ tree_ok n2.
Proof. unfold tree_ok. by rewrite forallb_app, andb_true_iff. Qed.

Lemma tree_ok_dir name path children : node_ok (Dir name path children) = true <-> children <> [] /\ tree_ok children.
Proof. cbn [node_ok]. destruct children; [split; [done|by intros [? _]]|]. by split; [|intros [_ ?]]. Qed.

Lemma tree_ok_cons node nodes : tree_ok (node :: nodes) <-> node_ok node = true /\ tree_ok nodes.
Proof. unfold tree_ok. cbn [forallb]. apply andb_true_iff. Qed.

(** What adding the result [r] must do to the children of a directory. *)
Definition adds (r : RegistryFileIndexSearchResult) (children children' : list Node) : Prop :=
  files children' ≡ₚ files children ++ [r] /\ tree_ok children'.

Lemma adds_nonempty r children children' : adds r children children' -> children' <> [].
Proof. intros [H _] ->. by apply Permutation_nil, app_eq_nil in H as [_ ?]. Qed.

Lemma updateDirectory_adds part childPath f r children :
  (forall path sub, tree_ok sub -> adds r sub (f path sub)) -> tree_ok children ->
  adds r children (updateDirectory part childPath f children).
Proof.
  intros Hf. induction children as [|[name path sub|name path res] l IH]; intros Hok; cbn [updateDirectory].
  - pose proof (Hf childPath [] eq_refl) as Ha. pose proof (adds_nonempty _ _ _ Ha) as Hne. destruct Ha as [H1 H2].
    split; [by rewrite files_dir|]. apply tree_ok_cons. split; [by apply tree_ok_dir|done].
  - apply tree_ok_cons in Hok as [[Hne Hs]%tree_ok_dir Hl]. case_bool_decide.
    + pose proof (Hf path sub Hs) as Ha. pose proof (adds_nonempty _ _ _ Ha) as Hne'. destruct Ha as [H1 H2].
      split; [|apply tree_ok_cons; split; [by apply tree_ok_dir|done]].
      rewrite files_cons, files_dir, H1, (files_cons (Dir name path sub)), files_dir. solve_Permutation.
    + destruct (IH Hl) as [H1 H2]. split; [|apply tree_ok_cons; split; [by apply tree_ok_dir|done]].
      rewrite files_cons, H1, (files_cons _ l). by rewrite app_assoc.
  - apply tree_ok_cons in Hok as [Hn Hl]. destruct (IH Hl) as [H1 H2]. split; [|by apply tree_ok_cons].
    rewrite files_cons, H1, (files_cons _ l). by rewrite app_assoc.
Qed.

Lemma insertResult_adds basePath parts name path r directoryPath children : res_path r = path ->
  tree_ok children -> adds r children (insertResult basePath directoryPath parts (File name path r) children).
Proof.
  intros Hr. revert directoryPath children. induction parts as [|part parts IH]; intros directoryPath children Hok.
  - cbn [insertResult]. split; [by rewrite files_app|]. apply tree_ok_app. split; [done|]. apply tree_ok_cons. split; [by apply bool_decide_eq_true|done].
  - destruct parts as [|part' parts].
    + cbn [insertResult]. split; [by rewrite files_app|]. apply tree_ok_app. split; [done|]. apply tree_ok_cons. split; [by apply bool_decide_eq_true|done].
    + cbn [insertResult]. apply updateDirectory_adds; [|done]. intros path' sub. apply IH.
Qed.

(** Normalised results: the node's path is the result's. *)
Definition result_ok (r : NormalizedFileSearchResult) : Prop := res_path (nr_result r) = nr_path r.
Definition has_parts (basePath : string) (r : NormalizedFileSearchResult) : bool :=
  match relativeParts basePath (nr_path r) with [] => false | _ => true end.

Lemma build_normalized basePath results : Forall result_ok results ->
  files (buildTreeFromNormalizedResults results basePath) ≡ₚ map nr_result (bfilter (has_parts basePath) results) /\
  tree_ok (buildTreeFromNormalizedResults results basePath).
Proof.
  intros Hr. unfold buildTreeFromNormalizedResults.
  assert (forall nodes, tree_ok nodes -> files (foldl (insertNormalized basePath) nodes results) ≡ₚ
    files nodes ++ map nr_result (bfilter (has_parts basePath) results) /\
    tree_ok (foldl (insertNormalized basePath) nodes results)) as H; [|by apply (H [])].
  induction Hr as [|r results Hr _ IH]; intros nodes Hok; cbn [foldl List.filter]; [by rewrite app_nil_r|].
  unfold insertNormalized at 2 4, has_parts at 1. destruct (relativeParts basePath (nr_path r)) as [|part parts]; [by apply IH|].
  destruct (insertResult_adds basePath (part :: parts) (nr_name r) (nr_path r) (nr_result r) "" nodes Hr Hok) as [H1 H2].
  destruct (IH _ H2) as [H3 H4]. split; [|done]. rewrite H3. unfold createFileNode. rewrite H1. cbn [map]. by rewrite <- app_assoc.
Qed.

Lemma flat_map_ext_in {A B} (f g : A -> list B) l : (forall x, x ∈ l -> f x = g x) -> flat_map f l = flat_map g l.
Proof.
  induction l as [|x l IH]; intros H; [done|]. cbn [flat_map]. rewrite (H x), IH; [done| |by left]. intros y Hy. apply H. by right.
Qed.

Lemma node_files_ok node : node_ok node = true -> node_files node = map res_path (flattenNode (fun _ => false) node).
Proof.
  revert node. fix IH 1. intros [name path children|name path r] Hok; cbn [node_files flattenNode map].
  - apply tree_ok_dir in Hok as [_ Hc]. induction children as [|c children IHc]; [done|]. apply tree_ok_cons in Hc as [H1 H2].
    cbn [flat_map]. by rewrite map_app, <- (IH c H1), <- (IHc H2).
  - by apply bool_decide_eq_true in Hok as <-.
Qed.

Lemma markSeen_ok seen nodes : tree_ok nodes -> markSeen seen nodes = seen ++ map res_path (files nodes).
Proof.
  intros H. unfold markSeen. f_equal. induction nodes as [|node nodes IH]; [done|]. apply tree_ok_cons in H as [H1 H2].
  cbn [flat_map]. rewrite files_cons, map_app, IH, node_files_ok by done. unfold files, flattenFileSearchResultTree. cbn [flat_map].
  by rewrite app_nil_r.
Qed.

Section complete.
Context `{C : Collation} (results : list NormalizedFileSearchResult) (dirEntries : DirEntries).
Hypothesis results_ok : Forall result_ok results.
Hypothesis results_distinct : NoDup (map nr_path results).
Hypothesis results_parts : forallb (has_parts "") results = true.

(** What building a directory adds to the set [seen]: the files of its nodes, which are
    results not seen before. *)
Record built (seen : list string) (nodes : list Node) (seen' : list string) : Prop := {
  bu_ok : tree_ok nodes;
  bu_seen : seen' ≡ₚ seen ++ map res_path (files nodes);
  bu_results : forall r, r ∈ files nodes -> r ∈ map nr_result results;
  bu_distinct : NoDup (map res_path (files nodes));
  bu_new : forall p, p ∈ map res_path (files nodes) -> p ∉ seen
}.

Lemma built_nil seen : built seen [] seen.
Proof. split; [done|by rewrite app_nil_r|intros r Hr; by apply not_elem_of_nil in Hr|constructor|intros p Hp; by apply not_elem_of_nil in Hp]. Qed.

Lemma built_app seen n1 s1 n2 s2 : built seen n1 s1 -> built s1 n2 s2 -> built seen (n1 ++ n2) s2.
Proof.
  intros [A1 A2 A3 A4 A5] [B1 B2 B3 B4 B5]. split.
  - by apply tree_ok_app.
  - rewrite B2, A2, files_app, map_app. by rewrite app_assoc.
  - intros r. rewrite files_app, elem_of_app. intros [H|H]; [by apply A3|by apply B3].
  - rewrite files_app, map_app. apply NoDup_app. split; [done|]. split; [|done].
    intros p Hp H. apply (B5 p H). rewrite A2. apply elem_of_app. by right.
  - intros p. rewrite files_app, map_app, elem_of_app. intros [H|H]; [by apply A5|].
    intros Hs. apply (B5 p H). rewrite A2. apply elem_of_app. by left.
Qed.

Lemma map_path_result : map res_path (map nr_result results) = map nr_path results.
Proof. rewrite map_map. apply map_ext_in. intros r Hr%list_elem_of_In. rewrite Forall_forall in results_ok. by apply results_ok. Qed.

(** Files built from some of the results. *)
Lemma built_some (p : NormalizedFileSearchResult -> bool) l basePath seen :
  l ≡ₚ bfilter p results -> (forall r, r ∈ results -> p r = true -> nr_path r ∉ seen) ->
  built seen (buildTreeFromNormalizedResults l basePath) (markSeen seen (buildTreeFromNormalizedResults l basePath)).
Proof.
  intros Hl Hp.
  assert (Forall result_ok l) as Hok.
  { rewrite Hl. apply Forall_forall. intros r [Hr _]%elem_of_bfilter. rewrite Forall_forall in results_ok. by apply results_ok. }
  destruct (build_normalized basePath l Hok) as [Hf Ht].
  assert (map res_path (files (buildTreeFromNormalizedResults l basePath)) ≡ₚ map nr_path (bfilter (has_parts basePath) l)) as Hpaths.
  { rewrite Hf, map_map. apply Permutation_refl', map_ext_in. intros r Hr%list_elem_of_In. apply elem_of_bfilter in Hr as [Hr _].
    rewrite Forall_forall in Hok. by apply Hok. }
  split; [done|by rewrite markSeen_ok|..].
  - intros r. rewrite Hf. intros (x & -> & [Hx _]%elem_of_bfilter)%elem_of_map. rewrite Hl in Hx. apply elem_of_bfilter in Hx as [Hx _].
    apply elem_of_map. eauto.
  - rewrite Hpaths. apply NoDup_map_bfilter. rewrite Hl. by apply NoDup_map_bfilter.
  - intros q. rewrite Hpaths. intros (x & -> & [Hx _]%elem_of_bfilter)%elem_of_map. rewrite Hl in Hx. apply elem_of_bfilter in Hx as [Hx Hpx].
    by apply Hp.
Qed.

Lemma unseen_true seen r : unseen seen r = true <-> nr_path r ∉ seen.
Proof. unfold unseen. by rewrite negb_true_iff, bool_decide_eq_false. Qed.

Lemma built_entry build acc entry st :
  (forall dir seen nodes seen', build dir seen = Some (nodes, seen') -> built seen nodes seen') ->
  buildEntry results build acc entry = Some st -> built acc.2 (drop (length acc.1) st.1) st.2 /\ st.1 = acc.1 ++ drop (length acc.1) st.1.
Proof.
  intros Hb. unfold buildEntry. destruct acc as [nodes seen].
  assert (built seen (drop (length nodes) nodes) seen /\ nodes = nodes ++ drop (length nodes) nodes) as Hsame.
  { rewrite drop_all, app_nil_r. split; [apply built_nil|done]. }
  destruct (fe_kind entry).
  - destruct (build (normalizeDirectoryPath (fe_path entry)) seen) as [[children seen']|] eqn:E; [|done]. cbn [mbind option_bind].
    intros [= <-]. apply Hb in E. cbn [fst snd]. destruct children as [|c children]; [by rewrite drop_all, app_nil_r|].
    rewrite drop_app_length. split; [|done]. destruct E as [E1 E2 E3 E4 E5].
    split; rewrite ?files_dir; [|done..]. apply tree_ok_cons. split; [by apply tree_ok_dir|done].
  - destruct (find _ results) as [r|] eqn:E; [|by intros [= <-]]. destruct (unseen seen r) eqn:Hu; [|by intros [= <-]].
    intros [= <-]. cbn [fst snd]. rewrite drop_app_length. split; [|done]. apply find_Some in E as [Hr _]. apply unseen_true in Hu.
    assert (res_path (nr_result r) = nr_path r) as Hpath by (rewrite Forall_forall in results_ok; by apply results_ok).
    unfold createFileNode. split.
    + apply tree_ok_cons. split; [by apply bool_decide_eq_true|done].
    + cbn. by rewrite Hpath.
    + intros x ->%list_elem_of_singleton. apply elem_of_map. eauto.
    + apply NoDup_singleton.
    + intros q. cbn. rewrite Hpath. by intros ->%list_elem_of_singleton.
Qed.

Lemma built_entries build entries acc st :
  (forall dir seen nodes seen', build dir seen = Some (nodes, seen') -> built seen nodes seen') ->
  foldl (fun acc entry => st ← acc; buildEntry results build st entry) (Some acc) entries = Some st ->
  exists new, st.1 = acc.1 ++ new /\ built acc.2 new st.2.
Proof.
  intros Hb. revert acc; induction entries as [|entry entries IH]; intros acc; cbn [foldl mbind option_bind].
  - intros [= <-]. exists []. split; [by rewrite app_nil_r|apply built_nil].
  - destruct (buildEntry results build acc entry) as [acc'|] eqn:E.
    + intros (new & H1 & H2)%IH. destruct (built_entry build acc entry acc' Hb E) as [H3 H4].
      exists (drop (length acc.1) acc'.1 ++ new). split; [by rewrite H1, H4 at 1; rewrite <- app_assoc|]. by eapply built_app.
    + intros H. exfalso. clear -H. induction entries as [|e entries IH]; [done|by apply IH].
Qed.

Lemma built_directory fuel dir seen nodes seen' :
  buildDirectory results dirEntries fuel dir seen = Some (nodes, seen') -> built seen nodes seen'.
Proof.
  revert dir seen nodes seen'; induction fuel as [|f IH]; intros dir seen nodes seen'; [done|]. cbn [buildDirectory].
  destruct (dirEntries !! _) as [entries|].
  - intros (new & H1 & H2)%built_entries; [|exact IH]. cbn [fst snd app] in *. by subst.
  - intros [= <- <-]. unfold buildUnlisted. eapply built_some; [apply js_sort_perm|].
    intros r _ [Hu _]%andb_true_iff. by apply unseen_true.
Qed.
End complete.

(** ** Termination *)

(** Each directory of a listing is below the directory listed. *)
Definition descending (dirEntries : DirEntries) : Prop :=
  forall dir entries entry, dir <> "."%string -> dirEntries !! str_or dir "." = Some entries -> entry ∈ entries ->
  fe_kind entry = KDir -> (String.length dir < String.length (normalizeDirectoryPath (fe_path entry)))%nat.

Definition longest (dirEntries : DirEntries) : nat := foldr Nat.max 0%nat (map (fun e => String.length e.1) (map_to_list dirEntries)).

Lemma longest_ge dirEntries k entries : dirEntries !! k = Some entries -> (String.length k <= longest dirEntries)%nat.
Proof.
  intros H. assert ((k, entries) ∈ map_to_list dirEntries) as Hin by (by apply elem_of_map_to_list). clear H. unfold longest.
  revert Hin. generalize (map_to_list dirEntries) as l. induction l as [|e l IH]; intros H; [by apply not_elem_of_nil in H|].
  cbn [map foldr]. apply elem_of_cons in H as [<-|H]; cbn [fst]; [lia|]. specialize (IH H). lia.
Qed.

Lemma normalizeDirectoryPath_dot path : normalizeDirectoryPath path <> "."%string.
Proof. unfold normalizeDirectoryPath. by case_bool_decide. Qed.

Section termination.
Context `{C : Collation} (results : list NormalizedFileSearchResult) (dirEntries : DirEntries).
Hypothesis listings : descending dirEntries.

Lemma entries_total build entries acc :
  (forall entry seen, entry ∈ entries -> fe_kind entry = KDir -> is_Some (build (normalizeDirectoryPath (fe_path entry)) seen)) ->
  is_Some (foldl (fun acc entry => st ← acc; buildEntry results build st entry) (Some acc) entries).
Proof.
  revert acc; induction entries as [|entry entries IH]; intros acc Hb; cbn [foldl mbind option_bind]; [by eexists|].
  assert (is_Some (buildEntry results build acc entry)) as [st ->].
  { unfold buildEntry. destruct acc as [nodes seen]. destruct (fe_kind entry) eqn:E.
    - destruct (Hb entry seen ltac:(by left) E) as [[children seen'] ->]. by eexists.
    - destruct (find _ results); [destruct (unseen _ _)|]; by eexists. }
  apply IH. intros e seen He. apply Hb. by right.
Qed.

Lemma directory_total fuel dir seen : dir <> "."%string -> (1 <= fuel)%nat ->
  (is_Some (dirEntries !! str_or dir ".") -> longest dirEntries + 2 - String.length dir <= fuel)%nat ->
  is_Some (buildDirectory results dirEntries fuel dir seen).
Proof.
  revert dir seen; induction fuel as [|f IH]; intros dir seen Hdot H1 Hf; [lia|]. cbn [buildDirectory].
  destruct (dirEntries !! str_or dir ".") as [entries|] eqn:E; [|by eexists]. specialize (Hf ltac:(by eexists)).
  assert (String.length dir <= longest dirEntries)%nat as Hlen.
  { pose proof (longest_ge _ _ _ E) as H. unfold str_or in H. destruct (nonempty dir) eqn:Hd; [done|].
    apply nonempty_false in Hd as ->. cbn. lia. }
  apply entries_total. intros entry s He Hk. pose proof (listings dir entries entry Hdot E He Hk) as Hlt.
  apply IH; [apply normalizeDirectoryPath_dot|lia|]. intros _. lia.
Qed.
End termination.

(** More fuel changes nothing. *)
Lemma directory_mono `{C : Collation} results dirEntries f f' dir seen b : (f <= f')%nat ->
  buildDirectory results dirEntries f dir seen = Some b -> buildDirectory results dirEntries f' dir seen = Some b.
Proof.
  revert f' dir seen b; induction f as [|f IH]; intros [|f'] dir seen b Hle; [done|done|lia|]. cbn [buildDirectory].
  destruct (dirEntries !! str_or dir ".") as [entries|]; [|done].
  generalize (Some (@nil Node, seen)) as acc. induction entries as [|entry entries IHe]; intros acc; [done|]. cbn [foldl].
  destruct acc as [acc|]; cbn [mbind option_bind]; [|apply IHe].
  destruct (buildEntry results (buildDirectory results dirEntries f) acc entry) as [st|] eqn:E.
  - assert (buildEntry results (buildDirectory results dirEntries f') acc entry = Some st) as ->; [|apply IHe].
    revert E. unfold buildEntry. destruct acc as [nodes s]. destruct (fe_kind entry); [|done].
    destruct (buildDirectory results dirEntries f _ s) as [[children s']|] eqn:Eb; [|done].
    by rewrite (IH f' _ _ _ ltac:(lia) Eb).
  - intros H. exfalso. clear -H. induction entries as [|e entries IH]; [done|by apply IH].
Qed.

Lemma search_tree_total `{C : Collation} results dirEntries : descending dirEntries ->
  is_Some (buildDirectory results dirEntries (directoryFuel dirEntries) "" []).
Proof.
  intros Hd. assert (directoryFuel dirEntries = longest dirEntries + 2)%nat as Hfuel by (unfold directoryFuel, longest; lia).
  apply directory_total; [done|done|lia|intros _; lia].
Qed.

(** The recursion over the loaded listings ends when every directory is listed above
    its subdirectories: no deeper than the longest listed path, and with the same tree
    whatever more is allowed. *)
Theorem search_tree_terminates `{C : Collation} results dirEntries dir seen fuel : descending dirEntries ->
  dir <> "."%string -> (directoryFuel dirEntries <= fuel)%nat ->
  exists b, buildDirectory results dirEntries (directoryFuel dirEntries) dir seen = Some b /\
            buildDirectory results dirEntries fuel dir seen = Some b.
Proof.
  intros Hd Hdot Hf. assert (directoryFuel dirEntries = longest dirEntries + 2)%nat as Hfuel
    by (unfold directoryFuel, longest; lia).
  destruct (directory_total results dirEntries Hd (directoryFuel dirEntries) dir seen Hdot) as [b Hb]; [lia|intros _; lia|].
  exists b. split; [done|]. by eapply directory_mono.
Qed.

(** A listing that holds its own directory makes the recursion endless. *)
Definition looping_entry : RegistryFsEntry := {| fe_name := "a"; fe_path := "a"; fe_kind := KDir |}.
Definition looping : DirEntries := {[ "a"%string := [looping_entry] ]}.

Lemma search_tree_diverges `{C : Collation} results fuel seen : buildDirectory results looping fuel "a" seen = None.
Proof.
  revert seen; induction fuel as [|f IH]; intros seen; [done|]. cbn [buildDirectory].
  assert (looping !! str_or "a" "." = Some [looping_entry]) as -> by reflexivity.
  cbn [foldl mbind option_bind buildEntry]. change (fe_kind looping_entry) with KDir. cbn iota.
  change (normalizeDirectoryPath (fe_path looping_entry)) with "a"%string. by rewrite IH.
Qed.

(** ** The whole tree *)

Definition some_parts (path : string) : bool := match path_parts path with [] => false | _ => true end.

Lemma some_parts_nonempty path : nonempty path = false -> some_parts path = false.
Proof. by intros ->%nonempty_false. Qed.

Lemma has_parts_root r : has_parts "" r = some_parts (nr_path r).
Proof. done. Qed.

Lemma normalizeStep_spec seen out result : let p := normalizeResultPath (res_path result) in
  exists new, normalizeStep (seen, out) result =
    ((if nonempty p && negb (bool_decide (p ∈ seen)) then seen ++ [p] else seen), out ++ new) /\
  map nr_path new = bfilter some_parts (bfilter (fun q => negb (bool_decide (q ∈ seen))) [p]) /\ Forall result_ok new.
Proof.
  cbn zeta. set (p := normalizeResultPath (res_path result)). unfold normalizeStep. fold p. cbn [List.filter].
  destruct (nonempty p) eqn:Hne; cbn [negb orb andb].
  2: { exists []. rewrite app_nil_r. split; [done|]. split; [|constructor].
       destruct (negb (bool_decide (p ∈ seen))); cbn [List.filter]; [by rewrite some_parts_nonempty|done]. }
  case_bool_decide as Hin; cbn [negb List.filter]; [exists []; rewrite app_nil_r; split; [done|split; [done|constructor]]|].
  unfold some_parts at 1. destruct (last (path_parts p)) as [lastPart|] eqn:E.
  - destruct (path_parts p); [done|]. eexists [_]. split; [done|]. split; [done|]. by repeat constructor.
  - apply last_None in E as ->. exists []. rewrite app_nil_r. split; [done|]. split; [done|constructor].
Qed.

Lemma normalize_fold results seen out : Forall result_ok out -> ""%string ∉ seen ->
  let res := foldl normalizeStep (seen, out) results in
  map nr_path res.2 = map nr_path out ++ bfilter some_parts (bfilter (fun q => negb (bool_decide (q ∈ seen)))
    (unique (map (fun r => normalizeResultPath (res_path r)) results))) /\ Forall result_ok res.2.
Proof.
  revert seen out; induction results as [|r results IH]; intros seen out Hok Hseen; cbn [foldl map unique]; [by rewrite app_nil_r|].
  destruct (normalizeStep_spec seen out r) as (new & -> & Hnew & Hok'). cbn zeta in Hnew. set (p := normalizeResultPath (res_path r)) in *.
  set (seen' := if nonempty p && negb (bool_decide (p ∈ seen)) then seen ++ [p] else seen).
  assert (""%string ∉ seen') as Hseen'.
  { unfold seen'. destruct (nonempty p) eqn:Hp; [|done]. destruct (negb _); [|done]. apply nonempty_true in Hp. set_solver. }
  destruct (IH seen' (out ++ new)) as [H1 H2]; [by apply Forall_app|done|]. cbn zeta. split; [|done].
  rewrite H1, map_app, Hnew, <- app_assoc. f_equal. cbn [List.filter]. set (l := unique _).
  assert (bfilter some_parts (bfilter (fun q => negb (bool_decide (q ∈ seen'))) l) =
    bfilter some_parts (bfilter (fun q => negb (bool_decide (q ∈ seen))) (bfilter (fun y => negb (bool_decide (y = p))) l))) as ->.
  { rewrite <- !bfilter_and. apply List.filter_ext. intros q. unfold seen'. destruct (nonempty p) eqn:Hp; cbn [andb].
    - destruct (bool_decide (p ∈ seen)) eqn:Hin; cbn [negb].
      + apply bool_decide_eq_true in Hin. destruct (decide (q = p)) as [->|Hne].
        * by rewrite (bool_decide_true (p ∈ seen)), (bool_decide_true (p = p)) by done.
        * by rewrite (bool_decide_false (q = p)) by done.
      + rewrite andb_assoc. f_equal. rewrite <- negb_orb. f_equal. apply eq_iff_eq_true. rewrite orb_true_iff, !bool_decide_eq_true. set_solver.
    - apply nonempty_false in Hp. destruct (decide (q = p)) as [->|Hne]; [|by rewrite (bool_decide_false (q = p)) by done].
      rewrite Hp. cbn. by rewrite !andb_false_r. }
  destruct (negb (bool_decide (p ∈ seen))) eqn:E; cbn [List.filter app]; [|done]. by destruct (some_parts p).
Qed.

(** The normalised results: one for each path there is, in order. *)
Lemma normalizeResults_spec results :
  map nr_path (normalizeResults results) =
    bfilter some_parts (unique (map (fun r => normalizeResultPath (res_path r)) results)) /\
  Forall result_ok (normalizeResults results).
Proof.
  destruct (normalize_fold results [] []) as [H1 H2]; [constructor|apply not_elem_of_nil|]. split; [|exact H2].
  unfold normalizeResults. rewrite H1. cbn [map app]. f_equal. apply bfilter_all, Forall_forall. intros q _.
  by rewrite bool_decide_false by apply not_elem_of_nil.
Qed.

(** The tree shows every result once: for any list of results and any loaded
    listings (each directory above its subdirectories) the tree is built, and its files
    are, once each, the distinct paths of the results; no directory in it is empty, and
    a file node has the path of its result. *)
Theorem search_tree_complete `{C : Collation} results (dirEntries : option DirEntries) :
  (forall d, dirEntries = Some d -> descending d) ->
  exists tree, buildFileSearchResultTree results dirEntries = Some tree /\ tree_ok tree /\
  map res_path (flattenFileSearchResultTree tree (fun _ => false)) ≡ₚ
    bfilter some_parts (unique (map (fun r => normalizeResultPath (res_path r)) results)).
Proof.
  intros Hd. destruct (normalizeResults_spec results) as [Hpaths Hok]. rewrite <- Hpaths. unfold buildFileSearchResultTree.
  set (rs := normalizeResults results) in *.
  assert (NoDup (map nr_path rs)) as Hnd by (rewrite Hpaths; apply NoDup_bfilter, NoDup_unique).
  assert (forall l, (forall r, r ∈ l -> r ∈ rs) -> bfilter (has_parts "") l = l) as Hparts.
  { intros l Hl. apply bfilter_all, Forall_forall. intros r Hr%Hl. rewrite has_parts_root.
    assert (nr_path r ∈ map nr_path rs) as Hin by (apply elem_of_map; eauto). rewrite Hpaths in Hin. by apply elem_of_bfilter in Hin as [_ ?]. }
  assert (forall l, (forall r, r ∈ l -> r ∈ rs) -> map res_path (map nr_result l) = map nr_path l) as Hmap.
  { intros l Hl. rewrite map_map. apply map_ext_in. intros r Hr%list_elem_of_In%Hl. rewrite Forall_forall in Hok. by apply Hok. }
  destruct dirEntries as [d|].
  - unfold buildTreeFromSourceOrder. destruct (search_tree_total rs d) as [[nodes seen] Hb]; [by apply Hd|]. rewrite Hb. cbn [mbind option_bind].
    apply built_directory in Hb as [B1 B2 B3 B4 B5]; [|done..].
    set (rest := js_sort compareNormalizedPath (bfilter (unseen seen) rs)).
    assert (forall r, r ∈ rest -> r ∈ rs) as Hrest by (intros r Hr; unfold rest in Hr; rewrite js_sort_perm in Hr; by apply elem_of_bfilter in Hr as [? _]).
    destruct (build_normalized "" rest) as [R1 R2].
    { apply Forall_forall. intros r Hr%Hrest. rewrite Forall_forall in Hok. by apply Hok. }
    eexists. split; [done|]. split; [by apply tree_ok_app|]. change (flattenFileSearchResultTree ?l _) with (files l).
    rewrite files_app, map_app, R1, Hparts, Hmap by done. unfold rest. rewrite js_sort_perm. apply NoDup_Permutation; [|done|].
    + apply NoDup_app. split; [done|]. split; [|by apply NoDup_map_bfilter].
      intros p Hp (r & -> & [_ Hr%unseen_true]%elem_of_bfilter)%elem_of_map. apply Hr. rewrite B2. by apply elem_of_app; right.
    + intros p. rewrite elem_of_app. split.
      * intros [(x & -> & (r & -> & Hr)%B3%elem_of_map)%elem_of_map|(r & -> & [Hr _]%elem_of_bfilter)%elem_of_map]; apply elem_of_map; [|eauto].
        exists r. split; [|done]. rewrite Forall_forall in Hok. by apply Hok.
      * intros (r & -> & Hr)%elem_of_map. destruct (unseen seen r) eqn:E.
        -- right. apply elem_of_map. exists r. split; [done|]. by apply elem_of_bfilter.
        -- left. unfold unseen in E. apply negb_false_iff, bool_decide_eq_true in E. rewrite B2 in E. by apply elem_of_app in E as [E%not_elem_of_nil|E].
  - destruct (build_normalized "" rs Hok) as [R1 R2]. eexists. split; [done|]. split; [done|].
    change (flattenFileSearchResultTree ?l _) with (files l). by rewrite R1, Hparts, Hmap.
Qed.

Lemma str_or_dot dir k : dir <> "."%string -> str_or dir "." = k -> dir = if bool_decide (k = ".")%string then ""%string else k.
Proof.
  intros Hdot <-. unfold str_or. destruct (nonempty dir) eqn:E; [by rewrite bool_decide_false|]. by apply nonempty_false in E.
Qed.

Lemma sample_descending : descending sample_listing.
Proof.
  intros dir entries entry Hdot H Hin Hk. unfold sample_listing in H.
  apply lookup_insert_Some in H as [[Hkey <-]|[_ H]].
  - apply eq_sym, (str_or_dot _ _ Hdot) in Hkey as ->. apply elem_of_cons in Hin as [->|Hin]; [vm_compute; lia|].
    apply list_elem_of_singleton in Hin as ->. discriminate Hk.
  - apply lookup_singleton_Some in H as [Hkey <-]. apply eq_sym, (str_or_dot _ _ Hdot) in Hkey as ->.
    apply elem_of_cons in Hin as [->|Hin]; [vm_compute; lia|]. apply list_elem_of_singleton in Hin as ->. discriminate Hk.
Qed.

Lemma search_tree_terminates_witness :
  exists b, buildDirectory (C:=code_collation) [] sample_listing (directoryFuel sample_listing) "" [] = Some b /\
            buildDirectory (C:=code_collation) [] sample_listing 100 "" [] = Some b.
Proof. apply search_tree_terminates; [exact sample_descending|done|]. vm_compute. lia. Defined.

Lemma search_tree_complete_witness : exists tree,
  buildFileSearchResultTree (C:=code_collation) sample_results (Some sample_listing) = Some tree /\ tree_ok tree /\
  map res_path (flattenFileSearchResultTree tree (fun _ => false)) ≡ₚ
    bfilter some_parts (unique (map (fun r => normalizeResultPath (res_path r)) sample_results)).
Proof. apply (search_tree_complete (C:=code_collation) sample_results (Some sample_listing)). intros d [= <-]. exact sample_descending. Defined.
