(* ===== verification/VoiceInput.v ===== *)
(** Voice input, [features/speech]: the buffer that holds audio until a stream is open,
    the queue that sends the chunks of a stream one after the other, and the transcript
    edited into the prompt.

    [createVoiceInputSendQueue] chains promises; its state here is what the closure holds
    and the jobs of the chain, and its transitions are the calls from outside and the
    continuations the event loop runs: a job starts once the one before it has settled,
    and settles when [sendChunk] does. *)

From S2P Require Import Prelude TerminalEncoding.
Open Scope Z_scope.

Definition bytes := list ascii.
Definition byteLength (b : bytes) : Z := Z.of_nat (length b).

Definition VOICE_LONG_TIMEOUT_MS : Z := 15000.
Definition VOICE_PCM_BYTES_PER_SECOND : Z := 16000 * 2 * 1.

(** * The buffer *)

Record VoiceInputBuffer := { buf_maxBytes : Z; buf_bytesPerSecond : Z; buf_chunks : list bytes; buf_byteCount : Z; buf_overflowed : bool }.

(** Durations and rates are integers here, so the quotient's floor is the integer one. *)
Definition resolveMaxBytes (maxDurationMs bytesPerSecond : Z) : Z :=
  Z.max 1 (Z.max 1 maxDurationMs * Z.max 1 bytesPerSecond / 1000).

Definition createVoiceInputBuffer (maxDurationMs bytesPerSecond : option Z) : VoiceInputBuffer :=
  let bps := default VOICE_PCM_BYTES_PER_SECOND bytesPerSecond in
  let maxMs := default VOICE_LONG_TIMEOUT_MS maxDurationMs in
  {| buf_maxBytes := resolveMaxBytes maxMs bps; buf_bytesPerSecond := bps; buf_chunks := []; buf_byteCount := 0; buf_overflowed := false |}.

(** The new buffer and whether the chunk was taken. *)
Definition append (b : VoiceInputBuffer) (chunk : bytes) : VoiceInputBuffer * bool :=
  if buf_overflowed b || (buf_maxBytes b <? buf_byteCount b + byteLength chunk) then
    ({| buf_maxBytes := buf_maxBytes b; buf_bytesPerSecond := buf_bytesPerSecond b; buf_chunks := buf_chunks b;
        buf_byteCount := buf_byteCount b; buf_overflowed := true |}, false)
  else if 0 <? byteLength chunk then
    ({| buf_maxBytes := buf_maxBytes b; buf_bytesPerSecond := buf_bytesPerSecond b; buf_chunks := buf_chunks b ++ [chunk];
        buf_byteCount := buf_byteCount b + byteLength chunk; buf_overflowed := buf_overflowed b |}, true)
  else (b, true).

Definition buffer_clear (b : VoiceInputBuffer) : VoiceInputBuffer :=
  {| buf_maxBytes := buf_maxBytes b; buf_bytesPerSecond := buf_bytesPerSecond b; buf_chunks := []; buf_byteCount := 0; buf_overflowed := false |}.
Definition buffer_drain (b : VoiceInputBuffer) : VoiceInputBuffer * list bytes := (buffer_clear b, buf_chunks b).

(** [Math.round((byteCount / Math.max(1, bytesPerSecond)) * 1000)]. *)
Definition durationMs (b : VoiceInputBuffer) : Z := round ((inject_Z (buf_byteCount b) / inject_Z (Z.max 1 (buf_bytesPerSecond b))) * 1000)%Q.

(** * The send queue *)

Inductive outcome := Resolved | Rejected (error : value).

(** What a transition shows outside. *)
Inductive effect :=
  | Accepted (chunk : bytes)            (* [enqueue] returned a promise of the chunk *)
  | Refused (error : value)             (* [enqueue] returned a rejection *)
  | SendChunk (seq : Z) (pcm : string)  (* the call of [options.sendChunk] *)
  | Settled (o : outcome).              (* the oldest unsettled promise settles *)

Record VoiceInputSendQueue := {
  vq_seq : Z;
  vq_sentChunks : Z;
  vq_queuedChunks : Z;
  vq_queuedBytes : Z;
  vq_failed : value;
  vq_cancelled : bool;
  vq_running : option bytes;
  vq_waiting : list bytes
}.

Definition createVoiceInputSendQueue : VoiceInputSendQueue :=
  {| vq_seq := 0; vq_sentChunks := 0; vq_queuedChunks := 0; vq_queuedBytes := 0; vq_failed := VNull; vq_cancelled := false;
     vq_running := None; vq_waiting := [] |}.

(** [new Error('voice input send queue cancelled')]. *)
Definition cancelled_error : value := VObj [("message", VStr "voice input send queue cancelled")]%string.

Definition base64FromBytes (b : bytes) : string := bytesToBase64 b.

Definition enqueue (q : VoiceInputSendQueue) (chunk : bytes) : VoiceInputSendQueue * list effect :=
  if vq_cancelled q then (q, [Refused cancelled_error])
  else if truthy (vq_failed q) then (q, [Refused (vq_failed q)])
  else ({| vq_seq := vq_seq q; vq_sentChunks := vq_sentChunks q; vq_queuedChunks := vq_queuedChunks q + 1;
           vq_queuedBytes := vq_queuedBytes q + byteLength chunk; vq_failed := vq_failed q; vq_cancelled := vq_cancelled q;
           vq_running := vq_running q; vq_waiting := vq_waiting q ++ [chunk] |}, [Accepted chunk]).

(** The job that runs or starts is rejected with [error]. *)
Definition rememberFailure (error : value) (q : VoiceInputSendQueue) : VoiceInputSendQueue * list effect :=
  ({| vq_seq := vq_seq q; vq_sentChunks := vq_sentChunks q; vq_queuedChunks := 0; vq_queuedBytes := 0; vq_failed := error;
      vq_cancelled := vq_cancelled q; vq_running := None; vq_waiting := vq_waiting q |}, [Settled (Rejected error)]).

(** The next job of the chain starts: [runChunk] up to its [await]. *)
Definition runChunk (q : VoiceInputSendQueue) (chunk : bytes) (rest : list bytes) : VoiceInputSendQueue * list effect :=
  let q := {| vq_seq := vq_seq q; vq_sentChunks := vq_sentChunks q; vq_queuedChunks := vq_queuedChunks q;
              vq_queuedBytes := vq_queuedBytes q; vq_failed := vq_failed q; vq_cancelled := vq_cancelled q;
              vq_running := vq_running q; vq_waiting := rest |} in
  if vq_cancelled q then rememberFailure cancelled_error q
  else if truthy (vq_failed q) then rememberFailure (vq_failed q) q
  else ({| vq_seq := vq_seq q + 1; vq_sentChunks := vq_sentChunks q; vq_queuedChunks := Z.max 0 (vq_queuedChunks q - 1);
           vq_queuedBytes := Z.max 0 (vq_queuedBytes q - byteLength chunk); vq_failed := vq_failed q; vq_cancelled := vq_cancelled q;
           vq_running := Some chunk; vq_waiting := rest |}, [SendChunk (vq_seq q + 1) (base64FromBytes chunk)]).

(** The promise of [sendChunk] resolves, or rejects with [error]. *)
Definition chunkSent (q : VoiceInputSendQueue) : VoiceInputSendQueue * list effect :=
  ({| vq_seq := vq_seq q; vq_sentChunks := vq_sentChunks q + 1; vq_queuedChunks := vq_queuedChunks q;
      vq_queuedBytes := vq_queuedBytes q; vq_failed := vq_failed q; vq_cancelled := vq_cancelled q; vq_running := None;
      vq_waiting := vq_waiting q |}, [Settled Resolved]).
Definition chunkFailed (q : VoiceInputSendQueue) (error : value) : VoiceInputSendQueue * list effect := rememberFailure error q.

Definition queue_cancel (q : VoiceInputSendQueue) : VoiceInputSendQueue :=
  {| vq_seq := vq_seq q; vq_sentChunks := vq_sentChunks q; vq_queuedChunks := 0; vq_queuedBytes := 0; vq_failed := vq_failed q;
     vq_cancelled := true; vq_running := vq_running q; vq_waiting := vq_waiting q |}.

(** What [drain] throws when the chain it awaited has settled. *)
Definition drain_outcome (q : VoiceInputSendQueue) : outcome := if truthy (vq_failed q) then Rejected (vq_failed q) else Resolved.

(** The event loop's own transitions. *)
Inductive internal_step : VoiceInputSendQueue * list effect -> VoiceInputSendQueue * list effect -> Prop :=
  | step_start q es chunk rest : vq_running q = None -> vq_waiting q = chunk :: rest ->
      internal_step (q, es) ((runChunk q chunk rest).1, es ++ (runChunk q chunk rest).2)
  | step_sent q es chunk : vq_running q = Some chunk -> internal_step (q, es) ((chunkSent q).1, es ++ (chunkSent q).2)
  | step_failed q es chunk error : vq_running q = Some chunk ->
      internal_step (q, es) ((chunkFailed q error).1, es ++ (chunkFailed q error).2).

Inductive queue_step : VoiceInputSendQueue * list effect -> VoiceInputSendQueue * list effect -> Prop :=
  | step_internal s s' : internal_step s s' -> queue_step s s'
  | step_enqueue q es chunk : queue_step (q, es) ((enqueue q chunk).1, es ++ (enqueue q chunk).2)
  | step_cancel q es : queue_step (q, es) (queue_cancel q, es).

(** * The transcript *)

Record VoiceInputSession := { vs_baseText : string; vs_insertStart : Z; vs_insertEnd : Z; vs_committed : string; vs_live : string; vs_current : string }.

Definition replaceVoiceSegment (baseText : string) (insertStart insertEnd : Z) (voiceText : string) : string :=
  let len := Z.of_nat (String.length baseText) in
  let safeStart := Z.max 0 (Z.min len insertStart) in
  let safeEnd := Z.max safeStart (Z.min len insertEnd) in
  slice 0 (Z.to_nat safeStart) baseText +:+ voiceText +:+ slice_from (Z.to_nat safeEnd) baseText.

Definition createVoiceInputSession (baseText : string) (insertStart insertEnd : Z) : VoiceInputSession :=
  {| vs_baseText := baseText; vs_insertStart := insertStart; vs_insertEnd := insertEnd; vs_committed := ""; vs_live := ""; vs_current := baseText |}.

Definition currentTranscript (s : VoiceInputSession) : string := vs_committed s +:+ vs_live s.

Definition render (s : VoiceInputSession) (committed live : string) : VoiceInputSession :=
  {| vs_baseText := vs_baseText s; vs_insertStart := vs_insertStart s; vs_insertEnd := vs_insertEnd s; vs_committed := committed;
     vs_live := live; vs_current := replaceVoiceSegment (vs_baseText s) (vs_insertStart s) (vs_insertEnd s) (committed +:+ live) |}.

Definition mergeVoiceTranscriptUpdate (previous next : string) : string := next.
Definition applyTranscript (s : VoiceInputSession) (text : string) : VoiceInputSession :=
  render s (vs_committed s) (mergeVoiceTranscriptUpdate (vs_live s) text).
Definition commitLiveTranscript (s : VoiceInputSession) : VoiceInputSession := render s (vs_committed s +:+ vs_live s) "".
Definition session_cancel (s : VoiceInputSession) : VoiceInputSession :=
  createVoiceInputSession (vs_baseText s) (vs_insertStart s) (vs_insertEnd s).
Definition currentCursor (s : VoiceInputSession) : Z := vs_insertStart s + Z.of_nat (String.length (currentTranscript s)).

Example voice_text :
  vs_current (applyTranscript (commitLiveTranscript (applyTranscript (createVoiceInputSession "say  now" 4 4) "hello")) " there") = "say hello there now"%string.
Proof. reflexivity. Qed.

(** * The buffer holds what fits, and all of it *)

(** From an empty buffer, the chunks given to it, until one is refused or they are drained. *)
Definition buffer_ok (b : VoiceInputBuffer) : Prop :=
  buf_byteCount b = foldr (fun c n => byteLength c + n) 0 (buf_chunks b) /\ buf_byteCount b <= buf_maxBytes b /\
  Forall (fun c => c <> []) (buf_chunks b).

Lemma total_app l1 l2 : foldr (fun c n => byteLength c + n) 0 (l1 ++ l2) =
  foldr (fun c n => byteLength c + n) 0 l1 + foldr (fun c n => byteLength c + n) 0 l2.
Proof. induction l1 as [|c l1 IH]; simpl; [done|]. rewrite IH. lia. Qed.

Lemma chunk_total_nonneg l : 0 <= foldr (fun c n => byteLength c + n) 0 l.
Proof. induction l as [|c l IH]; simpl; [lia|]. unfold byteLength at 1. lia. Qed.

Lemma create_buffer_ok ms bps : buffer_ok (createVoiceInputBuffer ms bps).
Proof. split_and!; simpl; [done|unfold resolveMaxBytes; lia|constructor]. Qed.

(** A buffer stays within its size; it takes a chunk exactly when nothing was refused
    before and the chunk fits, and then holds it last. *)
Lemma append_spec b chunk : buffer_ok b ->
  buffer_ok (append b chunk).1 /\
  ((append b chunk).2 = true <-> buf_overflowed b = false /\ buf_byteCount b + byteLength chunk <= buf_maxBytes b) /\
  buf_overflowed (append b chunk).1 = negb (append b chunk).2 /\
  concat (buf_chunks (append b chunk).1) = concat (buf_chunks b) ++ (if (append b chunk).2 then chunk else []).
Proof.
  intros (Hc & Hm & Hf). unfold append. destruct (buf_overflowed b) eqn:Eo; simpl.
  { rewrite app_nil_r. split_and!; [done|split; [done|by intros []]|done|done]. }
  destruct (Z.ltb_spec (buf_maxBytes b) (buf_byteCount b + byteLength chunk)) as [H|H]; simpl.
  { rewrite app_nil_r. split_and!; [done|split; [done|intros [_ ?]; lia]|done|done]. }
  destruct chunk as [|x chunk]; simpl.
  - rewrite app_nil_r. split_and!; [done|split; [split; [done|cbn in *; lia]|done]|done|done].
  - split_and!; [|split; [split; [done|lia]|done]|done|].
    + unfold buffer_ok; simpl. rewrite total_app. simpl. split_and!; [lia|lia|].
      apply Forall_app; split; [done|]. by repeat constructor.
    + rewrite concat_app. simpl. by rewrite app_nil_r.
Qed.

(** * The queue sends the chunks in order *)

(** What the trace says: the chunks whose promise was given, the calls of [sendChunk], the
    promises settled. *)
Definition accepted (es : list effect) : list bytes := omap (fun e => match e with Accepted c => Some c | _ => None end) es.
Definition sends (es : list effect) : list (Z * string) := omap (fun e => match e with SendChunk n p => Some (n, p) | _ => None end) es.
Definition settled (es : list effect) : list outcome := omap (fun e => match e with Settled o => Some o | _ => None end) es.
Definition errors (os : list outcome) : list value := omap (fun o => match o with Rejected e => Some e | Resolved => None end) os.

(** The payloads of consecutive chunks, numbered from 1. *)
Definition numbered (l : list bytes) : list (Z * string) := imap (fun i c => (Z.of_nat (S i), base64FromBytes c)) l.

Definition in_flight (q : VoiceInputSendQueue) : list bytes := option_list (vq_running q).
Definition halted (q : VoiceInputSendQueue) : bool := vq_cancelled q || truthy (vq_failed q).

Record queue_ok (q : VoiceInputSendQueue) (es : list effect) : Prop := {
  ok_jobs : exists done, accepted es = done ++ in_flight q ++ vq_waiting q /\ length done = length (settled es);
  ok_sends : sends es = numbered (take (Z.to_nat (vq_seq q)) (accepted es));
  ok_seq : 0 <= vq_seq q <= Z.of_nat (length (settled es) + length (in_flight q));
  ok_seq_running : halted q = false \/ vq_running q <> None -> vq_seq q = Z.of_nat (length (settled es) + length (in_flight q));
  ok_running : vq_running q <> None -> truthy (vq_failed q) = false;
  ok_sent : vq_sentChunks q = Z.of_nat (length (settled es)) - Z.of_nat (length (errors (settled es)));
  ok_failed : vq_failed q = default VNull (last (errors (settled es)));
  ok_counts : vq_cancelled q = false -> errors (settled es) = [] ->
    vq_queuedChunks q = Z.of_nat (length (vq_waiting q)) /\ vq_queuedBytes q = foldr (fun c n => byteLength c + n) 0 (vq_waiting q)
}.

Lemma accepted_app es es' : accepted (es ++ es') = accepted es ++ accepted es'.
Proof. apply omap_app. Qed.
Lemma sends_app es es' : sends (es ++ es') = sends es ++ sends es'.
Proof. apply omap_app. Qed.
Lemma settled_app es es' : settled (es ++ es') = settled es ++ settled es'.
Proof. apply omap_app. Qed.
Lemma errors_app os os' : errors (os ++ os') = errors os ++ errors os'.
Proof. apply omap_app. Qed.

#[local] Arguments accepted !_ /.
#[local] Arguments sends !_ /.
#[local] Arguments settled !_ /.
#[local] Arguments errors !_ /.

Ltac trace := rewrite ?accepted_app, ?sends_app, ?settled_app, ?errors_app; simpl; rewrite ?app_nil_r.

Lemma queue_ok_init : queue_ok createVoiceInputSendQueue [].
Proof. split; simpl; try done. by exists []. Qed.

Lemma take_accepted {A} n (l m : list A) : (n <= length l)%nat -> take n (l ++ m) = take n l.
Proof. intros H. rewrite take_app_le; done. Qed.

(** The promises settled and the job in flight are among the chunks accepted. *)
Lemma queue_ok_length q es : queue_ok q es ->
  length (accepted es) = (length (settled es) + length (in_flight q) + length (vq_waiting q))%nat.
Proof. intros [[d [-> Hd]] _ _ _ _ _ _ _]. rewrite !length_app. lia. Qed.

Lemma enqueue_ok q es chunk : queue_ok q es -> queue_ok (enqueue q chunk).1 (es ++ (enqueue q chunk).2).
Proof.
  intros Hq. pose proof (queue_ok_length _ _ Hq) as Hlen. unfold enqueue.
  destruct (vq_cancelled q) eqn:Ec; [|destruct (truthy (vq_failed q)) eqn:Ef].
  1,2: destruct Hq; split; by trace.
  destruct Hq as [[d [Hd Hd']] H1 H2 H3 H4 H5 H6 H7]. split; simpl; trace; try done.
  - exists d. split; [|done]. by rewrite Hd, <- !app_assoc.
  - rewrite H1. f_equal. rewrite take_accepted; [done|]. lia.
  - intros _. apply H3. left. unfold halted. by rewrite Ec, Ef.
  - intros _ He. destruct (H7 Ec He) as [-> ->]. rewrite length_app, total_app. simpl. lia.
Qed.

(** A job that fails: the one in flight, or the first waiting when it starts. *)
Lemma failed_ok q es done error waiting : queue_ok q es ->
  accepted es = done ++ waiting -> length done = S (length (settled es)) ->
  vq_running q <> None \/ halted q = true /\ (truthy error = true) ->
  queue_ok {| vq_seq := vq_seq q; vq_sentChunks := vq_sentChunks q; vq_queuedChunks := 0; vq_queuedBytes := 0;
              vq_failed := error; vq_cancelled := vq_cancelled q; vq_running := None; vq_waiting := waiting |}
           (es ++ [Settled (Rejected error)]).
Proof.
  intros [Hj H1 H2 H3 H4 H5 H6 H7] Ha Hl Hor.
  assert (Hin : (length (in_flight q) <= 1)%nat) by (unfold in_flight; destruct (vq_running q); simpl; lia).
  split; simpl; trace; try done; unfold in_flight in *; simpl in *; rewrite ?length_app; simpl.
  - exists done. rewrite Hl. split; [done|lia].
  - lia.
  - intros [Hh|?]; [|done]. destruct Hor as [Hr|[Hh' He]].
    + rewrite H3 by by right. destruct (vq_running q); [simpl; lia|done].
    + unfold halted in Hh. simpl in Hh. by rewrite He, orb_true_r in Hh.
  - lia.
  - by rewrite last_snoc.
  - intros _ He%app_nil. naive_solver.
Qed.

Lemma runChunk_ok q es chunk rest : queue_ok q es -> vq_running q = None -> vq_waiting q = chunk :: rest ->
  queue_ok (runChunk q chunk rest).1 (es ++ (runChunk q chunk rest).2).
Proof.
  intros Hq Hr Hw. destruct (ok_jobs _ _ Hq) as [d [Hd Hd']]. unfold in_flight in Hd. rewrite Hr, Hw in Hd. simpl in Hd.
  destruct (halted q) eqn:Eh.
  - assert (Hf : exists error, truthy error = true /\ runChunk q chunk rest =
      rememberFailure error {| vq_seq := vq_seq q; vq_sentChunks := vq_sentChunks q; vq_queuedChunks := vq_queuedChunks q;
        vq_queuedBytes := vq_queuedBytes q; vq_failed := vq_failed q; vq_cancelled := vq_cancelled q; vq_running := vq_running q; vq_waiting := rest |}).
    { unfold halted in Eh. unfold runChunk. simpl. destruct (vq_cancelled q); [by exists cancelled_error|]. simpl in Eh. rewrite Eh. by exists (vq_failed q). }
    destruct Hf as [error [He ->]]. simpl. eapply (failed_ok _ _ (d ++ [chunk])); [done|by rewrite <- app_assoc| |by right].
    rewrite length_app. simpl. lia.
  - destruct Hq as [Hj H1 H2 H3 H4 H5 H6 H7]. unfold halted in Eh. apply orb_false_iff in Eh as [Ec Ef].
    unfold runChunk. simpl. rewrite Ec, Ef. specialize (H3 (or_introl (proj2 (orb_false_iff _ _) (conj Ec Ef)))).
    unfold in_flight in *. rewrite Hr in *. simpl in *.
    split; simpl; trace; unfold in_flight; simpl; try done; try lia.
    + exists d. done.
    + rewrite H1, Hd. replace (Z.to_nat (vq_seq q + 1)) with (S (length d)) by lia.
      replace (Z.to_nat (vq_seq q)) with (length d) by lia. rewrite !take_app_length' by done.
      rewrite (take_S_r _ _ chunk), take_app_length by (by apply list_lookup_middle).
      unfold numbered. rewrite imap_app. simpl. do 3 f_equal. lia.
    + intros _ He. destruct (H7 Ec He) as [-> ->]. rewrite Hw. cbn [foldr length]. pose proof (chunk_total_nonneg rest). split; [lia|].
      set (t := foldr _ _ rest) in *. assert (0 <= byteLength chunk) by (unfold byteLength; lia). lia.
Qed.

Lemma settle_ok q es chunk error : queue_ok q es -> vq_running q = Some chunk ->
  queue_ok (chunkSent q).1 (es ++ (chunkSent q).2) /\ queue_ok (chunkFailed q error).1 (es ++ (chunkFailed q error).2).
Proof.
  intros Hq Hr. destruct (ok_jobs _ _ Hq) as [d [Hd Hd']]. unfold in_flight in Hd. rewrite Hr in Hd. simpl in Hd.
  split; [|eapply (failed_ok _ _ (d ++ [chunk])); [done|by rewrite <- app_assoc| |left; by rewrite Hr]; rewrite length_app; simpl; lia].
  destruct Hq as [Hj H1 H2 H3 H4 H5 H6 H7]. assert (Hs : vq_running q <> None) by by rewrite Hr.
  specialize (H3 (or_intror Hs)). unfold in_flight in *. rewrite Hr in *.
  split; simpl; trace; unfold in_flight; simpl in *; rewrite ?length_app; simpl; try done; try lia.
  exists (d ++ [chunk]). rewrite length_app, <- app_assoc. simpl. split; [done|lia].
Qed.

Lemma cancel_ok q es : queue_ok q es -> queue_ok (queue_cancel q) es.
Proof.
  intros [Hj H1 H2 H3 H4 H5 H6 H7]. split; simpl; try done. intros [Hh|?]; [done|]. apply H3. by right.
Qed.

Lemma queue_step_ok q es q' es' : queue_ok q es -> queue_step (q, es) (q', es') -> queue_ok q' es'.
Proof.
  intros Hq H. inversion H as [? ? Hi|? ? chunk|? ?]; subst.
  - inversion Hi; subst; [by apply runChunk_ok|by eapply (settle_ok _ _ _ VNull)|by eapply settle_ok].
  - by apply enqueue_ok.
  - by apply cancel_ok.
Qed.

Lemma queue_reachable q es : star queue_step (createVoiceInputSendQueue, []) (q, es) -> queue_ok q es.
Proof.
  intros H. apply (star_invariant _ (fun s => queue_ok s.1 s.2) _ _ H); [apply queue_ok_init|].
  intros [q1 es1] [q2 es2]. simpl. apply queue_step_ok.
Qed.

(** Once cancelled or failed, the queue stays so and sends nothing more. *)
Lemma halted_step q es q' es' : queue_ok q es -> queue_step (q, es) (q', es') -> halted q = true ->
  halted q' = true /\ sends es' = sends es.
Proof.
  intros Hq H Hh. inversion H as [? ? Hi|? ? chunk|? ?]; subst; [inversion Hi; subst| |].
  - unfold runChunk, halted in *. simpl. destruct (vq_cancelled q) eqn:Ec; [by trace|]. simpl in Hh. rewrite Hh. by trace.
  - trace. done.
  - trace. split; [|done]. pose proof (ok_running _ _ Hq) as Hf. unfold halted in *. simpl.
    rewrite Hf in Hh by congruence. rewrite orb_false_r in Hh. by rewrite Hh.
  - unfold enqueue, halted in *. destruct (vq_cancelled q) eqn:Ec; [trace; by rewrite Ec|]. simpl in Hh. rewrite Hh. trace. by rewrite Ec, Hh.
  - done.
Qed.

Lemma halted_star q es q' es' : queue_ok q es -> halted q = true -> star queue_step (q, es) (q', es') ->
  halted q' = true /\ sends es' = sends es.
Proof.
  intros Hq Hh H.
  assert (Hi : queue_ok q' es' /\ halted q' = true /\ sends es' = sends es); [|apply Hi].
  apply (star_invariant _ (fun s => queue_ok s.1 s.2 /\ halted s.1 = true /\ sends s.2 = sends es) _ _ H); [done|].
  intros [q1 es1] [q2 es2]. simpl. intros (H1 & H2 & H3) Hs. destruct (halted_step _ _ _ _ H1 Hs H2) as [? <-%eq_sym].
  split; [by eapply queue_step_ok|]. split; [done|]. by rewrite H3 in *.
Qed.

(** C32. The chunks of a stream are sent one at a time, in the order they were accepted,
    numbered from 1 without a gap; each promise given settles once, in order, with one
    job in flight at most; the counters are those of the waiting chunks until a
    failure or a cancellation, after which nothing more is ever sent; and the queue's
    failure is the last error a promise was rejected with. *)
Theorem voice_chunks_in_order q es : star queue_step (createVoiceInputSendQueue, []) (q, es) ->
  sends es = numbered (take (Z.to_nat (vq_seq q)) (accepted es)) /\
  (exists done, accepted es = done ++ in_flight q ++ vq_waiting q /\ length done = length (settled es)) /\
  vq_seq q <= Z.of_nat (length (settled es) + length (in_flight q)) /\
  vq_sentChunks q = Z.of_nat (length (settled es)) - Z.of_nat (length (errors (settled es))) /\
  drain_outcome q = match last (errors (settled es)) with
                    | Some e => if truthy e then Rejected e else Resolved | None => Resolved end /\
  (vq_cancelled q = false -> errors (settled es) = [] ->
     vq_queuedChunks q = Z.of_nat (length (vq_waiting q)) /\ vq_queuedBytes q = foldr (fun c n => byteLength c + n) 0 (vq_waiting q)) /\
  (halted q = true -> forall q' es', star queue_step (q, es) (q', es') -> sends es' = sends es).
Proof.
  intros H. pose proof (queue_reachable _ _ H) as Hq. pose proof Hq as [H0 H1 H2 H3 H4 H5 H6 H7].
  split_and!; [done|done|apply H2|done| |done|].
  - unfold drain_outcome. rewrite H6. by destruct (last _).
  - intros Hh q' es' H'. by eapply halted_star.
Qed.

(** The event loop settles every promise: each of its steps makes progress, and when none
    is left no job is. *)
Definition work (q : VoiceInputSendQueue) : nat := length (in_flight q) + 2 * length (vq_waiting q).

Lemma internal_progress q es q' es' : internal_step (q, es) (q', es') -> (work q' < work q)%nat.
Proof.
  intros H. unfold work, in_flight. inversion H as [? ? chunk rest Hr Hw|? ? chunk Hr|? ? chunk error Hr]; subst; rewrite Hr; simpl; try lia.
  rewrite Hw. unfold runChunk. simpl. destruct (vq_cancelled q); simpl; [lia|]. destruct (truthy (vq_failed q)); simpl; lia.
Qed.

Lemma idle_settled q es : star queue_step (createVoiceInputSendQueue, []) (q, es) ->
  (forall s, ~ internal_step (q, es) s) -> length (settled es) = length (accepted es).
Proof.
  intros H%queue_reachable Hn. rewrite (queue_ok_length _ _ H).
  assert (Hr : vq_running q = None).
  { destruct (vq_running q) as [c|] eqn:E; [|done]. exfalso. by eapply Hn, step_sent. }
  assert (Hw : vq_waiting q = []).
  { destruct (vq_waiting q) as [|c r] eqn:E; [done|]. exfalso. by eapply Hn, step_start. }
  unfold in_flight. rewrite Hr, Hw. simpl. lia.
Qed.

Lemma voice_chunks_in_order_witness :
  let a := [Ascii.ascii_of_nat 1; Ascii.ascii_of_nat 2] in let b := [Ascii.ascii_of_nat 3] in
  exists q es, star queue_step (createVoiceInputSendQueue, []) (q, es) /\ vq_seq q = 1 /\ vq_queuedBytes q = 1 /\
  sends es = numbered (take (Z.to_nat (vq_seq q)) (accepted es)).
Proof.
  intros a b.
  set (q1 := (enqueue createVoiceInputSendQueue a).1). set (q2 := (enqueue q1 b).1). set (q3 := (runChunk q2 a [b]).1).
  exists (chunkSent q3).1, (((([] ++ [Accepted a]) ++ [Accepted b]) ++ [SendChunk 1 (base64FromBytes a)]) ++ [Settled Resolved]).
  assert (H : star queue_step (createVoiceInputSendQueue, [])
    ((chunkSent q3).1, (((([] ++ [Accepted a]) ++ [Accepted b]) ++ [SendChunk 1 (base64FromBytes a)]) ++ [Settled Resolved]))).
  { eapply star_step; [|apply step_internal, step_sent with (chunk := a); reflexivity].
    eapply star_step; [|apply step_internal; apply (step_start q2); reflexivity].
    eapply star_step; [|apply (step_enqueue q1 _ b)].
    eapply star_step; [|apply (step_enqueue createVoiceInputSendQueue _ a)].
    apply star_refl. }
  split; [exact H|]. split; [reflexivity|]. split; [reflexivity|].
  exact (proj1 (voice_chunks_in_order _ _ H)).
Defined.

(** * The transcript in the prompt *)

(** The cursor splits the rendered text where the transcript ends. *)
Lemma cursor_after_transcript s text :
  0 <= vs_insertStart s <= vs_insertEnd s -> vs_insertEnd s <= Z.of_nat (String.length (vs_baseText s)) ->
  let s' := applyTranscript s text in
  slice 0 (Z.to_nat (currentCursor s')) (vs_current s')
    = slice 0 (Z.to_nat (vs_insertStart s)) (vs_baseText s) +:+ vs_committed s +:+ text /\
  slice_from (Z.to_nat (currentCursor s')) (vs_current s') = slice_from (Z.to_nat (vs_insertEnd s)) (vs_baseText s).
Proof.
  intros H1 H2. cbn zeta. unfold applyTranscript, mergeVoiceTranscriptUpdate, render, currentCursor, currentTranscript, replaceVoiceSegment, slice, slice_from.
  cbn [vs_insertStart vs_insertEnd vs_baseText vs_committed vs_live vs_current].
  set (len := Z.of_nat (String.length (vs_baseText s))) in *.
  replace (Z.max 0 (Z.min len (vs_insertStart s))) with (vs_insertStart s) by lia.
  replace (Z.max (vs_insertStart s) (Z.min len (vs_insertEnd s))) with (vs_insertEnd s) by lia.
  set (t := vs_committed s +:+ text). rewrite <- (chars_length t), !chars_app, !drop_0, !Nat.sub_0_r, !app_assoc, chars_unchars, chars_unchars.
  set (v := chars t).
  set (pre := take (Z.to_nat (vs_insertStart s)) (chars (vs_baseText s))).
  assert (Hp : Z.to_nat (vs_insertStart s + Z.of_nat (length v)) = length (pre ++ v)).
  { rewrite length_app. unfold pre. rewrite length_take, chars_length. lia. }
  rewrite Hp, take_app_length, drop_app_length. split; [|done].
  apply chars_inj. by rewrite chars_app, !chars_unchars.
Qed.
