(* ===== verification/TtsPlayback.v ===== *)
(** Reading answers aloud, [features/tts]: the text cut into segments, the request for one
    segment's speech, and the player.

    [TTSPlayer.play] runs as an asynchronous function per call, and calls of different
    generations overlap.  A [page] is the player with what it shares with the browser: the
    object URLs made, the requests sent, the audio elements, and the calls of [play] that
    wait.  An [event] is what the browser or the user does next: a request is answered, a
    waiting call resumes, an audio element plays, ends, fails or has its [play()] promise
    rejected.  [tts_step] is the code that runs, and [tts_run] any sequence of events. *)

From S2P Require Import Prelude TerminalEncoding.
Open Scope Z_scope.

(** * Segments *)

Definition newline : ascii := Ascii.ascii_of_nat 10.
Definition blank_line : string := unchars [newline; newline].
Definition MAX_SEGMENT_CHARS : Z := 300.

(** [text.split(/\n\n+/)]: the pieces between runs of two newlines or more; [cur] is the
    piece read so far, reversed. *)
Fixpoint drop_newlines (l : list ascii) : list ascii :=
  match l with c :: l' => if decide (c = newline) then drop_newlines l' else l | [] => [] end.
Fixpoint split_blank (fuel : nat) (l cur : list ascii) : list string :=
  match fuel with
  | O => []
  | S fuel =>
    match l with
    | [] => [unchars (rev cur)]
    | c :: l' =>
      if is_prefix [newline; newline] l then unchars (rev cur) :: split_blank fuel (drop_newlines l) []
      else split_blank fuel l' (c :: cur)
    end
  end.
Definition split_paragraphs (text : string) : list string := split_blank (S (String.length text)) (chars text) [].

Definition length_Z (s : string) : Z := Z.of_nat (String.length s).

Definition segment_step (maxChars : Z) (st : list string * string) (paragraph : string) : list string * string :=
  let '(segments, current) := st in
  if (0 <? length_Z current) && (maxChars <? length_Z current + length_Z paragraph + 2) then (segments ++ [current], paragraph)
  else (segments, if 0 <? length_Z current then current +:+ blank_line +:+ paragraph else paragraph).

Definition segmentText (text : string) (maxChars : Z) : list string :=
  let paragraphs := bfilter nonempty (map trim (split_paragraphs text)) in
  match paragraphs with
  | [] => []
  | _ =>
    let '(segments, current) := foldl (segment_step maxChars) ([], ""%string) paragraphs in
    if 0 <? length_Z current then segments ++ [current] else segments
  end.

(** * One segment's speech *)

Record TtsPlaybackSettings := { ts_model : string; ts_voice : string }.
Record TtsRequestOptions := { tr_model : string; tr_voice : string; tr_text : string }.
Inductive TtsResult := TtsOk (audioBase64 format : string) | TtsError (error : string).

(** What the backend's promise settles to: the response, or the message of its error. *)
Definition tts_reply : Type := (string * string) + string.
Definition TtsBackend : Type := TtsRequestOptions -> tts_reply.

Definition synthesizeSpeech (backend : TtsBackend) (options : TtsRequestOptions) : TtsResult :=
  if nonempty (trim (tr_text options)) then
    match backend options with inl (audio, format) => TtsOk audio format | inr message => TtsError message end
  else TtsError "Text is empty".

(** The bytes of the blob whose object URL is returned; [None] is the throw of [atob]. *)
Definition audioBase64ToBlobUrl (base64 : string) : option (list ascii) := base64ToBytes base64.

(** * The player and its page *)

Inductive TtsPlaybackState := Idle | Loading | Playing.
#[export] Instance TtsPlaybackState_dec : EqDecision TtsPlaybackState.
Proof. solve_decision. Defined.

(** A [Promise<string | null>]: settled with the number of an object URL or [null], or that
    of a request. *)
Inductive fetch_promise := Resolved (url : option nat) | Pending (fetch : nat).

Record TTSPlayer := {
  tp_audio : option nat;
  tp_blobUrls : list nat;
  tp_generation : Z;
  tp_state : TtsPlaybackState;
  tp_listeners : list nat;
  tp_prefetched : list (nat * nat);
  tp_pendingFetches : list (nat * fetch_promise);
  tp_playAudioResolve : option nat
}.

Inductive fetch_status := Requested | Returned (url : option nat) | Threw.
Record fetch := { f_gen : Z; f_index : nat; f_options : TtsRequestOptions; f_status : fetch_status }.

(** An [HTMLAudioElement] and the closure of the [playAudio] that made it: [el_attached]
    its handlers are set, [el_sounding] it has been started and has not stopped,
    [el_starting] the promise of [play()] is unsettled, [el_resolved] that of [playAudio]
    is resolved. *)
Record element := {
  el_url : nat; el_gen : Z; el_index : nat;
  el_attached : bool; el_sounding : bool; el_starting : bool; el_resolved : bool
}.

(** Where a call of [play] waits: for a segment's URL before anything was played, for one
    after, or for an audio element ([None]: [playAudio] resolved at once). *)
Inductive play_pc :=
  | AwaitFirst (i : nat) (p : fetch_promise)
  | AwaitSegment (i : nat) (p : fetch_promise)
  | AwaitAudio (i : nat) (el : option nat)
  | Finished
  | Failed.

Record session := { s_gen : Z; s_segments : list string; s_settings : TtsPlaybackSettings; s_pc : play_pc }.

Record page := {
  pg_player : TTSPlayer;
  pg_blobs : list (list ascii);
  pg_revoked : list nat;
  pg_fetches : list fetch;
  pg_elements : list element;
  pg_sessions : list session;
  pg_notified : list (nat * TtsPlaybackState)
}.

Definition new_page : page :=
  {| pg_player := {| tp_audio := None; tp_blobUrls := []; tp_generation := 0; tp_state := Idle; tp_listeners := [];
                     tp_prefetched := []; tp_pendingFetches := []; tp_playAudioResolve := None |};
     pg_blobs := []; pg_revoked := []; pg_fetches := []; pg_elements := []; pg_sessions := []; pg_notified := [] |}.

Definition with_player (t : TTSPlayer) (w : page) : page :=
  {| pg_player := t; pg_blobs := pg_blobs w; pg_revoked := pg_revoked w; pg_fetches := pg_fetches w;
     pg_elements := pg_elements w; pg_sessions := pg_sessions w; pg_notified := pg_notified w |}.
Definition with_fetches (f : list fetch) (w : page) : page :=
  {| pg_player := pg_player w; pg_blobs := pg_blobs w; pg_revoked := pg_revoked w; pg_fetches := f;
     pg_elements := pg_elements w; pg_sessions := pg_sessions w; pg_notified := pg_notified w |}.
Definition with_elements (l : list element) (w : page) : page :=
  {| pg_player := pg_player w; pg_blobs := pg_blobs w; pg_revoked := pg_revoked w; pg_fetches := pg_fetches w;
     pg_elements := l; pg_sessions := pg_sessions w; pg_notified := pg_notified w |}.
Definition with_sessions (l : list session) (w : page) : page :=
  {| pg_player := pg_player w; pg_blobs := pg_blobs w; pg_revoked := pg_revoked w; pg_fetches := pg_fetches w;
     pg_elements := pg_elements w; pg_sessions := l; pg_notified := pg_notified w |}.

Definition subscribe (listener : nat) (w : page) : page :=
  let t := pg_player w in
  with_player {| tp_audio := tp_audio t; tp_blobUrls := tp_blobUrls t; tp_generation := tp_generation t; tp_state := tp_state t;
    tp_listeners := if decide (listener ∈ tp_listeners t) then tp_listeners t else tp_listeners t ++ [listener];
    tp_prefetched := tp_prefetched t; tp_pendingFetches := tp_pendingFetches t; tp_playAudioResolve := tp_playAudioResolve t |} w.
Definition unsubscribe (listener : nat) (w : page) : page :=
  let t := pg_player w in
  with_player {| tp_audio := tp_audio t; tp_blobUrls := tp_blobUrls t; tp_generation := tp_generation t; tp_state := tp_state t;
    tp_listeners := bfilter (fun l => bool_decide (l <> listener)) (tp_listeners t);
    tp_prefetched := tp_prefetched t; tp_pendingFetches := tp_pendingFetches t; tp_playAudioResolve := tp_playAudioResolve t |} w.

(** A listener that throws is ignored. *)
Definition setState (next : TtsPlaybackState) (w : page) : page :=
  let t := pg_player w in
  if decide (tp_state t = next) then w else
  {| pg_player := {| tp_audio := tp_audio t; tp_blobUrls := tp_blobUrls t; tp_generation := tp_generation t; tp_state := next;
       tp_listeners := tp_listeners t; tp_prefetched := tp_prefetched t; tp_pendingFetches := tp_pendingFetches t;
       tp_playAudioResolve := tp_playAudioResolve t |};
     pg_blobs := pg_blobs w; pg_revoked := pg_revoked w; pg_fetches := pg_fetches w; pg_elements := pg_elements w;
     pg_sessions := pg_sessions w; pg_notified := pg_notified w ++ map (fun l => (l, next)) (tp_listeners t) |}.

(** [pause()] with the handlers removed, and the call of a [playAudio]'s [resolve]. *)
Definition detach_element (e : element) : element :=
  {| el_url := el_url e; el_gen := el_gen e; el_index := el_index e; el_attached := false; el_sounding := false;
     el_starting := el_starting e; el_resolved := el_resolved e |}.
Definition resolve_element (e : element) : element :=
  {| el_url := el_url e; el_gen := el_gen e; el_index := el_index e; el_attached := el_attached e; el_sounding := el_sounding e;
     el_starting := el_starting e; el_resolved := true |}.
Definition alter_some (f : element -> element) (o : option nat) (l : list element) : list element :=
  match o with Some n => alter f n l | None => l end.

Definition cleanup (w : page) : page :=
  let t := pg_player w in
  {| pg_player := {| tp_audio := None; tp_blobUrls := []; tp_generation := tp_generation t; tp_state := tp_state t;
       tp_listeners := tp_listeners t; tp_prefetched := []; tp_pendingFetches := []; tp_playAudioResolve := None |};
     pg_blobs := pg_blobs w; pg_revoked := pg_revoked w ++ tp_blobUrls t; pg_fetches := pg_fetches w;
     pg_elements := alter_some resolve_element (tp_playAudioResolve t) (alter_some detach_element (tp_audio t) (pg_elements w));
     pg_sessions := pg_sessions w; pg_notified := pg_notified w |}.

Definition stop (w : page) : page :=
  let t := pg_player w in
  let w := with_player {| tp_audio := tp_audio t; tp_blobUrls := tp_blobUrls t; tp_generation := tp_generation t + 1;
    tp_state := tp_state t; tp_listeners := tp_listeners t; tp_prefetched := tp_prefetched t;
    tp_pendingFetches := tp_pendingFetches t; tp_playAudioResolve := tp_playAudioResolve t |} w in
  setState Idle (cleanup w).

Definition current (gen : Z) (w : page) : bool := bool_decide (tp_generation (pg_player w) = gen).

Definition set_pending (l : list (nat * fetch_promise)) (w : page) : page :=
  let t := pg_player w in
  with_player {| tp_audio := tp_audio t; tp_blobUrls := tp_blobUrls t; tp_generation := tp_generation t; tp_state := tp_state t;
    tp_listeners := tp_listeners t; tp_prefetched := tp_prefetched t; tp_pendingFetches := l;
    tp_playAudioResolve := tp_playAudioResolve t |} w.

(** [prefetchSegment]: the promise it returns.  The asynchronous body runs up to its
    request before the promise is remembered. *)
Definition prefetchSegment (index : nat) (segments : list string) (settings : TtsPlaybackSettings) (gen : Z) (w : page) : page * fetch_promise :=
  match dget (tp_prefetched (pg_player w)) index with
  | Some cached => (w, Resolved (Some cached))
  | None =>
    match dget (tp_pendingFetches (pg_player w)) index with
    | Some pending => (w, pending)
    | None =>
      match segments !! index with
      | None => (w, Resolved None)
      | Some text =>
        let '(w, p) :=
          if current gen w then
            (with_fetches (pg_fetches w ++ [{| f_gen := gen; f_index := index; f_status := Requested;
               f_options := {| tr_model := ts_model settings; tr_voice := ts_voice settings; tr_text := text |} |}]) w,
             Pending (length (pg_fetches w)))
          else (w, Resolved None) in
        (set_pending (dset (tp_pendingFetches (pg_player w)) index p) w, p)
      end
    end
  end.

Definition settle_fetch (status : fetch_status) (f : fetch) : fetch :=
  {| f_gen := f_gen f; f_index := f_index f; f_options := f_options f; f_status := status |}.

(** The rest of the asynchronous body, once the backend has answered. *)
Definition fetchAnswered (id : nat) (f : fetch) (reply : tts_reply) (w : page) : page :=
  let settle status := with_fetches (alter (settle_fetch status) id (pg_fetches w)) in
  if negb (current (f_gen f) w) then settle (Returned None) w
  else
    match synthesizeSpeech (fun _ => reply) (f_options f) with
    | TtsError _ => settle (Returned None) w
    | TtsOk audioBase64 _ =>
      match audioBase64ToBlobUrl audioBase64 with
      | None => settle Threw w
      | Some bytes =>
        let t := pg_player w in
        let url := length (pg_blobs w) in
        {| pg_player := {| tp_audio := tp_audio t; tp_blobUrls := tp_blobUrls t ++ [url]; tp_generation := tp_generation t;
             tp_state := tp_state t; tp_listeners := tp_listeners t; tp_prefetched := dset (tp_prefetched t) (f_index f) url;
             tp_pendingFetches := ddelete (tp_pendingFetches t) (f_index f); tp_playAudioResolve := tp_playAudioResolve t |};
           pg_blobs := pg_blobs w ++ [bytes]; pg_revoked := pg_revoked w;
           pg_fetches := alter (settle_fetch (Returned (Some url))) id (pg_fetches w);
           pg_elements := pg_elements w; pg_sessions := pg_sessions w; pg_notified := pg_notified w |}
      end
    end.

(** [playAudio]: the element whose promise it returns, unless it resolves at once. *)
Definition playAudio (url index : nat) (gen : Z) (w : page) : page * option nat :=
  if negb (current gen w) then (w, None)
  else
    let t := pg_player w in
    let el := length (pg_elements w) in
    (with_elements (pg_elements w ++ [{| el_url := url; el_gen := gen; el_index := index; el_attached := true; el_sounding := true;
                                         el_starting := true; el_resolved := false |}])
      (with_player {| tp_audio := Some el; tp_blobUrls := tp_blobUrls t; tp_generation := tp_generation t; tp_state := tp_state t;
         tp_listeners := tp_listeners t; tp_prefetched := tp_prefetched t; tp_pendingFetches := tp_pendingFetches t;
         tp_playAudioResolve := Some el |} w), Some el).

(** The closure [done] of the element [el], which has stopped sounding. *)
Definition done_element (e : element) : element :=
  {| el_url := el_url e; el_gen := el_gen e; el_index := el_index e; el_attached := el_attached e; el_sounding := false;
     el_starting := el_starting e; el_resolved := true |}.
Definition started_element (e : element) : element :=
  {| el_url := el_url e; el_gen := el_gen e; el_index := el_index e; el_attached := el_attached e; el_sounding := el_sounding e;
     el_starting := false; el_resolved := el_resolved e |}.

Definition audio_done (el : nat) (w : page) : page :=
  let t := pg_player w in
  with_elements (alter done_element el (pg_elements w))
    (with_player {| tp_audio := None; tp_blobUrls := tp_blobUrls t; tp_generation := tp_generation t; tp_state := tp_state t;
       tp_listeners := tp_listeners t; tp_prefetched := tp_prefetched t; tp_pendingFetches := tp_pendingFetches t;
       tp_playAudioResolve := None |} w).

(** Every segment was played or has failed. *)
Definition playback_over (gen : Z) (w : page) : page := if current gen w then setState Idle (cleanup w) else w.

Section play.
Context (segments : list string) (settings : TtsPlaybackSettings) (gen : Z).

Definition has_segment (i : nat) : bool := (i <? length segments)%nat.
Definition prefetch (i : nat) (w : page) : page * fetch_promise := prefetchSegment i segments settings gen w.

(** The [while] of [playFromSegment] at [i] with [currentUrl], up to the next [await]; the
    prefetch of the next segment is not awaited. *)
Definition playFromSegment (i : nat) (currentUrl : option nat) (w : page) : page * play_pc :=
  if has_segment i && current gen w then
    match currentUrl with
    | None =>
      if has_segment (S i) then let '(w, p) := prefetch (S i) w in (w, AwaitSegment (S i) p)
      else (playback_over gen w, Finished)
    | Some url =>
      let w := if has_segment (S i) then (prefetch (S i) w).1 else w in
      let '(w, el) := playAudio url i gen w in (w, AwaitAudio i el)
    end
  else (playback_over gen w, Finished).

(** The URL of the next segment, once [i] has been played. *)
Definition nextSegment (i : nat) (w : page) : page * play_pc :=
  if has_segment (S i) then
    match dget (tp_prefetched (pg_player w)) (S i) with
    | Some url => playFromSegment (S i) (Some url) w
    | None => let '(w, p) := prefetch (S i) w in (w, AwaitSegment (S i) p)
    end
  else playFromSegment (S i) None w.

(** The rest of [play] once the URL of [i] is known, nothing having been played. *)
Definition tryFirst (i : nat) (url : option nat) (w : page) : page * play_pc :=
  match url with
  | Some url => playFromSegment i (Some url) w
  | None =>
    if has_segment (S i) then let '(w, p) := prefetch (S i) w in (w, AwaitFirst (S i) p)
    else (playback_over gen w, Finished)
  end.

(** [play] up to its first [await]. *)
Definition play_start (w : page) : page * play_pc :=
  match segments with
  | [] => (w, Finished)
  | _ => let '(w, p) := prefetch 0 (setState Loading w) in (w, AwaitFirst 0 p)
  end.
End play.

Definition play (segments : list string) (settings : TtsPlaybackSettings) (w : page) : page :=
  let w := stop w in
  let gen := tp_generation (pg_player w) in
  let '(w, pc) := play_start segments settings gen w in
  with_sessions (pg_sessions w ++ [{| s_gen := gen; s_segments := segments; s_settings := settings; s_pc := pc |}]) w.

Inductive settled := Waiting | Value (url : option nat) | Rejection.
Definition promise_state (p : fetch_promise) (w : page) : settled :=
  match p with
  | Resolved url => Value url
  | Pending id =>
    match pg_fetches w !! id with
    | Some f => match f_status f with Requested => Waiting | Returned url => Value url | Threw => Rejection end
    | None => Waiting
    end
  end.
Definition audio_settled (el : option nat) (w : page) : bool :=
  match el with None => true | Some el => match pg_elements w !! el with Some e => el_resolved e | None => false end end.

(** A call of [play] goes on from where it waits; [None] while it has to wait. *)
Definition continue (s : session) (w : page) : option (page * play_pc) :=
  let stale := negb (current (s_gen s) w) in
  match s_pc s with
  | AwaitFirst i p =>
    match promise_state p w with
    | Waiting => None
    | Rejection => Some (w, Failed)
    | Value url => Some (if stale then (w, Finished) else tryFirst (s_segments s) (s_settings s) (s_gen s) i url w)
    end
  | AwaitSegment i p =>
    match promise_state p w with
    | Waiting => None
    | Rejection => Some (w, Failed)
    | Value url => Some (playFromSegment (s_segments s) (s_settings s) (s_gen s) i url w)
    end
  | AwaitAudio i el =>
    if audio_settled el w then Some (if stale then (w, Finished) else nextSegment (s_segments s) (s_settings s) (s_gen s) i w)
    else None
  | Finished | Failed => None
  end.

Definition move_session (pc : play_pc) (s : session) : session :=
  {| s_gen := s_gen s; s_segments := s_segments s; s_settings := s_settings s; s_pc := pc |}.

(** * What can happen *)

Inductive tts_event :=
  | EvPlay (segments : list string) (settings : TtsPlaybackSettings)
  | EvStop
  | EvSubscribe (listener : nat)
  | EvUnsubscribe (listener : nat)
  | EvAnswer (fetch : nat) (reply : tts_reply)   (* the backend answers a request *)
  | EvResume (session : nat)                     (* a call of [play] goes on *)
  | EvPlaying (el : nat)                         (* [onplaying] *)
  | EvEnded (el : nat)                           (* [onended] or [onerror] *)
  | EvStarted (el : nat)                         (* the promise of [audio.play()] resolves *)
  | EvRejected (el : nat).                       (* it rejects *)

Definition tts_step (e : tts_event) (w : page) : option page :=
  match e with
  | EvPlay segments settings => Some (play segments settings w)
  | EvStop => Some (stop w)
  | EvSubscribe l => Some (subscribe l w)
  | EvUnsubscribe l => Some (unsubscribe l w)
  | EvAnswer id reply =>
    f ← pg_fetches w !! id; match f_status f with Requested => Some (fetchAnswered id f reply w) | _ => None end
  | EvResume n =>
    s ← pg_sessions w !! n;
    '(w', pc) ← continue s w;
    Some (with_sessions (alter (move_session pc) n (pg_sessions w')) w')
  | EvPlaying el =>
    x ← pg_elements w !! el;
    if el_attached x && el_sounding x then Some (if current (el_gen x) w then setState Playing w else w) else None
  | EvEnded el =>
    x ← pg_elements w !! el; if el_attached x && el_sounding x then Some (audio_done el w) else None
  | EvStarted el =>
    x ← pg_elements w !! el;
    if el_starting x then Some (with_elements (alter started_element el (pg_elements w)) w) else None
  | EvRejected el =>
    x ← pg_elements w !! el;
    if el_starting x then
      let w := audio_done el w in Some (with_elements (alter started_element el (pg_elements w)) w)
    else None
  end.

Fixpoint tts_run (es : list tts_event) (w : page) : option page :=
  match es with [] => Some w | e :: es => w' ← tts_step e w; tts_run es w' end.

(** * The invariant of the player *)

Definition cur (w : page) : Z := tp_generation (pg_player w).

(** What never changes of a request and of an element. *)
Definition eshape (w : page) : list (Z * nat * nat) := map (fun e => (el_gen e, el_index e, el_url e)) (pg_elements w).

Definition fetched (w : page) (g : Z) (i u : nat) : Prop :=
  exists id f, pg_fetches w !! id = Some f /\ f_gen f = g /\ f_index f = i /\ f_status f = Returned (Some u).
Definition asked (w : page) (i : nat) : Prop :=
  exists id f, pg_fetches w !! id = Some f /\ f_gen f = cur w /\ f_index f = i /\ f_status f = Requested.
Definition sounds (w : page) (n : nat) : Prop :=
  exists e, pg_elements w !! n = Some e /\ el_gen e = cur w /\ el_sounding e = true.

Definition promise_ok (w : page) (g : Z) (i : nat) (p : fetch_promise) : Prop :=
  match p with
  | Resolved None => False
  | Resolved (Some u) => fetched w g i u
  | Pending id => exists f, pg_fetches w !! id = Some f /\ f_gen f = g /\ f_index f = i
  end.

(** The calls of [play] so far, with their generations. *)
Definition plays (w : page) : list (Z * list string) := map (fun s => (s_gen s, s_segments s)) (pg_sessions w).

Record base_ok (ps : list (Z * list string)) (w : page) : Prop := {
  b_gens : forall g segs, (g, segs) ∈ ps -> g <= cur w;
  b_distinct : NoDup (map fst ps);
  b_fetch : forall id f, pg_fetches w !! id = Some f ->
    exists segs, (f_gen f, segs) ∈ ps /\ segs !! f_index f = Some (tr_text (f_options f));
  b_elem : forall g i u, (g, i, u) ∈ eshape w -> fetched w g i u;
  b_order : StronglySorted (fun a b => a.1.1 = b.1.1 -> (a.1.2 < b.1.2)%nat) (eshape w);
  b_silent : forall n e, pg_elements w !! n = Some e -> el_attached e = false \/ el_resolved e = true -> el_sounding e = false;
  b_audio : forall n, tp_audio (pg_player w) = Some n -> exists e, pg_elements w !! n = Some e /\ el_gen e = cur w;
  b_resolve : tp_playAudioResolve (pg_player w) = tp_audio (pg_player w);
  b_blobs : pg_revoked w ++ tp_blobUrls (pg_player w) ≡ₚ seq 0 (length (pg_blobs w))
}.

(** The tables of a generation that is being played. *)
Record live_ok (w : page) : Prop := {
  l_state : tp_state (pg_player w) <> Idle;
  l_fetch : forall id f, pg_fetches w !! id = Some f -> f_gen f = cur w ->
    match f_status f with
    | Returned (Some u) => dget (tp_prefetched (pg_player w)) (f_index f) = Some u
    | _ => dget (tp_pendingFetches (pg_player w)) (f_index f) = Some (Pending id)
    end;
  l_prefetched : forall i u, dget (tp_prefetched (pg_player w)) i = Some u -> fetched w (cur w) i u;
  l_pending : forall i p, dget (tp_pendingFetches (pg_player w)) i = Some p ->
    promise_ok w (cur w) i p /\ (exists id, p = Pending id) /\ dget (tp_prefetched (pg_player w)) i = None
}.

(** Nothing is played, fetched or held. *)
Record blank_ok (w : page) : Prop := {
  k_state : tp_state (pg_player w) = Idle;
  k_audio : tp_audio (pg_player w) = None;
  k_urls : tp_blobUrls (pg_player w) = [];
  k_prefetched : tp_prefetched (pg_player w) = [];
  k_pending : tp_pendingFetches (pg_player w) = [];
  k_asked : forall i, ~ asked w i;
  k_silent : forall n, ~ sounds w n
}.

(** Where a call of [play] waits, of any generation [g]. *)
Definition waits_ok (w : page) (g : Z) (segs : list string) (pc : play_pc) : Prop :=
  match pc with
  | AwaitFirst i p => (i < length segs)%nat /\ promise_ok w g i p /\ (forall j u, (g, j, u) ∈ eshape w -> False)
  | AwaitSegment i p => (i < length segs)%nat /\ promise_ok w g i p /\ (forall j u, (g, j, u) ∈ eshape w -> (j < i)%nat)
  | AwaitAudio i o => (i < length segs)%nat /\ (exists n u, o = Some n /\ eshape w !! n = Some (g, i, u)) /\
      (forall j u, (g, j, u) ∈ eshape w -> (j <= i)%nat)
  | Finished => True
  | Failed => exists f, f ∈ pg_fetches w /\ f_gen f = g /\ f_status f = Threw
  end.

(** The page while the call of the current generation waits. *)
Definition cur_ok (w : page) (pc : play_pc) : Prop :=
  match pc with
  | AwaitFirst i _ | AwaitSegment i _ => live_ok w /\ (forall j, asked w j -> j = i) /\ (forall n, ~ sounds w n)
  | AwaitAudio i None => False
  | AwaitAudio i (Some n) => live_ok w /\ (forall j, asked w j -> j = S i) /\ (forall m, sounds w m -> m = n) /\
      (forall e, pg_elements w !! n = Some e -> el_resolved e = true \/ el_attached e = true /\ el_sounding e = true)
  | Finished => blank_ok w
  | Failed => live_ok w /\ (forall j, ~ asked w j) /\ (forall n, ~ sounds w n)
  end.

Record page_ok (w : page) : Prop := {
  p_base : base_ok (plays w) w;
  p_waits : forall s, s ∈ pg_sessions w -> waits_ok w (s_gen s) (s_segments s) (s_pc s);
  p_cur : forall s, s ∈ pg_sessions w -> s_gen s = cur w -> cur_ok w (s_pc s);
  p_none : (forall s, s ∈ pg_sessions w -> s_gen s <> cur w) -> blank_ok w
}.

(** * What a step keeps *)

(** Requests are only added and settled, elements only added, by the current generation. *)
Definition fetches_grow (l l' : list fetch) : Prop :=
  forall id f, l !! id = Some f -> exists f', l' !! id = Some f' /\ f_gen f' = f_gen f /\ f_index f' = f_index f /\
    (f_status f <> Requested -> f_status f' = f_status f).
Definition grows (w w' : page) : Prop :=
  fetches_grow (pg_fetches w) (pg_fetches w') /\
  exists k, eshape w' = eshape w ++ k /\ forall x, x ∈ k -> x.1.1 = cur w.

Lemma fetches_grow_refl l : fetches_grow l l.
Proof. intros id f H. by exists f. Qed.

Lemma fetches_grow_app l k : fetches_grow l (l ++ k).
Proof. intros id f H. exists f. by rewrite (lookup_app_l_Some _ _ _ _ H). Qed.

Lemma fetches_grow_settle l id f status : l !! id = Some f -> f_status f = Requested -> fetches_grow l (alter (settle_fetch status) id l).
Proof.
  intros Hf Hs id' f' H. destruct (decide (id' = id)) as [->|Hne].
  - rewrite list_lookup_alter_eq, H. simplify_eq. eexists; split_and!; [done..|]. by rewrite Hs.
  - rewrite list_lookup_alter_ne by done. by exists f'.
Qed.

Lemma grows_refl w w' : pg_fetches w' = pg_fetches w -> eshape w' = eshape w -> grows w w'.
Proof.
  intros H1 H2. split; [rewrite H1; apply fetches_grow_refl|]. exists []. rewrite H2, app_nil_r. split; [done|].
  intros x H. by apply elem_of_nil in H.
Qed.

Lemma grows_trans w1 w2 w3 : cur w2 = cur w1 -> grows w1 w2 -> grows w2 w3 -> grows w1 w3.
Proof.
  intros Hc [H1 [k1 [E1 K1]]] [H2 [k2 [E2 K2]]]. split.
  - intros id f H. destruct (H1 _ _ H) as (f' & H' & ? & ? & Hs). destruct (H2 _ _ H') as (f'' & ? & ? & ? & Hs').
    exists f''. split_and!; [done|congruence..|]. intros Hn. rewrite <- (Hs Hn). apply Hs'. by rewrite (Hs Hn).
  - exists (k1 ++ k2). rewrite E2, E1, app_assoc. split; [done|]. intros x [H|H]%elem_of_app; [auto|]. rewrite <- Hc. auto.
Qed.

Lemma fetched_grow w w' g i u : fetches_grow (pg_fetches w) (pg_fetches w') -> fetched w g i u -> fetched w' g i u.
Proof.
  intros H (id & f & Hf & Hg & Hi & Hs). destruct (H _ _ Hf) as (f' & ? & ? & ? & Hs'). exists id, f'.
  split_and!; [done|congruence..|]. rewrite <- Hs. apply Hs'. by rewrite Hs.
Qed.

Lemma promise_grow w w' g i p : fetches_grow (pg_fetches w) (pg_fetches w') -> promise_ok w g i p -> promise_ok w' g i p.
Proof.
  intros H. destruct p as [[u|]|id]; simpl; [by apply fetched_grow|done|].
  intros (f & Hf & Hg & Hi). destruct (H _ _ Hf) as (f' & ? & ? & ? & _). exists f'. split_and!; [done|congruence..].
Qed.

(** A call waits on as long as no element of its own generation is added. *)
Lemma waits_frame w w' g segs pc : fetches_grow (pg_fetches w) (pg_fetches w') ->
  (exists k, eshape w' = eshape w ++ k /\ forall x, x ∈ k -> x.1.1 <> g) ->
  waits_ok w g segs pc -> waits_ok w' g segs pc.
Proof.
  intros Hf [k [E K]]. assert (He : forall j u, (g, j, u) ∈ eshape w' -> (g, j, u) ∈ eshape w).
  { intros j u. rewrite E. intros [H|H]%elem_of_app; [done|]. by apply K in H. }
  destruct pc as [i p|i p|i o| |]; simpl; [| | |done|].
  - intros (? & ? & H). split_and!; [done|by eapply promise_grow|]. intros j u Hj. by eapply H, He.
  - intros (? & ? & H). split_and!; [done|by eapply promise_grow|]. intros j u Hj. by eapply H, He.
  - intros (? & (n & u & -> & Hn) & H). split_and!; [done| |].
    + exists n, u. split; [done|]. by rewrite E, (lookup_app_l_Some _ _ _ _ Hn).
    + intros j v Hj. by eapply H, He.
  - intros (f & [id Hid]%list_elem_of_lookup & Hg & Hs). destruct (Hf _ _ Hid) as (f' & H1 & H2 & H3 & H4). exists f'.
    split_and!; [by eapply list_elem_of_lookup_2|congruence|]. rewrite <- Hs. apply H4. by rewrite Hs.
Qed.

Lemma waits_grow w w' g segs pc : grows w w' -> g <> cur w -> waits_ok w g segs pc -> waits_ok w' g segs pc.
Proof. intros [Hf [k [E K]]] Hg. apply waits_frame; [done|]. exists k. split; [done|]. intros x Hx. rewrite (K _ Hx). congruence. Qed.

Lemma base_same ps w w' : pg_fetches w' = pg_fetches w -> pg_elements w' = pg_elements w -> cur w' = cur w ->
  tp_audio (pg_player w') = tp_audio (pg_player w) -> tp_playAudioResolve (pg_player w') = tp_playAudioResolve (pg_player w) ->
  tp_blobUrls (pg_player w') = tp_blobUrls (pg_player w) -> pg_revoked w' = pg_revoked w -> pg_blobs w' = pg_blobs w ->
  base_ok ps w -> base_ok ps w'.
Proof.
  intros Ef Ee Ec Ea Er Eu Ek Eb [H1 H2 H3 H4 H5 H6 H7 H8 H9]. unfold eshape, fetched in *.
  split; unfold eshape, fetched; rewrite ?Ef, ?Ee, ?Ec, ?Ea, ?Er, ?Eu, ?Ek, ?Eb; done.
Qed.

Lemma live_same w w' : pg_fetches w' = pg_fetches w -> cur w' = cur w ->
  tp_prefetched (pg_player w') = tp_prefetched (pg_player w) -> tp_pendingFetches (pg_player w') = tp_pendingFetches (pg_player w) ->
  tp_state (pg_player w') <> Idle -> live_ok w -> live_ok w'.
Proof.
  intros Ef Ec Ep Eq Es [H1 H2 H3 H4]. split; [done|..]; unfold promise_ok, fetched in *; rewrite ?Ef, ?Ec, ?Ep, ?Eq; done.
Qed.

Lemma asked_same w w' i : pg_fetches w' = pg_fetches w -> cur w' = cur w -> asked w' i -> asked w i.
Proof. unfold asked. by intros -> ->. Qed.
Lemma sounds_same w w' n : pg_elements w' = pg_elements w -> cur w' = cur w -> sounds w' n -> sounds w n.
Proof. unfold sounds. by intros -> ->. Qed.

(** [setState] touches nothing but the state and what the listeners are told. *)
Lemma setState_fields next w : let w' := setState next w in let t := pg_player w in
  pg_player w' = {| tp_audio := tp_audio t; tp_blobUrls := tp_blobUrls t; tp_generation := tp_generation t; tp_state := next;
                    tp_listeners := tp_listeners t; tp_prefetched := tp_prefetched t; tp_pendingFetches := tp_pendingFetches t;
                    tp_playAudioResolve := tp_playAudioResolve t |} /\
  pg_fetches w' = pg_fetches w /\ pg_elements w' = pg_elements w /\ pg_sessions w' = pg_sessions w /\
  pg_blobs w' = pg_blobs w /\ pg_revoked w' = pg_revoked w.
Proof. cbn zeta. unfold setState. destruct (decide (tp_state (pg_player w) = next)) as [<-|]; [|done]. by destruct w as [[] ? ? ? ? ? ?]. Qed.

Lemma setState_base ps next w : base_ok ps w -> base_ok ps (setState next w).
Proof.
  pose proof (setState_fields next w) as (Hp & Hf & He & _ & Hb & Hr).
  apply base_same; unfold cur; by rewrite ?Hp.
Qed.

Lemma setState_live next w : next <> Idle -> live_ok w -> live_ok (setState next w).
Proof.
  pose proof (setState_fields next w) as (Hp & Hf & He & _ & Hb & Hr).
  intros Hn. apply live_same; unfold cur; by rewrite ?Hp.
Qed.

Lemma setState_grows next w : grows w (setState next w).
Proof. pose proof (setState_fields next w) as (Hp & Hf & He & _). apply grows_refl; unfold eshape; congruence. Qed.

(** ** Cleaning up *)

Lemma detach_shape f n l : (forall e, (el_gen (f e), el_index (f e), el_url (f e)) = (el_gen e, el_index e, el_url e)) ->
  map (fun e => (el_gen e, el_index e, el_url e)) (alter f n l) = map (fun e => (el_gen e, el_index e, el_url e)) l.
Proof.
  intros H. apply list_eq. intros i. rewrite !list_lookup_fmap. destruct (decide (i = n)) as [->|Hne].
  - rewrite list_lookup_alter_eq. destruct (l !! n); simpl; [by rewrite H|done].
  - by rewrite list_lookup_alter_ne.
Qed.

(** Stopping the current element: [cleanup] with [audio] and [playAudioResolve] the same. *)
Definition stop_element (e : element) : element := resolve_element (detach_element e).

Lemma cleanup_elements ps w : base_ok ps w ->
  pg_elements (cleanup w) = alter_some stop_element (tp_audio (pg_player w)) (pg_elements w).
Proof.
  intros H. simpl. rewrite (b_resolve _ _ H). destruct (tp_audio (pg_player w)) as [n|]; [|done]. simpl.
  by rewrite list_alter_alter_eq.
Qed.

Lemma cleanup_shape ps w : base_ok ps w -> eshape (cleanup w) = eshape w.
Proof.
  intros H. unfold eshape. rewrite (cleanup_elements _ _ H). destruct (tp_audio (pg_player w)); simpl; [|done].
  by apply detach_shape.
Qed.

(** The elements after [cleanup]: the current one is silent, the others are as before. *)
Lemma cleanup_lookup ps w n e : base_ok ps w -> pg_elements (cleanup w) !! n = Some e ->
  exists e0, pg_elements w !! n = Some e0 /\ el_gen e = el_gen e0 /\
    (if decide (tp_audio (pg_player w) = Some n) then el_sounding e = false else e = e0).
Proof.
  intros H. rewrite (cleanup_elements _ _ H). destruct (tp_audio (pg_player w)) as [m|]; simpl.
  - destruct (decide (m = n)) as [->|Hne].
    + rewrite list_lookup_alter_eq. destruct (pg_elements w !! n) as [e0|]; [|done]. simpl. intros [= <-]. exists e0. by rewrite decide_True.
    + rewrite list_lookup_alter_ne by done. intros He. exists e. by rewrite decide_False by congruence.
  - intros He. exists e. done.
Qed.

Lemma cleanup_base ps w : base_ok ps w -> base_ok ps (cleanup w).
Proof.
  intros H. pose proof H as [H1 H2 H3 H4 H5 H6 H7 H8 H9].
  split; rewrite ?(cleanup_shape _ _ H); try done.
  - intros n e (e0 & He & _ & Hd)%(cleanup_lookup _ _ _ _ H). destruct (decide _); [done|]. subst e0. eauto.
  - simpl. rewrite app_nil_r. exact H9.
Qed.

Lemma cleanup_sounds ps w n : base_ok ps w -> sounds (cleanup w) n -> sounds w n /\ tp_audio (pg_player w) <> Some n.
Proof.
  intros H (e & (e0 & He & Hg & Hd)%(cleanup_lookup _ _ _ _ H) & Hc & Hs). destruct (decide _) as [|Hne]; [congruence|].
  subst e0. split; [by exists e|done].
Qed.

(** A new generation: nothing belongs to it. *)
Lemma stop_base ps w : base_ok ps w -> base_ok ps (stop w) /\ cur (stop w) = cur w + 1 /\ blank_ok (stop w) /\
  pg_sessions (stop w) = pg_sessions w /\ pg_fetches (stop w) = pg_fetches w /\ eshape (stop w) = eshape w.
Proof.
  intros H. unfold stop. set (w1 := with_player _ w).
  assert (Hb : base_ok ps (cleanup w1)).
  { assert (Hw : base_ok ps {| pg_player := pg_player (cleanup w); pg_blobs := pg_blobs w; pg_revoked := pg_revoked (cleanup w);
      pg_fetches := pg_fetches w; pg_elements := pg_elements (cleanup w); pg_sessions := pg_sessions w; pg_notified := pg_notified w |})
      by exact (cleanup_base _ _ H).
    destruct Hw as [G1 G2 G3 G4 G5 G6 G7 G8 G9]. split; try done.
    intros g segs Hg. apply G1 in Hg. unfold cur in *. simpl in *. lia. }
  pose proof (setState_fields Idle (cleanup w1)) as (Hp & Hf & He & Hs & _).
  assert (Hc : cur (setState Idle (cleanup w1)) = cur w + 1) by (unfold cur; by rewrite Hp).
  assert (Hsh : eshape (cleanup w1) = eshape w) by exact (cleanup_shape _ _ H).
  assert (Hne : forall f, f ∈ pg_fetches w -> f_gen f <= cur w).
  { intros f [id Hid]%list_elem_of_lookup. destruct (b_fetch _ _ H _ _ Hid) as (segs & Hin & _). eapply b_gens; [exact H|done]. }
  split_and!; [by apply setState_base|done| |done|exact Hf|].
  - split; rewrite ?Hp; try done.
    + intros i (id & f & Hid & Hg & _). rewrite Hf in Hid. rewrite Hc in Hg. simpl in Hid.
      apply list_elem_of_lookup_2, Hne in Hid. lia.
    + intros n (e & Hn & Hg & _). rewrite He in Hn. rewrite Hc in Hg.
      assert (Hin : (el_gen e, el_index e, el_url e) ∈ eshape w).
      { rewrite <- Hsh. unfold eshape. apply elem_of_map. exists e. split; [done|]. by eapply list_elem_of_lookup_2. }
      apply (b_elem _ _ H) in Hin as (id & f & Hid & Hg' & _). apply list_elem_of_lookup_2, Hne in Hid. lia.
  - unfold eshape. rewrite He. exact Hsh.
Qed.

(** ** Requesting a segment *)

Lemma fetched_base ps w g i u : base_ok ps w -> fetched w g i u -> exists segs, (g, segs) ∈ ps /\ (i < length segs)%nat.
Proof.
  intros H (id & f & Hf & <- & <- & _). destruct (b_fetch _ _ H _ _ Hf) as (segs & Hin & Hl).
  exists segs. split; [done|]. by apply lookup_lt_Some in Hl.
Qed.

Lemma asked_base ps w i segs : base_ok ps w -> (cur w, segs) ∈ ps -> asked w i -> (i < length segs)%nat.
Proof.
  intros H Hin (id & f & Hf & Hg & <- & _). destruct (b_fetch _ _ H _ _ Hf) as (segs' & Hin' & Hl). rewrite Hg in Hin'.
  assert (segs' = segs) as ->.
  { eapply (NoDup_map_inj fst) in Hin'; [|apply H|exact Hin|done]. by simplify_eq. }
  by apply lookup_lt_Some in Hl.
Qed.

(** A segment whose promise has settled is not being asked for. *)
Lemma promise_not_asked w i p : live_ok w -> promise_ok w (cur w) i p -> promise_state p w <> Waiting -> ~ asked w i.
Proof.
  intros Hl Hp Hs (id & f & Hf & Hg & Hi & Hst).
  pose proof (l_fetch _ Hl _ _ Hf Hg) as Hpend. rewrite Hst in Hpend. destruct (l_pending _ Hl _ _ Hpend) as (_ & _ & Hn).
  rewrite Hi in *. destruct p as [[u|]|id']; simpl in *; [|done|].
  - destruct Hp as (id' & f' & Hf' & Hg' & Hi' & Hst'). pose proof (l_fetch _ Hl _ _ Hf' Hg') as Hu. rewrite Hst', Hi' in Hu. congruence.
  - destruct Hp as (f' & Hf' & Hg' & Hi'). rewrite Hf' in Hs. pose proof (l_fetch _ Hl _ _ Hf' Hg') as Hu. rewrite Hi' in Hu.
    destruct (f_status f') as [|[u|]|] eqn:E; [done|congruence|..].
    all: assert (id' = id) as -> by congruence; congruence.
Qed.

Lemma promise_url w i p u : promise_ok w (cur w) i p -> promise_state p w = Value (Some u) -> fetched w (cur w) i u.
Proof.
  destruct p as [[v|]|id]; simpl; [congruence|done|]. intros (f & Hf & Hg & Hi). rewrite Hf.
  destruct (f_status f) eqn:E; [done| |done]. intros [= ->]. by exists id, f.
Qed.

Lemma current_cur w : current (cur w) w = true.
Proof. by apply bool_decide_eq_true. Qed.
Lemma current_stale g w : g <> cur w -> current g w = false.
Proof. intros H. apply bool_decide_eq_false. intros E. by apply H. Qed.

Lemma has_segment_true segs i : has_segment segs i = true <-> (i < length segs)%nat.
Proof. unfold has_segment. apply Nat.ltb_lt. Qed.
Lemma has_segment_false segs i : has_segment segs i = false <-> (length segs <= i)%nat.
Proof. unfold has_segment. apply Nat.ltb_ge. Qed.

(** What [prefetch] of a segment of the current generation leaves. *)
Record prefetched_ok (ps : list (Z * list string)) (i : nat) (w w' : page) (p : fetch_promise) : Prop := {
  pf_base : base_ok ps w';
  pf_live : live_ok w';
  pf_promise : promise_ok w' (cur w') i p;
  pf_asked : forall j, asked w' j -> asked w j \/ j = i;
  pf_elements : pg_elements w' = pg_elements w;
  pf_sessions : pg_sessions w' = pg_sessions w;
  pf_cur : cur w' = cur w;
  pf_grow : fetches_grow (pg_fetches w) (pg_fetches w')
}.

Lemma prefetch_ok ps segs settings w i : base_ok ps w -> live_ok w -> (cur w, segs) ∈ ps -> (i < length segs)%nat ->
  let r := prefetch segs settings (cur w) i w in prefetched_ok ps i w r.1 r.2.
Proof.
  intros Hb Hl Hin Hi. cbn zeta. unfold prefetch, prefetchSegment.
  destruct (dget (tp_prefetched (pg_player w)) i) as [u|] eqn:E1.
  { split; simpl; try done; [by apply (l_prefetched _ Hl)|auto|apply fetches_grow_refl]. }
  destruct (dget (tp_pendingFetches (pg_player w)) i) as [p|] eqn:E2.
  { split; simpl; try done; [by apply (l_pending _ Hl)|auto|apply fetches_grow_refl]. }
  apply lookup_lt_is_Some in Hi as [text Ht]. rewrite Ht, current_cur. cbn [fst snd].
  set (f := {| f_gen := cur w; f_index := i; f_options := _; f_status := Requested |}).
  assert (Hnew : (pg_fetches w ++ [f]) !! length (pg_fetches w) = Some f) by (by rewrite list_lookup_middle).
  assert (Hold : forall id g, (pg_fetches w ++ [f]) !! id = Some g -> pg_fetches w !! id = Some g \/ id = length (pg_fetches w) /\ g = f).
  { intros id g [H|[H1 H2]]%lookup_app_Some; [by left|right]. apply list_lookup_singleton_Some in H2 as [? <-]. split; [lia|done]. }
  pose proof (fetches_grow_app (pg_fetches w) [f]) as Hgrow.
  split; simpl; try done.
  - destruct Hb as [H1 H2 H3 H4 H5 H6 H7 H8 H9]. split; try done; simpl.
    + intros id g [H|[-> ->]]%Hold; [by eapply H3|]. by exists segs.
    + intros g j u H%H4. eapply fetched_grow; [|exact H]. done.
  - split; [apply Hl|..]; simpl.
    + intros id g [H|[-> ->]]%Hold Hg.
      * pose proof (l_fetch _ Hl _ _ H Hg) as Hf. destruct (f_status g) as [|[u|]|]; try done.
        all: rewrite dget_dset_ne; [done|]; intros ->; congruence.
      * simpl. apply dget_dset_eq.
    + intros j u H%(l_prefetched _ Hl). eapply fetched_grow; [|exact H]. done.
    + intros j p. rewrite dget_dset. destruct (decide (i = j)) as [<-|Hne].
      * intros [= <-]. simpl. split_and!; [by exists f|by eexists|done].
      * intros H%(l_pending _ Hl). destruct H as (H & ? & ?). split_and!; [|done|done]. eapply promise_grow; [|exact H]. done.
  - by exists f.
  - intros j (id & g & [H|[-> ->]]%Hold & Hg & Hj & Hs); [left|by right]. by exists id, g.
Qed.

Lemma prefetched_shape ps i w w' p : prefetched_ok ps i w w' p -> eshape w' = eshape w.
Proof. intros H. unfold eshape. by rewrite (pf_elements _ _ _ _ _ H). Qed.
Lemma prefetched_sounds ps i w w' p n : prefetched_ok ps i w w' p -> sounds w' n -> sounds w n.
Proof. intros H. apply sounds_same; [apply H|]. eapply pf_cur, H. Qed.

(** ** A call goes on *)

(** Between two awaits, before the segment [i] is played: nothing sounds or is asked for. *)
Record between (ps : list (Z * list string)) (segs : list string) (i : nat) (w : page) : Prop := {
  m_base : base_ok ps w;
  m_live : live_ok w;
  m_play : (cur w, segs) ∈ ps;
  m_asked : forall j, ~ asked w j;
  m_silent : forall n, ~ sounds w n;
  m_before : forall j u, (cur w, j, u) ∈ eshape w -> (j < i)%nat
}.

Record call_ok (ps : list (Z * list string)) (segs : list string) (w : page) (r : page * play_pc) : Prop := {
  c_base : base_ok ps r.1;
  c_cur : cur_ok r.1 r.2;
  c_waits : waits_ok r.1 (cur w) segs r.2;
  c_gen : cur r.1 = cur w;
  c_grow : grows w r.1;
  c_sessions : pg_sessions r.1 = pg_sessions w
}.

Lemma call_ok_trans ps segs w1 w2 r : cur w2 = cur w1 -> grows w1 w2 -> pg_sessions w2 = pg_sessions w1 ->
  call_ok ps segs w2 r -> call_ok ps segs w1 r.
Proof.
  intros Hc Hg Hs [H1 H2 H3 H4 H5 H6]. split; [done|done|by rewrite <- Hc|congruence|by eapply grows_trans|congruence].
Qed.

Lemma over_ok ps segs i w : between ps segs i w -> call_ok ps segs w (playback_over (cur w) w, Finished).
Proof.
  intros [Hb Hl Hin Ha Hs Hlt]. unfold playback_over. rewrite current_cur.
  pose proof (setState_fields Idle (cleanup w)) as (Hp & Hf & He & Hss & _).
  assert (Hc : cur (setState Idle (cleanup w)) = cur w) by (unfold cur; by rewrite Hp).
  split; simpl; [apply setState_base; by apply cleanup_base| |done|done| |done].
  - split; rewrite ?Hp; try done.
    + intros j Hj. apply (Ha j). by apply (asked_same w _ _ Hf Hc).
    + intros n Hn. apply (sounds_same (cleanup w)) in Hn; [|done|by rewrite Hc]. eapply Hs. by eapply cleanup_sounds.
  - apply grows_refl; [done|]. unfold eshape at 1. rewrite He. by eapply cleanup_shape.
Qed.

Lemma prefetch_between ps segs settings i k w : between ps segs i w -> (k < length segs)%nat ->
  let r := prefetch segs settings (cur w) k w in
  prefetched_ok ps k w r.1 r.2 /\ (forall j, asked r.1 j -> j = k) /\ (forall n, ~ sounds r.1 n) /\
  (forall j u, (cur w, j, u) ∈ eshape r.1 -> (j < i)%nat).
Proof.
  intros [Hb Hl Hin Ha Hs Hlt] Hk. cbn zeta. pose proof (prefetch_ok ps segs settings w k Hb Hl Hin Hk) as H.
  split_and!; [done|..].
  - intros j Hj%(pf_asked _ _ _ _ _ H). destruct Hj as [Hj|]; [by apply Ha in Hj|done].
  - intros n Hn%(prefetched_sounds _ _ _ _ _ _ H). by apply Hs in Hn.
  - rewrite (prefetched_shape _ _ _ _ _ H). exact Hlt.
Qed.

Lemma prefetched_grows ps i w w' p : prefetched_ok ps i w w' p -> grows w w'.
Proof.
  intros H. split; [apply H|]. exists []. rewrite (prefetched_shape _ _ _ _ _ H), app_nil_r. split; [done|].
  intros x Hx. by apply elem_of_nil in Hx.
Qed.

Lemma await_segment_ok ps segs settings i k w : between ps segs i w -> (i <= k < length segs)%nat ->
  let r := prefetch segs settings (cur w) k w in call_ok ps segs w (r.1, AwaitSegment k r.2).
Proof.
  intros Hm Hk. cbn zeta. destruct (prefetch_between ps segs settings i k w Hm) as (H & Ha & Hs & Hlt); [lia|].
  pose proof H as [H1 H2 H3 H4 H5 H6 H7 H8].
  split; cbn [fst snd]; try done; [|by eapply prefetched_grows].
  simpl. rewrite H7 in H3. split_and!; [lia|done|]. intros j u Hj%Hlt. lia.
Qed.

Lemma await_first_ok ps segs settings k w : between ps segs 0 w -> (k < length segs)%nat ->
  let r := prefetch segs settings (cur w) k w in call_ok ps segs w (r.1, AwaitFirst k r.2).
Proof.
  intros Hm Hk. cbn zeta. destruct (prefetch_between ps segs settings 0 k w Hm) as (H & Ha & Hs & Hlt); [lia|].
  pose proof H as [H1 H2 H3 H4 H5 H6 H7 H8].
  split; cbn [fst snd]; try done; [|by eapply prefetched_grows].
  simpl. rewrite H7 in H3. split_and!; [lia|done|]. intros j u Hj%Hlt. lia.
Qed.

(** An audio element is created for the segment [i]. *)
Lemma play_audio_ok ps segs i w u : base_ok ps w -> live_ok w -> (forall n, ~ sounds w n) -> (i < length segs)%nat ->
  (forall j, asked w j -> j = S i) -> (forall j v, (cur w, j, v) ∈ eshape w -> (j < i)%nat) -> fetched w (cur w) i u ->
  let r := playAudio u i (cur w) w in call_ok ps segs w (r.1, AwaitAudio i r.2).
Proof.
  intros Hb Hl Hs Hi Ha Hlt Hu. unfold playAudio. rewrite current_cur. simpl.
  set (e := {| el_url := u; el_gen := cur w; el_index := i; el_attached := true; el_sounding := true; el_starting := true; el_resolved := false |}).
  assert (Hold : forall n x, (pg_elements w ++ [e]) !! n = Some x -> pg_elements w !! n = Some x \/ n = length (pg_elements w) /\ x = e).
  { intros n x [H|[H1 H2]]%lookup_app_Some; [by left|right]. apply list_lookup_singleton_Some in H2 as [? <-]. split; [lia|done]. }
  assert (Hsh : forall w', pg_elements w' = pg_elements w ++ [e] -> eshape w' = eshape w ++ [(cur w, i, u)]).
  { intros w' H. unfold eshape. by rewrite H, map_app. }
  match goal with |- call_ok _ _ _ (?x, _) => set (w' := x) end.
  assert (Hsh' : eshape w' = eshape w ++ [(cur w, i, u)]) by by apply Hsh.
  pose proof Hb as [H1 H2 H3 H4 H5 H6 H7 H8 H9].
  split; cbn [fst snd]; try done.
  - split; rewrite ?Hsh'; try done.
    + intros g j v [H|H]%elem_of_app; [by apply H4|]. apply list_elem_of_singleton in H. by simplify_eq.
    + apply StronglySorted_snoc; [done|]. intros [[g j] v] H Hg. simpl in *. subst g. by eapply Hlt.
    + intros n x [H|[-> ->]]%Hold Hx; [by eapply H6|]. simpl in Hx. naive_solver.
    + intros n [= <-]. exists e. split; [|done]. by apply list_lookup_middle.
  - split_and!; [eapply (live_same w); try done; apply Hl|done|..].
    + intros m (x & [Hx|[-> ->]]%Hold & Hg & Hy); [|done]. exfalso. apply (Hs m). by exists x.
    + intros x [Hx|[_ ->]]%Hold; [|by right]. apply lookup_lt_Some in Hx. lia.
  - split_and!; [done|..].
    + exists (length (pg_elements w)), u. split; [done|]. rewrite Hsh'. unfold eshape.
      by rewrite lookup_app_r, length_map, Nat.sub_diag by by rewrite length_map.
    + intros j v. rewrite Hsh'. intros [H%Hlt|H]%elem_of_app; [lia|]. apply list_elem_of_singleton in H. by simplify_eq.
  - split; [apply fetches_grow_refl|]. exists [(cur w, i, u)]. split; [done|].
    intros x Hx%list_elem_of_singleton. by subst x.
Qed.

Lemma playFromSegment_ok ps segs settings i url w : between ps segs i w -> (i < length segs)%nat ->
  (forall u, url = Some u -> fetched w (cur w) i u) -> call_ok ps segs w (playFromSegment segs settings (cur w) i url w).
Proof.
  intros Hm Hi Hu. unfold playFromSegment. rewrite (proj2 (has_segment_true _ _) Hi), current_cur. simpl.
  destruct url as [u|].
  - specialize (Hu _ eq_refl). destruct (has_segment segs (S i)) eqn:E; cbn [fst snd].
    + apply has_segment_true in E. destruct (prefetch_between ps segs settings i (S i) w Hm E) as (H & Ha & Hs & Hlt).
      set (r := prefetch segs settings (cur w) (S i) w) in *.
      assert (Hc : cur r.1 = cur w) by apply H.
      pose proof (play_audio_ok ps segs i r.1 u) as Hp. rewrite Hc in Hp.
      destruct (playAudio u i (cur w) r.1) as [w2 el] eqn:Ep. simpl in Hp |- *.
      eapply call_ok_trans; [exact Hc|by eapply prefetched_grows|by eapply pf_sessions|].
      apply Hp; [apply H|apply H|done|done|done|done|]. eapply fetched_grow; [apply H|done].
    + pose proof (play_audio_ok ps segs i w u (m_base _ _ _ _ Hm) (m_live _ _ _ _ Hm) (m_silent _ _ _ _ Hm) Hi) as Hp.
      destruct (playAudio u i (cur w) w) as [w2 el]. simpl in Hp. apply Hp; [|apply Hm|done].
      intros j Hj%(m_asked _ _ _ _ Hm). done.
  - destruct (has_segment segs (S i)) eqn:E.
    + apply has_segment_true in E. pose proof (await_segment_ok ps segs settings i (S i) w Hm) as H.
      cbn zeta in H. destruct (prefetch segs settings (cur w) (S i) w) as [w' p]. apply H. lia.
    + by eapply over_ok.
Qed.

Lemma tryFirst_ok ps segs settings i url w : between ps segs 0 w -> (i < length segs)%nat ->
  (forall u, url = Some u -> fetched w (cur w) i u) -> call_ok ps segs w (tryFirst segs settings (cur w) i url w).
Proof.
  intros Hm Hi Hu. unfold tryFirst. destruct url as [u|].
  - apply playFromSegment_ok; [|done|done]. destruct Hm as [H1 H2 H3 H4 H5 H6]. split; try done. intros j v Hj%H6. lia.
  - destruct (has_segment segs (S i)) eqn:E.
    + apply has_segment_true in E. pose proof (await_first_ok ps segs settings (S i) w Hm E) as H. cbn zeta in H.
      destruct (prefetch segs settings (cur w) (S i) w) as [w' p]. apply H.
    + by eapply over_ok.
Qed.

(** After [i] has been played, the next segment may still be being fetched. *)
Lemma nextSegment_ok ps segs settings i w : base_ok ps w -> live_ok w -> (cur w, segs) ∈ ps -> (i < length segs)%nat ->
  (forall j, asked w j -> j = S i) -> (forall n, ~ sounds w n) -> (forall j u, (cur w, j, u) ∈ eshape w -> (j <= i)%nat) ->
  call_ok ps segs w (nextSegment segs settings (cur w) i w).
Proof.
  intros Hb Hl Hin Hi Ha Hs Hle. unfold nextSegment. destruct (has_segment segs (S i)) eqn:E.
  - apply has_segment_true in E. destruct (dget (tp_prefetched (pg_player w)) (S i)) as [u|] eqn:Eu.
    + apply playFromSegment_ok; [|done|].
      * split; try done.
        -- intros j Hj. pose proof (Ha _ Hj) as ->. revert Hj.
           apply (promise_not_asked w (S i) (Resolved (Some u)) Hl); [|done]. by apply (l_prefetched _ Hl).
        -- intros j v Hj%Hle. lia.
      * intros v [= <-]. by apply (l_prefetched _ Hl).
    + pose proof (prefetch_ok ps segs settings w (S i) Hb Hl Hin E) as H. cbn zeta in H.
      destruct (prefetch segs settings (cur w) (S i) w) as [w' p]. cbn [fst snd] in H.
      pose proof H as [H1 H2 H3 H4 H5 H6 H7 H8]. split; cbn [fst snd]; try done; [| |by eapply prefetched_grows].
      * simpl. split_and!; [done|..]. { intros j Hx%H4. naive_solver. } intros n Hn%(prefetched_sounds _ _ _ _ _ _ H). by apply Hs in Hn.
      * simpl. rewrite H7 in H3. split_and!; [done|done|]. intros j u. rewrite (prefetched_shape _ _ _ _ _ H). intros Hx%Hle. lia.
  - unfold playFromSegment. rewrite E. cbn [andb]. eapply (over_ok _ _ (S i)). split; try done; [|intros j u Hj%Hle; lia].
    intros j Hj. pose proof (asked_base _ _ _ _ Hb Hin Hj). apply has_segment_false in E. pose proof (Ha _ Hj). lia.
Qed.

(** ** Every event keeps the invariant *)

(** A step that adds no element and no call. *)
Lemma page_keep w w' : page_ok w -> pg_sessions w' = pg_sessions w -> cur w' = cur w -> eshape w' = eshape w ->
  fetches_grow (pg_fetches w) (pg_fetches w') -> base_ok (plays w) w' ->
  (forall s, s ∈ pg_sessions w -> s_gen s = cur w -> cur_ok w (s_pc s) -> cur_ok w' (s_pc s)) -> (blank_ok w -> blank_ok w') -> page_ok w'.
Proof.
  intros [H1 H2 H3 H4] Hs Hc He Hf Hb Hcur Hbl. split; unfold plays in *; rewrite ?Hs, ?Hc; auto.
  intros s Hin. eapply waits_frame; [exact Hf| |by apply H2]. exists []. rewrite He, app_nil_r. split; [done|].
  intros x Hx. by apply elem_of_nil in Hx.
Qed.

(** If every part of [cur_ok] is kept. *)
Lemma cur_keep w w' pc : (live_ok w -> live_ok w') -> (blank_ok w -> blank_ok w') -> (forall j, asked w' j -> asked w j) ->
  (forall n, sounds w' n -> sounds w n) ->
  (forall n e', pg_elements w' !! n = Some e' -> exists e, pg_elements w !! n = Some e /\
     (el_resolved e = true \/ el_attached e = true /\ el_sounding e = true -> el_resolved e' = true \/ el_attached e' = true /\ el_sounding e' = true)) ->
  cur_ok w pc -> cur_ok w' pc.
Proof.
  intros Hl Hb Ha Hs He. destruct pc as [i p|i p|i [n|]| |]; simpl; [| | |done|done|].
  1,2: intros (? & H1 & H2); split_and!; [auto|eauto|]; intros n Hn%Hs; by apply H2 in Hn.
  - intros (? & H1 & H2 & H3). split_and!; [auto|eauto|eauto|]. intros e' He'. destruct (He _ _ He') as (e & Hn & Hi). eauto.
  - intros (? & H1 & H2). split_and!; [auto| |]; [intros j Hj%Ha; by apply H1 in Hj|intros n Hn%Hs; by apply H2 in Hn].
Qed.

Lemma blank_keep w w' : pg_player w' = pg_player w -> (forall j, asked w' j -> asked w j) -> (forall n, sounds w' n -> sounds w n) ->
  blank_ok w -> blank_ok w'.
Proof.
  intros Hp Ha Hs [H1 H2 H3 H4 H5 H6 H7]. split; rewrite ?Hp; try done; [intros i H%Ha; by apply H6 in H|intros n H%Hs; by apply H7 in H].
Qed.

Lemma elements_map_keep w w' f n0 : pg_elements w' = alter f n0 (pg_elements w) ->
  (forall e, el_gen (f e) = el_gen e) -> (forall e, el_sounding (f e) = true -> el_sounding e = true) -> cur w' = cur w ->
  forall n, sounds w' n -> sounds w n.
Proof.
  intros He Hg Hs Hc n (e & Hn & Hge & Hse). rewrite He, list_lookup_alter in Hn. rewrite Hc in Hge. destruct (decide (n0 = n)) as [->|]; [|by exists e].
  destruct (pg_elements w !! n) as [e0|] eqn:E; [|done]. simpl in Hn. simplify_eq. exists e0. rewrite Hg in Hge. auto.
Qed.

(** The session of the current generation is the only one, and its requests are its own. *)
Lemma session_of w g segs : page_ok w -> (g, segs) ∈ plays w -> exists s, s ∈ pg_sessions w /\ s_gen s = g /\ s_segments s = segs.
Proof. intros _ (s & [= -> ->] & Hs)%elem_of_map. by exists s. Qed.

Lemma play_of s w : s ∈ pg_sessions w -> (s_gen s, s_segments s) ∈ plays w.
Proof. intros H. apply elem_of_map. by exists s. Qed.

Lemma current_live w i : page_ok w -> asked w i -> live_ok w.
Proof.
  intros Hp Ha. pose proof Ha as (id & f & Hf & Hg & _). destruct (b_fetch _ _ (p_base _ Hp) _ _ Hf) as (segs & Hin & _).
  destruct (session_of _ _ _ Hp Hin) as (s & Hs & Hgs & _). rewrite Hg in Hgs. pose proof (p_cur _ Hp _ Hs Hgs) as Hc.
  destruct (s_pc s) as [? ?|? ?|? [?|]| |]; simpl in Hc; try apply Hc; [done|]. by apply (k_asked _ Hc) in Ha.
Qed.

Section answer.
Context (w : page) (id : nat) (f : fetch) (Hp : page_ok w) (Hf : pg_fetches w !! id = Some f) (Hr : f_status f = Requested).

Lemma settled_lookup status n g : alter (settle_fetch status) id (pg_fetches w) !! n = Some g ->
  (n <> id /\ pg_fetches w !! n = Some g) \/ (n = id /\ g = settle_fetch status f).
Proof.
  rewrite list_lookup_alter. destruct (decide (id = n)) as [<-|]; [|auto]. rewrite Hf. intros [= <-]. by right.
Qed.

Lemma settled_asked w' status j : pg_fetches w' = alter (settle_fetch status) id (pg_fetches w) -> cur w' = cur w -> status <> Requested ->
  asked w' j -> asked w j.
Proof.
  intros He Hc Hst (n & g & Hn & Hg & Hj & Hs). rewrite He in Hn. rewrite Hc in Hg.
  apply settled_lookup in Hn as [[_ Hn]|[-> ->]]; [by exists n, g|]. done.
Qed.

Lemma settled_base w' status : pg_fetches w' = alter (settle_fetch status) id (pg_fetches w) -> cur w' = cur w ->
  pg_elements w' = pg_elements w -> tp_audio (pg_player w') = tp_audio (pg_player w) ->
  tp_playAudioResolve (pg_player w') = tp_playAudioResolve (pg_player w) ->
  pg_revoked w' ++ tp_blobUrls (pg_player w') ≡ₚ seq 0 (length (pg_blobs w')) -> base_ok (plays w) w'.
Proof.
  intros He Hc Hel Ha Hre Hb. pose proof (p_base _ Hp) as [H1 H2 H3 H4 H5 H6 H7 H8 H9].
  assert (Hsh : eshape w' = eshape w) by (unfold eshape; by rewrite Hel).
  split; rewrite ?Hsh, ?Hc, ?Hel, ?Ha, ?Hre; try done.
  - intros n g Hn. rewrite He in Hn. apply settled_lookup in Hn as [[_ Hn]|[-> ->]]; [eauto|]. simpl. eauto.
  - intros g i u H%H4. eapply fetched_grow; [|exact H]. rewrite He. by eapply fetches_grow_settle.
Qed.

(** A request settled without a URL. *)
Lemma settle_fetch_ok status : status = Returned None \/ status = Threw ->
  page_ok (with_fetches (alter (settle_fetch status) id (pg_fetches w)) w).
Proof.
  intros Hst. assert (Hn : status <> Requested) by naive_solver. set (w' := with_fetches _ w).
  assert (Ha : forall j, asked w' j -> asked w j) by (intros j; by eapply settled_asked).
  assert (Hg : fetches_grow (pg_fetches w) (pg_fetches w')) by by eapply fetches_grow_settle.
  apply (page_keep w); try done.
  - eapply settled_base; try done. apply (p_base _ Hp).
  - intros s _ _. apply cur_keep; [|by apply blank_keep|done|done|naive_solver].
    intros [H1 H2 H3 H4]. split; [done|..].
    + intros n g [[_ Hn']|[-> ->]]%settled_lookup Hgg; [by apply (H2 _ _ Hn')|]. simpl in *.
      pose proof (H2 _ _ Hf Hgg) as Hpend. rewrite Hr in Hpend. by destruct Hst as [->| ->].
    + intros i u H%H3. by eapply fetched_grow.
    + intros i p H%H4. destruct H as (H & ? & ?). split_and!; [by eapply promise_grow|done..].
  - by apply blank_keep.
Qed.

Lemma fetchAnswered_ok reply : page_ok (fetchAnswered id f reply w).
Proof.
  unfold fetchAnswered. destruct (current (f_gen f) w) eqn:Ec; cbn [negb]; [|apply settle_fetch_ok; by left].
  destruct (synthesizeSpeech _ _) as [audio format|m]; [|apply settle_fetch_ok; by left].
  destruct (audioBase64ToBlobUrl audio) as [bytes|]; [|apply settle_fetch_ok; by right].
  apply bool_decide_eq_true in Ec. set (w' := {| pg_player := _ |}).
  assert (Hask : asked w (f_index f)) by (by exists id, f).
  pose proof (current_live _ _ Hp Hask) as Hl. pose proof (p_base _ Hp) as Hb.
  assert (Ha : forall j, asked w' j -> asked w j) by (intros j; by eapply settled_asked).
  assert (Hg : fetches_grow (pg_fetches w) (pg_fetches w')) by by eapply fetches_grow_settle.
  pose proof (l_fetch _ Hl _ _ Hf (eq_sym Ec)) as Hpend. rewrite Hr in Hpend.
  destruct (l_pending _ Hl _ _ Hpend) as (_ & _ & Hpre).
  assert (Hl' : live_ok w').
  { pose proof Hl as [H1 H2 H3 H4]. split; [done|..].
    - intros n g [[Hne Hn]|[-> ->]]%settled_lookup Hgg; simpl.
      + pose proof (H2 _ _ Hn Hgg) as Hs. destruct (decide (f_index g = f_index f)) as [E|E].
        * rewrite E in Hs. destruct (f_status g) as [|[u|]|]; congruence.
        * rewrite dget_dset_ne, dget_ddelete, decide_False by congruence. done.
      + apply dget_dset_eq.
    - intros i u. simpl. rewrite dget_dset. destruct (decide (f_index f = i)) as [<-|]; [|intros H%H3; by eapply fetched_grow].
      intros [= <-]. exists id, (settle_fetch (Returned (Some (length (pg_blobs w)))) f). simpl.
      rewrite list_lookup_alter_eq, Hf. done.
    - intros i p. simpl. rewrite dget_ddelete. destruct (decide (f_index f = i)) as [|Hne]; [done|]. intros H%H4.
      destruct H as (H & ? & ?). split_and!; [by eapply promise_grow|done|by rewrite dget_dset_ne]. }
  apply (page_keep w); try done.
  - eapply settled_base; try done. simpl. rewrite app_assoc, (b_blobs _ _ Hb), length_app. simpl.
    by rewrite seq_app.
  - intros s _ _ Hcs. revert Hcs. apply cur_keep; [done| |done|done|naive_solver]. intros Hk. by apply (k_asked _ Hk) in Hask.
  - intros Hk. by apply (k_asked _ Hk) in Hask.
Qed.
End answer.

(** A change of the elements that gives none a sound: [audio] is kept, or cleared. *)
Lemma element_step_ok w w' f n : page_ok w -> pg_fetches w' = pg_fetches w -> pg_sessions w' = pg_sessions w ->
  pg_elements w' = alter f n (pg_elements w) -> pg_blobs w' = pg_blobs w -> pg_revoked w' = pg_revoked w ->
  (forall e, (el_gen (f e), el_index (f e), el_url (f e)) = (el_gen e, el_index e, el_url e)) ->
  (forall e, (el_sounding (f e) = true -> el_sounding e = true /\ el_attached (f e) = el_attached e /\ el_resolved (f e) = el_resolved e)) ->
  (forall e, el_resolved e = true \/ el_attached e = true /\ el_sounding e = true ->
     el_resolved (f e) = true \/ el_attached (f e) = true /\ el_sounding (f e) = true) ->
  (forall o, tp_audio (pg_player w') = Some o -> tp_audio (pg_player w) = Some o) ->
  (pg_player w' = pg_player w \/
   tp_playAudioResolve (pg_player w') = tp_audio (pg_player w') /\ cur w' = cur w /\ tp_state (pg_player w') = tp_state (pg_player w) /\
   tp_blobUrls (pg_player w') = tp_blobUrls (pg_player w) /\ tp_prefetched (pg_player w') = tp_prefetched (pg_player w) /\
   tp_pendingFetches (pg_player w') = tp_pendingFetches (pg_player w)) -> page_ok w'.
Proof.
  intros Hp Ef Es Ee Eb Er Hsh Hsound Hres Hau Hpl.
  assert (Hpl' : tp_playAudioResolve (pg_player w') = tp_audio (pg_player w') /\ cur w' = cur w /\
    tp_state (pg_player w') = tp_state (pg_player w) /\ tp_blobUrls (pg_player w') = tp_blobUrls (pg_player w) /\
    tp_prefetched (pg_player w') = tp_prefetched (pg_player w) /\ tp_pendingFetches (pg_player w') = tp_pendingFetches (pg_player w)).
  { destruct Hpl as [E|H]; [|exact H]. unfold cur. rewrite E. split_and!; try done. apply (b_resolve _ _ (p_base _ Hp)). }
  clear Hpl. destruct Hpl' as (P1 & P2 & P3 & P4 & P5 & P6).
  assert (Hshape : eshape w' = eshape w) by (unfold eshape; rewrite Ee; by apply detach_shape).
  assert (Hg : fetches_grow (pg_fetches w) (pg_fetches w')) by (rewrite Ef; apply fetches_grow_refl).
  assert (Hs : forall m, sounds w' m -> sounds w m).
  { eapply elements_map_keep; [exact Ee|intros e; specialize (Hsh e); congruence|intros e He; by apply Hsound|done]. }
  assert (Ha : forall j, asked w' j -> asked w j) by (intros j; by apply asked_same).
  assert (Hlook : forall m e', pg_elements w' !! m = Some e' -> exists e, pg_elements w !! m = Some e /\ (e' = e \/ e' = f e)).
  { intros m e'. rewrite Ee, list_lookup_alter. destruct (decide (n = m)) as [<-|]; [|intros H; exists e'; naive_solver].
    destruct (pg_elements w !! n) as [e|]; [|done]. intros [= <-]. exists e. naive_solver. }
  assert (Hbl : blank_ok w -> blank_ok w').
  { intros [K1 K2 K3 K4 K5 K6 K7]. split; rewrite ?P3, ?P4, ?P5, ?P6; try done; [|intros i H%Ha; by apply K6 in H|intros m H%Hs; by apply K7 in H].
    destruct (tp_audio (pg_player w')) as [o|] eqn:E; [|done]. by rewrite (Hau _ eq_refl) in K2. }
  apply (page_keep w); try done.
  - pose proof (p_base _ Hp) as [H1 H2 H3 H4 H5 H6 H7 H8 H9].
    split; rewrite ?Hshape, ?P2, ?Er, ?P4, ?Eb, ?Ef; try done.
    + intros g i u H. unfold fetched. rewrite Ef. by apply H4.
    + intros m e' He' Hx. destruct (Hlook _ _ He') as (e & He & [->| ->]); [by eapply H6|].
      destruct (el_sounding (f e)) eqn:E; [|done]. apply Hsound in E as (E1 & E2 & E3). rewrite E2, E3 in Hx.
      rewrite <- E1. by eapply H6.
    + intros o Ho%Hau%H7. destruct Ho as (e & He & Hge). destruct (decide (n = o)) as [<-|Hne].
      * exists (f e). rewrite Ee, list_lookup_alter_eq, He. split; [done|]. rewrite <- Hge. specialize (Hsh e). congruence.
      * exists e. by rewrite Ee, list_lookup_alter_ne.
  - intros s _ _. apply cur_keep; try done.
    + intros Hl. apply (live_same w); try done. rewrite P3. apply Hl.
    + intros m e' He'. destruct (Hlook _ _ He') as (e & He & [->| ->]); exists e; auto.
Qed.

Lemma audio_done_ok n w : page_ok w -> page_ok (audio_done n w).
Proof.
  intros H. apply (element_step_ok w _ done_element n H); try done; [intros e _; by left|]. by right.
Qed.

Lemma started_ok n w : page_ok w -> page_ok (with_elements (alter started_element n (pg_elements w)) w).
Proof. intros H. apply (element_step_ok w _ started_element n H); try done. by left. Qed.

(** A change of the player that leaves everything but listeners, state and what they are told. *)
Lemma state_step_ok w w' : page_ok w -> pg_fetches w' = pg_fetches w -> pg_sessions w' = pg_sessions w ->
  pg_elements w' = pg_elements w -> pg_blobs w' = pg_blobs w -> pg_revoked w' = pg_revoked w ->
  (tp_audio (pg_player w'), tp_playAudioResolve (pg_player w'), tp_blobUrls (pg_player w'), tp_prefetched (pg_player w'),
   tp_pendingFetches (pg_player w'), cur w') =
  (tp_audio (pg_player w), tp_playAudioResolve (pg_player w), tp_blobUrls (pg_player w), tp_prefetched (pg_player w),
   tp_pendingFetches (pg_player w), cur w) ->
  (tp_state (pg_player w') = tp_state (pg_player w) \/ tp_state (pg_player w') <> Idle /\ exists n, sounds w n) -> page_ok w'.
Proof.
  intros Hp Ef Es Ee Eb Er [= E1 E2 E3 E4 E5 E6] Hst.
  assert (Hsh : eshape w' = eshape w) by (unfold eshape; by rewrite Ee).
  assert (Hbl : blank_ok w -> blank_ok w').
  { intros [K1 K2 K3 K4 K5 K6 K7]. destruct Hst as [Hst|[_ [n Hn]]]; [|by apply K7 in Hn].
    split; rewrite ?E1, ?E3, ?E4, ?E5; try done; [by rewrite Hst|..].
    - intros i H. apply (K6 i). by apply (asked_same w w').
    - intros n H. apply (K7 n). by apply (sounds_same w w'). }
  apply (page_keep w); try done.
  - rewrite Ef. apply fetches_grow_refl.
  - by apply (base_same _ w), Hp.
  - intros s _ _. apply cur_keep; try done; [|intros j; by apply asked_same|intros n; by apply sounds_same|rewrite Ee; naive_solver].
    intros Hl. apply (live_same w); try done. destruct Hst as [->|[? _]]; [apply Hl|done].
Qed.

Lemma stop_waits w s : page_ok w -> s ∈ pg_sessions w -> waits_ok (stop w) (s_gen s) (s_segments s) (s_pc s).
Proof.
  intros Hp Hin. destruct (stop_base _ _ (p_base _ Hp)) as (_ & _ & _ & _ & Hf & Hsh).
  apply (waits_frame w); [rewrite Hf; apply fetches_grow_refl| |exact (p_waits _ Hp _ Hin)]. exists []. rewrite Hsh, app_nil_r. split; [done|].
  intros x Hx. by apply elem_of_nil in Hx.
Qed.

Lemma play_gen w s : page_ok w -> s ∈ pg_sessions w -> s_gen s <= cur w.
Proof. intros Hp Hin. eapply b_gens; [apply Hp|by apply play_of]. Qed.

Lemma stop_ok w : page_ok w -> page_ok (stop w).
Proof.
  intros Hp. destruct (stop_base _ _ (p_base _ Hp)) as (Hb & Hc & Hk & Hs & Hf & Hsh).
  split; unfold plays; rewrite ?Hs; try done.
  - intros s Hin. by apply stop_waits.
  - intros s Hin Hgs. pose proof (play_gen _ _ Hp Hin). lia.
Qed.

Lemma base_extend ps w segs : base_ok ps w -> (forall g segs', (g, segs') ∈ ps -> g < cur w) -> base_ok (ps ++ [(cur w, segs)]) w.
Proof.
  intros [H1 H2 H3 H4 H5 H6 H7 H8 H9] Hlt. split; try done.
  - intros g s [H|H]%elem_of_app; [by eapply H1|]. apply list_elem_of_singleton in H. simplify_eq. lia.
  - rewrite map_app. apply NoDup_app. split_and!; [done| |by apply NoDup_singleton].
    intros g ([? ?] & -> & Hin)%elem_of_map Hg. apply list_elem_of_singleton in Hg. apply Hlt in Hin. simpl in *. lia.
  - intros id f Hf. destruct (H3 _ _ Hf) as (s & Hin & Ht). exists s. split; [|done]. apply elem_of_app. by left.
Qed.

Lemma play_start_ok ps segs settings w : base_ok ps w -> blank_ok w -> (cur w, segs) ∈ ps ->
  (forall id f, pg_fetches w !! id = Some f -> f_gen f <> cur w) -> call_ok ps segs w (play_start segs settings (cur w) w).
Proof.
  intros Hb Hk Hin Hno. unfold play_start. destruct segs as [|text segs'].
  { split; simpl; try done. by apply grows_refl. }
  set (segs := text :: segs') in *.
  pose proof (setState_fields Loading w) as (Hp & Hf & Hel & Hs & _).
  assert (Hc : cur (setState Loading w) = cur w) by (unfold cur; by rewrite Hp).
  assert (Hm : between ps segs 0 (setState Loading w)).
  { split; rewrite ?Hc; try done; [by apply setState_base|..].
    - destruct Hk as [K1 K2 K3 K4 K5 K6 K7]. split; rewrite ?Hp; simpl; rewrite ?K4, ?K5; try done.
      intros id f. rewrite Hf, Hc. intros Hid Hg. by apply Hno in Hid.
    - intros j Hj. apply (k_asked _ Hk j). by apply (asked_same w (setState Loading w)).
    - intros n Hn. apply (k_silent _ Hk n). by apply (sounds_same w (setState Loading w)).
    - intros j u. unfold eshape. rewrite Hel. intros (id & f & Hid & Hg & _)%(b_elem _ _ Hb). by apply Hno in Hid. }
  pose proof (await_first_ok ps segs settings 0 _ Hm) as H. rewrite Hc in H. cbn zeta in H.
  destruct (prefetch segs settings (cur w) 0 (setState Loading w)) as [w' p]. cbn [fst snd] in H.
  eapply call_ok_trans; [exact Hc|apply setState_grows|exact Hs|]. apply H. simpl. lia.
Qed.

Lemma cur_sessions l w pc : cur_ok w pc -> cur_ok (with_sessions l w) pc.
Proof.
  apply cur_keep; try done; [|by apply blank_keep|by intros n e He; exists e].
  intros H. apply (live_same w); try done. apply H.
Qed.

Lemma play_ok segs settings w : page_ok w -> page_ok (play segs settings w).
Proof.
  intros Hp. destruct (stop_base _ _ (p_base _ Hp)) as (Hb & Hc & Hk & Hs & Hf & Hsh).
  assert (Hps : forall g segs', (g, segs') ∈ plays w -> g < cur (stop w)).
  { intros g segs' Hg. apply (b_gens _ _ (p_base _ Hp)) in Hg. lia. }
  assert (Hno : forall id f, pg_fetches (stop w) !! id = Some f -> f_gen f <> cur (stop w)).
  { intros id f Hid. rewrite Hf in Hid. destruct (b_fetch _ _ (p_base _ Hp) _ _ Hid) as (segs' & Hin & _). apply Hps in Hin. lia. }
  pose proof (play_start_ok _ segs settings (stop w) (base_extend _ _ segs Hb Hps) Hk) as H.
  unfold play. fold (cur (stop w)). destruct (play_start segs settings (cur (stop w)) (stop w)) as [w' pc].
  destruct H as [H1 H2 H3 H4 H5 H6]; [apply elem_of_app; right; by apply list_elem_of_singleton|done|]. cbn [fst snd] in *.
  set (s := {| s_gen := cur (stop w); s_segments := segs; s_settings := settings; s_pc := pc |}).
  assert (Hold : forall s', s' ∈ pg_sessions w -> s_gen s' < cur (stop w)).
  { intros s' Hin. eapply Hps, play_of, Hin. }
  split; simpl; rewrite ?H6, ?Hs.
  - unfold plays. simpl. rewrite ?H6, ?Hs, map_app. apply (base_same _ w'); done.
  - intros s' [Hin|Hin]%elem_of_app.
    + apply (waits_grow (stop w) w' _ _ _ H5); [apply Hold in Hin; lia|]. by apply stop_waits.
    + apply list_elem_of_singleton in Hin as ->. done.
  - intros s' [Hin|Hin]%elem_of_app Hg.
    + apply Hold in Hin. change (s_gen s' = cur w') in Hg. lia.
    + apply list_elem_of_singleton in Hin as ->. by apply cur_sessions.
  - intros Hn. exfalso. apply (Hn s); [apply elem_of_app; right; by apply list_elem_of_singleton|]. change (cur (stop w) = cur w'). done.
Qed.

Lemma promise_threw w g i p : promise_ok w g i p -> promise_state p w = Rejection ->
  exists f, f ∈ pg_fetches w /\ f_gen f = g /\ f_status f = Threw.
Proof.
  destruct p as [u|id]; simpl; [done|]. intros (f & Hf & Hg & _). rewrite Hf. destruct (f_status f) eqn:E; try done. intros _.
  exists f. split_and!; [by eapply list_elem_of_lookup_2|done..].
Qed.

(** The call that goes on is of the current generation, or ends without an effect. *)
Lemma continue_stale s w w' pc : continue s w = Some (w', pc) -> s_gen s <> cur w -> waits_ok w (s_gen s) (s_segments s) (s_pc s) ->
  w' = w /\ waits_ok w (s_gen s) (s_segments s) pc /\ (pc = Finished \/ pc = Failed).
Proof.
  intros H Hg Hw. apply current_stale in Hg as Hst. unfold continue in H. rewrite Hst in H. simpl in H.
  destruct (s_pc s) as [i p|i p|i o| |]; [..|done|done].
  - destruct Hw as (_ & Hp & _). destruct (promise_state p w) eqn:E; [done|injection H as <- <-; split_and!; [done..|by left]|].
    injection H as <- <-. split_and!; [done|by eapply promise_threw|by right].
  - destruct Hw as (_ & Hp & _). destruct (promise_state p w) as [|u|] eqn:E; [done| |injection H as <- <-; split_and!; [done|by eapply promise_threw|by right]].
    unfold playFromSegment, playback_over in H.
    rewrite Hst, andb_false_r in H. injection H as <- <-. split_and!; [done..|by left].
  - destruct (audio_settled o w); [|done]. injection H as <- <-. split_and!; [done..|by left].
Qed.

Lemma continue_current s w w' pc : page_ok w -> s ∈ pg_sessions w -> s_gen s = cur w -> continue s w = Some (w', pc) ->
  call_ok (plays w) (s_segments s) w (w', pc).
Proof.
  intros Hp Hs Hg H. pose proof (p_cur _ Hp _ Hs Hg) as Hc. pose proof (p_waits _ Hp _ Hs) as Hw. pose proof (p_base _ Hp) as Hb.
  apply play_of in Hs as Hin. unfold continue in H. rewrite Hg in *. rewrite current_cur in H. simpl in H.
  assert (Hfail : live_ok w -> (forall j, ~ asked w j) -> (forall n, ~ sounds w n) ->
    (exists f, f ∈ pg_fetches w /\ f_gen f = cur w /\ f_status f = Threw) -> call_ok (plays w) (s_segments s) w (w, Failed)).
  { intros. split; simpl; try done. by apply grows_refl. }
  destruct (s_pc s) as [i p|i p|i o| |]; simpl in Hc, Hw; [..|done|done].
  - destruct Hc as (Hl & Ha & Hsnd), Hw as (Hi & Hpr & He).
    destruct (promise_state p w) as [|u|] eqn:Ep; [done|injection H as H|injection H as <- <-].
    + rewrite <- H. apply tryFirst_ok; [|done|intros u' ->; by eapply promise_url].
      split; try done; [|intros j v Hj; by apply He in Hj]. intros j Hj. pose proof (Ha _ Hj) as ->. revert Hj. apply promise_not_asked with p; congruence.
    + apply Hfail; try done; [|by eapply promise_threw]. intros j Hj. pose proof (Ha _ Hj) as ->. revert Hj. apply promise_not_asked with p; congruence.
  - destruct Hc as (Hl & Ha & Hsnd), Hw as (Hi & Hpr & He).
    assert (Hna : promise_state p w <> Waiting -> forall j, ~ asked w j).
    { intros Hn j Hj. pose proof (Ha _ Hj) as ->. revert Hj. by apply promise_not_asked with p. }
    destruct (promise_state p w) as [|u|] eqn:Ep; [done|injection H as H|injection H as <- <-].
    + rewrite <- H. apply playFromSegment_ok; [|done|intros u' ->; by eapply promise_url]. split; try done. by apply Hna.
    + apply Hfail; try done; [by apply Hna|by eapply promise_threw].
  - destruct o as [n|]; [|done]. destruct Hc as (Hl & Ha & Hsnd & Hr), Hw as (Hi & _ & He).
    unfold audio_settled in H. destruct (pg_elements w !! n) as [e|] eqn:En; [|done].
    destruct (el_resolved e) eqn:Er; [|done]. injection H as H. rewrite <- H. apply nextSegment_ok; try done.
    intros m Hm. pose proof (Hsnd _ Hm) as ->. destruct Hm as (e' & He' & _ & Hs'). simplify_eq.
    pose proof (b_silent _ _ Hb _ _ En (or_intror Er)). congruence.
Qed.

Lemma plays_move w n pc : map (fun s => (s_gen s, s_segments s)) (alter (move_session pc) n (pg_sessions w)) = plays w.
Proof.
  apply list_eq. intros i. rewrite list_lookup_fmap. unfold plays. rewrite list_lookup_fmap, list_lookup_alter.
  destruct (decide (n = i)) as [->|]; [|done]. by destruct (pg_sessions w !! i).
Qed.

Lemma moved_session w n s pc s' : NoDup (map fst (plays w)) -> pg_sessions w !! n = Some s -> s' ∈ alter (move_session pc) n (pg_sessions w) ->
  s' = move_session pc s \/ s' ∈ pg_sessions w /\ s_gen s' <> s_gen s.
Proof.
  intros Hn Hs [i Hi]%list_elem_of_lookup. rewrite list_lookup_alter in Hi. destruct (decide (n = i)) as [<-|Hne].
  - rewrite Hs in Hi. left. by injection Hi.
  - right. split; [by eapply list_elem_of_lookup_2|]. intros E. unfold plays in Hn. rewrite map_map in Hn. simpl in Hn.
    apply Hne. apply (NoDup_lookup _ n i (s_gen s) Hn); rewrite list_lookup_fmap; [by rewrite Hs|by rewrite Hi, <- E].
Qed.

Lemma resume_ok n s w w' pc : page_ok w -> pg_sessions w !! n = Some s -> continue s w = Some (w', pc) ->
  page_ok (with_sessions (alter (move_session pc) n (pg_sessions w')) w').
Proof.
  intros Hp Hn H. assert (Hs : s ∈ pg_sessions w) by by eapply list_elem_of_lookup_2.
  pose proof (b_distinct _ _ (p_base _ Hp)) as Hd.
  destruct (decide (s_gen s = cur w)) as [Hg|Hg].
  - destruct (continue_current _ _ _ _ Hp Hs Hg H) as [H1 H2 H3 H4 H5 H6]. cbn [fst snd] in *.
    set (w2 := with_sessions _ w'). assert (Hc : cur w2 = cur w) by done.
    assert (Hgr : grows w w2) by done.
    split; rewrite ?Hc; unfold w2; simpl; rewrite ?H6.
    + unfold plays at 1. simpl. rewrite plays_move. by apply (base_same _ w').
    + intros s' [->|[Hin Hne]]%(moved_session _ _ s); try done.
      * simpl. rewrite Hg. exact H3.
      * apply (waits_grow w); [done|congruence|]. by apply (p_waits _ Hp).
    + intros s' [->|[Hin Hne]]%(moved_session _ _ s) Hgs; try done; [by apply cur_sessions|congruence].
    + intros Hno. exfalso. apply (Hno (move_session pc s)); [|done]. apply list_elem_of_lookup. exists n.
      by rewrite list_lookup_alter_eq, Hn.
  - destruct (continue_stale _ _ _ _ H Hg (p_waits _ Hp _ Hs)) as (-> & Hw & _).
    split; simpl.
    + unfold plays. simpl. rewrite plays_move. apply (base_same _ w); try done. apply (p_base _ Hp).
    + intros s' [->|[Hin Hne]]%(moved_session _ _ s); try done. by apply (p_waits _ Hp).
    + intros s' [->|[Hin Hne]]%(moved_session _ _ s) Hgs; try done; apply cur_sessions, (p_cur _ Hp); done.
    + intros Hno. apply (blank_keep w); try done. apply (p_none _ Hp). intros s' Hin E. destruct (decide (s_gen s' = s_gen s)) as [E'|E']; [congruence|].
      apply list_elem_of_lookup in Hin as [i Hi]. apply (Hno s'); [|done]. apply list_elem_of_lookup. exists i.
      rewrite list_lookup_alter_ne; [done|]. intros ->. congruence.
Qed.

Lemma tts_step_ok e w w' : page_ok w -> tts_step e w = Some w' -> page_ok w'.
Proof.
  intros Hp H. destruct e as [segs st| |l|l|id reply|n|n|n|n|n]; simpl in H.
  - injection H as <-. by apply play_ok.
  - injection H as <-. by apply stop_ok.
  - injection H as <-. apply (state_step_ok w); try done. by left.
  - injection H as <-. apply (state_step_ok w); try done. by left.
  - destruct (pg_fetches w !! id) as [f|] eqn:Ef; [|done]. simpl in H. destruct (f_status f) eqn:Es; [|done|done].
    injection H as <-. by apply fetchAnswered_ok.
  - destruct (pg_sessions w !! n) as [s|] eqn:Es; [|done]. simpl in H. destruct (continue s w) as [[w2 pc]|] eqn:Ec; [|done].
    injection H as <-. by eapply resume_ok.
  - destruct (pg_elements w !! n) as [x|] eqn:Ex; [|done]. simpl in H. destruct (el_attached x && el_sounding x) eqn:Ea; [|done].
    injection H as <-. destruct (current (el_gen x) w) eqn:Ec; [|done]. apply bool_decide_eq_true in Ec.
    apply andb_true_iff in Ea as [_ Ea].
    pose proof (setState_fields Playing w) as (Hpl & Hf & He & Hss & Hb & Hr).
    apply (state_step_ok w); try done; unfold cur; rewrite Hpl; [done|]. right. split; [done|]. exists n, x. done.
  - destruct (pg_elements w !! n) as [x|]; [|done]. simpl in H. destruct (_ && _); [|done]. injection H as <-. by apply audio_done_ok.
  - destruct (pg_elements w !! n) as [x|]; [|done]. simpl in H. destruct (el_starting x); [|done]. injection H as <-. by apply started_ok.
  - destruct (pg_elements w !! n) as [x|]; [|done]. simpl in H. destruct (el_starting x); [|done]. injection H as <-.
    by apply started_ok, audio_done_ok.
Qed.

Lemma tts_run_invariant (P : page -> Prop) es : (forall e w w', P w -> tts_step e w = Some w' -> P w') ->
  forall w w', P w -> tts_run es w = Some w' -> P w'.
Proof.
  intros Hstep. induction es as [|e es IH]; simpl; intros w w' Hw H; [by injection H as <-|].
  destruct (tts_step e w) as [w1|] eqn:E; [|done]. simpl in H. eauto.
Qed.

Lemma new_page_ok : page_ok new_page.
Proof.
  split; simpl.
  - split; simpl; try done; try (intros; set_solver); constructor.
  - intros s H. by apply elem_of_nil in H.
  - intros s H. by apply elem_of_nil in H.
  - intros _. split; simpl; try done; [by intros i ([|id] & f & H & _)|by intros [|n] (e & H & _)].
Qed.

Lemma tts_reachable es w : tts_run es new_page = Some w -> page_ok w.
Proof. apply tts_run_invariant; [intros; by eapply tts_step_ok|apply new_page_ok]. Qed.

(** ** What sounds is the current element *)

(** The promise of an element's [play()] is rejected before the next element exists. *)
Definition timely (e : tts_event) (w : page) : bool :=
  match e with
  | EvRejected el => match tp_audio (pg_player w) with Some n => bool_decide (n = el) | None => true end
  | _ => true
  end.
Fixpoint timely_run (es : list tts_event) (w : page) : bool :=
  match es with
  | [] => true
  | e :: es => timely e w && match tts_step e w with Some w' => timely_run es w' | None => true end
  end.

Definition only_current (w : page) : Prop :=
  forall n e, pg_elements w !! n = Some e -> el_sounding e = true -> tp_audio (pg_player w) = Some n.
Definition silent (w : page) : Prop := forall n e, pg_elements w !! n = Some e -> el_sounding e = false.

Lemma silent_only w : silent w -> only_current w.
Proof. intros H n e He Hs. rewrite (H _ _ He) in Hs. done. Qed.

Lemma silent_same w w' : pg_elements w' = pg_elements w -> silent w -> silent w'.
Proof. unfold silent. by intros ->. Qed.
Lemma only_same w w' : pg_elements w' = pg_elements w -> tp_audio (pg_player w') = tp_audio (pg_player w) -> only_current w -> only_current w'.
Proof. unfold only_current. by intros -> ->. Qed.

Lemma prefetch_elements segs settings g i w : pg_elements (prefetch segs settings g i w).1 = pg_elements w.
Proof.
  unfold prefetch, prefetchSegment. destruct (dget _ i); [done|]. destruct (dget _ i); [done|]. destruct (segs !! i); [|done].
  by destruct (current g w).
Qed.

Lemma cleanup_silent ps w : base_ok ps w -> only_current w -> silent (cleanup w).
Proof.
  intros Hb Ho n e (e0 & He & _ & Hd)%(cleanup_lookup _ _ _ _ Hb). destruct (decide _) as [|Hne]; [done|]. subst e0.
  destruct (el_sounding e) eqn:E; [|done]. by apply (Ho _ _ He) in E.
Qed.

Lemma over_silent ps g w : base_ok ps w -> silent w -> silent (playback_over g w).
Proof.
  intros Hb Hs. unfold playback_over. destruct (current g w); [|done].
  pose proof (setState_fields Idle (cleanup w)) as (_ & _ & He & _). eapply silent_same; [exact He|].
  by eapply cleanup_silent, silent_only.
Qed.

Lemma playAudio_only u i g w : silent w -> only_current (playAudio u i g w).1.
Proof.
  intros Hs. unfold playAudio. destruct (negb (current g w)); [by apply silent_only|]. intros n e. simpl.
  intros [He|[Hl He]]%lookup_app_Some Hsnd; [by rewrite (Hs _ _ He) in Hsnd|].
  apply list_lookup_singleton_Some in He as [? <-]. f_equal. lia.
Qed.

Section only.
Context (ps : list (Z * list string)) (segs : list string) (settings : TtsPlaybackSettings) (g : Z).

Lemma await_only i w (k : fetch_promise -> play_pc) : silent w -> only_current (let '(w, p) := prefetch segs settings g i w in (w, k p)).1.
Proof.
  intros Hs. pose proof (prefetch_elements segs settings g i w) as He. destruct (prefetch segs settings g i w) as [w' p].
  apply silent_only. by eapply silent_same.
Qed.

Lemma playFromSegment_only i url w : base_ok ps w -> silent w -> only_current (playFromSegment segs settings g i url w).1.
Proof.
  intros Hb Hs. unfold playFromSegment. destruct (_ && _); [|by eapply silent_only, over_silent].
  destruct url as [u|]; [|destruct (has_segment segs (S i)); [by apply await_only|by eapply silent_only, over_silent]].
  set (w1 := if has_segment segs (S i) then _ else w).
  assert (H1 : silent w1) by (unfold w1; destruct (has_segment segs (S i)); [eapply silent_same; [apply prefetch_elements|done]|done]).
  pose proof (playAudio_only u i g w1 H1) as H. by destruct (playAudio u i g w1).
Qed.

Lemma tryFirst_only i url w : base_ok ps w -> silent w -> only_current (tryFirst segs settings g i url w).1.
Proof.
  intros Hb Hs. unfold tryFirst. destruct url as [u|]; [by apply playFromSegment_only|].
  destruct (has_segment segs (S i)); [by apply await_only|by eapply silent_only, over_silent].
Qed.

Lemma nextSegment_only i w : base_ok ps w -> silent w -> only_current (nextSegment segs settings g i w).1.
Proof.
  intros Hb Hs. unfold nextSegment. destruct (has_segment segs (S i)); [|by apply playFromSegment_only].
  destruct (dget _ (S i)); [by apply playFromSegment_only|by apply await_only].
Qed.
End only.

Lemma continue_only s w w' pc : page_ok w -> s ∈ pg_sessions w -> only_current w -> continue s w = Some (w', pc) -> only_current w'.
Proof.
  intros Hp Hs Ho H. destruct (decide (s_gen s = cur w)) as [Hg|Hg].
  2: { by destruct (continue_stale _ _ _ _ H Hg (p_waits _ Hp _ Hs)) as (-> & _). }
  pose proof (p_cur _ Hp _ Hs Hg) as Hc. pose proof (p_base _ Hp) as Hb.
  assert (Hsil : (forall n, ~ sounds w n) -> silent w).
  { intros Hn n e He. destruct (el_sounding e) eqn:E; [|done]. destruct (Hn n). exists e. split; [done|].
    pose proof (Ho _ _ He E) as Ha. destruct (b_audio _ _ Hb _ Ha) as (e' & He' & ?). by simplify_eq. }
  unfold continue in H. rewrite Hg, current_cur in H. simpl in H.
  change w' with (w', pc).1. destruct (s_pc s) as [i p|i p|i [n|]| |]; simpl in Hc; try done.
  - destruct (promise_state p w); [done|injection H as <-|by injection H as <- <-]. eapply tryFirst_only; [done|]. apply Hsil, Hc.
  - destruct (promise_state p w); [done|injection H as <-|by injection H as <- <-]. eapply playFromSegment_only; [done|]. apply Hsil, Hc.
  - unfold audio_settled in H. destruct (pg_elements w !! n) as [e|] eqn:En; [|done]. destruct (el_resolved e) eqn:Er; [|done].
    injection H as <-. eapply nextSegment_only; [done|]. apply Hsil. intros m Hm. destruct Hc as (_ & _ & Hc & _).
    pose proof (Hc _ Hm) as ->. destruct Hm as (e' & He' & _ & Hse). simplify_eq.
    pose proof (b_silent _ _ Hb _ _ En (or_intror Er)). congruence.
Qed.

Lemma stop_silent w : page_ok w -> only_current w -> silent (stop w).
Proof.
  intros Hp Ho n e. unfold stop. set (w1 := with_player _ w).
  pose proof (setState_fields Idle (cleanup w1)) as (_ & _ & -> & _). exact (cleanup_silent _ _ (p_base _ Hp) Ho n e).
Qed.

Lemma audio_done_only n w : only_current w -> tp_audio (pg_player w) = None \/ tp_audio (pg_player w) = Some n -> silent (audio_done n w).
Proof.
  intros Ho Ha m e. simpl. rewrite list_lookup_alter. destruct (decide (n = m)) as [<-|Hne].
  - destruct (pg_elements w !! n); [|done]. by intros [= <-].
  - intros He. destruct (el_sounding e) eqn:E; [|done]. pose proof (Ho _ _ He E). destruct Ha; congruence.
Qed.

Lemma only_step e w w' : page_ok w -> only_current w -> timely e w = true -> tts_step e w = Some w' -> only_current w'.
Proof.
  intros Hp Ho Ht H. destruct e as [segs st| |l|l|id reply|n|n|n|n|n]; simpl in H.
  - injection H as <-. unfold play. pose proof (stop_silent _ Hp Ho) as Hs. unfold play_start. destruct segs as [|t segs]; simpl.
    + by apply silent_only.
    + set (g := tp_generation _). set (w1 := setState Loading (stop w)).
      assert (H1 : silent w1) by (eapply silent_same; [apply (setState_fields Loading (stop w))|done]).
      pose proof (prefetch_elements (t :: segs) st g 0 w1) as He. destruct (prefetch (t :: segs) st g 0 w1) as [w2 p].
      apply silent_only. by apply (silent_same w1).
  - injection H as <-. by apply silent_only, stop_silent.
  - injection H as <-. done.
  - injection H as <-. done.
  - destruct (pg_fetches w !! id) as [f|]; [|done]. simpl in H. destruct (f_status f); [|done|done].
    injection H as <-. unfold fetchAnswered. destruct (negb _); [done|]. destruct (synthesizeSpeech _ _); [|done].
    by destruct (audioBase64ToBlobUrl _).
  - destruct (pg_sessions w !! n) as [s|] eqn:Es; [|done]. simpl in H. destruct (continue s w) as [[w2 pc]|] eqn:Ec; [|done].
    injection H as <-. apply list_elem_of_lookup_2 in Es. by apply (continue_only s w w2 pc).
  - destruct (pg_elements w !! n) as [x|]; [|done]. simpl in H. destruct (_ && _); [|done]. injection H as <-.
    destruct (current _ w); [|done]. pose proof (setState_fields Playing w) as (Hpl & _ & He & _).
    apply (only_same w); [done|by rewrite Hpl|done].
  - destruct (pg_elements w !! n) as [x|] eqn:Ex; [|done]. simpl in H. destruct (el_attached x && el_sounding x) eqn:Ea; [|done].
    injection H as <-. apply andb_true_iff in Ea as [_ Ea]. apply silent_only, audio_done_only; [done|]. right. by apply (Ho _ _ Ex).
  - destruct (pg_elements w !! n) as [x|] eqn:Ex; [|done]. simpl in H. destruct (el_starting x); [|done]. injection H as <-.
    intros m e. simpl. rewrite list_lookup_alter. destruct (decide (n = m)) as [<-|]; [|by apply Ho].
    rewrite Ex. intros [= <-]. simpl. by apply Ho.
  - destruct (pg_elements w !! n) as [x|] eqn:Ex; [|done]. simpl in H. destruct (el_starting x); [|done]. injection H as <-.
    assert (Hs : silent (audio_done n w)).
    { apply audio_done_only; [done|]. simpl in Ht. destruct (tp_audio (pg_player w)) as [k|]; [|by left].
      apply bool_decide_eq_true in Ht as ->. by right. }
    apply silent_only. intros m e. simpl. rewrite list_lookup_alter. destruct (decide (n = m)) as [<-|]; [|by apply Hs].
    intros He. destruct (alter done_element n (pg_elements w) !! n) as [y|] eqn:Ey; [|done]. simpl in He. simplify_eq. exact (Hs n y Ey).
Qed.

Lemma timely_only es : forall w w', page_ok w -> only_current w -> timely_run es w = true -> tts_run es w = Some w' -> only_current w'.
Proof.
  induction es as [|e es IH]; simpl; intros w w' Hp Ho Ht H; [by injection H as <-|].
  apply andb_true_iff in Ht as [Ht1 Ht2]. destruct (tts_step e w) as [w1|] eqn:E; [|done]. simpl in H.
  eapply (IH w1); [by eapply tts_step_ok|by eapply only_step|done|done].
Qed.

(** ** Playback ends *)

(** What the browser and the event loop do by themselves; a playing element may tell so any
    number of times. *)
Definition internal_event (e : tts_event) : bool :=
  match e with EvAnswer _ _ | EvResume _ | EvEnded _ | EvStarted _ | EvRejected _ => true | _ => false end.

Definition b2n (b : bool) : nat := if b then 1%nat else 0%nat.
Definition fetch_work (f : fetch) : nat := match f_status f with Requested => 1%nat | _ => 0%nat end.
Definition element_work (e : element) : nat := (b2n (el_attached e && el_sounding e) + b2n (el_starting e))%nat.
Definition pc_work (segs : list string) (pc : play_pc) : nat :=
  match pc with
  | AwaitFirst i _ | AwaitSegment i _ => (8 * (length segs - i) + 4)%nat
  | AwaitAudio i _ => (8 * (length segs - i))%nat
  | Finished | Failed => 0%nat
  end.
Definition session_work (s : session) : nat := pc_work (s_segments s) (s_pc s).
Definition page_cost (w : page) : nat := (sum_list_with fetch_work (pg_fetches w) + sum_list_with element_work (pg_elements w))%nat.
Definition tts_work (w : page) : nat := (page_cost w + sum_list_with session_work (pg_sessions w))%nat.

Lemma prefetch_cost segs settings g i w : (page_cost (prefetch segs settings g i w).1 <= page_cost w + 1)%nat.
Proof.
  unfold prefetch, prefetchSegment. destruct (dget _ i); [simpl; lia|]. destruct (dget _ i); [simpl; lia|]. destruct (segs !! i); [|simpl; lia].
  destruct (current g w); unfold page_cost; simpl; [|lia]. rewrite sum_list_with_app. simpl. lia.
Qed.

Lemma detach_cost f n l : (forall e, element_work (f e) <= element_work e)%nat ->
  (sum_list_with element_work (alter f n l) <= sum_list_with element_work l)%nat.
Proof.
  intros H. destruct (l !! n) as [x|] eqn:E.
  - pose proof (sum_alter element_work f n l x E). specialize (H x). lia.
  - assert (Hn : alter f n l = l); [|by rewrite Hn]. apply list_eq. intros i. rewrite list_lookup_alter. destruct (decide _) as [<-|]; [|done]. by rewrite E.
Qed.

Lemma cleanup_cost w : (page_cost (cleanup w) <= page_cost w)%nat.
Proof.
  unfold page_cost. simpl. destruct (tp_playAudioResolve _) as [n|], (tp_audio _) as [m|]; simpl; try lia.
  - pose proof (detach_cost resolve_element n (alter detach_element m (pg_elements w)) (fun e => le_n _)).
    assert (sum_list_with element_work (alter detach_element m (pg_elements w)) <= sum_list_with element_work (pg_elements w))%nat; [|lia].
    apply detach_cost. intros e. unfold element_work. simpl. lia.
  - pose proof (detach_cost resolve_element n (pg_elements w) (fun e => le_n _)). lia.
  - assert (sum_list_with element_work (alter detach_element m (pg_elements w)) <= sum_list_with element_work (pg_elements w))%nat; [|lia].
    apply detach_cost. intros e. unfold element_work. simpl. lia.
Qed.

Lemma setState_cost next w : page_cost (setState next w) = page_cost w.
Proof. pose proof (setState_fields next w) as (_ & Hf & He & _). unfold page_cost. by rewrite Hf, He. Qed.

Lemma over_cost g w : (page_cost (playback_over g w) <= page_cost w)%nat.
Proof. unfold playback_over. destruct (current g w); [|lia]. rewrite setState_cost. apply cleanup_cost. Qed.

Lemma playAudio_cost u i g w : (page_cost (playAudio u i g w).1 <= page_cost w + 2)%nat.
Proof.
  unfold playAudio. destruct (negb _); [simpl; lia|]. unfold page_cost. simpl. rewrite sum_list_with_app. simpl. lia.
Qed.

Section cost.
Context (segs : list string) (settings : TtsPlaybackSettings) (g : Z).

Lemma await_cost i w (k : fetch_promise -> play_pc) bound : (forall p, pc_work segs (k p) + 1 < bound)%nat ->
  (let r := (let '(w, p) := prefetch segs settings g i w in (w, k p)) in page_cost r.1 + pc_work segs r.2 < page_cost w + bound)%nat.
Proof.
  intros Hk. pose proof (prefetch_cost segs settings g i w). destruct (prefetch segs settings g i w) as [w' p]. simpl in *. specialize (Hk p). lia.
Qed.

Lemma over_cost_lt w bound : (0 < bound)%nat -> (page_cost (playback_over g w) + 0 < page_cost w + bound)%nat.
Proof. pose proof (over_cost g w). lia. Qed.

Lemma playFromSegment_cost i url w : (i < length segs)%nat ->
  (let r := playFromSegment segs settings g i url w in page_cost r.1 + pc_work segs r.2 < page_cost w + (8 * (length segs - i) + 4))%nat.
Proof.
  intros Hi. cbn zeta. unfold playFromSegment. destruct (_ && _); [|apply over_cost_lt; lia].
  destruct url as [u|].
  - set (w1 := if has_segment segs (S i) then _ else w).
    assert (H1 : (page_cost w1 <= page_cost w + 1)%nat) by (unfold w1; destruct (has_segment segs (S i)); [apply prefetch_cost|lia]).
    pose proof (playAudio_cost u i g w1). destruct (playAudio u i g w1) as [w2 el]. simpl in *. lia.
  - destruct (has_segment segs (S i)); [|apply over_cost_lt; lia]. apply await_cost. intros p. simpl. lia.
Qed.

Lemma tryFirst_cost i url w : (i < length segs)%nat ->
  (let r := tryFirst segs settings g i url w in page_cost r.1 + pc_work segs r.2 < page_cost w + (8 * (length segs - i) + 4))%nat.
Proof.
  intros Hi. cbn zeta. unfold tryFirst. destruct url as [u|]; [by apply playFromSegment_cost|].
  destruct (has_segment segs (S i)); [|apply over_cost_lt; lia]. apply await_cost. intros p. simpl. lia.
Qed.

Lemma nextSegment_cost i w : (i < length segs)%nat ->
  (let r := nextSegment segs settings g i w in page_cost r.1 + pc_work segs r.2 < page_cost w + 8 * (length segs - i))%nat.
Proof.
  intros Hi. cbn zeta. unfold nextSegment. destruct (has_segment segs (S i)) eqn:E.
  - apply has_segment_true in E. destruct (dget _ (S i)) as [u|].
    + pose proof (playFromSegment_cost (S i) (Some u) w E) as H. cbn zeta in H. lia.
    + apply await_cost. intros p. simpl. lia.
  - unfold playFromSegment. rewrite E. apply over_cost_lt. lia.
Qed.
End cost.

Lemma continue_cost s w w' pc : waits_ok w (s_gen s) (s_segments s) (s_pc s) -> continue s w = Some (w', pc) ->
  (page_cost w' + pc_work (s_segments s) pc < page_cost w + session_work s)%nat.
Proof.
  unfold continue, session_work. intros Hw H. destruct (s_pc s) as [i p|i p|i o| |]; simpl in Hw; [..|done|done].
  - destruct Hw as [Hi _]. destruct (promise_state p w) as [|u|]; [done| |injection H as <- <-; simpl; lia].
    destruct (negb _); injection H as H; [simplify_eq; simpl; lia|].
    pose proof (tryFirst_cost (s_segments s) (s_settings s) (s_gen s) i u w Hi) as Hc. by rewrite H in Hc.
  - destruct Hw as [Hi _]. destruct (promise_state p w) as [|u|]; [done| |injection H as <- <-; simpl; lia].
    injection H as H. pose proof (playFromSegment_cost (s_segments s) (s_settings s) (s_gen s) i u w Hi) as Hc. by rewrite H in Hc.
  - destruct Hw as [Hi _]. destruct (audio_settled o w); [|done].
    destruct (negb _); injection H as H; [simplify_eq; simpl; lia|].
    pose proof (nextSegment_cost (s_segments s) (s_settings s) (s_gen s) i w Hi) as Hc. by rewrite H in Hc.
Qed.

Lemma continue_sessions s w w' pc : page_ok w -> s ∈ pg_sessions w -> continue s w = Some (w', pc) -> pg_sessions w' = pg_sessions w.
Proof.
  intros Hp Hs H. destruct (decide (s_gen s = cur w)) as [Hg|Hg].
  - apply (c_sessions _ _ _ _ (continue_current _ _ _ _ Hp Hs Hg H)).
  - by destruct (continue_stale _ _ _ _ H Hg (p_waits _ Hp _ Hs)) as (-> & _).
Qed.

Lemma answer_work id f reply w : pg_fetches w !! id = Some f -> f_status f = Requested -> (tts_work (fetchAnswered id f reply w) < tts_work w)%nat.
Proof.
  intros Hf Hr. assert (H : forall status, status <> Requested ->
    (sum_list_with fetch_work (alter (settle_fetch status) id (pg_fetches w)) < sum_list_with fetch_work (pg_fetches w))%nat).
  { intros status Hs. pose proof (sum_alter fetch_work (settle_fetch status) id _ _ Hf) as H. unfold fetch_work in H at 2 4. simpl in H.
    rewrite Hr in H. destruct status; [done|lia|lia]. }
  unfold fetchAnswered, tts_work, page_cost. destruct (negb _); simpl; [pose proof (H (Returned None)); naive_solver lia|].
  destruct (synthesizeSpeech _ _); simpl; [|pose proof (H (Returned None)); naive_solver lia].
  destruct (audioBase64ToBlobUrl _); simpl; [pose proof (H (Returned (Some (length (pg_blobs w))))); naive_solver lia|].
  pose proof (H Threw). naive_solver lia.
Qed.

Lemma tts_internal_work e w w' : page_ok w -> internal_event e = true -> tts_step e w = Some w' -> (tts_work w' < tts_work w)%nat.
Proof.
  intros Hp Hi H. destruct e as [segs st| |l|l|id reply|n|n|n|n|n]; simpl in H; try done.
  - destruct (pg_fetches w !! id) as [f|] eqn:Ef; [|done]. simpl in H. destruct (f_status f) eqn:Es; [|done|done].
    injection H as <-. by apply answer_work.
  - destruct (pg_sessions w !! n) as [s|] eqn:Es; [|done]. simpl in H. destruct (continue s w) as [[w2 pc]|] eqn:Ec; [|done].
    injection H as <-. assert (Hs : s ∈ pg_sessions w) by by eapply list_elem_of_lookup_2.
    pose proof (continue_cost _ _ _ _ (p_waits _ Hp _ Hs) Ec) as Hc. unfold tts_work. simpl.
    rewrite (continue_sessions _ _ _ _ Hp Hs Ec).
    pose proof (sum_alter session_work (move_session pc) n _ _ Es) as Hsum. unfold session_work in Hsum at 4. simpl in Hsum.
    unfold page_cost in *. simpl in *. lia.
  - destruct (pg_elements w !! n) as [x|] eqn:Ex; [|done]. simpl in H. destruct (el_attached x && el_sounding x) eqn:Ea; [|done].
    injection H as <-. pose proof (sum_alter element_work done_element n _ _ Ex) as Hs. unfold element_work in Hs at 2 4. simpl in Hs.
    rewrite Ea, andb_false_r in Hs. unfold tts_work, page_cost. simpl in *. lia.
  - destruct (pg_elements w !! n) as [x|] eqn:Ex; [|done]. simpl in H. destruct (el_starting x) eqn:Ea; [|done].
    injection H as <-. pose proof (sum_alter element_work started_element n _ _ Ex) as Hs. unfold element_work in Hs at 2 4. simpl in Hs.
    rewrite Ea in Hs. unfold tts_work, page_cost. simpl in *. lia.
  - destruct (pg_elements w !! n) as [x|] eqn:Ex; [|done]. simpl in H. destruct (el_starting x) eqn:Ea; [|done].
    injection H as <-. assert (Hx : alter done_element n (pg_elements w) !! n = Some (done_element x)) by by rewrite list_lookup_alter_eq, Ex.
    pose proof (sum_alter element_work started_element n _ _ Hx) as Hs. pose proof (sum_alter element_work done_element n _ _ Ex) as Hs'.
    unfold element_work in Hs at 2 4. unfold element_work in Hs' at 2 4. simpl in Hs, Hs'.
    rewrite Ea, andb_false_r in *. unfold tts_work, page_cost. simpl in *. lia.
Qed.

Lemma idle_blank w : page_ok w -> tp_state (pg_player w) = Idle -> blank_ok w.
Proof.
  intros Hp Hi. destruct (decide (Exists (fun s => s_gen s = cur w) (pg_sessions w))) as [H|H].
  - apply Exists_exists in H as (s & Hs & Hg). pose proof (p_cur _ Hp _ Hs Hg) as Hc.
    destruct (s_pc s) as [? ?|? ?|? [?|]| |]; simpl in Hc; try done; destruct Hc as [Hl _]; by destruct (l_state _ Hl).
  - apply (p_none _ Hp). intros s Hs Hg. apply H, Exists_exists. by exists s.
Qed.

(** The session that keeps the player out of [Idle]. *)
Lemma busy_session w : page_ok w ->
  tp_state (pg_player w) <> Idle <-> exists s, s ∈ pg_sessions w /\ s_gen s = cur w /\ s_pc s <> Finished.
Proof.
  intros Hp. split.
  - intros Hb. destruct (decide (Exists (fun s => s_gen s = cur w) (pg_sessions w))) as [H|H].
    + apply Exists_exists in H as (s & Hs & Hg). exists s. split_and!; [done|done|]. intros Hpc.
      pose proof (p_cur _ Hp _ Hs Hg) as Hc. rewrite Hpc in Hc. by apply Hb, Hc.
    + destruct Hb. apply (k_state w), (p_none _ Hp). intros s Hs Hg. apply H, Exists_exists. by exists s.
  - intros (s & Hs & Hg & Hpc). pose proof (p_cur _ Hp _ Hs Hg) as Hc.
    destruct (s_pc s) as [? ?|? ?|? [?|]| |]; simpl in Hc; try done; destruct Hc as [Hl _]; apply (l_state _ Hl).
Qed.

Lemma promise_progress w g i p : promise_ok w g i p -> (forall id reply, tts_step (EvAnswer id reply) w = None) ->
  promise_state p w <> Waiting.
Proof.
  destruct p as [u|id]; simpl; [done|]. intros (f & Hf & _ & _) Hn. specialize (Hn id (inr ""%string)). simpl in Hn. rewrite Hf in *. simpl in Hn.
  by destruct (f_status f).
Qed.

Lemma quiescent_idle w : page_ok w -> (forall e, internal_event e = true -> tts_step e w = None) ->
  tp_state (pg_player w) = Idle \/ exists f, f ∈ pg_fetches w /\ f_gen f = cur w /\ f_status f = Threw.
Proof.
  intros Hp Hq. destruct (decide (tp_state (pg_player w) = Idle)) as [|Hb]; [by left|right].
  apply (busy_session _ Hp) in Hb as (s & Hs & Hg & Hpc). apply list_elem_of_lookup in Hs as Hn. destruct Hn as [n Hn].
  pose proof (p_waits _ Hp _ Hs) as Hw. pose proof (p_cur _ Hp _ Hs Hg) as Hc.
  assert (Hstuck : continue s w = None).
  { specialize (Hq (EvResume n) eq_refl). simpl in Hq. rewrite Hn in Hq. simpl in Hq. by destruct (continue s w) as [[? ?]|]. }
  unfold continue in Hstuck. destruct (s_pc s) as [i p|i p|i o| |]; simpl in Hw, Hc; [| | |done|].
  - destruct Hw as (_ & Hpr & _). apply promise_progress in Hpr; [|intros; by apply Hq]. by destruct (promise_state p w).
  - destruct Hw as (_ & Hpr & _). apply promise_progress in Hpr; [|intros; by apply Hq]. by destruct (promise_state p w).
  - destruct o as [m|]; [|done]. destruct Hw as (_ & (m' & u & [= <-] & Hm) & _), Hc as (_ & _ & _ & Hr).
    unfold eshape in Hm. rewrite list_lookup_fmap in Hm.
    destruct (pg_elements w !! m) as [e|] eqn:E; [|done]. simpl in Hstuck. rewrite ?E in Hstuck.
    destruct (Hr _ eq_refl) as [Hres|[Ha Hsnd]]; [by rewrite Hres in Hstuck|].
    specialize (Hq (EvEnded m) eq_refl). simpl in Hq. rewrite E in Hq. simpl in Hq. by rewrite Ha, Hsnd in Hq.
  - rewrite <- Hg. exact Hw.
Qed.

(** C35. The player keeps its books whatever the order of answers, audio events and calls:
    an element plays the URL returned by the request for its segment's text; the elements
    of one call of [play] are created in the order of its segments, none twice; every URL
    made is held or was revoked, once; the player is busy exactly while a call of the
    current generation has not finished, and when idle it holds no URL, no element and no
    request of that generation; and as long as the promise of an element's [play()] is
    rejected before the next element is created, at most the current element sounds, and
    none when idle. *)
Theorem tts_player_sound es w : tts_run es new_page = Some w ->
  (forall n e, pg_elements w !! n = Some e -> exists f segs,
     f ∈ pg_fetches w /\ f_gen f = el_gen e /\ f_index f = el_index e /\ f_status f = Returned (Some (el_url e)) /\
     (el_gen e, segs) ∈ plays w /\ segs !! el_index e = Some (tr_text (f_options f))) /\
  (forall n m e e', pg_elements w !! n = Some e -> pg_elements w !! m = Some e' -> (n < m)%nat -> el_gen e = el_gen e' ->
     (el_index e < el_index e')%nat) /\
  pg_revoked w ++ tp_blobUrls (pg_player w) ≡ₚ seq 0 (length (pg_blobs w)) /\
  (tp_state (pg_player w) <> Idle <-> exists s, s ∈ pg_sessions w /\ s_gen s = cur w /\ s_pc s <> Finished) /\
  (tp_state (pg_player w) = Idle -> tp_blobUrls (pg_player w) = [] /\ tp_audio (pg_player w) = None /\ forall i, ~ asked w i) /\
  (timely_run es new_page = true -> only_current w /\ (tp_state (pg_player w) = Idle -> silent w)).
Proof.
  intros H. pose proof (tts_reachable _ _ H) as Hp. pose proof (p_base _ Hp) as Hb.
  assert (Hsh : forall n e, pg_elements w !! n = Some e -> eshape w !! n = Some (el_gen e, el_index e, el_url e)).
  { intros n e He. unfold eshape. by rewrite list_lookup_fmap, He. }
  split_and!.
  - intros n e He%Hsh%list_elem_of_lookup_2. apply (b_elem _ _ Hb) in He as (id & f & Hf & Hg & Hi & Hs).
    destruct (b_fetch _ _ Hb _ _ Hf) as (segs & Hin & Ht). exists f, segs. rewrite <- Hg, <- Hi.
    split_and!; [by eapply list_elem_of_lookup_2|done..].
  - intros n m e e' He%Hsh He'%Hsh Hlt Hg. exact (StronglySorted_lookup_lt _ _ _ _ _ _ (b_order _ _ Hb) He He' Hlt Hg).
  - apply Hb.
  - by apply busy_session.
  - intros Hi. pose proof (idle_blank _ Hp Hi) as [K1 K2 K3 K4 K5 K6 K7]. done.
  - intros Ht. assert (Ho : only_current w).
    { eapply timely_only; [apply new_page_ok| |exact Ht|exact H]. by intros [|n] e. }
    split; [done|]. intros Hi n e He. destruct (el_sounding e) eqn:E; [|done]. pose proof (Ho _ _ He E) as Ha.
    by rewrite (k_audio _ (idle_blank _ Hp Hi)) in Ha.
Qed.

(** C36. Playback ends: answers, continuations and the ends of audio elements can only
    follow each other finitely often without a new call of [play], and when none of them is
    left the player is idle, unless the audio of an answer of the current generation could
    not be decoded. *)
Theorem tts_playback_ends es w : tts_run es new_page = Some w ->
  (forall e w', internal_event e = true -> tts_step e w = Some w' -> (tts_work w' < tts_work w)%nat) /\
  ((forall e, internal_event e = true -> tts_step e w = None) ->
     tp_state (pg_player w) = Idle \/ exists f, f ∈ pg_fetches w /\ f_gen f = cur w /\ f_status f = Threw).
Proof.
  intros H%tts_reachable. split; [intros e w'; by apply tts_internal_work|by apply quiescent_idle].
Qed.

(** A call of two segments, the first one playing and the second fetched. *)
Definition sample_settings : TtsPlaybackSettings := {| ts_model := "m"; ts_voice := "v" |}.
Definition sample_reply (audio : string) : tts_reply := inl (audio, "wav"%string).
Definition sample_events : list tts_event :=
  [EvSubscribe 0; EvPlay ["one"; "two"]%string sample_settings; EvAnswer 0 (sample_reply "AAEC"); EvResume 0; EvStarted 0;
   EvPlaying 0; EvAnswer 1 (sample_reply "AwQF")].

Lemma tts_player_sound_witness : exists w, tts_run (sample_events ++ [EvEnded 0; EvResume 0]) new_page = Some w /\
  timely_run (sample_events ++ [EvEnded 0; EvResume 0]) new_page = true /\ tp_audio (pg_player w) = Some 1%nat /\ only_current w.
Proof.
  eexists. split; [vm_compute; reflexivity|]. split; [vm_compute; reflexivity|]. split; [reflexivity|].
  refine (proj1 (proj2 (proj2 (proj2 (proj2 (proj2 (tts_player_sound (sample_events ++ [EvEnded 0; EvResume 0]) _ _))))) _)); vm_compute; reflexivity.
Defined.

Lemma tts_playback_ends_witness : exists w, tts_run (sample_events ++ [EvEnded 0; EvResume 0; EvStarted 1; EvEnded 1; EvResume 0]) new_page = Some w /\
  tp_state (pg_player w) = Idle /\
  pg_notified w = [(0%nat, Loading); (0%nat, Playing); (0%nat, Idle)] /\
  (forall e w', internal_event e = true -> tts_step e w = Some w' -> (tts_work w' < tts_work w)%nat).
Proof.
  eexists. split; [vm_compute; reflexivity|]. split; [reflexivity|]. split; [reflexivity|].
  refine (proj1 (tts_playback_ends (sample_events ++ [EvEnded 0; EvResume 0; EvStarted 1; EvEnded 1; EvResume 0]) _ _)).
  vm_compute; reflexivity.
Defined.

(** ** What the player does not keep *)

(** An element that fails tells so twice: [onerror], then the rejection of [play()].  When
    the next segment is already fetched it starts in between, and the second [done] makes
    the player forget it: a [stop] then leaves it sounding. *)
Lemma stopped_audio_plays_on : exists w, tts_run (sample_events ++ [EvEnded 0; EvResume 0; EvStop]) new_page = Some w /\ silent w /\
  exists w', tts_run ([EvPlay ["one"; "two"]%string sample_settings; EvAnswer 0 (sample_reply "AAEC"); EvResume 0; EvAnswer 1 (sample_reply "AwQF");
    EvEnded 0; EvResume 0; EvRejected 0; EvStop]) new_page = Some w' /\ tp_state (pg_player w') = Idle /\
  exists e, pg_elements w' !! 1%nat = Some e /\ el_attached e = true /\ el_sounding e = true.
Proof.
  eexists. split; [vm_compute; reflexivity|]. split; [intros [|[|n]] e He; simpl in He; by simplify_eq|].
  eexists. split; [vm_compute; reflexivity|]. split; [reflexivity|]. eexists. split; [reflexivity|]. done.
Qed.

(** An answer that is not base64 makes [play] throw, and the player stays [Loading]. *)
Lemma undecodable_stays_loading : exists w,
  tts_run [EvPlay ["one"]%string sample_settings; EvAnswer 0 (sample_reply "?"); EvResume 0] new_page = Some w /\
  tp_state (pg_player w) = Loading /\ forall e, internal_event e = true -> tts_step e w = None.
Proof.
  eexists. split; [vm_compute; reflexivity|]. split; [reflexivity|].
  intros [| | | |[|id] reply|[|n]|n|n|n|n] He; done.
Qed.

(** * Segments are whole paragraphs, packed *)

Definition paragraphs (text : string) : list string := bfilter nonempty (map trim (split_paragraphs text)).

Definition group_ok (maxChars : Z) (g : list string) : Prop :=
  g <> [] /\ ((exists p, g = [p]) \/ length_Z (join blank_line g) <= maxChars).

Lemma length_Z_app s t : length_Z (s +:+ t) = length_Z s + length_Z t.
Proof. unfold length_Z. rewrite <- !chars_length, chars_app, length_app. lia. Qed.

Lemma join_length_pos g : g <> [] -> Forall (fun p => nonempty p = true) g -> 0 < length_Z (join blank_line g).
Proof.
  destruct g as [|p g]; [done|]. intros _ [Hp _]%Forall_cons. apply nonempty_true in Hp.
  assert (0 < length_Z p) by (unfold length_Z; destruct p; [done|simpl; lia]). destruct g as [|q g]; [by rewrite join_one|].
  rewrite join_cons, length_Z_app. unfold length_Z in *. lia.
Qed.

Lemma segment_fold maxChars ps : Forall (fun p => nonempty p = true) ps -> forall groups g,
  Forall (group_ok maxChars) groups -> g = [] \/ group_ok maxChars g -> Forall (fun p => nonempty p = true) g ->
  exists groups' g', foldl (segment_step maxChars) (map (join blank_line) groups, join blank_line g) ps = (map (join blank_line) groups', join blank_line g') /\
    concat groups' ++ g' = concat groups ++ g ++ ps /\ Forall (group_ok maxChars) groups' /\ (g' = [] \/ group_ok maxChars g') /\
    Forall (fun p => nonempty p = true) g' /\ (g' = [] -> g = [] /\ ps = []).
Proof.
  induction 1 as [|p ps Hp Hps IH]; intros groups g Hgs Hg Hne; [exists groups, g; by rewrite app_nil_r|].
  cbn [foldl]. unfold segment_step at 2. destruct (decide (g = [])) as [->|Hgn].
  { change (length_Z (join blank_line [])) with 0. cbn [Z.ltb Z.compare andb].
    destruct (IH groups [p] Hgs) as (gs' & g' & E & Hc & H1 & H2 & H3 & H4); [right; split; [done|left; by exists p]|by constructor|].
    rewrite join_one in E. exists gs', g'. split_and!; [exact E|done..|]. intros ->. by destruct (H4 eq_refl). }
  destruct Hg as [|Hg]; [done|]. pose proof (join_length_pos g Hgn Hne) as Hpos.
  rewrite (proj2 (Z.ltb_lt 0 _) Hpos). cbn [andb].
  destruct (Z.ltb_spec maxChars (length_Z (join blank_line g) + length_Z p + 2)) as [Hlt|Hle].
  - destruct (IH (groups ++ [g]) [p]) as (gs' & g' & E & Hc & H1 & H2 & H3 & H4);
      [apply Forall_app; split; [done|by apply Forall_singleton]|right; split; [done|left; by exists p]|by constructor|].
    rewrite join_one, map_app in E. exists gs', g'. split_and!; [exact E| |done..|intros ->; by destruct (H4 eq_refl)].
    rewrite Hc, concat_app. simpl. by rewrite app_nil_r, <- app_assoc.
  - rewrite <- join_snoc by done.
    destruct (IH groups (g ++ [p]) Hgs) as (gs' & g' & E & Hc & H1 & H2 & H3 & H4).
    + right. split; [by destruct g|]. right. rewrite join_snoc, !length_Z_app by done. change (length_Z blank_line) with 2. lia.
    + apply Forall_app. split; [done|]. by constructor.
    + exists gs', g'. split_and!; [exact E|by rewrite Hc, <- !app_assoc|done..|]. intros ->. destruct (H4 eq_refl) as [H5 _]. by destruct g.
Qed.

(** The segments are the paragraphs of the text, in order and complete, cut between
    paragraphs only: each segment joins consecutive paragraphs by a blank line, and is
    within the limit unless it is a single paragraph. *)
Theorem segments_pack_paragraphs text maxChars : exists groups,
  segmentText text maxChars = map (join blank_line) groups /\ concat groups = paragraphs text /\
  Forall (fun g => g <> [] /\ ((exists p, g = [p]) \/ length_Z (join blank_line g) <= maxChars)) groups.
Proof.
  unfold segmentText. fold (paragraphs text).
  assert (Hne : Forall (fun p => nonempty p = true) (paragraphs text)).
  { apply Forall_forall. intros p. unfold paragraphs. by intros [_ ?]%elem_of_bfilter. }
  destruct (segment_fold maxChars (paragraphs text) Hne [] []) as (gs & g & E & Hc & H1 & H2 & H3 & H4); [done|by left|done|].
  simpl in E, Hc. destruct (paragraphs text) as [|p ps]; [by exists []|]. change (join blank_line []) with ""%string in E. rewrite E.
  destruct H2 as [->|H2]; [by destruct (H4 eq_refl)|]. pose proof (join_length_pos g (proj1 H2) H3) as Hpos.
  rewrite (proj2 (Z.ltb_lt 0 _) Hpos). exists (gs ++ [g]). rewrite map_app, concat_app. simpl. rewrite app_nil_r. split_and!; [done|done|].
  apply Forall_app. split; [done|]. by apply Forall_singleton.
Qed.
