(* ===== verification/TtsText.v ===== *)
(** The text that is read aloud, [features/tts/prepareTextForTTS.ts]: Markdown without its
    markup, one regular expression after the other. *)

From S2P Require Import Prelude RegExp.
Open Scope Z_scope.

Definition backtick : regex := one "`".
Definition newline_re : regex := Chr (fun c => bool_decide (c = Ascii.ascii_of_nat 10)).

(** The patterns, in the order they are applied. *)
Definition fenced_code : regex := seq_of [text "```"; Star false any; text "```"].
Definition inline_code : regex := seq_of [backtick; Group 1 (many (none_of "`")); backtick].
Definition image_ref : regex := seq_of [text "!["; many (none_of "]"); text "]("; many (none_of ")"); one ")"].
Definition link_ref : regex := seq_of [one "["; Group 1 (many (none_of "]")); text "]("; many (none_of ")"); one ")"].
Definition heading : regex := seq_of [Bol true; one "#"; up_to 5 (one "#"); many1 space].
Definition bold_stars : regex := seq_of [text "**"; Group 1 (many (none_of "*")); text "**"].
Definition bold_lines : regex := seq_of [text "__"; Group 1 (many (none_of "_")); text "__"].
Definition italic_star : regex := seq_of [one "*"; Group 1 (many (none_of "*")); one "*"].
Definition italic_line : regex := seq_of [one "_"; Group 1 (many (none_of "_")); one "_"].
Definition strike : regex := seq_of [text "~~"; Group 1 (many (none_of "~")); text "~~"].
Definition quote_mark : regex := seq_of [Bol true; one ">"; many space].
Definition rule_line : regex := seq_of [Bol true; times 3 (one_of "-*_"); many (one_of "-*_"); many space; Eol true].
Definition table_row : regex := seq_of [Bol true; one "|"; Group 1 (many1 dot); one "|"; Eol true].
Definition table_rule : regex := seq_of [Bol false; many1 (one_of "-:"); Eol false].
Definition bullet : regex := seq_of [Bol true; many space; one_of "-*+"; many1 space].
Definition ordinal : regex := seq_of [Bol true; many space; many1 digit; one "."; many1 space].
Definition blank_lines : regex := Cat (times 3 newline_re) (many newline_re).

(** [text.replace(r, '')] and [text.replace(r, '$1')]. *)
Definition drop_all (r : regex) (t : string) : string := replace_all r (by_string "") t.
Definition keep_group (r : regex) (t : string) : string := replace_all r (by_group t 1) t.

(** The cells of a table row, without the cells of dashes. *)
Definition table_cells (content : string) : string :=
  join " " (bfilter (fun cell => negb (regex_test table_rule cell)) (map trim (split "|" content))).
Definition table_rows (t : string) : string := replace_all table_row (fun _ _ c => chars (table_cells (capture t 1 c))) t.

Definition prepareTextForTTS (markdown : string) : string :=
  let t := drop_all fenced_code markdown in
  let t := keep_group inline_code t in
  let t := drop_all image_ref t in
  let t := keep_group link_ref t in
  let t := drop_all heading t in
  let t := keep_group bold_stars t in
  let t := keep_group bold_lines t in
  let t := keep_group italic_star t in
  let t := keep_group italic_line t in
  let t := keep_group strike t in
  let t := drop_all quote_mark t in
  let t := drop_all rule_line t in
  let t := table_rows t in
  let t := drop_all bullet t in
  let t := drop_all ordinal t in
  let t := replace_all blank_lines (by_string (unchars [Ascii.ascii_of_nat 10; Ascii.ascii_of_nat 10])) t in
  trim t.

Definition lines_of (l : list string) : string := join (unchars [Ascii.ascii_of_nat 10]) l.

Example prepare_marks : prepareTextForTTS "## Use **bold**, `code` and [a link](http://x/y) ~~not~~" = "Use bold, code and a link not"%string.
Proof. vm_compute. reflexivity. Qed.
Example prepare_lines : prepareTextForTTS (lines_of ["- one"; "2. two"; "```js"; "let x = 1;"; "```"; "|a|b|"; "|-|:-:|"; "> said"])
  = (lines_of ["one"; "two"; ""; "a b"; ""; "said"])%string.
Proof. vm_compute. reflexivity. Qed.

(** Characters that some pattern needs. *)
Definition markup (c : ascii) : bool := bool_decide (c ∈ chars "`[#*_~>-|+.") || bool_decide (c = Ascii.ascii_of_nat 10).

(** A single line without markup is read as it is. *)
Lemma plain_text_kept s : Forall (fun c => markup c = false) (chars s) -> prepareTextForTTS s = trim s.
Proof.
  intros Hs. unfold prepareTextForTTS, drop_all, keep_group, table_rows. cbn zeta.
  rewrite !(fun r f H => replace_all_none markup r f s H Hs); done || (vm_compute; reflexivity).
Qed.
