(* ===== verification/GitViews.v ===== *)
(** The Git side of the client, [git/]: a patch cut into its files, the rows a diff is
    shown as, the files of the working tree, branches and paths, and when to load again.

    The package [gitdiff-parser], which reads standard patches, is an argument of the rows:
    the files it returns, or [None] where it throws. *)

From S2P Require Import Prelude Json RegExp.
Open Scope Z_scope.

Definition line_feed : ascii := Ascii.ascii_of_nat 10.
Definition carriage_return : ascii := Ascii.ascii_of_nat 13.
Definition newline_string : string := unchars [line_feed].

(** * The files of a patch *)

Record UnifiedDiffFileBlock := { blk_path : string; blk_diff : string }.

Section paths.
Context `{JSON}.

Definition unquoteDiffPathToken (token : string) : string :=
  if (2 <=? String.length token)%nat && startsWith token (unchars [quote_char]) && endsWith token (unchars [quote_char]) then
    match JSON_parse token with
    | Some (VStr s) => s
    | Some _ => token
    | None => slice 1 (String.length token - 1) token
    end
  else token.

Definition stripDiffPathPrefix (path : string) : string :=
  if startsWith path "a/" || startsWith path "b/" then slice_from 2 path else path.

Definition parseUnifiedDiffPathLine (line : string) : string :=
  let token := trim (slice_from 4 line) in
  if bool_decide (token = "/dev/null"%string) then "" else stripDiffPathPrefix (unquoteDiffPathToken token).

(** A quoted string with its escapes, or a run of characters other than spaces. *)
Definition quoted_or_word : regex :=
  let plain := Chr (fun c => negb (bool_decide (c = quote_char)) && negb (bool_decide (c = backslash))) in
  Alt (seq_of [one quote_char; many plain; many (seq_of [one backslash; dot; many plain]); one quote_char]) (many1 not_space).

Definition parseDiffGitPath (line : string) : string :=
  let tokens := match_strings quoted_or_word line in
  let right := match tokens !! 3%nat with Some t => t | None => default ""%string (tokens !! 2%nat) end in
  stripDiffPathPrefix (unquoteDiffPathToken right).

Definition parseUnifiedDiffBlockPath (lines : list string) : string :=
  let addedPath := parseUnifiedDiffPathLine (default ""%string (find (fun line => startsWith line "+++ ") lines)) in
  if nonempty addedPath then addedPath else
  let removedPath := parseUnifiedDiffPathLine (default ""%string (find (fun line => startsWith line "--- ") lines)) in
  if nonempty removedPath then removedPath else
  parseDiffGitPath (default ""%string (head lines)).

Definition normalize_newlines (content : string) : string :=
  replace_all (one carriage_return) (by_string newline_string)
    (replace_all (seq_of [one carriage_return; one line_feed]) (by_string newline_string) content).

Definition is_file_header (line : string) : bool := startsWith line "diff --git ".

(** The positions of the lines that start a file. *)
Fixpoint header_positions (index : nat) (lines : list string) : list nat :=
  match lines with
  | [] => []
  | line :: lines => if is_file_header line then index :: header_positions (S index) lines else header_positions (S index) lines
  end.

Definition file_block (lines : list string) (starts : list nat) (index start : nat) : UnifiedDiffFileBlock :=
  let stop := default (length lines) (starts !! S index) in
  let blockLines := take (stop - start) (drop start lines) in
  {| blk_path := str_or (parseUnifiedDiffBlockPath blockLines) ("file-" +:+ pretty (Z.of_nat index + 1));
     blk_diff := join newline_string blockLines |}.

Definition splitUnifiedDiffFileBlocks (content : string) : list UnifiedDiffFileBlock :=
  let lines := split line_feed (normalize_newlines content) in
  let starts := header_positions 0 lines in
  match starts with [] => [] | _ => imap (file_block lines starts) starts end.
End paths.

(** * The rows of a diff *)

Inductive GitDiffChange :=
  | InsertChange (content : string) (lineNumber : Z)
  | DeleteChange (content : string) (lineNumber : Z)
  | NormalChange (content : string) (oldLineNumber newLineNumber : Z).
Record GitDiffHunk := { hunk_changes : option (list GitDiffChange) }.
Record GitDiffFile := { file_hunks : option (list GitDiffHunk) }.

Inductive row_kind := ContextRow | AddedRow | RemovedRow | SeparatorRow.
#[export] Instance row_kind_dec : EqDecision row_kind.
Proof. solve_decision. Defined.
Inductive separator_kind := HunkSeparator | FileSeparator.

Record UnifiedDiffRow := {
  row_kind_of : row_kind; row_oldLineNumber : option Z; row_newLineNumber : option Z; row_text : string; row_separator : option separator_kind
}.

Definition is_separator (r : UnifiedDiffRow) : bool := bool_decide (row_kind_of r = SeparatorRow).

Definition pushUnifiedDiffSeparator (rows : list UnifiedDiffRow) (separator : separator_kind) (text : string) : list UnifiedDiffRow :=
  match last rows with
  | None => rows
  | Some r =>
    if is_separator r then rows
    else rows ++ [{| row_kind_of := SeparatorRow; row_oldLineNumber := None; row_newLineNumber := None; row_text := text; row_separator := Some separator |}]
  end.

Definition change_row (change : GitDiffChange) : UnifiedDiffRow :=
  match change with
  | InsertChange c n => {| row_kind_of := AddedRow; row_oldLineNumber := None; row_newLineNumber := Some n; row_text := c; row_separator := None |}
  | DeleteChange c n => {| row_kind_of := RemovedRow; row_oldLineNumber := Some n; row_newLineNumber := None; row_text := c; row_separator := None |}
  | NormalChange c o n => {| row_kind_of := ContextRow; row_oldLineNumber := Some o; row_newLineNumber := Some n; row_text := c; row_separator := None |}
  end.
Definition pushDiffChange (rows : list UnifiedDiffRow) (change : GitDiffChange) : list UnifiedDiffRow := rows ++ [change_row change].

Definition push_hunk (rows : list UnifiedDiffRow) (ih : nat * GitDiffHunk) : list UnifiedDiffRow :=
  let rows := if (0 <? ih.1)%nat then pushUnifiedDiffSeparator rows HunkSeparator "... skipped unchanged lines ..." else rows in
  foldl pushDiffChange rows (default [] (hunk_changes ih.2)).

Definition push_file (rows : list UnifiedDiffRow) (file : GitDiffFile) : list UnifiedDiffRow :=
  match default [] (file_hunks file) with
  | [] => rows
  | hunks =>
    let rows := match rows with [] => rows | _ => pushUnifiedDiffSeparator rows FileSeparator "... next file ..." end in
    foldl push_hunk rows (imap pair hunks)
  end.

(** The lines of a snippet the parser did not read. *)
Definition fallback_row (raw : string) : UnifiedDiffRow :=
  let row kind text := {| row_kind_of := kind; row_oldLineNumber := None; row_newLineNumber := None; row_text := text; row_separator := None |} in
  if startsWith raw "+" then row AddedRow (slice_from 1 raw)
  else if startsWith raw "-" then row RemovedRow (slice_from 1 raw)
  else row ContextRow (if startsWith raw " " then slice_from 1 raw else raw).

Section rows.
Context (gitdiffParser : string -> option (list GitDiffFile)).

Definition parseUnifiedDiffRows (content : string) : list UnifiedDiffRow :=
  let rows := match gitdiffParser content with Some files => foldl push_file [] files | None => [] end in
  match rows with [] => map fallback_row (split line_feed content) | _ => rows end.

Inductive render_kind := RenderEmpty | RenderContext | RenderAdded | RenderRemoved.
Record DiffRenderLine := {
  line_code : string; line_number : option Z; line_oldNumber : option Z; line_newNumber : option Z; line_kind : render_kind;
  line_separator : option separator_kind
}.

Definition render_line (row : UnifiedDiffRow) : DiffRenderLine :=
  let plain kind := {| line_code := row_text row; line_oldNumber := row_oldLineNumber row; line_newNumber := row_newLineNumber row; line_kind := kind;
    line_number := match row_newLineNumber row with Some n => Some n | None => row_oldLineNumber row end; line_separator := None |} in
  match row_kind_of row with
  | SeparatorRow => {| line_code := row_text row; line_number := None; line_oldNumber := None; line_newNumber := None; line_kind := RenderEmpty;
                       line_separator := Some (default HunkSeparator (row_separator row)) |}
  | ContextRow => plain RenderContext
  | AddedRow => plain RenderAdded
  | RemovedRow => plain RenderRemoved
  end.
Definition buildInlineDiffRenderLines (rows : list UnifiedDiffRow) : list DiffRenderLine := map render_line rows.
Definition parseUnifiedDiffRenderLines (content : string) : list DiffRenderLine := buildInlineDiffRenderLines (parseUnifiedDiffRows content).
End rows.

(** * The working tree, branches and paths *)

Definition WORKING_TREE_COMMIT_ID : string := "__WORKING_TREE__".

Inductive tree_scope := Staged | Unstaged | Untracked.
Record RegistryGitStatusEntry := { ge_path : string; ge_status : string }.
Record RegistryGitStatus := {
  gs_dirty : bool; gs_worktreeRev : string; gs_staged : option (list RegistryGitStatusEntry);
  gs_unstaged : option (list RegistryGitStatusEntry); gs_untracked : option (list RegistryGitStatusEntry)
}.
Record WorkingTreeFileEntry := { wt_path : string; wt_status : string; wt_scope : tree_scope }.

Definition tree_files (status_of : string -> string) (scope : tree_scope) (items : option (list RegistryGitStatusEntry)) : list WorkingTreeFileEntry :=
  omap (fun item => if nonempty (ge_path item) then Some {| wt_path := ge_path item; wt_status := status_of (ge_status item); wt_scope := scope |} else None)
    (default [] items).
Definition buildWorkingTreeFiles (status : RegistryGitStatus) : list WorkingTreeFileEntry :=
  tree_files (fun s => s) Unstaged (gs_unstaged status) ++ tree_files (fun s => s) Staged (gs_staged status) ++
  tree_files (fun s => str_or s "U") Untracked (gs_untracked status).

Definition forward_slashes (path : string) : string := unchars (map (fun c => if bool_decide (c = backslash) then "/"%char else c) (chars path)).

Definition isHeavyGeneratedDiffPath (path : string) : bool :=
  let normalized := toLowerCase (forward_slashes path) in
  endsWith normalized "/dist/bundle.js" || endsWith normalized "/dist/bundle.js.map" || endsWith normalized "/dist/index.html".

Definition pickPreferredPath (items : list string) : string :=
  match items with
  | [] => ""
  | first :: _ => default first (find (fun path => negb (isHeavyGeneratedDiffPath path)) items)
  end.

Definition normalizeGitBranches (branches : list string) (current : string) : list string :=
  unique ((if nonempty (trim current) then [trim current] else []) ++ bfilter nonempty (map trim branches)).

Definition pickGitSelectedBranches (previous available : list string) (current : string) : list string :=
  let validPrevious := bfilter (fun item => bool_decide (item ∈ available)) previous in
  match validPrevious with
  | _ :: _ => validPrevious
  | [] =>
    let normalizedCurrent := trim current in
    if nonempty normalizedCurrent && bool_decide (normalizedCurrent ∈ available) then [normalizedCurrent]
    else match available with first :: _ => [first] | [] => [] end
  end.

(** [s.lastIndexOf(c)] of one character. *)
Definition lastIndexOf (c : ascii) (l : list ascii) : option nat := find_down (fun x => bool_decide (x = c)) l (length l).

Definition splitPathForDisplay (path : string) : string * string :=
  let normalized := forward_slashes path in
  match lastIndexOf "/" (chars normalized) with
  | None => (normalized, ""%string)
  | Some separator => (slice_from (S separator) normalized, slice 0 separator normalized)
  end.

Section times.
Context `{Dates}.

(** [Date.prototype.toLocaleString] depends on the reader's locale: an argument. *)
Definition formatGitCommitDateTime (toLocaleString : num -> string) (s : string) : string :=
  if negb (nonempty s) then "" else if decide (Date_parse s = NaN) then s else toLocaleString (Date_parse s).

(** [now] is [Date.now()].  A time is [NaN] or a number of milliseconds. *)
Definition formatRelativeTime (now : Z) (s : string) : string :=
  if negb (nonempty s) then "just now" else
  match Date_parse s with
  | Fin ts =>
    let deltaMin := Z.max 0 (floor ((inject_Z now - ts) / 60000)) in
    if deltaMin <? 1 then "just now" else
    if deltaMin <? 60 then pretty deltaMin +:+ "m ago" else
    let deltaHour := deltaMin / 60 in
    if deltaHour <? 24 then pretty deltaHour +:+ "h ago" else
    let deltaDay := deltaHour / 24 in
    if deltaDay <? 30 then pretty deltaDay +:+ "d ago" else
    let deltaMonth := deltaDay / 30 in
    if deltaMonth <? 12 then pretty deltaMonth +:+ "mo ago" else
    pretty (deltaMonth / 12) +:+ "y ago"
  | _ => "just now"
  end.
End times.

(** * When to load *)

Record GitRevSnapshot := { rev_gitRev : string; rev_worktreeRev : string }.
Definition sameGitRev (left right : GitRevSnapshot) : bool :=
  bool_decide (rev_gitRev left = rev_gitRev right) && bool_decide (rev_worktreeRev left = rev_worktreeRev right).
Definition shouldLoadGitForRev (projectId loadedProjectId : string) (currentRev nextRev : GitRevSnapshot) (hasGitError : bool) : bool :=
  if negb (nonempty projectId) then false
  else if negb (bool_decide (loadedProjectId = projectId)) then true
  else if hasGitError then true
  else negb (sameGitRev currentRev nextRev).

(** * A patch is cut without loss *)

Lemma split_char_nil c l : split_char c l <> [].
Proof. destruct l as [|x l]; simpl; [done|]. destruct (Ascii.eqb x c); [done|]. by destruct (split_char c l). Qed.

Lemma split_char_free c l : Forall (fun p => c ∉ p) (split_char c l).
Proof.
  induction l as [|x l IH]; simpl; [repeat constructor; apply not_elem_of_nil|]. destruct (Ascii.eqb_spec x c) as [->|Hne].
  - constructor; [apply not_elem_of_nil|done].
  - destruct (split_char c l) as [|p ps]; [by repeat constructor; set_solver|]. inversion IH; subst. constructor; [|done].
    rewrite not_elem_of_cons. auto.
Qed.

Lemma split_free c s : Forall (fun p => c ∉ chars p) (split c s).
Proof. unfold split. apply Forall_map. eapply Forall_impl; [apply split_char_free|]. intros p. simpl. by rewrite chars_unchars. Qed.

Lemma split_join c l : l <> [] -> Forall (fun p => c ∉ chars p) l -> split c (join (unchars [c]) l) = l.
Proof.
  intros Hne Hf. unfold split. destruct l as [|s l]; [done|]. clear Hne. revert s Hf. induction l as [|t l IH]; intros s [Hs Hf]%Forall_cons.
  - rewrite join_one, split_char_none by done. cbn [map]. by rewrite unchars_chars.
  - rewrite join_cons, !chars_app, chars_unchars. cbn [app]. rewrite split_char_app by done. cbn [map].
    by rewrite unchars_chars, IH.
Qed.

Lemma header_positions_app o l1 l2 : header_positions o (l1 ++ l2) = header_positions o l1 ++ header_positions (o + length l1) l2.
Proof.
  revert o. induction l1 as [|x l1 IH]; intros o; simpl; [by rewrite Nat.add_0_r|]. rewrite IH, Nat.add_succ_comm.
  by destruct (is_file_header x).
Qed.

Lemma header_positions_none o l : Forall (fun s => is_file_header s = false) l -> header_positions o l = [].
Proof. intros H. revert o. induction H as [|x l Hx H IH]; intros o; simpl; [done|]. by rewrite Hx. Qed.

(** A file's lines: its header, and no other. *)
Definition group (g : list string) : Prop := exists h rest, g = h :: rest /\ is_file_header h = true /\ Forall (fun s => is_file_header s = false) rest.

Lemma lines_grouped lines : exists pre groups, lines = pre ++ concat groups /\ Forall (fun s => is_file_header s = false) pre /\ Forall group groups.
Proof.
  induction lines as [|x lines (pre & groups & -> & Hp & Hg)]; [by exists [], []|]. destruct (is_file_header x) eqn:E.
  - exists [], ((x :: pre) :: groups). split_and!; [done|done|]. constructor; [by exists x, pre|done].
  - exists (x :: pre), groups. split_and!; [done|by constructor|done].
Qed.

(** Where the groups start when the first starts at [o]. *)
Fixpoint group_starts (o : nat) (groups : list (list string)) : list nat :=
  match groups with [] => [] | g :: groups => o :: group_starts (o + length g) groups end.

Lemma header_positions_groups pre groups : Forall (fun s => is_file_header s = false) pre -> Forall group groups ->
  header_positions 0 (pre ++ concat groups) = group_starts (length pre) groups.
Proof.
  intros Hp Hg. rewrite header_positions_app, (header_positions_none 0 pre Hp). simpl. clear Hp. generalize (length pre) as o. clear pre.
  induction Hg as [|g groups (h & rest & -> & Hh & Hr) Hg IH]; intros o; [done|].
  cbn [concat group_starts]. rewrite header_positions_app. simpl. by rewrite Hh, (header_positions_none _ rest Hr), <- IH.
Qed.

Lemma group_starts_lookup o groups k : group_starts o groups !! k = if decide (k < length groups)%nat then Some (o + length (concat (take k groups)))%nat else None.
Proof.
  revert o k. induction groups as [|g groups IH]; intros o k; [by destruct k|]. destruct k as [|k]; simpl; [f_equal; lia|].
  rewrite IH. destruct (decide (k < length groups)%nat), (decide (S k < S (length groups))%nat); try lia; [|done].
  rewrite length_app. f_equal. lia.
Qed.

Lemma blocks_of_groups `{JSON} pre groups : Forall group groups ->
  Forall2 (fun b g => blk_diff b = join newline_string g /\ blk_path b <> ""%string)
    (imap (file_block (pre ++ concat groups) (group_starts (length pre) groups)) (group_starts (length pre) groups)) groups.
Proof.
  intros Hg. apply Forall2_same_length_lookup. split.
  { rewrite length_imap. generalize (length pre). induction groups as [|g groups IH]; intros o; [done|]. simpl. f_equal. apply IH. by inversion Hg. }
  intros k b g Hb Hk. rewrite list_lookup_imap, group_starts_lookup in Hb. pose proof (lookup_lt_Some _ _ _ Hk) as Hlt.
  rewrite decide_True in Hb by done. simpl in Hb. injection Hb as <-. split; simpl.
  - f_equal. rewrite group_starts_lookup.
    assert (Hc : concat groups = concat (take k groups) ++ g ++ concat (drop (S k) groups)).
    { rewrite <- (take_drop_middle _ _ _ Hk) at 1. by rewrite concat_app. }
    rewrite drop_app_ge by lia. replace (length pre + length (concat (take k groups)) - length pre)%nat with (length (concat (take k groups))) by lia.
    rewrite Hc at 2. rewrite drop_app_length. apply take_app_length'.
    destruct (decide (S k < length groups)%nat) as [Hs|Hs].
    + simpl. rewrite (take_S_r _ _ _ Hk), concat_app, length_app. simpl. rewrite app_nil_r. lia.
    + simpl. rewrite (drop_ge groups (S k)) in Hc by lia. rewrite !length_app, Hc, !length_app. simpl. lia.
  - unfold str_or. destruct (nonempty _) eqn:E; [by apply nonempty_true in E|]. by destruct (pretty _).
Qed.

(** A patch is cut into its files without loss: every block is named, its lines are a
    file header followed by lines that are none, and the blocks' lines in order are the
    lines of the patch from its first file header on (its line ends normalised). *)
Theorem patch_blocks_partition `{JSON} content :
  let blocks := splitUnifiedDiffFileBlocks content in
  exists pre, split line_feed (normalize_newlines content) = pre ++ concat (map (fun b => split line_feed (blk_diff b)) blocks) /\
    Forall (fun s => is_file_header s = false) pre /\
    Forall (fun b => group (split line_feed (blk_diff b)) /\ blk_path b <> ""%string) blocks.
Proof.
  cbn zeta. unfold splitUnifiedDiffFileBlocks. set (lines := split line_feed (normalize_newlines content)).
  pose proof (split_free line_feed (normalize_newlines content)) as Hfree. fold lines in Hfree.
  destruct (lines_grouped lines) as (pre & groups & E & Hp & Hg). exists pre. rewrite E in *. rewrite (header_positions_groups _ _ Hp Hg).
  pose proof (blocks_of_groups pre groups Hg) as Hb. set (blocks := imap _ _) in Hb |- *.
  assert (Hbl : match group_starts (length pre) groups with [] => [] | _ => blocks end = blocks) by (unfold blocks; by destruct groups).
  rewrite Hbl. clearbody blocks. clear Hbl E lines.
  assert (Hs : forall b g, group g -> Forall (fun p => line_feed ∉ chars p) g -> blk_diff b = join newline_string g -> split line_feed (blk_diff b) = g).
  { intros b g (h & rest & -> & _) Hf ->. by apply split_join. }
  apply Forall_app in Hfree as [_ Hfree]. split_and!; [|done|].
  - f_equal. f_equal. induction Hb as [|b g blocks groups [Hd _] Hb IH]; [done|]. simpl in *.
    apply Forall_cons in Hg as [Hg1 Hg2]. apply Forall_app in Hfree as [Hf1 Hf2]. rewrite (Hs b g) by done. f_equal. by apply IH.
  - induction Hb as [|b g blocks groups [Hd Hn] Hb IH]; [constructor|]. simpl in *.
    apply Forall_cons in Hg as [Hg1 Hg2]. apply Forall_app in Hfree as [Hf1 Hf2]. constructor; [|by apply IH]. by rewrite (Hs b g).
Qed.

Example sample_patch : map blk_path (splitUnifiedDiffFileBlocks (H:=js_JSON) (join newline_string
  ["note"; "diff --git a/x b/x"; "--- a/x"; "+++ b/x"; "diff --git a/y b/y"; "--- a/y"; "+++ /dev/null"; "diff --git a/z b/z"])) = ["x"; "y"; "z"]%string.
Proof. vm_compute. reflexivity. Qed.

(** Git does not quote spaces: a file with one in its name that has no [+++] line (binary, or
    only its mode changed) is named after the second word of its first path. *)
Lemma spaced_header_path :
  map blk_path (splitUnifiedDiffFileBlocks (H:=js_JSON) (join newline_string ["diff --git a/my file.png b/my file.png"; "Binary files differ"]))
  = ["file.png"]%string.
Proof. vm_compute. reflexivity. Qed.

(** * The rows are the changes, separated *)

(** No separator comes first or after another. *)
Fixpoint separated (after_content : bool) (rows : list UnifiedDiffRow) : Prop :=
  match rows with
  | [] => True
  | r :: rows => (is_separator r = true -> after_content = true) /\ separated (negb (is_separator r)) rows
  end.

Definition content_rows (rows : list UnifiedDiffRow) : list UnifiedDiffRow := bfilter (fun r => negb (is_separator r)) rows.
Definition hunk_rows (hunk : GitDiffHunk) : list UnifiedDiffRow := map change_row (default [] (hunk_changes hunk)).
Definition file_rows (file : GitDiffFile) : list UnifiedDiffRow := concat (map hunk_rows (default [] (file_hunks file))).

Lemma change_row_content c : is_separator (change_row c) = false.
Proof. by destruct c. Qed.

Lemma separated_snoc b rows r : separated b rows -> (is_separator r = true -> match last rows with None => b = true | Some r' => is_separator r' = false end) ->
  separated b (rows ++ [r]).
Proof.
  revert b. induction rows as [|x rows IH]; intros b; simpl; [auto|]. intros [Hx Hs] Hr. split; [done|]. apply IH; [done|].
  intros H. specialize (Hr H). destruct rows as [|y rows]; [simpl in Hr; by rewrite Hr|].
  change (last (x :: y :: rows)) with (last (y :: rows)) in Hr. destruct (last (y :: rows)) eqn:El; [done|by apply last_None in El].
Qed.

Lemma push_separator_spec rows k t : separated false rows ->
  separated false (pushUnifiedDiffSeparator rows k t) /\ content_rows (pushUnifiedDiffSeparator rows k t) = content_rows rows.
Proof.
  intros H. unfold pushUnifiedDiffSeparator. destruct (last rows) as [r|] eqn:E; [|done]. destruct (is_separator r) eqn:Er; [done|]. split.
  - apply separated_snoc; [done|]. by rewrite E.
  - unfold content_rows. rewrite bfilter_app. simpl. apply app_nil_r.
Qed.

Lemma push_changes_spec rows changes : separated false rows ->
  separated false (foldl pushDiffChange rows changes) /\ content_rows (foldl pushDiffChange rows changes) = content_rows rows ++ map change_row changes.
Proof.
  revert rows. induction changes as [|c changes IH]; intros rows H; simpl; [by rewrite app_nil_r|].
  destruct (IH (pushDiffChange rows c)) as [H1 H2].
  - apply separated_snoc; [done|]. by rewrite change_row_content.
  - split; [done|]. rewrite H2. unfold pushDiffChange, content_rows. rewrite bfilter_app. simpl. by rewrite change_row_content, <- app_assoc.
Qed.

Lemma push_hunk_spec rows ih : separated false rows ->
  separated false (push_hunk rows ih) /\ content_rows (push_hunk rows ih) = content_rows rows ++ hunk_rows ih.2.
Proof.
  intros H. unfold push_hunk. set (rows' := if (0 <? ih.1)%nat then _ else rows).
  assert (Hr : separated false rows' /\ content_rows rows' = content_rows rows).
  { unfold rows'. destruct (0 <? ih.1)%nat; [by apply push_separator_spec|done]. }
  destruct Hr as [H1 H2]. destruct (push_changes_spec rows' (default [] (hunk_changes ih.2)) H1) as [H3 H4]. by rewrite H4, H2.
Qed.

Lemma push_file_spec rows file : separated false rows ->
  separated false (push_file rows file) /\ content_rows (push_file rows file) = content_rows rows ++ file_rows file.
Proof.
  intros H. unfold push_file, file_rows. destruct (default [] (file_hunks file)) as [|h hs] eqn:E; [by rewrite app_nil_r|].
  set (rows' := match rows with [] => rows | _ => _ end).
  assert (Hr : separated false rows' /\ content_rows rows' = content_rows rows).
  { unfold rows'. destruct rows; [done|]. by apply push_separator_spec. }
  rewrite <- (proj2 Hr). destruct Hr as [Hr _]. revert Hr. generalize rows' as r. clear E rows' H rows. generalize (h :: hs) as l. clear h hs.
  assert (Hg : forall l (f : nat -> nat) r, separated false r -> separated false (foldl push_hunk r (imap (fun i => pair (f i)) l)) /\
    content_rows (foldl push_hunk r (imap (fun i => pair (f i)) l)) = content_rows r ++ concat (map hunk_rows l)); [|intros l r; apply (Hg l (fun i => i))].
  induction l as [|h l IH]; intros f r Hr; simpl; [by rewrite app_nil_r|].
  destruct (push_hunk_spec r (f 0%nat, h) Hr) as [H1 H2]. destruct (IH (fun i => f (S i)) _ H1) as [H3 H4].
  split; [done|]. etransitivity; [exact H4|]. by rewrite H2, <- app_assoc.
Qed.

Lemma push_files_spec files : forall rows, separated false rows ->
  separated false (foldl push_file rows files) /\ content_rows (foldl push_file rows files) = content_rows rows ++ concat (map file_rows files).
Proof.
  induction files as [|f files IH]; intros rows H; simpl; [by rewrite app_nil_r|].
  destruct (push_file_spec rows f H) as [H1 H2]. destruct (IH _ H1) as [H3 H4]. by rewrite H4, H2, <- app_assoc.
Qed.

(** What a row of the fallback was read from. *)
Definition raw_line (r : UnifiedDiffRow) (raw : string) : Prop :=
  match row_kind_of r with
  | AddedRow => raw = "+" +:+ row_text r
  | RemovedRow => raw = "-" +:+ row_text r
  | ContextRow => raw = row_text r \/ raw = " " +:+ row_text r
  | SeparatorRow => False
  end.

Lemma prefix_rest p s : startsWith s p = true -> s = p +:+ slice_from (String.length p) s.
Proof.
  unfold startsWith, slice_from. intros H. apply chars_inj. rewrite chars_app, chars_unchars. revert s H.
  induction p as [|a p IH]; intros s H; simpl; [done|]. destruct s as [|b s]; [done|]. simpl in *.
  destruct (ascii_dec a b) as [->|]; [|done]. f_equal. by apply IH.
Qed.

Lemma fallback_raw raw : raw_line (fallback_row raw) raw.
Proof.
  unfold fallback_row. destruct (startsWith raw "+") eqn:E1; [by apply (prefix_rest "+")|].
  destruct (startsWith raw "-") eqn:E2; [by apply (prefix_rest "-")|].
  destruct (startsWith raw " ") eqn:E3; [right; by apply (prefix_rest " ")|by left].
Qed.

(** The rows of a diff: where the parser finds changes, they are its changes in order, with
    separators that neither come first nor follow each other; otherwise they are the
    lines of the text, each with the sign it starts with. *)
Lemma diff_rows_spec parse content :
  let changes := concat (map file_rows (default [] (parse content))) in
  let rows := parseUnifiedDiffRows parse content in
  separated false rows /\
  (changes <> [] -> content_rows rows = changes) /\
  (changes = [] -> Forall2 raw_line rows (split line_feed content)).
Proof.
  cbn zeta. unfold parseUnifiedDiffRows. set (rows := match parse content with Some files => _ | None => [] end).
  assert (Hr : separated false rows /\ content_rows rows = concat (map file_rows (default [] (parse content)))).
  { unfold rows. destruct (parse content) as [files|]; [by apply push_files_spec|done]. }
  destruct Hr as [H1 H2]. rewrite <- H2. clear H2.
  assert (Hhead : rows <> [] -> content_rows rows <> []).
  { destruct rows as [|r l]; [done|]. intros _. simpl in H1. destruct H1 as [H1 _]. unfold content_rows. simpl.
    destruct (is_separator r); [by specialize (H1 eq_refl)|done]. }
  destruct rows as [|r l].
  - split_and!; [|done|].
    + assert (Hf : forall b lines, separated b (map fallback_row lines)); [|apply Hf]. intros b lines. revert b.
      induction lines as [|x lines IH]; intros b; simpl; [done|]. split; [|apply IH].
      pose proof (fallback_raw x) as Hx. unfold raw_line in Hx. unfold is_separator. intros Hs%bool_decide_eq_true. by rewrite Hs in Hx.
    + intros _. induction (split line_feed content) as [|x lines IH]; simpl; [constructor|]. constructor; [apply fallback_raw|done].
  - split_and!; [done|done|]. intros E. by destruct (Hhead ltac:(done)).
Qed.

(** What is selected is available, and is the previous selection as far as it is. *)
Lemma selected_branches_available previous available current :
  Forall (fun b => b ∈ available) (pickGitSelectedBranches previous available current) /\
  (available <> [] -> pickGitSelectedBranches previous available current <> []).
Proof.
  unfold pickGitSelectedBranches. set (valid := bfilter _ previous).
  assert (Hv : Forall (fun b => b ∈ available) valid).
  { apply Forall_forall. intros b [_ H%bool_decide_eq_true]%elem_of_bfilter. done. }
  destruct valid as [|b l]; [|done]. destruct (nonempty (trim current)); cbn [andb].
  - destruct (decide (trim current ∈ available)) as [H|H]; [rewrite bool_decide_true by done; split; [by apply Forall_singleton|done]|].
    rewrite bool_decide_false by done. destruct available as [|a l]; [done|]. split; [|done]. apply Forall_singleton. by left.
  - destruct available as [|a l]; [done|]. split; [|done]. apply Forall_singleton. by left.
Qed.
