(* ===== verification/ChatQuickSwitch.v ===== *)
(** The sessions offered for quick switching, [chat/mobileChatQuickSwitch.ts]: the most
    urgent and recent sessions of all projects, flat or grouped by project. *)

From stdpp Require Import sorting.
From S2P Require Import Prelude RegistryTypes Collation ChatIndexState.
Open Scope Z_scope.

Record MobileChatQuickSwitchSection := {
  qs_projectId : string; qs_projectName : string; qs_projectHubId : string; qs_projectHubLabel : string; qs_sessions : list RegistryChatSession
}.
Record MobileChatQuickSwitchCandidate := {
  qc_key : string; qc_projectId : string; qc_projectName : string; qc_projectHubId : string; qc_projectHubLabel : string;
  qc_projectIndex : Z; qc_session : RegistryChatSession; qc_sessionIndex : Z; qc_priority : bool
}.
Record RecentChatSessionRow := { rr_projectId : string; rr_projectName : string; rr_projectHubId : string; rr_session : RegistryChatSession }.
Record RecentChatSessionProjectSection := {
  rs_projectId : string; rs_projectName : string; rs_projectHubId : string; rs_sessions : list RegistryChatSession
}.

Definition chatQuickSwitchSessionKey (projectId sessionId : string) : string :=
  projectId +:+ unchars [Ascii.ascii_of_nat 10] +:+ sessionId.

Definition isPriorityQuickSwitchSession (session : RegistryChatSession) : bool :=
  negb (Qle_bool (default 0%Q (sess_unreadCount session)) 0) || bool_decide (sess_running session = Some true).

(** The indexes of turns are integral where they are present. *)
Definition nonNegativeTurnIndex (value : option Z) : Z := match value with Some n => Z.max 0 n | None => 0 end.

Section quick.
Context (sessionsByProjectId : gmap string (list RegistryChatSession)).

Definition sessions_of (projectId : string) : list RegistryChatSession := default [] (sessionsByProjectId !! projectId).

Definition hasCompletedUnreadChatSession (projects : list RegistryProject) : bool :=
  some (fun project =>
    some (fun session =>
      negb (bool_decide (sess_running session = Some true)) &&
      (let lastDoneTurnIndex := nonNegativeTurnIndex (sess_lastDoneTurnIndex session) in
       let lastReadTurnIndex := nonNegativeTurnIndex (sess_lastReadTurnIndex session) in
       (0 <? lastDoneTurnIndex) && (lastReadTurnIndex <? lastDoneTurnIndex))) (sessions_of (proj_projectId project))) projects.

(** The loop over a project's sessions: what was seen, and the candidates so far. *)
Definition candidate_of (project : RegistryProject) (projectIndex : Z) (sessionIndex : Z) (session : RegistryChatSession) : MobileChatQuickSwitchCandidate :=
  let projectId := proj_projectId project in
  let projectHubId := str_or (default ""%string (proj_hubId project)) "local" in
  {| qc_key := chatQuickSwitchSessionKey projectId (sess_sessionId session); qc_projectId := projectId;
     qc_projectName := str_or (proj_name project) projectId; qc_projectHubId := projectHubId; qc_projectHubLabel := projectHubId;
     qc_projectIndex := projectIndex; qc_session := session; qc_sessionIndex := sessionIndex; qc_priority := isPriorityQuickSwitchSession session |}.

Definition candidate_state : Type := list string * list MobileChatQuickSwitchCandidate.

Fixpoint session_candidates (project : RegistryProject) (projectIndex sessionIndex : Z) (sessions : list RegistryChatSession) (st : candidate_state) : candidate_state :=
  match sessions with
  | [] => st
  | session :: sessions =>
    let st' :=
      if negb (nonempty (sess_sessionId session)) then st
      else
        let key := chatQuickSwitchSessionKey (proj_projectId project) (sess_sessionId session) in
        if bool_decide (key ∈ st.1) then st else (key :: st.1, st.2 ++ [candidate_of project projectIndex sessionIndex session]) in
    session_candidates project projectIndex (sessionIndex + 1) sessions st'
  end.

Fixpoint project_candidates (projectIndex : Z) (projects : list RegistryProject) (st : candidate_state) : candidate_state :=
  match projects with
  | [] => st
  | project :: projects =>
    let st' := if nonempty (proj_projectId project) then session_candidates project projectIndex 0 (sessions_of (proj_projectId project)) st else st in
    project_candidates (projectIndex + 1) projects st'
  end.
Definition buildQuickSwitchCandidates (projects : list RegistryProject) : list MobileChatQuickSwitchCandidate := (project_candidates 0 projects ([], [])).2.

Context `{C : Collation}.

Definition compareQuickSwitchCandidates (left right : MobileChatQuickSwitchCandidate) : Z :=
  if negb (Bool.eqb (qc_priority left) (qc_priority right)) then (if qc_priority left then -1 else 1)
  else
    let updatedAtDiff := compareUpdatedAtDesc (sess_updatedAt (qc_session left)) (sess_updatedAt (qc_session right)) in
    if negb (updatedAtDiff =? 0) then updatedAtDiff
    else if negb (qc_projectIndex left =? qc_projectIndex right) then qc_projectIndex left - qc_projectIndex right
    else qc_sessionIndex left - qc_sessionIndex right.

Definition selected_candidates (projects : list RegistryProject) (limit : Z) : list MobileChatQuickSwitchCandidate :=
  take (Z.to_nat (Z.max 0 limit)) (js_sort compareQuickSwitchCandidates (buildQuickSwitchCandidates projects)).

Definition recent_row (c : MobileChatQuickSwitchCandidate) : RecentChatSessionRow :=
  {| rr_projectId := qc_projectId c; rr_projectName := qc_projectName c; rr_projectHubId := qc_projectHubId c; rr_session := qc_session c |}.
Definition buildRecentChatSessionRows (projects : list RegistryProject) (limit : option Z) : list RecentChatSessionRow :=
  map recent_row (selected_candidates projects (default 8 limit)).

(** A section is created with the first row of its project and pushed to afterwards. *)
Definition push_recent (sections : list (string * RecentChatSessionProjectSection)) (row : RecentChatSessionRow) : list (string * RecentChatSessionProjectSection) :=
  let section := match dget sections (rr_projectId row) with
    | Some s => s
    | None => {| rs_projectId := rr_projectId row; rs_projectName := rr_projectName row; rs_projectHubId := rr_projectHubId row; rs_sessions := [] |} end in
  dset sections (rr_projectId row)
    {| rs_projectId := rs_projectId section; rs_projectName := rs_projectName section; rs_projectHubId := rs_projectHubId section;
       rs_sessions := rs_sessions section ++ [rr_session row] |}.

Definition MAX_SAFE_INTEGER : Z := 9007199254740991.
Definition projectOrder (projects : list RegistryProject) : list (string * Z) := dict_of (imap (fun i p => (proj_projectId p, Z.of_nat i)) projects).
Definition order_of (order : list (string * Z)) (projectId : string) : Z := default MAX_SAFE_INTEGER (dget order projectId).

Definition buildRecentChatSessionProjectSections (projects : list RegistryProject) (limit : option Z) : list RecentChatSessionProjectSection :=
  let sections := map snd (foldl push_recent [] (buildRecentChatSessionRows projects limit)) in
  let order := projectOrder projects in
  js_sort (fun left right => order_of order (rs_projectId left) - order_of order (rs_projectId right)) sections.

Definition push_candidate (sections : list (string * MobileChatQuickSwitchSection)) (c : MobileChatQuickSwitchCandidate) : list (string * MobileChatQuickSwitchSection) :=
  let section := match dget sections (qc_projectId c) with
    | Some s => s
    | None => {| qs_projectId := qc_projectId c; qs_projectName := qc_projectName c; qs_projectHubId := qc_projectHubId c;
                 qs_projectHubLabel := qc_projectHubLabel c; qs_sessions := [] |} end in
  dset sections (qc_projectId c)
    {| qs_projectId := qs_projectId section; qs_projectName := qs_projectName section; qs_projectHubId := qs_projectHubId section;
       qs_projectHubLabel := qs_projectHubLabel section; qs_sessions := qs_sessions section ++ [qc_session c] |}.
Definition buildMobileChatQuickSwitchSections (projects : list RegistryProject) (limit : option Z) : list MobileChatQuickSwitchSection :=
  map snd (foldl push_candidate [] (selected_candidates projects (default 6 limit))).
End quick.

(** * Grouping rows by a key *)

Section grouping.
Context {R S : Type} (key : R -> string) (fresh : R -> S) (add : S -> R -> S).

(** The group of a row is made from its first row, and each row is added to it. *)
Definition push_group (groups : list (string * S)) (r : R) : list (string * S) :=
  dset groups (key r) (add (default (fresh r) (dget groups (key r))) r).
Definition rows_of (k : string) (rows : list R) : list R := bfilter (fun r => bool_decide (key r = k)) rows.
Definition group_of (k : string) (rows : list R) : option S :=
  match rows_of k rows with [] => None | r :: _ => Some (foldl add (fresh r) (rows_of k rows)) end.

Lemma rows_of_snoc k rows r : rows_of k (rows ++ [r]) = rows_of k rows ++ (if decide (key r = k) then [r] else []).
Proof. unfold rows_of. rewrite bfilter_app. f_equal. simpl. by destruct (decide (key r = k)); [rewrite bool_decide_true|rewrite bool_decide_false]. Qed.

Lemma group_of_snoc k rows r : group_of k (rows ++ [r]) = if decide (key r = k) then Some (add (default (fresh r) (group_of k rows)) r) else group_of k rows.
Proof.
  unfold group_of. rewrite rows_of_snoc. destruct (decide (key r = k)); [|by rewrite app_nil_r].
  destruct (rows_of k rows) as [|x l]; [done|]. simpl. by rewrite foldl_app.
Qed.

Lemma groups_spec rows : NoDup (dkeys (foldl push_group [] rows)) /\ forall k, dget (foldl push_group [] rows) k = group_of k rows.
Proof.
  induction rows as [|r rows [Hn Hg]] using rev_ind; [split; [constructor|done]|]. rewrite foldl_app. simpl. split.
  - by apply dset_NoDup.
  - intros k. unfold push_group at 1. rewrite dget_dset, group_of_snoc, Hg. destruct (decide (key r = k)) as [<-|]; [done|apply Hg].
Qed.
End grouping.

(** * What is offered *)

Section facts.
Context (sessions : gmap string (list RegistryChatSession)).
Abbreviation sessions_of := (sessions_of sessions).

(** Where a candidate comes from. *)
Definition comes_from (projects : list RegistryProject) (c : MobileChatQuickSwitchCandidate) : Prop :=
  exists i p j s, projects !! i = Some p /\ nonempty (proj_projectId p) = true /\ sessions_of (proj_projectId p) !! j = Some s /\
    nonempty (sess_sessionId s) = true /\ c = candidate_of p (Z.of_nat i) (Z.of_nat j) s.

Definition state_ok (st : candidate_state) : Prop := NoDup (map qc_key st.2) /\ forall k, k ∈ st.1 <-> k ∈ map qc_key st.2.

Lemma session_candidates_spec p i (P : MobileChatQuickSwitchCandidate -> Prop) l : forall j st, state_ok st -> Forall P st.2 ->
  (forall k s, l !! k = Some s -> nonempty (sess_sessionId s) = true -> P (candidate_of p i (j + Z.of_nat k) s)) ->
  let st' := session_candidates p i j l st in
  state_ok st' /\ Forall P st'.2 /\ (forall k, k ∈ st.1 -> k ∈ st'.1) /\
  (forall s, s ∈ l -> nonempty (sess_sessionId s) = true -> chatQuickSwitchSessionKey (proj_projectId p) (sess_sessionId s) ∈ st'.1).
Proof.
  induction l as [|x l IH]; intros j st Hst HP Hl; cbn zeta; simpl.
  { split_and!; try done. intros s Hs. by apply elem_of_nil in Hs. }
  set (st1 := if negb (nonempty (sess_sessionId x)) then st else _).
  assert (H1 : state_ok st1 /\ Forall P st1.2 /\ (forall k, k ∈ st.1 -> k ∈ st1.1) /\
    (nonempty (sess_sessionId x) = true -> chatQuickSwitchSessionKey (proj_projectId p) (sess_sessionId x) ∈ st1.1)).
  { unfold st1. destruct (nonempty (sess_sessionId x)) eqn:Ex; cbn [negb]; [|by split_and!].
    case_bool_decide as Hk; [by split_and!|]. split_and!; simpl.
    - destruct Hst as [Hn He]. split; simpl; rewrite map_app; simpl.
      + apply NoDup_app. split_and!; [done| |apply NoDup_singleton]. intros k H1 H2%list_elem_of_singleton. subst k. by apply He in H1.
      + intros k. rewrite elem_of_cons, elem_of_app, list_elem_of_singleton, <- He. tauto.
    - apply Forall_app. split; [done|]. apply Forall_singleton. specialize (Hl 0%nat x eq_refl Ex). by rewrite Z.add_0_r in Hl.
    - intros k Hk'. by right.
    - intros _. by left. }
  destruct H1 as (Hs1 & HP1 & Hsub & Hx). destruct (IH (j + 1) st1 Hs1 HP1) as (H2 & H3 & H4 & H5).
  { intros k s Hk. specialize (Hl (S k) s Hk). by replace (j + 1 + Z.of_nat k) with (j + Z.of_nat (S k)) by lia. }
  split_and!; [done|done|auto|]. intros s [->|Hs]%elem_of_cons; auto.
Qed.

Lemma project_candidates_spec (P : MobileChatQuickSwitchCandidate -> Prop) l : forall i st, state_ok st -> Forall P st.2 ->
  (forall k p j s, l !! k = Some p -> nonempty (proj_projectId p) = true -> sessions_of (proj_projectId p) !! j = Some s ->
     nonempty (sess_sessionId s) = true -> P (candidate_of p (i + Z.of_nat k) (Z.of_nat j) s)) ->
  let st' := project_candidates sessions i l st in
  state_ok st' /\ Forall P st'.2 /\ (forall k, k ∈ st.1 -> k ∈ st'.1) /\
  (forall p s, p ∈ l -> nonempty (proj_projectId p) = true -> s ∈ sessions_of (proj_projectId p) -> nonempty (sess_sessionId s) = true ->
     chatQuickSwitchSessionKey (proj_projectId p) (sess_sessionId s) ∈ st'.1).
Proof.
  induction l as [|x l IH]; intros i st Hst HP Hl; cbn zeta; simpl.
  { split_and!; try done. intros p s Hp. by apply elem_of_nil in Hp. }
  set (st1 := if nonempty (proj_projectId x) then _ else st).
  assert (H1 : state_ok st1 /\ Forall P st1.2 /\ (forall k, k ∈ st.1 -> k ∈ st1.1) /\
    (nonempty (proj_projectId x) = true -> forall s, s ∈ sessions_of (proj_projectId x) -> nonempty (sess_sessionId s) = true ->
       chatQuickSwitchSessionKey (proj_projectId x) (sess_sessionId s) ∈ st1.1)).
  { unfold st1. destruct (nonempty (proj_projectId x)) eqn:Ex; [|by split_and!].
    destruct (session_candidates_spec x i P (sessions_of (proj_projectId x)) 0 st Hst HP) as (H1 & H2 & H3 & H4); [|by split_and!].
    intros k s Hk Hs. specialize (Hl 0%nat x k s eq_refl Ex Hk Hs). by rewrite Z.add_0_r in Hl. }
  destruct H1 as (Hs1 & HP1 & Hsub & Hx). destruct (IH (i + 1) st1 Hs1 HP1) as (H2 & H3 & H4 & H5).
  { intros k p j s Hk. specialize (Hl (S k) p j s Hk). by replace (i + 1 + Z.of_nat k) with (i + Z.of_nat (S k)) by lia. }
  split_and!; [done|done|auto|]. intros p s [->|Hp]%elem_of_cons; auto.
Qed.

Lemma candidates_spec projects :
  NoDup (map qc_key (buildQuickSwitchCandidates sessions projects)) /\
  Forall (comes_from projects) (buildQuickSwitchCandidates sessions projects) /\
  (forall p s, p ∈ projects -> nonempty (proj_projectId p) = true -> s ∈ sessions_of (proj_projectId p) -> nonempty (sess_sessionId s) = true ->
     chatQuickSwitchSessionKey (proj_projectId p) (sess_sessionId s) ∈ map qc_key (buildQuickSwitchCandidates sessions projects)).
Proof.
  destruct (project_candidates_spec (comes_from projects) projects 0 ([], [])) as ([H1 H1'] & H2 & _ & H3).
  - split; [constructor|]. intros k. simpl. split; intros H; by apply elem_of_nil in H.
  - constructor.
  - intros k p j s Hp Hn Hs Hs'. exists k, p, j, s. by rewrite Z.add_0_l.
  - split_and!; [done|done|]. intros p s Hp Hn Hs Hs'. apply H1'. eauto.
Qed.

Context `{C : Collation}.

#[export] Instance compareQuickSwitchCandidates_ok : Comparator compareQuickSwitchCandidates.
Proof.
  apply (comparator_ext
    (lex (fun x y => (if qc_priority x then 0 else 1) - (if qc_priority y then 0 else 1))
      (lex (fun x y => compareUpdatedAtDesc (sess_updatedAt (qc_session x)) (sess_updatedAt (qc_session y)))
        (lex (fun x y => qc_projectIndex x - qc_projectIndex y) (fun x y => qc_sessionIndex x - qc_sessionIndex y))))).
  - intros x y. unfold lex, compareQuickSwitchCandidates. destruct (qc_priority x), (qc_priority y); simpl; try done.
    all: destruct (compareUpdatedAtDesc _ _ =? 0); simpl; [|done]; destruct (Z.eqb_spec (qc_projectIndex x) (qc_projectIndex y)) as [E|E];
      destruct (Z.eqb_spec (qc_projectIndex x - qc_projectIndex y) 0); simpl; lia.
  - apply lex_comparator; [apply (by_comparator (fun x => if qc_priority x then 0 else 1) Z.sub), _|].
    apply lex_comparator; [apply (by_comparator (fun x => sess_updatedAt (qc_session x)) compareUpdatedAtDesc), _|].
    apply lex_comparator; [apply (by_comparator qc_projectIndex Z.sub), _|apply (by_comparator qc_sessionIndex Z.sub), _].
Qed.

Lemma StronglySorted_take {A} (R : A -> A -> Prop) n l : StronglySorted R l ->
  StronglySorted R (take n l) /\ forall x y, x ∈ take n l -> y ∈ drop n l -> R x y.
Proof.
  intros H. rewrite <- (take_drop n l) in H. split; [by eapply StronglySorted_app_1_l|].
  intros x y Hx Hy. by eapply (StronglySorted_app_1_elem_of R); [exact H|..].
Qed.

Definition recent_key (r : RecentChatSessionRow) : string := rr_projectId r.
Definition recent_fresh (r : RecentChatSessionRow) : RecentChatSessionProjectSection :=
  {| rs_projectId := rr_projectId r; rs_projectName := rr_projectName r; rs_projectHubId := rr_projectHubId r; rs_sessions := [] |}.
Definition recent_add (s : RecentChatSessionProjectSection) (r : RecentChatSessionRow) : RecentChatSessionProjectSection :=
  {| rs_projectId := rs_projectId s; rs_projectName := rs_projectName s; rs_projectHubId := rs_projectHubId s; rs_sessions := rs_sessions s ++ [rr_session r] |}.

Lemma push_recent_group rows : foldl push_recent [] rows = foldl (push_group recent_key recent_fresh recent_add) [] rows.
Proof.
  generalize (@nil (string * RecentChatSessionProjectSection)). induction rows as [|r rows IH]; intros d; [done|]. simpl. by rewrite IH.
Qed.

Lemma recent_added s rows : foldl recent_add s rows =
  {| rs_projectId := rs_projectId s; rs_projectName := rs_projectName s; rs_projectHubId := rs_projectHubId s;
     rs_sessions := rs_sessions s ++ map rr_session rows |}.
Proof.
  revert s. induction rows as [|r rows IH]; intros s; simpl; [rewrite app_nil_r; by destruct s|]. rewrite IH. simpl. by rewrite <- app_assoc.
Qed.

(** The section of a project: its rows, in their order. *)
Lemma recent_group k rows : group_of recent_key recent_fresh recent_add k rows =
  match rows_of recent_key k rows with
  | [] => None
  | r :: _ => Some {| rs_projectId := rr_projectId r; rs_projectName := rr_projectName r; rs_projectHubId := rr_projectHubId r;
                      rs_sessions := map rr_session (rows_of recent_key k rows) |}
  end.
Proof. unfold group_of. destruct (rows_of recent_key k rows) as [|r l]; [done|]. by rewrite recent_added. Qed.

Lemma rows_of_key k rows r : r ∈ rows_of recent_key k rows -> r ∈ rows /\ rr_projectId r = k.
Proof. intros [H1 H2]%elem_of_bfilter. by apply bool_decide_eq_true in H2. Qed.

(** The sections that hold rows: one per project, each with its project's rows in order. *)
Definition sections_hold (rows : list RecentChatSessionRow) (sections : list RecentChatSessionProjectSection) : Prop :=
  NoDup (map rs_projectId sections) /\
  (forall s, s ∈ sections -> rs_sessions s = map rr_session (rows_of recent_key (rs_projectId s) rows) /\ rs_sessions s <> []) /\
  (forall r, r ∈ rows -> rr_projectId r ∈ map rs_projectId sections).

Lemma sections_hold_groups rows : sections_hold rows (map snd (foldl push_recent [] rows)).
Proof.
  rewrite push_recent_group. destruct (groups_spec recent_key recent_fresh recent_add rows) as [Hn Hg].
  set (d := foldl _ _ rows) in *.
  assert (Hid : forall k s, dget d k = Some s -> rs_projectId s = k /\ rs_sessions s = map rr_session (rows_of recent_key k rows) /\ rs_sessions s <> []).
  { intros k s. rewrite Hg, recent_group. destruct (rows_of recent_key k rows) as [|r l] eqn:E; [done|]. intros [= <-]. simpl.
    split_and!; [|done|done]. apply (rows_of_key k rows). rewrite E. by left. }
  assert (Hkeys : map rs_projectId (map snd d) = dkeys d).
  { rewrite map_map. unfold dkeys. apply map_ext_in. intros [k s] Hin%list_elem_of_In. apply dget_in in Hin; [|done]. by apply Hid in Hin as [Hin _]. }
  split_and!.
  - by rewrite Hkeys.
  - intros s ([k s'] & -> & Hin)%elem_of_map. apply dget_in in Hin; [|done]. apply Hid in Hin as (H1 & H2 & H3). cbn [snd]. subst k. done.
  - intros r Hr. rewrite Hkeys. destruct (dget d (rr_projectId r)) eqn:E; [by eapply dget_key|]. rewrite Hg, recent_group in E.
    assert (Hin : r ∈ rows_of recent_key (rr_projectId r) rows) by (apply elem_of_bfilter; by rewrite bool_decide_true).
    destruct (rows_of _ _ _); [by apply elem_of_nil in Hin|done].
Qed.

Lemma sections_hold_perm rows l l' : l' ≡ₚ l -> sections_hold rows l -> sections_hold rows l'.
Proof.
  intros Hp (H1 & H2 & H3). split_and!.
  - by rewrite (Permutation_map rs_projectId Hp).
  - intros s Hs. apply H2. by rewrite <- Hp.
  - intros r Hr. rewrite (Permutation_map rs_projectId Hp). by apply H3.
Qed.

(** The recent sessions: every session with an id is a candidate, once, whatever
    projects list it; the rows are the first candidates in the order of urgency and
    recency, as many as the limit allows; and the sections by project hold exactly the
    rows, one section per project, its rows in order, the sections in the projects'
    order. *)
Theorem recent_sessions_spec projects limit :
  let all := buildQuickSwitchCandidates sessions projects in
  let chosen := selected_candidates sessions projects (default 8 limit) in
  let rows := buildRecentChatSessionRows sessions projects limit in
  let sections := buildRecentChatSessionProjectSections sessions projects limit in
  NoDup (map qc_key all) /\ Forall (comes_from projects) all /\
  (forall p s, p ∈ projects -> nonempty (proj_projectId p) = true -> s ∈ sessions_of (proj_projectId p) -> nonempty (sess_sessionId s) = true ->
     chatQuickSwitchSessionKey (proj_projectId p) (sess_sessionId s) ∈ map qc_key all) /\
  rows = map recent_row chosen /\ length chosen = Nat.min (Z.to_nat (default 8 limit)) (length all) /\
  (exists others, chosen ++ others ≡ₚ all /\ StronglySorted (fun x y => compareQuickSwitchCandidates x y <= 0) chosen /\
     forall x y, x ∈ chosen -> y ∈ others -> compareQuickSwitchCandidates x y <= 0) /\
  sections_hold rows sections /\
  StronglySorted (fun s s' => order_of (projectOrder projects) (rs_projectId s) <= order_of (projectOrder projects) (rs_projectId s')) sections.
Proof.
  cbn zeta. destruct (candidates_spec projects) as (H1 & H2 & H3). set (all := buildQuickSwitchCandidates sessions projects) in *.
  set (n := Z.to_nat (Z.max 0 (default 8 limit))).
  pose proof (sort_sorted compareQuickSwitchCandidates all) as Hs. destruct (StronglySorted_take _ n _ Hs) as [Hs1 Hs2].
  split_and!; [done..| | | |].
  - unfold selected_candidates. rewrite length_take. fold all. rewrite length_js_sort. lia.
  - exists (drop n (js_sort compareQuickSwitchCandidates all)). unfold selected_candidates. fold all n. rewrite take_drop.
    split_and!; [apply js_sort_perm|done|done].
  - eapply sections_hold_perm; [apply js_sort_perm|]. apply sections_hold_groups.
  - exact (by_key_sorted (fun s => order_of (projectOrder projects) (rs_projectId s)) _).
Qed.
End facts.
