(* ===== verification/ChatSessionHelpers.v ===== *)
(** Helpers of the session list, [chat/session/]: sessions folded away by age and archived
    in batches ([sessionArchiveState.ts]), the results of a search and their highlights
    ([sessionSearchState.ts]), sessions being created ([chatDraftSessions.ts]), titles
    ([chatSessionTitle.ts]) and the actions of a session ([chatSessionActions.ts]); with
    the times of [workspace/sessionTime.ts] and the pins of [workspace/projectNavigation.ts]. *)

From S2P Require Import Prelude Json JsonRoundTrip RegExp RegistryTypes Collation ChatSessionKey ChatComposer.
Open Scope Z_scope.

(** * Times and pins *)

Section times.
Context `{Dates}.

(** A date's time is finite or [NaN]. *)
Definition parseUpdatedAtMs (s : string) : Q :=
  if negb (nonempty s) then 0%Q else match Date_parse s with Fin q => q | _ => 0%Q end.
End times.

Definition togglePinnedProjectId (current : list string) (projectId : string) : list string :=
  if negb (nonempty projectId) then current
  else if bool_decide (projectId ∈ current) then bfilter (fun item => negb (bool_decide (item = projectId))) current
  else current ++ [projectId].

Definition compare_pinned (pinned : list string) (left right : RegistryProject * Z) : Z :=
  let leftPinned := bool_decide (proj_projectId left.1 ∈ pinned) in
  let rightPinned := bool_decide (proj_projectId right.1 ∈ pinned) in
  if negb (Bool.eqb leftPinned rightPinned) then (if leftPinned then -1 else 1) else left.2 - right.2.
Definition sortProjectsByPin (projects : list RegistryProject) (pinnedProjectIds : list string) : list RegistryProject :=
  map fst (js_sort (compare_pinned pinnedProjectIds) (imap (fun i p => (p, Z.of_nat i)) projects)).

(** * Older and archived sessions *)

Definition OLDER_SESSION_DAYS : Z := 5.
Definition OLDER_SESSIONS_EXPANDED_KEY : string := "wheelmaker.chat.olderSessionsExpanded.v1".
Definition DAY_MS : Z := 24 * 60 * 60 * 1000.
Definition MIN_COLLAPSED_VISIBLE_SESSIONS : Z := 3.

Record OlderProjectSessions := {
  older_visibleSessions : list RegistryChatSession; older_hiddenOlderSessions : list RegistryChatSession; older_hiddenOlderCount : Z;
  older_showToggle : bool; older_expanded : bool
}.
Record ArchiveCandidate := { ac_project : RegistryProject; ac_session : RegistryChatSession }.
Record ArchiveBatchFailure := { abf_projectName : string; abf_sessionTitle : string; abf_sessionId : string; abf_error : string }.
Record ArchiveBatchProgress := {
  abp_total : Z; abp_completed : Z; abp_archived : Z; abp_failed : Z; abp_currentLabel : option string; abp_failures : list ArchiveBatchFailure
}.
Record ArchiveBatchResult := { abr_candidate : ArchiveCandidate; abr_ok : bool; abr_error : option string }.

Section older.
Context `{Dates}.

Definition isOlderThanDays (updatedAt : string) (nowMs days : Z) : bool :=
  let updatedAtMs := parseUpdatedAtMs updatedAt in
  if Qle_bool updatedAtMs 0 then false else negb (Qle_bool (inject_Z nowMs - updatedAtMs) (inject_Z (days * DAY_MS))).

Definition splitOlderProjectSessions (sessions : list RegistryChatSession) (nowMs : Z) (olderThanDays : option Z) (expanded : bool) : OlderProjectSessions :=
  let days := default OLDER_SESSION_DAYS olderThanDays in
  let older := bfilter (fun s => isOlderThanDays (sess_updatedAt s) nowMs days) sessions in
  let recent := bfilter (fun s => negb (isOlderThanDays (sess_updatedAt s) nowMs days)) sessions in
  if (length older <=? 1)%nat then
    {| older_visibleSessions := recent ++ older; older_hiddenOlderSessions := []; older_hiddenOlderCount := 0; older_showToggle := false; older_expanded := false |}
  else if expanded then
    {| older_visibleSessions := recent ++ older; older_hiddenOlderSessions := []; older_hiddenOlderCount := 0; older_showToggle := true; older_expanded := true |}
  else
    let visibleOlderCount := Z.to_nat (Z.max 0 (MIN_COLLAPSED_VISIBLE_SESSIONS - Z.of_nat (length recent))) in
    let visibleOlder := take visibleOlderCount older in
    let hidden := drop visibleOlderCount older in
    match hidden with
    | [] => {| older_visibleSessions := recent ++ visibleOlder; older_hiddenOlderSessions := []; older_hiddenOlderCount := 0;
               older_showToggle := false; older_expanded := false |}
    | _ => {| older_visibleSessions := recent ++ visibleOlder; older_hiddenOlderSessions := hidden;
              older_hiddenOlderCount := Z.of_nat (length hidden); older_showToggle := true; older_expanded := false |}
    end.

Definition collectArchiveCandidates (projects : list RegistryProject) (sessionsByProjectId : gmap string (list RegistryChatSession)) (nowMs olderThanDays : Z)
    : list ArchiveCandidate :=
  flat_map (fun project =>
    omap (fun session =>
      if bool_decide (sess_running session = Some true) then None
      else if negb (isOlderThanDays (sess_updatedAt session) nowMs olderThanDays) then None
      else Some {| ac_project := project; ac_session := session |})
    (default [] (sessionsByProjectId !! proj_projectId project))) projects.
End older.

(** [localStorage], absent where the browser has none: the items by key. *)
Definition StorageLike := gmap string string.

Section expanded.
Context `{JSON}.

(** [Object.entries] of a parsed value; those of a string are strings. *)
Definition object_entries (v : value) : option (list (string * value)) :=
  match v with
  | VObj p => Some p
  | VArr l => Some (imap (fun i x => (pretty (Z.of_nat i), x)) l)
  | VNull | VUndefined => None
  | _ => Some []
  end.

Definition true_entries (l : list (string * value)) : list (string * bool) :=
  foldl (fun (out : list (string * bool)) (e : string * value) => match e.2 with VBool true => dset out e.1 true | _ => out end) [] l.

Definition readOlderSessionsExpanded (storage : option StorageLike) : list (string * bool) :=
  match storage with
  | None => []
  | Some items =>
    match items !! OLDER_SESSIONS_EXPANDED_KEY with
    | None => []
    | Some raw =>
      if negb (nonempty raw) then [] else
      match JSON_parse raw with
      | None => []
      | Some parsed => match object_entries parsed with Some entries => true_entries entries | None => [] end
      end
    end
  end.

Definition expanded_only (state : list (string * bool)) : list (string * bool) :=
  foldl (fun (out : list (string * bool)) (e : string * bool) => if e.2 then dset out e.1 true else out) [] state.
Definition writeOlderSessionsExpanded (storage : option StorageLike) (state : list (string * bool)) : option StorageLike :=
  match storage with
  | None => None
  | Some items => Some (<[OLDER_SESSIONS_EXPANDED_KEY := JSON_stringify (VObj (map (fun e => (e.1, VBool e.2)) (expanded_only state)))]> items)
  end.
End expanded.

Definition sessionTitle (session : RegistryChatSession) : string := str_or (sess_title session) (sess_sessionId session).
Definition archiveCandidateLabel (candidate : ArchiveCandidate) : string :=
  str_or (sessionTitle (ac_session candidate)) (sess_sessionId (ac_session candidate)).

Definition nextArchiveBatchProgress (previous : ArchiveBatchProgress) (result : ArchiveBatchResult) : ArchiveBatchProgress :=
  let currentLabel := archiveCandidateLabel (abr_candidate result) in
  let project := ac_project (abr_candidate result) in
  let session := ac_session (abr_candidate result) in
  let failures :=
    if abr_ok result then abp_failures previous
    else abp_failures previous ++ [{| abf_projectName := str_or (proj_name project) (proj_projectId project); abf_sessionTitle := sessionTitle session;
           abf_sessionId := sess_sessionId session; abf_error := str_or (default ""%string (abr_error result)) "Archive failed" |}] in
  {| abp_total := abp_total previous; abp_completed := abp_completed previous + 1;
     abp_archived := abp_archived previous + (if abr_ok result then 1 else 0); abp_failed := abp_failed previous + (if abr_ok result then 0 else 1);
     abp_currentLabel := Some currentLabel; abp_failures := failures |}.

(** Sections of archived sessions; projects without any have none. *)
Definition buildArchivedSessionSections {T} (projects : list RegistryProject) (archivedByProjectId : gmap string (list T)) : list (RegistryProject * list T) :=
  omap (fun project => match default [] (archivedByProjectId !! proj_projectId project) with [] => None | sessions => Some (project, sessions) end) projects.

(** * Search *)

Definition SESSION_SEARCH_FAST_POLL_MS : Z := 300.
Definition SESSION_SEARCH_SLOW_POLL_MS : Z := 800.
Definition SESSION_SEARCH_SLOW_AFTER_UNCHANGED_POLLS : Z := 3.

Definition resolveSessionSearchPollDelay (changed : bool) (unchangedPolls : Z) : Z :=
  if changed || (unchangedPolls <? SESSION_SEARCH_SLOW_AFTER_UNCHANGED_POLLS) then SESSION_SEARCH_FAST_POLL_MS else SESSION_SEARCH_SLOW_POLL_MS.

(** The source of a result is whether it has a turn. *)
Definition same_result (a b : RegistrySessionSearchResult) : bool :=
  bool_decide (hit_projectId a = hit_projectId b) && bool_decide (hit_sessionId a = hit_sessionId b) &&
  Bool.eqb (bool_decide (is_Some (hit_turnIndex a))) (bool_decide (is_Some (hit_turnIndex b))) && (default 0 (hit_turnIndex a) =? default 0 (hit_turnIndex b)).
Fixpoint sameSessionSearchResults (l r : list RegistrySessionSearchResult) : bool :=
  match l, r with
  | [], [] => true
  | a :: l, b :: r => same_result a b && sameSessionSearchResults l r
  | _, _ => false
  end.

Definition search_results_map := gmap string (list RegistrySessionSearchResult).
Definition mergeSessionSearchResultsByProject (current : search_results_map) (projectId : string) (results : list RegistrySessionSearchResult)
    : search_results_map * bool :=
  let previous := default [] (current !! projectId) in
  if sameSessionSearchResults previous results then (current, false) else (<[projectId := results]> current, true).

(** The first result of each session. *)
Definition results_by_session (results : list RegistrySessionSearchResult) : list (string * RegistrySessionSearchResult) :=
  foldl (fun d r => match dget d (hit_sessionId r) with Some _ => d | None => dset d (hit_sessionId r) r end) [] results.
Definition buildSessionSearchSections (projects : list RegistryProject) (sessionsByProjectId : gmap string (list RegistryChatSession)) (resultsByProjectId : search_results_map)
    : list (RegistryProject * list (RegistryChatSession * RegistrySessionSearchResult)) :=
  omap (fun project =>
    let resultBySessionId := results_by_session (default [] (resultsByProjectId !! proj_projectId project)) in
    let rows := omap (fun session => match dget resultBySessionId (sess_sessionId session) with Some r => Some (session, r) | None => None end)
                  (default [] (sessionsByProjectId !! proj_projectId project)) in
    match rows with [] => None | _ => Some (project, rows) end) projects.

Record SessionSearchHighlightSegment := { seg_text : string; seg_match : bool }.

(** The loop over the title: each round passes a match, or ends; [fuel] is a bound on the
    characters left. *)
Fixpoint highlight_loop (title lowerTitle query : string) (fuel cursor : nat) : list SessionSearchHighlightSegment :=
  match fuel with
  | O => []
  | S fuel =>
    if (String.length title <=? cursor)%nat then [] else
    match indexOf lowerTitle query cursor with
    | None => [{| seg_text := slice_from cursor title; seg_match := false |}]
    | Some matchIndex =>
      (if (cursor <? matchIndex)%nat then [{| seg_text := slice cursor matchIndex title; seg_match := false |}] else []) ++
      {| seg_text := slice matchIndex (matchIndex + String.length query) title; seg_match := true |} ::
      highlight_loop title lowerTitle query fuel (matchIndex + String.length query)
    end
  end.
Definition splitSessionSearchTitleHighlight (title query : string) : list SessionSearchHighlightSegment :=
  let normalizedQuery := toLowerCase (trim query) in
  if negb (nonempty title) || negb (nonempty normalizedQuery) then
    if nonempty title then [{| seg_text := title; seg_match := false |}] else []
  else bfilter (fun s => nonempty (seg_text s)) (highlight_loop title (toLowerCase title) normalizedQuery (S (String.length title)) 0).

(** * Drafts *)

Definition DRAFT_CHAT_SESSION_ID_PREFIX : string := "draft-chat-session-".
Inductive DraftChatSessionStatus := DraftCreating | DraftFailed | SendingFirstPrompt.
#[export] Instance DraftChatSessionStatus_dec : EqDecision DraftChatSessionStatus.
Proof. solve_decision. Defined.
Record DraftChatSession := {
  draft_draftId : string; draft_projectId : string; draft_agentType : string; draft_title : string; draft_createdAt : string;
  draft_updatedAt : string; draft_status : DraftChatSessionStatus; draft_errorMessage : string
}.

Definition normalizedDraftErrorMessage (errorMessage : string) : string := str_or (trim errorMessage) "Session create failed.".
Definition isDraftChatSessionId (sessionId : string) : bool := startsWith sessionId DRAFT_CHAT_SESSION_ID_PREFIX.

(** The time and the random part of a new id are arguments. *)
Definition createDraftChatSessionId (timePart randomPart : string) : string :=
  DRAFT_CHAT_SESSION_ID_PREFIX +:+ timePart +:+ "-" +:+ randomPart.
Definition createDraftChatSession (projectId agentType : string) (nowIso draftId : option string) (now timePart randomPart : string) : DraftChatSession :=
  let createdAt := str_or (default ""%string nowIso) now in
  let normalizedAgentType := trim agentType in
  {| draft_draftId := str_or (default ""%string draftId) (createDraftChatSessionId timePart randomPart); draft_projectId := projectId;
     draft_agentType := normalizedAgentType; draft_title := "New " +:+ str_or normalizedAgentType "agent" +:+ " session";
     draft_createdAt := createdAt; draft_updatedAt := createdAt; draft_status := DraftCreating; draft_errorMessage := "" |}.
Definition with_draft_status (draft : DraftChatSession) (status : DraftChatSessionStatus) (errorMessage now : string) : DraftChatSession :=
  {| draft_draftId := draft_draftId draft; draft_projectId := draft_projectId draft; draft_agentType := draft_agentType draft;
     draft_title := draft_title draft; draft_createdAt := draft_createdAt draft; draft_updatedAt := now; draft_status := status;
     draft_errorMessage := errorMessage |}.
Definition markDraftChatSessionSending (draft : DraftChatSession) (now : string) : DraftChatSession := with_draft_status draft SendingFirstPrompt "" now.
Definition markDraftChatSessionFailed (draft : DraftChatSession) (errorMessage now : string) : DraftChatSession :=
  with_draft_status draft DraftFailed (normalizedDraftErrorMessage errorMessage) now.
Definition canStartDraftChatSessionCreate (draft : option DraftChatSession) : bool :=
  match draft with Some d => negb (bool_decide (draft_status d = DraftFailed)) | None => false end.
Definition removeDraftChatSession (drafts : list DraftChatSession) (draftId : string) : list DraftChatSession :=
  bfilter (fun d => negb (bool_decide (draft_draftId d = draftId))) drafts.
Definition findDraftChatSessionForCreatedSession (drafts : list DraftChatSession) (createRequestId : option string) : option DraftChatSession :=
  let id := trim (default ""%string createRequestId) in
  if negb (nonempty id) then None else find (fun d => bool_decide (draft_draftId d = id)) drafts.
Definition resolveDraftReplacementSelection (currentSelectedKey : option ChatSessionKey) (draft : DraftChatSession) (realSessionId : string) : option ChatSessionKey :=
  match currentSelectedKey with
  | Some k =>
    if bool_decide (key_projectId k = draft_projectId draft) && bool_decide (key_sessionId k = draft_draftId draft)
    then Some {| key_projectId := draft_projectId draft; key_sessionId := realSessionId |} else currentSelectedKey
  | None => None
  end.

(** * Titles *)

Definition normalizedText (v : value) : string := match v with VStr s => trim s | _ => "" end.

Definition resolveChatSessionTitle `{JSON} (rawTitle : string) : string :=
  let legacyTitle := normalizedText (VStr rawTitle) in
  if negb (startsWith legacyTitle "{") then legacyTitle else
  match JSON_parse legacyTitle with
  | Some (VObj parsed) =>
    let first := normalizedText (prop parsed "first") in
    let last := normalizedText (prop parsed "last") in
    let manual := normalizedText (prop parsed "manual") in
    str_or manual (str_or first (str_or last legacyTitle))
  | _ => legacyTitle
  end.

(** * Actions of a session *)

Inductive ChatSessionActionKind := StatusAction | CompactAction | FastAction.
#[export] Instance ChatSessionActionKind_dec : EqDecision ChatSessionActionKind.
Proof. solve_decision. Defined.
Inductive slash_kind := CommandOption | SkillOption.
Inductive slash_behavior := InvokeOption | InsertOption.
Record ChatSessionSlashOption := {
  so_name : string; so_description : string; so_kind : slash_kind; so_behavior : slash_behavior; so_icon : string; so_enabled : bool;
  so_disabledReason : option string; so_action : option ChatSessionActionKind; so_checked : option bool
}.
Definition kind_text (k : slash_kind) : string := match k with CommandOption => "command" | SkillOption => "skill" end.

Definition unsupportedReason : string := "Current Agent does not support this action.".

Definition action_option (name description icon : string) (action : ChatSessionActionKind) (cap : option RegistrySessionActionCapability) : ChatSessionSlashOption :=
  let supported := match cap with Some c => cap_supported c | None => false end in
  {| so_name := name; so_description := description; so_kind := CommandOption; so_behavior := InvokeOption; so_icon := icon; so_enabled := supported;
     so_disabledReason := if supported then None
                          else Some (str_or (default ""%string (match cap with Some c => cap_reason c | None => None end)) unsupportedReason);
     so_action := Some action; so_checked := None |}.

(** A middle dot, and the multiplication sign of the speed. *)
Definition middle_dot : string := unchars [Ascii.ascii_of_nat 183].
Definition fast_option (option : RegistrySessionConfigOption) : ChatSessionSlashOption :=
  let checked := bool_decide (co_currentValue option = Some "on"%string) in
  {| so_name := "/fast";
     so_description := if checked then "On " +:+ middle_dot +:+ " 1.5x speed, increased usage" else "Off " +:+ middle_dot +:+ " Standard speed";
     so_kind := CommandOption; so_behavior := InvokeOption; so_icon := "codicon-zap"; so_enabled := true; so_disabledReason := None;
     so_action := Some FastAction; so_checked := Some checked |}.

(** [s.trim().replace(/^\/+/, '')]. *)
Definition leading_slashes : regex := Cat (Bol false) (many1 (one "/")).
Definition without_slashes (s : string) : string := replace_first leading_slashes (by_string "") (trim s).

Definition reserved_skill (key : string) : bool :=
  bool_decide (key = "status"%string) || bool_decide (key = "compact"%string) || bool_decide (key = "fast"%string).
Definition dedupe_skills (skills : list string) : list (string * string) :=
  foldl (fun (deduped : list (string * string)) (rawSkill : string) =>
    let skill := without_slashes rawSkill in
    if negb (nonempty skill) then deduped else
    let key := toLowerCase skill in
    match dget deduped key with
    | Some _ => deduped
    | None => if reserved_skill key then deduped else dset deduped key skill
    end) [] skills.
Definition skill_option (skill : string) : ChatSessionSlashOption :=
  {| so_name := "/" +:+ skill; so_description := "Agent skill"; so_kind := SkillOption; so_behavior := InsertOption; so_icon := "codicon-wand";
     so_enabled := true; so_disabledReason := None; so_action := None; so_checked := None |}.

Definition buildChatSessionActionOptions `{C : Collation} (skills : list string) (capabilities : option RegistrySessionActionCapabilities)
    (configOptions : list RegistrySessionConfigOption) : list ChatSessionSlashOption :=
  let compact := match capabilities with Some c => Some (caps_compact c) | None => None end in
  let status := match capabilities with Some c => Some (caps_status c) | None => None end in
  let fastMode := find (fun o => bool_decide (co_id o = "fast_mode"%string)) configOptions in
  let fixed := [action_option "/compact" "Compact this session's context" "codicon-circle-large-outline" CompactAction compact;
                action_option "/status" "Show session ID, context usage, and rate limits" "codicon-dashboard" StatusAction status] ++
               option_list (match fastMode with Some o => Some (fast_option o) | None => None end) in
  fixed ++ map skill_option (js_sort localeCompareBase (map snd (dedupe_skills skills))).

Definition filterChatSessionActionOptions (options : list ChatSessionSlashOption) (query : option string) : list ChatSessionSlashOption :=
  match query with
  | None => []
  | Some q =>
    let normalized := toLowerCase (without_slashes q) in
    if negb (nonempty normalized) then options
    else bfilter (fun o => includes (toLowerCase (so_name o)) normalized || includes (toLowerCase (so_description o)) normalized ||
                           includes (kind_text (so_kind o)) normalized) options
  end.

Inductive StandaloneSessionActionResolution := StandaloneAction (kind : ChatSessionActionKind) | InvalidAction (command : string).

Definition standalone_re : regex :=
  seq_of [Bol false; Group 1 (Alt (text_i "/compact") (Alt (text_i "/status") (text_i "/fast"))); Alt space (Eol false)].
Definition action_of (name : string) : option ChatSessionActionKind :=
  if bool_decide (name = "compact"%string) then Some CompactAction
  else if bool_decide (name = "status"%string) then Some StatusAction
  else if bool_decide (name = "fast"%string) then Some FastAction else None.

(** The command that matched is one of the three, so the cast of its name is right. *)
Definition resolveStandaloneSessionAction (s : string) (attachmentCount : Z) : option StandaloneSessionActionResolution :=
  let trimmed := trim s in
  match search_from (chars trimmed) standalone_re 0 with
  | None => None
  | Some (_, _, c) =>
    let command := toLowerCase (capture trimmed 1 c) in
    if negb (bool_decide (toLowerCase trimmed = command)) || (0 <? attachmentCount) then Some (InvalidAction command)
    else StandaloneAction <$> action_of (slice_from 1 command)
  end.

Definition removeActiveSlashQuery (s : string) (cursor : Z) : string * Z :=
  match resolveChatSlashQuery s cursor with
  | None => (s, cursor)
  | Some q => (slice 0 (Z.to_nat (q_start q)) s +:+ slice_from (Z.to_nat (q_end q)) s, q_start q)
  end.

Example standalone_samples :
  map (fun s => resolveStandaloneSessionAction s 0) [" /Compact "; "/status"; "/fast now"; "/faster"; "say /fast"]%string =
  [Some (StandaloneAction CompactAction); Some (StandaloneAction StatusAction); Some (InvalidAction "/fast"); None; None].
Proof. vm_compute. reflexivity. Qed.

(** * Highlights *)

Lemma is_prefix_app p l : is_prefix p l = true <-> exists k, l = p ++ k.
Proof.
  revert l. induction p as [|a p IH]; intros l; simpl; [split; [by exists l|done]|]. destruct l as [|b l]; [split; [done|by intros [k ?]]|].
  destruct (Ascii.eqb_spec a b) as [->|Hne]; simpl; [|split; [done|intros [k [= -> _]]; done]].
  rewrite IH. split; intros [k Hk]; exists k; [by rewrite Hk|by injection Hk].
Qed.

(** [indexOf] finds the first place. *)
Lemma index_of_Some p l i j : index_of p l i = Some j -> (i <= j)%nat /\ is_prefix p (drop (j - i) l) = true /\
  forall k, (i <= k < j)%nat -> is_prefix p (drop (k - i) l) = false.
Proof.
  revert i. induction l as [|x l IH]; intros i; simpl; destruct (is_prefix p _) eqn:E.
  - intros [= <-]. rewrite Nat.sub_diag. split_and!; [lia|done|lia].
  - done.
  - intros [= <-]. rewrite Nat.sub_diag. split_and!; [lia|done|lia].
  - intros (H1 & H2 & H3)%IH. split_and!; [lia| |].
    + by replace (j - i)%nat with (S (j - S i)) by lia.
    + intros k Hk. destruct (decide (k = i)) as [->|]; [by rewrite Nat.sub_diag|].
      replace (k - i)%nat with (S (k - S i)) by lia. apply H3. lia.
Qed.

Lemma index_of_None p l i : index_of p l i = None -> forall k, is_prefix p (drop k l) = false.
Proof.
  revert i. induction l as [|x l IH]; intros i; simpl; destruct (is_prefix p _) eqn:E; try done.
  - intros _ k. by rewrite drop_nil.
  - intros H [|k]; [done|]. by apply (IH (S i)).
Qed.

Lemma indexOf_Some s p from j : indexOf s p from = Some j -> (from <= j)%nat /\ is_prefix (chars p) (drop j (chars s)) = true /\
  forall k, (from <= k < j)%nat -> is_prefix (chars p) (drop k (chars s)) = false.
Proof.
  intros (H1 & H2 & H3)%index_of_Some. rewrite drop_drop in H2. replace (from + (j - from))%nat with j in H2 by lia. split_and!; [done|done|].
  intros k Hk. specialize (H3 k Hk). rewrite drop_drop in H3. by replace (from + (k - from))%nat with k in H3 by lia.
Qed.

Lemma indexOf_None s p from : indexOf s p from = None -> forall k, (from <= k)%nat -> is_prefix (chars p) (drop k (chars s)) = false.
Proof. intros H k Hk. pose proof (index_of_None _ _ _ H (k - from)) as Hn. rewrite drop_drop in Hn. by replace (from + (k - from))%nat with k in Hn by lia. Qed.

Lemma lower_chars s : chars (toLowerCase s) = map lower_ascii (chars s).
Proof. apply chars_unchars. Qed.
Lemma lower_length s : String.length (toLowerCase s) = String.length s.
Proof. rewrite <- !chars_length, lower_chars. apply length_map. Qed.

(** The text holds the query nowhere. *)
Definition free_of (query text : list ascii) : Prop := forall k, is_prefix query (drop k text) = false.

Lemma free_of_slice query l a b : (forall k, (a <= k < b)%nat -> is_prefix query (drop k l) = false) -> query <> [] ->
  free_of query (take (b - a) (drop a l)).
Proof.
  intros H Hq k. destruct (is_prefix query (drop k (take (b - a) (drop a l)))) eqn:E; [|done]. exfalso. apply is_prefix_app in E as [t Ht].
  destruct (decide (a + k < b)%nat) as [Hlt|Hge].
  - specialize (H (a + k)%nat ltac:(lia)). rewrite skipn_firstn_comm, drop_drop in Ht.
    assert (Hp : is_prefix query (drop (a + k) l) = true); [|congruence]. apply is_prefix_app.
    exists (t ++ drop (b - a - k) (drop (a + k) l)). rewrite app_assoc, <- Ht. by rewrite take_drop.
  - rewrite drop_ge in Ht; [|rewrite length_take; lia]. by destruct query.
Qed.

Definition segment_ok (query : string) (s : SessionSearchHighlightSegment) : Prop :=
  seg_text s <> ""%string /\
  if seg_match s then toLowerCase (seg_text s) = query else free_of (chars query) (chars (toLowerCase (seg_text s))).

Lemma chars_slice a b s : chars (slice a b s) = take (b - a) (drop a (chars s)).
Proof. apply chars_unchars. Qed.
Lemma chars_slice_from a s : chars (slice_from a s) = drop a (chars s).
Proof. apply chars_unchars. Qed.

Lemma highlight_loop_spec title query : query <> ""%string -> forall fuel cursor, (String.length title - cursor < fuel)%nat ->
  let segs := highlight_loop title (toLowerCase title) query fuel cursor in
  concat (map (fun s => chars (seg_text s)) segs) = drop cursor (chars title) /\ Forall (segment_ok query) segs.
Proof.
  intros Hq. assert (Hqc : chars query <> []) by by destruct query. induction fuel as [|fuel IH]; intros cursor Hf; [lia|]. cbn zeta. simpl.
  destruct (Nat.leb_spec (String.length title) cursor) as [Hle|Hlt].
  { split; [|done]. simpl. by rewrite drop_ge by by rewrite chars_length. }
  destruct (indexOf (toLowerCase title) query cursor) as [j|] eqn:E.
  - apply indexOf_Some in E as (H1 & H2 & H3). rewrite lower_chars in H2. apply is_prefix_app in H2 as [t Ht].
    set (n := String.length query) in *. assert (Hn : length (chars query) = n) by apply chars_length.
    assert (Hj : (j + n <= String.length title)%nat).
    { apply (f_equal length) in Ht. rewrite length_drop, length_map, length_app, Hn, chars_length in Ht. destruct n; [by destruct query|lia]. }
    assert (Hpos : (0 < n)%nat) by (unfold n; destruct query; simpl; [done|lia]).
    destruct (IH (j + n)%nat ltac:(lia)) as [Hc Ho]. fold n. rewrite map_app, concat_app. cbn [map concat seg_text].
    assert (Hm : toLowerCase (slice j (j + n) title) = query).
    { apply chars_inj. rewrite lower_chars, chars_slice, <- firstn_map, <- skipn_map, Ht. apply take_app_length'. lia. }
    split.
    + rewrite Hc, chars_slice. rewrite <- (take_drop (j - cursor) (drop cursor (chars title))), drop_drop. f_equal.
      * destruct (Nat.ltb_spec cursor j) as [|Hge]; simpl; [rewrite chars_slice; apply app_nil_r|].
        by replace (j - cursor)%nat with 0%nat by lia.
      * replace (cursor + (j - cursor))%nat with j by lia. rewrite <- (take_drop (j + n - j) (drop j (chars title))) at 2.
        f_equal. rewrite drop_drop. f_equal. lia.
    + apply Forall_app. split.
      * destruct (Nat.ltb_spec cursor j) as [Hcj|Hge]; [|done]. apply Forall_singleton. split; simpl.
        -- intros E. apply (f_equal (fun s => length (chars s))) in E. rewrite chars_slice, length_take, length_drop, chars_length in E. simpl in E. lia.
        -- rewrite lower_chars, chars_slice, <- firstn_map, <- skipn_map, <- lower_chars. by apply free_of_slice.
      * constructor; [|done]. split; simpl; [|done]. intros E. rewrite E in Hm. by rewrite <- Hm in Hq.
  - assert (Hn := indexOf_None _ _ _ E). simpl. rewrite app_nil_r, chars_slice_from. split; [done|]. apply Forall_singleton. split; simpl.
    + intros E'. apply (f_equal (fun s => length (chars s))) in E'. rewrite chars_slice_from, length_drop, chars_length in E'. simpl in E'. lia.
    + intros k. rewrite lower_chars, chars_slice_from, <- skipn_map, <- lower_chars, drop_drop. apply Hn. lia.
Qed.

(** The highlighted title: the segments are the title; what is highlighted is the query,
    whatever its case, and nothing else in the title is. *)
Lemma search_highlight_exact title query :
  let segs := splitSessionSearchTitleHighlight title query in
  concat (map (fun s => chars (seg_text s)) segs) = chars title /\
  (toLowerCase (trim query) <> ""%string -> Forall (segment_ok (toLowerCase (trim query))) segs).
Proof.
  cbn zeta. unfold splitSessionSearchTitleHighlight. destruct (nonempty title) eqn:Et; cbn [negb orb].
  2: { apply nonempty_false in Et as ->. split; [done|constructor]. }
  destruct (nonempty (toLowerCase (trim query))) eqn:Eq; cbn [negb].
  - apply nonempty_true in Eq. destruct (highlight_loop_spec title _ Eq (S (String.length title)) 0 ltac:(lia)) as [H1 H2]. cbn zeta in H1, H2.
    rewrite bfilter_all; [done|]. eapply Forall_impl; [exact H2|]. intros s [Hs _]. simpl. by apply nonempty_true.
  - apply nonempty_false in Eq. split; [simpl; apply app_nil_r|done].
Qed.

(** * Folding, archiving, remembering *)

Lemma bfilter_split_perm {A} (p : A -> bool) l : bfilter (fun x => negb (p x)) l ++ bfilter p l ≡ₚ l.
Proof. induction l as [|x l IH]; simpl; [done|]. destruct (p x); simpl; [|by rewrite IH]. by rewrite <- Permutation_middle, IH. Qed.

(** No session is lost when older ones are folded away: only older ones are hidden, and
    only while at least the minimum stays visible. *)
Lemma older_sessions_split `{Dates} sessions nowMs days expanded :
  let r := splitOlderProjectSessions sessions nowMs days expanded in
  older_visibleSessions r ++ older_hiddenOlderSessions r ≡ₚ sessions /\
  older_hiddenOlderCount r = Z.of_nat (length (older_hiddenOlderSessions r)) /\
  Forall (fun s => isOlderThanDays (sess_updatedAt s) nowMs (default OLDER_SESSION_DAYS days) = true) (older_hiddenOlderSessions r) /\
  (older_hiddenOlderSessions r <> [] -> expanded = false /\ older_showToggle r = true /\
     MIN_COLLAPSED_VISIBLE_SESSIONS <= Z.of_nat (length (older_visibleSessions r))).
Proof.
  cbn zeta. unfold splitOlderProjectSessions. set (older := bfilter _ sessions). set (recent := bfilter _ sessions).
  assert (Hp : recent ++ older ≡ₚ sessions) by apply bfilter_split_perm.
  assert (Ho : Forall (fun s => isOlderThanDays (sess_updatedAt s) nowMs (default OLDER_SESSION_DAYS days) = true) older).
  { apply Forall_forall. intros s Hs. by apply elem_of_bfilter in Hs as [_ ?]. }
  destruct (length older <=? 1)%nat; [simpl; rewrite app_nil_r; by split_and!|].
  destruct expanded; [simpl; rewrite app_nil_r; by split_and!|].
  set (n := Z.to_nat _). destruct (drop n older) as [|x l] eqn:E; cbn -[Z.of_nat].
  - rewrite app_nil_r. split_and!; [|done..]. rewrite <- (take_drop n older), E, app_nil_r in Hp. exact Hp.
  - split_and!; [|done| |intros _; split_and!; [done|done|]].
    + rewrite <- app_assoc, <- E, take_drop. exact Hp.
    + rewrite <- E. by apply Forall_drop.
    + assert (n <= length older)%nat by (apply (f_equal length) in E; rewrite length_drop in E; simpl in E; lia).
      rewrite length_app, length_take. unfold MIN_COLLAPSED_VISIBLE_SESSIONS in *. lia.
Qed.

(** A batch accounts for every result. *)
Lemma archive_batch_accounted p results : let p' := foldl nextArchiveBatchProgress p results in
  abp_total p' = abp_total p /\ abp_completed p' = abp_completed p + Z.of_nat (length results) /\
  abp_archived p' + abp_failed p' = abp_archived p + abp_failed p + Z.of_nat (length results) /\
  Z.of_nat (length (abp_failures p')) - abp_failed p' = Z.of_nat (length (abp_failures p)) - abp_failed p /\
  map abf_sessionId (abp_failures p') = map abf_sessionId (abp_failures p) ++
    map (fun r => sess_sessionId (ac_session (abr_candidate r))) (bfilter (fun r => negb (abr_ok r)) results).
Proof.
  cbn zeta. revert p. induction results as [|r results IH]; intros p; simpl; [rewrite app_nil_r; split_and!; first [lia|done]|].
  destruct (IH (nextArchiveBatchProgress p r)) as (H1 & H2 & H3 & H4 & H5). rewrite H1, H2, H3, H4, H5. simpl.
  destruct (abr_ok r); simpl; rewrite ?length_app, ?map_app, <- ?app_assoc; simpl; split_and!; first [lia|done].
Qed.

Lemma expanded_only_true state : Forall (fun e => e.2 = true) (expanded_only state).
Proof.
  unfold expanded_only. assert (H : forall d, Forall (fun e => e.2 = true) d ->
    Forall (fun e => e.2 = true) (foldl (fun (out : list (string * bool)) (e : string * bool) => if e.2 then dset out e.1 true else out) d state)); [|by apply H].
  induction state as [|e l IH]; intros d Hd; simpl; [done|]. apply IH. destruct e.2; [by apply dset_Forall|done].
Qed.

Lemma expanded_only_NoDup state : NoDup (dkeys (expanded_only state)).
Proof.
  unfold expanded_only. assert (H : forall d, NoDup (dkeys d) ->
    NoDup (dkeys (foldl (fun (out : list (string * bool)) (e : string * bool) => if e.2 then dset out e.1 true else out) d state))); [|apply H; constructor].
  induction state as [|e l IH]; intros d Hd; simpl; [done|]. apply IH. destruct e.2; [by apply dset_NoDup|done].
Qed.

Lemma true_entries_id (d : list (string * bool)) : NoDup (map fst d) -> Forall (fun e => e.2 = true) d ->
  true_entries (map (fun e => (e.1, VBool e.2)) d) = d.
Proof.
  intros Hn Ht. unfold true_entries. rewrite <- (dict_of_id d Hn) at 2. unfold dict_of. generalize (@nil (string * bool)).
  induction Ht as [|[k b] d Hb Ht IH]; intros o; [done|]. simpl in *. subst b. rewrite NoDup_cons in Hn. apply IH, Hn.
Qed.

(** What is expanded is read back as it was written. *)
Lemma expanded_state_roundtrip items state :
  readOlderSessionsExpanded (H:=js_JSON) (writeOlderSessionsExpanded (H:=js_JSON) (Some items) state) = expanded_only state.
Proof.
  unfold readOlderSessionsExpanded, writeOlderSessionsExpanded. unfold StorageLike in *. rewrite (lookup_insert_eq (M:=gmap string) items).
  set (v := VObj _). assert (Hd : json_data v = true).
  { unfold v. cbn [json_data]. apply andb_true_iff. split.
    - apply bool_decide_eq_true. rewrite map_map. apply expanded_only_NoDup.
    - rewrite forallb_forall. intros x Hx%list_elem_of_In. apply elem_of_map in Hx as (e & -> & _). done. }
  pose proof (json_roundtrip (J:=js_JSON) v Hd) as Hr.
  destruct (nonempty (@JSON_stringify js_JSON v)) eqn:E; cbn [negb].
  - rewrite Hr. apply true_entries_id; [apply expanded_only_NoDup|apply expanded_only_true].
  - apply nonempty_false in E. rewrite E in Hr. done.
Qed.
