(* ===== verification/ChatDisplayIndex.v ===== *)
(** The rows of the transcript, [chat/turns/chatDisplayIndex.ts]: which messages are shown, in
    which order, and which row a turn is scrolled to.  The height estimated for a row until
    it is measured is left out. *)

From S2P Require Import Prelude RegistryTypes ChatTurnView.
Open Scope Z_scope.

Inductive display_kind := TurnItem | PendingItem | QueuedItem.
#[export] Instance display_kind_dec : EqDecision display_kind.
Proof. solve_decision. Defined.
Record ChatDisplayIndexItem := { di_kind : display_kind; di_key : string; di_turnIndex : Z; di_sourceIndex : Z }.

(** The options: [opt_hideToolCalls] is false where it is absent, [opt_promptStatus] gives
    [None] for [null]. *)
Record ChatDisplayIndexOptions := {
  opt_shouldRender : option (RegistryChatMessage -> option ChatPromptStatus -> bool); opt_hideToolCalls : bool;
  opt_promptStatus : RegistryChatMessage -> option ChatPromptStatus; opt_pendingKey : option string; opt_queuedKeys : list string
}.

Definition displayKey (message : RegistryChatMessage) : string :=
  msg_sessionId message +:+ ":" +:+ pretty (positiveTurnIndex message) +:+ ":" +:+ msg_method message.

Definition sessionOperationId (message : RegistryChatMessage) : string :=
  if negb (has_method "session_operation" message) then ""
  else match prop (msg_param message) "operationId" with VStr s => trim s | _ => "" end.

Definition isToolCallMethod (method : string) : bool := bool_decide (method = "tool_call"%string).

Definition source : Type := RegistryChatMessage * Z.
Definition source_turn (item : source) : Z := positiveTurnIndex item.1.

Definition sorted_sources (messages : list RegistryChatMessage) : list source :=
  js_sort (by_key source_turn) (bfilter (fun item => 0 <? source_turn item) (imap (fun i m => (m, Z.of_nat i)) messages)).

Definition latestOperationSourceIndex (sorted : list source) : list (string * Z) :=
  foldl (fun (latest : list (string * Z)) (item : source) =>
    let operationId := sessionOperationId item.1 in if nonempty operationId then dset latest operationId item.2 else latest) [] sorted.

Section options.
Context (options : ChatDisplayIndexOptions).

(** The [continue]s of the loop. *)
Definition displayed (latest : list (string * Z)) (item : source) : bool :=
  if has_method "agent_plan" item.1 then false
  else if opt_hideToolCalls options && isToolCallMethod (msg_method item.1) then false
  else
    let operationId := sessionOperationId item.1 in
    if nonempty operationId && negb (bool_decide (dget latest operationId = Some item.2)) then false
    else
      match opt_shouldRender options with
      | Some shouldRender => nonempty operationId || shouldRender item.1 (opt_promptStatus options item.1)
      | None => true
      end.

Definition turn_item (item : source) : ChatDisplayIndexItem :=
  {| di_kind := TurnItem; di_key := displayKey item.1; di_turnIndex := positiveTurnIndex item.1; di_sourceIndex := item.2 |}.
Definition keyed_item (kind : display_kind) (raw : string) : option ChatDisplayIndexItem :=
  let key := trim raw in
  if nonempty key then Some {| di_kind := kind; di_key := key; di_turnIndex := 0; di_sourceIndex := -1 |} else None.

Definition turn_items (messages : list RegistryChatMessage) : list ChatDisplayIndexItem :=
  let sorted := sorted_sources messages in
  map turn_item (bfilter (displayed (latestOperationSourceIndex sorted)) sorted).

Definition buildChatDisplayIndex (messages : list RegistryChatMessage) : list ChatDisplayIndexItem :=
  turn_items messages ++
  option_list (match opt_pendingKey options with Some k => keyed_item PendingItem k | None => None end) ++
  omap (keyed_item QueuedItem) (opt_queuedKeys options).
End options.

Definition resolveChatDisplayScrollIndex (items : list ChatDisplayIndexItem) (turnIndex : Z) : option nat :=
  let targetTurnIndex := Z.max 0 turnIndex in
  if (targetTurnIndex <=? 0) || bool_decide (items = []) then None else
  match findIndex (fun item => di_turnIndex item =? targetTurnIndex) items with
  | Some exactIndex => Some exactIndex
  | None =>
    match findIndex (fun item => targetTurnIndex <? di_turnIndex item) items with
    | Some followingIndex => Some followingIndex
    | None => Some (length items - 1)%nat
    end
  end.

(** * The rows *)

Definition has_operation (op : string) (item : source) : bool := bool_decide (sessionOperationId item.1 = op).

Lemma latest_spec sorted op : op <> ""%string ->
  dget (latestOperationSourceIndex sorted) op = (fun item => item.2) <$> last (bfilter (has_operation op) sorted).
Proof.
  intros Hop. unfold latestOperationSourceIndex. induction sorted as [|x l IH] using rev_ind; [done|].
  rewrite foldl_app, bfilter_app. cbn [foldl]. cbv zeta. unfold has_operation at 2. cbn [List.filter].
  case_bool_decide as E.
  - rewrite last_snoc, E, (proj2 (nonempty_true op) Hop). apply dget_dset_eq.
  - rewrite app_nil_r, <- IH. destruct (nonempty (sessionOperationId x.1)); [|done]. apply dget_dset_ne. done.
Qed.

Lemma source_lookup messages item : item ∈ imap (fun i (m : RegistryChatMessage) => (m, Z.of_nat i)) messages <->
  exists i, messages !! i = Some item.1 /\ item.2 = Z.of_nat i.
Proof.
  split.
  - intros [i Hi]%list_elem_of_lookup. rewrite list_lookup_imap in Hi. destruct (messages !! i) eqn:E; [|done]. simpl in Hi. simplify_eq. by exists i.
  - intros (i & Hi & E). apply list_elem_of_lookup. exists i. rewrite list_lookup_imap, Hi. simpl. destruct item. simpl in *. by subst.
Qed.

Lemma sources_NoDup messages : NoDup (map snd (imap (fun i (m : RegistryChatMessage) => (m, Z.of_nat i)) messages)).
Proof.
  apply NoDup_alt. intros i j x Hi Hj. rewrite list_lookup_fmap, list_lookup_imap in Hi, Hj.
  destruct (messages !! i); [|done]. destruct (messages !! j); [|done]. simpl in *. simplify_eq. lia.
Qed.

Lemma elem_of_sorted messages item : item ∈ sorted_sources messages <-> (exists i, messages !! i = Some item.1 /\ item.2 = Z.of_nat i) /\ 0 < source_turn item.
Proof. unfold sorted_sources. rewrite elem_of_js_sort, elem_of_bfilter, source_lookup, Z.ltb_lt. done. Qed.

Lemma sorted_sources_NoDup messages : NoDup (map snd (sorted_sources messages)).
Proof.
  assert (Hp : map snd (sorted_sources messages) ≡ₚ map snd (bfilter (fun item => 0 <? source_turn item) (imap (fun i (m : RegistryChatMessage) => (m, Z.of_nat i)) messages)))
    by apply Permutation_map, js_sort_perm.
  rewrite Hp. apply NoDup_map_bfilter, sources_NoDup.
Qed.

Lemma bfilter_sorted {A} (R : A -> A -> Prop) (p : A -> bool) l : StronglySorted R l -> StronglySorted R (bfilter p l).
Proof.
  induction 1 as [|x l H IH Hx]; simpl; [constructor|]. destruct (p x); [|done]. constructor; [done|].
  rewrite Forall_forall in *. intros y [Hy _]%elem_of_bfilter. auto.
Qed.

Lemma turn_items_sorted options messages : StronglySorted (fun a b => di_turnIndex a <= di_turnIndex b) (turn_items options messages).
Proof.
  unfold turn_items. cbv zeta. pose proof (by_key_sorted source_turn (bfilter (fun item => 0 <? source_turn item)
    (imap (fun i (m : RegistryChatMessage) => (m, Z.of_nat i)) messages))) as Hs. fold (sorted_sources messages) in Hs.
  apply (bfilter_sorted _ (displayed options (latestOperationSourceIndex (sorted_sources messages)))) in Hs.
  induction Hs as [|x l H IH Hx]; simpl; [constructor|]. constructor; [done|]. apply Forall_map. exact Hx.
Qed.

(** The latest message of an operation is shown, and no other of it. *)
Lemma operation_displayed options messages op : op <> ""%string ->
  forall item, item ∈ sorted_sources messages -> sessionOperationId item.1 = op ->
  (displayed options (latestOperationSourceIndex (sorted_sources messages)) item = true <->
   last (bfilter (has_operation op) (sorted_sources messages)) = Some item).
Proof.
  intros Hop item Hin Ho. unfold displayed. cbv zeta. rewrite Ho, (proj2 (nonempty_true op) Hop). cbn [andb orb].
  assert (Hm : has_method "session_operation" item.1 = true).
  { unfold sessionOperationId in Ho. destruct (has_method "session_operation" item.1); [done|]. by subst. }
  unfold has_method in *. apply bool_decide_eq_true in Hm. unfold isToolCallMethod. rewrite Hm.
  rewrite !bool_decide_false by done. rewrite andb_false_r. rewrite latest_spec by done.
  destruct (last (bfilter (has_operation op) (sorted_sources messages))) as [x|] eqn:El; simpl.
  - assert (Hx : x ∈ sorted_sources messages).
    { apply last_Some in El as [l El]. assert (H : x ∈ bfilter (has_operation op) (sorted_sources messages)) by (rewrite El; apply elem_of_app; right; by left).
      by apply elem_of_bfilter in H as [? _]. }
    case_bool_decide as E; cbn [negb]; split; try done.
    + intros _. f_equal. eapply (NoDup_map_inj snd); [apply sorted_sources_NoDup|done|done|]. congruence.
    + by destruct (opt_shouldRender options).
    + intros [= ->]. done.
  - by split.
Qed.

Lemma keyed_item_rest kind raw item : keyed_item kind raw = Some item -> kind <> TurnItem -> di_kind item <> TurnItem /\ di_turnIndex item = 0 /\ di_key item <> ""%string.
Proof.
  unfold keyed_item. cbv zeta. destruct (nonempty (trim raw)) eqn:E; [|done]. intros [= <-] Hk. simpl. split_and!; [done|done|]. by apply nonempty_true in E.
Qed.

Lemma display_rest options messages : exists rest, buildChatDisplayIndex options messages = turn_items options messages ++ rest /\
  Forall (fun item => di_kind item <> TurnItem /\ di_turnIndex item = 0 /\ di_key item <> ""%string) rest.
Proof.
  eexists. split; [reflexivity|]. apply Forall_app. split.
  - destruct (opt_pendingKey options) as [k|]; [|done]. destruct (keyed_item PendingItem k) eqn:E; [|done]. apply Forall_singleton. by apply (keyed_item_rest _ _ _ E).
  - apply Forall_forall. intros item (raw & _ & E)%list_elem_of_omap. by apply (keyed_item_rest _ _ _ E).
Qed.

Lemma elem_of_turn_items options messages item : item ∈ turn_items options messages <-> exists i m, messages !! i = Some m /\ 0 < positiveTurnIndex m /\
  displayed options (latestOperationSourceIndex (sorted_sources messages)) (m, Z.of_nat i) = true /\ item = turn_item (m, Z.of_nat i).
Proof.
  unfold turn_items. cbv zeta. rewrite elem_of_map. split.
  - intros ([m n] & -> & [Hs Hd]%elem_of_bfilter). apply elem_of_sorted in Hs as [(i & Hi & Hn) Ht]. simpl in *. subst n. by exists i, m.
  - intros (i & m & Hi & Ht & Hd & ->). exists (m, Z.of_nat i). split; [done|]. apply elem_of_bfilter. split; [|done]. apply elem_of_sorted.
    split; [by exists i|done].
Qed.

(** The row of an operation. *)
Lemma operation_row options messages i m : messages !! i = Some m -> 0 < positiveTurnIndex m -> sessionOperationId m <> ""%string ->
  exists j m', messages !! j = Some m' /\ sessionOperationId m' = sessionOperationId m /\ 0 < positiveTurnIndex m' /\
    forall k m'', messages !! k = Some m'' -> 0 < positiveTurnIndex m'' -> sessionOperationId m'' = sessionOperationId m ->
      (displayed options (latestOperationSourceIndex (sorted_sources messages)) (m'', Z.of_nat k) = true <-> k = j).
Proof.
  intros Hi Ht Ho. set (op := sessionOperationId m) in *. set (sorted := sorted_sources messages).
  assert (Hin : (m, Z.of_nat i) ∈ bfilter (has_operation op) sorted).
  { apply elem_of_bfilter. split; [apply elem_of_sorted; split; [by exists i|done]|]. by apply bool_decide_eq_true. }
  destruct (last (bfilter (has_operation op) sorted)) as [[m' n]|] eqn:El; [|apply last_None in El; rewrite El in Hin; by apply elem_of_nil in Hin].
  assert (Hl : (m', n) ∈ bfilter (has_operation op) sorted).
  { apply last_Some in El as [l El]. rewrite El. apply elem_of_app. right. by left. }
  apply elem_of_bfilter in Hl as [Hl Hop]. apply bool_decide_eq_true in Hop. apply elem_of_sorted in Hl as [(j & Hj & Hn) Htj]. simpl in *. subst n.
  exists j, m'. split_and!; [done|done|done|]. intros k m'' Hk Hkt Hko.
  assert (Hk' : (m'', Z.of_nat k) ∈ sorted_sources messages) by (apply elem_of_sorted; split; [by exists k|done]).
  pose proof (operation_displayed options messages op Ho _ Hk' Hko) as Hd. fold sorted in Hd. rewrite El in Hd. rewrite Hd. split; [intros [= _ ?]; lia|]. intros ->. rewrite Hj in Hk. by injection Hk as ->.
Qed.

(** Where a turn is scrolled to: the first row at or after it, or else the last row. *)
Definition scroll_target (items : list ChatDisplayIndexItem) (target : Z) (k : nat) : Prop :=
  exists item, items !! k = Some item /\
    ((forall j x, items !! j = Some x -> target <= di_turnIndex x -> (k <= j)%nat) /\ target <= di_turnIndex item \/
     (forall x, x ∈ items -> di_turnIndex x < target) /\ S k = length items).

Lemma scroll_spec items rest target : StronglySorted (fun a b => di_turnIndex a <= di_turnIndex b) items -> Forall (fun item => di_turnIndex item = 0) rest ->
  match resolveChatDisplayScrollIndex (items ++ rest) target with
  | None => target <= 0 \/ items ++ rest = []
  | Some k => scroll_target (items ++ rest) target k
  end.
Proof.
  intros Hs Hr. unfold resolveChatDisplayScrollIndex. cbv zeta. set (all := items ++ rest).
  destruct (Z.leb_spec (Z.max 0 target) 0); cbn [orb]; [left; lia|]. case_bool_decide as Hne; [by right|].
  replace (Z.max 0 target) with target by lia.
  assert (Hpos : forall j x, all !! j = Some x -> 0 < di_turnIndex x -> items !! j = Some x).
  { intros j x Hj Hx. apply lookup_app_Some in Hj as [|[_ Hj]]; [done|]. apply list_elem_of_lookup_2 in Hj. rewrite Forall_forall in Hr. specialize (Hr _ Hj). lia. }
  destruct (findIndex (fun item => di_turnIndex item =? target) all) as [k|] eqn:E1.
  { apply findIndex_Some in E1 as (l1 & x & l2 & E & Hl & Hx & Hn). apply Z.eqb_eq in Hx. exists x.
    assert (Hk : all !! k = Some x) by (rewrite E, <- Hl; by apply list_lookup_middle). split; [done|]. left. split; [|lia].
    intros j y Hj Hy. destruct (Nat.le_gt_cases k j) as [|Hlt]; [done|exfalso].
    assert (Hn' : di_turnIndex y <> target).
    { rewrite Forall_forall in Hn. apply Z.eqb_neq, Hn. rewrite E, lookup_app_l in Hj by lia. by eapply list_elem_of_lookup_2. }
    pose proof (StronglySorted_lookup_lt _ _ _ _ _ _ Hs (Hpos _ _ Hj ltac:(lia)) (Hpos _ _ Hk ltac:(lia)) Hlt) as H'. simpl in H'. lia. }
  apply findIndex_None in E1. rewrite Forall_forall in E1.
  assert (Hneq : forall x, x ∈ all -> di_turnIndex x <> target) by (intros x Hx; apply Z.eqb_neq, E1, Hx).
  destruct (findIndex (fun item => target <? di_turnIndex item) all) as [k|] eqn:E2.
  { apply findIndex_Some in E2 as (l1 & x & l2 & E & Hl & Hx & Hn). apply Z.ltb_lt in Hx. exists x.
    assert (Hk : all !! k = Some x) by (rewrite E, <- Hl; by apply list_lookup_middle). split; [done|]. left. split; [|lia].
    intros j y Hj Hy. destruct (Nat.le_gt_cases k j) as [|Hlt]; [done|exfalso]. rewrite Forall_forall in Hn.
    pose proof (Hneq _ (list_elem_of_lookup_2 _ _ _ Hj)). rewrite E, lookup_app_l in Hj by lia.
    pose proof (Hn _ (list_elem_of_lookup_2 _ _ _ Hj)) as Hy'. apply Z.ltb_ge in Hy'. lia. }
  apply findIndex_None in E2. rewrite Forall_forall in E2.
  destruct (lookup_lt_is_Some_2 all (length all - 1)) as [x Hx]; [by destruct all; simpl in *; [|lia]|].
  exists x. split; [done|]. right. split; [|by destruct all; simpl in *; [|lia]].
  intros y Hy. pose proof (E2 _ Hy) as Hy'. apply Z.ltb_ge in Hy'. specialize (Hneq _ Hy). lia.
Qed.

(** The rows of the transcript: a row for every displayed message of a turn, once, in
    the order of turns, then the pending and queued prompts; of the messages of one
    operation the latest, and only it, has a row; and a turn is scrolled to the first row at
    or after it, or the last row. *)
Theorem display_index_spec options messages target :
  let items := buildChatDisplayIndex options messages in
  let latest := latestOperationSourceIndex (sorted_sources messages) in
  (exists rest, items = turn_items options messages ++ rest /\ Forall (fun item => di_kind item <> TurnItem /\ di_turnIndex item = 0 /\ di_key item <> ""%string) rest) /\
  StronglySorted (fun a b => di_turnIndex a <= di_turnIndex b) (turn_items options messages) /\
  NoDup (map di_sourceIndex (turn_items options messages)) /\
  (forall item, item ∈ turn_items options messages <-> exists i m, messages !! i = Some m /\ 0 < positiveTurnIndex m /\
     displayed options latest (m, Z.of_nat i) = true /\ item = turn_item (m, Z.of_nat i)) /\
  (forall i m, messages !! i = Some m -> 0 < positiveTurnIndex m -> sessionOperationId m <> ""%string ->
     exists j m', messages !! j = Some m' /\ sessionOperationId m' = sessionOperationId m /\ 0 < positiveTurnIndex m' /\
       forall k m'', messages !! k = Some m'' -> 0 < positiveTurnIndex m'' -> sessionOperationId m'' = sessionOperationId m ->
         (displayed options latest (m'', Z.of_nat k) = true <-> k = j)) /\
  match resolveChatDisplayScrollIndex items target with
  | None => target <= 0 \/ items = []
  | Some k => scroll_target items target k
  end.
Proof.
  cbn zeta. split_and!; [apply display_rest|apply turn_items_sorted| |apply elem_of_turn_items|apply operation_row|].
  - unfold turn_items. cbv zeta. rewrite map_map. apply (NoDup_map_bfilter (fun item : source => item.2)), sorted_sources_NoDup.
  - destruct (display_rest options messages) as (rest & -> & Hr). apply scroll_spec; [apply turn_items_sorted|].
    eapply Forall_impl; [exact Hr|]. by intros x (_ & ? & _).
Qed.

Definition sample_message (turn : Z) (method : string) (param : list (string * value)) : RegistryChatMessage :=
  {| msg_sessionId := "s"; msg_turnIndex := turn; msg_method := method; msg_param := param; msg_finished := true |}.
Example display_sample :
  map di_turnIndex (buildChatDisplayIndex {| opt_shouldRender := None; opt_hideToolCalls := true; opt_promptStatus := fun _ => None;
      opt_pendingKey := Some "p"%string; opt_queuedKeys := [" "]%string |}
    [sample_message 3 "agent_message_chunk" []; sample_message 1 "prompt_request" []; sample_message 2 "tool_call" [];
     sample_message 5 "session_operation" [("operationId", VStr "o")%string]; sample_message 4 "session_operation" [("operationId", VStr "o")%string]])
  = [1; 3; 5; 0].
Proof. reflexivity. Qed.
