(* ===== verification/AppMessages.v ===== *)
(** What the application reads out of messages and prompt blocks: the helpers at the top of
    [app/WorkspaceApp.tsx], the attachments of a prompt ([composer/chatPromptAttachments.ts])
    and which load or send may change the selected session ([chat/chatSelectionGuard.ts]).

    A prompt's block is the properties of an object ([ChatPromptQueue.block]); what a
    message carries is a [value].  Reading a property of [null] or [undefined] throws: [None]. *)

From S2P Require Import Prelude Json Uri RegExp RegistryTypes ChatSessionKey ChatTurnView ChatPromptQueue ChatComposer GitViews.
Open Scope Z_scope.

(** [v[k]] of any value. *)
Definition read_prop (v : value) (k : string) : option value :=
  match v with VUndefined | VNull => None | _ => Some (prop (properties v) k) end.
Definition is_object (v : value) : bool := match v with VObj _ | VArr _ => true | _ => false end.
Definition is_str (v : value) (s : string) : bool := match v with VStr t => bool_decide (t = s) | _ => false end.

(** * Attachments of a prompt *)

Definition cleanString (v : value) : string := match v with VStr s => trim s | _ => "" end.

(** [x.toFixed(1)] of a number that is not negative. *)
Definition toFixed1 (q : Q) : string :=
  let tenths := floor (q * 10 + (1 # 2)) in pretty (tenths / 10) +:+ "." +:+ pretty (tenths mod 10).

Definition promptAttachmentSizeLabel (size : value) : string :=
  match size with
  | VNum (Fin size) =>
    if Qle_bool size 0 then ""
    else if negb (Qle_bool 1024 size) then pretty (round size) +:+ " B"
    else if negb (Qle_bool (1024 * 1024) size) then toFixed1 (size / 1024) +:+ " KB"
    else toFixed1 (size / (1024 * 1024)) +:+ " MB"
  | _ => ""
  end.

Definition decodeUriSegment (segment : string) : string :=
  if nonempty segment then default segment (decodeURIComponent segment) else "".

(** The text up to the first of the given characters. *)
Definition before_any (stops s : string) : string :=
  match findIndex (fun c => bool_decide (c ∈ chars stops)) (chars s) with Some i => slice 0 i s | None => s end.
Definition last_part (l : list string) : string := default ""%string (last l).

Definition fileNameFromUri (uri : string) : string :=
  decodeUriSegment (last_part (bfilter nonempty (split "/" (forward_slashes (before_any "?#" uri))))).

Definition scheme_re : regex := seq_of [Bol false; letter; many (Chr (fun c => is_letter c || is_digit c || bool_decide (c ∈ chars "+.-"))); one ":"].
Definition registryResourceLinkHasScheme (uri : string) : bool := regex_test scheme_re (trim uri).

Definition isProjectFileResourceLinkBlock (block : value) : bool :=
  is_object block &&
  let uri := cleanString (prop (properties block) "uri") in
  is_str (prop (properties block) "type") "resource_link" && nonempty uri && negb (registryResourceLinkHasScheme uri).

Definition isPromptAttachmentContentBlock (block : value) : bool :=
  if negb (is_object block) then false else
  let item := properties block in
  let uri := cleanString (prop item "uri") in
  if is_str (prop item "type") "resource_link" then
    if nonempty uri && negb (registryResourceLinkHasScheme uri) then false
    else nonempty uri || nonempty (cleanString (prop item "name"))
  else if is_str (prop item "type") "image" then nonempty uri
  else false.

Definition isPromptImageAttachmentContentBlock (item : block) : bool :=
  is_str (prop item "type") "image" || startsWith (toLowerCase (cleanString (prop item "mimeType"))) "image/".

Definition promptAttachmentBlockCount (blocks : value) : Z :=
  match blocks with VArr l => Z.of_nat (length (bfilter isPromptAttachmentContentBlock l)) | _ => 0 end.

Definition chatPromptAttachmentLabel (item : block) (index : Z) : string :=
  str_or (cleanString (prop item "name"))
    (str_or (fileNameFromUri (cleanString (prop item "uri")))
      ((if is_str (prop item "type") "image" then "image-" else "attachment-") +:+ pretty (index + 1))).

Definition chatPromptAttachmentMeta (item : block) : string :=
  join " | " (bfilter nonempty [cleanString (prop item "mimeType"); promptAttachmentSizeLabel (prop item "size")]).

(** * The text of a message *)

Definition item_text (item : value) : option string :=
  if is_object item then
    match prop (properties item) "text" with VStr t => if nonempty (trim t) then Some (trim t) else None | _ => None end
  else None.
Definition extractTextFromACPContent (content : value) : string :=
  match content with
  | VStr s => trim s
  | VArr items => trim (join newline_string (omap item_text items))
  | _ => ""
  end.

Definition item_content (item : value) : string :=
  if is_object item then match prop (properties item) "content" with VStr t => trim t | _ => "" end else "".
Definition extractTextFromSessionTurnParam (param : value) : string :=
  match param with
  | VStr s => trim s
  | VArr items => trim (join newline_string (bfilter nonempty (map item_content items)))
  | VObj input =>
    match prop input "text" with VStr t => trim t | _ =>
    match prop input "output" with VStr t => trim t | _ =>
    match prop input "cmd" with VStr t => trim t | _ =>
    match prop input "contentBlocks" with VArr l => extractTextFromACPContent (VArr l) | _ => "" end end end end
  | _ => ""
  end.

Definition msgText (method : string) (param : list (string * value)) : string :=
  if bool_decide (method = "prompt_request"%string) then
    extractTextFromACPContent (match prop param "contentBlocks" with VArr l => VArr l | _ => VArr [] end)
  else if bool_decide (method = "prompt_done"%string) then match prop param "stopReason" with VStr s => s | _ => "" end
  else extractTextFromSessionTurnParam (VObj param).

Inductive msg_role := UserRole | SystemRole | AssistantRole.
Definition msgRole (method : string) : msg_role :=
  if bool_decide (method ∈ ["prompt_request"; "user_message_chunk"]%string) then UserRole
  else if bool_decide (method ∈ ["prompt_done"; "tool_call"; "system"]%string) then SystemRole
  else AssistantRole.
Inductive msg_kind := PromptResult | Thought | Tool | Message.
Definition msgKind (method : string) : msg_kind :=
  if bool_decide (method = "prompt_done"%string) then PromptResult
  else if bool_decide (method = "agent_thought_chunk"%string) then Thought
  else if bool_decide (method = "tool_call"%string) then Tool
  else Message.

(** [text.replace(/\s+/g, ' ').trim()], cut to a number of characters. *)
Definition spaces_re : regex := many1 space.
Definition one_line (text : string) : string := trim (replace_all spaces_re (by_string " ") text).
Definition cut (limit keep : nat) (text : string) : string :=
  if (limit <? String.length text)%nat then slice 0 keep text +:+ "..." else text.
Definition summarizeChatTitlePrompt (text fallback : string) : string :=
  let normalized := one_line text in if nonempty normalized then cut 96 95 normalized else fallback.
Definition promptArtifactPromptSummary (text : string) : string :=
  let normalized := one_line text in if nonempty normalized then cut 48 45 normalized else "".

(** * Which messages the transcript shows *)

Definition msgBlocks (param : list (string * value)) : list value := match prop param "contentBlocks" with VArr l => l | _ => [] end.

(** The loops stop at the first block that throws. *)
Fixpoint image_blocks (blocks : list value) : option (list value) :=
  match blocks with
  | [] => Some []
  | b :: blocks =>
    kind ← read_prop b "type"; rest ← image_blocks blocks;
    Some (if is_str kind "image" && truthy (prop (properties b) "data") then b :: rest else rest)
  end.
Definition groupImageBlocks (msgs : list RegistryChatMessage) : option (list value) := image_blocks (msgs ≫= fun m => msgBlocks (msg_param m)).
Definition groupPromptAttachmentBlocks (msgs : list RegistryChatMessage) : list value :=
  bfilter isPromptAttachmentContentBlock (msgs ≫= fun m => msgBlocks (msg_param m)).

Definition shouldRenderChatTurn (message : RegistryChatMessage) (hideToolCalls : bool) (promptStatus : option ChatPromptStatus) : option bool :=
  let text := trim (msgText (msg_method message) (msg_param message)) in
  if isPromptStart message then
    if nonempty text || bool_decide (is_Some promptStatus) then Some true else
    images ← groupImageBlocks [message];
    Some (bool_decide (images <> []) || bool_decide (groupPromptAttachmentBlocks [message] <> []))
  else if has_method "prompt_done" message || has_method "session_operation" message then Some true
  else if has_method "agent_plan" message then Some false
  else match msgKind (msg_method message) with Tool => Some (negb hideToolCalls && nonempty text) | _ => Some (nonempty text) end.

Definition chatMessageDomKey (message : RegistryChatMessage) : string := msg_sessionId message +:+ ":" +:+ pretty (msg_turnIndex message).

(** * Prompts *)

(** The turn the next prompt is expected at. *)
Definition nextPromptTurnIndex (messages : list RegistryChatMessage) : Z := foldr (fun m acc => Z.max (positiveTurnIndex m) acc) 0 messages + 1.

Inductive pending_status := ConfirmingPrompt | UndeliveredPrompt.
#[export] Instance pending_status_dec : EqDecision pending_status.
Proof. solve_decision. Defined.
Record PendingChatPrompt := {
  pp_sessionId : string; pp_blocks : list block; pp_createdAt : string; pp_turnIndex : Z; pp_status : pending_status; pp_errorMessage : option string
}.
Definition pending_text (s : pending_status) : string := match s with ConfirmingPrompt => "confirming" | UndeliveredPrompt => "undelivered" end.
Definition buildPendingPromptMessage (prompt : PendingChatPrompt) : RegistryChatMessage :=
  {| msg_sessionId := pp_sessionId prompt; msg_turnIndex := pp_turnIndex prompt; msg_method := "prompt_request";
     msg_param := [("contentBlocks", VArr (map VObj (pp_blocks prompt))); ("createdAt", VStr (pp_createdAt prompt));
       ("pendingStatus", VStr (pending_text (pp_status prompt)));
       ("message", match pp_errorMessage prompt with Some m => VStr m | None => VUndefined end)]%string;
     msg_finished := false |}.

Definition isRegistryChatContentBlock (item : option block) : option block :=
  match item with Some b => match prop b "type" with VStr t => if nonempty t then Some b else None | _ => None end | None => None end.

Definition content_block (b : ContentBlock) : block :=
  match b with
  | BText t => [("type", VStr "text"); ("text", VStr t)]%string
  | BResourceLink uri name => [("type", VStr "resource_link"); ("uri", VStr uri); ("name", VStr name)]%string
  end.

Definition chatComposerTokensFromText (text : string) : list ChatComposerToken := if nonempty text then [TText text] else [].
Definition isProjectFileMentionBlock (item : block) : bool :=
  is_str (prop item "type") "resource_link" &&
  match prop item "uri" with VStr uri => nonempty (trim uri) && negb (registryResourceLinkHasScheme uri) | _ => false end.

Definition string_or_empty (v : value) : string := match v with VStr s => s | _ => "" end.
Definition extension_re : regex := seq_of [one "."; many1 (none_of "."); Eol false].
Definition attachmentIdFromBlock (item : block) : string :=
  let uri := string_or_empty (prop item "uri") in
  if nonempty uri then
    let withoutQuery := before_any "?#" (last_part (split "/" (forward_slashes uri))) in
    let withoutExtension := replace_first extension_re (by_string "") withoutQuery in
    if startsWith withoutExtension "sha256-" then withoutExtension else ""
  else "".

Definition unit_separator : string := unchars [Ascii.ascii_of_nat 31].
Definition chatAttachmentBlockCacheKey (projectId sessionId : string) (item : block) : string :=
  let field k := string_or_empty (prop item k) in
  let identity := str_or (attachmentIdFromBlock item) (str_or (field "uri"%string) (str_or (field "name"%string) (str_or (field "mimeType"%string) "attachment"))) in
  projectId +:+ unit_separator +:+ sessionId +:+ unit_separator +:+ identity.

Inductive attachment_read := ByUri (sessionId uri : string) | ByAttachmentId (sessionId attachmentId : string).
Definition attachmentPreviewReadPayloadFromKey (attachmentKey sessionId : string) : option attachment_read :=
  let identity := last_part (split (Ascii.ascii_of_nat 31) attachmentKey) in
  if negb (nonempty identity) || bool_decide (identity = "attachment"%string) then None
  else if startsWith identity "sha256-" then Some (ByAttachmentId sessionId identity)
  else if includes identity "/" || includes identity (unchars [backslash]) || includes identity ":" then Some (ByUri sessionId identity)
  else None.

Definition CHAT_NEW_DRAFT_SESSION_KEY : string := "__new__".
Definition CHAT_DRAFT_KEY_PROJECT_FALLBACK : string := "__no_project__".
Definition buildChatDraftKey (activeProjectId sessionId : string) : string :=
  str_or (trim activeProjectId) CHAT_DRAFT_KEY_PROJECT_FALLBACK +:+ ":" +:+ str_or (trim sessionId) CHAT_NEW_DRAFT_SESSION_KEY.

(** * Which session stays selected *)

Definition shouldApplyPreservedChatLoad (currentKey : option ChatSessionKey) (selectionSnapshot : string) : bool :=
  let snapshot := trim selectionSnapshot in negb (nonempty snapshot) || bool_decide (encodeChatSessionKey currentKey = snapshot).

Definition shouldApplyLoadedChatSelection (currentKey loadedKey : option ChatSessionKey) : bool :=
  let loaded := encodeChatSessionKey loadedKey in
  if negb (nonempty loaded) then false else
  let current := encodeChatSessionKey currentKey in negb (nonempty current) || bool_decide (current = loaded).

Definition shouldApplySentChatSelection (currentKey sentFromKey : option ChatSessionKey) : bool :=
  let current := encodeChatSessionKey currentKey in nonempty current && bool_decide (current = encodeChatSessionKey sentFromKey).

Record selection_input := {
  si_activeProjectId : string; si_allowMissingSelection : bool; si_availableSessionIds : list string;
  si_currentKey : option ChatSessionKey; si_legacySelectionId : string; si_persistedKey : option ChatSessionKey; si_preferredSelection : string
}.
(** The session to select, and whether the selection may change. *)
Definition resolveChatListSelection (input : selection_input) : string * bool :=
  let activeProjectId := trim (si_activeProjectId input) in
  let availableSessionIds := bfilter nonempty (map trim (si_availableSessionIds input)) in
  let firstAvailableSessionId := default ""%string (head availableSessionIds) in
  let of_project key := match key with Some k => if bool_decide (key_projectId k = activeProjectId) then key_sessionId k else "" | None => "" end in
  let elsewhere := match si_currentKey input with Some k => negb (bool_decide (key_projectId k = activeProjectId)) | None => false end in
  if elsewhere then (""%string, false) else
    let currentSelection := of_project (si_currentKey input) in
    let preferredSelection := match chatSessionKeyFromParts activeProjectId (si_preferredSelection input) with Some k => key_sessionId k | None => "" end in
    let sessionId := str_or currentSelection (str_or preferredSelection (str_or (of_project (si_persistedKey input)) (trim (si_legacySelectionId input)))) in
    let sessionId :=
      if nonempty sessionId && negb (nonempty currentSelection) && negb (si_allowMissingSelection input) && negb (bool_decide (sessionId ∈ availableSessionIds))
      then firstAvailableSessionId else sessionId in
    (str_or sessionId firstAvailableSessionId, true).

Inductive SelectedChatVisibilityRecovery := NoRecovery | RestoreCache | ReadSession.
Record visibility_input := {
  vi_chat_tab : bool; vi_connected : bool; vi_chatLoading : bool; vi_selectedIsDraft : bool; vi_selectedRuntimeKey : string;
  vi_visibleRuntimeKey : string; vi_visibleMessageCount : Z; vi_cachedMessageCount : Z; vi_attemptedRuntimeKey : string
}.
Definition resolveSelectedChatVisibilityRecovery (input : visibility_input) : SelectedChatVisibilityRecovery :=
  if negb (vi_chat_tab input) || negb (vi_connected input) || vi_chatLoading input || negb (nonempty (vi_selectedRuntimeKey input)) then NoRecovery
  else if vi_selectedIsDraft input then NoRecovery
  else if bool_decide (vi_visibleRuntimeKey input = vi_selectedRuntimeKey input) && (0 <? vi_visibleMessageCount input) then NoRecovery
  else if 0 <? vi_cachedMessageCount input then RestoreCache
  else if bool_decide (vi_attemptedRuntimeKey input = vi_selectedRuntimeKey input) then NoRecovery
  else ReadSession.

(** * Lemmas *)

Lemma nextPromptTurnIndex_after messages m : m ∈ messages -> positiveTurnIndex m < nextPromptTurnIndex messages.
Proof.
  unfold nextPromptTurnIndex. induction 1 as [m l|m x l _ IH]; simpl; lia.
Qed.

(** A message that is not shown has no text, unless it is a plan or a hidden tool call. *)
Lemma hidden_turn_has_no_text message hideToolCalls promptStatus : shouldRenderChatTurn message hideToolCalls promptStatus = Some false ->
  trim (msgText (msg_method message) (msg_param message)) = ""%string \/ has_method "agent_plan" message = true \/
  (msgKind (msg_method message) = Tool /\ hideToolCalls = true).
Proof.
  unfold shouldRenderChatTurn. cbn zeta. set (t := trim _). destruct (nonempty t) eqn:Et; [|left; by apply nonempty_false].
  destruct (isPromptStart message); [done|]. destruct (_ || _); [done|]. destruct (has_method "agent_plan" message); [auto|].
  destruct (msgKind _) eqn:E; intros H; try done. rewrite andb_true_r in H. simplify_eq. right. right. by destruct hideToolCalls.
Qed.

Lemma pick_available t l : let first := default ""%string (head l) in
  let s := str_or (if nonempty t && negb (bool_decide (t ∈ l)) then first else t) first in s ∈ l \/ (s = ""%string /\ l = []).
Proof.
  cbn zeta. set (first := default _ _).
  assert (Hf : first ∈ l \/ first = ""%string /\ l = []) by (unfold first; destruct l as [|x l]; [by right|left; apply list_elem_of_here]).
  unfold str_or. destruct (nonempty t) eqn:Et; cbn [andb]; [|by rewrite Et].
  case_bool_decide as Ha; cbn [negb]; [rewrite Et; by left|]. by destruct (nonempty first).
Qed.

(** Without a current selection and unless a missing one is allowed, the session selected
    is one of the list, and there is none only for an empty list. *)
Lemma list_selection_available input s : resolveChatListSelection input = (s, true) -> si_currentKey input = None ->
  si_allowMissingSelection input = false ->
  let available := bfilter nonempty (map trim (si_availableSessionIds input)) in
  s ∈ available \/ (s = ""%string /\ available = []).
Proof.
  unfold resolveChatListSelection. cbn zeta. intros H Hc Hm. rewrite Hc, Hm in H. cbn [negb] in H. rewrite !andb_true_r in H.
  apply (f_equal fst) in H. cbn [fst] in H. rewrite <- H. set (available := bfilter nonempty _). set (t := str_or "" _).
  exact (pick_available t available).
Qed.
