(* ===== verification/ChatSend.v ===== *)
(** Sending prompts, the part of [app/WorkspaceApp.tsx] between the composer and the registry:
    [sendChatMessage] with the creation of a draft session and the upload of attachments,
    the prompt that waits for its confirmation and its timer, the queue of prompts of a busy
    session and its draining, and compactions.

    The component's refs and the queue's React state are the state; each call of an
    asynchronous function is a record that says where it waits, and the events resume one
    call, deliver an answer, fire a timer, render, or are the user's.  A [setState] with an
    updater is applied by the next render, in order; the effect that drains the queue runs
    right after a render.  The other refs are set together with their state.  Not modelled:
    messages of errors and toasts, the progress shown for uploads, the persisted selection. *)

From S2P Require Import Prelude Json RegistryTypes ChatSessionKey ChatTurnView ChatPromptQueue ChatComposer ChatSessionHelpers AppMessages.
Open Scope Z_scope.

(** * The prompt under way in each session *)

(** [chatSubmittingByKeyRef], [chatPendingPromptsByKeyRef], [chatPendingPromptTimersRef], and
    the timeouts of the window by their number: the key an armed one was set for. *)
Record flight := {
  fl_submitting : gset string; fl_pending : gmap string PendingChatPrompt; fl_timers : gmap string nat; fl_armed : list (option string)
}.
Definition no_flight : flight := {| fl_submitting := ∅; fl_pending := ∅; fl_timers := ∅; fl_armed := [] |}.

Definition with_submitting (s : gset string) (f : flight) : flight :=
  {| fl_submitting := s; fl_pending := fl_pending f; fl_timers := fl_timers f; fl_armed := fl_armed f |}.
Definition with_pending (p : gmap string PendingChatPrompt) (f : flight) : flight :=
  {| fl_submitting := fl_submitting f; fl_pending := p; fl_timers := fl_timers f; fl_armed := fl_armed f |}.
Definition with_timers (t : gmap string nat) (a : list (option string)) (f : flight) : flight :=
  {| fl_submitting := fl_submitting f; fl_pending := fl_pending f; fl_timers := t; fl_armed := a |}.

Definition setChatSubmittingForRuntimeKey (runtimeKey : string) (submitting : bool) (f : flight) : flight :=
  if negb (nonempty runtimeKey) then f
  else with_submitting (if submitting then {[runtimeKey]} ∪ fl_submitting f else fl_submitting f ∖ {[runtimeKey]}) f.

Definition moveChatSubmittingRuntimeKey (fromRuntimeKey toRuntimeKey : string) (f : flight) : flight :=
  if negb (nonempty fromRuntimeKey) || negb (nonempty toRuntimeKey) || bool_decide (fromRuntimeKey = toRuntimeKey) then f
  else if bool_decide (fromRuntimeKey ∈ fl_submitting f) then with_submitting ({[toRuntimeKey]} ∪ fl_submitting f ∖ {[fromRuntimeKey]}) f
  else f.

Definition clearPendingChatPromptTimer (runtimeKey : string) (f : flight) : flight :=
  match fl_timers f !! runtimeKey with
  | Some timerId => with_timers (delete runtimeKey (fl_timers f)) (<[timerId := None]> (fl_armed f)) f
  | None => f
  end.

(** [window.setTimeout] for a key, and the timer remembered. *)
Definition arm_timer (runtimeKey : string) (f : flight) : flight :=
  with_timers (<[runtimeKey := length (fl_armed f)]> (fl_timers f)) (fl_armed f ++ [Some runtimeKey]) f.

Definition undelivered (message : string) (p : PendingChatPrompt) : PendingChatPrompt :=
  {| pp_sessionId := pp_sessionId p; pp_blocks := pp_blocks p; pp_createdAt := pp_createdAt p; pp_turnIndex := pp_turnIndex p;
     pp_status := UndeliveredPrompt; pp_errorMessage := Some message |}.
Definition is_confirming (p : PendingChatPrompt) : bool := bool_decide (pp_status p = ConfirmingPrompt).

Definition markPendingChatPromptUndelivered (runtimeKey errorMessage : string) (f : flight) : flight :=
  match fl_pending f !! runtimeKey with
  | Some pending =>
    if negb (is_confirming pending) then setChatSubmittingForRuntimeKey runtimeKey false f
    else
      let f := clearPendingChatPromptTimer runtimeKey f in
      let f := with_pending (<[runtimeKey := undelivered errorMessage pending]> (fl_pending f)) f in
      setChatSubmittingForRuntimeKey runtimeKey false f
  | None => setChatSubmittingForRuntimeKey runtimeKey false f
  end.

Definition rememberPendingChatPrompt (runtimeKey : string) (prompt : PendingChatPrompt) (f : flight) : flight :=
  if negb (nonempty runtimeKey) then f else
  let f := clearPendingChatPromptTimer runtimeKey f in
  let f := with_pending (<[runtimeKey := prompt]> (fl_pending f)) f in
  if is_confirming prompt then arm_timer runtimeKey f else f.

Definition forgetPendingChatPrompt (runtimeKey : string) (f : flight) : flight :=
  if negb (nonempty runtimeKey) then f else
  match fl_pending f !! runtimeKey with
  | None => f
  | Some _ =>
    let f := clearPendingChatPromptTimer runtimeKey f in
    let f := with_pending (delete runtimeKey (fl_pending f)) f in
    setChatSubmittingForRuntimeKey runtimeKey false f
  end.

Definition moved_prompt (sessionId : string) (p : PendingChatPrompt) : PendingChatPrompt :=
  {| pp_sessionId := sessionId; pp_blocks := pp_blocks p; pp_createdAt := pp_createdAt p; pp_turnIndex := pp_turnIndex p;
     pp_status := pp_status p; pp_errorMessage := pp_errorMessage p |}.
Definition movePendingChatPrompt (fromRuntimeKey toRuntimeKey sessionId : string) (f : flight) : flight :=
  if negb (nonempty fromRuntimeKey) || negb (nonempty toRuntimeKey) || bool_decide (fromRuntimeKey = toRuntimeKey) then f else
  match fl_pending f !! fromRuntimeKey with
  | None => f
  | Some prompt =>
    let f := clearPendingChatPromptTimer fromRuntimeKey f in
    let f := with_pending (delete fromRuntimeKey (<[toRuntimeKey := moved_prompt sessionId prompt]> (fl_pending f))) f in
    let f := moveChatSubmittingRuntimeKey fromRuntimeKey toRuntimeKey f in
    if is_confirming prompt then arm_timer toRuntimeKey f else f
  end.

Definition forgetPendingPromptIfResolved (runtimeKey : string) (messages : list RegistryChatMessage) (f : flight) : flight :=
  match fl_pending f !! runtimeKey with
  | None => f
  | Some pendingPrompt =>
    let resolved := some (fun message => bool_decide (msg_sessionId message = pp_sessionId pendingPrompt) && isPromptStart message &&
                                         (pp_turnIndex pendingPrompt <=? msg_turnIndex message)) messages in
    if resolved then forgetPendingChatPrompt runtimeKey f else f
  end.

Definition NOT_CONFIRMED : string := "Server did not confirm receipt.".
(** A timeout fires. *)
Definition timer_fires (id : nat) (f : flight) : option flight :=
  match fl_armed f !! id with
  | Some (Some runtimeKey) =>
    Some (markPendingChatPromptUndelivered runtimeKey NOT_CONFIRMED (with_timers (fl_timers f) (<[id := None]> (fl_armed f)) f))
  | _ => None
  end.

(** * The component *)

Record ChatAttachment := { at_name : string; at_completed : bool; at_file : bool; at_block : option block }.
Record ChatComposerDraft := { cd_tokens : list ChatComposerToken; cd_attachments : list ChatAttachment }.

(** The updaters given to [setChatQueuedPromptsByKey]; [UClear] is the state [{}] itself. *)
Inductive queue_update :=
  | UEnqueue (runtimeKey : string) (prompt : QueuedChatPrompt)
  | UCompact (runtimeKey : string) (compact : QueuedChatCompact)
  | UToFront (runtimeKey : string) (item : QueuedChatItem)
  | UCancel (runtimeKey promptId : string)
  | UPrioritize (runtimeKey promptId : string)
  | UMove (fromRuntimeKey toRuntimeKey sessionId : string)
  | UReplace (next : QueuedChatItemsByKey)
  | UClear.
Definition apply_update (q : QueuedChatItemsByKey) (u : queue_update) : QueuedChatItemsByKey :=
  match u with
  | UEnqueue k p => enqueueChatPrompt q k p
  | UCompact k c => enqueueChatCompact q k c
  | UToFront k i => enqueueChatItemToFront q k i
  | UCancel k id => cancelQueuedChatPrompt q k id
  | UPrioritize k id => moveQueuedChatPromptToFront q k id
  | UMove a b s => moveQueuedChatPrompts q a b s
  | UReplace next => next
  | UClear => ∅
  end.

Inductive create_status := Creating | Created (sessionId : string) | CreateFailed (message : string).
Record create := { cr_draft : DraftChatSession; cr_status : create_status }.

Record resolved := { rs_sessionId : string; rs_runtimeKey : string; rs_draftKey : string; rs_sentFrom : ChatSessionKey }.

(** Where a call of [sendChatMessage] waits. *)
Inductive send_pc :=
  | AtResolved (r : resolved)
  | AtCreate (id : nat)
  | AtRejected (message : string)
  | AtUpload (done : list ChatAttachment) (now : ChatAttachment) (rest : list ChatAttachment)
  | AtUploaded (uploaded : list ChatAttachment)
  | AtSend
  | Ended.

Record send_call := {
  c_projectId : string; c_trimmedText : string; c_serialized : list block; c_attachments : list ChatAttachment;
  c_override : option (list block); c_preserve : bool;
  c_sessionId : string; c_runtimeKey : string; c_draftKey : string; c_sentFrom : ChatSessionKey; c_submittingKey : string;
  c_pendingRemembered : bool; c_pc : send_pc
}.

(** A compaction asked for: by the user ([k_item] is [None]) or by draining the queue. *)
Record compact_call := { k_runtimeKey : string; k_sessionId : string; k_item : option QueuedChatCompact; k_live : bool }.

Record request := { rq_projectId : string; rq_sessionId : string; rq_text : string; rq_blocks : list block }.

Record view := {
  v_selected : option ChatSessionKey;
  v_sessions : gmap string (list RegistryChatSession);
  v_messages : gmap string (list RegistryChatMessage);
  v_voiceAwaitingFinal : bool;
  v_drafts : gmap string (list DraftChatSession);
  v_draftKey : string;
  v_tokens : list ChatComposerToken;
  v_attachments : list ChatAttachment;
  v_saved : gmap string ChatComposerDraft
}.
Record queue_state := { qs_state : QueuedChatItemsByKey; qs_ref : QueuedChatItemsByKey; qs_updates : list queue_update }.
Record compactions := { cs_compacting : gset string; cs_terminal : gset string; cs_calls : list compact_call }.
Record sender := {
  sd_view : view; sd_flight : flight; sd_queue : queue_state; sd_compactions : compactions;
  sd_creates : list create; sd_createKeys : gmap string nat; sd_calls : list send_call; sd_requests : list request
}.

Definition with_view (v : view) (w : sender) : sender :=
  {| sd_view := v; sd_flight := sd_flight w; sd_queue := sd_queue w; sd_compactions := sd_compactions w;
     sd_creates := sd_creates w; sd_createKeys := sd_createKeys w; sd_calls := sd_calls w; sd_requests := sd_requests w |}.
Definition with_flight (f : flight) (w : sender) : sender :=
  {| sd_view := sd_view w; sd_flight := f; sd_queue := sd_queue w; sd_compactions := sd_compactions w;
     sd_creates := sd_creates w; sd_createKeys := sd_createKeys w; sd_calls := sd_calls w; sd_requests := sd_requests w |}.
Definition with_queue (q : queue_state) (w : sender) : sender :=
  {| sd_view := sd_view w; sd_flight := sd_flight w; sd_queue := q; sd_compactions := sd_compactions w;
     sd_creates := sd_creates w; sd_createKeys := sd_createKeys w; sd_calls := sd_calls w; sd_requests := sd_requests w |}.
Definition with_compactions (c : compactions) (w : sender) : sender :=
  {| sd_view := sd_view w; sd_flight := sd_flight w; sd_queue := sd_queue w; sd_compactions := c;
     sd_creates := sd_creates w; sd_createKeys := sd_createKeys w; sd_calls := sd_calls w; sd_requests := sd_requests w |}.
Definition with_creates (c : list create) (k : gmap string nat) (w : sender) : sender :=
  {| sd_view := sd_view w; sd_flight := sd_flight w; sd_queue := sd_queue w; sd_compactions := sd_compactions w;
     sd_creates := c; sd_createKeys := k; sd_calls := sd_calls w; sd_requests := sd_requests w |}.
Definition with_calls (c : list send_call) (w : sender) : sender :=
  {| sd_view := sd_view w; sd_flight := sd_flight w; sd_queue := sd_queue w; sd_compactions := sd_compactions w;
     sd_creates := sd_creates w; sd_createKeys := sd_createKeys w; sd_calls := c; sd_requests := sd_requests w |}.
Definition with_requests (r : list request) (w : sender) : sender :=
  {| sd_view := sd_view w; sd_flight := sd_flight w; sd_queue := sd_queue w; sd_compactions := sd_compactions w;
     sd_creates := sd_creates w; sd_createKeys := sd_createKeys w; sd_calls := sd_calls w; sd_requests := r |}.

Definition on_flight (g : flight -> flight) (w : sender) : sender := with_flight (g (sd_flight w)) w.
Definition setQueuedPrompts (u : queue_update) (w : sender) : sender :=
  let q := sd_queue w in with_queue {| qs_state := qs_state q; qs_ref := qs_ref q; qs_updates := qs_updates q ++ [u] |} w.

Definition new_sender : sender :=
  {| sd_view := {| v_selected := None; v_sessions := ∅; v_messages := ∅; v_voiceAwaitingFinal := false; v_drafts := ∅; v_draftKey := "";
                   v_tokens := []; v_attachments := []; v_saved := ∅ |};
     sd_flight := no_flight; sd_queue := {| qs_state := ∅; qs_ref := ∅; qs_updates := [] |};
     sd_compactions := {| cs_compacting := ∅; cs_terminal := ∅; cs_calls := [] |};
     sd_creates := []; sd_createKeys := ∅; sd_calls := []; sd_requests := [] |}.

Definition buildChatRuntimeKey (activeProjectId sessionId : string) : string := encodeChatSessionKey (chatSessionKeyFromParts activeProjectId sessionId).

(** ** The view: selection, drafts and the composer *)

Definition with_selected (key : option ChatSessionKey) (v : view) : view :=
  {| v_selected := key; v_sessions := v_sessions v; v_messages := v_messages v; v_voiceAwaitingFinal := v_voiceAwaitingFinal v;
     v_drafts := v_drafts v; v_draftKey := v_draftKey v; v_tokens := v_tokens v; v_attachments := v_attachments v; v_saved := v_saved v |}.
Definition with_drafts (d : gmap string (list DraftChatSession)) (v : view) : view :=
  {| v_selected := v_selected v; v_sessions := v_sessions v; v_messages := v_messages v; v_voiceAwaitingFinal := v_voiceAwaitingFinal v;
     v_drafts := d; v_draftKey := v_draftKey v; v_tokens := v_tokens v; v_attachments := v_attachments v; v_saved := v_saved v |}.
Definition with_messages (m : gmap string (list RegistryChatMessage)) (v : view) : view :=
  {| v_selected := v_selected v; v_sessions := v_sessions v; v_messages := m; v_voiceAwaitingFinal := v_voiceAwaitingFinal v;
     v_drafts := v_drafts v; v_draftKey := v_draftKey v; v_tokens := v_tokens v; v_attachments := v_attachments v; v_saved := v_saved v |}.
Definition with_environment (sessions : gmap string (list RegistryChatSession)) (awaitingFinal : bool) (v : view) : view :=
  {| v_selected := v_selected v; v_sessions := sessions; v_messages := v_messages v; v_voiceAwaitingFinal := awaitingFinal;
     v_drafts := v_drafts v; v_draftKey := v_draftKey v; v_tokens := v_tokens v; v_attachments := v_attachments v; v_saved := v_saved v |}.
Definition with_composer (draftKey : string) (tokens : list ChatComposerToken) (attachments : list ChatAttachment)
    (saved : gmap string ChatComposerDraft) (v : view) : view :=
  {| v_selected := v_selected v; v_sessions := v_sessions v; v_messages := v_messages v; v_voiceAwaitingFinal := v_voiceAwaitingFinal v;
     v_drafts := v_drafts v; v_draftKey := draftKey; v_tokens := tokens; v_attachments := attachments; v_saved := saved |}.

Definition knownChatSessionsForProject (projectId : string) (v : view) : list RegistryChatSession := default [] (v_sessions v !! projectId).

(** Nothing to keep is nothing saved. *)
Definition saveChatComposerDraft (draftKey : string) (attachments : list ChatAttachment) (tokens : list ChatComposerToken)
    (saved : gmap string ChatComposerDraft) : gmap string ChatComposerDraft :=
  let normalizedKey := trim draftKey in
  let normalizedTokens := normalizeChatComposerTokens tokens in
  if negb (nonempty normalizedKey) then saved
  else if bool_decide (attachments = []) && bool_decide (normalizedTokens = []) then delete normalizedKey saved
  else <[normalizedKey := {| cd_tokens := normalizedTokens; cd_attachments := attachments |}]> saved.

Definition resetChatComposer (v : view) : view := with_composer (v_draftKey v) [] [] (saveChatComposerDraft (v_draftKey v) [] [] (v_saved v)) v.
Definition resetChatComposerDraft (draftKey : string) (v : view) : view :=
  let normalizedDraftKey := trim draftKey in
  if negb (nonempty normalizedDraftKey) then v
  else if bool_decide (normalizedDraftKey = v_draftKey v) then resetChatComposer v
  else with_composer (v_draftKey v) (v_tokens v) (v_attachments v) (saveChatComposerDraft normalizedDraftKey [] [] (v_saved v)) v.

Definition moveChatComposerDraft (fromDraftKey toDraftKey : string) (v : view) : view :=
  if negb (nonempty fromDraftKey) || negb (nonempty toDraftKey) || bool_decide (fromDraftKey = toDraftKey) then v else
  let saved := match v_saved v !! fromDraftKey with
    | Some draft => delete fromDraftKey (match v_saved v !! toDraftKey with Some _ => v_saved v | None => <[toDraftKey := draft]> (v_saved v) end)
    | None => v_saved v
    end in
  with_composer (if bool_decide (v_draftKey v = fromDraftKey) then toDraftKey else v_draftKey v) (v_tokens v) (v_attachments v) saved v.

Definition project_drafts (projectId : string) (v : view) : list DraftChatSession := default [] (v_drafts v !! projectId).
Definition updateProjectDraftSessions (projectId : string) (updater : list DraftChatSession -> list DraftChatSession) (v : view) : view :=
  if negb (nonempty projectId) then v else
  let nextDrafts := updater (project_drafts projectId v) in
  with_drafts (match nextDrafts with [] => delete projectId (v_drafts v) | _ => <[projectId := nextDrafts]> (v_drafts v) end) v.
Definition updateDraftChatSession (projectId draftId : string) (updater : DraftChatSession -> DraftChatSession) (v : view) : view :=
  updateProjectDraftSessions projectId (map (fun draft => if bool_decide (draft_draftId draft = draftId) then updater draft else draft)) v.
Definition findDraftChatSession (projectId draftId : string) (v : view) : option DraftChatSession :=
  find (fun draft => bool_decide (draft_draftId draft = draftId)) (project_drafts projectId v).

(** ** Creating a draft's session *)

(** What [session.create] answers: the session, or the message of its error. *)
Definition create_answer : Type := RegistryChatSession + string.

(** [registerCreatedProjectSession], as far as the transcript's messages go. *)
Definition registerCreatedProjectSession (projectId sessionId : string) (v : view) : view :=
  let k := buildChatRuntimeKey projectId sessionId in with_messages (<[k := default [] (v_messages v !! k)]> (v_messages v)) v.

Definition moveChatRuntimeState (fromRuntimeKey toRuntimeKey sessionId : string) (w : sender) : sender :=
  if negb (nonempty fromRuntimeKey) || negb (nonempty toRuntimeKey) || bool_decide (fromRuntimeKey = toRuntimeKey) then w else
  let v := sd_view w in
  let messages := match v_messages v !! fromRuntimeKey, v_messages v !! toRuntimeKey with
    | Some m, None => <[toRuntimeKey := m]> (v_messages v)
    | _, _ => v_messages v
    end in
  let w := with_view (with_messages messages v) w in
  let w := on_flight (movePendingChatPrompt fromRuntimeKey toRuntimeKey sessionId) w in
  setQueuedPrompts (UMove fromRuntimeKey toRuntimeKey sessionId) w.

Definition applyDraftSessionCreateSuccess (projectId : string) (draft : DraftChatSession) (sessionId : string) (w : sender) : sender :=
  let w := with_view (registerCreatedProjectSession projectId sessionId (sd_view w)) w in
  let w := moveChatRuntimeState (buildChatRuntimeKey projectId (draft_draftId draft)) (buildChatRuntimeKey projectId sessionId) sessionId w in
  let v := moveChatComposerDraft (buildChatDraftKey projectId (draft_draftId draft)) (buildChatDraftKey projectId sessionId) (sd_view w) in
  let v := updateProjectDraftSessions projectId (fun drafts => removeDraftChatSession drafts (draft_draftId draft)) v in
  let nextSelection := resolveDraftReplacementSelection (v_selected v) draft sessionId in
  let v := if bool_decide (encodeChatSessionKey nextSelection = encodeChatSessionKey (v_selected v)) then v else with_selected nextSelection v in
  with_view v w.

(** The first of the listed sessions that a draft asked for, and so on. *)
Definition reconcileCreatedDraftSession (projectId : string) (w : sender) (session : RegistryChatSession) : sender :=
  match findDraftChatSessionForCreatedSession (project_drafts projectId (sd_view w)) (sess_createRequestId session) with
  | Some draft => applyDraftSessionCreateSuccess projectId draft (sess_sessionId session) w
  | None => w
  end.
Definition reconcileCreatedDraftSessions (projectId : string) (sessions : list RegistryChatSession) (w : sender) : sender :=
  foldl (reconcileCreatedDraftSession projectId) w sessions.

(** The promise: that of a creation under way, a new one, or a rejection. *)
Definition startDraftSessionCreate (projectId draftId : string) (w : sender) : sender * (nat + string) :=
  let createKey := buildChatRuntimeKey projectId draftId in
  match sd_createKeys w !! createKey with
  | Some existing => (w, inl existing)
  | None =>
    match findDraftChatSession projectId draftId (sd_view w) with
    | None => (w, inr "Draft session is no longer available."%string)
    | Some draft =>
      if negb (canStartDraftChatSessionCreate (Some draft)) then (w, inr (str_or (draft_errorMessage draft) "Session create failed."))
      else
        let id := length (sd_creates w) in
        (with_creates (sd_creates w ++ [{| cr_draft := draft; cr_status := Creating |}]) (<[createKey := id]> (sd_createKeys w)) w, inl id)
    end
  end.

Definition settle_create (status : create_status) (c : create) : create := {| cr_draft := cr_draft c; cr_status := status |}.
(** The answer, and what runs before the promise is settled: [latestDraft] is looked up
    again.  [now] is the time of the answer. *)
Definition createAnswered (id : nat) (answer : create_answer) (now : string) (w : sender) : option sender :=
  match sd_creates w !! id with
  | Some c =>
    match cr_status c with
    | Creating =>
      let draft := cr_draft c in let projectId := draft_projectId draft in
      let createKey := buildChatRuntimeKey projectId (draft_draftId draft) in
      let settle status w := with_creates (alter (settle_create status) id (sd_creates w)) (delete createKey (sd_createKeys w)) w in
      let failed message w :=
        settle (CreateFailed message)
          (with_view (updateDraftChatSession projectId (draft_draftId draft) (fun d => markDraftChatSessionFailed d message now) (sd_view w)) w) in
      Some (match answer with
        | inl session =>
          if nonempty (sess_sessionId session) then
            let latestDraft := default draft (findDraftChatSession projectId (draft_draftId draft) (sd_view w)) in
            settle (Created (sess_sessionId session)) (applyDraftSessionCreateSuccess projectId latestDraft (sess_sessionId session) w)
          else failed "project session.create returned ok=false"%string w
        | inr message => failed message w
        end)
    | _ => None
    end
  | None => None
  end.

(** ** Sending *)

Definition runtimeSessionHasActiveExecution (projectId sessionId runtimeKey : string) (w : sender) : bool :=
  bool_decide (runtimeKey ∈ cs_compacting (sd_compactions w)) ||
  some (fun session => bool_decide (sess_sessionId session = sessionId) && bool_decide (sess_running session = Some true))
    (knownChatSessionsForProject projectId (sd_view w)).
Definition runtimeSessionIsBusy (projectId sessionId runtimeKey : string) (w : sender) : bool :=
  bool_decide (runtimeKey ∈ fl_submitting (sd_flight w)) || runtimeSessionHasActiveExecution projectId sessionId runtimeKey w.

(** [resolveSelectedDraftSessionForSend]: what it waits for, when it is called. *)
Definition resolveSelectedDraftSessionForSend (projectId sessionId draftKey now : string) (w : sender) : sender * send_pc :=
  match chatSessionKeyFromParts projectId sessionId with
  | None => (w, AtRejected "Select or create a chat session first.")
  | Some existingKey =>
    match findDraftChatSession projectId sessionId (sd_view w) with
    | None =>
      (w, AtResolved {| rs_sessionId := sessionId; rs_runtimeKey := buildChatRuntimeKey projectId sessionId; rs_draftKey := draftKey; rs_sentFrom := existingKey |})
    | Some draft =>
      if negb (canStartDraftChatSessionCreate (Some draft)) then (w, AtRejected (str_or (draft_errorMessage draft) "Session create failed."))
      else
        let w := with_view (updateDraftChatSession projectId (draft_draftId draft) (fun d => markDraftChatSessionSending d now) (sd_view w)) w in
        match startDraftSessionCreate projectId (draft_draftId draft) w with
        | (w, inl id) => (w, AtCreate id)
        | (w, inr message) => (w, AtRejected message)
        end
    end
  end.

Record send_options := {
  o_textOverride : option string; o_attachmentsOverride : option (list ChatAttachment); o_blocksOverride : option (list block); o_preserveComposer : bool
}.

(** [sessionActionCapability(...)?.supported] of the compaction. *)
Definition compact_supported (projectId sessionId : string) (v : view) : bool :=
  match find (fun session => bool_decide (sess_sessionId session = sessionId)) (knownChatSessionsForProject projectId v) ≫= sess_sessionActions with
  | Some capabilities => cap_supported (caps_compact capabilities)
  | None => false
  end.

Definition start_compaction (runtimeKey sessionId : string) (item : option QueuedChatCompact) (w : sender) : sender :=
  let w := on_flight (setChatSubmittingForRuntimeKey runtimeKey true) w in
  let c := sd_compactions w in
  with_compactions {| cs_compacting := cs_compacting c; cs_terminal := cs_terminal c;
    cs_calls := cs_calls c ++ [{| k_runtimeKey := runtimeKey; k_sessionId := sessionId; k_item := item; k_live := true |}] |} w.

(** [invokeChatSessionAction('compact')]; [id] and [now] are those of a queued compaction. *)
Definition invokeCompact (id now : string) (w : sender) : sender :=
  match v_selected (sd_view w) with
  | None => w
  | Some selectedKey =>
    let projectId := key_projectId selectedKey in let sessionId := key_sessionId selectedKey in
    if negb (nonempty sessionId) || isDraftChatSessionId sessionId then w
    else if negb (compact_supported projectId sessionId (sd_view w)) then w
    else
      let runtimeKey := buildChatRuntimeKey projectId sessionId in
      if runtimeSessionIsBusy projectId sessionId runtimeKey w || bool_decide (queued (qs_ref (sd_queue w)) runtimeKey <> []) then
        setQueuedPrompts (UCompact runtimeKey {| compact_id := id; compact_sessionId := sessionId; compact_createdAt := now |}) w
      else start_compaction runtimeKey sessionId None w
  end.

(** The call of [sendChatMessage], up to its first [await]. *)
Definition sendChatMessage (options : send_options) (id now : string) (w : sender) : sender :=
  let v := sd_view w in
  if v_voiceAwaitingFinal v then w else
  let sourceAttachments := default (v_attachments v) (o_attachmentsOverride options) in
  let sourceTokens := match o_textOverride options with Some t => chatComposerTokensFromText t | None => v_tokens v end in
  let serializedComposer := serializeChatComposerTokens sourceTokens in
  let blocksOverride := o_blocksOverride options in
  let composerText := match blocksOverride with Some _ => default ""%string (o_textOverride options) | None => serializedComposer.1 end in
  let trimmedText := trim composerText in
  let own := match blocksOverride with None => true | Some _ => false end in
  let none := bool_decide (length sourceAttachments = 0%nat) in
  if bool_decide (trimmedText = "/cancel"%string) && none && own then w
  else if own && negb (nonempty trimmedText) && none then w
  else if (match blocksOverride with Some [] => true | _ => false end) then w else
  match v_selected v with
  | None => w
  | Some selectedKey =>
    let projectId := key_projectId selectedKey in let sessionId := key_sessionId selectedKey in
    if negb (nonempty sessionId) then w else
    match (if own then resolveStandaloneSessionAction trimmedText (Z.of_nat (length sourceAttachments)) else None) with
    | Some (InvalidAction _) => w
    | Some (StandaloneAction kind) =>
      let w := if o_preserveComposer options then w else with_view (resetChatComposerDraft (v_draftKey v) v) w in
      match kind with CompactAction => invokeCompact id now w | _ => w end
    | None =>
      let runtimeKey := buildChatRuntimeKey projectId sessionId in
      if bool_decide (runtimeKey ∈ fl_submitting (sd_flight w)) then w else
      let w := on_flight (setChatSubmittingForRuntimeKey runtimeKey true) w in
      let '(w, pc) := resolveSelectedDraftSessionForSend projectId sessionId (v_draftKey v) now w in
      with_calls (sd_calls w ++ [{| c_projectId := projectId; c_trimmedText := trimmedText; c_serialized := map content_block serializedComposer.2;
        c_attachments := sourceAttachments; c_override := blocksOverride; c_preserve := o_preserveComposer options;
        c_sessionId := sessionId; c_runtimeKey := runtimeKey; c_draftKey := v_draftKey v; c_sentFrom := selectedKey; c_submittingKey := runtimeKey;
        c_pendingRemembered := false; c_pc := pc |}]) w
    end
  end.

(** [uploadChatAttachmentsForSend] until it waits for an upload or is done. *)
Fixpoint uploadChatAttachmentsForSend (done attachments : list ChatAttachment) : send_pc :=
  match attachments with
  | [] => AtUploaded done
  | attachment :: rest =>
    if at_completed attachment && bool_decide (at_block attachment <> None) then uploadChatAttachmentsForSend (done ++ [attachment]) rest
    else if negb (at_file attachment) then AtRejected "Attachment can only be uploaded before the page is refreshed."
    else AtUpload done attachment rest
  end.

Definition with_pc (pc : send_pc) (c : send_call) : send_call :=
  {| c_projectId := c_projectId c; c_trimmedText := c_trimmedText c; c_serialized := c_serialized c; c_attachments := c_attachments c;
     c_override := c_override c; c_preserve := c_preserve c; c_sessionId := c_sessionId c; c_runtimeKey := c_runtimeKey c;
     c_draftKey := c_draftKey c; c_sentFrom := c_sentFrom c; c_submittingKey := c_submittingKey c;
     c_pendingRemembered := c_pendingRemembered c; c_pc := pc |}.
Definition with_resolved (r : resolved) (c : send_call) : send_call :=
  {| c_projectId := c_projectId c; c_trimmedText := c_trimmedText c; c_serialized := c_serialized c; c_attachments := c_attachments c;
     c_override := c_override c; c_preserve := c_preserve c; c_sessionId := rs_sessionId r; c_runtimeKey := rs_runtimeKey r;
     c_draftKey := rs_draftKey r; c_sentFrom := rs_sentFrom r;
     c_submittingKey := rs_runtimeKey r; c_pendingRemembered := c_pendingRemembered c; c_pc := c_pc c |}.
Definition with_remembered (c : send_call) : send_call :=
  {| c_projectId := c_projectId c; c_trimmedText := c_trimmedText c; c_serialized := c_serialized c; c_attachments := c_attachments c;
     c_override := c_override c; c_preserve := c_preserve c; c_sessionId := c_sessionId c; c_runtimeKey := c_runtimeKey c;
     c_draftKey := c_draftKey c; c_sentFrom := c_sentFrom c; c_submittingKey := c_submittingKey c;
     c_pendingRemembered := true; c_pc := c_pc c |}.

Definition prompt_text_of (blocks : list block) : string := trim (msgText "prompt_request" [("contentBlocks"%string, VArr (map VObj blocks))]).
Definition reset_sent (c : send_call) (w : sender) : sender :=
  if c_preserve c then w else with_view (resetChatComposerDraft (c_draftKey c) (sd_view w)) w.

(** The call after the uploads, up to the answer of [session.send]: what becomes of it. *)
Definition deliverPrompt (uploaded : list ChatAttachment) (id now : string) (c : send_call) (w : sender) : sender * send_call :=
  let release := on_flight (setChatSubmittingForRuntimeKey (c_submittingKey c) false) in
  let blocks := match c_override c with
    | Some blocks => blocks
    | None => c_serialized c ++ omap (fun a => isRegistryChatContentBlock (at_block a)) uploaded
    end in
  match blocks with
  | [] => (release w, with_pc Ended c)
  | _ =>
    if runtimeSessionHasActiveExecution (c_projectId c) (c_sessionId c) (c_runtimeKey c) w then
      let queuedPrompt := {| prompt_id := id; prompt_sessionId := c_sessionId c; prompt_blocks := blocks; prompt_createdAt := now;
                             prompt_text := str_or (c_trimmedText c) (prompt_text_of blocks) |} in
      (release (reset_sent c (setQueuedPrompts (UEnqueue (c_runtimeKey c) queuedPrompt) w)), with_pc Ended c)
    else
      let firstAttachmentName := match uploaded with a :: _ => at_name a | [] => ""%string end in
      let previewText := str_or (c_trimmedText c) (str_or firstAttachmentName (prompt_text_of blocks)) in
      let prompt := {| pp_sessionId := c_sessionId c; pp_blocks := blocks; pp_createdAt := now;
                       pp_turnIndex := nextPromptTurnIndex (default [] (v_messages (sd_view w) !! c_runtimeKey c));
                       pp_status := ConfirmingPrompt; pp_errorMessage := None |} in
      let w := reset_sent c (on_flight (rememberPendingChatPrompt (c_runtimeKey c) prompt) w) in
      let request := {| rq_projectId := c_projectId c; rq_sessionId := c_sessionId c; rq_text := str_or (c_trimmedText c) previewText; rq_blocks := blocks |} in
      (with_requests (sd_requests w ++ [request]) w, with_pc AtSend (with_remembered c))
  end.

(** The [catch] and [finally] of a call that throws before its prompt is remembered. *)
Definition rejectSend (c : send_call) (w : sender) : sender * send_call :=
  (on_flight (setChatSubmittingForRuntimeKey (c_submittingKey c) false) w, with_pc Ended c).

(** The resolution of the session, and the call up to the uploads. *)
Definition afterResolved (r : resolved) (id now : string) (c : send_call) (w : sender) : sender * send_call :=
  let w := if bool_decide (rs_runtimeKey r = c_runtimeKey c) then w
           else on_flight (moveChatSubmittingRuntimeKey (c_submittingKey c) (rs_runtimeKey r)) w in
  let c := with_resolved r c in
  match c_override c with
  | Some _ => deliverPrompt (c_attachments c) id now c w
  | None => (w, with_pc (uploadChatAttachmentsForSend [] (c_attachments c)) c)
  end.

(** A call of [sendChatMessage] goes on, if what it waits for is settled. *)
Definition resumeSend (id now : string) (c : send_call) (w : sender) : option (sender * send_call) :=
  match c_pc c with
  | AtResolved r => Some (afterResolved r id now c w)
  | AtCreate n =>
    match cr_status <$> sd_creates w !! n with
    | Some (Created realSessionId) =>
      let key := chatSessionKeyFromParts (c_projectId c) realSessionId in
      Some (afterResolved {| rs_sessionId := realSessionId; rs_runtimeKey := buildChatRuntimeKey (c_projectId c) realSessionId;
        rs_draftKey := buildChatDraftKey (c_projectId c) realSessionId;
        rs_sentFrom := match key with Some k => k | None => default (c_sentFrom c) (chatSessionKeyFromParts (c_projectId c) (c_sessionId c)) end |} id now c w)
    | Some (CreateFailed _) => Some (rejectSend c w)
    | _ => None
    end
  | AtRejected _ => Some (rejectSend c w)
  | AtUploaded uploaded => Some (deliverPrompt uploaded id now c w)
  | _ => None
  end.

(** The end of an upload: the attachment with its block, or a throw. *)
Definition uploadEnded (result : option ChatAttachment) (c : send_call) : option send_call :=
  match c_pc c with
  | AtUpload done _ rest =>
    Some (with_pc (match result with Some a => uploadChatAttachmentsForSend (done ++ [a]) rest | None => AtRejected "upload" end) c)
  | _ => None
  end.

(** The answer to [session.send]: [inl] the session it names, [inr] an error's message, that
    of [ok: false] included. *)
Definition sendAnswered (answer : string + string) (c : send_call) (w : sender) : option (sender * send_call) :=
  match c_pc c with
  | AtSend =>
    Some (match answer with
      | inl sessionId =>
        let nextSessionId := str_or sessionId (c_sessionId c) in
        let w := if bool_decide (nextSessionId = c_sessionId c) then w
                 else on_flight (movePendingChatPrompt (c_runtimeKey c) (buildChatRuntimeKey (c_projectId c) nextSessionId) nextSessionId) w in
        let v := sd_view w in
        ((if shouldApplySentChatSelection (v_selected v) (Some (c_sentFrom c)) then with_view (with_selected (chatSessionKeyFromParts (c_projectId c) nextSessionId) v) w else w),
         with_pc Ended c)
      | inr message =>
        ((match fl_pending (sd_flight w) !! c_runtimeKey c with
          | Some _ => on_flight (markPendingChatPromptUndelivered (c_runtimeKey c) message) w
          | None => w
          end), with_pc Ended c)
      end)
  | _ => None
  end.

(** ** Draining the queue, and compactions *)

(** The item that was taken leads to a call, of [requestSessionCompaction] or [sendChatMessage]. *)
Definition drainNextQueuedChatItem (runtimeKey id now : string) (w : sender) : sender :=
  match v_selected (sd_view w) with
  | None => w
  | Some selectedKey =>
    if negb (bool_decide (buildChatRuntimeKey (key_projectId selectedKey) (key_sessionId selectedKey) = runtimeKey)) then w
    else if runtimeSessionIsBusy (key_projectId selectedKey) (key_sessionId selectedKey) runtimeKey w then w
    else
      match shiftNextQueuedChatItem (qs_ref (sd_queue w)) runtimeKey with
      | (_, None) => w
      | (state, Some (QCompact compact)) => setQueuedPrompts (UReplace state) (start_compaction runtimeKey (compact_sessionId compact) (Some compact) w)
      | (state, Some (QPrompt prompt)) =>
        sendChatMessage {| o_textOverride := Some (prompt_text prompt); o_attachmentsOverride := Some []; o_blocksOverride := Some (prompt_blocks prompt);
                           o_preserveComposer := true |} id now (setQueuedPrompts (UReplace state) w)
      end
  end.

(** What the selected session is doing, as it is rendered. *)
Definition operation_states (messages : list RegistryChatMessage) : list (string * string) :=
  foldl (fun (states : list (string * string)) message =>
    let field k := string_or_empty (prop (msg_param message) k) in
    if has_method "session_operation" message && nonempty (field "operationId"%string) && bool_decide (field "type" = "compact")%string
    then dset states (field "operationId"%string) (field "status"%string) else states) [] messages.
Definition selectedChatCompactionRunning (key : string) (w : sender) : bool :=
  bool_decide (key ∈ cs_compacting (sd_compactions w)) ||
  some (fun e => bool_decide (e.2 = "queued"%string) || bool_decide (e.2 = "started"%string)) (operation_states (default [] (v_messages (sd_view w) !! key))).
Definition selectedChatPromptRunning (key : string) (session : option RegistryChatSession) (w : sender) : bool :=
  let messages := default [] (v_messages (sd_view w) !! key) in
  (match fl_pending (sd_flight w) !! key with None => true | Some _ => false end) &&
  ((bool_decide ((session ≫= sess_running) = Some true) && negb (selectedChatCompactionRunning key w)) ||
   some (fun message => isPromptStart message && match resolvePromptTurnStatus messages message with Some Responding => true | _ => false end) messages).

(** The effect after a render: nothing is left to apply, and the session selected is idle. *)
Definition drain_effect (id now : string) (w : sender) : option sender :=
  let key := encodeChatSessionKey (v_selected (sd_view w)) in
  let session := match v_selected (sd_view w) with
    | Some k => find (fun s => bool_decide (sess_sessionId s = key_sessionId k)) (knownChatSessionsForProject (key_projectId k) (sd_view w))
    | None => None
    end in
  if negb (nonempty key) || negb (bool_decide (length (qs_updates (sd_queue w)) = 0%nat)) || selectedChatPromptRunning key session w || selectedChatCompactionRunning key w
     || bool_decide (key ∈ fl_submitting (sd_flight w)) || bool_decide (length (queued (qs_ref (sd_queue w)) key) = 0%nat)
  then None else Some (drainNextQueuedChatItem key id now w).

(** [setQueuedPrompts] keeps the ref at what its updater returned. *)
Definition render_update (q : queue_state) (u : queue_update) : queue_state :=
  let next := apply_update (qs_state q) u in
  {| qs_state := next; qs_ref := match u with UClear => qs_ref q | _ => next end; qs_updates := qs_updates q |}.
Definition render (w : sender) : sender :=
  let q := sd_queue w in
  with_queue (foldl render_update {| qs_state := qs_state q; qs_ref := qs_ref q; qs_updates := [] |} (qs_updates q)) w.

(** How a compaction is answered: accepted with its operation, refused because the session
    is busy ([isSessionBusyError]), or failed. *)
Inductive compact_answer := Accepted (operationId : string) | Busy | Refused.
Definition end_call (c : compact_call) : compact_call := {| k_runtimeKey := k_runtimeKey c; k_sessionId := k_sessionId c; k_item := k_item c; k_live := false |}.
Definition set_compacting (runtimeKey : string) (compacting : bool) (c : compactions) : compactions :=
  {| cs_compacting := if compacting then {[runtimeKey]} ∪ cs_compacting c else cs_compacting c ∖ {[runtimeKey]};
     cs_terminal := cs_terminal c; cs_calls := cs_calls c |}.
Definition with_terminal (t : gset string) (c : compactions) : compactions :=
  {| cs_compacting := cs_compacting c; cs_terminal := t; cs_calls := cs_calls c |}.

Definition compactAnswered (n : nat) (answer : compact_answer) (id now : string) (w : sender) : option sender :=
  match cs_calls (sd_compactions w) !! n with
  | Some c =>
    if negb (k_live c) then None else
    let cs := sd_compactions w in
    let w := with_compactions {| cs_compacting := cs_compacting cs; cs_terminal := cs_terminal cs; cs_calls := alter end_call n (cs_calls cs) |} w in
    let w := match answer with
      | Accepted operationId =>
        let cs := sd_compactions w in
        with_compactions (if bool_decide (operationId ∈ cs_terminal cs) then with_terminal (cs_terminal cs ∖ {[operationId]}) cs
                          else set_compacting (k_runtimeKey c) true cs) w
      | Busy =>
        setQueuedPrompts (match k_item c with
          | Some compact => UToFront (k_runtimeKey c) (QCompact compact)
          | None => UCompact (k_runtimeKey c) {| compact_id := id; compact_sessionId := k_sessionId c; compact_createdAt := now |}
          end) w
      | Refused => w
      end in
    Some (on_flight (setChatSubmittingForRuntimeKey (k_runtimeKey c) false) w)
  | None => None
  end.

(** ** What the registry reports *)

Definition store_messages (k : string) (m : list RegistryChatMessage) (w : sender) : sender :=
  with_view (with_messages (<[k := m]> (v_messages (sd_view w))) (sd_view w)) w.

(** [session.message]: the operation it reports, the messages when they are materialised, and
    the prompt it confirms. *)
Definition onSessionMessage (projectId : string) (message : RegistryChatMessage) (merged : option (list RegistryChatMessage)) (w : sender) : sender :=
  let runtimeKey := buildChatRuntimeKey projectId (msg_sessionId message) in
  let field k := string_or_empty (prop (msg_param message) k) in
  let w :=
    if has_method "session_operation" message && bool_decide (field "type" = "compact")%string && nonempty (field "operationId"%string) then
      let status := field "status"%string in let cs := sd_compactions w in
      if bool_decide (status ∈ ["queued"; "started"]%string) then with_compactions (set_compacting runtimeKey true cs) w
      else if bool_decide (status ∈ ["completed"; "failed"]%string) then
        with_compactions (set_compacting runtimeKey false (with_terminal ({[field "operationId"%string]} ∪ cs_terminal cs) cs)) w
      else w
    else w in
  let w := match merged with Some m => store_messages runtimeKey m w | None => w end in
  if has_method "prompt_request" message then on_flight (forgetPendingChatPrompt runtimeKey) w else w.

(** [loadChatSession] and [refreshSessionTurns], with the messages they read. *)
Definition onSessionRead (projectId sessionId : string) (messages : list RegistryChatMessage) (w : sender) : sender :=
  let runtimeKey := buildChatRuntimeKey projectId sessionId in
  store_messages runtimeKey messages (on_flight (forgetPendingPromptIfResolved runtimeKey messages) w).

(** The close of the connection. *)
Definition onClose (w : sender) : sender :=
  let q := sd_queue w in
  let w := with_queue {| qs_state := qs_state q; qs_ref := ∅; qs_updates := qs_updates q ++ [UClear] |} w in
  with_compactions {| cs_compacting := ∅; cs_terminal := ∅; cs_calls := cs_calls (sd_compactions w) |} w.

(** ** The user *)

Definition retryPendingChatPrompt (runtimeKey id now : string) (w : sender) : sender :=
  match fl_pending (sd_flight w) !! runtimeKey with
  | None => w
  | Some pending =>
    sendChatMessage {| o_textOverride := Some ""%string; o_attachmentsOverride := Some []; o_blocksOverride := Some (pp_blocks pending); o_preserveComposer := true |} id now w
  end.

Definition buildChatAttachmentsFromBlocks (blocks : list block) : list ChatAttachment :=
  omap (fun e : nat * block =>
    let '(index, b) := e in
    let blockType := match prop b "type" with VStr t => toLowerCase (trim t) | _ => "" end in
    if negb (bool_decide (blockType ∈ ["image"; "resource_link"]%string)) then None
    else if isProjectFileMentionBlock b then None
    else if negb (truthy (prop b "uri")) && negb (truthy (prop b "data")) then None
    else Some {| at_name := str_or (string_or_empty (prop b "name")) ("undelivered-attachment-" +:+ pretty (Z.of_nat index + 1));
                 at_completed := true; at_file := false; at_block := Some b |}) (imap pair blocks).

(** [confirmed] is what the user answers when the composer is not empty. *)
Definition editPendingChatPrompt (runtimeKey : string) (confirmed : bool) (w : sender) : sender :=
  match fl_pending (sd_flight w) !! runtimeKey with
  | None => w
  | Some pending =>
    let v := sd_view w in
    if (negb (bool_decide (v_attachments v = [])) || negb (bool_decide (v_tokens v = []))) && negb confirmed then w
    else
      let tokens := chatComposerTokensFromText (extractTextFromACPContent (VArr (map VObj (pp_blocks pending)))) in
      let attachments := buildChatAttachmentsFromBlocks (pp_blocks pending) in
      let v := with_composer (v_draftKey v) tokens attachments (saveChatComposerDraft (v_draftKey v) attachments tokens (v_saved v)) v in
      on_flight (forgetPendingChatPrompt runtimeKey) (with_view v w)
  end.

(** The composer's content changes; it shows the draft of the session selected. *)
Definition compose (tokens : list ChatComposerToken) (attachments : list ChatAttachment) (v : view) : view :=
  with_composer (v_draftKey v) tokens attachments (saveChatComposerDraft (v_draftKey v) attachments tokens (v_saved v)) v.
Definition select (key : option ChatSessionKey) (draftKey : string) (v : view) : view :=
  let v := with_selected key v in
  let draft := default {| cd_tokens := []; cd_attachments := [] |} (v_saved v !! draftKey) in
  with_composer draftKey (cd_tokens draft) (cd_attachments draft) (v_saved v) v.

Definition selectDraftChatSession (projectId draftId : string) (v : view) : view :=
  if negb (nonempty projectId) || negb (nonempty draftId) then v else
  match findDraftChatSession projectId draftId v, chatSessionKeyFromParts projectId draftId with
  | Some _, Some key =>
    let v := with_selected (Some key) v in
    let k := encodeChatSessionKey (Some key) in with_messages (<[k := default [] (v_messages v !! k)]> (v_messages v)) v
  | _, _ => v
  end.
Definition normalizeAgentTypeName (value : string) : string := trim value.
(** A new session of an agent whose sessions are drafts first: it is shown and its creation
    starts.  (Other agents answer with the session, which is then in the environment.) *)
Definition handleProjectCreateSession (projectId agentType now timePart randomPart : string) (w : sender) : sender :=
  if negb (nonempty projectId) || negb (bool_decide (toLowerCase (normalizeAgentTypeName agentType) = "codex"%string)) then w else
  let draft := createDraftChatSession projectId (normalizeAgentTypeName agentType) None None now timePart randomPart in
  let v := updateProjectDraftSessions projectId (fun drafts => draft :: drafts) (sd_view w) in
  let v := with_messages (<[buildChatRuntimeKey projectId (draft_draftId draft) := []]> (v_messages v)) v in
  let v := selectDraftChatSession projectId (draft_draftId draft) v in
  (startDraftSessionCreate projectId (draft_draftId draft) (with_view v w)).1.
Definition dismissDraftChatSession (projectId draftId : string) (w : sender) : sender :=
  if negb (nonempty projectId) || negb (nonempty draftId) then w else
  let runtimeKey := buildChatRuntimeKey projectId draftId in
  let v := resetChatComposerDraft (buildChatDraftKey projectId draftId) (sd_view w) in
  let v := updateProjectDraftSessions projectId (fun drafts => removeDraftChatSession drafts draftId) v in
  let v := if bool_decide (encodeChatSessionKey (v_selected v) = runtimeKey) then with_selected None v else v in
  with_creates (sd_creates w) (delete runtimeKey (sd_createKeys w)) (with_view v w).

(** * Events *)

Inductive send_event :=
  | EvSend (options : send_options) (id now : string)
  | EvCompact (id now : string)
  | EvRetry (runtimeKey id now : string)
  | EvEdit (runtimeKey : string) (confirmed : bool)
  | EvCancelQueued (runtimeKey promptId : string)
  | EvPrioritize (runtimeKey promptId : string)
  | EvCompose (tokens : list ChatComposerToken) (attachments : list ChatAttachment)
  | EvSelect (key : option ChatSessionKey) (draftKey : string)
  | EvAddDraft (projectId agentType now timePart randomPart : string)
  | EvDismiss (projectId draftId : string)
  | EvEnvironment (sessions : gmap string (list RegistryChatSession)) (awaitingFinal : bool)
  | EvRender
  | EvDrain (id now : string)
  | EvResume (n : nat) (id now : string)
  | EvUploaded (n : nat) (result : option ChatAttachment)
  | EvAnswer (n : nat) (answer : string + string)
  | EvCreateAnswer (n : nat) (answer : create_answer) (now : string)
  | EvCompactAnswer (n : nat) (answer : compact_answer) (id now : string)
  | EvListed (projectId : string) (sessions : list RegistryChatSession)
  | EvMessage (projectId : string) (message : RegistryChatMessage) (merged : option (list RegistryChatMessage))
  | EvRead (projectId sessionId : string) (messages : list RegistryChatMessage)
  | EvTimer (id : nat)
  | EvClose.

(** A call is resumed by a function of it and the rest. *)
Definition step_call (n : nat) (g : send_call -> sender -> option (sender * send_call)) (w : sender) : option sender :=
  c ← sd_calls w !! n; r ← g c w; Some (with_calls (<[n := r.2]> (sd_calls r.1)) r.1).

Definition send_step (e : send_event) (w : sender) : option sender :=
  match e with
  | EvSend options id now => Some (sendChatMessage options id now w)
  | EvCompact id now => Some (invokeCompact id now w)
  | EvRetry k id now => Some (retryPendingChatPrompt k id now w)
  | EvEdit k confirmed => Some (editPendingChatPrompt k confirmed w)
  | EvCancelQueued k id => Some (setQueuedPrompts (UCancel k id) w)
  | EvPrioritize k id => Some (setQueuedPrompts (UPrioritize k id) w)
  | EvCompose tokens attachments => Some (with_view (compose tokens attachments (sd_view w)) w)
  | EvSelect key draftKey => Some (with_view (select key draftKey (sd_view w)) w)
  | EvAddDraft p a now t r => Some (handleProjectCreateSession p a now t r w)
  | EvDismiss p d => Some (dismissDraftChatSession p d w)
  | EvEnvironment sessions b => Some (with_view (with_environment sessions b (sd_view w)) w)
  | EvRender => Some (render w)
  | EvDrain id now => drain_effect id now w
  | EvResume n id now => step_call n (resumeSend id now) w
  | EvUploaded n result => step_call n (fun c w => c ← uploadEnded result c; Some (w, c)) w
  | EvAnswer n answer => step_call n (sendAnswered answer) w
  | EvCreateAnswer n answer now => createAnswered n answer now w
  | EvCompactAnswer n answer id now => compactAnswered n answer id now w
  | EvListed p sessions => Some (reconcileCreatedDraftSessions p sessions w)
  | EvMessage p message merged => Some (onSessionMessage p message merged w)
  | EvRead p s messages => Some (onSessionRead p s messages w)
  | EvTimer id => f ← timer_fires id (sd_flight w); Some (with_flight f w)
  | EvClose => Some (onClose w)
  end.

(** A run whose events are all possible, and pass a guard. *)
Fixpoint guarded_run (guard : send_event -> sender -> bool) (es : list send_event) (w : sender) : option sender :=
  match es with
  | [] => Some w
  | e :: es => if guard e w then w ← send_step e w; guarded_run guard es w else None
  end.

(** * The prompt under way *)

Definition confirming_at (f : flight) (k : string) : Prop := exists p, fl_pending f !! k = Some p /\ is_confirming p = true.

(** The timers remembered are those armed, one for each prompt that waits for its confirmation. *)
Record flight_ok (f : flight) : Prop := {
  fo_armed : forall k id, fl_timers f !! k = Some id <-> fl_armed f !! id = Some (Some k);
  fo_timer : forall k, is_Some (fl_timers f !! k) <-> confirming_at f k;
  fo_keys : "" ∉ fl_submitting f
}.

(** Submitting is the matter of one of [P] or of a prompt that waits. *)
Definition submitting_by (P : string -> Prop) (f : flight) : Prop := forall k, k ∈ fl_submitting f -> P k \/ confirming_at f k.

Lemma no_flight_ok : flight_ok no_flight.
Proof.
  split; cbn; [intros k id|intros k; unfold confirming_at; cbn|set_solver].
  - split; [intros H; by rewrite lookup_empty in H|done].
  - split; [intros [? H]; by rewrite lookup_empty in H|intros (? & H & _); by rewrite lookup_empty in H].
Qed.

Definition armed_work (f : flight) : nat := length (bfilter (fun o => bool_decide (is_Some o)) (fl_armed f)).

Lemma count_insert (l : list (option string)) id o : l !! id = Some o ->
  (length (bfilter (fun o => bool_decide (is_Some o)) (<[id := None]> l)) + (if bool_decide (is_Some o) then 1 else 0) =
   length (bfilter (fun o => bool_decide (is_Some o)) l))%nat.
Proof.
  revert id. induction l as [|x l IH]; intros [|id] H; simpl in *; [done..| |].
  - simplify_eq. destruct (bool_decide (is_Some o)); simpl; lia.
  - specialize (IH id H). destruct (bool_decide (is_Some x)); simpl; lia.
Qed.

Lemma set_submitting_ok k b f : flight_ok f -> flight_ok (setChatSubmittingForRuntimeKey k b f).
Proof.
  intros [H1 H2 H3]. unfold setChatSubmittingForRuntimeKey. destruct (nonempty k) eqn:E; simpl; [|by split].
  apply nonempty_true in E. split; [done|done|]. simpl. destruct b; set_solver.
Qed.
Lemma set_submitting_fields k b f : let f' := setChatSubmittingForRuntimeKey k b f in
  fl_pending f' = fl_pending f /\ fl_timers f' = fl_timers f /\ fl_armed f' = fl_armed f.
Proof. unfold setChatSubmittingForRuntimeKey. by destruct (nonempty k). Qed.
Lemma set_submitting_conf k b f k' : confirming_at (setChatSubmittingForRuntimeKey k b f) k' <-> confirming_at f k'.
Proof. unfold confirming_at. by rewrite (proj1 (set_submitting_fields k b f)). Qed.

Lemma set_true_by P k f : flight_ok f -> submitting_by P f -> P k -> submitting_by P (setChatSubmittingForRuntimeKey k true f).
Proof.
  intros [_ _ H3] H Hk k'. rewrite set_submitting_conf. unfold setChatSubmittingForRuntimeKey. destruct (nonempty k); simpl; [|by apply H].
  intros [->%elem_of_singleton|]%elem_of_union; [by left|by apply H].
Qed.
(** Releasing a key frees it of what it was for. *)
Lemma set_false_by P (P' : string -> Prop) k f : flight_ok f -> submitting_by P f -> (forall k', k' <> k -> P k' -> P' k') ->
  submitting_by P' (setChatSubmittingForRuntimeKey k false f).
Proof.
  intros [_ _ H3] H Hk k'. rewrite set_submitting_conf. unfold setChatSubmittingForRuntimeKey. destruct (nonempty k) eqn:E; simpl.
  - intros [Hin Hne]%elem_of_difference. rewrite elem_of_singleton in Hne. destruct (H _ Hin) as [Hp|]; [left; auto|by right].
  - apply nonempty_false in E. subst k. intros Hin. destruct (decide (k' = "")) as [->|]; [done|]. destruct (H _ Hin) as [Hp|]; [left; auto|by right].
Qed.

(** A timer cleared: the prompt it was for goes next, so only the other keys are told. *)
Record cleared (k : string) (f f' : flight) : Prop := {
  cl_submitting : fl_submitting f' = fl_submitting f;
  cl_pending : fl_pending f' = fl_pending f;
  cl_timers : fl_timers f' = delete k (fl_timers f);
  cl_armed : forall id k', fl_armed f' !! id = Some (Some k') <-> fl_armed f !! id = Some (Some k') /\ k' <> k;
  cl_length : length (fl_armed f') = length (fl_armed f);
  cl_work : (armed_work f' + (if bool_decide (is_Some (fl_timers f !! k)) then 1 else 0) = armed_work f)%nat
}.
Lemma clear_spec k f : (forall k id, fl_timers f !! k = Some id <-> fl_armed f !! id = Some (Some k)) -> cleared k f (clearPendingChatPromptTimer k f).
Proof.
  intros H. unfold clearPendingChatPromptTimer. destruct (fl_timers f !! k) as [id|] eqn:E.
  - pose proof (proj1 (H _ _) E) as Ea. split; cbn; [done|done|done| |by rewrite length_insert|].
    + intros id' k'. rewrite list_lookup_insert_Some. split.
      * intros [(_ & ? & _)|(Hne & Hl)]; [done|]. split; [done|]. intros ->. apply H in Hl. congruence.
      * intros [Hl Hne]. right. split; [|done]. intros <-. congruence.
    + rewrite E. case_bool_decide as Hs; [|exfalso; apply Hs; eauto]. unfold armed_work. cbn.
      pose proof (count_insert _ _ _ Ea) as Hc. rewrite bool_decide_eq_true_2 in Hc by eauto. exact Hc.
  - split; cbn; [done|done|by rewrite delete_id| |done|].
    + intros id k'. split; [|tauto]. intros Hl. split; [done|]. intros ->. apply H in Hl. congruence.
    + rewrite E. case_bool_decide as Hs; [by destruct Hs|lia].
Qed.

Lemma arm_ok k f f' p : cleared k f f' -> flight_ok f -> is_confirming p = true -> k <> ""%string ->
  flight_ok (arm_timer k (with_pending (<[k := p]> (fl_pending f')) f')).
Proof.
  intros [C1 C2 C3 C4 C5 _] [H1 H2 H3] Hp Hk. split; cbn; rewrite ?C1, ?C2, ?C3.
  - intros k' id. destruct (decide (k' = k)) as [->|Hne].
    + rewrite lookup_insert_eq. split; [intros [= <-]; rewrite lookup_app_r, Nat.sub_diag by lia; done|].
      rewrite lookup_snoc_Some. intros [[Hlt Hl]|[-> _]]; [|done]. by apply C4 in Hl as [_ ?].
    + rewrite lookup_insert_ne, lookup_delete_ne, H1, lookup_snoc_Some by done. split.
      * intros Hl. left. assert (Hl' : fl_armed f' !! id = Some (Some k')) by (by apply C4). split; [by eapply lookup_lt_Some|done].
      * intros [[_ Hl]|[_ [= ->]]]; [by apply C4 in Hl as [? _]|done].
  - intros k'. unfold confirming_at. cbn. rewrite ?C2. destruct (decide (k' = k)) as [->|Hne].
    + rewrite !lookup_insert_eq. split; eauto.
    + rewrite !lookup_insert_ne, lookup_delete_ne by done. apply H2.
  - done.
Qed.

(** The prompt is no longer waiting: it is gone, or known not to be delivered. *)
Lemma unarm_ok k f f' m : cleared k f f' -> flight_ok f -> (forall k', k' <> k -> m !! k' = fl_pending f !! k') ->
  (forall p, m !! k = Some p -> is_confirming p = false) -> flight_ok (with_pending m f').
Proof.
  intros [C1 C2 C3 C4 C5 _] [H1 H2 H3] Hm Hk. split; cbn; rewrite ?C1, ?C3; [| |done].
  - intros k' id. rewrite C4, <- H1, lookup_delete_Some. split; [intros [? ?]; auto|intros [? ?]; auto].
  - intros k'. unfold confirming_at. cbn. destruct (decide (k' = k)) as [->|Hne].
    + rewrite lookup_delete_eq. split; [by intros [? ?]|]. intros (p & Hp & Hc). by rewrite (Hk _ Hp) in Hc.
    + rewrite lookup_delete_ne, Hm by done. apply H2.
Qed.

(** What an update leaves: a flight in order, no more timers than [n] more, keys freed. *)
Record lands (P : string -> Prop) (n : nat) (f f' : flight) : Prop := {
  ld_ok : flight_ok f'; ld_by : submitting_by P f'; ld_work : (armed_work f' <= armed_work f + n)%nat
}.

Lemma mark_lands P k message f : flight_ok f -> submitting_by P f -> lands P 0 f (markPendingChatPromptUndelivered k message f).
Proof.
  intros Hf Hs. unfold markPendingChatPromptUndelivered.
  assert (Hd : lands P 0 f (setChatSubmittingForRuntimeKey k false f)).
  { split; [by apply set_submitting_ok|by eapply set_false_by; [|exact Hs|]|]. unfold armed_work.
    rewrite (proj2 (proj2 (set_submitting_fields k false f))). lia. }
  destruct (fl_pending f !! k) as [p|] eqn:Ep; [|done]. destruct (is_confirming p) eqn:Ec; simpl; [|done].
  pose proof (clear_spec k f (fo_armed _ Hf)) as C. set (f1 := clearPendingChatPromptTimer k f) in *.
  set (f2 := with_pending _ f1).
  assert (H2 : flight_ok f2).
  { eapply unarm_ok; [exact C|done| |].
    - intros k' Hne. by rewrite (cl_pending _ _ _ C), lookup_insert_ne.
    - intros q. rewrite lookup_insert_eq. intros [= <-]. done. }
  split; [by apply set_submitting_ok| |].
  - intros k'. rewrite set_submitting_conf. intros Hin. unfold setChatSubmittingForRuntimeKey in Hin.
    assert (Hk' : k' ∈ fl_submitting f /\ k' <> k).
    { destruct (nonempty k) eqn:En; simpl in Hin; rewrite (cl_submitting _ _ _ C) in Hin; [set_solver|].
      apply nonempty_false in En. subst k. split; [done|]. intros ->. by apply (fo_keys _ Hf). }
    destruct Hk' as [Hin' Hne]. destruct (Hs _ Hin') as [|(q & Hq & Hc)]; [by left|]. right. exists q. split; [|done]. cbn.
    by rewrite lookup_insert_ne, (cl_pending _ _ _ C).
  - unfold armed_work at 1. rewrite (proj2 (proj2 (set_submitting_fields k false f2))). cbn.
    pose proof (cl_work _ _ _ C) as Hw. unfold armed_work in Hw at 1. lia.
Qed.

Lemma forget_lands P k f : flight_ok f -> submitting_by P f -> lands P 0 f (forgetPendingChatPrompt k f).
Proof.
  intros Hf Hs. assert (Hid : lands P 0 f f) by (split; [done|done|lia]).
  unfold forgetPendingChatPrompt. destruct (nonempty k) eqn:En; simpl; [|done]. destruct (fl_pending f !! k) as [p|] eqn:Ep; [|done].
  pose proof (clear_spec k f (fo_armed _ Hf)) as C. set (f1 := clearPendingChatPromptTimer k f) in *. set (f2 := with_pending _ f1).
  assert (H2 : flight_ok f2).
  { eapply unarm_ok; [exact C|done| |].
    - intros k' Hne. by rewrite (cl_pending _ _ _ C), lookup_delete_ne.
    - intros q. by rewrite lookup_delete_eq. }
  split; [by apply set_submitting_ok| |].
  - intros k'. rewrite set_submitting_conf. unfold setChatSubmittingForRuntimeKey. rewrite En. simpl. rewrite (cl_submitting _ _ _ C).
    intros [Hin Hne]%elem_of_difference. rewrite elem_of_singleton in Hne. destruct (Hs _ Hin) as [|(q & Hq & Hc)]; [by left|].
    right. exists q. split; [|done]. cbn. by rewrite lookup_delete_ne, (cl_pending _ _ _ C).
  - unfold armed_work at 1. rewrite (proj2 (proj2 (set_submitting_fields k false f2))). cbn.
    pose proof (cl_work _ _ _ C) as Hw. unfold armed_work in Hw at 1. lia.
Qed.

(** The prompt now waiting takes over what its key was submitting for. *)
Lemma remember_lands P (P' : string -> Prop) k p f : flight_ok f -> submitting_by P f -> is_confirming p = true ->
  (forall k', k' <> k -> P k' -> P' k') -> lands P' 1 f (rememberPendingChatPrompt k p f).
Proof.
  intros Hf Hs Hp HP. unfold rememberPendingChatPrompt. destruct (nonempty k) eqn:En; simpl.
  - apply nonempty_true in En. rewrite Hp. pose proof (clear_spec k f (fo_armed _ Hf)) as C. split; [by apply (arm_ok k f)| |].
    + intros k'. cbn. rewrite (cl_submitting _ _ _ C). intros Hin. destruct (decide (k' = k)) as [->|Hne].
      * right. exists p. cbn. by rewrite lookup_insert_eq.
      * destruct (Hs _ Hin) as [|(q & Hq & Hc)]; [left; auto|]. right. exists q. cbn. by rewrite lookup_insert_ne, (cl_pending _ _ _ C).
    + unfold armed_work at 1. cbn. rewrite bfilter_app, length_app. simpl. pose proof (cl_work _ _ _ C) as Hw. unfold armed_work in Hw at 1. lia.
  - apply nonempty_false in En. subst k. split; [done| |lia]. intros k' Hin. destruct (decide (k' = "")) as [->|]; [by destruct (fo_keys _ Hf)|].
    destruct (Hs _ Hin); [left; auto|by right].
Qed.

(** A prompt moves to another session while nothing is under way there, and an undelivered one
    while nothing is submitting in its own. *)
Definition move_clean (fromRuntimeKey toRuntimeKey : string) (f : flight) : bool :=
  match fl_pending f !! fromRuntimeKey with
  | None => true
  | Some prompt =>
    bool_decide (fromRuntimeKey = toRuntimeKey) ||
    (match fl_pending f !! toRuntimeKey with None => true | Some _ => false end && negb (bool_decide (toRuntimeKey ∈ fl_submitting f)) &&
     (is_confirming prompt || negb (bool_decide (fromRuntimeKey ∈ fl_submitting f))))
  end.

Lemma move_submitting_in a b f k : a <> ""%string -> b <> ""%string -> a <> b ->
  k ∈ fl_submitting (moveChatSubmittingRuntimeKey a b f) <-> (k <> a /\ k ∈ fl_submitting f) \/ (k = b /\ a ∈ fl_submitting f).
Proof.
  intros Ha Hb Hab. unfold moveChatSubmittingRuntimeKey. rewrite !(proj2 (nonempty_true _)) by done. cbn [negb orb].
  rewrite bool_decide_eq_false_2 by done. case_bool_decide as Hin; cbn; [set_solver|]. split; [|intros [[_ ?]|[_ ?]]; done].
  intros Hk. left. split; [by intros ->|done].
Qed.
Lemma move_submitting_fields a b f : let f' := moveChatSubmittingRuntimeKey a b f in
  fl_pending f' = fl_pending f /\ fl_timers f' = fl_timers f /\ fl_armed f' = fl_armed f.
Proof. unfold moveChatSubmittingRuntimeKey. destruct (_ || _); [done|]. by destruct (bool_decide _). Qed.

(** A call takes its key to the session that was created for it. *)
Lemma move_submitting_lands P (P' : string -> Prop) a b f : flight_ok f -> submitting_by P f -> (forall k, k <> a -> P k -> P' k) -> P' b ->
  b <> ""%string -> a <> b -> lands P' 0 f (moveChatSubmittingRuntimeKey a b f).
Proof.
  intros Hf Hs HP Hb Hbne Hab. destruct (move_submitting_fields a b f) as (E1 & E2 & E3).
  destruct (decide (a = "")) as [->|Ha].
  - change (moveChatSubmittingRuntimeKey "" b f) with f. split; [done| |lia]. intros k Hk. destruct (Hs _ Hk) as [|]; [|by right].
    left. apply HP; [|done]. intros ->. by apply (fo_keys _ Hf).
  - split.
    + destruct Hf as [H1 H2 H3]. split; [by rewrite E2, E3| |].
      * intros k. unfold confirming_at. rewrite E1, E2. apply H2.
      * rewrite move_submitting_in by done. intros [[_ ?]|[E _]]; [done|by subst b].
    + intros k [[Hne Hk]|[-> _]]%move_submitting_in; [|by left|done..]. unfold confirming_at. rewrite E1.
      destruct (Hs _ Hk); [left; auto|by right].
    + unfold armed_work. rewrite E3. lia.
Qed.

(** Before a timer is armed again: the prompt is at its new key, its key freed or moved. *)
Record moved (a b : string) (q : PendingChatPrompt) (f f' : flight) : Prop := {
  mv_submitting : forall k, k ∈ fl_submitting f' <-> (k <> a /\ k ∈ fl_submitting f) \/ (k = b /\ a ∈ fl_submitting f);
  mv_pending : forall k, fl_pending f' !! k = if decide (k = a) then None else if decide (k = b) then Some q else fl_pending f !! k;
  mv_timers : fl_timers f' = delete a (fl_timers f);
  mv_armed : forall id k, fl_armed f' !! id = Some (Some k) <-> fl_armed f !! id = Some (Some k) /\ k <> a;
  mv_work : (armed_work f' + (if is_confirming q then 1 else 0) <= armed_work f)%nat
}.

Lemma moved_by P a b q f f' g : submitting_by P f -> moved a b q f f' -> a <> b -> b ∉ fl_submitting f ->
  is_confirming q || negb (bool_decide (a ∈ fl_submitting f)) = true ->
  fl_submitting g = fl_submitting f' -> fl_pending g = fl_pending f' -> submitting_by P g.
Proof.
  intros Hs M Hab Hb Hq G1 G2 k. unfold confirming_at. rewrite G1, G2, (mv_submitting _ _ _ _ _ M). setoid_rewrite (mv_pending _ _ _ _ _ M).
  intros [[Hne Hk]|[-> Hk]].
  - destruct (decide (k = a)); [done|]. destruct (decide (k = b)) as [->|]; [done|]. by apply Hs.
  - right. exists q. destruct (decide (b = a)); [congruence|]. destruct (decide (b = b)); [|done]. split; [done|].
    destruct (is_confirming q); [done|]. cbn in Hq. by apply negb_true_iff, bool_decide_eq_false_1 in Hq.
Qed.

Lemma moved_unarmed a b q f f' : flight_ok f -> moved a b q f f' -> a <> b -> b <> ""%string -> fl_pending f !! b = None -> is_confirming q = false ->
  flight_ok f'.
Proof.
  intros Hf M Hab Hbne Hb Hq. assert (Htb : fl_timers f !! b = None).
  { apply eq_None_not_Some. rewrite (fo_timer _ Hf). intros (r & Hr & _). by simplify_eq. }
  split; rewrite ?(mv_timers _ _ _ _ _ M), ?(mv_submitting _ _ _ _ _ M).
  - intros k id. rewrite lookup_delete_Some, (fo_armed _ Hf), (mv_armed _ _ _ _ _ M). split; [intros [? ?]; auto|intros [? ?]; auto].
  - intros k. unfold confirming_at. setoid_rewrite (mv_pending _ _ _ _ _ M). destruct (decide (k = a)) as [->|Hna].
    + rewrite lookup_delete_eq. split; [by intros [? ?]|by intros (? & ? & _)].
    + rewrite lookup_delete_ne, (fo_timer _ Hf) by done. destruct (decide (k = b)) as [->|]; [|done].
      split; [intros (r & Hr & _); by simplify_eq|]. intros (r & [= <-] & Hr). congruence.
  - intros [[_ ?]|[? _]]; [by apply (fo_keys _ Hf)|by subst b].
Qed.

Lemma moved_armed a b q f f' : flight_ok f -> moved a b q f f' -> a <> b -> b <> ""%string -> fl_pending f !! b = None -> is_confirming q = true ->
  flight_ok (arm_timer b f').
Proof.
  intros Hf M Hab Hbne Hb Hq. assert (Htb : fl_timers f !! b = None).
  { apply eq_None_not_Some. rewrite (fo_timer _ Hf). intros (r & Hr & _). by simplify_eq. }
  split; cbn; rewrite ?(mv_timers _ _ _ _ _ M), ?(mv_submitting _ _ _ _ _ M).
  - intros k id. pose proof (mv_armed _ _ _ _ _ M id k) as Ca. rewrite lookup_snoc_Some. destruct (decide (k = b)) as [->|Hne].
    + rewrite lookup_insert_eq. split; [intros [= <-]; by right|].
      intros [[_ Hl]|[-> _]]; [|done]. apply Ca in Hl as [Hl _]. apply (fo_armed _ Hf) in Hl. congruence.
    + rewrite lookup_insert_ne, lookup_delete_Some, (fo_armed _ Hf) by done. split.
      * intros [Hka Hl]. left. assert (Hl' : fl_armed f' !! id = Some (Some k)) by (apply Ca; auto). split; [by eapply lookup_lt_Some|done].
      * intros [[_ Hl]|[_ [= ->]]]; [|done]. apply Ca in Hl as [? ?]. auto.
  - intros k. unfold confirming_at. cbn. setoid_rewrite (mv_pending _ _ _ _ _ M). destruct (decide (k = b)) as [->|Hne].
    + rewrite lookup_insert_eq. destruct (decide (b = a)); [congruence|]. split; eauto.
    + rewrite lookup_insert_ne by done. destruct (decide (k = a)) as [->|Hna].
      * rewrite lookup_delete_eq. split; [by intros [? ?]|by intros (? & ? & _)].
      * rewrite lookup_delete_ne by done. apply (fo_timer _ Hf).
  - intros [[_ ?]|[? _]]; [by apply (fo_keys _ Hf)|by subst b].
Qed.

Lemma move_lands P a b s f : flight_ok f -> submitting_by P f -> move_clean a b f = true -> lands P 0 f (movePendingChatPrompt a b s f).
Proof.
  intros Hf Hs Hm. assert (Hid : lands P 0 f f) by (split; [done|done|lia]). unfold movePendingChatPrompt.
  destruct (nonempty a) eqn:Ea; cbn [negb orb]; [|done]. destruct (nonempty b) eqn:Eb; cbn [negb orb]; [|done].
  case_bool_decide as Hab; [done|]. unfold move_clean in Hm. destruct (fl_pending f !! a) as [p|] eqn:Ep; [|done].
  rewrite bool_decide_eq_false_2 in Hm by done. cbn [orb] in Hm. rewrite !andb_true_iff in Hm. destruct Hm as [[Hm1 Hm2] Hm3].
  destruct (fl_pending f !! b) eqn:Epb; [done|]. apply negb_true_iff, bool_decide_eq_false_1 in Hm2.
  apply nonempty_true in Ea. apply nonempty_true in Eb. set (q := moved_prompt s p). change (is_confirming p) with (is_confirming q) in *.
  pose proof (clear_spec a f (fo_armed _ Hf)) as C. set (f1 := clearPendingChatPromptTimer a f) in *. set (f2 := with_pending _ f1).
  destruct (move_submitting_fields a b f2) as (E1 & E2 & E3). set (f3 := moveChatSubmittingRuntimeKey a b f2) in *.
  assert (M : moved a b q f f3).
  { split.
    - intros k. unfold f3. rewrite move_submitting_in by done. cbn. by rewrite (cl_submitting _ _ _ C).
    - intros k. rewrite E1. cbn. rewrite (cl_pending _ _ _ C). destruct (decide (k = a)) as [->|Hne]; [by rewrite lookup_delete_eq|].
      rewrite lookup_delete_ne by done. destruct (decide (k = b)) as [->|Hnb]; [by rewrite lookup_insert_eq|by rewrite lookup_insert_ne].
    - by rewrite E2, <- (cl_timers _ _ _ C).
    - intros id k. rewrite E3. apply (cl_armed _ _ _ C).
    - replace (armed_work f3) with (armed_work f1) by (unfold armed_work; by rewrite E3). pose proof (cl_work _ _ _ C) as Hw.
      destruct (is_confirming q) eqn:Ec; [|lia]. rewrite bool_decide_eq_true_2 in Hw; [lia|]. apply (fo_timer _ Hf). by exists p. }
  clearbody f3. clear C E1 E2 E3 f1 f2. pose proof (mv_work _ _ _ _ _ M) as Hw. destruct (is_confirming q) eqn:Ec.
  - split; [by eapply moved_armed|eapply moved_by; [done|done|done|done|by rewrite Ec|done|done]|].
    unfold armed_work at 1. cbn. rewrite bfilter_app, length_app. simpl. unfold armed_work in Hw at 1. lia.
  - split; [by eapply moved_unarmed|eapply moved_by; [done|done|done|done|by rewrite Ec|done|done]|lia].
Qed.
