(* ===== verification/ChatSendSettles.v ===== *)
(** The send button is never stuck: the lifetime of what [app/WorkspaceApp.tsx] has under way
    for the prompts of [ChatSend].  A session whose key is submitting has a call that goes on,
    a compaction that is answered, or a prompt whose timer runs; each of these ends, in a number
    of steps known in advance. *)

From S2P Require Import Prelude Json Uri RegistryTypes ChatSessionKey ChatTurnView ChatPromptQueue ChatComposer ChatSessionHelpers AppMessages ChatSend.
Open Scope Z_scope.

(** * Events *)

(** What happens without the user: calls go on, and what they wait for is answered. *)
Definition internal (e : send_event) : bool :=
  match e with
  | EvResume _ _ _ | EvUploaded _ _ | EvAnswer _ _ | EvCreateAnswer _ _ _ | EvCompactAnswer _ _ _ _ | EvTimer _ => true
  | _ => false
  end.

(** A prompt is taken to the session of a draft, where nothing is under way. *)
Definition draft_clean (projectId : string) (draft : DraftChatSession) (sessionId : string) (w : sender) : bool :=
  move_clean (buildChatRuntimeKey projectId (draft_draftId draft)) (buildChatRuntimeKey projectId sessionId) (sd_flight w).
Fixpoint listed_clean (projectId : string) (sessions : list RegistryChatSession) (w : sender) : bool :=
  match sessions with
  | [] => true
  | session :: sessions =>
    match findDraftChatSessionForCreatedSession (project_drafts projectId (sd_view w)) (sess_createRequestId session) with
    | Some draft => draft_clean projectId draft (sess_sessionId session) w
    | None => true
    end && listed_clean projectId sessions (reconcileCreatedDraftSession projectId w session)
  end.
(** The registry names sessions by ids that are not blank, and prompts are moved cleanly
    ([move_clean]): not to a session that has a prompt or is submitting, and not, when they are
    undelivered, from a session that is submitting. *)
Definition send_clean (e : send_event) (w : sender) : bool :=
  match e with
  | EvAnswer n (inl sessionId) =>
    match sd_calls w !! n with
    | Some c =>
      let nextSessionId := str_or sessionId (c_sessionId c) in
      bool_decide (nextSessionId = c_sessionId c) || move_clean (c_runtimeKey c) (buildChatRuntimeKey (c_projectId c) nextSessionId) (sd_flight w)
    | None => true
    end
  | EvCreateAnswer n (inl session) _ =>
    match sd_creates w !! n with
    | Some c =>
      let projectId := draft_projectId (cr_draft c) in
      (negb (nonempty (sess_sessionId session)) || nonempty (trim (sess_sessionId session))) &&
      draft_clean projectId (default (cr_draft c) (findDraftChatSession projectId (draft_draftId (cr_draft c)) (sd_view w))) (sess_sessionId session) w
    | None => true
    end
  | EvListed projectId sessions => listed_clean projectId sessions w
  | _ => true
  end.

(** * What is still to be done *)

Definition pc_work (pc : send_pc) (attachments : list ChatAttachment) : nat :=
  match pc with
  | Ended => 0 | AtSend | AtRejected _ => 1 | AtUploaded _ => 3 | AtUpload _ _ rest => 4 + length rest
  | AtResolved _ | AtCreate _ => 5 + length attachments
  end%nat.
Definition call_work (c : send_call) : nat := pc_work (c_pc c) (c_attachments c).
Definition create_work (c : create) : nat := match cr_status c with Creating => 1 | _ => 0 end%nat.
Definition compact_work (c : compact_call) : nat := if k_live c then 1 else 0%nat.
Definition send_work (w : sender) : nat :=
  (sum_list_with call_work (sd_calls w) + sum_list_with create_work (sd_creates w) +
   sum_list_with compact_work (cs_calls (sd_compactions w)) + armed_work (sd_flight w))%nat.

(** The call holds its key: it neither ended nor waits for the answer to its prompt. *)
Definition busy (c : send_call) : bool := match c_pc c with AtSend | Ended => false | _ => true end.
Definition hold (Q : string -> Prop) (c : send_call) (k : string) : Prop := Q k \/ (busy c = true /\ c_submittingKey c = k).
Definition busy_key (calls : list send_call) (compacts : list compact_call) (k : string) : Prop :=
  (exists n c, calls !! n = Some c /\ busy c = true /\ c_submittingKey c = k) \/
  (exists n c, compacts !! n = Some c /\ k_live c = true /\ k_runtimeKey c = k).

Definition pc_ok (creates : nat) (projectId runtimeKey : string) (pc : send_pc) : Prop :=
  match pc with
  | AtResolved r => rs_runtimeKey r = runtimeKey
  | AtCreate id => (id < creates)%nat /\ nonempty (trim projectId) = true
  | _ => True
  end.
Definition call_ok (creates : nat) (c : send_call) : Prop :=
  busy c = true -> c_submittingKey c = c_runtimeKey c /\ pc_ok creates (c_projectId c) (c_runtimeKey c) (c_pc c).
Definition create_ok (c : create) : Prop := match cr_status c with Created s => nonempty (trim s) = true | _ => True end.

Record creates_ok (creates : list create) (keys : gmap string nat) : Prop := {
  ck_keys : forall k id, keys !! k = Some id -> (id < length creates)%nat;
  ck_named : Forall create_ok creates
}.
Record core_ok (f : flight) (compacts : list compact_call) (creates : list create) (keys : gmap string nat) (calls : list send_call) : Prop := {
  co_flight : flight_ok f;
  co_by : submitting_by (busy_key calls compacts) f;
  co_calls : Forall (call_ok (length creates)) calls;
  co_creates : creates_ok creates keys
}.
Definition send_ok (w : sender) : Prop := core_ok (sd_flight w) (cs_calls (sd_compactions w)) (sd_creates w) (sd_createKeys w) (sd_calls w).

(** * The flight *)

Lemma by_mono (P P' : string -> Prop) f : submitting_by P f -> (forall k, P k -> P' k) -> submitting_by P' f.
Proof. intros H HP k Hk. destruct (H _ Hk); [left; auto|by right]. Qed.
Lemma lands_id P f : flight_ok f -> submitting_by P f -> lands P 0 f f.
Proof. intros ??. split; [done|done|lia]. Qed.
Lemma lands_trans P P' n m f f' f'' : lands P n f f' -> lands P' m f' f'' -> lands P' (n + m) f f''.
Proof. intros [_ _ ?] [? ? ?]. split; [done|done|lia]. Qed.
Lemma lands_mono (P P' : string -> Prop) n f f' : lands P n f f' -> (forall k, P k -> P' k) -> lands P' n f f'.
Proof. intros [? ? ?] HP. split; [done|by eapply by_mono|done]. Qed.

Lemma set_lands P (P' : string -> Prop) k f : flight_ok f -> submitting_by P f -> (forall k', k' <> k -> P k' -> P' k') ->
  lands P' 0 f (setChatSubmittingForRuntimeKey k false f).
Proof.
  intros Hf Hs HP. split; [by apply set_submitting_ok|by eapply set_false_by|].
  unfold armed_work. rewrite (proj2 (proj2 (set_submitting_fields k false f))). lia.
Qed.

Lemma resolved_lands P k m f : flight_ok f -> submitting_by P f -> lands P 0 f (forgetPendingPromptIfResolved k m f).
Proof.
  intros Hf Hs. unfold forgetPendingPromptIfResolved. destruct (fl_pending f !! k); [|by apply lands_id].
  destruct (some _ _); [by apply forget_lands|by apply lands_id].
Qed.

(** The timer of a prompt is cleared by what it runs. *)
Lemma timer_lands P id f f' : flight_ok f -> submitting_by P f -> timer_fires id f = Some f' ->
  flight_ok f' /\ submitting_by P f' /\ (armed_work f' < armed_work f)%nat.
Proof.
  intros Hf Hs. unfold timer_fires. destruct (fl_armed f !! id) as [[k|]|] eqn:E; [|done..]. intros [= <-].
  assert (Ht : fl_timers f !! k = Some id) by (by apply (fo_armed _ Hf)).
  destruct (proj1 (fo_timer _ Hf k)) as (p & Hp & Hc); [eauto|].
  assert (Heq : markPendingChatPromptUndelivered k NOT_CONFIRMED (with_timers (fl_timers f) (<[id := None]> (fl_armed f)) f) =
                markPendingChatPromptUndelivered k NOT_CONFIRMED f).
  { unfold markPendingChatPromptUndelivered. cbn [fl_pending with_timers]. rewrite Hp, Hc. cbn [negb]. unfold clearPendingChatPromptTimer.
    cbn [fl_timers with_timers]. rewrite Ht. unfold with_timers. cbn [fl_armed fl_submitting fl_pending fl_timers]. by rewrite list_insert_insert_eq. }
  rewrite Heq. destruct (mark_lands P k NOT_CONFIRMED f Hf Hs) as [H1 H2 _]. split; [done|]. split; [done|].
  unfold markPendingChatPromptUndelivered. rewrite Hp, Hc. cbn [negb]. unfold armed_work at 1.
  rewrite (proj2 (proj2 (set_submitting_fields _ _ _))). pose proof (cl_work _ _ _ (clear_spec k f (fo_armed _ Hf))) as Hw.
  rewrite Ht, bool_decide_eq_true_2 in Hw by eauto. cbn. unfold armed_work in Hw at 1. lia.
Qed.

(** * Sessions created *)

Lemma call_ok_mono n m c : (n <= m)%nat -> call_ok n c -> call_ok m c.
Proof. intros Hnm H Hb. destruct (H Hb) as [? Hp]. split; [done|]. destruct (c_pc c); try done. simpl in *. destruct Hp. split; [lia|done]. Qed.

Lemma start_create p d w : creates_ok (sd_creates w) (sd_createKeys w) ->
  let r := startDraftSessionCreate p d w in
  creates_ok (sd_creates r.1) (sd_createKeys r.1) /\ (length (sd_creates w) <= length (sd_creates r.1))%nat /\
  (forall id, r.2 = inl id -> (id < length (sd_creates r.1))%nat) /\
  sd_flight r.1 = sd_flight w /\ sd_compactions r.1 = sd_compactions w /\ sd_calls r.1 = sd_calls w.
Proof.
  intros [H1 H2]. unfold startDraftSessionCreate. destruct (sd_createKeys w !! _) as [id|] eqn:E.
  { cbn. split; [by split|]. split; [lia|]. split; [|done]. intros ? [= <-]. by eapply H1. }
  destruct (findDraftChatSession p d _) as [draft|]; [|cbn; split; [by split|split; [lia|done]]].
  destruct (canStartDraftChatSessionCreate _); cbn; [|split; [by split|split; [lia|done]]].
  rewrite length_app. cbn. split; [|split; [lia|split; [|done]]].
  - split.
    + rewrite length_app. cbn. intros k id [[<- <-]|[_ Hk]]%lookup_insert_Some; [lia|]. pose proof (H1 _ _ Hk). lia.
    + apply Forall_app. split; [done|]. by repeat constructor.
  - intros id [= <-]. lia.
Qed.

Lemma add_creates f ks cr keys calls cr' keys' : core_ok f ks cr keys calls -> creates_ok cr' keys' -> (length cr <= length cr')%nat ->
  core_ok f ks cr' keys' calls.
Proof. intros [? ? H ?] Hc Hl. split; [done|done| |done]. eapply Forall_impl; [exact H|]. intros c. by apply call_ok_mono. Qed.

Lemma apply_success p draft s w : let w' := applyDraftSessionCreateSuccess p draft s w in
  sd_flight w' = movePendingChatPrompt (buildChatRuntimeKey p (draft_draftId draft)) (buildChatRuntimeKey p s) s (sd_flight w) /\
  sd_compactions w' = sd_compactions w /\ sd_creates w' = sd_creates w /\ sd_createKeys w' = sd_createKeys w /\ sd_calls w' = sd_calls w.
Proof.
  unfold applyDraftSessionCreateSuccess. cbn [sd_flight with_view sd_compactions sd_creates sd_createKeys sd_calls].
  unfold moveChatRuntimeState. destruct (_ || _ || _) eqn:E; [|done].
  cbn. split; [|done]. unfold movePendingChatPrompt. by rewrite E.
Qed.

Lemma draft_created p draft s w : send_ok w -> draft_clean p draft s w = true ->
  let w' := applyDraftSessionCreateSuccess p draft s w in send_ok w' /\ (send_work w' <= send_work w)%nat.
Proof.
  intros [Hf Hb Hc Hk] Hm. destruct (apply_success p draft s w) as (E1 & E2 & E3 & E4 & E5).
  destruct (move_lands _ _ _ s _ Hf Hb Hm) as [L1 L2 L3].
  split; [unfold send_ok; rewrite E1, E2, E3, E4, E5; by split|]. unfold send_work. rewrite E1, E2, E3, E5. lia.
Qed.

Lemma listed_ok p sessions w : send_ok w -> listed_clean p sessions w = true -> send_ok (reconcileCreatedDraftSessions p sessions w).
Proof.
  revert w. induction sessions as [|s sessions IH]; intros w Hw Hl; [done|]. cbn in Hl. apply andb_true_iff in Hl as [Hs Hl].
  apply IH; [|done]. unfold reconcileCreatedDraftSession. destruct (findDraftChatSessionForCreatedSession _ _); [|done]. by apply draft_created.
Qed.

Lemma create_answered n answer now w w' : send_ok w -> send_clean (EvCreateAnswer n answer now) w = true -> createAnswered n answer now w = Some w' ->
  send_ok w' /\ (send_work w' < send_work w)%nat.
Proof.
  intros Hw Hc. unfold createAnswered. destruct (sd_creates w !! n) as [c|] eqn:En; [|done]. destruct (cr_status c) eqn:Es; [|done..].
  set (key := buildChatRuntimeKey _ (draft_draftId (cr_draft c))).
  assert (Hsettle : forall status u, send_ok u -> sd_creates u = sd_creates w -> create_ok (settle_create status c) -> status <> Creating ->
    let u' := with_creates (alter (settle_create status) n (sd_creates u)) (delete key (sd_createKeys u)) u in
    send_ok u' /\ (send_work u' < send_work u)%nat).
  { intros status u Hu Eu Hok Hne. split.
    - eapply add_creates; [exact Hu| |cbn; by rewrite length_alter]. destruct (co_creates _ _ _ _ _ Hu) as [K1 K2]. split.
      + cbn. rewrite length_alter. intros k id [_ Hk]%lookup_delete_Some. by eapply K1.
      + cbn. apply Forall_lookup. intros i x Hx. rewrite list_lookup_alter in Hx. destruct (decide (n = i)) as [<-|].
        * rewrite Eu, En in Hx. cbn in Hx. by injection Hx as <-.
        * by eapply Forall_lookup in K2.
    - unfold send_work. cbn. rewrite Eu. pose proof (sum_alter create_work (settle_create status) n _ _ En) as Hsum.
      assert (create_work c = 1%nat) by (unfold create_work; by rewrite Es).
      assert (create_work (settle_create status c) = 0%nat) by (unfold create_work; cbn; by destruct status). lia. }
  assert (Hfailed : forall v status, create_ok (settle_create status c) -> status <> Creating ->
    let u' := with_creates (alter (settle_create status) n (sd_creates w)) (delete key (sd_createKeys w)) (with_view v w) in
    send_ok u' /\ (send_work u' < send_work w)%nat) by (intros v status; apply (Hsettle status (with_view v w) Hw eq_refl)).
  intros [= <-]. destruct answer as [session|message].
  - destruct (nonempty (sess_sessionId session)) eqn:Ene; [|by apply Hfailed].
    cbn in Hc. rewrite En, Ene in Hc. cbn in Hc. apply andb_true_iff in Hc as [Hc1 Hc2]. destruct (draft_created _ _ _ _ Hw Hc2) as [D1 D2].
    edestruct (Hsettle (Created (sess_sessionId session))) as [? ?]; [exact D1|by apply apply_success|done|done|]. split; [done|].
    by eapply Nat.lt_le_trans; [|exact D2].
  - by apply Hfailed.
Qed.

(** * A call goes on *)

Definition others (calls : list send_call) (compacts : list compact_call) (n : nat) (k : string) : Prop :=
  (exists m c, m <> n /\ calls !! m = Some c /\ busy c = true /\ c_submittingKey c = k) \/
  (exists m c, compacts !! m = Some c /\ k_live c = true /\ k_runtimeKey c = k).

(** A call went on from [c] to [r]: it is nearer to its end, and holds its key until then. *)
Record goes_on (Q : string -> Prop) (w : sender) (c : send_call) (r : sender * send_call) : Prop := {
  gs_flight : exists n, lands (hold Q r.2) n (sd_flight w) (sd_flight r.1) /\ (n + call_work r.2 < call_work c)%nat;
  gs_call : call_ok (length (sd_creates w)) r.2;
  gs_calls : sd_calls r.1 = sd_calls w;
  gs_compacts : sd_compactions r.1 = sd_compactions w;
  gs_creates : sd_creates r.1 = sd_creates w;
  gs_keys : sd_createKeys r.1 = sd_createKeys w
}.

Lemma call_goes n g w w' : send_ok w -> step_call n g w = Some w' ->
  (forall Q c r, sd_calls w !! n = Some c -> g c w = Some r -> call_ok (length (sd_creates w)) c -> submitting_by (hold Q c) (sd_flight w) ->
    goes_on Q w c r) ->
  send_ok w' /\ (send_work w' < send_work w)%nat.
Proof.
  intros [Hf Hb Hc Hk]. unfold step_call. destruct (sd_calls w !! n) as [c|] eqn:En; [|done]. cbn [mbind option_bind].
  destruct (g c w) as [r|] eqn:Eg; [|done]. cbn [mbind option_bind]. intros [= <-] Hgo.
  set (Q := others (sd_calls w) (cs_calls (sd_compactions w)) n).
  assert (HQ : submitting_by (hold Q c) (sd_flight w)).
  { eapply by_mono; [exact Hb|]. intros k [(m & c' & Hm & Hbu & Hk')|?]; [|by left; right].
    destruct (decide (m = n)) as [->|]; [right; by simplify_eq|]. left. left. eauto 10. }
  destruct (Hgo Q c r eq_refl Eg) as [(d & [L1 L2 L3] & Hw) G2 G3 G4 G5 G6].
  { by eapply Forall_lookup in Hc. } { done. }
  assert (Hlt : (n < length (sd_calls w))%nat) by (by eapply lookup_lt_Some). split.
  - unfold send_ok. cbn. rewrite G3, G4, G5, G6. split; [done| |by apply Forall_insert|done].
    eapply by_mono; [exact L2|]. intros k [[(m & c' & Hm & Hl & Hr)|?]|[Hbu Hke]].
    + left. exists m, c'. by rewrite list_lookup_insert_ne by done.
    + by right.
    + left. exists n, r.2. by rewrite list_lookup_insert_eq.
  - unfold send_work. cbn. rewrite G3, G4, G5. pose proof (sum_insert call_work n _ _ r.2 En). lia.
Qed.

Lemma release_lands Q c c' f : flight_ok f -> submitting_by (hold Q c) f ->
  lands (hold Q c') 0 f (setChatSubmittingForRuntimeKey (c_submittingKey c) false f).
Proof. intros Hf Hs. eapply set_lands; [done|exact Hs|]. intros k Hne [?|[_ ?]]; [by left|by subst k]. Qed.

(** The delivery ends the call, or its prompt takes over the key. *)
Lemma deliver_goes Q uploaded id now c w : flight_ok (sd_flight w) -> submitting_by (hold Q c) (sd_flight w) -> c_submittingKey c = c_runtimeKey c ->
  let r := deliverPrompt uploaded id now c w in
  lands (hold Q r.2) 1 (sd_flight w) (sd_flight r.1) /\ (call_work r.2 <= 1)%nat /\ busy r.2 = false /\
  sd_calls r.1 = sd_calls w /\ sd_compactions r.1 = sd_compactions w /\ sd_creates r.1 = sd_creates w /\ sd_createKeys r.1 = sd_createKeys w.
Proof.
  intros Hf Hs Hk. unfold deliverPrompt. set (blocks := match c_override c with Some b => b | None => _ end). clearbody blocks.
  assert (Hmore : forall P f, lands P 0 (sd_flight w) f -> lands P 1 (sd_flight w) f) by (intros P f [? ? ?]; split; [done|done|lia]).
  destruct blocks as [|b blocks]; [cbn; split; [apply Hmore; by apply release_lands|split; [unfold call_work; cbn; lia|done]]|].
  destruct (runtimeSessionHasActiveExecution _ _ _ _).
  - unfold reset_sent. destruct (c_preserve c); cbn; (split; [apply Hmore; by apply release_lands|split; [unfold call_work; cbn; lia|done]]).
  - set (prompt := {| pp_sessionId := _ |}).
    assert (Hl : lands (hold Q (with_pc AtSend (with_remembered c))) 1 (sd_flight w) (rememberPendingChatPrompt (c_runtimeKey c) prompt (sd_flight w))).
    { eapply remember_lands; [done|exact Hs|done|]. intros k Hne [?|[_ ?]]; [by left|]. exfalso. apply Hne. by rewrite <- Hk. }
    unfold reset_sent. destruct (c_preserve c); cbn; (split; [exact Hl|split; [unfold call_work; cbn; lia|done]]).
Qed.

(** The uploads yet to come are fewer. *)
Lemma uploads_go sofar attachments l : let pc := uploadChatAttachmentsForSend sofar attachments in
  (pc_work pc l < 4 + length attachments)%nat /\ (forall n p k, pc_ok n p k pc) /\ match pc with AtSend | Ended => False | _ => True end.
Proof.
  revert sofar. induction attachments as [|a attachments IH]; intros sofar; cbn; [split; [lia|done]|].
  destruct (at_completed a && _); [destruct (IH (sofar ++ [a])) as [? ?]; split; [lia|done]|]. destruct (negb _); cbn; (split; [lia|done]).
Qed.

Lemma rejected_goes Q c w : flight_ok (sd_flight w) -> submitting_by (hold Q c) (sd_flight w) -> (0 < call_work c)%nat -> goes_on Q w c (rejectSend c w).
Proof. intros Hf Hs Hw. split; cbn; try done. exists 0%nat. split; [by apply release_lands|done]. Qed.

Lemma after_resolved_goes Q r id now c w : flight_ok (sd_flight w) -> submitting_by (hold Q c) (sd_flight w) -> busy c = true ->
  c_submittingKey c = c_runtimeKey c -> rs_runtimeKey r <> ""%string \/ rs_runtimeKey r = c_runtimeKey c ->
  call_work c = (5 + length (c_attachments c))%nat -> goes_on Q w c (afterResolved r id now c w).
Proof.
  intros Hf Hs Hb Hk Hr Hw. unfold afterResolved. set (c1 := with_resolved r c). set (w1 := if bool_decide _ then w else _).
  assert (Hl : lands (hold Q c1) 0 (sd_flight w) (sd_flight w1)).
  { unfold w1. case_bool_decide as E.
    - apply lands_id; [done|]. eapply by_mono; [exact Hs|]. intros k [?|[_ Hk']]; [by left|]. right. split; [done|]. cbn. congruence.
    - cbn. eapply move_submitting_lands; [done|exact Hs| |right; by split|by destruct Hr|congruence].
      intros k Hne [?|[_ ?]]; [by left|by subst k]. }
  assert (Hsame : sd_calls w1 = sd_calls w /\ sd_compactions w1 = sd_compactions w /\ sd_creates w1 = sd_creates w /\ sd_createKeys w1 = sd_createKeys w).
  { unfold w1. by destruct (bool_decide _). }
  destruct Hsame as (S1 & S2 & S3 & S4). clearbody w1. change (c_override c1) with (c_override c). destruct (c_override c) eqn:Eo.
  - destruct Hl as [L1 L2 L3]. destruct (deliver_goes Q (c_attachments c1) id now c1 w1 L1 L2 eq_refl) as (D1 & D2 & D3 & D4 & D5 & D6 & D7).
    split; [|by (unfold call_ok; rewrite D3)|congruence..]. exists (0 + 1)%nat. split; [|lia]. by eapply lands_trans; [split|exact D1].
  - destruct (uploads_go [] (c_attachments c1) (c_attachments c1)) as (U1 & U2 & U3). split; [|split; [done|apply U2]|done..].
    exists 0%nat. split; [|rewrite Hw; exact (Nat.lt_trans _ _ _ U1 (Nat.lt_succ_diag_r _))].
    eapply lands_mono; [exact Hl|]. intros k [?|[_ ?]]; [by left|]. right. split; [|done]. unfold busy. cbn [c_pc with_pc snd].
    by destruct (uploadChatAttachmentsForSend _ _).
Qed.

(** A session with an id has a key. *)
Lemma runtime_key_nonempty p s : nonempty (trim p) = true -> nonempty (trim s) = true -> buildChatRuntimeKey p s <> ""%string.
Proof.
  intros Hp Hs. unfold buildChatRuntimeKey, encodeChatSessionKey, chatSessionKeyFromParts. rewrite Hp, Hs. cbn [negb orb mbind option_bind key_projectId key_sessionId].
  rewrite !trim_trim, Hp, Hs. cbn [negb orb key_projectId key_sessionId join]. by destruct (encodeURIComponent (trim p)).
Qed.

Lemma resume_goes Q id now c w r : flight_ok (sd_flight w) -> Forall create_ok (sd_creates w) -> resumeSend id now c w = Some r ->
  call_ok (length (sd_creates w)) c -> submitting_by (hold Q c) (sd_flight w) -> goes_on Q w c r.
Proof.
  intros Hf Hcr. unfold resumeSend, call_ok. destruct (c_pc c) as [rs|n|m| |up| |] eqn:Epc; try done; intros Hr Hok Hs;
    (destruct Hok as [Hk Hpc]; [by (unfold busy; rewrite Epc)|]); simpl in Hpc.
  - injection Hr as <-. apply after_resolved_goes; [done|done|by (unfold busy; rewrite Epc)|done|by right|by (unfold call_work; rewrite Epc)].
  - destruct Hpc as [_ Hp]. destruct (sd_creates w !! n) as [cr|] eqn:En; [|done]. cbn [fmap option_fmap option_map] in Hr.
    pose proof (Forall_lookup_1 _ _ _ _ Hcr En) as Hcok. unfold create_ok in Hcok. destruct (cr_status cr) as [|s|] eqn:Es; [done| |]; injection Hr as <-.
    + apply after_resolved_goes; [done|done|by (unfold busy; rewrite Epc)|done| |by (unfold call_work; rewrite Epc)]. left. by apply runtime_key_nonempty.
    + apply rejected_goes; [done|done|]. unfold call_work; rewrite Epc. cbn. lia.
  - injection Hr as <-. apply rejected_goes; [done|done|]. unfold call_work; rewrite Epc. cbn. lia.
  - injection Hr as <-. destruct (deliver_goes Q up id now c w Hf Hs Hk) as (D1 & D2 & D3 & D4 & D5 & D6 & D7).
    split; [|by (unfold call_ok; rewrite D3)|done..]. exists 1%nat. split; [done|]. unfold call_work at 2. rewrite Epc. cbn. lia.
Qed.

Lemma upload_goes Q result c w c' : flight_ok (sd_flight w) -> uploadEnded result c = Some c' ->
  call_ok (length (sd_creates w)) c -> submitting_by (hold Q c) (sd_flight w) -> goes_on Q w c (w, c').
Proof.
  intros Hf. unfold uploadEnded, call_ok. destruct (c_pc c) as [| | |sofar now rest| | |] eqn:Epc; try done. intros [= <-] Hok Hs.
  destruct Hok as [Hk _]; [by (unfold busy; rewrite Epc)|]. set (pc := match result with Some a => _ | None => _ end).
  assert (Hpc : (pc_work pc (c_attachments c) < 4 + length rest)%nat /\ (forall n p k, pc_ok n p k pc) /\ match pc with AtSend | Ended => False | _ => True end).
  { unfold pc. destruct result; [apply uploads_go|]. cbn. split; [lia|done]. }
  clearbody pc. destruct Hpc as (U1 & U2 & U3). split; [|split; [done|apply U2]|done..]. exists 0%nat. split.
  - apply lands_id; [done|]. eapply by_mono; [exact Hs|]. intros k [?|[_ ?]]; [by left|]. right. split; [|done]. unfold busy. cbn. by destruct pc.
  - unfold call_work. cbn. rewrite Epc. cbn. lia.
Qed.

Lemma answer_goes Q answer c w r : flight_ok (sd_flight w) -> sendAnswered answer c w = Some r ->
  match answer with
  | inl s => let next := str_or s (c_sessionId c) in
    bool_decide (next = c_sessionId c) || move_clean (c_runtimeKey c) (buildChatRuntimeKey (c_projectId c) next) (sd_flight w) = true
  | inr _ => True
  end -> submitting_by (hold Q c) (sd_flight w) -> goes_on Q w c r.
Proof.
  intros Hf. unfold sendAnswered. destruct (c_pc c) eqn:Epc; [done..| |done]. intros [= <-] Hcl Hs.
  assert (Hs' : submitting_by (hold Q (with_pc Ended c)) (sd_flight w)).
  { eapply by_mono; [exact Hs|]. intros k [?|[Hb _]]; [by left|]. by (unfold busy in Hb; rewrite Epc in Hb). }
  destruct answer as [s|m].
  - set (next := str_or s _) in *. set (w1 := if bool_decide _ then w else _).
    assert (Hl : lands (hold Q (with_pc Ended c)) 0 (sd_flight w) (sd_flight w1)).
    { unfold w1. destruct (bool_decide (next = c_sessionId c)); [by apply lands_id|]. by apply move_lands. }
    assert (Hsame : sd_calls w1 = sd_calls w /\ sd_compactions w1 = sd_compactions w /\ sd_creates w1 = sd_creates w /\ sd_createKeys w1 = sd_createKeys w).
    { unfold w1. by destruct (bool_decide _). }
    destruct Hsame as (S1 & S2 & S3 & S4). clearbody w1.
    destruct (shouldApplySentChatSelection _ _); (split; [|done|done..]; exists 0%nat; split; [exact Hl|unfold call_work; cbn; rewrite Epc; cbn; lia]).
  - destruct (fl_pending (sd_flight w) !! c_runtimeKey c); (split; [|done|done..]; exists 0%nat;
      (split; [|unfold call_work; cbn; rewrite Epc; cbn; lia])); [by apply mark_lands|by apply lands_id].
Qed.

(** * Every other event *)

(** Another flight, with no more calls than there were. *)
Lemma reflight f f' ks cr keys calls : core_ok f ks cr keys calls -> flight_ok f' -> submitting_by (busy_key calls ks) f' -> core_ok f' ks cr keys calls.
Proof. intros [? ? ? ?] ? ?. by split. Qed.

Lemma compaction_ok k s item w : send_ok w -> send_ok (start_compaction k s item w).
Proof.
  intros [Hf Hb Hc Hk]. unfold send_ok. cbn. split; [by apply set_submitting_ok| |done|done]. apply set_true_by; [done| |].
  - eapply by_mono; [exact Hb|]. intros k' [?|(n & c & Hn & ?)]; [by left|]. right. exists n, c. split; [by apply lookup_app_l_Some|done].
  - right. exists (length (cs_calls (sd_compactions w))). eexists. split; [by rewrite lookup_app_r, Nat.sub_diag by lia|done].
Qed.

Lemma invoke_ok id now w : send_ok w -> send_ok (invokeCompact id now w).
Proof.
  intros Hw. unfold invokeCompact. destruct (v_selected (sd_view w)) as [key|]; [|done]. destruct (_ || _); [done|].
  destruct (negb _); [done|]. destruct (_ || _); [exact Hw|]. by apply compaction_ok.
Qed.

Lemma resolve_send p s dk now w : creates_ok (sd_creates w) (sd_createKeys w) ->
  let r := resolveSelectedDraftSessionForSend p s dk now w in
  creates_ok (sd_creates r.1) (sd_createKeys r.1) /\ (length (sd_creates w) <= length (sd_creates r.1))%nat /\
  pc_ok (length (sd_creates r.1)) p (buildChatRuntimeKey p s) r.2 /\ match r.2 with AtSend | Ended => False | _ => True end /\
  sd_flight r.1 = sd_flight w /\ sd_compactions r.1 = sd_compactions w /\ sd_calls r.1 = sd_calls w.
Proof.
  intros Hk. unfold resolveSelectedDraftSessionForSend. destruct (chatSessionKeyFromParts p s) as [key|] eqn:Ekey; [|cbn; split; [done|split; [lia|done]]].
  destruct (findDraftChatSession p s (sd_view w)) as [draft|]; [|cbn; split; [done|split; [lia|done]]].
  destruct (negb _); [cbn; split; [done|split; [lia|done]]|]. set (w1 := with_view _ w).
  pose proof (start_create p (draft_draftId draft) w1 Hk) as (C1 & C2 & C3 & C4 & C5 & C6).
  destruct (startDraftSessionCreate p (draft_draftId draft) w1) as [w2 [id|m]]; cbn in *; (split; [done|split; [done|]]).
  - split; [split; [auto|]|done]. unfold chatSessionKeyFromParts in Ekey. by destruct (nonempty (trim p)).
  - done.
Qed.

Lemma send_message_ok options id now w : send_ok w -> send_ok (sendChatMessage options id now w).
Proof.
  intros Hw. unfold sendChatMessage. destruct (v_voiceAwaitingFinal _); [done|]. cbv zeta. destruct (_ && _ && _); [done|].
  destruct (_ && _ && _); [done|]. destruct (match o_blocksOverride options with Some [] => true | _ => false end); [done|].
  destruct (v_selected (sd_view w)) as [key|]; [|done]. destruct (negb _); [done|].
  destruct (if match o_blocksOverride options with Some _ => false | None => true end then _ else None) as [[kind|m]|].
  { destruct kind; destruct (o_preserveComposer options); try exact Hw; by apply (invoke_ok id now). } { done. }
  case_bool_decide as Hin; [done|]. set (k := buildChatRuntimeKey _ _) in *. set (w1 := on_flight _ w). destruct Hw as [Hf Hb Hc Hk].
  pose proof (resolve_send (key_projectId key) (key_sessionId key) (v_draftKey (sd_view w)) now w1 Hk) as (R1 & R2 & R3 & R4 & R5 & R6 & R7).
  destruct (resolveSelectedDraftSessionForSend _ _ _ now w1) as [w2 pc]. cbn [fst snd] in *. unfold send_ok.
  cbn [with_calls sd_flight sd_compactions sd_creates sd_createKeys sd_calls]. rewrite R5, R6, R7. split; [by apply set_submitting_ok| | |done].
  - apply set_true_by; [done| |].
    + eapply by_mono; [exact Hb|]. intros k' [(n & c & Hn & ?)|?]; [left; exists n, c; split; [by apply lookup_app_l_Some|done]|by right].
    + left. exists (length (sd_calls w)). eexists. split; [by rewrite lookup_app_r, Nat.sub_diag by (cbn; lia)|]. split; [|done]. unfold busy. cbn. by destruct pc.
  - apply Forall_app. split; [eapply Forall_impl; [exact Hc|]; intros c; by apply call_ok_mono|]. constructor; [|done]. by split.
Qed.

Lemma compact_answered n answer id now w w' : send_ok w -> compactAnswered n answer id now w = Some w' -> send_ok w' /\ (send_work w' < send_work w)%nat.
Proof.
  intros [Hf Hb Hc Hk]. unfold compactAnswered. destruct (cs_calls (sd_compactions w) !! n) as [c|] eqn:En; [|done].
  destruct (k_live c) eqn:El; [|done]. cbn [negb]. cbv zeta. set (calls := alter end_call n _). intros [= <-].
  match goal with |- send_ok (on_flight _ ?u) /\ _ => set (w1 := u) end.
  assert (S : cs_calls (sd_compactions w1) = calls /\ sd_flight w1 = sd_flight w /\ sd_calls w1 = sd_calls w /\ sd_creates w1 = sd_creates w /\ sd_createKeys w1 = sd_createKeys w).
  { unfold w1. destruct answer as [operationId| |]; cbn; [|done..]. by destruct (bool_decide _). }
  destruct S as (S1 & S2 & S3 & S4 & S5). clearbody w1.
  assert (Hl : lands (busy_key (sd_calls w) calls) 0 (sd_flight w) (setChatSubmittingForRuntimeKey (k_runtimeKey c) false (sd_flight w))).
  { eapply set_lands; [done|exact Hb|]. intros k Hne [?|(m & c' & Hm & Hl & Hkey)]; [by left|]. right. exists m, c'. split; [|done].
    unfold calls. rewrite list_lookup_alter_ne; [done|]. intros ->. by simplify_eq. }
  destruct Hl as [L1 L2 L3]. split.
  - unfold send_ok. cbn. rewrite S1, S2, S3, S4, S5. by split.
  - unfold send_work. cbn. rewrite S1, S2, S3, S4. pose proof (sum_alter compact_work end_call n _ _ En) as Hs.
    replace (compact_work c) with 1%nat in Hs by (unfold compact_work; by rewrite El). change (compact_work (end_call c)) with 0%nat in Hs. unfold calls. lia.
Qed.

Lemma message_ok p m merged w : send_ok w -> send_ok (onSessionMessage p m merged w).
Proof.
  intros Hw. unfold onSessionMessage. cbv zeta. match goal with |- send_ok (if _ then on_flight _ ?u else _) => set (w1 := u) end.
  assert (H1 : send_ok w1).
  { unfold w1. destruct merged; unfold store_messages; destruct (_ && _); try exact Hw;
      (destruct (bool_decide _); [exact Hw|]; destruct (bool_decide _); exact Hw). }
  clearbody w1. destruct (has_method _ _); [|done]. destruct (forget_lands _ (buildChatRuntimeKey p (msg_sessionId m)) _ (co_flight _ _ _ _ _ H1) (co_by _ _ _ _ _ H1)).
  by eapply reflight.
Qed.

(** Every event leaves things in order, and those without the user leave less to do. *)
Lemma send_step_ok e w w' : send_ok w -> send_clean e w = true -> send_step e w = Some w' ->
  send_ok w' /\ (internal e = true -> (send_work w' < send_work w)%nat).
Proof.
  intros Hw Hc. assert (Hdone : forall u, send_ok u -> internal e = false -> send_ok u /\ (internal e = true -> (send_work u < send_work w)%nat)).
  { intros u Hu ->. done. }
  pose proof Hw as [Hf Hb _ Hk]. destruct e; cbn [send_step]; intros H;
    try (injection H as <-; apply Hdone; [|done]; clear Hdone; first
      [exact Hw | by apply send_message_ok | by apply invoke_ok | by apply listed_ok | by apply message_ok | idtac]).
  - unfold retryPendingChatPrompt. destruct (fl_pending _ !! _); [by apply send_message_ok|done].
  - unfold editPendingChatPrompt. destruct (fl_pending _ !! _); [|done]. cbv zeta. destruct (_ && _); [done|].
    destruct (forget_lands _ runtimeKey _ Hf Hb). by eapply reflight.
  - unfold handleProjectCreateSession. destruct (_ || _); [done|]. cbv zeta. set (draftId := draft_draftId _). set (w1 := with_view _ w).
    destruct (start_create projectId draftId w1 Hk) as (C1 & C2 & _ & C4 & C5 & C6).
    unfold send_ok. rewrite C4, C5, C6. by apply (add_creates _ _ (sd_creates w) (sd_createKeys w)).
  - unfold dismissDraftChatSession. destruct (_ || _); [done|]. cbv zeta. apply (add_creates _ _ (sd_creates w) (sd_createKeys w)); [done| |cbn; lia].
    destruct Hk as [K1 K2]. split; [|done]. cbn. intros k id [_ ?]%lookup_delete_Some. by eapply K1.
  - unfold drain_effect in H. cbv zeta in H. destruct (_ || _); [done|]. injection H as <-. apply Hdone; [|done].
    unfold drainNextQueuedChatItem. destruct (v_selected _); [|done]. destruct (negb _); [done|]. destruct (runtimeSessionIsBusy _ _ _ _); [done|].
    destruct (shiftNextQueuedChatItem _ _) as [state [[prompt|compact]|]]; [|by apply compaction_ok|done]. by apply send_message_ok.
  - destruct (call_goes n (resumeSend id now) w w' Hw H) as [? ?]; [|done]. intros Q c r _ Hr Hok Hs. eapply resume_goes; [done|apply Hk|done..].
  - eapply call_goes in H as [? ?]; [done|done|]. cbn. intros Q c r _ Hr Hok Hs. destruct (uploadEnded result c) as [c'|] eqn:Eu; [|done].
    cbn in Hr. injection Hr as <-. by eapply upload_goes.
  - eapply call_goes in H as [? ?]; [done|done|]. intros Q c r Hn Hr _ Hs. eapply answer_goes; [done|done| |done].
    destruct answer as [s|]; [|done]. cbn in Hc. by rewrite Hn in Hc.
  - destruct (create_answered n answer now w w' Hw Hc H). done.
  - destruct (compact_answered n answer id now w w' Hw H). done.
  - unfold onSessionRead. destruct (resolved_lands _ (buildChatRuntimeKey projectId sessionId) messages _ Hf Hb). by eapply reflight.
  - cbn in H. destruct (timer_fires id (sd_flight w)) as [f|] eqn:Et; [|done]. cbn in H. injection H as <-.
    destruct (timer_lands _ _ _ _ Hf Hb Et) as (T1 & T2 & T3). split; [by eapply reflight|]. intros _. unfold send_work. cbn. lia.
Qed.

Lemma clean_run_ok es w w' : send_ok w -> guarded_run send_clean es w = Some w' ->
  send_ok w' /\ (Forall (fun e => internal e = true) es -> (length es + send_work w' <= send_work w)%nat).
Proof.
  revert w. induction es as [|e es IH]; intros w Hw; cbn; [intros [= <-]; split; [done|lia]|].
  destruct (send_clean e w) eqn:Ec; [|done]. destruct (send_step e w) as [w1|] eqn:Es; [|done]. cbn. intros H.
  destruct (send_step_ok e w w1 Hw Ec Es) as [H1 Hlt]. destruct (IH w1 H1 H) as [H2 Hle]. split; [done|].
  intros [He Hes]%Forall_cons. specialize (Hlt He). specialize (Hle Hes). lia.
Qed.

(** * Until it is settled *)

(** Every session may be sent to again, and no prompt waits for its confirmation. *)
Definition settled (w : sender) : Prop :=
  fl_submitting (sd_flight w) = ∅ /\ forall k p, fl_pending (sd_flight w) !! k = Some p -> is_confirming p = false.
Definition goes_further (w : sender) : Prop := exists e, internal e = true /\ send_clean e w = true /\ is_Some (send_step e w).

Lemma first_of {A} (P : A -> bool) (l : list A) : (exists n x, l !! n = Some x /\ P x = true) \/ (forall n x, l !! n = Some x -> P x = false).
Proof.
  induction l as [|x l IH]; [right; intros n y H; by rewrite lookup_nil in H|]. destruct (P x) eqn:E; [left; by exists 0%nat, x|].
  destruct IH as [(n & y & ? & ?)|IH]; [left; by exists (S n), y|]. right. intros [|n] y H; [by injection H as <-|by eapply IH].
Qed.

Lemma call_further w n c : send_ok w -> sd_calls w !! n = Some c -> match c_pc c with Ended => False | _ => True end -> goes_further w.
Proof.
  intros [_ _ Hc _] Hn Hpc. pose proof (Forall_lookup_1 _ _ _ _ Hc Hn) as Hok. unfold call_ok, busy in Hok.
  assert (Hstep : forall g r, g c w = Some r -> is_Some (step_call n g w)) by (intros g r Hr; unfold step_call; rewrite Hn; cbn; rewrite Hr; cbn; eauto).
  destruct (c_pc c) as [r|id|m|sofar now rest|up| |] eqn:E; [| | | | | |done].
  - exists (EvResume n "" ""). split; [done|]. split; [done|]. eapply Hstep. unfold resumeSend. by rewrite E.
  - destruct Hok as [_ [Hid _]]; [done|]. destruct (lookup_lt_is_Some_2 _ _ Hid) as [cr Hcr]. destruct (cr_status cr) eqn:Es.
    + exists (EvCreateAnswer id (inr ""%string) ""). split; [done|]. split; [done|]. cbn. unfold createAnswered. rewrite Hcr, Es. eauto.
    + exists (EvResume n "" ""). split; [done|]. split; [done|]. eapply Hstep. unfold resumeSend. rewrite E, Hcr. cbn. by rewrite Es.
    + exists (EvResume n "" ""). split; [done|]. split; [done|]. eapply Hstep. unfold resumeSend. rewrite E, Hcr. cbn. by rewrite Es.
  - exists (EvResume n "" ""). split; [done|]. split; [done|]. eapply Hstep. unfold resumeSend. by rewrite E.
  - exists (EvUploaded n None). split; [done|]. split; [done|]. eapply Hstep. unfold uploadEnded. by rewrite E.
  - exists (EvResume n "" ""). split; [done|]. split; [done|]. eapply Hstep. unfold resumeSend. by rewrite E.
  - exists (EvAnswer n (inr ""%string)). split; [done|]. split; [done|]. eapply Hstep. unfold sendAnswered. by rewrite E.
Qed.

Lemma settled_or_further w : send_ok w -> settled w \/ goes_further w.
Proof.
  intros Hw. pose proof Hw as [Hf Hb _ _].
  destruct (first_of (fun c => match c_pc c with Ended => false | _ => true end) (sd_calls w)) as [(n & c & Hn & Hpc)|Hcalls].
  { right. eapply call_further; [done|done|]. by destruct (c_pc c). }
  destruct (first_of k_live (cs_calls (sd_compactions w))) as [(n & c & Hn & Hl)|Hks].
  { right. exists (EvCompactAnswer n Refused "" ""). split; [done|]. split; [done|]. cbn. unfold compactAnswered. rewrite Hn, Hl. cbn. eauto. }
  destruct (first_of (fun o : option string => bool_decide (is_Some o)) (fl_armed (sd_flight w))) as [(n & o & Hn & Ho)|Hts].
  { right. apply bool_decide_eq_true_1 in Ho as [k ->]. exists (EvTimer n). split; [done|]. split; [done|]. cbn. unfold timer_fires. rewrite Hn. cbn. eauto. }
  left. assert (Hno : forall k, ~ confirming_at (sd_flight w) k).
  { intros k Hk. apply (fo_timer _ Hf) in Hk as [id Hid]. apply (fo_armed _ Hf) in Hid. apply Hts in Hid. apply bool_decide_eq_false_1 in Hid. apply Hid. eauto. }
  split.
  - apply elem_of_equiv_empty_L. intros k Hk. destruct (Hb _ Hk) as [[(n & c & Hn & Hbu & _)|(n & c & Hn & Hl & _)]|Hc].
    + apply Hcalls in Hn. unfold busy in Hbu. by destruct (c_pc c).
    + apply Hks in Hn. congruence.
    + by eapply Hno.
  - intros k p Hp. destruct (is_confirming p) eqn:E; [|done]. exfalso. apply (Hno k). by exists p.
Qed.

Lemma new_sender_ok : send_ok new_sender.
Proof.
  split; [apply no_flight_ok|intros k Hk; set_solver|constructor|]. split; [|constructor]. intros k id H. cbn in H. by rewrite lookup_empty in H.
Qed.

(** * The theorem *)

(** C7. The send button is not stuck while prompts are moved cleanly.  Let the registry name
    the sessions it creates by ids that are not blank, and let no answer, no created session and
    no listed session move a prompt to another session while that has a prompt or is submitting,
    nor move an undelivered prompt away while its own session is submitting again ([send_clean];
    [moved_prompt_stuck] is a run that does the last).  Then, whatever else the user and the
    registry did before, calls, answers and timers leave less to do with every step, so that
    only so many of them are possible; and until no session is submitting and no prompt waits
    for its confirmation, one more of them is. *)
Theorem send_always_settles es w es' w' : guarded_run send_clean es new_sender = Some w -> guarded_run send_clean es' w = Some w' ->
  Forall (fun e => internal e = true) es' -> (length es' + send_work w' <= send_work w)%nat /\ (settled w' \/ goes_further w').
Proof.
  intros H H' Hes. destruct (clean_run_ok es _ _ new_sender_ok H) as [Hw _]. destruct (clean_run_ok es' _ _ Hw H') as [Hw' Hle].
  split; [by apply Hle|by apply settled_or_further].
Qed.

Definition settle_key : ChatSessionKey := {| key_projectId := "p"; key_sessionId := "s" |}.
Definition settle_text (t : string) : send_options :=
  {| o_textOverride := Some t; o_attachmentsOverride := Some []; o_blocksOverride := None; o_preserveComposer := true |}.
Lemma send_always_settles_witness :
  exists w w', guarded_run send_clean [EvSelect (Some settle_key) "p:s"; EvSend (settle_text "hello") "1" "t"; EvResume 0 "1" "t"] new_sender = Some w /\
    guarded_run send_clean [EvResume 0 "1" "t"; EvTimer 0; EvAnswer 0 (inl "s"%string)] w = Some w' /\
    (3 + send_work w' <= send_work w)%nat /\ (settled w' \/ goes_further w').
Proof.
  pose (o1 := guarded_run send_clean [EvSelect (Some settle_key) "p:s"; EvSend (settle_text "hello") "1" "t"; EvResume 0 "1" "t"] new_sender).
  assert (H1 : is_Some o1) by (vm_compute; eauto). destruct H1 as [w H1].
  assert (H2 : is_Some (o1 ≫= guarded_run send_clean [EvResume 0 "1" "t"; EvTimer 0; EvAnswer 0 (inl "s"%string)])) by (vm_compute; eauto).
  rewrite H1 in H2. destruct H2 as [w' H2]. exists w, w'. split; [exact H1|]. split; [exact H2|].
  apply (send_always_settles [EvSelect (Some settle_key) "p:s"; EvSend (settle_text "hello") "1" "t"; EvResume 0 "1" "t"] w
    [EvResume 0 "1" "t"; EvTimer 0; EvAnswer 0 (inl "s"%string)] w'); [exact H1|exact H2|by repeat constructor].
Defined.

(** Without that a session is submitting for ever.  A prompt is not confirmed in time, the user
    sends again, and the late answer to the first, with another session id, moves the
    undelivered prompt to that session: it takes along the submitting state of the second call,
    which clears only that of its own session. *)
Lemma moved_prompt_stuck :
  let run := guarded_run (fun _ _ => true) [EvSelect (Some settle_key) "p:s"; EvSend (settle_text "hello") "1" "t"; EvResume 0 "1" "t"; EvResume 0 "1" "t";
    EvTimer 0; EvSend (settle_text "again") "2" "t"; EvAnswer 0 (inl "u"%string); EvResume 1 "2" "t"; EvResume 1 "2" "t"; EvTimer 1;
    EvAnswer 1 (inl "s"%string)] new_sender in
  let moved := buildChatRuntimeKey "p" "u" in
  match run with Some w => bool_decide (moved ∈ fl_submitting (sd_flight w)) && Nat.eqb (send_work w) 0 | None => false end = true.
Proof. vm_compute. reflexivity. Qed.
