(* ===== verification/ChatSendQueue.v ===== *)
(** A queued prompt is not lost: from [deliverPrompt] that queues it for a busy session, over
    renders, reorderings and moves to another session, to the request that sends it. *)

From S2P Require Import Prelude Json RegistryTypes ChatSessionKey ChatTurnView ChatPromptQueue ChatComposer ChatSessionHelpers AppMessages ChatSend.
Open Scope Z_scope.

(** * Where a prompt is kept *)

(** The queue as the next render leaves it. *)
Definition next_queue (q : queue_state) : QueuedChatItemsByKey := foldl apply_update (qs_state q) (qs_updates q).

Definition queue_has (b : list block) (q : QueuedChatItemsByKey) : Prop := exists k p, QPrompt p ∈ queued q k /\ prompt_blocks p = b.
(** A call was given the prompt and has not delivered it. *)
Definition call_has (b : list block) (calls : list send_call) : Prop :=
  exists n c r, calls !! n = Some c /\ c_pc c = AtResolved r /\ c_override c = Some b.
Definition request_has (b : list block) (requests : list request) : Prop := exists r, r ∈ requests /\ rq_blocks r = b.
(** Queued, on its way, or sent. *)
Definition kept (b : list block) (w : sender) : Prop :=
  queue_has b (next_queue (sd_queue w)) \/ call_has b (sd_calls w) \/ request_has b (sd_requests w).

(** The ref follows the state: [setQueuedPrompts] sets it in the updater, and the close of the
    connection finds no updater that has not run. *)
Definition closes_rendered (e : send_event) (w : sender) : bool :=
  match e with EvClose => bool_decide (length (qs_updates (sd_queue w)) = 0%nat) | _ => true end.
(** Nobody cancels prompts or closes the connection, and the queue is drained into a session
    that exists, while no dictation waits for its last words. *)
Definition keeps_queue (e : send_event) (w : sender) : bool :=
  match e with
  | EvCancelQueued _ _ | EvClose => false
  | EvDrain _ _ =>
    negb (v_voiceAwaitingFinal (sd_view w)) &&
    match v_selected (sd_view w) with
    | Some key => match findDraftChatSession (key_projectId key) (key_sessionId key) (sd_view w) with None => true | Some _ => false end
    | None => true
    end
  | _ => true
  end.

Definition in_step (q : queue_state) : Prop := let q' := foldl render_update q (qs_updates q) in qs_ref q' = qs_state q'.

(** Updates that take nothing from the queue. *)
Definition only_adds (u : queue_update) : bool := match u with UCancel _ _ | UReplace _ | UClear => false | _ => true end.

(** * The queue *)

Lemma queued_mem_insert k l q k' x : x ∈ queued q k' -> (k' = k -> x ∈ l) -> x ∈ queued (<[k := l]> q) k'.
Proof. intros Hx Hl. rewrite queued_insert. case_decide; [apply Hl; congruence|done]. Qed.

Lemma only_adds_keeps b u q : only_adds u = true -> queue_has b q -> queue_has b (apply_update q u).
Proof.
  intros Hu (k & p & Hp & Hb). assert (Hsame : forall q', QPrompt p ∈ queued q' k -> queue_has b q') by (intros q' ?; by exists k, p).
  destruct u as [k' p'|k' c|k' i|k' id|k' id|a c s|n|]; try done; cbn [apply_update].
  - apply Hsame. unfold enqueueChatPrompt, enqueueChatItem. apply queued_mem_insert; [done|]. intros ->. apply elem_of_app. by left.
  - apply Hsame. unfold enqueueChatCompact. destruct (hasQueuedChatCompact q k'); [done|]. unfold enqueueChatItem.
    apply queued_mem_insert; [done|]. intros ->. apply elem_of_app. by left.
  - apply Hsame. unfold enqueueChatItemToFront. apply queued_mem_insert; [done|]. intros ->. apply elem_of_cons. by right.
  - apply Hsame. unfold moveQueuedChatPromptToFront. destruct (findIndex _ _) as [i|]; [|done]. destruct (queued q k' !! i) as [t|] eqn:Et; [|done].
    apply queued_mem_insert; [done|]. intros <-. by rewrite <- (delete_Permutation _ _ _ Et).
  - unfold moveQueuedChatPrompts. case_bool_decide as Hac; [by apply Hsame|]. destruct (queued q a) as [|i l] eqn:Ea; [by apply Hsame|]. rewrite <- Ea. clear Ea i l.
    destruct (decide (k = a)) as [->|Hne].
    + exists c, (match with_session s (QPrompt p) with QPrompt p' => p' | QCompact _ => p end). split; [|exact Hb].
      rewrite queued_insert, decide_True by done. apply elem_of_app. right.
      apply list_elem_of_fmap. exists (QPrompt p). by rewrite cloneItem_id.
    + apply Hsame. apply queued_mem_insert; [|intros ->; apply elem_of_app; by left]. unfold queued. by rewrite lookup_delete_ne.
Qed.
Lemma adds_keep b us q : Forall (fun u => only_adds u = true) us -> queue_has b q -> queue_has b (foldl apply_update q us).
Proof. intros H. revert q. induction H as [|u us Hu _ IH]; intros q Hq; [done|]. cbn. apply IH. by apply only_adds_keeps. Qed.

Lemma render_updates us q : foldl render_update q us =
  {| qs_state := foldl apply_update (qs_state q) us; qs_ref := qs_ref (foldl render_update q us); qs_updates := qs_updates q |}.
Proof. revert q. induction us as [|u us IH]; intros [s r n]; [done|]. cbn [foldl]. by rewrite IH. Qed.

Lemma render_updates_agree us s r n m :
  qs_ref (foldl render_update {| qs_state := s; qs_ref := r; qs_updates := n |} us) = qs_ref (foldl render_update {| qs_state := s; qs_ref := r; qs_updates := m |} us).
Proof. revert s r n m. induction us as [|u us IH]; intros s r n m; [done|]. cbn. apply IH. Qed.

Lemma in_step_state s r us : in_step {| qs_state := s; qs_ref := r; qs_updates := us |} <->
  qs_ref (foldl render_update {| qs_state := s; qs_ref := r; qs_updates := [] |} us) = foldl apply_update s us.
Proof. unfold in_step. cbn. rewrite (render_updates us). cbn. by rewrite (render_updates_agree us s r us []). Qed.

Lemma in_step_snoc s r us u : u <> UClear -> in_step {| qs_state := s; qs_ref := r; qs_updates := us ++ [u] |}.
Proof. intros Hu. apply in_step_state. rewrite !foldl_app. cbn. rewrite (render_updates us). cbn. by destruct u. Qed.

Lemma in_step_app q us : in_step q -> Forall (fun u => u <> UClear) us ->
  in_step {| qs_state := qs_state q; qs_ref := qs_ref q; qs_updates := qs_updates q ++ us |}.
Proof.
  intros Hq Hus. destruct us as [|u us _] using rev_ind; [rewrite app_nil_r; by destruct q|]. rewrite (assoc_L (++)).
  apply in_step_snoc. apply Forall_app in Hus as [_ Hu]. by apply Forall_cons in Hu as [? _].
Qed.

(** * Events that only add *)

Record grows (P : queue_update -> bool) (w w' : sender) : Prop := {
  gr_queue : exists us, sd_queue w' = {| qs_state := qs_state (sd_queue w); qs_ref := qs_ref (sd_queue w); qs_updates := qs_updates (sd_queue w) ++ us |} /\
             Forall (fun u => P u = true) us;
  gr_requests : exists rs, sd_requests w' = sd_requests w ++ rs;
  gr_calls : exists cs, sd_calls w' = sd_calls w ++ cs
}.

Lemma grows_same P w w' : sd_queue w' = sd_queue w -> sd_requests w' = sd_requests w -> sd_calls w' = sd_calls w -> grows P w w'.
Proof.
  intros H1 H2 H3. split; exists []; rewrite ?app_nil_r; [|done|done]. split; [|constructor]. rewrite H1. by destruct (sd_queue w).
Qed.
Lemma grows_then P w1 w2 w3 : grows P w1 w2 -> grows P w2 w3 -> grows P w1 w3.
Proof.
  intros [(u1 & E1 & F1) (r1 & R1) (c1 & C1)] [(u2 & E2 & F2) (r2 & R2) (c2 & C2)]. split.
  - exists (u1 ++ u2). rewrite E2, E1. cbn. rewrite (assoc_L (++)). split; [done|by apply Forall_app].
  - exists (r1 ++ r2). by rewrite R2, R1, (assoc_L (++)).
  - exists (c1 ++ c2). by rewrite C2, C1, (assoc_L (++)).
Qed.
Lemma grows_update P u w w' : sd_queue w' = sd_queue (setQueuedPrompts u w) -> P u = true -> sd_requests w' = sd_requests w -> sd_calls w' = sd_calls w -> grows P w w'.
Proof.
  intros H1 Hu H2 H3. split; [exists [u]; split; [by rewrite H1|by repeat constructor]|exists []; by rewrite app_nil_r..].
Qed.

Lemma kept_grows b w w' : grows only_adds w w' -> kept b w -> kept b w'.
Proof.
  intros [(us & E & F) (rs & R) (cs & C)] [Hq|[(n & c & r & Hn & ?)|(r & Hr & ?)]].
  - left. rewrite E. unfold next_queue. cbn. rewrite foldl_app. by apply adds_keep.
  - right. left. exists n, c, r. rewrite C. split; [by apply lookup_app_l_Some|done].
  - right. right. exists r. rewrite R. split; [apply elem_of_app; by left|done].
Qed.
Lemma in_step_grows P w w' : (forall u, P u = true -> u <> UClear) -> grows P w w' -> in_step (sd_queue w) -> in_step (sd_queue w').
Proof. intros HP [(us & E & F) _ _] H. rewrite E. apply in_step_app; [done|]. eapply Forall_impl; [exact F|]. exact HP. Qed.

Lemma invoke_grows id now w : grows only_adds w (invokeCompact id now w).
Proof.
  unfold invokeCompact. destruct (v_selected _); [|by apply grows_same]. destruct (_ || _); [by apply grows_same|].
  destruct (negb _); [by apply grows_same|]. destruct (_ || _); [by eapply grows_update|by apply grows_same].
Qed.

Lemma resolve_same p s dk now w : let r := resolveSelectedDraftSessionForSend p s dk now w in
  sd_queue r.1 = sd_queue w /\ sd_requests r.1 = sd_requests w /\ sd_calls r.1 = sd_calls w.
Proof.
  unfold resolveSelectedDraftSessionForSend. destruct (chatSessionKeyFromParts p s); [|done]. destruct (findDraftChatSession _ _ _) as [d|]; [|done].
  destruct (negb _); [done|]. unfold startDraftSessionCreate. cbn [sd_createKeys with_view sd_view]. destruct (_ !! _); [done|].
  destruct (findDraftChatSession _ _ _); [|done]. by destruct (negb _).
Qed.

Lemma send_grows options id now w : grows only_adds w (sendChatMessage options id now w).
Proof.
  unfold sendChatMessage. cbv zeta. assert (Hid : grows only_adds w w) by (by apply grows_same).
  destruct (v_voiceAwaitingFinal _); [done|]. destruct (_ && _ && _); [done|]. destruct (_ && _ && _); [done|].
  destruct (match o_blocksOverride options with Some [] => true | _ => false end); [done|].
  destruct (v_selected (sd_view w)) as [key|]; [|done]. destruct (negb _); [done|].
  destruct (if match o_blocksOverride options with Some _ => false | None => true end then _ else None) as [[kind|m]|].
  { set (w1 := if o_preserveComposer options then w else _). assert (H1 : grows only_adds w w1) by (unfold w1; destruct (o_preserveComposer options); by apply grows_same).
    destruct kind; try exact H1. eapply grows_then; [exact H1|apply invoke_grows]. } { done. }
  case_bool_decide; [done|]. set (w1 := on_flight _ w).
  destruct (resolve_same (key_projectId key) (key_sessionId key) (v_draftKey (sd_view w)) now w1) as (E1 & E2 & E3).
  destruct (resolveSelectedDraftSessionForSend _ _ _ now w1) as [w2 pc]. cbn [fst] in *. split; cbn [with_calls sd_queue sd_requests sd_calls].
  - exists []. rewrite E1, app_nil_r. cbn. by destruct (sd_queue w).
  - exists []. by rewrite E2, app_nil_r.
  - rewrite E3. eexists. reflexivity.
Qed.

Lemma success_grows p draft s w : grows only_adds w (applyDraftSessionCreateSuccess p draft s w).
Proof.
  unfold applyDraftSessionCreateSuccess. cbv zeta. eapply grows_then; [|by apply grows_same].
  unfold moveChatRuntimeState. destruct (_ || _ || _); [by apply grows_same|]. by eapply grows_update.
Qed.

Lemma listed_grows p sessions w : grows only_adds w (reconcileCreatedDraftSessions p sessions w).
Proof.
  revert w. induction sessions as [|s sessions IH]; intros w; [by apply grows_same|]. eapply grows_then; [|apply IH].
  unfold reconcileCreatedDraftSession. destruct (findDraftChatSessionForCreatedSession _ _); [apply success_grows|by apply grows_same].
Qed.

Lemma created_grows n answer now w w' : createAnswered n answer now w = Some w' -> grows only_adds w w'.
Proof.
  unfold createAnswered. destruct (sd_creates w !! n) as [c|]; [|done]. destruct (cr_status c); [|done..]. intros [= <-].
  destruct answer; [|by apply grows_same]. destruct (nonempty _); [|by apply grows_same]. eapply grows_then; [apply success_grows|by apply grows_same].
Qed.

Lemma compacted_grows n answer id now w w' : compactAnswered n answer id now w = Some w' -> grows only_adds w w'.
Proof.
  unfold compactAnswered. destruct (_ !! n) as [c|]; [|done]. destruct (negb _); [done|]. intros [= <-].
  destruct answer; [by apply grows_same| |by apply grows_same]. by destruct (k_item c); eapply grows_update.
Qed.

Lemma message_grows p m merged w : grows only_adds w (onSessionMessage p m merged w).
Proof.
  unfold onSessionMessage. cbv zeta. destruct (has_method "prompt_request" m); destruct merged; destruct (_ && _); try (by apply grows_same);
    (destruct (bool_decide _); [by apply grows_same|]; destruct (bool_decide _); by apply grows_same).
Qed.

(** * Calls *)

Lemma reset_same c w : let w' := reset_sent c w in sd_queue w' = sd_queue w /\ sd_requests w' = sd_requests w /\ sd_calls w' = sd_calls w.
Proof. unfold reset_sent. by destruct (c_preserve c). Qed.

Lemma deliver_grows up id now c w : grows only_adds w (deliverPrompt up id now c w).1.
Proof.
  unfold deliverPrompt. set (blocks := match c_override c with Some b => b | None => _ end). clearbody blocks.
  destruct blocks as [|b l]; [by apply grows_same|]. destruct (runtimeSessionHasActiveExecution _ _ _ _).
  - match goal with |- context [reset_sent c ?x] => destruct (reset_same c x) as (R1 & R2 & R3) end. by eapply grows_update.
  - match goal with |- context [reset_sent c ?x] => destruct (reset_same c x) as (R1 & R2 & R3) end. split; cbn.
    + exists []. rewrite R1, app_nil_r. cbn. by destruct (sd_queue w).
    + rewrite R2. by eexists.
    + exists []. by rewrite R3, app_nil_r.
Qed.

(** A prompt given as blocks is sent or queued again. *)
Lemma deliver_keeps b up id now c w : b <> [] -> c_override c = Some b ->
  let w' := (deliverPrompt up id now c w).1 in queue_has b (next_queue (sd_queue w')) \/ request_has b (sd_requests w').
Proof.
  intros Hb Hc. unfold deliverPrompt. rewrite Hc. destruct b as [|b l]; [done|]. destruct (runtimeSessionHasActiveExecution _ _ _ _).
  - left. match goal with |- context [reset_sent c ?x] => destruct (reset_same c x) as (R1 & R2 & R3) end. cbn [fst on_flight with_flight sd_queue].
    rewrite R1. unfold next_queue. cbn [setQueuedPrompts with_queue sd_queue qs_state qs_updates]. rewrite foldl_app. cbn [foldl apply_update].
    eexists (c_runtimeKey c), _. unfold enqueueChatPrompt, enqueueChatItem. rewrite queued_insert, decide_True, cloneItem_id by done.
    split; [apply elem_of_app; right; by apply list_elem_of_singleton|done].
  - right. match goal with |- context [reset_sent c ?x] => destruct (reset_same c x) as (R1 & R2 & R3) end. cbn [fst with_requests sd_requests].
    eexists. split; [apply elem_of_app; right; by apply list_elem_of_singleton|done].
Qed.

(** A call that goes on, if it was given [b], delivers it. *)
Definition hands_over (w : sender) (c : send_call) (r : sender * send_call) : Prop :=
  grows only_adds w r.1 /\
  forall b r0, b <> [] -> c_pc c = AtResolved r0 -> c_override c = Some b -> queue_has b (next_queue (sd_queue r.1)) \/ request_has b (sd_requests r.1).

Lemma after_resolved_hands rs id now c w : hands_over w c (afterResolved rs id now c w).
Proof.
  unfold afterResolved. set (w1 := if bool_decide _ then w else _). assert (H1 : grows only_adds w w1) by (unfold w1; destruct (bool_decide _); by apply grows_same).
  clearbody w1. split.
  - cbn [with_resolved c_override]. destruct (c_override c); [|exact H1]. eapply grows_then; [exact H1|apply deliver_grows].
  - intros b r0 Hb _ Hc. cbn [with_resolved c_override]. rewrite Hc. by apply deliver_keeps.
Qed.

Lemma resume_hands id now c w r : resumeSend id now c w = Some r -> hands_over w c r.
Proof.
  unfold resumeSend. assert (Hrej : c_pc c = c_pc c -> match c_pc c with AtResolved _ => False | _ => True end -> hands_over w c (rejectSend c w)).
  { intros _ Hpc. split; [by apply grows_same|]. intros b r0 _ E. by rewrite E in Hpc. }
  destruct (c_pc c) as [rs|n|m| |up| |] eqn:Epc; try done.
  - intros [= <-]. apply after_resolved_hands.
  - destruct (cr_status <$> _) as [[|s|]|]; [done| | |done]; intros [= <-]; [apply after_resolved_hands|by apply Hrej].
  - intros [= <-]. by apply Hrej.
  - intros [= <-]. split; [apply deliver_grows|]. intros b r0 _ E. by rewrite E in Epc.
Qed.

Lemma upload_hands result c w c' : uploadEnded result c = Some c' -> hands_over w c (w, c').
Proof. unfold uploadEnded. destruct (c_pc c) eqn:Epc; try done. intros _. split; [by apply grows_same|]. intros b r0 _ E. by rewrite E in Epc. Qed.

Lemma answer_hands answer c w r : sendAnswered answer c w = Some r -> hands_over w c r.
Proof.
  unfold sendAnswered. destruct (c_pc c) eqn:Epc; try done. intros [= <-]. split; [|intros b r0 _ E; by rewrite E in Epc].
  destruct answer as [s|m]; cbv zeta; cbn [fst].
  - destruct (bool_decide _); destruct (shouldApplySentChatSelection _ _); by apply grows_same.
  - destruct (_ !! _); by apply grows_same.
Qed.

Lemma call_keeps n g w w' : step_call n g w = Some w' -> (forall c r, sd_calls w !! n = Some c -> g c w = Some r -> hands_over w c r) ->
  (forall b, b <> [] -> kept b w -> kept b w') /\ (in_step (sd_queue w) -> in_step (sd_queue w')).
Proof.
  unfold step_call. destruct (sd_calls w !! n) as [c|] eqn:En; [|done]. cbn [mbind option_bind]. destruct (g c w) as [r|] eqn:Eg; [|done].
  cbn [mbind option_bind]. intros [= <-] H. destruct (H c r eq_refl Eg) as [Hg Hb]. split.
  - intros b Hne Hk. destruct (kept_grows b w r.1 Hg Hk) as [?|[(m & c' & r0 & Hm & Hpc & Hc)|?]]; [by left| |by right; right].
    destruct (decide (m = n)) as [->|Hmn].
    + destruct Hg as [_ _ [cs E]]. rewrite E, (lookup_app_l_Some _ _ _ _ En) in Hm. simplify_eq. destruct (Hb b r0 Hne Hpc Hc); [by left|by right; right].
    + right. left. exists m, c', r0. cbn. by rewrite list_lookup_insert_ne.
  - intros Hi. eapply (in_step_grows only_adds _ r.1); [by intros []|done|done].
Qed.

(** * Draining *)

Lemma shifted_has b q k q' item : shiftNextQueuedChatItem q k = (q', Some item) -> queue_has b q ->
  queue_has b q' \/ exists p, item = QPrompt p /\ prompt_blocks p = b.
Proof.
  intros Hs (k' & p & Hp & Hb). pose proof (shift_item_spec q k) as Hq. destruct (queued q k) as [|i rest] eqn:E; [congruence|].
  rewrite Hq in Hs. injection Hs as <- <-. destruct (decide (k = k')) as [<-|Hne].
  - rewrite E in Hp. apply elem_of_cons in Hp as [<-|Hp]; [right; by exists p|]. left. exists k, p. by rewrite queued_store_rest, decide_True.
  - left. exists k', p. by rewrite queued_store_rest, decide_False.
Qed.

(** The prompt taken from the queue is in the hands of a call. *)
Lemma drained_call b text id now key w : v_voiceAwaitingFinal (sd_view w) = false -> v_selected (sd_view w) = Some key -> b <> [] ->
  nonempty (encodeChatSessionKey (Some key)) = true -> findDraftChatSession (key_projectId key) (key_sessionId key) (sd_view w) = None ->
  buildChatRuntimeKey (key_projectId key) (key_sessionId key) ∉ fl_submitting (sd_flight w) ->
  call_has b (sd_calls (sendChatMessage {| o_textOverride := Some text; o_attachmentsOverride := Some []; o_blocksOverride := Some b; o_preserveComposer := true |} id now w)).
Proof.
  intros Hv Hsel Hb Hkey Hd Hsub. unfold sendChatMessage. cbv zeta. cbn [o_textOverride o_attachmentsOverride o_blocksOverride o_preserveComposer default].
  rewrite Hv, Hsel, !andb_false_r. cbn [andb]. destruct b as [|x b]; [done|].
  destruct (chatSessionKeyFromParts (key_projectId key) (key_sessionId key)) as [key'|] eqn:Eparts.
  2:{ unfold encodeChatSessionKey in Hkey. cbn [mbind option_bind] in Hkey. by rewrite Eparts in Hkey. }
  assert (Hs : nonempty (key_sessionId key) = true).
  { destruct (nonempty (key_sessionId key)) eqn:Es; [done|]. apply nonempty_false in Es. rewrite Es in Eparts. unfold chatSessionKeyFromParts in Eparts.
    cbn in Eparts. by rewrite orb_true_r in Eparts. }
  rewrite Hs. cbn [negb]. rewrite bool_decide_eq_false_2 by done.
  unfold resolveSelectedDraftSessionForSend. rewrite Eparts. cbn [sd_view on_flight with_flight]. rewrite Hd. cbn [with_calls sd_calls].
  exists (length (sd_calls w)). eexists _, _. cbn [on_flight with_flight sd_calls]. rewrite lookup_app_r, Nat.sub_diag by lia. done.
Qed.

Lemma drain_keeps id now w w' : in_step (sd_queue w) -> drain_effect id now w = Some w' ->
  in_step (sd_queue w') /\ (forall b, b <> [] -> keeps_queue (EvDrain id now) w = true -> kept b w -> kept b w').
Proof.
  intros Hi. unfold drain_effect. cbv zeta. set (session := match v_selected _ with Some _ => _ | None => _ end). clearbody session.
  destruct (nonempty (encodeChatSessionKey (v_selected (sd_view w)))) eqn:Ekey; [|done]. cbn [negb orb]. case_bool_decide as Hu; [|done]. cbn [negb orb].
  destruct (selectedChatPromptRunning _ _ _); [done|]. destruct (selectedChatCompactionRunning _ _); [done|]. cbn [orb].
  case_bool_decide as Hsub; [done|]. cbn [orb]. destruct (bool_decide _); [done|]. intros [= <-]. unfold drainNextQueuedChatItem.
  destruct (v_selected (sd_view w)) as [key|] eqn:Esel; [|done]. case_bool_decide as Hk; [|done]. cbn [negb].
  destruct (runtimeSessionIsBusy _ _ _ _); [done|]. apply nil_length_inv in Hu.
  assert (Href : qs_ref (sd_queue w) = next_queue (sd_queue w)) by (unfold in_step in Hi; unfold next_queue; rewrite Hu in Hi |- *; exact Hi).
  destruct (shiftNextQueuedChatItem (qs_ref (sd_queue w)) _) as [state [item|]] eqn:Es; [|done].
  assert (Hnext : forall u, sd_queue u = sd_queue w -> sd_calls u = sd_calls w -> sd_requests u = sd_requests w ->
    in_step (sd_queue (setQueuedPrompts (UReplace state) u)) /\
    forall b, kept b w -> kept b (setQueuedPrompts (UReplace state) u) \/ exists p, item = QPrompt p /\ prompt_blocks p = b).
  { intros u E1 E2 E3. cbn. rewrite E1. split; [by apply (in_step_snoc (qs_state (sd_queue w)) (qs_ref (sd_queue w)) (qs_updates (sd_queue w)))|].
    intros b Hkept. unfold kept in *. cbn. rewrite E1, E2, E3. destruct Hkept as [Hq|[?|?]]; [|left; right; by left|left; by do 2 right].
    rewrite <- Href in Hq. destruct (shifted_has b _ _ _ _ Es Hq) as [?|?]; [|by right]. left. left. unfold next_queue. cbn. by rewrite Hu. }
  destruct item as [prompt|compact].
  - destruct (Hnext w eq_refl eq_refl eq_refl) as [Hin Hb]. set (w1 := setQueuedPrompts (UReplace state) w) in *.
    split; [eapply (in_step_grows only_adds w1); [by intros []|apply send_grows|done]|]. intros b Hne Hkeep Hkept.
    destruct (Hb b Hkept) as [?|(p & [= <-] & Hpb)]; [by eapply kept_grows; [apply send_grows|]|].
    right. left. cbn [keeps_queue] in Hkeep. rewrite Esel in Hkeep. apply andb_true_iff in Hkeep as [Hv Hd]. apply negb_true_iff in Hv.
    rewrite Hpb. apply (drained_call _ _ _ _ key); [done|done|done|done| |by rewrite Hk]. cbn. by destruct (findDraftChatSession _ _ _).
  - set (w0 := start_compaction _ _ _ w). destruct (Hnext w0 eq_refl eq_refl eq_refl) as [Hin Hb]. split; [done|].
    intros b _ _ Hkept. destruct (Hb b Hkept) as [?|(p & [=] & _)]. done.
Qed.

Lemma render_keeps w : in_step (sd_queue w) -> in_step (sd_queue (render w)) /\ forall b, kept b w -> kept b (render w).
Proof.
  intros Hi. unfold render. cbv zeta. cbn [with_queue sd_queue]. split.
  - destruct (sd_queue w) as [s r us]. cbn [qs_state qs_ref qs_updates]. rewrite render_updates. cbn [qs_state qs_updates]. apply in_step_state. cbn.
    by apply in_step_state in Hi.
  - intros b [Hq|[?|?]]; [|by right; left|by right; right]. left. unfold next_queue. cbn. rewrite render_updates. cbn. exact Hq.
Qed.

(** * Every event *)

Lemma queued_step_ok e w w' : in_step (sd_queue w) -> closes_rendered e w = true -> send_step e w = Some w' ->
  in_step (sd_queue w') /\ (forall b, b <> [] -> keeps_queue e w = true -> kept b w -> kept b w').
Proof.
  intros Hi Hc. assert (Hg : grows only_adds w w' -> in_step (sd_queue w') /\ (forall b, b <> [] -> keeps_queue e w = true -> kept b w -> kept b w')).
  { intros Hg. split; [eapply in_step_grows; [|exact Hg|done]; by intros []|]. intros b _ _. by apply kept_grows. }
  assert (Hcall : (forall b, b <> [] -> kept b w -> kept b w') /\ (in_step (sd_queue w) -> in_step (sd_queue w')) ->
    in_step (sd_queue w') /\ (forall b, b <> [] -> keeps_queue e w = true -> kept b w -> kept b w')) by (intros [H1 H2]; auto).
  destruct e; cbn [send_step]; intros H; try (injection H as <-; apply Hg; first
    [by apply grows_same | apply send_grows | apply invoke_grows | apply listed_grows | apply message_grows]).
  - injection H as <-. apply Hg. unfold retryPendingChatPrompt. destruct (_ !! _); [apply send_grows|by apply grows_same].
  - injection H as <-. apply Hg. unfold editPendingChatPrompt. destruct (_ !! _); [|by apply grows_same]. cbv zeta. destruct (_ && _); by apply grows_same.
  - injection H as <-. split; [|done]. apply (in_step_app (sd_queue w) [_]); [done|]. by constructor.
  - injection H as <-. apply Hg. by eapply grows_update.
  - injection H as <-. apply Hg. unfold handleProjectCreateSession. destruct (_ || _); [by apply grows_same|]. cbv zeta. unfold startDraftSessionCreate. destruct (_ !! _); [by apply grows_same|].
    destruct (findDraftChatSession _ _ _); [|by apply grows_same]. destruct (negb _); by apply grows_same.
  - injection H as <-. apply Hg. unfold dismissDraftChatSession. destruct (_ || _); by apply grows_same.
  - injection H as <-. destruct (render_keeps w Hi) as [? ?]. split; [done|]. auto.
  - by eapply drain_keeps.
  - apply Hcall. eapply call_keeps; [exact H|]. intros c r _. apply resume_hands.
  - apply Hcall. eapply call_keeps; [exact H|]. intros c r _ Hr. cbn in Hr. destruct (uploadEnded result c) eqn:Eu; cbn in Hr; [|done]. injection Hr as <-.
    by eapply upload_hands.
  - apply Hcall. eapply call_keeps; [exact H|]. intros c r _. apply answer_hands.
  - apply Hg. by eapply created_grows.
  - apply Hg. by eapply compacted_grows.
  - cbn in H. destruct (timer_fires _ _); [|done]. cbn in H. injection H as <-. apply Hg. by apply grows_same.
  - injection H as <-. split; [|done]. cbn in Hc. apply bool_decide_eq_true_1, nil_length_inv in Hc. unfold onClose. cbn. rewrite Hc. cbn. done.
Qed.

Lemma run_in_step es w w' : in_step (sd_queue w) -> guarded_run closes_rendered es w = Some w' -> in_step (sd_queue w').
Proof.
  revert w. induction es as [|e es IH]; intros w Hi; cbn; [by intros [= <-]|]. destruct (closes_rendered e w) eqn:Ec; [|done].
  destruct (send_step e w) as [w1|] eqn:Es; [|done]. cbn. apply IH. by eapply queued_step_ok.
Qed.

Lemma run_keeps es w w' b : in_step (sd_queue w) -> b <> [] -> kept b w -> guarded_run keeps_queue es w = Some w' -> in_step (sd_queue w') /\ kept b w'.
Proof.
  revert w. induction es as [|e es IH]; intros w Hi Hb Hk; cbn; [by intros [= <-]|]. destruct (keeps_queue e w) eqn:Ec; [|done].
  destruct (send_step e w) as [w1|] eqn:Es; [|done]. cbn. destruct (queued_step_ok e w w1 Hi) as [H1 H2]; [by destruct e|done|]. apply IH; [done|done|]. by apply H2.
Qed.

(** * The theorem *)

(** C8. A queued prompt is not lost.  Whatever happened before (the connection only closed with
    the queue rendered), a prompt in the queue is, after any events but a cancellation or a
    close, still queued, in the hands of a call that is going to deliver it, or was requested
    with all its blocks; the queue being drained while no dictation waits for its last words,
    and into a session that is not a draft. *)
Theorem queued_prompt_kept es w es' w' k p : guarded_run closes_rendered es new_sender = Some w -> QPrompt p ∈ queued (qs_ref (sd_queue w)) k ->
  length (qs_updates (sd_queue w)) = 0%nat -> prompt_blocks p <> [] -> guarded_run keeps_queue es' w = Some w' ->
  queue_has (prompt_blocks p) (next_queue (sd_queue w')) \/ call_has (prompt_blocks p) (sd_calls w') \/ request_has (prompt_blocks p) (sd_requests w').
Proof.
  intros H Hp Hu Hb H'. assert (Hi : in_step (sd_queue w)) by (eapply run_in_step; [|exact H]; done). apply nil_length_inv in Hu.
  apply (run_keeps es' w w' (prompt_blocks p)); [done|done| |done]. left. exists k, p. split; [|done]. unfold next_queue. rewrite Hu. cbn.
  unfold in_step in Hi. rewrite Hu in Hi. cbn in Hi. by rewrite <- Hi.
Qed.

Definition queue_session (running : bool) : RegistryChatSession := {|
  sess_sessionId := "s"; sess_title := ""; sess_preview := ""; sess_updatedAt := ""; sess_messageCount := 0; sess_unreadCount := None;
  sess_agentType := None; sess_createRequestId := None; sess_latestTurnIndex := None; sess_running := Some running; sess_lastDoneTurnIndex := None;
  sess_lastDoneSuccess := None; sess_lastReadTurnIndex := None; sess_configOptions := None; sess_commands := None; sess_usage := None; sess_sessionActions := None |}.
Definition queue_send (t : string) : send_options :=
  {| o_textOverride := Some t; o_attachmentsOverride := Some []; o_blocksOverride := None; o_preserveComposer := true |}.
(** A prompt is sent while its session runs, and so is queued; the session stops, the queue is
    rendered and drained. *)
Definition queue_prefix : list send_event :=
  [EvSelect (Some {| key_projectId := "p"; key_sessionId := "s" |}) "p:s"; EvEnvironment {["p"%string := [queue_session true]]} false;
   EvSend (queue_send "hello") "1" "t"; EvResume 0 "1" "t"; EvResume 0 "1" "t"; EvRender].
Definition queue_suffix : list send_event :=
  [EvEnvironment {["p"%string := [queue_session false]]} false; EvRender; EvDrain "2" "t"; EvRender; EvResume 1 "2" "t"].
Definition queue_block : block := content_block (BText "hello").
Definition queue_prompt : QueuedChatPrompt :=
  {| prompt_id := "1"; prompt_sessionId := "s"; prompt_blocks := [queue_block]; prompt_createdAt := "t"; prompt_text := "hello" |}.

Lemma queued_prompt_kept_witness : exists w w',
  guarded_run closes_rendered queue_prefix new_sender = Some w /\ guarded_run keeps_queue queue_suffix w = Some w' /\
  (queue_has [queue_block] (next_queue (sd_queue w')) \/ call_has [queue_block] (sd_calls w') \/ request_has [queue_block] (sd_requests w')).
Proof.
  pose (k := buildChatRuntimeKey "p" "s"). pose (o := guarded_run closes_rendered queue_prefix new_sender).
  assert (Hq : (fun w => (queued (qs_ref (sd_queue w)) k, length (qs_updates (sd_queue w)))) <$> o = Some ([QPrompt queue_prompt], 0%nat)) by (vm_compute; reflexivity).
  assert (H2 : is_Some (o ≫= guarded_run keeps_queue queue_suffix)) by (vm_compute; eauto).
  destruct o as [w|] eqn:H1; [|by destruct H2]. destruct H2 as [w' H2]. exists w, w'. split; [exact H1|]. split; [exact H2|].
  apply (queued_prompt_kept queue_prefix w queue_suffix w' k queue_prompt); [exact H1| | |done|exact H2].
  - injection Hq as Hq _. rewrite Hq. apply list_elem_of_here.
  - by injection Hq.
Defined.

(** Drained while a dictation waits for its last words, the prompt is gone: it is taken from
    the queue, and [sendChatMessage] returns at once. *)
Lemma drained_during_dictation : exists w w',
  guarded_run closes_rendered (queue_prefix ++ [EvEnvironment {["p"%string := [queue_session false]]} true]) new_sender = Some w /\
  guarded_run closes_rendered [EvDrain "2" "t"; EvRender] w = Some w' /\
  queued (qs_ref (sd_queue w)) (buildChatRuntimeKey "p" "s") = [QPrompt queue_prompt] /\
  sd_queue w' = {| qs_state := ∅; qs_ref := ∅; qs_updates := [] |} /\ sd_requests w' = [] /\ length (sd_calls w') = 1%nat.
Proof.
  pose (o := guarded_run closes_rendered (queue_prefix ++ [EvEnvironment {["p"%string := [queue_session false]]} true]) new_sender).
  pose (o' := o ≫= guarded_run closes_rendered [EvDrain "2" "t"; EvRender]).
  assert (H : ((fun w => queued (qs_ref (sd_queue w)) (buildChatRuntimeKey "p" "s")) <$> o, (fun w => (sd_queue w, sd_requests w, length (sd_calls w))) <$> o') =
    (Some [QPrompt queue_prompt], Some ({| qs_state := ∅; qs_ref := ∅; qs_updates := [] |}, [], 1%nat))) by (vm_compute; reflexivity).
  destruct o as [w|] eqn:E1; [|done]. unfold o' in H. cbn [mbind option_bind] in H. destruct (guarded_run closes_rendered [EvDrain "2" "t"; EvRender] w) as [w'|] eqn:E2; [|done].
  exists w, w'. cbn in H. injection H as H1 H2 H3 H4. repeat split; try done.
Qed.
