(* ===== verification/Double.v ===== *)
(** Binary floating point, where the source divides or scales numbers and then looks at their
    digits: the rational a result is rounded to, of 53 significant bits, to even on a tie.
    The exponent is not bounded: the numbers the source computes with are far from where
    doubles overflow or lose precision. *)

From S2P Require Import Prelude.
From Stdlib Require Import Qabs Qround Lqa.
Open Scope Z_scope.

(** [2 ^ e] for any [e]. *)
Definition pow2 (e : Z) : Q := if 0 <=? e then inject_Z (2 ^ e) else 1 # Z.to_pos (2 ^ (- e)).

(** The nearest integer, the even one of two. *)
Definition round_even (q : Q) : Z :=
  let n := floor q in
  match Qcompare (q - inject_Z n) (1 # 2) with
  | Lt => n
  | Gt => n + 1
  | Eq => if Z.even n then n else n + 1
  end.

Definition double_pos (q : Q) : Q :=
  let k := Z.log2 (Qnum q) - Z.log2 (Zpos (Qden q)) in
  let e := if Qle_bool (pow2 k) q then k - 52 else k - 53 in
  inject_Z (round_even (q / pow2 e)) * pow2 e.
Definition double (q : Q) : Q :=
  match Qnum q with Z0 => 0 | Zpos _ => double_pos q | Zneg _ => - double_pos (- q) end.

Definition ceil (q : Q) : Z := - floor (- q).

Example double_third : Qeq_bool (double (1 # 3)) (6004799503160661 # 18014398509481984) = true.
Proof. vm_compute. reflexivity. Qed.
Example double_tenth : Qeq_bool (double (1 # 10)) (3602879701896397 # 36028797018963968) = true.
Proof. vm_compute. reflexivity. Qed.
Example double_exact : Qeq_bool (double (5 # 4)) (5 # 4) = true.
Proof. vm_compute. reflexivity. Qed.

(** * The error of a rounding *)

Lemma floor_spec (q : Q) : (inject_Z (floor q) <= q)%Q /\ (q < inject_Z (floor q + 1))%Q.
Proof. destruct q as [n d]. change (floor (n # d)) with (Qfloor (n # d)). split; [apply Qfloor_le|apply Qlt_floor]. Qed.

Lemma round_even_error q : (Qabs (inject_Z (round_even q) - q) <= 1 # 2)%Q.
Proof.
  destruct (floor_spec q) as [H1 H2]. unfold round_even. rewrite inject_Z_plus in H2. set (n := floor q) in *. apply Qabs_Qle_condition.
  destruct (Qcompare (q - inject_Z n) (1 # 2)) eqn:E.
  - apply Qeq_alt in E. destruct (Z.even n); rewrite ?inject_Z_plus; split; change (inject_Z 1) with 1%Q in *; lra.
  - apply Qlt_alt in E. split; lra.
  - apply Qgt_alt in E. rewrite inject_Z_plus. change (inject_Z 1) with 1%Q in *. split; lra.
Qed.

Lemma pow2_pos e : (0 < pow2 e)%Q.
Proof.
  unfold pow2. destruct (Z.leb_spec 0 e); [|done]. change 0%Q with (inject_Z 0). rewrite <- Zlt_Qlt. by apply Z.pow_pos_nonneg.
Qed.
Lemma pow2_succ e : (pow2 (e + 1) == 2 * pow2 e)%Q.
Proof.
  unfold pow2. destruct (Z.leb_spec 0 e) as [H|H]; destruct (Z.leb_spec 0 (e + 1)) as [H'|H']; try lia.
  - rewrite Z.pow_add_r by lia. change (2 ^ 1) with 2. rewrite inject_Z_mult. change (inject_Z 2) with 2%Q. lra.
  - assert (e = -1) as -> by lia. vm_compute. done.
  - replace (- e) with (- (e + 1) + 1) by lia. set (m := - (e + 1)). assert (Hm : 0 < m) by (unfold m; lia). rewrite Z.pow_add_r by lia.
    change (2 ^ 1) with 2. assert (0 < 2 ^ m) by (by apply Z.pow_pos_nonneg; lia). unfold Qeq, Qmult. cbn [Qnum Qden]. rewrite Z2Pos.id by lia.
    rewrite Pos2Z.inj_mul, Z2Pos.id by lia. lia.
Qed.
Lemma pow2_add e (n : nat) : (pow2 (e + Z.of_nat n) == pow2 (Z.of_nat n) * pow2 e)%Q.
Proof.
  induction n as [|n IH]; [rewrite Z.add_0_r; change (pow2 (Z.of_nat 0)) with 1%Q; lra|].
  rewrite Nat2Z.inj_succ, <- Z.add_1_r, Z.add_assoc, !pow2_succ, IH. lra.
Qed.

(** A fraction is above the power of two below its logarithms. *)
Lemma above_pow2 n d : (pow2 (Z.log2 (Zpos n) - Z.log2 (Zpos d) - 1) < Zpos n # d)%Q.
Proof.
  set (ln := Z.log2 (Zpos n)). set (ld := Z.log2 (Zpos d)). set (e := ln - ld - 1).
  assert (Hld : 0 <= ld) by apply Z.log2_nonneg. assert (Hln : 0 <= ln) by apply Z.log2_nonneg.
  destruct (Z.log2_spec (Zpos n)) as [N1 _]; [lia|]. destruct (Z.log2_spec (Zpos d)) as [_ D2]; [lia|]. fold ln in N1. fold ld in D2. rewrite <- Z.add_1_r in D2.
  pose proof (pow2_add e (Z.to_nat (ld + 1))) as Ha. rewrite Z2Nat.id in Ha by lia. replace (e + (ld + 1)) with ln in Ha by (unfold e; lia).
  pose proof (pow2_pos e) as Hp. unfold pow2 in Ha at 1 2. rewrite (proj2 (Z.leb_le 0 ln)), (proj2 (Z.leb_le 0 (ld + 1))) in Ha by lia.
  assert (N1' : (inject_Z (2 ^ ln) <= inject_Z (Zpos n))%Q) by (by rewrite <- Zle_Qle).
  assert (D2' : (inject_Z (Zpos d) < inject_Z (2 ^ (ld + 1)))%Q) by (by rewrite <- Zlt_Qlt).
  rewrite (Qmake_Qdiv (Zpos n) d). apply Qlt_shift_div_l; [by change 0%Q with (inject_Z 0); rewrite <- Zlt_Qlt|]. nra.
Qed.

Lemma double_error q : (0 < q)%Q -> (Qabs (double q - q) <= q * (1 # 9007199254740992))%Q.
Proof.
  intros Hq. destruct q as [[|n|n] d]; [by vm_compute in Hq| |by vm_compute in Hq]. unfold double. cbn [Qnum]. unfold double_pos. cbn [Qnum Qden].
  set (k := Z.log2 (Zpos n) - Z.log2 (Zpos d)). pose proof (above_pow2 n d) as Hlow. fold k in Hlow. set (q := Zpos n # d) in *.
  set (e := if Qle_bool (pow2 k) q then k - 52 else k - 53).
  assert (He : (inject_Z (2 ^ 52) * pow2 e <= q)%Q).
  { unfold e. destruct (Qle_bool (pow2 k) q) eqn:E.
    - apply Qle_bool_iff in E. pose proof (pow2_add (k - 52) 52) as H. replace (k - 52 + Z.of_nat 52) with k in H by lia.
      change (pow2 (Z.of_nat 52)) with (inject_Z (2 ^ 52)) in H. lra.
    - pose proof (pow2_add (k - 53) 52) as H. replace (k - 53 + Z.of_nat 52) with (k - 1) in H by lia.
      change (pow2 (Z.of_nat 52)) with (inject_Z (2 ^ 52)) in H. lra. }
  clearbody e. pose proof (pow2_pos e) as Hp. pose proof (round_even_error (q / pow2 e)) as Hr. set (m := inject_Z (round_even (q / pow2 e))) in *.
  assert (Hqe : (q == q / pow2 e * pow2 e)%Q) by (field; lra). set (x := (q / pow2 e)%Q) in *. apply Qabs_Qle_condition in Hr. apply Qabs_Qle_condition.
  change (inject_Z (2 ^ 52)) with 4503599627370496%Q in He. clearbody m x. split; nra.
Qed.

Lemma double_0 : double 0 = 0%Q.
Proof. done. Qed.
