(* ===== verification/ChatPromptParts.v ===== *)
(** The parts a sent prompt is shown in ([chat/composer/chatPromptInlineParts.ts]): its text
    cut at the skills and the attached files written in it.

    The loop over the matches of the expression is a fold over [matches_of]; the theorem
    says that the parts are the text, with nothing lost and nothing twice. *)

From S2P Require Import Prelude Json Uri RegExp RegistryTypes ChatSessionKey ChatTurnView ChatPromptQueue ChatComposer GitViews AppMessages.
Open Scope Z_scope.

(** * The parts of a prompt *)

Inductive ChatPromptInlinePart :=
  | PText (text : string)
  | PSkill (command label : string)
  | PFile (label path name : string).
Record ChatPromptInlineSkill := { skill_command : string; skill_label : string }.
Record prompt_file := { pf_path : string; pf_name : string }.

Definition promptTextFromBlocks (blocks : list block) : string :=
  match find (fun b => is_str (prop b "type") "text" && match prop b "text" with VStr _ => true | _ => false end) blocks with
  | Some b => string_or_empty (prop b "text")
  | None => ""
  end.

(** The first file that is not used and goes by the label. *)
Definition file_matches (label : string) (used : list nat) (e : nat * prompt_file) : bool :=
  negb (bool_decide (e.1 ∈ used)) &&
  (bool_decide (pf_name e.2 = label) || bool_decide (pf_path e.2 = label) || endsWith (pf_path e.2) ("/" +:+ label)).
Definition raw_label (raw : string) : string :=
  if startsWith raw "@<" && endsWith raw ">" then slice 2 (String.length raw - 1) raw else slice_from 1 raw.
Definition inlinePartForRawToken (raw : string) (files : list prompt_file) (usedFiles : list nat) (skillByCommand : list (string * string))
    : option (ChatPromptInlinePart * list nat) :=
  if startsWith raw "/" then
    let command := normalizeSkillCommand raw in
    let label := str_or (default ""%string (dget skillByCommand command)) (skillLabelFromCommand command) in
    if nonempty label then Some (PSkill command label, usedFiles) else None
  else
    let label := raw_label raw in
    match find (file_matches label usedFiles) (imap pair files) with
    | Some (fileIndex, file) => Some (PFile label (pf_path file) (pf_name file), fileIndex :: usedFiles)
    | None => None
    end.

(** [previous.text += part.text]. *)
Definition append_part (out : list ChatPromptInlinePart) (part : ChatPromptInlinePart) : list ChatPromptInlinePart :=
  match part with
  | PText t =>
    if negb (nonempty t) then out else
    match last out with
    | Some (PText u) => take (length out - 1) out ++ [PText (u +:+ t)]
    | _ => out ++ [part]
    end
  | _ => out ++ [part]
  end.
Definition mergeTextParts (parts : list ChatPromptInlinePart) : list ChatPromptInlinePart := foldl append_part [] parts.

(** [fileNameFromPath], of this file. *)
Definition trailing_slashes_re : regex := Cat (many1 (one "/")) (Eol false).
Definition inlineFileName (path : string) : string :=
  let normalized := replace_first trailing_slashes_re (by_string "") (forward_slashes path) in
  str_or (last_part (bfilter nonempty (split "/" normalized))) (str_or normalized "file").

Definition prompt_files (blocks : list block) : list prompt_file :=
  bfilter (fun f => nonempty (pf_path f))
    (map (fun b => let uri := cleanString (prop b "uri") in {| pf_path := uri; pf_name := str_or (cleanString (prop b "name")) (inlineFileName uri) |})
      (bfilter (fun b => isProjectFileResourceLinkBlock (VObj b)) blocks)).
Definition skill_map (skills : list ChatPromptInlineSkill) : list (string * string) :=
  dict_of (bfilter (fun e => nonempty e.1) (map (fun s => (normalizeSkillCommand (skill_command s), trim (skill_label s))) skills)).

Definition is_alnum (c : ascii) : bool := is_letter c || is_digit c.
Definition inline_re : regex :=
  Cat (Group 1 (Alt (Bol false) (Chr (fun c => is_space c || bool_decide (c ∈ chars "([{,;")))))
      (Alt (seq_of [one "/"; Chr is_alnum; many (Chr (fun c => is_alnum c || bool_decide (c ∈ chars "_-")))])
      (Alt (seq_of [text "@<"; many1 (Chr (fun c => negb (bool_decide (c = ">"%char) || line_end c))); one ">"])
           (seq_of [one "@"; many1 (Chr (fun c => negb (is_space c || bool_decide (c ∈ chars ")]},;!?"))))]))).

Record inline_state := { in_parts : list ChatPromptInlinePart; in_used : list nat; in_cursor : nat }.
Definition inline_match (text : string) (files : list prompt_file) (skills : list (string * string)) (st : inline_state) (m : nat * nat * captures) : inline_state :=
  let '(index, lastIndex, c) := m in
  let start := (index + String.length (capture text 1 c))%nat in
  match inlinePartForRawToken (slice start lastIndex text) files (in_used st) skills with
  | None => st
  | Some (replacement, used) =>
    {| in_parts := in_parts st ++ (if (in_cursor st <? start)%nat then [PText (slice (in_cursor st) start text)] else []) ++ [replacement];
       in_used := used; in_cursor := lastIndex |}
  end.

Definition buildChatPromptInlineParts (blocks : list block) (skills : list ChatPromptInlineSkill) : list ChatPromptInlinePart :=
  let text := promptTextFromBlocks blocks in
  if negb (nonempty text) then [] else
  let st := foldl (inline_match text (prompt_files blocks) (skill_map skills)) {| in_parts := []; in_used := []; in_cursor := 0 |} (matches_of inline_re text) in
  let parts := in_parts st ++ (if (in_cursor st <? String.length text)%nat then [PText (slice_from (in_cursor st) text)] else []) in
  mergeTextParts (match parts with [] => [PText text] | _ => parts end).

Example inline_parts_example :
  buildChatPromptInlineParts
    [[("type", VStr "text"); ("text", VStr "run /do-it on @<a b.ts>, @c.ts and @none")];
     [("type", VStr "resource_link"); ("uri", VStr "src/a b.ts"); ("name", VStr "a b.ts")];
     [("type", VStr "resource_link"); ("uri", VStr "src/c.ts")]]%string [] =
  [PText "run "; PSkill "/do-it" "Do It"; PText " on "; PFile "a b.ts" "src/a b.ts" "a b.ts"; PText ", "; PFile "c.ts" "src/c.ts" "c.ts"; PText " and @none"].
Proof. vm_compute. reflexivity. Qed.

(** * What the parts are *)

(** The text a part stands for. *)
Definition spells (part : ChatPromptInlinePart) (raw : string) : Prop :=
  match part with
  | PText t => raw = t
  | PSkill command _ => raw = command
  | PFile label _ _ => raw = "@" +:+ label \/ raw = "@<" +:+ label +:+ ">"
  end.
Definition spelled (raws : list string) : list ascii := concat (map chars raws).
Definition file_of (part : ChatPromptInlinePart) : option prompt_file :=
  match part with PFile _ path name => Some {| pf_path := path; pf_name := name |} | _ => None end.
Definition is_text (part : ChatPromptInlinePart) : bool := match part with PText _ => true | _ => false end.
Definition starts_text (l : list ChatPromptInlinePart) : bool := match l with part :: _ => is_text part | [] => false end.
(** No text is empty, and none follows another. *)
Fixpoint tidy (l : list ChatPromptInlinePart) : bool :=
  match l with
  | [] => true
  | PText t :: l => nonempty t && negb (starts_text l) && tidy l
  | _ :: l => tidy l
  end.

Lemma tidy_snoc l part : tidy l = true -> (match part with PText t => nonempty t = true | _ => True end) ->
  (is_text part = true -> match last l with Some (PText _) => False | _ => True end) -> tidy (l ++ [part]) = true.
Proof.
  intros Hl Hp Hlast. induction l as [|p l IH]; [destruct part; simpl; by rewrite ?Hp|].
  assert (Hrec : tidy l = true -> tidy (l ++ [part]) = true).
  { intros Ht. apply IH; [done|]. intros Hi. specialize (Hlast Hi). destruct l; [done|]. exact Hlast. }
  destruct p as [t|c lb|lb pa n]; simpl in *; [|by apply Hrec..]. apply andb_true_iff in Hl as [Hl Ht]. apply andb_true_iff in Hl as [Hn Hs].
  rewrite Hn, Hrec by done. destruct l as [|q l]; simpl in *; [|by rewrite Hs]. destruct part as [u| |]; simpl; [|done..]. by destruct (Hlast eq_refl).
Qed.
Lemma tidy_prefix l k : tidy (l ++ k) = true -> tidy l = true.
Proof.
  induction l as [|p l IH]; [done|]. destruct p as [t|c lb|lb pa n]; simpl; [|done..]. rewrite !andb_true_iff. intros [[Hn Hs] Ht].
  split; [split; [done|]|auto]. by destruct l.
Qed.

Lemma append_part_spells out raws part raw : Forall2 spells out raws -> spells part raw ->
  exists raws', Forall2 spells (append_part out part) raws' /\ spelled raws' = spelled raws ++ chars raw.
Proof.
  intros Ho Hp. assert (Hsnoc : exists raws', Forall2 spells (out ++ [part]) raws' /\ spelled raws' = spelled raws ++ chars raw).
  { exists (raws ++ [raw]). split; [by apply Forall2_app; [|constructor]|]. unfold spelled. rewrite map_app, concat_app. simpl. by rewrite app_nil_r. }
  unfold append_part. destruct part as [t|c l|l p n]; [|done..]. simpl in Hp. subst t. destruct (nonempty raw) eqn:En; cbn [negb].
  2:{ apply nonempty_false in En. subst raw. exists raws. by rewrite app_nil_r. }
  destruct (last out) as [[u| |]|] eqn:El; [|done..]. apply last_Some in El as [out' ->]. clear Hsnoc.
  apply Forall2_app_inv_l in Ho as (r1 & r2 & H1 & H2 & ->). apply Forall2_cons_inv_l in H2 as (ru & r3 & Hu & H3 & ->).
  apply Forall2_nil_inv_l in H3 as ->. simpl in Hu. subst ru. rewrite length_app, Nat.add_sub, take_app_length. exists (r1 ++ [u +:+ raw]).
  split; [by apply Forall2_app; [|constructor]|]. unfold spelled. rewrite !map_app, !concat_app. simpl. rewrite chars_app, !app_nil_r. by rewrite (assoc_L (++)).
Qed.
Lemma append_part_tidy out part : tidy out = true -> tidy (append_part out part) = true.
Proof.
  intros Ho. unfold append_part. destruct part as [t|c l|l p n]; [|by apply tidy_snoc..]. destruct (nonempty t) eqn:En; cbn [negb]; [|done].
  destruct (last out) as [q|] eqn:El; [|apply tidy_snoc; [done..|]; intros _; by rewrite El].
  destruct q as [u| |]; [|apply tidy_snoc; [done..|]; intros _; by rewrite El..].
  apply last_Some in El as [out' ->]. rewrite length_app, Nat.add_sub, take_app_length. apply tidy_snoc; [by eapply tidy_prefix| |].
  - apply nonempty_true. apply nonempty_true in En. destruct u; [done|discriminate].
  - intros _. destruct (last out') as [[v| |]|] eqn:El; [|done..]. apply last_Some in El as [out'' ->]. exfalso.
    clear En. induction out'' as [|x out'' IH]; simpl in Ho; [by rewrite andb_false_r in Ho|]. apply IH. destruct x; [|done..].
    by apply andb_true_iff in Ho as [_ ?].
Qed.
Lemma append_part_files out part : omap file_of (append_part out part) = omap file_of out ++ omap file_of [part].
Proof.
  unfold append_part. destruct part as [t|c l|l p n]; [|by rewrite omap_app..]. simpl. rewrite app_nil_r. destruct (negb _); [done|].
  destruct (last out) as [[u| |]|] eqn:El; rewrite ?omap_app; simpl; rewrite ?app_nil_r; try done.
  apply last_Some in El as [out' ->]. rewrite length_app, Nat.add_sub, take_app_length, !omap_app. cbn. by rewrite app_nil_r.
Qed.

Lemma merge_spells parts raws : Forall2 spells parts raws ->
  exists raws', Forall2 spells (mergeTextParts parts) raws' /\ spelled raws' = spelled raws.
Proof.
  unfold mergeTextParts. intros H. assert (Hgen : forall out raws0, Forall2 spells out raws0 ->
    exists raws', Forall2 spells (foldl append_part out parts) raws' /\ spelled raws' = spelled raws0 ++ spelled raws).
  { induction H as [|part raw parts raws Hp _ IH]; intros out raws0 Ho; [exists raws0; by rewrite app_nil_r|].
    destruct (append_part_spells out raws0 part raw Ho Hp) as (r1 & H1 & E1). destruct (IH _ _ H1) as (r2 & H2 & E2).
    exists r2. split; [done|]. rewrite E2, E1. unfold spelled. simpl. by rewrite (assoc_L (++)). }
  destruct (Hgen [] []) as (r & ? & E); [constructor|]. by exists r.
Qed.
Lemma merge_tidy parts : tidy (mergeTextParts parts) = true.
Proof.
  unfold mergeTextParts. assert (H : tidy [] = true) by done. revert H. generalize (@nil ChatPromptInlinePart).
  induction parts as [|p parts IH]; intros out Ho; [done|]. cbn. apply IH. by apply append_part_tidy.
Qed.
Lemma merge_files parts : omap file_of (mergeTextParts parts) = omap file_of parts.
Proof.
  unfold mergeTextParts. assert (H : forall out, omap file_of (foldl append_part out parts) = omap file_of out ++ omap file_of parts); [|apply H].
  induction parts as [|p parts IH]; intros out; [by rewrite app_nil_r|]. cbn [foldl]. rewrite IH, append_part_files, <- (assoc_L (++)). f_equal. cbn. by destruct (file_of p).
Qed.

(** * The tokens of the text *)

Lemma trim_nospace s : Forall (fun c => is_space c = false) (chars s) -> trim s = s.
Proof.
  assert (Hd : forall l, Forall (fun c => is_space c = false) l -> drop_space l = l) by (intros [|c l] H; [done|]; simpl; by rewrite (Forall_inv H)).
  intros H. unfold trim. rewrite (Hd (chars s)) by done. rewrite Hd by (by apply Forall_reverse). rewrite reverse_involutive. apply unchars_chars.
Qed.

Definition token_re : regex :=
  Alt (seq_of [one "/"; Chr is_alnum; many (Chr (fun c => is_alnum c || bool_decide (c ∈ chars "_-")))])
      (Alt (seq_of [text "@<"; many1 (Chr (fun c => negb (bool_decide (c = ">"%char) || line_end c))); one ">"])
           (seq_of [one "@"; many1 (Chr (fun c => negb (is_space c || bool_decide (c ∈ chars ")]},;!?"))))])).
Definition before_re : regex := Alt (Bol false) (Chr (fun c => is_space c || bool_decide (c ∈ chars "([{,;"))).


Definition segment (s : list ascii) (i j : nat) : list ascii := take (j - i) (drop i s).

Lemma starts_with s c r i j : matches s (Cat (one c) r) i j -> (i <= length s)%nat -> exists rest, segment s i j = c :: rest.
Proof.
  intros H Hi. inversion H as [| |? ? ? k ? H1 H2| | | | | | |]; subst. inversion H1 as [|? ? x Hx Hp| | | | | | | |]; subst.
  apply bool_decide_eq_true_1 in Hp. subst x. pose proof (lookup_lt_Some _ _ _ Hx). pose proof (matches_bounds _ _ _ _ H2 ltac:(lia)).
  unfold segment. rewrite (drop_S _ _ _ Hx). replace (j - i)%nat with (S (j - S i)) by lia. simpl. eauto.
Qed.

(** A token begins with a slash and has no spaces, or begins with an at sign. *)
Lemma token_segment s i j : matches s token_re i j -> (i <= length s)%nat ->
  (exists rest, segment s i j = "/"%char :: rest /\ Forall (fun c => is_space c = false) (segment s i j)) \/ (exists rest, segment s i j = "@"%char :: rest).
Proof.
  intros H Hi. inversion H as [| | |? ? ? ? H1|? ? ? ? H1| | | | |]; subst.
  - left. destruct (starts_with _ _ _ _ _ H1 Hi) as [rest Hr]. exists rest. split; [done|]. apply Forall_lookup. intros k c Hk.
    unfold segment in Hk. apply lookup_take_Some in Hk as [Hk Hlt]. rewrite lookup_drop in Hk.
    assert (Hn : negb (is_space c) = true); [|by apply negb_true_iff in Hn].
    apply (within_sound s (fun c => negb (is_space c)) _ i j H1 Hi ltac:(vm_compute; reflexivity) (i + k) c); [lia|done].
  - right. inversion H1 as [| | |? ? ? ? H2|? ? ? ? H2| | | | |]; subst.
    + change (text "@<") with (Cat (one "@") (Cat (one "<") Eps)) in H2. inversion H2 as [| |? ? ? k ? H3 H4| | | | | | |]; subst.
      pose proof (matches_bounds _ _ _ _ H3 Hi). pose proof (matches_bounds _ _ _ _ H4 ltac:(lia)).
      destruct (starts_with _ _ _ _ _ H3 Hi) as [rest Hr]. unfold segment in *.
      replace (j - i)%nat with ((k - i) + (j - k))%nat by lia. rewrite <- (take_drop (k - i) (drop i s)), Hr.
      rewrite take_app_ge; [eauto|]. rewrite <- Hr, length_take. lia.
    + by eapply starts_with.
Qed.

Lemma segment_chars a b text : chars (slice a b text) = segment (chars text) a b.
Proof. unfold slice, segment. apply chars_unchars. Qed.

Lemma startsWith_chars s p : startsWith s p = is_prefix (chars p) (chars s).
Proof.
  unfold startsWith. revert s. induction p as [|a p IH]; intros [|b s]; simpl; [done..|]. rewrite IH.
  destruct (ascii_dec a b) as [->|Hne]; [by rewrite Ascii.eqb_refl|]. by rewrite (proj2 (Ascii.eqb_neq a b) Hne).
Qed.

(** The label of a token is what stands after its sign. *)
Lemma raw_label_spells raw rest : chars raw = "@"%char :: rest -> raw = "@" +:+ raw_label raw \/ raw = "@<" +:+ raw_label raw +:+ ">".
Proof.
  intros Hr. unfold raw_label. destruct (startsWith raw "@<" && endsWith raw ">") eqn:E.
  - right. apply andb_true_iff in E as [E1 E2]. apply chars_inj. rewrite !chars_app, segment_chars. rewrite Hr in *.
    assert (Hlt : exists r2, rest = "<"%char :: r2).
    { rewrite startsWith_chars, Hr in E1. destruct rest as [|x r2]; [done|]. cbn [chars String.list_ascii_of_string is_prefix] in E1.
      destruct (Ascii.eqb_spec "<" x); [subst; eauto|done]. }
    destruct Hlt as [r2 ->]. unfold endsWith in E2. rewrite Hr in E2. change (rev (chars ">")) with [">"%char] in E2.
    assert (Hgt : exists r3, "@"%char :: "<"%char :: r2 = r3 ++ [">"%char]).
    { destruct r2 as [|x r2 _] using rev_ind; [done|]. rewrite !app_comm_cons, rev_app_distr in E2.
      cbn [rev app is_prefix] in E2. destruct (Ascii.eqb_spec ">" x); [subst x|done]. by exists ("@"%char :: "<"%char :: r2). }
    destruct Hgt as [r3 H3]. destruct r3 as [|c1 [|c2 r3]]; [done|by injection H3|]. injection H3 as <- <- ->.
    assert (Hlen : String.length raw = (3 + length r3)%nat) by (rewrite <- chars_length, Hr; cbn; rewrite length_app; cbn; lia).
    rewrite Hlen. unfold segment. replace (3 + length r3 - 1 - 2)%nat with (length r3) by lia. 
    change (drop 2 ("@"%char :: "<"%char :: r3 ++ [">"%char])) with (r3 ++ [">"%char]). by rewrite take_app_length.
  - left. apply chars_inj. rewrite chars_app, Hr. unfold slice_from. rewrite chars_unchars, Hr. done.
Qed.

(** * The theorem *)

Lemma find_file label used files i f : find (file_matches label used) (imap pair files) = Some (i, f) -> files !! i = Some f /\ i ∉ used.
Proof.
  intros H. assert (Hin : (i, f) ∈ imap pair files /\ file_matches label used (i, f) = true).
  { induction (imap pair files) as [|e l IH]; [done|]. cbn in H. destruct (file_matches label used e) eqn:E; [injection H as ->; split; [by left|done]|].
    destruct (IH H). split; [by right|done]. }
  destruct Hin as [Hin Hm]. split.
  - apply elem_of_lookup_imap in Hin as (j & f' & [= -> ->] & Hj). done.
  - unfold file_matches in Hm. apply andb_true_iff in Hm as [Hm _]. by apply negb_true_iff, bool_decide_eq_false_1 in Hm.
Qed.

(** A token that is shown as a part is spelled by it, and uses at most one more file. *)
Lemma token_part text i j files used skills part used' : matches (chars text) token_re i j -> (i <= length (chars text))%nat ->
  inlinePartForRawToken (slice i j text) files used skills = Some (part, used') ->
  spells part (slice i j text) /\ is_text part = false /\
  ((file_of part = None /\ used' = used) \/ exists n f, file_of part = Some f /\ used' = n :: used /\ files !! n = Some f /\ n ∉ used).
Proof.
  intros Hm Hi. unfold inlinePartForRawToken. rewrite startsWith_chars. set (raw := slice i j text).
  assert (Hraw : chars raw = segment (chars text) i j) by apply segment_chars. destruct (token_segment _ _ _ Hm Hi) as [(rest & Hr & Hsp)|(rest & Hr)];
    rewrite <- Hraw in *; rewrite Hr at 1; cbn [chars String.list_ascii_of_string is_prefix].
  - rewrite Ascii.eqb_refl. cbn [andb]. unfold normalizeSkillCommand. rewrite trim_nospace by done.
    assert (Hn : nonempty raw = true) by (apply nonempty_true; intros E; by rewrite E in Hr). rewrite Hn. cbn [negb].
    rewrite startsWith_chars, Hr. cbn [chars String.list_ascii_of_string is_prefix]. rewrite Ascii.eqb_refl. cbn [andb].
    destruct (nonempty (str_or _ _)); [|done]. intros [= <- <-]. split; [done|]. split; [done|]. by left.
  - change (Ascii.eqb "/" "@") with false. cbn [andb]. destruct (find _ _) as [[n f]|] eqn:Ef; [|done]. intros [= <- <-]. apply find_file in Ef as [Hf Hn].
    split; [by eapply raw_label_spells|]. split; [done|]. right. exists n, f. by destruct f.
Qed.

Lemma lookups_submseteq {A} (l : list A) (idx : list nat) : NoDup idx -> omap (fun i => l !! i) idx ⊆+ l.
Proof.
  intros H. assert (Hl : omap (fun i => l !! i) (seq 0 (length l)) = l).
  { clear H idx. induction l as [|x l IH] using rev_ind; [done|]. rewrite length_app, Nat.add_comm. cbn [length Nat.add]. rewrite seq_S, omap_app. cbn.
    rewrite lookup_app_r, Nat.sub_diag by done. cbn. f_equal. etransitivity; [|exact IH]. apply list_omap_ext, Forall2_same_length_lookup_2; [done|].
    intros i a b Ha Hb. simplify_eq. apply lookup_seq in Ha as [-> ?]. by rewrite lookup_app_l. }
  assert (Hf : omap (fun i => l !! i) idx = omap (fun i => l !! i) (base.filter (fun i => (i < length l)%nat) idx)).
  { clear Hl. induction idx as [|i idx IH]; [done|]. apply NoDup_cons in H as [_ H]. rewrite filter_cons. cbn [omap list_omap].
    case_decide as Hi; cbn [omap list_omap]; rewrite <- IH by done; [done|]. by rewrite (lookup_ge_None_2 l i) by lia. }
  rewrite Hf. transitivity (omap (fun i => l !! i) (seq 0 (length l))); [|by rewrite Hl].
  assert (Hs : base.filter (fun i => (i < length l)%nat) idx ⊆+ seq 0 (length l)).
  { apply NoDup_submseteq; [by apply NoDup_filter|]. intros i Hi. apply list_elem_of_filter in Hi as [Hi _]. apply elem_of_seq. lia. }
  clear Hf Hl H. induction Hs as [|x l1 l2 _ IH|x y l1|x l1 l2 _ IH|l1 l2 l3 _ IH1 _ IH2]; cbn.
  - done.
  - by destruct (l !! x); [constructor|].
  - destruct (l !! x), (l !! y); first [apply submseteq_swap|done].
  - by destruct (l !! x); [constructor|].
  - by transitivity (omap (fun i => l !! i) l2).
Qed.

(** The parts so far are of the text before the cursor, each file of its own block. *)
Record inline_ok (text : string) (files : list prompt_file) (st : inline_state) : Prop := {
  io_text : exists raws, Forall2 spells (in_parts st) raws /\ spelled raws = take (in_cursor st) (chars text);
  io_files : omap file_of (in_parts st) ≡ₚ omap (fun i => files !! i) (in_used st);
  io_used : NoDup (in_used st)
}.

Lemma add_part parts raws part raw s i j : Forall2 spells parts raws -> spelled raws = take i s -> spells part raw -> chars raw = segment s i j -> (i <= j)%nat ->
  Forall2 spells (parts ++ [part]) (raws ++ [raw]) /\ spelled (raws ++ [raw]) = take j s.
Proof.
  intros H1 H2 Hp Hr Hij. split; [by apply Forall2_app; [|constructor]|]. unfold spelled in *. rewrite map_app, concat_app, H2. simpl. rewrite app_nil_r, Hr.
  unfold segment. rewrite take_take_drop. f_equal. lia.
Qed.

Lemma inline_matches_ok text files skills ms st : inline_ok text files st -> ordered (chars text) (in_cursor st) ms -> Forall (split_at (chars text) 1 before_re token_re) ms ->
  inline_ok text files (foldl (inline_match text files skills) st ms) /\ (in_cursor (foldl (inline_match text files skills) st ms) <= length (chars text))%nat.
Proof.
  revert st. induction ms as [|[[a b] c] ms IH]; intros st Hst Ho Hs; [done|]. cbn [foldl]. apply Forall_cons in Hs as [(mid & Hd & Hm1 & Hm2) Hs].
  destruct Ho as (H1 & H2 & Ho). cbn [fst snd] in *. pose proof (matches_bounds _ _ _ _ Hm1 ltac:(lia)). pose proof (matches_bounds _ _ _ _ Hm2 ltac:(lia)).
  assert (Hstart : (a + String.length (capture text 1 c))%nat = mid).
  { unfold capture. rewrite Hd, <- chars_length, segment_chars. unfold segment. rewrite length_take, length_drop. lia. }
  unfold inline_match. rewrite Hstart. destruct (inlinePartForRawToken _ _ _ _) as [[part used']|] eqn:Ep.
  2:{ apply IH; [done| |done]. apply (ordered_weaken _ _ b); [lia|lia|done]. }
  destruct (token_part _ _ _ _ _ _ _ _ Hm2 ltac:(lia) Ep) as (Hsp & Htx & Hu). apply IH; [|done|done]. destruct Hst as [(raws & F & E) Hf Hn].
  set (before := if (in_cursor st <? mid)%nat then _ else _).
  assert (Hb : exists raws', Forall2 spells (in_parts st ++ before) raws' /\ spelled raws' = take mid (chars text)).
  { unfold before. destruct (Nat.ltb_spec (in_cursor st) mid).
    - eexists. eapply (add_part _ _ _ (slice (in_cursor st) mid text)); [done|exact E|done|apply segment_chars|lia].
    - rewrite app_nil_r. exists raws. split; [done|]. rewrite E. f_equal. lia. }
  assert (Hbf : omap file_of before = []) by (unfold before; by destruct (_ <? _)%nat). clearbody before. destruct Hb as (raws' & F' & E').
  split; cbn [in_parts in_used in_cursor].
  - rewrite (assoc_L (++)). eexists. eapply add_part; [exact F'|exact E'|exact Hsp|apply segment_chars|lia].
  - rewrite !omap_app, Hbf. cbn [app]. destruct Hu as [[Hpf ->]|(n & f & Hpf & -> & Hlf & _)]; cbn [omap list_omap]; rewrite Hpf; [by rewrite app_nil_r|].
    rewrite Hlf, Hf. by rewrite <- Permutation_cons_append.
  - destruct Hu as [[_ ->]|(n & f & _ & -> & _ & Hnu)]; [done|]. by constructor.
Qed.

(** C37. The parts a prompt is shown in are its text: in order, nothing left out and nothing said
    twice, skills and files in place of what was written for them; no block of a file is
    shown twice, and neither an empty text nor two texts in a row are shown. *)
Theorem inline_parts_cover blocks skills : let parts := buildChatPromptInlineParts blocks skills in
  (exists raws, Forall2 spells parts raws /\ unchars (spelled raws) = promptTextFromBlocks blocks) /\
  omap file_of parts ⊆+ prompt_files blocks /\ tidy parts = true.
Proof.
  unfold buildChatPromptInlineParts. set (text := promptTextFromBlocks blocks). destruct (nonempty text) eqn:En; cbn [negb].
  2:{ apply nonempty_false in En. rewrite En. split; [by exists []|]. split; [apply submseteq_nil_l|done]. }
  set (st0 := {| in_parts := []; in_used := []; in_cursor := 0 |}). set (st := foldl _ st0 _).
  assert (Hst : inline_ok text (prompt_files blocks) st /\ (in_cursor st <= length (chars text))%nat).
  { apply inline_matches_ok; [|apply match_all_ordered; cbn; lia|by apply match_all_group].
    split; [by exists []|done|constructor]. }
  clearbody st. destruct Hst as [[(raws & F & E) Hf Hn] Hc]. set (parts := in_parts st ++ _).
  assert (Hp : exists raws', Forall2 spells parts raws' /\ spelled raws' = chars text).
  { unfold parts. rewrite <- chars_length. destruct (Nat.ltb_spec (in_cursor st) (length (chars text))).
    - eexists. rewrite <- (firstn_all (chars text)). eapply (add_part _ _ _ (slice_from (in_cursor st) text)); [exact F|exact E|done| |lia].
      unfold slice_from, segment. rewrite chars_unchars. symmetry. apply take_ge. rewrite length_drop. lia.
    - rewrite app_nil_r. exists raws. split; [done|]. rewrite E. apply take_ge. lia. }
  assert (Hpf : omap file_of parts ⊆+ prompt_files blocks).
  { assert (Hnil : omap file_of parts = omap file_of (in_parts st)) by (unfold parts; destruct (_ <? _)%nat; rewrite omap_app; cbn; by rewrite app_nil_r).
    rewrite Hnil, Hf. by apply lookups_submseteq. }
  clearbody parts. destruct Hp as (raws' & F' & E').
  assert (Hnn : parts <> []). { intros ->. apply Forall2_nil_inv_l in F' as ->. apply nonempty_true in En. apply En. by apply chars_inj. }
  destruct parts as [|part parts]; [done|]. split; [|split; [by rewrite merge_files|apply merge_tidy]].
  destruct (merge_spells _ _ F') as (r & Fr & Er). exists r. split; [done|]. by rewrite Er, E', unchars_chars.
Qed.
