(* ===== verification/ChatComposerStatus.v ===== *)
(** The composer's line of options and context ([chat/session/chatComposerStatus.ts]) and the
    insertion of a slash command into plain text ([chat/composer/chatSlashInsertion.ts]).

    The numbers of a usage are doubles: what is divided is rounded as the language does. *)

From Stdlib Require Import Qabs Lqa.
From S2P Require Import Prelude RegistryTypes RegExp ChatComposer Double AppMessages.
Open Scope Z_scope.

(** * Options of a session *)

Record ChatContextUsageView := {
  cu_available : bool; cu_percent : Z; cu_percentText : string; cu_usedText : string; cu_sizeText : string; cu_summaryText : string; cu_title : string
}.
Inductive core_kind := ModelOption | EffortOption | FastOption.
Record ChatCoreConfigOption := { core_option_kind : core_kind; core_option : RegistrySessionConfigOption }.
Record ChatComposerStatusOptions := {
  st_modelOption : option RegistrySessionConfigOption; st_reasoningOption : option RegistrySessionConfigOption;
  st_fastOption : option RegistrySessionConfigOption; st_coreOptions : list ChatCoreConfigOption;
  st_secondaryOptions : list RegistrySessionConfigOption; st_overflowOptions : list RegistrySessionConfigOption; st_showOverflowToggle : bool
}.

Definition text_or_empty (s : option string) : string := default ""%string s.
Definition optionSearchText (option : RegistrySessionConfigOption) : string :=
  toLowerCase (join " " (bfilter nonempty [co_id option; text_or_empty (co_category option); text_or_empty (co_name option)])).
Definition isChatModelOption (option : RegistrySessionConfigOption) : bool := includes (optionSearchText option) "model".
Definition isChatReasoningOption (option : RegistrySessionConfigOption) : bool :=
  let text := optionSearchText option in includes text "reasoning" || includes text "effort" || includes text "thought".
Definition capitalizeFirstCharacter (value : string) : string :=
  match chars value with c :: l => unchars (upper_ascii c :: l) | [] => value end.

Definition chatConfigValueLabel (option : RegistrySessionConfigOption) (value : RegistrySessionConfigOptionValue) : string :=
  let label := str_or (text_or_empty (cv_name value)) (cv_value value) in
  if isChatReasoningOption option then capitalizeFirstCharacter label else label.
Definition chatConfigCurrentLabel (option : RegistrySessionConfigOption) : string :=
  let currentValue := text_or_empty (co_currentValue option) in
  match find (fun item => bool_decide (cv_value item = currentValue)) (default [] (co_options option)) with
  | Some current => chatConfigValueLabel option current
  | None =>
    let fallback := str_or currentValue (str_or (text_or_empty (co_name option)) (co_id option)) in
    if isChatReasoningOption option then capitalizeFirstCharacter fallback else fallback
  end.

Definition is_integer (q : Q) : bool := Qeq_bool q (inject_Z (floor q)).
Definition formatCompactTokenCount (value : Q) : string :=
  let normalized := Z.max 0 (trunc value) in
  if 1000000 <=? normalized then
    let millions := double (inject_Z normalized / 1000000) in
    (if is_integer millions then pretty (floor millions) else toFixed1 millions) +:+ "m"
  else if 1000 <=? normalized then pretty (round (double (inject_Z normalized / 1000))) +:+ "k"
  else pretty normalized.

Definition toUpperCase (s : string) : string := unchars (map upper_ascii (chars s)).
(** [Math.min(100, Math.max(0, Math.ceil((used / size) * 100)))]. *)
Definition usage_percent (used size : Z) : Z := Z.min 100 (Z.max 0 (ceil (double (double (inject_Z used / inject_Z size) * 100)))).
Definition formatChatContextUsage (usage : option RegistrySessionUsage) : option ChatContextUsageView :=
  match usage with
  | None => None
  | Some usage =>
    match usage_used usage, usage_size usage with
    | Fin used, Some (Fin size) =>
      if Qle_bool size 0 then None else
      let used := Z.max 0 (trunc used) in let size := Z.max 1 (trunc size) in
      let percent := usage_percent used size in
      let usedText := formatCompactTokenCount (inject_Z used) in let sizeText := formatCompactTokenCount (inject_Z size) in
      Some {| cu_available := true; cu_percent := percent; cu_percentText := pretty percent +:+ "%"; cu_usedText := usedText; cu_sizeText := sizeText;
              cu_summaryText := toUpperCase usedText +:+ "/" +:+ toUpperCase sizeText +:+ " " +:+ pretty percent +:+ "%";
              cu_title := "Context window: " +:+ pretty percent +:+ "% used (" +:+ usedText +:+ " / " +:+ sizeText +:+ " tokens)" |}
    | _, _ => None
    end
  end.

Definition isChatFastModeOption (option : RegistrySessionConfigOption) : bool := bool_decide (co_id option = "fast_mode"%string).
Definition secondaryOptionRank (option : RegistrySessionConfigOption) : Z :=
  let text := optionSearchText option in
  if includes text "personality" then 0
  else if includes text "approval" || includes text "access" || includes text "permission" then 1
  else 9.

Definition compare_secondary (a b : nat * RegistrySessionConfigOption) : Z :=
  if bool_decide (secondaryOptionRank a.2 = secondaryOptionRank b.2) then Z.of_nat a.1 - Z.of_nat b.1
  else secondaryOptionRank a.2 - secondaryOptionRank b.2.
(** Objects are told apart by their place in the list. *)
Definition splitChatComposerStatusOptions (options : list RegistrySessionConfigOption) (compact : bool) : ChatComposerStatusOptions :=
  let indexed := imap pair options in
  let modelOption := find (fun e => isChatModelOption e.2) indexed in
  let reasoningOption := find (fun e => negb (bool_decide (Some e.1 = fst <$> modelOption)) && isChatReasoningOption e.2) indexed in
  let fastOption := find (fun e => isChatFastModeOption e.2) indexed in
  let core kind (o : option (nat * RegistrySessionConfigOption)) :=
    match o with Some e => [{| core_option_kind := kind; core_option := e.2 |}] | None => [] end in
  let coreOptions := core ModelOption modelOption ++ core EffortOption reasoningOption ++ core FastOption fastOption in
  let coreIds := bfilter nonempty (map (fun c => co_id (core_option c)) coreOptions) in
  let secondaryOptions := map snd (js_sort compare_secondary (imap pair (bfilter (fun option => negb (bool_decide (co_id option ∈ coreIds))) options))) in
  {| st_modelOption := snd <$> modelOption; st_reasoningOption := snd <$> reasoningOption; st_fastOption := snd <$> fastOption;
     st_coreOptions := coreOptions; st_secondaryOptions := if compact then [] else secondaryOptions;
     st_overflowOptions := if compact then secondaryOptions else [];
     st_showOverflowToggle := compact && (0 <? length secondaryOptions)%nat |}.

(** * Slash commands in plain text *)

Record ChatSlashInsertionResult := { sl_text : string; sl_selectionStart : Z; sl_selectionEnd : Z }.

Definition normalizeChatSlashCommandName (name : string) : string :=
  let normalized := trim name in
  if negb (nonempty normalized) then "" else if startsWith normalized "/" then normalized else "/" +:+ normalized.
Definition clampSelection (value : option num) (max : Z) : Z :=
  match value with Some (Fin q) => Z.max 0 (Z.min (trunc q) max) | _ => max end.

(** [text.split(/\s+/, 1)[0]] of a text that does not start with a space. *)
Fixpoint first_word (l : list ascii) : list ascii :=
  match l with [] => [] | c :: l => if is_space c then [] else c :: first_word l end.
Definition replaceActiveSlashQuery (text commandName : string) : option ChatSlashInsertionResult :=
  let leadingTrimmed := drop_space (chars text) in
  let leadingWhitespace := take (String.length text - length leadingTrimmed) (chars text) in
  if negb (startsWith (unchars leadingTrimmed) "/") then None else
  let firstToken := first_word leadingTrimmed in
  if (length firstToken <? length leadingTrimmed)%nat then None else
  let nextText := unchars leadingWhitespace +:+ commandName +:+ " " in
  Some {| sl_text := nextText; sl_selectionStart := Z.of_nat (String.length nextText); sl_selectionEnd := Z.of_nat (String.length nextText) |}.

Definition insertChatSlashCommandText (currentText commandName : string) (selectionStart selectionEnd : option num) : ChatSlashInsertionResult :=
  let normalizedCommand := normalizeChatSlashCommandName commandName in
  let len := Z.of_nat (String.length currentText) in
  if negb (nonempty normalizedCommand) then
    let fallbackSelection := clampSelection selectionStart len in
    {| sl_text := currentText; sl_selectionStart := fallbackSelection; sl_selectionEnd := fallbackSelection |}
  else
    match replaceActiveSlashQuery currentText normalizedCommand with
    | Some activeQueryReplacement => activeQueryReplacement
    | None =>
      let start := clampSelection selectionStart len in
      let end_ := Z.max start (clampSelection selectionEnd len) in
      let before := slice 0 (Z.to_nat start) currentText in
      let after := slice_from (Z.to_nat end_) currentText in
      let leadingSpace := if nonempty before && negb (match last (chars before) with Some c => is_space c | None => false end) then " "%string else ""%string in
      let nextAfter := unchars (drop_space (chars after)) in
      let insertion := leadingSpace +:+ normalizedCommand +:+ " " in
      let nextSelection := Z.of_nat (String.length before + String.length insertion) in
      {| sl_text := before +:+ insertion +:+ nextAfter; sl_selectionStart := nextSelection; sl_selectionEnd := nextSelection |}
    end.

Example slash_into_text : sl_text (insertChatSlashCommandText "fix  this" "plan" (Some (of_Z 4)) (Some (of_Z 4))) = "fix /plan this"%string.
Proof. vm_compute. reflexivity. Qed.
Example slash_replaces_query : sl_text (insertChatSlashCommandText " /pl" "plan" None None) = " /plan "%string.
Proof. vm_compute. reflexivity. Qed.
Example token_counts : map (fun n => formatCompactTokenCount (inject_Z n)) [999; 1500; 999500; 1250000; 2000000; 1150000] = ["999"; "2k"; "1000k"; "1.3m"; "2m"; "1.1m"]%string.
Proof. vm_compute. reflexivity. Qed.

(** * How full the context is *)

Lemma ceil_le q n : (q <= inject_Z n)%Q -> ceil q <= n.
Proof.
  intros H. unfold ceil. destruct (floor_spec (- q)) as [_ H2]. assert (Hz : (inject_Z (- n) < inject_Z (floor (- q) + 1))%Q).
  { rewrite inject_Z_opp. lra. } rewrite <- Zlt_Qlt in Hz. lia.
Qed.
Lemma ceil_gt q n : (inject_Z n < q)%Q -> n < ceil q.
Proof.
  intros H. unfold ceil. destruct (floor_spec (- q)) as [H1 _]. assert (Hz : (inject_Z (floor (- q)) < inject_Z (- n))%Q).
  { rewrite inject_Z_opp. lra. } rewrite <- Zlt_Qlt in Hz. lia.
Qed.

Definition epsilon : Q := 1 # 9007199254740992.
(** The two roundings move the percentage by less than one part in the size. *)
Lemma percent_error used size : 0 < used < size -> size <= 2 ^ 40 ->
  let x := (100 * (inject_Z used / inject_Z size))%Q in let y := double (double (inject_Z used / inject_Z size) * 100) in
  (x - 1 / inject_Z size < y /\ y <= x + 1)%Q.
Proof.
  intros [Hu Hs] Hmax. set (u := inject_Z used). set (s := inject_Z size).
  assert (Hu' : (0 < u)%Q) by (unfold u; change 0%Q with (inject_Z 0); by rewrite <- Zlt_Qlt).
  assert (Hus : (u < s)%Q) by (unfold u, s; by rewrite <- Zlt_Qlt).
  assert (Hs' : (s <= 1099511627776)%Q) by (unfold s; change 1099511627776%Q with (inject_Z (2 ^ 40)); by rewrite <- Zle_Qle).
  assert (Ha : (u / s * s == u)%Q) by (field; lra). assert (Hi : (1 / s * s == 1)%Q) by (field; lra).
  set (a := (u / s)%Q) in *. set (i := (1 / s)%Q) in *. assert (Ha0 : (0 < a)%Q) by nra. assert (Ha1 : (a < 1)%Q) by nra.
  assert (Hi0 : (0 < i)%Q) by nra. assert (Hi1 : (1 <= 1099511627776 * i)%Q) by nra.
  pose proof (double_error a Ha0) as E1. set (d := double a) in *. apply Qabs_Qle_condition in E1. destruct E1 as [L1 U1].
  assert (Hd : (0 < d * 100)%Q) by nra. pose proof (double_error (d * 100) Hd) as E2. set (y := double (d * 100)) in *.
  apply Qabs_Qle_condition in E2. destruct E2 as [L2 U2]. cbn. clearbody a i d y u s. split; nra.
Qed.

(** The percentage of the context a session uses is what it is, rounded up, or one more:
    it is divided and scaled in binary floating point before it is rounded up. *)
Theorem usage_percent_bounds used size : 0 <= used -> 1 <= size <= 2 ^ 40 ->
  let exact := Z.min 100 ((100 * used + size - 1) / size) in exact <= usage_percent used size <= Z.min 100 (exact + 1).
Proof.
  intros Hu Hs. cbv zeta. unfold usage_percent. destruct (decide (used = 0)) as [->|Hne].
  { assert (Hz : (inject_Z 0 / inject_Z size)%Q = 0%Q \/ Qnum (inject_Z 0 / inject_Z size) = 0) by (right; unfold Qdiv; cbn; by destruct size).
    replace (double (inject_Z 0 / inject_Z size)) with 0%Q by (unfold double; destruct Hz as [->|Hz]; [done|by rewrite Hz]).
    change (ceil (double (0 * 100))) with 0. rewrite (Z.div_small (100 * 0 + size - 1)) by lia. lia. }
  set (n := (100 * used + size - 1) / size). assert (Hn : size * n <= 100 * used + size - 1 < size * n + size) by (unfold n; pose proof (Z.div_mod (100 * used + size - 1) size); pose proof (Z.mod_pos_bound (100 * used + size - 1) size); lia).
  clearbody n. destruct (decide (used < size)) as [Hlt|Hge].
  - destruct (percent_error used size ltac:(lia) ltac:(lia)) as [L U]. set (y := double (double (inject_Z used / inject_Z size) * 100)) in *.
    assert (Hs' : (0 < inject_Z size)%Q) by (change 0%Q with (inject_Z 0); rewrite <- Zlt_Qlt; lia).
    assert (Hx : (100 * (inject_Z used / inject_Z size) * inject_Z size == inject_Z (100 * used))%Q) by (rewrite inject_Z_mult; change (inject_Z 100) with 100%Q; field; lra).
    assert (Hi : (1 / inject_Z size * inject_Z size == 1)%Q) by (field; lra). set (x := (100 * (inject_Z used / inject_Z size))%Q) in *. set (i := (1 / inject_Z size)%Q) in *.
    assert (Hlow : (inject_Z (size * (n - 1) + 1) <= inject_Z (100 * used))%Q) by (rewrite <- Zle_Qle; lia).
    assert (Hup : (inject_Z (100 * used) <= inject_Z (size * n))%Q) by (rewrite <- Zle_Qle; lia).
    rewrite inject_Z_plus, (inject_Z_mult size) in Hlow. rewrite (inject_Z_mult size n) in Hup. change (inject_Z 1) with 1%Q in Hlow.
    assert (G1 : n - 1 < ceil y) by (apply ceil_gt; nra). assert (Hxn : (x <= inject_Z n)%Q).
    { apply (Qmult_le_r _ _ (inject_Z size)); [done|]. lra. }
    assert (G2 : ceil y <= n + 1) by (apply ceil_le; rewrite inject_Z_plus; change (inject_Z 1) with 1%Q; lra).
    assert (0 <= n) by nia. lia.
  - assert (Hn' : 100 <= n) by nia. set (a := (inject_Z used / inject_Z size)%Q).
    assert (Hs' : (0 < inject_Z size)%Q) by (change 0%Q with (inject_Z 0); rewrite <- Zlt_Qlt; lia).
    assert (Ha : (1 <= a)%Q). { unfold a. apply Qle_shift_div_l; [done|]. rewrite Qmult_1_l, <- Zle_Qle. lia. }
    pose proof (double_error a ltac:(lra)) as E1. set (d := double a) in *. apply Qabs_Qle_condition in E1. destruct E1 as [L1 _].
    assert (Hd : (99 # 100 <= d)%Q) by lra. pose proof (double_error (d * 100) ltac:(lra)) as E2. apply Qabs_Qle_condition in E2. destruct E2 as [L2 _].
    assert (G : 98 < ceil (double (d * 100))) by (apply ceil_gt; change (inject_Z 98) with 98%Q; lra).
    assert (G' : 99 < ceil (double (d * 100))).
    { apply ceil_gt. change (inject_Z 99) with 99%Q. assert (99.5 <= d * 100)%Q by lra. lra. }
    lia.
Qed.
Lemma usage_percent_bounds_witness : 0 <= 14000 /\ 1 <= 200000 <= 2 ^ 40 /\ 7 <= usage_percent 14000 200000 <= 8.
Proof. split; [lia|]. split; [lia|]. apply (usage_percent_bounds 14000 200000); lia. Defined.

(** Seven percent exactly are shown as eight: [0.07 * 100] is more than 7. *)
Lemma seven_percent_shown_as_eight : usage_percent 14000 200000 = 8 /\ 14000 * 100 = 7 * 200000.
Proof. split; [vm_compute; reflexivity|lia]. Qed.

(** * The options *)

Lemma compare_secondary_rank a b : cmp_le compare_secondary a b -> secondaryOptionRank a.2 <= secondaryOptionRank b.2.
Proof. unfold cmp_le, compare_secondary. case_bool_decide; lia. Qed.
Lemma secondary_sorted l : StronglySorted (fun a b => secondaryOptionRank a <= secondaryOptionRank b) (map snd (js_sort compare_secondary l)).
Proof.
  assert (H : StronglySorted (cmp_le compare_secondary) (js_sort compare_secondary l)).
  { apply js_sort_sorted; unfold cmp_le, compare_secondary; intros; repeat case_bool_decide; lia. }
  induction H as [|x l' Hl IH Hx]; cbn; constructor; [done|]. apply Forall_map. eapply Forall_impl; [exact Hx|]. apply compare_secondary_rank.
Qed.
Lemma secondary_perm l : map snd (js_sort compare_secondary (imap pair l)) ≡ₚ l.
Proof.
  etransitivity; [apply Permutation_map, js_sort_perm|]. replace (map snd (imap pair l)) with l; [done|]. apply list_eq. intros i.
  change (map snd (imap pair l)) with (snd <$> imap pair l). rewrite list_lookup_fmap, list_lookup_imap. by destruct (l !! i).
Qed.

(** What is not a core option is shown with the rest, by rank: personality first, then what
    the agent may do. *)
Lemma status_options_split options compact : let st := splitChatComposerStatusOptions options compact in
  let ids := bfilter nonempty (map (fun c => co_id (core_option c)) (st_coreOptions st)) in
  st_secondaryOptions st ++ st_overflowOptions st ≡ₚ bfilter (fun option => negb (bool_decide (co_id option ∈ ids))) options /\
  StronglySorted (fun a b => secondaryOptionRank a <= secondaryOptionRank b) (st_secondaryOptions st ++ st_overflowOptions st) /\
  (st_showOverflowToggle st = true <-> st_overflowOptions st <> []).
Proof.
  cbv zeta. unfold splitChatComposerStatusOptions. cbn [st_coreOptions st_secondaryOptions st_overflowOptions st_showOverflowToggle].
  set (ids := bfilter nonempty _). set (l := bfilter _ options). pose proof (secondary_perm l) as Hp. pose proof (secondary_sorted (imap pair l)) as Hs.
  set (rest := map snd _) in *. clearbody rest. destruct compact; rewrite ?app_nil_r; cbn [app andb]; (split; [done|split; [done|]]).
  - rewrite Nat.ltb_lt. destruct rest; cbn; split; [lia|done|done|lia].
  - by split.
Qed.

(** * The caret *)

Lemma length_string_app s t : String.length (s +:+ t) = (String.length s + String.length t)%nat.
Proof. rewrite <- !chars_length, chars_app, length_app. done. Qed.

(** After the insertion of a command, the caret is within the text, right behind the command
    and a space. *)
Lemma slash_caret currentText commandName start stop : nonempty (normalizeChatSlashCommandName commandName) = true ->
  let r := insertChatSlashCommandText currentText commandName start stop in
  exists before after, sl_text r = before +:+ (normalizeChatSlashCommandName commandName +:+ " ") +:+ after /\
    sl_selectionStart r = Z.of_nat (String.length (before +:+ (normalizeChatSlashCommandName commandName +:+ " "))) /\ sl_selectionEnd r = sl_selectionStart r.
Proof.
  intros Hn. cbv zeta. unfold insertChatSlashCommandText. rewrite Hn. cbn [negb]. set (command := normalizeChatSlashCommandName commandName).
  destruct (replaceActiveSlashQuery currentText command) as [r|] eqn:Er.
  - unfold replaceActiveSlashQuery in Er. destruct (negb _); [done|]. destruct (_ <? _)%nat; [done|]. injection Er as <-.
    eexists _, ""%string. cbn [sl_text sl_selectionStart sl_selectionEnd]. split; [|done]. apply chars_inj. by rewrite !chars_app, app_nil_r.
  - cbn [sl_text sl_selectionStart sl_selectionEnd]. set (before := slice 0 _ currentText). set (lead := if nonempty before && _ then _ else _).
    set (rest := unchars (drop_space _)). clearbody command before lead rest. exists (before +:+ lead), rest. split; [|split; [|done]].
    + apply chars_inj. rewrite !chars_app. by rewrite <- !app_assoc.
    + rewrite !length_string_app. lia.
Qed.
