(* ===== verification/PreviewNavigation.v ===== *)
(** Finding one's way in the preview pane: the listing of a directory
    ([preview/previewDirectoryLoader.ts]), the file a link means
    ([preview/previewFileLink.ts]) and the line it jumps to
    ([preview/previewLineNavigation.ts]).

    [URL] parses a link with a scheme: its host and path are an argument.  The jump is cut at
    its animation frames: what a frame finds of the page is given to it.  Positions in the
    page are rationals, a quotient is rounded as a double. *)

From Stdlib Require Import Lqa.
From S2P Require Import Prelude Json Uri RegExp Program ChatComposer GitViews Double.
Open Scope Z_scope.

(** * Directories *)

Notation entries := (list (list (string * value))).
Record PreviewDirectoryResult := { dir_entries : entries; dir_hash : option string; dir_notModified : bool }.
Record PreviewListing := { pl_entries : entries; pl_hash : string }.

Inductive listE : Type -> Type := RequestListing (knownHash : option string) : listE (PreviewDirectoryResult + string).
Notation listing A := (prog listE string A).
(** [await options.request(knownHash)]. *)
Definition request_listing (knownHash : option string) : listing PreviewDirectoryResult :=
  let* answer := call (RequestListing knownHash) in match answer with inl r => Ret r | inr e => Throw e end.

Definition fetchPreviewDirectoryEntries (cachedEntries : option entries) (knownHash : option string) : listing PreviewListing :=
  let validatedHash := match cachedEntries, knownHash with Some _, Some h => if nonempty h then Some h else None | _, _ => None end in
  let* result := request_listing validatedHash in
  match dir_notModified result, cachedEntries with
  | true, Some cached => Ret {| pl_entries := cached; pl_hash := str_or (default ""%string (dir_hash result)) (default ""%string validatedHash) |}
  | notModified, _ =>
    let listed result := Ret {| pl_entries := dir_entries result; pl_hash := default ""%string (dir_hash result) |} in
    if notModified then
      let* result := request_listing None in
      if dir_notModified result then Throw "Directory listing was not modified but no cached entries are available."%string else listed result
    else listed result
  end.

Definition togglePreviewDirectoryExpansion (expandedByProject : gmap string (list string)) (projectId path : string) : gmap string (list string) :=
  if negb (nonempty projectId) || negb (nonempty path) then expandedByProject else
  let expanded := default ["."%string] (expandedByProject !! projectId) in
  let nextExpanded := if bool_decide (path ∈ expanded) then bfilter (fun item => negb (bool_decide (item = path))) expanded else expanded ++ [path] in
  <[projectId := nextExpanded]> expandedByProject.

(** * Links to files *)

Record PreviewFileLink := { link_path : string; link_line : option Z }.

Definition decodePath (v : string) : string := default v (decodeURIComponent v).
Definition scheme_char (c : ascii) : bool := is_letter c || is_digit c || bool_decide (c ∈ chars "+.-").
Definition drive_re : regex := seq_of [Bol false; opt (one "/"); letter; one ":"].
Definition file_scheme_re : regex := seq_of [Bol false; text_i "file"; text "://"].
Definition vscode_scheme_re : regex := seq_of [Bol false; text_i "vscode"; text "://"].
Definition any_scheme_re : regex := seq_of [Bol false; letter; many (Chr scheme_char); one ":"].
Definition hash_line_re : regex := seq_of [one "#"; Chr (fun c => bool_decide (lower_ascii c = "l"%char)); Group 1 (many1 digit);
  opt (seq_of [Chr (fun c => bool_decide (lower_ascii c = "c"%char)); many1 digit]); Eol false].
Definition suffix_line_re : regex := seq_of [one ":"; Group 1 (many1 digit); opt (seq_of [one ":"; many1 digit]); Eol false].
Definition remote_re : regex := Alt (seq_of [Bol false; text "//"]) (seq_of [Bol false; many1 letter; text "://"]).
Definition rooted_drive_re : regex := seq_of [Bol false; one "/"; letter; text ":/"].

(** [Number.parseInt] of digits. *)
Definition parse_digits (s : string) : Z := foldl (fun n c => 10 * n + (Z.of_nat (nat_of_ascii c) - 48)) 0 (chars s).
Definition positive_line (n : Z) : option Z := if 0 <? n then Some n else None.

(** The line a text ends with, and the text before it. *)
Definition cut_line (r : regex) (line : option Z) (keep : bool) (s : string) : string * option Z :=
  match search_from (chars s) r 0 with
  | Some (index, _, c) =>
    let parsed := positive_line (parse_digits (capture s 1 c)) in
    (slice 0 index s, match parsed with Some n => Some n | None => if keep then line else None end)
  | None => (s, line)
  end.

Section links.
(** [new URL(href)]: its host name and path, if it is one. *)
Context (parse_url : string -> option (string * string)).

(** What the link is a path of.  (A drive without a slash is given one first, but every branch
    sets the path anew.) *)
Definition link_candidate (rawHref : string) : option string :=
  if regex_test file_scheme_re rawHref then
    match parse_url rawHref with Some (host, path) => Some (host +:+ decodePath path) | None => None end
  else if regex_test vscode_scheme_re rawHref then
    match parse_url rawHref with
    | Some (host, path) => if bool_decide (toLowerCase host = "file"%string) then Some (decodePath path) else None
    | None => None
    end
  else if regex_test drive_re rawHref then Some (decodePath rawHref)
  else if regex_test any_scheme_re rawHref then None
  else Some (decodePath rawHref).

Definition strip_trailing_slashes (s : string) : string := unchars (rev (drop_slashes (rev (chars s)))).
Definition tidy_path (s : string) : string := unchars (collapse_slashes (drop_slashes (strip_dot_slashes (chars s)))).

Definition resolvePreviewFileLink (href projectRoot : string) : option PreviewFileLink :=
  let rawHref := trim href in
  if negb (nonempty rawHref) then None else
  match link_candidate rawHref with
  | None => None
  | Some pathCandidate =>
    let normalized := forward_slashes (trim pathCandidate) in
    if negb (nonempty normalized) then None else
    let '(normalized, line) := cut_line hash_line_re None false normalized in
    let '(normalized, line) := cut_line suffix_line_re line true normalized in
    let normalized := trim normalized in
    if negb (nonempty normalized) || regex_test remote_re normalized then None else
    let root := strip_trailing_slashes (forward_slashes projectRoot) in
    let rootLower := toLowerCase root in
    if nonempty root && bool_decide (toLowerCase normalized = rootLower) then None else
    let normalized := if regex_test rooted_drive_re normalized then slice_from 1 normalized else normalized in
    let resolvedPath := if nonempty root && startsWith (toLowerCase normalized) (rootLower +:+ "/") then slice_from (String.length root + 1) normalized else normalized in
    let resolvedPath := tidy_path resolvedPath in
    if negb (nonempty resolvedPath) || startsWith resolvedPath "../" then None else Some {| link_path := resolvedPath; link_line := line |}
  end.
End links.

Definition no_url : string -> option (string * string) := fun _ => None.
Example link_with_line : resolvePreviewFileLink no_url "C:\work\proj\src\a.ts:12:3" "C:/work/proj/" = Some {| link_path := "src/a.ts"; link_line := Some 12 |}.
Proof. vm_compute. reflexivity. Qed.
Example link_with_hash : resolvePreviewFileLink no_url "./docs//a%20b.md#L7" "" = Some {| link_path := "docs/a b.md"; link_line := Some 7 |}.
Proof. vm_compute. reflexivity. Qed.
Example link_outside : resolvePreviewFileLink no_url "../a.ts" "/proj" = None /\ resolvePreviewFileLink no_url "https://x.y/a" "" = None.
Proof. split; vm_compute; reflexivity. Qed.

(** * Lines *)

Inductive PreviewLineMode := CodeMode | MarkdownMode.

(** [Number(node?.position?.[edge]?.line)]: reading a property of something that is not an
    object gives [undefined]. *)
Definition position_line (node : value) (edge : string) : num :=
  let field (v : value) k := prop (properties v) k in toNumber (field (field (field node "position") edge) "line").
Definition sourceLineRange (node : value) : option (Q * Q) :=
  match position_line node "start" with
  | Fin start =>
    if Qle_bool start 0 then None
    else Some (start, match position_line node "end" with Fin end_ => if Qle_bool start end_ then end_ else start | _ => start end)
  | _ => None
  end.
Definition truthy_line (targetLine : option num) : option num :=
  match targetLine with Some n => if truthy (VNum n) then Some n else None | None => None end.
Definition num_le (a b : num) : bool :=
  match a, b with
  | NaN, _ | _, NaN => false
  | NegInf, _ | _, PosInf => true
  | PosInf, _ | _, NegInf => false
  | Fin x, Fin y => Qle_bool x y
  end.
Definition markdownSourceTargetProps (node : value) (targetLine : option num) : list (string * option string) :=
  match sourceLineRange node with
  | None => []
  | Some (start, end_) =>
    let isTarget := match truthy_line targetLine with Some n => num_le (Fin start) n && num_le n (Fin end_) | None => false end in
    [("data-source-line-start", Some (number_string (Fin start))); ("data-source-line-end", Some (number_string (Fin end_)));
     ("data-source-line-target", if isTarget then Some "true"%string else None)]%string
  end.

(** A candidate is the two attributes of an element, by its place in the page. *)
Record candidate := { cand_start : option string; cand_end : option string }.
Definition attribute_number (a : option string) : num := match a with Some s => string_to_number s | None => NaN end.
Definition normalized_line (line : Q) : Z := Z.max 1 (trunc line).
(** The span of a candidate that holds the line. *)
Definition candidate_span (line : Z) (c : candidate) : option Q :=
  match attribute_number (cand_start c), attribute_number (cand_end c) with
  | Fin start, Fin end_ => if negb (Qle_bool start (inject_Z line)) || negb (Qle_bool (inject_Z line) end_) then None else Some (end_ - start)%Q
  | _, _ => None
  end.
Definition better_candidate (line : Z) (best : option (nat * Q)) (e : nat * candidate) : option (nat * Q) :=
  match candidate_span line e.2 with
  | None => best
  | Some span => match best with None => Some (e.1, span) | Some (_, bestSpan) => if negb (Qle_bool bestSpan span) then Some (e.1, span) else best end
  end.
(** [findPreviewLineTarget] in Markdown, over the candidates in the order of the page. *)
Definition findPreviewLineTarget (candidates : list candidate) (line : Q) : option nat :=
  fst <$> foldl (better_candidate (normalized_line line)) None (imap pair candidates).

(** A container: where it is scrolled, its heights and its top; an element's top and height. *)
Record container := { ct_scrollTop : Q; ct_scrollHeight : Q; ct_clientHeight : Q; ct_top : Q }.
Definition scrolled (top : Q) (c : container) : container :=
  {| ct_scrollTop := top; ct_scrollHeight := ct_scrollHeight c; ct_clientHeight := ct_clientHeight c; ct_top := ct_top c |}.
Definition qmax (a b : Q) : Q := if Qle_bool a b then b else a.
Definition qmin (a b : Q) : Q := if Qle_bool a b then a else b.
Definition max_scroll (c : container) : Q := qmax 0 (ct_scrollHeight c - ct_clientHeight c).

Definition centerPreviewLine (c : container) (targetTop targetHeight : Q) : container :=
  let delta := (targetTop - ct_top c - ct_clientHeight c / 2 + targetHeight / 2)%Q in
  scrolled (qmin (max_scroll c) (qmax 0 (ct_scrollTop c + delta))) c.
Definition approximatePreviewLine (c : container) (line : Q) (content : string) (mode : PreviewLineMode) (lineHeight : Q) : container :=
  let normalizedLine := normalized_line line in
  let totalLines := Z.max 1 (Z.of_nat (length (split (Ascii.ascii_of_nat 10) content))) in
  match mode with
  | MarkdownMode =>
    let ratio := qmin 1 (qmax 0 (double (inject_Z (normalizedLine - 1) / inject_Z (Z.max 1 (totalLines - 1))))) in
    scrolled (inject_Z (round (double (max_scroll c * ratio)))) c
  | CodeMode =>
    let targetLine := Z.min normalizedLine totalLines in
    let centeredTop := (inject_Z (targetLine - 1) * qmax 1 lineHeight - ct_clientHeight c / 2 + qmax 1 lineHeight / 2)%Q in
    scrolled (qmin (max_scroll c) (qmax 0 (inject_Z (round centeredTop)))) c
  end.

(** ** The page a jump finds *)

(** The elements of code lines and of Markdown blocks, with their top and height. *)
Record page := { pg_container : container; pg_code_line : Z -> option (Q * Q); pg_blocks : list (candidate * (Q * Q)) }.
Definition page_target (p : page) (line : Q) (mode : PreviewLineMode) : option (Q * Q) :=
  match mode with
  | CodeMode => pg_code_line p (normalized_line line)
  | MarkdownMode => i ← findPreviewLineTarget (map fst (pg_blocks p)) line; snd <$> pg_blocks p !! i
  end.

Record jump_options := { jo_line : Q; jo_content : string; jo_mode : PreviewLineMode; jo_lineHeight : Q; jo_maxAttempts : option Z; jo_approximate : option bool }.
Definition approximated (o : jump_options) (c : container) : container :=
  approximatePreviewLine c (jo_line o) (jo_content o) (jo_mode o) (jo_lineHeight o).
Definition jumpToPreviewLineNow (o : jump_options) (p : page) : container * bool :=
  match page_target p (jo_line o) (jo_mode o) with
  | Some (top, height) => (centerPreviewLine (pg_container p) top height, true)
  | None => (approximated o (pg_container p), false)
  end.

(** ** The jump, frame by frame *)

(** [j_scrolled] is the container as the last frame that scrolled left it, [j_misses] the
    attempts given to [onMiss], [j_finished] the calls of [onFinish]. *)
Record jump := {
  j_maxAttempts : Z; j_attempt : Z; j_waiting : bool; j_cancelled : bool;
  j_finished : list bool; j_misses : list Z; j_scrolled : option container
}.
Definition schedulePreviewLineJump (o : jump_options) : jump :=
  {| j_maxAttempts := Z.max 1 (default 120 (jo_maxAttempts o)); j_attempt := 0; j_waiting := true; j_cancelled := false;
     j_finished := []; j_misses := []; j_scrolled := None |}.

Definition set_waiting (w : bool) (j : jump) : jump :=
  {| j_maxAttempts := j_maxAttempts j; j_attempt := j_attempt j; j_waiting := w; j_cancelled := j_cancelled j;
     j_finished := j_finished j; j_misses := j_misses j; j_scrolled := j_scrolled j |}.
Definition finish (exact_ : bool) (j : jump) : jump :=
  {| j_maxAttempts := j_maxAttempts j; j_attempt := j_attempt j; j_waiting := j_waiting j; j_cancelled := j_cancelled j;
     j_finished := j_finished j ++ [exact_]; j_misses := j_misses j; j_scrolled := j_scrolled j |}.
Definition scroll_to (c : container) (j : jump) : jump :=
  {| j_maxAttempts := j_maxAttempts j; j_attempt := j_attempt j; j_waiting := j_waiting j; j_cancelled := j_cancelled j;
     j_finished := j_finished j; j_misses := j_misses j; j_scrolled := Some c |}.
Definition miss (j : jump) : jump :=
  {| j_maxAttempts := j_maxAttempts j; j_attempt := j_attempt j; j_waiting := j_waiting j; j_cancelled := j_cancelled j;
     j_finished := j_finished j; j_misses := j_misses j ++ [j_attempt j]; j_scrolled := j_scrolled j |}.
Definition next_attempt (j : jump) : jump :=
  {| j_maxAttempts := j_maxAttempts j; j_attempt := j_attempt j + 1; j_waiting := true; j_cancelled := j_cancelled j;
     j_finished := j_finished j; j_misses := j_misses j; j_scrolled := j_scrolled j |}.
Definition cancel_jump (j : jump) : jump :=
  {| j_maxAttempts := j_maxAttempts j; j_attempt := j_attempt j; j_waiting := false; j_cancelled := true;
     j_finished := j_finished j; j_misses := j_misses j; j_scrolled := j_scrolled j |}.

(** What a frame finds: whether the jump is still wanted, the page, and what [resolveTarget]
    answers when it is given. *)
Inductive frame_view := NotCurrent | NoContainer | Seen (p : page) (resolved : option (option (Q * Q))).
Definition again_or_finish (j : jump) : jump := if j_attempt j <? j_maxAttempts j then next_attempt j else finish false j.
Definition exact_target (o : jump_options) (p : page) (resolved : option (option (Q * Q))) : option (Q * Q) :=
  match resolved with Some target => target | None => page_target p (jo_line o) (jo_mode o) end.
Definition run_frame (o : jump_options) (v : frame_view) (j : jump) : jump :=
  let j := set_waiting false j in
  if j_cancelled j then j else
  match v with
  | NotCurrent => j
  | NoContainer => again_or_finish j
  | Seen p resolved =>
    match exact_target o p resolved with
    | Some (top, height) => finish true (scroll_to (centerPreviewLine (pg_container p) top height) j)
    | None => again_or_finish (if default true (jo_approximate o) then scroll_to (approximated o (pg_container p)) (miss j) else miss j)
    end
  end.

Inductive jump_event := Frame (v : frame_view) | CancelJump.
Definition jump_step (o : jump_options) (e : jump_event) (j : jump) : option jump :=
  match e with Frame v => if j_waiting j then Some (run_frame o v j) else None | CancelJump => Some (cancel_jump j) end.
Fixpoint jump_run (o : jump_options) (es : list jump_event) (j : jump) : option jump :=
  match es with [] => Some j | e :: es => j ← jump_step o e j; jump_run o es j end.
Definition is_frame (e : jump_event) : bool := match e with Frame _ => true | CancelJump => false end.

(** * The directory that is listed *)

(** A hub that lists [current], answers that it is not modified when it is asked with its hash,
    and counts the requests. *)
Definition hub_lists (current : entries) (hash : entries -> string) : forall R, listE R -> nat -> R * nat :=
  fun R e n => match e with
    | RequestListing knownHash =>
      (inl (if bool_decide (knownHash = Some (hash current)) then {| dir_entries := []; dir_hash := None; dir_notModified := true |}
            else {| dir_entries := current; dir_hash := Some (hash current); dir_notModified := false |}), S n)
    end.

(** What is shown of a directory is what the hub lists, whatever was remembered of it with its
    hash; one request is enough. *)
Lemma preview_directory_current current hash cached known n : (forall e, hash e = hash current -> e = current) ->
  (forall c k, cached = Some c -> known = Some k -> k = hash c) ->
  run (hub_lists current hash) (fetchPreviewDirectoryEntries cached known) n = (inl {| pl_entries := current; pl_hash := hash current |}, S n).
Proof.
  intros Hinj Hk. unfold fetchPreviewDirectoryEntries, request_listing. autorewrite with js. cbn [hub_lists fst snd]. cbv zeta.
  destruct cached as [c|]; [destruct known as [k|]; [destruct (nonempty k) eqn:En|]|]; try (rewrite bool_decide_eq_false_2 by done; done).
  specialize (Hk c k eq_refl eq_refl). case_bool_decide as E; [|done]. injection E as ->. cbn. by rewrite (Hinj c).
Qed.

(** * The path of a link *)

Definition no_double (l : list ascii) : Prop := forall i, ~ (l !! i = Some slash /\ l !! S i = Some slash).

Lemma drop_slashes_head l : match drop_slashes l with c :: _ => c <> slash | [] => True end.
Proof. induction l as [|c l IH]; simpl; [done|]. destruct (Ascii.eqb_spec c slash); [done|]. done. Qed.
Lemma drop_slashes_sub (P : ascii -> Prop) l : Forall P l -> Forall P (drop_slashes l).
Proof. induction 1 as [|c l Hc Hl IH]; simpl; [done|]. destruct (Ascii.eqb c slash); [done|by constructor]. Qed.
Lemma strip_dot_sub (P : ascii -> Prop) l : Forall P l -> Forall P (strip_dot_slashes l).
Proof.
  intros H. destruct l as [|c [|d l]]; [done..|]. simpl. destruct (_ && _); [|done]. apply drop_slashes_sub. by apply Forall_cons in H as [_ [_ H]%Forall_cons].
Qed.
Lemma collapse_sub (P : ascii -> Prop) l : Forall P l -> Forall P (collapse_slashes l).
Proof. induction 1 as [|c l Hc Hl IH]; simpl; [done|]. destruct (_ && _); [done|by constructor]. Qed.
Lemma collapse_head l : head (collapse_slashes l) = head l.
Proof.
  induction l as [|c l IH]; simpl; [done|]. destruct (Ascii.eqb_spec c slash) as [->|]; simpl; [|done]. destruct l as [|d l]; [done|].
  destruct (Ascii.eqb_spec d slash) as [->|]; [|done]. by rewrite IH.
Qed.
Lemma collapse_no_double l : no_double (collapse_slashes l).
Proof.
  induction l as [|c l IH]; simpl; [by intros i [? _]|]. destruct (Ascii.eqb c slash && _) eqn:E; [done|]. intros [|i] [H1 H2]; [|by apply (IH i)].
  cbn in H1, H2. injection H1 as ->. pose proof (collapse_head l) as Hh. destruct l as [|d l]; [done|]. cbn [head] in Hh.
  destruct (collapse_slashes (d :: l)) as [|x k]; [done|]. cbn in Hh, H2. by simplify_eq.
Qed.

Definition clean_path (p : string) : Prop :=
  Forall (fun c => c <> backslash) (chars p) /\ head (chars p) <> Some slash /\ no_double (chars p).
Lemma tidy_clean p : Forall (fun c => c <> backslash) (chars p) -> clean_path (tidy_path p).
Proof.
  intros H. unfold clean_path, tidy_path. rewrite chars_unchars. split; [by apply collapse_sub, drop_slashes_sub, strip_dot_sub|]. split; [|apply collapse_no_double].
  rewrite collapse_head. pose proof (drop_slashes_head (strip_dot_slashes (chars p))). destruct (drop_slashes _); [done|]. cbn. congruence.
Qed.

(** Texts without a character. *)
Lemma slice_sub (P : ascii -> Prop) a b s : Forall P (chars s) -> Forall P (chars (slice a b s)).
Proof. intros H. unfold slice. rewrite chars_unchars. by apply Forall_take, Forall_drop. Qed.
Lemma slice_from_sub (P : ascii -> Prop) a s : Forall P (chars s) -> Forall P (chars (slice_from a s)).
Proof. intros H. unfold slice_from. rewrite chars_unchars. by apply Forall_drop. Qed.
Lemma trim_sub (P : ascii -> Prop) s : Forall P (chars s) -> Forall P (chars (trim s)).
Proof.
  assert (Hd : forall l, Forall P l -> Forall P (drop_space l)) by (induction 1 as [|c l Hc Hl IH]; simpl; [done|]; destruct (is_space c); [done|by constructor]).
  intros H. unfold trim. rewrite chars_unchars. by apply Forall_reverse, Hd, Forall_reverse, Hd.
Qed.
Lemma cut_line_sub (P : ascii -> Prop) r line keep s : Forall P (chars s) -> Forall P (chars (cut_line r line keep s).1).
Proof. intros H. unfold cut_line. destruct (search_from _ _ _) as [[[a b] c]|]; [by apply slice_sub|done]. Qed.
Lemma cut_line_positive r line keep s : (forall n, line = Some n -> 0 < n) -> forall n, (cut_line r line keep s).2 = Some n -> 0 < n.
Proof.
  intros H n. unfold cut_line. destruct (search_from _ _ _) as [[[a b] c]|]; [|apply H]. cbn [snd]. unfold positive_line.
  destruct (Z.ltb_spec 0 (parse_digits (capture s 1 c))); [by intros [= <-]|]. destruct keep; [apply H|done].
Qed.
Lemma forward_clean p : Forall (fun c => c <> backslash) (chars (forward_slashes p)).
Proof. unfold forward_slashes. rewrite chars_unchars. apply Forall_map, Forall_true. intros c. case_bool_decide; [|done]. by intros [=]. Qed.

(** ** Links of the project's files *)

(** A character of a path that a link holds as it is. *)
Definition plain (c : ascii) : Prop := is_space c = false /\ c ∉ chars "%:#\".

(** A path of the project: no leading slash, no doubled one, no leading step. *)
Record project_path (p : string) : Prop := {
  pp_plain : Forall plain (chars p);
  pp_clean : clean_path p;
  pp_nonempty : p <> ""%string;
  pp_here : startsWith p "./" = false;
  pp_up : startsWith p "../" = false
}.
(** The root of a project: an absolute path, without a slash at its end. *)
Record project_root (root : string) : Prop := {
  pr_plain : Forall plain (chars root);
  pr_absolute : exists c l, chars root = slash :: c :: l /\ c <> slash;
  pr_end : exists l c, chars root = l ++ [c] /\ c <> slash
}.

Lemma trim_no_space s : Forall (fun c => is_space c = false) (chars s) -> trim s = s.
Proof.
  assert (Hd : forall l, Forall (fun c => is_space c = false) l -> drop_space l = l) by (intros [|c l] H; [done|]; apply Forall_cons in H as [H _]; cbn; by rewrite H).
  intros H. unfold trim. rewrite (Hd (chars s)), Hd, reverse_involutive by (done || by apply Forall_reverse). apply unchars_chars.
Qed.

Lemma forward_plain s : Forall (fun c => c <> backslash) (chars s) -> forward_slashes s = s.
Proof.
  intros H. unfold forward_slashes. rewrite <- (unchars_chars s) at 2. f_equal. induction H as [|c l Hc _ IH]; [done|]. cbn. rewrite bool_decide_false by done. by f_equal.
Qed.

Lemma decode_plain s : Forall (fun c => c <> "%"%char) (chars s) -> decodePath s = s.
Proof.
  intros H. unfold decodePath, decodeURIComponent. assert (decode_chars (chars s) = Some (chars s)) as ->; [|cbn; apply unchars_chars].
  induction H as [|c l Hc _ IH]; [done|]. cbn [decode_chars]. destruct (Ascii.eqb_spec c "%"); [done|]. by rewrite IH.
Qed.

Lemma plain_sub (P : ascii -> Prop) s : (forall c, plain c -> P c) -> Forall plain (chars s) -> Forall P (chars s).
Proof. intros H Hs. by eapply Forall_impl. Qed.
Lemma plain_no_space c : plain c -> is_space c = false.
Proof. by intros []. Qed.
Lemma plain_marks c : plain c -> c <> "%"%char /\ c <> ":"%char /\ c <> "#"%char /\ c <> backslash.
Proof. intros [_ H]. split_and!; intros ->; apply H; by apply (bool_decide_unpack _). Qed.

(** The digits of a line number. *)
Lemma line_digits (n : Z) : 0 < n -> Forall (fun c => is_digit c = true) (chars (pretty n)) /\ chars (pretty n) <> [] /\ parse_digits (pretty n) = n.
Proof.
  intros Hn. destruct n as [|p|p]; [lia| |lia]. change (pretty (Z.pos p)) with (pretty (N.pos p)). unfold pretty, pretty_N. rewrite decide_False by done.
  set (f := fun n c => 10 * n + (Z.of_nat (nat_of_ascii c) - 48)).
  assert (Hdig : forall d : N, (d < 10)%N -> is_digit (pretty_N_char d) = true /\ Z.of_nat (nat_of_ascii (pretty_N_char d)) - 48 = Z.of_N d).
  { intros d Hd. destruct d as [|q]; [done|]. do 4 (destruct q as [q|q|]; try done; try (exfalso; lia)). }
  assert (H : forall (x : N) s, Forall (fun c => is_digit c = true) (chars s) ->
    Forall (fun c => is_digit c = true) (chars (pretty_N_go x s)) /\ (x <> 0%N \/ chars s <> [] -> chars (pretty_N_go x s) <> []) /\
    foldl f 0 (chars (pretty_N_go x s)) = foldl f (Z.of_N x) (chars s)).
  { intros x. induction (N.lt_wf_0 x) as [x _ IH]. intros s Hs. destruct (decide (x = 0%N)) as [->|Hx].
    - rewrite pretty_N_go_0. split; [done|]. split; [naive_solver|done].
    - rewrite pretty_N_go_step by lia. pose proof (N.mod_lt x 10 ltac:(lia)) as Hm. destruct (Hdig _ Hm) as [D1 D2].
      destruct (IH (x / 10)%N ltac:(apply N.div_lt; lia) (String (pretty_N_char (x mod 10)) s)) as (H1 & H2 & H3); [by constructor|].
      split; [done|]. split; [intros _; apply H2; by right|]. rewrite H3. cbn [chars String.list_ascii_of_string foldl]. unfold f at 2. rewrite D2. f_equal.
      rewrite <- N2Z.inj_mod, <- N2Z.inj_div || idtac. pose proof (N.div_mod x 10 ltac:(lia)). lia. }
  destruct (H (N.pos p) ""%string) as (H1 & H2 & H3); [constructor|]. split; [done|]. split; [apply H2; by left|exact H3].
Qed.

Section ends.
Context (s : list ascii).

(** A repetition of digits takes all that are left. *)
Lemma digits_exec {R} fuel i c (k : nat -> captures -> option R) z : (forall j x, (i <= j)%nat -> s !! j = Some x -> is_digit x = true) ->
  (i <= length s)%nat -> (length s - i <= fuel)%nat -> k (length s) c = Some z -> repeat_exec (exec_at s digit) true fuel i c k = Some z.
Proof.
  revert i; induction fuel as [|fuel IH]; intros i Hd Hi Hf Hk; cbn [repeat_exec]; [by replace i with (length s) by lia|].
  cbn [exec_at digit]. destruct (s !! i) as [x|] eqn:E.
  - rewrite (Hd i x) by done. rewrite (proj2 (Nat.eqb_neq (S i) i)) by lia. apply lookup_lt_Some in E.
    rewrite IH; [done|intros j y Hj; apply Hd; lia|lia|lia|done].
  - apply lookup_ge_None in E. replace i with (length s) by lia. cbn [or_else]. by rewrite Hk.
Qed.

(** The number at the end of a text, behind its mark. *)
Lemma number_exec a x mark : s !! a = Some x -> is_digit x = true -> (forall j y, (a <= j)%nat -> s !! j = Some y -> is_digit y = true) ->
  exec_at s (Cat (Group 1 (many1 digit)) (Cat (opt (Cat (Chr mark) (many1 digit))) (Eol false))) a [] (fun j c => Some (j, c)) = Some (length s, [(1%nat, (a, length s))]).
Proof.
  intros Hx Hd Hall. pose proof (lookup_lt_Some _ _ _ Hx) as Hlt. cbn [exec_at many1 many digit]. rewrite Hx, Hd.
  apply digits_exec; [intros j y Hj; apply Hall; lia|lia|lia|]. unfold opt. cbn [exec_at dset].
  rewrite (proj2 (lookup_ge_None s (length s))) by lia. cbn [or_else]. unfold at_eol. by rewrite (proj2 (lookup_ge_None s (length s))) by lia.
Qed.

Lemma search_skip r a b c : (a <= length s)%nat -> (forall i, (i < a)%nat -> match_at s r i = None) -> match_at s r a = Some (b, c) ->
  search_from s r 0 = Some (a, b, c).
Proof.
  intros Ha Hno Hm. unfold search_from. cbn [Nat.leb]. rewrite Nat.sub_0_r.
  assert (H : forall fuel i, (i <= a)%nat -> (a <= i + fuel)%nat -> search s r fuel i = Some (a, b, c)).
  { induction fuel as [|fuel IH]; intros i Hi Hf; cbn [search].
    - replace i with a by lia. by rewrite Hm.
    - destruct (decide (i = a)) as [->|]; [by rewrite Hm|]. rewrite Hno by lia. apply IH; lia. }
  apply H; lia.
Qed.
End ends.

Lemma search_needs p r s : needs p r = true -> Forall (fun c => p c = false) (chars s) -> search_from (chars s) r 0 = None.
Proof.
  intros Hn Hs. destruct (search_from (chars s) r 0) as [[[a b] c]|] eqn:E; [|done]. apply search_from_Some in E as (H1 & H2 & Hm).
  destruct (needs_sound _ _ _ _ _ Hm ltac:(lia) Hn) as (k & x & _ & Hx & Hp). rewrite Forall_forall in Hs. apply list_elem_of_lookup_2 in Hx. by rewrite (Hs _ Hx) in Hp.
Qed.
Lemma test_needs p r s : needs p r = true -> Forall (fun c => p c = false) (chars s) -> regex_test r s = false.
Proof. intros Hn Hs. unfold regex_test. by rewrite (search_needs p r s). Qed.

Lemma startsWith_chars_spec s p : startsWith s p = true <-> exists k, chars s = chars p ++ k.
Proof.
  unfold startsWith. revert s; induction p as [|a p IH]; intros s; [cbn; split; [by exists (chars s)|by destruct s]|].
  destruct s as [|b s]; cbn; [split; [done|by intros (k & [=])]|]. destruct (Ascii.ascii_dec a b) as [->|Hne].
  - rewrite IH. split; intros (k & Hk); exists k; [by f_equal|by injection Hk].
  - split; [done|]. intros (k & [=]). congruence.
Qed.

Lemma lower_slash c : lower_ascii c = slash -> c = slash.
Proof. destruct c as [[] [] [] [] [] [] [] []]; vm_compute; congruence. Qed.

Lemma chars_lower s : chars (toLowerCase s) = map lower_ascii (chars s).
Proof. unfold toLowerCase. apply chars_unchars. Qed.

Lemma no_double_app l k : no_double l -> no_double k -> (last l = Some slash -> head k = Some slash -> False) -> no_double (l ++ k).
Proof.
  intros Hl Hk Hj i [H1 H2]. destruct (decide (S i < length l)%nat) as [H|H].
  - rewrite lookup_app_l in H1, H2 by lia. by apply (Hl i).
  - destruct (decide (i < length l)%nat) as [H'|H'].
    + assert (S i = length l) as E by lia. rewrite lookup_app_l in H1 by lia. rewrite lookup_app_r, E, Nat.sub_diag in H2 by lia.
      apply Hj; [|by destruct k]. rewrite last_lookup. by rewrite <- E.
    + rewrite lookup_app_r in H1 by lia. rewrite lookup_app_r in H2 by lia. apply (Hk (i - length l)%nat).
      split; [done|]. by replace (S (i - length l)) with (S i - length l)%nat by lia.
Qed.

Lemma tidy_id p : project_path p -> tidy_path p = p.
Proof.
  intros [_ (_ & Hh & Hd) _ Hhere _]. unfold tidy_path. rewrite <- (unchars_chars p) at 2. f_equal.
  assert (strip_dot_slashes (chars p) = chars p) as ->.
  { destruct (chars p) as [|c [|d l]] eqn:E; [done..|]. cbn. destruct (Ascii.eqb_spec c dot) as [->|]; [|done]. destruct (Ascii.eqb_spec d slash) as [->|]; [|done].
    exfalso. assert (startsWith p "./" = true) as H; [|congruence]. apply startsWith_chars_spec. by exists l. }
  assert (drop_slashes (chars p) = chars p) as ->.
  { destruct (chars p) as [|c l]; [done|]. cbn in *. destruct (Ascii.eqb_spec c slash); [congruence|done]. }
  revert Hd. generalize (chars p). clear. induction l as [|c l IH]; intros Hd; [done|]. cbn [collapse_slashes].
  assert (no_double l) as Hl by (intros i H; by apply (Hd (S i))). rewrite IH by done.
  destruct (Ascii.eqb_spec c slash) as [->|]; [|done]. destruct l as [|d l]; [done|]. destruct (Ascii.eqb_spec d slash) as [->|]; [|done]. by destruct (Hd 0%nat).
Qed.

Lemma root_stripped root : project_root root -> strip_trailing_slashes (forward_slashes root) = root.
Proof.
  intros [Hp _ (l & c & E & Hc)]. rewrite forward_plain by (eapply plain_sub; [|done]; by intros x (_ & _ & _ & ?)%plain_marks). unfold strip_trailing_slashes.
  rewrite E, rev_unit. cbn [drop_slashes]. destruct (Ascii.eqb_spec c slash); [done|]. by rewrite <- rev_unit, rev_involutive, <- E, unchars_chars.
Qed.

(** The last part of [resolvePreviewFileLink], on a path of the project or one in full. *)
Definition full_path (root p : string) : string := root +:+ "/" +:+ p.

Lemma full_plain root p : project_path p -> project_root root -> Forall plain (chars (full_path root p)).
Proof.
  intros [Hp _ _ _ _] [Hr _ _]. unfold full_path. rewrite !chars_app. apply Forall_app. split; [done|]. cbn. constructor; [|done].
  split; [done|]. by apply (bool_decide_unpack _).
Qed.

Definition known (root p q : string) : Prop := q = p \/ q = full_path root p.

Lemma known_plain root p q : project_path p -> project_root root -> known root p q -> Forall plain (chars q).
Proof. intros Hp Hr [->| ->]; [apply Hp|by apply full_plain]. Qed.

Lemma known_not_remote root p q : project_path p -> project_root root -> known root p q -> regex_test remote_re q = false.
Proof.
  intros Hp Hr Hq. pose proof (known_plain root p q Hp Hr Hq) as Hplain. apply not_true_iff_false. intros (a & b & Ha & Hm)%regex_test_true.
  inversion Hm as [| | |? ? ? ? H|? ? ? ? H| | | | |]; subst.
  - assert (chars q !! 0%nat = Some slash /\ chars q !! 1%nat = Some slash) as [H0 H1].
    { unfold seq_of in H. inversion H as [| |? ? ? m ? B T| | | | | | |]; subst. inversion B as [| | | | | | | |? ? E|]; subst. destruct m; [|done].
      cbn in T. inversion T as [| |? ? ? m ? T1 T2| | | | | | |]; subst. inversion T1 as [|? ? x X1 X2| | | | | | | |]; subst. apply bool_decide_eq_true in X2 as ->.
      inversion T2 as [| |? ? ? m ? T3 _| | | | | | |]; subst. inversion T3 as [|? ? y Y1 Y2| | | | | | | |]; subst. by apply bool_decide_eq_true in Y2 as ->. }
    destruct Hq as [->| ->].
    + destruct Hp as [_ (_ & Hh & _) _ _ _]. by destruct (chars p) as [|c l]; simplify_eq.
    + destruct Hr as [_ (c & l & E & Hc) _]. unfold full_path in *. rewrite !chars_app, E in H1. cbn in H1. congruence.
  - destruct (needs_sound _ (fun c => bool_decide (c = ":"%char)) _ _ _ H) as (k & x & _ & Hx & Ex); [by rewrite chars_length|reflexivity|].
    apply bool_decide_eq_true in Ex as ->. rewrite Forall_forall in Hplain. apply list_elem_of_lookup_2, Hplain in Hx as [_ Hx]. apply Hx. by apply (bool_decide_unpack _).
Qed.

Lemma finish_known root p q : project_path p -> project_root root -> known root p q ->
  let rootLower := toLowerCase root in
  bool_decide (toLowerCase q = rootLower) = false /\ regex_test rooted_drive_re q = false /\
  (if nonempty root && startsWith (toLowerCase q) (rootLower +:+ "/") then slice_from (String.length root + 1) q else q) = p.
Proof.
  intros Hp Hr Hq rootLower. pose proof (known_plain root p q Hp Hr Hq) as Hplain.
  destruct Hr as [_ (c & l & E & Hc) _]. assert (nonempty root = true) as -> by (apply nonempty_true; intros ->; done). cbn [andb].
  assert (regex_test rooted_drive_re q = false) as ->.
  { apply (test_needs (fun c => bool_decide (c = ":"%char))); [reflexivity|]. eapply plain_sub; [|done]. intros x (_ & Hx & _)%plain_marks. by apply bool_decide_eq_false. }
  assert (chars rootLower = slash :: map lower_ascii (c :: l)) as El by (unfold rootLower; rewrite chars_lower, E; reflexivity).
  destruct Hq as [->| ->].
  - assert (forall k, chars (toLowerCase p) = chars rootLower ++ k -> False) as Hno.
    { intros k H. rewrite chars_lower, El in H. destruct Hp as [_ (_ & Hh & _) _ _ _]. destruct (chars p) as [|d m]; [done|]. cbn in H. injection H as Hd _.
      apply lower_slash in Hd as ->. done. }
    split; [apply bool_decide_eq_false; intros Heq; apply (Hno []); by rewrite Heq, app_nil_r|]. split; [done|].
    destruct (startsWith _ _) eqn:Es; [|done]. apply startsWith_chars_spec in Es as (k & Hk). rewrite chars_app, <- app_assoc in Hk. by destruct (Hno _ Hk).
  - assert (chars (toLowerCase (full_path root p)) = chars (rootLower +:+ "/") ++ map lower_ascii (chars p)) as Ef.
    { unfold full_path. rewrite chars_lower, !chars_app, !map_app, <- app_assoc. unfold rootLower. by rewrite chars_lower. }
    split; [|split; [done|]].
    + apply bool_decide_eq_false. intros Heq. apply (f_equal (fun s => length (chars s))) in Heq. rewrite Ef, chars_app, !length_app in Heq. cbn in Heq. lia.
    + rewrite (proj2 (startsWith_chars_spec _ _)) by eauto. unfold slice_from, full_path. rewrite !chars_app, <- chars_length, app_assoc.
      rewrite drop_app_length'; [apply unchars_chars|]. rewrite length_app. done.
Qed.

(** A link that is such a path with a line, or without one. *)
Lemma resolve_link parse_url root p q text line : project_path p -> project_root root -> known root p q ->
  link_candidate parse_url text = Some text -> Forall (fun c => is_space c = false /\ c <> backslash) (chars text) -> text <> ""%string ->
  (let '(n, l) := cut_line hash_line_re None false text in cut_line suffix_line_re l true n) = (q, line) ->
  resolvePreviewFileLink parse_url text root = Some {| link_path := p; link_line := line |}.
Proof.
  intros Hp Hr Hq Hc Ht Hne Hcut. apply Forall_and in Ht as [Hs Hb]. unfold resolvePreviewFileLink.
  rewrite !(trim_no_space text), (proj2 (nonempty_true _) Hne), Hc by done. cbn [negb]. rewrite (trim_no_space text), forward_plain by done.
  rewrite (proj2 (nonempty_true _) Hne). cbn [negb]. destruct (cut_line hash_line_re None false text) as [n l]. cbn beta iota in Hcut. rewrite Hcut.
  pose proof (known_plain root p q Hp Hr Hq) as Hplain. rewrite (trim_no_space q) by (eapply plain_sub; [apply plain_no_space|done]).
  rewrite root_stripped, (known_not_remote root p) by done. destruct (finish_known root p q Hp Hr Hq) as (-> & -> & ->).
  assert (nonempty q = true) as ->.
  { apply nonempty_true. intros ->. destruct Hq as [Hq|Hq]; [by destruct Hp|]. unfold full_path in Hq. apply (f_equal chars) in Hq.
    destruct Hr as [_ (c & l' & E & _) _]. rewrite !chars_app, E in Hq. done. }
  cbn [negb orb andb]. rewrite andb_false_r. rewrite tidy_id by done. destruct Hp as [_ _ Hpe _ Hup]. rewrite Hup, (proj2 (nonempty_true _) Hpe). done.
Qed.

(** Whatever the link. *)
Lemma link_sound parse_url href projectRoot link : resolvePreviewFileLink parse_url href projectRoot = Some link ->
  link_path link <> ""%string /\ clean_path (link_path link) /\ startsWith (link_path link) "../" = false /\ (forall n, link_line link = Some n -> 0 < n).
Proof.
  unfold resolvePreviewFileLink. destruct (negb _); [done|]. destruct (link_candidate _ _) as [candidate|]; [|done]. destruct (negb _); [done|].
  pose proof (forward_clean (trim candidate)) as H0. set (n0 := forward_slashes _) in *. clearbody n0.
  pose proof (cut_line_sub _ hash_line_re None false _ H0) as H1. pose proof (cut_line_positive hash_line_re None false n0 ltac:(done)) as L1.
  destruct (cut_line hash_line_re None false n0) as [n1 l1]. cbn [fst snd] in *.
  pose proof (cut_line_sub _ suffix_line_re l1 true _ H1) as H2. pose proof (cut_line_positive suffix_line_re l1 true n1 L1) as L2.
  destruct (cut_line suffix_line_re l1 true n1) as [n2 l2]. cbn [fst snd] in *.
  apply trim_sub in H2. set (n3 := trim n2) in *. clearbody n3. destruct (_ || _); [done|]. set (root := strip_trailing_slashes _). clearbody root.
  destruct (_ && _); [done|]. set (n4 := if regex_test rooted_drive_re n3 then _ else _).
  assert (H4 : Forall (fun c => c <> backslash) (chars n4)) by (unfold n4; destruct (regex_test _ _); [by apply slice_from_sub|done]). clearbody n4.
  set (n5 := if nonempty root && _ then _ else _).
  assert (H5 : Forall (fun c => c <> backslash) (chars n5)) by (unfold n5; destruct (nonempty root && _); [by apply slice_from_sub|done]). clearbody n5.
  pose proof (tidy_clean n5 H5) as Hc. set (p := tidy_path n5) in *. clearbody p. destruct (negb (nonempty p) || startsWith p "../") eqn:E; [done|].
  intros [= <-]. apply orb_false_iff in E as [E1 E2]. apply negb_false_iff in E1. cbn. split; [by apply nonempty_true|]. done.
Qed.

(** What the line is cut from. *)
Lemma cut_none q line : Forall plain (chars q) -> cut_line hash_line_re None false q = (q, None) /\ cut_line suffix_line_re line true q = (q, line).
Proof.
  intros Hq. unfold cut_line. rewrite (search_needs (fun c => bool_decide (c = "#"%char))); [|reflexivity|].
  2: { eapply plain_sub; [|done]. intros c (_ & _ & Hc & _)%plain_marks. by apply bool_decide_eq_false. }
  rewrite (search_needs (fun c => bool_decide (c = ":"%char))); [done|reflexivity|].
  eapply plain_sub; [|done]. intros c (_ & Hc & _)%plain_marks. by apply bool_decide_eq_false.
Qed.

(** A number behind a mark at the end is the line. *)
Lemma cut_number r q mark line keep n : 0 < n ->
  (forall i b, (i < length (chars q))%nat -> ~ matches (chars (q +:+ mark +:+ pretty n)) r i b) ->
  match_at (chars (q +:+ mark +:+ pretty n)) r (length (chars q)) =
    Some (length (chars (q +:+ mark +:+ pretty n)), [(1%nat, ((length (chars q) + length (chars mark))%nat, length (chars (q +:+ mark +:+ pretty n))))]) ->
  cut_line r line keep (q +:+ mark +:+ pretty n) = (q, Some n).
Proof.
  intros Hn Hno Hm. unfold cut_line. set (s := q +:+ mark +:+ pretty n) in *.
  assert (chars s = chars q ++ chars mark ++ chars (pretty n)) as Es by (unfold s; by rewrite !chars_app).
  rewrite (search_skip (chars s) r (length (chars q)) _ _ ltac:(rewrite Es, length_app; lia)
    ltac:(intros i Hi; destruct (match_at (chars s) r i) as [[b c]|] eqn:E; [apply match_at_Some in E; by destruct (Hno i b)|done]) Hm).
  unfold capture. cbn [dget]. rewrite decide_True by done. unfold slice. rewrite Es, drop_0, Nat.sub_0_r, take_app_length.
  rewrite app_assoc, drop_app_length' by (by rewrite length_app). rewrite take_ge by (rewrite !length_app; lia). rewrite !unchars_chars.
  destruct (line_digits n Hn) as (_ & _ & ->). unfold positive_line. by rewrite (proj2 (Z.ltb_lt 0 n)).
Qed.

Lemma digit_tail l ds a j x : a = length l -> Forall (fun c => is_digit c = true) ds -> (a <= j)%nat -> (l ++ ds) !! j = Some x -> is_digit x = true.
Proof.
  intros -> Hd Hj Hx. rewrite lookup_app_r in Hx by done. by apply (Forall_lookup_1 _ _ _ _ Hd Hx).
Qed.

Lemma cut_hash q n : Forall plain (chars q) -> 0 < n -> cut_line hash_line_re None false (q +:+ "#L" +:+ pretty n) = (q, Some n).
Proof.
  intros Hq Hn. destruct (line_digits n Hn) as (Hd & Hne & _). apply cut_number; [done|..]; rewrite !chars_app; set (ds := chars (pretty n)) in *.
  - intros i b Hi Hm. inversion Hm as [| |? ? ? m ? H _| | | | | | |]; subst. inversion H as [|? ? x Hx Ex| | | | | | | |]; subst.
    apply bool_decide_eq_true in Ex as ->. rewrite lookup_app_l in Hx by done. by apply (Forall_lookup_1 _ _ _ _ Hq), plain_marks in Hx as (_ & _ & ? & _).
  - unfold match_at, hash_line_re. cbn [seq_of exec_at one].
    assert ((chars q ++ chars "#L" ++ ds) !! length (chars q) = Some "#"%char) as -> by (by rewrite lookup_app_r, Nat.sub_diag by lia).
    assert ((chars q ++ chars "#L" ++ ds) !! S (length (chars q)) = Some "L"%char) as ->
      by (rewrite lookup_app_r by lia; by replace (S (length (chars q)) - length (chars q))%nat with 1%nat by lia).
    rewrite bool_decide_true by done. cbn iota. rewrite bool_decide_true by done.
    destruct ds as [|d ds]; [done|]. replace (length (chars q) + length (chars "#L"))%nat with (S (S (length (chars q)))) by (cbn; lia).
    apply (number_exec _ _ d (fun c => bool_decide (lower_ascii c = "c"%char))).
    + rewrite lookup_app_r by lia. replace (S (S (length (chars q))) - length (chars q))%nat with 2%nat by lia. done.
    + by apply Forall_cons in Hd as [? _].
    + intros j y Hj. rewrite app_assoc. apply (digit_tail (chars q ++ chars "#L") (d :: ds) (S (S (length (chars q))))); [rewrite length_app; cbn; lia|exact Hd|lia].
Qed.

Lemma cut_colon q n line : Forall plain (chars q) -> 0 < n -> cut_line suffix_line_re line true (q +:+ ":" +:+ pretty n) = (q, Some n).
Proof.
  intros Hq Hn. destruct (line_digits n Hn) as (Hd & Hne & _). apply cut_number; [done|..]; rewrite !chars_app; set (ds := chars (pretty n)) in *.
  - intros i b Hi Hm. inversion Hm as [| |? ? ? m ? H _| | | | | | |]; subst. inversion H as [|? ? x Hx Ex| | | | | | | |]; subst.
    apply bool_decide_eq_true in Ex as ->. rewrite lookup_app_l in Hx by done. by apply (Forall_lookup_1 _ _ _ _ Hq), plain_marks in Hx as (_ & ? & _).
  - unfold match_at, suffix_line_re. cbn [seq_of exec_at one].
    assert ((chars q ++ chars ":" ++ ds) !! length (chars q) = Some ":"%char) as -> by (by rewrite lookup_app_r, Nat.sub_diag by lia).
    rewrite bool_decide_true by done. cbn iota.
    destruct ds as [|d ds]; [done|]. replace (length (chars q) + length (chars ":"))%nat with (S (length (chars q))) by (cbn; lia).
    apply (number_exec _ _ d (fun c => bool_decide (c = ":"%char))).
    + rewrite lookup_app_r by lia. by replace (S (length (chars q)) - length (chars q))%nat with 1%nat by lia.
    + by apply Forall_cons in Hd as [? _].
    + intros j y Hj. rewrite app_assoc. apply (digit_tail (chars q ++ chars ":") (d :: ds) (S (length (chars q)))); [rewrite length_app; cbn; lia|exact Hd|lia].
Qed.

(** What the link is a path of: a text without a scheme is one itself. *)
Lemma test_head (p : ascii -> bool) r1 r2 s : (forall c, head (chars s) = Some c -> p c = false) -> regex_test (Cat (Bol false) (Cat (Cat (Chr p) r1) r2)) s = false.
Proof.
  intros Hh. apply not_true_iff_false. intros (a & b & _ & Hm)%regex_test_true. inversion Hm as [| |? ? ? m ? B T| | | | | | |]; subst.
  inversion B as [| | | | | | | |? ? E|]; subst. destruct m; [|done]. inversion T as [| |? ? ? m ? T1 _| | | | | | |]; subst.
  inversion T1 as [| |? ? ? m' ? T2 _| | | | | | |]; subst. inversion T2 as [|? ? x Hx Ex| | | | | | | |]; subst.
  rewrite Hh in Ex; [done|]. by destruct (chars s).
Qed.
Lemma test_head_one (p : ascii -> bool) r2 s : (forall c, head (chars s) = Some c -> p c = false) -> regex_test (Cat (Bol false) (Cat (Chr p) r2)) s = false.
Proof.
  intros Hh. apply not_true_iff_false. intros (a & b & _ & Hm)%regex_test_true. inversion Hm as [| |? ? ? m ? B T| | | | | | |]; subst.
  inversion B as [| | | | | | | |? ? E|]; subst. destruct m; [|done]. inversion T as [| |? ? ? m ? T1 _| | | | | | |]; subst.
  inversion T1 as [|? ? x Hx Ex| | | | | | | |]; subst. rewrite Hh in Ex; [done|]. by destruct (chars s).
Qed.

Lemma candidate_rooted parse_url s : head (chars s) = Some slash -> Forall (fun c => c <> "%"%char) (chars s) -> link_candidate parse_url s = Some s.
Proof.
  intros Hh Hp. assert (forall p : ascii -> bool, p slash = false -> forall c, head (chars s) = Some c -> p c = false) as H.
  { intros p E c Hc. rewrite Hh in Hc. by injection Hc as <-. }
  unfold link_candidate. assert (regex_test file_scheme_re s = false) as -> by by apply test_head, H.
  assert (regex_test vscode_scheme_re s = false) as -> by by apply test_head, H. rewrite decode_plain by done.
  destruct (regex_test drive_re s); [done|]. by assert (regex_test any_scheme_re s = false) as -> by by apply test_head_one, H.
Qed.

Lemma candidate_relative parse_url s : Forall (fun c => c <> ":"%char) (chars s) -> Forall (fun c => c <> "%"%char) (chars s) -> link_candidate parse_url s = Some s.
Proof.
  intros Hc Hp. assert (forall r, needs (fun c => bool_decide (c = ":"%char)) r = true -> regex_test r s = false) as H.
  { intros r Hn. apply (test_needs _ r s Hn). eapply Forall_impl; [exact Hc|]. intros c. by apply bool_decide_eq_false. }
  unfold link_candidate. by rewrite (H file_scheme_re), (H vscode_scheme_re), (H drive_re), (H any_scheme_re), decode_plain.
Qed.

(** A link text: a path, and what is behind it. *)
Lemma link_text (P : ascii -> Prop) q t n : Forall plain (chars q) -> 0 < n -> (forall c, plain c -> P c) -> Forall P (chars t) ->
  (forall c, is_digit c = true -> P c) -> Forall P (chars (q +:+ t +:+ pretty n)).
Proof.
  intros Hq Hn Hp Ht Hd. rewrite !chars_app. destruct (line_digits n Hn) as (H & _ & _).
  apply Forall_app. split; [by eapply plain_sub|]. apply Forall_app. split; [done|]. by eapply Forall_impl.
Qed.

Lemma digit_plain c : is_digit c = true -> plain c.
Proof. destruct c as [[] [] [] [] [] [] [] []]; intros H; first [discriminate H|split; [reflexivity|by apply (bool_decide_unpack _)]]. Qed.



(** A line behind the name of a file at the root of the project is not taken for one: the
    name is taken for the scheme of a link. *)
Lemma root_file_line_refused : resolvePreviewFileLink no_url "README.md:12" "/home/me/proj" = None.
Proof. vm_compute. reflexivity. Qed.

(** Only a first step upwards is refused: the path may leave the project later, or behind a dot. *)
Lemma link_leaves_project :
  link_path <$> resolvePreviewFileLink no_url "src/../../secret.ts" "" = Some "src/../../secret.ts"%string /\
  link_path <$> resolvePreviewFileLink no_url "././../secret.ts" "" = Some "./../secret.ts"%string.
Proof. split; vm_compute; reflexivity. Qed.
(** A drive without a slash is not tidied after all, and so not found to be the root's. *)
Lemma bare_drive_not_tidied : link_path <$> resolvePreviewFileLink no_url "C:proj/a.ts" "C:/proj" = Some "C:proj/a.ts"%string.
Proof. vm_compute. reflexivity. Qed.

(** * The line *)

(** The candidate that is chosen holds the line, and none that does is narrower, nor as narrow
    and earlier in the page. *)
Lemma line_target_spec candidates line n : findPreviewLineTarget candidates line = Some n ->
  exists c span, candidates !! n = Some c /\ candidate_span (normalized_line line) c = Some span /\
    forall m d other, candidates !! m = Some d -> candidate_span (normalized_line line) d = Some other -> (span <= other)%Q /\ ((m < n)%nat -> (span < other)%Q).
Proof.
  unfold findPreviewLineTarget. set (l := normalized_line line). intros H.
  assert (Hgen : match foldl (better_candidate l) None (imap pair candidates) with
    | None => forall m d, candidates !! m = Some d -> candidate_span l d = None
    | Some (n, span) => exists c, candidates !! n = Some c /\ candidate_span l c = Some span /\
        forall m d other, candidates !! m = Some d -> candidate_span l d = Some other -> (span <= other)%Q /\ ((m < n)%nat -> (span < other)%Q)
    end).
  { clear H n. induction candidates as [|c cs IH] using rev_ind; [done|]. rewrite imap_app. cbn [imap]. rewrite foldl_app. cbn [foldl].
    set (best := foldl _ _ _) in *. clearbody best. unfold better_candidate. cbn [fst snd]. rewrite Nat.add_0_r.
    assert (Hlast : forall m d, (cs ++ [c]) !! m = Some d -> (m < length cs)%nat /\ cs !! m = Some d \/ m = length cs /\ d = c).
    { intros m d [[Hlt Hd]|[-> ->]]%lookup_snoc_Some; [left|right]; done. }
    destruct (candidate_span l c) as [span|] eqn:Es.
    2:{ destruct best as [[n s]|]; [destruct IH as (c' & H1 & H2 & H3); exists c'; split; [by apply lookup_app_l_Some|]; split; [done|]|];
      intros m d; [intros other|]; intros [[_ Hd]|[-> ->]]%Hlast; try done; [by eapply H3|congruence|by eapply IH]. }
    destruct best as [[n s]|].
    - destruct IH as (c' & H1 & H2 & H3). pose proof (lookup_lt_Some _ _ _ H1). destruct (Qle_bool s span) eqn:Ele; cbn [negb].
      + exists c'. split; [by apply lookup_app_l_Some|]. split; [done|]. intros m d other [[_ Hd]|[-> ->]]%Hlast Ho; [by eapply H3|].
        simplify_eq. split; [by apply Qle_bool_iff|lia].
      + assert (Hlt : (span < s)%Q). { apply Qnot_le_lt. intros Hle. apply Qle_bool_iff in Hle. congruence. }
        exists c. split; [by rewrite lookup_app_r, Nat.sub_diag|]. split; [done|]. intros m d other [[_ Hd]|[-> ->]]%Hlast Ho.
        * destruct (H3 _ _ _ Hd Ho) as [Hle _]. split; [by apply Qlt_le_weak, (Qlt_le_trans _ s)|intros _; by apply (Qlt_le_trans _ s)].
        * simplify_eq. split; [apply Qle_refl|lia].
    - exists c. split; [by rewrite lookup_app_r, Nat.sub_diag|]. split; [done|]. intros m d other [[_ Hd]|[-> ->]]%Hlast Ho.
      + by rewrite (IH _ _ Hd) in Ho.
      + simplify_eq. split; [apply Qle_refl|lia]. }
  destruct (foldl _ _ _) as [[k span]|]; [|done]. injection H as ->. destruct Hgen as (c & ? & ? & ?). by exists c, span.
Qed.

(** * The jump *)

(** A scrolled container shows a place it has. *)
Definition in_range (c : container) : Prop := (0 <= ct_scrollTop c)%Q /\ (ct_scrollTop c <= max_scroll c)%Q.
Lemma qmax_spec a b : (a <= qmax a b)%Q /\ (b <= qmax a b)%Q.
Proof. unfold qmax. destruct (Qle_bool a b) eqn:E; [apply Qle_bool_iff in E|assert (~ (a <= b)%Q) by (rewrite <- Qle_bool_iff; congruence)]; lra. Qed.
Lemma qmin_spec a b : (qmin a b <= a)%Q /\ (qmin a b = a \/ qmin a b = b).
Proof.
  unfold qmin. destruct (Qle_bool a b) eqn:E; [split; [lra|by left]|]. assert (~ (a <= b)%Q) by (rewrite <- Qle_bool_iff; congruence).
  split; [lra|by right].
Qed.
Lemma clamped_range c q : in_range (scrolled (qmin (max_scroll c) (qmax 0 q)) c).
Proof.
  unfold in_range. cbn [ct_scrollTop scrolled]. change (max_scroll (scrolled _ c)) with (max_scroll c).
  destruct (qmin_spec (max_scroll c) (qmax 0 q)) as [H [E|E]]; (split; [|done]); rewrite E; [|apply qmax_spec]. apply qmax_spec.
Qed.
Lemma center_in_range c top height : in_range (centerPreviewLine c top height).
Proof. apply clamped_range. Qed.

Record jump_ok (frames : nat) (j : jump) : Prop := {
  jk_frames : Z.of_nat frames <= j_attempt j + (if j_waiting j then 0 else 1);
  jk_attempts : 0 <= j_attempt j <= j_maxAttempts j;
  jk_finished : (length (j_finished j) <= 1)%nat;
  jk_waiting : j_waiting j = true -> j_finished j = [] /\ j_cancelled j = false;
  jk_exact : j_finished j = [true] -> exists c, j_scrolled j = Some c /\ in_range c
}.

#[local] Ltac settle := cbn; try lia; try done; try (by intros ?%(f_equal length)).
Lemma again_ok frames m j : j_maxAttempts j = m -> j_waiting j = false -> j_finished j = [] -> j_cancelled j = false -> 0 <= j_attempt j <= m ->
  Z.of_nat frames <= j_attempt j -> jump_ok (S frames) (again_or_finish j) /\ j_maxAttempts (again_or_finish j) = m.
Proof.
  intros <- E1 E2 E3 E4 E5. unfold again_or_finish. destruct (Z.ltb_spec (j_attempt j) (j_maxAttempts j)); (split; [split; cbn; rewrite ?E1, ?E2, ?E3; cbn; settle|done]).
Qed.
Lemma jump_step_ok o frames e j j' : jump_ok frames j -> jump_step o e j = Some j' ->
  jump_ok (if is_frame e then S frames else frames) j' /\ j_maxAttempts j' = j_maxAttempts j.
Proof.
  intros [H1 H2 H3 H4 H5]. destruct e as [v|]; cbn [jump_step is_frame].
  - destruct (j_waiting j) eqn:Ew; [|done]. destruct (H4 eq_refl) as [Hf Hc]. intros [= <-]. unfold run_frame. cbn [j_cancelled set_waiting]. rewrite Hc.
    destruct v as [| |p resolved]; [split; [split; cbn; rewrite ?Hf; settle|done]|apply again_ok; cbn; settle|].
    destruct (exact_target o p resolved) as [[top height]|].
    + split; [split; cbn; rewrite ?Hf; cbn; try settle|done]. intros _. eexists. split; [done|apply center_in_range].
    + destruct (default true (jo_approximate o)); apply again_ok; cbn; settle.
  - intros [= <-]. split; [|done]. split; cbn; [destruct (j_waiting j); lia|done|done|done|done].
Qed.

Lemma jump_run_ok o frames es j j' : jump_ok frames j -> jump_run o es j = Some j' ->
  jump_ok (frames + length (bfilter is_frame es)) j' /\ j_maxAttempts j' = j_maxAttempts j.
Proof.
  revert frames j. induction es as [|e es IH]; intros frames j Hj; cbn; [intros [= <-]; by rewrite Nat.add_0_r|].
  destruct (jump_step o e j) as [j1|] eqn:E; [|done]. cbn. destruct (jump_step_ok _ _ _ _ _ Hj E) as [H1 Hm]. intros H. destruct (IH _ _ H1 H) as [H2 Hm2].
  split; [|congruence]. destruct (is_frame e); cbn; [by rewrite Nat.add_succ_r|done].
Qed.

(** A frame that is wanted leaves the jump waiting for another, or finished. *)
Definition wanted (e : jump_event) : bool := match e with Frame NotCurrent | CancelJump => false | Frame _ => true end.
Lemma finished_stays o es j j' : Forall (fun e => wanted e = true) es -> j_waiting j = false -> j_finished j <> [] -> jump_run o es j = Some j' -> j_finished j' <> [].
Proof. intros Hes H0 Hf. destruct es as [|e es]; [by intros [= <-]|]. apply Forall_cons in Hes as [He _]. destruct e as [v|]; [|done]. cbn. by rewrite H0. Qed.
Lemma finish_nonempty b j : j_finished (finish b j) <> [].
Proof. cbn. by destruct (j_finished j). Qed.
Lemma wanted_run o es j j' : Forall (fun e => wanted e = true) es -> j_waiting j = true -> j_cancelled j = false -> jump_run o es j = Some j' ->
  (j_waiting j' = true /\ j_cancelled j' = false) \/ j_finished j' <> [].
Proof.
  revert j. induction es as [|e es IH]; intros j Hes Hw Hc; cbn; [intros [= <-]; by left|]. apply Forall_cons in Hes as [He Hes].
  destruct e as [v|]; [|done]. cbn. rewrite Hw. cbn. unfold run_frame. cbn [j_cancelled set_waiting]. rewrite Hc.
  assert (Hagain : forall j0, j_waiting j0 = false -> j_cancelled j0 = false -> jump_run o es (again_or_finish j0) = Some j' -> (j_waiting j' = true /\ j_cancelled j' = false) \/ j_finished j' <> []).
  { intros j0 H0 H0c. unfold again_or_finish. destruct (_ <? _); [by apply IH|]. intros H. right. eapply finished_stays; [done| |apply finish_nonempty|exact H]. done. }
  destruct v as [| |p resolved]; [done|by apply Hagain|]. destruct (exact_target o p resolved) as [[top height]|].
  - intros H. right. eapply finished_stays; [done| |apply finish_nonempty|exact H]. done.
  - by destruct (default true (jo_approximate o)); apply Hagain.
Qed.

(** C39. A jump to a line ends: it asks for at most one frame more than its attempts, tells its
    end at most once and then asks for no frame; unless it was cancelled or not wanted any
    more, it tells its end when it stops; and when it tells it has found its line, the
    container is scrolled to a place it has. *)
Theorem jump_ends o es j : jump_run o es (schedulePreviewLineJump o) = Some j ->
  Z.of_nat (length (bfilter is_frame es)) <= Z.max 1 (default 120 (jo_maxAttempts o)) + 1 /\
  (length (j_finished j) <= 1)%nat /\ (j_finished j <> [] -> j_waiting j = false) /\
  (Forall (fun e => wanted e = true) es -> j_waiting j = false -> length (j_finished j) = 1%nat) /\
  (j_finished j = [true] -> exists c, j_scrolled j = Some c /\ in_range c).
Proof.
  intros H. assert (H0 : jump_ok 0 (schedulePreviewLineJump o)) by (split; cbn; lia || done).
  destruct (jump_run_ok o 0 es _ j H0 H) as [[J1 J2 J3 J4 J5] Hm]. cbn [Nat.add] in J1. cbn in Hm. split_and!; [| | | |done].
  - rewrite Hm in J2. destruct (j_waiting j); lia.
  - done.
  - intros Hf. destruct (j_waiting j); [|done]. destruct (J4 eq_refl) as [Hn _]. by rewrite Hn in Hf.
  - intros Hes Hw. destruct (wanted_run o es (schedulePreviewLineJump o) j Hes eq_refl eq_refl H) as [[Hw' _]|Hf]; [congruence|]. destruct (j_finished j) as [|x [|y l]]; [done|done|cbn in J3; lia].
Qed.
Lemma jump_ends_witness :
  let o := {| jo_line := 3; jo_content := "a"; jo_mode := CodeMode; jo_lineHeight := 20; jo_maxAttempts := Some 2; jo_approximate := None |} in
  let c := {| ct_scrollTop := 0; ct_scrollHeight := 1000; ct_clientHeight := 100; ct_top := 0 |} in
  let at_line h := Seen {| pg_container := c; pg_code_line := fun _ => h; pg_blocks := [] |} None in
  exists j, jump_run o [Frame NoContainer; Frame (at_line None); Frame (at_line (Some (400, 20)%Q))] (schedulePreviewLineJump o) = Some j /\
  3 <= Z.max 1 2 + 1 /\ length (j_finished j) = 1%nat /\ (exists c, j_scrolled j = Some c /\ in_range c).
Proof.
  intros o c at_line. eexists. split; [reflexivity|].
  destruct (jump_ends o [Frame NoContainer; Frame (at_line None); Frame (at_line (Some (400, 20)%Q))] _ eq_refl) as (H1 & _ & _ & H2 & H3).
  split; [exact H1|]. split; [apply H2; [by repeat constructor|reflexivity]|apply H3; reflexivity].
Defined.
