(* ===== verification/Grouping.v ===== *)
(** Grouping in a [Map]: a loop that looks up the group of each element's key, adds the
    element and sets the group again.  Groups come out in the order of their first elements,
    and each is what its own elements make of it. *)

From S2P Require Import Prelude.
Open Scope Z_scope.

Section grouping.
Context {A K G : Type} `{EqDecision K} (key : A -> K) (fresh : A -> G) (more : G -> A -> G).

Definition group_add (groups : list (K * G)) (x : A) : list (K * G) :=
  dset groups (key x) (match dget groups (key x) with Some g => more g x | None => fresh x end).
Definition group_by (l : list A) : list (K * G) := foldl group_add [] l.

(** What the elements of one group make of it. *)
Definition group_of (l : list A) : option G := match l with [] => None | x :: l => Some (foldl more (fresh x) l) end.
Definition members (k : K) (l : list A) : list A := bfilter (fun x => bool_decide (key x = k)) l.

Lemma fold_group_snoc l x : group_of (l ++ [x]) = Some (match group_of l with Some g => more g x | None => fresh x end).
Proof. destruct l as [|y l]; [done|]. cbn. by rewrite foldl_app. Qed.

Lemma dget_group_by l k : dget (group_by l) k = group_of (members k l).
Proof.
  induction l as [|x l IH] using rev_ind; [done|]. unfold group_by, members in *. rewrite foldl_app, bfilter_app. cbn.
  unfold group_add at 1. rewrite dget_dset. destruct (decide (key x = k)) as [<-|Hne].
  - rewrite bool_decide_true by done. by rewrite fold_group_snoc, IH.
  - rewrite bool_decide_false by done. by rewrite app_nil_r.
Qed.

Lemma unique_snoc (l : list K) x : unique (l ++ [x]) = if decide (x ∈ l) then unique l else unique l ++ [x].
Proof.
  induction l as [|y l IH]; [by destruct (decide (x ∈ [])) as [H%elem_of_nil|]|]. cbn. rewrite IH.
  destruct (decide (x ∈ l)) as [H1|H1], (decide (x ∈ y :: l)) as [H2|H2]; try done.
  - exfalso. apply H2. by right.
  - apply elem_of_cons in H2 as [->|]; [|done]. rewrite bfilter_app. cbn. rewrite bool_decide_true by done. cbn. by rewrite app_nil_r.
  - rewrite bfilter_app. cbn. rewrite bool_decide_false; [done|]. intros ->. apply H2. by left.
Qed.

Lemma dkeys_group_by l : dkeys (group_by l) = unique (map key l).
Proof.
  induction l as [|x l IH] using rev_ind; [done|]. unfold group_by in *. rewrite foldl_app, map_app. cbn [foldl map]. unfold group_add at 1.
  rewrite dset_keys, IH, unique_snoc.
  destruct (decide (key x ∈ unique (map key l))) as [H|H], (decide (key x ∈ map key l)) as [H'|H']; rewrite elem_of_unique in H; done.
Qed.

Lemma group_by_NoDup l : NoDup (dkeys (group_by l)).
Proof. rewrite dkeys_group_by. apply NoDup_unique. Qed.

(** A group and its key. *)
Lemma elem_of_group_by l k g : (k, g) ∈ group_by l <-> group_of (members k l) = Some g.
Proof. rewrite <- dget_group_by. split; [intros H; apply dget_in; [apply group_by_NoDup|done]|apply dget_Some_in]. Qed.

(** The elements of all groups are the elements. *)
Lemma members_perm l ks : NoDup ks -> (forall x, x ∈ l -> key x ∈ ks) -> mjoin (map (fun k => members k l) ks) ≡ₚ l.
Proof.
  revert ks. induction l as [|x l IH]; intros ks Hnd Hks.
  - clear. induction ks as [|k ks IH]; [done|]. exact IH.
  - assert (Hx : key x ∈ ks) by (apply Hks; by left). apply list_elem_of_split in Hx as (k1 & k2 & ->).
    assert (Hother : forall ks', key x ∉ ks' -> map (fun k => members k (x :: l)) ks' = map (fun k => members k l) ks').
    { intros ks' H. apply map_ext_in. intros k Hk%list_elem_of_In. unfold members. cbn. rewrite bool_decide_false; [done|]. intros <-. done. }
    apply NoDup_app in Hnd as Hnd'. destruct Hnd' as (_ & Hd & [Hn2 _]%NoDup_cons).
    assert (key x ∉ k1) by (intros H; apply (Hd _ H); by left).
    rewrite map_app. cbn [map]. rewrite !Hother by done. unfold members at 2. cbn [List.filter]. rewrite bool_decide_true by done. fold (members (key x) l).
    rewrite join_app. cbn [mjoin list_join app]. rewrite <- Permutation_middle. constructor.
    specialize (IH (k1 ++ key x :: k2) Hnd). rewrite map_app, join_app in IH. apply IH. intros y Hy. apply Hks. by right.
Qed.
End grouping.
