(* ===== verification/TokenStats.v ===== *)
(** Token statistics of the settings ([settings/tokenStatsView.ts]) and the page that shows
    them ([mergeTokenProviders] and [refreshTokenStats] of [app/WorkspaceApp.tsx]).

    A scan asks every hub at once; each request races a timer.  Answers and timers are
    events, and so are several refreshes of the page that run at the same time.  A field
    that is absent is empty: the code only asks whether it is truthy.  Numbers of tokens
    are doubles; [toLocaleString] depends on the reader's locale and is an argument. *)

From S2P Require Import Prelude RegExp AppMessages Collation Double ChatComposerStatus Grouping.
Open Scope Z_scope.

Record RegistryTokenProviderAccount := {
  ta_id : string; ta_alias : string; ta_displayName : string; ta_status : string; ta_message : string; ta_email : string;
  ta_fiveHourLimit : string; ta_weeklyLimit : string; ta_premiumRequestsUsed : option Q; ta_premiumRequestsRemaining : option Q;
  ta_balance : list (string * string); ta_usage : list Q; ta_rest : list (string * value)
}.
Record RegistryTokenScanProvider := { tp_id : string; tp_name : string; tp_accounts : list RegistryTokenProviderAccount }.
Record RegistryTokenScanResult := { ts_ok : bool; ts_updatedAt : string; ts_providers : list RegistryTokenScanProvider }.

Record TokenStatsHubScanEntry := { se_hubId : string; se_result : RegistryTokenScanResult }.
Record TokenStatsHubScanFailure := { sf_hubId : string; sf_message : string }.

Section with_collation.
Context `{C : Collation} (toLocaleString : Q -> string).

(** * The views *)

Definition tokenStatsFailureSummary (failures : list TokenStatsHubScanFailure) : string :=
  match failures with
  | [] => ""
  | _ => "Some hubs failed: " +:+
      join "; " (map (fun f => sf_hubId f +:+ ": " +:+ sf_message f) (js_sort (fun a b => localeCompare (sf_hubId a) (sf_hubId b)) failures))
  end.

Record TokenProviderAccountView := {
  av_account : RegistryTokenProviderAccount; av_hubId : string; av_projectId : string; av_providerId : string; av_providerName : string
}.
Record TokenProviderSectionView := { ps_id : string; ps_name : string; ps_accounts : list TokenProviderAccountView }.
Record TokenStatCardView := {
  card_id : string; card_accountName : string; card_agentTag : string; card_hubTags : list string; card_message : string;
  card_secondaryLine : string; card_tertiaryLine : string
}.

Definition normalizeTokenTagLabel (value fallback : string) : string := str_or (trim value) fallback.

Definition current_re : regex := seq_of [Bol false; text_i "current"; opt (Cat (many1 space) (text_i "account")); Eol false].
Definition normalizeAccountIdentity (value : string) : string :=
  let normalized := trim value in
  if negb (nonempty normalized) || regex_test current_re normalized then "" else toLowerCase normalized.

Definition resolveAccountName (account : TokenProviderAccountView) : string :=
  let a := av_account account in
  let accountNameCandidates := bfilter nonempty [trim (ta_email a); trim (ta_displayName a); trim (ta_alias a)] in
  str_or (default ""%string (find (fun name => negb (regex_test current_re name)) accountNameCandidates))
    (str_or (default ""%string (head accountNameCandidates)) "(unnamed)").

Definition resolveAccountGroupKey (provider : TokenProviderSectionView) (account : TokenProviderAccountView) (accountName : string) : string :=
  let a := av_account account in
  let identity := str_or (normalizeAccountIdentity (ta_email a)) (str_or (normalizeAccountIdentity (ta_id a))
    (str_or (normalizeAccountIdentity (ta_alias a)) (str_or (normalizeAccountIdentity (ta_displayName a)) (toLowerCase accountName)))) in
  ps_id provider +:+ ":" +:+ identity.

Definition formatCodexUsageLine (label value : string) : string := label +:+ ": " +:+ str_or (trim value) "-".

(** [x.toFixed(1)]: the sign in front of what the magnitude shows. *)
Definition signed_toFixed1 (q : Q) : string := if negb (Qle_bool 0 q) then "-" +:+ toFixed1 (- q) else toFixed1 q.
Definition middle_dot : string := String (Ascii.ascii_of_nat 183) "".
Definition formatCopilotRequestLine (account : TokenProviderAccountView) : string :=
  let a := av_account account in
  match ta_premiumRequestsUsed a, ta_premiumRequestsRemaining a with
  | Some used, Some remaining =>
    let total := double (used + remaining) in
    let percent := if negb (Qle_bool total 0) then signed_toFixed1 (double (double (used / total) * 100)) +:+ "%" else "0.0%" in
    "Request Used: " +:+ toLocaleString used +:+ " / " +:+ toLocaleString total +:+ " " +:+ middle_dot +:+ " " +:+ percent
  | used, _ =>
    "Request Used: " +:+ match used with Some u => toLocaleString u | None => "-" end +:+ " / - " +:+ middle_dot +:+ " -"
  end.

Definition resolveUsageLines (provider : TokenProviderSectionView) (account : TokenProviderAccountView) : string * string :=
  let a := av_account account in
  let usageTotal := foldl (fun sum totalTokens => double (sum + totalTokens)) 0%Q (ta_usage a) in
  if decide (ps_id provider = "codex"%string) then (formatCodexUsageLine "5h Usage" (ta_fiveHourLimit a), formatCodexUsageLine "Week Usage" (ta_weeklyLimit a))
  else if decide (ps_id provider = "copilot"%string) then (formatCopilotRequestLine account, ""%string)
  else if decide (ps_id provider = "deepseek"%string) then
    ("Balance: " +:+ str_or (join " | " (map (fun item => item.1 +:+ ":" +:+ item.2) (ta_balance a))) "-", "Tokens: " +:+ toLocaleString usageTotal)
  else ("-"%string, ""%string).

(** * The cards *)

Notation owned := (TokenProviderSectionView * TokenProviderAccountView)%type.
Definition agentTagOf (provider : TokenProviderSectionView) : string :=
  normalizeTokenTagLabel (str_or (ps_name provider) (ps_id provider)) (toUpperCase (str_or (ps_id provider) "unknown")).
Definition groupKeyOf (e : owned) : string := resolveAccountGroupKey e.1 e.2 (resolveAccountName e.2).
Definition hubTagOf (e : owned) : string := normalizeTokenTagLabel (av_hubId e.2) "local".
Definition fresh_card (e : owned) : TokenStatCardView :=
  let lines := resolveUsageLines e.1 e.2 in
  {| card_id := groupKeyOf e; card_accountName := resolveAccountName e.2; card_agentTag := agentTagOf e.1; card_hubTags := [hubTagOf e];
     card_message := ta_message (av_account e.2); card_secondaryLine := lines.1; card_tertiaryLine := lines.2 |}.
Definition add_to_card (card : TokenStatCardView) (e : owned) : TokenStatCardView :=
  let lines := resolveUsageLines e.1 e.2 in
  {| card_id := card_id card; card_accountName := card_accountName card; card_agentTag := card_agentTag card;
     card_hubTags := if bool_decide (hubTagOf e ∈ card_hubTags card) then card_hubTags card else card_hubTags card ++ [hubTagOf e];
     card_message := if negb (nonempty (card_message card)) && nonempty (ta_message (av_account e.2)) then ta_message (av_account e.2) else card_message card;
     card_secondaryLine :=
       if (negb (nonempty (card_secondaryLine card)) || bool_decide (card_secondaryLine card = "-"%string)) && negb (bool_decide (lines.1 = "-"%string))
       then lines.1 else card_secondaryLine card;
     card_tertiaryLine := if negb (nonempty (card_tertiaryLine card)) && nonempty lines.2 then lines.2 else card_tertiaryLine card |}.
Definition compare_cards (left_ right_ : TokenStatCardView) : Z :=
  lex (fun a b => localeCompare (card_agentTag a) (card_agentTag b)) (fun a b => localeCompare (card_accountName a) (card_accountName b)) left_ right_.
Definition group_cards (providers : list TokenProviderSectionView) : list (string * TokenStatCardView) :=
  foldl (fun groupedCards provider =>
    foldl (fun groupedCards account => group_add groupKeyOf fresh_card add_to_card groupedCards (provider, account)) groupedCards (ps_accounts provider)) [] providers.
Definition buildTokenStatCards (providers : list TokenProviderSectionView) : list TokenStatCardView :=
  js_sort compare_cards (map snd (group_cards providers)).

(** * The page's providers *)

Definition with_id (id : string) (a : RegistryTokenProviderAccount) : RegistryTokenProviderAccount :=
  {| ta_id := id; ta_alias := ta_alias a; ta_displayName := ta_displayName a; ta_status := ta_status a; ta_message := ta_message a;
     ta_email := ta_email a; ta_fiveHourLimit := ta_fiveHourLimit a; ta_weeklyLimit := ta_weeklyLimit a;
     ta_premiumRequestsUsed := ta_premiumRequestsUsed a; ta_premiumRequestsRemaining := ta_premiumRequestsRemaining a;
     ta_balance := ta_balance a; ta_usage := ta_usage a; ta_rest := ta_rest a |}.
Notation scanned := (TokenStatsHubScanEntry * RegistryTokenScanProvider)%type.
Definition providerIdOf (e : scanned) : string :=
  toLowerCase (trim (str_or (tp_id e.2) (str_or (tp_name e.2) "unknown"))).
Definition new_section (e : scanned) : TokenProviderSectionView :=
  {| ps_id := providerIdOf e; ps_name := str_or (tp_name e.2) (str_or (tp_id e.2) (providerIdOf e)); ps_accounts := [] |}.
Definition view_account (section : TokenProviderSectionView) (hubId : string) (account : RegistryTokenProviderAccount) : TokenProviderAccountView :=
  {| av_account := with_id (str_or (ta_id account) (str_or (ta_alias account) (str_or (ta_displayName account) "account"))) account;
     av_hubId := hubId; av_projectId := ""; av_providerId := ps_id section; av_providerName := ps_name section |}.
Definition add_accounts (section : TokenProviderSectionView) (e : scanned) : TokenProviderSectionView :=
  {| ps_id := ps_id section; ps_name := ps_name section;
     ps_accounts := ps_accounts section ++ map (view_account section (se_hubId e.1)) (tp_accounts e.2) |}.
Definition compare_accounts (left_ right_ : TokenProviderAccountView) : Z :=
  let shown a := str_or (ta_alias (av_account a)) (ta_displayName (av_account a)) in
  lex (fun a b => localeCompare (av_hubId a) (av_hubId b)) (fun a b => localeCompare (shown a) (shown b)) left_ right_.
Definition group_sections (entries : list TokenStatsHubScanEntry) : list (string * TokenProviderSectionView) :=
  foldl (fun sections entry =>
    foldl (fun sections provider =>
      if nonempty (providerIdOf (entry, provider)) then
        group_add providerIdOf (fun e => add_accounts (new_section e) e) add_accounts sections (entry, provider)
      else sections) sections (ts_providers (se_result entry))) [] entries.
Definition mergeTokenProviders (entries : list TokenStatsHubScanEntry) : list TokenProviderSectionView :=
  js_sort (fun a b => localeCompare (ps_name a) (ps_name b))
    (map (fun e => {| ps_id := ps_id e.2; ps_name := ps_name e.2; ps_accounts := js_sort compare_accounts (ps_accounts e.2) |}) (group_sections entries)).
End with_collation.

(** * The scan *)

Definition TOKEN_STATS_SCAN_TIMEOUT_MS : Q := 65000.

(** A request for one hub: whether it has been answered, whether its race is decided, and
    whether its timer runs. *)
Record hub_race := { hr_hubId : string; hr_answered : bool; hr_settled : bool; hr_timer : bool }.
Record scan := { sc_races : list hub_race; sc_responses : list TokenStatsHubScanEntry; sc_failures : list TokenStatsHubScanFailure }.

(** [withTokenStatsTimeout] of every request: a timer, unless the timeout is not a positive
    finite number. *)
Definition withTokenStatsTimeout (timeoutMs : num) (hubId : string) : hub_race :=
  {| hr_hubId := hubId; hr_answered := false; hr_settled := false;
     hr_timer := match timeoutMs with Fin q => negb (Qle_bool q 0) | _ => false end |}.
Definition scanTokenStatsAcrossHubs (hubIds : list string) (timeoutMs : option num) : scan :=
  {| sc_races := map (withTokenStatsTimeout (default (Fin TOKEN_STATS_SCAN_TIMEOUT_MS) timeoutMs)) hubIds; sc_responses := []; sc_failures := [] |}.

Inductive scan_event := HubAnswered (i : nat) (answer : RegistryTokenScanResult + string) | HubTimedOut (i : nat).
Definition event_hub (e : scan_event) : nat := match e with HubAnswered i _ => i | HubTimedOut i => i end.

Definition settle_race (st : scan) (i : nat) (race : hub_race) (answered : bool) (outcome : RegistryTokenScanResult + string) : scan :=
  {| sc_races := <[i := {| hr_hubId := hr_hubId race; hr_answered := answered; hr_settled := true; hr_timer := false |}]> (sc_races st);
     sc_responses := sc_responses st ++ match outcome with inl result => [{| se_hubId := hr_hubId race; se_result := result |}] | inr _ => [] end;
     sc_failures := sc_failures st ++ match outcome with inl _ => [] | inr message => [{| sf_hubId := hr_hubId race; sf_message := message |}] end |}.
Definition timed_out_message (hubId : string) : string := hubId +:+ " token stats scan timed out".
(** An answer that comes after the timer only clears a timer that has run. *)
Definition scan_step (e : scan_event) (st : scan) : option scan :=
  race ← sc_races st !! event_hub e;
  match e with
  | HubAnswered i answer =>
    if hr_answered race then None
    else if hr_settled race then
      Some {| sc_races := <[i := {| hr_hubId := hr_hubId race; hr_answered := true; hr_settled := true; hr_timer := false |}]> (sc_races st);
              sc_responses := sc_responses st; sc_failures := sc_failures st |}
    else Some (settle_race st i race true answer)
  | HubTimedOut i =>
    if hr_timer race then Some (settle_race st i race false (inr (timed_out_message (hr_hubId race)))) else None
  end.
Fixpoint scan_run (es : list scan_event) (st : scan) : option scan :=
  match es with [] => Some st | e :: es => st ← scan_step e st; scan_run es st end.
(** [await Promise.all(...)] is done. *)
Definition scan_over (st : scan) : bool := every hr_settled (sc_races st).

(** * The page *)

Record token_page := { pg_loading : bool; pg_error : string; pg_providers : list TokenProviderSectionView; pg_updatedAt : string }.
(** A call of [refreshTokenStats]: waiting for the hubs, scanning, or returned. *)
Inductive refresh := Listing | Scanning (sc : scan) | Returned.
(** The projects and hubs a refresh also sets belong to other pages. *)
Record token_state := { tk_page : token_page; tk_refreshes : list refresh }.

Section page.
Context `{C : Collation}.

Definition latest_updatedAt (responses : list TokenStatsHubScanEntry) : string :=
  default ""%string (head (js_sort (fun left_ right_ => localeCompare right_ left_) (map (fun item => ts_updatedAt (se_result item)) responses))).
Definition applyTokenStatsResponses (responses : list TokenStatsHubScanEntry) (p : token_page) : token_page :=
  {| pg_loading := pg_loading p; pg_error := pg_error p; pg_providers := mergeTokenProviders responses; pg_updatedAt := latest_updatedAt responses |}.
Definition setTokenStatsError (message : string) (p : token_page) : token_page :=
  {| pg_loading := pg_loading p; pg_error := message; pg_providers := pg_providers p; pg_updatedAt := pg_updatedAt p |}.
Definition setTokenStatsLoading (loading : bool) (p : token_page) : token_page :=
  {| pg_loading := loading; pg_error := pg_error p; pg_providers := pg_providers p; pg_updatedAt := pg_updatedAt p |}.
Definition clear_statistics (p : token_page) : token_page :=
  {| pg_loading := pg_loading p; pg_error := pg_error p; pg_providers := []; pg_updatedAt := "" |}.

Definition deriveRegistryHubIds (hubs : list string) : list string :=
  js_sort (fun a b => compare_codes (codes a) (codes b)) (unique (bfilter nonempty (map trim hubs))).

Inductive token_event :=
  | RefreshTokenStats
  | HubsListed (k : nat) (answer : list string + string)
  | Scanned (k : nat) (e : scan_event).

Definition set_refresh (k : nat) (r : refresh) (p : token_page) (s : token_state) : token_state :=
  {| tk_page := p; tk_refreshes := <[k := r]> (tk_refreshes s) |}.
(** What a scan that has just moved shows: its callbacks, and what follows its end. *)
Definition show_scan (before after : scan) (p : token_page) : token_page :=
  let p := if bool_decide (length (sc_responses before) = length (sc_responses after)) then p else applyTokenStatsResponses (sc_responses after) p in
  let p := if bool_decide (length (sc_failures before) = length (sc_failures after)) then p else setTokenStatsError (tokenStatsFailureSummary (sc_failures after)) p in
  if scan_over after && negb (scan_over before)
  then setTokenStatsLoading false (setTokenStatsError (tokenStatsFailureSummary (sc_failures after)) (applyTokenStatsResponses (sc_responses after) p))
  else p.
Definition refreshTokenStats (s : token_state) : token_state :=
  {| tk_page := setTokenStatsError "" (setTokenStatsLoading true (tk_page s)); tk_refreshes := tk_refreshes s ++ [Listing] |}.
Definition hubs_listed (answer : list string + string) (p : token_page) : token_page * refresh :=
  match answer with
  | inr message => (setTokenStatsLoading false (setTokenStatsError message p), Returned)
  | inl hubs =>
    match deriveRegistryHubIds hubs with
    | [] => (setTokenStatsLoading false (setTokenStatsError "No hubs available." (clear_statistics p)), Returned)
    | hubIds => (p, Scanning (scanTokenStatsAcrossHubs hubIds None))
    end
  end.
Definition token_step (e : token_event) (s : token_state) : option token_state :=
  match e with
  | RefreshTokenStats => Some (refreshTokenStats s)
  | HubsListed k answer =>
    r ← tk_refreshes s !! k;
    match r with
    | Listing => let '(p, r) := hubs_listed answer (tk_page s) in Some (set_refresh k r p s)
    | _ => None
    end
  | Scanned k e =>
    r ← tk_refreshes s !! k;
    match r with
    | Scanning sc => after ← scan_step e sc; Some (set_refresh k (Scanning after) (show_scan sc after (tk_page s)) s)
    | _ => None
    end
  end.
Fixpoint token_run (es : list token_event) (s : token_state) : option token_state :=
  match es with [] => Some s | e :: es => s ← token_step e s; token_run es s end.
End page.

(** * What a scan accounts for *)

(** The hubs with an answer, those with a failure and those still asked are the hubs. *)
Record scan_ok (hubIds : list string) (st : scan) : Prop := {
  so_hubs : map hr_hubId (sc_races st) = hubIds;
  so_partition : map se_hubId (sc_responses st) ++ map sf_hubId (sc_failures st) ++
    map hr_hubId (bfilter (fun r => negb (hr_settled r)) (sc_races st)) ≡ₚ hubIds;
  so_races : Forall (fun r => hr_timer r = negb (hr_settled r) /\ (hr_answered r = true -> hr_settled r = true)) (sc_races st)
}.

Lemma list_insert_split {A} (l : list A) i x : l !! i = Some x -> exists l1 l2, l = l1 ++ x :: l2 /\ forall y, <[i := y]> l = l1 ++ y :: l2.
Proof.
  intros H. exists (take i l), (drop (S i) l). split; [symmetry; by apply take_drop_middle|].
  intros y. rewrite insert_take_drop by (by eapply lookup_lt_Some). done.
Qed.

Lemma race_settle_ok hubIds st i race answered outcome : scan_ok hubIds st -> sc_races st !! i = Some race -> hr_settled race = false ->
  scan_ok hubIds (settle_race st i race answered outcome).
Proof.
  intros [H1 H2 H3] Hi Hs. destruct (list_insert_split _ _ _ Hi) as (l1 & l2 & E & Hins). split; cbn [settle_race sc_races sc_responses sc_failures].
  - rewrite Hins, <- H1, E, !map_app. done.
  - rewrite <- H2, Hins, E, !bfilter_app. cbn. rewrite Hs. cbn. rewrite !map_app. cbn.
    destruct outcome as [result|message]; cbn; rewrite ?app_nil_r; solve_Permutation.
  - rewrite Hins. rewrite E in H3. apply Forall_app in H3 as [Ha Hb]. apply Forall_cons in Hb as [_ Hb]. by repeat constructor || apply Forall_app_2.
Qed.

Lemma scan_step_ok hubIds e st st' : scan_ok hubIds st -> scan_step e st = Some st' -> scan_ok hubIds st'.
Proof.
  intros Hok. unfold scan_step. destruct (sc_races st !! event_hub e) as [race|] eqn:Hi; [|done]. cbn.
  pose proof (so_races _ _ Hok) as Hr. pose proof (proj1 (Forall_lookup _ _) Hr _ _ Hi) as [Ht Ha].
  destruct e as [i answer|i]; cbn in Hi.
  - destruct (hr_answered race); [done|]. destruct (hr_settled race) eqn:Hs; intros [= <-]; [|by apply race_settle_ok].
    destruct Hok as [H1 H2 H3], (list_insert_split _ _ _ Hi) as (l1 & l2 & E & Hins). split; cbn.
    + by rewrite Hins, <- H1, E, !map_app.
    + rewrite Hins. rewrite <- H2, E, !bfilter_app. cbn. by rewrite Hs.
    + rewrite Hins. rewrite E in H3. apply Forall_app in H3 as [Hb Hc]. apply Forall_cons in Hc as [_ Hc]. by repeat constructor || apply Forall_app_2.
  - destruct (hr_timer race) eqn:Et; [|done]. intros [= <-]. apply race_settle_ok; [done|done|]. by destruct (hr_settled race).
Qed.

Lemma scan_start_ok hubIds q : (0 < q)%Q -> scan_ok hubIds (scanTokenStatsAcrossHubs hubIds (Some (Fin q))).
Proof.
  intros Hq. assert (E : Qle_bool q 0 = false). { apply not_true_is_false. rewrite Qle_bool_iff. by apply Qlt_not_le. }
  split; cbn.
  - rewrite map_map. apply map_id.
  - induction hubIds as [|h l IH]; cbn; [done|]. by constructor.
  - apply Forall_forall. intros r (h & -> & _)%elem_of_map. cbn. by rewrite E.
Qed.

(** A timer that fires for every hub, or its answer, ends the scan. *)
Definition decided (i : nat) (st : scan) : Prop := exists r, sc_races st !! i = Some r /\ hr_settled r = true.
Lemma scan_step_decides e st st' : scan_step e st = Some st' -> decided (event_hub e) st' /\ (forall i, decided i st -> decided i st') /\
  length (sc_races st') = length (sc_races st).
Proof.
  unfold scan_step. destruct (sc_races st !! event_hub e) as [race|] eqn:Hi; [|done]. cbn. intros H.
  assert (Hset : exists r, sc_races st' = <[event_hub e := r]> (sc_races st) /\ hr_settled r = true).
  { destruct e as [i answer|i]; cbn in *.
    - destruct (hr_answered race); [done|]. destruct (hr_settled race); injection H as <-; eexists; by split.
    - destruct (hr_timer race); [|done]. injection H as <-. eexists; by split. }
  destruct Hset as (r & E & Hr). unfold decided. rewrite E. split; [|split; [|by rewrite length_insert]].
  - exists r. split; [|done]. apply list_lookup_insert_eq. by eapply lookup_lt_Some.
  - intros i (r' & Hl & Hs). destruct (decide (i = event_hub e)) as [->|Hne].
    + exists r. split; [|done]. apply list_lookup_insert_eq. by eapply lookup_lt_Some.
    + exists r'. by rewrite list_lookup_insert_ne.
Qed.

Lemma scan_run_decides es st st' : scan_run es st = Some st' -> (forall i, decided i st -> decided i st') /\
  Forall (fun e => decided (event_hub e) st') es /\ length (sc_races st') = length (sc_races st).
Proof.
  revert st. induction es as [|e es IH]; intros st; cbn; [by intros [= <-]|]. destruct (scan_step e st) as [st1|] eqn:E; [|done]. cbn. intros H.
  destruct (scan_step_decides _ _ _ E) as (D1 & D2 & D3), (IH _ H) as (I1 & I2 & I3). split; [eauto|]. split; [by constructor; [apply I1|]|congruence].
Qed.

Lemma scan_run_ok hubIds es st st' : scan_ok hubIds st -> scan_run es st = Some st' -> scan_ok hubIds st'.
Proof.
  revert st. induction es as [|e es IH]; intros st Hok; cbn; [by intros [= <-]|]. destruct (scan_step e st) as [st1|] eqn:E; [|done]. cbn.
  apply IH. by eapply scan_step_ok.
Qed.

Lemma scan_over_decided st : scan_over st = true <-> forall i, (i < length (sc_races st))%nat -> decided i st.
Proof.
  unfold scan_over, decided. rewrite forallb_forall. setoid_rewrite <- list_elem_of_In. split.
  - intros H i Hi. destruct (lookup_lt_is_Some_2 _ _ Hi) as [r Hr]. exists r. split; [done|]. apply H. by eapply list_elem_of_lookup_2.
  - intros H r [i Hi]%list_elem_of_lookup_1. destruct (H i) as (r' & Hr' & ?); [by eapply lookup_lt_Some|]. by simplify_eq.
Qed.

(** What has been answered in time. *)
Lemma scan_step_responses e st st' en : scan_step e st = Some st' -> en ∈ sc_responses st' ->
  en ∈ sc_responses st \/ exists i r, e = HubAnswered i (inl (se_result en)) /\ sc_races st !! i = Some r /\ hr_hubId r = se_hubId en /\ hr_settled r = false.
Proof.
  unfold scan_step. destruct (sc_races st !! event_hub e) as [race|] eqn:Hi; [|done]. cbn. destruct e as [i answer|i]; cbn in *.
  - destruct (hr_answered race); [done|]. destruct (hr_settled race) eqn:Hs; intros [= <-]; cbn; [by left|].
    intros [H|H]%elem_of_app; [by left|]. right. destruct answer; [|by apply elem_of_nil in H]. apply list_elem_of_singleton in H as ->. by exists i, race.
  - destruct (hr_timer race); [|done]. intros [= <-]. cbn. rewrite app_nil_r. by left.
Qed.

(** ** The page *)

Section page_theorems.
Context `{C : Collation}.

Definition pending (r : refresh) : bool := match r with Listing => true | Scanning sc => negb (scan_over sc) | Returned => false end.
Record token_ok (s : token_state) : Prop := {
  to_scans : Forall (fun r => match r with Scanning sc => exists hubIds, NoDup hubIds /\ scan_ok hubIds sc | _ => True end) (tk_refreshes s);
  to_loading : pg_loading (tk_page s) = true -> exists k r, tk_refreshes s !! k = Some r /\ pending r = true
}.

Lemma derive_NoDup hubs : NoDup (deriveRegistryHubIds hubs).
Proof. unfold deriveRegistryHubIds. rewrite js_sort_perm. apply NoDup_unique. Qed.

(** A refresh that moves keeps the page's promise when it is still pending, clears it, or was
    not what the page waits for. *)
Lemma loading_kept (l : list refresh) k r0 r (before after : bool) : l !! k = Some r0 -> (after = true -> before = true) ->
  (after = true -> pending r0 = true -> pending r = true) ->
  (before = true -> exists k r, l !! k = Some r /\ pending r = true) -> after = true -> exists k' r', <[k := r]> l !! k' = Some r' /\ pending r' = true.
Proof.
  intros Hk Hb Hp Hex Ha. destruct (Hex (Hb Ha)) as (k' & r' & Hk' & Hr'). destruct (decide (k = k')) as [<-|Hne].
  - assert (r' = r0) as -> by congruence. exists k, r. split; [|by apply Hp]. apply list_lookup_insert_eq. by eapply lookup_lt_Some.
  - exists k', r'. by rewrite list_lookup_insert_ne.
Qed.

Lemma show_scan_loading before after p : pg_loading (show_scan before after p) = if scan_over after && negb (scan_over before) then false else pg_loading p.
Proof. unfold show_scan. repeat case_bool_decide; by destruct (_ && _). Qed.

Lemma token_step_ok e s s' : token_ok s -> token_step e s = Some s' -> token_ok s'.
Proof.
  intros [H1 H2]. destruct e as [|k answer|k e]; cbn.
  - intros [= <-]. split; cbn; [apply Forall_app; by split; [|constructor]|]. intros _. exists (length (tk_refreshes s)), Listing. split; [|done].
    by rewrite lookup_app_r, Nat.sub_diag by lia.
  - destruct (tk_refreshes s !! k) as [r|] eqn:Ek; [|done]. destruct r; cbn; try done.
    destruct (hubs_listed answer (tk_page s)) as [p r] eqn:Eh. intros [= <-]. split; cbn.
    + apply Forall_insert; [done|]. unfold hubs_listed in Eh. destruct answer as [hubs|message]; [|by injection Eh as <- <-].
      pose proof (derive_NoDup hubs) as Hnd. destruct (deriveRegistryHubIds hubs) as [|h hubIds]; injection Eh as <- <-; [done|].
      eexists. split; [exact Hnd|]. by apply scan_start_ok.
    + eapply (loading_kept _ _ _ _ (pg_loading (tk_page s))); [exact Ek| | |exact H2]; unfold hubs_listed in Eh;
        (destruct answer as [hubs|message]; [|by injection Eh as <- <-]); destruct (deriveRegistryHubIds hubs) as [|h hubIds]; by injection Eh as <- <-.
  - destruct (tk_refreshes s !! k) as [r|] eqn:Ek; [|done]. destruct r as [|sc|]; cbn; try done.
    destruct (scan_step e sc) as [after|] eqn:Es; [|done]. cbn. intros [= <-]. split; cbn.
    + pose proof (proj1 (Forall_lookup _ _) H1 _ _ Ek) as (hubIds & Hnd & Hok). apply Forall_insert; [done|]. exists hubIds. split; [done|]. by eapply scan_step_ok.
    + rewrite show_scan_loading. eapply (loading_kept _ _ _ _ (pg_loading (tk_page s))); [exact Ek| | |exact H2]; cbn.
      * by destruct (_ && _).
      * intros Hl Hp. destruct (scan_over after); [|done]. by destruct (scan_over sc).
Qed.

Definition closed_page : token_state :=
  {| tk_page := {| pg_loading := false; pg_error := ""; pg_providers := []; pg_updatedAt := "" |}; tk_refreshes := [] |}.
Lemma token_run_ok es s s' : token_ok s -> token_run es s = Some s' -> token_ok s'.
Proof.
  revert s. induction es as [|e es IH]; intros s Hok; cbn; [by intros [= <-]|]. destruct (token_step e s) as [s1|] eqn:E; [|done]. cbn.
  apply IH. by eapply token_step_ok.
Qed.

(** C40. Whatever refreshes of the statistics run at the same time, and in whatever order hubs
    answer and timers fire: of every scan, each hub is in exactly one of the answers, the
    failures and those still waited for, and who is waited for has its timer running; a page
    that says it is loading has a refresh that is not over; and a scan is over as soon as
    each of its hubs has answered or timed out. *)
Theorem token_scans_settle es s : token_run es closed_page = Some s ->
  (forall k sc, tk_refreshes s !! k = Some (Scanning sc) ->
     let waiting := bfilter (fun r => negb (hr_settled r)) (sc_races sc) in
     NoDup (map se_hubId (sc_responses sc) ++ map sf_hubId (sc_failures sc) ++ map hr_hubId waiting) /\
     map se_hubId (sc_responses sc) ++ map sf_hubId (sc_failures sc) ++ map hr_hubId waiting ≡ₚ map hr_hubId (sc_races sc) /\
     Forall (fun r => hr_timer r = true) waiting /\
     (forall more sc', scan_run more sc = Some sc' -> (forall i, (i < length (sc_races sc))%nat -> i ∈ map event_hub more) -> scan_over sc' = true)) /\
  (pg_loading (tk_page s) = true -> exists k r, tk_refreshes s !! k = Some r /\ pending r = true).
Proof.
  intros H. assert (Hok : token_ok s) by (eapply token_run_ok; [|exact H]; split; [constructor|done]). destruct Hok as [H1 H2]. split; [|done].
  intros k sc Hk. destruct (proj1 (Forall_lookup _ _) H1 _ _ Hk) as (hubIds & Hnd & Hsc). pose proof Hsc as [S1 S2 S3]. split_and!.
  - by rewrite S2.
  - by rewrite S1.
  - apply Forall_forall. intros r [Hr Hs]%elem_of_bfilter. destruct (proj1 (Forall_forall _ _) S3 _ Hr) as [-> _]. done.
  - intros more sc' Hrun Hall. apply scan_over_decided. destruct (scan_run_decides _ _ _ Hrun) as (_ & D & E). rewrite E. intros i Hi.
    apply Hall, elem_of_map in Hi as (e & -> & He). by apply (proj1 (Forall_forall _ _) D).
Qed.
End page_theorems.

(** ** The cards *)

Section card_theorems.
Context `{C : Collation} (toLocaleString : Q -> string).

Definition owned_of (providers : list TokenProviderSectionView) : list (TokenProviderSectionView * TokenProviderAccountView) :=
  mjoin (map (fun p => map (pair p) (ps_accounts p)) providers).

Lemma foldl_mjoin {A B} (f : A -> B -> A) ls a : foldl (foldl f) a ls = foldl f a (mjoin ls).
Proof. revert a. induction ls as [|l ls IH]; intros a; cbn; [done|]. by rewrite foldl_app, IH. Qed.
Lemma foldl_map {A B D} (f : A -> B -> A) (g : D -> B) l a : foldl f a (map g l) = foldl (fun a x => f a (g x)) a l.
Proof. revert a. induction l as [|x l IH]; intros a; cbn; [done|]. apply IH. Qed.

Lemma foldl_ext_all {A B} (f g : A -> B -> A) l a : (forall a x, f a x = g a x) -> foldl f a l = foldl g a l.
Proof. intros H. revert a. induction l as [|x l IH]; intros a; cbn; [done|]. by rewrite H. Qed.

Lemma group_cards_flat providers :
  group_cards toLocaleString providers = group_by groupKeyOf (fresh_card toLocaleString) (add_to_card toLocaleString) (owned_of providers).
Proof.
  unfold group_cards, group_by, owned_of. rewrite <- foldl_mjoin, foldl_map. apply foldl_ext_all. intros groups provider. by rewrite foldl_map.
Qed.

(** The first of [l] that says something, or [d]. *)
Definition first_said (silent : string -> bool) (d : string) (l : list string) : string := default d (find (fun s => negb (silent s)) l).
Definition is_dash (s : string) : bool := negb (nonempty s) || bool_decide (s = "-"%string).
Definition is_blank (s : string) : bool := negb (nonempty s).

(** A card made of its accounts. *)
Definition card_of (key : string) (members : list (TokenProviderSectionView * TokenProviderAccountView)) : TokenStatCardView :=
  let lines := map (fun e => resolveUsageLines toLocaleString e.1 e.2) members in
  {| card_id := key;
     card_accountName := default ""%string (head (map (fun e => resolveAccountName e.2) members));
     card_agentTag := default ""%string (head (map (fun e => agentTagOf e.1) members));
     card_hubTags := unique (map hubTagOf members);
     card_message := first_said is_blank "" (map (fun e => ta_message (av_account e.2)) members);
     card_secondaryLine := first_said is_dash "-" (map fst lines);
     card_tertiaryLine := first_said is_blank "" (map snd lines) |}.

Lemma first_said_snoc silent d l s : first_said silent d (l ++ [s]) =
  match find (fun s => negb (silent s)) l with Some t => t | None => if silent s then d else s end.
Proof.
  unfold first_said. induction l as [|x l IH]; cbn; [by destruct (silent s)|]. destruct (silent x); cbn; [apply IH|done].
Qed.
Lemma find_said (silent : string -> bool) l t : find (fun s => negb (silent s)) l = Some t -> silent t = false.
Proof. intros [_ H]%find_Some. by apply negb_true_iff. Qed.
Lemma find_none_silent (silent : string -> bool) l s : find (fun s => negb (silent s)) l = None -> s ∈ l -> silent s = true.
Proof. rewrite find_None, Forall_forall. intros H Hs. by apply negb_false_iff, H. Qed.

Lemma app_nonempty_l s t : nonempty s = true -> nonempty (s +:+ t) = true.
Proof. by destruct s. Qed.
Lemma secondary_said p a : (resolveUsageLines toLocaleString p a).1 <> ""%string.
Proof.
  unfold resolveUsageLines. repeat case_decide; cbn; try done.
  unfold formatCopilotRequestLine. destruct (ta_premiumRequestsUsed (av_account a)), (ta_premiumRequestsRemaining (av_account a)); done.
Qed.

(** Adding a line to a card keeps the first that says something. *)
Lemma first_said_add (silent : string -> bool) d l s : first_said silent d (l ++ [s]) =
  if silent (first_said silent d l) && negb (silent s) then s else if silent s then first_said silent d l else
  match find (fun s => negb (silent s)) l with Some t => t | None => s end.
Proof.
  rewrite first_said_snoc. unfold first_said. destruct (find _ l) as [t|] eqn:E; cbn.
  - apply find_said in E. rewrite E. cbn. by destruct (silent s).
  - destruct (silent s), (silent d); done.
Qed.

Lemma card_of_snoc key l e : l <> [] -> add_to_card toLocaleString (card_of key l) e = card_of key (l ++ [e]).
Proof.
  intros Hl. unfold add_to_card, card_of. rewrite !map_app. cbn [map].
  assert (Hhead : forall {A} (f : _ -> A), head (map f l ++ [f e]) = head (map f l)) by (intros; by destruct l).
  f_equal; cbn [card_hubTags card_message card_secondaryLine card_tertiaryLine card_accountName card_agentTag].
  - by rewrite Hhead.
  - by rewrite Hhead.
  - rewrite unique_snoc. case_bool_decide as H; rewrite elem_of_unique in H; by destruct (decide _).
  - rewrite first_said_snoc. unfold first_said. destruct (find _ _) as [t|] eqn:E; cbn; [apply find_said in E; unfold is_blank in E; by apply negb_false_iff in E as ->|].
    unfold is_blank. destruct (nonempty (ta_message (av_account e.2))) eqn:En; cbn; [done|done].
  - pose proof (secondary_said e.1 e.2) as Hs. rewrite first_said_snoc. unfold first_said. destruct (find _ _) as [t|] eqn:E; cbn.
    + apply find_said in E. unfold is_dash in E. by rewrite E.
    + unfold is_dash. apply nonempty_true in Hs. rewrite Hs. repeat case_bool_decide; done.
  - rewrite first_said_snoc. unfold first_said. destruct (find _ _) as [t|] eqn:E; cbn; [apply find_said in E; unfold is_blank in E; by apply negb_false_iff in E as ->|].
    unfold is_blank. destruct (nonempty (resolveUsageLines toLocaleString e.1 e.2).2) eqn:En; done.
Qed.

Lemma fresh_card_of e : fresh_card toLocaleString e = card_of (groupKeyOf e) [e].
Proof.
  unfold fresh_card, card_of, first_said. cbn [map find head default]. f_equal.
  - unfold is_blank. by destruct (ta_message (av_account e.2)).
  - pose proof (secondary_said e.1 e.2) as Hs. apply nonempty_true in Hs. unfold is_dash. rewrite Hs. cbn. case_bool_decide as E; cbn; [done|done].
  - unfold is_blank. by destruct (resolveUsageLines _ _ _).2.
Qed.

Lemma group_is_card key l : l <> [] -> Forall (fun e => groupKeyOf e = key) l ->
  group_of (fresh_card toLocaleString) (add_to_card toLocaleString) l = Some (card_of key l).
Proof.
  induction l as [|e l IH] using rev_ind; [done|]. intros _ [Hl He]%Forall_app. apply Forall_cons in He as [<- _]. rewrite fold_group_snoc.
  destruct l as [|e' l]; [cbn; by rewrite fresh_card_of|]. rewrite IH by done. by rewrite card_of_snoc.
Qed.

Lemma member_keys key l : Forall (fun e => groupKeyOf e = key) (members groupKeyOf key l).
Proof. apply Forall_forall. intros e [_ H]%elem_of_bfilter. by apply bool_decide_eq_true in H. Qed.

Lemma compare_cards_ok : Comparator compare_cards.
Proof. exact (lex_comparator _ _ (by_comparator card_agentTag _ localeCompare_ok) (by_comparator card_accountName _ localeCompare_ok)). Qed.
#[local] Existing Instance compare_cards_ok.

(** The cards of the statistics: one for each account, however many hubs know it, made of
    what all of them say of it (every hub once, the first message, the first usage), ordered
    by agent and then by name. *)
Theorem token_cards_spec providers :
  let accounts := owned_of providers in
  let cards := buildTokenStatCards toLocaleString providers in
  cards ≡ₚ map (fun key => card_of key (members groupKeyOf key accounts)) (unique (map groupKeyOf accounts)) /\
  map card_id cards ≡ₚ unique (map groupKeyOf accounts) /\
  StronglySorted (fun a b => compare_cards a b <= 0) cards.
Proof.
  intros accounts cards. assert (Hcards : cards ≡ₚ map (fun key => card_of key (members groupKeyOf key accounts)) (unique (map groupKeyOf accounts))).
  { unfold cards, buildTokenStatCards. rewrite js_sort_perm, group_cards_flat. fold accounts.
    rewrite <- (dkeys_group_by groupKeyOf (fresh_card toLocaleString) (add_to_card toLocaleString)). unfold dkeys. rewrite map_map.
    apply reflexive_eq, map_ext_in. intros [k g] Hin%list_elem_of_In. cbn [fst snd]. apply elem_of_group_by in Hin.
    pose proof (member_keys k accounts) as Hk. destruct (members groupKeyOf k accounts) as [|e l]; [discriminate Hin|].
    rewrite (group_is_card k (e :: l)) in Hin by done. by apply (inj Some) in Hin as <-. }
  split; [exact Hcards|]. split; [|apply (sort_sorted compare_cards)].
  rewrite Hcards, map_map. apply reflexive_eq. etransitivity; [|apply map_id]. by apply map_ext.
Qed.
End card_theorems.

(** ** The sections *)

Section section_theorems.
Context `{C : Collation}.

Definition scanned_of (entries : list TokenStatsHubScanEntry) : list (TokenStatsHubScanEntry * RegistryTokenScanProvider) :=
  mjoin (map (fun e => map (pair e) (ts_providers (se_result e))) entries).
Definition named (e : TokenStatsHubScanEntry * RegistryTokenScanProvider) : bool := nonempty (providerIdOf e).

Lemma foldl_if {A B} (f : A -> B -> A) (p : B -> bool) l a : foldl (fun a x => if p x then f a x else a) a l = foldl f a (bfilter p l).
Proof. revert a. induction l as [|x l IH]; intros a; cbn; [done|]. destruct (p x); cbn; apply IH. Qed.
Lemma group_sections_flat entries :
  group_sections entries = group_by providerIdOf (fun e => add_accounts (new_section e) e) add_accounts (bfilter named (scanned_of entries)).
Proof.
  unfold group_sections, group_by, scanned_of. rewrite <- foldl_if, <- foldl_mjoin, foldl_map. apply foldl_ext_all. intros groups entry. by rewrite foldl_map.
Qed.

(** What a section is made of. *)
Definition section_of (id : string) (l : list (TokenStatsHubScanEntry * RegistryTokenScanProvider)) : TokenProviderSectionView :=
  let name := default ""%string (head (map (fun e => str_or (tp_name e.2) (str_or (tp_id e.2) id)) l)) in
  let section := {| ps_id := id; ps_name := name; ps_accounts := [] |} in
  {| ps_id := id; ps_name := name; ps_accounts := mjoin (map (fun e => map (view_account section (se_hubId e.1)) (tp_accounts e.2)) l) |}.

Lemma view_account_ext s s' : ps_id s = ps_id s' -> ps_name s = ps_name s' -> view_account s = view_account s'.
Proof. intros E1 E2. unfold view_account. by rewrite E1, E2. Qed.
Lemma section_of_snoc id l e : l <> [] -> add_accounts (section_of id l) e = section_of id (l ++ [e]).
Proof.
  intros Hl. destruct l as [|e0 l]; [done|]. unfold add_accounts, section_of. cbn [ps_id ps_name ps_accounts map head app default]. f_equal.
  rewrite map_app. cbn [map]. rewrite app_comm_cons, join_app. cbn [mjoin list_join]. by rewrite app_nil_r.
Qed.
Lemma group_is_section id l : l <> [] -> Forall (fun e => providerIdOf e = id) l ->
  group_of (fun e => add_accounts (new_section e) e) add_accounts l = Some (section_of id l).
Proof.
  induction l as [|e l IH] using rev_ind; [done|]. intros _ [Hl He]%Forall_app. apply Forall_cons in He as [<- _]. rewrite fold_group_snoc.
  destruct l as [|e' l]; [|rewrite IH by done; by rewrite section_of_snoc].
  cbn [group_of app]. f_equal. unfold add_accounts, section_of, new_section. cbn [ps_id ps_name ps_accounts map head app default mjoin list_join]. by rewrite app_nil_r.
Qed.

Lemma compare_accounts_ok : Comparator compare_accounts.
Proof.
  exact (lex_comparator _ _ (by_comparator av_hubId _ localeCompare_ok)
    (by_comparator (fun a => str_or (ta_alias (av_account a)) (ta_displayName (av_account a))) _ localeCompare_ok)).
Qed.
#[local] Existing Instance compare_accounts_ok.

(** One section for each provider, with every account any hub has of it; providers are
    told apart by their id in lower case. *)
Lemma sections_spec entries : let scanned := bfilter named (scanned_of entries) in
  map ps_id (mergeTokenProviders entries) ≡ₚ unique (map providerIdOf scanned) /\
  forall section, section ∈ mergeTokenProviders entries ->
    ps_accounts section ≡ₚ ps_accounts (section_of (ps_id section) (members providerIdOf (ps_id section) scanned)) /\
    StronglySorted (fun a b => compare_accounts a b <= 0) (ps_accounts section).
Proof.
  intros scanned. unfold mergeTokenProviders. rewrite group_sections_flat. fold scanned. set (groups := group_by _ _ _ scanned).
  assert (Hg : forall k g, (k, g) ∈ groups -> g = section_of k (members providerIdOf k scanned)).
  { intros k g Hin%elem_of_group_by. assert (Hk : Forall (fun e => providerIdOf e = k) (members providerIdOf k scanned))
      by (apply Forall_forall; intros e [_ H]%elem_of_bfilter; by apply bool_decide_eq_true in H).
    destruct (members providerIdOf k scanned) as [|e l]; [discriminate Hin|].
    rewrite (group_is_section k (e :: l)) in Hin by done. by apply (inj Some) in Hin as <-. }
  split.
  - rewrite js_sort_perm, map_map. cbn [ps_id]. unfold scanned. rewrite <- (dkeys_group_by providerIdOf (fun e => add_accounts (new_section e) e) add_accounts).
    unfold dkeys. apply reflexive_eq, map_ext_in. intros [k g] Hin%list_elem_of_In. cbn [fst snd]. by rewrite (Hg _ _ Hin).
  - intros section. rewrite js_sort_perm. intros ([k g] & -> & Hin)%elem_of_map. cbn [ps_id ps_accounts fst snd]. rewrite (Hg _ _ Hin).
    split; [by rewrite js_sort_perm|apply (sort_sorted compare_accounts)].
Qed.
End section_theorems.

(** ** Two refreshes at once *)

(** The page can be opened again while a refresh runs (its effect asks again, only the button
    is disabled): nothing tells the two apart, so the older one, when it ends later, puts
    its answers over the newer ones, and the end of the first takes the loading state from
    the second. *)
Definition answer_of (updatedAt : string) : RegistryTokenScanResult + string := inl {| ts_ok := true; ts_updatedAt := updatedAt; ts_providers := [] |}.
Lemma older_refresh_wins :
  let run := token_run (C := code_collation) [RefreshTokenStats; HubsListed 0 (inl ["h"%string]); RefreshTokenStats; HubsListed 1 (inl ["h"%string]);
    Scanned 1 (HubAnswered 0 (answer_of "new"))] closed_page in
  (exists s, run = Some s /\ pg_updatedAt (tk_page s) = "new"%string /\ pg_loading (tk_page s) = false /\
     exists s', token_step (C := code_collation) (Scanned 0 (HubAnswered 0 (answer_of "old"))) s = Some s' /\ pg_updatedAt (tk_page s') = "old"%string).
Proof. eexists. split; [vm_compute; reflexivity|]. split_and!; [done..|]. eexists. split; [vm_compute; reflexivity|]. done. Qed.

Lemma token_scans_settle_witness :
  let es := [RefreshTokenStats; HubsListed 0 (inl ["b"; " a "; "a"]%string); Scanned 0 (HubAnswered 1 (answer_of "t")); Scanned 0 (HubTimedOut 0); Scanned 0 (HubAnswered 0 (inr "late"))]%string in
  exists s sc, token_run (C := code_collation) es closed_page = Some s /\ tk_refreshes s !! 0%nat = Some (Scanning sc) /\
    map se_hubId (sc_responses sc) = ["b"%string] /\ map sf_hubId (sc_failures sc) = ["a"%string] /\
    map hr_hubId (sc_races sc) ≡ₚ ["b"; "a"]%string.
Proof.
  intros es. eexists. eexists. split; [vm_compute; reflexivity|]. split; [vm_compute; reflexivity|]. split; [reflexivity|]. split; [reflexivity|].
  symmetry. exact (proj1 (proj2 (proj1 (token_scans_settle (C := code_collation) es _ eq_refl) 0%nat _ eq_refl))).
Defined.
