(* ===== verification/ChatUpload.v ===== *)
(** Uploading the attachments of a prompt ([uploadChatAttachmentFile] of
    [app/WorkspaceApp.tsx], with the attachments of the composer and of its saved drafts).

    An upload is a [prog]: what it awaits (the hub, the reading of a slice, the digest) are
    calls at which the user may act, what it does at once (updates of the composer, the set
    of cancelled ids) are calls no one can come between.  It is run against a hub that puts
    the chunks together, with requests that fail before or after they are served and a user
    who removes, retries and adds attachments or resets drafts meanwhile.

    The digest (SHA-256) is an argument; sizes and offsets are integers; a block is what
    the hub answers.  Object URLs and the file input are of the page. *)

From S2P Require Import Prelude RegExp Program ChatComposer TerminalEncoding AppMessages Double.
Open Scope Z_scope.

Inductive attachment_status := Queued | Uploading | Failed | Completed.
#[export] Instance attachment_status_dec : EqDecision attachment_status.
Proof. solve_decision. Defined.

(** A file chosen by the user. *)
Record file := { fl_name : string; fl_type : string; fl_bytes : list ascii }.
Definition file_size (f : file) : Z := Z.of_nat (length (fl_bytes f)).

Notation block := (list (string * value)).
Record ChatAttachment := {
  ca_id : string; ca_name : string; ca_mimeType : string; ca_size : Z; ca_status : attachment_status; ca_progress : Z;
  ca_file : option file; ca_block : option block; ca_uploadId : string; ca_attachmentId : string; ca_error : string
}.
Definition with_upload (status : attachment_status) (progress : Z) (block : option block) (uploadId attachmentId error : string) (a : ChatAttachment) : ChatAttachment :=
  {| ca_id := ca_id a; ca_name := ca_name a; ca_mimeType := ca_mimeType a; ca_size := ca_size a; ca_status := status; ca_progress := progress;
     ca_file := ca_file a; ca_block := block; ca_uploadId := uploadId; ca_attachmentId := attachmentId; ca_error := error |}.
Definition isChatAttachmentUploadPending (a : ChatAttachment) : bool := bool_decide (ca_status a = Uploading).

(** * The composer's attachments *)

Record draft := { dr_text : string; dr_tokens : list ChatComposerToken; dr_attachments : list ChatAttachment }.
Definition EMPTY_CHAT_COMPOSER_DRAFT : draft := {| dr_text := ""; dr_tokens := []; dr_attachments := [] |}.
(** The draft that is shown, the saved ones, the generation of each, the ids of the uploads
    the user has cancelled, and the last error shown. *)
Record composer := {
  cp_draftKey : string; cp_text : string; cp_tokens : list ChatComposerToken; cp_attachments : list ChatAttachment;
  cp_drafts : gmap string draft; cp_generations : gmap string Z; cp_cancelled : list string; cp_error : string; cp_lastId : Z
}.

Definition with_attachments (attachments : list ChatAttachment) (drafts : gmap string draft) (c : composer) : composer :=
  {| cp_draftKey := cp_draftKey c; cp_text := cp_text c; cp_tokens := cp_tokens c; cp_attachments := attachments; cp_drafts := drafts;
     cp_generations := cp_generations c; cp_cancelled := cp_cancelled c; cp_error := cp_error c; cp_lastId := cp_lastId c |}.
Definition with_cancelled (cancelled : list string) (c : composer) : composer :=
  {| cp_draftKey := cp_draftKey c; cp_text := cp_text c; cp_tokens := cp_tokens c; cp_attachments := cp_attachments c; cp_drafts := cp_drafts c;
     cp_generations := cp_generations c; cp_cancelled := cancelled; cp_error := cp_error c; cp_lastId := cp_lastId c |}.
Definition setError (message : string) (c : composer) : composer :=
  {| cp_draftKey := cp_draftKey c; cp_text := cp_text c; cp_tokens := cp_tokens c; cp_attachments := cp_attachments c; cp_drafts := cp_drafts c;
     cp_generations := cp_generations c; cp_cancelled := cp_cancelled c; cp_error := message; cp_lastId := cp_lastId c |}.

Definition getChatDraftGeneration (draftKey : string) (c : composer) : Z :=
  let normalizedDraftKey := trim draftKey in
  if nonempty normalizedDraftKey then default 0 (cp_generations c !! normalizedDraftKey) else 0.
Definition bumpChatDraftGeneration (draftKey : string) (c : composer) : composer :=
  let normalizedDraftKey := trim draftKey in
  if nonempty normalizedDraftKey then
    {| cp_draftKey := cp_draftKey c; cp_text := cp_text c; cp_tokens := cp_tokens c; cp_attachments := cp_attachments c; cp_drafts := cp_drafts c;
       cp_generations := <[normalizedDraftKey := getChatDraftGeneration normalizedDraftKey c + 1]> (cp_generations c);
       cp_cancelled := cp_cancelled c; cp_error := cp_error c; cp_lastId := cp_lastId c |}
  else c.

Definition saveDraft (draftKey text : string) (attachments : list ChatAttachment) (tokens : list ChatComposerToken) (drafts : gmap string draft) : gmap string draft :=
  let normalizedKey := trim draftKey in
  let normalizedTokens := normalizeChatComposerTokens tokens in
  if negb (nonempty normalizedKey) then drafts
  else if nonempty text || negb (bool_decide (attachments = [])) || negb (bool_decide (normalizedTokens = [])) then
    <[normalizedKey := {| dr_text := text; dr_tokens := normalizedTokens; dr_attachments := attachments |}]> drafts
  else delete normalizedKey drafts.

(** An updater answers [None] when it returns the array it was given. *)
Definition applyChatAttachments (updater : list ChatAttachment -> option (list ChatAttachment)) (draftKey : string) (expectedGeneration : Z) (c : composer) : composer :=
  let normalizedDraftKey := trim draftKey in
  if negb (nonempty normalizedDraftKey) then c
  else if negb (bool_decide (expectedGeneration = getChatDraftGeneration normalizedDraftKey c)) then c
  else if bool_decide (normalizedDraftKey = cp_draftKey c) then
    match updater (cp_attachments c) with
    | None => c
    | Some next => with_attachments next (saveDraft normalizedDraftKey (cp_text c) next (cp_tokens c) (cp_drafts c)) c
    end
  else
    let currentDraft := default EMPTY_CHAT_COMPOSER_DRAFT (cp_drafts c !! normalizedDraftKey) in
    match updater (dr_attachments currentDraft) with
    | None => c
    | Some next => with_attachments (cp_attachments c) (saveDraft normalizedDraftKey (dr_text currentDraft) next (dr_tokens currentDraft) (cp_drafts c)) c
    end.
Definition appendChatAttachments (nextAttachments : list ChatAttachment) (draftKey : string) (expectedGeneration : Z) (c : composer) : composer :=
  if bool_decide (nextAttachments = []) then c
  else applyChatAttachments (fun current => Some (current ++ nextAttachments)) draftKey expectedGeneration c.
Definition update_attachment (attachmentId : string) (updater : ChatAttachment -> ChatAttachment) (a : ChatAttachment) : ChatAttachment :=
  if bool_decide (ca_id a = attachmentId) then updater a else a.
Definition updateChatAttachment (attachmentId : string) (updater : ChatAttachment -> ChatAttachment) (draftKey : string) (expectedGeneration : Z) (c : composer) : composer :=
  applyChatAttachments (fun current => Some (map (update_attachment attachmentId updater) current)) draftKey expectedGeneration c.

(** What a removal asks of the hub. *)
Inductive hub_request := CancelUpload (uploadId : string) | DeleteAttachment (attachmentId : string).
Definition set_add (x : string) (l : list string) : list string := if bool_decide (x ∈ l) then l else l ++ [x].
(** [selected]: a session is selected. *)
Definition removeChatAttachment (selected : bool) (attachmentId : string) (c : composer) : composer * option hub_request :=
  match (if nonempty attachmentId then find (fun item => bool_decide (ca_id item = attachmentId)) (cp_attachments c) else None) with
  | None => (c, None)
  | Some attachment =>
    let '(c1, asked) :=
      if selected then
        if nonempty (ca_uploadId attachment) && isChatAttachmentUploadPending attachment then
          (with_cancelled (set_add (ca_id attachment) (cp_cancelled c)) c, Some (CancelUpload (ca_uploadId attachment)))
        else if nonempty (ca_attachmentId attachment) && bool_decide (ca_status attachment = Completed) then (c, Some (DeleteAttachment (ca_attachmentId attachment)))
        else (c, None)
      else (c, None) in
    let updater current :=
      let filtered := bfilter (fun a => negb (bool_decide (ca_id a = attachmentId))) current in
      if bool_decide (length filtered = length current) then None else Some filtered in
    (applyChatAttachments updater (cp_draftKey c1) (getChatDraftGeneration (cp_draftKey c1) c1) c1, asked)
  end.

Definition chatFallbackAttachmentName (index : nat) : string := "attachment-" +:+ pretty (Z.of_nat index + 1).
Definition queued_attachment (lastId : Z) (e : nat * file) : ChatAttachment :=
  {| ca_id := "chat-attachment-" +:+ pretty (lastId + Z.of_nat e.1 + 1); ca_name := str_or (fl_name e.2) (chatFallbackAttachmentName e.1);
     ca_mimeType := fl_type e.2; ca_size := file_size e.2; ca_status := Queued; ca_progress := 0; ca_file := Some e.2;
     ca_block := None; ca_uploadId := ""; ca_attachmentId := ""; ca_error := "" |}.
Definition enqueueChatAttachmentFiles (files : list file) (draftKey : string) (expectedGeneration : Z) (c : composer) : composer :=
  if bool_decide (length files = 0%nat) then c else
  let attachments := map (queued_attachment (cp_lastId c)) (imap pair files) in
  let c := {| cp_draftKey := cp_draftKey c; cp_text := cp_text c; cp_tokens := cp_tokens c; cp_attachments := cp_attachments c; cp_drafts := cp_drafts c;
    cp_generations := cp_generations c; cp_cancelled := cp_cancelled c; cp_error := cp_error c; cp_lastId := cp_lastId c + Z.of_nat (length files) |} in
  appendChatAttachments attachments draftKey expectedGeneration c.
Definition retryChatAttachment (attachmentId : string) (c : composer) : composer :=
  match find (fun item => bool_decide (ca_id item = attachmentId)) (cp_attachments c) with
  | Some {| ca_file := Some _ |} =>
    updateChatAttachment attachmentId (with_upload Queued 0 None "" "" "") (cp_draftKey c) (getChatDraftGeneration (cp_draftKey c) c) c
  | _ => setError "Attachment can only be retried before the page is refreshed." c
  end.
Definition resetComposer (c : composer) : composer :=
  let c := bumpChatDraftGeneration (cp_draftKey c)
    {| cp_draftKey := cp_draftKey c; cp_text := ""; cp_tokens := []; cp_attachments := []; cp_drafts := cp_drafts c;
       cp_generations := cp_generations c; cp_cancelled := cp_cancelled c; cp_error := cp_error c; cp_lastId := cp_lastId c |} in
  with_attachments [] (saveDraft (cp_draftKey c) "" [] [] (cp_drafts c)) c.
Definition resetDraft (draftKey : string) (c : composer) : composer :=
  let normalizedDraftKey := trim draftKey in
  if negb (nonempty normalizedDraftKey) then c
  else if bool_decide (normalizedDraftKey = cp_draftKey c) then resetComposer c
  else let c := bumpChatDraftGeneration normalizedDraftKey c in
    with_attachments (cp_attachments c) (saveDraft normalizedDraftKey "" [] [] (cp_drafts c)) c.

(** * The upload *)

Definition CHAT_ATTACHMENT_CHUNK_SIZE : Z := 1024 * 1024.

Record start_answer := { sa_ok : bool; sa_uploadId : string; sa_chunkSize : Z }.
Record finish_answer := { fa_ok : bool; fa_attachmentId : string; fa_block : option block }.
(** An answer of the hub, or the error the request failed with. *)
Inductive uploadE : Type -> Type :=
  | UStart (name mimeType : string) (size : Z) : uploadE (start_answer + string)
  | UReadAsDataURL (bytes : list ascii) : uploadE (string + string)
  | UChunk (uploadId : string) (offset : Z) (data : string) : uploadE (bool + string)
  | UDigest (bytes : list ascii) : uploadE (string + string)
  | UFinish (uploadId sha256 : string) : uploadE (finish_answer + string)
  | UCancel (uploadId : string) : uploadE unit
  | UCancelled : uploadE bool
  | UForget : uploadE unit
  | UUpdate (updater : ChatAttachment -> ChatAttachment) : uploadE (option ChatAttachment)
  | USetError (message : string) : uploadE unit.
Notation upload A := (prog uploadE string A).
(** [await] of a promise that may be rejected. *)
Definition settled {A} (answer : A + string) : upload A := match answer with inl a => Ret a | inr message => Throw message end.
Definition awaiting {A} (e : uploadE (A + string)) : upload A := bind settled (call e).

Definition attachmentIdFromBlock (b : block) : string :=
  let uri := string_or_empty (prop b "uri") in
  let last := default ""%string (list.last (flat_map (split "\") (split "/" uri))) in
  let withoutQuery := default ""%string (head (flat_map (split "#") (split "?" last))) in
  let withoutExtension := replace_first (seq_of [one "."; many1 (Chr (fun c => negb (bool_decide (c = "."%char)))); Eol false]) (by_string "") withoutQuery in
  if startsWith withoutExtension "sha256-" then withoutExtension else "".

(** What follows the first comma of a data URL. *)
Definition blobToBase64 (bytes : list ascii) : upload string :=
  let* dataUrl := awaiting (UReadAsDataURL bytes) in
  Ret (match indexOf dataUrl "," 0 with Some i => slice_from (i + 1) dataUrl | None => dataUrl end).

Definition file_slice (f : file) (a b : Z) : list ascii := take (Z.to_nat (b - a)) (drop (Z.to_nat a) (fl_bytes f)).
Definition chunk_progress (offset size : Z) : Z :=
  if 0 <? size then Z.max 3 (Z.min 95 (round (double (double (inject_Z offset / inject_Z size) * 95)))) else 95.
Definition with_progress (progress : Z) (a : ChatAttachment) : ChatAttachment :=
  with_upload (ca_status a) progress (ca_block a) (ca_uploadId a) (ca_attachmentId a) (ca_error a) a.
(** One turn of the loop; every turn sends at least a byte, so [length] of the file is fuel
    enough. *)
Definition send_chunk (f : file) (uploadId : string) (chunkSize offset : Z) : upload Z :=
  let* cancelled := call UCancelled in
  if (cancelled : bool) then Throw "Attachment upload cancelled"%string else
  let nextOffset := Z.min (file_size f) (offset + chunkSize) in
  let* data := blobToBase64 (file_slice f offset nextOffset) in
  let* ok := awaiting (UChunk uploadId offset data) in
  if negb ok then Throw "session.attachment.chunk returned ok=false"%string else
  do* call (UUpdate (with_progress (chunk_progress nextOffset (file_size f)))) in
  Ret nextOffset.
Fixpoint send_chunks (fuel : nat) (f : file) (uploadId : string) (chunkSize offset : Z) : upload unit :=
  if offset <? file_size f then
    match fuel with
    | O => Throw "out of fuel"%string
    | S fuel => bind (send_chunks fuel f uploadId chunkSize) (send_chunk f uploadId chunkSize offset)
    end
  else Ret ().

Definition started (a : ChatAttachment) : ChatAttachment := with_upload Uploading 1 (ca_block a) "" (ca_attachmentId a) "" a.
Definition identified (uploadId : string) (a : ChatAttachment) : ChatAttachment :=
  with_upload (ca_status a) (Z.max 2 (ca_progress a)) (ca_block a) uploadId (ca_attachmentId a) (ca_error a) a.
Definition completed (b : block) (attachmentId : string) (a : ChatAttachment) : ChatAttachment :=
  with_upload Completed 100 (Some b) (ca_uploadId a) attachmentId "" a.
Definition failed (message : string) (a : ChatAttachment) : ChatAttachment :=
  with_upload Failed (ca_progress a) (ca_block a) (ca_uploadId a) (ca_attachmentId a) message a.

(** The [try] block after the hub has given the id of the upload. *)
Definition send_file (f : file) (attachmentId name uploadId : string) (chunkSize : Z) : upload ChatAttachment :=
  do* call (UUpdate (identified uploadId)) in
  do* send_chunks (length (fl_bytes f)) f uploadId (Z.max 1 (if bool_decide (chunkSize = 0) then CHAT_ATTACHMENT_CHUNK_SIZE else chunkSize)) 0 in
  let* sha256 := awaiting (UDigest (fl_bytes f)) in
  let* finished := awaiting (UFinish uploadId sha256) in
  match fa_ok finished, fa_block finished with
  | true, Some b =>
    let completedId := str_or (fa_attachmentId finished) (attachmentIdFromBlock b) in
    let* found := call (UUpdate (completed b completedId)) in
    Ret (match found with
         | Some a => completed b completedId a
         | None => {| ca_id := attachmentId; ca_name := name; ca_mimeType := fl_type f; ca_size := file_size f; ca_status := Completed; ca_progress := 100;
                      ca_file := Some f; ca_block := Some b; ca_uploadId := ""; ca_attachmentId := completedId; ca_error := "" |}
         end)
  | _, _ => Throw "session.attachment.finish returned ok=false"%string
  end.
(** The [catch] and [finally] blocks, with the id known when the error was thrown. *)
Definition upload_failed (uploadId message : string) : upload ChatAttachment :=
  let* cancelled := call UCancelled in
  do* (if nonempty uploadId && negb cancelled then call (UCancel uploadId) else Ret ()) in
  do* (if negb cancelled then do* call (UUpdate (failed message)) in call (USetError message) else Ret ()) in
  do* call UForget in
  Throw message.
Definition uploadChatAttachmentFile (f : file) (fallbackName attachmentId : string) : upload ChatAttachment :=
  let name := str_or (fl_name f) fallbackName in
  do* call (UUpdate started) in
  let* answer := call (UStart name (fl_type f) (file_size f)) in
  match answer with
  | inr message => upload_failed "" message
  | inl start =>
    if negb (sa_ok start) || negb (nonempty (sa_uploadId start)) then upload_failed "" "session.attachment.start returned ok=false"
    else bind (fun r => match r with inl a => do* call UForget in Ret a | inr message => upload_failed (sa_uploadId start) message end)
           (catch (pmap inl (send_file f attachmentId name (sa_uploadId start) (sa_chunkSize start))) (fun message => Ret (inr message)))
  end.

(** * The hub, the user and the connection *)

Inductive upload_state := Open | Finished | Discarded.
#[export] Instance upload_state_dec : EqDecision upload_state.
Proof. solve_decision. Defined.
Record hub_upload := { hu_size : Z; hu_received : list ascii; hu_state : upload_state }.

(** What the user may do while an answer is awaited.  The request to cancel a removed
    attachment's upload is not awaited either: it may not arrive. *)
Inductive user_move :=
  | Remove (attachmentId : string) (arrives : bool)
  | Retry (attachmentId : string)
  | AddFiles (files : list file)
  | ResetDraft (draftKey : string).
(** How a request goes: served and answered; failed before it was served; or served, with
    its answer lost. *)
Inductive delivery := Served | Refused | Unanswered.

(** [w_asked] are the uploads the hub was asked to cancel. *)
Record world := { w_composer : composer; w_hub : list hub_upload; w_calls : nat; w_asked : list string }.

Section world.
Variables (sha256 : list ascii -> string) (hub_block : list ascii -> block) (hub_chunkSize : Z).
(** The calls that are awaited are numbered; for each, how it goes and what the user does
    before and after the hub serves it.  The request to cancel a failed upload is sent and
    not awaited; whether it arrives is a parameter of its own. *)
Variables (deliveries : nat -> delivery) (cancel_arrives : bool) (before after : nat -> list user_move).

Definition upload_id (n : nat) : string := "upload-" +:+ pretty (Z.of_nat n).
Definition set_hub (hub : list hub_upload) (w : world) : world := {| w_composer := w_composer w; w_hub := hub; w_calls := w_calls w; w_asked := w_asked w |}.
Definition set_composer (c : composer) (w : world) : world := {| w_composer := c; w_hub := w_hub w; w_calls := w_calls w; w_asked := w_asked w |}.
Definition discard (u : hub_upload) : hub_upload :=
  if bool_decide (hu_state u = Open) then {| hu_size := hu_size u; hu_received := hu_received u; hu_state := Discarded |} else u.
(** The upload an id names. *)
Definition hub_find (uploadId : string) (hub : list hub_upload) : option (nat * hub_upload) :=
  find (fun e => bool_decide (upload_id e.1 = uploadId)) (imap pair hub).
Definition hub_cancel (uploadId : string) (hub : list hub_upload) : list hub_upload :=
  match hub_find uploadId hub with Some (n, u) => <[n := discard u]> hub | None => hub end.
Definition hub_chunk (uploadId : string) (offset : Z) (data : string) (hub : list hub_upload) : bool * list hub_upload :=
  match hub_find uploadId hub, base64ToBytes data with
  | Some (n, u), Some bytes =>
    if bool_decide (hu_state u = Open) && (offset =? Z.of_nat (length (hu_received u))) && (offset + Z.of_nat (length bytes) <=? hu_size u)
    then (true, <[n := {| hu_size := hu_size u; hu_received := hu_received u ++ bytes; hu_state := Open |}]> hub)
    else (false, hub)
  | _, _ => (false, hub)
  end.
Definition hub_finish (uploadId digest : string) (hub : list hub_upload) : finish_answer * list hub_upload :=
  match hub_find uploadId hub with
  | Some (n, u) =>
    if bool_decide (hu_state u = Open) && (Z.of_nat (length (hu_received u)) =? hu_size u) && bool_decide (sha256 (hu_received u) = digest)
    then ({| fa_ok := true; fa_attachmentId := "sha256-" +:+ digest; fa_block := Some (hub_block (hu_received u)) |},
          <[n := {| hu_size := hu_size u; hu_received := hu_received u; hu_state := Finished |}]> hub)
    else ({| fa_ok := false; fa_attachmentId := ""; fa_block := None |}, hub)
  | None => ({| fa_ok := false; fa_attachmentId := ""; fa_block := None |}, hub)
  end.

Definition ask_cancel (arrives : bool) (uploadId : string) (w : world) : world :=
  {| w_composer := w_composer w; w_hub := if arrives then hub_cancel uploadId (w_hub w) else w_hub w; w_calls := w_calls w;
     w_asked := w_asked w ++ [uploadId] |}.
Definition user_step (w : world) (m : user_move) : world :=
  match m with
  | Remove id arrives =>
    let '(c, asked) := removeChatAttachment true id (w_composer w) in
    let w := set_composer c w in
    match asked with Some (CancelUpload uploadId) => ask_cancel arrives uploadId w | _ => w end
  | Retry id => set_composer (retryChatAttachment id (w_composer w)) w
  | AddFiles files => set_composer (enqueueChatAttachmentFiles files (cp_draftKey (w_composer w)) (getChatDraftGeneration (cp_draftKey (w_composer w)) (w_composer w)) (w_composer w)) w
  | ResetDraft key => set_composer (resetDraft key (w_composer w)) w
  end.
Definition user_acts (ms : list user_move) (w : world) : world := foldl user_step w ms.

(** An awaited call. *)
Definition awaited {A} (serve : list hub_upload -> (A + string) * list hub_upload) (w : world) : (A + string) * world :=
  let n := w_calls w in
  let w := user_acts (before n) {| w_composer := w_composer w; w_hub := w_hub w; w_calls := S n; w_asked := w_asked w |} in
  match deliveries n with
  | Refused => (inr "request failed"%string, user_acts (after n) w)
  | Served => let '(r, hub) := serve (w_hub w) in (r, user_acts (after n) (set_hub hub w))
  | Unanswered => let '(r, hub) := serve (w_hub w) in (inr "request failed"%string, user_acts (after n) (set_hub hub w))
  end.

Variables (attachmentId draftKey : string) (generation : Z).
Definition found_attachment (c : composer) : option ChatAttachment :=
  if bool_decide (generation = getChatDraftGeneration draftKey c) && nonempty (trim draftKey) then
    find (fun a => bool_decide (ca_id a = attachmentId))
      (if bool_decide (trim draftKey = cp_draftKey c) then cp_attachments c else dr_attachments (default EMPTY_CHAT_COMPOSER_DRAFT (cp_drafts c !! trim draftKey)))
  else None.
Definition data_url (bytes : list ascii) : string := "data:application/octet-stream;base64," +:+ unchars (btoa bytes).
Definition handle (R : Type) (e : uploadE R) (w : world) : R * world :=
  match e in uploadE R return R * world with
  | UStart _ _ size =>
    awaited (fun hub => (inl {| sa_ok := true; sa_uploadId := upload_id (length hub); sa_chunkSize := hub_chunkSize |},
                         hub ++ [{| hu_size := size; hu_received := []; hu_state := Open |}])) w
  | UReadAsDataURL bytes => awaited (fun hub => (inl (data_url bytes), hub)) w
  | UChunk uploadId offset data => awaited (fun hub => let '(ok, hub) := hub_chunk uploadId offset data hub in (inl ok, hub)) w
  | UDigest bytes => awaited (fun hub => (inl (sha256 bytes), hub)) w
  | UFinish uploadId digest => awaited (fun hub => let '(answer, hub) := hub_finish uploadId digest hub in (inl answer, hub)) w
  | UCancel uploadId => ((), ask_cancel cancel_arrives uploadId w)
  | UCancelled => (bool_decide (attachmentId ∈ cp_cancelled (w_composer w)), w)
  | UForget => ((), set_composer (with_cancelled (bfilter (fun id => negb (bool_decide (id = attachmentId))) (cp_cancelled (w_composer w))) (w_composer w)) w)
  | UUpdate updater => (found_attachment (w_composer w), set_composer (updateChatAttachment attachmentId updater draftKey generation (w_composer w)) w)
  | USetError message => ((), set_composer (setError message (w_composer w)) w)
  end.
End world.

(** * What an upload leaves *)

Section theorems.
Variables (sha256 : list ascii -> string) (hub_block : list ascii -> block) (hub_chunkSize : Z).
Variables (deliveries : nat -> delivery) (cancel_arrives : bool) (before after : nat -> list user_move).
Variables (attachmentId draftKey : string) (generation : Z) (f : file).
Notation exec p := (run (handle sha256 hub_block hub_chunkSize deliveries cancel_arrives before after attachmentId draftKey generation) p).
Notation bytes := (fl_bytes f).

Lemma upload_id_inj n m : upload_id n = upload_id m -> n = m.
Proof. unfold upload_id. intros H%(inj (String.append "upload-")). apply (inj pretty) in H. lia. Qed.
Lemma upload_id_nonempty n : nonempty (upload_id n) = true.
Proof. done. Qed.

Lemma find_imap {A} (p : nat * A -> bool) (l : list A) k n x : (forall m y, l !! m = Some y -> p ((k + m)%nat, y) = bool_decide ((k + m)%nat = n)) -> (k <= n)%nat -> l !! (n - k)%nat = Some x ->
  find p (imap (fun i => pair (k + i)%nat) l) = Some (n, x).
Proof.
  revert k. induction l as [|y l IH]; intros k Hp Hk Hl; [done|]. cbn. rewrite Nat.add_0_r. pose proof (Hp 0%nat y eq_refl) as H0. rewrite Nat.add_0_r in H0. rewrite H0.
  case_bool_decide as E.
  - subst n. rewrite Nat.sub_diag in Hl. by injection Hl as <-.
  - rewrite (imap_ext _ (fun i => pair (S k + i)%nat)); [|intros i ? _; cbn; by rewrite Nat.add_succ_r]. apply IH; [|lia|].
    + intros m z Hm. specialize (Hp (S m) z Hm). by rewrite Nat.add_succ_r in Hp.
    + replace (n - k)%nat with (S (n - S k)) in Hl by lia. exact Hl.
Qed.
Lemma hub_find_at hub n u : hub !! n = Some u -> hub_find (upload_id n) hub = Some (n, u).
Proof.
  intros H. unfold hub_find. rewrite (imap_ext _ (fun i => pair (0 + i)%nat)) by done. apply find_imap; [|lia|by rewrite Nat.sub_0_r].
  intros m y _. apply bool_decide_ext. cbn. split; [apply upload_id_inj|by intros ->].
Qed.

(** The user only discards uploads. *)
Definition hub_le (h h' : list hub_upload) : Prop := Forall2 (fun u u' => u' = u \/ u' = discard u) h h'.
#[local] Instance hub_le_refl : Reflexive hub_le.
Proof. intros h. unfold hub_le. induction h as [|u h IH]; constructor; [by left|done]. Qed.
Lemma discard_discard u : discard (discard u) = discard u.
Proof. unfold discard at 1. case_bool_decide as E; [|done]. unfold discard in E. case_bool_decide; done. Qed.
#[local] Instance hub_le_trans : Transitive hub_le.
Proof.
  intros h1 h2 h3 H. revert h3. induction H as [|u1 u2 h1 h2 Hu H IH]; intros h3 H3; [done|]. apply Forall2_cons_inv_l in H3 as (u3 & h3' & Hu3 & H3 & ->).
  constructor; [|by apply IH]. destruct Hu as [->| ->], Hu3 as [->| ->]; rewrite ?discard_discard; auto.
Qed.
Lemma hub_le_at h h' n u : hub_le h h' -> h !! n = Some u -> exists u', h' !! n = Some u' /\ (u' = u \/ u' = discard u).
Proof. intros H Hn. destruct (Forall2_lookup_l _ _ _ _ _ H Hn) as (u' & ? & ?). eauto. Qed.
Lemma hub_cancel_le id h : hub_le h (hub_cancel id h).
Proof.
  unfold hub_cancel. destruct (hub_find id h) as [[n u]|] eqn:E; [|reflexivity]. unfold hub_find in E. apply find_Some in E as [Hin _].
  apply elem_of_lookup_imap in Hin as (i & u' & [= -> ->] & Hi). unfold hub_le. rewrite <- (list_insert_id h i u') at 1 by done.
  apply Forall2_insert; [apply hub_le_refl|by right].
Qed.
Lemma user_step_le w m : hub_le (w_hub w) (w_hub (user_step w m)).
Proof.
  destruct m as [id arrives| | |]; cbn; try reflexivity. destruct (removeChatAttachment true id (w_composer w)) as [c [[|]|]]; cbn; try reflexivity.
  destruct arrives; [apply hub_cancel_le|reflexivity].
Qed.
Lemma user_acts_le ms w : hub_le (w_hub w) (w_hub (user_acts ms w)).
Proof. revert w. induction ms as [|m ms IH]; intros w; [reflexivity|]. cbn. etransitivity; [apply user_step_le|apply IH]. Qed.

Lemma awaited_spec {A} (serve : list hub_upload -> (A + string) * list hub_upload) w : exists hub r w',
  awaited deliveries before after serve w = (r, w') /\ hub_le (w_hub w) hub /\
  ((r = inr "request failed"%string /\ hub_le hub (w_hub w')) \/
   (hub_le (serve hub).2 (w_hub w') /\ (r = (serve hub).1 \/ (r = inr "request failed"%string /\ exists n, deliveries n = Unanswered)))).
Proof.
  unfold awaited. set (w1 := user_acts _ {| w_composer := _; w_hub := w_hub w; w_calls := _; w_asked := _ |}). exists (w_hub w1).
  assert (Hle : hub_le (w_hub w) (w_hub w1)) by apply (user_acts_le (before (w_calls w)) {| w_composer := w_composer w; w_hub := w_hub w; w_calls := S (w_calls w); w_asked := w_asked w |}).
  clearbody w1. destruct (deliveries (w_calls w)) eqn:Ed; [destruct (serve (w_hub w1)) as [r hub] eqn:Es| |destruct (serve (w_hub w1)) as [r hub] eqn:Es].
  - do 2 eexists. split; [done|]. split; [done|]. right. cbn. split; [exact (user_acts_le _ (set_hub hub w1))|by left].
  - do 2 eexists. split; [done|]. split; [done|]. left. split; [done|]. apply user_acts_le.
  - do 2 eexists. split; [done|]. split; [done|]. right. cbn. split; [exact (user_acts_le _ (set_hub hub w1))|right; by eauto].
Qed.

Section at_hub.
Variable n0 : nat.

(** While chunks are sent: what the hub has is what was sent, unless it has discarded it. *)
Definition sending_hub (o : Z) (hub : list hub_upload) : Prop := exists u, hub !! n0 = Some u /\ hu_size u = file_size f /\ hu_state u <> Finished /\
  hu_received u `prefix_of` bytes /\ (hu_state u = Open -> hu_received u = take (Z.to_nat o) bytes).
Definition sent_hub (hub : list hub_upload) : Prop := exists u, hub !! n0 = Some u /\ hu_size u = file_size f /\ hu_received u `prefix_of` bytes /\
  (hu_state u = Finished -> hu_received u = bytes).

Lemma sending_sent o hub : sending_hub o hub -> sent_hub hub.
Proof. intros (u & H1 & H2 & H3 & H4 & _). by exists u. Qed.
Lemma discard_fields u : hu_size (discard u) = hu_size u /\ hu_received (discard u) = hu_received u /\ (hu_state (discard u) = hu_state u \/ hu_state (discard u) = Discarded).
Proof. unfold discard. case_bool_decide; cbn; auto. Qed.
Lemma sending_le o hub hub' : hub_le hub hub' -> sending_hub o hub -> sending_hub o hub'.
Proof.
  intros Hle (u & H1 & H2 & H3 & H4 & H5). destruct (hub_le_at _ _ _ _ Hle H1) as (u' & H1' & [->| ->]); [by exists u|].
  exists (discard u). destruct (discard_fields u) as (E1 & E2 & E3). rewrite E1, E2. split_and!; [done|done| |done|].
  - destruct E3 as [->| ->]; [done|discriminate].
  - destruct E3 as [->| ->]; [done|discriminate].
Qed.
Lemma sent_le hub hub' : hub_le hub hub' -> sent_hub hub -> sent_hub hub'.
Proof.
  intros Hle (u & H1 & H2 & H3 & H4). destruct (hub_le_at _ _ _ _ Hle H1) as (u' & H1' & [->| ->]); [by exists u|].
  exists (discard u). destruct (discard_fields u) as (E1 & E2 & E3). rewrite E1, E2. split_and!; [done..|]. destruct E3 as [->| ->]; [done|discriminate].
Qed.

Lemma slice_length o m : 0 <= o -> o <= m <= file_size f -> Z.of_nat (length (file_slice f o m)) = m - o.
Proof. unfold file_slice, file_size. intros. rewrite length_take, length_drop. lia. Qed.
Lemma take_slice o m : 0 <= o -> o <= m -> take (Z.to_nat o) bytes ++ file_slice f o m = take (Z.to_nat m) bytes.
Proof.
  intros. unfold file_slice. replace (Z.to_nat m) with (Z.to_nat o + Z.to_nat (m - o))%nat by lia. rewrite take_take_drop. done.
Qed.

(** The text of a slice as the hub reads it. *)
Lemma data_url_base64 l : (match indexOf (data_url l) "," 0 with Some i => slice_from (i + 1) (data_url l) | None => data_url l end) = unchars (btoa l).
Proof.
  assert (E : indexOf (data_url l) "," 0 = Some 36%nat) by done. rewrite E. unfold slice_from, data_url. rewrite chars_app. cbn [Nat.add].
  change (drop 37 _) with (chars (unchars (btoa l))). by rewrite unchars_chars.
Qed.
Lemma decode_unchars l : base64ToBytes (unchars (btoa l)) = Some l.
Proof. unfold base64ToBytes. rewrite chars_unchars. apply atob_btoa. Qed.
(** ** The flag of a cancelled upload *)

Definition flagged (w : world) : Prop := attachmentId ∈ cp_cancelled (w_composer w).
(** The user never removes this attachment. *)
Definition kept : Prop := forall n arrives, Remove attachmentId arrives ∉ before n ++ after n.
(** Every request is served and answered, and the user waits. *)
Definition calm : Prop := forall n, deliveries n = Served /\ before n = [] /\ after n = [].

Lemma apply_cancelled updater key gen c : cp_cancelled (applyChatAttachments updater key gen c) = cp_cancelled c.
Proof. unfold applyChatAttachments. repeat case_match; done. Qed.
Lemma reset_cancelled key c : cp_cancelled (resetDraft key c) = cp_cancelled c.
Proof. unfold resetDraft, resetComposer, bumpChatDraftGeneration. repeat case_match; done. Qed.
Lemma user_step_flag w m : (forall arrives, m <> Remove attachmentId arrives) -> flagged (user_step w m) -> flagged w.
Proof.
  unfold flagged. destruct m as [id arrives|id|files|key]; intros Hm.
  - cbn. destruct (removeChatAttachment true id (w_composer w)) as [c asked] eqn:E. unfold removeChatAttachment in E.
    destruct (if nonempty id then _ else None) as [a|] eqn:Ea; [|by injection E as <- <-].
    assert (Hid : ca_id a = id) by (destruct (nonempty id); [|done]; apply find_Some in Ea as [_ Ea]; by apply bool_decide_eq_true in Ea).
    destruct (nonempty (ca_uploadId a) && isChatAttachmentUploadPending a).
    + injection E as <- <-. cbn. rewrite apply_cancelled. cbn. unfold set_add. case_bool_decide; [done|]. rewrite elem_of_app, list_elem_of_singleton. intros [|E]; [done|]. destruct (Hm arrives). congruence.
    + destruct (nonempty (ca_attachmentId a) && _); injection E as <- <-; cbn; by rewrite apply_cancelled.
  - cbn. unfold retryChatAttachment, updateChatAttachment. repeat case_match; cbn; try done; by rewrite apply_cancelled.
  - cbn. unfold enqueueChatAttachmentFiles, appendChatAttachments. repeat case_match; cbn; try done; by rewrite apply_cancelled.
  - cbn. by rewrite reset_cancelled.
Qed.
Lemma user_acts_flag ms w : (forall arrives, Remove attachmentId arrives ∉ ms) -> flagged (user_acts ms w) -> flagged w.
Proof.
  revert w. induction ms as [|m ms IH]; intros w; [done|]. intros Hno H. cbn in H. apply IH in H; [|intros b Hb; apply (Hno b); by right].
  apply user_step_flag in H; [done|]. intros b ->. apply (Hno b). left.
Qed.
Lemma awaited_flag {A} (serve : list hub_upload -> (A + string) * list hub_upload) w : kept -> flagged (awaited deliveries before after serve w).2 -> flagged w.
Proof.
  intros Hk. assert (Hb : forall b, Remove attachmentId b ∉ before (w_calls w)) by (intros b Hb; apply (Hk (w_calls w) b), elem_of_app; by left).
  assert (Ha : forall b, Remove attachmentId b ∉ after (w_calls w)) by (intros b Ha; apply (Hk (w_calls w) b), elem_of_app; by right).
  assert (Hbefore : flagged (user_acts (before (w_calls w)) {| w_composer := w_composer w; w_hub := w_hub w; w_calls := S (w_calls w); w_asked := w_asked w |}) -> flagged w).
  { intros H. by apply user_acts_flag in H. }
  unfold awaited. destruct (deliveries (w_calls w)); [destruct (serve _)| |destruct (serve _)]; cbn [snd]; intros H; apply user_acts_flag in H; by apply Hbefore || done.
Qed.
Lemma awaited_calm {A} (serve : list hub_upload -> (A + string) * list hub_upload) w : calm ->
  awaited deliveries before after serve w = ((serve (w_hub w)).1, {| w_composer := w_composer w; w_hub := (serve (w_hub w)).2; w_calls := S (w_calls w); w_asked := w_asked w |}).
Proof. intros Hc. destruct (Hc (w_calls w)) as (E1 & E2 & E3). unfold awaited. rewrite E1, E2, E3. cbn. by destruct (serve (w_hub w)). Qed.
(** ** The chunks *)

(** What a part of the upload does to the world, whatever it ends with: the flag is only
    raised by the user; when all is calm it ends well and keeps the upload open. *)
Definition open_hub (hub : list hub_upload) : Prop := exists u, hub !! n0 = Some u /\ hu_state u = Open.
Record part {A} (O O' : list hub_upload -> Prop) (P : A -> list hub_upload -> Prop) (Q : list hub_upload -> Prop) (w : world) (r : A + string) (w' : world) : Prop := {
  pt_good : forall a, r = inl a -> P a (w_hub w');
  pt_bad : forall message, r = inr message -> Q (w_hub w');
  pt_flag : kept -> flagged w' -> flagged w;
  pt_calm : calm -> ~ flagged w -> O (w_hub w) -> (exists a, r = inl a) /\ O' (w_hub w') /\ ~ flagged w'
}.
Definition does {A} (O O' : list hub_upload -> Prop) (p : upload A) (P : A -> list hub_upload -> Prop) (Q : list hub_upload -> Prop) (w : world) : Prop :=
  part O O' P Q w (exec p w).1 (exec p w).2.

Lemma does_ret {A} O (a : A) P Q w : P a (w_hub w) -> does O O (Ret a) P Q w.
Proof. intros H. split; cbn; [by intros ? [= <-]|done|done|eauto]. Qed.
Lemma does_bind {A B} O1 O2 O3 (p : upload A) (k : A -> upload B) P P' Q w :
  does O1 O2 p P Q w -> (forall a w', P a (w_hub w') -> does O2 O3 (k a) P' Q w') -> does O1 O3 (bind k p) P' Q w.
Proof.
  intros [H1 H2 H3 H4] Hk. unfold does. rewrite run_bind. destruct (exec p w) as [[a|x] w1]; cbn in *.
  - specialize (Hk a w1 (H1 a eq_refl)) as [K1 K2 K3 K4]. split; [done|done|eauto|]. intros Hc Hf Ho. destruct (H4 Hc Hf Ho) as (_ & Ho1 & Hf1). by apply K4.
  - split; [done|intros m [= ->]; by apply (H2 m)|done|]. intros Hc Hf Ho. destruct (H4 Hc Hf Ho) as [[a Ha] _]. done.
Qed.
Lemma does_weaken {A} O O' (p : upload A) (P P' : A -> list hub_upload -> Prop) (Q Q' : list hub_upload -> Prop) w :
  does O O' p P Q w -> (forall a hub, P a hub -> P' a hub) -> (forall hub, Q hub -> Q' hub) -> does O O' p P' Q' w.
Proof. intros [H1 H2 H3 H4] HP HQ. split; eauto. Qed.

(** A part that only touches the composer, and not the flag. *)
Lemma does_composer {R} O (e : uploadE R) (P : R -> list hub_upload -> Prop) Q w :
  (forall r c, handle sha256 hub_block hub_chunkSize deliveries cancel_arrives before after attachmentId draftKey generation R e w = (r, set_composer c w) ->
     cp_cancelled c = cp_cancelled (w_composer w) /\ P r (w_hub w)) ->
  (exists r c, handle sha256 hub_block hub_chunkSize deliveries cancel_arrives before after attachmentId draftKey generation R e w = (r, set_composer c w)) ->
  does O O (call e) P Q w.
Proof.
  intros H (r & c & E). destruct (H r c E) as [Hc HP]. unfold does. rewrite run_call, E. split; cbn; [by intros ? [= <-]|done| |].
  - intros _. unfold flagged. cbn. by rewrite Hc.
  - intros _ Hf Ho. split; [by eauto|]. split; [done|]. unfold flagged in *. cbn. by rewrite Hc.
Qed.
Lemma does_update O updater (Q : list hub_upload -> Prop) w (I : list hub_upload -> Prop) : I (w_hub w) -> does O O (call (UUpdate updater)) (fun _ => I) Q w.
Proof.
  intros HI. apply does_composer; [|eexists; eexists; reflexivity]. intros r c [= <- <-]. split; [apply apply_cancelled|done].
Qed.

(** An awaited call: what the hub serves keeps what the sender relies on, and so do the
    user's moves. *)
Lemma does_awaiting {A} (O O' : list hub_upload -> Prop) (e : uploadE (A + string)) serve (I Q : list hub_upload -> Prop) (P : A -> list hub_upload -> Prop) w :
  (forall w, handle sha256 hub_block hub_chunkSize deliveries cancel_arrives before after attachmentId draftKey generation _ e w = awaited deliveries before after serve w) ->
  (forall hub hub', hub_le hub hub' -> I hub -> I hub') -> (forall hub, I hub -> Q hub) ->
  (forall a hub hub', hub_le hub hub' -> P a hub -> P a hub') -> (forall hub hub', hub_le hub hub' -> Q hub -> Q hub') ->
  (forall hub, I hub -> match (serve hub).1 with inl a => P a (serve hub).2 | inr _ => Q (serve hub).2 end) ->
  ((exists n, deliveries n = Unanswered) -> forall hub, I hub -> Q (serve hub).2) ->
  (forall hub, I hub -> O hub -> (exists a, (serve hub).1 = inl a) /\ O' (serve hub).2) ->
  I (w_hub w) -> does O O' (awaiting e) P Q w.
Proof.
  intros He HI HQ HPle HQle Hserve Hlost Hopen Hw. unfold does, awaiting. rewrite run_bind, run_call, He.
  destruct (awaited_spec serve w) as (hub & r & w' & E & Hle & Hcase).
  assert (Hflag : kept -> flagged w' -> flagged w) by (intros Hk Hf; apply (awaited_flag serve); [done|by rewrite E]).
  assert (Hcalm : calm -> ~ flagged w -> O (w_hub w) -> (exists a, r = inl a) /\ O' (w_hub w') /\ ~ flagged w').
  { intros Hc Hf Ho. rewrite awaited_calm in E by done. injection E as <- <-. destruct (Hopen _ Hw Ho) as [Ha Ho']. by split_and!. }
  rewrite E. cbn. pose proof (HI _ _ Hle Hw) as Ih. specialize (Hserve hub Ih).
  destruct Hcase as [[-> Hle']|[Hle' [->|[-> Hl]]]].
  - split; cbn; [done|intros ? [= <-]; eauto|done|]. intros Hc Hf Ho. destruct (Hcalm Hc Hf Ho) as [[a Ha] _]. done.
  - destruct (serve hub).1 as [a|m]; split; cbn; try done.
    + intros ? [= <-]. eauto.
    + intros ? [= <-]. eauto.
  - split; cbn; [done|intros ? [= <-]; eauto|done|]. intros Hc Hf Ho. destruct (Hcalm Hc Hf Ho) as [[a Ha] _]. done.
Qed.
Lemma does_throw {A} (O O' : list hub_upload -> Prop) message (P : A -> list hub_upload -> Prop) (Q : list hub_upload -> Prop) w : Q (w_hub w) -> (flagged w \/ ~ O (w_hub w)) -> does O O' (Throw message) P Q w.
Proof. intros HQ Hf. split; cbn; [done|by intros ? [= <-]|done|]. intros _ Hn Ho. by destruct Hf. Qed.

Definition unfinished_hub (hub : list hub_upload) : Prop := exists o, sending_hub o hub.
Lemma unfinished_le hub hub' : hub_le hub hub' -> unfinished_hub hub -> unfinished_hub hub'.
Proof. intros Hle [o H]. exists o. by eapply sending_le. Qed.

Lemma does_base64 l o w : sending_hub o (w_hub w) -> does open_hub open_hub (blobToBase64 l) (fun data hub => data = unchars (btoa l) /\ sending_hub o hub) unfinished_hub w.
Proof.
  intros H. unfold blobToBase64. eapply (does_bind _ open_hub _ _ _ (fun u hub => u = data_url l /\ sending_hub o hub)).
  - apply (does_awaiting open_hub open_hub (UReadAsDataURL l) (fun hub => (inl (data_url l), hub)) (sending_hub o)); try done; cbn.
    + intros *. apply sending_le.
    + intros hub ?. by exists o.
    + intros a hub hub' Hle [-> ?]. split; [done|by eapply sending_le].
    + apply unfinished_le.
    + intros _ hub ?. by exists o.
    + eauto.
  - intros a w' [-> Hs]. apply does_ret. split; [apply data_url_base64|done].
Qed.

Lemma chunk_served o m hub : 0 <= o -> o <= m <= file_size f -> sending_hub o hub ->
  let served := hub_chunk (upload_id n0) o (unchars (btoa (file_slice f o m))) hub in
  (served.1 = true -> sending_hub m served.2) /\ (served.1 = false -> served.2 = hub) /\ (open_hub hub -> served.1 = true /\ open_hub served.2).
Proof.
  intros Ho Hm (u & H1 & H2 & H3 & H4 & H5). unfold hub_chunk. rewrite (hub_find_at _ _ _ H1), decode_unchars. cbn.
  assert (Hlen : Z.of_nat (length (take (Z.to_nat o) bytes)) = o) by (rewrite length_take; unfold file_size in *; lia).
  destruct (decide (hu_state u = Open)) as [E|E].
  - rewrite bool_decide_true by done. rewrite (H5 E), Hlen, Z.eqb_refl, H2, slice_length by lia.
    replace (o + (m - o) <=? file_size f) with true by lia. cbn. split_and!; [|done|].
    + intros _. exists {| hu_size := file_size f; hu_received := take (Z.to_nat o) bytes ++ file_slice f o m; hu_state := Open |}. cbn. rewrite take_slice by lia.
      split_and!; [apply list_lookup_insert_eq; by eapply lookup_lt_Some|done|done|apply prefix_take|done].
    + intros _. split; [done|]. eexists. split; [apply list_lookup_insert_eq; by eapply lookup_lt_Some|done].
  - rewrite bool_decide_false by done. cbn. split_and!; [done|done|]. intros (u' & H1' & E'). congruence.
Qed.

Lemma does_chunk c o w : 0 <= o < file_size f -> 1 <= c -> sending_hub o (w_hub w) ->
  does open_hub open_hub (send_chunk f (upload_id n0) c o) (fun o' hub => o' = Z.min (file_size f) (o + c) /\ sending_hub o' hub) unfinished_hub w.
Proof.
  intros Ho Hc Hs. unfold send_chunk. set (m := Z.min (file_size f) (o + c)).
  enough (Hgo : (flagged w \/ ~ flagged w) -> does open_hub open_hub (if bool_decide (flagged w) then Throw "Attachment upload cancelled"%string else
    let* data := blobToBase64 (file_slice f o m) in let* ok := awaiting (UChunk (upload_id n0) o data) in
    if negb ok then Throw "session.attachment.chunk returned ok=false"%string else
    do* call (UUpdate (with_progress (chunk_progress m (file_size f)))) in Ret m) (fun o' hub => o' = m /\ sending_hub o' hub) unfinished_hub w).
  { assert (Hd : flagged w \/ ~ flagged w) by (destruct (decide (flagged w)); auto). exact (Hgo Hd). }
  intros _. case_bool_decide as Hf; [apply does_throw; [by exists o|by left]|].
  eapply (does_bind _ open_hub); [by apply does_base64|]. intros data w1 [-> Hs1].
  eapply (does_bind _ open_hub _ _ _ (fun ok hub => if (ok : bool) then sending_hub m hub else sending_hub o hub /\ ~ open_hub hub)).
  - apply (does_awaiting open_hub open_hub _ (fun hub => let '(ok, hub) := hub_chunk (upload_id n0) o (unchars (btoa (file_slice f o m))) hub in (inl ok, hub)) (sending_hub o)); try done.
    + intros *. apply sending_le.
    + intros hub ?. by exists o.
    + intros [|] hub hub' Hle; [by apply sending_le|]. intros [H Hn]. split; [by eapply sending_le|]. intros (u' & Hu' & E').
      destruct H as (u & Hu & _). destruct (hub_le_at _ _ _ _ Hle Hu) as (u2 & Hu2 & Hor). assert (u2 = u') as -> by congruence. apply Hn. exists u. split; [done|].
      destruct Hor as [->| ->]; [done|]. destruct (discard_fields u) as (_ & _ & [E|E]); congruence.
    + apply unfinished_le.
    + intros hub H. destruct (chunk_served o m hub ltac:(lia) ltac:(lia) H) as (G1 & G2 & G3). destruct (hub_chunk _ _ _ _) as [[|] hub']; cbn in *; [by apply G1|].
      rewrite (G2 eq_refl). split; [done|]. intros Hop. by destruct (G3 Hop).
    + intros _ hub H. destruct (chunk_served o m hub ltac:(lia) ltac:(lia) H) as (G1 & G2 & G3). destruct (hub_chunk _ _ _ _) as [[|] hub']; cbn in *; [exists m; by apply G1|].
      rewrite (G2 eq_refl). by exists o.
    + intros hub H Hop. destruct (chunk_served o m hub ltac:(lia) ltac:(lia) H) as (G1 & G2 & G3). destruct (G3 Hop) as [E Hop'].
      destruct (hub_chunk _ _ _ _) as [ok hub']; cbn in *. eauto.
  - intros [|] w2 H2; cbn [negb]; [|apply does_throw; [by exists o; destruct H2|right; by destruct H2]].
    eapply (does_bind _ open_hub); [by apply (does_update _ _ _ _ (sending_hub m))|]. intros a w3 H3. by apply does_ret.
Qed.

Lemma does_chunks c fuel o w : 0 <= o <= file_size f -> 1 <= c -> file_size f - o <= Z.of_nat fuel -> sending_hub o (w_hub w) ->
  does open_hub open_hub (send_chunks fuel f (upload_id n0) c o) (fun _ => sending_hub (file_size f)) unfinished_hub w.
Proof.
  revert o w. induction fuel as [|fuel IH]; intros o w Ho Hc Hfuel Hs; cbn [send_chunks]; destruct (Z.ltb_spec o (file_size f)) as [Hlt|Hge]; try lia.
  - apply does_ret. by replace (file_size f) with o by lia.
  - eapply (does_bind _ open_hub); [apply does_chunk; [lia|done|done]|]. intros o' w' [-> Hs']. apply IH; [lia|done|lia|done].
  - apply does_ret. by replace (file_size f) with o by lia.
Qed.
(** ** The end of the upload *)

Definition delivered (hub : list hub_upload) : Prop := exists u, hub !! n0 = Some u /\ hu_size u = file_size f /\ hu_state u = Finished /\ hu_received u = bytes.
Definition as_delivered (a : ChatAttachment) : Prop :=
  ca_status a = Completed /\ ca_progress a = 100 /\ ca_block a = Some (hub_block bytes) /\ ca_attachmentId a = "sha256-" +:+ sha256 bytes.
(** An upload that failed is not finished at the hub, unless an answer was lost. *)
Definition undelivered (hub : list hub_upload) : Prop := unfinished_hub hub \/ ((exists n, deliveries n = Unanswered) /\ sent_hub hub).

Lemma delivered_sent hub : delivered hub -> sent_hub hub.
Proof. intros (u & H1 & H2 & H3 & H4). exists u. rewrite H4. by split_and!. Qed.
Lemma delivered_le hub hub' : hub_le hub hub' -> delivered hub -> delivered hub'.
Proof.
  intros Hle (u & H1 & H2 & H3 & H4). destruct (hub_le_at _ _ _ _ Hle H1) as (u' & H1' & [->| ->]); exists u; [done|].
  unfold discard in H1'. rewrite bool_decide_false in H1' by congruence. done.
Qed.
Lemma delivered_back hub hub' : hub_le hub hub' -> delivered hub' -> delivered hub.
Proof.
  intros Hle (u' & H1 & H2 & H3 & H4). destruct (Forall2_lookup_r _ _ _ _ _ Hle H1) as (u & Hu & Hor). exists u. split; [done|].
  destruct Hor as [->| ->]; [done|]. destruct (discard_fields u) as (E1 & E2 & [F|F]); [|congruence]. by rewrite <- E1, <- E2, <- F.
Qed.
Lemma undelivered_le hub hub' : hub_le hub hub' -> undelivered hub -> undelivered hub'.
Proof. intros Hle [H|[Hn H]]; [left; by eapply unfinished_le|right; split; [done|by eapply sent_le]]. Qed.

Lemma finish_served hub : sending_hub (file_size f) hub -> let served := hub_finish sha256 hub_block (upload_id n0) (sha256 bytes) hub in
  (fa_ok served.1 = true -> delivered served.2 /\ fa_block served.1 = Some (hub_block bytes) /\ fa_attachmentId served.1 = "sha256-" +:+ sha256 bytes /\ sent_hub served.2) /\
  (fa_ok served.1 = false -> served.2 = hub) /\ (open_hub hub -> fa_ok served.1 = true).
Proof.
  intros (u & H1 & H2 & H3 & H4 & H5). unfold hub_finish. rewrite (hub_find_at _ _ _ H1).
  assert (Hfull : take (Z.to_nat (file_size f)) bytes = bytes) by (apply take_ge; unfold file_size; lia).
  destruct (decide (hu_state u = Open)) as [E|E].
  - rewrite bool_decide_true by done. rewrite (H5 E), Hfull, H2. change (Z.of_nat (length bytes)) with (file_size f). rewrite Z.eqb_refl, bool_decide_true by done. cbn. split_and!; try done.
    intros _. set (u' := {| hu_size := _; hu_received := bytes; hu_state := Finished |}). assert (Hu' : <[n0:=u']> hub !! n0 = Some u') by (apply list_lookup_insert_eq; by eapply lookup_lt_Some).
    split_and!; [by exists u'|done|done|]. exists u'. split_and!; done.
  - rewrite bool_decide_false by done. cbn. split_and!; [done|done|]. intros (u' & H1' & E'). congruence.
Qed.

Lemma does_finish w : sending_hub (file_size f) (w_hub w) ->
  does open_hub delivered (awaiting (UFinish (upload_id n0) (sha256 bytes)))
    (fun answer hub => if fa_ok answer then delivered hub /\ fa_block answer = Some (hub_block bytes) /\ fa_attachmentId answer = "sha256-" +:+ sha256 bytes
                       else undelivered hub /\ ~ delivered hub) undelivered w.
Proof.
  intros Hs. apply (does_awaiting open_hub delivered _ (fun hub => let '(answer, hub) := hub_finish sha256 hub_block (upload_id n0) (sha256 bytes) hub in (inl answer, hub)) (sending_hub (file_size f))); try done.
  - intros *. apply sending_le.
  - intros hub ?. left. by exists (file_size f).
  - intros answer hub hub' Hle. destruct (fa_ok answer); intros (H1 & H2); [split; [by eapply delivered_le|done]|]. split; [by eapply undelivered_le|].
    intros Hd. by apply H2, (delivered_back _ _ Hle).
  - intros *. apply undelivered_le.
  - intros hub H. destruct (finish_served hub H) as (G1 & G2 & _). destruct (hub_finish _ _ _ _ _) as [answer hub']; cbn in *. destruct (fa_ok answer).
    + destruct (G1 eq_refl) as (? & ? & ? & _). done.
    + rewrite (G2 eq_refl). split; [left; by exists (file_size f)|]. destruct H as (u & Hu & _ & Hn & _). intros (u' & Hu' & _ & E & _). congruence.
  - intros Hl hub H. destruct (finish_served hub H) as (G1 & G2 & _). destruct (hub_finish _ _ _ _ _) as [answer hub']; cbn in *. destruct (fa_ok answer).
    + destruct (G1 eq_refl) as (_ & _ & _ & ?). by right.
    + rewrite (G2 eq_refl). left. by exists (file_size f).
  - intros hub H Hop. destruct (finish_served hub H) as (G1 & _ & G3). specialize (G3 Hop). destruct (hub_finish _ _ _ _ _) as [answer hub']; cbn in *.
    destruct (G1 G3) as (? & _). eauto.
Qed.

Lemma does_file w name chunkSize : sending_hub 0 (w_hub w) ->
  does open_hub delivered (send_file f attachmentId name (upload_id n0) chunkSize) (fun a hub => delivered hub /\ as_delivered a) undelivered w.
Proof.
  intros Hs. unfold send_file. assert (Hun : forall hub, unfinished_hub hub -> undelivered hub) by (by left).
  eapply (does_bind _ open_hub); [by apply (does_update _ _ _ _ (sending_hub 0))|]. intros a1 w1 H1.
  eapply (does_bind _ open_hub); [eapply does_weaken; [apply does_chunks| |exact Hun]; [unfold file_size; lia|lia|unfold file_size; lia|done|]|]; [intros a hub H; exact H|]. intros a2 w2 H2.
  eapply (does_bind _ open_hub _ _ _ (fun digest hub => digest = sha256 bytes /\ sending_hub (file_size f) hub)).
  - apply (does_awaiting open_hub open_hub (UDigest bytes) (fun hub => (inl (sha256 bytes), hub)) (sending_hub (file_size f))); try done; cbn.
    + intros *. apply sending_le.
    + intros hub ?. left. by exists (file_size f).
    + intros a hub hub' Hle [-> ?]. split; [done|by eapply sending_le].
    + intros *. apply undelivered_le.
    + intros _ hub ?. left. by exists (file_size f).
    + eauto.
  - intros digest w3 [-> H3]. eapply (does_bind _ delivered); [by apply does_finish|]. intros answer w4 H4. cbv beta in H4. destruct (fa_ok answer).
    + destruct H4 as (Hd & E1 & E2). rewrite E1, E2. eapply (does_bind _ delivered); [by apply (does_update _ _ _ _ delivered)|]. intros found w5 H5. apply does_ret. split; [done|].
      by destruct found.
    + destruct H4 as [Hd Hn]. apply does_throw; [done|by right].
Qed.
End at_hub.
(** ** The whole upload *)

Lemma update_flag updater w : flagged (set_composer (updateChatAttachment attachmentId updater draftKey generation (w_composer w)) w) <-> flagged w.
Proof. unfold flagged. cbn. unfold updateChatAttachment. by rewrite apply_cancelled. Qed.
Lemma forgotten l : attachmentId ∉ bfilter (fun id => negb (bool_decide (id = attachmentId))) l.
Proof. rewrite elem_of_bfilter, negb_true_iff, bool_decide_eq_false. naive_solver. Qed.

(** A failed upload is cancelled at the hub, unless the user has done so; its error is thrown
    on, and its flag is gone. *)
Lemma failed_run uploadId message w : let '(r, w') := exec (upload_failed uploadId message) w in
  r = inr message /\ ~ flagged w' /\
  (if nonempty uploadId && negb (bool_decide (flagged w))
   then w_hub w' = (if cancel_arrives then hub_cancel uploadId (w_hub w) else w_hub w) /\ uploadId ∈ w_asked w' else w_hub w' = w_hub w).
Proof.
  unfold upload_failed. rewrite run_bind, run_call. cbn [handle fst snd]. unfold flagged at 2.
  destruct (bool_decide (attachmentId ∈ cp_cancelled (w_composer w))) eqn:E; rewrite ?andb_false_r, ?andb_true_r; cbn [negb].
  - cbn. split; [done|]. split; [unfold flagged; cbn; apply forgotten|done].
  - destruct (nonempty uploadId); cbn; (split; [done|]; split; [unfold flagged; cbn; apply forgotten|]); [|done].
    split; [done|]. apply elem_of_app. right. left.
Qed.

Lemma hub_le_length h h' : hub_le h h' -> length h' = length h.
Proof. intros H. symmetry. by eapply Forall2_length. Qed.
Lemma cancel_discards n hub u : hub !! n = Some u -> hub_cancel (upload_id n) hub !! n = Some (discard u).
Proof. intros H. unfold hub_cancel. rewrite (hub_find_at _ _ _ H). apply list_lookup_insert_eq. by eapply lookup_lt_Some. Qed.
Lemma discard_state u : hu_state u <> Finished -> hu_state (discard u) = Discarded.
Proof. unfold discard. case_bool_decide as E; [done|]. by destruct (hu_state u). Qed.
Lemma unfinished_at n0 hub u : unfinished_hub n0 hub -> hub !! n0 = Some u -> hu_state u <> Finished.
Proof. intros [o (u' & H1 & _ & H2 & _)] H. by simplify_eq. Qed.
Lemma undelivered_sent n0 hub : undelivered n0 hub -> sent_hub n0 hub.
Proof. intros [[o H]|[_ H]]; [by eapply sending_sent|done]. Qed.

(** Asking the hub for an upload. *)
Lemma start_spec name w : exists r w', handle sha256 hub_block hub_chunkSize deliveries cancel_arrives before after attachmentId draftKey generation _ (UStart name (fl_type f) (file_size f)) w = (r, w') /\
  (kept -> flagged w' -> flagged w) /\
  (calm -> exists u, r = inl {| sa_ok := true; sa_uploadId := upload_id (length (w_hub w)); sa_chunkSize := hub_chunkSize |} /\ w_hub w' !! length (w_hub w) = Some u /\ hu_state u = Open /\ (~ flagged w -> ~ flagged w')) /\
  ((r = inr "request failed"%string /\ w_hub w' !! length (w_hub w) = None) \/
   (sending_hub (length (w_hub w)) 0 (w_hub w') /\
     (r = inl {| sa_ok := true; sa_uploadId := upload_id (length (w_hub w)); sa_chunkSize := hub_chunkSize |} \/
      (r = inr "request failed"%string /\ exists n, deliveries n = Unanswered)))).
Proof.
  cbn [handle]. set (serve := fun hub => (inl {| sa_ok := true; sa_uploadId := upload_id (length hub); sa_chunkSize := hub_chunkSize |} : start_answer + string, hub ++ [{| hu_size := file_size f; hu_received := []; hu_state := Open |}])).
  destruct (awaited_spec serve w) as (hub & r & w' & E & Hle & Hcase). pose proof (hub_le_length _ _ Hle) as Hlen. exists r, w'. split; [done|]. split; [|split].
  - intros Hk Hf. apply (awaited_flag serve); [done|by rewrite E].
  - intros Hc. rewrite awaited_calm in E by done. injection E as <- <-. cbn. eexists. split_and!; [done|by apply list_lookup_middle|done|done].
  - destruct Hcase as [[-> Hle']|[Hle' Hr]].
    + left. split; [done|]. apply lookup_ge_None. rewrite (hub_le_length _ _ Hle'), Hlen. lia.
    + right. unfold serve in Hr. cbn [fst] in Hr. rewrite Hlen in Hr. split; [|exact Hr]. apply (sending_le _ _ _ _ Hle'). exists {| hu_size := file_size f; hu_received := []; hu_state := Open |}. cbn.
      split_and!; [rewrite <- Hlen; by apply list_lookup_middle|done|done|apply prefix_nil|done].
Qed.
(** The upload once the hub has given its id. *)
Definition send_and_forget (name uploadId : string) (chunkSize : Z) : upload ChatAttachment :=
  bind (fun r => match r with inl a => do* call UForget in Ret a | inr message => upload_failed uploadId message end)
    (catch (pmap inl (send_file f attachmentId name uploadId chunkSize)) (fun message => Ret (inr message))).

Lemma send_and_forget_run n0 name chunkSize w : sending_hub n0 0 (w_hub w) ->
  let '(r, w') := exec (send_and_forget name (upload_id n0) chunkSize) w in
  (forall a, r = inl a -> delivered n0 (w_hub w') /\ as_delivered a) /\ sent_hub n0 (w_hub w') /\ ~ flagged w' /\
  (forall message, r = inr message -> (forall n, deliveries n <> Unanswered) -> kept -> ~ flagged w -> exists u, w_hub w' !! n0 = Some u /\ upload_id n0 ∈ w_asked w' /\ (cancel_arrives = true -> hu_state u = Discarded)) /\
  (calm -> ~ flagged w -> open_hub n0 (w_hub w) -> exists a, r = inl a).
Proof.
  intros Hs. pose proof (does_file n0 w name chunkSize Hs) as [D1 D2 D3 D4]. unfold send_and_forget. rewrite run_bind, run_catch, run_pmap.
  destruct (exec (send_file f attachmentId name (upload_id n0) chunkSize) w) as [[a|message] w1] eqn:E; cbn [fst snd] in *.
  - destruct (D1 a eq_refl) as [Hd Ha]. cbn. split_and!; [by intros ? [= <-]| |unfold flagged; cbn; apply forgotten|done|eauto].
    by apply delivered_sent.
  - pose proof (failed_run (upload_id n0) message w1) as F. cbn [run]. destruct (exec (upload_failed (upload_id n0) message) w1) as [r w2]. destruct F as (-> & Hf & Hh).
    specialize (D2 message eq_refl). rewrite upload_id_nonempty in Hh. cbn [andb] in Hh.
    assert (Hle : hub_le (w_hub w1) (w_hub w2)) by (destruct (negb _); [destruct Hh as [-> _]; destruct cancel_arrives; [apply hub_cancel_le|reflexivity]|by rewrite Hh]).
    split_and!; [done|eapply sent_le; [exact Hle|by apply undelivered_sent]|done| |].
    + intros m _ Hno Hk Hf0. destruct D2 as [Hu|[[n Hn] _]]; [|by destruct (Hno n)]. rewrite bool_decide_false in Hh by eauto. cbn in Hh.
      destruct Hh as [-> Hasked]. pose proof Hu as [o (u & H1 & _)]. destruct cancel_arrives; [exists (discard u)|by exists u].
      split; [by apply cancel_discards|]. split; [done|]. intros _. apply discard_state. by eapply unfinished_at.
    + intros Hc Hf0 Ho. destruct (D4 Hc Hf0 Ho) as [[a Ha] _]. done.
Qed.
(** C16. Uploading a file to a hub that puts its chunks together, whatever requests fail and
    whatever the user does meanwhile: when it returns an attachment, the hub has exactly the
    bytes of the file and the attachment is completed with their block; the hub never holds
    anything but a prefix of them, and never finishes less; when it fails without an answer
    lost and without the user having removed the attachment, the hub was asked to cancel the
    upload if it has one, and has discarded it if that request, which is not awaited, arrives;
    the mark of a cancelled upload is gone in the end; and with a hub that serves every request
    and a user who waits, it succeeds. *)
Theorem attachment_upload_exact fallbackName w : let '(r, w') := exec (uploadChatAttachmentFile f fallbackName attachmentId) w in
  let n := length (w_hub w) in
  (forall a, r = inl a -> delivered n (w_hub w') /\ as_delivered a) /\
  (forall u, w_hub w' !! n = Some u -> hu_received u `prefix_of` bytes /\ (hu_state u = Finished -> hu_received u = bytes)) /\
  (forall message, r = inr message -> (forall n, deliveries n <> Unanswered) -> kept -> ~ flagged w ->
     forall u, w_hub w' !! n = Some u -> upload_id n ∈ w_asked w' /\ (cancel_arrives = true -> hu_state u = Discarded)) /\
  ~ flagged w' /\
  (calm -> ~ flagged w -> exists a, r = inl a).
Proof.
  unfold uploadChatAttachmentFile. rewrite run_bind, run_call. cbn [handle fst snd]. set (w1 := set_composer _ w).
  assert (Hw1 : w_hub w1 = w_hub w /\ (flagged w1 <-> flagged w)) by (split; [done|apply update_flag]). clearbody w1. destruct Hw1 as [Eh Ef]. rewrite <- Eh. clear Eh.
  rewrite run_bind, run_call. set (name := str_or (fl_name f) fallbackName). destruct (start_spec name w1) as (r & w2 & E & Hflag & Hcalm & Hcase). rewrite E. cbn [fst snd]. clear E.
  set (n := length (w_hub w1)) in *.
  destruct r as [start|message].
  - destruct Hcase as [[? _]|[Hs [[= ->]|[? _]]]]; [done| |done]. cbn [sa_ok sa_uploadId sa_chunkSize negb orb]. rewrite upload_id_nonempty. cbn [negb].
    pose proof (send_and_forget_run n name hub_chunkSize w2 Hs) as Hrun. unfold send_and_forget in Hrun. destruct (exec _ w2) as [r w3]. destruct Hrun as (R1 & R2 & R3 & R4 & R5).
    split_and!; [done| | |done|].
    + intros u Hu. destruct R2 as (u' & H1 & _ & H3 & H4). by simplify_eq.
    + intros message Hr Hno Hk Hf u Hu. destruct (R4 message Hr Hno Hk) as (u' & H1 & H2 & H3); [by intros ?%Hflag%Ef|]. by simplify_eq.
    + intros Hc Hf. destruct (Hcalm Hc) as (u & _ & H1 & H2 & H3). apply R5; [done|apply H3; by rewrite Ef|by exists u].
  - pose proof (failed_run "" message w2) as F. destruct (exec (upload_failed "" message) w2) as [r w3]. destruct F as (-> & Hf & Hh).
    change (nonempty "" && _) with false in Hh. cbv iota in Hh. rewrite Hh.
    split_and!; [done| | |done|].
    + intros u Hu. destruct Hcase as [[_ Hn]|[Hs _]]; [congruence|]. destruct Hs as (u' & H1 & _ & H3 & H4 & _). simplify_eq. by split.
    + intros m _ Hno _ _ u Hu. destruct Hcase as [[_ Hn]|[_ [?|[_ [k Hk]]]]]; [congruence|done|by destruct (Hno k)].
    + intros Hc _. destruct (Hcalm Hc) as (u & ? & _). done.
Qed.
End theorems.

(** ** Runs *)

Definition sample_file : file := {| fl_name := "a.txt"; fl_type := "text/plain"; fl_bytes := chars "hello world" |}.
Definition sample_digest (l : list ascii) : string := unchars (rev l).
Definition sample_block (l : list ascii) : block := [("type", VStr "resource_link"); ("text", VStr (unchars l))]%string.
Definition sample_world : world :=
  {| w_composer := enqueueChatAttachmentFiles [sample_file] "p:s" 0
       {| cp_draftKey := "p:s"; cp_text := "see"; cp_tokens := []; cp_attachments := []; cp_drafts := ∅; cp_generations := ∅; cp_cancelled := []; cp_error := ""; cp_lastId := 0 |};
     w_hub := []; w_calls := 0; w_asked := [] |}.
Definition sample_run (deliveries : nat -> delivery) (after : nat -> list user_move) : (ChatAttachment + string) * world :=
  run (handle sample_digest sample_block 4 deliveries true (fun _ => []) after "chat-attachment-1" "p:s" 0)
    (uploadChatAttachmentFile sample_file "attachment-1" "chat-attachment-1") sample_world.

Example upload_runs : let '(r, w) := sample_run (fun _ => Served) (fun _ => []) in
  (match r with inl a => ca_block a = Some (sample_block (chars "hello world")) | inr _ => False end) /\ w_calls w = 9%nat /\
  map (fun a => (ca_status a, ca_progress a)) (cp_attachments (w_composer w)) = [(Completed, 100)] /\
  map hu_state (w_hub w) = [Finished].
Proof. vm_compute. done. Qed.
(** The user removes the attachment while its second chunk is sent. *)
Example removed_upload : let '(r, w) := sample_run (fun _ => Served) (fun n => if (n =? 4)%nat then [Remove "chat-attachment-1" true] else []) in
  r = inr "Attachment upload cancelled"%string /\ cp_attachments (w_composer w) = [] /\ cp_error (w_composer w) = ""%string /\ map hu_state (w_hub w) = [Discarded].
Proof. vm_compute. done. Qed.
(** A removal before the hub has given the upload its id goes unnoticed: there is nothing to
    cancel yet and no mark is left, so the file is uploaded to its end and the attachment
    handed to the prompt that is being sent. *)
Lemma removed_before_start : let '(r, w) := sample_run (fun _ => Served) (fun n => if (n =? 0)%nat then [Remove "chat-attachment-1" true] else []) in
  (match r with inl a => ca_block a = Some (sample_block (chars "hello world")) | inr _ => False end) /\
  cp_attachments (w_composer w) = [] /\ map hu_state (w_hub w) = [Finished].
Proof. vm_compute. done. Qed.

Lemma attachment_upload_exact_witness :
  let '(r, w') := run (handle sample_digest sample_block 4 (fun _ => Served) true (fun _ => []) (fun _ => []) "chat-attachment-1" "p:s" 0)
    (uploadChatAttachmentFile sample_file "attachment-1" "chat-attachment-1") sample_world in
  exists a, r = inl a /\ ca_status a = Completed /\ ca_attachmentId a = ("sha256-" +:+ sample_digest (chars "hello world"))%string.
Proof.
  pose proof (attachment_upload_exact sample_digest sample_block 4 (fun _ => Served) true (fun _ => []) (fun _ => []) "chat-attachment-1" "p:s" 0 sample_file "attachment-1" sample_world) as H.
  destruct (run _ _ sample_world) as [r w']. destruct H as (H1 & _ & _ & _ & H5).
  destruct H5 as [a ->]; [by intros n|by intros ?%elem_of_nil|]. exists a. split; [reflexivity|]. destruct (H1 a eq_refl) as [_ (Hs & _ & _ & Hid)]. by split.
Defined.

(** ** The composer *)

(** An update reaches the attachment of its draft, there alone, and only while the draft is
    of the generation the upload was started for. *)
Definition attachments_of (draftKey : string) (c : composer) : list ChatAttachment :=
  if bool_decide (draftKey = cp_draftKey c) then cp_attachments c else dr_attachments (default EMPTY_CHAT_COMPOSER_DRAFT (cp_drafts c !! draftKey)).

Lemma save_draft_attachments key text attachments tokens drafts : trim key = key -> nonempty key = true ->
  dr_attachments (default EMPTY_CHAT_COMPOSER_DRAFT (saveDraft key text attachments tokens drafts !! key)) = attachments.
Proof.
  intros E Hn. unfold saveDraft. rewrite E, Hn. cbn [negb].
  destruct (nonempty text || _ || _) eqn:Ed; [by rewrite lookup_insert_eq|]. rewrite lookup_delete_eq. cbn.
  apply orb_false_iff in Ed as [Ed _]. apply orb_false_iff in Ed as [_ Ed]. by apply negb_false_iff, bool_decide_eq_true in Ed.
Qed.
Lemma save_draft_other key text attachments tokens drafts key' : trim key = key -> key <> key' ->
  saveDraft key text attachments tokens drafts !! key' = drafts !! key'.
Proof. intros E Hne. unfold saveDraft. rewrite E. repeat case_match; [done|by rewrite lookup_insert_ne|by rewrite lookup_delete_ne]. Qed.
Lemma stale_update_ignored id updater draftKey gen c : gen <> getChatDraftGeneration (trim draftKey) c -> updateChatAttachment id updater draftKey gen c = c.
Proof. intros H. unfold updateChatAttachment, applyChatAttachments. rewrite bool_decide_false by done. by destruct (nonempty _). Qed.
Lemma update_spec id updater draftKey c : nonempty (trim draftKey) = true ->
  let c' := updateChatAttachment id updater draftKey (getChatDraftGeneration (trim draftKey) c) c in
  attachments_of (trim draftKey) c' = map (update_attachment id updater) (attachments_of (trim draftKey) c) /\
  (forall key, key <> trim draftKey -> attachments_of key c' = attachments_of key c).
Proof.
  intros Hn. unfold updateChatAttachment, applyChatAttachments. rewrite Hn, bool_decide_true by done. cbn [negb]. case_bool_decide as Hk; unfold attachments_of; cbn [with_attachments cp_draftKey cp_attachments cp_drafts].
  - rewrite bool_decide_true by done. split; [done|]. intros key Hne. rewrite bool_decide_false by congruence. by rewrite save_draft_other by (apply trim_trim || congruence).
  - rewrite bool_decide_false by done. split; [by apply save_draft_attachments; [apply trim_trim|]|]. intros key Hne. case_bool_decide; [done|].
    by rewrite save_draft_other by (apply trim_trim || congruence).
Qed.
