(* ===== verification/VoiceFlow.v ===== *)
(** Dictation in the application: the functions around the microphone, the speech stream and
    the composer in [app/WorkspaceApp.tsx], with [features/speech/voiceInputFlow.ts].

    The refs of the component are one state.  Each function runs to its first [await]; what
    it waits for is a call of the state, resumed by an event: the microphone, the speech
    service (over the registry or native), reconnecting, timers, the jobs of the send
    queues.  After every event React commits: the effects that copy [voiceRecording] back
    into its ref and that cancel a dictation whose session is no longer selected run then or
    as an event.  Levels, elapsed times, interaction modes and diagnostics are not
    modelled; the native bridge's preparation of a start is one call. *)

From coqutil Require Import Datatypes.RecordSetters.
From S2P Require Import Prelude Json ChatComposer VoiceInput.
Import DoubleBraceUpdate.
Open Scope Z_scope.

(** * Errors and snapshots *)

(** [error.message], or [String(error)]. *)
Definition error_message (error : value) : string :=
  match error with VObj p => (match prop p "message" with VStr s => s | _ => "" end) | VStr s => s | _ => "" end.
Definition formatVoiceInputDiagnosticError (error : value) : string :=
  let message := error_message error in
  match error with
  | VObj p =>
    match prop p "details" with
    | VObj details => match prop details "error" with VStr providerError => if nonempty providerError then message +:+ ": " +:+ providerError else message | _ => message end
    | _ => message
    end
  | _ => message
  end.
Definition isVoiceInputStartRetryableError (error : value) : bool :=
  let message := toLowerCase (formatVoiceInputDiagnosticError error) in
  includes message "websocket is not connected" || includes message "connect timeout" || includes message "closed during connect" ||
  includes message "connection closed before response" || includes message "request timed out" || includes message "session is not ready" ||
  includes message "speech stream already active".
Definition isVoiceInputStreamRetryableError (error : value) : bool :=
  let message := toLowerCase (formatVoiceInputDiagnosticError error) in
  isVoiceInputStartRetryableError error || includes message "provider disconnected" || includes message "speech provider disconnected" ||
  includes message "speech stream idle timeout".

Record VoiceInputRuntimeSnapshot := {
  rs_generation : Z; rs_expectedRuntimeKey : string; rs_currentRuntimeKey : string; rs_recording : bool; rs_streamId : string; rs_awaitingFinal : bool
}.
Definition isVoiceInputSnapshotContextCurrent (s : VoiceInputRuntimeSnapshot) : bool :=
  negb (nonempty (rs_expectedRuntimeKey s)) || bool_decide (rs_expectedRuntimeKey s = rs_currentRuntimeKey s).
Definition isVoiceInputSnapshotActive (s : VoiceInputRuntimeSnapshot) : bool := rs_recording s || nonempty (rs_streamId s) || rs_awaitingFinal s.
Definition isVoiceGenerationActiveSnapshot (s : VoiceInputRuntimeSnapshot) (generation : Z) : bool :=
  (rs_generation s =? generation) && (rs_recording s || nonempty (rs_streamId s)) && isVoiceInputSnapshotContextCurrent s.

Inductive VoiceRecordingStatus := Permission | Starting | Buffering | Recording | Finishing | Recognizing.
Definition resolveVoiceCaptureReadyStatus (hasStream pendingFinish : bool) : VoiceRecordingStatus :=
  if pendingFinish then Finishing else if hasStream then Recording else Buffering.

(** * The state *)

(** A send queue, with the dictation and the stream it was made for. *)
Record queue_entry := { qe_generation : Z; qe_streamId : string; qe_queue : VoiceInputSendQueue }.

Inductive voice_request :=
  | StartSpeech
  | SendSpeechChunk (streamId : string) (seq : Z) (pcm : string)
  | FinishSpeech (streamId : string)
  | CancelSpeech (streamId reason : string)
  | StopCapture (flush : bool).

(** What is awaited. *)
Inductive voice_call :=
  | AwaitMicrophone (generation : Z)                     (* [startVoiceInput], the microphone *)
  | AwaitNativeStart (generation : Z)                    (* [startVoiceInput], the native runtime *)
  | AwaitConnect (generation : Z)                        (* [runVoiceStartLoop] *)
  | AwaitRetry (generation : Z)
  | AwaitStartSpeech (generation : Z)                    (* [startVoiceRegistryStream] *)
  | AwaitStaleCancel (generation : Z)                    (* its stream came too late *)
  | AwaitNativeStale                                     (* the native one did *)
  | AwaitStreamReady (generation remaining : Z)          (* [waitForVoiceStreamReady] *)
  | AwaitDrain (generation : Z) (queue : option nat)     (* [finishVoiceInput] *)
  | AwaitFinish (generation : Z)
  | AwaitNativeFinish (generation : Z)
  | AwaitCancel (reason : string)                        (* [cancelVoiceInput] *)
  | ChunkRejected (generation : Z) (error : value).      (* [.catch] of [enqueue] *)

Record voice := {
  v_generation : Z; v_captureGeneration : Z; v_capture : bool; v_recording : bool; v_streamId : string;
  v_session : option VoiceInputSession; v_buffer : option VoiceInputBuffer; v_queues : list queue_entry; v_queue : option nat;
  v_pendingFinish : bool; v_awaitingFinal : bool; v_reconnecting : bool; v_remoteStart : bool; v_settings : bool;
  v_runtimeKey : string; v_native : bool; v_timer : option Z;
  v_connected : bool; v_projectId : string; v_selectedKey : string;
  v_text : string; v_cursor : Z; v_error : string;
  v_voiceRecording : bool; v_committed : bool; v_status : VoiceRecordingStatus;
  v_calls : list voice_call; v_requests : list voice_request
}.

Definition currentVoiceInputRuntimeKey (v : voice) : string := str_or (v_selectedKey v) (v_projectId v).
Definition voiceInputReconnectAvailable (v : voice) : bool := nonempty (v_projectId v).
Definition voiceInputRuntimeSnapshot (v : voice) : VoiceInputRuntimeSnapshot :=
  {| rs_generation := v_generation v; rs_expectedRuntimeKey := v_runtimeKey v; rs_currentRuntimeKey := currentVoiceInputRuntimeKey v;
     rs_recording := v_recording v; rs_streamId := v_streamId v; rs_awaitingFinal := v_awaitingFinal v |}.
Definition isVoiceInputContextCurrent (v : voice) : bool := isVoiceInputSnapshotContextCurrent (voiceInputRuntimeSnapshot v).
Definition isVoiceGenerationActive (generation : Z) (v : voice) : bool := isVoiceGenerationActiveSnapshot (voiceInputRuntimeSnapshot v) generation.
Definition isVoiceInputActive (v : voice) : bool := isVoiceInputSnapshotActive (voiceInputRuntimeSnapshot v).

Definition ask (r : voice_request) (v : voice) : voice := v{{ v_requests := v_requests v ++ [r] }}.
Definition waiting (c : voice_call) (v : voice) : voice := v{{ v_calls := v_calls v ++ [c] }}.
Definition setError (message : string) (v : voice) : voice := v{{ v_error := message }}.
Definition setStatus (status : VoiceRecordingStatus) (v : voice) : voice := v{{ v_status := status }}.
(** The text and the cursor of the composer. *)
Definition updateChatComposerText (text : string) (cursor : Z) (v : voice) : voice :=
  v{{ v_text := text; v_cursor := Z.max 0 (Z.min (Z.of_nat (String.length text)) cursor) }}.
(** [queue.cancel()] of the queue that is used. *)
Definition cancel_queue (v : voice) : voice :=
  match v_queue v with
  | Some n => v{{ v_queues := alter (fun e => e{{ qe_queue := queue_cancel (qe_queue e) }}) n (v_queues v) }}
  | None => v
  end.

Definition stopVoiceCapture (flush : bool) (v : voice) : voice :=
  let v := if v_capture v then ask (StopCapture flush) v else v in
  v{{ v_capture := false; v_captureGeneration := 0 }}.
Definition resetVoiceRecordingUi (v : voice) : voice := v{{ v_recording := false; v_voiceRecording := false; v_status := Recording }}.
Definition clearVoiceInputState (v : voice) : voice :=
  let v := cancel_queue v in
  let v := v{{ v_generation := v_generation v + 1; v_timer := None; v_buffer := None; v_queue := None; v_pendingFinish := false;
               v_awaitingFinal := false; v_reconnecting := false; v_remoteStart := false; v_settings := false; v_runtimeKey := "";
               v_native := false }} in
  (resetVoiceRecordingUi v){{ v_streamId := ""; v_session := None }}.

(** [cancelVoiceInput] up to the request it awaits. *)
Definition cancelVoiceInput (reason : string) (restoreComposer : bool) (message : option string) (v : voice) : voice :=
  let streamId := v_streamId v in
  let v := stopVoiceCapture false v in
  let v := match v_session v with
    | Some session => if restoreComposer then let s := session_cancel session in updateChatComposerText (vs_current s) (currentCursor s) v else v
    | None => v
    end in
  let v := clearVoiceInputState v in
  let v := match message with Some m => if nonempty m then setError m v else v | None => v end in
  if nonempty streamId then waiting (AwaitCancel reason) (ask (CancelSpeech streamId reason) v) else v.
Definition cancelVoiceInputByGesture (v : voice) : voice := cancelVoiceInput "gesture" true None v.
(** The answer to the cancellation. *)
Definition cancelAnswered (reason : string) (answer : option value) (v : voice) : voice :=
  match answer with
  | Some error => if bool_decide (reason = "disconnect"%string) then v else setError (error_message error) v
  | None => v
  end.

Definition commitVoiceInputTranscript (v : voice) : voice :=
  match v_session v with
  | None => v
  | Some session => let s := commitLiveTranscript session in updateChatComposerText (vs_current s) (currentCursor s) (v{{ v_session := Some s }})
  end.
Definition finishVoiceInputPreservingTranscript (message : option string) (cancelStream : bool) (v : voice) : voice :=
  let streamId := v_streamId v in
  let native := v_native v in
  let v := clearVoiceInputState (commitVoiceInputTranscript (stopVoiceCapture false v)) in
  let v := match message with Some m => if nonempty m then setError m v else v | None => v end in
  if nonempty streamId && cancelStream && (native || v_connected v) then ask (CancelSpeech streamId "error") v else v.
Definition clearVoiceStreamStateForReconnect (v : voice) : voice := (cancel_queue v){{ v_queue := None; v_streamId := ""; v_remoteStart := false }}.
Definition completeVoiceInputFinalizing (generation : Z) (v : voice) : voice :=
  if negb (v_generation v =? generation) then v else clearVoiceInputState (commitVoiceInputTranscript v).
Definition scheduleVoiceFinalTimeout (generation : Z) (v : voice) : voice := v{{ v_timer := Some generation }}.
Definition finalTimerFires (v : voice) : voice :=
  match v_timer v with Some generation => completeVoiceInputFinalizing generation (v{{ v_timer := None }}) | None => v end.

(** * The stream *)

(** [connect], [startSpeech] or the end of [runVoiceStartLoop]. *)
Definition startVoiceRegistryStream (generation : Z) (v : voice) : voice :=
  if nonempty (v_streamId v) || negb (isVoiceGenerationActive generation v) then v
  else waiting (AwaitStartSpeech generation) (ask StartSpeech v).
Definition runVoiceStartLoop (generation : Z) (v : voice) : voice :=
  if isVoiceGenerationActive generation v && negb (nonempty (v_streamId v)) then
    if v_connected v then startVoiceRegistryStream generation v
    else if voiceInputReconnectAvailable v then waiting (AwaitConnect generation) v
    else cancelVoiceInput "error" true (Some "Connect Registry before using voice input."%string) v
  else v.
Definition connectAnswered (generation : Z) (ok : bool) (v : voice) : voice :=
  if ok then startVoiceRegistryStream generation (v{{ v_connected := true }}) else waiting (AwaitRetry generation) v.
Definition startLoopFailed (generation : Z) (error : value) (v : voice) : voice :=
  if isVoiceInputStartRetryableError error then waiting (AwaitRetry generation) v
  else if negb (isVoiceGenerationActive generation v) then v
  else cancelVoiceInput "error" true (Some (error_message error)) v.

Definition handleVoiceRegistryClosedDuringInput (v : voice) : voice :=
  if v_native v || negb (isVoiceInputActive v) then v else
  let generation := v_generation v in
  let v := clearVoiceStreamStateForReconnect (commitVoiceInputTranscript v) in
  if negb (v_recording v) || v_pendingFinish v || v_awaitingFinal v then v else
  let v := match v_buffer v with Some _ => v | None => v{{ v_buffer := Some (createVoiceInputBuffer (Some VOICE_LONG_TIMEOUT_MS) None) }} end in
  let v := setStatus Buffering (v{{ v_reconnecting := true }}) in
  if v_settings v then runVoiceStartLoop generation v else v.

Definition handleVoiceChunkSendFailure (generation : Z) (error : value) (v : voice) : voice :=
  if negb (isVoiceGenerationActive generation v) then v
  else if negb (v_pendingFinish v) && isVoiceInputStreamRetryableError error then handleVoiceRegistryClosedDuringInput v
  else cancelVoiceInput "error" true (Some (error_message error)) v.

(** What a queue shows: a request, or the rejection of a chunk's promise. *)
Definition queue_effect (e : queue_entry) (v : voice) (f : VoiceInput.effect) : voice :=
  match f with
  | SendChunk seq pcm => ask (SendSpeechChunk (qe_streamId e) seq pcm) v
  | Refused error | Settled (Rejected error) => waiting (ChunkRejected (qe_generation e) error) v
  | Accepted _ | Settled Resolved => v
  end.
Definition queue_does (n : nat) (f : VoiceInputSendQueue -> VoiceInputSendQueue * list VoiceInput.effect) (v : voice) : voice :=
  match v_queues v !! n with
  | None => v
  | Some e =>
    let '(q, effects) := f (qe_queue e) in
    let e := e{{ qe_queue := q }} in
    foldl (queue_effect e) (v{{ v_queues := <[n := e]> (v_queues v) }}) effects
  end.
Definition enqueue_chunk (n : nat) (chunk : VoiceInput.bytes) (v : voice) : voice := queue_does n (fun q => enqueue q chunk) v.
Definition flushVoiceInputBufferToQueue (generation : Z) (v : voice) : voice :=
  match v_queue v, v_buffer v with
  | Some n, Some buffer =>
    if isVoiceGenerationActive generation v then
      let '(buffer, chunks) := buffer_drain buffer in
      foldl (fun v chunk => enqueue_chunk n chunk v) (v{{ v_buffer := Some buffer }}) chunks
    else v
  | _, _ => v
  end.
(** The answer to [startSpeech]. *)
Definition speechStarted (generation : Z) (answer : string + value) (v : voice) : voice :=
  match answer with
  | inr error => startLoopFailed generation error v
  | inl streamId =>
    if negb (nonempty streamId) then startLoopFailed generation (VObj [("message"%string, VStr "speech.start returned no streamId")]) v
    else if negb (isVoiceGenerationActive generation v) then waiting (AwaitStaleCancel generation) (ask (CancelSpeech streamId "gesture") v)
    else
      let entry := {| qe_generation := generation; qe_streamId := streamId; qe_queue := createVoiceInputSendQueue |} in
      let v := v{{ v_streamId := streamId; v_remoteStart := true; v_queue := Some (length (v_queues v)); v_queues := v_queues v ++ [entry] }} in
      let v := setStatus (if v_pendingFinish v then Finishing else Recording) v in
      flushVoiceInputBufferToQueue generation (v{{ v_reconnecting := false }})
  end.

(** * The microphone *)

Definition handleVoicePCMChunk (generation : Z) (chunk : VoiceInput.bytes) (v : voice) : voice :=
  if negb (isVoiceGenerationActive generation v) || v_pendingFinish v then v else
  match v_queue v, v_buffer v with
  | Some n, _ => enqueue_chunk n chunk v
  | None, Some buffer =>
    let '(buffer, taken) := append buffer chunk in
    let v := v{{ v_buffer := Some buffer }} in
    if negb taken then finishVoiceInputPreservingTranscript (Some "Registry connection is too slow for voice input. Recognized text was kept."%string) true v else v
  | None, None => v
  end.
Definition captureReady (v : voice) : voice :=
  let generation := v_captureGeneration v in
  if (generation <=? 0) || negb (isVoiceGenerationActive generation v) then v else
  let v := setStatus (resolveVoiceCaptureReadyStatus (nonempty (v_streamId v)) (v_pendingFinish v)) v in
  if v_remoteStart v || negb (v_settings v) then v else runVoiceStartLoop generation (v{{ v_remoteStart := true }}).
Definition captureChunk (chunk : VoiceInput.bytes) (v : voice) : voice :=
  if 0 <? v_captureGeneration v then handleVoicePCMChunk (v_captureGeneration v) chunk v else v.
Definition captureEnded (v : voice) : voice :=
  if v_recording v || nonempty (v_streamId v)
  then finishVoiceInputPreservingTranscript (Some "Microphone capture ended. Recognized text was kept."%string) true v else v.

(** * Starting and finishing *)

Record start_options := { so_enabled : bool; so_nativeHost : bool; so_nativeRuntime : bool; so_selection : option (string * Z * Z) }.
Definition startVoiceInput (o : start_options) (v : voice) : voice :=
  if v_recording v || nonempty (v_streamId v) || v_awaitingFinal v then v
  else if negb (so_enabled o) then v
  else if so_nativeHost o && negb (so_nativeRuntime o) then setError "Android native speech is unavailable." v
  else if negb (v_connected v) && negb (voiceInputReconnectAvailable v) then setError "Connect Registry before using voice input." v
  else
    let baseText := match so_selection o with Some (text, _, _) => text | None => v_text v end in
    let insertStart := match so_selection o with Some (_, start, _) => start | None => Z.of_nat (String.length baseText) end in
    let insertEnd := match so_selection o with Some (_, _, stop) => stop | None => insertStart end in
    let generation := v_generation v + 1 in
    let v := v{{ v_generation := generation; v_session := Some (createVoiceInputSession baseText insertStart insertEnd);
      v_buffer := if so_nativeHost o then None else Some (createVoiceInputBuffer (Some VOICE_LONG_TIMEOUT_MS) None); v_queue := None;
      v_pendingFinish := false; v_awaitingFinal := false; v_reconnecting := false; v_remoteStart := false; v_settings := true;
      v_runtimeKey := currentVoiceInputRuntimeKey v; v_native := so_nativeHost o;
      v_captureGeneration := if so_nativeHost o then 0 else generation; v_recording := true; v_voiceRecording := true;
      v_status := Permission; v_error := "" }} in
    waiting (if so_nativeHost o then AwaitNativeStart generation else AwaitMicrophone generation) v.
Definition startFailed (message : string) (v : voice) : voice :=
  let activeStreamId := v_streamId v in
  let v := clearVoiceInputState (stopVoiceCapture false v) in
  setError message (if nonempty activeStreamId then ask (CancelSpeech activeStreamId "error") v else v).
Definition microphoneAnswered (generation : Z) (answer : option value) (v : voice) : voice :=
  match answer with
  | Some error => startFailed (error_message error) v
  | None =>
    if negb (v_captureGeneration v =? generation) || negb (isVoiceGenerationActive generation v) then ask (StopCapture false) v
    else setStatus Starting (v{{ v_capture := true }})
  end.
Definition nativeStarted (generation : Z) (answer : string + value) (v : voice) : voice :=
  match answer with
  | inr error => startFailed (error_message error) v
  | inl streamId =>
    if negb (nonempty streamId) then startFailed "Android native speech returned no streamId." v
    else if negb (isVoiceGenerationActive generation v) then waiting AwaitNativeStale (ask (CancelSpeech streamId "gesture") v)
    else setStatus Buffering (v{{ v_streamId := streamId; v_remoteStart := true }})
  end.

(** After the chunks are sent. *)
Definition finish_drained (generation : Z) (v : voice) : voice :=
  if negb (nonempty (v_streamId v)) || negb (isVoiceGenerationActive generation v) then v
  else waiting (AwaitFinish generation) (ask (FinishSpeech (v_streamId v)) v).
Definition finish_failed (generation : Z) (error : value) (v : voice) : voice :=
  if negb (isVoiceGenerationActive generation v) then v else finishVoiceInputPreservingTranscript (Some (error_message error)) true v.
Definition finish_stream (generation : Z) (v : voice) : voice :=
  match v_queue v with Some n => waiting (AwaitDrain generation (Some n)) v | None => finish_drained generation v end.
(** A turn of [waitForVoiceStreamReady], and what follows its end. *)
Definition waitForVoiceStreamReady (generation remaining : Z) (v : voice) : voice :=
  let not_ready v := cancelVoiceInput "error" true (Some "Registry reconnect timed out before voice input could finish."%string) v in
  if isVoiceGenerationActive generation v then
    if nonempty (v_streamId v) && bool_decide (v_queue v <> None) then finish_stream generation v
    else if remaining <=? 0 then not_ready v
    else waiting (AwaitStreamReady generation (remaining - Z.min 1000 remaining)) v
  else not_ready v.
Definition finishVoiceInput (v : voice) : voice :=
  let generation := v_generation v in
  let streamId := v_streamId v in
  if v_native v then
    let v := setStatus Finishing (v{{ v_pendingFinish := true }}) in
    if negb (nonempty streamId) then cancelVoiceInput "error" true (Some "Android native speech did not return a stream."%string) v
    else waiting (AwaitNativeFinish generation) (ask (FinishSpeech streamId) v)
  else
    let v := setStatus Finishing ((stopVoiceCapture true v){{ v_pendingFinish := true }}) in
    if negb (nonempty streamId) then waitForVoiceStreamReady generation VOICE_LONG_TIMEOUT_MS v else finish_stream generation v.
Definition finishAnswered (generation : Z) (answer : option value) (v : voice) : voice :=
  match answer with
  | Some error => finish_failed generation error v
  | None => scheduleVoiceFinalTimeout generation (v{{ v_awaitingFinal := true; v_recording := false; v_voiceRecording := true; v_status := Recognizing }})
  end.
Definition nativeFinishAnswered (generation : Z) (answer : option value) (v : voice) : voice :=
  match answer with Some error => finish_failed generation error v | None => v end.

(** * What the services tell *)

Definition handleVoiceSpeechTranscriptEvent (streamId text : string) (final : bool) (v : voice) : voice :=
  match v_session v with
  | None => v
  | Some session =>
    if negb (bool_decide (streamId = v_streamId v)) then v
    else if negb (isVoiceInputContextCurrent v) then cancelVoiceInput "gesture" false None v
    else
      let v := if nonempty text then let s := applyTranscript session text in updateChatComposerText (vs_current s) (currentCursor s) (v{{ v_session := Some s }}) else v in
      if final then let v := stopVoiceCapture false v in completeVoiceInputFinalizing (v_generation v) v else v
  end.
Definition handleVoiceSpeechErrorEvent (message : string) (retryable : bool) (v : voice) : voice :=
  if negb (v_native v) && retryable && v_recording v && negb (v_pendingFinish v) then handleVoiceRegistryClosedDuringInput v
  else finishVoiceInputPreservingTranscript (Some message) false v.
(** An error for another stream is not for this dictation. *)
Definition for_another (streamId : string) (v : voice) : bool := nonempty streamId && negb (bool_decide (streamId = v_streamId v)).

Inductive AndroidNativeSpeechEvent :=
  | NativeError (streamId message : string) (retryable : bool)
  | NativeStatus (streamId : string) (status : VoiceRecordingStatus)
  | NativeTranscript (streamId text : string) (final : bool)
  | NativeClosed (streamId : string) (finished : bool).
Definition handleAndroidNativeSpeechEvent (event : AndroidNativeSpeechEvent) (v : voice) : voice :=
  match event with
  | NativeError streamId message retryable => if for_another streamId v then v else handleVoiceSpeechErrorEvent message retryable v
  | NativeStatus streamId status => if bool_decide (streamId = v_streamId v) then setStatus status v else v
  | NativeTranscript streamId text final => handleVoiceSpeechTranscriptEvent streamId text final v
  | NativeClosed streamId finished =>
    if bool_decide (streamId = v_streamId v) && negb finished then finishVoiceInputPreservingTranscript None true v else v
  end.

Definition registryClosed (v : voice) : voice :=
  let v := v{{ v_connected := false }} in if isVoiceInputActive v then handleVoiceRegistryClosedDuringInput v else v.
(** The effect of another selected session or project. *)
Definition contextEffect (v : voice) : voice :=
  if negb (v_recording v) && negb (nonempty (v_streamId v)) then v
  else if isVoiceInputContextCurrent v then v
  else cancelVoiceInput "gesture" false None v.

(** * Events *)

Inductive voice_event :=
  | UserStarts (o : start_options)
  | UserFinishes
  | UserCancels
  | UserTypes (text : string) (cursor : Z)
  | UserSelects (selectedKey projectId : string)
  | ContextEffect
  | CaptureReady
  | CaptureChunk (chunk : VoiceInput.bytes)
  | CaptureEnded
  | TranscriptEvent (streamId text : string) (final : bool)
  | ErrorEvent (streamId message : string) (retryable : bool)
  | NativeEvent (event : AndroidNativeSpeechEvent)
  | RegistryClosed
  | FinalTimer
  | QueueStarts (n : nat)
  | QueueAnswered (n : nat) (answer : option value)
  | Resumed (k : nat) (answer : string + value).

Definition failure {A} (answer : A + value) : option value := match answer with inl _ => None | inr error => Some error end.
Definition resume_call (c : voice_call) (answer : string + value) (v : voice) : option voice :=
  match c with
  | AwaitMicrophone generation => Some (microphoneAnswered generation (failure answer) v)
  | AwaitNativeStart generation => Some (nativeStarted generation answer v)
  | AwaitNativeStale => Some (match answer with inl _ => v | inr error => startFailed (error_message error) v end)
  | AwaitConnect generation => Some (connectAnswered generation (match answer with inl _ => true | inr _ => false end) v)
  | AwaitRetry generation => Some (runVoiceStartLoop generation v)
  | AwaitStartSpeech generation => Some (speechStarted generation answer v)
  | AwaitStaleCancel generation => Some (match answer with inl _ => runVoiceStartLoop generation v | inr error => startLoopFailed generation error v end)
  | AwaitStreamReady generation remaining => Some (waitForVoiceStreamReady generation remaining v)
  | AwaitDrain generation queue =>
    e ← queue ≫= (fun n => v_queues v !! n);
    if bool_decide (vq_running (qe_queue e) = None) && bool_decide (vq_waiting (qe_queue e) = []) then
      Some (match drain_outcome (qe_queue e) with Resolved => finish_drained generation v | Rejected error => finish_failed generation error v end)
    else None
  | AwaitFinish generation => Some (finishAnswered generation (failure answer) v)
  | AwaitNativeFinish generation => Some (nativeFinishAnswered generation (failure answer) v)
  | AwaitCancel reason => Some (cancelAnswered reason (failure answer) v)
  | ChunkRejected generation error => Some (handleVoiceChunkSendFailure generation error v)
  end.

(** The effect that copies the state [voiceRecording] into its ref when it has changed. *)
Definition commit (v : voice) : voice :=
  if Bool.eqb (v_voiceRecording v) (v_committed v) then v else v{{ v_recording := v_voiceRecording v; v_committed := v_voiceRecording v }}.

Definition voice_handle (e : voice_event) (v : voice) : option voice :=
  match e with
  | UserStarts o => Some (startVoiceInput o v)
  | UserFinishes => if v_voiceRecording v then Some (finishVoiceInput v) else None
  | UserCancels => if v_voiceRecording v then Some (cancelVoiceInputByGesture v) else None
  | UserTypes text cursor => if v_recording v || v_awaitingFinal v then None else Some (updateChatComposerText text cursor v)
  | UserSelects selectedKey projectId => Some (v{{ v_selectedKey := selectedKey; v_projectId := projectId }})
  | ContextEffect => Some (contextEffect v)
  | CaptureReady => Some (captureReady v)
  | CaptureChunk chunk => Some (captureChunk chunk v)
  | CaptureEnded => Some (captureEnded v)
  | TranscriptEvent streamId text final => Some (handleVoiceSpeechTranscriptEvent streamId text final v)
  | ErrorEvent streamId message retryable => Some (if for_another streamId v then v else handleVoiceSpeechErrorEvent message retryable v)
  | NativeEvent event => Some (handleAndroidNativeSpeechEvent event v)
  | RegistryClosed => Some (registryClosed v)
  | FinalTimer => match v_timer v with Some _ => Some (finalTimerFires v) | None => None end
  | QueueStarts n =>
    e ← v_queues v !! n;
    match vq_running (qe_queue e), vq_waiting (qe_queue e) with
    | None, chunk :: rest => Some (queue_does n (fun q => runChunk q chunk rest) v)
    | _, _ => None
    end
  | QueueAnswered n answer =>
    e ← v_queues v !! n;
    match vq_running (qe_queue e) with
    | Some _ => Some (queue_does n (fun q => match answer with None => chunkSent q | Some error => chunkFailed q error end) v)
    | None => None
    end
  | Resumed k answer =>
    c ← v_calls v !! k;
    resume_call c answer (v{{ v_calls := delete k (v_calls v) }})
  end.
Definition voice_step (e : voice_event) (v : voice) : option voice := commit <$> voice_handle e v.
Fixpoint voice_run (es : list voice_event) (v : voice) : option voice :=
  match es with [] => Some v | e :: es => v ← voice_step e v; voice_run es v end.

(** * A dictation always has a way to its end *)

Definition call_generation (c : voice_call) : option Z :=
  match c with
  | AwaitMicrophone g | AwaitNativeStart g | AwaitConnect g | AwaitRetry g | AwaitStartSpeech g | AwaitStaleCancel g
  | AwaitStreamReady g _ | AwaitDrain g _ | AwaitFinish g | AwaitNativeFinish g | ChunkRejected g _ => Some g
  | AwaitNativeStale | AwaitCancel _ => None
  end.
(** The dictation a call of [finishVoiceInput] is for, and one that waits for the chunks. *)
Definition finish_generation (c : voice_call) : option Z :=
  match c with AwaitStreamReady g _ | AwaitDrain g _ | AwaitFinish g | AwaitNativeFinish g => Some g | _ => None end.
Definition drain_generation (c : voice_call) : option Z := match c with AwaitDrain g _ => Some g | _ => None end.

(** What the interleavings that the code does not handle are: a finished stream that answers
    after its dictation is over, a close while the last chunks are sent, and a selection
    before the effect of the one before. *)
Definition orderly (e : voice_event) (v : voice) : bool :=
  match e with
  | Resumed k (inl _) => match v_calls v !! k with Some (AwaitFinish g) => g =? v_generation v | _ => true end
  | RegistryClosed => forallb (fun c => negb (bool_decide (drain_generation c = Some (v_generation v)))) (v_calls v)
  | UserSelects _ _ => isVoiceInputContextCurrent v || negb (v_recording v || nonempty (v_streamId v))
  | _ => true
  end.
Fixpoint orderly_run (es : list voice_event) (v : voice) : bool :=
  match es with
  | [] => true
  | e :: es => orderly e v && match voice_step e v with Some v => orderly_run es v | None => true end
  end.

Definition recent (v : voice) (g : Z) : Prop := g <= v_generation v /\ (v_session v = None -> g < v_generation v).
Record bounded (v : voice) : Prop := {
  bd_calls : Forall (fun c => forall g, call_generation c = Some g -> recent v g) (v_calls v);
  bd_queues : Forall (fun e => recent v (qe_generation e)) (v_queues v)
}.
Record idle (v : voice) : Prop := {
  i_recording : v_recording v = false; i_streamId : v_streamId v = ""; i_awaiting : v_awaitingFinal v = false;
  i_session : v_session v = None; i_timer : v_timer v = None; i_queue : v_queue v = None; i_buffer : v_buffer v = None;
  i_pending : v_pendingFinish v = false; i_shown : v_voiceRecording v = false
}.
Record dictating (v : voice) : Prop := {
  d_session : v_session v <> None;
  d_shown : v_voiceRecording v = true;
  d_phase : if v_awaitingFinal v then v_timer v = Some (v_generation v) /\ v_committed v = true else v_recording v = true;
  d_finish : Forall (fun c => finish_generation c = Some (v_generation v) -> v_pendingFinish v = true) (v_calls v);
  d_drain : v_awaitingFinal v = false -> Forall (fun c => drain_generation c = Some (v_generation v) -> nonempty (v_streamId v) = true) (v_calls v);
  d_native : Forall (fun c => c = AwaitNativeFinish (v_generation v) -> v_native v = true /\ nonempty (v_streamId v) = true) (v_calls v)
}.
(** What will move a dictation on: it still listens, the native runtime or a call of
    [finishVoiceInput] is to answer, the timer is set, or the effect is to cancel it. *)
Definition moving (v : voice) : Prop :=
  v_awaitingFinal v = true \/ v_pendingFinish v = false \/ (v_native v = true /\ nonempty (v_streamId v) = true) \/
  isVoiceInputContextCurrent v = false \/ Exists (fun c => finish_generation c = Some (v_generation v)) (v_calls v).
Definition sound (v : voice) : Prop := bounded v /\ (idle v \/ (dictating v /\ moving v)).

(** ** Steps that leave the dictation where it is *)

Record grows (v w : voice) : Prop := {
  g_calls : exists extra, v_calls w = v_calls v ++ extra /\ Forall (fun c => finish_generation c = None /\ forall g, call_generation c = Some g -> recent v g) extra;
  g_queues : Forall (fun e => recent v (qe_generation e)) (v_queues v) -> Forall (fun e => recent v (qe_generation e)) (v_queues w);
  g_generation : v_generation w = v_generation v; g_recording : v_recording w = v_recording v; g_stream : v_streamId w = v_streamId v;
  g_session : v_session w = None <-> v_session v = None; g_buffer : v_session v = None -> v_buffer v = None -> v_buffer w = None;
  g_queue : v_session v = None -> v_queue w = v_queue v;
  g_pending : v_pendingFinish w = v_pendingFinish v; g_awaiting : v_awaitingFinal w = v_awaitingFinal v; g_native : v_native w = v_native v;
  g_timer : v_timer w = v_timer v; g_shown : v_voiceRecording w = v_voiceRecording v; g_committed : v_committed w = v_committed v;
  g_key : v_runtimeKey w = v_runtimeKey v; g_project : v_projectId w = v_projectId v; g_selected : v_selectedKey w = v_selectedKey v
}.

Lemma grows_recent v w g : grows v w -> recent v g <-> recent w g.
Proof. intros G. unfold recent. rewrite (g_generation _ _ G). pose proof (g_session _ _ G). tauto. Qed.
Lemma voice_grows_refl v : grows v v.
Proof. split; try done. exists []. by rewrite app_nil_r. Qed.
Lemma voice_grows_trans u v w : grows u v -> grows v w -> grows u w.
Proof.
  intros G H. pose proof (fun g => grows_recent _ _ g G) as R. destruct (g_calls _ _ G) as (a & Ea & Fa), (g_calls _ _ H) as (b & Eb & Fb).
  split; try (etransitivity; [by destruct H | by destruct G]).
  - exists (a ++ b). rewrite Eb, Ea, (assoc_L (++)). split; [done|]. apply Forall_app. split; [done|].
    eapply Forall_impl; [exact Fb|]. intros c [? X]. split; [done|]. intros g Eg. apply R. by apply X.
  - intros Q. eapply Forall_impl; [apply (g_queues _ _ H); eapply Forall_impl; [exact (g_queues _ _ G Q)|]|]; intros e; apply R.
  - intros S X. apply (g_buffer _ _ H); [by apply (g_session _ _ G)|by apply (g_buffer _ _ G)].
  - intros S. rewrite (g_queue _ _ H), (g_queue _ _ G); [done|done|by apply (g_session _ _ G)].
Qed.
Ltac quiet := split; cbn; try done; try (exists []; by rewrite app_nil_r).
Lemma ask_grows r v : grows v (ask r v).
Proof. quiet. Qed.
Lemma setError_grows m v : grows v (setError m v).
Proof. quiet. Qed.
Lemma setStatus_grows s v : grows v (setStatus s v).
Proof. quiet. Qed.
Lemma text_grows t c v : grows v (updateChatComposerText t c v).
Proof. quiet. Qed.
Lemma stop_grows f v : grows v (stopVoiceCapture f v).
Proof. unfold stopVoiceCapture. destruct (v_capture v); quiet. Qed.
Lemma waiting_grows c v : finish_generation c = None -> (forall g, call_generation c = Some g -> recent v g) -> grows v (waiting c v).
Proof. intros E R. split; cbn; try done. exists [c]. split; [done|]. constructor; [by split|constructor]. Qed.
Lemma cancel_queue_grows v : grows v (cancel_queue v).
Proof.
  unfold cancel_queue. destruct (v_queue v) as [n|] eqn:E; [|apply voice_grows_refl]. split; cbn; try done; [exists []; by rewrite app_nil_r|].
  intros Q. apply Forall_alter; [done|]. intros e _ X. exact X.
Qed.
Lemma commit_transcript_grows v : grows v (commitVoiceInputTranscript v).
Proof. unfold commitVoiceInputTranscript. destruct (v_session v) as [s|] eqn:E; [|apply voice_grows_refl]. quiet. by rewrite E. Qed.
Lemma queue_effect_grows e v f : recent v (qe_generation e) -> grows v (queue_effect e v f).
Proof.
  intros R. destruct f as [chunk|seq pcm|error|[|error]]; cbn; try apply voice_grows_refl; try apply ask_grows;
    apply waiting_grows; try done; intros g [= <-]; done.
Qed.
Lemma queue_effects_grow e effects v : recent v (qe_generation e) -> grows v (foldl (queue_effect e) v effects).
Proof.
  revert v. induction effects as [|f effects IH]; intros v R; [apply voice_grows_refl|]. cbn.
  pose proof (queue_effect_grows e v f R) as G. apply (voice_grows_trans _ _ _ G), IH. by apply (grows_recent _ _ _ G).
Qed.
Lemma queue_does_grows n f v : bounded v -> grows v (queue_does n f v).
Proof.
  intros B. unfold queue_does. destruct (v_queues v !! n) as [e|] eqn:E; [|apply voice_grows_refl]. destruct (f (qe_queue e)) as [q effects].
  pose proof (Forall_lookup_1 _ _ _ _ (bd_queues _ B) E) as R. cbn in R.
  eapply voice_grows_trans; [|apply queue_effects_grow; cbn; exact R]. quiet. intros Q. apply Forall_insert; [done|exact R].
Qed.

Lemma grows_bounded v w : grows v w -> bounded v -> bounded w.
Proof.
  intros G [C Q]. destruct (g_calls _ _ G) as (extra & E & F). split.
  - rewrite E. apply Forall_app. split; [eapply Forall_impl; [exact C|]|eapply Forall_impl; [exact F|]]; cbn.
    + intros c X g Eg. apply (grows_recent v w g G). auto.
    + intros c [_ X] g Eg. apply (grows_recent v w g G). auto.
  - eapply Forall_impl; [exact (g_queues _ _ G Q)|]. intros e. apply (grows_recent v w _ G).
Qed.
Lemma grows_dictating v w : grows v w -> dictating v -> dictating w.
Proof.
  intros G [S V P F D N]. destruct (g_calls _ _ G) as (extra & E & X).
  assert (forall c, drain_generation c <> None -> finish_generation c <> None) as DF by (by intros []).
  split.
  - by rewrite (g_session _ _ G).
  - by rewrite (g_shown _ _ G).
  - rewrite (g_awaiting _ _ G), (g_timer _ _ G), (g_generation _ _ G), (g_committed _ _ G), (g_recording _ _ G). done.
  - rewrite E, (g_generation _ _ G), (g_pending _ _ G). apply Forall_app. split; [done|].
    eapply Forall_impl; [exact X|]. intros c [Z _] Y. congruence.
  - rewrite E, (g_generation _ _ G), (g_awaiting _ _ G), (g_stream _ _ G). intros A. apply Forall_app. split; [auto|].
    eapply Forall_impl; [exact X|]. intros c [Z _] Y. exfalso. apply (DF c); [congruence|done].
  - rewrite E, (g_generation _ _ G), (g_native _ _ G), (g_stream _ _ G). apply Forall_app. split; [done|].
    eapply Forall_impl; [exact X|]. by intros c [Z _] ->.
Qed.
Lemma grows_context v w : grows v w -> isVoiceInputContextCurrent w = isVoiceInputContextCurrent v.
Proof.
  intros G. unfold isVoiceInputContextCurrent, isVoiceInputSnapshotContextCurrent, voiceInputRuntimeSnapshot, currentVoiceInputRuntimeKey. cbn.
  by rewrite (g_key _ _ G), (g_project _ _ G), (g_selected _ _ G).
Qed.
Lemma grows_active g v w : grows v w -> isVoiceGenerationActive g w = isVoiceGenerationActive g v.
Proof.
  intros G. pose proof (grows_context v w G) as C. unfold isVoiceGenerationActive, isVoiceGenerationActiveSnapshot. fold (isVoiceInputContextCurrent w) (isVoiceInputContextCurrent v).
  cbn. by rewrite C, (g_generation _ _ G), (g_recording _ _ G), (g_stream _ _ G).
Qed.
Lemma grows_moving v w : grows v w -> moving v -> moving w.
Proof.
  intros G. unfold moving. rewrite (g_awaiting _ _ G), (g_pending _ _ G), (g_native _ _ G), (g_stream _ _ G), (grows_context v w G), (g_generation _ _ G).
  destruct (g_calls _ _ G) as (extra & -> & _). rewrite Exists_app. tauto.
Qed.
Lemma grows_idle v w : grows v w -> idle v -> idle w.
Proof.
  intros G [? ? ? ? ? ? ? ? ?]. pose proof (g_session _ _ G). pose proof (g_buffer _ _ G).
  split; [rewrite (g_recording _ _ G)|rewrite (g_stream _ _ G)|rewrite (g_awaiting _ _ G)| |rewrite (g_timer _ _ G)|rewrite (g_queue _ _ G)| |rewrite (g_pending _ _ G)|rewrite (g_shown _ _ G)]; tauto.
Qed.
Lemma grows_sound v w : grows v w -> sound v -> sound w.
Proof.
  intros G [B [I|[D M]]]; (split; [by apply (grows_bounded v)|]); [left; by apply (grows_idle v)|right].
  split; [by apply (grows_dictating v)|by apply (grows_moving v)].
Qed.

(** ** Ends and starts *)

Lemma sound_bounded v : sound v -> bounded v.
Proof. by intros []. Qed.
#[local] Hint Resolve sound_bounded : core.
Lemma recent_le v g : recent v g -> g <= v_generation v.
Proof. by intros []. Qed.
Definition ended (v : voice) : Prop := bounded v /\ idle v.
Lemma grows_ended v w : grows v w -> ended v -> ended w.
Proof. intros G [B I]. split; [by apply (grows_bounded v)|by apply (grows_idle v)]. Qed.
Lemma ended_sound v : ended v -> sound v.
Proof. intros [B I]. split; [done|by left]. Qed.
Lemma clear_ended v : bounded v -> ended (clearVoiceInputState v).
Proof.
  intros B. pose proof (grows_bounded _ _ (cancel_queue_grows v) B) as [C Q]. pose proof (g_generation _ _ (cancel_queue_grows v)) as E.
  set (w := clearVoiceInputState v). assert (v_generation w = v_generation (cancel_queue v) + 1) as G by done.
  assert (forall g, recent (cancel_queue v) g -> recent w g) as R by (intros g X%recent_le; unfold recent; rewrite G; lia).
  split; [|done]. split.
  - eapply Forall_impl; [exact C|]. cbn. eauto.
  - eapply Forall_impl; [exact Q|]. cbn. eauto.
Qed.
Lemma clear_sound v : bounded v -> sound (clearVoiceInputState v).
Proof. intros B. by apply ended_sound, clear_ended. Qed.
Lemma cancelVoiceInput_ends reason restore message v : bounded v -> ended (cancelVoiceInput reason restore message v).
Proof.
  intros B. unfold cancelVoiceInput. set (u := match v_session (stopVoiceCapture false v) with Some _ => _ | None => _ end).
  assert (ended (clearVoiceInputState u)) as S.
  { apply clear_ended. eapply grows_bounded; [|exact B]. eapply voice_grows_trans; [apply (stop_grows false)|]. unfold u.
    destruct (v_session _); [destruct restore|]; try apply voice_grows_refl; apply text_grows. }
  set (w := match message with Some m => _ | None => _ end).
  assert (ended w) as W. { unfold w. destruct message as [m|]; [destruct (nonempty m)|]; try done. by eapply grows_ended; [apply setError_grows|]. }
  destruct (nonempty _); [|done]. eapply grows_ended; [|exact W]. eapply voice_grows_trans; [apply ask_grows|]. by apply waiting_grows.
Qed.
Lemma cancelVoiceInput_sound reason restore message v : bounded v -> sound (cancelVoiceInput reason restore message v).
Proof. intros B. by apply ended_sound, cancelVoiceInput_ends. Qed.
Lemma preserve_sound message cancelStream v : bounded v -> sound (finishVoiceInputPreservingTranscript message cancelStream v).
Proof.
  intros B. unfold finishVoiceInputPreservingTranscript.
  assert (sound (clearVoiceInputState (commitVoiceInputTranscript (stopVoiceCapture false v)))) as S.
  { apply clear_sound. eapply grows_bounded; [|exact B]. eapply voice_grows_trans; [apply stop_grows|apply commit_transcript_grows]. }
  set (w := match message with Some m => _ | None => _ end).
  assert (sound w) as W. { unfold w. destruct message as [m|]; [destruct (nonempty m)|]; try done. by eapply grows_sound; [apply setError_grows|]. }
  destruct (_ && _); [|done]. by eapply grows_sound; [apply ask_grows|].
Qed.
Lemma startFailed_sound message v : bounded v -> sound (startFailed message v).
Proof.
  intros B. unfold startFailed. eapply grows_sound; [apply setError_grows|].
  assert (sound (clearVoiceInputState (stopVoiceCapture false v))) as S by (apply clear_sound; by eapply grows_bounded; [apply stop_grows|]).
  destruct (nonempty _); [|done]. by eapply grows_sound; [apply ask_grows|].
Qed.
Lemma complete_sound g v : sound v -> sound (completeVoiceInputFinalizing g v).
Proof.
  intros S. unfold completeVoiceInputFinalizing. destruct (negb _); [done|]. apply clear_sound. eapply grows_bounded; [apply commit_transcript_grows|auto].
Qed.

Lemma calls_moved v w : v_calls w = v_calls v -> v_generation w = v_generation v + 1 -> bounded v ->
  Forall (fun c => forall g, call_generation c = Some g -> g < v_generation w) (v_calls w).
Proof. intros -> -> [C _]. eapply Forall_impl; [exact C|]. intros c X g Eg. apply X, recent_le in Eg. lia. Qed.
Lemma startVoiceInput_sound o v : sound v -> sound (startVoiceInput o v).
Proof.
  intros [B P]. unfold startVoiceInput. destruct (v_recording v || nonempty (v_streamId v) || v_awaitingFinal v) eqn:A; [by split|].
  apply orb_false_iff in A as [[Ar As]%orb_false_iff Aa].
  destruct (negb (so_enabled o)); [by split|]. destruct (so_nativeHost o && _); [by eapply grows_sound; [apply setError_grows|split]|].
  destruct (negb (v_connected v) && _); [by eapply grows_sound; [apply setError_grows|split]|]. cbv zeta.
  match goal with |- sound (waiting _ ?w) => set (u := w) end.
  assert (v_generation u = v_generation v + 1) as G by done.
  pose proof (calls_moved v u eq_refl G B) as C.
  eapply grows_sound.
  { apply waiting_grows; [destruct (so_nativeHost o); reflexivity|]. destruct (so_nativeHost o); intros g [= <-]; (split; [rewrite G; lia|done]). }
  split; [split|right; split; [split|]]; try done.
  - eapply Forall_impl; [exact C|]. intros c X g Eg. apply X in Eg. split; [lia|done].
  - eapply Forall_impl; [apply (bd_queues _ B)|]. intros e X%recent_le. split; [lia|done].
  - eapply Forall_impl; [exact C|]. intros c X Y. enough (v_generation u < v_generation u) by lia. apply X. by destruct c.
  - intros _. eapply Forall_impl; [exact C|]. intros c X Y. enough (v_generation u < v_generation u) by lia. apply X. by destruct c.
  - eapply Forall_impl; [exact C|]. intros c X ->. enough (v_generation u < v_generation u) by lia. by apply X.
  - right. by left.
Qed.
Lemma commit_sound v : sound v -> sound (commit v) /\ v_committed (commit v) = v_voiceRecording (commit v).
Proof.
  intros [B P]. unfold commit. destruct (Bool.eqb _ _) eqn:E; [apply Bool.eqb_prop in E; split; [by split|done]|]. split; [|done].
  split; [by destruct B; split|]. destruct P as [I|[D M]]; [left; destruct I; by split|right].
  destruct D as [S V P F D N]. split; [split|]; try done.
  change (if v_awaitingFinal v then v_timer v = Some (v_generation v) /\ v_voiceRecording v = true else v_voiceRecording v = true).
  revert P. destruct (v_awaitingFinal v); tauto.
Qed.

(** ** The stream *)

Lemma active_dictating g v : isVoiceGenerationActive g v = true -> idle v \/ dictating v -> g = v_generation v /\ dictating v.
Proof.
  unfold isVoiceGenerationActive, isVoiceGenerationActiveSnapshot. cbn. intros [[E%Z.eqb_eq A]%andb_true_iff _]%andb_true_iff [I|D]; [|by split].
  rewrite (i_recording _ I), (i_streamId _ I) in A. done.
Qed.
Lemma sound_active g v : sound v -> isVoiceGenerationActive g v = true -> g = v_generation v /\ dictating v /\ moving v.
Proof.
  intros [_ P] A. destruct (active_dictating _ _ A) as [E D]; [tauto|]. split; [done|split; [done|]].
  destruct P as [I|[_ M]]; [by destruct (d_session _ D (i_session _ I))|done].
Qed.
Lemma waiting_sound c v : finish_generation c = None -> (forall g, call_generation c = Some g -> recent v g) -> sound v -> sound (waiting c v).
Proof. intros F R. apply grows_sound. by apply waiting_grows. Qed.
Lemma waits_for c g v : call_generation c = Some g -> recent v g -> forall g', call_generation c = Some g' -> recent v g'.
Proof. intros E R g' E'. rewrite E in E'. by injection E' as <-. Qed.
Lemma startVoiceRegistryStream_sound g v : sound v -> recent v g -> sound (startVoiceRegistryStream g v).
Proof.
  intros S R. unfold startVoiceRegistryStream. destruct (_ || _); [done|].
  apply waiting_sound; [done|by apply (waits_for _ g)|]. by eapply grows_sound; [apply ask_grows|].
Qed.
Lemma runVoiceStartLoop_sound g v : sound v -> recent v g -> sound (runVoiceStartLoop g v).
Proof.
  intros S R. unfold runVoiceStartLoop. destruct (_ && _); [|done]. destruct (v_connected v); [by apply startVoiceRegistryStream_sound|].
  destruct (voiceInputReconnectAvailable v); [by apply waiting_sound; [|apply (waits_for _ g)|]|]. apply cancelVoiceInput_sound. auto.
Qed.
Lemma connectAnswered_sound g ok v : sound v -> recent v g -> sound (connectAnswered g ok v).
Proof.
  intros S R. unfold connectAnswered. destruct ok; [|by apply waiting_sound; [|apply (waits_for _ g)|]].
  apply startVoiceRegistryStream_sound; [|exact R]. eapply grows_sound; [|exact S]. quiet.
Qed.
Lemma startLoopFailed_sound g error v : sound v -> recent v g -> sound (startLoopFailed g error v).
Proof.
  intros S R. unfold startLoopFailed. destruct (isVoiceInputStartRetryableError error); [by apply waiting_sound; [|apply (waits_for _ g)|]|].
  destruct (negb _); [done|]. apply cancelVoiceInput_sound. auto.
Qed.

Lemma enqueue_all_grows n chunks v : bounded v -> grows v (foldl (fun v chunk => enqueue_chunk n chunk v) v chunks).
Proof.
  revert v. induction chunks as [|chunk chunks IH]; intros v B; [apply voice_grows_refl|]. cbn.
  pose proof (queue_does_grows n (fun q => enqueue q chunk) v B) as G. eapply voice_grows_trans; [exact G|]. apply IH. by eapply grows_bounded.
Qed.
Lemma flush_sound g v : sound v -> sound (flushVoiceInputBufferToQueue g v).
Proof.
  intros S. unfold flushVoiceInputBufferToQueue. destruct (v_queue v) as [n|]; [|done]. destruct (v_buffer v) as [buffer|] eqn:E; [|done].
  destruct (isVoiceGenerationActive g v) eqn:A; [|done]. destruct (sound_active _ _ S A) as (_ & D & _). destruct (buffer_drain buffer) as [buffer' chunks].
  assert (grows v (v{{ v_buffer := Some buffer' }})) as G by (quiet; intros X; destruct (d_session _ D X)).
  pose proof (grows_sound _ _ G S) as S'. eapply grows_sound; [|exact S']. apply enqueue_all_grows. auto.
Qed.
Lemma speechStarted_sound g answer v : sound v -> recent v g -> sound (speechStarted g answer v).
Proof.
  intros S R. unfold speechStarted. destruct answer as [streamId|error]; [|by apply startLoopFailed_sound].
  destruct (nonempty streamId) eqn:N; cbn [negb]; [|by apply startLoopFailed_sound].
  destruct (isVoiceGenerationActive g v) eqn:A; cbn [negb]; [|by apply waiting_sound; [|apply (waits_for _ g)|eapply grows_sound; [apply ask_grows|]]].
  destruct (sound_active _ _ S A) as (-> & [Ds Dv Dp Df Dd Dn] & M). pose proof (sound_bounded _ S) as [C Q].
  apply flush_sound. match goal with |- context [setStatus _ ?x] => set (w := x) end.
  assert (sound w) as W.
  { split; [split; [exact C|apply Forall_app; split; [exact Q|by constructor]]|]. right. split; [split; try done|].
    - intros _. eapply Forall_impl; [exact Df|]. intros c _ _. exact N.
    - eapply Forall_impl; [exact Dn|]. intros c X Y. split; [by apply X|exact N].
    - destruct M as [?|[?|[[? ?]|[?|?]]]]; [by left|by right; left|by do 2 right; left|by do 3 right; left|by do 4 right]. }
  eapply grows_sound; [|exact W]. quiet.
Qed.

Lemma recent_current v : dictating v -> recent v (v_generation v).
Proof. intros D. split; [lia|]. intros X. by destruct (d_session _ D X). Qed.
(** No chunks are waited for. *)
Definition no_drain (v : voice) : Prop := Forall (fun c => drain_generation c <> Some (v_generation v)) (v_calls v).
Lemma listening_no_drain v : dictating v -> v_pendingFinish v = false -> no_drain v.
Proof. intros D P. eapply Forall_impl; [apply (d_finish _ D)|]. intros c X E. rewrite P in X. destruct c; cbn in E; try done. by specialize (X E). Qed.
Lemma closed_sound v : sound v -> no_drain v -> sound (handleVoiceRegistryClosedDuringInput v).
Proof.
  intros S N. unfold handleVoiceRegistryClosedDuringInput. destruct (v_native v || negb (isVoiceInputActive v)) eqn:A; [done|].
  apply orb_false_iff in A as [An Aa%negb_false_iff]. pose proof S as [_ [I|[D M]]].
  { unfold isVoiceInputActive, isVoiceInputSnapshotActive in Aa. cbn in Aa. by rewrite (i_recording _ I), (i_streamId _ I), (i_awaiting _ I) in Aa. }
  set (u := clearVoiceStreamStateForReconnect _).
  assert (grows v (cancel_queue (commitVoiceInputTranscript v))) as G by (eapply voice_grows_trans; [apply commit_transcript_grows|apply cancel_queue_grows]).
  pose proof (grows_sound _ _ G S) as [B' _]. pose proof (grows_dictating _ _ G D) as [Es Ev Ep Ef Ed En]. pose proof (grows_moving _ _ G M) as M'.
  assert (v_native u = false) as Nu by (transitivity (v_native (cancel_queue (commitVoiceInputTranscript v))); [done|by rewrite (g_native _ _ G)]).
  assert (no_drain u) as Du.
  { destruct (g_calls _ _ G) as (extra & E & F). unfold no_drain. change (v_calls u) with (v_calls (cancel_queue (commitVoiceInputTranscript v))).
    change (v_generation u) with (v_generation (cancel_queue (commitVoiceInputTranscript v))). rewrite E, (g_generation _ _ G). apply Forall_app. split; [exact N|].
    eapply Forall_impl; [exact F|]. intros c [X _]. by destruct c. }
  assert (sound u /\ dictating u) as [Su Dict].
  { enough (bounded u /\ dictating u /\ moving u) as (? & ? & ?) by (split; [split; [done|by right]|done]). split; [by destruct B'|]. split; [split; try done|].
    - intros _. eapply Forall_impl; [exact Du|]. intros c X Y. by destruct X.
    - eapply Forall_impl; [exact En|]. intros c X Y. destruct (X Y) as [Z _]. change (v_native u = true) in Z. congruence.
    - destruct M' as [?|[?|[[X _]|[?|?]]]]; [by left|by right; left|change (v_native u = true) in X; congruence|by do 3 right; left|by do 4 right]. }
  destruct (_ || _ || _); [done|].
  match goal with |- context [v_settings ?x] => set (w := x) end.
  assert (grows u w) as Gw. { unfold w. destruct (v_buffer u); quiet; intros X; destruct (d_session _ Dict X). }
  pose proof (grows_sound _ _ Gw Su) as Sw. destruct (v_settings w); [|done]. apply runVoiceStartLoop_sound; [done|].
  apply (grows_recent _ _ _ Gw). split; [|by intros X; destruct (d_session _ Dict X)].
  change (v_generation u) with (v_generation (cancel_queue (commitVoiceInputTranscript v))). rewrite (g_generation _ _ G). lia.
Qed.
Lemma handleVoiceChunkSendFailure_sound g error v : sound v -> sound (handleVoiceChunkSendFailure g error v).
Proof.
  intros S. unfold handleVoiceChunkSendFailure. destruct (isVoiceGenerationActive g v) eqn:A; cbn [negb]; [|done].
  destruct (sound_active _ _ S A) as (_ & D & _). destruct (negb (v_pendingFinish v) && _) eqn:E; [|apply cancelVoiceInput_sound; auto].
  apply andb_true_iff in E as [E%negb_true_iff _]. apply closed_sound; [done|by apply listening_no_drain].
Qed.

(** ** The microphone, the end and the transcripts *)

(** A stream is open. *)
Lemma opened_sound v w streamId : w = v{{ v_streamId := streamId; v_remoteStart := true }} -> nonempty streamId = true ->
  sound v -> dictating v -> sound w.
Proof.
  intros -> N [[C Q] P] D. assert (moving v) as M by (destruct P as [I|[_ M]]; [by destruct (d_session _ D (i_session _ I))|done]).
  split; [by split|]. right. destruct D as [Ds Dv Dp Df Dd Dn]. split; [split; try done|].
  - intros _. eapply Forall_impl; [exact Df|]. intros c _ _. exact N.
  - eapply Forall_impl; [exact Dn|]. intros c X Y. split; [by apply X|exact N].
  - destruct M as [?|[?|[[? ?]|[?|?]]]]; [by left|by right; left|by do 2 right; left|by do 3 right; left|by do 4 right].
Qed.
Lemma captureReady_sound v : sound v -> sound (captureReady v).
Proof.
  intros S. unfold captureReady. destruct (_ || negb _) eqn:A; [done|]. apply orb_false_iff in A as [_ A%negb_false_iff].
  destruct (sound_active _ _ S A) as (E & D & _). match goal with |- context [v_remoteStart ?x] => set (w := x) end.
  assert (sound w) as W by (eapply grows_sound; [apply setStatus_grows|done]). destruct (_ || _); [done|].
  apply runVoiceStartLoop_sound; [eapply grows_sound; [|exact W]; quiet|].
  rewrite E. exact (recent_current v D).
Qed.
Lemma captureChunk_sound chunk v : sound v -> sound (captureChunk chunk v).
Proof.
  intros S. unfold captureChunk, handleVoicePCMChunk. destruct (0 <? _); [|done]. destruct (_ || _) eqn:A; [done|].
  apply orb_false_iff in A as [A%negb_false_iff _]. destruct (sound_active _ _ S A) as (_ & D & _).
  destruct (v_queue v) as [n|]; [eapply grows_sound; [apply queue_does_grows; auto|done]|].
  destruct (v_buffer v) as [buffer|] eqn:E; [|done]. destruct (append buffer chunk) as [buffer' taken].
  assert (sound (v{{ v_buffer := Some buffer' }})) as W by (eapply grows_sound; [|exact S]; quiet; intros X; destruct (d_session _ D X)).
  destruct (negb taken); [|done]. apply preserve_sound. auto.
Qed.
Lemma microphoneAnswered_sound g answer v : sound v -> sound (microphoneAnswered g answer v).
Proof.
  intros S. unfold microphoneAnswered. destruct answer; [apply startFailed_sound; auto|]. destruct (_ || _).
  - by eapply grows_sound; [apply ask_grows|].
  - eapply grows_sound; [|exact S]. quiet.
Qed.
Lemma nativeStarted_sound g answer v : sound v -> sound (nativeStarted g answer v).
Proof.
  intros S. unfold nativeStarted. destruct answer as [streamId|error]; [|apply startFailed_sound; auto].
  destruct (nonempty streamId) eqn:N; cbn [negb]; [|apply startFailed_sound; auto]. destruct (isVoiceGenerationActive g v) eqn:A; cbn [negb].
  - destruct (sound_active _ _ S A) as (_ & D & _). eapply grows_sound; [apply setStatus_grows|]. by eapply opened_sound.
  - apply waiting_sound; [done..|]. by eapply grows_sound; [apply ask_grows|].
Qed.

(** The dictation [g] is finished: [finishVoiceInput] runs, and no call of it is awaited. *)
Record finishing (g : Z) (v : voice) : Prop := {
  f_bounded : bounded v; f_state : sound v \/ dictating v;
  f_current : g = v_generation v -> dictating v /\ v_pendingFinish v = true;
  f_other : g <> v_generation v -> sound v;
  f_recent : recent v g
}.
Lemma finishing_active g v : finishing g v -> isVoiceGenerationActive g v = true -> g = v_generation v /\ dictating v /\ v_pendingFinish v = true.
Proof.
  intros F A. assert (g = v_generation v) as E.
  { unfold isVoiceGenerationActive, isVoiceGenerationActiveSnapshot in A. cbn in A. lia. }
  split; [done|]. by apply (f_current _ _ F).
Qed.
(** An inactive one needs no more than what it has. *)
Lemma finishing_over g v : finishing g v -> (v_awaitingFinal v = false -> nonempty (v_streamId v) = true \/ isVoiceGenerationActive g v = false) ->
  negb (nonempty (v_streamId v)) || negb (isVoiceGenerationActive g v) = true -> sound v.
Proof.
  intros F N A. destruct (decide (g = v_generation v)) as [E|E]; [|by apply (f_other _ _ F)].
  destruct (f_current _ _ F E) as [D P]. split; [apply (f_bounded _ _ F)|]. right. split; [done|].
  unfold moving. destruct (v_awaitingFinal v) eqn:W; [by left|]. do 3 right. left.
  assert (isVoiceGenerationActive g v = false) as I.
  { destruct (N eq_refl) as [X|X]; [|done]. rewrite X in A. by apply negb_true_iff in A. }
  unfold isVoiceGenerationActive, isVoiceGenerationActiveSnapshot in I. fold (isVoiceInputContextCurrent v) in I. cbn in I.
  pose proof (d_phase _ D) as R. rewrite W in R. rewrite R, E, Z.eqb_refl in I. exact I.
Qed.
(** A further call of it. *)
Lemma finish_call_sound c g v : finish_generation c = Some g -> (drain_generation c = Some g -> v_awaitingFinal v = false -> nonempty (v_streamId v) = true) ->
  (c = AwaitNativeFinish g -> v_native v = true /\ nonempty (v_streamId v) = true) -> finishing g v -> g = v_generation v -> sound (waiting c v).
Proof.
  intros Ec Ed En F E. destruct (f_current _ _ F E) as [[Ds Dv Dp Df Dd Dn] P]. pose proof (f_bounded _ _ F) as [C Q]. split.
  - split; [|exact Q]. apply Forall_app. split; [exact C|]. constructor; [|done]. intros g' E'.
    assert (g' = g) as -> by (destruct c; cbn in *; congruence). apply (f_recent _ _ F).
  - right. split; [split; try done|].
    + apply Forall_app. split; [exact Df|]. by constructor.
    + intros A. apply Forall_app. split; [by apply Dd|]. constructor; [|done]. intros X. apply Ed; [by subst g|exact A].
    + apply Forall_app. split; [exact Dn|]. constructor; [|done]. intros X. apply En. by rewrite E.
    + do 4 right. apply Exists_app. right. left. by subst g.
Qed.
Lemma finish_drained_sound g v : finishing g v -> (v_awaitingFinal v = false -> nonempty (v_streamId v) = true \/ isVoiceGenerationActive g v = false) ->
  sound (finish_drained g v).
Proof.
  intros F N. unfold finish_drained. destruct (negb (nonempty _) || _) eqn:A; [by apply (finishing_over g)|].
  apply orb_false_iff in A as [_ A%negb_false_iff]. destruct (finishing_active _ _ F A) as (E & D & P).
  apply (finish_call_sound _ g); [done|done|done| |exact E]. set (w := ask _ v). pose proof (ask_grows (FinishSpeech (v_streamId v)) v : grows v w) as G.
  split; [by eapply grows_bounded; [|apply (f_bounded _ _ F)]| | |by intros []|by apply (grows_recent v w _ G), (f_recent _ _ F)].
  - right. by apply (grows_dictating v w).
  - intros _. split; [by apply (grows_dictating v w)|done].
Qed.
Lemma finish_failed_sound g error v : finishing g v -> sound (finish_failed g error v).
Proof.
  intros F. unfold finish_failed. destruct (isVoiceGenerationActive g v) eqn:A; cbn [negb]; [apply preserve_sound, (f_bounded _ _ F)|].
  apply (finishing_over g); [done|by right|]. by rewrite A, orb_true_r.
Qed.
Lemma finish_stream_sound g v : finishing g v -> nonempty (v_streamId v) = true -> (g = v_generation v) -> sound (finish_stream g v).
Proof.
  intros F N E. unfold finish_stream. destruct (v_queue v) as [n|].
  - by apply (finish_call_sound _ g).
  - apply finish_drained_sound; [done|]. by left.
Qed.
Lemma waitForVoiceStreamReady_sound g remaining v : finishing g v -> sound (waitForVoiceStreamReady g remaining v).
Proof.
  intros F. unfold waitForVoiceStreamReady. destruct (isVoiceGenerationActive g v) eqn:A; [|apply cancelVoiceInput_sound, (f_bounded _ _ F)].
  destruct (finishing_active _ _ F A) as (E & _ & _). destruct (nonempty (v_streamId v) && _) eqn:N.
  - apply andb_true_iff in N as [N _]. by apply finish_stream_sound.
  - destruct (_ <=? _); [apply cancelVoiceInput_sound, (f_bounded _ _ F)|]. by apply (finish_call_sound _ g).
Qed.

Lemma finishing_start v : bounded v -> dictating v -> finishing (v_generation v) (v{{ v_pendingFinish := true }}).
Proof.
  intros [C Q] D. pose proof (recent_current v D) as R. destruct D as [Ds Dv Dp Df Dd Dn].
  assert (dictating (v{{ v_pendingFinish := true }})) as D' by (split; try done; eapply Forall_impl; [exact Df|]; done).
  split; [by split|by right|by split|by intros []|exact R].
Qed.
Lemma grows_finishing g v w : grows v w -> finishing g v -> finishing g w.
Proof.
  intros G [B P C O R]. pose proof (g_generation _ _ G) as E. split.
  - by apply (grows_bounded v).
  - destruct P as [P|P]; [left; by apply (grows_sound v)|right; by apply (grows_dictating v)].
  - rewrite E. intros X. destruct (C X) as [D Y]. split; [by apply (grows_dictating v)|by rewrite (g_pending _ _ G)].
  - rewrite E. intros X. apply (grows_sound v); auto.
  - by apply (grows_recent v w).
Qed.
Lemma finishVoiceInput_sound v : sound v -> dictating v -> sound (finishVoiceInput v).
Proof.
  intros S D. pose proof (sound_bounded _ S) as B. unfold finishVoiceInput. destruct (v_native v) eqn:N.
  - match goal with |- context [cancelVoiceInput _ _ _ ?x] => set (w := x) end.
    assert (finishing (v_generation v) w) as F by (eapply grows_finishing; [apply setStatus_grows|by apply finishing_start]).
    destruct (nonempty (v_streamId v)) eqn:X; cbn [negb]; [|apply cancelVoiceInput_sound, (f_bounded _ _ F)].
    apply (finish_call_sound _ (v_generation v)); [done|done|done| |done]. eapply grows_finishing; [apply ask_grows|exact F].
  - match goal with |- context [waitForVoiceStreamReady _ _ ?x] => set (w := x) end.
    pose proof (stop_grows true v) as G. assert (finishing (v_generation v) w) as F.
    { eapply grows_finishing; [apply setStatus_grows|]. rewrite <- (g_generation _ _ G).
      apply finishing_start; [by apply (grows_bounded v)|by apply (grows_dictating v)]. }
    destruct (nonempty (v_streamId v)) eqn:X; cbn [negb]; [|by apply waitForVoiceStreamReady_sound].
    apply finish_stream_sound; [done| |symmetry; exact (g_generation _ _ G)].
    change (nonempty (v_streamId (stopVoiceCapture true v)) = true). by rewrite (g_stream _ _ G).
Qed.
Lemma finishAnswered_sound g answer v : finishing g v -> (answer = None -> g = v_generation v) -> v_committed v = v_voiceRecording v ->
  sound (finishAnswered g answer v).
Proof.
  intros F E K. destruct answer as [error|]; cbn [finishAnswered]; [by apply finish_failed_sound|]. specialize (E eq_refl). subst g.
  destruct (f_bounded _ _ F) as [C Q], (f_current _ _ F eq_refl) as [[Ds Dv Dp Df Dd Dn] P]. split; [by split|]. right. split; [|by left].
  split; try done. split; [done|]. by rewrite <- Dv.
Qed.
Lemma nativeFinishAnswered_sound g answer v : finishing g v -> (g = v_generation v -> v_native v = true /\ nonempty (v_streamId v) = true) ->
  sound (nativeFinishAnswered g answer v).
Proof.
  intros F N. destruct answer as [error|]; cbn [nativeFinishAnswered]; [by apply finish_failed_sound|].
  destruct (decide (g = v_generation v)) as [E|E]; [|by apply (f_other _ _ F)]. destruct (f_current _ _ F E) as [D _].
  split; [apply (f_bounded _ _ F)|]. right. split; [done|]. do 2 right. left. auto.
Qed.

Lemma transcript_sound streamId text final v : sound v -> sound (handleVoiceSpeechTranscriptEvent streamId text final v).
Proof.
  intros S. unfold handleVoiceSpeechTranscriptEvent. destruct (v_session v) as [s|] eqn:E; [|done]. destruct (negb _); [done|].
  destruct (negb _); [apply cancelVoiceInput_sound; auto|]. set (w := if nonempty text then _ else v).
  assert (grows v w) as G by (unfold w; destruct (nonempty text); [quiet; by rewrite E|apply voice_grows_refl]).
  pose proof (grows_sound _ _ G S) as W. destruct final; [|done]. apply complete_sound. by eapply grows_sound; [apply stop_grows|].
Qed.
Lemma speechError_sound message retryable v : sound v -> sound (handleVoiceSpeechErrorEvent message retryable v).
Proof.
  intros S. unfold handleVoiceSpeechErrorEvent. destruct (_ && _) eqn:A; [|apply preserve_sound; auto].
  apply andb_true_iff in A as [[_ R]%andb_true_iff P%negb_true_iff]. apply closed_sound; [done|].
  destruct S as [_ [I|[D _]]]; [by rewrite (i_recording _ I) in R|by apply listening_no_drain].
Qed.
Lemma errorEvent_sound streamId message retryable v : sound v -> sound (if for_another streamId v then v else handleVoiceSpeechErrorEvent message retryable v).
Proof. intros S. destruct (for_another _ _); [done|]. by apply speechError_sound. Qed.
Lemma nativeEvent_sound event v : sound v -> sound (handleAndroidNativeSpeechEvent event v).
Proof.
  intros S. destruct event; cbn [handleAndroidNativeSpeechEvent].
  - by apply errorEvent_sound.
  - destruct (bool_decide _); [|done]. by eapply grows_sound; [apply setStatus_grows|].
  - by apply transcript_sound.
  - destruct (_ && _); [|done]. apply preserve_sound. auto.
Qed.
Lemma registryClosed_sound v : sound v -> orderly RegistryClosed v = true -> sound (registryClosed v).
Proof.
  intros S O. unfold registryClosed. match goal with |- sound (if isVoiceInputActive ?x then _ else _) => set (w := x) end.
  assert (grows v w) as G by quiet. pose proof (grows_sound _ _ G S) as W. destruct (isVoiceInputActive w); [|done].
  apply closed_sound; [done|]. unfold no_drain. change (v_calls w) with (v_calls v). change (v_generation w) with (v_generation v).
  cbn in O. apply Is_true_true_2, forallb_True in O. eapply Forall_impl; [exact O|]. intros c X Y. apply Is_true_true, negb_true_iff, bool_decide_eq_false in X. done.
Qed.
Lemma selects_sound key project v : sound v -> orderly (UserSelects key project) v = true -> sound (v{{ v_selectedKey := key; v_projectId := project }}).
Proof.
  intros [[C Q] P] O. set (w := v{{ v_selectedKey := key; v_projectId := project }}). cbn in O. split; [by split|].
  destruct P as [I|[D M]]; [left; destruct I; by split|right]. pose proof (d_phase _ D) as R.
  split; [destruct D; by split|]. unfold moving.
  destruct M as [?|[?|[?|[X|?]]]]; [by left|by right; left|by do 2 right; left| |by do 4 right].
  change (v_awaitingFinal w) with (v_awaitingFinal v). destruct (v_awaitingFinal v); [by left|]. by rewrite X, R in O.
Qed.
Lemma contextEffect_sound v : sound v -> sound (contextEffect v).
Proof.
  intros S. unfold contextEffect. destruct (_ && _); [done|]. destruct (isVoiceInputContextCurrent v); [done|]. apply cancelVoiceInput_sound. auto.
Qed.
Lemma cancelAnswered_sound reason answer v : sound v -> sound (cancelAnswered reason answer v).
Proof.
  intros S. destruct answer; cbn [cancelAnswered]; [|done]. destruct (bool_decide _); [done|]. by eapply grows_sound; [apply setError_grows|].
Qed.
Lemma finalTimerFires_sound v : sound v -> sound (finalTimerFires v).
Proof.
  intros [B P]. unfold finalTimerFires. destruct (v_timer v) as [g|] eqn:E; [|by split]. unfold completeVoiceInputFinalizing.
  set (w := v{{ v_timer := None }}). assert (bounded w) as Bw by (destruct B; by split).
  destruct (v_generation w =? g) eqn:X; cbn [negb]; [apply clear_sound; eapply grows_bounded; [apply commit_transcript_grows|done]|].
  split; [done|]. destruct P as [I|[D M]]; [by rewrite (i_timer _ I) in E|right]. split; [|exact M].
  destruct D as [Ds Dv Dp Df Dd Dn]. split; try done.
  change (if v_awaitingFinal v then None = Some (v_generation v) /\ v_committed v = true else v_recording v = true).
  revert Dp. destruct (v_awaitingFinal v); [|done]. rewrite E. intros [[= ->] _]. apply Z.eqb_neq in X. by destruct X.
Qed.

(** ** Calls resume *)

Definition without (k : nat) (v : voice) : voice := v{{ v_calls := delete k (v_calls v) }}.
Lemma without_bounded k v : bounded v -> bounded (without k v).
Proof. intros [C Q]. split; [by apply Forall_delete|done]. Qed.
Lemma without_dictating k v : dictating v -> dictating (without k v).
Proof. intros [Ds Dv Dp Df Dd Dn]. split; try done; [by apply Forall_delete|intros A; by apply Forall_delete, Dd|by apply Forall_delete]. Qed.
Lemma without_sound k c v : v_calls v !! k = Some c -> finish_generation c <> Some (v_generation v) -> sound v -> sound (without k v).
Proof.
  intros E N [B P]. split; [by apply without_bounded|]. destruct P as [I|[D M]]; [left; destruct I; by split|right].
  split; [by apply without_dictating|]. destruct M as [?|[?|[?|[?|X]]]]; [by left|by right; left|by do 2 right; left|by do 3 right; left|do 4 right].
  change (Exists (fun c => finish_generation c = Some (v_generation v)) (delete k (v_calls v))).
  rewrite (delete_Permutation _ _ _ E), Exists_cons in X. by destruct X.
Qed.
Lemma without_finishing k c g v : sound v -> v_calls v !! k = Some c -> finish_generation c = Some g -> finishing g (without k v).
Proof.
  intros S E F. pose proof (sound_bounded _ S) as B. pose proof (Forall_lookup_1 _ _ _ _ (bd_calls _ B) E) as R. cbn in R.
  assert (call_generation c = Some g) as F' by (destruct c; cbn in *; congruence). specialize (R _ F').
  assert (g = v_generation v -> dictating v) as D by (intros X; destruct S as [_ [I|[D _]]]; [destruct R as [_ R]; specialize (R (i_session _ I)); lia|done]).
  assert (g <> v_generation v -> sound (without k v)) as O by (intros X; apply (without_sound k c); [done|congruence|done]).
  split; [by apply without_bounded| | |exact O|exact R].
  - destruct (decide (g = v_generation v)) as [X|X]; [right; by apply without_dictating, D|left; by apply O].
  - intros X. split; [by apply without_dictating, D|]. pose proof (Forall_lookup_1 _ _ _ _ (d_finish _ (D X)) E) as Y. apply Y. rewrite F. by f_equal.
Qed.
Lemma resume_call_sound k c answer v w : sound v -> v_committed v = v_voiceRecording v -> v_calls v !! k = Some c ->
  orderly (Resumed k answer) v = true -> resume_call c answer (without k v) = Some w -> sound w.
Proof.
  intros S K E O. pose proof (sound_bounded _ S) as B.
  assert (finish_generation c = None -> sound (without k v)) as SW by (intros X; apply (without_sound k c); [done|by rewrite X|done]).
  assert (forall g, call_generation c = Some g -> recent (without k v) g) as R by (intros g Eg; by apply (Forall_lookup_1 _ _ _ _ (bd_calls _ B) E)).
  pose proof (fun g => without_finishing k c g v S E) as F.
  destruct c as [g|g|g|g|g|g| |g remaining|g queue|g|g|reason|g error]; cbn [resume_call].
  - intros [= <-]. auto using microphoneAnswered_sound.
  - intros [= <-]. auto using nativeStarted_sound.
  - intros [= <-]. auto using connectAnswered_sound.
  - intros [= <-]. auto using runVoiceStartLoop_sound.
  - intros [= <-]. auto using speechStarted_sound.
  - intros [= <-]. destruct answer; auto using runVoiceStartLoop_sound, startLoopFailed_sound.
  - intros [= <-]. destruct answer; auto using startFailed_sound.
  - intros [= <-]. auto using waitForVoiceStreamReady_sound.
  - intros X. apply bind_Some in X as (e & _ & X). destruct (_ && _); [|done]. injection X as <-.
    specialize (F g eq_refl). destruct (drain_outcome _); [|by apply finish_failed_sound]. apply finish_drained_sound; [done|]. intros A.
    destruct (decide (g = v_generation v)) as [X|X].
    + left. destruct (f_current _ _ F X) as [_ _]. destruct S as [_ [I|[D _]]].
      * destruct (R g eq_refl) as [_ Y]. specialize (Y (i_session _ I)). change (g < v_generation v) in Y. lia.
      * apply (Forall_lookup_1 _ _ _ _ (d_drain _ D A) E). by subst g.
    + right. destruct (isVoiceGenerationActive g (without k v)) eqn:Z; [|done]. by destruct X; apply (finishing_active _ _ F Z).
  - intros [= <-]. apply finishAnswered_sound; [auto| |done]. intros X. cbn in O. rewrite E in O. destruct answer; [|done]. by apply Z.eqb_eq in O.
  - intros [= <-]. apply nativeFinishAnswered_sound; [auto|]. intros X.
    destruct S as [_ [I|[D _]]].
    + destruct (R g eq_refl) as [_ Y]. specialize (Y (i_session _ I)). change (v_generation (without k v)) with (v_generation v) in *. lia.
    + apply (Forall_lookup_1 _ _ _ _ (d_native _ D) E). by rewrite X.
  - intros [= <-]. auto using cancelAnswered_sound.
  - intros [= <-]. auto using handleVoiceChunkSendFailure_sound.
Qed.
Lemma voice_handle_sound e v w : sound v -> v_committed v = v_voiceRecording v -> orderly e v = true -> voice_handle e v = Some w -> sound w.
Proof.
  intros S K O. pose proof (sound_bounded _ S) as B.
  destruct e as [o| | |text cursor|key project| | |chunk| |streamId text final|streamId message retryable|event| | |n|n answer|k answer]; cbn [voice_handle].
  - intros [= <-]. by apply startVoiceInput_sound.
  - destruct (v_voiceRecording v) eqn:V; [|done]. intros [= <-]. apply finishVoiceInput_sound; [done|].
    destruct S as [_ [I|[D _]]]; [by rewrite (i_shown _ I) in V|done].
  - destruct (v_voiceRecording v); [|done]. intros [= <-]. by apply cancelVoiceInput_sound.
  - destruct (_ || _); [done|]. intros [= <-]. by eapply grows_sound; [apply text_grows|].
  - intros [= <-]. by apply selects_sound.
  - intros [= <-]. by apply contextEffect_sound.
  - intros [= <-]. by apply captureReady_sound.
  - intros [= <-]. by apply captureChunk_sound.
  - intros [= <-]. unfold captureEnded. destruct (_ || _); [|done]. by apply preserve_sound.
  - intros [= <-]. by apply transcript_sound.
  - intros [= <-]. by apply errorEvent_sound.
  - intros [= <-]. by apply nativeEvent_sound.
  - intros [= <-]. by apply registryClosed_sound.
  - destruct (v_timer v); [|done]. intros [= <-]. by apply finalTimerFires_sound.
  - destruct (v_queues v !! n) as [e|]; [|done]. cbn. destruct (vq_running _); [done|]. destruct (vq_waiting _); [done|].
    intros [= <-]. by eapply grows_sound; [apply queue_does_grows|].
  - destruct (v_queues v !! n) as [e|]; [|done]. cbn. destruct (vq_running _); [|done]. intros [= <-].
    by eapply grows_sound; [apply queue_does_grows|].
  - destruct (v_calls v !! k) as [c|] eqn:E; [|done]. cbn. by apply resume_call_sound.
Qed.
Lemma voice_run_sound es v w : sound v -> v_committed v = v_voiceRecording v -> orderly_run es v = true -> voice_run es v = Some w -> sound w.
Proof.
  revert v. induction es as [|e es IH]; intros v S K; cbn; [by intros _ [= <-]|].
  destruct (orderly e v) eqn:O; [|done]. cbn. unfold voice_step. destruct (voice_handle e v) as [u|] eqn:E; [|done]. cbn. intros O' R.
  pose proof (voice_handle_sound _ _ _ S K O E) as U. destruct (commit_sound _ U) as [C K']. by apply (IH (commit u)).
Qed.

(** * What follows *)

Definition voice_init (connected : bool) (projectId selectedKey text : string) : voice :=
  {| v_generation := 0; v_captureGeneration := 0; v_capture := false; v_recording := false; v_streamId := ""; v_session := None; v_buffer := None;
     v_queues := []; v_queue := None; v_pendingFinish := false; v_awaitingFinal := false; v_reconnecting := false; v_remoteStart := false;
     v_settings := false; v_runtimeKey := ""; v_native := false; v_timer := None; v_connected := connected; v_projectId := projectId;
     v_selectedKey := selectedKey; v_text := text; v_cursor := 0; v_error := ""; v_voiceRecording := false; v_committed := false;
     v_status := Recording; v_calls := []; v_requests := [] |}.
(** The event [e] comes next and ends the dictation. *)
Definition ended_by (e : voice_event) (v : voice) : Prop := exists u, voice_step e v = Some u /\ isVoiceInputActive u = false.

Lemma idle_inactive v : idle v -> isVoiceInputActive v = false.
Proof. intros [R S A ? ? ? ? ? ?]. unfold isVoiceInputActive, isVoiceInputSnapshotActive. cbn. by rewrite R, S, A. Qed.
Lemma dictating_active v : dictating v -> isVoiceInputActive v = true.
Proof.
  intros D. pose proof (d_phase _ D) as P. unfold isVoiceInputActive, isVoiceInputSnapshotActive. cbn.
  revert P. destruct (v_awaitingFinal v); [by rewrite orb_true_r|]. by intros ->.
Qed.
Lemma commit_idle v : idle v -> idle (commit v).
Proof. intros I. unfold commit. destruct (Bool.eqb _ _); [done|]. destruct I. by split. Qed.
Lemma ended_by_step e v u : voice_handle e v = Some u -> ended u -> ended_by e v.
Proof. intros E [_ I]. exists (commit u). unfold voice_step. rewrite E. split; [done|]. by apply idle_inactive, commit_idle. Qed.

(** C13. A dictation never hangs: in every run of user actions, microphone and registry events,
    answers, timers and queue turns that avoids the three interleavings [orderly] names, a
    dictation that is over has left nothing behind (no session, timer, queue, buffer or
    pending end), and one that is active can be cancelled and will also move on by itself:
    it still listens, or its native stream is open, or a call of [finishVoiceInput] for it is
    awaited, or the effect or the final timer comes next and ends it. *)
Theorem voice_never_stuck connected projectId selectedKey text es v :
  orderly_run es (voice_init connected projectId selectedKey text) = true ->
  voice_run es (voice_init connected projectId selectedKey text) = Some v ->
  (isVoiceInputActive v = false ->
    v_session v = None /\ v_timer v = None /\ v_queue v = None /\ v_buffer v = None /\ v_pendingFinish v = false /\ v_voiceRecording v = false) /\
  (isVoiceInputActive v = true ->
    v_session v <> None /\ ended_by UserCancels v /\
    ((v_recording v = true /\ v_pendingFinish v = false) \/ (v_native v = true /\ nonempty (v_streamId v) = true) \/
     (exists k c, v_calls v !! k = Some c /\ finish_generation c = Some (v_generation v)) \/ ended_by ContextEffect v \/ ended_by FinalTimer v)).
Proof.
  intros O R. assert (sound v) as [B P].
  { eapply voice_run_sound; [| |exact O|exact R]; [|done]. apply ended_sound. split; by split. }
  destruct P as [I|[D M]].
  - split; [intros _; by destruct I|]. rewrite (idle_inactive _ I). done.
  - rewrite (dictating_active _ D). split; [done|]. intros _. split; [apply (d_session _ D)|]. split.
    { eapply ended_by_step; [|by apply cancelVoiceInput_ends]. cbn. by rewrite (d_shown _ D). }
    pose proof (d_phase _ D) as Ph. destruct (v_awaitingFinal v) eqn:A.
    + do 4 right. destruct Ph as [T _]. eapply ended_by_step; [cbn; by rewrite T|]. unfold finalTimerFires. rewrite T.
      unfold completeVoiceInputFinalizing. change (v_generation (v{{ v_timer := None }})) with (v_generation v). rewrite Z.eqb_refl.
      apply clear_ended. eapply grows_bounded; [apply commit_transcript_grows|]. by destruct B.
    + destruct M as [?|[?|[?|[X|X]]]]; [congruence|by left|by right; left| |].
      * do 3 right. left. eapply ended_by_step; [done|]. unfold contextEffect. rewrite Ph, X. by apply cancelVoiceInput_ends.
      * do 2 right. left. apply Exists_exists in X as (c & Xc & Xf). apply list_elem_of_lookup in Xc as [k Xk]. by exists k, c.
Qed.

(** * Runs *)

Definition sound_of (s : string) : VoiceInput.bytes := String.list_ascii_of_string s.
Definition by_press : start_options := {| so_enabled := true; so_nativeHost := false; so_nativeRuntime := false; so_selection := None |}.
Definition desk : voice := voice_init true "p" "p:s" "".
(** Three bytes are said, heard and recognised. *)
Definition said : list voice_event :=
  [UserStarts by_press; Resumed 0 (inl ""); CaptureReady; CaptureChunk (sound_of "abc"); Resumed 0 (inl "s1"); QueueStarts 0; QueueAnswered 0 None;
   TranscriptEvent "s1" "hello" false].
Definition finished : list voice_event := said ++ [UserFinishes; Resumed 0 (inl "")].

Example an_ordinary_dictation :
  (v ← voice_run (finished ++ [Resumed 0 (inl ""); TranscriptEvent "s1" "hello world" true]) desk;
   Some (isVoiceInputActive v, v_text v, v_requests v)) =
  Some (false, "hello world", [StartSpeech; SendSpeechChunk "s1" 1 (base64FromBytes (sound_of "abc")); StopCapture true; FinishSpeech "s1"])%string.
Proof. vm_compute. reflexivity. Qed.
(** A lost connection is bridged: what is said meanwhile is kept and sent on the next stream. *)
Example a_reconnected_dictation :
  (v ← voice_run (said ++ [RegistryClosed; CaptureChunk (sound_of "d"); Resumed 0 (inl ""); Resumed 0 (inl "s2"); QueueStarts 1; TranscriptEvent "s2" " you" false]) desk;
   Some (v_streamId v, v_text v, v_pendingFinish v, last (v_requests v))) = Some ("s2", "hello you", false, Some (SendSpeechChunk "s2" 1 (base64FromBytes (sound_of "d"))))%string.
Proof. vm_compute. reflexivity. Qed.

Lemma voice_never_stuck_witness :
  let v := default desk (voice_run (finished ++ [Resumed 0 (inl "")]) desk) in v_session v <> None /\ ended_by UserCancels v /\
    ((v_recording v = true /\ v_pendingFinish v = false) \/ (v_native v = true /\ nonempty (v_streamId v) = true) \/
     (exists k c, v_calls v !! k = Some c /\ finish_generation c = Some (v_generation v)) \/ ended_by ContextEffect v \/ ended_by FinalTimer v).
Proof.
  refine (proj2 (voice_never_stuck true "p" "p:s" "" (finished ++ [Resumed 0 (inl "")]) _ _ _) _); vm_compute; reflexivity.
Defined.

(** The final transcript comes before the answer to the request that asked for it: the
    answer opens the wait again, for a dictation that is over, its timer completes nothing,
    and no later dictation starts. *)
Lemma stuck_after_final :
  (v ← voice_run (finished ++ [TranscriptEvent "s1" "hello world" true; Resumed 0 (inl ""); FinalTimer; UserStarts by_press]) desk;
   Some (isVoiceInputActive v, v_session v, v_timer v, v_calls v)) = Some (true, None, None, []).
Proof. vm_compute. reflexivity. Qed.
(** The connection closes while the end waits for the chunks, all of which are sent. *)
Lemma stuck_after_close :
  (v ← voice_run (said ++ [UserFinishes; RegistryClosed; Resumed 0 (inl ""); FinalTimer]) desk; Some ()) = None /\
  (v ← voice_run (said ++ [UserFinishes; RegistryClosed; Resumed 0 (inl "")]) desk;
   Some (v_recording v, v_pendingFinish v, v_streamId v, v_timer v, v_calls v)) = Some (true, true, "", None, [])%string.
Proof. vm_compute. split; reflexivity. Qed.
(** Two chunks are on their way when the connection closes: the second is rejected because
    its queue is cancelled, which is no reason to reconnect, and the recognised text goes. *)
Lemma reconnect_cancels_dictation :
  let lost := VObj [("message", VStr "connection closed before response")]%string in
  (v ← voice_run (said ++ [CaptureChunk (sound_of "d"); CaptureChunk (sound_of "e"); QueueStarts 0; RegistryClosed]) desk; Some (v_text v, v_recording v)) = Some ("hello"%string, true) /\
  (v ← voice_run (said ++ [CaptureChunk (sound_of "d"); CaptureChunk (sound_of "e"); QueueStarts 0; RegistryClosed; QueueAnswered 0 (Some lost); QueueStarts 0;
                           Resumed 1 (inl ""); Resumed 1 (inl "")]) desk; Some (v_text v, isVoiceInputActive v, v_error v)) =
  Some ("", false, "voice input send queue cancelled")%string.
Proof. vm_compute. split; reflexivity. Qed.
(** The microphone of a cancelled dictation fails when the next one has started. *)
Lemma old_start_ends_next :
  let refused := VObj [("message", VStr "Permission denied")]%string in
  (v ← voice_run [UserStarts by_press; UserCancels; UserStarts by_press; Resumed 1 (inl ""); Resumed 0 (inr refused)] desk;
   Some (isVoiceInputActive v, v_error v)) = Some (false, "Permission denied"%string).
Proof. vm_compute. reflexivity. Qed.
