(* ===== verification/RegistryAuth.v ===== *)
(** The login of the web client: [registry/RegistryWebAuthClient.ts] and
    [registry/RegistryAuthController.ts].

    The requests of the client are data and their answers values.  The controller is the
    snapshot it holds, its listeners with what they were told, and the calls that are
    awaited, which may overlap: each runs up to its request, and is resumed by the answer. *)

From coqutil Require Import Datatypes.RecordSetters.
From S2P Require Import Prelude Json.
Import DoubleBraceUpdate.
Open Scope Z_scope.

(** * The requests *)

Record RegistryAuthStatus := { as_authenticated : bool; as_csrfToken : option string; as_device : value }.
(** [RegistryWebAuthError], or any other error. *)
Inductive auth_error := RegistryWebAuthError (status : Z) (message : string) | OtherError (message : string).
Definition auth_message (e : auth_error) : string := match e with RegistryWebAuthError _ m | OtherError m => m end.

(** What [fetch] is given; credentials and cache are always the same. *)
Record fetch_request := { fq_action : string; fq_method : string; fq_headers : list (string * string); fq_body : option string }.
(** A request that fails, or a response with its status and its JSON ([inr] when it is none). *)
Inductive fetch_answer := FetchFailed (message : string) | Response (status : Z) (json : value + string).

Definition merge_headers (headers : list (string * string)) : list (string * string) :=
  foldl (fun d h => dset d h.1 h.2) [("Accept", "application/json")]%string headers.
Definition requestStatus (action method : string) (headers : list (string * string)) (body : option string) : fetch_request :=
  {| fq_action := action; fq_method := method; fq_headers := merge_headers headers; fq_body := body |}.
Definition field (payload : value) (name : string) : value := match payload with VObj p => prop p name | _ => VUndefined end.
Definition status_of (payload : value) : RegistryAuthStatus :=
  {| as_authenticated := match field payload "authenticated" with VBool true => true | _ => false end;
     as_csrfToken := match field payload "csrfToken" with VStr s => Some s | _ => None end;
     as_device := field payload "device" |}.
Definition response_ok (status : Z) : bool := (200 <=? status) && (status <=? 299).
Definition statusAnswered (a : fetch_answer) : RegistryAuthStatus + auth_error :=
  match a with
  | FetchFailed m => inr (OtherError m)
  | Response status json =>
    if negb (response_ok status) then inr (RegistryWebAuthError status ("Registry authentication request failed (" +:+ pretty status +:+ ")"))
    else match json with inl payload => inl (status_of payload) | inr m => inr (OtherError m) end
  end.

Section auth.
Context `{J : JSON}.

Definition client_status : fetch_request := requestStatus "status" "GET" [] None.
Definition client_login (token deviceName : string) : fetch_request :=
  requestStatus "login" "POST" [("Content-Type", "application/json")]%string
    (Some (JSON_stringify (VObj [("token", VStr token); ("deviceName", VStr (trim deviceName))]%string))).
Definition client_logout (csrfToken : string) : fetch_request :=
  requestStatus "logout" "POST" [("Content-Type", "application/json"); ("X-WheelMaker-CSRF", csrfToken)]%string (Some "{}"%string).

(** * The controller *)

Inductive RegistryAuthState := Checking | Unauthenticated | LoggingIn | Authenticated | AuthFailed.
#[export] Instance RegistryAuthState_eq_dec : EqDecision RegistryAuthState.
Proof. solve_decision. Defined.
Record RegistryAuthSnapshot := { sn_state : RegistryAuthState; sn_status : option RegistryAuthStatus; sn_error : option string }.
Definition plain (state : RegistryAuthState) : RegistryAuthSnapshot := {| sn_state := state; sn_status := None; sn_error := None |}.
Definition auth_failed (message : string) : RegistryAuthSnapshot := {| sn_state := AuthFailed; sn_status := None; sn_error := Some message |}.
Definition of_status (status : RegistryAuthStatus) : RegistryAuthSnapshot :=
  if as_authenticated status then {| sn_state := Authenticated; sn_status := Some status; sn_error := None |} else plain Unauthenticated.

(** A call that awaits its request; [requireSession] awaits [check]. *)
Inductive auth_call := CheckCall | SessionCall | LoginCall | LogoutCall.
#[export] Instance auth_call_eq_dec : EqDecision auth_call.
Proof. solve_decision. Defined.
Record auth := {
  au_current : RegistryAuthSnapshot; au_listeners : list nat; au_told : list (nat * RegistryAuthSnapshot);
  au_calls : list auth_call; au_fetches : list fetch_request;
  au_sessions : list (RegistryAuthStatus + string)                 (* what [requireSession] returned or threw *)
}.
Definition auth_init : auth :=
  {| au_current := plain Checking; au_listeners := []; au_told := []; au_calls := []; au_fetches := []; au_sessions := [] |}.

Definition publish (s : RegistryAuthSnapshot) (a : auth) : auth := a{{ au_current := s; au_told := au_told a ++ map (fun l => (l, s)) (au_listeners a) }}.
Definition subscribe (l : nat) (a : auth) : auth :=
  a{{ au_listeners := if decide (l ∈ au_listeners a) then au_listeners a else au_listeners a ++ [l]; au_told := au_told a ++ [(l, au_current a)] }}.
Definition unsubscribe (l : nat) (a : auth) : auth := a{{ au_listeners := filter (fun l' => l' <> l) (au_listeners a) }}.
Definition fetching (c : auth_call) (r : fetch_request) (a : auth) : auth := a{{ au_calls := au_calls a ++ [c]; au_fetches := au_fetches a ++ [r] }}.

Definition check (c : auth_call) (a : auth) : auth := fetching c client_status (publish (plain Checking) a).
Definition checkAnswered (answer : RegistryAuthStatus + auth_error) (a : auth) : auth :=
  match answer with
  | inl status => publish (of_status status) a
  | inr (RegistryWebAuthError 401 _) => publish (plain Unauthenticated) a
  | inr error => publish (auth_failed (auth_message error)) a
  end.
Definition login (token deviceName : string) (a : auth) : auth := fetching LoginCall (client_login token deviceName) (publish (plain LoggingIn) a).
Definition loginAnswered (answer : RegistryAuthStatus + auth_error) (a : auth) : auth :=
  match answer with
  | inl status => publish (of_status status) a
  | inr error => publish (auth_failed (auth_message error)) a
  end.
(** The end of [requireSession]: [inr] is the error it throws. *)
Definition session_result (a : auth) : RegistryAuthStatus + string :=
  match sn_state (au_current a), sn_status (au_current a) with
  | Authenticated, Some status => inl status
  | _, _ => inr (str_or (default "" (sn_error (au_current a))) "Registry login is required")
  end.
Definition session_over (a : auth) : auth := a{{ au_sessions := au_sessions a ++ [session_result a] }}.
Definition requireSession (a : auth) : auth :=
  if decide (sn_state (au_current a) = Authenticated) then session_over a else check SessionCall a.
Definition logout (a : auth) : auth :=
  match sn_status (au_current a) ≫= as_csrfToken with
  | Some csrfToken => if nonempty csrfToken then fetching LogoutCall (client_logout csrfToken) a else publish (plain Unauthenticated) a
  | None => publish (plain Unauthenticated) a
  end.
Definition logoutAnswered (answer : RegistryAuthStatus + auth_error) (a : auth) : auth :=
  match answer with inl _ => publish (plain Unauthenticated) a | inr _ => a end.

Inductive auth_event :=
  | Subscribe (l : nat) | Unsubscribe (l : nat) | CallCheck | CallLogin (token deviceName : string) | CallLogout | CallSession
  | AuthAnswered (k : nat) (answer : fetch_answer).
Definition answered (c : auth_call) (answer : RegistryAuthStatus + auth_error) (a : auth) : auth :=
  match c with
  | CheckCall => checkAnswered answer a
  | SessionCall => session_over (checkAnswered answer a)
  | LoginCall => loginAnswered answer a
  | LogoutCall => logoutAnswered answer a
  end.
Definition auth_step (e : auth_event) (a : auth) : option auth :=
  match e with
  | Subscribe l => Some (subscribe l a)
  | Unsubscribe l => Some (unsubscribe l a)
  | CallCheck => Some (check CheckCall a)
  | CallLogin token deviceName => Some (login token deviceName a)
  | CallLogout => Some (logout a)
  | CallSession => Some (requireSession a)
  | AuthAnswered k answer => c ← au_calls a !! k; Some (answered c (statusAnswered answer) (a{{ au_calls := delete k (au_calls a) }}))
  end.
Fixpoint auth_run (es : list auth_event) (a : auth) : option auth :=
  match es with [] => Some a | e :: es => a ← auth_step e a; auth_run es a end.

(** [useEffect] of the application: it listens and checks. *)
Definition auth_mounted (l : nat) : auth := check CheckCall (subscribe l auth_init).

(** * The snapshot, the views and the calls agree *)

Definition snapshot_ok (s : RegistryAuthSnapshot) : Prop :=
  match sn_state s with
  | Authenticated => (exists status, sn_status s = Some status /\ as_authenticated status = true) /\ sn_error s = None
  | AuthFailed => sn_status s = None /\ sn_error s <> None
  | _ => sn_status s = None /\ sn_error s = None
  end.
Definition told_to (l : nat) (a : auth) : list RegistryAuthSnapshot := map snd (filter (fun t => t.1 = l) (au_told a)).
Definition up_to_date (a : auth) : Prop := forall l, l ∈ au_listeners a -> last (told_to l a) = Some (au_current a).
Definition awaited (a : auth) : Prop :=
  match sn_state (au_current a) with
  | Checking => CheckCall ∈ au_calls a \/ SessionCall ∈ au_calls a
  | LoggingIn => LoginCall ∈ au_calls a
  | _ => True
  end.
Definition sessions_ok (a : auth) : Prop := Forall (fun r => match r with inl status => as_authenticated status = true | inr _ => True end) (au_sessions a).
Record auth_ok (a : auth) : Prop := { ok_snapshot : snapshot_ok (au_current a); ok_views : up_to_date a; ok_awaited : awaited a; ok_sessions : sessions_ok a }.

Lemma told_to_app l told told' : map snd (filter (fun t : nat * RegistryAuthSnapshot => t.1 = l) (told ++ told')) =
  map snd (filter (fun t => t.1 = l) told) ++ map snd (filter (fun t => t.1 = l) told').
Proof. by rewrite filter_app, map_app. Qed.
Lemma all_told (l : nat) (s : RegistryAuthSnapshot) (ls : list nat) : l ∈ ls ->
  exists n, map snd (filter (fun t : nat * RegistryAuthSnapshot => t.1 = l) (map (fun l' => (l', s)) ls)) = replicate (S n) s.
Proof.
  enough (exists n, map snd (filter (fun t : nat * RegistryAuthSnapshot => t.1 = l) (map (fun l' => (l', s)) ls)) = replicate n s /\ (l ∈ ls -> n <> O))
    as (n & E & N) by (intros H; exists (pred n); rewrite E; f_equal; specialize (N H); lia).
  induction ls as [|l' ls (n & E & N)]; [exists O; split; [done|by intros ?%not_elem_of_nil]|]. cbn [map]. rewrite filter_cons. cbn [fst].
  destruct (decide (l' = l)) as [->|X].
  - exists (S n). cbn. by rewrite E.
  - exists n. split; [exact E|]. intros [->|H]%elem_of_cons; [done|by apply N].
Qed.
Lemma last_replicated {A} (l : list A) n x : last (l ++ replicate (S n) x) = Some x.
Proof. rewrite replicate_S_end, (assoc_L (++)). apply last_snoc. Qed.
Lemma publish_views s a : up_to_date (publish s a).
Proof.
  intros l H. change (l ∈ au_listeners a) in H.
  change (last (map snd (filter (fun t => t.1 = l) (au_told a ++ map (fun l' => (l', s)) (au_listeners a)))) = Some s).
  rewrite told_to_app. destruct (all_told l s _ H) as [n ->]. apply last_replicated.
Qed.
Lemma publish_ok s a : snapshot_ok s -> (sn_state s <> Checking /\ sn_state s <> LoggingIn) -> sessions_ok a -> auth_ok (publish s a).
Proof.
  intros S [N1 N2] R. split; [exact S|apply publish_views| |exact R]. unfold awaited. change (au_current (publish s a)) with s. by destruct (sn_state s).
Qed.
Lemma of_status_settled status : snapshot_ok (of_status status) /\ sn_state (of_status status) <> Checking /\ sn_state (of_status status) <> LoggingIn.
Proof. unfold of_status, snapshot_ok. destruct (as_authenticated status) eqn:E; cbn; [split_and!; eauto; done|done]. Qed.
Lemma subscribe_ok l a : auth_ok a -> auth_ok (subscribe l a).
Proof.
  intros [S V A R]. split; [exact S| |exact A|exact R]. intros l' H. change (last (told_to l' (subscribe l a)) = Some (au_current a)).
  assert (told_to l' (subscribe l a) = told_to l' a ++ if decide (l = l') then [au_current a] else []) as ->.
  { change (map snd (filter (fun t => t.1 = l') (au_told a ++ [(l, au_current a)])) = told_to l' a ++ if decide (l = l') then [au_current a] else []).
    rewrite told_to_app, filter_cons. cbn. by destruct (decide (l = l')). }
  destruct (decide (l = l')) as [<-|N]; [apply last_snoc|]. rewrite app_nil_r. apply V.
  change (l' ∈ if decide (l ∈ au_listeners a) then au_listeners a else au_listeners a ++ [l]) in H.
  revert H. destruct (decide (l ∈ au_listeners a)); [done|]. rewrite elem_of_app, list_elem_of_singleton. intros [?|?]; [done|congruence].
Qed.
Lemma check_ok c a : c = CheckCall \/ c = SessionCall -> sessions_ok a -> auth_ok (check c a).
Proof.
  intros C R. split; [done|exact (publish_views (plain Checking) a)| |exact R]. unfold awaited.
  change (CheckCall ∈ au_calls a ++ [c] \/ SessionCall ∈ au_calls a ++ [c]). rewrite !elem_of_app, !list_elem_of_singleton. destruct C; auto.
Qed.
Lemma auth_mounted_ok l : auth_ok (auth_mounted l).
Proof. apply check_ok; [by left|constructor]. Qed.

Lemma checkAnswered_ok answer a : sessions_ok a -> auth_ok (checkAnswered answer a).
Proof.
  intros R. destruct answer as [status|[status message|message]]; cbn [checkAnswered].
  - destruct (of_status_settled status). by apply publish_ok.
  - destruct (decide (status = 401)) as [->|N]; [by apply publish_ok|].
    replace (match status with 401 => _ | _ => _ end) with (publish (auth_failed message) a) by (destruct status as [|p|p]; try done; do 10 (try destruct p as [p|p|]; try done)).
    by apply publish_ok.
  - by apply publish_ok.
Qed.
Lemma session_over_ok a : auth_ok a -> auth_ok (session_over a).
Proof.
  intros [S V A R]. split; [exact S|exact V|exact A|]. apply Forall_app. split; [exact R|]. constructor; [|done].
  unfold session_result. unfold snapshot_ok in S. destruct (sn_state (au_current a)); try done. destruct S as [(s & -> & ?) _]. done.
Qed.
Lemma without_call k c a : au_calls a !! k = Some c -> auth_ok a -> sessions_ok (a{{ au_calls := delete k (au_calls a) }}) /\
  (c = LogoutCall -> auth_ok (a{{ au_calls := delete k (au_calls a) }})).
Proof.
  intros E [S V A R]. split; [exact R|]. intros ->. split; [exact S|exact V| |exact R]. unfold awaited in *.
  change (au_current (a{{ au_calls := delete k (au_calls a) }})) with (au_current a).
  change (au_calls (a{{ au_calls := delete k (au_calls a) }})) with (delete k (au_calls a)).
  assert (forall c, c <> LogoutCall -> c ∈ au_calls a -> c ∈ delete k (au_calls a)) as K.
  { intros c N I. rewrite (delete_Permutation _ _ _ E) in I. by apply elem_of_cons in I as [?|?]. }
  destruct (sn_state (au_current a)); try done; [|by apply K]. destruct A; [left|right]; by apply K.
Qed.
Lemma auth_step_ok e a a' : auth_ok a -> auth_step e a = Some a' -> auth_ok a'.
Proof.
  intros O. pose proof O as [S V A R]. destruct e as [l|l| |token deviceName| | |k answer]; cbn [auth_step].
  - intros [= <-]. by apply subscribe_ok.
  - intros [= <-]. split; [exact S| |exact A|exact R]. intros l' H. apply list_elem_of_filter in H as [_ H]. by apply V.
  - intros [= <-]. apply check_ok; auto.
  - intros [= <-]. split; [done|exact (publish_views (plain LoggingIn) a)| |exact R].
    change (LoginCall ∈ au_calls a ++ [LoginCall]). apply elem_of_app. right. by apply list_elem_of_singleton.
  - intros [= <-]. unfold logout. destruct (_ ≫= _) as [csrf|]; [destruct (nonempty csrf)|]; try by apply publish_ok.
    split; [exact S|exact V| |exact R]. unfold awaited in *. change (au_current (fetching LogoutCall (client_logout csrf) a)) with (au_current a).
    change (au_calls (fetching LogoutCall (client_logout csrf) a)) with (au_calls a ++ [LogoutCall]).
    destruct (sn_state (au_current a)); rewrite ?elem_of_app; tauto.
  - intros [= <-]. unfold requireSession. destruct (decide _); [by apply session_over_ok|]. apply check_ok; auto.
  - destruct (au_calls a !! k) as [c|] eqn:E; [|done]. cbn. intros [= <-]. destruct (without_call k c a E O) as [R' L].
    destruct c; cbn [answered]; [by apply checkAnswered_ok|by apply session_over_ok, checkAnswered_ok| |].
    + destruct (statusAnswered answer) as [status|]; [destruct (of_status_settled status)|]; by apply publish_ok.
    + destruct (statusAnswered answer); [by apply publish_ok|by apply L].
Qed.

(** C11. However the calls of the controller overlap and whatever their requests are
    answered, the page shows what is the case: the snapshot is authenticated only with a
    status that says so, an error only with a message; every listener was last told the
    current snapshot; a check or a login that is shown is awaited, so it does not stay; and
    [requireSession] returns only statuses that are authenticated. *)
Theorem auth_views_current l es a : auth_run es (auth_mounted l) = Some a ->
  snapshot_ok (au_current a) /\ (forall l', l' ∈ au_listeners a -> last (told_to l' a) = Some (au_current a)) /\
  (sn_state (au_current a) = Checking -> CheckCall ∈ au_calls a \/ SessionCall ∈ au_calls a) /\
  (sn_state (au_current a) = LoggingIn -> LoginCall ∈ au_calls a) /\
  (forall status, inl status ∈ au_sessions a -> as_authenticated status = true).
Proof.
  intros E. assert (auth_ok a) as [S V A R].
  { pose proof (auth_mounted_ok l) as O. revert O E. generalize (auth_mounted l). clear l.
    induction es as [|e es IH]; cbn; [by intros ? ? [= <-]|]. intros b O. destruct (auth_step e b) as [c|] eqn:X; [|done]. cbn. apply IH.
    by eapply auth_step_ok. }
  split; [exact S|split; [exact V|]]. unfold awaited in A. split; [intros X; by rewrite X in A|]. split; [intros X; by rewrite X in A|].
  intros status I. exact (proj1 (Forall_forall _ _) R _ I).
Qed.
End auth.

(** * Runs *)

#[local] Existing Instance js_JSON.
Definition logged_in : value := VObj [("authenticated", VBool true); ("csrfToken", VStr "c")]%string.
Definition logged_out : value := VObj [("authenticated", VBool false)]%string.

Lemma auth_views_current_witness :
  let a := default auth_init (auth_run [AuthAnswered 0 (Response 401 (inr ""%string)); CallLogin "t" "PC"] (auth_mounted 0)) in
  sn_state (au_current a) = LoggingIn /\ LoginCall ∈ au_calls a.
Proof.
  split; [reflexivity|].
  refine (proj1 (proj2 (proj2 (proj2 (auth_views_current 0 [AuthAnswered 0 (Response 401 (inr ""%string)); CallLogin "t" "PC"] _ _)))) _); vm_compute; reflexivity.
Defined.

Example a_session :
  (a ← auth_run [AuthAnswered 0 (Response 401 (inr ""%string)); CallLogin "t" " PC "; AuthAnswered 0 (Response 200 (inl logged_in)); CallSession; CallLogout;
                 AuthAnswered 0 (Response 200 (inl (VObj [])))] (auth_mounted 0);
   Some (map sn_state (told_to 0 a), map (fun r => fq_body r ≫= JSON_parse) (au_fetches a), map (fun r => match r with inl s => as_csrfToken s | inr _ => None end) (au_sessions a))) =
  Some ([Checking; Checking; Unauthenticated; LoggingIn; Authenticated; Unauthenticated],
        [None; Some (VObj [("token", VStr "t"); ("deviceName", VStr "PC")]); Some (VObj [])], [Some "c"])%string.
Proof. vm_compute. reflexivity. Qed.

(** An answer is published whenever it comes: a check that was sent before the login and
    is answered after it shows the login page to a user who is logged in. *)
Lemma stale_check_logs_out :
  (a ← auth_run [CallLogin "t" "PC"; AuthAnswered 1 (Response 200 (inl logged_in)); AuthAnswered 0 (Response 200 (inl logged_out))] (auth_mounted 0);
   Some (sn_state (au_current a), au_calls a)) = Some (Unauthenticated, []).
Proof. vm_compute. reflexivity. Qed.
(** A logout during a check finds no token to send: the page shows the login, the session
    goes on at the registry, and the answer to the check logs the page in again. *)
Lemma logout_during_check :
  (a ← auth_run [AuthAnswered 0 (Response 200 (inl logged_in)); CallCheck; CallLogout] (auth_mounted 0);
   Some (sn_state (au_current a), map fq_action (au_fetches a))) = Some (Unauthenticated, ["status"; "status"]%string) /\
  (a ← auth_run [AuthAnswered 0 (Response 200 (inl logged_in)); CallCheck; CallLogout; AuthAnswered 0 (Response 200 (inl logged_in))] (auth_mounted 0);
   Some (sn_state (au_current a))) = Some Authenticated.
Proof. vm_compute. split; reflexivity. Qed.
