(* ===== verification/AppConnection.v ===== *)
(** How the application connects, loses its connection and reconnects: [connect], the
    reconnect timer, [onClose], the login and the logout of [app/WorkspaceApp.tsx], over the
    login controller and under the supervisor of [platform/pwa/connection.ts], which follows
    the visibility of the page and the network.

    The service is the part of it that matters here: the repository it keeps, the one whose
    events it hears (the two differ after a failure, see [WorkspaceService.connect_contract])
    and the sockets that are open.  Events are answers, closed sockets, timers, effects, the
    clock and what the user and the browser do; one [connect] runs at a time. *)

From coqutil Require Import Datatypes.RecordSetters.
From S2P Require Import Prelude Json RegistryAuth.
Import DoubleBraceUpdate.
Open Scope Z_scope.

(** * The supervisor *)

Record supervisor := { su_started : bool; su_timer : bool; su_hidden : bool; su_onLine : bool }.
Inductive disconnect_reason := Background | Offline | Stop.
(** The hooks it calls. *)
Inductive hook := ConnectHook | DisconnectHook (reason : disconnect_reason).

Definition isForeground (s : supervisor) : bool := negb (su_hidden s).
Definition isOnline (s : supervisor) : bool := su_onLine s.
Definition su_ready (s : supervisor) : bool := su_started s && isForeground s && isOnline s.
Definition su_clearReconnectTimer (s : supervisor) : supervisor := s{{ su_timer := false }}.
Definition scheduleRetry (s : supervisor) : supervisor := if negb (su_ready s) || su_timer s then s else s{{ su_timer := true }}.
Definition tryConnect (s : supervisor) : supervisor * list hook := (s, if su_ready s then [ConnectHook] else []).
(** [hooks.connect] has settled. *)
Definition connectSettled (ok : bool) (s : supervisor) : supervisor := if ok then su_clearReconnectTimer s else scheduleRetry s.
Definition su_start (s : supervisor) : supervisor * list hook := if su_started s then (s, []) else tryConnect (s{{ su_started := true }}).
Definition su_stop (s : supervisor) : supervisor * list hook :=
  if su_started s then (su_clearReconnectTimer (s{{ su_started := false }}), [DisconnectHook Stop]) else (s, []).
Definition handleVisibilityChange (shouldDisconnectOnBackground : bool) (s : supervisor) : supervisor * list hook :=
  if negb (su_started s) then (s, [])
  else if su_hidden s then (su_clearReconnectTimer s, if shouldDisconnectOnBackground then [DisconnectHook Background] else [])
  else tryConnect s.
Definition handleOnline (s : supervisor) : supervisor * list hook := if negb (su_started s) then (s, []) else tryConnect s.
Definition handleOffline (s : supervisor) : supervisor * list hook :=
  if negb (su_started s) then (s, []) else (su_clearReconnectTimer s, [DisconnectHook Offline]).
Definition retryFires (s : supervisor) : supervisor * list hook := tryConnect (s{{ su_timer := false }}).

(** * The service *)

Record service := { sv_repository : option nat; sv_bound : option nat; sv_open : list nat; sv_next : nat }.
Definition hears (r : nat) (s : service) : bool := bool_decide (sv_bound s = Some r).

(** * The application *)

Definition RECONNECT_GRACE_PERIOD_MS : Z := 30000.

(** Where [connect] waits: for [requireSession], for the new repository to open, for the
    projects, for another project to be selected. *)
Inductive phase := NeedSession | Opening (r : nat) | Listing (r : nat) | Selecting.
Record attempt := { at_silent : bool; at_phase : phase }.
Record app := {
  ap_auth : auth; ap_supervisor : supervisor; ap_service : service;
  ap_connected : bool; ap_reconnecting : bool; ap_autoConnecting : bool; ap_autoConnectTried : bool; ap_error : string;
  ap_inFlight : option attempt; ap_startedAt : option Z; ap_timer : bool; ap_managed : bool;
  ap_projectId : string; ap_voice : bool; ap_now : Z
}.

Definition setError (message : string) (a : app) : app := a{{ ap_error := message }}.
Definition clearReconnectTimer (a : app) : app := a{{ ap_timer := false }}.
Definition scheduleReconnectAttempt (a : app) : app := a{{ ap_timer := true }}.

(** The listener of the service. *)
Definition onClose (a : app) : app :=
  let a := a{{ ap_connected := false }} in
  if ap_managed a then a{{ ap_managed := false }}
  else if negb (nonempty (ap_projectId a)) then
    setError "Registry connection closed. Reconnect to resume live updates." (a{{ ap_startedAt := None; ap_reconnecting := false }})
  else
    let a := a{{ ap_startedAt := Some (default (ap_now a) (ap_startedAt a)) }} in
    scheduleReconnectAttempt ((setError "" a){{ ap_reconnecting := true }}).
(** A socket is closed, by the other side or by [close] of its repository. *)
Definition socket_closed (r : nat) (a : app) : app :=
  let a := a{{ ap_service := (ap_service a){{ sv_open := filter (fun r' => r' <> r) (sv_open (ap_service a)) }} }} in
  if hears r (ap_service a) then onClose a else a.
(** [close] of the service: the repository's [close] is heard also when its socket is closed already. *)
Definition service_close (a : app) : app :=
  match sv_repository (ap_service a) with
  | None => a
  | Some r => let a := socket_closed r a in a{{ ap_service := (ap_service a){{ sv_repository := None }} }}
  end.

(** [finally]. *)
Definition connect_over (a : app) : app := a{{ ap_inFlight := None; ap_autoConnecting := false }}.
Definition grace_message : string := "Registry reconnect failed for " +:+ pretty (RECONNECT_GRACE_PERIOD_MS / 15000) +:+ "s. Please reconnect manually.".
Definition connect_failed (silentReconnect : bool) (message : string) (a : app) : app :=
  connect_over
    (if silentReconnect then
       let startedAt := default (ap_now a) (ap_startedAt a) in
       let a := a{{ ap_startedAt := Some startedAt }} in
       if ap_now a - startedAt <? RECONNECT_GRACE_PERIOD_MS then scheduleReconnectAttempt ((setError "" a){{ ap_reconnecting := true }})
       else setError grace_message (a{{ ap_startedAt := None; ap_reconnecting := false }})
     else setError message a).
Definition connect_succeeded (projectId : string) (a : app) : app :=
  connect_over (a{{ ap_projectId := projectId; ap_startedAt := None; ap_reconnecting := false; ap_connected := true }}).

Definition at_phase_ (p : phase) (a : app) : app :=
  match ap_inFlight a with Some t => a{{ ap_inFlight := Some (t{{ at_phase := p }}) }} | None => a end.
(** [workspaceController.connect]: the service creates a repository. *)
Definition open_repository (a : app) : app :=
  let r := sv_next (ap_service a) in
  at_phase_ (Opening r) (a{{ ap_service := (ap_service a){{ sv_next := S r }} }}).
Definition session_settled (silentReconnect : bool) (result : RegistryAuthStatus + string) (a : app) : app :=
  match result with inl _ => open_repository a | inr message => connect_failed silentReconnect message a end.
Definition connect (silentReconnect : bool) (a : app) : app :=
  match ap_inFlight a with
  | Some _ => a
  | None =>
    let a := clearReconnectTimer (setError "" (a{{ ap_inFlight := Some {| at_silent := silentReconnect; at_phase := NeedSession |} }})) in
    let a := if silentReconnect then a else a{{ ap_startedAt := None; ap_reconnecting := false }} in
    let authenticated := bool_decide (sn_state (au_current (ap_auth a)) = Authenticated) in
    let a := a{{ ap_auth := requireSession (ap_auth a) }} in
    if authenticated then session_settled silentReconnect (session_result (ap_auth a)) a else a
  end.

(** The new repository has opened, and is listened to, or has failed. *)
Definition repositoryOpened (r : nat) (silentReconnect : bool) (answer : unit + string) (a : app) : app :=
  match answer with
  | inl _ => at_phase_ (Listing r) (a{{ ap_service := (ap_service a){{ sv_bound := Some r; sv_open := r :: sv_open (ap_service a) }} }})
  | inr message => connect_failed silentReconnect message (a{{ ap_service := (ap_service a){{ sv_bound := None }} }})
  end.
Definition without_socket (r : nat) (s : service) : service := s{{ sv_open := filter (fun r' => r' <> r) (sv_open s) }}.
(** The projects are known: the previous repository is closed unheard, or this one is. *)
Definition projectsListed (r : nat) (silentReconnect : bool) (answer : string + string) (a : app) : app :=
  match answer with
  | inl projectId =>
    let s := ap_service a in
    let s := match sv_repository s with Some previous => without_socket previous s | None => s end in
    at_phase_ Selecting (a{{ ap_service := s{{ sv_repository := Some r }} }})
  | inr message =>
    connect_failed silentReconnect message (a{{ ap_service := without_socket r ((ap_service a){{ sv_bound := None }}) }})
  end.
Definition projectSelected (silentReconnect : bool) (answer : string + string) (a : app) : app :=
  match answer with inl projectId => connect_succeeded projectId a | inr message => connect_failed silentReconnect message a end.

(** * The user and the supervisor *)

Definition disconnectForSupervisor (reason : disconnect_reason) (a : app) : app :=
  let stop := match reason with Stop => true | _ => false end in
  let a := clearReconnectTimer (a{{ ap_managed := true }}) in
  let a := a{{ ap_startedAt := None; ap_reconnecting := negb stop && nonempty (ap_projectId a); ap_autoConnecting := false; ap_connected := false }} in
  service_close (if stop then a else setError "" a).
Definition returnToRegistryLogin (a : app) : app :=
  let a := service_close (a{{ ap_managed := true }}) in
  a{{ ap_connected := false; ap_reconnecting := false; ap_auth := check CheckCall (ap_auth a) }}.
Definition call_hook (h : hook) (a : app) : app :=
  match h with
  | ConnectHook => if nonempty (ap_projectId a) then connect true a else a
  | DisconnectHook reason => disconnectForSupervisor reason a
  end.
(** What the supervisor does, with the hooks it calls. *)
Definition supervise (f : supervisor -> supervisor * list hook) (a : app) : app :=
  let '(s, hooks) := f (ap_supervisor a) in foldl (fun a h => call_hook h a) (a{{ ap_supervisor := s }}) hooks.

Definition autoConnectEffect (a : app) : app :=
  if ap_connected a || ap_autoConnecting a || ap_autoConnectTried a || negb (bool_decide (sn_state (au_current (ap_auth a)) = Authenticated)) then a
  else connect false (a{{ ap_autoConnectTried := true; ap_autoConnecting := true }}).
Definition handleRegistryDebugLogout (a : app) : app :=
  let a := setError "" ((clearReconnectTimer (a{{ ap_managed := true }})){{ ap_startedAt := None }}) in
  let a := service_close (a{{ ap_autoConnecting := false; ap_reconnecting := false; ap_connected := false }}) in
  a{{ ap_auth := logout (ap_auth a) }}.

Section app.
Context `{J : JSON}.

(** * Events *)

Inductive app_event :=
  | AuthReplies (k : nat) (answer : fetch_answer)
  | RepositoryOpens (answer : unit + string) | ProjectsArrive (answer : string + string) | ProjectSelected (answer : string + string)
  | SocketCloses (r : nat) | ReconnectTimer | RetryTimer | HookSettles
  | PageHidden | PageShown | NetworkLost | NetworkBack | VoiceInput (active : bool) | Clock (ms : Z)
  | UserConnects | UserLogsIn (token deviceName : string) | UserLogsOut | SessionRevoked | AutoConnect.

(** The answer to a call of the login controller; [connect] and the login go on with theirs. *)
Definition authReplies (c : auth_call) (k : nat) (answer : fetch_answer) (a : app) : app :=
  let before := ap_auth a in
  let a := a{{ ap_auth := answered c (statusAnswered answer) (before{{ au_calls := delete k (au_calls before) }}) }} in
  match c with
  | SessionCall => match ap_inFlight a with Some t => session_settled (at_silent t) (session_result (ap_auth a)) a | None => a end
  | LoginCall => if bool_decide (sn_state (au_current (ap_auth a)) = Authenticated) then connect false a else a
  | _ => a
  end.
Definition page_sees (hidden : bool) (a : app) : app :=
  supervise (handleVisibilityChange (negb (ap_voice a))) (a{{ ap_supervisor := (ap_supervisor a){{ su_hidden := hidden }} }}).
Definition network (onLine : bool) (a : app) : app :=
  supervise (if onLine then handleOnline else handleOffline) (a{{ ap_supervisor := (ap_supervisor a){{ su_onLine := onLine }} }}).
(** The connect page is shown instead of the workspace. *)
Definition connect_page (a : app) : bool := negb (ap_connected a) && negb (ap_reconnecting a && nonempty (ap_projectId a)).
Definition app_step (e : app_event) (a : app) : option app :=
  match e with
  | AuthReplies k answer => c ← au_calls (ap_auth a) !! k; Some (authReplies c k answer a)
  | RepositoryOpens answer =>
    match ap_inFlight a with Some {| at_silent := s; at_phase := Opening r |} => Some (repositoryOpened r s answer a) | _ => None end
  | ProjectsArrive answer =>
    match ap_inFlight a with Some {| at_silent := s; at_phase := Listing r |} => Some (projectsListed r s answer a) | _ => None end
  | ProjectSelected answer =>
    match ap_inFlight a with Some {| at_silent := s; at_phase := Selecting |} => Some (projectSelected s answer a) | _ => None end
  | SocketCloses r => if decide (r ∈ sv_open (ap_service a)) then Some (socket_closed r a) else None
  | ReconnectTimer => if ap_timer a then Some (connect true (a{{ ap_timer := false; ap_autoConnecting := true }})) else None
  | RetryTimer => if su_timer (ap_supervisor a) then Some (supervise retryFires a) else None
  | HookSettles => Some (a{{ ap_supervisor := connectSettled true (ap_supervisor a) }})
  | PageHidden => Some (page_sees true a)
  | PageShown => Some (page_sees false a)
  | NetworkLost => Some (network false a)
  | NetworkBack => Some (network true a)
  | VoiceInput active => Some (a{{ ap_voice := active }})
  | Clock ms => if 0 <? ms then Some (a{{ ap_now := ap_now a + ms }}) else None
  | UserConnects =>
    if connect_page a && bool_decide (sn_state (au_current (ap_auth a)) = Authenticated) && negb (ap_autoConnecting a) then Some (connect false a) else None
  | UserLogsIn token deviceName => if connect_page a then Some (a{{ ap_auth := login token deviceName (ap_auth a) }}) else None
  | UserLogsOut => Some (handleRegistryDebugLogout a)
  | SessionRevoked => Some (returnToRegistryLogin a)
  | AutoConnect => Some (autoConnectEffect a)
  end.
Fixpoint app_run (es : list app_event) (a : app) : option app :=
  match es with [] => Some a | e :: es => a ← app_step e a; app_run es a end.

(** The first render: the page listens to the controller, checks the login and starts the supervisor. *)
Definition app_init (hidden onLine : bool) : app :=
  supervise su_start
    {| ap_auth := auth_mounted 0; ap_supervisor := {| su_started := false; su_timer := false; su_hidden := hidden; su_onLine := onLine |};
       ap_service := {| sv_repository := None; sv_bound := None; sv_open := []; sv_next := 0 |};
       ap_connected := false; ap_reconnecting := false; ap_autoConnecting := false; ap_autoConnectTried := false; ap_error := "";
       ap_inFlight := None; ap_startedAt := None; ap_timer := false; ap_managed := false; ap_projectId := ""; ap_voice := false; ap_now := 0 |}.

(** * Reconnecting goes on *)

(** What the code does not handle: a close that the supervisor or the user asks for when the
    service hears nothing, which leaves its mark for a later one, and a connect that is not
    silent and fails after the page has come back. *)
Definition close_is_heard (a : app) : bool := match sv_repository (ap_service a) with Some r => hears r (ap_service a) | None => false end.
Definition failure_is_seen (a : app) : bool :=
  match ap_inFlight a with
  | Some t => at_silent t || negb (ap_reconnecting a) || ap_timer a || (negb (su_ready (ap_supervisor a)) && nonempty (ap_projectId a))
  | None => true
  end.
Definition steady (e : app_event) (a : app) : bool :=
  match e with
  | PageHidden => ap_voice a || negb (su_started (ap_supervisor a)) || close_is_heard a
  | NetworkLost => negb (su_started (ap_supervisor a)) || close_is_heard a
  | UserLogsOut | SessionRevoked => close_is_heard a
  | AuthReplies _ _ | RepositoryOpens (inr _) | ProjectsArrive (inr _) | ProjectSelected (inr _) => failure_is_seen a
  | _ => true
  end.
Fixpoint steady_run (es : list app_event) (a : app) : bool :=
  match es with
  | [] => true
  | e :: es => steady e a && match app_step e a with Some a => steady_run es a | None => true end
  end.

Definition progressing (a : app) : Prop :=
  ap_reconnecting a = false \/ ap_timer a = true \/ ap_inFlight a <> None \/ (su_ready (ap_supervisor a) = false /\ nonempty (ap_projectId a) = true).
(** The calls of [requireSession] that are awaited. *)
Definition session_calls (a : auth) : list auth_call := filter (fun c => c = SessionCall) (au_calls a).
Definition attempt_calls (t : option attempt) : list auth_call :=
  match t with Some {| at_phase := NeedSession |} => [SessionCall] | _ => [] end.
Record app_ok (a : app) : Prop := {
  k_progress : progressing a;
  k_auth : auth_ok (ap_auth a);
  k_session : session_calls (ap_auth a) = attempt_calls (ap_inFlight a);
  k_managed : ap_managed a = false;
  k_started : su_started (ap_supervisor a) = true
}.

(** ** Parts of the state that steps leave alone *)

Record still (a b : app) : Prop := {
  s_auth : ap_auth b = ap_auth a; s_inFlight : ap_inFlight b = ap_inFlight a; s_supervisor : ap_supervisor b = ap_supervisor a;
  s_progress : progressing a -> progressing b; s_managed : ap_managed a = false -> ap_managed b = false
}.
Lemma still_ok a b : still a b -> app_ok a -> app_ok b.
Proof. intros [E1 E2 E3 P M] [P' A S M' T]. split; [auto|by rewrite E1|by rewrite E1, E2|auto|by rewrite E3]. Qed.
Lemma still_refl a : still a a.
Proof. by split. Qed.
Lemma still_trans a b c : still a b -> still b c -> still a c.
Proof. intros [] []. split; [congruence..|auto|auto]. Qed.
Lemma onClose_still a : still a (onClose a).
Proof.
  unfold onClose. change (ap_managed (a{{ ap_connected := false }})) with (ap_managed a). change (ap_projectId (a{{ ap_connected := false }})) with (ap_projectId a).
  destruct (ap_managed a) eqn:M; [split; try done; intros; congruence|]. destruct (nonempty (ap_projectId a)); cbn [negb]; split; try done.
  - intros _. right. by left.
  - intros _. by left.
Qed.
Lemma socket_closed_still r a : still a (socket_closed r a).
Proof. unfold socket_closed. destruct (hears _ _); [|by split]. eapply still_trans; [|apply onClose_still]. by split. Qed.
Lemma service_close_still a : still a (service_close a).
Proof.
  unfold service_close. destruct (sv_repository _); [|apply still_refl]. eapply still_trans; [apply socket_closed_still|]. by split.
Qed.
(** A heard close uses up the mark. *)
Lemma service_close_heard a : close_is_heard a = true -> ap_managed (service_close a) = false.
Proof.
  unfold close_is_heard, service_close. destruct (sv_repository _) as [r|]; [|done]. intros H.
  change (ap_managed (socket_closed r a) = false). unfold socket_closed. match goal with |- context [if hears r ?s then _ else _] => change (hears r s) with (hears r (ap_service a)) end.
  rewrite H. unfold onClose. match goal with |- context [if ap_managed ?x then _ else _] => destruct (ap_managed x) eqn:M end; [done|].
  destruct (negb _); exact M.
Qed.

(** ** The attempt *)

Lemma connect_over_session a : session_calls (ap_auth a) = [] -> session_calls (ap_auth (connect_over a)) = attempt_calls (ap_inFlight (connect_over a)).
Proof. done. Qed.
Lemma connect_failed_ok s message a : auth_ok (ap_auth a) -> session_calls (ap_auth a) = [] -> ap_managed a = false ->
  su_started (ap_supervisor a) = true ->
  (s = false -> ap_reconnecting a = false \/ ap_timer a = true \/ (su_ready (ap_supervisor a) = false /\ nonempty (ap_projectId a) = true)) -> app_ok (connect_failed s message a).
Proof.
  intros A S M T P. unfold connect_failed. destruct s.
  - match goal with |- app_ok (connect_over (if ?b then _ else _)) => destruct b end; split; try done; [right; by left|by left].
  - split; try done. destruct (P eq_refl) as [?|[?|?]]; [by left|by right; left|by do 3 right].
Qed.
Lemma connect_succeeded_ok p a : auth_ok (ap_auth a) -> session_calls (ap_auth a) = [] -> ap_managed a = false -> su_started (ap_supervisor a) = true ->
  app_ok (connect_succeeded p a).
Proof. intros A S M T. split; try done. by left. Qed.
Lemma session_result_inl a : auth_ok a -> sn_state (au_current a) = Authenticated -> exists s, session_result a = inl s.
Proof. intros [S _ _ _] E. unfold snapshot_ok in S. unfold session_result. rewrite E in *. destruct S as [(s & -> & _) _]. by exists s. Qed.
Lemma session_calls_app a c l : au_calls a = l ++ [c] -> session_calls a = filter (fun c => c = SessionCall) l ++ if decide (c = SessionCall) then [SessionCall] else [].
Proof. unfold session_calls. intros ->. rewrite filter_app, filter_cons. by destruct (decide (c = SessionCall)) as [->|]. Qed.

Lemma requireSession_ok a : auth_ok a -> auth_ok (requireSession a).
Proof. intros A. exact (auth_step_ok CallSession a _ A eq_refl). Qed.
Lemma connect_goes s a : auth_ok (ap_auth a) -> session_calls (ap_auth a) = attempt_calls (ap_inFlight a) -> ap_managed a = false ->
  su_started (ap_supervisor a) = true -> app_ok (connect s a) /\ ap_inFlight (connect s a) <> None.
Proof.
  intros A S M T. unfold connect. destruct (ap_inFlight a) as [t|] eqn:F.
  { split; [split; try done|by rewrite F]; [do 2 right; left|]; by rewrite F. }
  match goal with |- context [requireSession (ap_auth ?x)] => set (b := x) end.
  assert (ap_auth b = ap_auth a) as Eb by (unfold b; by destruct s). rewrite Eb.
  assert (ap_inFlight b = Some {| at_silent := s; at_phase := NeedSession |}) as Fb by (unfold b; by destruct s).
  assert (ap_managed b = false) as Mb by (unfold b; by destruct s).
  assert (su_started (ap_supervisor b) = true) as Tb by (unfold b; by destruct s).
  pose proof (requireSession_ok _ A) as A'. case_bool_decide as E.
  - assert (requireSession (ap_auth a) = session_over (ap_auth a)) as R by (unfold requireSession; by rewrite decide_True).
    destruct (session_result_inl (requireSession (ap_auth a)) A') as [st Est]; [by rewrite R|].
    match goal with |- context [session_settled s (session_result ?x)] => change x with (requireSession (ap_auth a)) end.
    rewrite Est. cbn [session_settled]. unfold open_repository, at_phase_.
    match goal with |- context [match ap_inFlight ?x with _ => _ end] => change (ap_inFlight x) with (ap_inFlight b) end. rewrite Fb.
    split; [|done]. split; [by do 2 right; left|exact A'| |exact Mb|exact Tb].
    change (session_calls (requireSession (ap_auth a)) = []). by rewrite R.
  - split; [|by change (ap_inFlight b <> None); rewrite Fb]. split; [|exact A'| |exact Mb|exact Tb].
    + do 2 right. left. change (ap_inFlight b <> None). by rewrite Fb.
    + change (session_calls (requireSession (ap_auth a)) = attempt_calls (ap_inFlight b)). rewrite Fb. unfold requireSession. rewrite decide_False by done.
      rewrite (session_calls_app _ SessionCall (au_calls (ap_auth a))); [|done]. change (session_calls (ap_auth a) ++ [SessionCall] = [SessionCall]). by rewrite S.
Qed.

(** ** The supervisor and the user *)

Lemma connect_ok s a : app_ok a -> app_ok (connect s a).
Proof. intros [P A S M T]. by apply connect_goes. Qed.
(** The same application under the supervisor [s]. *)
Definition under (s : supervisor) (a : app) : app := a{{ ap_supervisor := s }}.
Lemma disconnect_ok reason s a : app_ok a -> su_started s = true -> su_ready s = false -> close_is_heard a = true ->
  app_ok (disconnectForSupervisor reason (under s a)).
Proof.
  intros [_ A S _ _] T R C. unfold disconnectForSupervisor. cbv zeta. match goal with |- app_ok (service_close ?x) => set (w := x) end.
  assert (ap_auth w = ap_auth a /\ ap_inFlight w = ap_inFlight a /\ ap_supervisor w = s /\ ap_service w = ap_service a) as (E1 & E2 & E3 & E4)
    by (unfold w; by destruct reason).
  assert (progressing w) as Pw.
  { unfold progressing. rewrite E3. replace (ap_projectId w) with (ap_projectId a) by (unfold w; by destruct reason).
    destruct (nonempty (ap_projectId a)) eqn:N; [by do 3 right|]. left. unfold w. destruct reason; try done; by rewrite <- N. }
  pose proof (service_close_still w) as [F1 F2 F3 FP FM].
  split; [by apply FP|by rewrite F1, E1|by rewrite F1, F2, E1, E2|apply service_close_heard; unfold close_is_heard; by rewrite E4|by rewrite F3, E3].
Qed.
Lemma under_ok s a : app_ok a -> su_started s = true -> (su_ready s = true -> ap_reconnecting a = false \/ ap_timer a = true \/ ap_inFlight a <> None) -> app_ok (under s a).
Proof.
  intros [P A S M T] X R. split; [|exact A|exact S|exact M|exact X]. destruct P as [?|[?|[?|[N E]]]]; [by left|by right; left|by do 2 right; left|].
  destruct (su_ready s) eqn:Y; [|by do 3 right]. destruct (R eq_refl) as [?|[?|?]]; [by left|by right; left|by do 2 right; left].
Qed.
(** A supervisor that starts to connect makes up for the progress its state does not show. *)
Lemma tryConnect_ok s a : app_ok a -> su_started s = true -> app_ok (foldl (fun a h => call_hook h a) (under s a) (tryConnect s).2).
Proof.
  intros O T. pose proof O as [P A S M _]. unfold tryConnect. cbn [snd]. destruct (su_ready s) eqn:R; cbn [foldl call_hook].
  - change (ap_projectId (under s a)) with (ap_projectId a). destruct (nonempty (ap_projectId a)) eqn:N; [by apply connect_goes|].
    apply under_ok; [done|done|]. intros _. destruct P as [?|[?|[?|[_ ?]]]]; auto. by rewrite N in *.
  - apply under_ok; [done|done|]. by rewrite R.
Qed.
Lemma started_try s : su_started s = true -> handleOnline s = tryConnect s.
Proof. unfold handleOnline. by intros ->. Qed.

Lemma page_sees_ok hidden a : app_ok a -> (hidden = true -> ap_voice a = true \/ close_is_heard a = true) -> app_ok (page_sees hidden a).
Proof.
  intros O H. pose proof (k_started _ O) as T. unfold page_sees. set (s := (ap_supervisor a){{ su_hidden := hidden }}). assert (su_started s = true) as Ts by done.
  change (app_ok (supervise (handleVisibilityChange (negb (ap_voice a))) (under s a))).
  unfold supervise. change (ap_supervisor (under s a)) with s. unfold handleVisibilityChange. rewrite Ts. cbn [negb].
  change (su_hidden s) with hidden. destruct hidden; [|exact (tryConnect_ok s a O Ts)].
  set (s' := su_clearReconnectTimer s). assert (su_ready s' = false) as R by (change (su_started s && negb true && su_onLine s = false); by rewrite andb_false_r).
  destruct (ap_voice a) eqn:V; cbn [negb foldl call_hook].
  - apply (under_ok s' a O Ts). by rewrite R.
  - apply (disconnect_ok Background s' a O Ts R). by destruct (H eq_refl).
Qed.
Lemma network_ok onLine a : app_ok a -> (onLine = false -> close_is_heard a = true) -> app_ok (network onLine a).
Proof.
  intros O H. pose proof (k_started _ O) as T. unfold network. set (s := (ap_supervisor a){{ su_onLine := onLine }}). assert (su_started s = true) as Ts by done.
  change (app_ok (supervise (if onLine then handleOnline else handleOffline) (under s a))).
  unfold supervise. change (ap_supervisor (under s a)) with s. destruct onLine.
  - rewrite started_try by done. exact (tryConnect_ok s a O Ts).
  - unfold handleOffline. rewrite Ts. cbn [negb foldl call_hook]. set (s' := su_clearReconnectTimer s).
    assert (su_ready s' = false) as R by (change (su_started s && negb (su_hidden s) && false = false); by rewrite andb_false_r).
    exact (disconnect_ok Offline s' a O Ts R (H eq_refl)).
Qed.

(** Steps outside the attempt, the login and the supervisor. *)
Lemma user_close_ok (f : app -> app) a : close_is_heard a = true -> app_ok a ->
  (forall b, app_ok b -> app_ok (f b)) -> forall w, ap_auth w = ap_auth a -> ap_inFlight w = ap_inFlight a -> ap_supervisor w = ap_supervisor a ->
  ap_service w = ap_service a -> (progressing a -> progressing w) -> app_ok (f (service_close w)).
Proof.
  intros C [P A S M T] F w E1 E2 E3 E4 E5. apply F. pose proof (service_close_still w) as [F1 F2 F3 FP FM].
  split; [auto|by rewrite F1, E1|by rewrite F1, F2, E1, E2|apply service_close_heard; unfold close_is_heard; by rewrite E4|by rewrite F3, E3].
Qed.
Lemma with_auth_ok (u : auth) a : app_ok a -> auth_ok u -> session_calls u = session_calls (ap_auth a) -> app_ok (a{{ ap_auth := u }}).
Proof. intros [P A S M T] U E. split; [exact P|exact U| |exact M|exact T]. change (session_calls u = attempt_calls (ap_inFlight a)). by rewrite E. Qed.
Lemma check_keeps u : session_calls (check CheckCall u) = session_calls u.
Proof. rewrite (session_calls_app _ CheckCall (au_calls u)); [|done]. apply app_nil_r. Qed.
Lemma login_keeps t d u : session_calls (login t d u) = session_calls u.
Proof. rewrite (session_calls_app _ LoginCall (au_calls u)); [|done]. apply app_nil_r. Qed.
Lemma logout_keeps u : session_calls (logout u) = session_calls u.
Proof.
  unfold logout. destruct (_ ≫= _) as [csrf|]; [destruct (nonempty csrf)|]; try done.
  rewrite (session_calls_app _ LogoutCall (au_calls u)); [|done]. apply app_nil_r.
Qed.
Lemma answered_calls c answer u : au_calls (answered c answer u) = au_calls u.
Proof.
  assert (au_calls (checkAnswered answer u) = au_calls u) as K.
  { unfold checkAnswered. destruct answer as [st|[status m|m]]; try done. destruct status as [|p|p]; try done. by do 10 (try destruct p as [p|p|]). }
  destruct c; cbn [answered]; [exact K|exact K| |]; by destruct answer.
Qed.
Lemma delete_session k c u t : au_calls u !! k = Some c -> session_calls u = attempt_calls t ->
  session_calls (u{{ au_calls := delete k (au_calls u) }}) = (if decide (c = SessionCall) then [] else attempt_calls t) /\
  (c = SessionCall -> exists s, t = Some {| at_silent := s; at_phase := NeedSession |}).
Proof.
  intros E S. change (session_calls (u{{ au_calls := delete k (au_calls u) }})) with (filter (fun c => c = SessionCall) (delete k (au_calls u))).
  assert (attempt_calls t ≡ₚ filter (fun c => c = SessionCall) (c :: delete k (au_calls u))) as P by (rewrite <- S; unfold session_calls; by rewrite (delete_Permutation _ _ _ E) at 1).
  rewrite filter_cons in P. destruct (decide (c = SessionCall)) as [->|N].
  - destruct t as [[s []]|]; try (by apply Permutation_nil_cons in P). cbn in P. apply Permutation_cons_inv, Permutation_nil in P.
    split; [done|]. intros _. by exists s.
  - split; [|done]. destruct t as [[s []]|]; cbn in P |- *; try (by apply Permutation_nil in P). by apply Permutation_length_1_inv in P.
Qed.

Lemma session_settled_ok s r a : auth_ok (ap_auth a) -> session_calls (ap_auth a) = [] -> ap_managed a = false -> su_started (ap_supervisor a) = true ->
  (exists t, ap_inFlight a = Some t) ->
  (s = false -> ap_reconnecting a = false \/ ap_timer a = true \/ (su_ready (ap_supervisor a) = false /\ nonempty (ap_projectId a) = true)) ->
  app_ok (session_settled s r a).
Proof.
  intros A S M T [t F] P. destruct r as [st|m]; [|by apply connect_failed_ok]. cbn [session_settled]. unfold open_repository, at_phase_.
  match goal with |- context [match ap_inFlight ?x with _ => _ end] => change (ap_inFlight x) with (ap_inFlight a) end. rewrite F.
  split; [by do 2 right; left|exact A|exact S|exact M|exact T].
Qed.
Lemma seen s p a : ap_inFlight a = Some {| at_silent := s; at_phase := p |} -> failure_is_seen a = true ->
  s = false -> ap_reconnecting a = false \/ ap_timer a = true \/ (su_ready (ap_supervisor a) = false /\ nonempty (ap_projectId a) = true).
Proof.
  unfold failure_is_seen. intros -> H ->. cbn in H. destruct (ap_reconnecting a); [|by left]. destruct (ap_timer a); [by right; left|].
  cbn in H. apply andb_true_iff in H as [H1%negb_true_iff H2]. by do 2 right.
Qed.
Lemma authReplies_ok c k answer a : app_ok a -> au_calls (ap_auth a) !! k = Some c -> failure_is_seen a = true -> app_ok (authReplies c k answer a).
Proof.
  intros O E V. pose proof O as [P A S M T]. unfold authReplies.
  set (u := answered c (statusAnswered answer) ((ap_auth a){{ au_calls := delete k (au_calls (ap_auth a)) }})).
  assert (auth_ok u) as U by (apply (auth_step_ok (AuthAnswered k answer) (ap_auth a)); [done|]; cbn; by rewrite E).
  destruct (delete_session k c (ap_auth a) (ap_inFlight a) E S) as [D F].
  assert (session_calls u = if decide (c = SessionCall) then [] else attempt_calls (ap_inFlight a)) as Su.
  { rewrite <- D. unfold session_calls, u. by rewrite answered_calls. }
  assert (c <> SessionCall -> app_ok (a{{ ap_auth := u }})) as K.
  { intros N. apply with_auth_ok; [done|done|]. rewrite Su, S. by rewrite decide_False. }
  destruct c; try by apply K.
  - destruct (F eq_refl) as [s Es]. change (ap_inFlight (a{{ ap_auth := u }})) with (ap_inFlight a). rewrite Es. cbn [at_silent].
    apply session_settled_ok; [exact U|exact Su|exact M|exact T|by eexists|]. intros X. by apply (seen s NeedSession).
  - cbn zeta. destruct (bool_decide _); [apply connect_ok|]; by apply K.
Qed.

(** The attempt goes on to its next wait. *)
Lemma at_phase_ok s q p a b : app_ok a -> ap_inFlight a = Some {| at_silent := s; at_phase := q |} -> q <> NeedSession -> p <> NeedSession ->
  ap_auth b = ap_auth a -> ap_inFlight b = ap_inFlight a -> ap_supervisor b = ap_supervisor a -> ap_managed b = ap_managed a -> app_ok (at_phase_ p b).
Proof.
  intros [P A S M T] F Q Np E1 E2 E3 E4. unfold at_phase_. rewrite E2, F. split.
  - by do 2 right; left.
  - change (auth_ok (ap_auth b)). by rewrite E1.
  - change (session_calls (ap_auth b) = attempt_calls (Some {| at_silent := s; at_phase := p |})). rewrite E1, S, F. by destruct q, p.
  - change (ap_managed b = false). by rewrite E4.
  - change (su_started (ap_supervisor b) = true). by rewrite E3.
Qed.
Lemma attempt_fails_ok s q m a b : app_ok a -> ap_inFlight a = Some {| at_silent := s; at_phase := q |} -> q <> NeedSession -> failure_is_seen a = true ->
  ap_auth b = ap_auth a -> ap_supervisor b = ap_supervisor a -> ap_managed b = ap_managed a -> ap_reconnecting b = ap_reconnecting a ->
  ap_timer b = ap_timer a -> ap_projectId b = ap_projectId a -> app_ok (connect_failed s m b).
Proof.
  intros [P A S M T] F Q V E1 E2 E3 E4 E5 E6. apply connect_failed_ok; rewrite ?E1, ?E2, ?E3, ?E4, ?E5, ?E6; try done.
  - rewrite S, F. by destruct q.
  - intros X. by apply (seen s q).
Qed.
Lemma projectsListed_ok r s answer a : app_ok a -> ap_inFlight a = Some {| at_silent := s; at_phase := Listing r |} ->
  (forall m, answer = inr m -> failure_is_seen a = true) -> app_ok (projectsListed r s answer a).
Proof.
  intros O F V. destruct answer as [p|m]; cbn [projectsListed]; [by apply (at_phase_ok s (Listing r) _ a)|].
  eapply (attempt_fails_ok s (Listing r) m a); try done. by apply (V m).
Qed.
Lemma app_step_ok e a b : app_ok a -> steady e a = true -> app_step e a = Some b -> app_ok b.
Proof.
  intros O V. pose proof O as [P A S M T].
  destruct e as [k answer|answer|answer|answer|r| | | | | | | |active|ms| |token deviceName| | |]; cbn [app_step]; cbn in V.
  - destruct (au_calls (ap_auth a) !! k) as [c|] eqn:E; [|done]. intros [= <-]. by apply authReplies_ok.
  - destruct (ap_inFlight a) as [[s []]|] eqn:F; try done. intros [= <-]. destruct answer as [[]|m]; cbn [repositoryOpened].
    { by apply (at_phase_ok s (Opening r) _ a). }
    by eapply (attempt_fails_ok s (Opening r) m a).
  - destruct (ap_inFlight a) as [[s []]|] eqn:F; try done. intros [= <-]. apply projectsListed_ok; [done|done|]. by intros m ->.
  - destruct (ap_inFlight a) as [[s []]|] eqn:F; try done. intros [= <-]. destruct answer as [p|m]; cbn [projectSelected].
    { by apply connect_succeeded_ok. }
    by eapply (attempt_fails_ok s Selecting m a).
  - destruct (decide _); [|done]. intros [= <-]. by eapply still_ok; [apply socket_closed_still|].
  - destruct (ap_timer a) eqn:E; [|done]. intros [= <-]. by apply connect_goes.
  - destruct (su_timer _); [|done]. intros [= <-]. set (s := (ap_supervisor a){{ su_timer := false }}).
    assert (su_started s = true) as Ts by done. exact (tryConnect_ok s a O Ts).
  - intros [= <-]. set (s := su_clearReconnectTimer (ap_supervisor a)). assert (su_started s = true) as Ts by done. apply (under_ok s a O Ts). intros R. destruct P as [?|[?|[?|[N _]]]]; auto.
    change (su_ready (ap_supervisor a) = true) in R. congruence.
  - intros [= <-]. apply page_sees_ok; [done|]. intros _. rewrite T in V. destruct (ap_voice a); [by left|by right].
  - intros [= <-]. by apply page_sees_ok.
  - intros [= <-]. apply network_ok; [done|]. intros _. by rewrite T in V.
  - intros [= <-]. by apply network_ok.
  - intros [= <-]. by split.
  - destruct (0 <? ms); [|done]. intros [= <-]. by split.
  - destruct (_ && _); [|done]. intros [= <-]. by apply connect_ok.
  - destruct (connect_page a); [|done]. intros [= <-]. apply with_auth_ok; [done| |apply login_keeps].
    exact (auth_step_ok (CallLogin token deviceName) (ap_auth a) _ A eq_refl).
  - intros [= <-]. unfold handleRegistryDebugLogout. cbv zeta.
    match goal with |- context [service_close ?x] => set (w := x) end. apply (user_close_ok (fun b => b{{ ap_auth := logout (ap_auth b) }}) a); try done; [|by left].
    intros b B. apply with_auth_ok; [done| |apply logout_keeps]. exact (auth_step_ok CallLogout (ap_auth b) _ (k_auth _ B) eq_refl).
  - intros [= <-]. unfold returnToRegistryLogin. cbv zeta.
    apply (user_close_ok (fun b => b{{ ap_connected := false; ap_reconnecting := false; ap_auth := check CheckCall (ap_auth b) }}) a); try done.
    intros b B. enough (app_ok (b{{ ap_auth := check CheckCall (ap_auth b) }})) as [_ A' S' M' T'] by (by split; [left|..]).
    apply with_auth_ok; [done| |apply check_keeps]. exact (auth_step_ok CallCheck (ap_auth b) _ (k_auth _ B) eq_refl).
  - intros [= <-]. unfold autoConnectEffect. destruct (_ || _); [done|]. by apply connect_goes.
Qed.
Lemma app_init_ok hidden onLine : app_ok (app_init hidden onLine).
Proof.
  unfold app_init, supervise. cbn [su_start ap_supervisor su_started]. unfold su_start. cbn [su_started]. unfold tryConnect.
  destruct (su_ready _); cbn [foldl call_hook]; (split; [by left|apply auth_mounted_ok|done|done|done]).
Qed.

(** C10. While the workspace is shown as reconnecting, it is: in every run from the first
    render, however answers, closed sockets, timers, the network, the page's visibility and
    the user interleave, except for the two situations [steady] names, the application that
    shows it has a reconnect timer, an attempt to connect, or waits for the page to be seen
    again or the network to come back; an attempt that needs a session awaits the login
    controller; and when the connection of a selected project is lost, a reconnection is
    shown and its timer runs. *)
Theorem reconnection_goes_on hidden onLine es a :
  steady_run es (app_init hidden onLine) = true -> app_run es (app_init hidden onLine) = Some a ->
  (ap_reconnecting a = true -> ap_timer a = true \/ ap_inFlight a <> None \/ su_hidden (ap_supervisor a) = true \/ su_onLine (ap_supervisor a) = false) /\
  (forall s, ap_inFlight a = Some {| at_silent := s; at_phase := NeedSession |} -> SessionCall ∈ au_calls (ap_auth a)) /\
  (forall r, r ∈ sv_open (ap_service a) -> hears r (ap_service a) = true -> ap_projectId a <> ""%string ->
    exists b, app_step (SocketCloses r) a = Some b /\ ap_connected b = false /\ ap_reconnecting b = true /\ ap_timer b = true).
Proof.
  intros V R. assert (app_ok a) as [P A S M T].
  { pose proof (app_init_ok hidden onLine) as O. revert O V R. generalize (app_init hidden onLine).
    induction es as [|e es IH]; cbn; [by intros ? ? _ [= <-]|]. intros b O. destruct (steady e b) eqn:X; [|done]. cbn.
    destruct (app_step e b) as [c|] eqn:Y; [|done]. cbn. apply IH. by eapply app_step_ok. }
  split_and!.
  - intros X. destruct P as [?|[?|[?|[N _]]]]; [congruence|by left|by right; left|do 2 right]. unfold su_ready, isForeground, isOnline in N.
    rewrite T in N. destruct (su_hidden _); [by left|right]. by destruct (su_onLine _).
  - intros s F. rewrite F in S. cbn in S. assert (SessionCall ∈ session_calls (ap_auth a)) as I by (rewrite S; by left).
    by apply list_elem_of_filter in I as [_ I].
  - intros r I H N. cbn [app_step]. rewrite decide_True by done. eexists. split; [done|]. unfold socket_closed.
    match goal with |- context [if hears r ?s then _ else _] => change (hears r s) with (hears r (ap_service a)) end. rewrite H.
    unfold onClose. cbv zeta. match goal with |- context [if ap_managed ?x then _ else _] => change (ap_managed x) with (ap_managed a) end. rewrite M.
    match goal with |- context [if negb (nonempty ?x) then _ else _] => change x with (ap_projectId a) end.
    destruct (ap_projectId a); [done|]. done.
Qed.
End app.

(** * Runs *)

#[local] Existing Instance js_JSON.
(** What the page shows: connected, reconnecting, a timer, an attempt, the error. *)
Definition shows (a : app) : bool * bool * bool * option attempt * string :=
  (ap_connected a, ap_reconnecting a, ap_timer a, ap_inFlight a, ap_error a).
Definition opens (r : nat) : list app_event := [RepositoryOpens (inl tt); ProjectsArrive (inl "p"%string); ProjectSelected (inl "p"%string)].
Definition lost : string := "connection lost".
Definition online : app := app_init false true.
Definition connected_once : list app_event := AuthReplies 0 (Response 200 (inl logged_in)) :: AutoConnect :: opens 0.

Example a_lost_connection_comes_back :
  (a ← app_run connected_once online; Some (shows a)) = Some (true, false, false, None, ""%string) /\
  (a ← app_run (connected_once ++ [SocketCloses 0]) online; Some (shows a)) = Some (false, true, true, None, ""%string) /\
  (a ← app_run (connected_once ++ [SocketCloses 0; ReconnectTimer; RepositoryOpens (inr lost); Clock 1000; ReconnectTimer] ++ opens 2) online; Some (shows a)) =
  Some (true, false, false, None, ""%string).
Proof. vm_compute. split_and!; reflexivity. Qed.

Lemma reconnection_goes_on_witness :
  let a := default online (app_run (connected_once ++ [SocketCloses 0; ReconnectTimer]) online) in
  ap_reconnecting a = true /\
  (ap_timer a = true \/ ap_inFlight a <> None \/ su_hidden (ap_supervisor a) = true \/ su_onLine (ap_supervisor a) = false).
Proof.
  split; [vm_compute; reflexivity|].
  refine (proj1 (reconnection_goes_on false true (connected_once ++ [SocketCloses 0; ReconnectTimer]) _ _ _) _); vm_compute; reflexivity.
Defined.

(** After a failed attempt the service hears no repository, so a close for the hidden page
    leaves its mark, and the next connection that is lost is taken for a wanted close: no
    reconnection, and no word of it. *)
Lemma lost_connection_unnoticed :
  (a ← app_run (connected_once ++ [SocketCloses 0; ReconnectTimer; RepositoryOpens (inr lost); PageHidden; PageShown] ++ opens 2) online;
   Some (shows a)) = Some (true, false, false, None, ""%string) /\
  (a ← app_run (connected_once ++ [SocketCloses 0; ReconnectTimer; RepositoryOpens (inr lost); PageHidden; PageShown] ++ opens 2 ++ [SocketCloses 2]) online;
   Some (shows a)) = Some (false, false, false, None, ""%string).
Proof. vm_compute. split; reflexivity. Qed.
(** The user connects, leaves the page and comes back before the attempt fails: the page
    stays reconnecting with nothing under way. *)
Lemma stuck_reconnecting :
  (a ← app_run (connected_once ++ [SocketCloses 0; Clock 30000; ReconnectTimer; RepositoryOpens (inr lost);
                                   UserConnects; PageHidden; PageShown; RepositoryOpens (inr lost)]) online;
   Some (shows a)) = Some (false, true, false, None, lost).
Proof. vm_compute. reflexivity. Qed.
(** The network comes back on a connection that was never lost, and connecting again fails
    until the grace period is over: the page stays connected to a repository nobody hears. *)
Lemma deaf_connection :
  (a ← app_run (connected_once ++ [NetworkBack; RepositoryOpens (inr lost); Clock 30000; ReconnectTimer; RepositoryOpens (inr lost); SocketCloses 0]) online;
   Some (ap_connected a, ap_reconnecting a, ap_timer a, sv_open (ap_service a))) = Some (true, false, false, []).
Proof. vm_compute. reflexivity. Qed.
(** The message divides the milliseconds by 15000, where a second has 1000. *)
Lemma grace_message_seconds : grace_message = "Registry reconnect failed for 2s. Please reconnect manually."%string /\ RECONNECT_GRACE_PERIOD_MS = 30 * 1000.
Proof. vm_compute. split; reflexivity. Qed.
