(* ===== verification/SettingsViews.v ===== *)
(** What the settings pages show: [settings/skillManagementView.ts],
    [settings/agentPackageUpdateView.ts], [settings/settingsNavigation.ts] and
    [settings/connectionStatus.ts].

    A command pasted as a skill source is split like a shell does it, and the source and the
    skills it names are found; skills are grouped by category; statuses get their labels. *)

From S2P Require Import Prelude Json Collation Grouping.
Open Scope Z_scope.

(** * Skill sources *)

Record ParsedSkillSourceInput := { sk_source : string; sk_skillNames : list string }.

(** The loop of [splitSkillSourceInput]: tokens, current token, open quote, escaping. *)
Record splitter := { sp_tokens : list string; sp_current : list ascii; sp_quote : option ascii; sp_escaping : bool }.
Definition single_quote : ascii := ascii_of_code 39.
Definition pushCurrent (s : splitter) : splitter :=
  match sp_current s with
  | [] => s
  | current => {| sp_tokens := sp_tokens s ++ [unchars current]; sp_current := []; sp_quote := sp_quote s; sp_escaping := sp_escaping s |}
  end.
Definition take_char (c : ascii) (s : splitter) : splitter :=
  {| sp_tokens := sp_tokens s; sp_current := sp_current s ++ [c]; sp_quote := sp_quote s; sp_escaping := false |}.
Definition set_quote (q : option ascii) (s : splitter) : splitter :=
  {| sp_tokens := sp_tokens s; sp_current := sp_current s; sp_quote := q; sp_escaping := sp_escaping s |}.
Definition split_step (s : splitter) (c : ascii) : splitter :=
  if sp_escaping s then take_char c s
  else if bool_decide (c = backslash) && negb (bool_decide (sp_quote s = Some single_quote)) then
    {| sp_tokens := sp_tokens s; sp_current := sp_current s; sp_quote := sp_quote s; sp_escaping := true |}
  else match sp_quote s with
  | Some q => if bool_decide (c = q) then set_quote None s else take_char c s
  | None =>
    if bool_decide (c = quote_char) || bool_decide (c = single_quote) then set_quote (Some c) s
    else if is_space c then pushCurrent s else take_char c s
  end.
Definition split_start : splitter := {| sp_tokens := []; sp_current := []; sp_quote := None; sp_escaping := false |}.
Definition splitSkillSourceInput (input : string) : list string := sp_tokens (pushCurrent (foldl split_step split_start (chars (trim input)))).

(** The token after [skills add], or else the first that is no option. *)
Fixpoint after_skills_add (tokens : list string) : option string :=
  match tokens with
  | a :: rest =>
    match rest with
    | b :: c :: _ => if bool_decide (toLowerCase a = "skills"%string) && bool_decide (toLowerCase b = "add"%string) then Some c else after_skills_add rest
    | _ => None
    end
  | [] => None
  end.
Definition no_option (token : string) : bool := nonempty token && negb (startsWith token "-").
Definition findSkillSourceToken (tokens : list string) : string :=
  match after_skills_add tokens with Some source => source | None => default "" (head (bfilter no_option tokens)) end.
(** [collecting] after [--skill]. *)
Fixpoint skill_values (collecting : bool) (tokens : list string) : list string :=
  match tokens with
  | [] => []
  | token :: rest =>
    if collecting && no_option token then token :: skill_values true rest
    else if bool_decide (token = "--skill"%string) then skill_values true rest
    else if startsWith token "--skill=" then slice_from 8 token :: skill_values false rest
    else skill_values false rest
  end.
Definition extractSkillNamesFromTokens (tokens : list string) : list string := unique (bfilter nonempty (map trim (skill_values false tokens))).
Definition parseSkillSourceInput (input : string) : ParsedSkillSourceInput :=
  match splitSkillSourceInput input with
  | [] => {| sk_source := ""; sk_skillNames := [] |}
  | tokens => {| sk_source := findSkillSourceToken tokens; sk_skillNames := extractSkillNamesFromTokens tokens |}
  end.

(** * Skills *)

Record RegistrySkillSnapshot := { sk_name : string; sk_category : string; sk_categoryKey : string; sk_rest : value }.
Record SkillCategoryGroup := { cg_category : string; cg_categoryKey : string; cg_skills : list RegistrySkillSnapshot }.
Record RegistrySkillProjectSnapshot := { kp_projectName : string; kp_online : bool; kp_rest : value }.
Section collated.
Context `{Collation}.

Definition categoryKeyOf (s : RegistrySkillSnapshot) : string := str_or (trim (sk_categoryKey s)) "general".
Definition categoryOf (s : RegistrySkillSnapshot) : string := str_or (trim (sk_category s)) "General".
Definition fresh_category (s : RegistrySkillSnapshot) : SkillCategoryGroup :=
  {| cg_category := categoryOf s; cg_categoryKey := categoryKeyOf s; cg_skills := [s] |}.
Definition add_skill (g : SkillCategoryGroup) (s : RegistrySkillSnapshot) : SkillCategoryGroup :=
  {| cg_category := cg_category g; cg_categoryKey := cg_categoryKey g; cg_skills := cg_skills g ++ [s] |}.
Definition sort_skills (g : SkillCategoryGroup) : SkillCategoryGroup :=
  {| cg_category := cg_category g; cg_categoryKey := cg_categoryKey g; cg_skills := js_sort (fun a b => localeCompare (sk_name a) (sk_name b)) (cg_skills g) |}.
Definition compare_categories (a b : SkillCategoryGroup) : Z :=
  if bool_decide (cg_categoryKey a = "general"%string) then 1
  else if bool_decide (cg_categoryKey b = "general"%string) then -1
  else localeCompare (cg_category a) (cg_category b).
Definition category_groups (skills : list RegistrySkillSnapshot) : list (string * SkillCategoryGroup) := group_by categoryKeyOf fresh_category add_skill skills.
Definition groupSkillsByCategory (skills : list RegistrySkillSnapshot) : list SkillCategoryGroup :=
  js_sort compare_categories (map (fun g => sort_skills g.2) (category_groups skills)).
Definition compare_skill_projects (a b : RegistrySkillProjectSnapshot) : Z :=
  if Bool.eqb (kp_online a) (kp_online b) then localeCompare (kp_projectName a) (kp_projectName b) else if kp_online a then -1 else 1.
Definition sortSkillProjects (projects : list RegistrySkillProjectSnapshot) : list RegistrySkillProjectSnapshot := js_sort compare_skill_projects projects.
Definition deriveSkillHubIds (hubs : list string) : list string := js_sort localeCompare (unique (bfilter nonempty (map trim hubs))).
End collated.

Definition skillOperationStatusLabel (status : string) : string :=
  if bool_decide (status = "running"%string) then "Running" else if bool_decide (status = "succeeded"%string) then "Succeeded"
  else if bool_decide (status = "failed"%string) then "Failed" else str_or status "Unknown".
Inductive RegistrySkillScope := HubScope | ProjectScope.
Definition skillScopeLabel (scope : RegistrySkillScope) (hubId : string) (projectName : option string) : string :=
  match scope with ProjectScope => trim ("Project: " +:+ default "" projectName) | HubScope => "Hub: " +:+ hubId end.
Definition scope_text (scope : RegistrySkillScope) : string := match scope with HubScope => "hub" | ProjectScope => "project" end.
Definition skillDetailCacheKey (hubId : string) (scope : RegistrySkillScope) (projectName : option string) (skillName : string) : string :=
  join ":" [hubId; scope_text scope; default "" projectName; skillName].
Definition isSkillActionPendingForHub (pendingKey hubId : string) : bool :=
  let normalizedHubId := trim hubId in
  if negb (nonempty pendingKey) || negb (nonempty normalizedHubId) then false
  else bool_decide (head (split (ascii_of_code 58) pendingKey) = Some normalizedHubId).

(** * Packages *)

Record RegistryNpmPackage := { np_packageName : string; np_displayName : string; np_installedVersion : string; np_latestVersion : string; np_canInstall : bool; np_canUpdate : bool }.
Record NpmPackageUpdateTarget := { nt_packageName : string; nt_displayName : string; nt_installedVersion : string; nt_latestVersion : string }.
Definition status_label (labels : list (string * string)) (status : string) : string := default (str_or status "Unknown") (dget labels status).
Definition packageStatusLabel : string -> string := status_label
  [("checking_latest", "Checking latest"); ("not_installed", "Not installed"); ("up_to_date", "Up to date"); ("update_available", "Update available");
   ("latest_unknown", "Latest unknown"); ("checking_failed", "Checking failed"); ("deprecated", "Deprecated"); ("installing", "Installing");
   ("updating", "Updating"); ("uninstalling", "Uninstalling"); ("running", "Running"); ("succeeded", "Succeeded"); ("failed", "Failed")]%string.
Definition wheelMakerUpdateStatusLabel : string -> string := status_label
  [("up_to_date", "Up to date"); ("update_available", "Update available"); ("update_pending", "Update pending"); ("not_published", "Not published");
   ("checking_failed", "Checking failed"); ("ahead_of_remote", "Ahead of remote"); ("diverged", "Diverged")]%string.
Definition deriveNpmPackageUpdateTargets (packages : list RegistryNpmPackage) : list NpmPackageUpdateTarget :=
  map (fun p => {| nt_packageName := np_packageName p; nt_displayName := np_displayName p; nt_installedVersion := np_installedVersion p; nt_latestVersion := np_latestVersion p |})
    (bfilter (fun p => np_canInstall p || np_canUpdate p) packages).
Definition npmPackageUpdateSummary (count : Z) : string :=
  if count <=? 0 then "No npm updates" else pretty count +:+ " npm " +:+ (if count =? 1 then "update" else "updates").
Record RegistryWheelMakerUpdateResponse := { wu_pendingSignal : value; wu_canUpdatePublish : value }.
Definition is_true (v : value) : bool := match v with VBool true => true | _ => false end.
Definition shouldShowWheelMakerUpdateAction (data : option RegistryWheelMakerUpdateResponse) (loading pending : bool) : bool :=
  if pending || match data with Some d => is_true (wu_pendingSignal d) | None => false end then true
  else match data with Some d => if loading then false else is_true (wu_canUpdatePublish d) | None => false end.

(** [withAgentPackageTimeout]: the promise it returns, and its timer. *)
Record timed (A : Type) := { tm_outcome : option (A + string); tm_timer : bool }.
Arguments tm_outcome {A}. Arguments tm_timer {A}.
Definition withAgentPackageTimeout {A} : timed A := {| tm_outcome := None; tm_timer := true |}.
Definition settle_once {A} (t : timed A) (o : A + string) : option (A + string) := match tm_outcome t with Some o' => Some o' | None => Some o end.
Definition promise_settles {A} (o : A + string) (t : timed A) : timed A := {| tm_outcome := settle_once t o; tm_timer := false |}.
Definition timer_fires {A} (message : string) (t : timed A) : timed A :=
  if tm_timer t then {| tm_outcome := settle_once t (inr message); tm_timer := false |} else t.

(** * Pages *)

Inductive SettingsPageKind := RootPage | PeerPage | ChildPage.
Definition SETTINGS_PEER_DETAILS : list string := ["update"; "skills"; "portRelay"; "tokenStats"]%string.
Definition SETTINGS_CHILD_DETAILS : list string := ["connectionStatus"; "database"; "debugLogs"; "deviceSessions"; "skillDetail"]%string.
(** A detail is any value; [includes] finds only texts. *)
Definition includes_detail (l : list string) (detail : value) : bool := match detail with VStr s => bool_decide (s ∈ l) | _ => false end.
Definition isSettingsPeerDetail : value -> bool := includes_detail SETTINGS_PEER_DETAILS.
Definition isSettingsChildDetail : value -> bool := includes_detail SETTINGS_CHILD_DETAILS.
Definition isSettingsDetailId (detail : value) : bool := isSettingsPeerDetail detail || isSettingsChildDetail detail.
Definition settingsPageKind (detail : value) : SettingsPageKind :=
  if isSettingsPeerDetail detail then PeerPage else if isSettingsChildDetail detail then ChildPage else RootPage.
Definition mobileSettingsShortcutIndex (detail : value) : nat :=
  match detail with
  | VStr s => if bool_decide (s = "update"%string) then 1 else if bool_decide (s = "skills"%string) then 2
              else if bool_decide (s = "portRelay"%string) then 3 else if bool_decide (s = "tokenStats"%string) then 4 else 0
  | _ => 0
  end%nat.

Record ConnectionStatusLine := { cl_label : string; cl_detail : string }.
Definition resolveRegistryConnectionStatus (connected reconnecting autoConnecting : bool) (baseURL : string) : ConnectionStatusLine :=
  {| cl_label := if connected then "Connected" else if reconnecting then "Reconnecting" else if autoConnecting then "Connecting" else "Disconnected";
     cl_detail := str_or baseURL "Page base URL unavailable" |}.
Definition resolveVoiceCapabilityStatus (speechEnabled androidNativeHost androidNativeAvailable : bool) : ConnectionStatusLine :=
  if negb speechEnabled then {| cl_label := "Disabled"; cl_detail := "Voice input is off" |}
  else if androidNativeAvailable then {| cl_label := "Android Native"; cl_detail := "APK microphone capture, direct Doubao connection" |}
  else if androidNativeHost then {| cl_label := "Unavailable"; cl_detail := "Android native speech bridge is missing" |}
  else {| cl_label := "Registry"; cl_detail := "Registry speech bridge" |}.

(** * A command and its parts *)

(** A token between double quotes, and a command of such tokens. *)
Definition escaped (c : ascii) : list ascii := if bool_decide (c = quote_char) || bool_decide (c = backslash) then [backslash; c] else [c].
Definition quoted (token : string) : list ascii := quote_char :: concat (map escaped (chars token)) ++ [quote_char].
Definition space : ascii := ascii_of_code 32.
Fixpoint command (tokens : list string) : list ascii :=
  match tokens with [] => [] | [token] => quoted token | token :: rest => quoted token ++ space :: command rest end.

Definition splitting (tokens : list string) (current : list ascii) (quote : option ascii) : splitter :=
  {| sp_tokens := tokens; sp_current := current; sp_quote := quote; sp_escaping := false |}.
Lemma split_body tokens current s :
  foldl split_step (splitting tokens current (Some quote_char)) (concat (map escaped s)) = splitting tokens (current ++ s) (Some quote_char).
Proof.
  revert current. induction s as [|c s IH]; intros current; [by rewrite app_nil_r|]. cbn [map concat]. rewrite foldl_app.
  assert (foldl split_step (splitting tokens current (Some quote_char)) (escaped c) = splitting tokens (current ++ [c]) (Some quote_char)) as ->.
  { unfold escaped. destruct (decide (c = quote_char)) as [->|N1]; [done|]. rewrite (bool_decide_false (c = quote_char)) by done. cbn [orb].
    destruct (decide (c = backslash)) as [->|N2]; [done|]. rewrite (bool_decide_false (c = backslash)) by done. cbn [foldl]. unfold split_step.
    cbn [splitting sp_escaping sp_quote]. rewrite (bool_decide_false (c = backslash)) by done. cbn [andb]. by rewrite bool_decide_false. }
  rewrite IH. by rewrite <- (assoc_L (++)).
Qed.
Lemma split_quoted tokens token : foldl split_step (splitting tokens [] None) (quoted token) = splitting tokens (chars token) None.
Proof.
  unfold quoted. cbn [foldl]. change (split_step (splitting tokens [] None) quote_char) with (splitting tokens [] (Some quote_char)).
  by rewrite foldl_app, split_body.
Qed.
Lemma push_token tokens token : token <> ""%string -> pushCurrent (splitting tokens (chars token) None) = splitting (tokens ++ [token]) [] None.
Proof. intros N. unfold pushCurrent. cbn [splitting sp_current]. destruct (chars token) eqn:E; [by destruct token|]. rewrite <- E. by rewrite unchars_chars. Qed.
Lemma split_command tokens rest : Forall (fun t => t <> ""%string) rest ->
  sp_tokens (pushCurrent (foldl split_step (splitting tokens [] None) (command rest))) = tokens ++ rest.
Proof.
  revert tokens. induction rest as [|token rest IH]; intros tokens F; [by rewrite app_nil_r|]. apply Forall_cons in F as [N F].
  destruct rest as [|token' rest].
  - cbn [command]. by rewrite split_quoted, push_token.
  - change (command (token :: token' :: rest)) with (quoted token ++ space :: command (token' :: rest)). rewrite foldl_app, split_quoted. cbn [foldl].
    change (split_step (splitting tokens (chars token) None) space) with (pushCurrent (splitting tokens (chars token) None)).
    rewrite push_token by done. rewrite IH by done. by rewrite <- (assoc_L (++)).
Qed.
Lemma command_ends tokens : tokens <> [] -> exists l, command tokens = quote_char :: l /\ last (quote_char :: l) = Some quote_char.
Proof.
  induction tokens as [|token rest IH]; [done|]. intros _. destruct rest as [|token' rest].
  - eexists. split; [reflexivity|]. rewrite app_comm_cons. apply last_snoc.
  - destruct (IH ltac:(done)) as (l & E & L). change (command (token :: token' :: rest)) with (quoted token ++ space :: command (token' :: rest)).
    rewrite E. eexists. split; [reflexivity|]. rewrite !app_comm_cons, last_app. by rewrite !last_cons_cons, L.
Qed.
Lemma trim_ends l : last (quote_char :: l) = Some quote_char -> trim (unchars (quote_char :: l)) = unchars (quote_char :: l).
Proof.
  intros L. unfold trim. rewrite chars_unchars. change (drop_space (quote_char :: l)) with (quote_char :: l). f_equal.
  apply last_Some in L as [l' ->]. rewrite reverse_snoc. change (drop_space (quote_char :: reverse l')) with (quote_char :: reverse l').
  by rewrite reverse_cons, reverse_involutive.
Qed.
Lemma split_command_back tokens : Forall (fun t => t <> ""%string) tokens -> splitSkillSourceInput (unchars (command tokens)) = tokens.
Proof.
  intros F. destruct (decide (tokens = [])) as [->|N]; [done|]. destruct (command_ends tokens N) as (l & E & L). unfold splitSkillSourceInput.
  rewrite E, trim_ends, chars_unchars, <- E by done. by apply (split_command []).
Qed.

Definition option_value (name : string) : Prop := no_option name = true /\ trim name = name.
Lemma skill_values_all names : Forall option_value names -> skill_values true names = names.
Proof. induction 1 as [|name names [O _] _ IH]; [done|]. cbn [skill_values]. rewrite O. cbn [andb]. by rewrite IH. Qed.
Lemma trimmed_values names : Forall option_value names -> bfilter nonempty (map trim names) = names.
Proof.
  induction 1 as [|name names [O T] _ IH]; [done|]. cbn [map List.filter]. rewrite T. unfold no_option in O. apply andb_true_iff in O as [-> _]. by rewrite IH.
Qed.
Lemma no_option_token token : no_option token = true -> token <> "--skill"%string /\ startsWith token "--skill=" = false.
Proof.
  unfold no_option. intros [_ O%negb_true_iff]%andb_true_iff. split; [by intros ->|]. destruct token as [|c token]; [done|].
  unfold startsWith in *. cbn [String.prefix] in *. destruct (ascii_dec _ _); [|done]. destruct token; done.
Qed.
(** The command the skills pages document is understood: the source and the skills, each
    once, are those it names, however they are quoted. *)
Lemma skill_command_roundtrip source names : no_option source = true -> Forall option_value names ->
  parseSkillSourceInput (unchars (command (["npx"; "skills"; "add"; source; "--skill"]%string ++ names))) =
  {| sk_source := source; sk_skillNames := unique names |}.
Proof.
  intros S F. unfold parseSkillSourceInput. rewrite split_command_back.
  2:{ assert (forall name, no_option name = true -> name <> ""%string) as E by (by intros ? ? ->). repeat (constructor; [try done; by apply E|]).
      eapply Forall_impl; [exact F|]. intros name [O _]. by apply E. }
  assert (skill_values false ("npx" :: "skills" :: "add" :: source :: "--skill" :: names)%string = names) as E.
  { change (skill_values false ("npx" :: "skills" :: "add" :: source :: "--skill" :: names)%string) with (skill_values false (source :: "--skill"%string :: names)).
    destruct (no_option_token source S) as [N1 N2]. transitivity (skill_values true names); [|by apply skill_values_all].
    cbn [skill_values]. by rewrite N2, (bool_decide_false (source = "--skill"%string)). }
  cbn [app]. unfold extractSkillNamesFromTokens. rewrite E, trimmed_values by done.
  by f_equal.
Qed.

(** * Categories *)

Section categories.
Context `{Collation}.
Lemma category_group_of l g : group_of fresh_category add_skill l = Some g ->
  cg_skills g = l /\ (forall s, head l = Some s -> cg_categoryKey g = categoryKeyOf s).
Proof.
  destruct l as [|s l]; [done|]. cbn. intros [= <-]. revert s. induction l as [|t l IH] using rev_ind; intros s; [split; [done|by intros s' [= ->]]|].
  rewrite foldl_app. cbn. destruct (IH s) as [IH1 IH2]. split; [by rewrite IH1|]. intros s' E. by apply IH2.
Qed.
(** Every skill is in one group, with those of its category. *)
Lemma skill_groups_partition skills :
  NoDup (map cg_categoryKey (groupSkillsByCategory skills)) /\
  mjoin (map cg_skills (groupSkillsByCategory skills)) ≡ₚ skills /\
  Forall (fun g => cg_skills g <> [] /\ Forall (fun s => categoryKeyOf s = cg_categoryKey g) (cg_skills g)) (groupSkillsByCategory skills).
Proof.
  assert (forall k g, (k, g) ∈ category_groups skills -> k = cg_categoryKey g /\ cg_skills g = members categoryKeyOf k skills /\ cg_skills g <> []) as G.
  { intros k g I%elem_of_group_by. pose proof (category_group_of _ _ I) as [E K]. destruct (members categoryKeyOf k skills) as [|s l] eqn:M; [done|].
    assert (s ∈ members categoryKeyOf k skills) as X by (rewrite M; by left). apply elem_of_bfilter in X as [_ X%bool_decide_eq_true].
    split_and!; [rewrite (K s eq_refl); by rewrite X|done|by rewrite E]. }
  pose proof (js_sort_perm compare_categories (map (fun g => sort_skills g.2) (category_groups skills))) as P. fold (groupSkillsByCategory skills) in P.
  split_and!.
  - rewrite P, map_map. replace (map _ (category_groups skills)) with (dkeys (category_groups skills)); [apply group_by_NoDup|].
    unfold dkeys. apply map_ext_in. intros [k g] I%list_elem_of_In. by destruct (G k g I) as [? _].
  - rewrite P, map_map.
    assert (forall l, (forall k g, (k, g) ∈ l -> (k, g) ∈ category_groups skills) ->
      mjoin (map (fun g : string * SkillCategoryGroup => cg_skills (sort_skills g.2)) l) ≡ₚ mjoin (map (fun k => members categoryKeyOf k skills) (dkeys l))) as ->.
    { induction l as [|[k g] l IH]; intros I; [done|]. cbn [map dkeys mjoin list_join]. fold (dkeys l). destruct (G k g) as (_ & E & _); [apply I; by left|].
      cbn [snd fst]. unfold sort_skills at 1. cbn [cg_skills]. rewrite js_sort_perm, E. f_equiv. apply IH. intros k' g' I'. apply I. by right. }
    2: done. unfold category_groups. rewrite dkeys_group_by. apply members_perm; [apply NoDup_unique|]. intros s I. apply elem_of_unique, list_elem_of_fmap. by exists s.
  - rewrite P. apply Forall_forall. intros g' I. apply list_elem_of_fmap in I as ([k g] & -> & I). destruct (G k g I) as (-> & E & N). cbn [snd sort_skills cg_skills cg_categoryKey].
    split.
    { intros X. apply N, Permutation_nil. pose proof (js_sort_perm (fun a b => localeCompare (sk_name a) (sk_name b)) (cg_skills g)) as Y. by rewrite X in Y. }
    rewrite js_sort_perm, E. apply Forall_forall. intros s X. by apply elem_of_bfilter in X as [_ X%bool_decide_eq_true].
Qed.
End categories.

(** * Pages and promises *)

(** The shortcut of a page is its place among the peers, from 1. *)
Lemma shortcut_is_place detail :
  (settingsPageKind detail = PeerPage <-> mobileSettingsShortcutIndex detail <> O) /\
  (forall s, detail = VStr s -> mobileSettingsShortcutIndex detail <> O -> SETTINGS_PEER_DETAILS !! pred (mobileSettingsShortcutIndex detail) = Some s).
Proof.
  destruct detail as [| | | |s| |]; try by split. unfold settingsPageKind, isSettingsPeerDetail, isSettingsChildDetail, includes_detail, mobileSettingsShortcutIndex.
  destruct (decide (s = "update"%string)) as [->|N1]; [by split; [|intros ? [= <-]]|].
  destruct (decide (s = "skills"%string)) as [->|N2]; [by split; [|intros ? [= <-]]|].
  destruct (decide (s = "portRelay"%string)) as [->|N3]; [by split; [|intros ? [= <-]]|].
  destruct (decide (s = "tokenStats"%string)) as [->|N4]; [by split; [|intros ? [= <-]]|].
  assert (s ∉ SETTINGS_PEER_DETAILS) as N by (unfold SETTINGS_PEER_DETAILS; rewrite !not_elem_of_cons; split_and!; try done; apply not_elem_of_nil).
  rewrite (bool_decide_false (s ∈ _)), (bool_decide_false (s = "update"%string)), (bool_decide_false (s = "skills"%string)),
    (bool_decide_false (s = "portRelay"%string)), (bool_decide_false (s = "tokenStats"%string)) by done.
  destruct (bool_decide _); (split; [by split|]); by intros ? _ [].
Qed.
(** The promise settles once, with what comes first, and its timer is cleared. *)
Lemma timed_settles_once {A} (o o' : A + string) message :
  tm_outcome (promise_settles o withAgentPackageTimeout) = Some o /\
  timer_fires message (promise_settles o withAgentPackageTimeout) = promise_settles o withAgentPackageTimeout /\
  tm_outcome (promise_settles o (timer_fires message withAgentPackageTimeout)) = Some (inr message).
Proof. by split. Qed.
(** Keys of different skills of a project are the same when names hold colons. *)
Lemma skill_key_collision : skillDetailCacheKey "h" ProjectScope (Some "a"%string) "b:c" = skillDetailCacheKey "h" ProjectScope (Some "a:b"%string) "c".
Proof. reflexivity. Qed.
