(* ===== verification/Diagnostics.v ===== *)
(** The diagnostic logs: [debug/redaction.ts], which takes secrets out of what is logged,
    the store of application diagnostics ([debug/appDiagnostics.ts], with the spans of
    [debug/workspaceDiagnostics.ts]) and the log of registry messages
    ([debug/registryDebug.ts]).

    What is redacted is a graph of objects, since [redactDiagnosticValue] tells objects apart
    that it has seen: a heap of arrays and objects, and values that refer to it.  Its result
    is a tree.  Times of the day in the local zone are the engine's. *)

From coqutil Require Import Datatypes.RecordSetters.
From S2P Require Import Prelude Json RegExp.
Import DoubleBraceUpdate.
Open Scope Z_scope.

(** * Redaction *)

Inductive prim := PUndefined | PNull | PBool (b : bool) | PNum (n : num) | PStr (s : string).
Definition prim_value (p : prim) : value :=
  match p with PUndefined => VUndefined | PNull => VNull | PBool b => VBool b | PNum n => VNum n | PStr s => VStr s end.
Inductive jsval := JPrim (p : prim) | JRef (l : nat).
Inductive node := JArr (items : list jsval) | JObj (props : list (string * jsval)).
Notation heap := (gmap nat node).

Definition REDACTED_DIAGNOSTIC_VALUE : value := VStr "[redacted]".
Definition MAX_REDACTION_DEPTH : nat := 16.
Definition MAX_REDACTION_NODES : Z := 10000.
Definition REDACTION_ALLOWLIST : list string :=
  ["accesscodegeneration"; "cachedinputtokens"; "inputtokens"; "outputtokens"; "reasoningtokens"; "tokencount"; "totaltokens"]%string.
Definition SENSITIVE_KEY_SUFFIXES : list string :=
  ["authorization"; "credential"; "accesscode"; "password"; "setcookie"; "appsecret"; "apikey"; "cookie"; "secret"; "token"; "nonce"; "csrf"]%string.
Definition OMITTED_PAYLOAD_KEYS : list string := ["pcm"; "base64"]%string.

Definition key_mark (c : ascii) : bool := let n := code c in (n =? 45) || (n =? 95) || (n =? 46).
Definition normalizeDiagnosticKey (key : string) : string := unchars (bfilter (fun c => negb (key_mark c)) (chars (toLowerCase (trim key)))).
Definition isSensitiveDiagnosticKey (key : string) : bool :=
  let normalized := normalizeDiagnosticKey key in
  if bool_decide (normalized ∈ REDACTION_ALLOWLIST) then false else existsb (fun suffix => endsWith normalized suffix) SENSITIVE_KEY_SUFFIXES.

(** [input.map(f)] and the loop over the entries, with the state of the visit. *)
Fixpoint visit_all {A B S : Type} (f : A -> S -> B * S) (l : list A) (st : S) : list B * S :=
  match l with
  | [] => ([], st)
  | x :: l => let '(y, st) := f x st in let '(ys, st) := visit_all f l st in (y :: ys, st)
  end.

Section redact.
Context (h : heap) (additionalSensitiveKeys : list string).
Definition redacted_key (key : string) : bool :=
  isSensitiveDiagnosticKey key || bool_decide (normalizeDiagnosticKey key ∈ map normalizeDiagnosticKey additionalSensitiveKeys).
Definition omitted_key (key : string) : bool := bool_decide (normalizeDiagnosticKey key ∈ OMITTED_PAYLOAD_KEYS).
Definition visit_entry {A S} (f : A -> S -> value * S) (e : string * A) (st : S) : (string * value) * S :=
  if redacted_key e.1 then ((e.1, REDACTED_DIAGNOSTIC_VALUE), st)
  else if omitted_key e.1 then ((e.1, VStr "[omitted]"), st)
  else let '(v, st) := f e.2 st in ((e.1, v), st).
(** [levels] below the greatest depth; the state is what was seen and how many were. *)
Fixpoint visit (levels : nat) (input : jsval) (st : gset nat * Z) : value * (gset nat * Z) :=
  match levels with
  | O => (REDACTED_DIAGNOSTIC_VALUE, st)
  | S levels =>
    if MAX_REDACTION_NODES <=? st.2 then (REDACTED_DIAGNOSTIC_VALUE, st) else
    let st := (st.1, st.2 + 1) in
    match input with
    | JPrim p => (prim_value p, st)
    | JRef l =>
      if decide (l ∈ st.1) then (REDACTED_DIAGNOSTIC_VALUE, st) else
      let st := ({[l]} ∪ st.1, st.2) in
      match h !! l with
      | Some (JArr items) => let '(items, st) := visit_all (visit levels) items st in (VArr items, st)
      | Some (JObj props) => let '(props, st) := visit_all (visit_entry (visit levels)) props st in (VObj props, st)
      | None => (VUndefined, st)
      end
    end
  end.
Definition redactDiagnosticValue (v : jsval) : value := (visit (S MAX_REDACTION_DEPTH) v (∅, 0)).1.

(** The same visit of a tree of new objects, as its own result is: nothing is seen twice. *)
Fixpoint visit_tree (levels : nat) (input : value) (nodes : Z) : value * Z :=
  match levels with
  | O => (REDACTED_DIAGNOSTIC_VALUE, nodes)
  | S levels =>
    if MAX_REDACTION_NODES <=? nodes then (REDACTED_DIAGNOSTIC_VALUE, nodes) else
    let nodes := nodes + 1 in
    match input with
    | VArr items => let '(items, nodes) := visit_all (visit_tree levels) items nodes in (VArr items, nodes)
    | VObj props => let '(props, nodes) := visit_all (visit_entry (visit_tree levels)) props nodes in (VObj props, nodes)
    | _ => (input, nodes)
    end
  end.
Definition redactTree (v : value) : value := (visit_tree (S MAX_REDACTION_DEPTH) v 0).1.
End redact.

(** * Application diagnostics *)

Inductive AppDiagnosticLevel := Debug | Info | Warn | Error.
Inductive AppDiagnosticLogLevel := LogDebug | LogInfo | LogWarning | LogError.
#[export] Instance AppDiagnosticLevel_eq_dec : EqDecision AppDiagnosticLevel.
Proof. solve_decision. Defined.
Definition MAX_APP_DIAGNOSTIC_RECORDS : nat := 200.
Definition level_order (l : AppDiagnosticLevel) : Z := match l with Debug => 0 | Info => 1 | Warn => 2 | Error => 3 end.
Definition level_minimum (l : AppDiagnosticLogLevel) : AppDiagnosticLevel :=
  match l with LogDebug => Debug | LogInfo => Info | LogWarning => Warn | LogError => Error end.
Definition APP_DIAGNOSTIC_LEVELS : list AppDiagnosticLevel := [Debug; Info; Warn; Error].
Definition normalizeAppDiagnosticLogLevel (v : value) (fallback : AppDiagnosticLogLevel) : AppDiagnosticLogLevel :=
  match v with
  | VStr s => default fallback (dget [("debug", LogDebug); ("info", LogInfo); ("warning", LogWarning); ("error", LogError); ("warn", LogWarning)]%string s)
  | _ => fallback
  end.
Definition shouldRecordAppDiagnostic (level : AppDiagnosticLevel) (logLevel : AppDiagnosticLogLevel) : bool :=
  level_order (level_minimum logLevel) <=? level_order level.
Definition appDiagnosticLevelsAtOrAbove (logLevel : AppDiagnosticLogLevel) : list AppDiagnosticLevel :=
  bfilter (fun level => shouldRecordAppDiagnostic level logLevel) APP_DIAGNOSTIC_LEVELS.

Record AppDiagnosticRecord := {
  ad_id : Z; ad_timestamp : Z; ad_timeText : string; ad_category : string; ad_level : AppDiagnosticLevel; ad_event : string; ad_details : value
}.
(** Details are an object of the heap or a new tree. *)
Inductive details := OfHeap (h : heap) (v : jsval) | OfTree (v : value).
Record AppDiagnosticInput := { ai_category : string; ai_level : AppDiagnosticLevel; ai_event : string; ai_details : details }.
Definition filterAppDiagnosticRecords (records : list AppDiagnosticRecord) (category : string) (levels : list AppDiagnosticLevel) : list AppDiagnosticRecord :=
  bfilter (fun r => bool_decide (ad_category r = category) && bool_decide (ad_level r ∈ levels)) records.

Definition level_text (l : AppDiagnosticLevel) : string := match l with Debug => "debug" | Info => "info" | Warn => "warn" | Error => "error" end.
(** [String(n).padStart(length, '0')]. *)
Definition padded (n : Z) (length : nat) : string := unchars (replicate (length - String.length (pretty n)) (ascii_of_code 48)) +:+ pretty n.

(** [Date]: hours, minutes, seconds and milliseconds in the local time zone. *)
Class LocalTime := { local_time : Z -> Z * Z * Z * Z }.
Section store.
Context `{J : JSON, T : LocalTime}.

Definition formatAppDiagnosticTime (timestamp : Z) : string :=
  let '(hours, minutes, seconds, milliseconds) := local_time timestamp in
  join ":" [padded hours 2; padded minutes 2; padded seconds 2] +:+ "." +:+ padded milliseconds 3.
(** [String(n)]. *)
Definition number_text (n : num) : string := match n with Fin _ => number_string n | NaN => "NaN" | PosInf => "Infinity" | NegInf => "-Infinity" end.
Definition one_space (s : string) : string := replace_all (many1 space) (by_string " ") s.
Definition formatDiagnosticDetailValue (v : value) : string :=
  match v with
  | VStr s => one_space s
  | VNum n => number_text n
  | VBool b => if b then "true" else "false"
  | VNull => "null"
  | VUndefined => "undefined"
  | _ => one_space (JSON_stringify v)
  end.
Definition formatAppDiagnosticRecordLine (r : AppDiagnosticRecord) : string :=
  join " " ([ad_timeText r; level_text (ad_level r); ad_category r; ad_event r] ++
    map (fun e => e.1 +:+ "=" +:+ formatDiagnosticDetailValue e.2) (properties (ad_details r))).
Definition newline : string := String (ascii_of_code 10) "".
Definition serializeAppDiagnosticRecords (records : list AppDiagnosticRecord) : string :=
  match records with [] => "" | _ => join newline (map formatAppDiagnosticRecordLine records) +:+ newline end.

Record AppDiagnosticStore := {
  da_nextId : Z; da_records : list AppDiagnosticRecord; da_logLevel : AppDiagnosticLogLevel; da_subscribers : list nat;
  da_told : list (nat * list AppDiagnosticRecord)
}.
Definition createAppDiagnosticStore (initialLogLevel : value) : AppDiagnosticStore :=
  {| da_nextId := 1; da_records := []; da_logLevel := normalizeAppDiagnosticLogLevel initialLogLevel LogWarning; da_subscribers := []; da_told := [] |}.
Definition notify (s : AppDiagnosticStore) : AppDiagnosticStore := s{{ da_told := da_told s ++ map (fun i => (i, da_records s)) (da_subscribers s) }}.
Definition clear (s : AppDiagnosticStore) : AppDiagnosticStore := notify (s{{ da_records := [] }}).
Definition setLogLevel (v : value) (s : AppDiagnosticStore) : AppDiagnosticStore := s{{ da_logLevel := normalizeAppDiagnosticLogLevel v (da_logLevel s) }}.
Definition sanitizeAppDiagnosticDetails (d : details) : value :=
  match d with OfHeap h v => redactDiagnosticValue h ["streamId"%string] v | OfTree v => redactTree ["streamId"%string] v end.
(** [slice(-n)]. *)
Definition last_records {A} (n : nat) (l : list A) : list A := drop (length l - n) l.
(** [record] at a time. *)
Definition record (now : Z) (input : AppDiagnosticInput) (s : AppDiagnosticStore) : AppDiagnosticStore :=
  if negb (shouldRecordAppDiagnostic (ai_level input) (da_logLevel s)) then s else
  let r := {| ad_id := da_nextId s; ad_timestamp := now; ad_timeText := formatAppDiagnosticTime now; ad_category := ai_category input;
              ad_level := ai_level input; ad_event := ai_event input; ad_details := sanitizeAppDiagnosticDetails (ai_details input) |} in
  notify (s{{ da_records := last_records MAX_APP_DIAGNOSTIC_RECORDS (da_records s ++ [r]); da_nextId := da_nextId s + 1 }}).
Definition diagnostics_subscribe (i : nat) (s : AppDiagnosticStore) : AppDiagnosticStore :=
  s{{ da_subscribers := if decide (i ∈ da_subscribers s) then da_subscribers s else da_subscribers s ++ [i]; da_told := da_told s ++ [(i, da_records s)] }}.
Definition diagnostics_unsubscribe (i : nat) (s : AppDiagnosticStore) : AppDiagnosticStore :=
  s{{ da_subscribers := filter (fun j => j <> i) (da_subscribers s) }}.

(** [logWorkspaceDiagnostic], whose details are redacted twice. *)
Definition logWorkspaceDiagnostic (now : Z) (level : AppDiagnosticLevel) (event : string) (d : details) (s : AppDiagnosticStore) : AppDiagnosticStore :=
  record now {| ai_category := "workspace"; ai_level := level; ai_event := event; ai_details := OfTree (sanitizeAppDiagnosticDetails d) |} s.
(** A span of [startWorkspaceDiagnosticSpan]: the first end is recorded.  The details of its
    start and of its end are entries of one new object, in a heap that has no object yet at 0. *)
Record span := { wd_event : string; wd_details : list (string * jsval); wd_startedAt : Z; wd_finished : bool }.
Definition startWorkspaceDiagnosticSpan (event : string) (entries : list (string * jsval)) (now : Z) : span :=
  {| wd_event := event; wd_details := entries; wd_startedAt := now; wd_finished := false |}.
Definition finishSpan (now : Z) (extraDetails : list (string * jsval)) (level : AppDiagnosticLevel) (h : heap) (sp : span) (s : AppDiagnosticStore) : span * AppDiagnosticStore :=
  if wd_finished sp then (sp, s) else
  let duration := JPrim (PNum (of_Z (Z.max 0 (now - wd_startedAt sp)))) in
  let entries := foldl (fun d e => dset d e.1 e.2) (wd_details sp) (extraDetails ++ [("durationMs"%string, duration)]) in
  (sp{{ wd_finished := true }}, logWorkspaceDiagnostic now level (wd_event sp) (OfHeap (<[0%nat := JObj entries]> h) (JRef 0)) s).
End store.

(** * Registry messages *)

Inductive RegistryDebugDirection := Out | In | Lifecycle.
Definition connect_phases : list string := ["connect_start"; "connect_open"; "connect_close"; "connect_error"]%string.
Record RegistryDebugRecord := {
  rd_id : Z; rd_timestamp : Z; rd_timeText : string; rd_direction : RegistryDebugDirection; rd_phase : string; rd_scope : string; rd_connection : string;
  rd_method : value; rd_requestId : value; rd_projectId : value; rd_sessionIds : list string; rd_multiSession : bool;
  rd_durationMs : option Z; rd_raw : option string; rd_envelope : option value; rd_lifecycle : option value; rd_parseError : option string
}.
Definition is_space_char (c : ascii) : bool := is_space c.
Definition estimateBase64ByteCount (v : string) : Z :=
  if negb (nonempty v) then 0 else
  let normalized := unchars (bfilter (fun c => negb (is_space_char c)) (chars v)) in
  let padding := if endsWith normalized "==" then 2 else if endsWith normalized "=" then 1 else 0 in
  Z.max 0 (Z.of_nat (String.length normalized) * 3 / 4 - padding).

(** A property of an object of the heap. *)
Definition heap_prop (h : heap) (v : jsval) (name : string) : jsval :=
  match v with
  | JRef l => match h !! l with Some (JObj props) => default (JPrim PUndefined) (dget props name) | _ => JPrim PUndefined end
  | _ => JPrim PUndefined
  end.
Definition method_text (v : value) : string := match v with VStr s => s | _ => "" end.
Definition count_text (name count : string) (original next : list (string * value)) : list (string * value) :=
  match prop original name with VStr data => ddelete (dset next count (VNum (of_Z (estimateBase64ByteCount data)))) name | _ => next end.
Definition terminal_payload (payload : list (string * value)) : list (string * value) :=
  ddelete (count_text "snapshot" "snapshotByteCount" payload (count_text "data" "byteCount" payload payload)) "resizeToken".
Definition redactRegistryDebugEnvelope (h : heap) (envelope : jsval) : value :=
  let extraSensitiveKeys := match heap_prop h envelope "method" with
    | JPrim (PStr method) => if bool_decide (method = "server.androidSpeechCredential.get"%string) then ["accessToken"%string] else [] | _ => [] end in
  let redacted := redactDiagnosticValue h extraSensitiveKeys envelope in
  let fields := properties redacted in
  let method := method_text (prop fields "method") in
  let terminalMethod := startsWith method "terminal." in
  match prop fields "payload" with
  | VObj payload =>
    if terminalMethod then VObj (dset fields "payload" (VObj (terminal_payload payload)))
    else if bool_decide (method = "speech.chunk"%string) then
      let pcm := match heap_prop h (heap_prop h envelope "payload") "pcm" with JPrim (PStr s) => s | _ => "" end in
      VObj (dset fields "payload" (VObj [("streamId", prop payload "streamId"); ("seq", prop payload "seq"); ("pcm", VStr "[base64 omitted]");
                                         ("byteCount", VNum (of_Z (estimateBase64ByteCount pcm)))]%string))
    else redacted
  | _ => redacted
  end.

Definition MAX_EXTRACT_DEPTH : nat := 8.
Definition MAX_EXTRACT_NODES : nat := 500.
Definition appendUnique (items : list string) (v : value) : list string :=
  match v with VStr s => if nonempty s && negb (bool_decide (s ∈ items)) then items ++ [s] else items | _ => items end.
(** The visit of a tree of new objects: the ids found and the objects visited. *)
Fixpoint extract (levels : nat) (st : list string * nat) (input : value) : list string * nat :=
  match levels with
  | O => st
  | S levels =>
    if (MAX_EXTRACT_NODES <=? st.2)%nat then st else
    match input with
    | VArr items => foldl (extract levels) (st.1, S st.2) items
    | VObj props => foldl (extract levels) (appendUnique st.1 (prop props "sessionId"), S st.2) (map snd props)
    | _ => st
    end
  end.
Definition extractRegistryDebugSessionIds (v : value) : list string := (extract (S MAX_EXTRACT_DEPTH) ([], O) v).1.

Definition resolveInboundPhase (type : value) : string :=
  match type with VStr s => if bool_decide (s = "error"%string) then "error" else if bool_decide (s = "event"%string) then "event" else "response" | _ => "response" end.
Definition resolveRegistryDebugScope (method : value) (phase : string) : string :=
  let method := method_text method in
  if nonempty method then
    match index_of [ascii_of_code 46] (chars method) 0 with
    | Some (S n) => slice 0 (S n) method +:+ ".*"
    | _ => method
    end
  else if startsWith phase "connect_" then "lifecycle"
  else if bool_decide (phase = "parse_error"%string) then "parse_error" else "unknown".
Definition filterRegistryDebugRecords (records : list RegistryDebugRecord) (selectedScope selectedSessionId : string) (includeMultiSessionRecords : bool) : list RegistryDebugRecord :=
  let any s := negb (nonempty s) || bool_decide (s = "All"%string) in
  let scoped := if any selectedScope then records else bfilter (fun r => bool_decide (rd_scope r = selectedScope)) records in
  if any selectedSessionId then scoped
  else bfilter (fun r => bool_decide (selectedSessionId ∈ rd_sessionIds r) && (negb (rd_multiSession r) || includeMultiSessionRecords)) scoped.

Record CorrelatedRequest := { cr_method : value; cr_projectId : value; cr_sessionIds : list string; cr_connection : string; cr_timestamp : Z }.
Record RegistryDebugStore := {
  db_enabled : bool; db_nextId : Z; db_records : list RegistryDebugRecord; db_requests : list (num * CorrelatedRequest);
  db_subscribers : list nat; db_told : list (nat * list RegistryDebugRecord)
}.
Definition createRegistryDebugStore : RegistryDebugStore :=
  {| db_enabled := false; db_nextId := 1; db_records := []; db_requests := []; db_subscribers := []; db_told := [] |}.

Section debug_store.
Context `{J : JSON, T : LocalTime}.

Definition debug_notify (s : RegistryDebugStore) : RegistryDebugStore := s{{ db_told := db_told s ++ map (fun i => (i, db_records s)) (db_subscribers s) }}.
(** [appendRecord]: the id and the scope of the record are given here. *)
Definition appendRecord (r : RegistryDebugRecord) (s : RegistryDebugStore) : RegistryDebugStore :=
  let r := r{{ rd_id := db_nextId s; rd_scope := resolveRegistryDebugScope (rd_method r) (rd_phase r) }} in
  debug_notify (s{{ db_records := db_records s ++ [r]; db_nextId := db_nextId s + 1 }}).
Definition debug_clear (s : RegistryDebugStore) : RegistryDebugStore := debug_notify (s{{ db_records := []; db_requests := [] }}).
Definition setEnabled (enabled : bool) (s : RegistryDebugStore) : RegistryDebugStore :=
  if Bool.eqb (db_enabled s) enabled then s
  else let s := s{{ db_enabled := enabled }} in if enabled then s else debug_clear s.
Definition blank_record (timestamp : Z) (direction : RegistryDebugDirection) (phase : string) (connection : option string) : RegistryDebugRecord :=
  {| rd_id := 0; rd_timestamp := timestamp; rd_timeText := formatAppDiagnosticTime timestamp; rd_direction := direction; rd_phase := phase; rd_scope := "";
     rd_connection := default "Remote"%string connection; rd_method := VUndefined; rd_requestId := VUndefined; rd_projectId := VUndefined; rd_sessionIds := [];
     rd_multiSession := false; rd_durationMs := None; rd_raw := None; rd_envelope := None; rd_lifecycle := None; rd_parseError := None |}.
Definition several (l : list string) : bool := (1 <? length l)%nat.

(** What is captured; times are those given or the current one. *)
Inductive RegistryDebugCaptureEvent :=
  | Outbound (h : heap) (envelope : jsval) (raw : string) (connection : option string) (timestamp : Z)
  | Inbound (h : heap) (envelope : jsval) (raw : string) (connection : option string) (timestamp : Z)
  | ParseError (raw error : string) (connection : option string) (timestamp : Z)
  | LifecycleEvent (phase : string) (lifecycle : value) (connection : option string) (timestamp : Z).

Definition recordOutbound (h : heap) (envelope : jsval) (connection : option string) (timestamp : Z) (s : RegistryDebugStore) : RegistryDebugStore :=
  let envelope := redactRegistryDebugEnvelope h envelope in
  let fields := properties envelope in
  if negb (db_enabled s) || bool_decide (method_text (prop fields "method") = "connect.init"%string) then s else
  let sessionIds := extractRegistryDebugSessionIds envelope in
  let s := match prop fields "requestId" with
    | VNum id => s{{ db_requests := dset (db_requests s) id {| cr_method := prop fields "method"; cr_projectId := prop fields "projectId"; cr_sessionIds := sessionIds;
                                                              cr_connection := default "Remote"%string connection; cr_timestamp := timestamp |} }}
    | _ => s
    end in
  appendRecord ((blank_record timestamp Out "request" connection){{
    rd_method := prop fields "method"; rd_requestId := prop fields "requestId"; rd_projectId := prop fields "projectId"; rd_sessionIds := sessionIds;
    rd_multiSession := several sessionIds; rd_raw := Some (JSON_stringify envelope); rd_envelope := Some envelope }}) s.
(** [a ?? b]. *)
Definition or_else (a b : value) : value := match a with VUndefined | VNull => b | _ => a end.
Definition recordInboundEnvelope (h : heap) (envelope : jsval) (connection : option string) (timestamp : Z) (s : RegistryDebugStore) : RegistryDebugStore :=
  if negb (db_enabled s) then s else
  let envelope := redactRegistryDebugEnvelope h envelope in
  let fields := properties envelope in
  let correlated := match prop fields "requestId" with VNum id => dget (db_requests s) id | _ => None end in
  let extracted := extractRegistryDebugSessionIds envelope in
  let sessionIds := match extracted with [] => default [] (cr_sessionIds <$> correlated) | _ => extracted end in
  let connection := match connection with Some c => Some c | None => cr_connection <$> correlated end in
  let s := appendRecord ((blank_record timestamp In (resolveInboundPhase (prop fields "type")) connection){{
    rd_method := or_else (prop fields "method") (default VUndefined (cr_method <$> correlated)); rd_requestId := prop fields "requestId";
    rd_projectId := or_else (prop fields "projectId") (default VUndefined (cr_projectId <$> correlated)); rd_sessionIds := sessionIds;
    rd_multiSession := several sessionIds; rd_durationMs := (fun c => Z.max 0 (timestamp - cr_timestamp c)) <$> correlated;
    rd_raw := Some (JSON_stringify envelope); rd_envelope := Some envelope }}) s in
  match prop fields "requestId", prop fields "type" with
  | VNum id, VStr type => if bool_decide (type = "response"%string) || bool_decide (type = "error"%string) then s{{ db_requests := ddelete (db_requests s) id }} else s
  | _, _ => s
  end.
Definition recordInboundParseError (connection : option string) (timestamp : Z) (s : RegistryDebugStore) : RegistryDebugStore :=
  if negb (db_enabled s) then s else
  appendRecord ((blank_record timestamp In "parse_error" connection){{ rd_raw := Some "[unparsed payload omitted]"%string; rd_parseError := Some "registry payload parse failed"%string }}) s.
Definition recordLifecycle (phase : string) (lifecycle : value) (connection : option string) (timestamp : Z) (s : RegistryDebugStore) : RegistryDebugStore :=
  if negb (db_enabled s) then s else appendRecord ((blank_record timestamp Lifecycle phase connection){{ rd_lifecycle := Some lifecycle }}) s.
Definition recordCaptureEvent (e : RegistryDebugCaptureEvent) (s : RegistryDebugStore) : RegistryDebugStore :=
  match e with
  | Outbound h envelope _ connection timestamp => recordOutbound h envelope connection timestamp s
  | Inbound h envelope _ connection timestamp => recordInboundEnvelope h envelope connection timestamp s
  | ParseError _ _ connection timestamp => recordInboundParseError connection timestamp s
  | LifecycleEvent phase lifecycle connection timestamp => recordLifecycle phase lifecycle connection timestamp s
  end.
Definition debug_subscribe (i : nat) (s : RegistryDebugStore) : RegistryDebugStore :=
  s{{ db_subscribers := if decide (i ∈ db_subscribers s) then db_subscribers s else db_subscribers s ++ [i]; db_told := db_told s ++ [(i, db_records s)] }}.
End debug_store.

(** * Secrets do not reach the logs *)

(** Two entries of the same key that may differ only in what a hidden key holds. *)
Definition alike_entry (extra : list string) (e1 e2 : string * jsval) : Prop :=
  e1.1 = e2.1 /\ (redacted_key extra e1.1 || omitted_key e1.1 = false -> e1.2 = e2.2).
Definition alike_node (extra : list string) (n1 n2 : node) : Prop :=
  match n1, n2 with JArr items1, JArr items2 => items1 = items2 | JObj props1, JObj props2 => Forall2 (alike_entry extra) props1 props2 | _, _ => False end.
(** Two heaps that show the same but for the secrets. *)
Definition alike (extra : list string) (h1 h2 : heap) : Prop :=
  forall l, match h1 !! l, h2 !! l with Some n1, Some n2 => alike_node extra n1 n2 | None, None => True | _, _ => False end.

Lemma visit_all_eq {A B S} (f g : A -> S -> B * S) l st : (forall x st, f x st = g x st) -> visit_all f l st = visit_all g l st.
Proof.
  intros E. revert st. induction l as [|x l IH]; intros st; [done|]. cbn. rewrite E. destruct (g x st) as [y st']. by rewrite IH.
Qed.
Lemma visit_all_alike {S} extra (f g : jsval -> S -> value * S) l1 l2 st : (forall x st, f x st = g x st) -> Forall2 (alike_entry extra) l1 l2 ->
  visit_all (visit_entry extra f) l1 st = visit_all (visit_entry extra g) l2 st.
Proof.
  intros E F. revert st. induction F as [|[k1 v1] [k2 v2] l1 l2 [Ek Ev] _ IH]; intros st; [done|]. cbn in Ek, Ev. subst k2. cbn [visit_all].
  assert (visit_entry extra f (k1, v1) st = visit_entry extra g (k1, v2) st) as ->.
  { unfold visit_entry. cbn [fst snd]. destruct (redacted_key extra k1) eqn:K1; [done|]. destruct (omitted_key k1) eqn:K2; [done|].
    rewrite (Ev eq_refl), E. done. }
  destruct (visit_entry extra g (k1, v2) st) as [y st']. by rewrite IH.
Qed.
Lemma visit_alike extra h1 h2 levels v st : alike extra h1 h2 -> visit h1 extra levels v st = visit h2 extra levels v st.
Proof.
  intros H. revert v st. induction levels as [|levels IH]; intros v st; [done|]. cbn [visit]. destruct (_ <=? _); [done|]. destruct v as [p|l]; [done|].
  destruct (decide _); [done|]. specialize (H l). destruct (h1 !! l) as [[items1|props1]|], (h2 !! l) as [[items2|props2]|]; try done; cbn in H.
  - subst items2. by rewrite (visit_all_eq _ (visit h2 extra levels)).
  - by rewrite (visit_all_alike extra _ (visit h2 extra levels) props1 props2).
Qed.
Lemma redact_alike extra h1 h2 v : alike extra h1 h2 -> redactDiagnosticValue h1 extra v = redactDiagnosticValue h2 extra v.
Proof. intros H. unfold redactDiagnosticValue. by rewrite (visit_alike extra h1 h2). Qed.

(** What a redacted tree shows at its keys. *)
Fixpoint clean (extra : list string) (v : value) : Prop :=
  match v with
  | VArr items => fold_right (fun item rest => clean extra item /\ rest) True items
  | VObj props => fold_right (fun e rest =>
      (if redacted_key extra e.1 then e.2 = REDACTED_DIAGNOSTIC_VALUE else if omitted_key e.1 then e.2 = VStr "[omitted]" else clean extra e.2) /\ rest) True props
  | _ => True
  end.
Lemma visit_all_clean {A S} extra (f : A -> S -> value * S) l st : (forall x st, clean extra (f x st).1) ->
  clean extra (VArr (visit_all f l st).1).
Proof.
  intros F. revert st. induction l as [|x l IH]; intros st; [done|]. cbn [visit_all]. specialize (F x st). destruct (f x st) as [y st'].
  specialize (IH st'). destruct (visit_all f l st') as [ys st'']. by split.
Qed.
Lemma visit_entries_clean {A S} extra (f : A -> S -> value * S) l st : (forall x st, clean extra (f x st).1) ->
  clean extra (VObj (visit_all (visit_entry extra f) l st).1).
Proof.
  intros F. revert st. induction l as [|[k x] l IH]; intros st; [done|]. cbn [visit_all]. unfold visit_entry at 1. cbn [fst snd].
  destruct (redacted_key extra k) eqn:K1; [|destruct (omitted_key k) eqn:K2].
  1,2: specialize (IH st); destruct (visit_all _ l st) as [ys st'']; split; [|exact IH]; cbn [fst]; by rewrite ?K1, ?K2.
  specialize (F x st). destruct (f x st) as [y st']. specialize (IH st'). destruct (visit_all _ l st') as [ys st'']. split; [|exact IH]. cbn [fst]. by rewrite K1, K2.
Qed.
Lemma visit_clean h extra levels v st : clean extra (visit h extra levels v st).1.
Proof.
  revert v st. induction levels as [|levels IH]; intros v st; [done|]. cbn [visit]. destruct (_ <=? _); [done|]. destruct v as [p|l]; [by destruct p|].
  destruct (decide _); [done|]. destruct (h !! l) as [[items|props]|]; [| |done].
  - pose proof (visit_all_clean extra (visit h extra levels) items ({[l]} ∪ st.1, st.2 + 1) IH) as C. cbn [fst snd]. by destruct (visit_all _ _ _).
  - pose proof (visit_entries_clean extra (visit h extra levels) props ({[l]} ∪ st.1, st.2 + 1) IH) as C. cbn [fst snd]. by destruct (visit_all _ _ _).
Qed.

(** ** Redacting again changes nothing *)

(** Both visits count alike. *)
Lemma visit_all_twice {A S} extra (f : A -> S -> value * S) (count : S -> Z) levels l st :
  (forall x st, visit_tree extra levels (f x st).1 (count st) = ((f x st).1, count (f x st).2)) ->
  visit_all (visit_tree extra levels) (visit_all f l st).1 (count st) = ((visit_all f l st).1, count (visit_all f l st).2).
Proof.
  intros F. revert st. induction l as [|x l IH]; intros st; [done|]. cbn [visit_all]. specialize (F x st). destruct (f x st) as [y st'].
  specialize (IH st'). destruct (visit_all f l st') as [ys st'']. cbn [fst snd visit_all] in *. by rewrite F, IH.
Qed.
Lemma visit_entries_twice {A S} extra (f : A -> S -> value * S) (count : S -> Z) levels l st :
  (forall x st, visit_tree extra levels (f x st).1 (count st) = ((f x st).1, count (f x st).2)) ->
  visit_all (visit_entry extra (visit_tree extra levels)) (visit_all (visit_entry extra f) l st).1 (count st) =
  ((visit_all (visit_entry extra f) l st).1, count (visit_all (visit_entry extra f) l st).2).
Proof.
  intros F. revert st. induction l as [|[k x] l IH]; intros st; [done|]. cbn [visit_all].
  assert (visit_entry extra (visit_tree extra levels) (visit_entry extra f (k, x) st).1 (count st) = ((visit_entry extra f (k, x) st).1, count (visit_entry extra f (k, x) st).2)) as E.
  { unfold visit_entry at 2 3 4. cbn [fst snd]. destruct (redacted_key extra k) eqn:K1; [unfold visit_entry; cbn [fst snd]; by rewrite K1|].
    destruct (omitted_key k) eqn:K2; [unfold visit_entry; cbn [fst snd]; by rewrite K1, K2|].
    specialize (F x st). destruct (f x st) as [y st']. unfold visit_entry. cbn [fst snd] in *. by rewrite K1, K2, F. }
  destruct (visit_entry extra f (k, x) st) as [y st']. specialize (IH st'). destruct (visit_all (visit_entry extra f) l st') as [ys st''].
  cbn [fst snd visit_all] in *. by rewrite E, IH.
Qed.
Lemma visit_twice h extra levels v st : visit_tree extra levels (visit h extra levels v st).1 st.2 = ((visit h extra levels v st).1, (visit h extra levels v st).2.2).
Proof.
  revert v st. induction levels as [|levels IH]; intros v st; [done|]. cbn [visit]. destruct (MAX_REDACTION_NODES <=? st.2) eqn:N; [cbn [visit_tree fst snd]; by rewrite N|].
  assert (forall v, (match v with VArr _ | VObj _ => False | _ => True end) -> visit_tree extra (S levels) v st.2 = (v, st.2 + 1)) as Q
    by (intros w; cbn [visit_tree]; rewrite N; by destruct w).
  destruct v as [p|l]; [apply Q; by destruct p|]. destruct (decide _); [by apply Q|]. destruct (h !! l) as [[items|props]|]; [| |by apply Q].
  - pose proof (visit_all_twice extra (visit h extra levels) snd levels items ({[l]} ∪ st.1, st.2 + 1) IH) as E. cbn [fst snd] in *.
    destruct (visit_all (visit h extra levels) items _) as [ys st']. cbn [visit_tree fst snd] in *. by rewrite N, E.
  - pose proof (visit_entries_twice extra (visit h extra levels) snd levels props ({[l]} ∪ st.1, st.2 + 1) IH) as E. cbn [fst snd] in *.
    destruct (visit_all (visit_entry extra (visit h extra levels)) props _) as [ys st']. cbn [visit_tree fst snd] in *. by rewrite N, E.
Qed.
(** What [logWorkspaceDiagnostic] redacts twice is what redacting it once makes of it. *)
Lemma redacted_twice h extra v : redactTree extra (redactDiagnosticValue h extra v) = redactDiagnosticValue h extra v.
Proof. unfold redactTree, redactDiagnosticValue. by rewrite (visit_twice h extra (S MAX_REDACTION_DEPTH) v (∅, 0)). Qed.

(** ** The log of registry messages *)

Lemma access_token_sensitive key : redacted_key ["accessToken"%string] key = redacted_key [] key.
Proof.
  unfold redacted_key. cbn [map]. rewrite (bool_decide_false (_ ∈ [])) by apply not_elem_of_nil. rewrite orb_false_r.
  destruct (isSensitiveDiagnosticKey key) eqn:E; [done|]. cbn [orb]. apply bool_decide_eq_false. rewrite list_elem_of_singleton. intros K.
  unfold isSensitiveDiagnosticKey in E. rewrite K in E. vm_compute in E. done.
Qed.
Lemma alike_access_token h1 h2 : alike [] h1 h2 -> alike ["accessToken"%string] h1 h2.
Proof.
  intros H l. specialize (H l). destruct (h1 !! l) as [[items1|props1]|], (h2 !! l) as [[items2|props2]|]; try done. cbn in *.
  eapply Forall2_impl; [exact H|]. intros e1 e2 [E V]. split; [done|]. by rewrite access_token_sensitive.
Qed.
Lemma alike_prop extra h1 h2 v name : alike extra h1 h2 -> redacted_key extra name || omitted_key name = false -> heap_prop h1 v name = heap_prop h2 v name.
Proof.
  intros H N. destruct v as [|l]; [done|]. cbn. specialize (H l). destruct (h1 !! l) as [[items1|props1]|], (h2 !! l) as [[items2|props2]|]; try done. cbn in H.
  f_equal. induction H as [|[k1 v1] [k2 v2] props1 props2 [Ek Ev] _ IH]; [done|]. cbn in Ek, Ev. subst k2. cbn [dget].
  destruct (decide (k1 = name)) as [->|]; [by rewrite Ev|exact IH].
Qed.

(** The size of the audio of a chunk, which is logged. *)
Definition pcm_size (h : heap) (envelope : jsval) : Z :=
  estimateBase64ByteCount (match heap_prop h (heap_prop h envelope "payload") "pcm" with JPrim (PStr s) => s | _ => "" end).
Lemma envelope_alike h1 h2 envelope : alike [] h1 h2 -> pcm_size h1 envelope = pcm_size h2 envelope ->
  redactRegistryDebugEnvelope h1 envelope = redactRegistryDebugEnvelope h2 envelope.
Proof.
  intros H P. unfold redactRegistryDebugEnvelope. unfold pcm_size in P. rewrite P. rewrite (alike_prop [] h1 h2 envelope "method" H) by reflexivity.
  set (extra := match heap_prop h2 envelope "method" with JPrim (PStr m) => _ | _ => _ end).
  assert (alike extra h1 h2) as E.
  { unfold extra. destruct (heap_prop h2 envelope "method") as [[]|]; try done. case_bool_decide; [by apply alike_access_token|done]. }
  by rewrite (redact_alike extra h1 h2 envelope E).
Qed.

Section logs.
Context `{J : JSON, T : LocalTime}.
(** Two events that differ only in secrets, in audio of the same size, in their raw texts and
    in errors of the parser. *)
Inductive alike_event : RegistryDebugCaptureEvent -> RegistryDebugCaptureEvent -> Prop :=
  | alike_outbound h1 h2 envelope raw1 raw2 connection timestamp : alike [] h1 h2 -> pcm_size h1 envelope = pcm_size h2 envelope ->
      alike_event (Outbound h1 envelope raw1 connection timestamp) (Outbound h2 envelope raw2 connection timestamp)
  | alike_inbound h1 h2 envelope raw1 raw2 connection timestamp : alike [] h1 h2 -> pcm_size h1 envelope = pcm_size h2 envelope ->
      alike_event (Inbound h1 envelope raw1 connection timestamp) (Inbound h2 envelope raw2 connection timestamp)
  | alike_parse_error raw1 raw2 error1 error2 connection timestamp : alike_event (ParseError raw1 error1 connection timestamp) (ParseError raw2 error2 connection timestamp)
  | alike_lifecycle phase lifecycle connection timestamp : alike_event (LifecycleEvent phase lifecycle connection timestamp) (LifecycleEvent phase lifecycle connection timestamp).
Definition capture (es : list RegistryDebugCaptureEvent) (s : RegistryDebugStore) : RegistryDebugStore := foldl (fun s e => recordCaptureEvent e s) s es.

(** What an application diagnostic is given. *)
Record logged := { lg_now : Z; lg_category : string; lg_level : AppDiagnosticLevel; lg_event : string; lg_heap : heap; lg_details : jsval }.
Definition log (es : list logged) (s : AppDiagnosticStore) : AppDiagnosticStore :=
  foldl (fun s e => record (lg_now e) {| ai_category := lg_category e; ai_level := lg_level e; ai_event := lg_event e; ai_details := OfHeap (lg_heap e) (lg_details e) |} s) s es.
Definition alike_logged (e1 e2 : logged) : Prop :=
  lg_now e1 = lg_now e2 /\ lg_category e1 = lg_category e2 /\ lg_level e1 = lg_level e2 /\ lg_event e1 = lg_event e2 /\
  lg_details e1 = lg_details e2 /\ alike ["streamId"%string] (lg_heap e1) (lg_heap e2).

Lemma capture_alike es1 es2 s : Forall2 alike_event es1 es2 -> capture es1 s = capture es2 s.
Proof.
  intros F. revert s. induction F as [|e1 e2 es1 es2 A _ IH]; intros s; [done|]. unfold capture in *. cbn [foldl]. rewrite IH. f_equal.
  destruct A as [h1 h2 envelope raw1 raw2 connection timestamp H P|h1 h2 envelope raw1 raw2 connection timestamp H P| |]; [| |done|done]; cbn [recordCaptureEvent].
  - unfold recordOutbound. by rewrite (envelope_alike h1 h2).
  - unfold recordInboundEnvelope. by rewrite (envelope_alike h1 h2).
Qed.
Lemma log_alike es1 es2 s : Forall2 alike_logged es1 es2 -> log es1 s = log es2 s.
Proof.
  intros F. revert s. induction F as [|e1 e2 es1 es2 (E1 & E2 & E3 & E4 & E5 & A) _ IH]; intros s; [done|]. unfold log in *. cbn [foldl]. rewrite IH. f_equal.
  rewrite E1, E2, E3, E4, E5. unfold record, sanitizeAppDiagnosticDetails. cbn [ai_level ai_category ai_event ai_details]. by rewrite (redact_alike _ _ _ _ A).
Qed.
(** The keys of the login, of its header, of credentials and of the hub's settings. *)
Definition secret_keys : list string :=
  ["token"; "csrfToken"; "X-WheelMaker-CSRF"; "Authorization"; "accessToken"; "resizeToken"; "password"; "apiKey"; "x-api-key"; "app_secret"; "Set-Cookie"; "accessCode"]%string.
Definition clean_record (r : AppDiagnosticRecord) : Prop := clean ["streamId"%string] (ad_details r).

(** C12. Secrets do not reach the logs: when two runs of the client differ only in what
    sensitive keys hold at any depth (passwords, tokens, cookies, keys), in the audio and
    other data that are omitted, in raw messages and in the errors of their parser, the audio
    of each message having the same size in bytes in both runs (the size of a chunk of speech
    is logged, and is all of it that is), then the log of registry messages and the application
    diagnostics are the same, and so is everything their subscribers are told; every object of
    a diagnostic shows a mark at each sensitive key; and the keys under which the client holds
    its secrets are sensitive. *)
Theorem secrets_never_logged es1 es2 s ls1 ls2 d :
  Forall2 alike_event es1 es2 -> Forall2 alike_logged ls1 ls2 -> Forall clean_record (da_records d) ->
  capture es1 s = capture es2 s /\ log ls1 d = log ls2 d /\ Forall clean_record (da_records (log ls1 d)) /\
  Forall (fun key => redacted_key [] key = true) secret_keys.
Proof.
  intros E L C. split; [by apply capture_alike|]. split; [by apply log_alike|]. split; [|by repeat constructor]. clear es1 es2 E L ls2. revert d C.
  induction ls1 as [|e ls IH]; intros d C; [done|]. unfold log in *. cbn [foldl]. apply IH. unfold record. destruct (negb _); [done|].
  match goal with |- Forall _ (da_records (notify ?x)) => change (da_records (notify x)) with (da_records x) end.
  match goal with |- Forall _ (da_records (d{{ da_records := ?x; da_nextId := ?y }})) => change (Forall clean_record x) end.
  unfold last_records. apply Forall_drop, Forall_app. split; [exact C|]. constructor; [|constructor]. apply visit_clean.
Qed.
End logs.

(** * The store of diagnostics *)

Section diagnostics_store.
Context `{J : JSON, T : LocalTime}.
(** At most 200 records, with consecutive ids up to the next one. *)
Record diagnostics_ok (s : AppDiagnosticStore) : Prop := {
  do_bounded : (length (da_records s) <= MAX_APP_DIAGNOSTIC_RECORDS)%nat;
  do_ids : map ad_id (da_records s) = map (fun i => da_nextId s - Z.of_nat (length (da_records s)) + Z.of_nat i) (seq 0 (length (da_records s)))
}.
Lemma drop_ids (l : list AppDiagnosticRecord) (next : Z) n :
  map ad_id l = map (fun i => next - Z.of_nat (length l) + Z.of_nat i) (seq 0 (length l)) ->
  map ad_id (drop n l) = map (fun i => next - Z.of_nat (length (drop n l)) + Z.of_nat i) (seq 0 (length (drop n l))).
Proof.
  intros E. rewrite <- skipn_map, E, skipn_map, skipn_seq, length_drop. destruct (decide (n <= length l)%nat) as [L|L].
  - apply list_eq. intros i. rewrite !list_lookup_fmap. destruct (decide (i < length l - n)%nat) as [I|I].
    + rewrite !lookup_seq_lt by lia. cbn. f_equal. lia.
    + rewrite !lookup_seq_ge by lia. done.
  - replace (length l - n)%nat with O by lia. done.
Qed.
Lemma record_ok now input s : diagnostics_ok s -> diagnostics_ok (record now input s).
Proof.
  intros [B I]. unfold record. destruct (negb _); [by split|]. match goal with |- context [_ ++ [?r]] => set (new := r) end.
  enough (diagnostics_ok (s{{ da_records := last_records MAX_APP_DIAGNOSTIC_RECORDS (da_records s ++ [new]); da_nextId := da_nextId s + 1 }})) as [B' I'] by (by split).
  assert (map ad_id (da_records s ++ [new]) = map (fun i => da_nextId s + 1 - Z.of_nat (length (da_records s ++ [new])) + Z.of_nat i) (seq 0 (length (da_records s ++ [new])))) as E.
  { rewrite map_app, I, length_app, Nat.add_comm. cbn [length Nat.add]. rewrite seq_S, map_app. f_equal.
    - apply map_ext. intros i. lia.
    - cbn. f_equal. unfold new. cbn. lia. }
  split.
  - change (length (last_records MAX_APP_DIAGNOSTIC_RECORDS (da_records s ++ [new])) <= MAX_APP_DIAGNOSTIC_RECORDS)%nat. unfold last_records. rewrite length_drop. lia.
  - exact (drop_ids _ (da_nextId s + 1) (length (da_records s ++ [new]) - MAX_APP_DIAGNOSTIC_RECORDS) E).
Qed.
End diagnostics_store.

(** * Samples *)

#[local] Existing Instance js_JSON.
#[local] Instance utc : LocalTime := {| local_time := fun ms => (ms / 3600000 mod 24, ms / 60000 mod 60, ms / 1000 mod 60, ms mod 1000) |}.
(** A login with a password and a nested key, in an object that refers to itself. *)
Definition login_heap (password apiKey : string) : heap :=
  <[0%nat := JObj [("user", JPrim (PStr "ann")); ("password", JPrim (PStr password)); ("self", JRef 0); ("settings", JRef 1)]%string]>
  (<[1%nat := JObj [("API-Key", JPrim (PStr apiKey)); ("totalTokens", JPrim (PNum (of_Z 7)))]%string]> ∅).
Example a_redacted_login : redactDiagnosticValue (login_heap "p" "k") [] (JRef 0) =
  VObj [("user", VStr "ann"); ("password", VStr "[redacted]"); ("self", VStr "[redacted]");
        ("settings", VObj [("API-Key", VStr "[redacted]"); ("totalTokens", VNum (of_Z 7))])]%string.
Proof. vm_compute. reflexivity. Qed.

Definition login_at (password : string) : logged :=
  {| lg_now := 0; lg_category := "http"; lg_level := Error; lg_event := "login"; lg_heap := login_heap password "k"; lg_details := JRef 0 |}.
Lemma alike_logins p1 p2 extra : alike extra (login_heap p1 "k") (login_heap p2 "k").
Proof.
  intros l. unfold login_heap. destruct (decide (l = 0%nat)) as [->|N0]; [|destruct (decide (l = 1%nat)) as [->|N1]].
  - rewrite !lookup_insert_eq. cbn. repeat constructor; done.
  - rewrite !(lookup_insert_ne _ 0%nat 1%nat), !lookup_insert_eq by done. cbn. repeat constructor; done.
  - by rewrite !lookup_insert_ne, lookup_empty by done.
Qed.
Lemma secrets_never_logged_witness :
  let log1 := log [login_at "one"] (createAppDiagnosticStore (VStr "warn")) in
  log1 = log [login_at "two"] (createAppDiagnosticStore (VStr "warn")) /\ map ad_timeText (da_records log1) = ["00:00:00.000"%string].
Proof.
  split; [|vm_compute; reflexivity].
  apply (secrets_never_logged [] [] createRegistryDebugStore [login_at "one"] [login_at "two"] (createAppDiagnosticStore (VStr "warn"))).
  - constructor.
  - repeat constructor. apply alike_logins.
  - constructor.
Defined.
