(* ===== verification/PromptNotifications.v ===== *)
(** [chat/notifications/promptCompletionNotification.ts], and [maybeNotifyPromptCompletion]
    of [app/WorkspaceApp.tsx]: the notification of a prompt that has ended.

    A prompt is notified once: the keys of the last 500 notifications are kept, in the order
    of the [Set] that has them, so that a message the hub sends again shows nothing. *)

From S2P Require Import Prelude Json Uri RegistryTypes ChatSessionKey ChatSessionHelpers.
Open Scope Z_scope.

Inductive PromptCompletionNotificationStatus := StatusCompleted | StatusCancelled | StatusInterrupted | StatusFailed.
Record WheelMakerNotificationPayload := {
  pl_type : string; pl_projectId : string; pl_sessionId : string; pl_turnIndex : Z; pl_title : string; pl_body : string;
  pl_status : PromptCompletionNotificationStatus; pl_url : string
}.

Definition notification_key (projectId sessionId : string) (turnIndex : Z) : string :=
  projectId +:+ ":" +:+ sessionId +:+ ":" +:+ pretty turnIndex.
Definition promptCompletionNotificationKey (projectId : string) (message : RegistryChatMessage) : string :=
  let turnIndex := Z.max 0 (msg_turnIndex message) in
  notification_key projectId (msg_sessionId message) turnIndex.

Definition resolvePromptCompletionStatus (param : list (string * value)) : PromptCompletionNotificationStatus :=
  let stopReason := match prop param "stopReason" with VStr s => toLowerCase (trim s) | _ => ""%string end in
  if bool_decide (stopReason = "cancelled"%string) || bool_decide (stopReason = "canceled"%string) then StatusCancelled
  else if bool_decide (stopReason = "interrupted"%string) then StatusInterrupted
  else if bool_decide (stopReason = "failed"%string) || bool_decide (stopReason = "error"%string) then StatusFailed
  else StatusCompleted.

Definition shouldNotifyPromptCompletion (enabled : bool) (message : RegistryChatMessage)
    (projectId selectedRuntimeKey documentVisibility activeTab : string) : bool :=
  if negb enabled || negb (nonempty projectId) || negb (nonempty (msg_sessionId message)) then false
  else if negb (bool_decide (msg_method message = "prompt_done"%string)) then false
  else if negb (bool_decide (documentVisibility = "visible"%string)) then true
  else if negb (bool_decide (activeTab = "chat"%string)) then true
  else negb (bool_decide (selectedRuntimeKey = (projectId +:+ ":" +:+ msg_sessionId message)%string)).

Definition notificationTitle (status : PromptCompletionNotificationStatus) : string :=
  match status with
  | StatusCancelled => "Prompt cancelled"
  | StatusInterrupted => "Prompt interrupted"
  | StatusFailed => "Prompt failed"
  | StatusCompleted => "Prompt completed"
  end.

(** [session] is the title of the known session, if it is known. *)
Definition buildPromptCompletionNotification `{JSON} (projectId : string) (message : RegistryChatMessage) (session : option string) : WheelMakerNotificationPayload :=
  let status := resolvePromptCompletionStatus (msg_param message) in
  let title := resolveChatSessionTitle (default "" session) in
  let sessionId := msg_sessionId message in
  {| pl_type := "chat.prompt.completed"; pl_projectId := projectId; pl_sessionId := sessionId;
     pl_turnIndex := Z.max 0 (msg_turnIndex message);
     pl_title := if nonempty title then title else sessionId;
     pl_body := notificationTitle status; pl_status := status;
     pl_url := "/?wmProjectId=" +:+ encodeURIComponent projectId +:+ "&wmSessionId=" +:+ encodeURIComponent sessionId |}.

(** What the application knows when a message arrives. *)
Record surroundings := {
  sr_enabled : bool; sr_selected : option ChatSessionKey; sr_documentVisibility : string; sr_activeTab : string
}.
(** [notifiedPromptCompletionIdsRef], and what [notificationProvider.show] was called with. *)
Record notifications := { nf_notified : list string; nf_shown : list WheelMakerNotificationPayload }.

Definition maybeNotifyPromptCompletion `{JSON} (env : surroundings) (message : RegistryChatMessage) (session : option string)
    (activeProjectId : string) (st : notifications) : notifications :=
  if negb (bool_decide (msg_method message = "prompt_done"%string)) then st else
  let notificationKey := promptCompletionNotificationKey activeProjectId message in
  if bool_decide (notificationKey ∈ nf_notified st) then st else
  if negb (shouldNotifyPromptCompletion (sr_enabled env) message activeProjectId (encodeChatSessionKey (sr_selected env))
             (sr_documentVisibility env) (sr_activeTab env)) then st else
  let notified := nf_notified st ++ [notificationKey] in
  let notified :=
    if Nat.ltb 500 (length notified) then
      match notified with first :: rest => if nonempty first then rest else notified | [] => notified end
    else notified in
  {| nf_notified := notified;
     nf_shown := nf_shown st ++ [buildPromptCompletionNotification activeProjectId message session] |}.

(** A call, and a run of calls. *)
Record notify_call := { nc_env : surroundings; nc_message : RegistryChatMessage; nc_session : option string; nc_projectId : string }.
Definition notify `{JSON} (st : notifications) (c : notify_call) : notifications :=
  maybeNotifyPromptCompletion (nc_env c) (nc_message c) (nc_session c) (nc_projectId c) st.
Definition notify_all `{JSON} : list notify_call -> notifications := foldl notify {| nf_notified := []; nf_shown := [] |}.

(** The key of what was shown; the last [n] of a list. *)
Definition payload_key (p : WheelMakerNotificationPayload) : string := notification_key (pl_projectId p) (pl_sessionId p) (pl_turnIndex p).
Definition last_of {A} (n : nat) (l : list A) : list A := drop (length l - n) l.

(** * The keys kept are those of the last 500 notifications *)

Lemma last_of_snoc {A} n (l : list A) x :
  last_of n (l ++ [x]) = (if Nat.ltb n (length (last_of n l ++ [x])) then tail (last_of n l ++ [x]) else last_of n l ++ [x]).
Proof.
  unfold last_of. rewrite !length_app, length_drop. cbn [length]. destruct (Nat.ltb_spec n (length l - (length l - n) + 1)).
  - destruct (decide (n = 0%nat)) as [->|].
    + rewrite !Nat.sub_0_r, (drop_ge l), drop_ge by (rewrite ?length_app; cbn; lia). done.
    + replace (length l + 1 - n)%nat with (S (length l - n)) by lia. rewrite <- drop_app_le by lia.
      rewrite <- Nat.add_1_r, <- drop_drop. by destruct (drop _ (l ++ [x])).
  - by rewrite <- drop_app_le, (proj2 (Nat.sub_0_le (length l + 1) n)), (proj2 (Nat.sub_0_le (length l) n)) by lia.
Qed.

Lemma key_nonempty p s i : nonempty (notification_key p s i) = true.
Proof. unfold notification_key. by destruct p. Qed.

Section with_json.
Context `{JSON}.

Definition shows (st : notifications) (c : notify_call) : bool :=
  negb (bool_decide (promptCompletionNotificationKey (nc_projectId c) (nc_message c) ∈ last_of 500 (map payload_key (nf_shown st)))) &&
  shouldNotifyPromptCompletion (sr_enabled (nc_env c)) (nc_message c) (nc_projectId c) (encodeChatSessionKey (sr_selected (nc_env c)))
    (sr_documentVisibility (nc_env c)) (sr_activeTab (nc_env c)).
Definition kept (st : notifications) : Prop := nf_notified st = last_of 500 (map payload_key (nf_shown st)).

Lemma should_done e m p k v t : shouldNotifyPromptCompletion e m p k v t = true -> msg_method m = "prompt_done"%string.
Proof.
  unfold shouldNotifyPromptCompletion. destruct (_ || _); [done|]. destruct (bool_decide_reflect (msg_method m = "prompt_done"%string)); done.
Qed.

Lemma notify_kept st c : kept st ->
  kept (notify st c) /\
  nf_shown (notify st c) = nf_shown st ++ (if shows st c then [buildPromptCompletionNotification (nc_projectId c) (nc_message c) (nc_session c)] else []).
Proof.
  intros K. unfold notify, maybeNotifyPromptCompletion, shows. rewrite <- K.
  destruct (shouldNotifyPromptCompletion _ _ _ _ _ _) eqn:E.
  2:{ rewrite andb_false_r, app_nil_r. destruct (negb _); [done|]. by case_match. }
  rewrite (should_done _ _ _ _ _ _ E), bool_decide_true by done. cbn [negb andb]. rewrite andb_true_r.
  destruct (bool_decide_reflect (promptCompletionNotificationKey (nc_projectId c) (nc_message c) ∈ nf_notified st)); cbn [negb]; [by rewrite app_nil_r|].
  split; [|done]. unfold kept in *. cbn [nf_notified nf_shown]. rewrite map_app. cbn [map].
  change (payload_key _) with (promptCompletionNotificationKey (nc_projectId c) (nc_message c)).
  rewrite last_of_snoc, <- K. destruct (Nat.ltb _ _); [|done]. destruct (nf_notified st) as [|x l] eqn:L; cbn [app tail].
  - unfold promptCompletionNotificationKey. by rewrite key_nonempty.
  - enough (nonempty x = true) as -> by done.
    assert (x ∈ map payload_key (nf_shown st)) as I.
    { assert (x ∈ last_of 500 (map payload_key (nf_shown st))) as I by (rewrite <- K; left). unfold last_of in I.
      rewrite <- (take_drop (length (map payload_key (nf_shown st)) - 500) (map payload_key (nf_shown st))). apply elem_of_app. by right. }
    apply list_elem_of_fmap in I as (p & -> & _). apply key_nonempty.
Qed.

Lemma notify_all_snoc cs c : notify_all (cs ++ [c]) = notify (notify_all cs) c.
Proof. exact (foldl_app _ _ _ _). Qed.
Lemma notify_all_kept cs : kept (notify_all cs).
Proof. induction cs as [|c cs IH] using rev_ind; [done|]. rewrite notify_all_snoc. by apply notify_kept. Qed.

(** A list in which what is added was not among the last [n] has no duplicates within
    [n + 1]. *)
Lemma windows_snoc {A} (n : nat) (l : list A) x :
  x ∉ last_of n l -> (forall i, NoDup (take (S n) (drop i l))) -> forall i, NoDup (take (S n) (drop i (l ++ [x]))).
Proof.
  intros N W i. destruct (decide (length l < i)%nat); [rewrite drop_ge by (rewrite length_app; cbn; lia); constructor|].
  rewrite drop_app_le by lia. destruct (decide (S n <= length (drop i l))%nat) as [L|L]; [by rewrite take_app_le|].
  rewrite take_ge by (rewrite length_app; cbn; lia). specialize (W i). rewrite take_ge in W by lia.
  apply NoDup_app. split; [done|]. split; [|apply NoDup_singleton]. intros y Y ->%list_elem_of_singleton. apply N. unfold last_of.
  rewrite length_drop in L. replace i with (length l - n + (i - (length l - n)))%nat in Y by lia. rewrite <- drop_drop in Y.
  rewrite <- (take_drop (i - (length l - n)) (drop (length l - n) l)). apply elem_of_app. by right.
Qed.

(** Whether a message that is not on the screen is notified: its own facts, and the last 500. *)
Definition due (st : notifications) (c : notify_call) : bool :=
  sr_enabled (nc_env c) && nonempty (nc_projectId c) && nonempty (msg_sessionId (nc_message c)) &&
  bool_decide (msg_method (nc_message c) = "prompt_done"%string) &&
  negb (bool_decide (promptCompletionNotificationKey (nc_projectId c) (nc_message c) ∈ last_of 500 (map payload_key (nf_shown st)))).
Definition chat_visible (env : surroundings) : bool :=
  bool_decide (sr_documentVisibility env = "visible"%string) && bool_decide (sr_activeTab env = "chat"%string).

Lemma shows_due st c : shows st c = true -> due st c = true.
Proof.
  unfold shows, due, shouldNotifyPromptCompletion. rewrite andb_true_iff. intros [-> S]. rewrite andb_true_r.
  destruct (sr_enabled _), (nonempty (nc_projectId c)), (nonempty (msg_sessionId _)); try done. cbn [negb orb andb] in *.
  by destruct (bool_decide (msg_method _ = _)).
Qed.
Lemma shows_hidden st c : chat_visible (nc_env c) = false -> shows st c = due st c.
Proof.
  unfold shows, due, shouldNotifyPromptCompletion, chat_visible. intros V. rewrite andb_comm. f_equal.
  destruct (sr_enabled _), (nonempty (nc_projectId c)), (nonempty (msg_sessionId _)); try done. cbn [negb orb andb].
  destruct (bool_decide (msg_method _ = _)); [|done]. cbn [negb]. destruct (bool_decide (sr_documentVisibility _ = _)); [|done]. cbn [negb andb] in *.
  by rewrite V.
Qed.

(** C15. Whatever messages arrive, in whatever surroundings: at most 500 keys are kept; among
    any 501 notifications in a row no prompt is shown twice; a message shows nothing or exactly
    its own notification, the latter only if it is the end of a prompt of a named project and
    session, notifications are enabled, and its prompt is not among the last 500; and if so it
    does show it when the page is hidden or another tab than the chat is active.  (Of messages
    that come while the chat is visible only the former is stated: [selection_ignored] shows
    that the session being looked at is not told from the others as it should be.) *)
Theorem prompt_notified_once (cs : list notify_call) :
  (length (nf_notified (notify_all cs)) <= 500)%nat /\
  (forall i, NoDup (take 501 (drop i (map payload_key (nf_shown (notify_all cs)))))) /\
  (forall c, let shown := nf_shown (notify_all (cs ++ [c])) in
     let own := [buildPromptCompletionNotification (nc_projectId c) (nc_message c) (nc_session c)] in
     if chat_visible (nc_env c) then
       shown = nf_shown (notify_all cs) \/ (shown = nf_shown (notify_all cs) ++ own /\ due (notify_all cs) c = true)
     else shown = nf_shown (notify_all cs) ++ (if due (notify_all cs) c then own else [])).
Proof.
  split_and!.
  - rewrite notify_all_kept. unfold last_of. rewrite length_drop. lia.
  - induction cs as [|c cs IH] using rev_ind; [intros i; change (map _ _) with (@nil string); rewrite drop_nil; constructor|].
    rewrite notify_all_snoc, (proj2 (notify_kept _ c (notify_all_kept cs))), map_app. unfold shows.
    destruct (bool_decide_reflect (promptCompletionNotificationKey (nc_projectId c) (nc_message c) ∈ last_of 500 (map payload_key (nf_shown (notify_all cs)))));
      cbn [negb andb map]; [by rewrite app_nil_r|]. destruct (shouldNotifyPromptCompletion _ _ _ _ _ _); [|by rewrite app_nil_r].
    by apply windows_snoc.
  - intros c. cbv zeta. rewrite notify_all_snoc, (proj2 (notify_kept _ c (notify_all_kept cs))). destruct (chat_visible (nc_env c)) eqn:V.
    + destruct (shows (notify_all cs) c) eqn:S; [right; split; [done|by apply shows_due]|left; by rewrite app_nil_r].
    + by rewrite shows_hidden.
Qed.
End with_json.

(** * What is selected plays no part *)

Lemma encoded_key_no_colon k : ":"%char ∉ chars (encodeChatSessionKey k).
Proof.
  unfold encodeChatSessionKey. destruct (k ≫= _) as [k'|]; [|apply not_elem_of_nil].
  cbn [join foldr]. rewrite !chars_app, !elem_of_app. cbn [chars String.list_ascii_of_string]. rewrite list_elem_of_singleton.
  intros [I%encoded_chars|[I|[I%encoded_chars|I]]]; [destruct I as [I|I]; by vm_compute in I|done|destruct I as [I|I]; by vm_compute in I|by apply not_elem_of_nil in I].
Qed.
(** The key of the selection is written otherwise than the one it is compared with, so that
    the prompt of the session that is being looked at is notified like any other. *)
Lemma selection_ignored e m p k v t :
  shouldNotifyPromptCompletion e m p (encodeChatSessionKey k) v t =
  (e && nonempty p && nonempty (msg_sessionId m) && bool_decide (msg_method m = "prompt_done"%string)).
Proof.
  unfold shouldNotifyPromptCompletion. destruct e, (nonempty p), (nonempty (msg_sessionId m)); try done. cbn [negb orb andb].
  destruct (bool_decide (msg_method m = _)); [|done]. cbn [negb]. destruct (bool_decide (v = _)), (bool_decide (t = _)); try done. cbn [negb].
  rewrite bool_decide_false; [done|]. intros X. apply (encoded_key_no_colon k). rewrite X. rewrite !chars_app, elem_of_app.
  right. left.
Qed.

(** * A run *)

Definition ended_prompt : RegistryChatMessage :=
  {| msg_sessionId := "s1"; msg_turnIndex := 4; msg_method := "prompt_done"; msg_param := [("stopReason"%string, VStr "Canceled ")]; msg_finished := true |}.
Definition looking : surroundings :=
  {| sr_enabled := true; sr_selected := Some {| key_projectId := "p1"; key_sessionId := "s1" |}; sr_documentVisibility := "visible"; sr_activeTab := "chat" |}.
Definition ended_call : notify_call := {| nc_env := looking; nc_message := ended_prompt; nc_session := Some " Fix the build "%string; nc_projectId := "p1" |}.

(** The message comes twice and is shown once; its session is the one being looked at. *)
Example notified_run :
  map (fun p => (pl_title p, pl_body p, pl_url p)) (nf_shown (notify_all (H := js_JSON) [ended_call; ended_call])) =
  [("Fix the build", "Prompt cancelled", "/?wmProjectId=p1&wmSessionId=s1")]%string.
Proof. vm_compute. reflexivity. Qed.

Definition hidden_call : notify_call := {|
  nc_env := {| sr_enabled := true; sr_selected := None; sr_documentVisibility := "hidden"; sr_activeTab := "chat" |};
  nc_message := ended_prompt; nc_session := Some " Fix the build "%string; nc_projectId := "p1" |}.
Lemma prompt_notified_once_witness :
  (length (nf_notified (notify_all (H := js_JSON) [hidden_call])) <= 500)%nat /\
  nf_shown (notify_all (H := js_JSON) ([hidden_call] ++ [hidden_call])) = nf_shown (notify_all (H := js_JSON) [hidden_call]).
Proof.
  destruct (prompt_notified_once (H := js_JSON) [hidden_call]) as (H1 & _ & H3). split; [exact H1|].
  etransitivity; [exact (H3 hidden_call)|]. vm_compute. reflexivity.
Defined.
