(* ===== verification/SettingsHistory.v ===== *)
(** [shell/layouts/mobile/mobileSettingsHistory.ts], and the functions of
    [app/WorkspaceApp.tsx] that open, close and leave the settings: how the pages of the
    settings follow the history of the browser on a narrow screen.

    The history of the document is a zipper of states.  [history.back()] only asks for a
    move: it is made, and [popstate] told, by a later event.  The effect of the component
    runs after a render that has changed what it depends on. *)

From S2P Require Import Prelude SettingsViews.
Open Scope Z_scope.

(** * The rules *)

Inductive MobileSettingsPopAction := BackToRoot | CloseSettings | PopNone.
Inductive MobileSettingsHistoryWriteAction := WritePush | WriteReplace | WriteNone.
Definition MOBILE_SETTINGS_HISTORY_MARKER : string := "mobile-settings".

(** A page is its id, the root [null]. *)
Definition detail_value (detail : option string) : value := match detail with Some s => VStr s | None => VNull end.
Definition pageKind (detail : option string) : SettingsPageKind := settingsPageKind (detail_value detail).

(** [VUndefined] when the key names no page. *)
Definition detailFromMobileSettingsHistoryKey (key : option string) : value :=
  match key with
  | None => VUndefined
  | Some key =>
    if negb (startsWith key (MOBILE_SETTINGS_HISTORY_MARKER +:+ ":")) then VUndefined else
    let v := slice (String.length MOBILE_SETTINGS_HISTORY_MARKER + 1) (String.length key) key in
    if bool_decide (v = "root"%string) then VNull else if isSettingsDetailId (VStr v) then VStr v else VUndefined
  end.
Definition createMobileSettingsHistoryState (detail : option string) : value :=
  VObj [("wheelMakerHistory"%string, VStr MOBILE_SETTINGS_HISTORY_MARKER); ("detail"%string, detail_value detail)].
Definition isMobileSettingsHistoryState (input : value) : bool :=
  match input with
  | VObj state =>
      match prop state "wheelMakerHistory" with VStr s => bool_decide (s = MOBILE_SETTINGS_HISTORY_MARKER) | _ => false end &&
      match prop state "detail" with VNull => true | detail => isSettingsDetailId detail end
  | _ => false
  end.
Definition mobileSettingsHistoryKey (detail : option string) : string := "mobile-settings:" +:+ default "root"%string detail.
(** The page of a settings state. *)
Definition state_detail (state : value) : option string :=
  match prop (properties state) "detail" with VStr s => Some s | _ => None end.

Definition resolveMobileSettingsHistoryWriteAction (currentKey nextDetail : option string) (replaceRootWithDetail : bool) : MobileSettingsHistoryWriteAction :=
  let nextKey := mobileSettingsHistoryKey nextDetail in
  if bool_decide (currentKey = Some nextKey) then WriteNone else
  match currentKey with
  | None => WritePush
  | Some k =>
    if bool_decide (k = mobileSettingsHistoryKey None) then
      if replaceRootWithDetail && negb (bool_decide (nextDetail = None)) then WriteReplace else WritePush
    else match settingsPageKind (detailFromMobileSettingsHistoryKey currentKey), pageKind nextDetail with
    | PeerPage, ChildPage => WritePush
    | _, _ => WriteReplace
    end
  end.
Definition resolveMobileSettingsPopAction (settingsOpen : bool) (settingsDetailView : option string) (nextState : value) : MobileSettingsPopAction :=
  if negb settingsOpen then PopNone else
  match pageKind settingsDetailView with
  | ChildPage => if isMobileSettingsHistoryState nextState then BackToRoot else CloseSettings
  | PeerPage => CloseSettings
  | RootPage => if isMobileSettingsHistoryState nextState then PopNone else CloseSettings
  end.

(** * The application and the browser *)

Record view := { v_isWide : bool; v_open : bool; v_detail : option string }.
#[export] Instance view_eq_dec : EqDecision view.
Proof. solve_decision. Defined.
Record history := { hi_back : list value; hi_current : value; hi_forward : list value }.
(** [ap_key] is [mobileSettingsHistoryKeyRef], [ap_replaceRoot] is
    [mobileSettingsReplaceRootHistoryRef], [ap_asked] the moves asked for and not yet made. *)
Record app := { ap_view : view; ap_key : option string; ap_replaceRoot : bool; ap_history : history; ap_asked : nat }.

Definition pushState (state : value) (h : history) : history := {| hi_back := hi_current h :: hi_back h; hi_current := state; hi_forward := [] |}.
Definition replaceState (state : value) (h : history) : history := {| hi_back := hi_back h; hi_current := state; hi_forward := hi_forward h |}.
Definition move_back (h : history) : option history :=
  match hi_back h with [] => None | s :: r => Some {| hi_back := r; hi_current := s; hi_forward := hi_current h :: hi_forward h |} end.
Definition move_forward (h : history) : option history :=
  match hi_forward h with [] => None | s :: r => Some {| hi_back := hi_current h :: hi_back h; hi_current := s; hi_forward := r |} end.

Definition set_view (v : view) (a : app) : app :=
  {| ap_view := v; ap_key := ap_key a; ap_replaceRoot := ap_replaceRoot a; ap_history := ap_history a; ap_asked := ap_asked a |}.
Definition set_refs (key : option string) (replaceRoot : bool) (a : app) : app :=
  {| ap_view := ap_view a; ap_key := key; ap_replaceRoot := replaceRoot; ap_history := ap_history a; ap_asked := ap_asked a |}.
Definition set_history (h : history) (a : app) : app :=
  {| ap_view := ap_view a; ap_key := ap_key a; ap_replaceRoot := ap_replaceRoot a; ap_history := h; ap_asked := ap_asked a |}.
Definition history_back (a : app) : app :=
  {| ap_view := ap_view a; ap_key := ap_key a; ap_replaceRoot := ap_replaceRoot a; ap_history := ap_history a; ap_asked := S (ap_asked a) |}.

(** The effect that follows the pages in the history. *)
Definition settings_effect (a : app) : app :=
  let '{| v_isWide := isWide; v_open := open; v_detail := detail |} := ap_view a in
  if isWide || negb open then set_refs None false a else
  match resolveMobileSettingsHistoryWriteAction (ap_key a) detail (ap_replaceRoot a) with
  | WriteNone => set_refs (ap_key a) false a
  | WriteReplace => set_refs (Some (mobileSettingsHistoryKey detail)) false (set_history (replaceState (createMobileSettingsHistoryState detail) (ap_history a)) a)
  | WritePush => set_refs (Some (mobileSettingsHistoryKey detail)) false (set_history (pushState (createMobileSettingsHistoryState detail) (ap_history a)) a)
  end.
(** A handler's changes of state, and the render after it. *)
Definition render (v : view) (a : app) : app := if decide (v = ap_view a) then a else settings_effect (set_view v a).
Definition show (open : bool) (detail : option string) (a : app) : app :=
  render {| v_isWide := v_isWide (ap_view a); v_open := open; v_detail := detail |} a.

(** * The handlers *)

Definition closeSettingsPanel : app -> app := show false None.
Definition openSettingsRoot : app -> app := show true None.
Definition openSettingsPeer (detail : string) (a : app) : app :=
  if v_isWide (ap_view a) && v_open (ap_view a) && bool_decide (v_detail (ap_view a) = Some detail) then closeSettingsPanel a
  else show true (Some detail) a.
Definition openSettingsChild (detail : string) : app -> app := show true (Some detail).
Definition openSettingsDetail (detail : string) (a : app) : app :=
  if isSettingsPeerDetail (VStr detail) then openSettingsPeer detail a else openSettingsChild detail a.
Definition handleDesktopSettingsSelect (a : app) : app :=
  if v_open (ap_view a) && bool_decide (v_detail (ap_view a) = None) then closeSettingsPanel a else openSettingsRoot a.
(** On a narrow screen, with the settings open and followed in the history. *)
Definition followed (a : app) : bool := negb (v_isWide (ap_view a)) && v_open (ap_view a) && negb (bool_decide (ap_key a = None)).
Definition is_child (a : app) : bool := match pageKind (v_detail (ap_view a)) with ChildPage => true | _ => false end.
Definition handleSettingsDetailBack (a : app) : app :=
  if followed a && is_child a then history_back a else if is_child a then openSettingsRoot a else closeSettingsPanel a.
Definition handleMobileSettingsBackButton (a : app) : app :=
  if followed a then history_back a else if is_child a then show (v_open (ap_view a)) None a else closeSettingsPanel a.
Definition handleMobileSettingsRootShortcut (a : app) : app :=
  match pageKind (v_detail (ap_view a)) with
  | RootPage => a
  | _ => if followed a && is_child a then history_back a else show (v_open (ap_view a)) None a
  end.
Definition openMobileSettingsShortcutDetail (detail : string) (a : app) : app :=
  if bool_decide (v_detail (ap_view a) = Some detail) then a else
  openSettingsPeer detail (if negb (v_isWide (ap_view a)) && v_open (ap_view a) then set_refs (ap_key a) true a else a).
(** What the Android shell's back key does; closing the terminal or the preview is no
    business of the settings. *)
Definition handleAndroidNativeBack (terminalOpen chatPreviewOpen : bool) (a : app) : app :=
  if negb (v_isWide (ap_view a)) && (terminalOpen || chatPreviewOpen) then a
  else if followed a then history_back a
  else if v_isWide (ap_view a) || negb (v_open (ap_view a)) then a
  else show (is_child a) None (set_refs None false a).
Definition closeSkillDetail (a : app) : app :=
  if negb (v_isWide (ap_view a)) && bool_decide (v_detail (ap_view a) = Some "skillDetail"%string) then show (v_open (ap_view a)) (Some "skills"%string) a else a.
Definition requestSkillDetail (a : app) : app := if v_isWide (ap_view a) then a else show true (Some "skillDetail"%string) a.
Definition createChatFilePeekHistoryState : value := VObj [("kind"%string, VStr "wheelmaker:chat-file-peek")].
(** [openPortRelayWorkbenchTab]: [active] is [chatFilePeekHistoryActiveRef]; refused without
    a port or an access code, it shows the page where they are set. *)
Definition openPortRelayWorkbenchTab (active : bool) (a : app) : app :=
  if v_isWide (ap_view a) then a else
  show false (v_detail (ap_view a)) (if active then a else set_history (pushState createChatFilePeekHistoryState (ap_history a)) a).
Definition openPortRelay_refused : app -> app := show true (Some "portRelay"%string).
(** A preview opened over the chat, and the other places that hide the settings. *)
Definition openChatFilePeek (active : bool) (a : app) : app :=
  if v_isWide (ap_view a) || active then a else set_history (pushState createChatFilePeekHistoryState (ap_history a)) a.
Definition hideSettings (a : app) : app := show false (v_detail (ap_view a)) a.
Definition resize (isWide : bool) (a : app) : app :=
  render {| v_isWide := isWide; v_open := v_open (ap_view a); v_detail := v_detail (ap_view a) |} a.

(** The browser has moved: [handleMobileSettingsPopState] with the state it is at. *)
Definition handleMobileSettingsPopState (a : app) : app :=
  let nextState := hi_current (ap_history a) in
  let nextIsMobileSettingsHistory := isMobileSettingsHistoryState nextState in
  if negb nextIsMobileSettingsHistory && bool_decide (ap_key a = None) then a else
  let action := resolveMobileSettingsPopAction (v_open (ap_view a)) (v_detail (ap_view a)) nextState in
  let a := set_refs (if nextIsMobileSettingsHistory then Some (mobileSettingsHistoryKey (state_detail nextState)) else None) (ap_replaceRoot a) a in
  match action with
  | BackToRoot => show (v_open (ap_view a)) (if nextIsMobileSettingsHistory then state_detail nextState else None) a
  | CloseSettings => show false None a
  | PopNone => a
  end.
(** Back, by the user or at last as asked; [None] when the page is left. *)
Definition press_back (a : app) : option app := (fun h => handleMobileSettingsPopState (set_history h a)) <$> move_back (ap_history a).
Definition press_forward (a : app) : app :=
  match move_forward (ap_history a) with Some h => handleMobileSettingsPopState (set_history h a) | None => a end.
Definition make_asked (a : app) : option app :=
  match ap_asked a with
  | O => Some a
  | S n => press_back {| ap_view := ap_view a; ap_key := ap_key a; ap_replaceRoot := ap_replaceRoot a; ap_history := ap_history a; ap_asked := n |}
  end.

Inductive settings_event :=
  | OnRoot | OnPeer (detail : string) | OnChild (detail : string) | OnDetail (detail : string) | OnDesktopSelect | OnClose
  | OnDetailBack | OnBackButton | OnRootShortcut | OnShortcut (detail : string) | OnAndroidBack (terminalOpen chatPreviewOpen : bool)
  | OnCloseSkill | OnSkill | OnPortRelay (active : bool) | OnPortRelayRefused | OnPeek (active : bool) | OnHide | OnResize (isWide : bool)
  | OnBack | OnForward | OnAsked.
Definition step (a : app) (e : settings_event) : option app :=
  match e with
  | OnRoot => Some (openSettingsRoot a)
  | OnPeer d => Some (openSettingsPeer d a)
  | OnChild d => Some (openSettingsChild d a)
  | OnDetail d => Some (openSettingsDetail d a)
  | OnDesktopSelect => Some (handleDesktopSettingsSelect a)
  | OnClose => Some (closeSettingsPanel a)
  | OnDetailBack => Some (handleSettingsDetailBack a)
  | OnBackButton => Some (handleMobileSettingsBackButton a)
  | OnRootShortcut => Some (handleMobileSettingsRootShortcut a)
  | OnShortcut d => Some (openMobileSettingsShortcutDetail d a)
  | OnAndroidBack t p => Some (handleAndroidNativeBack t p a)
  | OnCloseSkill => Some (closeSkillDetail a)
  | OnSkill => Some (requestSkillDetail a)
  | OnPortRelay active => Some (openPortRelayWorkbenchTab active a)
  | OnPortRelayRefused => Some (openPortRelay_refused a)
  | OnPeek active => Some (openChatFilePeek active a)
  | OnHide => Some (hideSettings a)
  | OnResize w => Some (resize w a)
  | OnBack => press_back a
  | OnForward => Some (press_forward a)
  | OnAsked => make_asked a
  end.
(** The first render, on whatever history the page was loaded with. *)
Definition start (v : view) (h : history) : app :=
  settings_effect {| ap_view := v; ap_key := None; ap_replaceRoot := false; ap_history := h; ap_asked := 0 |}.
Fixpoint run (es : list settings_event) (a : app) : option app :=
  match es with [] => Some a | e :: es => step a e ≫= run es end.

(** * The settings open on a narrow screen are followed in the history *)

Definition tracked (a : app) : Prop := v_isWide (ap_view a) = false -> v_open (ap_view a) = true -> ap_key a <> None.

Lemma effect_tracked a : tracked (settings_effect a).
Proof.
  unfold tracked, settings_effect. destruct a as [[w o d] k rr h n]. cbn [ap_view]. destruct w, o; try (intros X Y; discriminate X || discriminate Y). cbn [orb negb ap_key ap_replaceRoot].
  destruct (resolveMobileSettingsHistoryWriteAction k d rr) eqn:E; [done..|].
  intros _ _ K. cbn in K. subst k. unfold resolveMobileSettingsHistoryWriteAction in E. by rewrite bool_decide_false in E by done.
Qed.
Lemma render_tracked v a : tracked a -> tracked (render v a).
Proof. intros T. unfold render. case_decide; [done|]. apply effect_tracked. Qed.
Lemma effect_view a : ap_view (settings_effect a) = ap_view a.
Proof. unfold settings_effect. destruct a as [[w o d] k rr h n]. cbn. destruct (w || negb o); [done|]. by case_match. Qed.
Lemma render_view v a : ap_view (render v a) = v.
Proof. unfold render. case_decide; [done|]. apply effect_view. Qed.
(** The effect makes any state tracked, so that only what renders nothing matters. *)
Lemma render_changed v a : v <> ap_view a -> tracked (render v a).
Proof. intros N. unfold render. rewrite decide_False by done. apply effect_tracked. Qed.

Lemma popstate_tracked a : tracked a -> tracked (handleMobileSettingsPopState a).
Proof.
  intros T. unfold handleMobileSettingsPopState. destruct (isMobileSettingsHistoryState _) eqn:E; cbn [negb andb].
  - destruct (resolveMobileSettingsPopAction _ _ _); try (by apply render_tracked). done.
  - destruct (bool_decide_reflect (ap_key a = None)); [done|]. unfold resolveMobileSettingsPopAction. rewrite E.
    destruct (v_open (ap_view a)) eqn:O; cbn [negb].
    + assert (tracked (show false None (set_refs None (ap_replaceRoot a) a))).
      { apply render_changed. cbn. intros X. by rewrite <- X in O. }
      by destruct (pageKind _).
    + unfold tracked. cbn. by rewrite O.
Qed.

Lemma refs_tracked key rr a : (ap_key a <> None -> key <> None) -> tracked a -> tracked (set_refs key rr a).
Proof. unfold tracked. cbn. auto. Qed.
Lemma asked_tracked a : tracked a -> tracked (history_back a).
Proof. done. Qed.
Lemma history_tracked h a : tracked a -> tracked (set_history h a).
Proof. done. Qed.
#[local] Hint Resolve render_tracked asked_tracked history_tracked refs_tracked popstate_tracked : core.

Lemma peer_tracked d a : tracked a -> tracked (openSettingsPeer d a).
Proof. intros T. unfold openSettingsPeer, closeSettingsPanel, show. case_match; auto. Qed.
Lemma back_tracked a a' : tracked a -> press_back a = Some a' -> tracked a'.
Proof. intros T. unfold press_back. destruct (move_back _); [|done]. intros [= <-]. auto. Qed.
Lemma android_tracked t p a : tracked a -> tracked (handleAndroidNativeBack t p a).
Proof.
  intros T. unfold handleAndroidNativeBack. destruct (_ && (t || p)); [done|]. destruct (followed a) eqn:F; [done|].
  destruct (v_isWide (ap_view a)) eqn:W; [done|]. destruct (v_open (ap_view a)) eqn:O; [|done].
  unfold followed in F. rewrite W, O in F. cbn [negb andb] in F. destruct (bool_decide_reflect (ap_key a = None)) as [K|]; [|done].
  by destruct (T W O).
Qed.
Lemma step_tracked a e a' : tracked a -> step a e = Some a' -> tracked a'.
Proof.
  intros T. destruct e; try (intros [= <-]; []); unfold openSettingsDetail, handleDesktopSettingsSelect, handleSettingsDetailBack, handleMobileSettingsBackButton, handleMobileSettingsRootShortcut, openMobileSettingsShortcutDetail,
    closeSkillDetail, requestSkillDetail, openPortRelayWorkbenchTab, openPortRelay_refused, openChatFilePeek, hideSettings, resize,
    openSettingsRoot, openSettingsChild, closeSettingsPanel, show, press_forward.
  all: try solve [repeat case_match; auto using peer_tracked, android_tracked].
  - intros E. by apply (back_tracked a).
  - cbn [step]. unfold make_asked. destruct (ap_asked a); intros E; [by simplify_eq|]. by eapply back_tracked in E.
Qed.
Lemma run_tracked es a a' : tracked a -> run es a = Some a' -> tracked a'.
Proof.
  revert a. induction es as [|e es IH]; intros a T; [by intros [= <-]|]. cbn. destruct (step a e) eqn:E; [|done]. cbn. apply IH. by eapply step_tracked.
Qed.

(** * Back leaves the settings *)

(** How many states of the settings lie next to the current one. *)
Fixpoint settings_run (back : list value) : nat :=
  match back with s :: r => if isMobileSettingsHistoryState s then S (settings_run r) else O | [] => O end.
(** Back, pressed at most [n] times, closes the settings or leaves the page. *)
Fixpoint closes_within (n : nat) (a : app) : Prop :=
  v_open (ap_view a) = false \/
  match n with
  | O => False
  | S n => match press_back a with None => True | Some b => closes_within n b end
  end.
Definition narrow_open (detail : option string) : view := {| v_isWide := false; v_open := true; v_detail := detail |}.

(** An effect that finds its page in the key writes nothing. *)
Lemma render_same_page d a : ap_key a = Some (mobileSettingsHistoryKey d) -> ap_history (render (narrow_open d) a) = ap_history a /\ ap_key (render (narrow_open d) a) = ap_key a.
Proof.
  intros K. unfold render. case_decide; [done|]. unfold settings_effect, set_view, narrow_open. cbn [ap_view orb negb ap_key ap_replaceRoot].
  unfold resolveMobileSettingsHistoryWriteAction. by rewrite K, bool_decide_true by done.
Qed.
Lemma render_closed w d a : ap_history (render {| v_isWide := w; v_open := false; v_detail := d |} a) = ap_history a.
Proof. unfold render. case_decide; [done|]. unfold settings_effect. cbn. by rewrite orb_true_r. Qed.

(** One press from a page of the settings that is followed. *)
Lemma press_spec a s r d :
  ap_view a = narrow_open d -> ap_key a <> None -> hi_back (ap_history a) = s :: r ->
  exists b, press_back a = Some b /\ hi_back (ap_history b) = r /\ hi_current (ap_history b) = s /\
    match pageKind d, isMobileSettingsHistoryState s with
    | ChildPage, true => ap_view b = narrow_open (state_detail s) /\ ap_key b <> None
    | RootPage, true => ap_view b = narrow_open d /\ ap_key b <> None
    | _, _ => v_open (ap_view b) = false
    end.
Proof.
  intros V K B. unfold press_back, move_back. rewrite B. cbn. eexists. split; [done|]. unfold handleMobileSettingsPopState.
  cbn [ap_history set_history hi_current ap_key ap_view]. rewrite (bool_decide_false (ap_key a = None)), andb_false_r by done.
  rewrite V. unfold resolveMobileSettingsPopAction. cbn [v_open narrow_open v_detail negb].
  destruct (pageKind d); [|unfold show; by rewrite render_closed, render_view|]; destruct (isMobileSettingsHistoryState s) eqn:M; cbn [set_refs ap_view];
    try (unfold show; by rewrite render_closed, render_view); unfold show; cbn [ap_view v_isWide v_open narrow_open set_history set_refs]; try rewrite V.
  - done.
  - match goal with |- context [render ?v ?a'] => replace v with (narrow_open (state_detail s)) by done; pose proof (render_same_page (state_detail s) a') as P end.
    destruct P as [-> ->]; [done|]. rewrite render_view. done.
Qed.

Lemma followed_open a d : ap_view a = narrow_open d -> ap_key a <> None -> followed a = true.
Proof. intros V K. unfold followed. rewrite V. by rewrite bool_decide_false. Qed.
Lemma narrow_view a : v_isWide (ap_view a) = false -> v_open (ap_view a) = true -> ap_view a = narrow_open (v_detail (ap_view a)).
Proof. destruct a as [[w o d] k rr h n]. cbn. by intros -> ->. Qed.
Lemma closed_within n a : v_open (ap_view a) = false -> closes_within n a.
Proof. destruct n; by left. Qed.

Lemma closes_open back : forall a d, hi_back (ap_history a) = back -> ap_view a = narrow_open d -> ap_key a <> None -> closes_within (S (settings_run back)) a.
Proof.
  induction back as [|s r IH]; intros a d B V K; right.
  - unfold press_back, move_back. by rewrite B.
  - destruct (press_spec a s r d V K B) as (b & -> & Bb & _ & E). cbn [settings_run].
    destruct (pageKind d), (isMobileSettingsHistoryState s); try (by apply closed_within); destruct E as [Vb Kb]; by eapply IH.
Qed.

(** C14. However the settings were reached, on whatever history the page was loaded with: when
    they are open on a narrow screen, their own back button asks for the browser's back, and so
    does the Android key unless the terminal or the preview is open, which it closes instead,
    leaving the settings as they are; back, pressed often enough to go past the states of the
    settings below, closes them or leaves the page; and back from a child page onto a state of
    the settings shows the page of that state. *)
Theorem settings_back_closes (v : view) (h : history) (es : list settings_event) (a : app)
    (R : run es (start v h) = Some a) (W : v_isWide (ap_view a) = false) (O : v_open (ap_view a) = true) :
  handleMobileSettingsBackButton a = history_back a /\
  (forall terminalOpen chatPreviewOpen, handleAndroidNativeBack terminalOpen chatPreviewOpen a =
     if terminalOpen || chatPreviewOpen then a else history_back a) /\
  closes_within (S (settings_run (hi_back (ap_history a)))) a /\
  (forall b, press_back a = Some b -> is_child a = true ->
     if isMobileSettingsHistoryState (hi_current (ap_history b)) then ap_view b = narrow_open (state_detail (hi_current (ap_history b)))
     else v_open (ap_view b) = false).
Proof.
  assert (ap_key a <> None) as K by (eapply run_tracked; [apply effect_tracked|exact R|done..]).
  pose proof (narrow_view a W O) as V. pose proof (followed_open a _ V K) as F. split_and!.
  - unfold handleMobileSettingsBackButton. by rewrite F.
  - intros t p. unfold handleAndroidNativeBack. rewrite F, W. by destruct (t || p).
  - by eapply closes_open.
  - intros b P Y. unfold is_child in Y. destruct (hi_back (ap_history a)) as [|s r] eqn:B; [unfold press_back, move_back in P; by rewrite B in P|].
    destruct (press_spec a s r _ V K B) as (b' & P' & _ & C & E). rewrite P in P'. injection P' as <-. rewrite C.
    destruct (pageKind (v_detail (ap_view a))); try done. destruct (isMobileSettingsHistoryState s); [apply E|exact E].
Qed.

Definition home : value := VObj [("page"%string, VStr "chat")].
Definition home_history : history := {| hi_back := []; hi_current := home; hi_forward := [] |}.
Definition narrow_closed : view := {| v_isWide := false; v_open := false; v_detail := None |}.
(** Open the settings, the skills, a skill. *)
Definition to_skill : list settings_event := [OnRoot; OnShortcut "skills"; OnSkill].
Definition run_app (es : list settings_event) : app := default (start narrow_closed home_history) (run es (start narrow_closed home_history)).

Lemma settings_back_closes_witness :
  ap_view (run_app to_skill) = narrow_open (Some "skillDetail"%string) /\
  closes_within 2 (run_app to_skill) /\ handleMobileSettingsBackButton (run_app to_skill) = history_back (run_app to_skill).
Proof.
  assert (run to_skill (start narrow_closed home_history) = Some (run_app to_skill)) as R by (vm_compute; reflexivity).
  destruct (settings_back_closes narrow_closed home_history to_skill (run_app to_skill) R) as (H1 & _ & H3 & _); [reflexivity..|].
  split; [vm_compute; reflexivity|]. split; [exact H3|exact H1].
Defined.

(** From a page that is where its key says, a child and back are nothing. *)
Lemma child_returns a d child :
  ap_view a = narrow_open d -> ap_key a = Some (mobileSettingsHistoryKey d) -> ap_replaceRoot a = false ->
  hi_current (ap_history a) = createMobileSettingsHistoryState d ->
  d ∈ None :: map Some SETTINGS_PEER_DETAILS -> child ∈ SETTINGS_CHILD_DETAILS ->
  exists b, press_back (openSettingsChild child a) = Some b /\ ap_view b = ap_view a /\ ap_key b = ap_key a /\
    hi_back (ap_history b) = hi_back (ap_history a) /\ hi_current (ap_history b) = hi_current (ap_history a).
Proof.
  intros V K Q C D I. destruct a as [av ak rr [hb hc hf] n]. cbn in V, K, Q, C. subst.
  unfold SETTINGS_CHILD_DETAILS in I. cbn [map SETTINGS_PEER_DETAILS] in D. rewrite !elem_of_cons, elem_of_nil in D. rewrite !elem_of_cons, elem_of_nil in I.
  destruct_or!; try done; subst; eexists; (split; [vm_compute; reflexivity|by vm_compute]).
Qed.

(** The key of a page names it. *)
Lemma history_key_roundtrip d : isSettingsDetailId (detail_value d) = true \/ d = None -> detailFromMobileSettingsHistoryKey (Some (mobileSettingsHistoryKey d)) = detail_value d.
Proof.
  intros [D| ->]; [|reflexivity]. destruct d as [s|]; [|done]. cbn [detail_value] in *. unfold isSettingsDetailId, isSettingsPeerDetail, isSettingsChildDetail, includes_detail in D.
  apply orb_true_iff in D. rewrite !bool_decide_eq_true in D. unfold SETTINGS_PEER_DETAILS, SETTINGS_CHILD_DETAILS in D.
  rewrite !elem_of_cons, elem_of_nil in D. destruct_or!; try done; subst; reflexivity.
Qed.

(** The close button of a skill replaces its state by that of the skills, which is then
    twice in the history.  Back closes the settings on the older one, whose key the effect
    forgets; opened again, the settings push the root above it, and back shows the root
    again: the key press does nothing. *)
Lemma back_absorbed :
  let before := run_app (to_skill ++ [OnCloseSkill; OnBack; OnRoot]) in
  ap_view before = narrow_open None /\ ap_view <$> press_back before = Some (ap_view before).
Proof. split; vm_compute; reflexivity. Qed.
