(* ===== verification/ShellGeometry.v ===== *)
(** The geometry of the shell: [chat/layout/chatScrollIntent.ts],
    [chat/layout/chatScrollBottomButton.ts], [chat/layout/wideProjectActionPopover.ts] and
    [shell/layouts/mobile/floatingControls.ts].

    Heights and offsets are the rationals that finite numbers denote; where the code guards
    against numbers that are not finite, they are [num]s. *)

From Stdlib Require Import Qround Lqa.
From S2P Require Import Prelude HubPreferences WorkspaceUi.
Open Scope Z_scope.

(** * Scrolling of the chat *)

Definition CHAT_USER_SCROLL_LOCK_MS : Z := 320.
Definition nextChatUserScrollLockUntil (now durationMs : Z) : Z := now + Z.max 0 durationMs.
Definition isChatUserScrollLocked (lockUntil now : Z) : bool := now <? lockUntil.
Definition shouldAutoScrollChatToBottom (force followsLatest pointerScrolling userScrollLocked : bool) : bool :=
  force || (followsLatest && negb pointerScrolling && negb userScrollLocked).

Definition CHAT_KEYBOARD_INSET_OPEN_THRESHOLD_PX : Z := 72.
Definition normalizeChatKeyboardInset (v : num) : Z := match v with Fin q => Z.max 0 (round q) | _ => 0 end.
Definition resolveChatKeyboardLayoutViewportHeight (current previous visual offsetTop : num) : Z :=
  let currentLayoutViewportHeight := normalizeChatKeyboardInset current in
  let visualViewportHeight := normalizeChatKeyboardInset visual in
  let visualViewportOffsetTop := normalizeChatKeyboardInset offsetTop in
  let layoutFollowsVisualViewport :=
    (0 <? currentLayoutViewportHeight) && (0 <? visualViewportHeight) && (visualViewportOffsetTop <=? 4) &&
    (Z.abs (currentLayoutViewportHeight - visualViewportHeight) <? CHAT_KEYBOARD_INSET_OPEN_THRESHOLD_PX) in
  if layoutFollowsVisualViewport then currentLayoutViewportHeight
  else Z.max currentLayoutViewportHeight (normalizeChatKeyboardInset previous).
Definition resolveChatKeyboardInset (inner : num) (layout : option num) (visual offsetTop : num) (threshold : option num) : Z :=
  let windowInnerHeight := normalizeChatKeyboardInset inner in
  let layoutViewportHeight := Z.max windowInnerHeight (normalizeChatKeyboardInset (default (of_Z 0) layout)) in
  let visualViewportHeight := normalizeChatKeyboardInset visual in
  let visualViewportOffsetTop := normalizeChatKeyboardInset offsetTop in
  let openThreshold := normalizeChatKeyboardInset (default (of_Z CHAT_KEYBOARD_INSET_OPEN_THRESHOLD_PX) threshold) in
  let visualViewportBottomGap := Z.max 0 (layoutViewportHeight - (visualViewportHeight + visualViewportOffsetTop)) in
  let visualViewportHeightGap := Z.max 0 (layoutViewportHeight - visualViewportHeight) in
  if openThreshold <=? visualViewportHeightGap then visualViewportBottomGap else 0.
Inductive ChatKeyboardInsetScrollAction := ScrollNone | ScrollImmediate | ScrollDeferred.
Definition resolveChatKeyboardInsetScrollAction (previous next : num) : ChatKeyboardInsetScrollAction :=
  let previousInset := normalizeChatKeyboardInset previous in
  let nextInset := normalizeChatKeyboardInset next in
  if nextInset =? previousInset then ScrollNone else if previousInset <? nextInset then ScrollImmediate else ScrollDeferred.

Definition finite_positive (v : num) : Q := match v with Fin q => Qmax 0 q | _ => 0%Q end.
Definition resolveChatScrollBottomTop (scrollHeight clientHeight : num) : Q := Qmax 0 (finite_positive scrollHeight - finite_positive clientHeight).
Record ChatScrollToBottomVisibility := { sv_atBottom : bool; sv_showScrollToBottom : bool }.
Definition resolveChatScrollToBottomVisibility (scrollTop scrollHeight clientHeight threshold : num) : ChatScrollToBottomVisibility :=
  let scrollTop := finite_positive scrollTop in
  let scrollHeight := finite_positive scrollHeight in
  let clientHeight := finite_positive clientHeight in
  let threshold := finite_positive threshold in
  let distanceFromBottom := Qmax 0 (resolveChatScrollBottomTop (Fin scrollHeight) (Fin clientHeight) - scrollTop) in
  let scrollable := negb (Qle_bool scrollHeight (clientHeight + 1)) in
  let atBottom := negb scrollable || Qle_bool distanceFromBottom threshold in
  {| sv_atBottom := atBottom; sv_showScrollToBottom := negb atBottom |}.

Inductive ChatSessionReadWindowUpdate := RevealTurn (turnIndex : Z) | FollowLatest (follow : bool) | ResetToLatest.
Definition resolveChatSessionReadWindowUpdate (useIncremental followsLatest : bool) (reveal : option num) : ChatSessionReadWindowUpdate :=
  let revealTurnIndex := match reveal with Some (Fin q) => Z.max 0 (trunc q) | _ => 0 end in
  if 0 <? revealTurnIndex then RevealTurn revealTurnIndex
  else if useIncremental then FollowLatest followsLatest else ResetToLatest.

Definition normalizeNonNegativePx (v : num) : Z := match v with Fin q => Z.max 0 (round q) | _ => 0 end.
Definition CHAT_SCROLL_BOTTOM_FALLBACK_OFFSET_PX : Z := 92.
Definition resolveChatScrollBottomButtonOffset (composerHeight keyboardInset composerGap fallbackOffset : num) : Z :=
  let normalizedComposerHeight := normalizeNonNegativePx composerHeight in
  let normalizedFallbackOffset := match fallbackOffset with Fin q => Z.max 0 (round q) | _ => CHAT_SCROLL_BOTTOM_FALLBACK_OFFSET_PX end in
  normalizeNonNegativePx keyboardInset +
  (if 0 <? normalizedComposerHeight then normalizedComposerHeight + normalizeNonNegativePx composerGap else normalizedFallbackOffset).

(** * The floating controls *)

Definition FLOATING_CONTROL_SIDE_HYSTERESIS_PX : Q := 24.
Definition FLOATING_CONTROL_COMPOSER_GAP_PX : Q := 12.
Record FloatingControlVerticalBounds := { fb_minTop : Q; fb_maxTop : Q }.
(** [true] is the right side. *)
Definition resolveFloatingControlDragSide (right : bool) (pointerX viewportWidth hysteresisPx : Q) : bool :=
  let midpoint := (viewportWidth / 2)%Q in
  if right then Qle_bool (midpoint - hysteresisPx) pointerX else negb (Qle_bool pointerX (midpoint + hysteresisPx)).

Definition FLOATING_CONTROL_DEFAULT_Y_RATIO : Q := 1 # 4.
Definition sanitize_ratio (ratio : Q) : Q := sanitizeFloatingControlYRatio (VNum (Fin ratio)) FLOATING_CONTROL_DEFAULT_Y_RATIO.
Definition floatingControlTopFromYRatio (ratio minTop maxTop : Q) : Z := round (minTop + (maxTop - minTop) * sanitize_ratio ratio).
Definition floatingControlYRatioFromTop (top minTop maxTop : Q) : Q :=
  if Qle_bool maxTop minTop then FLOATING_CONTROL_DEFAULT_Y_RATIO else sanitize_ratio ((top - minTop) / (maxTop - minTop)).
Definition resolveFloatingControlYRatioForStableTop (previousTop minTop maxTop fallbackRatio : Q) : Q :=
  if Qle_bool maxTop minTop then sanitize_ratio fallbackRatio else
  let clampedTop := Qmin maxTop (Qmax minTop previousTop) in
  floatingControlYRatioFromTop clampedTop minTop maxTop.
Definition resolveFloatingControlYRatioForBoundsChange (previousTop : Q) (previousHad nextHas : bool) (minTop maxTop fallbackRatio : Q) : Q :=
  if negb previousHad && nextHas then sanitize_ratio fallbackRatio
  else resolveFloatingControlYRatioForStableTop previousTop minTop maxTop fallbackRatio.
Definition resolveFloatingControlDefaultBounds (viewportHeight stackHeight safeAreaTopInset safeAreaBottomInset : Q)
    (defaultComposerTop : option Q) (composerGap : Q) : FloatingControlVerticalBounds :=
  let minTop := Qmax (safeAreaTopInset + 6) 6 in
  let bottomInset := Qmax (safeAreaBottomInset + 6) 6 in
  let viewportMaxTop := (viewportHeight - stackHeight - bottomInset)%Q in
  let composerMaxTop := match defaultComposerTop with None => viewportMaxTop | Some top => (top - stackHeight - composerGap)%Q end in
  {| fb_minTop := minTop; fb_maxTop := Qmax minTop (Qmin viewportMaxTop composerMaxTop) |}.
Definition resolveFloatingControlAvoidanceBounds (defaultBounds : FloatingControlVerticalBounds)
    (viewportHeight keyboardOffset stackHeight safeAreaBottomInset : Q) (composerTop : option Q) (composerGap : Q) : FloatingControlVerticalBounds :=
  let bottomInset := Qmax (safeAreaBottomInset + 6) 6 in
  let viewportMaxTop := (viewportHeight - keyboardOffset - stackHeight - bottomInset)%Q in
  let composerMaxTop := match composerTop with None => viewportMaxTop | Some top => (top - stackHeight - composerGap)%Q end in
  {| fb_minTop := fb_minTop defaultBounds;
     fb_maxTop := Qmax (fb_minTop defaultBounds) (Qmin (Qmin (fb_maxTop defaultBounds) viewportMaxTop) composerMaxTop) |}.
Definition GESTURE_CLICK_CANCEL_PX : Q := 12.
Definition GESTURE_MOVE_LONG_PRESS_MS : Q := 1000.
Definition shouldCancelGestureClick (distancePx : Q) : bool := Qle_bool GESTURE_CLICK_CANCEL_PX distancePx.
Definition shouldStartGestureMove (elapsedMs : Q) : bool := Qle_bool GESTURE_MOVE_LONG_PRESS_MS elapsedMs.

(** * The popover of a project's actions *)

Record WideProjectActionPopoverRect := { pr_left : option num; pr_top : Q; pr_right : Q; pr_bottom : Q }.
Record WideProjectActionPopoverPlacement := { pp_above : bool; pp_top : Z; pp_left : Z; pp_width : Z; pp_maxHeight : Z }.
Definition finiteNumberOr (v : option num) (fallback : Q) : Q := match v with Some (Fin q) => q | _ => fallback end.
Definition positiveNumberOr (v : option num) (fallback : Q) : Q :=
  let finite := finiteNumberOr v fallback in if Qle_bool finite 0 then fallback else finite.
Definition clamp (v mn mx : Q) : Q := Qmin (Qmax v mn) mx.
(** Before the numbers are rounded. *)
Record popover := { po_above : bool; po_top : Q; po_left : Q; po_width : Q; po_maxHeight : Q }.
Definition place_popover (anchor : WideProjectActionPopoverRect) (viewportWidth viewportHeight : num)
    (preferredWidth preferredMaxHeight : option num) (align_start : bool) (margin gap : option num) : popover :=
  let margin := positiveNumberOr margin 8 in
  let gap := positiveNumberOr gap 4 in
  let viewportWidth := Qmax 0 (finiteNumberOr (Some viewportWidth) 0) in
  let viewportHeight := Qmax 0 (finiteNumberOr (Some viewportHeight) 0) in
  let preferredWidth := positiveNumberOr preferredWidth 260 in
  let preferredMaxHeight := positiveNumberOr preferredMaxHeight 280 in
  let width := Qmax 0 (Qmin preferredWidth (viewportWidth - margin * 2)) in
  let anchorStart := finiteNumberOr (pr_left anchor) (pr_right anchor) in
  let horizontalOrigin := if align_start then anchorStart else (pr_right anchor - width)%Q in
  let left := clamp horizontalOrigin margin (Qmax margin (viewportWidth - width - margin)) in
  let availableBelow := Qmax 0 (viewportHeight - pr_bottom anchor - gap - margin) in
  let availableAbove := Qmax 0 (pr_top anchor - gap - margin) in
  let openAbove := negb (Qle_bool (Qmin 160 preferredMaxHeight) availableBelow) && negb (Qle_bool availableAbove availableBelow) in
  let viewportMaxHeight := Qmax 0 (viewportHeight - margin * 2) in
  let maxHeight := Qmin (Qmin preferredMaxHeight viewportMaxHeight) (Qmax 80 (if openAbove then availableAbove else availableBelow)) in
  let top :=
    if openAbove then Qmax (margin + maxHeight) (pr_top anchor - gap)
    else Qmin (pr_bottom anchor + gap) (Qmax margin (viewportHeight - margin - maxHeight)) in
  {| po_above := openAbove; po_top := top; po_left := left; po_width := width; po_maxHeight := maxHeight |}.
Definition resolveWideProjectActionPopoverPlacement (anchor : option WideProjectActionPopoverRect) (viewportWidth viewportHeight : num)
    (preferredWidth preferredMaxHeight : option num) (align_start : bool) (margin gap : option num) : option WideProjectActionPopoverPlacement :=
  anchor ← anchor;
  let p := place_popover anchor viewportWidth viewportHeight preferredWidth preferredMaxHeight align_start margin gap in
  Some {| pp_above := po_above p; pp_top := round (po_top p); pp_left := round (po_left p); pp_width := round (po_width p); pp_maxHeight := round (po_maxHeight p) |}.

(** * Bounds *)

Lemma Qle_bool_false a b : Qle_bool a b = false -> (b < a)%Q.
Proof. intros E. apply Qnot_le_lt. intros X%Qle_bool_iff. congruence. Qed.
Lemma Qmin_cases a b : (Qmin a b = a /\ a <= b \/ Qmin a b = b /\ b <= a)%Q.
Proof. unfold Qmin. destruct (Qle_bool a b) eqn:E; [left; split; [done|by apply Qle_bool_iff]|right; split; [done|by apply Qlt_le_weak, Qle_bool_false]]. Qed.
Lemma Qmax_cases a b : (Qmax a b = b /\ a <= b \/ Qmax a b = a /\ b <= a)%Q.
Proof. unfold Qmax. destruct (Qle_bool a b) eqn:E; [left; split; [done|by apply Qle_bool_iff]|right; split; [done|by apply Qlt_le_weak, Qle_bool_false]]. Qed.
(** Case analysis of every minimum and maximum, and linear arithmetic. *)
Ltac min_max_step a b m cases :=
  let q := fresh "q" in let E := fresh "E" in let X := fresh "X" in
  remember (m a b) as q eqn:E; destruct (cases a b) as [[X ?]|[X ?]]; rewrite X in E; clear X; subst q.
Ltac min_max :=
  repeat match goal with
  | |- context [Qmin ?a ?b] => min_max_step a b Qmin Qmin_cases
  | |- context [Qmax ?a ?b] => min_max_step a b Qmax Qmax_cases
  | H : context [Qmin ?a ?b] |- _ => min_max_step a b Qmin Qmin_cases
  | H : context [Qmax ?a ?b] |- _ => min_max_step a b Qmax Qmax_cases
  end.

Lemma default_bounds_ordered vh sh st sb ct g :
  let b := resolveFloatingControlDefaultBounds vh sh st sb ct g in (6 <= fb_minTop b)%Q /\ (fb_minTop b <= fb_maxTop b)%Q.
Proof. cbv zeta. unfold resolveFloatingControlDefaultBounds. cbn [fb_minTop fb_maxTop]. split; min_max; lra. Qed.
(** Avoiding the keyboard and the composer only lowers the largest top. *)
Lemma avoidance_within b vh ko sh sb ct g : (fb_minTop b <= fb_maxTop b)%Q ->
  let b' := resolveFloatingControlAvoidanceBounds b vh ko sh sb ct g in
  fb_minTop b' = fb_minTop b /\ (fb_minTop b' <= fb_maxTop b' <= fb_maxTop b)%Q.
Proof. intros O. cbv zeta. unfold resolveFloatingControlAvoidanceBounds. cbn [fb_minTop fb_maxTop]. split; [done|]. min_max; lra. Qed.

(** On a viewport wider than its margins, the popover lies between them. *)
Lemma popover_horizontal anchor w h pw ph al m g :
  let margin := positiveNumberOr m 8 in
  let vw := Qmax 0 (finiteNumberOr (Some w) 0) in
  let p := place_popover anchor w h pw ph al m g in
  (margin * 2 <= vw)%Q -> (margin <= po_left p)%Q /\ (0 <= po_width p)%Q /\ (po_left p + po_width p <= vw - margin)%Q.
Proof.
  cbv zeta. unfold place_popover. cbn [po_left po_width]. unfold clamp.
  set (margin := positiveNumberOr m 8). set (vw := Qmax 0 (finiteNumberOr (Some w) 0)). set (pf := positiveNumberOr pw 260).
  destruct al; [generalize (finiteNumberOr (pr_left anchor) (pr_right anchor)); intros o|];
    clearbody margin vw pf; intros H; split_and!; min_max; lra.
Qed.

(** A ratio is between 0 and 1. *)
Lemma sanitize_ratio_bounds r : (0 <= sanitize_ratio r <= 1)%Q.
Proof. apply (ratio_wf (VNum (Fin r))). Qed.

Lemma round_mono p q : (p <= q)%Q -> round p <= round q.
Proof.
  intros H. assert (forall x, round x = Qfloor (x + (1 # 2))) as R.
  { intros [n d]. unfold round, Qfloor, Qplus. cbn [Qnum Qden]. f_equal; lia. }
  rewrite !R. apply Qfloor_resp_le. lra.
Qed.
(** The top of a control is within whole bounds, whatever the ratio. *)
Lemma floating_top_bounds r lo hi : lo <= hi ->
  lo <= floatingControlTopFromYRatio r (inject_Z lo) (inject_Z hi) <= hi.
Proof.
  intros H. unfold floatingControlTopFromYRatio. pose proof (sanitize_ratio_bounds r) as [A B]. set (s := sanitize_ratio r) in *. clearbody s.
  assert (0 <= inject_Z hi - inject_Z lo)%Q as D by (rewrite Zle_Qle in H; lra).
  split.
  - rewrite <- (round_inject lo) at 1. apply round_mono. nra.
  - rewrite <- (round_inject hi) at 2. apply round_mono. nra.
Qed.
(** The ratio of a whole top within the bounds gives the top back. *)
Lemma floating_top_roundtrip top lo hi : lo < hi -> lo <= top <= hi ->
  floatingControlTopFromYRatio (floatingControlYRatioFromTop (inject_Z top) (inject_Z lo) (inject_Z hi)) (inject_Z lo) (inject_Z hi) = top.
Proof.
  intros H [A B]. unfold floatingControlYRatioFromTop.
  assert (inject_Z lo < inject_Z hi)%Q as L by (by rewrite <- Zlt_Qlt). rewrite Zle_Qle in A, B.
  destruct (Qle_bool (inject_Z hi) (inject_Z lo)) eqn:E; [apply Qle_bool_iff in E; lra|].
  set (q := ((inject_Z top - inject_Z lo) / (inject_Z hi - inject_Z lo))%Q).
  assert (q * (inject_Z hi - inject_Z lo) == inject_Z top - inject_Z lo)%Q as Q by (unfold q; field; lra).
  assert (0 <= q)%Q as Q0 by (unfold q; apply Qle_shift_div_l; lra). assert (q <= 1)%Q as Q1 by (unfold q; apply Qle_shift_div_r; lra).
  clearbody q. unfold floatingControlTopFromYRatio.
  assert (sanitize_ratio (sanitize_ratio q) == q)%Q as R.
  { unfold sanitize_ratio, sanitizeFloatingControlYRatio. min_max; lra. }
  transitivity (round (inject_Z top)); [|apply round_inject]. apply Z.le_antisymm; apply round_mono; rewrite R; lra.
Qed.

(** Whole inputs: the inset of the keyboard is never larger than the layout. *)
Lemma keyboard_inset_bounds inner layout visual offset threshold :
  0 <= resolveChatKeyboardInset inner layout visual offset threshold
    <= Z.max (normalizeChatKeyboardInset inner) (normalizeChatKeyboardInset (default (of_Z 0) layout)).
Proof.
  unfold resolveChatKeyboardInset. assert (forall v, 0 <= normalizeChatKeyboardInset v) as N by (intros []; cbn; lia).
  pose proof (N inner). pose proof (N visual). pose proof (N offset). case_match; lia.
Qed.
(** At the bottom there is no button, and one is shown exactly when it is not. *)
Lemma at_bottom_hides_button scrollHeight clientHeight threshold :
  sv_showScrollToBottom (resolveChatScrollToBottomVisibility (Fin (resolveChatScrollBottomTop scrollHeight clientHeight)) scrollHeight clientHeight threshold) = false.
Proof.
  unfold resolveChatScrollToBottomVisibility. cbn [sv_showScrollToBottom]. apply negb_false_iff, orb_true_iff. right. apply Qle_bool_iff.
  assert (forall q, Qmax 0 q = finite_positive (Fin q)) as F by done.
  assert (forall v, 0 <= finite_positive v)%Q as P by (intros [| | |q]; cbn; try lra; min_max; lra).
  unfold resolveChatScrollBottomTop. cbn [finite_positive]. pose proof (P scrollHeight). pose proof (P clientHeight). pose proof (P threshold).
  generalize dependent (finite_positive scrollHeight). generalize dependent (finite_positive clientHeight). generalize dependent (finite_positive threshold).
  intros. min_max; lra.
Qed.
